(* ===== verification/_CoqProject ===== *)
-Q . S2P
Prelude.v
GoStd.v
GoMap.v
GoFloat.v
Sha256.v
Domain.v
Event.v
Audience.v
AudienceSpec.v
Experiment.v
Flags.v
Store.v
AuditLog.v
GoFmt.v
Redact.v
RedactSpec.v
AuditSpec.v
MakerChecker.v
StoreLemmas.v
Forms.v
FlagsDB.v
Prompts.v
AIStore.v
AIGateway.v
AIGatewaySpec.v
Campaigns.v
CampaignLife.v
Ingest.v
IngestSpec.v
IngestQueue.v
Identity.v
IdentitySpec.v
Segments.v
SegmentsSpec.v
SegmentOps.v
Stages.v
StagesSpec.v
Scoring.v
ScoringSpec.v
ScoringDB.v
ScoringDBSpec.v
Statistics.v
Facts.v
Policy.v
Schedule.v
QuietHours.v
JourneyGraph.v
JourneyValidate.v
JourneyNodes.v
JourneyPublish.v
PublishingSpec.v
Jsonb.v
ExperimentDB.v
Rollout.v
ExperimentSpec.v
RolloutSpec.v
ExperimentWorld.v
JourneyDB.v
Projector.v
Drain.v
Suppression.v
Replay.v
ReplaySpec.v
JourneyRuntime.v
JourneyEffects.v
JourneyInvariants.v
JourneyOps.v
JourneySystem.v
JourneyTick.v
JourneyHazards.v
JourneyEnroll.v
JourneyFiring.v
Deliver.v
DeliverSpec.v
CampaignDeliver.v
CampaignDispatch.v
CampaignSpec.v
CampaignOnce.v
PublicGuard.v
FormSubmit.v
