(* ===== verification/Prelude.v ===== *)
(** * OpenJourney: a verification library

    OpenJourney (src/) is a customer-engagement server.  Clients post events;
    a projector turns each event into changes of profiles, consents, facts and
    journey runs; workers walk journey runs through their graphs and deliver
    messages; everything is a row of PostgreSQL and every worker takes its work
    from a table with SELECT ... FOR UPDATE SKIP LOCKED.  This library models
    that core as executable Rocq functions and proves what makes it correct.

    ** Conventions

    A Go function is a Rocq function of the same name.  A fallible one returns
    [result A]; one that touches the database, the network or a blob store is a
    computation [M W A := W -> result A * W] over a world [W].  A Go error keeps
    its format string and arguments, so [errors.Is] and wrapping are modelled
    ([Prelude.error]).  A table is a finite map or a list of records; a store
    method is the SQL it issues, its WHERE clause a boolean test, its SET list a
    row update, its unique indexes, CHECKs and foreign keys the errors they
    raise.  A transaction is a computation whose error leaves the database as it
    was.  SKIP LOCKED is a set of locked ids in the state, so a claim is proved
    for every choice of rows that other workers hold.  Ids are fresh for the set
    of ids ever used; [now()] is a field of the database, and the theorems let
    it advance between steps.  A time is its nanoseconds from the epoch; int and
    int64 arithmetic that can wrap is written with [i64] and [u64].  JSON is a
    syntax tree (members in order, duplicates kept, numbers as literals); the
    rules of encoding/json for fields, nulls and duplicates are in [GoStd.Json].

    ** Files

    - Language: [Prelude] (errors, computations, automation), [GoStd] (strings,
      numbers, JSON, time), [GoMap] (sorting, map iteration, case and space),
      [GoFloat] (IEEE binary64 on [spec_float], decimal literals, decoded
      values), [Sha256].
    - Data and interfaces: [Domain] (src/internal/domain/domain.go), [Event]
      (Event.Validate), [Store] (the groups of ports.Store methods as classes).
    - Events: [Ingest] is AcceptEvents and the projection queue
      (src/internal/postgres/store.go); [IngestSpec] proves that acceptance is
      idempotent; [IngestQueue] gives the queue a step relation and proves its
      per-subject order.  [Identity] is ensureProfile, resolveIdentity,
      mergeProfiles and unmergeProfile; [IdentitySpec] holds their theorems and
      hazards.  [Facts] is fact_projection.go.  [Projector] composes
      [Identity], [Facts], the journey tables and its own tables into
      ProjectEvent; [Drain] is the projector's loop (src/internal/projector)
      over an interface that [Projector] implements.  [Suppression] is
      delivery.go: what [Policy] reads of the projector's tables.
    - Replay: [Replay] is src/internal/replay and postgres/replay.go, the
      rebuilding of the profiles from the log and its comparison with the
      projector's tables; [ReplaySpec] gives [Build] its meaning (module
      [ReplaySpec]), relates it to [Projector] ([ReplayLive]) and holds the witness
      and the hazards ([ReplayWorld]).
    - Audit: [AuditLog] is the hash chain of admin.go, [AuditSpec] its theorems.
      [StoreLemmas] is the automation the store's components share: what a
      transaction, a statement and an audit append can return.
    - Publishing: [MakerChecker] is maker_checker.go; [JourneyPublish] (journey
      definitions and versions), [Forms] (forms, pages and assets), [FlagsDB]
      and [Prompts] are the store's methods that publish under it.
      [PublishingSpec] proves what the policy guarantees for all of them and, in
      its module [PublishingHazards], what it does not.
    - Audiences: [Audience] is the parser and compiler of the targeting language
      (src/internal/audience), [AudienceSpec] its theorems.  [Segments],
      [SegmentsSpec] and [SegmentOps] are membership and segments.go, [Stages]
      and [StagesSpec] the lifecycle stages, [Scoring], [ScoringSpec],
      [ScoringDB] and [ScoringDBSpec] the scoring models and their tables.
    - Campaigns: [Campaigns] is postgres/campaigns.go; [CampaignLife] gives the
      campaign tables a step relation; [CampaignDeliver] and [CampaignDispatch]
      are src/internal/campaigns (deliver.go, dispatch.go); [CampaignSpec] and
      [CampaignOnce] hold their theorems and hazards.
    - Experiments, flags, policy: [Experiment] (assignment), [Flags], [Policy],
      [Statistics] (src/internal/experiment/stats.go in binary64 and
      recommendWinner), [Jsonb] (what a jsonb column gives back),
      [ExperimentDB] (postgres/experiments.go and the experiment report),
      [Rollout] (rolling a winner out: campaigns, journeys, the handlers of
      httpapi/experiments.go); [ExperimentSpec], [RolloutSpec] and
      [ExperimentWorld] hold their theorems, the witnesses and the hazards.
    - The public edge: [PublicGuard] is publicguard.go of src/internal/httpapi
      (signed tokens, the token bucket), the authentication of a subject that
      messages.go and flags.go share, and the engagement endpoint of
      messages.go over an interface of the inbox; [FormSubmit] is form_submit.go over
      [Ingest] and [Forms].  Each file ends with its theorems (modules
      [PublicGuardSpec], [FormSubmitSpec]) and witnesses.
    - AI: [GoFmt] (shortest decimals, json.Marshal and fmt.Sprint of decoded
      values); [Redact] and [RedactSpec] (src/internal/ai/redact.go, prompt.go,
      retrieval.go); [AIStore] (postgres/ai.go, ai_activity.go,
      field_classifications.go); [AIGateway] (gateway.go over an interface),
      [AIGatewaySpec] (its theorems from the interface's laws and, in its module
      [AIWorld], the tables that satisfy the laws).
    - Journeys: [JourneyGraph] (graph.go and its codec), [JourneyValidate]
      (validate.go), [JourneyNodes] (nodes.go), [JourneyDB] (the journey tables,
      src/internal/postgres/journey_runtime.go), [JourneyRuntime] (TickNext).
      [JourneyEffects], [JourneyInvariants], [JourneyOps] and [JourneySystem]
      give the tables a step relation -- claims, advances, failures,
      reschedules, retries, cancellations, events, enrolments, in any order --
      with its invariants by rule induction; [JourneyTick] proves TickNext
      refines it; [JourneyHazards] shows what unguarded updates break.
      [Schedule], [JourneyEnroll] and [JourneyFiring] are enroll.go;
      [QuietHours], [Deliver] and [DeliverSpec] are message delivery.

    ** What the theorems show

    - Journeys: a live run always has a live step that will be claimed, unless
      it is dead, which a retry mends (no_run_lost); a run's transitions form a
      path to its current node, where no run has come to wait at another node
      between the SELECT and the UPDATE of a resolution (log_is_path); the
      worker's tick is a sequence of steps of the abstract system
      (TickNext_refines); finished runs stay finished (terminal_runs_final);
      replayed advances are harmless (advance_idempotent); the publication
      validator accepts exactly the graphs its specification, written with its
      own ranges, describes (Validate_iff); every node's result is well formed
      (execute_result_ok).
    - Messages: the policy answers "sent" exactly for the consenting,
      unsuppressed and uncapped (Evaluate_sent_iff); an adapter is called only
      with that clearance and outside quiet hours, failed reads of the quotas,
      the identities and the quiet hours excepted, which fail open
      (deliver_guarded); every claimed intent is released, or its UPDATE was
      refused and its lease runs out (delivery_releases); a projected
      unsubscribe stops sending while it is the latest word
      (unsubscribe_blocks composes [Projector] with [Policy]).
    - Events: acceptance is idempotent in any later state that still has the
      events (accept_idempotent) and refuses reused keys; events of one subject
      are projected in order, but for those whose failure was reported late
      (fifo); the projector's loop ends, whatever projections fail or panic, or
      returns the database's own refusal to claim or to record a failure
      (Drain_ends).
    - Replay: plain logs -- one identifier per event, no identity change and no
      bounce -- projected in the order of each subject verify
      (replay_matches_live): the projector and the replay are equal on them;
      merges, late events, new devices and bounces make intact logs fail
      (intact_logs_refused, a lemma of the hazards).
    - Identity: unmerging restores what merging took (unmerge_restores);
      resolving unifies every profile an event's keys reach (resolve_unifies);
      the tables keep their invariants under every operation
      (identity_invariants).
    - Audit: two verified logs of the same length and last hash are the same,
      but for a collision of SHA-256 or a separator inside a column
      (tamper_evident); but a real log reads back as tampered, and a restart
      repairs whatever was tampered with.
    - Publishing: the versions of a journey are numbered without gaps, each was
      valid, has an approver on record and never changes
      (journey_versions_sound).  That the approver is not the author holds for
      journeys only where [MakerChecker] finds the draft's audit rows, which
      the store writes under another name: the policy then refuses everybody
      (policy_blocks_everyone), and a rollout publishes around it
      (rollout_skips_checker); flags go around it too.
    - Audiences: the two evaluators of a segment agree where both work
      (segment_evaluators_agree), and a compiled rule binds its arguments in
      order (compiled_queries_bind); what Parse accepts compiles.  Once
      migration 063 has run no scoring model can be published or run
      (append_only_blocks); before it a model has one active version, if its
      publications come one after the other (one_active_version, a theorem that
      is not a property).
    - Experiments: a subject's variant is a function of seed and id and each
      variant's share is its weight's (Assign_share); once recorded it never
      changes (assignments_sticky); versions of a proposal are minted once, for
      declared variants (optimization_versions_sound); a journey rollout pins
      the winner on the experiment's nodes and nothing else
      (journey_rollout_pins).  The hazards: two first assignments at once, edits
      of a running experiment, a degenerate report, a rollout that no checker saw.
    - Campaigns: shards partition a campaign's audience (shards_partition),
      redispatching restores what the dispatch froze (redispatch_restores), no
      campaign is stuck while the transactions of its workers come one after the
      other (no_campaign_stuck), and a message is sent again only when the
      record of its outcome was lost (sends_accounted); the hazards show what a
      late failure, a crash, overlapping completions or a reconciliation breaks.
    - AI: a call to a model is recorded once and billed (Generate_recorded,
      Generate_billed); no provider is asked, first or for a repair, with the
      month's budget spent, nor for a version that is not published and
      evaluated, if the request names one (Generate_guarded); redaction hides
      whatever is not classified (Redact_hides) and data cannot leave its section
      of the prompt (GovernedPrompt_separates); but the copilots send nothing but
      masks (copilots_blind).
    - The public edge: a profile is looked up by external id only under a token
      that carries that id and the secret's HMAC (known_subject_needs_token),
      while the event of an engagement or an exposure can name anyone
      (engagement_names_anyone); the retry of a form submission that gives no
      consent changes nothing (retry_is_idempotent), but a token admits one
      submission for everybody who has it (token_admits_one), and everybody
      served within a second has the same.
    - The theorems of kind "error" exhibit behaviour the code gets wrong; each
      is a finding of the manifest.

    ** Fuel

    [Drain] takes as fuel the number of loop iterations; [Drain.work] counts
    the claims a queue has left and any larger fuel is proved to be enough.
    [Validate]'s graph walks take the number of nodes, which the proofs show to
    suffice.  [GoFmt.shortest] tries 17 digits, which identify a float64.  [GoStr.of_Z] takes the number of bits.

    ** Outside the model

    Parameters: the template engine, link rewriting, channel adapters, the
    blob store, the model providers, JSON Schema validation, the extension
    host, uuid.Parse, net.SplitHostPort, the captcha verifier, math.Erfc, time.Time.MarshalJSON, PostgreSQL's interval
    arithmetic, the order in which SQL returns unordered rows and Go ranges
    over a map, go/parser's ParseExpr and strconv.Unquote under the audience
    language, a database/sql Driver's renderings, time.Format, and the
    audience evaluator where journeys and flags call it. Telemetry and logging
    are left out; a context only carries cancellation. Text is bytes: case
    folding and trimming are ASCII. Not modelled: the HTTP layer and
    middleware (routing, decoding, API keys and sessions), the in-app inbox's tables and administration, provider clients, the process wiring
    under src/cmd, the WASM host, the web and SDK code, analytics reports
    other than the experiment report, catalogs, connectors, the operations
    worker, teams, SCIM and SAML. *)

From stdpp Require Export base gmap strings list fin_maps fin_sets fin_map_dom relations.
From Stdlib Require Export ZArith Lia.

#[global] Set Default Goal Selector "!".
Open Scope Z_scope.

(** ** Go errors

    An error is what the code builds: a sentinel compared by identity
    ([errors.New] at package level) or [fmt.Errorf fmt args].  Arguments keep
    their verb: [AWrap] is an error under [%w] (seen by [errors.Is]), [AErr]
    one under [%v] (not seen).  [DeliveryError] is the struct of that name in
    src/internal/channels/ses.go, whose [Unwrap] exposes its inner error. *)

Inductive error : Type :=
  | Sentinel (name : string)
  | Errorf (fmt : string) (args : list arg)
  | DeliveryError (inner : option error) (retryable invalidToken : bool)
with arg : Type :=
  | AStr (s : string)
  | AInt (z : Z)
  | AWrap (e : error)
  | AErr (e : error).

Definition errors_New (s : string) : error := Errorf s [].

(** The chain of [%w] arguments and inner errors, depth first, which
    [errors.Is] and [errors.As] walk; [f] is the test at each error. *)
Fixpoint errors_walk (f : error -> option bool) (e : error) : option bool :=
  match f e with
  | Some b => Some b
  | None =>
      match e with
      | Sentinel _ => None
      | Errorf _ args =>
          (fix go (l : list arg) : option bool :=
             match l with
             | [] => None
             | AWrap e' :: l' =>
                 match errors_walk f e' with Some b => Some b | None => go l' end
             | _ :: l' => go l'
             end) args
      | DeliveryError (Some e') _ _ => errors_walk f e'
      | DeliveryError None _ _ => None
      end
  end.

Definition errors_Is (e : error) (target : string) : bool :=
  match errors_walk (fun e => match e with
                              | Sentinel n => if bool_decide (n = target) then Some true else None
                              | _ => None
                              end) e with
  | Some b => b
  | None => false
  end.

(** ** Fallible values and stateful, fallible computations *)

Inductive result (A : Type) : Type :=
  | Ok (a : A)
  | Err (e : error).
Arguments Ok {A} _.
Arguments Err {A} _.

#[export] Instance result_ret : MRet result := fun A a => Ok a.
#[export] Instance result_bind : MBind result := fun A B f m =>
  match m with Ok a => f a | Err e => Err e end.

#[export] Instance result_fmap : FMap result := fun A B f m =>
  match m with Ok a => Ok (f a) | Err e => Err e end.

Definition map_err {A} (f : error -> error) (r : result A) : result A :=
  match r with Ok a => Ok a | Err e => Err (f e) end.

(** [fmt.Errorf(fmt, err)] around a failing call, the idiom
    [if err != nil { return fmt.Errorf("...: %w", err) }]. *)
Definition wrapw {A} (fmt : string) (r : result A) : result A :=
  map_err (fun e => Errorf fmt [AWrap e]) r.

Definition is_Ok {A} (r : result A) : bool :=
  match r with Ok _ => true | Err _ => false end.

Fixpoint mapM_result {A B} (f : A -> result B) (l : list A) : result (list B) :=
  match l with
  | [] => Ok []
  | x :: l' => y ← f x; ys ← mapM_result f l'; Ok (y :: ys)
  end.

(** A computation over a world [W] (the store, the network, the database):
    the world survives an error, as side effects do. *)
Definition M (W A : Type) : Type := W -> result A * W.

#[export] Instance M_ret W : MRet (M W) := fun A a w => (Ok a, w).
#[export] Instance M_bind W : MBind (M W) := fun A B f m w =>
  match m w with
  | (Ok a, w') => f a w'
  | (Err e, w') => (Err e, w')
  end.

Definition throw {W A} (e : error) : M W A := fun w => (Err e, w).
Definition lift {W A} (r : result A) : M W A := fun w => (r, w).
Definition wrapM {W A} (fmt : string) (m : M W A) : M W A :=
  fun w => match m w with (r, w') => (wrapw fmt r, w') end.
(** Run [m] and hand its error to the caller as a value ([v, err := m()]). *)
Definition try {W A} (m : M W A) : M W (result A) :=
  fun w => match m w with (r, w') => (Ok r, w') end.

(** [for _, x := range l { if err := f(x); err != nil { return err } }]. *)
Fixpoint iterM {W A} (f : A -> M W unit) (l : list A) : M W unit :=
  match l with
  | [] => mret tt
  | x :: l' => _ ← f x; iterM f l'
  end.

(** A computation that leaves the world alone. *)
Definition pureM {W A} (m : M W A) : Prop := forall w, (m w).2 = w.

(** ** Fixed-width integers of Go *)

Definition two63 : Z := 9223372036854775808.
Definition two64 : Z := 18446744073709551616.

(** [uint64(x)]: conversion and arithmetic wrap modulo 2^64. *)
Definition u64 (x : Z) : Z := x mod two64.
(** [int64] / [int] (64-bit platforms) arithmetic wraps into [-2^63, 2^63). *)
Definition i64 (x : Z) : Z := (x + two63) mod two64 - two63.

Lemma u64_small x : 0 <= x < two64 -> u64 x = x.
Proof. apply Z.mod_small. Qed.

Lemma u64_range x : 0 <= u64 x < two64.
Proof. apply Z.mod_pos_bound. reflexivity. Qed.

Lemma i64_small x : - two63 <= x < two63 -> i64 x = x.
Proof.
  intros H. unfold i64. rewrite Z.mod_small; [lia|].
  unfold two63, two64 in *. lia.
Qed.

Lemma i64_range x : - two63 <= i64 x < two63.
Proof.
  unfold i64. pose proof (Z.mod_pos_bound (x + two63) two64 eq_refl).
  unfold two63, two64 in *. lia.
Qed.

(** ** Automation *)

Create HintDb oj.
Create Rewrite HintDb oj_rw.
#[export] Hint Rewrite @u64_small @i64_small using (unfold two63, two64; lia) : oj_rw.
#[export] Hint Resolve u64_range i64_range : oj.

(** Invert hypotheses about [result] and [option] values. *)
Ltac inv_ok :=
  repeat match goal with
  | H : Ok _ = Ok _ |- _ => injection H as H; subst
  | H : Err _ = Err _ |- _ => injection H as H; subst
  | H : Ok _ = Err _ |- _ => discriminate H
  | H : Err _ = Ok _ |- _ => discriminate H
  | H : Some _ = Some _ |- _ => injection H as H; subst
  | H : Some _ = None |- _ => discriminate H
  | H : None = Some _ |- _ => discriminate H
  | H : (_, _) = (_, _) |- _ => injection H as; subst
  end.

(** The same after unfolding returns and throws. *)
Ltac inv_M :=
  repeat match goal with
  | H : mret _ _ = _ |- _ => unfold mret, M_ret in H
  | H : mret _ = _ |- _ => unfold mret, result_ret in H
  | H : throw _ _ = _ |- _ => unfold throw in H
  | H : lift _ _ = _ |- _ => unfold lift in H
  end; inv_ok.

(** Split the innermost scrutinee of a [match]/[if] in the goal or in [H]. *)
Ltac split_match :=
  match goal with
  | |- context [match ?x with _ => _ end] =>
      lazymatch x with context [match _ with _ => _ end] => fail | _ => destruct x eqn:? end
  end.
Ltac split_match_in H :=
  match type of H with
  | context [match ?x with _ => _ end] =>
      lazymatch x with context [match _ with _ => _ end] => fail | _ => destruct x eqn:? end
  end.

(** Unfold monadic plumbing. *)
Ltac unfold_M := unfold mbind, mret, M_bind, M_ret, throw, lift, wrapM, try, wrapw, map_err, result_bind, result_ret in *.

Lemma bind_Ok {A B} (m : result A) (f : A -> result B) b :
  (m ≫= f) = Ok b -> exists a, m = Ok a /\ f a = Ok b.
Proof. destruct m; simpl; [eauto | discriminate]. Qed.

Lemma bindM_Ok {W A B} (m : M W A) (f : A -> M W B) w b w' :
  (m ≫= f) w = (Ok b, w') -> exists a w1, m w = (Ok a, w1) /\ f a w1 = (Ok b, w').
Proof.
  unfold mbind, M_bind. destruct (m w) as [[a|e] w1]; intros H; [eauto | discriminate].
Qed.

Lemma bindM_eq {W A B} (m : M W A) (f : A -> M W B) w a w1 : m w = (Ok a, w1) -> (m ≫= f) w = f a w1.
Proof. intros H. unfold mbind, M_bind. by rewrite H. Qed.

(** An invariant of the body is an invariant of the loop, early exit included. *)
Lemma iterM_inv {W A} (f : A -> M W unit) (I : W -> Prop) l w :
  (forall a w, a ∈ l -> I w -> I (f a w).2) -> I w -> I (iterM f l w).2.
Proof.
  revert w. induction l as [|x l IH]; intros w Hf Hw; simpl; [done|].
  pose proof (Hf x w (list_elem_of_here _ _) Hw) as Hx. unfold mbind, M_bind. destruct (f x w) as [[u|e] w1]; [|done].
  apply IH; [|done]. intros a w2 Ha. apply Hf. by apply list_elem_of_further.
Qed.

(** When every iteration establishes its item's [P], and keeps the others',
    a loop that ends well establishes them all. *)
Lemma iterM_all {W A} (f : A -> M W unit) (I : W -> Prop) (P : A -> W -> Prop) l w w' :
  (forall a w w1, a ∈ l -> I w -> f a w = (Ok tt, w1) -> I w1 /\ P a w1 /\ forall b, b ∈ l -> P b w -> P b w1) ->
  I w -> iterM f l w = (Ok tt, w') -> I w' /\ (forall a, a ∈ l -> P a w') .
Proof.
  intros Hf. assert (Hg : forall k w, k ⊆ l -> I w -> iterM f k w = (Ok tt, w') ->
    I w' /\ (forall a, a ∈ k -> P a w') /\ forall b, b ∈ l -> P b w -> P b w').
  { induction k as [|x k IH]; intros w0 Hk Hw H; simpl in H.
    - injection H as <-. split; [done|]. split; [|done]. intros a Ha. by apply elem_of_nil in Ha.
    - apply bindM_Ok in H as ([] & w1 & H1 & H).
      destruct (Hf x w0 w1 (Hk x (list_elem_of_here _ _)) Hw H1) as (Hw1 & Hx & Hkeep).
      destruct (IH w1) as (Hw' & Hall & Hkeep'); [|done|done|].
      { intros a Ha. apply Hk. by apply list_elem_of_further. }
      split; [done|]. split; [|intros b Hb Hp; by apply Hkeep', Hkeep].
      intros a [->|Ha]%elem_of_cons; [|by apply Hall].
      apply Hkeep'; [apply Hk, list_elem_of_here | done]. }
  intros Hw H. destruct (Hg l w (fun x Hx => Hx) Hw H) as (Hw' & Hall & _). by split.
Qed.

Lemma iterM_idle {W A} (f : A -> M W unit) l w : (forall a, a ∈ l -> f a w = (Ok tt, w)) -> iterM f l w = (Ok tt, w).
Proof.
  induction l as [|x l IH]; intros Hf; simpl; [done|].
  rewrite (bindM_eq _ _ _ _ _ (Hf x (list_elem_of_here _ _))). apply IH. intros a Ha. apply Hf. by apply list_elem_of_further.
Qed.

Lemma wrapM_eq {W A} fmt (m : M W A) w a w1 : m w = (Ok a, w1) -> wrapM fmt m w = (Ok a, w1).
Proof. intros H. unfold wrapM. by rewrite H. Qed.

Lemma wrapw_Ok {A} fmt (r : result A) a : wrapw fmt r = Ok a <-> r = Ok a.
Proof. destruct r; simpl; split; congruence. Qed.

Lemma wrapM_Ok {W A} fmt (m : M W A) w a w' : wrapM fmt m w = (Ok a, w') <-> m w = (Ok a, w').
Proof.
  unfold wrapM. destruct (m w) as [[x|e] w1]; simpl; split; intros; inv_ok; done.
Qed.

Lemma mapM_result_length {A B} (f : A -> result B) l ys :
  mapM_result f l = Ok ys -> length ys = length l.
Proof.
  revert ys. induction l as [|x l IH]; simpl; intros ys H; [by inv_ok|].
  apply bind_Ok in H as (y & Hy & H). apply bind_Ok in H as (zs & Hz & H).
  inv_ok. simpl. f_equal. by apply IH.
Qed.

(** *** What a computation keeps

    A relation between the world before and after, reflexive and transitive,
    that every statement of a computation respects. *)

Section respects.
Context {W : Type} (R : W -> W -> Prop) `{!PreOrder R}.
Definition respects {A} (m : M W A) : Prop := forall w, R w (m w).2.

Lemma respects_pure {A} (m : M W A) : pureM m -> respects m.
Proof. intros Hm w. by rewrite Hm. Qed.
Lemma respects_ret {A} (a : A) : respects (mret a).
Proof. by apply respects_pure. Qed.
Lemma respects_lift {A} (r : result A) : respects (lift r).
Proof. by apply respects_pure. Qed.
Lemma respects_throw {A} e : respects (throw e : M W A).
Proof. by apply respects_pure. Qed.
Lemma respects_bind {A B} (m : M W A) (k : A -> M W B) : respects m -> (forall a, respects (k a)) -> respects (m ≫= k).
Proof. intros Hm Hk w. unfold mbind, M_bind. specialize (Hm w). destruct (m w) as [[a|e] w1]; [|done]. etrans; [exact Hm|apply Hk]. Qed.
Lemma respects_iterM {A} (f : A -> M W unit) l : (forall a, respects (f a)) -> respects (iterM f l).
Proof. intros Hf. induction l as [|x l IH]; simpl; [by apply respects_pure | by apply respects_bind]. Qed.
Lemma respects_wrapM {A} s (m : M W A) : respects m -> respects (wrapM s m).
Proof. intros Hm w. specialize (Hm w). unfold wrapM. by destruct (m w). Qed.
Lemma respects_Ok {A} (m : M W A) w a w' : respects m -> m w = (Ok a, w') -> R w w'.
Proof. intros Hm H. specialize (Hm w). by rewrite H in Hm. Qed.
End respects.

(** Splits a computation on its tests, its loops and its binds; [leaf] is for
    the statements. *)
Ltac respects_with leaf :=
  repeat first
    [ progress intros | apply respects_ret; apply _ | apply respects_lift; apply _ | apply respects_throw; apply _
    | apply respects_iterM; [apply _|] | apply respects_wrapM | apply respects_bind; [apply _| |] | leaf | case_match ].

(** Boolean string equality as it appears in conditions. *)
Definition seqb (a b : string) : bool := bool_decide (a = b).
Declare Scope oj_scope.
Delimit Scope oj_scope with oj.
Notation "a =s b" := (seqb a b) (at level 70, no associativity) : oj_scope.
Open Scope oj_scope.

Lemma seqb_true a b : seqb a b = true <-> a = b.
Proof. apply bool_decide_eq_true. Qed.
Lemma seqb_false a b : seqb a b = false <-> a <> b.
Proof. apply bool_decide_eq_false. Qed.
Lemma seqb_refl a : seqb a a = true.
Proof. by apply seqb_true. Qed.
#[export] Hint Rewrite seqb_refl : oj_rw.

(** [contains] of a Go loop over a string slice. *)
Definition mem (x : string) (l : list string) : bool := existsb (seqb x) l.

(** Evaluate comparisons of string constants. *)
Ltac eval_str :=
  repeat match goal with
  | |- context [seqb ?a ?b] =>
      let r := eval vm_compute in (seqb a b) in
      lazymatch r with true => idtac | false => idtac end; change (seqb a b) with r
  | |- context [mem ?a ?b] =>
      let r := eval vm_compute in (mem a b) in
      lazymatch r with true => idtac | false => idtac end; change (mem a b) with r
  end; cbn [andb orb negb].

Lemma mem_In x l : mem x l = true <-> x ∈ l.
Proof.
  unfold mem. rewrite existsb_exists. split.
  - intros (y & Hy & E). apply seqb_true in E as ->. by apply list_elem_of_In.
  - intros H. exists x. split; [by apply list_elem_of_In | by apply seqb_true].
Qed.

(** Appending texts. *)
Lemma sapp_cons c a b : String c a +:+ b = String c (a +:+ b).
Proof. done. Qed.
Lemma sapp_assoc a b c : (a +:+ b) +:+ c = a +:+ (b +:+ c).
Proof. induction a as [|x a IH]; [done|]. exact (f_equal (String x) IH). Qed.
Lemma sapp_nil a : a +:+ "" = a.
Proof. induction a as [|x a IH]; [done|]. exact (f_equal (String x) IH). Qed.

(** First element satisfying a test: the loop-and-break idiom. *)
Fixpoint find_first {A} (f : A -> bool) (l : list A) : option A :=
  match l with
  | [] => None
  | x :: l' => if f x then Some x else find_first f l'
  end.

Lemma find_first_Some {A} (f : A -> bool) l x :
  find_first f l = Some x -> x ∈ l /\ f x = true.
Proof.
  induction l as [|y l IH]; simpl; [done|].
  destruct (f y) eqn:E; intros H; inv_ok.
  - split; [apply list_elem_of_here | done].
  - destruct (IH H). split; [by apply list_elem_of_further | done].
Qed.

Lemma find_first_None {A} (f : A -> bool) l :
  find_first f l = None <-> Forall (fun x => f x = false) l.
Proof.
  induction l as [|y l IH]; simpl; [by split|].
  destruct (f y) eqn:E; rewrite Forall_cons; [|rewrite IH]; intuition congruence.
Qed.

(** ** Counting *)

Fixpoint countb {A} (f : A -> bool) (l : list A) : Z :=
  match l with
  | [] => 0
  | x :: l' => (if f x then 1 else 0) + countb f l'
  end.

Lemma countb_app {A} (f : A -> bool) l k : countb f (l ++ k) = countb f l + countb f k.
Proof. induction l; simpl; lia. Qed.

Lemma countb_ext {A} (f g : A -> bool) l :
  (forall x, x ∈ l -> f x = g x) -> countb f l = countb g l.
Proof.
  induction l as [|x l IH]; intros H; [done|]. simpl.
  rewrite (H x), IH; [done | | apply list_elem_of_here].
  intros y Hy. apply H. by apply list_elem_of_further.
Qed.

Lemma countb_all {A} (f : A -> bool) l :
  (forall x, x ∈ l -> f x = true) -> countb f l = Z.of_nat (length l).
Proof.
  intros H. rewrite (countb_ext f (fun _ => true)) by done. clear H.
  induction l; simpl; lia.
Qed.

Lemma countb_none {A} (f : A -> bool) l :
  (forall x, x ∈ l -> f x = false) -> countb f l = 0.
Proof.
  intros H. rewrite (countb_ext f (fun _ => false)) by done. clear H.
  induction l; simpl; lia.
Qed.

(** Integers of an interval inside [0, n). *)
Lemma countb_interval lo hi n :
  0 <= lo <= hi -> hi <= n ->
  countb (fun b => (lo <=? b) && (b <? hi)) (seqZ 0 n) = hi - lo.
Proof.
  intros Hl Hn.
  replace n with (lo + ((hi - lo) + (n - hi))) by lia.
  rewrite !seqZ_app, !countb_app by lia.
  rewrite (countb_none _ (seqZ 0 lo)), (countb_all _ (seqZ (0 + lo) _)),
    (countb_none _ (seqZ (0 + lo + _) _)), length_seqZ; [lia|..];
    intros x Hx%elem_of_seqZ; lia.
Qed.

Lemma fmap_Ok {A B} (f : A -> B) (r : result A) b :
  f <$> r = Ok b -> exists a, r = Ok a /\ b = f a.
Proof. destruct r; simpl; intros H; [injection H as <-; eauto | discriminate]. Qed.

Lemma is_Ok_fmap {A B} (f : A -> B) (r : result A) : is_Ok (f <$> r) = is_Ok r.
Proof. by destruct r. Qed.
