(* ===== verification/GoStd.v ===== *)
(** * The parts of Go's standard library the modelled code relies on

    [encoding/json] (on syntax trees), [strconv.Atoi], [strings.Fields],
    [strings.TrimSpace], [time.ParseDuration], instants and durations, and
    the civil calendar behind [time.Time.Format]. *)

From Stdlib Require Import Ascii.
From S2P Require Import Prelude.
From Stdlib Require Import Floats.SpecFloat.

(** ** Bytes of strings *)

Module GoStr.

Definition code (c : Ascii.ascii) : Z := Z.of_N (Ascii.N_of_ascii c).
Definition is_digit (c : Ascii.ascii) : bool := (48 <=? code c) && (code c <=? 57).
Definition digit_val (c : Ascii.ascii) : Z := code c - 48.

Definition is_empty (s : string) : bool :=
  match s with EmptyString => true | _ => false end.

(** [strings.HasPrefix] and [strings.TrimPrefix]. *)
Fixpoint has_prefix (s p : string) : bool :=
  match p, s with
  | EmptyString, _ => true
  | String c p', String d s' => bool_decide (c = d) && has_prefix s' p'
  | _, EmptyString => false
  end.
Fixpoint drop (n : nat) (s : string) : string :=
  match n, s with
  | S n', String _ s' => drop n' s'
  | _, _ => s
  end.
Definition trim_prefix (s p : string) : string :=
  if has_prefix s p then drop (String.length p) s else s.

(** ASCII white space of [unicode.IsSpace]. *)
(** The double quote, which a string literal here does not spell. *)
Definition dquote : string := String (Ascii.ascii_of_nat 34) EmptyString.
(** [strings.Replace(s, old, new, 1)] when [old] occurs, which is
    [strings.Contains(s, old)]. *)
Fixpoint replace_first (s old new : string) : option string :=
  if has_prefix s old then Some (new +:+ drop (String.length old) s)
  else match s with
       | EmptyString => None
       | String c s' => match replace_first s' old new with Some r => Some (String c r) | None => None end
       end.
(** [strings.TrimSuffix]. *)
Fixpoint trim_suffix (s suffix : string) : string :=
  if seqb s suffix then "" else
  match s with EmptyString => "" | String c s' => String c (trim_suffix s' suffix) end.

Definition is_space (c : Ascii.ascii) : bool :=
  let n := code c in (n =? 32) || ((9 <=? n) && (n <=? 13)).

(** [strings.Fields]: maximal runs of non-space bytes. *)
Fixpoint fields_go (acc : string) (s : string) : list string :=
  match s with
  | EmptyString => if is_empty acc then [] else [acc]
  | String c s' =>
      if is_space c
      then (if is_empty acc then [] else [acc]) ++ fields_go EmptyString s'
      else fields_go (acc +:+ String c EmptyString) s'
  end.
Definition Fields (s : string) : list string := fields_go EmptyString s.

(** [strings.TrimSpace(s) == ""]. *)
Fixpoint all_space (s : string) : bool :=
  match s with
  | EmptyString => true
  | String c s' => is_space c && all_space s'
  end.

(** Decimal digits of a non-empty string, most significant first. *)
Fixpoint digits_go (acc : Z) (s : string) : option Z :=
  match s with
  | EmptyString => Some acc
  | String c s' => if is_digit c then digits_go (acc * 10 + digit_val c) s' else None
  end.
Definition digits (s : string) : option Z :=
  if is_empty s then None else digits_go 0 s.

(** [strconv.Atoi] / [strconv.ParseInt(s, 10, 64)]. *)
Definition Atoi (s : string) : option Z :=
  let '(neg, r) :=
    match s with
    | String "-"%char s' => (true, s')
    | String "+"%char s' => (false, s')
    | _ => (false, s)
    end in
  match digits r with
  | None => None
  | Some v =>
      let v := if neg : bool then - v else v in
      if (- two63 <=? v) && (v <? two63) then Some v else None
  end.

(** [%d] of an integer. *)
Definition digit_char (d : Z) : Ascii.ascii := Ascii.ascii_of_N (Z.to_N (48 + d)).
Fixpoint dec_go (fuel : nat) (z : Z) (acc : string) : string :=
  match fuel with
  | O => acc
  | S f =>
      let acc := String (digit_char (z mod 10)) acc in
      if z / 10 =? 0 then acc else dec_go f (z / 10) acc
  end.
Definition of_Z (z : Z) : string :=
  let f := S (Z.to_nat (Z.log2 (Z.abs z))) in
  if z <? 0 then String "-"%char (dec_go f (- z) EmptyString) else dec_go f z EmptyString.

(** [%02d] / [%04d] zero padding of a non-negative number. *)
Fixpoint pad (width : nat) (z : Z) (acc : string) : string :=
  match width with
  | O => acc
  | S w => pad w (z / 10) (String (digit_char (z mod 10)) acc)
  end.

Lemma of_Z_atoi_examples :
  of_Z 0 = "0" /\ of_Z 10080 = "10080" /\ of_Z (-42) = "-42" /\
  Atoi "-42" = Some (-42) /\ Atoi "" = None /\ Atoi "9223372036854775808" = None.
Proof. by vm_compute. Qed.

End GoStr.

(** ** JSON

    A [json.RawMessage] is empty, syntactically malformed, or the text of one
    JSON value, represented by its syntax tree (object members in order,
    duplicates kept; a number keeps its literal). *)

Inductive json : Type :=
  | JNull
  | JBool (b : bool)
  | JNumber (lit : string)
  | JString (s : string)
  | JArray (l : list json)
  | JObject (l : list (string * json)).

Inductive RawMessage : Type :=
  | RawEmpty
  | RawBad (text : string)
  | Raw (j : json).

Definition raw_len0 (r : RawMessage) : bool :=
  match r with RawEmpty => true | _ => false end.
(** [string(r) == "{}"] and [string(r) == "null"], on compact text. *)
Definition raw_is_empty_object (r : RawMessage) : bool :=
  match r with Raw (JObject []) => true | _ => false end.
Definition raw_is_null (r : RawMessage) : bool :=
  match r with Raw JNull => true | _ => false end.

Module Json.

Definition syntax_error : error := errors_New "invalid JSON".
Definition type_error : error := errors_New "json: cannot unmarshal".

(** The syntax check that every [json.Unmarshal] starts with. *)
Definition parse (r : RawMessage) : result json :=
  match r with
  | Raw j => Ok j
  | RawEmpty => Err (errors_New "unexpected end of JSON input")
  | RawBad _ => Err syntax_error
  end.

(** A setter writes one decoded member into the destination; [None] is an
    [UnmarshalTypeError]. *)
Definition setter (T : Type) : Type := json -> T -> option T.

(** Field names match exactly, or else up to ASCII case. *)
Definition fold_char (c : Ascii.ascii) : Ascii.ascii :=
  let n := GoStr.code c in
  if (97 <=? n) && (n <=? 122) then Ascii.ascii_of_N (Z.to_N (n - 32)) else c.
Fixpoint fold_name (s : string) : string :=
  match s with
  | EmptyString => EmptyString
  | String c s' => String (fold_char c) (fold_name s')
  end.
Definition find_field {T} (fs : list (string * setter T)) (k : string) : option (setter T) :=
  match find_first (fun p => seqb p.1 k) fs with
  | Some p => Some p.2
  | None => snd <$> find_first (fun p => seqb (fold_name p.1) (fold_name k)) fs
  end.

Fixpoint members {T} (fs : list (string * setter T)) (l : list (string * json)) (x : T) : option T :=
  match l with
  | [] => Some x
  | (k, v) :: l' =>
      match find_field fs k with
      | Some set => match set v x with Some x' => members fs l' x' | None => None end
      | None => members fs l' x
      end
  end.

(** [json.Unmarshal] into a struct: [null] is a no-op, any other
    non-object is a type error. *)
Definition decode_struct {T} (fs : list (string * setter T)) (j : json) (x : T) : option T :=
  match j with
  | JNull => Some x
  | JObject l => members fs l x
  | _ => None
  end.

Definition Unmarshal {T} (fs : list (string * setter T)) (zero : T) (r : RawMessage) : result T :=
  j ← parse r;
  match decode_struct fs j zero with
  | Some x => Ok x
  | None => Err type_error
  end.

(** Setters of the Go field types; [null] leaves the field alone. *)
Definition set_string {T} (upd : string -> T -> T) : setter T := fun j x =>
  match j with JString s => Some (upd s x) | JNull => Some x | _ => None end.
Definition set_bool {T} (upd : bool -> T -> T) : setter T := fun j x =>
  match j with JBool b => Some (upd b x) | JNull => Some x | _ => None end.
Definition set_int {T} (upd : Z -> T -> T) : setter T := fun j x =>
  match j with
  | JNumber lit => match GoStr.Atoi lit with Some z => Some (upd z x) | None => None end
  | JNull => Some x
  | _ => None
  end.
(** A [json.RawMessage] field keeps the raw text, [null] included. *)
Definition set_raw {T} (upd : RawMessage -> T -> T) : setter T := fun j x =>
  Some (upd (Raw j) x).
Fixpoint map_opt {A B} (f : A -> option B) (l : list A) : option (list B) :=
  match l with
  | [] => Some []
  | a :: l' =>
      match f a, map_opt f l' with
      | Some b, Some bs => Some (b :: bs)
      | _, _ => None
      end
  end.
Definition set_list {A T} (elem : json -> option A) (upd : list A -> T -> T) : setter T := fun j x =>
  match j with
  | JArray l => match map_opt elem l with Some xs => Some (upd xs x) | None => None end
  | JNull => Some (upd [] x)
  | _ => None
  end.
Definition elem_string (j : json) : option string :=
  match j with JString s => Some s | JNull => Some EmptyString | _ => None end.
(** [map[string]any]: the object's members, [null] a nil map. *)
Definition set_map {T} (upd : option (list (string * json)) -> T -> T) : setter T := fun j x =>
  match j with
  | JObject l => Some (upd (Some l) x)
  | JNull => Some (upd None x)
  | _ => None
  end.

(** Unmarshal into [map[string]any]: the members, last duplicate winning
    ([None] when the text is [null], which leaves the map nil). *)
Definition Unmarshal_map (r : RawMessage) : result (option (list (string * json))) :=
  j ← parse r;
  match j with
  | JObject l => Ok (Some l)
  | JNull => Ok None
  | _ => Err type_error
  end.
Fixpoint lookup (k : string) (l : list (string * json)) : option json :=
  match l with
  | [] => None
  | (k', v) :: l' =>
      match lookup k l' with
      | Some v' => Some v'
      | None => if seqb k' k then Some v else None
      end
  end.
(** [v, ok := m[k].(string); ok && v != ""]. *)
Definition nonempty_string (o : option json) : option string :=
  match o with
  | Some (JString s) => if GoStr.is_empty s then None else Some s
  | _ => None
  end.

(** [json.Marshal] of a [map[string]any] that was unmarshalled: keys in byte
    order, the last of duplicate members, at every depth.  A number keeps
    its literal. *)
Fixpoint insert_key (k : string) (v : json) (l : list (string * json)) : list (string * json) :=
  match l with
  | [] => [(k, v)]
  | (k', v') :: l' =>
      match String.compare k k' with
      | Eq => (k, v) :: l'
      | Lt => (k, v) :: l
      | Gt => (k', v') :: insert_key k v l'
      end
  end.
Fixpoint marshal (j : json) : json :=
  match j with
  | JArray l => JArray (map marshal l)
  | JObject l =>
      JObject ((fix go (l : list (string * json)) (acc : list (string * json)) :=
                  match l with
                  | [] => acc
                  | (k, v) :: l' => go l' (insert_key k (marshal v) acc)
                  end) l [])
  | _ => j
  end.
(** A [json.RawMessage] inside a value: a nil one marshals as [null]. *)
Definition of_raw (r : RawMessage) : result json :=
  match r with Raw j => Ok j | RawEmpty => Ok JNull | RawBad _ => Err syntax_error end.

Example marshal_example :
  marshal (JObject [("b", JNull); ("a", JString "x"); ("b", JBool true)]) =
  JObject [("a", JString "x"); ("b", JBool true)].
Proof. reflexivity. Qed.

End Json.

(** ** Instants and durations

    A [time.Time] is its nanosecond count from the Unix epoch; a
    [time.Duration] is a 64-bit nanosecond count. *)

Module Time.

Definition Nanosecond : Z := 1.
Definition Millisecond : Z := 1000000.
Definition Second : Z := 1000000000.
Definition Minute : Z := 60 * Second.
Definition Hour : Z := 60 * Minute.

(** The zero [time.Time] is January 1, year 1, 00:00:00 UTC. *)
Definition zero : Z := - 62135596800 * Second.
Definition IsZero (t : Z) : bool := t =? zero.

(** [t.Sub(u)] saturates; [t.Add(d)] is exact. *)
Definition Sub (t u : Z) : Z := Z.max (- two63) (Z.min (two63 - 1) (t - u)).
Definition Add (t d : Z) : Z := t + d.

(** [t.Truncate(d)]: down to a multiple of [d] since the zero time. *)
Definition Truncate (t d : Z) : Z := if d <=? 0 then t else t - (t - zero) mod d.
Definition Unix (t : Z) : Z := t / Second.
Definition MinuteOf (t : Z) : Z := (t / Minute) mod 60.
Definition HourOf (t : Z) : Z := (t / Hour) mod 24.

(** Days since 1970-01-01 to (year, month, day), proleptic Gregorian. *)
Definition civil_from_days (z : Z) : Z * Z * Z :=
  let z := z + 719468 in
  let era := z / 146097 in
  let doe := z mod 146097 in
  let yoe := (doe - doe / 1460 + doe / 36524 - doe / 146096) / 365 in
  let doy := doe - (365 * yoe + yoe / 4 - yoe / 100) in
  let mp := (5 * doy + 2) / 153 in
  let d := doy - (153 * mp + 2) / 5 + 1 in
  let m := if mp <? 10 then mp + 3 else mp - 9 in
  (yoe + era * 400 + (if m <=? 2 then 1 else 0), m, d).
Definition days_from_civil (y m d : Z) : Z :=
  let y := if m <=? 2 then y - 1 else y in
  let era := y / 400 in
  let yoe := y mod 400 in
  let doy := (153 * (if 2 <? m then m - 3 else m + 9) + 2) / 5 + d - 1 in
  era * 146097 + yoe * 365 + yoe / 4 - yoe / 100 + doy - 719468.

(** [t.Format("2006-01-02-15-04")] in UTC (years 0 to 9999). *)
Definition format_slot (t : Z) : string :=
  let '(y, m, d) := civil_from_days (t / (24 * Hour)) in
  GoStr.pad 4 y "" +:+ "-" +:+ GoStr.pad 2 m "" +:+ "-" +:+ GoStr.pad 2 d "" +:+ "-" +:+
  GoStr.pad 2 (HourOf t) "" +:+ "-" +:+ GoStr.pad 2 (MinuteOf t) "".

(** *** [time.ParseDuration] *)

(** leadingInt: [None] on overflow. *)
Fixpoint leadingInt (x : Z) (s : string) : option (Z * string) :=
  match s with
  | String c s' =>
      if GoStr.is_digit c then
        if two63 / 10 <? x then None
        else
          let x := x * 10 + GoStr.digit_val c in
          if two63 <? x then None else leadingInt x s'
      else Some (x, s)
  | EmptyString => Some (x, s)
  end.

Definition prec : Z := 53.
Definition emax : Z := 1024.
Definition float_of_Z (z : Z) : spec_float := binary_normalize prec emax z 0 false.
(** [uint64(f)] of a non-negative finite float below 2^64. *)
Definition trunc (f : spec_float) : Z :=
  match f with
  | S754_finite false m e => Z.shiftl (Z.pos m) e
  | _ => 0
  end.

Fixpoint leadingFraction (x : Z) (scale : spec_float) (overflow : bool) (s : string) : Z * spec_float * string :=
  match s with
  | String c s' =>
      if GoStr.is_digit c then
        if overflow then leadingFraction x scale true s'
        else if (two63 - 1) / 10 <? x then leadingFraction x scale true s'
        else
          let y := x * 10 + GoStr.digit_val c in
          if two63 <? y then leadingFraction x scale true s'
          else leadingFraction y (SFmul prec emax scale (float_of_Z 10)) false s'
      else (x, scale, s)
  | EmptyString => (x, scale, s)
  end.

Fixpoint take_unit (s : string) : string * string :=
  match s with
  | String c s' =>
      if GoStr.is_digit c || bool_decide (c = "."%char) then (EmptyString, s)
      else let '(u, r) := take_unit s' in (String c u, r)
  | EmptyString => (EmptyString, EmptyString)
  end.

(** "us", U+00B5 and U+03BC followed by "s", as UTF-8 bytes. *)
Definition micro1 : string := String (Ascii.ascii_of_N 194) (String (Ascii.ascii_of_N 181) "s").
Definition micro2 : string := String (Ascii.ascii_of_N 206) (String (Ascii.ascii_of_N 188) "s").
Definition unit_of (u : string) : option Z :=
  if seqb u "ns" then Some 1
  else if seqb u "us" || seqb u micro1 || seqb u micro2 then Some 1000
  else if seqb u "ms" then Some Millisecond
  else if seqb u "s" then Some Second
  else if seqb u "m" then Some Minute
  else if seqb u "h" then Some Hour
  else None.

Definition starts_number (s : string) : bool :=
  match s with
  | String c _ => GoStr.is_digit c || bool_decide (c = "."%char)
  | EmptyString => false
  end.

(** One [number unit] group: its value and the rest of the string. *)
Definition duration_group (s : string) : option (Z * string) :=
  if negb (starts_number s) then None else
  match leadingInt 0 s with
  | None => None
  | Some (v, s1) =>
      let pre := negb (String.length s =? String.length s1)%nat in
      let '(f, scale, s2, post) :=
        match s1 with
        | String "."%char s1' =>
            let '(f, scale, r) := leadingFraction 0 (float_of_Z 1) false s1' in
            (f, scale, r, negb (String.length s1' =? String.length r)%nat)
        | _ => (0, float_of_Z 1, s1, false)
        end in
      if negb pre && negb post then None else
      let '(u, s3) := take_unit s2 in
      if GoStr.is_empty u then None else
      match unit_of u with
      | None => None
      | Some unit =>
          if two63 / unit <? v then None else
          let v := v * unit in
          let v := if 0 <? f
                   then u64 (v + trunc (SFmul prec emax (float_of_Z f)
                                          (SFdiv prec emax (float_of_Z unit) scale)))
                   else v in
          if two63 <? v then None else Some (v, s3)
      end
  end.

(** The loop: each group consumes at least one byte, so the length of the
    string bounds the iterations. *)
Fixpoint duration_groups (fuel : nat) (d : Z) (s : string) : option Z :=
  match s with
  | EmptyString => Some d
  | _ =>
      match fuel with
      | O => None
      | S fuel' =>
          match duration_group s with
          | None => None
          | Some (v, s') =>
              let d := d + v in
              if two63 <? d then None else duration_groups fuel' d s'
          end
      end
  end.

Definition duration_error (s : string) : error := Errorf "time: invalid duration %q" [AStr s].

Definition ParseDuration (s : string) : result Z :=
  let '(neg, r) :=
    match s with
    | String "-"%char s' => (true, s')
    | String "+"%char s' => (false, s')
    | _ => (false, s)
    end in
  if seqb r "0" then Ok 0
  else if GoStr.is_empty r then Err (duration_error s)
  else match duration_groups (String.length r) 0 r with
  | None => Err (duration_error s)
  | Some d =>
      if neg : bool then Ok (i64 (- d))
      else if two63 - 1 <? d then Err (duration_error s)
      else Ok d
  end.

Example parse_duration_examples :
  ParseDuration "1h30m" = Ok (90 * Minute) /\ ParseDuration "1.5s" = Ok 1500000000 /\
  ParseDuration "-10ms" = Ok (-10000000) /\ ParseDuration "0" = Ok 0 /\
  is_Ok (ParseDuration "10") = false /\ is_Ok (ParseDuration "") = false /\
  ParseDuration ".25m" = Ok 15000000000 /\ ParseDuration "9223372036854775807ns" = Ok (two63 - 1).
Proof. by vm_compute. Qed.

Lemma leadingInt_nonneg x s v r : 0 <= x -> leadingInt x s = Some (v, r) -> 0 <= v.
Proof.
  revert x. induction s as [|c s IH]; intros x Hx; simpl; [intros; by inv_ok|].
  destruct (GoStr.is_digit c) eqn:Ed; [|intros; by inv_ok].
  destruct (two63 / 10 <? x); [discriminate|].
  destruct (two63 <? _); [discriminate|]. apply IH.
  unfold GoStr.is_digit in Ed. unfold GoStr.digit_val. lia.
Qed.

Lemma unit_of_pos u n : unit_of u = Some n -> 0 < n.
Proof.
  unfold unit_of. repeat case_match; intros; inv_ok; try discriminate; reflexivity.
Qed.

Lemma duration_group_nonneg s v r : duration_group s = Some (v, r) -> 0 <= v.
Proof.
  unfold duration_group. destruct (negb (starts_number s)); [discriminate|].
  destruct (leadingInt 0 s) as [[v0 s1]|] eqn:Ei; [|discriminate].
  apply leadingInt_nonneg in Ei; [|lia].
  destruct (match s1 with EmptyString => _ | _ => _ end) as [[[f scale] s2] post].
  destruct (_ && _); [discriminate|]. destruct (take_unit s2) as [u s3].
  destruct (GoStr.is_empty u); [discriminate|].
  destruct (unit_of u) as [n|] eqn:Eu; [|discriminate]. apply unit_of_pos in Eu.
  destruct (two63 / n <? v0); [discriminate|].
  destruct (0 <? f).
  - destruct (two63 <? _); [discriminate|]. intros; inv_ok. apply u64_range.
  - destruct (two63 <? _); [discriminate|]. intros; inv_ok. lia.
Qed.

Lemma duration_groups_range fuel d s v :
  0 <= d <= two63 -> duration_groups fuel d s = Some v -> 0 <= v <= two63.
Proof.
  revert d s. induction fuel as [|fuel IH]; intros d s Hd; destruct s as [|c s];
    cbn [duration_groups]; try discriminate; try (intros; by inv_ok).
  destruct (duration_group (String c s)) as [[v' s']|] eqn:E; [|discriminate].
  destruct (two63 <? d + v') eqn:Eo; [discriminate|].
  apply duration_group_nonneg in E. apply IH. lia.
Qed.

(** A parsed duration is an [int64]. *)
Lemma ParseDuration_range s d : ParseDuration s = Ok d -> - two63 <= d < two63.
Proof.
  unfold ParseDuration. set (p := match s with EmptyString => _ | _ => _ end). destruct p as [neg r].
  destruct (seqb r "0"); [intros; inv_ok; unfold two63; lia|].
  destruct (GoStr.is_empty r); [discriminate|].
  destruct (duration_groups _ 0 r) as [v|] eqn:E; [|discriminate].
  apply duration_groups_range in E; [|unfold two63; lia].
  destruct neg; [intros; inv_ok; apply i64_range|].
  destruct (two63 - 1 <? v) eqn:Eo; [discriminate|]. intros; inv_ok. lia.
Qed.

End Time.
