(* ===== verification/GoMap.v ===== *)
(** * Sorting, maps and more of [strings]

    [sort.Slice] / [sort.Strings] as an insertion sort, a decoded
    [map[string]any] as a finite map, [strings.TrimSpace] and
    [strings.ToLower].  Bytes are ASCII where a case or a space is looked at. *)

From Stdlib Require Import Ascii.
From Stdlib Require Export Sorting.Sorted.
From S2P Require Import Prelude.
From S2P Require Import GoStd.

Module GoMap.

(** ** Sorting by a strict comparison [less] *)

Section sort.
Context {A : Type} (less : A -> A -> bool).

Fixpoint insert_by (x : A) (l : list A) : list A :=
  match l with
  | [] => [x]
  | y :: l' => if less x y then x :: y :: l' else y :: insert_by x l'
  end.
(** Stable: an element goes behind the ones it is not less than. *)
Definition sort_by (l : list A) : list A := fold_left (fun acc x => insert_by x acc) l [].

Definition in_order (x y : A) : Prop := less y x = false.

Lemma insert_by_perm x l : insert_by x l ≡ₚ x :: l.
Proof.
  induction l as [|y l IH]; simpl; [done|]. destruct (less x y); [done|].
  rewrite IH. by constructor.
Qed.

Lemma sort_by_perm l : sort_by l ≡ₚ l.
Proof.
  unfold sort_by. cut (forall acc, fold_left (fun acc x => insert_by x acc) l acc ≡ₚ acc ++ l).
  { intros H. apply H. }
  induction l as [|x l IH]; intros acc; simpl; [by rewrite app_nil_r|].
  rewrite IH, insert_by_perm. simpl. by rewrite Permutation_middle.
Qed.

Hypothesis less_asym : forall x y, less x y = true -> less y x = false.
Hypothesis less_trans : forall x y z, less y x = false -> less z y = false -> less z x = false.

Lemma insert_by_sorted x l : StronglySorted in_order l -> StronglySorted in_order (insert_by x l).
Proof.
  induction 1 as [|y l Hs IH Hf]; simpl; [repeat constructor|].
  destruct (less x y) eqn:E.
  - constructor; [by constructor|]. constructor; [by apply less_asym|].
    eapply Forall_impl; [exact Hf|]. intros z Hz. unfold in_order in *.
    apply (less_trans x y z); [by apply less_asym | exact Hz].
  - constructor; [exact IH|]. rewrite insert_by_perm. by constructor.
Qed.

Lemma sort_by_sorted l : StronglySorted in_order (sort_by l).
Proof.
  unfold sort_by. cut (forall acc, StronglySorted in_order acc ->
    StronglySorted in_order (fold_left (fun acc x => insert_by x acc) l acc)).
  { intros H. apply H. constructor. }
  induction l as [|x l IH]; intros acc Ha; simpl; [done|]. by apply IH, insert_by_sorted.
Qed.

Lemma sorted_head x l y : StronglySorted in_order (x :: l) -> y ∈ x :: l -> less y x = false.
Proof.
  intros Hs Hy. inversion Hs as [|? ? _ Hf]; subst. apply elem_of_cons in Hy as [->|Hy].
  - destruct (less x x) eqn:E; [|done]. by rewrite (less_asym _ _ E) in E.
  - rewrite Forall_forall in Hf. by apply Hf.
Qed.

(** A sorted list is determined by its elements when no two of them tie. *)
Lemma sorted_unique l k :
  (forall x y, x ∈ l -> y ∈ l -> less x y = false -> less y x = false -> x = y) ->
  StronglySorted in_order l -> StronglySorted in_order k -> l ≡ₚ k -> l = k.
Proof.
  revert k. induction l as [|x l IH]; intros k Htie Hl Hk Hp.
  { symmetry. by apply Permutation_nil_l in Hp. }
  destruct k as [|y k]; [by apply Permutation_sym, Permutation_nil_cons in Hp|].
  inversion Hl as [|? ? Hl' Hfl]; subst. inversion Hk as [|? ? Hk' Hfk]; subst.
  assert (x = y) as ->.
  { assert (Hy : y ∈ x :: l) by (rewrite Hp; apply list_elem_of_here).
    assert (Hx : x ∈ y :: k) by (rewrite <- Hp; apply list_elem_of_here).
    apply Htie; [apply list_elem_of_here | done | by apply (sorted_head y k) | by apply (sorted_head x l)]. }
  f_equal. apply IH; [|done|done|by apply Permutation_cons_inv in Hp].
  intros a b Ha Hb. apply Htie; by apply list_elem_of_further.
Qed.

End sort.

(** [sort.Strings]: byte order. *)
Definition str_less (a b : string) : bool :=
  match String.compare a b with Lt => true | _ => false end.

Lemma str_less_irrefl a : str_less a a = false.
Proof. unfold str_less. pose proof (String.compare_antisym a a). by destruct (String.compare a a). Qed.
Lemma str_less_total a b : a <> b -> str_less a b = false -> str_less b a = true.
Proof.
  intros Hne. unfold str_less. rewrite (String.compare_antisym b a).
  destruct (String.compare a b) eqn:E; simpl; try done. by apply String.compare_eq_iff in E.
Qed.

Lemma str_less_asym a b : str_less a b = true -> str_less b a = false.
Proof. unfold str_less. rewrite (String.compare_antisym b a). by destruct (String.compare a b). Qed.

Lemma compare_le_trans a b c : String.compare a b <> Gt -> String.compare b c <> Gt -> String.compare a c <> Gt.
Proof.
  revert b c. induction a as [|x a IH]; intros [|y b] [|z c]; simpl; try congruence.
  unfold Ascii.compare. destruct (N.compare_spec (Ascii.N_of_ascii x) (Ascii.N_of_ascii y)) as [E1|E1|E1]; try congruence;
  destruct (N.compare_spec (Ascii.N_of_ascii y) (Ascii.N_of_ascii z)) as [E2|E2|E2]; try congruence; intros;
  destruct (N.compare_spec (Ascii.N_of_ascii x) (Ascii.N_of_ascii z)) as [E3|E3|E3]; try congruence; try lia.
  by apply (IH b c).
Qed.

(** Not smaller is transitive. *)
Lemma str_less_trans a b c : str_less b a = false -> str_less c b = false -> str_less c a = false.
Proof.
  unfold str_less. rewrite (String.compare_antisym b a), (String.compare_antisym c b), (String.compare_antisym c a).
  pose proof (compare_le_trans a b c). destruct (String.compare a b), (String.compare b c), (String.compare a c);
    simpl; intros; try congruence; exfalso; intuition congruence.
Qed.

(** ** Decoded maps *)

(** The Go map of a JSON object's members: a later duplicate wins. *)
Definition of_members (l : list (string * json)) : gmap string json :=
  fold_left (fun m kv => <[kv.1 := kv.2]> m) l ∅.

(** ** Strings *)

Definition lower_char (c : Ascii.ascii) : Ascii.ascii :=
  let n := GoStr.code c in
  if (65 <=? n) && (n <=? 90) then Ascii.ascii_of_N (Z.to_N (n + 32)) else c.
Fixpoint ToLower (s : string) : string :=
  match s with EmptyString => EmptyString | String c s' => String (lower_char c) (ToLower s') end.

Fixpoint trim_left (s : string) : string :=
  match s with
  | String c s' => if GoStr.is_space c then trim_left s' else s
  | EmptyString => EmptyString
  end.
(** Without its trailing white space. *)
Fixpoint trim_right (s : string) : string :=
  match s with
  | EmptyString => EmptyString
  | String c s' => if GoStr.all_space s then EmptyString else String c (trim_right s')
  end.
Definition TrimSpace (s : string) : string := trim_left (trim_right s).

(** [strings.TrimSpace(s) == ""]. *)
Definition blank (s : string) : bool := GoStr.all_space s.

Example strings_examples :
  TrimSpace "  a b  " = "a b" /\ ToLower "Ada@Example.TEST" = "ada@example.test" /\ TrimSpace "   " = "".
Proof. by vm_compute. Qed.

End GoMap.
