(* ===== verification/GoFloat.v ===== *)
(** * float64 and decoded JSON values

    IEEE 754 binary64 through the Standard Library's [SpecFloat], the decimal
    literals of [strconv.ParseFloat] rounded to nearest even, and the values
    that [encoding/json] decodes into an [any]. *)

From Stdlib Require Import Ascii.
From S2P Require Import Prelude.
From S2P Require Import GoStd.
From S2P Require Import GoMap.
From Stdlib Require Import Floats.SpecFloat.

Module Float.

Definition float64 : Type := spec_float.
Definition prec : Z := 53.
Definition emax : Z := 1024.

Definition zero : float64 := S754_zero false.
Definition of_Z (z : Z) : float64 := binary_normalize prec emax z 0 false.
Definition add : float64 -> float64 -> float64 := SFadd prec emax.
Definition sub : float64 -> float64 -> float64 := SFsub prec emax.
Definition mul : float64 -> float64 -> float64 := SFmul prec emax.
Definition div : float64 -> float64 -> float64 := SFdiv prec emax.
Definition opp : float64 -> float64 := SFopp.
Definition abs : float64 -> float64 := SFabs.
Definition eqb : float64 -> float64 -> bool := SFeqb.
Definition ltb : float64 -> float64 -> bool := SFltb.
Definition leb : float64 -> float64 -> bool := SFleb.
Definition is_nan (f : float64) : bool := match f with S754_nan => true | _ => false end.
Definition is_inf (f : float64) : bool := match f with S754_infinity _ => true | _ => false end.

(** ** Decimal literals *)

(** n / d rounded to nearest even, for positive [n] and [d]: enough quotient
    bits and a sticky bit for the remainder. *)
Definition of_ratio (n d : Z) : float64 :=
  let k := Z.max 0 (Z.log2 d - Z.log2 n + 66) in
  let q := Z.shiftl n k / d in
  let sticky := if Z.shiftl n k mod d =? 0 then 0 else 1 in
  binary_normalize prec emax (2 * q + sticky) (- k - 1) false.

(** m * 10^e for a non-negative [m]; exponents far out of range are not
    expanded. *)
Definition of_decimal (m e : Z) : float64 :=
  if m =? 0 then zero
  else if 400 <? e then S754_infinity false
  else if e + Z.log2 m <? -1200 then zero
  else if 0 <=? e then binary_normalize prec emax (m * 10 ^ e) 0 false
  else of_ratio m (10 ^ (- e)).

Fixpoint take_digits (s : string) (acc n : Z) : Z * Z * string :=
  match s with
  | String c s' => if GoStr.is_digit c then take_digits s' (acc * 10 + GoStr.digit_val c) (n + 1) else (acc, n, s)
  | EmptyString => (acc, n, s)
  end.

(** The value of a decimal literal, infinite when it is out of range; [None]
    is a syntax error. *)
Definition parse_decimal (s : string) : option float64 :=
  let '(m, n, s) := take_digits s 0 0 in
  let '(m, n, frac, s) := match s with
                          | String "."%char r => let '(m', n', r') := take_digits r m 0 in (m', n + n', n', r')
                          | _ => (m, n, 0, s)
                          end in
  if n =? 0 then None else
  let exponent := match s with
                  | EmptyString => Some 0
                  | String c r =>
                      if bool_decide (c = "e"%char) || bool_decide (c = "E"%char)
                      then match r with
                           | String "-"%char r' => option_map Z.opp (GoStr.digits r')
                           | String "+"%char r' => GoStr.digits r'
                           | _ => GoStr.digits r
                           end
                      else None
                  end in
  match exponent with
  | None => None
  | Some e => Some (of_decimal m (e - frac))
  end.
Definition signed (s : string) : bool * string :=
  match s with
  | String "-"%char r => (true, r)
  | String "+"%char r => (false, r)
  | _ => (false, s)
  end.

(** [strconv.ParseFloat(s, 64)] of a decimal literal; [None] is a syntax or
    range error. *)
Definition ParseFloat (s : string) : option float64 :=
  let '(neg, r) := signed s in
  match parse_decimal r with
  | Some f => if is_inf f then None else Some (if neg : bool then opp f else f)
  | None => None
  end.
(** The float of [f, _ := strconv.ParseFloat(s, 64)]: zero on a syntax error,
    infinite out of range. *)
Definition parsed (s : string) : float64 :=
  let '(neg, r) := signed s in
  match parse_decimal r with
  | Some f => if neg : bool then opp f else f
  | None => zero
  end.

Example parse_float_examples :
  ParseFloat "0.1" = Some (S754_finite false 7205759403792794 (-56)) /\
  ParseFloat "-1.5e3" = Some (S754_finite true 6597069766656000 (-42)) /\
  ParseFloat "1e400" = None /\ ParseFloat "1e-400" = Some zero /\ ParseFloat "." = None /\
  ParseFloat "9007199254740993" = Some (of_Z 9007199254740992) /\ ParseFloat "5e-324" = Some (S754_finite false 1 (-1074)).
Proof. vm_compute. repeat split. Qed.

(** ** A parsed literal is a number *)

Lemma shr_1_nonneg r : 0 <= shr_m r -> 0 <= shr_m (shr_1 r).
Proof. destruct r as [m r s]. by destruct m as [|[p|p|]|p]; simpl. Qed.

Lemma iter_shr_nonneg n r : 0 <= shr_m r -> 0 <= shr_m (iter_pos shr_1 n r).
Proof. revert r. induction n as [n IH|n IH|]; simpl; intros r Hr; auto using shr_1_nonneg. Qed.

Lemma shr_fexp_nonneg m e l : 0 <= m -> 0 <= shr_m (fst (shr_fexp prec emax m e l)).
Proof.
  intros Hm. unfold shr_fexp, shr. assert (H : 0 <= shr_m (shr_record_of_loc m l)) by by destruct l as [|[]].
  destruct (_ - _); simpl; [done | by apply iter_shr_nonneg | done].
Qed.

Lemma binary_round_aux_not_nan s m e l : 0 <= m -> is_nan (binary_round_aux prec emax s m e l) = false.
Proof.
  intros Hm. unfold binary_round_aux. pose proof (shr_fexp_nonneg m e l Hm) as H1.
  destruct (shr_fexp prec emax m e l) as [r e1]. simpl in H1.
  set (m2 := round_nearest_even (shr_m r) (loc_of_shr_record r)).
  assert (H2 : 0 <= m2) by (unfold m2, round_nearest_even; repeat case_match; lia).
  pose proof (shr_fexp_nonneg m2 e1 loc_Exact H2) as H3. destruct (shr_fexp prec emax m2 e1 loc_Exact) as [r2 e2].
  simpl in H3. destruct (shr_m r2); [done | by case_match | lia].
Qed.

Lemma binary_normalize_not_nan m e z : is_nan (binary_normalize prec emax m e z) = false.
Proof.
  destruct m as [|p|p]; [done|..]; unfold binary_normalize, binary_round;
    destruct (shl_align _ _ _); by apply binary_round_aux_not_nan.
Qed.

Lemma of_decimal_not_nan m e : is_nan (of_decimal m e) = false.
Proof. unfold of_decimal, of_ratio. repeat case_match; try done; apply binary_normalize_not_nan. Qed.

Lemma parse_decimal_not_nan s f : parse_decimal s = Some f -> is_nan f = false.
Proof.
  unfold parse_decimal. destruct (take_digits s 0 0) as [[m n] r1].
  destruct (match r1 with EmptyString => _ | _ => _ end) as [[[m' n'] frac] r2]. destruct (n' =? 0); [discriminate|].
  destruct (match r2 with EmptyString => _ | _ => _ end) as [e|]; [|discriminate].
  intros H. injection H as <-. apply of_decimal_not_nan.
Qed.

Lemma ParseFloat_finite s f : ParseFloat s = Some f -> is_nan f = false /\ is_inf f = false.
Proof.
  unfold ParseFloat. destruct (signed s) as [neg r]. destruct (parse_decimal r) as [g|] eqn:E; [|discriminate].
  apply parse_decimal_not_nan in E. destruct (is_inf g) eqn:Hi; [discriminate|].
  intros H. injection H as <-. by destruct neg, g.
Qed.

Lemma eqb_refl f : is_nan f = false -> eqb f f = true.
Proof.
  destruct f as [|[]| |[] m e]; simpl; try done; intros _; unfold eqb, SFeqb; simpl;
    rewrite Z.compare_refl; change (Pos.compare_cont Eq m m) with (Pos.compare m m); by rewrite Pos.compare_refl.
Qed.

(** Equal numbers are the same, but for the sign of zero. *)
Lemma eqb_cases f g : eqb f g = true -> f = g \/ (exists s t, f = S754_zero s /\ g = S754_zero t).
Proof.
  unfold eqb, SFeqb. destruct f as [s|[]| |[] m e], g as [t|[]| |[] n e']; simpl; try done; eauto;
    destruct (Z.compare_spec e e') as [->| |]; try done; intros H; left; f_equal; revert H; case_eq (Pos.compare_cont Eq m n); try done; intros H _;
    by apply Pos.compare_eq in H.
Qed.
Lemma float_euclid f g h : eqb f g = true -> eqb f h = true -> eqb g h = true.
Proof.
  intros [->|(s & t & -> & ->)]%eqb_cases; [done|]. unfold eqb, SFeqb. by destruct h as [|[]| |[]].
Qed.

End Float.

(** ** Decoded values *)

Inductive any : Type :=
  | ANil
  | ABool (b : bool)
  | AFloat (f : Float.float64)
  | AString (s : string)
  | AArray (l : list any)
  | AMap (l : list (string * any)).

Module Any.

(** A map's members in key order, a later duplicate winning. *)
Fixpoint insert_key (k : string) (v : any) (l : list (string * any)) : list (string * any) :=
  match l with
  | [] => [(k, v)]
  | (k', v') :: l' =>
      match String.compare k k' with
      | Eq => (k, v) :: l'
      | Lt => (k, v) :: l
      | Gt => (k', v') :: insert_key k v l'
      end
  end.

(** [json.Unmarshal] into an [any]: a number out of range decodes to nil. *)
Fixpoint decode (j : json) : any :=
  match j with
  | JNull => ANil
  | JBool b => ABool b
  | JNumber lit => match Float.ParseFloat lit with Some f => AFloat f | None => ANil end
  | JString s => AString s
  | JArray l => AArray (map decode l)
  | JObject l =>
      AMap ((fix go (l : list (string * json)) (acc : list (string * any)) :=
               match l with
               | [] => acc
               | (k, v) :: l' => go l' (insert_key k (decode v) acc)
               end) l [])
  end.

(** Whether it does so without an error. *)
Fixpoint decodes (j : json) : bool :=
  match j with
  | JNumber lit => match Float.ParseFloat lit with Some _ => true | None => false end
  | JArray l => forallb decodes l
  | JObject l => (fix go (l : list (string * json)) := match l with [] => true | (_, v) :: l' => decodes v && go l' end) l
  | _ => true
  end.

Fixpoint lookup (k : string) (l : list (string * any)) : option any :=
  match l with
  | [] => None
  | (k', v) :: l' => if k =s k' then Some v else lookup k l'
  end.

(** [reflect.DeepEqual]. *)
Fixpoint DeepEqual (a b : any) : bool :=
  match a, b with
  | ANil, ANil => true
  | ABool x, ABool y => Bool.eqb x y
  | AFloat x, AFloat y => Float.eqb x y
  | AString x, AString y => x =s y
  | AArray l, AArray k =>
      (fix go (l k : list any) := match l, k with
                                  | [], [] => true
                                  | x :: l', y :: k' => DeepEqual x y && go l' k'
                                  | _, _ => false
                                  end) l k
  | AMap l, AMap k =>
      (fix go (l k : list (string * any)) := match l, k with
                                             | [], [] => true
                                             | (i, x) :: l', (j, y) :: k' => (i =s j) && DeepEqual x y && go l' k'
                                             | _, _ => false
                                             end) l k
  | _, _ => false
  end.

(** Every number a JSON text decodes to is finite or zero, so equal to itself. *)
Fixpoint no_nan (a : any) : bool :=
  match a with
  | AFloat f => negb (Float.is_nan f)
  | AArray l => forallb no_nan l
  | AMap l => (fix go (l : list (string * any)) := match l with [] => true | (_, v) :: l' => no_nan v && go l' end) l
  | _ => true
  end.

(** Induction through lists and members. *)
Section any_ind.
Context (P : any -> Prop).
Hypothesis (Hnil : P ANil) (Hbool : forall b, P (ABool b)) (Hfloat : forall f, P (AFloat f)) (Hstr : forall s, P (AString s)).
Hypothesis (Harr : forall l, Forall P l -> P (AArray l)) (Hmap : forall l, Forall (fun kv => P kv.2) l -> P (AMap l)).
Fixpoint any_rect' (a : any) : P a :=
  match a with
  | ANil => Hnil
  | ABool b => Hbool b
  | AFloat f => Hfloat f
  | AString s => Hstr s
  | AArray l => Harr l ((fix go l : Forall P l := match l with [] => Forall_nil_2 _ | x :: l' => Forall_cons_2 _ x l' (any_rect' x) (go l') end) l)
  | AMap l => Hmap l ((fix go l : Forall (fun kv => P kv.2) l :=
                         match l with [] => Forall_nil_2 _ | x :: l' => Forall_cons_2 _ x l' (any_rect' x.2) (go l') end) l)
  end.
End any_ind.

Lemma DeepEqual_refl a : no_nan a = true -> DeepEqual a a = true.
Proof.
  induction a as [| b | f | s | l IH | l IH] using any_rect'; simpl; intros H.
  - done.
  - by destruct b.
  - apply Float.eqb_refl. by apply negb_true_iff.
  - apply seqb_refl.
  - induction IH as [|x l Hx _ IH]; [done|]. simpl in H. apply andb_prop in H as [H1 H2]. by rewrite Hx, IH.
  - induction IH as [|[k v] l Hx _ IH]; [done|]. apply andb_prop in H as [H1 H2]. rewrite seqb_refl. simpl in Hx.
    by rewrite Hx, IH.
Qed.

Definition nums (l : list (string * any)) : bool := forallb (fun kv => no_nan kv.2) l.
Lemma no_nan_AMap l : no_nan (AMap l) = nums l.
Proof. simpl. induction l as [|[k v] l IH]; [done|]. simpl. by rewrite IH. Qed.

Lemma nums_insert k v l : no_nan v = true -> nums l = true -> nums (insert_key k v l) = true.
Proof.
  intros Hv. induction l as [|[k' v'] l IH]; simpl; [by rewrite Hv|]. intros H. apply andb_prop in H as [H1 H2].
  destruct (String.compare k k'); simpl; rewrite ?Hv, ?H1, ?H2; simpl; auto.
Qed.

(** What JSON decodes to is equal to itself. *)
Fixpoint decode_no_nan (j : json) : no_nan (decode j) = true.
Proof.
  destruct j as [|b|lit|s|l|l]; [reflexivity | reflexivity | | reflexivity | |].
  - simpl. destruct (Float.ParseFloat lit) as [f|] eqn:E; [|reflexivity]. simpl.
    apply Float.ParseFloat_finite in E as [-> _]. reflexivity.
  - simpl. induction l as [|x l IH]; [reflexivity|]. simpl. rewrite (decode_no_nan x). exact IH.
  - cbn [decode]. rewrite no_nan_AMap. assert (Ha : nums [] = true) by reflexivity. revert Ha. generalize (@nil (string * any)) as acc.
    induction l as [|[k v] l IH]; intros acc Ha; [exact Ha|]. apply IH. apply nums_insert; [exact (decode_no_nan v) | exact Ha].
Qed.

(** What equals one value equals each other. *)
Lemma DeepEqual_euclid a b c : DeepEqual a b = true -> DeepEqual a c = true -> DeepEqual b c = true.
Proof.
  revert b c. induction a as [| x | f | s | l IH | l IH] using any_rect'; intros b c; destruct b, c; simpl; try done.
  - destruct x, b, b0; done.
  - apply Float.float_euclid.
  - by intros ->%seqb_true.
  - revert l0 l1. induction IH as [|x l Hx _ IH]; intros [|y k] [|z m]; try done. intros [H1 H2]%andb_prop [H3 H4]%andb_prop.
    rewrite (Hx _ _ H1 H3). simpl. by apply IH.
  - revert l0 l1. induction IH as [|[k0 x] l Hx _ IH]; intros [|[k1 y] k] [|[k2 z] m]; try done.
    intros [[E1%seqb_true H1]%andb_prop H2]%andb_prop [[E2%seqb_true H3]%andb_prop H4]%andb_prop. subst k1 k2. simpl in Hx.
    rewrite seqb_refl, (Hx _ _ H1 H3). simpl. by apply IH.
Qed.

Lemma decode_equal j : DeepEqual (decode j) (decode j) = true.
Proof. apply DeepEqual_refl, decode_no_nan. Qed.

Example deep_equal_examples :
  DeepEqual (decode (JObject [("a", JNumber "1.0"); ("b", JNull)])) (decode (JObject [("b", JNull); ("a", JNumber "1")])) = true /\
  DeepEqual (decode (JArray [JNumber "1"])) (decode (JArray [JNumber "1"; JNumber "2"])) = false.
Proof. vm_compute. repeat split. Qed.

End Any.
