(* ===== verification/Sha256.v ===== *)
(** * crypto/sha256, encoding/binary and "%x"

    SHA-256 (FIPS 180-4) on byte strings, executable, with the standard's
    test vectors; the pieces of the Go standard library by which the code
    buckets subjects and addresses manifests. *)

From S2P Require Import Prelude.
From S2P Require Import GoStd.

Module Sha256.

Definition mask (x : Z) : Z := x mod 4294967296.
Definition rotr (n x : Z) : Z :=
  Z.lor (Z.shiftr x n) (mask (Z.shiftl x (32 - n))).
Definition not32 (x : Z) : Z := 4294967295 - x.
Definition Ch (x y z : Z) : Z := Z.lxor (Z.land x y) (Z.land (not32 x) z).
Definition Maj (x y z : Z) : Z := Z.lxor (Z.lxor (Z.land x y) (Z.land x z)) (Z.land y z).
Definition Sig0 (x : Z) : Z := Z.lxor (Z.lxor (rotr 2 x) (rotr 13 x)) (rotr 22 x).
Definition Sig1 (x : Z) : Z := Z.lxor (Z.lxor (rotr 6 x) (rotr 11 x)) (rotr 25 x).
Definition sig0 (x : Z) : Z := Z.lxor (Z.lxor (rotr 7 x) (rotr 18 x)) (Z.shiftr x 3).
Definition sig1 (x : Z) : Z := Z.lxor (Z.lxor (rotr 17 x) (rotr 19 x)) (Z.shiftr x 10).

(** The round constants and initial hash are the first thirty-two bits of the
    fractional parts of the cube and square roots of the first primes. *)
Definition is_prime (n : nat) : bool := forallb (fun d => negb (Nat.eqb (Nat.modulo n d) 0)) (seq 2 (n - 2)).
Definition primes (count : nat) : list Z := take count (Z.of_nat <$> filter (fun n => is_prime n = true) (seq 2 310)).
(** The integer cube root of [n], bit by bit below [2^k * 2]. *)
Fixpoint cube_root (k : nat) (acc n : Z) : Z :=
  let acc' := acc + 2 ^ Z.of_nat k in
  let r := if acc' * acc' * acc' <=? n then acc' else acc in
  match k with O => r | S k' => cube_root k' r n end.
Definition K : list Z := Eval vm_compute in (fun p => mask (cube_root 40 0 (p * 2 ^ 96))) <$> primes 64.
Definition H0 : list Z := Eval vm_compute in (fun p => mask (Z.sqrt (p * 2 ^ 64))) <$> primes 8.

Fixpoint bytes (s : string) : list Z :=
  match s with EmptyString => [] | String c s' => GoStr.code c :: bytes s' end.

(** [n] big-endian bytes of [x]. *)
Fixpoint be (n : nat) (x : Z) : list Z :=
  match n with O => [] | S n' => be n' (Z.shiftr x 8) ++ [Z.land x 255] end.
Definition of_be (l : list Z) : Z := fold_left (fun acc b => acc * 256 + b) l 0.

Definition padded (m : list Z) : list Z :=
  let l := Z.of_nat (length m) in
  m ++ [128] ++ replicate (Z.to_nat ((55 - l) mod 64)) 0 ++ be 8 (l * 8).

Fixpoint chunks (n : nat) (fuel : nat) (l : list Z) : list (list Z) :=
  match fuel, l with
  | S f, _ :: _ => take n l :: chunks n f (drop n l)
  | _, _ => []
  end.

(** Message schedule, kept in reverse: each new word needs the words 2, 7,
    15 and 16 places back. *)
Fixpoint schedule (n : nat) (w : list Z) : list Z :=
  match n with
  | O => w
  | S n' =>
      schedule n' (mask (sig1 (nth 1 w 0) + nth 6 w 0 + sig0 (nth 14 w 0) + nth 15 w 0) :: w)
  end.

Definition round (st : list Z) (kw : Z * Z) : list Z :=
  match st with
  | [a; b; c; d; e; f; g; h] =>
      let t1 := h + Sig1 e + Ch e f g + kw.1 + kw.2 in
      let t2 := Sig0 a + Maj a b c in
      [mask (t1 + t2); a; b; c; mask (d + t1); e; f; g]
  | _ => st
  end.

Definition block (h : list Z) (b : list Z) : list Z :=
  let w := rev (schedule 48 (rev (of_be <$> chunks 4 16 b))) in
  zip_with (fun x y => mask (x + y)) h (fold_left round (zip K w) h).

(** [sha256.Sum256([]byte(s))]: 32 bytes. *)
Definition Sum256 (s : string) : list Z :=
  let p := padded (bytes s) in
  mjoin (be 4 <$> fold_left block (chunks 64 (length p) p) H0).

(** [binary.BigEndian.Uint64(h[:8])]. *)
Definition Uint64 (h : list Z) : Z := of_be (take 8 h).

(** [fmt.Sprintf("%x", h)]. *)
Definition hex_digit (d : Z) : Ascii.ascii :=
  Ascii.ascii_of_N (Z.to_N (if d <? 10 then 48 + d else 87 + d)).
Fixpoint hex (l : list Z) : string :=
  match l with
  | [] => EmptyString
  | b :: l' => String (hex_digit (b / 16)) (String (hex_digit (b mod 16)) (hex l'))
  end.

Example sum256_abc :
  hex (Sum256 "abc") = "ba7816bf8f01cfea414140de5dae2223b00361a396177a9cb410ff61f20015ad".
Proof. by vm_compute. Qed.
Example sum256_two_blocks :
  hex (Sum256 "abcdbcdecdefdefgefghfghighijhijkijkljklmklmnlmnomnopnopq") =
  "248d6a61d20638b8e5c026930c3e6039a33ce45964ff2167f6ecedd419db06c1".
Proof. by vm_compute. Qed.

End Sha256.
