(* ===== verification/Domain.v ===== *)
(** * Domain objects (src/internal/domain/domain.go)

    The structs the modelled components exchange, field by field.  A
    [time.Time] is a nanosecond count, a pointer is an option, a
    [map[string]string] an association list.  [text] is a string built by
    [fmt.Sprintf] from other values, kept as the format and its arguments. *)

From S2P Require Import Prelude.
From S2P Require Import GoStd.

Abbreviation text := error.
Definition lit (s : string) : text := Errorf s [].

Record Principal : Type := MkPrincipal {
  p_TenantID : string;
  p_WorkspaceID : string;
  p_AppID : string;
  p_KeyID : string;
  p_UserID : string;
  p_ActorType : string;
  p_Scopes : list string
}.

Definition set_p_AppID (v : string) (x : Principal) : Principal :=
  MkPrincipal (p_TenantID x) (p_WorkspaceID x) v (p_KeyID x) (p_UserID x) (p_ActorType x) (p_Scopes x).

Record Event : Type := MkEvent {
  ev_Type : string;
  ev_SchemaVersion : Z;
  ev_ExternalID : string;
  ev_AnonymousID : string;
  ev_IdempotencyKey : string;
  ev_OccurredAt : Z;
  ev_Source : string;
  ev_SourceEventID : string;
  ev_CorrelationID : string;
  ev_CausationID : string;
  ev_Traceparent : string;
  ev_DataClassification : string;
  ev_ConsentContext : RawMessage;
  ev_Payload : RawMessage
}.

Record AcceptedEvent : Type := MkAcceptedEvent {
  ae_ID : string;
  ae_Principal : Principal;
  ae_Type : string;
  ae_SchemaVersion : Z;
  ae_ExternalID : string;
  ae_AnonymousID : string;
  ae_IdempotencyKey : string;
  ae_OccurredAt : Z;
  ae_ReceivedAt : Z;
  ae_Source : string;
  ae_SourceEventID : string;
  ae_CorrelationID : string;
  ae_CausationID : string;
  ae_Traceparent : string;
  ae_DataClassification : string;
  ae_ConsentContext : RawMessage;
  ae_Payload : RawMessage
}.

Record Profile : Type := MkProfile {
  prof_ID : string;
  prof_ExternalID : string;
  prof_AnonymousID : string;
  prof_Attributes : RawMessage;
  prof_Version : Z;
  prof_UpdatedAt : Z
}.

Record Consent : Type := MkConsent {
  cons_ProfileID : string;
  cons_Channel : string;
  cons_Topic : string;
  cons_State : string;
  cons_OccurredAt : Z
}.

Record DeviceToken : Type := MkDeviceToken {
  dt_ID : string;
  dt_TenantID : string;
  dt_WorkspaceID : string;
  dt_AppID : string;
  dt_ProfileID : string;
  dt_Platform : string;
  dt_Provider : string;
  dt_Token : string;
  dt_Status : string;
  dt_LastSeenAt : Z;
  dt_CreatedAt : Z;
  dt_UpdatedAt : Z
}.

Record SendingIdentity : Type := MkSendingIdentity {
  si_ID : string;
  si_TenantID : string;
  si_WorkspaceID : string;
  si_Channel : string;
  si_FromAddress : option string;
  si_FromName : option string;
  si_ReplyTo : option string;
  si_Provider : string;
  si_Config : RawMessage;
  si_MaxSendRate : Z;
  si_Verified : bool;
  si_CreatedAt : Z
}.

Record Template : Type := MkTemplate {
  tpl_ID : string;
  tpl_TenantID : string;
  tpl_WorkspaceID : string;
  tpl_Name : string;
  tpl_Channel : string;
  tpl_SubjectTemplate : option string;
  tpl_HTMLTemplate : option string;
  tpl_TextTemplate : option string;
  tpl_BodyTemplate : option string;
  tpl_TitleTemplate : option string;
  tpl_PushData : list (string * string);
  tpl_SendingIdentityID : option string;
  tpl_Version : Z;
  tpl_CreatedAt : Z;
  tpl_UpdatedAt : Z
}.

Record ExperimentVariant : Type := MkExperimentVariant {
  xv_ID : string;
  xv_ExperimentID : string;
  xv_TenantID : string;
  xv_Label : string;
  xv_Weight : Z;
  xv_IsControl : bool;
  xv_TemplateID : option string;
  xv_CreatedAt : Z
}.

Record Experiment : Type := MkExperiment {
  exp_ID : string;
  exp_TenantID : string;
  exp_WorkspaceID : string;
  exp_Name : string;
  exp_Description : option string;
  exp_SubjectType : string;
  exp_Status : string;
  exp_Method : string;
  exp_Seed : string;
  exp_HoldoutPct : Z;
  exp_PrimaryGoal : RawMessage;
  exp_GuardrailGoals : RawMessage;
  exp_WinnerVariant : option string;
  exp_Variants : list ExperimentVariant;
  exp_CreatedAt : Z;
  exp_UpdatedAt : Z
}.

Record ExperimentAssignment : Type := MkExperimentAssignment {
  xa_ExperimentID : string;
  xa_TenantID : string;
  xa_WorkspaceID : string;
  xa_ProfileID : string;
  xa_Variant : string;
  xa_AssignedAt : Z
}.

Record FlagVariant : Type := MkFlagVariant {
  fv_Label : string;
  fv_Value : RawMessage;
  fv_Weight : Z
}.

Record FlagTargetingRule : Type := MkFlagTargetingRule {
  fr_DSL : RawMessage;
  fr_Variant : string
}.

Record FeatureFlag : Type := MkFeatureFlag {
  ff_ID : string;
  ff_TenantID : string;
  ff_WorkspaceID : string;
  ff_AppID : string;
  ff_Environment : string;
  ff_Key : string;
  ff_Name : option string;
  ff_Description : option string;
  ff_FlagType : string;
  ff_DefaultValue : RawMessage;
  ff_Variants : list FlagVariant;
  ff_TargetingRules : list FlagTargetingRule;
  ff_RolloutPct : Z;
  ff_Seed : string;
  ff_Enabled : bool;
  ff_Status : string;
  ff_CurrentVersionID : option string;
  ff_CreatedAt : Z;
  ff_UpdatedAt : Z
}.

Definition set_ff_RolloutPct (v : Z) (x : FeatureFlag) : FeatureFlag :=
  MkFeatureFlag (ff_ID x) (ff_TenantID x) (ff_WorkspaceID x) (ff_AppID x) (ff_Environment x) (ff_Key x) (ff_Name x) (ff_Description x) (ff_FlagType x) (ff_DefaultValue x) (ff_Variants x) (ff_TargetingRules x) v (ff_Seed x) (ff_Enabled x) (ff_Status x) (ff_CurrentVersionID x) (ff_CreatedAt x) (ff_UpdatedAt x).

Record Journey : Type := MkJourney {
  jny_ID : string;
  jny_TenantID : string;
  jny_WorkspaceID : string;
  jny_Name : string;
  jny_Description : option string;
  jny_Status : string;
  jny_Graph : RawMessage;
  jny_LatestVersion : Z;
  jny_CurrentVersionID : option string;
  jny_CreatedAt : Z;
  jny_UpdatedAt : Z
}.

Record JourneyVersion : Type := MkJourneyVersion {
  jv_ID : string;
  jv_JourneyID : string;
  jv_TenantID : string;
  jv_WorkspaceID : string;
  jv_Version : Z;
  jv_Graph : RawMessage;
  jv_ManifestKey : option string;
  jv_EntryKind : string;
  jv_EntryEventType : option string;
  jv_EntrySegmentID : option string;
  jv_EntrySchedule : option string;
  jv_ReentryPolicy : string;
  jv_MaxReentries : Z;
  jv_LatePolicy : string;
  jv_ConversionGoal : RawMessage;
  jv_AttributionWindow : option string;
  jv_Status : string;
  jv_PublishedBy : option string;
  jv_PublishedAt : Z
}.

Record JourneyRun : Type := MkJourneyRun {
  run_ID : string;
  run_TenantID : string;
  run_WorkspaceID : string;
  run_JourneyID : string;
  run_JourneyVersionID : string;
  run_ProfileID : string;
  run_SubjectExternalID : option string;
  run_EntryKey : string;
  run_ReentrySequence : Z;
  run_Status : string;
  run_CurrentNodeID : string;
  run_State : RawMessage;
  run_WaitEventType : option string;
  run_WaitUntil : option Z;
  run_GoalReached : bool;
  run_EnteredAt : Z;
  run_UpdatedAt : Z;
  run_CompletedAt : option Z
}.

Definition set_run_ID (v : string) (x : JourneyRun) : JourneyRun :=
  MkJourneyRun v (run_TenantID x) (run_WorkspaceID x) (run_JourneyID x) (run_JourneyVersionID x) (run_ProfileID x) (run_SubjectExternalID x) (run_EntryKey x) (run_ReentrySequence x) (run_Status x) (run_CurrentNodeID x) (run_State x) (run_WaitEventType x) (run_WaitUntil x) (run_GoalReached x) (run_EnteredAt x) (run_UpdatedAt x) (run_CompletedAt x).

Definition set_run_Status (v : string) (x : JourneyRun) : JourneyRun :=
  MkJourneyRun (run_ID x) (run_TenantID x) (run_WorkspaceID x) (run_JourneyID x) (run_JourneyVersionID x) (run_ProfileID x) (run_SubjectExternalID x) (run_EntryKey x) (run_ReentrySequence x) v (run_CurrentNodeID x) (run_State x) (run_WaitEventType x) (run_WaitUntil x) (run_GoalReached x) (run_EnteredAt x) (run_UpdatedAt x) (run_CompletedAt x).

Definition set_run_CurrentNodeID (v : string) (x : JourneyRun) : JourneyRun :=
  MkJourneyRun (run_ID x) (run_TenantID x) (run_WorkspaceID x) (run_JourneyID x) (run_JourneyVersionID x) (run_ProfileID x) (run_SubjectExternalID x) (run_EntryKey x) (run_ReentrySequence x) (run_Status x) v (run_State x) (run_WaitEventType x) (run_WaitUntil x) (run_GoalReached x) (run_EnteredAt x) (run_UpdatedAt x) (run_CompletedAt x).

Definition set_run_State (v : RawMessage) (x : JourneyRun) : JourneyRun :=
  MkJourneyRun (run_ID x) (run_TenantID x) (run_WorkspaceID x) (run_JourneyID x) (run_JourneyVersionID x) (run_ProfileID x) (run_SubjectExternalID x) (run_EntryKey x) (run_ReentrySequence x) (run_Status x) (run_CurrentNodeID x) v (run_WaitEventType x) (run_WaitUntil x) (run_GoalReached x) (run_EnteredAt x) (run_UpdatedAt x) (run_CompletedAt x).

Definition set_run_WaitEventType (v : option string) (x : JourneyRun) : JourneyRun :=
  MkJourneyRun (run_ID x) (run_TenantID x) (run_WorkspaceID x) (run_JourneyID x) (run_JourneyVersionID x) (run_ProfileID x) (run_SubjectExternalID x) (run_EntryKey x) (run_ReentrySequence x) (run_Status x) (run_CurrentNodeID x) (run_State x) v (run_WaitUntil x) (run_GoalReached x) (run_EnteredAt x) (run_UpdatedAt x) (run_CompletedAt x).

Definition set_run_WaitUntil (v : option Z) (x : JourneyRun) : JourneyRun :=
  MkJourneyRun (run_ID x) (run_TenantID x) (run_WorkspaceID x) (run_JourneyID x) (run_JourneyVersionID x) (run_ProfileID x) (run_SubjectExternalID x) (run_EntryKey x) (run_ReentrySequence x) (run_Status x) (run_CurrentNodeID x) (run_State x) (run_WaitEventType x) v (run_GoalReached x) (run_EnteredAt x) (run_UpdatedAt x) (run_CompletedAt x).

Definition set_run_GoalReached (v : bool) (x : JourneyRun) : JourneyRun :=
  MkJourneyRun (run_ID x) (run_TenantID x) (run_WorkspaceID x) (run_JourneyID x) (run_JourneyVersionID x) (run_ProfileID x) (run_SubjectExternalID x) (run_EntryKey x) (run_ReentrySequence x) (run_Status x) (run_CurrentNodeID x) (run_State x) (run_WaitEventType x) (run_WaitUntil x) v (run_EnteredAt x) (run_UpdatedAt x) (run_CompletedAt x).

Definition set_run_EnteredAt (v : Z) (x : JourneyRun) : JourneyRun :=
  MkJourneyRun (run_ID x) (run_TenantID x) (run_WorkspaceID x) (run_JourneyID x) (run_JourneyVersionID x) (run_ProfileID x) (run_SubjectExternalID x) (run_EntryKey x) (run_ReentrySequence x) (run_Status x) (run_CurrentNodeID x) (run_State x) (run_WaitEventType x) (run_WaitUntil x) (run_GoalReached x) v (run_UpdatedAt x) (run_CompletedAt x).

Definition set_run_UpdatedAt (v : Z) (x : JourneyRun) : JourneyRun :=
  MkJourneyRun (run_ID x) (run_TenantID x) (run_WorkspaceID x) (run_JourneyID x) (run_JourneyVersionID x) (run_ProfileID x) (run_SubjectExternalID x) (run_EntryKey x) (run_ReentrySequence x) (run_Status x) (run_CurrentNodeID x) (run_State x) (run_WaitEventType x) (run_WaitUntil x) (run_GoalReached x) (run_EnteredAt x) v (run_CompletedAt x).

Definition set_run_CompletedAt (v : option Z) (x : JourneyRun) : JourneyRun :=
  MkJourneyRun (run_ID x) (run_TenantID x) (run_WorkspaceID x) (run_JourneyID x) (run_JourneyVersionID x) (run_ProfileID x) (run_SubjectExternalID x) (run_EntryKey x) (run_ReentrySequence x) (run_Status x) (run_CurrentNodeID x) (run_State x) (run_WaitEventType x) (run_WaitUntil x) (run_GoalReached x) (run_EnteredAt x) (run_UpdatedAt x) v.

Record JourneyStep : Type := MkJourneyStep {
  step_ID : string;
  step_RunID : string;
  step_TenantID : string;
  step_NodeID : string;
  step_Kind : string;
  step_Status : string;
  step_Attempts : Z;
  step_AvailableAt : Z;
  step_LockedUntil : option Z;
  step_ErrorMessage : option text;
  step_CreatedAt : Z;
  step_UpdatedAt : Z
}.

Definition set_step_ID (v : string) (x : JourneyStep) : JourneyStep :=
  MkJourneyStep v (step_RunID x) (step_TenantID x) (step_NodeID x) (step_Kind x) (step_Status x) (step_Attempts x) (step_AvailableAt x) (step_LockedUntil x) (step_ErrorMessage x) (step_CreatedAt x) (step_UpdatedAt x).

Definition set_step_RunID (v : string) (x : JourneyStep) : JourneyStep :=
  MkJourneyStep (step_ID x) v (step_TenantID x) (step_NodeID x) (step_Kind x) (step_Status x) (step_Attempts x) (step_AvailableAt x) (step_LockedUntil x) (step_ErrorMessage x) (step_CreatedAt x) (step_UpdatedAt x).

Definition set_step_TenantID (v : string) (x : JourneyStep) : JourneyStep :=
  MkJourneyStep (step_ID x) (step_RunID x) v (step_NodeID x) (step_Kind x) (step_Status x) (step_Attempts x) (step_AvailableAt x) (step_LockedUntil x) (step_ErrorMessage x) (step_CreatedAt x) (step_UpdatedAt x).

Definition set_step_Kind (v : string) (x : JourneyStep) : JourneyStep :=
  MkJourneyStep (step_ID x) (step_RunID x) (step_TenantID x) (step_NodeID x) v (step_Status x) (step_Attempts x) (step_AvailableAt x) (step_LockedUntil x) (step_ErrorMessage x) (step_CreatedAt x) (step_UpdatedAt x).

Definition set_step_Status (v : string) (x : JourneyStep) : JourneyStep :=
  MkJourneyStep (step_ID x) (step_RunID x) (step_TenantID x) (step_NodeID x) (step_Kind x) v (step_Attempts x) (step_AvailableAt x) (step_LockedUntil x) (step_ErrorMessage x) (step_CreatedAt x) (step_UpdatedAt x).

Definition set_step_Attempts (v : Z) (x : JourneyStep) : JourneyStep :=
  MkJourneyStep (step_ID x) (step_RunID x) (step_TenantID x) (step_NodeID x) (step_Kind x) (step_Status x) v (step_AvailableAt x) (step_LockedUntil x) (step_ErrorMessage x) (step_CreatedAt x) (step_UpdatedAt x).

Definition set_step_AvailableAt (v : Z) (x : JourneyStep) : JourneyStep :=
  MkJourneyStep (step_ID x) (step_RunID x) (step_TenantID x) (step_NodeID x) (step_Kind x) (step_Status x) (step_Attempts x) v (step_LockedUntil x) (step_ErrorMessage x) (step_CreatedAt x) (step_UpdatedAt x).

Definition set_step_LockedUntil (v : option Z) (x : JourneyStep) : JourneyStep :=
  MkJourneyStep (step_ID x) (step_RunID x) (step_TenantID x) (step_NodeID x) (step_Kind x) (step_Status x) (step_Attempts x) (step_AvailableAt x) v (step_ErrorMessage x) (step_CreatedAt x) (step_UpdatedAt x).

Definition set_step_ErrorMessage (v : option text) (x : JourneyStep) : JourneyStep :=
  MkJourneyStep (step_ID x) (step_RunID x) (step_TenantID x) (step_NodeID x) (step_Kind x) (step_Status x) (step_Attempts x) (step_AvailableAt x) (step_LockedUntil x) v (step_CreatedAt x) (step_UpdatedAt x).

Definition set_step_CreatedAt (v : Z) (x : JourneyStep) : JourneyStep :=
  MkJourneyStep (step_ID x) (step_RunID x) (step_TenantID x) (step_NodeID x) (step_Kind x) (step_Status x) (step_Attempts x) (step_AvailableAt x) (step_LockedUntil x) (step_ErrorMessage x) v (step_UpdatedAt x).

Definition set_step_UpdatedAt (v : Z) (x : JourneyStep) : JourneyStep :=
  MkJourneyStep (step_ID x) (step_RunID x) (step_TenantID x) (step_NodeID x) (step_Kind x) (step_Status x) (step_Attempts x) (step_AvailableAt x) (step_LockedUntil x) (step_ErrorMessage x) (step_CreatedAt x) v.

Record JourneyTransition : Type := MkJourneyTransition {
  tr_ID : string;
  tr_RunID : string;
  tr_TenantID : string;
  tr_FromNode : option string;
  tr_ToNode : option string;
  tr_NodeType : string;
  tr_Outcome : string;
  tr_Detail : RawMessage;
  tr_OccurredAt : Z
}.

Definition set_tr_ID (v : string) (x : JourneyTransition) : JourneyTransition :=
  MkJourneyTransition v (tr_RunID x) (tr_TenantID x) (tr_FromNode x) (tr_ToNode x) (tr_NodeType x) (tr_Outcome x) (tr_Detail x) (tr_OccurredAt x).

Definition set_tr_Outcome (v : string) (x : JourneyTransition) : JourneyTransition :=
  MkJourneyTransition (tr_ID x) (tr_RunID x) (tr_TenantID x) (tr_FromNode x) (tr_ToNode x) (tr_NodeType x) v (tr_Detail x) (tr_OccurredAt x).

Definition set_tr_Detail (v : RawMessage) (x : JourneyTransition) : JourneyTransition :=
  MkJourneyTransition (tr_ID x) (tr_RunID x) (tr_TenantID x) (tr_FromNode x) (tr_ToNode x) (tr_NodeType x) (tr_Outcome x) v (tr_OccurredAt x).

Definition set_tr_OccurredAt (v : Z) (x : JourneyTransition) : JourneyTransition :=
  MkJourneyTransition (tr_ID x) (tr_RunID x) (tr_TenantID x) (tr_FromNode x) (tr_ToNode x) (tr_NodeType x) (tr_Outcome x) (tr_Detail x) v.

Record JourneyMessageIntent : Type := MkJourneyMessageIntent {
  mi_ID : string;
  mi_RunID : string;
  mi_TenantID : string;
  mi_WorkspaceID : string;
  mi_JourneyID : string;
  mi_JourneyVersionID : string;
  mi_NodeID : string;
  mi_ProfileID : string;
  mi_ExperimentID : option string;
  mi_Variant : string;
  mi_TemplateID : string;
  mi_Channel : string;
  mi_Endpoint : string;
  mi_Transactional : bool;
  mi_Status : string;
  mi_Attempts : Z;
  mi_AvailableAt : Z;
  mi_LockedUntil : option Z;
  mi_Decision : option string;
  mi_Reason : option text;
  mi_ProviderMessageID : option string;
  mi_PolicySnapshot : RawMessage;
  mi_ErrorMessage : option text;
  mi_CostMicros : Z;
  mi_CreatedAt : Z;
  mi_UpdatedAt : Z
}.

Definition set_mi_ID (v : string) (x : JourneyMessageIntent) : JourneyMessageIntent :=
  MkJourneyMessageIntent v (mi_RunID x) (mi_TenantID x) (mi_WorkspaceID x) (mi_JourneyID x) (mi_JourneyVersionID x) (mi_NodeID x) (mi_ProfileID x) (mi_ExperimentID x) (mi_Variant x) (mi_TemplateID x) (mi_Channel x) (mi_Endpoint x) (mi_Transactional x) (mi_Status x) (mi_Attempts x) (mi_AvailableAt x) (mi_LockedUntil x) (mi_Decision x) (mi_Reason x) (mi_ProviderMessageID x) (mi_PolicySnapshot x) (mi_ErrorMessage x) (mi_CostMicros x) (mi_CreatedAt x) (mi_UpdatedAt x).

Definition set_mi_Status (v : string) (x : JourneyMessageIntent) : JourneyMessageIntent :=
  MkJourneyMessageIntent (mi_ID x) (mi_RunID x) (mi_TenantID x) (mi_WorkspaceID x) (mi_JourneyID x) (mi_JourneyVersionID x) (mi_NodeID x) (mi_ProfileID x) (mi_ExperimentID x) (mi_Variant x) (mi_TemplateID x) (mi_Channel x) (mi_Endpoint x) (mi_Transactional x) v (mi_Attempts x) (mi_AvailableAt x) (mi_LockedUntil x) (mi_Decision x) (mi_Reason x) (mi_ProviderMessageID x) (mi_PolicySnapshot x) (mi_ErrorMessage x) (mi_CostMicros x) (mi_CreatedAt x) (mi_UpdatedAt x).

Definition set_mi_Attempts (v : Z) (x : JourneyMessageIntent) : JourneyMessageIntent :=
  MkJourneyMessageIntent (mi_ID x) (mi_RunID x) (mi_TenantID x) (mi_WorkspaceID x) (mi_JourneyID x) (mi_JourneyVersionID x) (mi_NodeID x) (mi_ProfileID x) (mi_ExperimentID x) (mi_Variant x) (mi_TemplateID x) (mi_Channel x) (mi_Endpoint x) (mi_Transactional x) (mi_Status x) v (mi_AvailableAt x) (mi_LockedUntil x) (mi_Decision x) (mi_Reason x) (mi_ProviderMessageID x) (mi_PolicySnapshot x) (mi_ErrorMessage x) (mi_CostMicros x) (mi_CreatedAt x) (mi_UpdatedAt x).

Definition set_mi_AvailableAt (v : Z) (x : JourneyMessageIntent) : JourneyMessageIntent :=
  MkJourneyMessageIntent (mi_ID x) (mi_RunID x) (mi_TenantID x) (mi_WorkspaceID x) (mi_JourneyID x) (mi_JourneyVersionID x) (mi_NodeID x) (mi_ProfileID x) (mi_ExperimentID x) (mi_Variant x) (mi_TemplateID x) (mi_Channel x) (mi_Endpoint x) (mi_Transactional x) (mi_Status x) (mi_Attempts x) v (mi_LockedUntil x) (mi_Decision x) (mi_Reason x) (mi_ProviderMessageID x) (mi_PolicySnapshot x) (mi_ErrorMessage x) (mi_CostMicros x) (mi_CreatedAt x) (mi_UpdatedAt x).

Definition set_mi_LockedUntil (v : option Z) (x : JourneyMessageIntent) : JourneyMessageIntent :=
  MkJourneyMessageIntent (mi_ID x) (mi_RunID x) (mi_TenantID x) (mi_WorkspaceID x) (mi_JourneyID x) (mi_JourneyVersionID x) (mi_NodeID x) (mi_ProfileID x) (mi_ExperimentID x) (mi_Variant x) (mi_TemplateID x) (mi_Channel x) (mi_Endpoint x) (mi_Transactional x) (mi_Status x) (mi_Attempts x) (mi_AvailableAt x) v (mi_Decision x) (mi_Reason x) (mi_ProviderMessageID x) (mi_PolicySnapshot x) (mi_ErrorMessage x) (mi_CostMicros x) (mi_CreatedAt x) (mi_UpdatedAt x).

Definition set_mi_Decision (v : option string) (x : JourneyMessageIntent) : JourneyMessageIntent :=
  MkJourneyMessageIntent (mi_ID x) (mi_RunID x) (mi_TenantID x) (mi_WorkspaceID x) (mi_JourneyID x) (mi_JourneyVersionID x) (mi_NodeID x) (mi_ProfileID x) (mi_ExperimentID x) (mi_Variant x) (mi_TemplateID x) (mi_Channel x) (mi_Endpoint x) (mi_Transactional x) (mi_Status x) (mi_Attempts x) (mi_AvailableAt x) (mi_LockedUntil x) v (mi_Reason x) (mi_ProviderMessageID x) (mi_PolicySnapshot x) (mi_ErrorMessage x) (mi_CostMicros x) (mi_CreatedAt x) (mi_UpdatedAt x).

Definition set_mi_Reason (v : option text) (x : JourneyMessageIntent) : JourneyMessageIntent :=
  MkJourneyMessageIntent (mi_ID x) (mi_RunID x) (mi_TenantID x) (mi_WorkspaceID x) (mi_JourneyID x) (mi_JourneyVersionID x) (mi_NodeID x) (mi_ProfileID x) (mi_ExperimentID x) (mi_Variant x) (mi_TemplateID x) (mi_Channel x) (mi_Endpoint x) (mi_Transactional x) (mi_Status x) (mi_Attempts x) (mi_AvailableAt x) (mi_LockedUntil x) (mi_Decision x) v (mi_ProviderMessageID x) (mi_PolicySnapshot x) (mi_ErrorMessage x) (mi_CostMicros x) (mi_CreatedAt x) (mi_UpdatedAt x).

Definition set_mi_ProviderMessageID (v : option string) (x : JourneyMessageIntent) : JourneyMessageIntent :=
  MkJourneyMessageIntent (mi_ID x) (mi_RunID x) (mi_TenantID x) (mi_WorkspaceID x) (mi_JourneyID x) (mi_JourneyVersionID x) (mi_NodeID x) (mi_ProfileID x) (mi_ExperimentID x) (mi_Variant x) (mi_TemplateID x) (mi_Channel x) (mi_Endpoint x) (mi_Transactional x) (mi_Status x) (mi_Attempts x) (mi_AvailableAt x) (mi_LockedUntil x) (mi_Decision x) (mi_Reason x) v (mi_PolicySnapshot x) (mi_ErrorMessage x) (mi_CostMicros x) (mi_CreatedAt x) (mi_UpdatedAt x).

Definition set_mi_PolicySnapshot (v : RawMessage) (x : JourneyMessageIntent) : JourneyMessageIntent :=
  MkJourneyMessageIntent (mi_ID x) (mi_RunID x) (mi_TenantID x) (mi_WorkspaceID x) (mi_JourneyID x) (mi_JourneyVersionID x) (mi_NodeID x) (mi_ProfileID x) (mi_ExperimentID x) (mi_Variant x) (mi_TemplateID x) (mi_Channel x) (mi_Endpoint x) (mi_Transactional x) (mi_Status x) (mi_Attempts x) (mi_AvailableAt x) (mi_LockedUntil x) (mi_Decision x) (mi_Reason x) (mi_ProviderMessageID x) v (mi_ErrorMessage x) (mi_CostMicros x) (mi_CreatedAt x) (mi_UpdatedAt x).

Definition set_mi_ErrorMessage (v : option text) (x : JourneyMessageIntent) : JourneyMessageIntent :=
  MkJourneyMessageIntent (mi_ID x) (mi_RunID x) (mi_TenantID x) (mi_WorkspaceID x) (mi_JourneyID x) (mi_JourneyVersionID x) (mi_NodeID x) (mi_ProfileID x) (mi_ExperimentID x) (mi_Variant x) (mi_TemplateID x) (mi_Channel x) (mi_Endpoint x) (mi_Transactional x) (mi_Status x) (mi_Attempts x) (mi_AvailableAt x) (mi_LockedUntil x) (mi_Decision x) (mi_Reason x) (mi_ProviderMessageID x) (mi_PolicySnapshot x) v (mi_CostMicros x) (mi_CreatedAt x) (mi_UpdatedAt x).

Definition set_mi_CostMicros (v : Z) (x : JourneyMessageIntent) : JourneyMessageIntent :=
  MkJourneyMessageIntent (mi_ID x) (mi_RunID x) (mi_TenantID x) (mi_WorkspaceID x) (mi_JourneyID x) (mi_JourneyVersionID x) (mi_NodeID x) (mi_ProfileID x) (mi_ExperimentID x) (mi_Variant x) (mi_TemplateID x) (mi_Channel x) (mi_Endpoint x) (mi_Transactional x) (mi_Status x) (mi_Attempts x) (mi_AvailableAt x) (mi_LockedUntil x) (mi_Decision x) (mi_Reason x) (mi_ProviderMessageID x) (mi_PolicySnapshot x) (mi_ErrorMessage x) v (mi_CreatedAt x) (mi_UpdatedAt x).

Definition set_mi_CreatedAt (v : Z) (x : JourneyMessageIntent) : JourneyMessageIntent :=
  MkJourneyMessageIntent (mi_ID x) (mi_RunID x) (mi_TenantID x) (mi_WorkspaceID x) (mi_JourneyID x) (mi_JourneyVersionID x) (mi_NodeID x) (mi_ProfileID x) (mi_ExperimentID x) (mi_Variant x) (mi_TemplateID x) (mi_Channel x) (mi_Endpoint x) (mi_Transactional x) (mi_Status x) (mi_Attempts x) (mi_AvailableAt x) (mi_LockedUntil x) (mi_Decision x) (mi_Reason x) (mi_ProviderMessageID x) (mi_PolicySnapshot x) (mi_ErrorMessage x) (mi_CostMicros x) v (mi_UpdatedAt x).

Definition set_mi_UpdatedAt (v : Z) (x : JourneyMessageIntent) : JourneyMessageIntent :=
  MkJourneyMessageIntent (mi_ID x) (mi_RunID x) (mi_TenantID x) (mi_WorkspaceID x) (mi_JourneyID x) (mi_JourneyVersionID x) (mi_NodeID x) (mi_ProfileID x) (mi_ExperimentID x) (mi_Variant x) (mi_TemplateID x) (mi_Channel x) (mi_Endpoint x) (mi_Transactional x) (mi_Status x) (mi_Attempts x) (mi_AvailableAt x) (mi_LockedUntil x) (mi_Decision x) (mi_Reason x) (mi_ProviderMessageID x) (mi_PolicySnapshot x) (mi_ErrorMessage x) (mi_CostMicros x) (mi_CreatedAt x) v.
