(* ===== verification/Event.v ===== *)
(** * Events and their validation (src/internal/domain/domain.go)

    [Principal.HasScope] and [Event.Validate]: the checks of the envelope and,
    for the typed events, of the payload's fields. *)

From S2P Require Import Prelude.
From S2P Require Import GoStd.
From S2P Require Import GoMap.
From S2P Require Import GoFloat.
From S2P Require Import Domain.

Module Event.

Definition HasScope (p : Principal) (required : string) : bool :=
  existsb (fun scope => (scope =s required) || (scope =s "*")) (p_Scopes p).

(** [json.Unmarshal] of the payload into a struct of string fields. *)
Definition string_fields (names : list string) : list (string * Json.setter (list string)) :=
  imap (fun i name => (name, Json.set_string (fun s l => <[i := s]> l))) names.
Definition strings_of (names : list string) (payload : RawMessage) : result (list string) :=
  Json.Unmarshal (string_fields names) (replicate (length names) "") payload.

(** [err != nil || strings.TrimSpace(field) == ""] for any of the fields. *)
Definition missing (names : list string) (payload : RawMessage) : bool :=
  match strings_of names payload with
  | Ok l => existsb GoMap.blank l
  | Err _ => true
  end.

(** A [map[string]string] field, null values empty. *)
Definition set_string_map {T} (upd : option (gmap string string) -> T -> T) : Json.setter T := fun j x =>
  match j with
  | JNull => Some (upd None x)
  | JObject l =>
      match Json.map_opt (fun kv => match Json.elem_string kv.2 with Some s => Some (kv.1, s) | None => None end) l with
      | Some kvs => Some (upd (Some (fold_left (fun m kv => <[kv.1 := kv.2]> m) kvs ∅)) x)
      | None => None
      end
  | _ => None
  end.

(** The [identity.alias] body: namespace, value, identities. *)
Record AliasBody : Type := MkAliasBody {
  ab_Namespace : string;
  ab_Value : string;
  ab_Identities : option (gmap string string)
}.
Definition alias_fields : list (string * Json.setter AliasBody) :=
  [("namespace", Json.set_string (fun s b => MkAliasBody s (ab_Value b) (ab_Identities b)));
   ("value", Json.set_string (fun s b => MkAliasBody (ab_Namespace b) s (ab_Identities b)));
   ("identities", set_string_map (fun m b => MkAliasBody (ab_Namespace b) (ab_Value b) m))].
Definition decode_alias (payload : RawMessage) : result AliasBody :=
  Json.Unmarshal alias_fields (MkAliasBody "" "" None) payload.
Definition identities (b : AliasBody) : gmap string string := default ∅ (ab_Identities b).

(** A [map[string]any] field: a number out of the range of a float64, at any
    depth, is a type error. *)
Definition set_any_map {T} (upd : option (list (string * json)) -> T -> T) : Json.setter T := fun j x =>
  if Any.decodes j then Json.set_map upd j x else None.

(** The [attributes] object of a [profile.updated] payload; [None] is a nil
    map. *)
Definition decode_attributes (payload : RawMessage) : result (option (list (string * json))) :=
  Json.Unmarshal [("attributes", set_any_map (fun m _ => m))] None payload.

Definition is_object (r : RawMessage) : bool := match r with Raw (JObject _) => true | _ => false end.
Definition valid_json (r : RawMessage) : bool := match r with Raw _ => true | _ => false end.

(** The switch on the event type. *)
Definition payload_error (e : Event) : option string :=
  let payload := ev_Payload e in
  let need (names : list string) (msg : string) := if missing names payload then Some msg else None in
  let kind (t : string) := ev_Type e =s t in
  if kind "stage.changed" then need ["stage"] "stage.changed payload requires stage"
  else if kind "form.submitted" then need ["form_id"] "form.submitted payload requires form_id"
  else if kind "profile.updated" then
    match decode_attributes payload with
    | Ok (Some _) => None
    | _ => Some "profile.updated payload requires an attributes object"
    end
  else if kind "consent.changed" then
    match strings_of ["channel"; "state"] payload with
    | Ok [channel; state] =>
        if GoMap.blank channel then Some "consent.changed payload requires channel"
        else if negb (state =s "subscribed") && negb (state =s "unsubscribed")
        then Some "consent.changed state must be subscribed or unsubscribed" else None
    | _ => Some "consent.changed payload requires channel"
    end
  else if kind "identity.alias" then
    match decode_alias payload with
    | Ok b => if (GoMap.blank (ab_Namespace b) || GoMap.blank (ab_Value b)) && bool_decide (identities b = ∅)
              then Some "identity.alias requires namespace/value or identities" else None
    | Err _ => Some "identity.alias requires namespace/value or identities"
    end
  else if kind "identity.merge" then
    if missing ["source_external_id"] payload || GoMap.blank (ev_ExternalID e)
    then Some "identity.merge requires event external_id as target and source_external_id" else None
  else if kind "identity.unmerge" then
    match strings_of ["merge_id"; "source_profile_id"] payload with
    | Ok l => if forallb GoMap.blank l then Some "identity.unmerge requires merge_id or source_profile_id" else None
    | Err _ => Some "identity.unmerge requires merge_id or source_profile_id"
    end
  else if kind "email.sent" then
    need ["template_id"; "dispatch_id"; "channel"] "email.sent payload requires template_id, dispatch_id, and channel"
  else if kind "email.opened" then
    need ["template_id"; "dispatch_id"] "email.opened payload requires template_id and dispatch_id"
  else if kind "link.clicked" then
    need ["template_id"; "dispatch_id"; "url"] "link.clicked payload requires template_id, dispatch_id, and url"
  else if kind "message.sent" then
    match strings_of ["campaign_id"; "journey_id"; "channel"; "endpoint"] payload with
    | Ok [campaign; journey; channel; endpoint] =>
        if (GoMap.blank campaign && GoMap.blank journey) || GoMap.blank channel || GoMap.blank endpoint
        then Some "message.sent payload requires campaign_id or journey_id, channel, and endpoint" else None
    | _ => Some "message.sent payload requires campaign_id or journey_id, channel, and endpoint"
    end
  else if kind "message.delivered" then
    need ["campaign_id"; "endpoint"] "message.delivered payload requires campaign_id and endpoint"
  else if kind "message.bounced" then
    need ["campaign_id"; "endpoint"] "message.bounced payload requires campaign_id and endpoint"
  else if kind "message.complained" then
    need ["campaign_id"; "endpoint"] "message.complained payload requires campaign_id and endpoint"
  else if kind "message.impression" || kind "message.clicked" || kind "message.dismissed" then
    need ["message_id"] "message engagement payload requires message_id"
  else None.

Definition classifications : list string := [""; "public"; "internal"; "confidential"; "restricted"].

(** [Validate]: the first failing check. *)
Definition Validate (e : Event) (now : Z) : option string :=
  if GoMap.blank (ev_Type e) then Some "event_type is required"
  else if ev_SchemaVersion e <? 1 then Some "schema_version must be at least 1"
  else if (ev_ExternalID e =s "") && (ev_AnonymousID e =s "") then Some "external_id or anonymous_id is required"
  else if GoMap.blank (ev_IdempotencyKey e) then Some "idempotency_key is required"
  else if Time.IsZero (ev_OccurredAt e) then Some "occurred_at is required"
  else if now + 24 * Time.Hour <? ev_OccurredAt e then Some "occurred_at cannot be more than 24 hours in the future"
  else if raw_len0 (ev_Payload e) || negb (valid_json (ev_Payload e)) then Some "payload must be valid JSON"
  else if negb (raw_len0 (ev_ConsentContext e)) &&
          (negb (valid_json (ev_ConsentContext e)) || negb (is_object (ev_ConsentContext e)))
  then Some "consent_context must be a JSON object"
  else if negb (mem (ev_DataClassification e) classifications)
  then Some "data_classification must be public, internal, confidential, or restricted"
  else if negb (is_object (ev_Payload e)) then Some "payload must be a JSON object"
  else payload_error e.

End Event.
