(* ===== verification/Audience.v ===== *)
(** * The audience language (src/internal/audience)

    The abstract syntax of ast.go, the parser of parse.go, and the compiler of
    compile_pg.go to SQL: an expression with numbered placeholders and the
    list of the values they stand for.  [render] is the text of an expression;
    [shift_text] is the textual renumbering of evaluate.go. *)

From Stdlib Require Import Ascii.
From S2P Require Import Prelude.
From S2P Require Import GoStd.
From S2P Require Import GoMap.
From S2P Require Import GoFloat.

Module Audience.

(** ** Syntax *)

Inductive Node : Type :=
  | And (Conditions : list Node)
  | Or (Conditions : list Node)
  | Not (Condition : Node)
  | ProfileAttribute (Field Operator : string) (Value : any)
  | EventHistory (EventType Operator : string) (TimeWindowDays MinCount : Z)
  | Consent (Channel Topic State : string)
  | Score (Model ScoreName Operator : string) (Value : Float.float64)
  | Company (Field Operator : string) (Value : any).

(** ** Parsing *)

Record rawNode : Type := MkRawNode {
  rn_Logic : string;
  rn_Conditions : list RawMessage;
  rn_Condition : RawMessage;
  rn_Type : string;
  rn_Field : string;
  rn_Operator : string;
  rn_Value : RawMessage;
  rn_EventType : string;
  rn_TimeWindowDays : Z;
  rn_MinCount : Z;
  rn_Channel : string;
  rn_Topic : string;
  rn_State : string;
  rn_Model : string;
  rn_ScoreName : string
}.
Definition raw0 : rawNode := MkRawNode "" [] RawEmpty "" "" "" RawEmpty "" 0 0 "" "" "" "" "".
Definition raw_fields : list (string * Json.setter rawNode) :=
  let str (upd : string -> rawNode -> rawNode) := Json.set_string upd in
  [("logic", str (fun v '(MkRawNode _ b c d e f g h i j k l m n o) => MkRawNode v b c d e f g h i j k l m n o));
   ("conditions", Json.set_list (fun j => Some (Raw j)) (fun v '(MkRawNode a _ c d e f g h i j k l m n o) => MkRawNode a v c d e f g h i j k l m n o));
   ("condition", Json.set_raw (fun v '(MkRawNode a b _ d e f g h i j k l m n o) => MkRawNode a b v d e f g h i j k l m n o));
   ("type", str (fun v '(MkRawNode a b c _ e f g h i j k l m n o) => MkRawNode a b c v e f g h i j k l m n o));
   ("field", str (fun v '(MkRawNode a b c d _ f g h i j k l m n o) => MkRawNode a b c d v f g h i j k l m n o));
   ("operator", str (fun v '(MkRawNode a b c d e _ g h i j k l m n o) => MkRawNode a b c d e v g h i j k l m n o));
   ("value", Json.set_raw (fun v '(MkRawNode a b c d e f _ h i j k l m n o) => MkRawNode a b c d e f v h i j k l m n o));
   ("event_type", str (fun v '(MkRawNode a b c d e f g _ i j k l m n o) => MkRawNode a b c d e f g v i j k l m n o));
   ("time_window_days", Json.set_int (fun v '(MkRawNode a b c d e f g h _ j k l m n o) => MkRawNode a b c d e f g h v j k l m n o));
   ("min_count", Json.set_int (fun v '(MkRawNode a b c d e f g h i _ k l m n o) => MkRawNode a b c d e f g h i v k l m n o));
   ("channel", str (fun v '(MkRawNode a b c d e f g h i j _ l m n o) => MkRawNode a b c d e f g h i j v l m n o));
   ("topic", str (fun v '(MkRawNode a b c d e f g h i j k _ m n o) => MkRawNode a b c d e f g h i j k v m n o));
   ("state", str (fun v '(MkRawNode a b c d e f g h i j k l _ n o) => MkRawNode a b c d e f g h i j k l v n o));
   ("model", str (fun v '(MkRawNode a b c d e f g h i j k l m _ o) => MkRawNode a b c d e f g h i j k l m v o));
   ("score_name", str (fun v '(MkRawNode a b c d e f g h i j k l m n _) => MkRawNode a b c d e f g h i j k l m n v))].

Definition attribute_operators : list string := ["equals"; "contains"; "in"; "greater_than"; "less_than"].
Definition score_operators : list string := ["greater_than"; "less_than"; "equals"].
Definition company_operators : list string := ["equals"; "contains"; "in"].

(** [json.Unmarshal] of a value that may be absent into an [any]. *)
Definition any_value (r : RawMessage) : result any :=
  match r with
  | RawEmpty => Ok ANil
  | _ => j ← Json.parse r; if Any.decodes j then Ok (Any.decode j) else Err Json.type_error
  end.
(** ... and into a float64. *)
Definition float_value (r : RawMessage) : result Float.float64 :=
  j ← Json.parse r;
  match j with
  | JNull => Ok Float.zero
  | JNumber lit => match Float.ParseFloat lit with Some f => Ok f | None => Err Json.type_error end
  | _ => Err Json.type_error
  end.

Definition msg {A} (s : string) : result A := Err (errors_New s).

(** The switch on the condition's type. *)
Definition condition (rn : rawNode) : result Node :=
  let kind (t : string) := rn_Type rn =s t in
  let op := rn_Operator rn in
  if kind "profile_attribute" then
    if rn_Field rn =s "" then msg "profile_attribute condition requires field"
    else if op =s "" then msg "profile_attribute condition requires operator"
    else if negb (mem op attribute_operators) then Err (Errorf "unknown profile_attribute operator: %s" [AStr op])
    else v ← any_value (rn_Value rn); Ok (ProfileAttribute (rn_Field rn) op v)
  else if kind "event_history" then
    if rn_EventType rn =s "" then msg "event_history condition requires event_type"
    else if op =s "" then msg "event_history condition requires operator"
    else if negb (op =s "has_occurred") && negb (op =s "has_not_occurred") then Err (Errorf "unknown event_history operator: %s" [AStr op])
    else if rn_TimeWindowDays rn <? 0 then msg "time_window_days cannot be negative"
    else if rn_MinCount rn <? 0 then msg "min_count cannot be negative"
    else Ok (EventHistory (rn_EventType rn) op (rn_TimeWindowDays rn) (rn_MinCount rn))
  else if kind "consent" then
    if rn_Channel rn =s "" then msg "consent condition requires channel"
    else if rn_Topic rn =s "" then msg "consent condition requires topic"
    else if negb (rn_State rn =s "subscribed") && negb (rn_State rn =s "unsubscribed")
    then Err (Errorf "unknown consent state: %s" [AStr (rn_State rn)])
    else Ok (Consent (rn_Channel rn) (rn_Topic rn) (rn_State rn))
  else if kind "score" then
    if rn_Model rn =s "" then msg "score condition requires model"
    else if rn_ScoreName rn =s "" then msg "score condition requires score_name"
    else if op =s "" then msg "score condition requires operator"
    else if negb (mem op score_operators) then Err (Errorf "unknown score operator: %s" [AStr op])
    else if raw_len0 (rn_Value rn) then msg "score condition requires value"
    else v ← float_value (rn_Value rn); Ok (Score (rn_Model rn) (rn_ScoreName rn) op v)
  else if kind "company" then
    if (rn_Field rn =s "") || (op =s "") then msg "company condition requires field and operator"
    else if negb (mem op company_operators) then Err (Errorf "unknown company operator: %s" [AStr op])
    else v ← any_value (rn_Value rn); Ok (Company (rn_Field rn) op v)
  else Err (Errorf "unknown condition type: %s" [AStr (rn_Type rn)]).

(** [toNode], with [Parse] for the nested documents. *)
Definition toNode (parse : RawMessage -> result Node) (rn : rawNode) : result Node :=
  if negb (rn_Logic rn =s "") then
    if rn_Logic rn =s "and" then l ← mapM_result parse (rn_Conditions rn); Ok (And l)
    else if rn_Logic rn =s "or" then l ← mapM_result parse (rn_Conditions rn); Ok (Or l)
    else if rn_Logic rn =s "not" then
      if raw_len0 (rn_Condition rn) then msg "not condition requires condition field"
      else n ← parse (rn_Condition rn); Ok (Not n)
    else Err (Errorf "unknown logic operator: %s" [AStr (rn_Logic rn)])
  else if rn_Type rn =s "" then msg "condition type or logic operator is required"
  else condition rn.

(** The depth of a document bounds the recursion. *)
Fixpoint depth (j : json) : nat :=
  match j with
  | JArray l => S (list_max (map depth l))
  | JObject l => S ((fix go (l : list (string * json)) := match l with [] => O | (_, v) :: l' => Nat.max (depth v) (go l') end) l)
  | _ => O
  end.
Definition raw_depth (r : RawMessage) : nat := match r with Raw j => depth j | _ => O end.
Fixpoint parse_fuel (fuel : nat) (data : RawMessage) : result Node :=
  match fuel with
  | O => msg "out of fuel"
  | S fuel' => rn ← Json.Unmarshal raw_fields raw0 data; toNode (parse_fuel fuel') rn
  end.
Definition Parse (data : RawMessage) : result Node := parse_fuel (S (raw_depth data)) data.

(** ** SQL expressions *)

(** What [compileProfileNode] emits, [$n] being a number [n]; the comparison of
    an attribute of the profile or of a company. *)
Inductive comparison : Type := CEquals | CContains | CIn | CGreater | CLess.
Inductive sexpr : Type :=
  | SAll (l : list sexpr)
  | SAny (l : list sexpr)
  | SNot (e : sexpr)
  | SAttribute (c : comparison) (field : string) (n : Z)
  | SConsent (channel topic state : Z)
  | SScore (op : string) (model name value : Z)
  | SCompany (c : comparison) (field : string) (n : Z).

Definition quote : string := String "'"%char "".
Definition place (n : Z) : string := "$" +:+ GoStr.of_Z n.
Definition attribute_text (prefix : string) (c : comparison) (field : string) (n : Z) : string :=
  let a := prefix +:+ "attributes->>" +:+ quote +:+ field +:+ quote in
  match c with
  | CEquals => a +:+ " = " +:+ place n
  | CContains => a +:+ " LIKE " +:+ quote +:+ "%" +:+ quote +:+ " || " +:+ place n +:+ " || " +:+ quote +:+ "%" +:+ quote
  | CIn => a +:+ " = ANY(" +:+ place n +:+ ")"
  | CGreater => "(" +:+ a +:+ ")::numeric > (" +:+ place n +:+ ")::numeric"
  | CLess => "(" +:+ a +:+ ")::numeric < (" +:+ place n +:+ ")::numeric"
  end.
Definition newline : string := String "010"%char "".
Definition tabs (n : nat) : string := newline +:+ Nat.iter n (fun s => String "009"%char s) "".
Definition consent_text (c t s : Z) : string :=
  "id IN (" +:+ tabs 3 +:+ "SELECT latest.profile_id FROM (" +:+ tabs 4 +:+
  "SELECT DISTINCT ON (cl.profile_id) cl.profile_id, cl.state" +:+ tabs 4 +:+ "FROM consent_ledger cl" +:+ tabs 4 +:+
  "WHERE cl.tenant_id = profiles.tenant_id AND cl.app_id = profiles.app_id" +:+ tabs 5 +:+
  "AND cl.channel = " +:+ place c +:+ " AND cl.topic = " +:+ place t +:+ tabs 4 +:+
  "ORDER BY cl.profile_id, cl.occurred_at DESC" +:+ tabs 3 +:+ ") latest WHERE latest.state = " +:+ place s +:+ tabs 2 +:+ ")".
Definition score_text (op : string) (m n v : Z) : string :=
  "id IN (SELECT profile_id FROM profile_scores WHERE tenant_id = $1 AND workspace_id = $2 AND scoring_model_id = " +:+ place m +:+
  " AND score_name = " +:+ place n +:+ " AND value " +:+ op +:+ " " +:+ place v +:+ ")".
Fixpoint render (e : sexpr) : string :=
  match e with
  | SAll l => "(" +:+ String.concat " AND " (map render l) +:+ ")"
  | SAny l => "(" +:+ String.concat " OR " (map render l) +:+ ")"
  | SNot e => "NOT (" +:+ render e +:+ ")"
  | SAttribute c field n => attribute_text "" c field n
  | SConsent c t s => consent_text c t s
  | SScore op m n v => score_text op m n v
  | SCompany c field n =>
      "id IN (SELECT m.profile_id FROM company_members m JOIN companies c ON c.id=m.company_id WHERE m.tenant_id=$1 AND c.tenant_id=$1 AND c.workspace_id=$2 AND " +:+
      attribute_text "c." c field n +:+ ")"
  end.

(** ** Compilation *)

(** [fieldSafetyRegex]. *)
Definition word_char (c : Ascii.ascii) : bool :=
  let n := GoStr.code c in
  ((48 <=? n) && (n <=? 57)) || ((65 <=? n) && (n <=? 90)) || ((97 <=? n) && (n <=? 122)) || (n =? 95).
Fixpoint all_word (s : string) : bool := match s with EmptyString => true | String c s' => word_char c && all_word s' end.
Definition safe_field (s : string) : bool := negb (s =s "") && all_word s.

Definition comparison_of (op : string) : option comparison :=
  snd <$> find_first (fun kv => kv.1 =s op)
    [("equals", CEquals); ("contains", CContains); ("in", CIn); ("greater_than", CGreater); ("less_than", CLess)].
Definition score_sql (op : string) : option string :=
  snd <$> find_first (fun kv => kv.1 =s op) [("greater_than", ">"); ("less_than", "<"); ("equals", "=")].

(** A computation over the argument list; [None] is the empty text. *)
Abbreviation C := (M (list any)).
Definition push (v : any) : C Z := fun args => (Ok (Z.of_nat (length args) + 3), args ++ [v]).

Definition compile_attribute (field operator : string) (value : any) : C (option sexpr) :=
  if negb (safe_field field) then throw (Errorf "unsafe or invalid profile field name: %s" [AStr field]) else
  n ← push value;
  match comparison_of operator with
  | Some c => mret (Some (SAttribute c field n))
  | None => throw (Errorf "unsupported profile operator: %s" [AStr operator])
  end.
Definition compile_consent (channel topic state : string) : C (option sexpr) :=
  c ← push (AString channel); t ← push (AString topic); s ← push (AString state);
  mret (Some (SConsent c t s)).
Definition compile_score (model name operator : string) (value : Float.float64) : C (option sexpr) :=
  if model =s "" then throw (errors_New "score condition requires model")
  else if name =s "" then throw (errors_New "score condition requires score_name") else
  match score_sql operator with
  | None => throw (Errorf "unsupported score operator: %s" [AStr operator])
  | Some op => m ← push (AString model); n ← push (AString name); v ← push (AFloat value); mret (Some (SScore op m n v))
  end.
Definition compile_company (field operator : string) (value : any) : C (option sexpr) :=
  if negb (safe_field field) then throw (Errorf "unsafe or invalid company field name: %s" [AStr field]) else
  n ← push value;
  match comparison_of operator with
  | Some CEquals => mret (Some (SCompany CEquals field n))
  | Some CContains => mret (Some (SCompany CContains field n))
  | Some CIn => mret (Some (SCompany CIn field n))
  | _ => throw (Errorf "unsupported company operator: %s" [AStr operator])
  end.

Fixpoint compileProfileNode (node : Node) : C (option sexpr) :=
  let parts (l : list Node) : C (list sexpr) :=
    (fix go (l : list Node) : C (list sexpr) :=
       match l with
       | [] => mret []
       | cond :: l' =>
           part ← compileProfileNode cond;
           rest ← go l';
           mret (match part with Some e => e :: rest | None => rest end)
       end) l in
  match node with
  | And l => ps ← parts l; mret (match ps with [] => None | _ => Some (SAll ps) end)
  | Or l => ps ← parts l; mret (match ps with [] => None | _ => Some (SAny ps) end)
  | Not n => part ← compileProfileNode n; mret (option_map SNot part)
  | ProfileAttribute f op v => compile_attribute f op v
  | Consent c t s => compile_consent c t s
  | Score m n op v => compile_score m n op v
  | Company f op v => compile_company f op v
  | EventHistory _ _ _ _ => mret None
  end.

Definition render_opt (e : option sexpr) : string := match e with Some e => render e | None => "TRUE" end.

Definition CompileProfile (node : Node) : result (string * list any) :=
  match compileProfileNode node [] with
  | (Err e, _) => Err e
  | (Ok expr, args) => Ok ("SELECT external_id FROM profiles WHERE tenant_id=$1 AND workspace_id=$2 AND (" +:+ render_opt expr +:+ ")", args)
  end.

(** The columns of [CompileProfileRows]. *)
Definition own_columns : list string := ["id"; "external_id"; "anonymous_id"; "created_at"; "updated_at"].
Definition column (field : string) : string :=
  if mem field own_columns then field else "attributes->>" +:+ quote +:+ field +:+ quote +:+ " AS " +:+ field.
Fixpoint columns (fields seen : list string) : result (list string) :=
  match fields with
  | [] => Ok []
  | field :: fields' =>
      if negb (safe_field field) then Err (Errorf "unsafe or invalid mapped profile field name: %s" [AStr field])
      else if mem field seen then Err (Errorf "duplicate mapped profile field: %s" [AStr field])
      else cs ← columns fields' (field :: seen); Ok (column field :: cs)
  end.
Definition CompileProfileRows (node : Node) (fields : list string) : result (string * list any) :=
  match fields with
  | [] => msg "reverse-ETL projection requires at least one field"
  | _ =>
      cs ← columns fields [];
      match compileProfileNode node [] with
      | (Err e, _) => Err e
      | (Ok expr, args) =>
          Ok ("SELECT " +:+ String.concat ", " cs +:+ " FROM profiles WHERE tenant_id=$1 AND workspace_id=$2 AND (" +:+
              render_opt expr +:+ ")", args)
      end
  end.

(** *** Renumbering *)

(** [\$([0-9]+)] replaced by its number plus one when it is above 2; [digits]
    are the ones read after a dollar. *)
Definition shifted (n : Z) : Z := if 2 <? n then n + 1 else n.
Definition renumber (digits : string) : string :=
  match GoStr.digits digits with
  | Some n => if (2 <? n) && (n <? two63 - 1) then place (n + 1) else "$" +:+ digits
  | None => "$" +:+ digits
  end.
Fixpoint shift_text (s : string) (after_dollar : option string) : string :=
  match s with
  | EmptyString => match after_dollar with Some ds => renumber ds | None => "" end
  | String c s' =>
      match after_dollar with
      | Some ds =>
          if GoStr.is_digit c then shift_text s' (Some (ds +:+ String c ""))
          else renumber ds +:+ (if bool_decide (c = "$"%char) then shift_text s' (Some "") else String c (shift_text s' None))
      | None => if bool_decide (c = "$"%char) then shift_text s' (Some "") else String c (shift_text s' None)
      end
  end.
(** The same on expressions. *)
Fixpoint shift (e : sexpr) : sexpr :=
  match e with
  | SAll l => SAll (map shift l)
  | SAny l => SAny (map shift l)
  | SNot e => SNot (shift e)
  | SAttribute c f n => SAttribute c f (shifted n)
  | SConsent c t s => SConsent (shifted c) (shifted t) (shifted s)
  | SScore op m n v => SScore op (shifted m) (shifted n) (shifted v)
  | SCompany c f n => SCompany c f (shifted n)
  end.

Definition CompileProfileSingle (node : Node) : result (string * list any) :=
  match compileProfileNode node [] with
  | (Err e, _) => Err e
  | (Ok expr, args) =>
      Ok ("SELECT 1 FROM profiles WHERE tenant_id=$1 AND workspace_id=$2 AND id=$3 AND (" +:+ shift_text (render_opt expr) None +:+ ")", args)
  end.

Example compile_example :
  CompileProfileSingle (And [ProfileAttribute "plan" "equals" (AString "pro"); Not (Company "tier" "in" (AArray []))]) =
  Ok ("SELECT 1 FROM profiles WHERE tenant_id=$1 AND workspace_id=$2 AND id=$3 AND ((attributes->>'plan' = $4 AND NOT (id IN (SELECT m.profile_id FROM company_members m JOIN companies c ON c.id=m.company_id WHERE m.tenant_id=$1 AND c.tenant_id=$1 AND c.workspace_id=$2 AND c.attributes->>'tier' = ANY($5)))))",
      [AString "pro"; AArray []]).
Proof. vm_compute. reflexivity. Qed.

Example parse_example :
  Parse (Raw (JObject [("logic", JString "not"); ("condition", JObject [("type", JString "event_history");
    ("event_type", JString "order"); ("operator", JString "has_occurred"); ("min_count", JNumber "2")])])) =
  Ok (Not (EventHistory "order" "has_occurred" 0 2)) /\
  Parse (Raw (JObject [("logic", JString "and")])) = Ok (And []).
Proof. vm_compute. split; reflexivity. Qed.

End Audience.
