(* ===== verification/AudienceSpec.v ===== *)
(** * The audience language: parsing and compiling

    The recursion of [Parse] ends; what it accepts compiles unless a field
    name is unsafe; and a compiled query's placeholders are exactly its
    arguments, in the one-profile query too, whose numbers are rewritten in
    the text. *)

From Stdlib Require Import Ascii.
From S2P Require Import Prelude.
From S2P Require Import GoStd.
From S2P Require Import GoMap.
From S2P Require Import GoFloat.
From S2P Require Import Audience.

Module AudienceSpec.
Import Audience.

(** Induction through the lists of conditions. *)
Section node_ind.
Context (P : Node -> Prop).
Hypothesis (HAnd : forall l, Forall P l -> P (And l)) (HOr : forall l, Forall P l -> P (Or l)) (HNot : forall n, P n -> P (Not n)).
Hypothesis (HAttr : forall f op v, P (ProfileAttribute f op v)) (HEvent : forall t op d m, P (EventHistory t op d m)).
Hypothesis (HCons : forall c t s, P (Consent c t s)) (HScore : forall m n op v, P (Score m n op v)) (HComp : forall f op v, P (Company f op v)).
Fixpoint node_rect' (n : Node) : P n :=
  let all := fix all (l : list Node) : Forall P l :=
    match l with [] => Forall_nil_2 _ | x :: l' => Forall_cons_2 _ _ _ (node_rect' x) (all l') end in
  match n with
  | And l => HAnd l (all l)
  | Or l => HOr l (all l)
  | Not c => HNot c (node_rect' c)
  | ProfileAttribute f op v => HAttr f op v
  | EventHistory t op d m => HEvent t op d m
  | Consent c t s => HCons c t s
  | Score m n op v => HScore m n op v
  | Company f op v => HComp f op v
  end.
End node_ind.

(** ** Parsing *)

(** The nested documents of a node are less deep than it. *)
Definition shallow (D : nat) (rn : rawNode) : Prop :=
  (forall r, r ∈ rn_Conditions rn -> raw_depth r < D)%nat /\ (rn_Condition rn = RawEmpty \/ raw_depth (rn_Condition rn) < D)%nat.

Lemma list_depth x l : x ∈ l -> (depth x <= list_max (map depth l))%nat.
Proof.
  intros Hx. pose proof (proj1 (list_max_le (map depth l) _) (le_n _)) as Hf. rewrite List.Forall_forall in Hf.
  apply Hf. apply List.in_map. by apply list_elem_of_In.
Qed.

Lemma map_opt_raw l : Json.map_opt (fun j => Some (Raw j)) l = Some (Raw <$> l).
Proof. induction l as [|j l IH]; [done|]. simpl. by rewrite IH. Qed.

Lemma set_shallow D k set v x x' : Json.find_field raw_fields k = Some set -> set v x = Some x' ->
  (depth v < D)%nat -> shallow D x -> shallow D x'.
Proof.
  intros Hf Hs HD [Hc Hn]. assert (Hin : exists n, (n, set) ∈ raw_fields).
  { unfold Json.find_field in Hf. destruct (find_first _ raw_fields) as [[n s]|] eqn:E.
    - apply find_first_Some in E as [Hin _]. injection Hf as <-. by exists n.
    - destruct (find_first _ raw_fields) as [[n s]|] eqn:E2 in Hf; [|done]. apply find_first_Some in E2 as [Hin _]. injection Hf as <-. by exists n. }
  destruct Hin as [n Hin]. unfold raw_fields in Hin. destruct x. simpl in Hc, Hn.
  repeat (apply elem_of_cons in Hin as [[= -> ->]|Hin]); [..|by apply elem_of_nil in Hin];
    unfold Json.set_string, Json.set_int, Json.set_raw, Json.set_list in Hs; rewrite ?map_opt_raw in Hs.
  all: repeat match type of Hs with context [match ?x with _ => _ end] => destruct x eqn:?; try discriminate Hs end.
  all: try (injection Hs as <-; by split).
  all: injection Hs as <-; split; simpl in *; try done.
  - intros r Hr. by apply elem_of_nil in Hr.
  - intros r Hr. rewrite map_opt_raw in *. simplify_eq. apply list_elem_of_fmap in Hr as (j & -> & Hj). simpl. pose proof (list_depth _ _ Hj). lia.
  - right. lia.
Qed.

Definition depths (l : list (string * json)) : nat :=
  (fix go (l : list (string * json)) := match l with [] => O | (_, v) :: l' => Nat.max (depth v) (go l') end) l.
Lemma members_shallow l x x' D : (S (depths l) <= D)%nat -> Json.members raw_fields l x = Some x' -> shallow D x -> shallow D x'.
Proof.
  revert x. induction l as [|[k v] l IH]; intros x HD Hm Hx; simpl in Hm; [by injection Hm as <-|].
  simpl in HD. destruct (Json.find_field raw_fields k) as [set|] eqn:Ef; [|apply (IH x); [lia|done..]].
  destruct (set v x) as [y|] eqn:Es; [|done]. apply (IH y); [lia|done|]. apply (set_shallow D k set v x y); [done | done | lia | done].
Qed.

Lemma Unmarshal_shallow data rn : Json.Unmarshal raw_fields raw0 data = Ok rn ->
  (forall r, r ∈ rn_Conditions rn -> raw_depth r < raw_depth data)%nat /\
  (rn_Condition rn = RawEmpty \/ raw_depth (rn_Condition rn) < raw_depth data)%nat.
Proof.
  unfold Json.Unmarshal. destruct data as [|t|j]; [done..|]. simpl. destruct (Json.decode_struct raw_fields j raw0) as [x|] eqn:E; [|done].
  intros [= <-]. assert (Hraw : forall D, shallow D raw0) by (intros D; split; [intros r Hr; by apply elem_of_nil in Hr | by left]).
  destruct j; simpl in E; try done; [injection E as <-; apply (Hraw O)|]. apply (members_shallow l raw0 x); [done | done | apply Hraw].
Qed.

Lemma mapM_result_ext {A B} (f g : A -> result B) l : (forall x, x ∈ l -> f x = g x) -> mapM_result f l = mapM_result g l.
Proof.
  induction l as [|x l IH]; intros Hx; [done|]. simpl. rewrite Hx by apply list_elem_of_here. rewrite IH by (intros; apply Hx; by right). done.
Qed.

Lemma toNode_ext f g rn :
  (forall r, r ∈ rn_Conditions rn -> f r = g r) -> (rn_Condition rn = RawEmpty \/ f (rn_Condition rn) = g (rn_Condition rn)) ->
  toNode f rn = toNode g rn.
Proof.
  intros Hl Hc. unfold toNode. rewrite (mapM_result_ext f g) by done. destruct Hc as [->| ->]; [|done]. done.
Qed.

Lemma parse_fuel_enough f f' data : (raw_depth data < f)%nat -> (raw_depth data < f')%nat -> parse_fuel f data = parse_fuel f' data.
Proof.
  revert f' data. induction f as [|f IH]; intros f' data Hf Hf'; [lia|]. destruct f' as [|f']; [lia|]. simpl.
  destruct (Json.Unmarshal raw_fields raw0 data) as [rn|e] eqn:E; [|done]. apply Unmarshal_shallow in E as [Hl Hc]. simpl.
  apply toNode_ext.
  - intros r Hr. specialize (Hl r Hr). apply IH; lia.
  - destruct Hc as [Hc|Hc]; [by left | right; apply IH; lia].
Qed.

(** Parsing ends on every document: the bound on the recursion, the
    document's depth, is never reached, so [Parse] is the recursive function
    of the source: decode one node, then parse the documents nested in it. *)
Theorem Parse_unfold data : Parse data = (rn ← Json.Unmarshal raw_fields raw0 data; toNode Parse rn).
Proof.
  unfold Parse at 1. simpl. destruct (Json.Unmarshal raw_fields raw0 data) as [rn|e] eqn:E; [|done]. apply Unmarshal_shallow in E as [Hl Hc].
  simpl. apply toNode_ext.
  - intros r Hr. specialize (Hl r Hr). apply parse_fuel_enough; lia.
  - destruct Hc as [Hc|Hc]; [by left | right; apply parse_fuel_enough; lia].
Qed.

(** ** What the parser accepts *)

Fixpoint valid (n : Node) : bool :=
  match n with
  | And l | Or l => forallb valid l
  | Not c => valid c
  | ProfileAttribute f op _ => negb (f =s "") && mem op attribute_operators
  | EventHistory t op d m => negb (t =s "") && mem op ["has_occurred"; "has_not_occurred"] && (0 <=? d) && (0 <=? m)
  | Consent c t s => negb (c =s "") && negb (t =s "") && mem s ["subscribed"; "unsubscribed"]
  | Score m n op _ => negb (m =s "") && negb (n =s "") && mem op score_operators
  | Company f op _ => negb (f =s "") && mem op company_operators
  end.
(** The fields of the conditions are identifiers. *)
Fixpoint safe (n : Node) : bool :=
  match n with
  | And l | Or l => forallb safe l
  | Not c => safe c
  | ProfileAttribute f _ _ | Company f _ _ => safe_field f
  | _ => true
  end.

Lemma condition_valid rn n : condition rn = Ok n -> valid n = true.
Proof.
  unfold condition, msg. intros H.
  repeat match type of H with (if ?b then _ else _) = _ => destruct b eqn:?; try discriminate H end;
    try (apply bind_Ok in H as (? & ? & H)); injection H as <-;
    repeat match goal with Hn : negb _ = false |- _ => apply negb_false_iff in Hn | Hn : negb _ && negb _ = false |- _ => apply andb_false_iff in Hn
                      | Hn : _ || _ = false |- _ => apply orb_false_iff in Hn as [? ?] end; cbn [valid].
  all: repeat match goal with Hn : _ \/ _ |- _ => destruct Hn as [Hn|Hn]; apply negb_false_iff, seqb_true in Hn; rewrite Hn end.
  all: repeat match goal with Hn : ?b = _ |- context [?b] => rewrite Hn end; rewrite ?(proj2 (Z.leb_le _ _)) by lia; done.
Qed.

Lemma mapM_result_Forall {A B} (f : A -> result B) (Q : B -> Prop) l ys :
  (forall x y, f x = Ok y -> Q y) -> mapM_result f l = Ok ys -> Forall Q ys.
Proof.
  intros Hf. revert ys. induction l as [|x l IH]; simpl; intros ys Hl; [by injection Hl as <-|].
  apply bind_Ok in Hl as (y & Hy & Hl). apply bind_Ok in Hl as (zs & Hz & Hl). injection Hl as <-. apply Forall_cons_2; [by apply (Hf x) | by apply IH].
Qed.

Lemma Forall_forallb {A} (f : A -> bool) l : Forall (fun x => f x = true) l <-> forallb f l = true.
Proof. rewrite forallb_forall, Forall_forall. by setoid_rewrite list_elem_of_In. Qed.

Lemma Parse_valid data n : Parse data = Ok n -> valid n = true.
Proof.
  unfold Parse. generalize (S (raw_depth data)) as fuel. intros fuel. revert data n.
  induction fuel as [|fuel IH]; intros data n; [done|]. simpl. intros Hp. apply bind_Ok in Hp as (rn & _ & Hn). revert Hn.
  unfold toNode. destruct (negb _); [|destruct (_ =s _); [done | apply condition_valid]].
  destruct (_ =s _); [|destruct (_ =s _)].
  1,2: intros Hn; apply bind_Ok in Hn as (l & Hl & [= <-]); simpl; apply Forall_forallb;
    apply (mapM_result_Forall _ _ _ _ (fun x y Hxy => IH x y Hxy) Hl).
  destruct (_ =s _); [|done]. destruct (raw_len0 _); [done|]. intros Hn. apply bind_Ok in Hn as (c & Hc & [= <-]). simpl. by apply (IH _ _ Hc).
Qed.

(** ** Compiling *)

(** The arguments of a rule, in order. *)
Fixpoint values (n : Node) : list any :=
  match n with
  | And l | Or l => flat_map values l
  | Not c => values c
  | ProfileAttribute _ _ v | Company _ _ v => [v]
  | Consent c t s => [AString c; AString t; AString s]
  | Score m n _ v => [AString m; AString n; AFloat v]
  | EventHistory _ _ _ _ => []
  end.
(** The placeholders of an expression, in the order of the text. *)
Fixpoint places (e : sexpr) : list Z :=
  match e with
  | SAll l | SAny l => flat_map places l
  | SNot e => places e
  | SAttribute _ _ n | SCompany _ _ n => [n]
  | SConsent c t s => [c; t; s]
  | SScore _ m n v => [m; n; v]
  end.
Definition places_opt (e : option sexpr) : list Z := match e with Some e => places e | None => [] end.
(** The texts put into an expression are identifiers or operators. *)
Fixpoint tame (e : sexpr) : bool :=
  match e with
  | SAll l | SAny l => forallb tame l
  | SNot e => tame e
  | SAttribute _ f _ | SCompany _ f _ => safe_field f
  | SScore op _ _ _ => mem op [">"; "<"; "="]
  | SConsent _ _ _ => true
  end.
Definition tame_opt (e : option sexpr) : bool := match e with Some e => tame e | None => true end.

Abbreviation numbers args n := (seqZ (Z.of_nat (@length any args) + 3) (Z.of_nat n)).
Definition compiled (n : Node) : Prop := forall args expr args', compileProfileNode n args = (Ok expr, args') ->
  args' = args ++ values n /\ places_opt expr = numbers args (length (values n)) /\ tame_opt expr = true.

Lemma numbers_app args v k : numbers args (length v + k) = numbers args (length v) ++ numbers (args ++ v) k.
Proof. rewrite Nat2Z.inj_add, length_app, Nat2Z.inj_add, seqZ_app by lia. do 2 f_equal. lia. Qed.

Lemma three a b c z : a = z -> b = z + 1 -> c = z + 2 -> [a; b; c] = seqZ z 3.
Proof. intros -> -> ->. by rewrite !seqZ_cons, <- !Z.add_1_r, <- Z.add_assoc by lia. Qed.
Lemma push_eq v args : push v args = (Ok (Z.of_nat (length args) + 3), args ++ [v]).
Proof. done. Qed.
Lemma score_sql_tame op x : score_sql op = Some x -> mem x [">"; "<"; "="] = true.
Proof.
  unfold score_sql. simpl. repeat (destruct (_ =s _); [intros [= <-]; reflexivity|]). done.
Qed.

Lemma parts_compiled l : Forall compiled l -> forall args ps args',
  (fix go (l : list Node) : C (list sexpr) :=
     match l with
     | [] => mret []
     | cond :: l' => part ← compileProfileNode cond; rest ← go l'; mret (match part with Some e => e :: rest | None => rest end)
     end) l args = (Ok ps, args') ->
  args' = args ++ flat_map values l /\ flat_map places ps = numbers args (length (flat_map values l)) /\ forallb tame ps = true.
Proof.
  induction 1 as [|c l Hc Hl IH]; intros args ps args'.
  { intros [= <- <-]. by rewrite app_nil_r. }
  unfold_M. destruct (compileProfileNode c args) as [[part|e] a1] eqn:E1; [|done]. destruct (Hc _ _ _ E1) as (-> & Hp & Ht).
  match goal with |- context [?g l (args ++ values c)] => destruct (g l (args ++ values c)) as [[rest|e] a2] eqn:E2; [|done] end.
  destruct (IH _ _ _ E2) as (-> & Hr & Htr). intros [= <- <-]. simpl. rewrite length_app, numbers_app, <- Hr, <- Hp, app_assoc.
  split; [done|]. by destruct part as [x|]; simpl in *; rewrite ?Ht, ?Htr.
Qed.

Ltac compile_parts l IH :=
  unfold mbind at 1, M_bind at 1;
  match goal with |- context [?g l ?args] => destruct (g l args) as [[ps|e] a1] eqn:?; [|done] end;
  match goal with E : _ l _ = _ |- _ => destruct (parts_compiled l IH _ _ _ E) as (-> & Hp & Ht) end;
  let H := fresh in intros H; injection H as <- <-; split; [done|];
  match goal with |- context [match ?ps with [] => None | _ => _ end] => destruct ps; [|done] end;
  match goal with Hp : flat_map places [] = _ |- _ => by rewrite <- Hp end.
Lemma compile_spec n : compiled n.
Proof.
  induction n as [l IH|l IH|c IH|f op v|t op d m|c t s|m n op v|f op v] using node_rect'; intros args expr args'; cbn [compileProfileNode values].
  - compile_parts l IH.
  - compile_parts l IH.
  - unfold_M. destruct (compileProfileNode c args) as [[part|e] a1] eqn:E; [|done]. destruct (IH _ _ _ E) as (-> & Hp & Ht).
    intros [= <- <-]. split; [done|]. by destruct part.
  - unfold compile_attribute. destruct (safe_field f) eqn:Es; [cbn [negb]|done]. unfold_M. rewrite push_eq.
    destruct (comparison_of op); [|done]. intros [= <- <-]. by cbn.
  - intros [= <- <-]. by rewrite app_nil_r.
  - unfold compile_consent. unfold_M. rewrite !push_eq. intros [= <- <-]. rewrite !length_app, <- !app_assoc. split; [done|]. split; [|done].
    apply three; simpl; lia.
  - unfold compile_score. destruct (m =s ""); [done|]. destruct (n =s ""); [done|]. destruct (score_sql op) as [x|] eqn:Eo; [|done].
    unfold_M. rewrite !push_eq. intros [= <- <-]. rewrite !length_app, <- !app_assoc. cbn [app length]. split; [done|].
    split; [|by apply score_sql_tame in Eo]. apply three; simpl; lia.
  - unfold compile_company. destruct (safe_field f) eqn:Es; [cbn [negb]|done]. unfold_M. rewrite push_eq.
    destruct (comparison_of op) as [[]|]; try done; intros [= <- <-]; by cbn.
Qed.

Lemma safe_parts l : Forall (fun n => forall args, valid n = true -> is_Ok (compileProfileNode n args).1 = safe n) l ->
  forallb valid l = true -> forall args, is_Ok ((fix go (l : list Node) : C (list sexpr) :=
     match l with
     | [] => mret []
     | cond :: l' => part ← compileProfileNode cond; rest ← go l'; mret (match part with Some e => e :: rest | None => rest end)
     end) l args).1 = forallb safe l.
Proof.
  induction 1 as [|c l Hc Hl IH]; intros Hv args; [done|]. simpl in Hv |- *. apply andb_prop in Hv as [Hvc Hvl]. unfold_M.
  specialize (Hc args Hvc). destruct (compileProfileNode c args) as [[part|e] a1]; simpl in Hc; rewrite <- Hc; [|done]. simpl.
  specialize (IH Hvl a1). match goal with |- context [?g l a1] => destruct (g l a1) as [[|] ?] end; done.
Qed.

(** A rule the parser accepts compiles exactly when every field it names
    is a plain identifier: the operators the parser lets through are the ones
    the compiler knows, and a field that could carry SQL is refused. *)
Theorem Parse_compiles data n args :
  Parse data = Ok n -> is_Ok (compileProfileNode n args).1 = safe n.
Proof.
  intros Hv%Parse_valid. revert args Hv.
  induction n as [l IH|l IH|c IH|f op v|t op d m|c t s|m n op v|f op v] using node_rect'; intros args Hv; cbn [compileProfileNode valid safe] in *.
  - pose proof (safe_parts l IH Hv args) as Hp. unfold mbind at 1, M_bind at 1.
    match goal with |- context [?g l args] => destruct (g l args) as [[|] ?] end; done.
  - pose proof (safe_parts l IH Hv args) as Hp. unfold mbind at 1, M_bind at 1.
    match goal with |- context [?g l args] => destruct (g l args) as [[|] ?] end; done.
  - unfold_M. specialize (IH args Hv). by destruct (compileProfileNode c args) as [[|] ?].
  - apply andb_prop in Hv as [_ Hv]. unfold compile_attribute. destruct (safe_field f); [cbn [negb]|done]. unfold_M. rewrite push_eq.
    apply mem_In in Hv. unfold attribute_operators in Hv. repeat (apply elem_of_cons in Hv as [->|Hv]; [done|]). by apply elem_of_nil in Hv.
  - done.
  - done.
  - apply andb_prop in Hv as [Hv Ho]. apply andb_prop in Hv as [Hm Hn]. unfold compile_score. apply negb_true_iff in Hm, Hn. rewrite Hm, Hn.
    apply mem_In in Ho. unfold score_operators in Ho. repeat (apply elem_of_cons in Ho as [->|Ho]; [done|]). by apply elem_of_nil in Ho.
  - apply andb_prop in Hv as [_ Hv]. unfold compile_company. destruct (safe_field f); [cbn [negb]|done]. unfold_M. rewrite push_eq.
    apply mem_In in Hv. unfold company_operators in Hv. repeat (apply elem_of_cons in Hv as [->|Hv]; [done|]). by apply elem_of_nil in Hv.
Qed.

(** ** Decimal numbers *)

Fixpoint all_digits (s : string) : bool := match s with EmptyString => true | String c s' => GoStr.is_digit c && all_digits s' end.

Lemma digit_char_spec d : 0 <= d < 10 -> GoStr.is_digit (GoStr.digit_char d) = true /\ GoStr.digit_val (GoStr.digit_char d) = d.
Proof.
  intros Hd. assert (Hin : d ∈ [0; 1; 2; 3; 4; 5; 6; 7; 8; 9]) by (rewrite !elem_of_cons; lia).
  repeat (apply elem_of_cons in Hin as [->|Hin]; [by vm_compute|]). by apply elem_of_nil in Hin.
Qed.

Lemma dec_go_spec fuel z acc : 0 <= z < 2 ^ Z.of_nat fuel ->
  GoStr.digits_go 0 (GoStr.dec_go fuel z acc) = GoStr.digits_go z acc /\ all_digits (GoStr.dec_go fuel z acc) = all_digits acc.
Proof.
  revert z acc. induction fuel as [|f IH]; intros z acc Hz; [simpl in Hz; by replace z with 0 by lia|].
  rewrite Nat2Z.inj_succ, Z.pow_succ_r in Hz by lia. cbn [GoStr.dec_go].
  assert (Hm : 0 <= z mod 10 < 10) by (apply Z.mod_pos_bound; lia). destruct (digit_char_spec _ Hm) as [Hd Hv].
  pose proof (Z.div_mod z 10 ltac:(lia)) as Hdm. destruct (z / 10 =? 0) eqn:E.
  - apply Z.eqb_eq in E. cbn [GoStr.digits_go all_digits]. rewrite Hd, Hv. split; [f_equal; lia | done].
  - assert (Hq : 0 <= z / 10 < 2 ^ Z.of_nat f) by (split; [apply Z.div_pos; lia | apply Z.div_lt_upper_bound; lia]).
    destruct (IH _ (String (GoStr.digit_char (z mod 10)) acc) Hq) as [-> ->]. cbn [GoStr.digits_go all_digits]. rewrite Hd, Hv.
    split; [f_equal; lia | done].
Qed.

Lemma dec_go_nonempty fuel z acc : fuel <> O \/ acc <> "" -> GoStr.dec_go fuel z acc <> "".
Proof.
  revert z acc. induction fuel as [|f IH]; intros z acc Hf; [by destruct Hf|]. simpl. destruct (_ =? _); [done|]. apply IH. by right.
Qed.

Lemma digits_of_Z z : 0 <= z -> GoStr.digits (GoStr.of_Z z) = Some z /\ all_digits (GoStr.of_Z z) = true.
Proof.
  intros Hz. unfold GoStr.of_Z. rewrite (proj2 (Z.ltb_ge _ _)) by done.
  assert (Hb : 0 <= z < 2 ^ Z.of_nat (S (Z.to_nat (Z.log2 (Z.abs z))))).
  { split; [done|]. rewrite Z.abs_eq by done. destruct (Z.eq_dec z 0) as [->|Hn]; [done|].
    rewrite Nat2Z.inj_succ, Z2Nat.id by apply Z.log2_nonneg. apply Z.log2_spec. lia. }
  destruct (dec_go_spec _ z "" Hb) as [Hd Ha]. split; [|by rewrite Ha].
  unfold GoStr.digits. destruct (GoStr.dec_go _ z "") eqn:E; [|exact Hd]. exfalso. revert E. apply dec_go_nonempty. by left.
Qed.

Lemma Atoi_of_Z z : 0 <= z < two63 -> GoStr.Atoi (GoStr.of_Z z) = Some z.
Proof.
  intros Hz. destruct (digits_of_Z z) as [Hd Ha]; [lia|]. unfold GoStr.Atoi. destruct (GoStr.of_Z z) as [|c s] eqn:E; [done|].
  cbn [all_digits] in Ha. apply andb_prop in Ha as [Hc _].
  assert (Hm : (c = "-"%char \/ c = "+"%char) -> False) by (intros [->| ->]; by vm_compute in Hc).
  assert (Hn : (match String c s with String "-"%char s' => (true, s') | String "+"%char s' => (false, s') | _ => (false, String c s) end) = (false, String c s)).
  { destruct c as [[] [] [] [] [] [] [] []]; try reflexivity; exfalso; apply Hm; auto. }
  rewrite Hn, Hd. cbn match. rewrite (proj2 (Z.leb_le _ _)), (proj2 (Z.ltb_lt _ _)) by (unfold two63 in *; lia). done.
Qed.

(** ** Renumbering in the text *)

Fixpoint plain (s : string) : bool := match s with EmptyString => true | String c s' => negb (bool_decide (c = "$"%char)) && plain s' end.
(** Does not start with a digit. *)
Definition ends (s : string) : bool := match s with EmptyString => true | String c _ => negb (GoStr.is_digit c) end.
(** The renumbering of [t], before a text that does not start with a digit. *)
Definition shifts (t t' : string) : Prop := forall rest, ends rest = true -> shift_text (t +:+ rest) None = t' +:+ shift_text rest None.

Lemma plain_text a rest : plain a = true -> shift_text (a +:+ rest) None = a +:+ shift_text rest None.
Proof.
  induction a as [|c a IH]; simpl; [done|]. intros Hp. apply andb_prop in Hp as [Hc Hp]. apply negb_true_iff in Hc. by rewrite Hc, IH.
Qed.
Lemma shifts_plain a : plain a = true -> shifts a a.
Proof. intros Hp rest _. by apply plain_text. Qed.
Lemma ends_app a b : ends a = true -> ends b = true -> ends (a +:+ b) = true.
Proof. by destruct a. Qed.
Lemma shifts_app a a' b b' : ends b = true -> shifts a a' -> shifts b b' -> shifts (a +:+ b) (a' +:+ b').
Proof. intros He Ha Hb rest Hr. by rewrite sapp_assoc, Ha, Hb, sapp_assoc by (done || by apply ends_app). Qed.
Lemma shifts_pre a b b' : plain a = true -> shifts b b' -> shifts (a +:+ b) (a +:+ b').
Proof. intros Ha Hb rest Hr. by rewrite sapp_assoc, plain_text, Hb, sapp_assoc by done. Qed.

Lemma digits_text ds rest acc : all_digits ds = true -> shift_text (ds +:+ rest) (Some acc) = shift_text rest (Some (acc +:+ ds)).
Proof.
  revert acc. induction ds as [|c ds IH]; intros acc; simpl; [by rewrite sapp_nil|]. intros Hd. apply andb_prop in Hd as [Hc Hd].
  by rewrite Hc, IH, sapp_assoc.
Qed.
Lemma renumbered_text ds rest : ends rest = true -> shift_text rest (Some ds) = renumber ds +:+ shift_text rest None.
Proof. destruct rest as [|c rest]; simpl; [by rewrite sapp_nil|]. intros Hc. apply negb_true_iff in Hc. by rewrite Hc. Qed.

Lemma shifts_place n : 0 <= n < two63 - 1 -> shifts (place n) (place (shifted n)).
Proof.
  intros Hn rest Hr. destruct (digits_of_Z n) as [Hd Ha]; [lia|]. unfold place. rewrite sapp_assoc. change (shift_text (GoStr.of_Z n +:+ rest) (Some "") = place (shifted n) +:+ shift_text rest None).
  rewrite digits_text by done. rewrite renumbered_text by done. change ("" +:+ GoStr.of_Z n) with (GoStr.of_Z n). unfold renumber, shifted. rewrite Hd. rewrite (proj2 (Z.ltb_lt _ (two63 - 1))), andb_true_r by lia.
  by destruct (2 <? n).
Qed.

(** A text whose numbers are at most 2 is left alone. *)
Lemma shifts_fixed a b b' : (forall rest, shift_text (a +:+ rest) None = a +:+ shift_text rest None) ->
  shifts b b' -> shifts (a +:+ b) (a +:+ b').
Proof. intros Ha Hb rest Hr. by rewrite sapp_assoc, Ha, Hb, sapp_assoc by done. Qed.

Lemma word_plain s : all_word s = true -> plain s = true.
Proof.
  induction s as [|c s IH]; simpl; [done|]. intros Hw. apply andb_prop in Hw as [Hc Hw]. rewrite IH by done. rewrite andb_true_r.
  apply negb_true_iff, bool_decide_eq_false. by intros ->.
Qed.
Lemma safe_plain f : safe_field f = true -> plain f = true.
Proof. intros Hs. apply andb_prop in Hs as [_ Hw]. by apply word_plain. Qed.
Lemma plain_app a b : plain a = true -> plain b = true -> plain (a +:+ b) = true.
Proof. intros Ha Hb. induction a as [|c a IH]; [done|]. simpl in *. apply andb_prop in Ha as [-> Ha]. simpl. by apply IH. Qed.

Definition in_range (e : sexpr) : Prop := Forall (fun n => 0 <= n < two63 - 1) (places e).

Ltac shifts_tac :=
  repeat match goal with
  | |- shifts (place _) _ => apply shifts_place; done
  | |- shifts (place _ +:+ _) _ => apply shifts_app; [reflexivity | apply shifts_place; done |]
  | |- shifts (String.append _ _) _ => apply shifts_pre; [first [reflexivity | by apply safe_plain] |]
  | |- shifts _ _ => apply shifts_plain; first [reflexivity | by apply safe_plain]
  end.

Lemma attribute_shifts prefix c f n : plain prefix = true -> safe_field f = true -> 0 <= n < two63 - 1 ->
  shifts (attribute_text prefix c f n) (attribute_text prefix c f (shifted n)).
Proof.
  intros Hp Hf Hn. assert (Ha : plain (prefix +:+ "attributes->>" +:+ quote +:+ f +:+ quote) = true)
    by (repeat apply plain_app; try reflexivity; [done | by apply safe_plain]).
  unfold attribute_text. destruct c.
  - apply shifts_pre; [exact Ha|]. shifts_tac.
  - apply shifts_pre; [exact Ha|]. shifts_tac.
  - apply shifts_pre; [exact Ha|]. shifts_tac.
  - apply shifts_pre; [reflexivity|]. apply shifts_pre; [exact Ha|]. shifts_tac.
  - apply shifts_pre; [reflexivity|]. apply shifts_pre; [exact Ha|]. shifts_tac.
Qed.

Section sexpr_ind.
Context (P : sexpr -> Prop).
Hypothesis (HAll : forall l, Forall P l -> P (SAll l)) (HAny : forall l, Forall P l -> P (SAny l)) (HNot : forall e, P e -> P (SNot e)).
Hypothesis (HAttr : forall c f n, P (SAttribute c f n)) (HCons : forall c t s, P (SConsent c t s)).
Hypothesis (HScore : forall op m n v, P (SScore op m n v)) (HComp : forall c f n, P (SCompany c f n)).
Fixpoint sexpr_rect' (e : sexpr) : P e :=
  let all := fix all (l : list sexpr) : Forall P l :=
    match l with [] => Forall_nil_2 _ | x :: l' => Forall_cons_2 _ _ _ (sexpr_rect' x) (all l') end in
  match e with
  | SAll l => HAll l (all l)
  | SAny l => HAny l (all l)
  | SNot e => HNot e (sexpr_rect' e)
  | SAttribute c f n => HAttr c f n
  | SConsent c t s => HCons c t s
  | SScore op m n v => HScore op m n v
  | SCompany c f n => HComp c f n
  end.
End sexpr_ind.

Definition renders (e : sexpr) : Prop := shifts (render e) (render (shift e)).

Lemma concat_shifts sep l : plain sep = true -> (forall t, ends (sep +:+ t) = true) -> Forall renders l ->
  shifts (String.concat sep (map render l)) (String.concat sep (map render (map shift l))).
Proof.
  intros Hp He. induction 1 as [|e l Hx Hl IH]; [by apply shifts_plain|]. destruct l as [|e' l]; [exact Hx|].
  apply shifts_app; [apply He | exact Hx|]. by apply shifts_pre.
Qed.

Lemma in_range_list l : Forall (fun n => 0 <= n < two63 - 1) (flat_map places l) -> Forall in_range l.
Proof. induction l as [|e l IH]; simpl; [done|]. intros Hf. apply Forall_app in Hf as [He Hl]. by apply Forall_cons_2; [|apply IH]. Qed.

Lemma list_shifts sep l : plain sep = true -> (forall t, ends (sep +:+ t) = true) ->
  Forall (fun e => tame e = true -> in_range e -> renders e) l -> forallb tame l = true ->
  Forall (fun n => 0 <= n < two63 - 1) (flat_map places l) ->
  shifts ("(" +:+ String.concat sep (map render l) +:+ ")") ("(" +:+ String.concat sep (map render (map shift l)) +:+ ")").
Proof.
  intros Hp He IH Ht Hr. apply in_range_list in Hr. apply Forall_forallb in Ht. apply shifts_pre; [reflexivity|].
  apply shifts_app; [reflexivity | | by apply shifts_plain]. apply concat_shifts; [done..|].
  rewrite Forall_forall in IH, Hr, Ht |- *. intros x Hx. apply IH; auto.
Qed.

Lemma render_shifts e : tame e = true -> in_range e -> renders e.
Proof.
  induction e as [l IH|l IH|e IH|c f n|c t s|op m n v|c f n] using sexpr_rect'; intros Ht Hr; unfold renders; cbn [render shift].
  - apply list_shifts; auto.
  - apply list_shifts; auto.
  - apply shifts_pre; [reflexivity|]. apply shifts_app; [reflexivity | by apply IH | by apply shifts_plain].
  - apply attribute_shifts; [reflexivity | done|]. by inversion Hr.
  - inversion Hr as [|? ? Hc Hr1]; subst. inversion Hr1 as [|? ? Ht1 Hr2]; subst. inversion Hr2 as [|? ? Hs _]; subst.
    unfold consent_text. shifts_tac.
  - inversion Hr as [|? ? Hm Hr1]; subst. inversion Hr1 as [|? ? Hn Hr2]; subst. inversion Hr2 as [|? ? Hv _]; subst.
    assert (Hop : plain op = true).
    { apply mem_In in Ht. repeat (apply elem_of_cons in Ht as [->|Ht]; [done|]). by apply elem_of_nil in Ht. }
    unfold score_text. apply shifts_fixed; [reflexivity|]. shifts_tac. apply shifts_pre; [exact Hop|]. shifts_tac.
  - inversion Hr as [|? ? Hn _]; subst. apply shifts_fixed; [reflexivity|]. apply shifts_app; [reflexivity | | by apply shifts_plain].
    by apply attribute_shifts.
Qed.

Lemma places_shift e : Forall (fun n => 2 < n) (places e) -> places (shift e) = Z.succ <$> places e.
Proof.
  assert (Hone : forall n, 2 < n -> shifted n = Z.succ n) by (intros n Hn; unfold shifted; by rewrite (proj2 (Z.ltb_lt _ _) Hn)).
  assert (Hlist : forall l, Forall (fun e => Forall (fun n => 2 < n) (places e) -> places (shift e) = Z.succ <$> places e) l ->
    Forall (fun n => 2 < n) (flat_map places l) -> flat_map places (map shift l) = Z.succ <$> flat_map places l).
  { induction 1 as [|x l Hx Hl IH]; simpl; intros Hf; [done|]. apply Forall_app in Hf as [H1 H2]. by rewrite fmap_app, Hx, IH. }
  induction e as [l IH|l IH|e IH|c f n|c t s|op m n v|c f n] using sexpr_rect'; intros Hf; cbn [places shift] in *; auto;
    repeat (apply Forall_cons in Hf as [? Hf]); by rewrite ?Hone by done.
Qed.

Definition list_query (e : option sexpr) : string :=
  "SELECT external_id FROM profiles WHERE tenant_id=$1 AND workspace_id=$2 AND (" +:+ render_opt e +:+ ")".
Definition one_query (e : option sexpr) : string :=
  "SELECT 1 FROM profiles WHERE tenant_id=$1 AND workspace_id=$2 AND id=$3 AND (" +:+ render_opt e +:+ ")".

(** C21: A compiled rule binds every argument once, in order: in the query
    over the workspace the i-th argument is the placeholder [$(i+2)], after
    the tenant and the workspace; the one-profile query, made by rewriting the
    numbers in the text, is that expression with every argument moved up by
    one and nothing else changed, so that [$3] is the profile alone. *)
Theorem compiled_queries_bind node sql args :
  CompileProfileSingle node = Ok (sql, args) -> Z.of_nat (length args) < two63 - 4 ->
  exists e, args = values node /\ CompileProfile node = Ok (list_query e, args) /\ places_opt e = seqZ 3 (Z.of_nat (length args)) /\
    sql = one_query (shift <$> e) /\ places_opt (shift <$> e) = seqZ 4 (Z.of_nat (length args)).
Proof.
  unfold CompileProfileSingle, CompileProfile. destruct (compileProfileNode node []) as [[e|err] args'] eqn:E; [|done].
  intros [= <- <-] Hlen. destruct (compile_spec node _ _ _ E) as (-> & Hp & Ht). simpl in Hp, Hlen |- *. exists e.
  split; [done|]. split; [done|]. split; [exact Hp|].
  assert (Hbig : Forall (fun n => 3 <= n < two63 - 1) (places_opt e)).
  { rewrite Hp. apply Forall_forall. intros n Hn. apply elem_of_seqZ in Hn. lia. }
  destruct e as [e|]; simpl in *.
  - assert (Hr : in_range e) by (eapply Forall_impl; [exact Hbig | intros; simpl in *; lia]). split.
    + unfold one_query. simpl. pose proof (render_shifts e Ht Hr "" eq_refl) as Hs. cbn [shift_text] in Hs. rewrite !sapp_nil in Hs. by rewrite Hs.
    + rewrite places_shift, Hp by (eapply Forall_impl; [exact Hbig | intros; simpl in *; lia]). transitivity (Z.add 1 <$> seqZ 3 (Z.of_nat (length (values node)))); [apply list_fmap_ext; intros; lia | apply fmap_add_seqZ].
  - split; [done|]. destruct (values node) as [|x l]; [done|]. by rewrite seqZ_cons in Hp by (simpl; lia).
Qed.

(** ** A demonstration *)

Definition demo_rule : json :=
  JObject [("logic", JString "and"); ("conditions", JArray [
    JObject [("type", JString "profile_attribute"); ("field", JString "plan"); ("operator", JString "equals"); ("value", JString "pro")];
    JObject [("type", JString "score"); ("model", JString "m1"); ("score_name", JString "churn"); ("operator", JString "less_than");
             ("value", JNumber "0.5")]])].
Definition demo_node : Node := match Parse (Raw demo_rule) with Ok n => n | Err _ => And [] end.

Lemma compiled_queries_bind_witness :
  exists e, CompileProfileSingle demo_node =
    Ok (one_query (shift <$> e), values demo_node) /\ places_opt (shift <$> e) = seqZ 4 (Z.of_nat (length (values demo_node))).
Proof.
  destruct (CompileProfileSingle demo_node) as [[sql args]|e] eqn:E; [|vm_compute in E; discriminate E].
  assert (Hl : Z.of_nat (length args) < two63 - 4).
  { assert (length args = 4%nat) as -> by (vm_compute in E; injection E as _ <-; reflexivity). vm_compute. reflexivity. }
  destruct (compiled_queries_bind demo_node sql args E Hl) as (x & -> & _ & _ & -> & Hp). exists x. split; [reflexivity | exact Hp].
Defined.

(** An unsafe field is refused. *)
Definition demo_unsafe : json :=
  JObject [("type", JString "profile_attribute"); ("field", JString "a' OR 1=1"); ("operator", JString "equals"); ("value", JString "x")].
Lemma Parse_compiles_witness :
  is_Ok (compileProfileNode demo_node []).1 = true /\
  is_Ok (compileProfileNode (ProfileAttribute "a' OR 1=1" "equals" (AString "x")) []).1 = false.
Proof.
  split.
  - rewrite (Parse_compiles (Raw demo_rule) demo_node []); vm_compute; reflexivity.
  - rewrite (Parse_compiles (Raw demo_unsafe) (ProfileAttribute "a' OR 1=1" "equals" (AString "x")) []); vm_compute; reflexivity.
Defined.

End AudienceSpec.
