(* ===== verification/Experiment.v ===== *)
(** * Deterministic experiment assignment (src/internal/experiment/assign.go)

    [BucketOf] and [Assign] as the code writes them, with [uint64]
    wrap-around; the lemmas describe the interval of buckets each variant
    owns. *)

From S2P Require Import Prelude.
From S2P Require Import GoStd.
From S2P Require Import Sha256.

Module Experiment.

(** A weighted experiment branch. *)
Record Variant : Type := MkVariant { Label : string; Weight : Z }.

Definition BucketOf (key : string) (mod_ : Z) : Z :=
  if mod_ =? 0 then 0 else Sha256.Uint64 (Sha256.Sum256 key) mod mod_.

(** [if holdoutPct < 0 {0} else if > 100 {100}]. *)
Definition clamp_pct (holdoutPct : Z) : Z :=
  if holdoutPct <? 0 then 0 else if 100 <? holdoutPct then 100 else holdoutPct.

(** [for _, candidate := range variants { if Weight > 0 { total += uint64(Weight) } }]. *)
Definition totalWeight (variants : list Variant) : Z :=
  fold_left (fun acc c => if 0 <? Weight c then u64 (acc + u64 (Weight c)) else acc) variants 0.

(** The selection loop: the first variant whose running total exceeds the
    weighted bucket. *)
Fixpoint select (cumulative weightedBucket : Z) (variants : list Variant) : option string :=
  match variants with
  | [] => None
  | c :: rest =>
      let cumulative := if 0 <? Weight c then u64 (cumulative + u64 (Weight c)) else cumulative in
      if weightedBucket <? cumulative then Some (Label c)
      else select cumulative weightedBucket rest
  end.

(** The body of [Assign] below its bucket computation. The last branch,
    [variants[len(variants)-1].Label], indexes a slice that is not empty
    there ([totalWeight_nonempty]). *)
Definition assign_at (bucket : Z) (variants : list Variant) (holdoutPct : Z) : string * bool :=
  let holdoutBuckets := u64 (clamp_pct holdoutPct * 100) in
  if bucket <? holdoutBuckets then ("holdout", true) else
  let total := totalWeight variants in
  let remainingBuckets := u64 (10000 - holdoutBuckets) in
  if (total =? 0) || (remainingBuckets =? 0) then ("", false) else
  let weightedBucket := u64 (u64 (bucket - holdoutBuckets) * total) / remainingBuckets in
  match select 0 weightedBucket variants with
  | Some label => (label, false)
  | None => (match last variants with Some v => Label v | None => "" end, false)
  end.

Definition Assign (seed profileID : string) (variants : list Variant) (holdoutPct : Z) : string * bool :=
  assign_at (BucketOf (seed +:+ ":" +:+ profileID) 10000) variants holdoutPct.

(** ** Buckets *)

Lemma BucketOf_range key m : 0 < m -> 0 <= BucketOf key m < m.
Proof.
  intros Hm. unfold BucketOf. destruct (m =? 0) eqn:E; [lia|].
  by apply Z.mod_pos_bound.
Qed.

Lemma clamp_pct_range p : 0 <= clamp_pct p <= 100.
Proof. unfold clamp_pct. repeat case_match; lia. Qed.

(** ** The ideal weights, without wrap-around *)

Definition pos_weight (v : Variant) : Z := Z.max 0 (Weight v).
Definition sum_weights (l : list Variant) : Z := foldr (fun v acc => pos_weight v + acc) 0 l.

(** The weights leave room for [bucket * totalWeight] in a [uint64]. *)
Definition weights_fit (l : list Variant) : Prop := sum_weights l * 10000 < two64.

Lemma sum_weights_nonneg l : 0 <= sum_weights l.
Proof. induction l; simpl; unfold pos_weight in *; lia. Qed.

Lemma sum_weights_app l k : sum_weights (l ++ k) = sum_weights l + sum_weights k.
Proof. induction l; simpl; lia. Qed.

Lemma totalWeight_fold l acc :
  0 <= acc -> acc + sum_weights l < two64 ->
  fold_left (fun acc c => if 0 <? Weight c then u64 (acc + u64 (Weight c)) else acc) l acc =
  acc + sum_weights l.
Proof.
  revert acc. induction l as [|v l IH]; intros acc Ha Hs; simpl in *; [lia|].
  pose proof (sum_weights_nonneg l). unfold pos_weight in *.
  destruct (0 <? Weight v) eqn:E.
  - rewrite (u64_small (Weight v)) by lia. rewrite u64_small by lia.
    rewrite IH by lia. lia.
  - rewrite IH by lia. lia.
Qed.

Lemma totalWeight_sum l : weights_fit l -> totalWeight l = sum_weights l.
Proof.
  intros H. unfold totalWeight. rewrite totalWeight_fold; [lia..|].
  unfold weights_fit, two64 in *. pose proof (sum_weights_nonneg l). lia.
Qed.

Lemma totalWeight_nonempty l : totalWeight l <> 0 -> exists v, last l = Some v.
Proof.
  intros H. destruct l as [|v l]; [done|].
  destruct (last (v :: l)) eqn:E; [eauto|]. by apply last_None in E.
Qed.

(** [select] returns the variant owning the interval the bucket is in. *)
Lemma select_spec l cum wb :
  0 <= cum -> cum + sum_weights l < two64 -> cum <= wb ->
  match select cum wb l with
  | Some lab => exists l1 v l2, l = l1 ++ v :: l2 /\ Label v = lab /\ 0 < Weight v /\
      cum + sum_weights l1 <= wb < cum + sum_weights l1 + Weight v
  | None => cum + sum_weights l <= wb
  end.
Proof.
  revert cum. induction l as [|v l IH]; intros cum Hc Hs Hw; simpl in *; [lia|].
  pose proof (sum_weights_nonneg l) as Hn. unfold pos_weight in *.
  set (cum' := if 0 <? Weight v then u64 (cum + u64 (Weight v)) else cum).
  assert (Hcum : cum' = cum + Z.max 0 (Weight v)).
  { unfold cum'. destruct (0 <? Weight v) eqn:E; [|lia].
    rewrite (u64_small (Weight v)) by lia. rewrite u64_small by lia. lia. }
  clearbody cum'. subst cum'. destruct (wb <? _) eqn:E.
  - exists [], v, l. simpl. repeat split; lia.
  - specialize (IH (cum + Z.max 0 (Weight v)) ltac:(lia) ltac:(lia) ltac:(lia)).
    destruct (select _ wb l) as [lab|]; [|lia].
    destruct IH as (l1 & u & l2 & -> & HL & Hp & Hi).
    exists (v :: l1), u, l2. simpl. unfold pos_weight. repeat split; try done; lia.
Qed.

Lemma select_hit l1 v l2 cum wb :
  0 <= cum -> cum + sum_weights (l1 ++ v :: l2) < two64 ->
  cum + sum_weights l1 <= wb < cum + sum_weights l1 + Weight v ->
  select cum wb (l1 ++ v :: l2) = Some (Label v).
Proof.
  revert cum. induction l1 as [|u l1 IH]; intros cum Hc Hs Hw; simpl in *; unfold pos_weight in *.
  - pose proof (sum_weights_nonneg l2).
    destruct (0 <? Weight v) eqn:E; [|lia].
    rewrite (u64_small (Weight v)) by lia. rewrite u64_small by lia.
    destruct (wb <? _) eqn:E2; [done | lia].
  - pose proof (sum_weights_nonneg l1).
    rewrite sum_weights_app in Hs. simpl in Hs. unfold pos_weight in Hs.
    pose proof (sum_weights_nonneg l2).
    assert (Hcum : (if 0 <? Weight u then u64 (cum + u64 (Weight u)) else cum)
                   = cum + Z.max 0 (Weight u)).
    { destruct (0 <? Weight u) eqn:E; [|lia].
      rewrite (u64_small (Weight u)) by lia. rewrite u64_small by lia. lia. }
    rewrite Hcum. destruct (wb <? _) eqn:E; [lia|].
    apply IH; [lia | rewrite sum_weights_app; simpl; unfold pos_weight; lia | lia].
Qed.

(** ** Assignment by bucket *)

Section AssignAt.
Context (variants : list Variant) (pct : Z).
Hypothesis Hfit : weights_fit variants.
Let H := clamp_pct pct * 100.
Let R := 10000 - H.
Let T := sum_weights variants.

Lemma holdout_u64 : u64 (clamp_pct pct * 100) = H.
Proof. apply u64_small. pose proof (clamp_pct_range pct). unfold two64. lia. Qed.

Lemma assign_at_unfold b :
  0 <= b < 10000 -> H <= b -> 0 < T ->
  assign_at b variants pct =
  match select 0 ((b - H) * T / R) variants with
  | Some label => (label, false)
  | None => (match last variants with Some v => Label v | None => "" end, false)
  end.
Proof.
  intros Hb Hh HT. pose proof (clamp_pct_range pct) as Hc.
  unfold assign_at. rewrite holdout_u64, totalWeight_sum by done. fold T.
  destruct (b <? H) eqn:E; [lia|].
  unfold weights_fit in Hfit. fold T in Hfit. unfold two64 in Hfit.
  rewrite (u64_small (10000 - H)) by (unfold two64; lia).
  rewrite (u64_small (b - H)) by (unfold two64; lia).
  rewrite u64_small by (unfold two64; nia).
  fold R. destruct (T =? 0) eqn:E1; [lia|]. destruct (R =? 0) eqn:E2; [lia|]. done.
Qed.

Lemma weighted_bucket_range b :
  0 <= b < 10000 -> H <= b -> 0 < T -> 0 <= (b - H) * T / R < T.
Proof.
  intros Hb Hh HT. assert (0 < R) by lia. split.
  - apply Z.div_pos; nia.
  - apply Z.div_lt_upper_bound; nia.
Qed.

(** The fall-through to the last variant is never taken. *)
Lemma assign_at_select b :
  0 <= b < 10000 -> H <= b -> 0 < T ->
  exists l1 v l2, variants = l1 ++ v :: l2 /\ 0 < Weight v /\
    sum_weights l1 <= (b - H) * T / R < sum_weights l1 + Weight v /\
    assign_at b variants pct = (Label v, false).
Proof.
  intros Hb Hh HT. rewrite assign_at_unfold by done.
  pose proof (weighted_bucket_range b Hb Hh HT) as Hw.
  pose proof (select_spec variants 0 ((b - H) * T / R)) as Hs. fold T in Hs.
  specialize (Hs ltac:(lia)). unfold weights_fit in Hfit. fold T in Hfit.
  specialize (Hs ltac:(unfold two64 in *; lia) ltac:(lia)).
  destruct (select _ _ _) as [lab|]; [|lia].
  destruct Hs as (l1 & v & l2 & Hv & <- & Hp & Hi).
  exists l1, v, l2. repeat split; try done; lia.
Qed.

Lemma assign_at_hit l1 v l2 b :
  variants = l1 ++ v :: l2 -> 0 <= b < 10000 -> H <= b -> 0 < T ->
  sum_weights l1 <= (b - H) * T / R < sum_weights l1 + Weight v ->
  assign_at b variants pct = (Label v, false).
Proof.
  intros Hv Hb Hh HT Hw. rewrite assign_at_unfold by done.
  rewrite Hv, select_hit; [done | lia | | lia].
  rewrite <- Hv. unfold weights_fit in Hfit. fold T in Hfit |- *. unfold two64 in *. lia.
Qed.

Lemma assign_at_holdout b :
  0 <= b < 10000 -> (assign_at b variants pct).2 = true <-> b < H.
Proof.
  intros Hb. unfold assign_at. rewrite holdout_u64.
  destruct (b <? H) eqn:E; [by simpl; split; [lia|]|].
  split; [|lia]. repeat case_match; simpl; discriminate.
Qed.

(** With distinct labels a variant is chosen exactly on its interval. *)
Lemma assign_at_iff l1 v l2 b :
  variants = l1 ++ v :: l2 -> NoDup (Label <$> variants) ->
  0 <= b < 10000 -> 0 < T ->
  assign_at b variants pct = (Label v, false) <->
  H <= b /\ sum_weights l1 <= (b - H) * T / R < sum_weights l1 + pos_weight v.
Proof.
  intros Hv Hnd Hb HT. split.
  - intros E. assert (Hh : H <= b).
    { destruct (Z.lt_ge_cases b H) as [Hl|]; [|done].
      apply assign_at_holdout in Hl; [|done]. by rewrite E in Hl. }
    split; [done|].
    destruct (assign_at_select b Hb Hh HT) as (k1 & u & k2 & Hu & Hp & Hi & Ea).
    assert (k1 = l1 /\ u = v) as [-> ->].
    { rewrite Ea in E. injection E as E. rewrite Hv in Hu.
      eapply (f_equal (fmap Label)) in Hu as Hl. rewrite !fmap_app, !fmap_cons in Hl.
      rewrite Hv, fmap_app, fmap_cons in Hnd. rewrite E in Hl.
      assert (length l1 = length k1) as Hlen.
      { assert (H1 : (Label <$> l1 ++ v :: l2) !! length l1 = Some (Label v)).
        { rewrite list_lookup_fmap, lookup_app_r, Nat.sub_diag by done. done. }
        assert (H2 : (Label <$> l1 ++ v :: l2) !! length k1 = Some (Label v)).
        { rewrite fmap_app, fmap_cons, Hl, lookup_app_r by (by rewrite length_fmap).
          by rewrite length_fmap, Nat.sub_diag. }
        eapply NoDup_lookup; [|exact H1|exact H2]. by rewrite fmap_app, fmap_cons. }
      apply app_inj_1 in Hu as [-> Hu]; [|done]. by injection Hu as -> ->. }
    unfold pos_weight. lia.
  - intros [Hh Hi]. eapply assign_at_hit; try done. unfold pos_weight in Hi. lia.
Qed.
End AssignAt.

(** ** Shares *)

(** Ceiling division. *)
Definition cdiv (a t : Z) : Z := (a + t - 1) / t.

Lemma cdiv_le_iff a t x : 0 < t -> cdiv a t <= x <-> a <= x * t.
Proof.
  intros Ht. unfold cdiv. split.
  - intros Hx. assert (a + t - 1 < (x + 1) * t); [|lia].
    pose proof (Z.div_mod (a + t - 1) t ltac:(lia)).
    pose proof (Z.mod_pos_bound (a + t - 1) t Ht). nia.
  - intros Hx. apply Z.lt_succ_r. apply Z.div_lt_upper_bound; lia.
Qed.

Lemma cdiv_bounds a t : 0 < t -> a <= cdiv a t * t < a + t.
Proof.
  intros Ht. unfold cdiv.
  pose proof (Z.div_mod (a + t - 1) t ltac:(lia)).
  pose proof (Z.mod_pos_bound (a + t - 1) t Ht). nia.
Qed.

Lemma floor_ge_iff k x T R : 0 < T -> 0 < R -> k <= x * T / R <-> cdiv (k * R) T <= x.
Proof.
  intros HT HR. rewrite cdiv_le_iff by done. split; intros Hx.
  - pose proof (Z.mul_div_le (x * T) R HR). nia.
  - apply Z.div_le_lower_bound; lia.
Qed.

Lemma floor_interval_iff c d b H T R :
  0 < T -> 0 < R ->
  c <= (b - H) * T / R < d <-> H + cdiv (c * R) T <= b < H + cdiv (d * R) T.
Proof.
  intros HT HR. pose proof (floor_ge_iff c (b - H) T R HT HR).
  pose proof (floor_ge_iff d (b - H) T R HT HR). lia.
Qed.

(** The number of the 10000 buckets that [Assign] maps to a label. *)
Definition bucket_count (variants : list Variant) (pct : Z) (label : string) : Z :=
  countb (fun b => bool_decide (assign_at b variants pct = (label, false))) (seqZ 0 10000).

Lemma bucket_count_eq variants pct l1 v l2 :
  weights_fit variants -> variants = l1 ++ v :: l2 -> NoDup (Label <$> variants) ->
  0 < sum_weights variants -> clamp_pct pct < 100 ->
  let R := 10000 - clamp_pct pct * 100 in
  let T := sum_weights variants in
  bucket_count variants pct (Label v) =
    cdiv ((sum_weights l1 + pos_weight v) * R) T - cdiv (sum_weights l1 * R) T.
Proof.
  intros Hfit Hv Hnd HT Hp R T. set (H := clamp_pct pct * 100).
  pose proof (clamp_pct_range pct) as Hc. pose proof (sum_weights_nonneg l1) as H1.
  assert (HR : 0 < R) by lia.
  assert (Hw : sum_weights l1 + pos_weight v <= T).
  { unfold T. rewrite Hv, sum_weights_app. simpl. pose proof (sum_weights_nonneg l2). lia. }
  assert (Hpw : 0 <= pos_weight v) by (unfold pos_weight; lia).
  set (lo := cdiv (sum_weights l1 * R) T). set (hi := cdiv ((sum_weights l1 + pos_weight v) * R) T).
  assert (Hlo : 0 <= lo). { apply Z.div_pos; nia. }
  assert (Hlh : lo <= hi). { apply cdiv_le_iff; [done|]. pose proof (cdiv_bounds ((sum_weights l1 + pos_weight v) * R) T HT). fold hi in H0. nia. }
  assert (Hhi : hi <= R). { apply cdiv_le_iff; [done|]. nia. }
  unfold bucket_count.
  rewrite (countb_ext _ (fun b => (H + lo <=? b) && (b <? H + hi))).
  { rewrite countb_interval; lia. }
  intros b Hb%elem_of_seqZ. apply eq_true_iff_eq. rewrite bool_decide_eq_true.
  rewrite (assign_at_iff variants pct Hfit l1 v l2 b Hv Hnd ltac:(lia) HT).
  change (clamp_pct pct * 100) with H. change (10000 - H) with R.
  change (sum_weights variants) with T.
  rewrite (floor_interval_iff _ _ _ H T R) by done. fold lo hi. lia.
Qed.

(** C8: Every variant receives its weighted share of the buckets that are
    not held out, to within one bucket: with [R] non-holdout buckets and
    total weight [T], a variant of weight [w] gets [n] of the 10000 buckets
    with [|n*T - R*w| < T].  Labels are distinct and the weights small enough
    that [bucket * totalWeight] does not wrap. *)
Theorem Assign_share variants pct l1 v l2 :
  weights_fit variants -> variants = l1 ++ v :: l2 -> NoDup (Label <$> variants) ->
  0 < sum_weights variants -> clamp_pct pct < 100 ->
  let R := 10000 - clamp_pct pct * 100 in
  Z.abs (bucket_count variants pct (Label v) * sum_weights variants - R * pos_weight v)
    < sum_weights variants.
Proof.
  intros Hfit Hv Hnd HT Hp R. rewrite (bucket_count_eq _ _ l1 v l2) by done. fold R.
  pose proof (cdiv_bounds (sum_weights l1 * R) _ HT).
  pose proof (cdiv_bounds ((sum_weights l1 + pos_weight v) * R) _ HT). lia.
Qed.

Definition abc : list Variant := [MkVariant "control" 20; MkVariant "a" 30; MkVariant "b" 50].

Lemma Assign_share_witness :
  Z.abs (bucket_count abc 10 "a" * 100 - 9000 * 30) < 100 /\ bucket_count abc 10 "a" = 2700.
Proof.
  split; [|by vm_compute].
  apply (Assign_share abc 10 [MkVariant "control" 20] (MkVariant "a" 30) [MkVariant "b" 50]);
    [reflexivity | reflexivity | apply (bool_decide_unpack _); by vm_compute | reflexivity | reflexivity].
Defined.

(** Assignment of any profile: it is held out exactly when its bucket
    falls in the first [clamp(holdoutPct)] percent; otherwise, when some
    weight is positive, the label returned belongs to a variant of strictly
    positive weight (the code's fall-through to the last variant is dead),
    and when no weight is positive the empty label is returned. *)
Theorem Assign_outcome seed profileID variants pct :
  weights_fit variants ->
  let b := BucketOf (seed +:+ ":" +:+ profileID) 10000 in
  ((Assign seed profileID variants pct).2 = true <-> b < clamp_pct pct * 100) /\
  (clamp_pct pct * 100 <= b ->
   (0 < sum_weights variants ->
     exists v, v ∈ variants /\ 0 < Weight v /\ Assign seed profileID variants pct = (Label v, false)) /\
   (sum_weights variants = 0 -> Assign seed profileID variants pct = ("", false))).
Proof.
  intros Hfit b. assert (Hb : 0 <= b < 10000) by by apply BucketOf_range.
  unfold Assign. fold b. split; [by apply assign_at_holdout|]. intros Hh. split; intros HT.
  - destruct (assign_at_select variants pct Hfit b Hb Hh HT) as (l1 & v & l2 & -> & Hp & _ & E).
    exists v. split; [|done]. apply elem_of_app. right. apply list_elem_of_here.
  - unfold assign_at. rewrite holdout_u64, totalWeight_sum, HT by done.
    by destruct (b <? _) eqn:E; [lia|].
Qed.

Lemma Assign_outcome_witness :
  (Assign "immutable-seed" "profile-42" abc 10).2 = true <->
  BucketOf "immutable-seed:profile-42" 10000 < 1000.
Proof. apply (Assign_outcome "immutable-seed" "profile-42" abc 10). reflexivity. Defined.

End Experiment.
