(* ===== verification/Flags.v ===== *)
(** * Feature flag evaluation (src/internal/flags/evaluate.go)

    The evaluator is generic in the [EvalAudience] interface; it draws the
    subject's bucket for the rollout gate and again, through [Assign], for the
    variant. *)

From S2P Require Import Prelude.
From S2P Require Import GoStd.
From S2P Require Import Sha256.
From S2P Require Import Domain.
From S2P Require Import Experiment.

Module Flags.
Import Experiment.

Record EvaluationResult : Type := MkEvaluationResult {
  er_Variant : string;
  er_Value : RawMessage;
  er_Reason : string  (* "disabled", "targeted", "rollout", "rollout_excluded" *)
}.

(** [type EvalAudience interface]. *)
Class EvalAudience (W : Type) := Eval : string -> RawMessage -> M W bool.

(** The loop [for _, variant := range flag.Variants { if variant.Label == label ...}]. *)
Definition find_variant (flag : FeatureFlag) (label : string) : option FlagVariant :=
  find_first (fun v => fv_Label v =s label) (ff_Variants flag).

Definition experiment_variants (flag : FeatureFlag) : list Variant :=
  (fun v => MkVariant (fv_Label v) (fv_Weight v)) <$> ff_Variants flag.

(** The rollout part of [Evaluate], a pure function of flag and subject. *)
Definition rollout (flag : FeatureFlag) (profileID : string) : EvaluationResult :=
  let excluded := MkEvaluationResult "" (ff_DefaultValue flag) "rollout_excluded" in
  let bucket := BucketOf (ff_Seed flag +:+ ":" +:+ profileID) 10000 in
  let rolloutThreshold := u64 (i64 (ff_RolloutPct flag * 100)) in
  if bucket <? rolloutThreshold then
    let '(variantLabel, _) := Assign (ff_Seed flag) profileID (experiment_variants flag) 0 in
    if (variantLabel =s "") || (variantLabel =s "holdout") then excluded
    else match find_variant flag variantLabel with
    | Some v => MkEvaluationResult variantLabel (fv_Value v) "rollout"
    | None => excluded
    end
  else excluded.

Section Evaluate.
Context {W : Type} `{EvalAudience W}.

(** The walk over the targeting rules: [Some r] when a rule decides. *)
Fixpoint targeted (flag : FeatureFlag) (profileID : string) (rules : list FlagTargetingRule)
    : M W (option EvaluationResult) :=
  match rules with
  | [] => mret None
  | rule :: rest =>
      matches ← wrapM "evaluate audience rule: %w" (Eval profileID (fr_DSL rule));
      if matches : bool then
        match find_variant flag (fr_Variant rule) with
        | Some v => mret (Some (MkEvaluationResult (fr_Variant rule) (fv_Value v) "targeted"))
        | None => throw (Errorf "targeting rule variant %q not found in flag variants"
                           [AStr (fr_Variant rule)])
        end
      else targeted flag profileID rest
  end.

Definition Evaluate (flag : FeatureFlag) (profileID : string) : M W EvaluationResult :=
  if (ff_Status flag =s "disabled") || negb (ff_Enabled flag)
  then mret (MkEvaluationResult "" (ff_DefaultValue flag) "disabled")
  else
    t ← targeted flag profileID (ff_TargetingRules flag);
    match t with
    | Some r => mret r
    | None => mret (rollout flag profileID)
    end.
End Evaluate.

(** The flag's API keeps [rollout_pct] in 0..100. *)
Definition pct_ok (flag : FeatureFlag) : Prop := 0 <= ff_RolloutPct flag <= 100.

Lemma threshold_eq flag :
  pct_ok flag -> u64 (i64 (ff_RolloutPct flag * 100)) = ff_RolloutPct flag * 100.
Proof. intros [? ?]. rewrite i64_small, u64_small; unfold two63, two64; lia. Qed.

(** The value served belongs to the variant named, and otherwise is the default. *)
Definition result_consistent (flag : FeatureFlag) (r : EvaluationResult) : Prop :=
  (er_Variant r = "" /\ er_Value r = ff_DefaultValue flag /\
     (er_Reason r = "disabled" \/ er_Reason r = "rollout_excluded")) \/
  ((er_Reason r = "targeted" \/ er_Reason r = "rollout") /\
   exists v, v ∈ ff_Variants flag /\ fv_Label v = er_Variant r /\ fv_Value v = er_Value r).

Lemma find_variant_Some flag lab v :
  find_variant flag lab = Some v -> v ∈ ff_Variants flag /\ fv_Label v = lab.
Proof.
  intros H. apply find_first_Some in H as [Hin Hl]. by apply seqb_true in Hl.
Qed.

Lemma rollout_consistent flag pid : result_consistent flag (rollout flag pid).
Proof.
  unfold rollout, result_consistent. case_match; [|by (left; auto)].
  destruct (Assign _ _ _ _) as [lab h]. case_match; [by (left; auto)|].
  destruct (find_variant flag lab) as [v|] eqn:E; simpl; [|by (left; auto)].
  apply find_variant_Some in E as [Hin Hl]. right. split; [by right|]. by exists v.
Qed.

Lemma targeted_consistent {W} `{EvalAudience W} flag pid rules w r w' :
  targeted flag pid rules w = (Ok (Some r), w') ->
  er_Reason r = "targeted" /\ result_consistent flag r.
Proof.
  revert w. induction rules as [|rule rules IH]; intros w; simpl; [intros; inv_M|].
  intros E. apply bindM_Ok in E as (m & w1 & _ & E).
  destruct m; [|by apply IH in E].
  destruct (find_variant flag (fr_Variant rule)) as [v|] eqn:Ev; [|by inv_M].
  inv_M. apply find_variant_Some in Ev as [Hin Hl].
  split; [done|]. right. split; [by left|]. by exists v.
Qed.

(** Whatever the audience evaluator answers, a result of [Evaluate]
    names a declared variant and carries that variant's value, or carries
    the default value with no variant. *)
Theorem Evaluate_consistent {W} `{EvalAudience W} flag pid w r w' :
  Evaluate flag pid w = (Ok r, w') -> result_consistent flag r.
Proof.
  unfold Evaluate. case_match; [intros E; inv_M; by (left; auto)|].
  intros E. apply bindM_Ok in E as (t & w1 & Ht & E). destruct t as [r'|].
  - inv_M. by eapply targeted_consistent.
  - inv_M. apply rollout_consistent.
Qed.
Definition demo_flag : FeatureFlag :=
  MkFeatureFlag "f1" "t" "w" "a" "production" "checkout" None None "string" (Raw (JString "off"))
    [MkFlagVariant "A" (Raw (JString "a")) 50; MkFlagVariant "B" (Raw (JString "b")) 50]
    [MkFlagTargetingRule (Raw (JObject [])) "B"] 50 "seed" true "published" None 0 0.

(** An evaluator that matches nobody. *)
Definition nobody : EvalAudience unit := fun _ _ => mret false.

Lemma Evaluate_consistent_witness :
  exists r, @Evaluate unit nobody demo_flag "profile-7" tt = (Ok r, tt) /\ result_consistent demo_flag r.
Proof.
  eexists. split; [reflexivity|].
  eapply (@Evaluate_consistent unit nobody demo_flag "profile-7" tt _ tt). reflexivity.
Defined.

Definition weight_sum (flag : FeatureFlag) : Z := sum_weights (experiment_variants flag).

(** What a subject inside the rollout receives. *)
Lemma rollout_inside flag pid :
  pct_ok flag -> er_Reason (rollout flag pid) = "rollout" ->
  let b := BucketOf (ff_Seed flag +:+ ":" +:+ pid) 10000 in
  b < ff_RolloutPct flag * 100 /\
  (Assign (ff_Seed flag) pid (experiment_variants flag) 0).1 = er_Variant (rollout flag pid) /\
  er_Variant (rollout flag pid) <> "".
Proof.
  intros Hp. unfold rollout. rewrite threshold_eq by done.
  destruct (_ <? _) eqn:Eb; [|discriminate].
  destruct (Assign _ _ _ _) as [lab h]. destruct (_ || _) eqn:El; [discriminate|].
  apply orb_false_iff in El as [El _]. apply seqb_false in El.
  destruct (find_variant flag lab); [|discriminate]. simpl. intros _. split; [lia | done].
Qed.

(** Rollout is sticky: a subject that receives a variant by rollout
    keeps exactly that result when the flag's percentage is raised. *)
Theorem rollout_sticky flag pid pct :
  pct_ok flag -> ff_RolloutPct flag <= pct <= 100 ->
  er_Reason (rollout flag pid) = "rollout" ->
  rollout (set_ff_RolloutPct pct flag) pid = rollout flag pid.
Proof.
  intros Hp Hle Hr. destruct (rollout_inside flag pid Hp Hr) as (Hb & _ & _).
  revert Hr. unfold rollout. rewrite (threshold_eq flag) by done.
  rewrite (threshold_eq (set_ff_RolloutPct pct flag)) by (unfold pct_ok in *; simpl; lia). simpl.
  destruct (_ <? ff_RolloutPct flag * 100) eqn:E1; [|lia].
  destruct (_ <? pct * 100) eqn:E2; [done|lia].
Qed.

Lemma rollout_sticky_witness :
  rollout (set_ff_RolloutPct 80 demo_flag) "p1" = rollout demo_flag "p1" /\
  er_Reason (rollout demo_flag "p1") = "rollout".
Proof.
  assert (E : er_Reason (rollout demo_flag "p1") = "rollout") by by vm_compute.
  split; [|exact E]. apply rollout_sticky; [by vm_compute; split | by vm_compute; split | exact E].
Defined.

(** Where the variant served by a rollout stands among the declared ones. *)
Lemma rollout_prefix flag pid :
  pct_ok flag -> weights_fit (experiment_variants flag) ->
  er_Reason (rollout flag pid) = "rollout" ->
  exists l1 v l2, experiment_variants flag = l1 ++ v :: l2 /\
    Label v = er_Variant (rollout flag pid) /\
    sum_weights l1 * 100 < ff_RolloutPct flag * weight_sum flag.
Proof.
  intros Hp Hfit Hr. destruct (rollout_inside flag pid Hp Hr) as (Hb & Ha & Hne).
  set (b := BucketOf _ _) in *. assert (Hb0 : 0 <= b < 10000) by by apply BucketOf_range.
  unfold Assign in Ha. fold b in Ha. unfold weight_sum. set (vs := experiment_variants flag) in *.
  clearbody b.
  pose proof (sum_weights_nonneg vs). destruct (Z.eq_dec (sum_weights vs) 0) as [HT|HT].
  { exfalso. apply Hne. rewrite <- Ha. unfold assign_at.
    rewrite totalWeight_sum, HT by done. change (u64 (clamp_pct 0 * 100)) with 0.
    by destruct (b <? 0) eqn:E; [lia|]. }
  destruct (assign_at_select vs 0 Hfit b Hb0 ltac:(change (clamp_pct 0) with 0; lia) ltac:(lia))
    as (l1 & v & l2 & Hv & Hw & Hi & E).
  exists l1, v, l2. split; [done|]. split; [by rewrite <- Ha, E|].
  change (clamp_pct 0) with 0 in Hi. replace (b - 0 * 100) with b in Hi by lia.
  change (10000 - 0 * 100) with 10000 in Hi.
  pose proof (Z.mul_div_le (b * sum_weights vs) 10000 ltac:(lia)). nia.
Qed.

(** A rollout at [r] percent only ever serves the variants that start
    within the first [r] percent of the total weight: the gate and [Assign]
    read the same bucket, so the variants behind that prefix are served to
    no subject at all. *)
Theorem rollout_serves_only_prefix flag pid :
  pct_ok flag -> weights_fit (experiment_variants flag) ->
  er_Reason (rollout flag pid) = "rollout" ->
  exists l1 v l2, experiment_variants flag = l1 ++ v :: l2 /\
    Label v = er_Variant (rollout flag pid) /\
    sum_weights l1 * 100 < ff_RolloutPct flag * weight_sum flag.
Proof. apply rollout_prefix. Qed.

Lemma rollout_serves_only_prefix_witness :
  exists l1 v l2, experiment_variants demo_flag = l1 ++ v :: l2 /\
    Label v = er_Variant (rollout demo_flag "p1") /\ sum_weights l1 * 100 < 50 * 100.
Proof.
  apply (rollout_serves_only_prefix demo_flag "p1"); [split; by vm_compute | by vm_compute | by vm_compute].
Defined.

(** An even two-way flag at fifty percent never serves its second variant. *)
Corollary second_variant_starved pid : er_Variant (rollout demo_flag pid) <> "B".
Proof.
  intros E. assert (Hr : er_Reason (rollout demo_flag pid) = "rollout").
  { destruct (rollout_consistent demo_flag pid) as [(Hv & _)|[[Ht|Ht] _]]; [congruence| |done].
    revert Ht. unfold rollout. repeat (case_match; try discriminate). }
  destruct (rollout_prefix demo_flag pid) as (l1 & v & l2 & Hv & Hl & Hlt);
    [by split | by vm_compute | done |].
  rewrite E in Hl. destruct l1 as [|u [|u' l1]]; simpl in Hv; inversion Hv; subst;
    [discriminate Hl | vm_compute in Hlt; discriminate Hlt | by destruct l1].
Qed.
End Flags.
