(* ===== verification/Store.v ===== *)
(** * The store and adapter interfaces (src/internal/ports)

    [ports.Store] is one Go interface; the classes below are the groups of its
    methods that each modelled component calls.  A method acts on a world [W]
    (database, network) and may fail; [context.Context] arguments, which only
    carry cancellation, are left out. *)

From S2P Require Import Prelude.
From S2P Require Import GoStd.
From S2P Require Import Domain.

(** [var ErrNotFound = errors.New("not found")]. *)
Definition ErrNotFound : error := Sentinel "not found".
Definition is_ErrNotFound (e : error) : bool := errors_Is e "not found".

(** What message policy reads. *)
Class PolicyStore (W : Type) := {
  IsSuppressed : Principal -> string -> string -> M W bool;
  LatestConsent : Principal -> string -> string -> string -> M W Consent;
  SentCountSince : Principal -> string -> Z -> M W Z
}.

(** What executing a journey node reads and writes. *)
Class NodeStore (W : Type) := {
  EvaluateAudience : Principal -> string -> RawMessage -> M W bool;
  IsProfileInSegment : Principal -> string -> string -> M W bool;
  GetExperiment : Principal -> string -> M W Experiment;
  AssignExperiment : Principal -> string -> string -> string -> M W ExperimentAssignment;
  UpdateProfileAttributes : Principal -> string -> option (list (string * json)) -> M W unit;
  AcceptEvents : Principal -> list Event -> M W (list string);
  GetProfileByIDSystem : string -> string -> string -> M W Profile;
  ListActiveDeviceTokens : string -> string -> string -> M W (list DeviceToken);
  GetFirstAppID : string -> string -> M W string;
  ListActiveFlags : string -> string -> string -> M W (list FeatureFlag)
}.

(** The durable step queue, as the worker loop uses it. [ClaimJourneyStep]
    returns [(step, false)] when nothing is due. *)
Class StepStore (W : Type) := {
  ClaimJourneyStep : M W (option JourneyStep);
  GetJourneyRunSystem : string -> string -> M W JourneyRun;
  GetJourneyVersion : string -> string -> M W JourneyVersion;
  FailJourneyStep : string -> text -> M W unit;
  RescheduleJourneyStep : string -> Z -> M W unit;
  AdvanceRunTx : string -> JourneyRun -> string -> option JourneyStep -> JourneyTransition ->
                 list JourneyMessageIntent -> M W unit
}.

(** Segments and journeys, as enrollment reads them. *)
Class SegmentStore (W : Type) := {
  ResolveSegment : Principal -> string -> M W (list string);
  GetJourney : Principal -> string -> M W Journey
}.

(** Enrollment. [EnrollJourneyRun] returns the run id and whether a row was
    inserted. *)
Class EnrollStore (W : Type) := {
  ListActiveScheduledJourneyVersions : M W (list JourneyVersion);
  GetJourneyRunsForProfile : string -> string -> string -> M W (list JourneyRun);
  EnrollJourneyRun : JourneyRun -> JourneyStep -> M W (string * bool)
}.

(** The queue of message intents; [ClaimJourneyMessageIntent] answers [None]
    when nothing is due. *)
Class IntentStore (W : Type) := {
  ClaimJourneyMessageIntent : string -> M W (option JourneyMessageIntent);
  UpdateJourneyMessageIntent : JourneyMessageIntent -> M W unit
}.

(** What delivering a message reads and writes besides. *)
Class DeliveryStore (W : Type) := {
  GetTemplate : Principal -> string -> M W Template;
  ListSendingIdentities : Principal -> M W (list SendingIdentity);
  GetSendingIdentity : Principal -> string -> M W SendingIdentity;
  GetTenantFatigueQuotas : Principal -> M W (Z * Z);
  GetTenantQuietHours : Principal -> M W (option Z * option Z * string);
  RetireDeviceToken : string -> string -> string -> M W unit
}.
