(* ===== verification/AuditLog.v ===== *)
(** * The audit log's hash chain (src/internal/postgres/admin.go)

    [audit] appends a row to a tenant's chain, [VerifyAuditChain] reads it
    back and checks it, [BackfillAuditChain] recomputes it.  A stored row keeps
    what PostgreSQL keeps: metadata as [jsonb], printed back as text, and
    timestamps in microseconds. *)

From Stdlib Require Import Ascii.
From S2P Require Import Prelude.
From S2P Require Import GoStd.
From S2P Require Import GoMap.
From S2P Require Import Sha256.
From S2P Require Import Domain.

Module Audit.

(** ** Texts *)

Definition hex2 (n : Z) : string := Sha256.hex [n].
Definition chr (n : Z) : string := String (Ascii.ascii_of_N (Z.to_N n)) EmptyString.
Definition backslash : string := chr 92.

(** The escapes both encoders share; [encoding/json] also escapes <, > and &. *)
Definition escape (html : bool) (c : Ascii.ascii) : string :=
  let n := GoStr.code c in
  if n =? 34 then backslash +:+ GoStr.dquote
  else if n =? 92 then backslash +:+ backslash
  else if n =? 8 then backslash +:+ "b"
  else if n =? 12 then backslash +:+ "f"
  else if n =? 10 then backslash +:+ "n"
  else if n =? 13 then backslash +:+ "r"
  else if n =? 9 then backslash +:+ "t"
  else if (n <? 32) || (html && ((n =? 60) || (n =? 62) || (n =? 38))) then backslash +:+ "u00" +:+ hex2 n
  else String c EmptyString.
Fixpoint escape_all (html : bool) (s : string) : string :=
  match s with EmptyString => EmptyString | String c s' => escape html c +:+ escape_all html s' end.
Definition quoted (html : bool) (s : string) : string := GoStr.dquote +:+ escape_all html s +:+ GoStr.dquote.

(** A JSON text, with what follows a colon and a comma. *)
Fixpoint print (html : bool) (space : string) (j : json) : string :=
  match j with
  | JNull => "null"
  | JBool true => "true"
  | JBool false => "false"
  | JNumber lit => lit
  | JString s => quoted html s
  | JArray l => "[" +:+ String.concat ("," +:+ space) (map (print html space) l) +:+ "]"
  | JObject l =>
      "{" +:+ String.concat ("," +:+ space)
        ((fix go (l : list (string * json)) :=
            match l with
            | [] => []
            | (k, v) :: l' => (quoted html k +:+ ":" +:+ space +:+ print html space v) :: go l'
            end) l) +:+ "}"
  end.
(** [json.Marshal] of a metadata map, and the text of a [jsonb] column. *)
Definition marshal_text (j : json) : string := print true "" j.
(** [jsonb] orders keys by length, then bytes. *)
Definition key_less (a b : string * json) : bool :=
  (String.length a.1 <? String.length b.1)%nat ||
  ((String.length a.1 =? String.length b.1)%nat && GoMap.str_less a.1 b.1).
Fixpoint jsonb (j : json) : json :=
  match j with
  | JArray l => JArray (map jsonb l)
  | JObject l =>
      JObject (GoMap.sort_by key_less
        ((fix go (l : list (string * json)) := match l with [] => [] | (k, v) :: l' => (k, jsonb v) :: go l' end) l))
  | _ => j
  end.
Definition jsonb_text (j : json) : string := print false " " (jsonb j).

(** [t.UTC().Format(time.RFC3339Nano)]: the fraction without trailing zeros. *)
Fixpoint strip_zeros (n : nat) (width : nat) (frac : Z) : string :=
  match n with
  | O => EmptyString
  | S n' => if frac mod 10 =? 0 then strip_zeros n' (pred width) (frac / 10) else "." +:+ GoStr.pad width frac ""
  end.
Definition RFC3339Nano (t : Z) : string :=
  let '(y, m, d) := Time.civil_from_days (t / (24 * Time.Hour)) in
  GoStr.pad 4 y "" +:+ "-" +:+ GoStr.pad 2 m "" +:+ "-" +:+ GoStr.pad 2 d "" +:+ "T" +:+
  GoStr.pad 2 (Time.HourOf t) "" +:+ ":" +:+ GoStr.pad 2 (Time.MinuteOf t) "" +:+ ":" +:+
  GoStr.pad 2 ((t / Time.Second) mod 60) "" +:+ strip_zeros 9 9 (t mod Time.Second) +:+ "Z".

Example texts :
  marshal_text (JObject [("count", JNumber "1")]) = "{" +:+ GoStr.dquote +:+ "count" +:+ GoStr.dquote +:+ ":1}" /\
  jsonb_text (JObject [("count", JNumber "1")]) = "{" +:+ GoStr.dquote +:+ "count" +:+ GoStr.dquote +:+ ": 1}" /\
  RFC3339Nano 1767225600123450000 = "2026-01-01T00:00:00.12345Z" /\ RFC3339Nano 0 = "1970-01-01T00:00:00Z".
Proof. vm_compute. repeat split. Qed.

(** ** Rows *)

(** [auditRow]: a row as it is hashed. *)
Record auditRow : Type := MkAuditRow {
  au_id : string;
  au_tenantID : string;
  au_workspaceID : string;
  au_appID : string;
  au_actType : string;
  au_actID : string;
  au_act : string;
  au_resType : string;
  au_resID : string;
  au_metadata : string;
  au_occurredAt : Z;
  au_seq : Z;
  au_prevHash : string;
  au_rowHash : string
}.

Definition canonical (prevHash id tenantID workspaceID appID actorType actorID action resourceType resourceID metadata : string)
    (occurredAt seq : Z) : string :=
  String.concat "|" [prevHash; GoStr.of_Z seq; id; tenantID; workspaceID; appID; actorType; actorID; action; resourceType;
    resourceID; metadata; RFC3339Nano occurredAt].
Definition ComputeAuditRowHash (prevHash id tenantID workspaceID appID actorType actorID action resourceType resourceID metadata : string)
    (occurredAt seq : Z) : string :=
  Sha256.hex (Sha256.Sum256 (canonical prevHash id tenantID workspaceID appID actorType actorID action resourceType resourceID
    metadata occurredAt seq)).

(** The text of a row under a previous hash and a sequence number. *)
Definition row_text (prev : string) (seq : Z) (e : auditRow) : string :=
  canonical prev (au_id e) (au_tenantID e) (au_workspaceID e) (au_appID e) (au_actType e) (au_actID e) (au_act e)
    (au_resType e) (au_resID e) (au_metadata e) (au_occurredAt e) seq.
Definition row_hash (prev : string) (seq : Z) (e : auditRow) : string :=
  ComputeAuditRowHash prev (au_id e) (au_tenantID e) (au_workspaceID e) (au_appID e) (au_actType e) (au_actID e) (au_act e)
    (au_resType e) (au_resID e) (au_metadata e) (au_occurredAt e) seq.

Record AuditVerificationResult : Type := MkAuditVerificationResult {
  vr_Status : string;
  vr_Intact : bool;
  vr_TotalEvents : Z;
  vr_FirstBrokenSeq : option Z;
  vr_FirstBrokenID : string;
  vr_Reason : string
}.

(** The loop of [verifyAuditRows]: [i] rows are behind it. *)
Fixpoint verify_from (expectedPrevHash : string) (i : Z) (events : list auditRow) : AuditVerificationResult :=
  match events with
  | [] => MkAuditVerificationResult "ok" true i None "" ""
  | event :: events' =>
      let broken (what : string) :=
        MkAuditVerificationResult "tampered" false (i + 1) (Some (au_seq event)) (au_id event)
          (what +:+ " mismatch at seq " +:+ GoStr.of_Z (au_seq event)) in
      if negb (au_prevHash event =s expectedPrevHash) then broken "prev_hash"
      else if negb (au_rowHash event =s row_hash (au_prevHash event) (au_seq event) event) then broken "row_hash"
      else verify_from (au_rowHash event) (i + 1) events'
  end.
Definition verifyAuditRows (events : list auditRow) : AuditVerificationResult := verify_from "" 0 events.

(** ** The table *)

(** A row of [audit_events]: [app_id] NULL is the empty string, as the
    queries coalesce it. *)
Record AuditEvent : Type := MkAuditEvent {
  av_id : string;
  av_tenant : string;
  av_workspace : string;
  av_app : string;
  av_actorType : string;
  av_actorID : string;
  av_action : string;
  av_resourceType : string;
  av_resourceID : string;
  av_metadata : json;
  av_occurredAt : Z;
  av_seq : Z;
  av_prevHash : string;
  av_rowHash : string
}.

(** The scan of a row: the [jsonb] as text. *)
Definition scan (e : AuditEvent) : auditRow :=
  MkAuditRow (av_id e) (av_tenant e) (av_workspace e) (av_app e) (av_actorType e) (av_actorID e) (av_action e)
    (av_resourceType e) (av_resourceID e) (jsonb_text (av_metadata e)) (av_occurredAt e) (av_seq e) (av_prevHash e) (av_rowHash e).
(** A [timestamptz] holds microseconds. *)
Definition microseconds (t : Z) : Z := t - t mod 1000.

(** [ad_clock] is [time.Now()]; the advisory lock of [audit] serialises the
    writers of a tenant. *)
Record ADB : Type := MkADB {
  ad_rows : list AuditEvent;
  ad_used : gset string;
  ad_clock : Z
}.

Definition less_seq (a b : AuditEvent) : bool := av_seq a <? av_seq b.
Definition tenant_rows (t : string) (d : ADB) : list AuditEvent :=
  filter (fun e => (av_tenant e =s t) = true) (ad_rows d).
Definition by_seq (t : string) (d : ADB) : list AuditEvent := GoMap.sort_by less_seq (tenant_rows t d).

Definition VerifyAuditChain (p : Principal) (d : ADB) : AuditVerificationResult :=
  verifyAuditRows (scan <$> by_seq (p_TenantID p) d).

Definition actorID (p : Principal) : string := if negb (p_UserID p =s "") then p_UserID p else p_KeyID p.
Definition actorType (p : Principal) : string :=
  if negb (p_ActorType p =s "") then p_ActorType p else if negb (p_UserID p =s "") then "user" else "api_key".

Definition unique_violation : error := errors_New "duplicate key value violates unique constraint".

Section audit.
(** [uuid.Parse] of a third-party package: whether the text is a UUID. *)
Context (uuid_ok : string -> bool).

(** The row to insert, and its hash, computed from the Go values. *)
Definition new_row (p : Principal) (action resourceType resourceID : string) (metadata : json) (id : string) (now lastSeq : Z)
    (lastHash : string) : AuditEvent :=
  let appID := if uuid_ok (p_AppID p) then p_AppID p else "" in
  let nextSeq := lastSeq + 1 in
  let rowHash := ComputeAuditRowHash lastHash id (p_TenantID p) (p_WorkspaceID p) appID (actorType p) (actorID p) action
                   resourceType resourceID (marshal_text metadata) now nextSeq in
  MkAuditEvent id (p_TenantID p) (p_WorkspaceID p) appID (actorType p) (actorID p) action resourceType resourceID metadata
    (microseconds now) nextSeq lastHash rowHash.

Definition audit (p : Principal) (action resourceType resourceID : string) (metadata : json) : M ADB unit := fun d =>
  let '(lastSeq, lastHash) := match last (by_seq (p_TenantID p) d) with
                              | Some e => (av_seq e, av_rowHash e)
                              | None => (0, "")
                              end in
  let id := fresh (ad_used d) in
  (Ok tt, MkADB (ad_rows d ++ [new_row p action resourceType resourceID metadata id (ad_clock d) lastSeq lastHash])
            ({[id]} ∪ ad_used d) (ad_clock d)).

End audit.

(** ** Backfill *)

Definition set_chain (seq : Z) (prev row : string) (e : AuditEvent) : AuditEvent :=
  MkAuditEvent (av_id e) (av_tenant e) (av_workspace e) (av_app e) (av_actorType e) (av_actorID e) (av_action e)
    (av_resourceType e) (av_resourceID e) (av_metadata e) (av_occurredAt e) seq prev row.
(** UPDATE audit_events SET seq, prev_hash, row_hash WHERE id, under the unique
    index on (tenant_id, seq). *)
Definition update_row (id : string) (seq : Z) (prev row : string) : M ADB unit := fun d =>
  match find_first (fun e => av_id e =s id) (ad_rows d) with
  | None => (Ok tt, d)
  | Some old =>
      if existsb (fun e => negb (av_id e =s id) && (av_tenant e =s av_tenant old) && (av_seq e =? seq)) (ad_rows d)
      then (Err unique_violation, d)
      else (Ok tt, MkADB ((fun e => if av_id e =s id then set_chain seq prev row e else e) <$> ad_rows d) (ad_used d) (ad_clock d))
  end.

Definition less_time (a b : AuditEvent) : bool :=
  if av_occurredAt a =? av_occurredAt b then GoMap.str_less (av_id a) (av_id b) else av_occurredAt a <? av_occurredAt b.

Fixpoint backfill_items (items : list AuditEvent) (currentPrevHash : string) (seq : Z) : M ADB unit :=
  match items with
  | [] => mret tt
  | item :: items' =>
      let seq := seq + 1 in
      let expectedRowHash := row_hash currentPrevHash seq (scan item) in
      _ ← (if negb (av_seq item =? seq) || negb (av_prevHash item =s currentPrevHash) || negb (av_rowHash item =s expectedRowHash)
           then wrapM "failed to backfill audit event %s: %w" (update_row (av_id item) seq currentPrevHash expectedRowHash)
           else mret tt);
      backfill_items items' expectedRowHash seq
  end.

Definition backfill_tenant (t : string) : M ADB unit := fun d =>
  backfill_items (GoMap.sort_by less_time (tenant_rows t d)) "" 0 d.
(** SELECT DISTINCT tenant_id. *)
Definition tenants (d : ADB) : list string := remove_dups (av_tenant <$> ad_rows d).
Definition BackfillAuditChain : M ADB unit := fun d => iterM backfill_tenant (tenants d) d.

End Audit.
