(* ===== verification/GoFmt.v ===== *)
(** * Texts of decoded values

    The shortest decimal that reads back as a float64 ([strconv.FormatFloat]
    with precision -1), the JSON text of a decoded value ([json.Marshal] of an
    [any]) and its [%v] text ([fmt.Sprint]). *)

From Stdlib Require Import Floats.SpecFloat Ascii.
From S2P Require Import Prelude.
From S2P Require Import GoStd.
From S2P Require Import GoMap.
From S2P Require Import GoFloat.
From S2P Require Import Sha256.
From S2P Require Import Domain.
From S2P Require Import Store.
From S2P Require Import AuditLog.

Module GoFmt.

(** ** Shortest decimals

    [num / den * 10^k], rounded down, with whether it is exact. *)
Definition scaled (num den k : Z) : Z * Z :=
  let n := if 0 <=? k then num * 10 ^ k else num in
  let d := if 0 <=? k then den else den * 10 ^ (- k) in (n, d).
(** The first [c] of the list with [num / den < 10^c]. *)
Fixpoint first_above (num den : Z) (l : list Z) : Z :=
  match l with
  | [] => 0
  | c :: l' => let '(n, d) := scaled num den (- c) in if n <? d then c else first_above num den l'
  end.
(** The position of the decimal point before the first digit. *)
Definition point (num den : Z) : Z :=
  let k := (Z.log2 num - Z.log2 den) * 30103 / 100000 in first_above num den [k - 1; k; k + 1; k + 2; k + 3].

Definition same_float (a b : Float.float64) : bool := Float.eqb a b.
(** The decimals of [n] digits on either side of [f] that read back as [f], the
    closer first. *)
Definition candidate (f : Float.float64) (num den dp n : Z) : option Z :=
  let '(a, b) := scaled num den (n - dp) in
  let lo := a / b in
  let low_closer := 2 * (a mod b) <? b in
  let tie := 2 * (a mod b) =? b in
  let reads d := same_float (Float.of_decimal d (dp - n)) f in
  let hi := lo + 1 in
  match reads lo, reads hi with
  | true, true => Some (if low_closer || (tie && Z.even lo) then lo else hi)
  | true, false => Some lo
  | false, true => Some hi
  | false, false => None
  end.
Fixpoint shortest_go (fuel : nat) (f : Float.float64) (num den dp n : Z) : Z * Z :=
  match fuel with
  | O => (0, 0)
  | S fuel' => match candidate f num den dp n with Some d => (d, dp - n) | None => shortest_go fuel' f num den dp (n + 1) end
  end.
Fixpoint strip (fuel : nat) (d e : Z) : Z * Z :=
  match fuel with
  | O => (d, e)
  | S fuel' => if (d mod 10 =? 0) && negb (d =? 0) then strip fuel' (d / 10) (e + 1) else (d, e)
  end.
(** The digits and the exponent of a positive finite float: 17 digits always
    read back. *)
Definition shortest (f : Float.float64) : Z * Z :=
  match f with
  | S754_finite _ m e =>
      let num := if 0 <=? e then Z.pos m * 2 ^ e else Z.pos m in
      let den := if 0 <=? e then 1 else 2 ^ (- e) in
      let '(d, x) := shortest_go 17 (Float.abs f) num den (point num den) 1 in strip 17 d x
  | _ => (0, 0)
  end.

Fixpoint zeros (n : nat) : string := match n with O => EmptyString | S n' => "0" +:+ zeros n' end.
(** Digits with the point after [dp] of them. *)
Definition fixed (digits : string) (dp : Z) : string :=
  let nd := Z.of_nat (String.length digits) in
  if dp <=? 0 then "0." +:+ zeros (Z.to_nat (- dp)) +:+ digits
  else if nd <=? dp then digits +:+ zeros (Z.to_nat (dp - nd))
  else String.substring 0 (Z.to_nat dp) digits +:+ "." +:+ GoStr.drop (Z.to_nat dp) digits.
Definition mantissa (digits : string) : string :=
  match digits with
  | String c EmptyString => digits
  | String c r => String c ("." +:+ r)
  | EmptyString => EmptyString
  end.
(** [%e]: an exponent of at least [width] digits. *)
Definition scientific (width : nat) (digits : string) (dp : Z) : string :=
  let x := dp - 1 in
  let w := if Z.abs x <? 10 then width else if Z.abs x <? 100 then 2%nat else 3%nat in
  mantissa digits +:+ "e" +:+ (if x <? 0 then "-" else "+") +:+ GoStr.pad w (Z.abs x) EmptyString.

(** The text of a float: the exponents from which it is scientific, and the
    least number of digits of the exponent. *)
Definition format (low high : Z) (width : nat) (f : Float.float64) : string :=
  match f with
  | S754_zero s => if s then "-0" else "0"
  | S754_infinity s => if s then "-Inf" else "+Inf"
  | S754_nan => "NaN"
  | S754_finite s _ _ =>
      let '(d, e) := shortest f in
      let digits := GoStr.of_Z d in
      let dp := Z.of_nat (String.length digits) + e in
      (if s then "-" else "") +:+
      (if (dp - 1 <? low) || (high <=? dp - 1) then scientific width digits dp else fixed digits dp)
  end.
(** [fmt] prints [%v] as the shortest [%g]; [encoding/json] keeps to [%f] from
    1e-6 to 1e21 and writes e-7 for e-07. *)
Definition sprint_float : Float.float64 -> string := format (-4) 6 2.
Definition json_float : Float.float64 -> string := format (-6) 21 1.

Example format_examples :
  map (fun s => option_map json_float (Float.ParseFloat s)) ["0.1"; "100"; "-1.50"; "1e21"; "123456789012345680000"; "0.000001"; "1e-7"; "5e-324"]
    = map Some ["0.1"; "100"; "-1.5"; "1e+21"; "123456789012345680000"; "0.000001"; "1e-7"; "5e-324"] /\
  map (fun s => option_map sprint_float (Float.ParseFloat s)) ["1000000"; "123456"; "0.0001"; "0.00001"; "-0"; "9007199254740993"; "1.7976931348623157e308"]
    = map Some ["1e+06"; "123456"; "0.0001"; "1e-05"; "-0"; "9.007199254740992e+15"; "1.7976931348623157e+308"].
Proof. vm_compute. split; reflexivity. Qed.

(** ** [json.Marshal] and [fmt.Sprint] of a decoded value

    A decoded value is finite, so that marshalling it does not fail. *)
Fixpoint to_json (a : any) : json :=
  match a with
  | ANil => JNull
  | ABool b => JBool b
  | AFloat f => JNumber (json_float f)
  | AString s => JString s
  | AArray l => JArray (map to_json l)
  | AMap l => JObject ((fix go (l : list (string * any)) := match l with [] => [] | (k, v) :: l' => (k, to_json v) :: go l' end) l)
  end.
Definition Marshal (a : any) : string := Audit.marshal_text (to_json a).

Fixpoint Sprint (a : any) : string :=
  match a with
  | ANil => "<nil>"
  | ABool b => if b then "true" else "false"
  | AFloat f => sprint_float f
  | AString s => s
  | AArray l => "[" +:+ String.concat " " (map Sprint l) +:+ "]"
  | AMap l => "map[" +:+ String.concat " "
      ((fix go (l : list (string * any)) := match l with [] => [] | (k, v) :: l' => (k +:+ ":" +:+ Sprint v) :: go l' end) l) +:+ "]"
  end.

Example text_examples :
  let v := Any.decode (JObject [("b", JArray [JNumber "1.0"; JString "<x>"; JNull]); ("a", JBool true)]) in
  Marshal v = "{" +:+ GoStr.dquote +:+ "a" +:+ GoStr.dquote +:+ ":true," +:+ GoStr.dquote +:+ "b" +:+ GoStr.dquote +:+ ":[1," +:+ GoStr.dquote +:+
              Audit.backslash +:+ "u003cx" +:+ Audit.backslash +:+ "u003e" +:+ GoStr.dquote +:+ ",null]}" /\
  Sprint v = "map[a:true b:[1 <x> <nil>]]".
Proof. vm_compute. split; reflexivity. Qed.

(** ** [err.Error()]

    The text of an error: each verb of the format takes the next argument. *)
Fixpoint fill (fmt : string) (args : list string) : string :=
  match fmt with
  | String c fmt' =>
      if bool_decide (c = "%"%char) then
        match fmt' with
        | String v fmt'' =>
            if bool_decide (v = "%"%char) then String "%"%char (fill fmt'' args)
            else match args with
                 | [] => "%!" +:+ String v ("(MISSING)" +:+ fill fmt'' [])
                 | a :: args' => (if bool_decide (v = "q"%char) then Audit.quoted false a else a) +:+ fill fmt'' args'
                 end
        | EmptyString => "%!(NOVERB)"
        end
      else String c (fill fmt' args)
  | EmptyString => EmptyString
  end.
Fixpoint Error (e : error) : string :=
  match e with
  | Sentinel s => s
  | Errorf fmt args =>
      fill fmt ((fix go (l : list arg) : list string :=
                   match l with
                   | [] => []
                   | AStr s :: l' => s :: go l'
                   | AInt z :: l' => GoStr.of_Z z :: go l'
                   | AWrap e' :: l' | AErr e' :: l' => Error e' :: go l'
                   end) args)
  | DeliveryError (Some e') _ _ => Error e'
  | DeliveryError None _ _ => "delivery error"
  end.
Example error_example :
  Error (Errorf "load %q: %w (%d%%)" [AStr "x"; AWrap (Sentinel "not found"); AInt 5]) = "load " +:+ Audit.quoted false "x" +:+ ": not found (5%)".
Proof. reflexivity. Qed.

(** ** What a JSON text is made of *)

Fixpoint all_chars (P : Ascii.ascii -> bool) (s : string) : bool := match s with EmptyString => true | String c s' => P c && all_chars P s' end.

Section chars.
Context (P : Ascii.ascii -> bool).
Lemma all_app s t : all_chars P (s +:+ t) = all_chars P s && all_chars P t.
Proof. induction s as [|c s IH]; [done|]. simpl. rewrite <- andb_assoc. by f_equal. Qed.
Lemma all_concat sep l : all_chars P sep = true -> forallb (all_chars P) l = true -> all_chars P (String.concat sep l) = true.
Proof.
  intros Hs. induction l as [|x l IH]; [done|]. simpl. intros [Hx Hl]%andb_prop. destruct l as [|y l]; [done|].
  by rewrite !all_app, Hx, Hs, IH.
Qed.
Lemma all_drop n s : all_chars P s = true -> all_chars P (GoStr.drop n s) = true.
Proof. revert s. induction n as [|n IH]; intros s H; [done|]. destruct s as [|c s]; [done|]. simpl in *. apply andb_prop in H as [_ H]. auto. Qed.
Lemma all_substring n s : all_chars P s = true -> all_chars P (String.substring 0 n s) = true.
Proof.
  revert s. induction n as [|n IH]; intros [|c s] H; [done..|]. simpl in *. apply andb_prop in H as [Hc H]. rewrite Hc. by apply IH.
Qed.
End chars.

(** Everything but <, > and control characters. *)
Definition inert (c : Ascii.ascii) : bool := let n := GoStr.code c in negb (n =? 60) && negb (n =? 62) && (32 <=? n).
Abbreviation inert_text := (all_chars inert).

Lemma digit_inert d : 0 <= d < 10 -> inert (GoStr.digit_char d) = true.
Proof.
  intros H. assert (d ∈ seqZ 0 10) as Hin by (apply elem_of_seqZ; lia). clear H. revert d Hin.
  apply Forall_forall. by repeat constructor.
Qed.
Lemma mod10_inert z : inert (GoStr.digit_char (z mod 10)) = true.
Proof. apply digit_inert. by apply Z.mod_pos_bound. Qed.
Lemma of_Z_inert z : inert_text (GoStr.of_Z z) = true.
Proof.
  assert (H : forall f x acc, inert_text acc = true -> inert_text (GoStr.dec_go f x acc) = true).
  { induction f as [|f IH]; intros x acc Ha; [done|]. simpl. assert (Hd := mod10_inert x).
    destruct (_ =? 0); simpl; [by rewrite Hd|]. apply IH. simpl. by rewrite Hd. }
  unfold GoStr.of_Z. destruct (z <? 0); cbn [all_chars]; by rewrite H.
Qed.
Lemma pad_inert w z acc : inert_text acc = true -> inert_text (GoStr.pad w z acc) = true.
Proof. revert z acc. induction w as [|w IH]; intros z acc H; [done|]. simpl. apply IH. simpl. by rewrite mod10_inert. Qed.
Lemma zeros_inert n : inert_text (zeros n) = true.
Proof. by induction n. Qed.

Lemma format_inert low high w f : inert_text (format low high w f) = true.
Proof.
  destruct f as [[]|[]| |s m e]; try done. unfold format. destruct (shortest _) as [d x]. pose proof (of_Z_inert d) as Hd.
  revert Hd. generalize (GoStr.of_Z d). intros t Ht. rewrite all_app. apply andb_true_intro. split; [by destruct s|].
  destruct (_ || _).
  - unfold scientific. rewrite !all_app. rewrite pad_inert by done. destruct (_ <? 0); simpl; rewrite andb_true_r; unfold mantissa;
      destruct t as [|c [|c' t]]; try done; simpl in *; revert Ht; by destruct (inert c).
  - unfold fixed. destruct (_ <=? 0); [by rewrite !all_app, zeros_inert, Ht|]. destruct (_ <=? _); [by rewrite all_app, Ht, zeros_inert|].
    by rewrite !all_app, all_substring, all_drop.
Qed.

Lemma hex2_inert n : 0 <= n < 256 -> inert_text (Audit.hex2 n) = true.
Proof. intros H. assert (n ∈ seqZ 0 256) as Hin by (apply elem_of_seqZ; lia). clear H. revert n Hin. apply Forall_forall. by repeat constructor. Qed.
Lemma code_range c : 0 <= GoStr.code c < 256.
Proof. unfold GoStr.code. pose proof (N_ascii_bounded c). lia. Qed.
Lemma escape_inert c : inert_text (Audit.escape true c) = true.
Proof.
  unfold Audit.escape. repeat (destruct (_ =? _); [reflexivity|]). destruct (_ || _) eqn:E.
  - by rewrite !all_app, hex2_inert by apply code_range.
  - simpl. unfold inert. lia.
Qed.
Lemma quoted_inert s : inert_text (Audit.quoted true s) = true.
Proof.
  unfold Audit.quoted. rewrite !all_app. assert (H : inert_text (Audit.escape_all true s) = true); [|by rewrite H].
  induction s as [|c s IH]; [done|]. simpl. by rewrite all_app, escape_inert, IH.
Qed.

(** The text of a decoded value holds no angle bracket and no line break. *)
Theorem Marshal_inert a : inert_text (Marshal a) = true.
Proof.
  unfold Marshal, Audit.marshal_text.
  induction a as [| b | f | s | l IH | l IH] using Any.any_rect'; [done | by destruct b | apply format_inert | apply quoted_inert | |];
    cbn [to_json Audit.print]; rewrite !all_app, all_concat; try done.
  - induction IH as [|x l Hx _ IH]; [done|]. simpl. by rewrite Hx.
  - induction IH as [|[k v] l Hx _ IHl]; [done|]. cbn [forallb snd] in *. by rewrite IHl, !all_app, quoted_inert, Hx.
Qed.
End GoFmt.
