(* ===== verification/Redact.v ===== *)
(** * What a model may see (src/internal/ai/redact.go, prompt.go, validate.go,
    retrieval.go)

    The classification of fields decides what of a payload leaves the service:
    [Redact] masks, tokenises or refuses; [GovernedPrompt] appends what is left
    to the instruction, as JSON between two tags; [RetrieveProfile] selects the
    attributes of a profile by the same classification.

    A range over a Go map meets the entries in any order: [first_met e es]
    is the error it meets first among those of the denied entries. *)

From Stdlib Require Import Ascii.
From S2P Require Import Prelude.
From S2P Require Import GoStd.
From S2P Require Import GoMap.
From S2P Require Import GoFloat.
From S2P Require Import Sha256.
From S2P Require Import Domain.
From S2P Require Import Store.
From S2P Require Import AuditLog.
From S2P Require Import GoFmt.

Module Redact.

Record FieldClassification : Type := MkFieldClassification {
  fc_ID : string;
  fc_TenantID : string;
  fc_WorkspaceID : string;
  fc_EntityType : string;
  fc_FieldPath : string;
  fc_Classification : string;
  fc_SendToModel : string;
  fc_CreatedAt : Z
}.

Definition ErrRedactionDenied : error := Sentinel "AI payload contains a field that cannot be sent to a model".
Definition ErrProfileReadDenied : error := Sentinel "AI profile retrieval requires profiles:read".
Definition redactedValue : string := "[REDACTED]".

(** ** Redaction *)

Definition normalizeRedactionPath (path : string) : string :=
  GoStr.trim_prefix (GoStr.trim_prefix (GoMap.TrimSpace path) "attributes.") "profile.".
Abbreviation policies := (gmap string FieldClassification).
(** A later classification of the same path wins. *)
Definition policies_of (normalize : string -> string) (l : list FieldClassification) : policies :=
  fold_left (fun m c => let path := normalize (fc_FieldPath c) in if path =s "" then m else <[path := c]> m) l ∅.

(** [path[strings.LastIndex(path, ".")+1:]]. *)
Fixpoint last_field (path acc : string) : string :=
  match path with
  | EmptyString => acc
  | String c r => if bool_decide (c = "."%char) then last_field r r else last_field r acc
  end.
(** None of these names has a letter that folds to one outside ASCII. *)
Definition EqualFold (a b : string) : bool := GoMap.ToLower a =s GoMap.ToLower b.
Definition isEmailOrPhone (path : string) : bool :=
  let field := last_field path path in EqualFold field "email" || EqualFold field "phone" || EqualFold field "phone_number".
Definition tokenizeValue (value : any) : string := "[TOKEN:" +:+ Sha256.hex (Sha256.Sum256 (GoFmt.Sprint value)) +:+ "]".

(** [whole] is the value redacted without policies. *)
Definition redactField (whole : result any) (value : any) (path : string) (policy : FieldClassification) : result any :=
  if (fc_Classification policy =s "restricted") || (fc_SendToModel policy =s "deny")
  then Err (Errorf "%w: %s" [AWrap ErrRedactionDenied; AStr path])
  else if isEmailOrPhone path || (fc_SendToModel policy =s "redact") then Ok (AString redactedValue)
  else if (fc_Classification policy =s "confidential") || (fc_SendToModel policy =s "tokenize") then Ok (AString (tokenizeValue value))
  else whole.
Definition child_path (path key : string) : string := if path =s "" then key else path +:+ "." +:+ key.

(** The map built from the entries, unless one is an error. *)
Fixpoint failures {A} (l : list (string * result A)) : list error :=
  match l with
  | [] => []
  | (_, Err e) :: l' => e :: failures l'
  | (_, Ok _) :: l' => failures l'
  end.
Fixpoint successes {A} (l : list (string * result A)) : list (string * A) :=
  match l with
  | [] => []
  | (k, Ok v) :: l' => (k, v) :: successes l'
  | (_, Err _) :: l' => successes l'
  end.

Section redact.
Context (first_met : error -> list error -> error).

Definition collect (l : list (string * result any)) : result any :=
  match failures l with
  | e :: es => Err (first_met e es)
  | [] => Ok (AMap (successes l))
  end.

Fixpoint redactValue (value : any) (path : string) (ps : policies) {struct value} : result any :=
  match value with
  | AMap l =>
      collect ((fix go (l : list (string * any)) : list (string * result any) :=
                  match l with
                  | [] => []
                  | (key, child) :: l' =>
                      (key, match ps !! child_path path key with
                            | None => Ok (AString redactedValue)
                            | Some policy => redactField (redactValue child (child_path path key) ∅) child (child_path path key) policy
                            end) :: go l'
                  end) l)
  | AArray l =>
      xs ← (fix go (l : list any) : result (list any) :=
              match l with
              | [] => Ok []
              | x :: l' => y ← redactValue x path ps; ys ← go l'; Ok (y :: ys)
              end) l;
      Ok (AArray xs)
  | _ => Ok value
  end.

(** [payload] is what [json.Marshal] makes of the payload. *)
Definition Redact (payload : result json) (classifications : list FieldClassification) (purpose : string) : result any :=
  raw ← wrapw "marshal payload for redaction: %w" payload;
  if negb (Any.decodes raw) then Err (Errorf "decode payload for redaction: %w" [AWrap Json.type_error])
  else redactValue (Any.decode raw) "" (policies_of normalizeRedactionPath classifications).
End redact.

(** ** The prompt *)

Definition newline : string := Audit.chr 10.
Definition dataStart : string := "<untrusted_retrieved_data>".
Definition dataEnd : string := "</untrusted_retrieved_data>".
(** Marshalling a decoded value does not fail. *)
Definition GovernedPrompt (instruction : string) (retrieved : any) : string :=
  instruction +:+ newline +:+ newline +:+ dataStart +:+ newline +:+ GoFmt.Marshal retrieved +:+ newline +:+ dataEnd.

(** [schemas.Validate] is a JSON Schema library on the schema's and the content's texts. *)
Definition ValidateOutput (schemas_Validate : RawMessage -> string -> result unit) (content : string) (outputSchema : RawMessage)
    (domainValidator : option (string -> result unit)) : result unit :=
  _ ← (if raw_len0 outputSchema then Ok tt else wrapw "schema validation failed: %w" (schemas_Validate outputSchema content));
  match domainValidator with
  | None => Ok tt
  | Some v => wrapw "domain validation failed: %w" (v content)
  end.

(** ** Retrieval *)

Record RetrievalRef : Type := MkRetrievalRef { rr_Type : string; rr_ID : string; rr_FieldPath : string; rr_ClassificationID : string }.
Record RetrievedProfile : Type := MkRetrievedProfile {
  rp_ProfileID : string;
  rp_Attributes : list (string * any);
  rp_RetrievalRefs : list RetrievalRef
}.

Definition normalizeProfilePath (path : string) : string :=
  let path := GoStr.trim_prefix (GoMap.TrimSpace path) "attributes." in if path =s "attributes" then "" else path.
Definition fieldCanBeRetrieved (c : FieldClassification) : bool :=
  negb (fc_Classification c =s "restricted") && negb (fc_SendToModel c =s "deny").

(** What is kept of a member of the map, if anything; a nil map is [None]. *)
Fixpoint kept (value : any) (path : string) (ps : policies) {struct value} : option any :=
  match ps !! path with
  | Some policy => if fieldCanBeRetrieved policy then Some value else None
  | None =>
      match value with
      | AMap input =>
          match (fix go (l : list (string * any)) : list (string * any) :=
                   match l with
                   | [] => []
                   | (k, v) :: l' => match kept v (child_path path k) ps with Some x => (k, x) :: go l' | None => go l' end
                   end) input with
          | [] => None
          | out => Some (AMap out)
          end
      | _ => None
      end
  end.
Fixpoint kept_members (l : list (string * any)) (prefix : string) (ps : policies) : list (string * any) :=
  match l with
  | [] => []
  | (k, v) :: l' => match kept v (child_path prefix k) ps with Some x => (k, x) :: kept_members l' prefix ps | None => kept_members l' prefix ps end
  end.
Definition filterRetrievedMap (input : list (string * any)) (prefix : string) (ps : policies) : option (list (string * any)) :=
  match kept_members input prefix ps with [] => None | out => Some out end.

Definition HasScope (p : Principal) (required : string) : bool :=
  existsb (fun scope => (scope =s required) || (scope =s "*")) (p_Scopes p).

Section retrieve.
Context {W : Type} (GetProfile : Principal -> string -> M W (string * RawMessage))
  (ListFieldClassifications : Principal -> string -> M W (list FieldClassification)).

Definition field_refs (profileID : string) (l : list FieldClassification) : list RetrievalRef :=
  omap (fun c => let path := normalizeProfilePath (fc_FieldPath c) in
                 if path =s "" then None else Some (MkRetrievalRef "profile_field" profileID path (fc_ID c))) l.
Definition decode_attributes (attributes : RawMessage) : result (list (string * any)) :=
  if raw_len0 attributes then Ok [] else
  match attributes with
  | Raw JNull => Ok []
  | Raw (JObject l) => if Any.decodes (JObject l) then match Any.decode (JObject l) with AMap m => Ok m | _ => Ok [] end else Err Json.type_error
  | Raw _ => Err Json.type_error
  | _ => Err Json.syntax_error
  end.
Definition RetrieveProfile (principal : Principal) (externalID : string) : M W RetrievedProfile :=
  if negb (HasScope principal "profiles:read") then throw ErrProfileReadDenied else
  profile ← wrapM "retrieve profile: %w" (GetProfile principal externalID);
  classifications ← wrapM "retrieve profile classifications: %w" (ListFieldClassifications principal "profile");
  let ps := policies_of normalizeProfilePath classifications in
  raw ← lift (wrapw "decode profile attributes: %w" (decode_attributes profile.2));
  mret (MkRetrievedProfile profile.1 (default [] (filterRetrievedMap raw "" ps))
          (MkRetrievalRef "profile" profile.1 "" "" :: field_refs profile.1 classifications)).
End retrieve.

End Redact.
