(* ===== verification/RedactSpec.v ===== *)
(** * What redaction hides, and that data stays data

    Two payloads that differ only in what their classification hides are
    redacted to the same value; and no value can reach out of the data section
    of a prompt. *)

From Stdlib Require Import Ascii.
From S2P Require Import Prelude.
From S2P Require Import GoStd.
From S2P Require Import GoMap.
From S2P Require Import GoFloat.
From S2P Require Import Sha256.
From S2P Require Import Domain.
From S2P Require Import Store.
From S2P Require Import AuditLog.
From S2P Require Import GoFmt.
From S2P Require Import Redact.

Module RedactSpec.
Import Redact.

(** ** Data stays data *)

Lemma append_length s t : String.length (s +:+ t) = (String.length s + String.length t)%nat.
Proof. induction s as [|c s IH]; [done|]. simpl. by rewrite IH. Qed.
Lemma append_cancel_r s t u : s +:+ u = t +:+ u -> s = t.
Proof.
  revert t. induction s as [|c s IH]; intros [|c' t] H; [done| | |].
  1, 2: apply (f_equal String.length) in H; rewrite !append_length in H; simpl in H; lia.
  simpl in H. injection H as -> H. f_equal. auto.
Qed.

(** Texts that follow the last separator. *)
Lemma last_separator nl a b d1 d2 : GoFmt.inert nl = false -> GoFmt.all_chars GoFmt.inert d1 = true -> GoFmt.all_chars GoFmt.inert d2 = true ->
  a +:+ String nl d1 = b +:+ String nl d2 -> a = b /\ d1 = d2.
Proof.
  intros Hnl H1 H2. revert b. assert (Hout : forall s t, GoFmt.all_chars GoFmt.inert (s +:+ String nl t) = false).
  { intros s t. rewrite GoFmt.all_app. simpl. by rewrite Hnl, andb_false_r. }
  induction a as [|c a IH]; intros [|c' b] H; simpl in H.
  - by injection H as ->.
  - injection H as -> ->. by rewrite Hout in H1.
  - injection H as -> <-. by rewrite Hout in H2.
  - injection H as -> H. by destruct (IH _ H) as [-> ->].
Qed.

Lemma prompt_split i v :
  GovernedPrompt i v = (((((i +:+ newline) +:+ newline) +:+ dataStart) +:+ String (ascii_of_N 10) (GoFmt.Marshal v)) +:+ newline) +:+ dataEnd.
Proof. unfold GovernedPrompt. by rewrite !sapp_assoc. Qed.


(** ** Noninterference *)

(** Values alike but for what nested maps hold. *)
Inductive alike : any -> any -> Prop :=
  | alike_refl v : alike v v
  | alike_map l k : l.*1 = k.*1 -> alike (AMap l) (AMap k)
  | alike_array l k : Forall2 alike l k -> alike (AArray l) (AArray k).

(** What a classification lets two values of a field differ in. *)
Definition hidden (ps : policies) (path : string) (v v' : any) : Prop :=
  match ps !! path with
  | None => True
  | Some c =>
      fc_Classification c = "restricted" \/ fc_SendToModel c = "deny" \/ isEmailOrPhone path = true \/ fc_SendToModel c = "redact" \/
      (if (fc_Classification c =s "confidential") || (fc_SendToModel c =s "tokenize") then GoFmt.Sprint v = GoFmt.Sprint v' else alike v v')
  end.
Definition agree (ps : policies) (a b : string * any) : Prop := a.1 = b.1 /\ hidden ps a.1 a.2 b.2.

Section hides.
Context (first_met : error -> list error -> error).
Abbreviation redactV := (redactValue first_met).

Definition entry (ps : policies) (path : string) (kv : string * any) : string * result any :=
  (kv.1, match ps !! child_path path kv.1 with
         | None => Ok (AString redactedValue)
         | Some policy => redactField (redactV kv.2 (child_path path kv.1) ∅) kv.2 (child_path path kv.1) policy
         end).
Lemma redact_map l path ps : redactV (AMap l) path ps = collect first_met (entry ps path <$> l).
Proof. cbn [redactValue]. f_equal. induction l as [|[k v] l IH]; [done|]. rewrite fmap_cons. by rewrite <- IH. Qed.
Lemma redact_array l path ps : redactV (AArray l) path ps = (xs ← mapM_result (fun x => redactV x path ps) l; Ok (AArray xs)).
Proof. cbn [redactValue]. f_equal. induction l as [|x l IH]; [done|]. cbn [mapM_result]. by rewrite IH. Qed.

Lemma entries_masked l path : entry ∅ path <$> l = (fun k => (k, Ok (AString redactedValue))) <$> l.*1.
Proof. induction l as [|[k v] l IH]; [done|]. rewrite !fmap_cons, IH. by unfold entry at 1; rewrite lookup_empty. Qed.

Lemma alike_redacts v : forall v' path, alike v v' -> redactV v path ∅ = redactV v' path ∅.
Proof.
  induction v as [| | | | l IH | l IH] using Any.any_rect'; intros v' path H; inversion H as [ | l0 k E | l0 k HF ]; subst; try done.
  - rewrite !redact_array. f_equal. clear H. induction HF as [|x y l k Hxy _ IHl]; [done|].
    inversion IH as [|x0 l0 Hx IH']; subst. cbn [mapM_result]. by rewrite (Hx _ _ Hxy), (IHl IH').
  - by rewrite !redact_map, !entries_masked, E.
Qed.

Lemma agree_entry ps a b : agree ps a b -> entry ps "" a = entry ps "" b.
Proof.
  destruct a as [k v], b as [k' v']. intros [E H]. simpl in *. subst k'. unfold entry. f_equal. simpl. unfold hidden in H.
  change (child_path "" k) with k. destruct (ps !! k) as [c|]; [|done]. unfold redactField.
  destruct ((_ =s "restricted") || _) eqn:E1; [done|]. apply orb_false_iff in E1 as [E1 E2]. apply seqb_false in E1, E2.
  destruct (isEmailOrPhone k || _) eqn:E3; [done|]. apply orb_false_iff in E3 as [E3 E4]. apply seqb_false in E4.
  destruct H as [?|[?|[?|[?|H]]]]; [done|done|congruence|done|].
  destruct (_ || _); [|by apply alike_redacts]. unfold tokenizeValue. by rewrite H.
Qed.

(** C32: two payloads with the same fields, which differ only in fields that are
    not classified, or classified to be redacted, or tokenised to the same
    token, or in what is nested under an allowed field, become the same value:
    nothing else of them can reach a model. *)
Theorem Redact_hides j j' l l' classifications purpose :
  Any.decodes j = true -> Any.decodes j' = true -> Any.decode j = AMap l -> Any.decode j' = AMap l' ->
  Forall2 (agree (policies_of normalizeRedactionPath classifications)) l l' ->
  Redact first_met (Ok j) classifications purpose = Redact first_met (Ok j') classifications purpose.
Proof.
  intros D D' E E' H. unfold Redact. cbn. rewrite D, D', E, E', !redact_map. cbn. f_equal. clear D D' E E'.
  induction H as [|a b l l' Hab _ IH]; [done|]. cbn [fmap list_fmap]. f_equal; [by apply agree_entry|done].
Qed.

(** Without a classification every field is masked. *)
Lemma unclassified_masked j l purpose : Any.decodes j = true -> Any.decode j = AMap l ->
  Redact first_met (Ok j) [] purpose = Ok (AMap ((fun k => (k, AString redactedValue)) <$> l.*1)).
Proof.
  intros D E. unfold Redact. cbn. rewrite D, E, redact_map. cbn. change (policies_of normalizeRedactionPath []) with (∅ : policies).
  rewrite entries_masked. unfold collect. generalize (l.*1). clear. intros l.
  assert (H : failures ((fun k : string => (k, Ok (AString redactedValue))) <$> l) = []) by by induction l.
  rewrite H. do 2 f_equal. induction l as [|k l IH]; [done|]. cbn [fmap list_fmap successes]. f_equal. by apply IH.
Qed.
End hides.

Definition c1 (path classification send : string) : FieldClassification := MkFieldClassification "" "" "" "profile" path classification send 0.
Lemma Redact_hides_witness :
  let ps := [c1 "plan" "internal" "allow"; c1 "email" "internal" "allow"] in
  let j e x := JObject [("plan", JObject [("tier", JString x)]); ("email", JString e); ("ssn", JString x)] in
  Redact (fun e _ => e) (Ok (j "ada@example.com" "gold")) ps "" = Redact (fun e _ => e) (Ok (j "bob@example.com" "none")) ps "".
Proof.
  intros ps j. apply (Redact_hides (fun e _ => e) _ _
    [("email", AString "ada@example.com"); ("plan", AMap [("tier", AString "gold")]); ("ssn", AString "gold")]
    [("email", AString "bob@example.com"); ("plan", AMap [("tier", AString "none")]); ("ssn", AString "none")]); [reflexivity..|].
  repeat apply Forall2_cons_2; [..|apply Forall2_nil_2]; (split; [reflexivity|]); unfold hidden; cbn [fst snd].
  all: lazymatch goal with |- match ?x with _ => _ end => let y := eval vm_compute in x in change x with y end; cbn beta iota.
  - right. right. left. reflexivity.
  - do 4 right. apply alike_map. reflexivity.
  - exact I.
Defined.

(** A nested field is masked even when it is classified as allowed. *)
Lemma nested_classification_ignored :
  Redact (fun e _ => e) (Ok (JObject [("address", JObject [("city", JString "Kyiv")])]))
    [c1 "address" "public" "allow"; c1 "address.city" "public" "allow"] "" =
  Ok (AMap [("address", AMap [("city", AString redactedValue)])]).
Proof. vm_compute. reflexivity. Qed.

(** A restricted field nested under a retrievable one is retrieved. *)
Lemma restricted_field_retrieved :
  filterRetrievedMap [("address", AMap [("ssn", AString "123-45-6789")])] ""
    (policies_of normalizeProfilePath [c1 "address" "public" "allow"; c1 "address.ssn" "restricted" "deny"]) =
  Some [("address", AMap [("ssn", AString "123-45-6789")])].
Proof. vm_compute. reflexivity. Qed.

End RedactSpec.
