(* ===== verification/AuditSpec.v ===== *)
(** * What the audit chain shows, and what it does not

    Two logs that both verify and end in the same hash hold the same rows,
    unless two of their hashed texts have the same SHA-256 or a field holds
    the separator; but the stored rows differ from the hashed ones, and every
    migration re-links the table. *)

From Stdlib Require Import Ascii.
From S2P Require Import Prelude.
From S2P Require Import GoStd.
From S2P Require Import GoMap.
From S2P Require Import Sha256.
From S2P Require Import Domain.
From S2P Require Import AuditLog.

Module AuditSpec.
Import Audit.

(** ** Linked rows *)

Inductive linked : string -> list auditRow -> Prop :=
  | linked_nil p : linked p []
  | linked_cons p e l :
      au_prevHash e = p -> au_rowHash e = row_hash p (au_seq e) e -> linked (au_rowHash e) l -> linked p (e :: l).

Lemma verify_from_iff p i l : vr_Intact (verify_from p i l) = true <-> linked p l.
Proof.
  revert p i. induction l as [|e l IH]; intros p i; simpl; [split; [constructor | done]|].
  destruct (seqb (au_prevHash e) p) eqn:E1; simpl.
  - apply seqb_true in E1. destruct (seqb (au_rowHash e) _) eqn:E2; simpl.
    + apply seqb_true in E2. rewrite IH. split; [intros; constructor; congruence | by inversion 1].
    + apply seqb_false in E2. split; [done|]. inversion 1; congruence.
  - apply seqb_false in E1. split; [done|]. by inversion 1.
Qed.

Lemma linked_app p l k : linked p (l ++ k) <-> linked p l /\ linked (default p (au_rowHash <$> last l)) k.
Proof.
  revert p. induction l as [|e l IH]; intros p; simpl; [split; [split; [constructor | done] | by intros [_ ?]]|].
  rewrite last_cons. assert (E : default p (au_rowHash <$> match last l with Some y => Some y | None => Some e end) =
    default (au_rowHash e) (au_rowHash <$> last l)) by by destruct (last l).
  rewrite E. split.
  - inversion 1 as [|? ? ? E1 E2 Hl]; subst. apply IH in Hl as [H1 H2]. split; [by constructor | done].
  - intros [H1 H2]. inversion H1; subst. constructor; [done | done|]. by apply IH.
Qed.

(** What [VerifyAuditChain] checks. *)
Lemma verify_iff p d :
  vr_Intact (VerifyAuditChain p d) = true <-> linked "" (scan <$> by_seq (p_TenantID p) d).
Proof. apply verify_from_iff. Qed.

(** ** Appending *)

Lemma insert_last {A} (less : A -> A -> bool) x l :
  Forall (fun y => less x y = false) l -> GoMap.insert_by less x l = l ++ [x].
Proof. induction 1 as [|y l H _ IH]; simpl; [done|]. by rewrite H, IH. Qed.

Lemma sort_by_snoc {A} (less : A -> A -> bool) l x :
  GoMap.sort_by less (l ++ [x]) = GoMap.insert_by less x (GoMap.sort_by less l).
Proof. unfold GoMap.sort_by. by rewrite fold_left_app. Qed.

(** In sequence order the last row has the greatest number. *)
Lemma by_seq_last t d e y : last (by_seq t d) = Some e -> y ∈ by_seq t d -> av_seq y <= av_seq e.
Proof.
  intros Hl Hy. apply last_Some in Hl as [l El].
  assert (Hs : StronglySorted (GoMap.in_order less_seq) (by_seq t d)).
  { apply GoMap.sort_by_sorted; unfold less_seq; intros; lia. }
  rewrite El in Hs, Hy. clear El. induction l as [|x l IH]; simpl in *.
  - apply elem_of_cons in Hy as [->|Hy]; [lia | by apply elem_of_nil in Hy].
  - inversion Hs as [|? ? Hs' Hf]; subst. apply elem_of_cons in Hy as [->|Hy]; [|by apply IH].
    rewrite Forall_forall in Hf. specialize (Hf e). unfold GoMap.in_order, less_seq in Hf.
    assert (e ∈ l ++ [e]) by (apply elem_of_app; right; apply list_elem_of_here). specialize (Hf H). lia.
Qed.

(** An audited action extends an intact chain: if the metadata prints the same in Go and in PostgreSQL and the clock is on a microsecond, [audit] succeeds and the tenant's chain still verifies, one row longer; other tenants' chains are untouched. *)
Theorem audit_extends uuid_ok p action rt ri metadata d q :
  vr_Intact (VerifyAuditChain p d) = true -> marshal_text metadata = jsonb_text metadata -> ad_clock d mod 1000 = 0 ->
  exists d', audit uuid_ok p action rt ri metadata d = (Ok tt, d') /\
    vr_Intact (VerifyAuditChain p d') = true /\
    length (by_seq (p_TenantID p) d') = S (length (by_seq (p_TenantID p) d)) /\
    (p_TenantID q <> p_TenantID p -> VerifyAuditChain q d' = VerifyAuditChain q d).
Proof.
  intros Hv Hm Hc. unfold audit. destruct (match last _ with Some e => _ | None => _ end) as [lastSeq lastHash] eqn:El.
  set (row := new_row _ _ _ _ _ _ _ _ _ _). eexists. split; [reflexivity|]. set (d' := MkADB _ _ _).
  assert (Hrow : av_tenant row = p_TenantID p) by done.
  assert (E : by_seq (p_TenantID p) d' = by_seq (p_TenantID p) d ++ [row]).
  { unfold by_seq at 1, tenant_rows. simpl. rewrite filter_app, filter_cons_True, filter_nil by by rewrite Hrow, seqb_refl.
    rewrite sort_by_snoc. apply insert_last, Forall_forall. intros y Hy. fold (tenant_rows (p_TenantID p) d) in Hy.
    fold (by_seq (p_TenantID p) d) in Hy. unfold less_seq, row. simpl.
    destruct (last (by_seq (p_TenantID p) d)) as [e|] eqn:Ele.
    - injection El as <- _. pose proof (by_seq_last _ _ _ _ Ele Hy). lia.
    - apply last_None in Ele. rewrite Ele in Hy. by apply elem_of_nil in Hy. }
  split; [|split].
  - apply verify_iff. rewrite E, fmap_app. apply linked_app. split; [by apply verify_iff|].
    rewrite fmap_last. constructor; [| |constructor].
    + simpl. destruct (last (by_seq (p_TenantID p) d)) as [e|]; simpl in *; by injection El as _ <-.
    + unfold row, scan, row_hash, new_row, microseconds. simpl. rewrite Hc, Z.sub_0_r, Hm. f_equal.
      destruct (last (by_seq (p_TenantID p) d)) as [e|]; simpl in *; by injection El as _ <-.
  - rewrite E, length_app. simpl. lia.
  - intros Hq. unfold VerifyAuditChain, by_seq, tenant_rows. simpl.
    rewrite filter_app, filter_cons_False, filter_nil, app_nil_r; [done|]. rewrite Hrow. by rewrite seqb_true.
Qed.

(** ** Tampering *)

Definition bar : Ascii.ascii := "|"%char.
Fixpoint no_bar (s : string) : bool :=
  match s with EmptyString => true | String c s' => negb (bool_decide (c = bar)) && no_bar s' end.

Lemma no_bar_hex l : Forall (fun b => 0 <= b < 256) l -> no_bar (Sha256.hex l) = true.
Proof.
  assert (Hd : forall d, 0 <= d < 16 -> bool_decide (Sha256.hex_digit d = bar) = false).
  { intros d Hd. apply bool_decide_eq_false. unfold Sha256.hex_digit, bar. intros E.
    apply (f_equal Ascii.N_of_ascii) in E. rewrite Ascii.N_ascii_embedding in E; [|destruct (d <? 10); lia].
    vm_compute (Ascii.N_of_ascii _) in E. destruct (d <? 10) eqn:?; lia. }
  induction 1 as [|b l Hb Hl IH]; [done|].
  change (no_bar (Sha256.hex (b :: l))) with (negb (bool_decide (Sha256.hex_digit (b / 16) = bar)) &&
    (negb (bool_decide (Sha256.hex_digit (b mod 16) = bar)) && no_bar (Sha256.hex l))).
  rewrite IH, !Hd; [done | | ].
  - apply Z.mod_pos_bound. lia.
  - split; [apply Z.div_pos; lia | apply Z.div_lt_upper_bound; lia].
Qed.

Lemma be_range n x : Forall (fun b => 0 <= b < 256) (Sha256.be n x).
Proof.
  revert x. induction n as [|n IH]; intros x; simpl; [constructor|]. apply Forall_app. split; [apply IH|].
  repeat constructor; change 255 with (Z.ones 8); rewrite Z.land_ones by lia; apply Z.mod_pos_bound; lia.
Qed.

Lemma Sum256_range s : Forall (fun b => 0 <= b < 256) (Sha256.Sum256 s).
Proof.
  unfold Sha256.Sum256. generalize (fold_left Sha256.block (Sha256.chunks 64 (length (Sha256.padded (Sha256.bytes s)))
    (Sha256.padded (Sha256.bytes s))) Sha256.H0) as h. intros h.
  induction h as [|x h IH]; [constructor|]. apply Forall_app. split; [apply be_range | exact IH].
Qed.

(** The part before the first separator determines the text, and conversely. *)
Lemma first_field p p' r r' :
  no_bar p = true -> no_bar p' = true -> p +:+ String bar r = p' +:+ String bar r' -> p = p'.
Proof.
  revert p'. induction p as [|c p IH]; intros [|c' p']; simpl; intros Hp Hp' E; [done|..].
  - injection E as <- _. discriminate Hp'.
  - injection E as -> _. discriminate Hp.
  - injection E as -> E. apply andb_prop in Hp as [_ Hp], Hp' as [_ Hp']. f_equal. by apply IH.
Qed.

Definition text (e : auditRow) : string := row_text (au_prevHash e) (au_seq e) e.
(** Two different hashed texts of the two logs with the same SHA-256. *)
Definition collide (l l' : list auditRow) : Prop :=
  exists e e', e ∈ l /\ e' ∈ l' /\ text e <> text e' /\ Sha256.hex (Sha256.Sum256 (text e)) = Sha256.hex (Sha256.Sum256 (text e')).
Lemma collide_sub l l' k k' : l ⊆ k -> l' ⊆ k' -> collide l l' -> collide k k'.
Proof. intros H H' (e & e' & He & He' & Hc). exists e, e'. split; [by apply H|]. split; [by apply H' | done]. Qed.
Definition last_hash (l : list auditRow) : string := default "" (au_rowHash <$> last l).

Lemma last_hash_no_bar l : linked "" l -> no_bar (last_hash l) = true.
Proof.
  destruct l as [|e l _] using rev_ind; [done|]. rewrite linked_app. intros [_ H]. unfold last_hash. rewrite last_snoc. simpl.
  inversion H as [|? ? ? _ E _]; subst. rewrite E. apply no_bar_hex, Sum256_range.
Qed.

Lemma text_prev e e' :
  no_bar (au_prevHash e) = true -> no_bar (au_prevHash e') = true -> text e = text e' -> au_prevHash e = au_prevHash e'.
Proof. intros H H' E. by apply (first_field _ _ _ _ H H' E). Qed.

(** Two chains of the same length that both verify and end in the same hash
    agree on the hashed text of every row, unless two of their texts collide. *)
Lemma tampering_collides l l' :
  linked "" l -> linked "" l' -> length l = length l' -> last_hash l = last_hash l' ->
  collide l l' \/ Forall2 (fun e e' => text e = text e' /\ au_rowHash e = au_rowHash e') l l'.
Proof.
  revert l'. induction l as [|e l IH] using rev_ind; intros l' Hl Hl' Hn Hh.
  { destruct l'; [right; constructor | discriminate]. }
  destruct l' as [|e' l' _] using rev_ind; [rewrite length_app in Hn; simpl in Hn; lia|].
  rewrite !length_app in Hn. simpl in Hn. unfold last_hash in Hh. rewrite !last_snoc in Hh. simpl in Hh.
  apply linked_app in Hl as [Hl He], Hl' as [Hl' He'].
  inversion He as [|? ? ? Ep Er _]; subst. inversion He' as [|? ? ? Ep' Er' _]; subst.
  fold (last_hash l) in Ep, Er. fold (last_hash l') in Ep', Er'.
  destruct (decide (text e = text e')) as [Et|Et].
  - assert (Eprev : last_hash l = last_hash l').
    { rewrite <- Ep, <- Ep'. apply text_prev; [| |done]; rewrite ?Ep, ?Ep'; by apply last_hash_no_bar. }
    destruct (IH l' Hl Hl') as [Hc|Hf]; [lia | done | left; eapply collide_sub; [| |exact Hc]; set_solver |].
    right. apply Forall2_app; [done|]. by repeat constructor.
  - left. exists e, e'. split; [set_solver|]. split; [set_solver|]. split; [done|].
    rewrite Er, Er' in Hh. rewrite <- Ep, <- Ep' in Hh. exact Hh.
Qed.

(** *** The fields behind a text *)

Lemma no_bar_app s s' : no_bar (s +:+ s') = no_bar s && no_bar s'.
Proof. induction s as [|c s IH]; simpl; [done|]. by rewrite IH, andb_assoc. Qed.
Lemma no_bar_digit z : bool_decide (GoStr.digit_char (z mod 10) = bar) = false.
Proof.
  apply bool_decide_eq_false. unfold GoStr.digit_char, bar. pose proof (Z.mod_pos_bound z 10 ltac:(lia)). intros E.
  apply (f_equal Ascii.N_of_ascii) in E. rewrite Ascii.N_ascii_embedding in E by lia. vm_compute (Ascii.N_of_ascii _) in E. lia.
Qed.
Lemma no_bar_pad w z acc : no_bar (GoStr.pad w z acc) = no_bar acc.
Proof. revert z acc. induction w as [|w IH]; intros; [done|]. cbn [GoStr.pad]. rewrite IH. cbn [no_bar]. by rewrite no_bar_digit. Qed.
Lemma no_bar_dec n z acc : no_bar (GoStr.dec_go n z acc) = no_bar acc.
Proof.
  revert z acc. induction n as [|n IH]; intros; [done|]. cbn [GoStr.dec_go].
  destruct (z / 10 =? 0); [|rewrite IH]; cbn [no_bar]; by rewrite no_bar_digit.
Qed.
Lemma no_bar_of_Z z : no_bar (GoStr.of_Z z) = true.
Proof. unfold GoStr.of_Z. destruct (z <? 0); [cbn [no_bar]|]; by rewrite no_bar_dec. Qed.
Lemma no_bar_frac n w f : no_bar (strip_zeros n w f) = true.
Proof.
  revert w f. induction n as [|n IH]; intros; [done|]. cbn [strip_zeros]. destruct (f mod 10 =? 0); [apply IH|].
  by rewrite no_bar_app, no_bar_pad.
Qed.
Lemma no_bar_time t : no_bar (RFC3339Nano t) = true.
Proof.
  unfold RFC3339Nano. destruct (Time.civil_from_days _) as [[y m] d]. by rewrite !no_bar_app, !no_bar_pad, no_bar_frac.
Qed.

(** The part after the last separator. *)
Lemma last_field m m' t t' :
  no_bar t = true -> no_bar t' = true -> m +:+ String bar t = m' +:+ String bar t' -> m = m' /\ t = t'.
Proof.
  assert (Hno : forall m t, no_bar (m +:+ String bar t) = false).
  { intros x y. rewrite no_bar_app. cbn [no_bar]. rewrite bool_decide_eq_true_2 by done. by rewrite andb_false_r. }
  revert m'. induction m as [|c m IH]; intros [|c' m']; simpl; intros Ht Ht' E.
  - by injection E.
  - injection E as _ E. subst t. by rewrite Hno in Ht.
  - injection E as _ E. subst t'. by rewrite Hno in Ht'.
  - injection E as -> E. destruct (IH m' Ht Ht' E) as [-> ->]. done.
Qed.
Lemma sapp_cancel x a b : x +:+ a = x +:+ b -> a = b.
Proof. induction x as [|c x IH]; simpl; [done|]. intros E. injection E as E. auto. Qed.
(** The parts before: every one without the separator. *)
Lemma fields_inj l l' r r' : Forall (fun s => no_bar s = true) l -> Forall (fun s => no_bar s = true) l' -> length l = length l' ->
  String.concat "|" (l ++ [r]) = String.concat "|" (l' ++ [r']) -> l = l' /\ r = r'.
Proof.
  assert (Hc : forall x k, String.concat "|" (x :: k) = match k with [] => x | _ :: _ => x +:+ String bar (String.concat "|" k) end).
  { intros x [|y k]; [done|]. reflexivity. }
  revert l'. induction l as [|x l IH]; intros [|x' l'] Hl Hl' Hn E; try discriminate; [by split|].
  apply Forall_cons in Hl as [Hx Hl], Hl' as [Hx' Hl']. injection Hn as Hn. rewrite <- !app_comm_cons, !Hc in E.
  destruct (l ++ [r]) as [|y k] eqn:E1; [by destruct l|]. destruct (l' ++ [r']) as [|y' k'] eqn:E2; [by destruct l'|].
  rewrite <- E1, <- E2 in E. pose proof (first_field _ _ _ _ Hx Hx' E) as ->. apply sapp_cancel in E. injection E as E.
  rewrite <- E1 in IH. by destruct (IH l' Hl Hl' Hn E) as [-> ->].
Qed.

(** The columns of a row before the metadata, as they are hashed. *)
Definition columns (e : AuditEvent) : list string :=
  [av_prevHash e; GoStr.of_Z (av_seq e); av_id e; av_tenant e; av_workspace e; av_app e; av_actorType e; av_actorID e; av_action e;
   av_resourceType e; av_resourceID e].
(** No text column holds the separator. *)
Definition plain (e : AuditEvent) : Prop :=
  Forall (fun s => no_bar s = true) [av_id e; av_tenant e; av_workspace e; av_app e; av_actorType e; av_actorID e; av_action e;
    av_resourceType e; av_resourceID e].
(** The same record: every column, the metadata as PostgreSQL prints it and the
    time as the hash has it. *)
Definition same_record (e e' : AuditEvent) : Prop :=
  columns e = columns e' /\ jsonb_text (av_metadata e) = jsonb_text (av_metadata e') /\
  RFC3339Nano (av_occurredAt e) = RFC3339Nano (av_occurredAt e') /\ av_rowHash e = av_rowHash e'.

Lemma text_fields e : text (scan e) =
  String.concat "|" (columns e ++ [jsonb_text (av_metadata e) +:+ String bar (RFC3339Nano (av_occurredAt e))]).
Proof. reflexivity. Qed.
Lemma text_same_record e e' :
  no_bar (av_prevHash e) = true -> no_bar (av_prevHash e') = true -> plain e -> plain e' ->
  text (scan e) = text (scan e') -> av_rowHash e = av_rowHash e' -> same_record e e'.
Proof.
  intros Hp Hp' Hf Hf' E Eh. rewrite !text_fields in E. apply fields_inj in E as [Ec Er]; [| | |done].
  - apply last_field in Er as [Em Et]; [by repeat split | apply no_bar_time..].
  - repeat (apply Forall_cons; split; [done || apply no_bar_of_Z|]). exact Hf.
  - repeat (apply Forall_cons; split; [done || apply no_bar_of_Z|]). exact Hf'.
Qed.

Lemma linked_prev_no_bar l e : linked "" l -> e ∈ l -> no_bar (au_prevHash e) = true.
Proof.
  intros Hl He. apply list_elem_of_split in He as (l1 & l2 & ->). apply linked_app in Hl as [H1 H2].
  inversion H2 as [|? ? ? Ep _ _]; subst. rewrite Ep. by apply last_hash_no_bar.
Qed.

(** C19: Tamper evidence: two states of the audit log in which a tenant's
    chain verifies, with as many rows and the same last hash, hold the same
    rows -- sequence number, id, actor, action, resource, metadata, time and
    hashes, in the same order -- unless a row of the one and a row of the
    other have different hashed texts with the same SHA-256.  It holds of rows
    whose text columns do not contain the separator "|"; moving it from one
    column to the next keeps the hash ([separator_moves]). *)
Theorem tamper_evident p d d' :
  let rows := by_seq (p_TenantID p) d in
  let rows' := by_seq (p_TenantID p) d' in
  vr_Intact (VerifyAuditChain p d) = true -> vr_Intact (VerifyAuditChain p d') = true ->
  length rows = length rows' -> av_rowHash <$> last rows = av_rowHash <$> last rows' ->
  Forall plain rows -> Forall plain rows' ->
  collide (scan <$> rows) (scan <$> rows') \/ Forall2 same_record rows rows'.
Proof.
  intros rows rows' Hv Hv' Hn Hh Hp Hp'. apply verify_iff in Hv, Hv'. fold rows in Hv. fold rows' in Hv'.
  destruct (tampering_collides _ _ Hv Hv') as [Hc|Hf]; [by rewrite !length_fmap| |by left|right].
  - assert (Hx : forall k, last_hash (scan <$> k) = default "" (av_rowHash <$> last k)).
    { intros k. unfold last_hash. rewrite fmap_last. by destruct (last k). }
    by rewrite !Hx, Hh.
  - apply Forall2_fmap in Hf. apply Forall2_same_length_lookup_2; [done|]. intros i e e' He He'.
    destruct (Forall2_lookup_lr _ _ _ _ _ _ Hf He He') as [Et Eh].
    apply text_same_record; [| |exact (Forall_lookup_1 plain _ _ _ Hp He)|exact (Forall_lookup_1 plain _ _ _ Hp' He')|done|done].
    + apply (linked_prev_no_bar _ (scan e) Hv). apply list_elem_of_fmap_2. by eapply list_elem_of_lookup_2.
    + apply (linked_prev_no_bar _ (scan e') Hv'). apply list_elem_of_fmap_2. by eapply list_elem_of_lookup_2.
Qed.

(** ** The stored row is not the hashed one *)

Definition demo_principal : Principal := MkPrincipal "tenant" "workspace" "app" "" "user" "" [].
Definition any_uuid (s : string) : bool := negb (s =s "").
Definition audited (metadata : json) (clock : Z) : ADB :=
  (audit any_uuid demo_principal "events.accept" "event_batch" "" metadata (MkADB [] ∅ clock)).2.

(** An untouched log reads as tampered: PostgreSQL prints a [jsonb] object with spaces and keeps microseconds, so the first row with a metadata member, or with a clock finer than a microsecond, already fails its hash. *)
Theorem untouched_log_is_tampered :
  vr_Reason (VerifyAuditChain demo_principal (audited (JObject [("count", JNumber "1")]) 1767225600000000000))
    = "row_hash mismatch at seq 1" /\
  vr_Reason (VerifyAuditChain demo_principal (audited (JObject []) 1767225600000000001)) = "row_hash mismatch at seq 1" /\
  vr_Intact (VerifyAuditChain demo_principal (audited (JObject []) 1767225600000000000)) = true.
Proof. vm_compute. repeat split. Qed.


(** The separator occurs in fields: moving it between two of them keeps the hash. *)
Lemma separator_moves prev seq id t w app actorType actorID a b rt ri md time :
  ComputeAuditRowHash prev id t w app actorType actorID (a +:+ "|" +:+ b) rt ri md time seq =
  ComputeAuditRowHash prev id t w app actorType actorID a (b +:+ "|" +:+ rt) ri md time seq.
Proof. unfold ComputeAuditRowHash, canonical. cbn [String.concat]. by rewrite !sapp_assoc. Qed.

(** ** Backfill *)

(** The chain fields that [backfill_items] computes. *)
Fixpoint chained (prev : string) (seq : Z) (items : list AuditEvent) : list AuditEvent :=
  match items with
  | [] => []
  | e :: items' => let h := row_hash prev (seq + 1) (scan e) in set_chain (seq + 1) prev h e :: chained h (seq + 1) items'
  end.

(** The rows with some of them replaced, by id. *)
Definition apply (cs : list AuditEvent) (e : AuditEvent) : AuditEvent :=
  default e (find_first (fun c => av_id c =s av_id e) cs).

Lemma chained_ids prev seq items : av_id <$> chained prev seq items = av_id <$> items.
Proof. revert prev seq. induction items as [|e items IH]; intros; simpl; [done|]. by rewrite IH. Qed.

Lemma chained_linked prev seq items : linked prev (scan <$> chained prev seq items).
Proof. revert prev seq. induction items as [|e items IH]; intros; simpl; [constructor|]. constructor; [done | done | apply IH]. Qed.

Lemma chained_sorted prev seq items :
  StronglySorted (GoMap.in_order less_seq) (chained prev seq items) /\ Forall (fun e => seq < av_seq e) (chained prev seq items).
Proof.
  revert prev seq. induction items as [|e items IH]; intros; simpl; [split; constructor|].
  destruct (IH (row_hash prev (seq + 1) (scan e)) (seq + 1)) as [H1 H2]. split; constructor; simpl; [done | | lia |];
    (eapply Forall_impl; [exact H2|]); unfold GoMap.in_order, less_seq; simpl; intros; lia.
Qed.

Lemma apply_none cs e : av_id e ∉ av_id <$> cs -> apply cs e = e.
Proof.
  intros H. unfold apply. replace (find_first _ cs) with (@None AuditEvent); [done|]. symmetry.
  apply find_first_None, Forall_forall. intros c Hc. apply seqb_false. intros E. apply H. rewrite <- E. by apply list_elem_of_fmap_2.
Qed.

Lemma apply_id cs e : av_id (apply cs e) = av_id e.
Proof.
  unfold apply. destruct (find_first _ cs) as [c|] eqn:E; [|done]. apply find_first_Some in E as [_ E]. by apply seqb_true in E.
Qed.

Definition ids_unique (d : ADB) : Prop := NoDup (av_id <$> ad_rows d).

Lemma row_of_id d e e' : ids_unique d -> e ∈ ad_rows d -> e' ∈ ad_rows d -> av_id e = av_id e' -> e = e'.
Proof.
  unfold ids_unique. induction (ad_rows d) as [|x l IH]; intros Hn He He' E; [by apply elem_of_nil in He|].
  apply NoDup_cons in Hn as [Hx Hn].
  apply elem_of_cons in He as [->|He], He' as [->|He']; [done | | | by apply IH]; exfalso; apply Hx;
    [rewrite E | rewrite <- E]; by apply list_elem_of_fmap_2.
Qed.

Lemma update_row_rows id seq prev h d d' e :
  ids_unique d -> e ∈ ad_rows d -> av_id e = id -> update_row id seq prev h d = (Ok tt, d') ->
  ad_rows d' = apply [set_chain seq prev h e] <$> ad_rows d.
Proof.
  intros Hn He <- H. unfold update_row in H. destruct (find_first _ _) as [old|] eqn:Ef.
  - destruct (existsb _ _); [discriminate|]. injection H as <-. simpl. apply list_fmap_ext. intros _ x Hx%list_elem_of_lookup_2.
    unfold apply. simpl. unfold seqb.
    destruct (decide (av_id x = av_id e)) as [E|E].
    + rewrite !bool_decide_eq_true_2 by done. simpl. by rewrite (row_of_id d x e Hn Hx He E).
    + by rewrite !bool_decide_eq_false_2 by congruence.
  - rewrite find_first_None in Ef. rewrite Forall_forall in Ef. specialize (Ef e He). by rewrite seqb_refl in Ef.
Qed.

Lemma apply_cons c cs e : av_id c ∉ av_id <$> cs -> apply cs (apply [c] e) = apply (c :: cs) e.
Proof.
  intros Hc. unfold apply at 2 3. simpl. destruct (av_id c =s av_id e); simpl; [by apply apply_none | done].
Qed.

Lemma map_apply_ids cs (l : list AuditEvent) : av_id <$> (apply cs <$> l) = av_id <$> l.
Proof. rewrite <- list_fmap_compose. apply list_fmap_ext. intros. apply apply_id. Qed.

Lemma backfill_items_rows items prev seq d d' :
  ids_unique d -> NoDup (av_id <$> items) -> (forall e, e ∈ items -> e ∈ ad_rows d) ->
  backfill_items items prev seq d = (Ok tt, d') -> ad_rows d' = apply (chained prev seq items) <$> ad_rows d.
Proof.
  revert prev seq d. induction items as [|e items IH]; intros prev seq d Hn Hi Hin H.
  { injection H as <-. simpl. symmetry. rewrite <- (list_fmap_id (ad_rows d)) at 2. by apply list_fmap_ext. }
  cbn [backfill_items] in H. set (h := row_hash prev (seq + 1) (scan e)) in H.
  apply NoDup_cons in Hi as [He Hi]. pose proof (Hin e (list_elem_of_here _ _)) as Hmem.
  apply bindM_Ok in H as ([] & d1 & H1 & H).
  assert (E1 : ad_rows d1 = apply [set_chain (seq + 1) prev h e] <$> ad_rows d).
  { destruct (_ || _) eqn:Eu; [apply wrapM_Ok in H1; by apply (update_row_rows (av_id e) _ _ _ d)|]. injection H1 as <-.
    apply orb_false_iff in Eu as [[Eq Ep]%orb_false_iff Eh]. apply negb_false_iff in Eq, Ep, Eh.
    apply Z.eqb_eq in Eq. apply seqb_true in Ep, Eh.
    assert (Ee : set_chain (seq + 1) prev h e = e) by (rewrite <- Eq, <- Ep, <- Eh; by destruct e). rewrite Ee.
    rewrite <- (list_fmap_id (ad_rows d)) at 1. apply list_fmap_ext. intros _ x Hx%list_elem_of_lookup_2. unfold apply. simpl.
    destruct (seqb (av_id e) (av_id x)) eqn:Ex; [|done]. apply seqb_true in Ex. simpl. symmetry. by apply (row_of_id d). }
  assert (Hn1 : ids_unique d1) by (unfold ids_unique; by rewrite E1, map_apply_ids).
  assert (Hin1 : forall x, x ∈ items -> x ∈ ad_rows d1).
  { intros x Hx. rewrite E1. apply list_elem_of_fmap. exists x. split; [|apply Hin; by apply list_elem_of_further].
    symmetry. apply apply_none. simpl. intros [Ex|Ex%elem_of_nil]%elem_of_cons; [|done]. apply He. rewrite <- Ex.
    by apply list_elem_of_fmap_2. }
  rewrite (IH h (seq + 1) d1 Hn1 Hi Hin1 H), E1, <- list_fmap_compose. simpl. fold h. apply list_fmap_ext. intros _ x _.
  apply apply_cons. by rewrite chained_ids.
Qed.

Lemma chained_seq_inj prev seq items x y :
  x ∈ chained prev seq items -> y ∈ chained prev seq items -> av_seq x = av_seq y -> x = y.
Proof.
  revert prev seq. induction items as [|e items IH]; intros prev seq; simpl; [by intros ?%elem_of_nil|].
  pose proof (proj2 (chained_sorted (row_hash prev (seq + 1) (scan e)) (seq + 1) items)) as Hf. rewrite Forall_forall in Hf.
  intros [->|Hx]%elem_of_cons [->|Hy]%elem_of_cons E; [done | | | by apply (IH _ _ Hx Hy)]; exfalso;
    [specialize (Hf y Hy) | specialize (Hf x Hx)]; simpl in *; lia.
Qed.

Lemma chained_tenant prev seq items t : Forall (fun e => av_tenant e = t) items ->
  Forall (fun e => av_tenant e = t) (chained prev seq items).
Proof. intros H. revert prev seq. induction H; intros; simpl; constructor; auto. Qed.

Lemma apply_chained prev seq items : NoDup (av_id <$> items) -> apply (chained prev seq items) <$> items = chained prev seq items.
Proof.
  revert prev seq. induction items as [|e items IH]; intros prev seq Hn; [done|]. apply NoDup_cons in Hn as [He Hn]. simpl.
  set (h := row_hash prev (seq + 1) (scan e)). f_equal.
  - unfold apply. simpl. by rewrite seqb_refl.
  - rewrite <- (IH h (seq + 1) Hn) at 2. apply list_fmap_ext. intros _ x Hx%list_elem_of_lookup_2. unfold apply at 1. simpl.
    destruct (seqb (av_id e) (av_id x)) eqn:E; [|done]. apply seqb_true in E. exfalso. apply He. rewrite E.
    by apply list_elem_of_fmap_2.
Qed.

Definition verifies (t : string) (d : ADB) : Prop := linked "" (scan <$> by_seq t d).

Section tenant.
Context (t : string) (d : ADB).
Hypothesis (Hn : ids_unique d).
Let items := GoMap.sort_by less_time (tenant_rows t d).
Let cs := chained "" 0 items.

Lemma items_perm : items ≡ₚ tenant_rows t d.
Proof. apply GoMap.sort_by_perm. Qed.

Lemma items_elem e : e ∈ items <-> e ∈ ad_rows d /\ av_tenant e = t.
Proof. rewrite items_perm. unfold tenant_rows. rewrite list_elem_of_filter, seqb_true. tauto. Qed.

Lemma items_NoDup : NoDup (av_id <$> items).
Proof.
  rewrite items_perm. unfold ids_unique in Hn. clear cs items. unfold tenant_rows.
  induction (ad_rows d) as [|x l IH]; [constructor|].
  apply NoDup_cons in Hn as [Hx Hn']. rewrite filter_cons. destruct (decide _); [|by apply IH].
  rewrite fmap_cons. constructor; [|by apply IH].
  intros (y & Ey & [_ Hy]%list_elem_of_filter)%list_elem_of_fmap. apply Hx. rewrite Ey. by apply list_elem_of_fmap_2.
Qed.

(** The rewriting of the table touches the tenant's rows only. *)
Lemma apply_rows e : e ∈ ad_rows d -> (av_tenant e <> t -> apply cs e = e) /\ av_tenant (apply cs e) = av_tenant e.
Proof.
  intros He. assert (Hall : Forall (fun e => av_tenant e = t) cs).
  { apply chained_tenant, Forall_forall. intros x Hx. by apply items_elem. }
  rewrite Forall_forall in Hall. destruct (decide (av_tenant e = t)) as [Et|Et].
  - split; [done|]. rewrite Et. apply Hall. unfold cs at 2. rewrite <- apply_chained by apply items_NoDup.
    apply list_elem_of_fmap_2. by apply items_elem.
  - assert (Ea : apply cs e = e); [|by rewrite Ea]. apply apply_none. unfold cs. rewrite chained_ids.
    intros (x & Ex & Hx)%list_elem_of_fmap. apply items_elem in Hx as [Hx <-]. apply Et. f_equal. by apply (row_of_id d).
Qed.

Lemma apply_tenant_rows d' u : ad_rows d' = apply cs <$> ad_rows d -> tenant_rows u d' = apply cs <$> tenant_rows u d.
Proof.
  intros Hr. unfold tenant_rows. rewrite Hr. pose proof apply_rows as Ha. revert Ha. clear.
  induction (ad_rows d) as [|x l IH]; intros Ha; [done|].
  rewrite fmap_cons, !filter_cons. destruct (Ha x (list_elem_of_here _ _)) as (_ & Ex). rewrite Ex, IH; [by destruct (decide _)|].
  intros e He. apply Ha. by apply list_elem_of_further.
Qed.

(** In sequence order the rewritten rows are the computed chain. *)
Lemma by_seq_chained d' : ad_rows d' = apply cs <$> ad_rows d -> by_seq t d' = cs.
Proof.
  intros Hr. assert (Hp : tenant_rows t d' ≡ₚ cs).
  { rewrite (apply_tenant_rows d' t Hr), <- items_perm. unfold cs. by rewrite apply_chained by apply items_NoDup. }
  apply (GoMap.sorted_unique less_seq).
  - unfold less_seq; intros; lia.
  - intros x y Hx Hy H1 H2. unfold by_seq in Hx, Hy. rewrite GoMap.sort_by_perm, Hp in Hx, Hy.
    apply (chained_seq_inj "" 0 items); [done | done|]. unfold less_seq in *. lia.
  - apply GoMap.sort_by_sorted; unfold less_seq; intros; lia.
  - apply chained_sorted.
  - unfold by_seq. by rewrite GoMap.sort_by_perm, Hp.
Qed.

Lemma backfill_tenant_verifies d' :
  backfill_tenant t d = (Ok tt, d') ->
  ids_unique d' /\ verifies t d' /\ (av_tenant <$> ad_rows d' = av_tenant <$> ad_rows d) /\
  (forall u, u <> t -> tenant_rows u d' = tenant_rows u d).
Proof.
  intros H. assert (Hr : ad_rows d' = apply cs <$> ad_rows d).
  { apply (backfill_items_rows items "" 0 d d'); [done | apply items_NoDup | intros; by apply items_elem | done]. }
  split; [unfold ids_unique; by rewrite Hr, map_apply_ids|]. split; [|split].
  - unfold verifies. rewrite (by_seq_chained d' Hr). apply chained_linked.
  - rewrite Hr, <- list_fmap_compose. apply list_fmap_ext. intros _ x Hx%list_elem_of_lookup_2. by apply apply_rows.
  - intros u Hu. rewrite (apply_tenant_rows d' u Hr). rewrite <- (list_fmap_id (tenant_rows u d)) at 2. apply list_fmap_ext.
    intros _ x [Hx1 Hx2]%list_elem_of_lookup_2%list_elem_of_filter. apply apply_rows; [done|].
    apply seqb_true in Hx1. intros Et. apply Hu. rewrite <- Hx1. exact Et.
Qed.

End tenant.

(** The chain protects nothing across a migration run: [BackfillAuditChain], which every [Migrate] ends with, re-links whatever rows it finds, so if it succeeds every tenant's log verifies, altered and deleted rows included. *)
Theorem backfill_launders d d' :
  ids_unique d -> BackfillAuditChain d = (Ok tt, d') -> forall p, vr_Intact (VerifyAuditChain p d') = true.
Proof.
  intros Hn H p. apply verify_iff. set (t := p_TenantID p).
  assert (Ht : (av_tenant <$> ad_rows d' = av_tenant <$> ad_rows d) /\ forall u, u ∈ tenants d -> verifies u d').
  { destruct (iterM_all backfill_tenant (fun x => ids_unique x /\ av_tenant <$> ad_rows x = av_tenant <$> ad_rows d) verifies
      (tenants d) d d') as [[_ H1] H2]; [|done|done|done].
    intros u x x1 _ [Hx Ex] E. destruct (backfill_tenant_verifies u x Hx x1 E) as (H1 & H2 & H3 & H4).
    split; [split; [done | by rewrite H3]|]. split; [done|]. intros v _ Hv. unfold verifies, by_seq in *.
    destruct (decide (v = u)) as [->|Hne]; [done|]. by rewrite H4. }
  destruct Ht as [Ht Hv]. destruct (decide (t ∈ tenants d)) as [Hin|Hout]; [by apply Hv|].
  replace (by_seq t d') with (@nil AuditEvent); [constructor|]. unfold by_seq. symmetry.
  replace (tenant_rows t d') with (@nil AuditEvent); [done|]. symmetry. unfold tenant_rows.
  destruct (filter _ _) as [|e l] eqn:E; [done|]. exfalso. apply Hout. unfold tenants. apply elem_of_remove_dups. rewrite <- Ht.
  assert (He : e ∈ e :: l) by apply list_elem_of_here. rewrite <- E in He. apply list_elem_of_filter in He as [He1 He2].
  apply seqb_true in He1. rewrite <- He1. by apply list_elem_of_fmap_2.
Qed.

(** ** Witnesses *)

Lemma audit_extends_witness :
  vr_Intact (VerifyAuditChain demo_principal (MkADB [] ∅ 1000)) = true /\
  exists d', audit any_uuid demo_principal "a" "b" "c" (JObject []) (MkADB [] ∅ 1000) = (Ok tt, d') /\
    vr_Intact (VerifyAuditChain demo_principal d') = true.
Proof.
  split; [vm_compute; reflexivity|].
  destruct (audit_extends any_uuid demo_principal "a" "b" "c" (JObject []) (MkADB [] ∅ 1000) demo_principal)
    as (d' & E & Hv & _); [vm_compute; reflexivity | vm_compute; reflexivity | vm_compute; reflexivity |].
  exists d'. exact (conj E Hv).
Defined.

(** The log, and the log after another tenant's row was added. *)
Definition demo_log : ADB := audited (JObject []) 1000.
Definition other_principal : Principal := MkPrincipal "other" "workspace" "app" "" "user" "" [].
Definition grown_log : ADB := (audit any_uuid other_principal "role.delete" "role" "r" (JObject []) demo_log).2.
Lemma tamper_evident_witness :
  vr_Intact (VerifyAuditChain demo_principal grown_log) = true /\ length (ad_rows grown_log) = 2%nat /\
  (collide (scan <$> by_seq "tenant" demo_log) (scan <$> by_seq "tenant" grown_log) \/
   Forall2 same_record (by_seq "tenant" demo_log) (by_seq "tenant" grown_log)).
Proof.
  assert (E : vr_Intact (VerifyAuditChain demo_principal demo_log) = true) by (vm_compute; reflexivity).
  assert (E' : vr_Intact (VerifyAuditChain demo_principal grown_log) = true) by (vm_compute; reflexivity).
  split; [exact E'|]. split; [vm_compute; reflexivity|].
  apply (tamper_evident demo_principal demo_log grown_log E E'); [vm_compute; reflexivity | vm_compute; reflexivity | |];
    vm_compute; repeat constructor.
Defined.

(** Two audited actions, the first one's action edited, the table migrated. *)
Definition edit (e : AuditEvent) : AuditEvent :=
  if av_seq e =? 1 then MkAuditEvent (av_id e) (av_tenant e) (av_workspace e) (av_app e) (av_actorType e) (av_actorID e) "nothing happened"
    (av_resourceType e) (av_resourceID e) (av_metadata e) (av_occurredAt e) (av_seq e) (av_prevHash e) (av_rowHash e) else e.
Definition two_rows : ADB := (audit any_uuid demo_principal "role.delete" "role" "r" (JObject []) (audited (JObject []) 1000)).2.
Definition edited : ADB := MkADB (edit <$> ad_rows two_rows) (ad_used two_rows) 2000.
Lemma backfill_launders_witness :
  vr_Intact (VerifyAuditChain demo_principal edited) = false /\
  (BackfillAuditChain edited).1 = Ok tt /\ vr_Intact (VerifyAuditChain demo_principal (BackfillAuditChain edited).2) = true.
Proof.
  split; [vm_compute; reflexivity|]. assert (E : (BackfillAuditChain edited).1 = Ok tt) by (vm_compute; reflexivity).
  split; [exact E|]. apply (backfill_launders edited (BackfillAuditChain edited).2).
  - apply (bool_decide_unpack _). vm_compute. exact Logic.I.
  - rewrite <- E. apply surjective_pairing.
Defined.

End AuditSpec.
