(* ===== verification/MakerChecker.v ===== *)
(** * Separation of duties and publication (src/internal/postgres/maker_checker.go,
    src/internal/publishing/publishing.go)

    Every versioned resource is published through the same gate: an
    authenticated user and, where the tenant's policy asks for it, one who has
    not touched the draft, as the audit log tells.  The tables the resources
    share (policies, audit log, ids, clock) are one record; a resource's own
    tables contain it ([HasCommon]). *)

From S2P Require Import Prelude.
From S2P Require Import GoStd.
From S2P Require Import GoMap.
From S2P Require Import Sha256.
From S2P Require Import Domain.
From S2P Require Import Store.
From S2P Require Import AuditLog.

Module MakerChecker.

Record MakerCheckerPolicy : Type := MkMakerCheckerPolicy {
  mp_ID : string;
  mp_TenantID : string;
  mp_ResourceType : string;
  mp_RequireChecker : bool
}.

(** ** The shared tables *)

Record CDB : Type := MkCDB {
  cd_policies : gmap (string * string) MakerCheckerPolicy;
  cd_audit : Audit.ADB;
  cd_used : gset string;
  cd_now : Z
}.
Definition set_policies v c := MkCDB v (cd_audit c) (cd_used c) (cd_now c).
Definition set_audit v c := MkCDB (cd_policies c) v (cd_used c) (cd_now c).
Definition set_used v c := MkCDB (cd_policies c) (cd_audit c) v (cd_now c).

(** Tables that contain the shared ones. *)
Class HasCommon (W : Type) := {
  common : W -> CDB;
  set_common : CDB -> W -> W;
  common_set : forall c w, common (set_common c w) = c;
  set_common_id : forall w, set_common (common w) w = w
}.
#[global] Instance common_self : HasCommon CDB.
Proof. refine {| common w := w; set_common c _ := c |}; done. Defined.

(** [var Err... = errors.New(...)] of publishing.go. *)
Definition ErrHumanActorRequired : error := Sentinel "publishing requires an authenticated user".
Definition ErrBlobStoreRequired : error := Sentinel "blob store is required".
Definition ErrApproverRequired : error := Sentinel "approver user id is required".
Definition ErrSelfApproval : error := Sentinel "self approval forbidden: creator cannot approve their own draft".

Definition unique_violation : error := errors_New "duplicate key value violates unique constraint".
Definition check_violation : error := errors_New "new row violates check constraint".
Definition fk_violation : error := errors_New "insert or update on table violates foreign key constraint".
Definition not_null_violation : error := errors_New "null value violates not-null constraint".
Definition bad_input : error := errors_New "invalid input syntax".
Definition integer_max : Z := 2147483647.
Definition integer_ok (n : Z) : bool := (- integer_max - 1 <=? n) && (n <=? integer_max).

(** [strings.HasSuffix] and [strings.Contains]. *)
Fixpoint HasSuffix (s suffix : string) : bool :=
  (s =s suffix) || match s with EmptyString => false | String _ s' => HasSuffix s' suffix end.
Fixpoint Contains (s sub : string) : bool :=
  GoStr.has_prefix s sub || match s with EmptyString => false | String _ s' => Contains s' sub end.

(** A [jsonb NOT NULL] column. *)
Definition jsonb_column (r : RawMessage) : result RawMessage :=
  match r with
  | Raw j => Ok (Raw (Audit.jsonb j))
  | RawEmpty => Err not_null_violation
  | RawBad _ => Err bad_input
  end.

Section ops.
Context {W : Type} `{HasCommon W} (uuid_ok : string -> bool).

Definition tx {A} (m : M W A) : M W A := fun d => match m d with (Ok a, d') => (Ok a, d') | (Err e, _) => (Err e, d) end.
Definition gets {A} (f : W -> A) : M W A := fun d => (Ok (f d), d).
Definition reads {A} (f : W -> result A) : M W A := fun d => (f d, d).
Definition modify (f : W -> W) : M W unit := fun d => (Ok tt, f d).
Definition modify_common (f : CDB -> CDB) : M W unit := modify (fun d => set_common (f (common d)) d).
Definition new_id : M W string := fun d =>
  let id := fresh (cd_used (common d)) in (Ok id, set_common (set_used ({[id]} ∪ cd_used (common d)) (common d)) d).
Definition audit (p : Principal) (action resourceType resourceID : string) (metadata : json) : M W unit := fun d =>
  let '(r, a) := Audit.audit uuid_ok p action resourceType resourceID metadata (cd_audit (common d)) in
  (r, set_common (set_audit a (common d)) d).

(** ** Policies *)

Definition GetMakerCheckerPolicy (p : Principal) (resourceType : string) : M W bool :=
  if resourceType =s "" then throw (errors_New "resource type is required") else
  gets (fun d => match cd_policies (common d) !! (p_TenantID p, resourceType) with Some x => mp_RequireChecker x | None => false end).

Definition SetMakerCheckerPolicy (p : Principal) (resourceType : string) (requireChecker : bool) : M W MakerCheckerPolicy :=
  if resourceType =s "" then throw (errors_New "resource type is required") else
  tx (
    new ← new_id;
    old ← gets (fun d => cd_policies (common d) !! (p_TenantID p, resourceType));
    let id := match old with Some x => mp_ID x | None => new end in
    let out := MkMakerCheckerPolicy id (p_TenantID p) resourceType requireChecker in
    _ ← modify_common (fun c => set_policies (<[(p_TenantID p, resourceType) := out]> (cd_policies c)) c);
    _ ← audit p "maker_checker.set_policy" "maker_checker_policy" id
          (JObject [("require_checker", JBool requireChecker); ("resource_type", JString resourceType)]);
    mret out).

Definition ListMakerCheckerPolicies (p : Principal) (d : W) : list MakerCheckerPolicy :=
  GoMap.sort_by (fun a b => GoMap.str_less (mp_ResourceType a) (mp_ResourceType b))
    (filter (fun x => mp_TenantID x = p_TenantID p) (map_to_list (cd_policies (common d))).*2).

(** ** The check *)

Definition EvaluateMakerChecker (requireChecker : bool) (approverUserID : string) (actorIDs : list string) : result unit :=
  if negb requireChecker then Ok tt
  else match actorIDs with
  | [] => Err ErrSelfApproval
  | _ => if existsb (fun id => negb (id =s "") && (id =s approverUserID)) actorIDs then Err ErrSelfApproval else Ok tt
  end.

(** SELECT DISTINCT actor_id FROM audit_events. *)
Definition touched (p : Principal) (resourceType resourceID : string) (e : Audit.AuditEvent) : bool :=
  (Audit.av_tenant e =s p_TenantID p) && (Audit.av_resourceType e =s resourceType) && (Audit.av_resourceID e =s resourceID) &&
  negb (Audit.av_actorID e =s "").
Definition audit_actors (p : Principal) (resourceType resourceID : string) (c : CDB) : list string :=
  remove_dups (Audit.av_actorID <$> filter (fun e => touched p resourceType resourceID e = true) (Audit.ad_rows (cd_audit c))).
(** The set of actors; the order in which a range over the Go map lists it does
    not matter to the check. *)
Definition actors (p : Principal) (resourceType resourceID creatorOrEditorID : string) (c : CDB) : list string :=
  remove_dups ((if creatorOrEditorID =s "" then [] else [creatorOrEditorID]) ++
               (if resourceID =s "" then [] else audit_actors p resourceType resourceID c)).

Definition CheckMakerChecker (p : Principal) (resourceType resourceID creatorOrEditorID : string) : M W unit :=
  if negb (p_ActorType p =s "user") || (p_UserID p =s "") then throw (errors_New "publishing requires an authenticated user") else
  requireChecker ← GetMakerCheckerPolicy p resourceType;
  if negb requireChecker then mret tt else
  reads (fun d => EvaluateMakerChecker requireChecker (p_UserID p) (actors p resourceType resourceID creatorOrEditorID (common d))).

(** ** [publishing.Publish] *)

Section publish.
Context {Draft Published : Type}.

Definition manifest_key (namespace tenantID resourceID : string) (data : string) : string :=
  namespace +:+ "/" +:+ tenantID +:+ "/" +:+ resourceID +:+ "/manifests/" +:+ Sha256.hex (Sha256.Sum256 data) +:+ ".json".

Definition Publish (p : Principal) (resourceID namespace : string) (draft : Draft) (blobs : option (string -> string -> string -> M W unit))
    (canonicalize : option (Draft -> result string)) (commit : option (Principal -> string -> string -> string -> M W Published)) : M W Published :=
  if negb (p_ActorType p =s "user") || (p_UserID p =s "") then throw ErrHumanActorRequired
  else match blobs with
  | None => throw ErrBlobStoreRequired
  | Some Put =>
      if (resourceID =s "") || (namespace =s "") then throw (errors_New "resource id and namespace are required")
      else match canonicalize, commit with
      | Some canonicalize, Some commit =>
          data ← lift (map_err (fun e => Errorf "canonicalize %s: %w" [AStr namespace; AWrap e]) (canonicalize draft));
          let key := manifest_key namespace (p_TenantID p) resourceID data in
          _ ← (fun d => let '(r, d') := Put key data "application/json" d in
                        (map_err (fun e => Errorf "put %s manifest: %w" [AStr namespace; AWrap e]) r, d'));
          commit p resourceID (p_UserID p) key
      | _, _ => throw (errors_New "canonicalizer and commit function are required")
      end
  end.
End publish.

End ops.

(** ** What the check decides *)

Section facts.
Context {W : Type} `{HasCommon W}.

Lemma EvaluateMakerChecker_iff require user ids : user <> "" ->
  EvaluateMakerChecker require user ids = Ok tt <-> require = false \/ ids <> [] /\ user ∉ ids.
Proof.
  intros Hu. unfold EvaluateMakerChecker. destruct require; simpl; [|by split; [left|]].
  destruct ids as [|x l]; [split; [done|intros [?|[? _]]; done]|].
  destruct (existsb _ (x :: l)) eqn:E.
  - split; [done|]. intros [?|[_ Hn]]; [done|]. apply existsb_exists in E as (y & Hy & Hq). apply andb_prop in Hq as [_ Hq%seqb_true].
    subst y. exfalso. by apply Hn, list_elem_of_In.
  - split; [|done]. intros _. right. split; [done|]. intros Hin. apply list_elem_of_In in Hin.
    assert (existsb (fun id => negb (id =s "") && (id =s user)) (x :: l) = true); [|congruence].
    apply existsb_exists. exists user. split; [done|]. rewrite seqb_refl. apply seqb_false in Hu. by rewrite Hu.
Qed.

Lemma actors_elem p rt rid creator c a : a ∈ actors p rt rid creator c <->
  (a = creator /\ creator <> "") \/
  (rid <> "" /\ exists e, e ∈ Audit.ad_rows (cd_audit c) /\ touched p rt rid e = true /\ Audit.av_actorID e = a).
Proof.
  unfold actors. rewrite elem_of_remove_dups, elem_of_app.
  assert (H1 : a ∈ (if creator =s "" then [] else [creator]) <-> a = creator /\ creator <> "").
  { destruct (creator =s "") eqn:E; [apply seqb_true in E|apply seqb_false in E]; rewrite ?list_elem_of_singleton.
    - split; [by intros ?%elem_of_nil|]. intros [_ ?]. done.
    - split; [done|]. by intros [? _]. }
  rewrite H1. apply or_iff_compat_l. destruct (rid =s "") eqn:E; [apply seqb_true in E|apply seqb_false in E].
  - split; [by intros ?%elem_of_nil|]. intros [? _]. done.
  - unfold audit_actors. rewrite elem_of_remove_dups, list_elem_of_fmap. split.
    + intros (e & -> & He). apply list_elem_of_filter in He as [Ht He]. split; [done|]. by exists e.
    + intros (_ & e & He & Ht & <-). exists e. split; [done|]. by apply list_elem_of_filter.
Qed.

(** The gate, exactly: publication is let through for an authenticated
    user when the tenant's policy does not ask for a checker, or when the audit
    log and the caller name somebody who touched the resource and this user is
    not among them. *)
Theorem CheckMakerChecker_iff p rt rid creator (d : W) : rt <> "" ->
  CheckMakerChecker p rt rid creator d = (Ok tt, d) <->
  p_ActorType p = "user" /\ p_UserID p <> "" /\
  (GetMakerCheckerPolicy p rt d = (Ok false, d) \/
   exists a, a <> p_UserID p /\ a ∈ actors p rt rid creator (common d) /\ p_UserID p ∉ actors p rt rid creator (common d)).
Proof.
  intros Hrt. unfold CheckMakerChecker. apply seqb_false in Hrt. unfold GetMakerCheckerPolicy. rewrite Hrt. unfold gets, reads.
  destruct (p_ActorType p =s "user") eqn:Ea; simpl; [|apply seqb_false in Ea; split; [done|by intros (? & _)]].
  destruct (p_UserID p =s "") eqn:Eu; simpl; [apply seqb_true in Eu; split; [done|by intros (_ & ? & _)]|].
  apply seqb_true in Ea. apply seqb_false in Eu. unfold_M.
  set (b := match cd_policies _ !! _ with Some _ => _ | None => _ end). destruct b; simpl.
  - set (l := actors p rt rid creator (common d)). split.
    + intros Hev. assert (Hev' : EvaluateMakerChecker true (p_UserID p) l = Ok tt) by congruence.
      apply (EvaluateMakerChecker_iff true _ _ Eu) in Hev' as [?|[Hne Hnin]]; [done|]. do 2 (split; [done|]). right.
      destruct l as [|x k]; [done|]. exists x. split; [|split; [by left|done]]. intros ->. apply Hnin. by left.
    + intros (_ & _ & [?|(a & _ & Hin & Hnin)]); [done|].
      assert (Hev : EvaluateMakerChecker true (p_UserID p) l = Ok tt); [|by rewrite Hev].
      apply (EvaluateMakerChecker_iff true _ _ Eu). right. split; [|done]. intros Hl. rewrite Hl in Hin. by apply elem_of_nil in Hin.
  - split; [|done]. intros _. do 2 (split; [done|]). by left.
Qed.

(** With no audit row for the resource, nobody passes. *)
Lemma no_rows_blocks p rt rid (d : W) : rt <> "" -> (forall e, e ∈ Audit.ad_rows (cd_audit (common d)) -> Audit.av_resourceType e <> rt) ->
  (exists x, cd_policies (common d) !! (p_TenantID p, rt) = Some x /\ mp_RequireChecker x = true) ->
  exists e, CheckMakerChecker p rt rid "" d = (Err e, d).
Proof.
  intros Hrt Hrows (x & Hx & Hreq). unfold CheckMakerChecker. apply seqb_false in Hrt. unfold GetMakerCheckerPolicy. rewrite Hrt.
  destruct (negb _ || _); [by eexists|]. unfold gets, reads. unfold_M. rewrite Hx, Hreq. cbn [negb]. unfold EvaluateMakerChecker. cbn [negb].
  assert (Hn : actors p rt rid "" (common d) = []).
  { destruct (actors p rt rid "" (common d)) as [|a l] eqn:E; [done|]. assert (Ha : a ∈ actors p rt rid "" (common d)) by (rewrite E; by left).
    apply actors_elem in Ha as [[_ ?]|(_ & e & He & Ht & _)]; [done|]. unfold touched in Ht. apply andb_prop in Ht as [[[_ Ht]%andb_prop _]%andb_prop _].
    apply seqb_true in Ht. by destruct (Hrows e He). }
  rewrite Hn. by eexists.
Qed.

End facts.
End MakerChecker.
