(* ===== verification/StoreLemmas.v ===== *)
(** * Lemmas and tactics on the store's transactions

    What a committed or rolled back transaction leaves, what auditing adds, and
    [follow], which takes the run of an operation that ended well apart,
    statement by statement. *)

From S2P Require Import Prelude.
From S2P Require Import GoStd.
From S2P Require Import GoMap.
From S2P Require Import Domain.
From S2P Require Import Store.
From S2P Require Import AuditLog.
From S2P Require Import MakerChecker.

Module StoreLemmas.
Import MakerChecker.

Section shared.
Context {W : Type} `{HasCommon W} (uuid_ok : string -> bool).

Lemma tx_cases {A} (m : M W A) d r d' : tx m d = (r, d') -> (exists a, r = Ok a /\ m d = (Ok a, d')) \/ (exists e, r = Err e) /\ d' = d.
Proof. unfold tx. destruct (m d) as [[a|e] d1]; intros [= <- <-]; [left|right]; eauto. Qed.
Lemma tx_eq {A} (m : M W A) d a d' : m d = (Ok a, d') -> tx m d = (Ok a, d').
Proof. unfold tx. by intros ->. Qed.

Lemma audit_eq p a t id j (d : W) : exists q, audit uuid_ok p a t id j d = (Ok tt, set_common (set_audit q (common d)) d) /\
  exists e, Audit.ad_rows q = Audit.ad_rows (cd_audit (common d)) ++ [e] /\ Audit.av_resourceType e = t.
Proof.
  unfold audit, Audit.audit. destruct (match last _ with Some _ => _ | None => _ end) as [s h]. eexists. split; [done|]. simpl. by eexists.
Qed.
Lemma audit_Ok p a t id j (d : W) r d' : audit uuid_ok p a t id j d = (Ok r, d') -> exists q, d' = set_common (set_audit q (common d)) d.
Proof. destruct (audit_eq p a t id j d) as (q & -> & _). intros [= _ <-]. by exists q. Qed.

End shared.

Lemma lift_Ok {W A} (r : result A) (d : W) a d' : lift r d = (Ok a, d') -> r = Ok a /\ d' = d.
Proof. unfold lift. by intros [= -> ->]. Qed.
Lemma reads_Ok {W A} (f : W -> result A) (d : W) a d' : reads f d = (Ok a, d') -> f d = Ok a /\ d' = d.
Proof. unfold reads. by intros [= -> ->]. Qed.

(** Follow a run that ends well, statement by statement. *)
Ltac statement E :=
  lazymatch type of E with
  | lift _ _ = _ => apply lift_Ok in E as [E ->]
  | reads _ _ = _ => apply reads_Ok in E as [E ->]
  | gets _ _ = _ => unfold gets in E; injection E as <- <-
  | modify _ _ = _ => unfold modify in E; injection E as <- <-
  | new_id _ = _ => unfold new_id in E; injection E as <- <-
  | audit _ _ _ _ _ _ _ = _ => apply audit_Ok in E as (? & ->)
  | CheckMakerChecker _ _ _ _ _ = _ => idtac
  | _ => idtac
  end.
Ltac follow H :=
  repeat (cbn beta zeta in H;
    first [ (let E := fresh "E" in apply bindM_Ok in H as (? & ? & E & H); statement E)
          | match type of H with (if ?b then _ else _) _ = _ => destruct b eqn:? end; try discriminate H
          | match type of H with (match ?o with Some _ => _ | None => _ end) _ = _ => destruct o eqn:? end; try discriminate H ]).
Ltac follow_tx H := apply tx_cases in H as [(? & [= ->] & H)|[[? ?] _]]; [follow H|done].

Lemma check_pure {W} `{HasCommon W} p rt rid c (d d' : W) r : CheckMakerChecker p rt rid c d = (r, d') -> d' = d.
Proof.
  unfold CheckMakerChecker. destruct (negb _ || _); [by intros [= _ <-]|]. unfold GetMakerCheckerPolicy.
  destruct (rt =s ""); [by intros [= _ <-]|]. unfold gets, reads. unfold_M. destruct (negb _); by intros [= _ <-].
Qed.

End StoreLemmas.
