(* ===== verification/Forms.v ===== *)
(** * Forms and landing pages (src/internal/forms/forms.go,
    src/internal/postgres/forms.go, src/internal/postgres/pages_assets.go,
    src/internal/httpapi/forms.go, src/internal/httpapi/pages_assets.go)

    A form's draft is turned into a JSON schema and frozen; a page's draft is
    frozen as it is.  Publishing the manifest that is current again answers the
    version that has it.  The schema compiler (internal/schemas over a
    third-party package) and the field trimming of non-ASCII spaces are
    outside: [compiles] is a parameter. *)

From S2P Require Import Prelude.
From S2P Require Import GoStd.
From S2P Require Import GoMap.
From S2P Require Import Sha256.
From S2P Require Import Domain.
From S2P Require Import Store.
From S2P Require Import AuditLog.
From S2P Require Import MakerChecker.

Module Forms.
Import MakerChecker.

(** ** Drafts to definitions *)

Record Field : Type := MkField {
  fd_Key : string;
  fd_Type : string;
  fd_Required : bool;
  fd_Validation : option (list (string * json));
  fd_Consent : bool;
  fd_MapsTo : string
}.
(** A nil slice is [None]. *)
Record Draft : Type := MkDraft { dr_Fields : option (list Field); dr_SubmitActions : option (list (string * json)) }.

Definition field_fields : list (string * Json.setter Field) :=
  [("key", Json.set_string (fun v f => MkField v (fd_Type f) (fd_Required f) (fd_Validation f) (fd_Consent f) (fd_MapsTo f)));
   ("type", Json.set_string (fun v f => MkField (fd_Key f) v (fd_Required f) (fd_Validation f) (fd_Consent f) (fd_MapsTo f)));
   ("required", Json.set_bool (fun v f => MkField (fd_Key f) (fd_Type f) v (fd_Validation f) (fd_Consent f) (fd_MapsTo f)));
   ("validation", Json.set_map (fun v f => MkField (fd_Key f) (fd_Type f) (fd_Required f) v (fd_Consent f) (fd_MapsTo f)));
   ("consent", Json.set_bool (fun v f => MkField (fd_Key f) (fd_Type f) (fd_Required f) (fd_Validation f) v (fd_MapsTo f)));
   ("maps_to", Json.set_string (fun v f => MkField (fd_Key f) (fd_Type f) (fd_Required f) (fd_Validation f) (fd_Consent f) v))].
Definition no_field : Field := MkField "" "" false None false "".
Definition draft_fields : list (string * Json.setter Draft) :=
  [("fields", fun j d => match j with
                         | JNull => Some (MkDraft None (dr_SubmitActions d))
                         | _ => Json.set_list (fun j => Json.decode_struct field_fields j no_field) (fun l d => MkDraft (Some l) (dr_SubmitActions d)) j d
                         end);
   ("submit_actions", Json.set_map (fun m d => MkDraft (dr_Fields d) m))].

(** [strings.TrimSpace], on ASCII. *)
Fixpoint trim_left (s : string) : string :=
  match s with String c s' => if GoStr.is_space c then trim_left s' else s | EmptyString => EmptyString end.
Fixpoint trim_right (s : string) : string :=
  match s with
  | EmptyString => EmptyString
  | String c s' => match trim_right s' with
                   | EmptyString => if GoStr.is_space c then EmptyString else String c EmptyString
                   | t => String c t
                   end
  end.
Definition TrimSpace (s : string) : string := trim_right (trim_left s).

(** The type part of a field's property. *)
Definition base_property (type : string) : result (list (string * json)) :=
  if type =s "text" then Ok [("type", JString "string")]
  else if type =s "email" then Ok [("format", JString "email"); ("type", JString "string")]
  else if type =s "number" then Ok [("type", JString "number")]
  else if type =s "integer" then Ok [("type", JString "integer")]
  else if type =s "boolean" then Ok [("type", JString "boolean")]
  else Err (Errorf "unsupported field type %q" [AStr type]).
Definition merge (extra base : list (string * json)) : list (string * json) :=
  foldl (fun acc kv => Json.insert_key kv.1 (Json.marshal kv.2) acc) base extra.

(** The loop over the fields: properties so far, required keys, keys seen. *)
Fixpoint build (fields : list Field) (properties : list (string * json)) (required seen : list string) : result (list (string * json) * list string) :=
  match fields with
  | [] => Ok (properties, required)
  | field :: rest =>
      let key := TrimSpace (fd_Key field) in
      if key =s "" then Err (errors_New "field key is required")
      else if mem key seen then Err (Errorf "duplicate field key: %s" [AStr key]) else
      property ← base_property (fd_Type field);
      let property := merge (default [] (fd_Validation field)) property in
      build rest (Json.insert_key key (JObject property) properties) (if fd_Required field then required ++ [key] else required) (key :: seen)
  end.

Definition schema_of (properties : list (string * json)) (required : list string) : json :=
  JObject ([("additionalProperties", JBool false); ("properties", JObject properties)] ++
           (match required with [] => [] | _ => [("required", JArray (JString <$> required))] end) ++ [("type", JString "object")]).

Definition marshal_map (m : list (string * json)) : json := Json.marshal (JObject m).
Definition marshal_field (f : Field) : json :=
  JObject ([("key", JString (fd_Key f)); ("type", JString (fd_Type f))] ++
           (if fd_Required f then [("required", JBool true)] else []) ++
           (match fd_Validation f with Some ((_ :: _) as m) => [("validation", marshal_map m)] | _ => [] end) ++
           (if fd_Consent f then [("consent", JBool true)] else []) ++
           (if fd_MapsTo f =s "" then [] else [("maps_to", JString (fd_MapsTo f))])).
Definition definition_of (draft : Draft) (schema : json) : json :=
  JObject ([("fields", match dr_Fields draft with Some l => JArray (marshal_field <$> l) | None => JNull end); ("schema", schema)] ++
           (match dr_SubmitActions draft with Some ((_ :: _) as m) => [("submit_actions", marshal_map m)] | _ => [] end)).

Section canonicalize.
Context (compiles : json -> result unit).

Definition CanonicalizeDraft (raw : RawMessage) : result json :=
  if raw_len0 raw then Err (errors_New "draft is required") else
  draft ← wrapw "invalid draft: %w" (Json.Unmarshal draft_fields (MkDraft None None) raw);
  props ← build (default [] (dr_Fields draft)) [] [] [];
  let schema := schema_of props.1 props.2 in
  _ ← compiles schema;
  Ok (definition_of draft schema).

(** ** Tables *)

Record Form : Type := MkForm {
  fm_ID : string; fm_TenantID : string; fm_WorkspaceID : string; fm_Name : string; fm_Status : string; fm_Draft : RawMessage;
  fm_CurrentVersionID : option string; fm_LatestVersion : Z; fm_CreatedAt : Z
}.
Record FormVersion : Type := MkFormVersion {
  fw_ID : string; fw_FormID : string; fw_TenantID : string; fw_Version : Z; fw_Definition : RawMessage; fw_ManifestKey : string;
  fw_PublishedBy : string; fw_PublishedAt : Z
}.
Record Submission : Type := MkSubmission {
  su_TenantID : string; su_WorkspaceID : string; su_AppID : string; su_FormID : string; su_FormVersion : Z; su_Payload : RawMessage;
  su_UTM : RawMessage; su_SourceEventID : string
}.
Record FDB : Type := MkFDB {
  fb_forms : gmap string Form;
  fb_versions : gmap string FormVersion;
  fb_submissions : list Submission;
  fb_common : CDB
}.
Definition set_forms v d := MkFDB v (fb_versions d) (fb_submissions d) (fb_common d).
Definition set_versions v d := MkFDB (fb_forms d) v (fb_submissions d) (fb_common d).
Definition set_submissions v d := MkFDB (fb_forms d) (fb_versions d) v (fb_common d).
#[global] Instance common_forms : HasCommon FDB.
Proof. refine {| common := fb_common; set_common c d := MkFDB (fb_forms d) (fb_versions d) (fb_submissions d) c |}; [done|by intros []]. Defined.

Abbreviation F := (M FDB).
Definition in_workspace (p : Principal) (f : Form) : bool := (fm_TenantID f =s p_TenantID p) && (fm_WorkspaceID f =s p_WorkspaceID p).
Definition put_form (f : Form) : F unit := modify (fun d => set_forms (<[fm_ID f := f]> (fb_forms d)) d).
Definition name_taken (p : Principal) (name id : string) (d : FDB) : bool :=
  existsb (fun kv => in_workspace p kv.2 && (fm_Name kv.2 =s name) && negb (kv.1 =s id)) (map_to_list (fb_forms d)).

Definition GetForm (p : Principal) (id : string) (d : FDB) : result Form :=
  match fb_forms d !! id with
  | Some f => if in_workspace p f then Ok f else Err ErrNotFound
  | None => Err ErrNotFound
  end.
Definition ListForms (p : Principal) (d : FDB) : list Form :=
  GoMap.sort_by (fun a b => fm_CreatedAt b <? fm_CreatedAt a) (filter (fun f => in_workspace p f = true) (map_to_list (fb_forms d)).*2).

Context (uuid_ok : string -> bool).

Definition CreateForm (p : Principal) (form : Form) : F Form := tx (
  if fm_Name form =s "" then throw (errors_New "form name is required") else
  let draft := if raw_len0 (fm_Draft form) then Raw (JObject [("fields", JArray [])]) else fm_Draft form in
  draft ← lift (jsonb_column draft);
  id ← new_id;
  taken ← gets (name_taken p (fm_Name form) id);
  if taken : bool then throw unique_violation else
  now ← gets (fun d => cd_now (fb_common d));
  let out := MkForm id (p_TenantID p) (p_WorkspaceID p) (fm_Name form) "draft" draft None 0 now in
  _ ← put_form out;
  _ ← audit uuid_ok p "form.create" "form" id (JObject [("name", JString (fm_Name out))]);
  mret out).

Definition UpdateForm (p : Principal) (form : Form) : F Form :=
  if (fm_Name form =s "") || raw_len0 (fm_Draft form) then throw (errors_New "form name and draft are required") else
  tx (
    draft ← lift (jsonb_column (fm_Draft form));
    old ← reads (GetForm p (fm_ID form));
    taken ← gets (name_taken p (fm_Name form) (fm_ID form));
    if taken : bool then throw unique_violation else
    let out := MkForm (fm_ID old) (fm_TenantID old) (fm_WorkspaceID old) (fm_Name form) (fm_Status old) draft (fm_CurrentVersionID old)
                 (fm_LatestVersion old) (fm_CreatedAt old) in
    _ ← put_form out;
    mret out).

(** The current version answers when its manifest is the one published. *)
Definition same_manifest (current : option string) (manifestKey : string) (versions : gmap string FormVersion) : result (option FormVersion) :=
  match current with
  | None | Some "" => Ok None
  | Some c => match versions !! c with
              | None => Err ErrNotFound
              | Some v => Ok (if fw_ManifestKey v =s manifestKey then Some v else None)
              end
  end.

Definition PublishForm (p : Principal) (id publishedBy manifestKey : string) (definition : RawMessage) : F FormVersion :=
  if (publishedBy =s "") || (manifestKey =s "") || raw_len0 definition
  then throw (errors_New "publisher, manifest, and definition are required") else
  _ ← CheckMakerChecker p "forms" id "";
  tx (
    form ← reads (GetForm p id);
    same ← reads (fun d => same_manifest (fm_CurrentVersionID form) manifestKey (fb_versions d));
    match same with
    | Some out => mret out
    | None =>
        let version := fm_LatestVersion form + 1 in
        if negb (integer_ok version) || negb (uuid_ok publishedBy) then throw (Errorf "insert form version: %w" [AWrap bad_input]) else
        definition ← lift (wrapw "insert form version: %w" (jsonb_column definition));
        taken ← gets (fun d => existsb (fun kv => (fw_FormID kv.2 =s id) && (fw_Version kv.2 =? version)) (map_to_list (fb_versions d)));
        if taken : bool then throw (Errorf "insert form version: %w" [AWrap unique_violation]) else
        vid ← new_id;
        now ← gets (fun d => cd_now (fb_common d));
        let out := MkFormVersion vid id (fm_TenantID form) version definition manifestKey publishedBy now in
        _ ← modify (fun d => set_versions (<[vid := out]> (fb_versions d)) d);
        _ ← put_form (MkForm (fm_ID form) (fm_TenantID form) (fm_WorkspaceID form) (fm_Name form) "published" (fm_Draft form) (Some vid) version
                        (fm_CreatedAt form));
        mret out
    end).

Definition GetPublishedForm (id : string) (d : FDB) : result (Form * FormVersion) :=
  match fb_forms d !! id with
  | Some f =>
      if negb (fm_Status f =s "published") then Err ErrNotFound
      else match fm_CurrentVersionID f with
      | None => Err ErrNotFound
      | Some c => match fb_versions d !! c with
                  | Some v => if fw_FormID v =s fm_ID f then Ok (f, v) else Err ErrNotFound
                  | None => Err ErrNotFound
                  end
      end
  | None => Err ErrNotFound
  end.

(** INSERT .. ON CONFLICT (tenant_id, source_event_id) DO NOTHING. *)
Definition RecordFormSubmission (p : Principal) (formID : string) (version : Z) (payload utm : RawMessage) (sourceEventID : string) : F unit := fun d =>
  match jsonb_column payload with
  | Err e => (Err e, d)
  | Ok payload =>
      if negb (uuid_ok sourceEventID) then (Err bad_input, d)
      else if existsb (fun s => (su_TenantID s =s p_TenantID p) && (su_SourceEventID s =s sourceEventID)) (fb_submissions d) then (Ok tt, d)
      else match fb_forms d !! formID with
      | None => (Err fk_violation, d)
      | Some _ =>
          (Ok tt, set_submissions (fb_submissions d ++
             [MkSubmission (p_TenantID p) (p_WorkspaceID p) (p_AppID p) formID version payload utm sourceEventID]) d)
      end
  end.

(** The [publishForm] handler behind its HTTP decoding. *)
Definition publishForm (blobs : option (string -> string -> string -> F unit)) (p : Principal) (id : string) : F FormVersion :=
  if negb (p_ActorType p =s "user") || (p_UserID p =s "") then throw ErrHumanActorRequired else
  form ← reads (GetForm p id);
  definition ← lift (CanonicalizeDraft (fm_Draft form));
  Publish p (fm_ID form) "forms" (fm_Draft form) blobs (Some (fun _ => Ok (Audit.marshal_text definition)))
    (Some (fun principal id publisher manifest => PublishForm principal id publisher manifest (Raw definition))).

End canonicalize.
End Forms.

Module Pages.
Import MakerChecker.

Record LandingPage : Type := MkLandingPage {
  lp_ID : string; lp_TenantID : string; lp_WorkspaceID : string; lp_Slug : string; lp_Name : string; lp_Status : string; lp_Draft : RawMessage;
  lp_CurrentVersionID : option string; lp_LatestVersion : Z; lp_CreatedAt : Z
}.
Record PageVersion : Type := MkPageVersion {
  gv_ID : string; gv_PageID : string; gv_TenantID : string; gv_Version : Z; gv_Definition : RawMessage; gv_ManifestKey : string;
  gv_PublishedBy : string; gv_PublishedAt : Z
}.
Record GDB : Type := MkGDB { gb_pages : gmap string LandingPage; gb_versions : gmap string PageVersion; gb_common : CDB }.
Definition set_pages v d := MkGDB v (gb_versions d) (gb_common d).
Definition set_page_versions v d := MkGDB (gb_pages d) v (gb_common d).
#[global] Instance common_pages : HasCommon GDB.
Proof. refine {| common := gb_common; set_common c d := MkGDB (gb_pages d) (gb_versions d) c |}; [done|by intros []]. Defined.

Abbreviation G := (M GDB).
Definition of_workspace (p : Principal) (g : LandingPage) : bool := (lp_TenantID g =s p_TenantID p) && (lp_WorkspaceID g =s p_WorkspaceID p).
Definition put_page (g : LandingPage) : G unit := modify (fun d => set_pages (<[lp_ID g := g]> (gb_pages d)) d).
(** UNIQUE (tenant_id, workspace_id, slug). *)
Definition slug_taken (p : Principal) (slug id : string) (d : GDB) : bool :=
  existsb (fun kv => of_workspace p kv.2 && (lp_Slug kv.2 =s slug) && negb (kv.1 =s id)) (map_to_list (gb_pages d)).

Definition GetLandingPage (p : Principal) (id : string) (d : GDB) : result LandingPage :=
  match gb_pages d !! id with
  | Some g => if of_workspace p g then Ok g else Err ErrNotFound
  | None => Err ErrNotFound
  end.
Definition ListLandingPages (p : Principal) (d : GDB) : list LandingPage :=
  GoMap.sort_by (fun a b => lp_CreatedAt b <? lp_CreatedAt a) (filter (fun g => of_workspace p g = true) (map_to_list (gb_pages d)).*2).

Definition CreateLandingPage (p : Principal) (page : LandingPage) : G LandingPage :=
  if (lp_Name page =s "") || (lp_Slug page =s "") then throw (errors_New "page name and slug are required") else
  tx (
    let draft := if raw_len0 (lp_Draft page) then Raw (JObject [("template", JString ""); ("meta", JObject [])]) else lp_Draft page in
    draft ← lift (jsonb_column draft);
    id ← new_id;
    taken ← gets (slug_taken p (lp_Slug page) id);
    if taken : bool then throw unique_violation else
    now ← gets (fun d => cd_now (gb_common d));
    let out := MkLandingPage id (p_TenantID p) (p_WorkspaceID p) (lp_Slug page) (lp_Name page) "draft" draft None 0 now in
    _ ← put_page out;
    mret out).

Definition UpdateLandingPage (p : Principal) (page : LandingPage) : G LandingPage :=
  if (lp_Name page =s "") || (lp_Slug page =s "") || raw_len0 (lp_Draft page)
  then throw (errors_New "page name, slug, and draft are required") else
  tx (
    draft ← lift (jsonb_column (lp_Draft page));
    old ← reads (GetLandingPage p (lp_ID page));
    taken ← gets (slug_taken p (lp_Slug page) (lp_ID page));
    if taken : bool then throw unique_violation else
    let out := MkLandingPage (lp_ID old) (lp_TenantID old) (lp_WorkspaceID old) (lp_Slug page) (lp_Name page) (lp_Status old) draft
                 (lp_CurrentVersionID old) (lp_LatestVersion old) (lp_CreatedAt old) in
    _ ← put_page out;
    mret out).

Definition same_page_manifest (current : option string) (manifestKey : string) (versions : gmap string PageVersion) : result (option PageVersion) :=
  match current with
  | None | Some "" => Ok None
  | Some c => match versions !! c with
              | None => Err ErrNotFound
              | Some v => Ok (if gv_ManifestKey v =s manifestKey then Some v else None)
              end
  end.

Section publish.
Context (uuid_ok : string -> bool).

Definition PublishLandingPage (p : Principal) (id publishedBy manifestKey : string) (definition : RawMessage) : G PageVersion :=
  if (publishedBy =s "") || (manifestKey =s "") || raw_len0 definition
  then throw (errors_New "publisher, manifest, and definition are required") else
  _ ← CheckMakerChecker p "pages" id "";
  tx (
    page ← reads (GetLandingPage p id);
    same ← reads (fun d => same_page_manifest (lp_CurrentVersionID page) manifestKey (gb_versions d));
    match same with
    | Some out => mret out
    | None =>
        let version := lp_LatestVersion page + 1 in
        if negb (integer_ok version) || negb (uuid_ok publishedBy) then throw (Errorf "insert page version: %w" [AWrap bad_input]) else
        definition ← lift (wrapw "insert page version: %w" (jsonb_column definition));
        taken ← gets (fun d => existsb (fun kv => (gv_PageID kv.2 =s id) && (gv_Version kv.2 =? version)) (map_to_list (gb_versions d)));
        if taken : bool then throw (Errorf "insert page version: %w" [AWrap unique_violation]) else
        vid ← new_id;
        now ← gets (fun d => cd_now (gb_common d));
        let out := MkPageVersion vid id (lp_TenantID page) version definition manifestKey publishedBy now in
        _ ← modify (fun d => set_page_versions (<[vid := out]> (gb_versions d)) d);
        _ ← put_page (MkLandingPage (lp_ID page) (lp_TenantID page) (lp_WorkspaceID page) (lp_Slug page) (lp_Name page) "published" (lp_Draft page)
                        (Some vid) version (lp_CreatedAt page));
        mret out
    end).

(** The [publishLandingPage] handler behind its HTTP decoding. *)
Definition publishLandingPage (blobs : option (string -> string -> string -> G unit)) (p : Principal) (id : string) : G PageVersion :=
  if negb (p_ActorType p =s "user") || (p_UserID p =s "") then throw ErrHumanActorRequired else
  page ← reads (GetLandingPage p id);
  j ← lift (Json.parse (lp_Draft page));
  let canonical := Json.marshal j in
  Publish p (lp_ID page) "pages" (lp_Draft page) blobs (Some (fun _ => Ok (Audit.marshal_text canonical)))
    (Some (fun principal id publisher manifest => PublishLandingPage principal id publisher manifest (Raw canonical))).
End publish.

(** The public lookup, by slug alone: [rows] is the order in which PostgreSQL
    finds the matching rows, of which the first is read. *)
Definition GetPublishedLandingPage (rows : gmap string LandingPage -> list (string * LandingPage)) (slug : string) (d : GDB)
    : result (LandingPage * PageVersion) :=
  match find_first (fun kv => (lp_Slug kv.2 =s slug) && (lp_Status kv.2 =s "published")) (rows (gb_pages d)) with
  | None => Err ErrNotFound
  | Some (_, g) =>
      match lp_CurrentVersionID g with
      | None => Err ErrNotFound
      | Some c => match gb_versions d !! c with
                  | Some v => if gv_PageID v =s lp_ID g then Ok (g, v) else Err ErrNotFound
                  | None => Err ErrNotFound
                  end
      end
  end.

End Pages.
