(* ===== verification/FlagsDB.v ===== *)
(** * Storing and publishing feature flags (src/internal/postgres/flags.go,
    src/internal/httpapi/flags.go)

    The table of flags and of their versions.  [kb_version_columns] lists the
    columns of [feature_flag_versions] that migration 050 creates; the INSERT of
    a publication names its columns and the ones it returns. *)

From S2P Require Import Prelude.
From S2P Require Import GoStd.
From S2P Require Import GoMap.
From S2P Require Import Sha256.
From S2P Require Import Domain.
From S2P Require Import Store.
From S2P Require Import AuditLog.
From S2P Require Import MakerChecker.

Module FlagsDB.
Import MakerChecker.

Record FeatureFlagVersion : Type := MkFeatureFlagVersion {
  fx_ID : string; fx_FlagID : string; fx_Version : Z; fx_DefinitionKey : string; fx_DefinitionSha : string; fx_Definition : json;
  fx_CreatedByUserID : string; fx_CreatedAt : Z
}.
Record KDB : Type := MkKDB {
  kb_flags : gmap string FeatureFlag;
  kb_versions : gmap string FeatureFlagVersion;
  kb_version_columns : list string;
  kb_apps : gset string;
  kb_users : gset string;
  kb_common : CDB
}.
Definition set_flags v d := MkKDB v (kb_versions d) (kb_version_columns d) (kb_apps d) (kb_users d) (kb_common d).
Definition set_versions v d := MkKDB (kb_flags d) v (kb_version_columns d) (kb_apps d) (kb_users d) (kb_common d).
#[global] Instance common_flags : HasCommon KDB.
Proof.
  refine {| common := kb_common; set_common c d := MkKDB (kb_flags d) (kb_versions d) (kb_version_columns d) (kb_apps d) (kb_users d) c |};
    [done|by intros []].
Defined.
(** CREATE TABLE feature_flag_versions. *)
Definition migration_050 : list string :=
  ["id"; "flag_id"; "version"; "definition_key"; "definition_sha"; "definition"; "created_by_user_id"; "created_at"].
(** What the INSERT of a publication returns. *)
Definition returning : list string :=
  ["id"; "flag_id"; "tenant_id"; "workspace_id"; "version"; "definition_key"; "definition_sha"; "definition"; "created_by_user_id"; "created_at"].

Abbreviation K := (M KDB).

Definition or_default (s v : string) : string := if s =s "" then v else s.
Definition set_env_status (env status : string) (f : FeatureFlag) : FeatureFlag :=
  MkFeatureFlag (ff_ID f) (ff_TenantID f) (ff_WorkspaceID f) (ff_AppID f) env (ff_Key f) (ff_Name f) (ff_Description f) (ff_FlagType f)
    (ff_DefaultValue f) (ff_Variants f) (ff_TargetingRules f) (ff_RolloutPct f) (ff_Seed f) (ff_Enabled f) status (ff_CurrentVersionID f)
    (ff_CreatedAt f) (ff_UpdatedAt f).
Definition environments : list string := ["development"; "staging"; "production"].
Definition flag_types : list string := ["boolean"; "string"; "number"; "json"].
Definition flag_statuses : list string := ["draft"; "published"; "disabled"].

Definition normalizeFeatureFlag (f : FeatureFlag) : result FeatureFlag :=
  if ff_Key f =s "" then Err (errors_New "flag key is required")
  else if ff_FlagType f =s "" then Err (errors_New "flag_type is required") else
  let f := set_env_status (or_default (ff_Environment f) "production") (or_default (ff_Status f) "draft") f in
  if ff_Seed f =s "" then Err (errors_New "seed is required")
  else if (ff_RolloutPct f <? 0) || (100 <? ff_RolloutPct f) then Err (errors_New "rollout_pct must be between 0 and 100")
  else if negb (mem (ff_Environment f) environments) then Err (errors_New "environment must be one of: development, staging, production")
  else if negb (mem (ff_FlagType f) flag_types) then Err (errors_New "flag_type must be one of: boolean, string, number, json")
  else if negb (mem (ff_Status f) flag_statuses) then Err (errors_New "status must be one of: draft, published, disabled")
  else Ok f.

(** The [jsonb] columns of a flag: the default value, and the variants and
    rules through [json.Marshal], which refuses a malformed raw message. *)
Definition stored_raw (r : RawMessage) : result RawMessage := j ← Json.of_raw r; Ok (Raw (Audit.jsonb j)).
Definition stored_variant (v : FlagVariant) : result FlagVariant := x ← stored_raw (fv_Value v); Ok (MkFlagVariant (fv_Label v) x (fv_Weight v)).
Definition stored_rule (r : FlagTargetingRule) : result FlagTargetingRule := x ← stored_raw (fr_DSL r); Ok (MkFlagTargetingRule x (fr_Variant r)).
Definition stored (f : FeatureFlag) : result FeatureFlag :=
  variants ← mapM_result stored_variant (ff_Variants f);
  rules ← mapM_result stored_rule (ff_TargetingRules f);
  value ← jsonb_column (ff_DefaultValue f);
  Ok (MkFeatureFlag (ff_ID f) (ff_TenantID f) (ff_WorkspaceID f) (ff_AppID f) (ff_Environment f) (ff_Key f) (ff_Name f) (ff_Description f)
        (ff_FlagType f) value variants rules (ff_RolloutPct f) (ff_Seed f) (ff_Enabled f) (ff_Status f) (ff_CurrentVersionID f)
        (ff_CreatedAt f) (ff_UpdatedAt f)).
Definition inserted (id : string) (p : Principal) (now : Z) (f : FeatureFlag) : FeatureFlag :=
  MkFeatureFlag id (p_TenantID p) (p_WorkspaceID p) (ff_AppID f) (ff_Environment f) (ff_Key f) (ff_Name f) (ff_Description f) (ff_FlagType f)
    (ff_DefaultValue f) (ff_Variants f) (ff_TargetingRules f) (ff_RolloutPct f) (ff_Seed f) (ff_Enabled f) (ff_Status f) None now now.
(** UPDATE leaves the key, environment, app, type and seed alone. *)
Definition updated (now : Z) (f old : FeatureFlag) : FeatureFlag :=
  MkFeatureFlag (ff_ID old) (ff_TenantID old) (ff_WorkspaceID old) (ff_AppID old) (ff_Environment old) (ff_Key old) (ff_Name f) (ff_Description f)
    (ff_FlagType old) (ff_DefaultValue f) (ff_Variants f) (ff_TargetingRules f) (ff_RolloutPct f) (ff_Seed old) (ff_Enabled f) (ff_Status f)
    (ff_CurrentVersionID old) (ff_CreatedAt old) now.
Definition set_status (status : string) (f : FeatureFlag) : FeatureFlag := set_env_status (ff_Environment f) status f.
Definition flag_published (versionID : string) (now : Z) (f : FeatureFlag) : FeatureFlag :=
  MkFeatureFlag (ff_ID f) (ff_TenantID f) (ff_WorkspaceID f) (ff_AppID f) (ff_Environment f) (ff_Key f) (ff_Name f) (ff_Description f)
    (ff_FlagType f) (ff_DefaultValue f) (ff_Variants f) (ff_TargetingRules f) (ff_RolloutPct f) (ff_Seed f) (ff_Enabled f) "published"
    (Some versionID) (ff_CreatedAt f) now.
Definition in_workspace (p : Principal) (f : FeatureFlag) : bool := (ff_TenantID f =s p_TenantID p) && (ff_WorkspaceID f =s p_WorkspaceID p).
Definition put_flag (f : FeatureFlag) : K unit := modify (fun d => set_flags (<[ff_ID f := f]> (kb_flags d)) d).

(** *** Reads *)

Definition GetFeatureFlag (p : Principal) (id : string) (d : KDB) : result FeatureFlag :=
  match kb_flags d !! id with
  | Some f => if in_workspace p f then Ok f else Err ErrNotFound
  | None => Err ErrNotFound
  end.
Definition less_env_key (a b : FeatureFlag) : bool :=
  GoMap.str_less (ff_Environment a) (ff_Environment b) || ((ff_Environment a =s ff_Environment b) && GoMap.str_less (ff_Key a) (ff_Key b)).
Definition ListFeatureFlags (p : Principal) (d : KDB) : list FeatureFlag :=
  GoMap.sort_by less_env_key (filter (fun f => in_workspace p f = true) (map_to_list (kb_flags d)).*2).
Definition is_live (tenantID appID environment : string) (f : FeatureFlag) : bool :=
  (ff_TenantID f =s tenantID) && (ff_AppID f =s appID) && (ff_Environment f =s environment) && (ff_Status f =s "published") && ff_Enabled f.
Definition ListActiveFlags (tenantID appID environment : string) (d : KDB) : list FeatureFlag :=
  GoMap.sort_by (fun a b => GoMap.str_less (ff_Key a) (ff_Key b))
    (filter (fun f => is_live tenantID appID environment f = true) (map_to_list (kb_flags d)).*2).

(** *** Writes *)

Section ops.
Context (uuid_ok : string -> bool).

(** UNIQUE (tenant_id, app_id, environment, key). *)
Definition key_taken (p : Principal) (f : FeatureFlag) (d : KDB) : bool :=
  existsb (fun kv => (ff_TenantID kv.2 =s p_TenantID p) && (ff_AppID kv.2 =s ff_AppID f) && (ff_Environment kv.2 =s ff_Environment f) &&
                     (ff_Key kv.2 =s ff_Key f)) (map_to_list (kb_flags d)).

Definition CreateFeatureFlag (p : Principal) (input : FeatureFlag) : K FeatureFlag := tx (
  f ← lift (normalizeFeatureFlag input);
  f ← lift (stored f);
  if negb (uuid_ok (ff_AppID f)) then throw bad_input else
  id ← new_id;
  taken ← gets (key_taken p f);
  if taken : bool then throw (errors_New "flag key already exists for this environment and app") else
  app ← gets (fun d => bool_decide (ff_AppID f ∈ kb_apps d));
  if negb app then throw fk_violation else
  now ← gets (fun d => cd_now (kb_common d));
  let out := inserted id p now f in
  _ ← put_flag out;
  _ ← audit uuid_ok p "flag.create" "flag" id (JObject [("environment", JString (ff_Environment out)); ("key", JString (ff_Key out))]);
  mret out).

Definition UpdateFeatureFlag (p : Principal) (input : FeatureFlag) : K FeatureFlag := tx (
  f ← lift (normalizeFeatureFlag input);
  if ff_ID f =s "" then throw (errors_New "flag id is required") else
  f ← lift (stored f);
  old ← reads (GetFeatureFlag p (ff_ID f));
  now ← gets (fun d => cd_now (kb_common d));
  let out := updated now f old in
  _ ← put_flag out;
  _ ← audit uuid_ok p "flag.update" "flag" (ff_ID out) (JObject [("key", JString (ff_Key out))]);
  mret out).

(** [json.Marshal] of the definition; a list prints as an array, the
    distinction of nil and empty slices is not kept. *)
Definition variant_json (v : FlagVariant) : result json :=
  x ← Json.of_raw (fv_Value v);
  Ok (JObject [("label", JString (fv_Label v)); ("value", x); ("weight", JNumber (GoStr.of_Z (fv_Weight v)))]).
Definition rule_json (r : FlagTargetingRule) : result json :=
  x ← Json.of_raw (fr_DSL r); Ok (JObject [("dsl", x); ("variant", JString (fr_Variant r))]).
Definition definition_json (draft : FeatureFlag) : result json :=
  variants ← mapM_result variant_json (ff_Variants draft);
  rules ← mapM_result rule_json (ff_TargetingRules draft);
  value ← Json.of_raw (ff_DefaultValue draft);
  Ok (JObject [("default_value", value); ("enabled", JBool (ff_Enabled draft)); ("key", JString (ff_Key draft));
               ("rollout_pct", JNumber (GoStr.of_Z (ff_RolloutPct draft))); ("seed", JString (ff_Seed draft));
               ("targeting_rules", JArray rules); ("type", JString (ff_FlagType draft)); ("variants", JArray variants)]).

Definition undefined_column : error := errors_New "column does not exist".
Definition next_version (flagID : string) (d : KDB) : Z :=
  1 + foldl Z.max 0 ((fun kv => if fx_FlagID kv.2 =s flagID then fx_Version kv.2 else 0) <$> map_to_list (kb_versions d)).

Definition PublishFeatureFlag (p : Principal) (flagID approverUserID manifestKey : string) : K FeatureFlagVersion :=
  if approverUserID =s "" then throw (errors_New "approver user id is required")
  else if manifestKey =s "" then throw (errors_New "manifest key is required") else
  _ ← CheckMakerChecker p "flags" flagID "";
  tx (
    draft ← reads (GetFeatureFlag p flagID);
    definition ← lift (wrapw "marshal definition: %w" (definition_json draft));
    let digest := Sha256.hex (Sha256.Sum256 (Audit.marshal_text definition)) in
    if Contains manifestKey "/manifests/" && negb (HasSuffix manifestKey ("/manifests/" +:+ digest +:+ ".json"))
    then throw (errors_New "flag draft changed during publication; retry publish") else
    version ← gets (next_version flagID);
    columns ← gets kb_version_columns;
    if negb (forallb (fun c => mem c columns) returning) then throw undefined_column
    else if negb (uuid_ok approverUserID) || negb (integer_ok version) then throw bad_input else
    user ← gets (fun d => bool_decide (approverUserID ∈ kb_users d));
    if negb user then throw fk_violation else
    id ← new_id;
    now ← gets (fun d => cd_now (kb_common d));
    let out := MkFeatureFlagVersion id flagID version manifestKey digest (Audit.jsonb definition) approverUserID now in
    _ ← modify (fun d => set_versions (<[id := out]> (kb_versions d)) d);
    _ ← put_flag (flag_published id now draft);
    _ ← audit uuid_ok p "flag.publish" "flag" flagID
          (JObject [("key", JString (ff_Key draft)); ("version", JNumber (GoStr.of_Z version))]);
    mret out).

(** ** The handlers behind their HTTP decoding *)

Definition human_required : error := errors_New "publishing requires an authenticated user".
Definition isHuman (p : Principal) : bool := (p_ActorType p =s "user") && negb (p_UserID p =s "").
Definition publishFeatureFlag (p : Principal) (id : string) : K FeatureFlagVersion :=
  if negb (isHuman p) then throw human_required else PublishFeatureFlag p id (p_UserID p) "".
Definition setFlagStatus (p : Principal) (id status : string) : K FeatureFlag :=
  if negb (isHuman p) then throw (errors_New "changing flag status requires an authenticated user")
  else if negb (mem status flag_statuses) then throw (errors_New "status must be one of: draft, published, disabled") else
  flag ← reads (GetFeatureFlag p id);
  UpdateFeatureFlag p (set_status status flag).

End ops.
End FlagsDB.
