(* ===== verification/Prompts.v ===== *)
(** * Prompts and their versions (src/internal/postgres/prompts.go,
    src/internal/prompts/prompts.go)

    The registry the AI gateway reads.  Versions are evaluated, then published
    by a user who passes the separation of duties.  As for scoring models,
    migration 063 makes the versions append-only ([mb_append_only]). *)

From S2P Require Import Prelude.
From S2P Require Import GoStd.
From S2P Require Import GoMap.
From S2P Require Import Sha256.
From S2P Require Import Domain.
From S2P Require Import Store.
From S2P Require Import AuditLog.
From S2P Require Import MakerChecker.

Module Prompts.
Import MakerChecker.

Record Prompt : Type := MkPrompt {
  pr_ID : string; pr_TenantID : string; pr_WorkspaceID : string; pr_Name : string; pr_TaskType : string; pr_CurrentVersionID : option string;
  pr_LatestVersion : Z
}.
Record PromptVersion : Type := MkPromptVersion {
  pv_ID : string;
  pv_PromptID : string;
  pv_TenantID : string;
  pv_Version : Z;
  pv_Template : string;
  pv_InputSchema : RawMessage;
  pv_OutputSchema : RawMessage;
  pv_Provider : string;
  pv_Model : string;
  pv_Params : RawMessage;
  pv_SafetyPolicy : RawMessage;
  pv_ManifestKey : string;
  pv_Status : string;
  pv_EvalStatus : string;
  pv_PublishedBy : option string;
  pv_PublishedAt : option Z
}.
Record MDB : Type := MkMDB {
  mb_prompts : gmap string Prompt;
  mb_versions : gmap string PromptVersion;
  mb_append_only : bool;
  mb_common : CDB
}.
Definition set_prompts v d := MkMDB v (mb_versions d) (mb_append_only d) (mb_common d).
Definition set_versions v d := MkMDB (mb_prompts d) v (mb_append_only d) (mb_common d).
#[global] Instance common_prompts : HasCommon MDB.
Proof. refine {| common := mb_common; set_common c d := MkMDB (mb_prompts d) (mb_versions d) (mb_append_only d) c |}; [done|by intros []]. Defined.

Abbreviation P := (M MDB).
Definition ErrUnauthorized : error := Sentinel "unauthorized".
Definition append_only : error := errors_New "prompt_versions is append-only".
Definition in_workspace (p : Principal) (x : Prompt) : bool := (pr_TenantID x =s p_TenantID p) && (pr_WorkspaceID x =s p_WorkspaceID p).
Definition put_prompt (x : Prompt) : P unit := modify (fun d => set_prompts (<[pr_ID x := x]> (mb_prompts d)) d).

(** UPDATE and DELETE of versions, under the trigger. *)
Definition reaches (Q : PromptVersion -> bool) (d : MDB) : bool := existsb (fun kv => Q kv.2) (map_to_list (mb_versions d)).
Definition touch_versions (Q : PromptVersion -> bool) (f : gmap string PromptVersion -> gmap string PromptVersion) : P unit := fun d =>
  if mb_append_only d && reaches Q d then (Err append_only, d) else (Ok tt, set_versions (f (mb_versions d)) d).
Definition update_versions (Q : PromptVersion -> bool) (f : PromptVersion -> PromptVersion) : P unit :=
  touch_versions Q (fmap (fun v => if Q v then f v else v)).
Definition delete_versions (Q : PromptVersion -> bool) : P unit := touch_versions Q (filter (fun kv => Q kv.2 = false)).

Definition set_eval (s : string) (v : PromptVersion) : PromptVersion :=
  MkPromptVersion (pv_ID v) (pv_PromptID v) (pv_TenantID v) (pv_Version v) (pv_Template v) (pv_InputSchema v) (pv_OutputSchema v) (pv_Provider v)
    (pv_Model v) (pv_Params v) (pv_SafetyPolicy v) (pv_ManifestKey v) (pv_Status v) s (pv_PublishedBy v) (pv_PublishedAt v).
Definition archive (v : PromptVersion) : PromptVersion :=
  MkPromptVersion (pv_ID v) (pv_PromptID v) (pv_TenantID v) (pv_Version v) (pv_Template v) (pv_InputSchema v) (pv_OutputSchema v) (pv_Provider v)
    (pv_Model v) (pv_Params v) (pv_SafetyPolicy v) (pv_ManifestKey v) "archived" (pv_EvalStatus v) (pv_PublishedBy v) (pv_PublishedAt v).
Definition activate (approver manifestKey : string) (now : Z) (v : PromptVersion) : PromptVersion :=
  MkPromptVersion (pv_ID v) (pv_PromptID v) (pv_TenantID v) (pv_Version v) (pv_Template v) (pv_InputSchema v) (pv_OutputSchema v) (pv_Provider v)
    (pv_Model v) (pv_Params v) (pv_SafetyPolicy v) manifestKey "active" (pv_EvalStatus v) (Some approver) (Some now).

(** *** Reads *)

Definition GetPrompt (p : Principal) (id : string) (d : MDB) : result Prompt :=
  match mb_prompts d !! id with
  | Some x => if in_workspace p x then Ok x else Err ErrNotFound
  | None => Err ErrNotFound
  end.
Definition GetPromptByName (p : Principal) (name : string) (d : MDB) : result Prompt :=
  match find_first (fun kv => in_workspace p kv.2 && (pr_Name kv.2 =s name)) (map_to_list (mb_prompts d)) with
  | Some (_, x) => Ok x
  | None => Err ErrNotFound
  end.
Definition ListPrompts (p : Principal) (d : MDB) : list Prompt :=
  GoMap.sort_by (fun a b => GoMap.str_less (pr_Name a) (pr_Name b)) (filter (fun x => in_workspace p x = true) (map_to_list (mb_prompts d)).*2).
Definition GetPromptVersion (p : Principal) (id : string) (d : MDB) : result PromptVersion :=
  match mb_versions d !! id with
  | Some v => if pv_TenantID v =s p_TenantID p then Ok v else Err ErrNotFound
  | None => Err ErrNotFound
  end.
Definition numbered (tenantID promptID : string) (version : Z) (v : PromptVersion) : bool :=
  (pv_TenantID v =s tenantID) && (pv_PromptID v =s promptID) && (pv_Version v =? version).
Definition GetPromptVersionByNumber (p : Principal) (promptID : string) (version : Z) (d : MDB) : result PromptVersion :=
  match find_first (fun kv => numbered (p_TenantID p) promptID version kv.2) (map_to_list (mb_versions d)) with
  | Some (_, v) => Ok v
  | None => Err ErrNotFound
  end.
Definition ListPromptVersions (p : Principal) (promptID : string) (d : MDB) : list PromptVersion :=
  GoMap.sort_by (fun a b => pv_Version b <? pv_Version a)
    (filter (fun v => (pv_TenantID v =s p_TenantID p) && (pv_PromptID v =s promptID) = true) (map_to_list (mb_versions d)).*2).

Section ops.
Context (uuid_ok : string -> bool).

Definition task_types : list string := ["content_draft"; "audience_dsl"; "journey_draft"; "performance_summary"; "moderation"].
Definition check_prompt (x : Prompt) : result unit :=
  if pr_Name x =s "" then Err (errors_New "prompt name is required")
  else if pr_TaskType x =s "" then Err (errors_New "task type is required")
  else if negb (mem (pr_TaskType x) task_types) then Err (Errorf "invalid task type: %s" [AStr (pr_TaskType x)]) else Ok tt.
Definition name_taken (p : Principal) (name id : string) (d : MDB) : bool :=
  existsb (fun kv => in_workspace p kv.2 && (pr_Name kv.2 =s name) && negb (kv.1 =s id)) (map_to_list (mb_prompts d)).

Definition CreatePrompt (p : Principal) (prompt : Prompt) : P Prompt := tx (
  _ ← lift (check_prompt prompt);
  id ← new_id;
  taken ← gets (name_taken p (pr_Name prompt) id);
  if taken : bool then throw unique_violation else
  let out := MkPrompt id (p_TenantID p) (p_WorkspaceID p) (pr_Name prompt) (pr_TaskType prompt) None 0 in
  _ ← put_prompt out;
  _ ← audit uuid_ok p "prompt.create" "prompt" id (JObject [("name", JString (pr_Name out))]);
  mret out).

Definition UpdatePrompt (p : Principal) (prompt : Prompt) : P Prompt := tx (
  _ ← lift (check_prompt prompt);
  if negb (integer_ok (pr_LatestVersion prompt)) then throw bad_input else
  if negb (match pr_CurrentVersionID prompt with Some c => uuid_ok c | None => true end) then throw bad_input else
  _ ← reads (GetPrompt p (pr_ID prompt));
  taken ← gets (name_taken p (pr_Name prompt) (pr_ID prompt));
  if taken : bool then throw unique_violation else
  let out := MkPrompt (pr_ID prompt) (p_TenantID p) (p_WorkspaceID p) (pr_Name prompt) (pr_TaskType prompt) (pr_CurrentVersionID prompt)
               (pr_LatestVersion prompt) in
  _ ← put_prompt out;
  _ ← audit uuid_ok p "prompt.update" "prompt" (pr_ID prompt) (JObject [("name", JString (pr_Name out))]);
  mret out).

(** Deleting a prompt deletes its versions. *)
Definition DeletePrompt (p : Principal) (id : string) : P unit := tx (
  _ ← reads (GetPrompt p id);
  _ ← delete_versions (fun v => pv_PromptID v =s id);
  _ ← modify (fun d => set_prompts (delete id (mb_prompts d)) d);
  audit uuid_ok p "prompt.delete" "prompt" id JNull).

Definition or_default (s v : string) : string := if s =s "" then v else s.
Definition or_empty (r : RawMessage) : RawMessage := if raw_len0 r then Raw (JObject []) else r.
Definition set_latest (n : Z) (x : Prompt) : Prompt :=
  MkPrompt (pr_ID x) (pr_TenantID x) (pr_WorkspaceID x) (pr_Name x) (pr_TaskType x) (pr_CurrentVersionID x) n.
Definition set_current (id : string) (x : Prompt) : Prompt :=
  MkPrompt (pr_ID x) (pr_TenantID x) (pr_WorkspaceID x) (pr_Name x) (pr_TaskType x) (Some id) (pr_LatestVersion x).
Definition version_json (n : Z) : json := JObject [("version", JNumber (GoStr.of_Z n))].

Definition CreatePromptVersion (p : Principal) (pv : PromptVersion) : P PromptVersion :=
  let status := or_default (pv_Status pv) "draft" in
  let evalStatus := or_default (pv_EvalStatus pv) "pending" in
  if pv_PromptID pv =s "" then throw (errors_New "prompt_id is required")
  else if pv_Template pv =s "" then throw (errors_New "template is required")
  else if pv_Provider pv =s "" then throw (errors_New "provider is required")
  else if pv_Model pv =s "" then throw (errors_New "model is required")
  else if negb (mem status ["draft"; "active"; "archived"]) then throw (Errorf "invalid status: %s" [AStr status])
  else if negb (mem evalStatus ["pending"; "passed"; "failed"]) then throw (Errorf "invalid eval status: %s" [AStr evalStatus]) else
  tx (
    prompt ← reads (GetPrompt p (pv_PromptID pv));
    let newVersion := pr_LatestVersion prompt + 1 in
    if negb (integer_ok newVersion) then throw bad_input else
    input ← lift (jsonb_column (or_empty (pv_InputSchema pv)));
    output ← lift (jsonb_column (or_empty (pv_OutputSchema pv)));
    params ← lift (jsonb_column (or_empty (pv_Params pv)));
    safety ← lift (jsonb_column (or_empty (pv_SafetyPolicy pv)));
    taken ← gets (reaches (fun v => (pv_PromptID v =s pv_PromptID pv) && (pv_Version v =? newVersion)));
    if taken : bool then throw unique_violation else
    id ← new_id;
    let out := MkPromptVersion id (pv_PromptID pv) (p_TenantID p) newVersion (pv_Template pv) input output (pv_Provider pv) (pv_Model pv) params
                 safety (pv_ManifestKey pv) status evalStatus None None in
    _ ← modify (fun d => set_versions (<[id := out]> (mb_versions d)) d);
    _ ← put_prompt (set_latest newVersion prompt);
    _ ← audit uuid_ok p "prompt_version.create" "prompt_version" id (version_json newVersion);
    mret out).

Definition is_active (tenantID promptID : string) (v : PromptVersion) : bool :=
  (pv_TenantID v =s tenantID) && (pv_PromptID v =s promptID) && (pv_Status v =s "active").
Definition is_version (tenantID id : string) (v : PromptVersion) : bool := (pv_TenantID v =s tenantID) && (pv_ID v =s id).

Definition PublishPromptVersion (p : Principal) (promptID : string) (version : Z) (approverUserID manifestKey : string) : P PromptVersion :=
  if approverUserID =s "" then throw (errors_New "approver user id is required")
  else if manifestKey =s "" then throw (errors_New "manifest key is required")
  else if negb (p_ActorType p =s "user") || (p_UserID p =s "") then throw ErrUnauthorized else
  _ ← CheckMakerChecker p "prompts" promptID "";
  tx (
    pv ← reads (GetPromptVersionByNumber p promptID version);
    if pv_Status pv =s "active" then mret pv
    else if negb (pv_EvalStatus pv =s "passed") then throw (errors_New "cannot publish version with non-passed eval status") else
    _ ← update_versions (is_active (p_TenantID p) promptID) archive;
    if negb (uuid_ok approverUserID) then throw bad_input else
    now ← gets (fun d => cd_now (mb_common d));
    let out := activate approverUserID manifestKey now pv in
    _ ← update_versions (is_version (p_TenantID p) (pv_ID pv)) (activate approverUserID manifestKey now);
    _ ← modify (fun d => set_prompts (alter (fun x => if pr_TenantID x =s p_TenantID p then set_current (pv_ID pv) x else x) promptID (mb_prompts d)) d);
    _ ← audit uuid_ok p "prompt_version.publish" "prompt_version" (pv_ID pv) (version_json (pv_Version out));
    mret out).

Definition SetPromptVersionEvalStatus (p : Principal) (id evalStatus : string) : P unit := fun d =>
  if negb (mem evalStatus ["pending"; "passed"; "failed"]) then (Err (Errorf "invalid eval status: %s" [AStr evalStatus]), d)
  else if negb (reaches (is_version (p_TenantID p) id) d) then (Err ErrNotFound, d)
  else update_versions (is_version (p_TenantID p) id) (set_eval evalStatus) d.

(** ** [prompts.Publish] and [prompts.GetUsablePromptVersion] *)

Definition manifest_json (pv : PromptVersion) : result json :=
  input ← Json.of_raw (pv_InputSchema pv);
  output ← Json.of_raw (pv_OutputSchema pv);
  params ← Json.of_raw (pv_Params pv);
  safety ← Json.of_raw (pv_SafetyPolicy pv);
  Ok (JObject [("prompt_id", JString (pv_PromptID pv)); ("version", JNumber (GoStr.of_Z (pv_Version pv))); ("template", JString (pv_Template pv));
               ("input_schema", input); ("output_schema", output); ("provider", JString (pv_Provider pv)); ("model", JString (pv_Model pv));
               ("params", params); ("safety_policy", safety)]).

Definition Publish (blobs : option (string -> string -> string -> P unit)) (p : Principal) (promptID : string) (version : Z) (approverUserID : string)
    : P PromptVersion :=
  if approverUserID =s "" then throw ErrApproverRequired
  else match blobs with
  | None => throw ErrBlobStoreRequired
  | Some Put =>
      pv ← reads (GetPromptVersionByNumber p promptID version);
      manifest ← lift (manifest_json pv);
      let data := Audit.marshal_text manifest in
      let manifestKey := manifest_key "prompts" (p_TenantID p) promptID data in
      _ ← wrapM "put prompt manifest: %w" (Put manifestKey data "application/json");
      PublishPromptVersion p promptID version approverUserID manifestKey
  end.

Definition usable (pv : PromptVersion) : bool := (pv_Status pv =s "active") && (pv_EvalStatus pv =s "passed").
Definition GetUsablePromptVersion (p : Principal) (promptID : string) (version : Z) (d : MDB) : result PromptVersion :=
  pv ← GetPromptVersionByNumber p promptID version d;
  if usable pv then Ok pv
  else Err (Errorf "prompt version is not usable (status: %s, eval_status: %s)" [AStr (pv_Status pv); AStr (pv_EvalStatus pv)]).

End ops.
End Prompts.
