(* ===== verification/AIStore.v ===== *)
(** * The AI tables (src/internal/postgres/ai.go, ai_activity.go,
    ai_activity_query.go, field_classifications.go)

    Provider configurations, of which one per workspace is the default; the
    monthly usage; the append-only activity log; and the classification of
    fields.  They live beside the prompt registry ([Prompts]), to which the
    activity refers.  Migrations 025, 027, 028 and 030 give the constraints. *)

From S2P Require Import Prelude.
From S2P Require Import GoStd.
From S2P Require Import GoMap.
From S2P Require Import GoFloat.
From S2P Require Import Sha256.
From S2P Require Import Domain.
From S2P Require Import Store.
From S2P Require Import AuditLog.
From S2P Require Import GoFmt.
From S2P Require Import Redact.
From S2P Require Import MakerChecker.
From S2P Require Import Prompts.

Module AIStore.
Import MakerChecker Redact.

Record AIProviderConfig : Type := MkAIProviderConfig {
  ac_ID : string;
  ac_TenantID : string;
  ac_WorkspaceID : string;
  ac_Provider : string;
  ac_IsDefault : bool;
  ac_Config : RawMessage;
  ac_EndpointAllowlist : option (list string);
  ac_FallbackProvider : option string;
  ac_MonthlyBudgetCents : Z;
  ac_Status : string;
  ac_CreatedAt : Z;
  ac_UpdatedAt : Z
}.
Record AIBudgetUsage : Type := MkAIBudgetUsage {
  au_TenantID : string;
  au_WorkspaceID : string;
  au_Period : string;
  au_CostCents : Z;
  au_InputTokens : Z;
  au_OutputTokens : Z;
  au_UpdatedAt : Z
}.
Record AIActivity : Type := MkAIActivity {
  at_ID : string;
  at_TenantID : string;
  at_WorkspaceID : string;
  at_ActorUserID : option string;
  at_Action : string;
  at_Provider : string;
  at_Model : string;
  at_PromptVersionID : option string;
  at_RetrievalRefs : RawMessage;
  at_ToolCalls : RawMessage;
  at_Classification : option string;
  at_InputTokens : Z;
  at_OutputTokens : Z;
  at_CostCents : Z;
  at_LatencyMs : Z;
  at_PolicyDecision : string;
  at_ApproverUserID : option string;
  at_OutputRef : option string;
  at_CreatedAt : Z
}.

Record AIDB : Type := MkAIDB {
  ad_configs : gmap string AIProviderConfig;
  ad_usage : gmap (string * string * string) AIBudgetUsage;
  ad_activity : list AIActivity;
  ad_fields : gmap string FieldClassification;
  ad_prompts : Prompts.MDB
}.
Definition set_configs v d := MkAIDB v (ad_usage d) (ad_activity d) (ad_fields d) (ad_prompts d).
Definition set_usage v d := MkAIDB (ad_configs d) v (ad_activity d) (ad_fields d) (ad_prompts d).
Definition set_activity v d := MkAIDB (ad_configs d) (ad_usage d) v (ad_fields d) (ad_prompts d).
Definition set_fields v d := MkAIDB (ad_configs d) (ad_usage d) (ad_activity d) v (ad_prompts d).
Definition set_prompts v d := MkAIDB (ad_configs d) (ad_usage d) (ad_activity d) (ad_fields d) v.
#[global] Instance common_ai : HasCommon AIDB.
Proof.
  refine {| common d := common (ad_prompts d); set_common c d := set_prompts (set_common c (ad_prompts d)) d |}.
  - intros c [? ? ? ? m]. apply (common_set c m).
  - intros [? ? ? ? m]. unfold set_prompts. f_equal. apply (set_common_id m).
Defined.
Abbreviation Q := (M AIDB).

(** ** Provider configurations *)

Definition secret_key (k : string) : bool := mem k ["api_key"; "secret"; "password"].
(** A config that is no object is kept as it is; an object goes through
    [map[string]any], which orders its keys and rounds its numbers. *)
Definition redactConfigSecrets (raw : RawMessage) : RawMessage :=
  if raw_len0 raw then raw else
  match raw with
  | Raw (JObject l) =>
      if Any.decodes (JObject l) then
        match Any.decode (JObject l) with
        | AMap m => Raw (GoFmt.to_json (AMap (filter (fun kv => secret_key kv.1 = false) m)))
        | _ => raw
        end
      else raw
  | _ => raw
  end.

Definition in_scope (p : Principal) (tenantID workspaceID : string) : bool := (tenantID =s p_TenantID p) && (workspaceID =s p_WorkspaceID p).
Definition cfg_in (p : Principal) (c : AIProviderConfig) : bool := in_scope p (ac_TenantID c) (ac_WorkspaceID c).
Definition providers : list string := ["fake"; "anthropic"; "openai"].
Definition statuses : list string := ["active"; "disabled"].

Definition with_config (r : RawMessage) (c : AIProviderConfig) : AIProviderConfig :=
  MkAIProviderConfig (ac_ID c) (ac_TenantID c) (ac_WorkspaceID c) (ac_Provider c) (ac_IsDefault c) r (ac_EndpointAllowlist c)
    (ac_FallbackProvider c) (ac_MonthlyBudgetCents c) (ac_Status c) (ac_CreatedAt c) (ac_UpdatedAt c).
Definition shown (c : AIProviderConfig) : AIProviderConfig := with_config (redactConfigSecrets (ac_Config c)) c.
Definition undefault (c : AIProviderConfig) : AIProviderConfig :=
  MkAIProviderConfig (ac_ID c) (ac_TenantID c) (ac_WorkspaceID c) (ac_Provider c) false (ac_Config c) (ac_EndpointAllowlist c)
    (ac_FallbackProvider c) (ac_MonthlyBudgetCents c) (ac_Status c) (ac_CreatedAt c) (ac_UpdatedAt c).

(** UPDATE ai_provider_configs SET is_default = false. *)
Definition clear_default (p : Principal) : Q unit := modify (fun d => set_configs ((fun c => if cfg_in p c then undefault c else c) <$> ad_configs d) d).
Definition other_default (p : Principal) (id : string) (d : AIDB) : bool :=
  existsb (fun kv => cfg_in p kv.2 && ac_IsDefault kv.2 && negb (kv.1 =s id)) (map_to_list (ad_configs d)).
(** The row of an INSERT or an UPDATE: the columns' types, NOT NULL and the
    unique index on the default. *)
Definition put_config (p : Principal) (id : string) (created now : Z) (cfg : AIProviderConfig) : Q AIProviderConfig :=
  config ← lift (jsonb_column (redactConfigSecrets (ac_Config cfg)));
  match ac_EndpointAllowlist cfg with
  | None => throw not_null_violation
  | Some _ =>
      clash ← gets (other_default p id);
      if ac_IsDefault cfg && clash then throw unique_violation else
      let out := MkAIProviderConfig id (p_TenantID p) (p_WorkspaceID p) (ac_Provider cfg) (ac_IsDefault cfg) config (ac_EndpointAllowlist cfg)
                   (ac_FallbackProvider cfg) (ac_MonthlyBudgetCents cfg) (ac_Status cfg) created now in
      _ ← modify (fun d => set_configs (<[id := out]> (ad_configs d)) d);
      mret out
  end.
Definition provider_json (c : AIProviderConfig) : json := JObject [("provider", JString (ac_Provider c))].

Section ops.
Context (uuid_ok : string -> bool).
Definition clock : Q Z := gets (fun d => cd_now (common d)).

Definition CreateAIProviderConfig (p : Principal) (cfg : AIProviderConfig) : Q AIProviderConfig :=
  if ac_Provider cfg =s "" then throw (errors_New "provider is required")
  else if negb (mem (ac_Provider cfg) providers) then throw (Errorf "invalid provider: %s" [AStr (ac_Provider cfg)]) else
  let cfg := if raw_len0 (ac_Config cfg) then with_config (Raw (JObject [])) cfg else cfg in
  let status := if ac_Status cfg =s "" then "active" else ac_Status cfg in
  if negb (mem status statuses) then throw (Errorf "invalid status: %s" [AStr status]) else
  let cfg := MkAIProviderConfig (ac_ID cfg) (ac_TenantID cfg) (ac_WorkspaceID cfg) (ac_Provider cfg) (ac_IsDefault cfg) (ac_Config cfg)
               (ac_EndpointAllowlist cfg) (ac_FallbackProvider cfg) (ac_MonthlyBudgetCents cfg) status (ac_CreatedAt cfg) (ac_UpdatedAt cfg) in
  tx (
    _ ← (if ac_IsDefault cfg then clear_default p else mret tt);
    now ← clock;
    id ← new_id;
    out ← put_config p id now now cfg;
    _ ← audit uuid_ok p "ai_provider_config.create" "ai_provider_config" id (provider_json out);
    mret (shown out)).

Definition find_config (p : Principal) (id : string) (d : AIDB) : result AIProviderConfig :=
  match ad_configs d !! id with
  | Some c => if cfg_in p c then Ok c else Err ErrNotFound
  | None => Err ErrNotFound
  end.
Definition GetAIProviderConfig (p : Principal) (id : string) (d : AIDB) : result AIProviderConfig := c ← find_config p id d; Ok (shown c).
Definition GetDefaultAIProviderConfig (p : Principal) (d : AIDB) : result AIProviderConfig :=
  match find_first (fun kv => cfg_in p kv.2 && ac_IsDefault kv.2) (map_to_list (ad_configs d)) with
  | Some (_, c) => Ok (shown c)
  | None => Err ErrNotFound
  end.

Definition UpdateAIProviderConfig (p : Principal) (cfg : AIProviderConfig) : Q AIProviderConfig :=
  if negb (mem (ac_Provider cfg) providers) then throw (Errorf "invalid provider: %s" [AStr (ac_Provider cfg)])
  else if negb (mem (ac_Status cfg) statuses) then throw (Errorf "invalid status: %s" [AStr (ac_Status cfg)]) else
  tx (
    old ← reads (find_config p (ac_ID cfg));
    _ ← (if ac_IsDefault cfg then clear_default p else mret tt);
    now ← clock;
    out ← put_config p (ac_ID cfg) (ac_CreatedAt old) now cfg;
    _ ← audit uuid_ok p "ai_provider_config.update" "ai_provider_config" (ac_ID cfg) (provider_json out);
    mret (shown out)).

Definition ListAIProviderConfigs (p : Principal) (d : AIDB) : list AIProviderConfig :=
  shown <$> GoMap.sort_by (fun a b => ac_CreatedAt b <? ac_CreatedAt a) (filter (fun c => cfg_in p c = true) (map_to_list (ad_configs d)).*2).

Definition DeleteAIProviderConfig (p : Principal) (id : string) : Q unit := tx (
  _ ← reads (find_config p id);
  _ ← modify (fun d => set_configs (delete id (ad_configs d)) d);
  audit uuid_ok p "ai_provider_config.delete" "ai_provider_config" id JNull).

(** ** Usage *)

Definition GetAIBudgetUsage (tenantID workspaceID period : string) (d : AIDB) : AIBudgetUsage :=
  match ad_usage d !! (tenantID, workspaceID, period) with
  | Some u => u
  | None => MkAIBudgetUsage tenantID workspaceID period 0 0 0 Time.zero
  end.
Definition bigint_ok (n : Z) : bool := (- two63 <=? n) && (n <? two63).
Definition bigint_out_of_range : error := errors_New "bigint out of range".
(** INSERT ... ON CONFLICT DO UPDATE, one statement. *)
Definition IncrementAIBudgetUsage (tenantID workspaceID period : string) (costCents inputTokens outputTokens : Z) : Q unit := fun d =>
  let u := GetAIBudgetUsage tenantID workspaceID period d in
  let cost := au_CostCents u + costCents in
  let input := au_InputTokens u + inputTokens in
  let output := au_OutputTokens u + outputTokens in
  if bigint_ok cost && bigint_ok input && bigint_ok output
  then (Ok tt, set_usage (<[(tenantID, workspaceID, period) :=
                           MkAIBudgetUsage tenantID workspaceID period cost input output (cd_now (common d))]> (ad_usage d)) d)
  else (Err bigint_out_of_range, d).

(** ** Activity *)

Definition decisions : list string :=
  ["allowed"; "denied_policy"; "denied_budget"; "denied_scope"; "denied_input"; "schema_reject"; "execution_error"].
Definition or_else (s v : string) : string := if s =s "" then v else s.
Definition or_list (r : RawMessage) : RawMessage := if raw_len0 r then Raw (JArray []) else r.
Definition activityPtrString (o : option string) : string := default "" o.
(** NULLIF($n,'')::uuid. *)
Definition uuid_column (o : option string) : result unit :=
  let s := activityPtrString o in if (s =s "") || uuid_ok s then Ok tt else Err bad_input.
Definition activity_json (a : AIActivity) : json :=
  JObject [("cost_cents", JNumber (GoStr.of_Z (at_CostCents a))); ("input_tokens", JNumber (GoStr.of_Z (at_InputTokens a)));
           ("model", JString (at_Model a)); ("output_tokens", JNumber (GoStr.of_Z (at_OutputTokens a)));
           ("policy_decision", JString (at_PolicyDecision a));
           ("prompt_version_id", match at_PromptVersionID a with Some s => JString s | None => JNull end); ("provider", JString (at_Provider a))].
Definition stored_activity (p : Principal) (id : string) (now : Z) (refs calls : RawMessage) (a : AIActivity) : AIActivity :=
  MkAIActivity id (or_else (at_TenantID a) (p_TenantID p)) (or_else (at_WorkspaceID a) (p_WorkspaceID p)) (at_ActorUserID a) (at_Action a)
    (at_Provider a) (at_Model a) (at_PromptVersionID a) refs calls (at_Classification a) (at_InputTokens a) (at_OutputTokens a) (at_CostCents a)
    (at_LatencyMs a) (at_PolicyDecision a) (at_ApproverUserID a) (at_OutputRef a) now.

(** The row: an empty id is NULL, an absent text the empty one. *)
Definition nullif (o : option string) : option string := let s := activityPtrString o in if s =s "" then None else Some s.
Definition activity_row (a : AIActivity) : AIActivity :=
  MkAIActivity (at_ID a) (at_TenantID a) (at_WorkspaceID a) (nullif (at_ActorUserID a)) (at_Action a) (at_Provider a) (at_Model a)
    (nullif (at_PromptVersionID a)) (at_RetrievalRefs a) (at_ToolCalls a) (Some (activityPtrString (at_Classification a))) (at_InputTokens a)
    (at_OutputTokens a) (at_CostCents a) (at_LatencyMs a) (at_PolicyDecision a) (nullif (at_ApproverUserID a))
    (Some (activityPtrString (at_OutputRef a))) (at_CreatedAt a).

Definition RecordAIActivity (p : Principal) (a : AIActivity) : Q AIActivity := tx (
  _ ← lift (uuid_column (at_ActorUserID a));
  _ ← lift (uuid_column (at_PromptVersionID a));
  _ ← lift (uuid_column (at_ApproverUserID a));
  refs ← lift (jsonb_column (or_list (at_RetrievalRefs a)));
  calls ← lift (jsonb_column (or_list (at_ToolCalls a)));
  if negb (integer_ok (at_InputTokens a) && integer_ok (at_OutputTokens a) && integer_ok (at_LatencyMs a)) then throw bad_input
  else if negb (mem (at_PolicyDecision a) decisions) then throw check_violation else
  known ← gets (fun d => let v := activityPtrString (at_PromptVersionID a) in (v =s "") || bool_decide (is_Some (Prompts.mb_versions (ad_prompts d) !! v)));
  if negb known then throw fk_violation else
  now ← clock;
  id ← new_id;
  let out := stored_activity p id now refs calls a in
  _ ← modify (fun d => set_activity (ad_activity d ++ [activity_row out]) d);
  _ ← audit uuid_ok p "ai.action" "ai_activity" id (activity_json out);
  mret out).

Definition recent (a b : AIActivity) : bool :=
  (at_CreatedAt b <? at_CreatedAt a) || ((at_CreatedAt a =? at_CreatedAt b) && GoMap.str_less (at_ID b) (at_ID a)).
Definition ListAIActivity (p : Principal) (limit : Z) (d : AIDB) : list AIActivity :=
  let limit := if (limit <? 1) || (500 <? limit) then 100 else limit in
  take (Z.to_nat limit) (GoMap.sort_by recent (filter (fun a => in_scope p (at_TenantID a) (at_WorkspaceID a) = true) (ad_activity d))).

(** ** The classification of fields *)

Definition validateFieldClassification (c : FieldClassification) : result unit :=
  if negb (mem (fc_EntityType c) ["profile"; "event"]) then Err (errors_New "entity_type must be profile or event")
  else if fc_FieldPath c =s "" then Err (errors_New "field_path is required")
  else if negb (mem (fc_Classification c) ["public"; "internal"; "confidential"; "restricted"])
  then Err (Errorf "invalid classification: %s" [AStr (fc_Classification c)])
  else if fc_SendToModel c =s "" then Err (errors_New "send_to_model is required")
  else if negb (mem (fc_SendToModel c) ["allow"; "redact"; "tokenize"; "deny"])
  then Err (Errorf "invalid send_to_model policy: %s" [AStr (fc_SendToModel c)]) else Ok tt.
Definition fc_in (p : Principal) (c : FieldClassification) : bool := in_scope p (fc_TenantID c) (fc_WorkspaceID c).
Definition path_taken (p : Principal) (entity path id : string) (d : AIDB) : bool :=
  existsb (fun kv => fc_in p kv.2 && (fc_EntityType kv.2 =s entity) && (fc_FieldPath kv.2 =s path) && negb (kv.1 =s id)) (map_to_list (ad_fields d)).
Definition path_json (c : FieldClassification) : json := JObject [("field_path", JString (fc_FieldPath c))].
Definition put_field (p : Principal) (id : string) (created : Z) (c : FieldClassification) : Q FieldClassification :=
  taken ← gets (path_taken p (fc_EntityType c) (fc_FieldPath c) id);
  if taken : bool then throw unique_violation else
  let out := MkFieldClassification id (p_TenantID p) (p_WorkspaceID p) (fc_EntityType c) (fc_FieldPath c) (fc_Classification c) (fc_SendToModel c) created in
  _ ← modify (fun d => set_fields (<[id := out]> (ad_fields d)) d);
  mret out.

Definition CreateFieldClassification (p : Principal) (c : FieldClassification) : Q FieldClassification := tx (
  _ ← lift (validateFieldClassification c);
  now ← clock;
  id ← new_id;
  out ← put_field p id now c;
  _ ← audit uuid_ok p "field_classification.create" "field_classification" id (path_json out);
  mret out).
Definition GetFieldClassification (p : Principal) (id : string) (d : AIDB) : result FieldClassification :=
  match ad_fields d !! id with
  | Some c => if fc_in p c then Ok c else Err ErrNotFound
  | None => Err ErrNotFound
  end.
Definition ListFieldClassifications (p : Principal) (entityType : string) (d : AIDB) : list FieldClassification :=
  GoMap.sort_by (fun a b => GoMap.str_less (fc_EntityType a) (fc_EntityType b) ||
                            ((fc_EntityType a =s fc_EntityType b) && GoMap.str_less (fc_FieldPath a) (fc_FieldPath b)))
    (filter (fun c => fc_in p c && ((entityType =s "") || (fc_EntityType c =s entityType)) = true) (map_to_list (ad_fields d)).*2).
Definition UpdateFieldClassification (p : Principal) (c : FieldClassification) : Q FieldClassification := tx (
  _ ← lift (validateFieldClassification c);
  old ← reads (GetFieldClassification p (fc_ID c));
  out ← put_field p (fc_ID c) (fc_CreatedAt old) c;
  _ ← audit uuid_ok p "field_classification.update" "field_classification" (fc_ID c) (path_json out);
  mret out).
Definition DeleteFieldClassification (p : Principal) (id : string) : Q unit := tx (
  _ ← reads (GetFieldClassification p id);
  _ ← modify (fun d => set_fields (delete id (ad_fields d)) d);
  audit uuid_ok p "field_classification.delete" "field_classification" id JNull).

End ops.
End AIStore.
