(* ===== verification/AIGateway.v ===== *)
(** * The AI gateway (src/internal/ai/gateway.go, egress.go, openai.go, anthropic.go)

    Every call to a model goes through [Generate], [Embed] or [Moderate]: the
    prompt version must be published and evaluated, the retrieved data
    redacted, the budget not spent; the call is recorded whatever becomes of
    it, and an answer that fails validation is asked for once more.

    The store, the providers, the environment and the clock are interfaces over
    a world: what a provider answers is its own affair.  A context is its
    deadline, whether the caller's cancellation reaches it, and the endpoints it
    allows.  A nil [RetrievedData] is [None]; a payload is what [json.Marshal]
    makes of it. *)

From Stdlib Require Import Floats.SpecFloat.
From S2P Require Import Prelude.
From S2P Require Import GoStd.
From S2P Require Import GoMap.
From S2P Require Import GoFloat.
From S2P Require Import Domain.
From S2P Require Import Store.
From S2P Require Import GoFmt.
From S2P Require Import Redact.
From S2P Require Import MakerChecker.
From S2P Require Import Prompts.
From S2P Require Import AIStore.

Module AIGateway.
Import Redact.
Abbreviation PromptVersion := Prompts.PromptVersion.
Abbreviation AIProviderConfig := AIStore.AIProviderConfig.
Abbreviation AIBudgetUsage := AIStore.AIBudgetUsage.
Abbreviation AIActivity := AIStore.AIActivity.

(** ** Requests and answers (provider.go) *)

Record Usage : Type := MkUsage { us_InputTokens : Z; us_OutputTokens : Z; us_CostCents : Z }.
Definition no_usage : Usage := MkUsage 0 0 0.

Record GenerateRequest : Type := MkGenerateRequest {
  gr_Model : string;
  gr_SystemPrompt : string;
  gr_Prompt : string;
  gr_OutputSchema : RawMessage;
  gr_Temperature : Float.float64;
  gr_MaxTokens : Z;
  gr_APIKey : string;
  gr_BaseURL : string;
  gr_DomainValidator : option (string -> result unit);
  gr_RetrievedData : option (result json);
  gr_Classifications : list FieldClassification;
  gr_Purpose : string;
  gr_Action : string;
  gr_PromptVersionID : string;
  gr_RetrievalRefs : RawMessage;
  gr_ToolCalls : RawMessage;
  gr_Classification : string;
  gr_Timeout : Z;
  gr_MaxCostCents : Z
}.
Definition set_Prompt v r :=
  MkGenerateRequest (gr_Model r) (gr_SystemPrompt r) v (gr_OutputSchema r) (gr_Temperature r) (gr_MaxTokens r) (gr_APIKey r) (gr_BaseURL r)
    (gr_DomainValidator r) (gr_RetrievedData r) (gr_Classifications r) (gr_Purpose r) (gr_Action r) (gr_PromptVersionID r) (gr_RetrievalRefs r)
    (gr_ToolCalls r) (gr_Classification r) (gr_Timeout r) (gr_MaxCostCents r).
Definition set_Action v r :=
  MkGenerateRequest (gr_Model r) (gr_SystemPrompt r) (gr_Prompt r) (gr_OutputSchema r) (gr_Temperature r) (gr_MaxTokens r) (gr_APIKey r) (gr_BaseURL r)
    (gr_DomainValidator r) (gr_RetrievedData r) (gr_Classifications r) (gr_Purpose r) v (gr_PromptVersionID r) (gr_RetrievalRefs r)
    (gr_ToolCalls r) (gr_Classification r) (gr_Timeout r) (gr_MaxCostCents r).
Definition set_endpoint model apiKey baseURL r :=
  MkGenerateRequest model (gr_SystemPrompt r) (gr_Prompt r) (gr_OutputSchema r) (gr_Temperature r) (gr_MaxTokens r) apiKey baseURL
    (gr_DomainValidator r) (gr_RetrievedData r) (gr_Classifications r) (gr_Purpose r) (gr_Action r) (gr_PromptVersionID r) (gr_RetrievalRefs r)
    (gr_ToolCalls r) (gr_Classification r) (gr_Timeout r) (gr_MaxCostCents r).

Record GenerateResponse : Type := MkGenerateResponse { gp_Content : string; gp_Usage : Usage; gp_ActivityID : string }.
Record EmbedRequest : Type := MkEmbedRequest { er_Model : string; er_Input : list string; er_APIKey : string; er_BaseURL : string }.
Record EmbedResponse : Type := MkEmbedResponse { ep_Embeddings : list (list Float.float64); ep_Usage : Usage }.
Record ModerateRequest : Type := MkModerateRequest { mr_Model : string; mr_Input : string; mr_APIKey : string; mr_BaseURL : string }.
Record ModerateResponse : Type := MkModerateResponse { mo_Flagged : bool; mo_Usage : Usage }.

Inductive ProviderProfile : Type := FakeProfile | AnthropicProfile | OpenAIProfile.

Definition ErrBudgetExceeded : error := Sentinel "monthly AI budget exceeded".
Definition ErrPromptVersionNotUsable : error := Sentinel "prompt version is not active and evaluated".
Definition ErrCallTimeout : error := Sentinel "AI call timeout".
Definition ErrCallBudgetExceeded : error := Sentinel "AI call budget exceeded".
Definition DeadlineExceeded : error := Sentinel "context deadline exceeded".

(** ** Contexts and interfaces *)

Record Ctx : Type := MkCtx { cx_deadline : option Z; cx_caller : bool; cx_allowlist : option (list string) }.

Class Runtime (W : Type) := {
  Now : W -> Z;
  CallerErr : W -> option error;
  Getenv : string -> W -> string;
  ReadFile : string -> W -> result string
}.
Class GatewayStore (W : Type) := {
  GetPromptVersion : Ctx -> Principal -> string -> M W PromptVersion;
  GetDefaultAIProviderConfig : Ctx -> Principal -> M W AIProviderConfig;
  GetAIBudgetUsage : Ctx -> string -> string -> string -> M W AIBudgetUsage;
  IncrementAIBudgetUsage : Ctx -> string -> string -> string -> Z -> Z -> Z -> M W unit;
  RecordAIActivity : option (Ctx -> Principal -> AIActivity -> M W AIActivity)
}.
Class ModelProvider (W : Type) := {
  Provider_Generate : ProviderProfile -> Ctx -> GenerateRequest -> M W GenerateResponse;
  Provider_Embed : ProviderProfile -> Ctx -> EmbedRequest -> M W EmbedResponse;
  Provider_Moderate : ProviderProfile -> Ctx -> ModerateRequest -> M W ModerateResponse
}.

(** ** Costs (openai.go, anthropic.go) *)

Definition mapAnthropicModel (model : string) : string :=
  if mem model ["opus"; "claude-3-opus"; "claude-4-opus"] then "claude-3-opus-20240229"
  else if mem model ["haiku"; "claude-3-haiku"; "claude-3-5-haiku"; "claude-4-haiku"] then "claude-3-5-haiku-20241022"
  else if model =s "" then "claude-3-opus-20240229" else model.
(** Prices per million tokens, in cents; [int64(cost)] truncates. *)
Definition price (inputTokens outputTokens inputPrice outputPrice : Z) : Z :=
  let f := Float.of_Z in
  let cost := Float.div (Float.add (Float.mul (f inputTokens) (f inputPrice)) (Float.mul (f outputTokens) (f outputPrice))) (f 1000000) in
  if Float.ltb Float.zero cost && Float.ltb cost (f 1) then 1 else Time.trunc cost.
Definition estimateOpenAICost (model : string) (inputTokens outputTokens : Z) : Z :=
  if mem model ["gpt-4o"; "gpt-4"] then price inputTokens outputTokens 250 1000
  else if mem model ["gpt-4o-mini"; "gpt-3.5-turbo"] then price inputTokens outputTokens 15 60
  else price inputTokens outputTokens 250 1000.
Definition estimateAnthropicCost (model : string) (inputTokens outputTokens : Z) : Z :=
  let mapped := mapAnthropicModel model in
  if mapped =s "claude-3-opus-20240229" then price inputTokens outputTokens 1500 7500
  else if mapped =s "claude-3-5-haiku-20241022" then price inputTokens outputTokens 80 400
  else price inputTokens outputTokens 300 1500.
Definition EstimateCost (provider model : string) (req : GenerateRequest) : Z :=
  let inputTokens := Z.max 1 ((Z.of_nat (String.length (gr_Prompt req)) + Z.of_nat (String.length (gr_SystemPrompt req))) / 4) in
  let outputTokens := if gr_MaxTokens req <=? 0 then 100 else gr_MaxTokens req in
  if provider =s "openai" then estimateOpenAICost model inputTokens outputTokens
  else if provider =s "anthropic" then estimateAnthropicCost model inputTokens outputTokens
  else if provider =s "fake" then (if MakerChecker.Contains (gr_Prompt req) "expensive" then 100 else 5)
  else 0.

Record ProviderJSONConfig : Type := MkProviderJSONConfig {
  pj_APIKeyRef : string;
  pj_BaseURL : string;
  pj_DefaultModel : string;
  pj_CheapModel : string
}.
Definition json_config_fields : list (string * Json.setter ProviderJSONConfig) :=
  [("api_key_ref", Json.set_string (fun v c => MkProviderJSONConfig v (pj_BaseURL c) (pj_DefaultModel c) (pj_CheapModel c)));
   ("base_url", Json.set_string (fun v c => MkProviderJSONConfig (pj_APIKeyRef c) v (pj_DefaultModel c) (pj_CheapModel c)));
   ("default_model", Json.set_string (fun v c => MkProviderJSONConfig (pj_APIKeyRef c) (pj_BaseURL c) v (pj_CheapModel c)));
   ("cheap_model", Json.set_string (fun v c => MkProviderJSONConfig (pj_APIKeyRef c) (pj_BaseURL c) (pj_DefaultModel c) v))].

Section gateway.
Context {W : Type} `{Runtime W, GatewayStore W, ModelProvider W}.
Context (first_met : error -> list error -> error) (schemas_Validate : RawMessage -> string -> result unit).

Definition CtxErr (c : Ctx) (w : W) : option error :=
  match (if cx_caller c then CallerErr w else None) with
  | Some e => Some e
  | None => match cx_deadline c with Some t => if t <=? Now w then Some DeadlineExceeded else None | None => None end
  end.
Definition WithTimeout (c : Ctx) (d : Z) (w : W) : Ctx :=
  let t := Time.Add (Now w) d in
  MkCtx (Some (match cx_deadline c with Some t' => Z.min t t' | None => t end)) (cx_caller c) (cx_allowlist c).
Definition WithoutCancel (c : Ctx) : Ctx := MkCtx None false (cx_allowlist c).
Definition WithEndpointAllowlist (c : Ctx) (l : option (list string)) : Ctx := MkCtx (cx_deadline c) (cx_caller c) l.

Definition asks {A} (f : W -> A) : M W A := fun w => (Ok (f w), w).
(** [time.Now().UTC().Format("2006-01")]. *)
Definition period_of (t : Z) : string :=
  let '(y, m, _) := Time.civil_from_days (t / (24 * Time.Hour)) in GoStr.pad 4 y "" +:+ "-" +:+ GoStr.pad 2 m "".
Definition Milliseconds (d : Z) : Z := Z.quot d Time.Millisecond.
Definition since (start : Z) : M W Z := asks (fun w => Milliseconds (Time.Sub (Now w) start)).

(** ** The provider and its budget *)

Definition resolveSecret (ref : string) (w : W) : result string :=
  if ref =s "" then Ok "" else
  let val := Getenv ref w in
  let file := Getenv (ref +:+ "_FILE") w in
  if negb (val =s "") && negb (file =s "") then Err (Errorf "%s and %s_FILE cannot both be set" [AStr ref; AStr ref])
  else if negb (file =s "") then
    match ReadFile file w with
    | Err err => Err (Errorf "read %s_FILE: %w" [AStr ref; AWrap err])
    | Ok content => Ok (GoMap.TrimSpace content)
    end
  else Ok val.

Definition getProvider (ctx : Ctx) (p : Principal) : M W (AIProviderConfig * ProviderJSONConfig * ProviderProfile) :=
  cfg ← wrapM "failed to get default AI provider config: %w" (GetDefaultAIProviderConfig ctx p);
  if negb (AIStore.ac_Status cfg =s "active") then throw (errors_New "default AI provider config is disabled") else
  let zero := MkProviderJSONConfig "" "" "" "" in
  jsonCfg ← lift (if raw_len0 (AIStore.ac_Config cfg) then Ok zero
                  else wrapw "failed to unmarshal provider config: %w" (Json.Unmarshal json_config_fields zero (AIStore.ac_Config cfg)));
  _ ← (fun w => (wrapw "failed to resolve API key: %w" (resolveSecret (pj_APIKeyRef jsonCfg) w), w));
  if AIStore.ac_Provider cfg =s "fake" then mret (cfg, jsonCfg, FakeProfile)
  else if AIStore.ac_Provider cfg =s "anthropic" then mret (cfg, jsonCfg, AnthropicProfile)
  else if AIStore.ac_Provider cfg =s "openai" then mret (cfg, jsonCfg, OpenAIProfile)
  else throw (Errorf "unknown provider: %s" [AStr (AIStore.ac_Provider cfg)]).

Definition checkBudget (ctx : Ctx) (p : Principal) (cfg : AIProviderConfig) (period : string) : M W unit :=
  if 0 <? AIStore.ac_MonthlyBudgetCents cfg then
    usage ← wrapM "failed to get AI budget usage: %w" (GetAIBudgetUsage ctx (p_TenantID p) (p_WorkspaceID p) period);
    if AIStore.ac_MonthlyBudgetCents cfg <=? AIStore.au_CostCents usage then throw ErrBudgetExceeded else mret tt
  else mret tt.
Definition recordMetricsAndIncrementBudget (ctx : Ctx) (p : Principal) (period : string) (usage : Usage) : M W unit :=
  IncrementAIBudgetUsage ctx (p_TenantID p) (p_WorkspaceID p) period (us_CostCents usage) (us_InputTokens usage) (us_OutputTokens usage).

(** ** The activity record *)

Definition stringPtrOrNil (value : string) : option string := if value =s "" then None else Some value.
Definition activity_of (p : Principal) (action provider model decision : string) (usage : Usage) (latencyMs : Z) (promptVersionID : string)
    (retrievalRefs toolCalls : RawMessage) (classification outputRef : string) : AIActivity :=
  AIStore.MkAIActivity "" (p_TenantID p) (p_WorkspaceID p) (stringPtrOrNil (p_UserID p)) action provider model (stringPtrOrNil promptVersionID)
    retrievalRefs toolCalls (stringPtrOrNil classification) (us_InputTokens usage) (us_OutputTokens usage) (us_CostCents usage) latencyMs decision
    None (stringPtrOrNil outputRef) Time.zero.
(** A store that records no activity answers an empty id. *)
Definition recordActivityID (ctx : Ctx) (p : Principal) (action provider model decision : string) (usage : Usage) (latencyMs : Z)
    (promptVersionID : string) (retrievalRefs toolCalls : RawMessage) (classification outputRef : string) : M W string :=
  match RecordAIActivity with
  | None => mret ""
  | Some rec =>
      stored ← rec ctx p (activity_of p action provider model decision usage latencyMs promptVersionID retrievalRefs toolCalls classification outputRef);
      mret (AIStore.at_ID stored)
  end.
Definition recordActivity (ctx : Ctx) (p : Principal) (action provider model decision : string) (usage : Usage) (latencyMs : Z)
    (promptVersionID : string) (retrievalRefs toolCalls : RawMessage) (classification outputRef : string) : M W unit :=
  _ ← recordActivityID ctx p action provider model decision usage latencyMs promptVersionID retrievalRefs toolCalls classification outputRef;
  mret tt.

(** [record]: a context that has ended does not lose the record. *)
Definition record (ctx : Ctx) (p : Principal) (req : GenerateRequest) (provider decision : string) (model : string) (usage : Usage) (latencyMs : Z)
    : M W unit := fun w =>
  let activityCtx := match CtxErr ctx w with Some _ => WithoutCancel ctx | None => ctx end in
  recordActivity activityCtx p (gr_Action req) provider model decision usage latencyMs (gr_PromptVersionID req) (gr_RetrievalRefs req)
    (gr_ToolCalls req) (gr_Classification req) "" w.
(** [if err := record(...); err != nil { return failed(err) }; return e]. *)
Definition refuse {A} (r : M W unit) (failed : error -> error) (e : error) : M W A :=
  res ← try r;
  match res with Err err => throw (failed err) | Ok _ => throw e end.
Definition and_error (e err : error) : error := Errorf "%w; activity recording failed: %v" [AWrap e; AErr err].
Definition and_failed (e : error) (_ : error) : error := Errorf "%w; activity recording failed" [AWrap e].
Definition validation_and (valErr err : error) : error := Errorf "model output failed validation: %v; activity recording failed: %w" [AErr valErr; AWrap err].

(** ** Generate *)

Definition check_version (ctx : Ctx) (p : Principal) (req : GenerateRequest) : M W unit :=
  if gr_PromptVersionID req =s "" then mret tt else
  v ← try (GetPromptVersion ctx p (gr_PromptVersionID req));
  match v with
  | Err err => refuse (record ctx p req "unknown" "denied_policy" (gr_Model req) no_usage 0) (and_error err) (Errorf "load prompt version: %w" [AWrap err])
  | Ok version =>
      if negb (Prompts.pv_Status version =s "active") || negb (Prompts.pv_EvalStatus version =s "passed")
      then refuse (record ctx p req (Prompts.pv_Provider version) "denied_policy" (Prompts.pv_Model version) no_usage 0)
             (and_error ErrPromptVersionNotUsable)
             (Errorf "%w: status=%s eval_status=%s"
                [AWrap ErrPromptVersionNotUsable; AStr (Prompts.pv_Status version); AStr (Prompts.pv_EvalStatus version)])
      else mret tt
  end.
Definition govern (ctx : Ctx) (p : Principal) (req : GenerateRequest) : M W GenerateRequest :=
  match gr_RetrievedData req with
  | None => mret req
  | Some payload =>
      match Redact first_met payload (gr_Classifications req) (gr_Purpose req) with
      | Err err => refuse (record ctx p req "unknown" "denied_policy" (gr_Model req) no_usage 0) (and_failed err) err
      | Ok redacted => mret (set_Prompt (GovernedPrompt (gr_Prompt req) redacted) req)
      end
  end.
Definition fill_endpoint (jsonCfg : ProviderJSONConfig) (req : GenerateRequest) (w : W) : GenerateRequest :=
  set_endpoint (if gr_Model req =s "" then pj_DefaultModel jsonCfg else gr_Model req)
    (if gr_APIKey req =s "" then match resolveSecret (pj_APIKeyRef jsonCfg) w with Ok k => k | Err _ => "" end else gr_APIKey req)
    (if gr_BaseURL req =s "" then pj_BaseURL jsonCfg else gr_BaseURL req) req.

Definition is_deadline (e : error) : bool := match e with Sentinel n => n =s "context deadline exceeded" | _ => false end.
Definition is_timeout (ctx : Ctx) (err : error) (w : W) : bool :=
  match CtxErr ctx w with Some e => is_deadline e | None => false end || errors_Is err "context deadline exceeded" ||
  MakerChecker.Contains (GoFmt.Error err) "deadline exceeded" || MakerChecker.Contains (GoFmt.Error err) "timeout".

Section answer.
Context (ctx : Ctx) (p : Principal) (cfg : AIProviderConfig) (prof : ProviderProfile) (period : string) (req : GenerateRequest).
Definition rec (decision : string) (usage : Usage) (latencyMs : Z) : M W unit :=
  record ctx p req (AIStore.ac_Provider cfg) decision (gr_Model req) usage latencyMs.
Definition spend (usage : Usage) : M W unit := _ ← try (recordMetricsAndIncrementBudget ctx p period usage); mret tt.
Definition over_cap (cost : Z) : bool := (0 <? gr_MaxCostCents req) && (gr_MaxCostCents req <? cost).
Definition allow (usage : Usage) (duration : Z) : M W string :=
  wrapM "AI activity recording failed: %w"
    (recordActivityID ctx p (gr_Action req) (AIStore.ac_Provider cfg) (gr_Model req) "allowed" usage duration (gr_PromptVersionID req)
       (gr_RetrievalRefs req) (gr_ToolCalls req) (gr_Classification req) "").

Definition failed_call (err : error) (duration : Z) : M W GenerateResponse :=
  timeout ← asks (is_timeout ctx err);
  if timeout : bool then refuse (rec "execution_error" no_usage duration) (and_failed ErrCallTimeout) ErrCallTimeout
  else refuse (rec "execution_error" no_usage duration) (and_failed err) err.

Definition repair_prompt (valErr : error) : string :=
  gr_Prompt req +:+ newline +:+ newline +:+ "Your previous response failed validation with the following error:" +:+ newline +:+ GoFmt.Error valErr +:+
  newline +:+ newline +:+
  "Please fix the response and return it conforming strictly to the requested schema. Do not include any other text.".
Definition add_usage (a b : Usage) : Usage :=
  MkUsage (i64 (us_InputTokens a + us_InputTokens b)) (i64 (us_OutputTokens a + us_OutputTokens b)) (i64 (us_CostCents a + us_CostCents b)).

(** The one retry after an answer [resp] that failed validation with [valErr]. *)
Definition repair (resp : GenerateResponse) (duration : Z) (valErr : error) : M W GenerateResponse :=
  _ ← spend (gp_Usage resp);
  budget ← try (checkBudget ctx p cfg period);
  match budget with
  | Err err =>
      refuse (rec "schema_reject" (gp_Usage resp) duration) (validation_and valErr)
        (Errorf "model output failed validation: %v; repair retry blocked: %w" [AErr valErr; AWrap err])
  | Ok _ =>
      startRepair ← asks Now;
      answer ← try (Provider_Generate prof ctx (set_Prompt (repair_prompt valErr) req));
      durationRepair ← since startRepair;
      match answer with
      | Err repairErr =>
          timeout ← asks (is_timeout ctx repairErr);
          if timeout : bool
          then refuse (rec "execution_error" (gp_Usage resp) (i64 (duration + durationRepair))) (validation_and valErr) ErrCallTimeout
          else refuse (rec "schema_reject" (gp_Usage resp) duration) (validation_and valErr)
                 (Errorf "model output failed validation: %v; repair retry failed: %w" [AErr valErr; AWrap repairErr])
      | Ok repairResp =>
          let totalUsage := add_usage (gp_Usage resp) (gp_Usage repairResp) in
          if over_cap (us_CostCents totalUsage) then
            _ ← spend (gp_Usage repairResp);
            refuse (rec "denied_budget" totalUsage (i64 (duration + durationRepair))) (and_error ErrCallBudgetExceeded) ErrCallBudgetExceeded
          else
            _ ← spend (gp_Usage repairResp);
            match ValidateOutput schemas_Validate (gp_Content repairResp) (gr_OutputSchema req) (gr_DomainValidator req) with
            | Err repairValErr =>
                refuse (rec "schema_reject" (gp_Usage repairResp) (i64 (duration + durationRepair))) (validation_and valErr)
                  (Errorf "model output failed validation: %v; repaired output also failed validation: %w" [AErr valErr; AWrap repairValErr])
            | Ok _ =>
                activity ← allow totalUsage (i64 (duration + durationRepair));
                mret (MkGenerateResponse (gp_Content repairResp) totalUsage activity)
            end
      end
  end.

(** What becomes of an answer. *)
Definition finish (resp : GenerateResponse) (duration : Z) : M W GenerateResponse :=
  if over_cap (us_CostCents (gp_Usage resp)) then
    _ ← spend (gp_Usage resp);
    refuse (rec "denied_budget" (gp_Usage resp) duration) (and_failed ErrCallBudgetExceeded) ErrCallBudgetExceeded
  else
    match ValidateOutput schemas_Validate (gp_Content resp) (gr_OutputSchema req) (gr_DomainValidator req) with
    | Ok _ =>
        activity ← allow (gp_Usage resp) duration;
        _ ← spend (gp_Usage resp);
        mret (MkGenerateResponse (gp_Content resp) (gp_Usage resp) activity)
    | Err valErr => repair resp duration valErr
    end.

Definition call : M W GenerateResponse :=
  start ← asks Now;
  answer ← try (Provider_Generate prof ctx req);
  duration ← since start;
  match answer with
  | Err err => failed_call err duration
  | Ok resp => finish resp duration
  end.
End answer.

Definition Generate (ctx : Ctx) (p : Principal) (req : GenerateRequest) : M W GenerateResponse :=
  let req := if gr_Action req =s "" then set_Action "ai.generate" req else req in
  _ ← check_version ctx p req;
  req ← govern ctx p req;
  chosen ← try (getProvider ctx p);
  match chosen with
  | Err err => refuse (record ctx p req "unknown" "denied_policy" (gr_Model req) no_usage 0) (and_error err) err
  | Ok (cfg, jsonCfg, prof) =>
      period ← asks (fun w => period_of (Now w));
      budget ← try (checkBudget ctx p cfg period);
      match budget with
      | Err err => refuse (record ctx p req (AIStore.ac_Provider cfg) "denied_budget" (gr_Model req) no_usage 0) (and_failed err) err
      | Ok _ =>
          req ← asks (fill_endpoint jsonCfg req);
          let ctx := WithEndpointAllowlist ctx (AIStore.ac_EndpointAllowlist cfg) in
          if over_cap req (EstimateCost (AIStore.ac_Provider cfg) (gr_Model req) req)
          then refuse (record ctx p req (AIStore.ac_Provider cfg) "denied_budget" (gr_Model req) no_usage 0) (and_error ErrCallBudgetExceeded)
                 ErrCallBudgetExceeded
          else
            ctx ← asks (fun w => if 0 <? gr_Timeout req then WithTimeout ctx (gr_Timeout req) w else ctx);
            call ctx p cfg prof period req
      end
  end.

(** ** Embed and Moderate *)

Definition side_activity (ctx : Ctx) (p : Principal) (action model provider decision : string) (usage : Usage) (latencyMs : Z) : M W unit :=
  recordActivity ctx p action provider model decision usage latencyMs "" RawEmpty RawEmpty "" "".
Definition ignore (m : M W unit) : M W unit := _ ← try m; mret tt.
Definition default_endpoint (jsonCfg : ProviderJSONConfig) (model apiKey baseURL : string) (w : W) : string * string * string :=
  (if model =s "" then pj_DefaultModel jsonCfg else model,
   if apiKey =s "" then match resolveSecret (pj_APIKeyRef jsonCfg) w with Ok k => k | Err _ => "" end else apiKey,
   if baseURL =s "" then pj_BaseURL jsonCfg else baseURL).

Definition Embed (ctx : Ctx) (p : Principal) (req : EmbedRequest) : M W EmbedResponse :=
  chosen ← try (getProvider ctx p);
  match chosen with
  | Err err => _ ← ignore (side_activity ctx p "ai.embed" (er_Model req) "unknown" "denied_policy" no_usage 0); throw err
  | Ok (cfg, jsonCfg, prof) =>
      period ← asks (fun w => period_of (Now w));
      budget ← try (checkBudget ctx p cfg period);
      match budget with
      | Err err => _ ← ignore (side_activity ctx p "ai.embed" (er_Model req) (AIStore.ac_Provider cfg) "denied_budget" no_usage 0); throw err
      | Ok _ =>
          endpoint ← asks (default_endpoint jsonCfg (er_Model req) (er_APIKey req) (er_BaseURL req));
          let req := MkEmbedRequest endpoint.1.1 (er_Input req) endpoint.1.2 endpoint.2 in
          let ctx := WithEndpointAllowlist ctx (AIStore.ac_EndpointAllowlist cfg) in
          let activity := side_activity ctx p "ai.embed" (er_Model req) (AIStore.ac_Provider cfg) in
          start ← asks Now;
          answer ← try (Provider_Embed prof ctx req);
          duration ← since start;
          match answer with
          | Err err => _ ← ignore (activity "denied_policy" no_usage duration); throw err
          | Ok resp =>
              _ ← recordMetricsAndIncrementBudget ctx p period (ep_Usage resp);
              _ ← wrapM "AI activity recording failed: %w" (activity "allowed" (ep_Usage resp) duration);
              mret resp
          end
      end
  end.

Definition Moderate (ctx : Ctx) (p : Principal) (req : ModerateRequest) : M W ModerateResponse :=
  chosen ← try (getProvider ctx p);
  match chosen with
  | Err err => _ ← ignore (side_activity ctx p "ai.moderate" (mr_Model req) "unknown" "denied_policy" no_usage 0); throw err
  | Ok (cfg, jsonCfg, prof) =>
      period ← asks (fun w => period_of (Now w));
      budget ← try (checkBudget ctx p cfg period);
      match budget with
      | Err err => _ ← ignore (side_activity ctx p "ai.moderate" (mr_Model req) (AIStore.ac_Provider cfg) "denied_budget" no_usage 0); throw err
      | Ok _ =>
          endpoint ← asks (default_endpoint jsonCfg (mr_Model req) (mr_APIKey req) (mr_BaseURL req));
          let req := MkModerateRequest endpoint.1.1 (mr_Input req) endpoint.1.2 endpoint.2 in
          let ctx := WithEndpointAllowlist ctx (AIStore.ac_EndpointAllowlist cfg) in
          let activity := side_activity ctx p "ai.moderate" (mr_Model req) (AIStore.ac_Provider cfg) in
          start ← asks Now;
          answer ← try (Provider_Moderate prof ctx req);
          duration ← since start;
          match answer with
          | Err err => _ ← ignore (activity "denied_policy" no_usage duration); throw err
          | Ok resp =>
              _ ← recordMetricsAndIncrementBudget ctx p period (mo_Usage resp);
              _ ← wrapM "AI activity recording failed: %w" (activity "allowed" (mo_Usage resp) duration);
              mret resp
          end
      end
  end.
End gateway.

(** ** The copilots' requests (src/internal/httpapi/ai_copilot_*.go)

    None of them passes a classification. *)
Definition copilot_request (model template : string) (outputSchema : RawMessage) (validator : option (string -> result unit)) (data : json)
    (purpose action versionID : string) : GenerateRequest :=
  MkGenerateRequest model "" template outputSchema Float.zero 0 "" "" validator (Some (Ok data)) [] purpose action versionID RawEmpty RawEmpty "" 0 0.
Definition version_request (version : PromptVersion) := copilot_request (Prompts.pv_Model version) (Prompts.pv_Template version) (Prompts.pv_OutputSchema version).
Definition audience_request (version : PromptVersion) (validator : string -> result unit) (brief : string) : GenerateRequest :=
  version_request version (Some validator) (JObject [("brief", JString brief)]) "audience_dsl" "ai.audience_dsl" (Prompts.pv_ID version).
Definition journey_request (version : PromptVersion) (validator : string -> result unit) (brief : string) : GenerateRequest :=
  version_request version (Some validator) (JObject [("brief", JString brief)]) "journey_draft" "ai.journey_draft" (Prompts.pv_ID version).
Definition content_request (version : PromptVersion) (brief locale brandVoice : string) : GenerateRequest :=
  version_request version None (JObject [("brand_voice", JString brandVoice); ("brief", JString brief); ("locale", JString locale)])
    "content_draft" "ai.content_draft" (Prompts.pv_ID version).
Definition performance_request (version : PromptVersion) (validator : string -> result unit) (campaignID : string) (report : json)
    (experiment : option (string * json)) : GenerateRequest :=
  version_request version (Some validator)
    (JObject ([("campaign_id", JString campaignID); ("campaign_report", report)] ++
              match experiment with Some (id, r) => [("experiment_id", JString id); ("experiment_report", r)] | None => [] end))
    "performance_summary" "ai.performance_summary" (Prompts.pv_ID version).

End AIGateway.
