(* ===== verification/AIGatewaySpec.v ===== *)
(** * What a call to the gateway leaves behind

    The store and the providers are taken by their laws: reads change nothing
    one can see, recording an activity appends a row or fails, an increment is
    added to the month or fails, a provider's answer touches none of it.
    Whatever the providers answer and whatever fails, a call tries to record
    itself exactly once, as allowed only if it releases an answer; it bills
    every answer it was given; and no provider is asked unless the version, if
    the request names one, is published, the data redacted and the budget not
    spent when the request is sent, first or repair. *)

From Stdlib Require Import FunctionalExtensionality.
From S2P Require Import Prelude.
From S2P Require Import GoStd.
From S2P Require Import GoMap.
From S2P Require Import GoFloat.
From S2P Require Import Sha256.
From S2P Require Import Domain.
From S2P Require Import Store.
From S2P Require Import AuditLog.
From S2P Require Import GoFmt.
From S2P Require Import Redact.
From S2P Require Import RedactSpec.
From S2P Require Import MakerChecker.
From S2P Require Import StoreLemmas.
From S2P Require Import Prompts.
From S2P Require Import AIStore.
From S2P Require Import AIGateway.

Module AIGatewaySpec.
Import Redact AIGateway.

Abbreviation key := (string * string * string)%type.

(** ** The laws *)

(** What one can see of a world: the activity rows and how many records were
    lost; the requests providers were sent, with the month's usage as it stood
    when they were and the usage of the answer; the month's usage, and what was
    to be added to it and failed; the provider and the prompt versions
    configured. *)
Definition asked : Type := (GenerateRequest * (key -> Z)) * option Usage.
Class Observed (W : Type) := {
  activities : W -> list AIActivity;
  lost : W -> nat;
  calls : W -> list asked;
  spent : W -> key -> Z;
  unbilled : W -> key -> Z;
  provider_of : W -> Principal -> option AIProviderConfig;
  version_of : W -> Principal -> string -> option PromptVersion
}.

Section laws.
Context {W : Type} `{Runtime W, GatewayStore W, ModelProvider W, Observed W}.

Definition config_same (w w' : W) : Prop := provider_of w' = provider_of w /\ version_of w' = version_of w.
Definition same (w w' : W) : Prop :=
  config_same w w' /\ activities w' = activities w /\ lost w' = lost w /\ calls w' = calls w /\ spent w' = spent w /\ unbilled w' = unbilled w.
Definition at_key (k : key) (c : Z) (k' : key) : Z := if decide (k' = k) then c else 0.

(** The row an activity is stored as. *)
Definition recorded_as (a row : AIActivity) : Prop :=
  AIStore.at_PolicyDecision row = AIStore.at_PolicyDecision a /\ AIStore.at_CostCents row = AIStore.at_CostCents a /\
  AIStore.at_Action row = AIStore.at_Action a /\
  (AIStore.at_TenantID a <> "" -> AIStore.at_TenantID row = AIStore.at_TenantID a).

Class Laws : Prop := {
  prompt_law : forall ctx p id w r w', GetPromptVersion ctx p id w = (r, w') -> same w w' /\ forall v, r = Ok v -> version_of w p id = Some v;
  config_law : forall ctx p w r w', GetDefaultAIProviderConfig ctx p w = (r, w') -> same w w' /\ forall c, r = Ok c -> provider_of w p = Some c;
  usage_law : forall ctx t ws period w r w', GetAIBudgetUsage ctx t ws period w = (r, w') ->
    same w w' /\ forall u, r = Ok u -> AIStore.au_CostCents u = spent w (t, ws, period);
  increment_law : forall ctx t ws period c i o w r w', IncrementAIBudgetUsage ctx t ws period c i o w = (r, w') ->
    config_same w w' /\ activities w' = activities w /\ lost w' = lost w /\ calls w' = calls w /\
    forall k, spent w' k + unbilled w' k = spent w k + unbilled w k + at_key (t, ws, period) c k /\ (is_Ok r = true -> unbilled w' k = unbilled w k);
  record_law : exists rec, RecordAIActivity = Some rec /\ forall ctx p a w r w', rec ctx p a w = (r, w') ->
    config_same w w' /\ calls w' = calls w /\ spent w' = spent w /\ unbilled w' = unbilled w /\
    match r with
    | Ok b => exists row, activities w' = activities w ++ [row] /\ recorded_as a row /\ AIStore.at_ID row = AIStore.at_ID b /\ lost w' = lost w
    | Err _ => activities w' = activities w /\ lost w' = S (lost w)
    end;
  generate_law : forall prof ctx req w r w', Provider_Generate prof ctx req w = (r, w') ->
    config_same w w' /\ activities w' = activities w /\ lost w' = lost w /\ spent w' = spent w /\ unbilled w' = unbilled w /\
    calls w' = calls w ++ [((req, spent w), match r with Ok x => Some (gp_Usage x) | Err _ => None end)]
}.
End laws.
Arguments Laws W {_ _ _}.

(** ** Taking a run apart *)

Lemma bind_inv {W A B} (m : M W A) (f : A -> M W B) w r w' : (m ≫= f) w = (r, w') ->
  (exists a w1, m w = (Ok a, w1) /\ f a w1 = (r, w')) \/ (exists e, m w = (Err e, w') /\ r = Err e).
Proof. unfold mbind, M_bind. destruct (m w) as [[a|e] w1]; intros E; [left; eauto|right]. injection E as <- <-. eauto. Qed.
Lemma try_inv {W A B} (m : M W A) (f : result A -> M W B) w r w' : (try m ≫= f) w = (r, w') -> exists x w1, m w = (x, w1) /\ f x w1 = (r, w').
Proof. unfold mbind, M_bind, try. destruct (m w) as [x w1]. eauto. Qed.
Lemma asks_inv {W A B} (g : W -> A) (f : A -> M W B) w r w' : (asks g ≫= f) w = (r, w') -> f (g w) w = (r, w').
Proof. done. Qed.
Lemma wrapM_result {W A} fmt (m : M W A) w r w' : wrapM fmt m w = (r, w') -> exists x, m w = (x, w') /\ r = wrapw fmt x.
Proof. unfold wrapM. destruct (m w) as [x w1]. intros [= <- <-]. eauto. Qed.

Section gateway.
Context {W : Type} `{Runtime W, GatewayStore W, ModelProvider W, Observed W, !Laws W}.
Context (first_met : error -> list error -> error) (schemas_Validate : RawMessage -> string -> result unit).

(** What a part of a call adds: rows, lost records, calls, and costs. *)
Definition adds (w w' : W) (acts : list AIActivity) (n : nat) (cs : list asked) (bill : key -> Z) : Prop :=
  config_same w w' /\ activities w' = activities w ++ acts /\ lost w' = (lost w + n)%nat /\ calls w' = calls w ++ cs /\
  forall k, spent w' k + unbilled w' k = spent w k + unbilled w k + bill k.
Definition nothing (k : key) : Z := 0.
Definition plus (a b : key -> Z) (k : key) : Z := a k + b k.

Lemma adds_trans w w1 w2 a a' n n' c c' b b' : adds w w1 a n c b -> adds w1 w2 a' n' c' b' -> adds w w2 (a ++ a') (n + n') (c ++ c') (plus b b').
Proof.
  intros ([C1 C2] & A & L & C & B) ([C1' C2'] & A' & L' & C' & B'). repeat split; [congruence|congruence| | | |].
  - by rewrite A', A, (assoc _).
  - rewrite L', L. lia.
  - by rewrite C', C, (assoc _).
  - intros k. rewrite B', B. unfold plus. lia.
Qed.
Lemma same_adds w w' : same w w' -> adds w w' [] 0 [] nothing.
Proof.
  intros (C & A & L & Ca & S & U). split; [done|]. rewrite A, L, Ca, S, U, !(right_id_L [] (++)). repeat split; try lia.
  intros k. unfold nothing. lia.
Qed.
Lemma same_refl (w : W) : same w w.
Proof. repeat split. Qed.
Lemma same_trans (w w1 w2 : W) : same w w1 -> same w1 w2 -> same w w2.
Proof. intros ([? ?] & ? & ? & ? & ? & ?) ([? ?] & ? & ? & ? & ? & ?). repeat split; congruence. Qed.

(** A record: one row, or one lost. *)
Definition one_record (decision : string) (cost : Z) (acts : list AIActivity) (n : nat) : Prop :=
  (exists a, acts = [a] /\ n = 0%nat /\ AIStore.at_PolicyDecision a = decision /\ AIStore.at_CostCents a = cost) \/ (acts = [] /\ n = 1%nat).

Lemma recordActivityID_adds ctx p action provider model decision usage l pv refs tools cl out w r w' :
  recordActivityID ctx p action provider model decision usage l pv refs tools cl out w = (r, w') ->
  exists acts n, adds w w' acts n [] nothing /\
    match r with
    | Ok id => exists a, acts = [a] /\ n = 0%nat /\ AIStore.at_PolicyDecision a = decision /\ AIStore.at_CostCents a = us_CostCents usage /\
                 AIStore.at_ID a = id
    | Err _ => acts = [] /\ n = 1%nat
    end.
Proof.
  unfold recordActivityID. destruct record_law as (rec & -> & Hrec). intros Hr.
  assert (Hq : forall w1 x, config_same w w1 -> calls w1 = calls w -> spent w1 = spent w -> unbilled w1 = unbilled w -> activities w1 = activities w ++ x ->
    forall n, lost w1 = (lost w + n)%nat -> adds w w1 x n [] nothing).
  { intros w1 x C Ca S U A n L. repeat split; [apply C|apply C|done|done|by rewrite Ca, (right_id_L [] (++))|]. intros k. rewrite S, U. unfold nothing. lia. }
  apply bind_inv in Hr as [(b & w1 & E & Hr)|(e & E & ->)]; apply Hrec in E as (C & Ca & S & U & E).
  - injection Hr as <- <-. destruct E as (row & A & (D & Co & _) & I & L). exists [row], 0%nat. split; [|by exists row].
    apply Hq; [done..|]. by rewrite Nat.add_0_r.
  - destruct E as [A L]. exists [], 1%nat. split; [|done]. apply Hq; [done..| |]; [by rewrite A, (right_id_L [] (++))|lia].
Qed.
Lemma record_adds ctx p req provider decision model usage l w r w' : record ctx p req provider decision model usage l w = (r, w') ->
  exists acts n, adds w w' acts n [] nothing /\ one_record decision (us_CostCents usage) acts n.
Proof.
  unfold record, recordActivity. intros Hr. apply bind_inv in Hr as [(id & w1 & E & Hr)|(e & E & ->)]; apply recordActivityID_adds in E as (acts & n & Ha & E).
  - injection Hr as <- <-. exists acts, n. split; [done|]. left. destruct E as (a & ? & ? & ? & ? & _). by exists a.
  - exists acts, n. split; [done|]. by right.
Qed.
Lemma refuse_adds {A} ctx p req provider decision model usage l failed e w (r : result A) w' :
  refuse (record ctx p req provider decision model usage l) failed e w = (r, w') ->
  exists acts n e', adds w w' acts n [] nothing /\ one_record decision (us_CostCents usage) acts n /\ r = Err e'.
Proof.
  unfold refuse. intros Hr. apply try_inv in Hr as (x & w1 & E & Hr). apply record_adds in E as (acts & n & Ha & E).
  destruct x as [[]|err]; injection Hr as <- <-; eauto 10.
Qed.
Lemma spend_adds ctx p period usage w r w' : spend ctx p period usage w = (r, w') ->
  r = Ok tt /\ adds w w' [] 0 [] (at_key (p_TenantID p, p_WorkspaceID p, period) (us_CostCents usage)).
Proof.
  unfold spend, recordMetricsAndIncrementBudget. intros Hr. apply try_inv in Hr as (x & w1 & E & Hr). injection Hr as <- <-. split; [done|].
  apply increment_law in E as (C & A & L & Ca & S). split; [done|]. rewrite A, L, Ca, !(right_id_L [] (++)). repeat split; [lia|]. intros k. apply S.
Qed.
Lemma checkBudget_same ctx p cfg period w r w' : checkBudget ctx p cfg period w = (r, w') ->
  same w w' /\ (is_Ok r = true -> 0 < AIStore.ac_MonthlyBudgetCents cfg ->
                spent w (p_TenantID p, p_WorkspaceID p, period) < AIStore.ac_MonthlyBudgetCents cfg).
Proof.
  unfold checkBudget. destruct (Z.ltb_spec 0 (AIStore.ac_MonthlyBudgetCents cfg)); [|intros [= <- <-]; split; [apply same_refl|lia]].
  intros Hr. apply bind_inv in Hr as [(u & w1 & E & Hr)|(e & E & ->)]; apply wrapM_result in E as (x & E & Ex); apply usage_law in E as [S E].
  - destruct x as [x|]; [|done]. injection Ex as ->. specialize (E _ eq_refl). destruct (Z.leb_spec (AIStore.ac_MonthlyBudgetCents cfg) (AIStore.au_CostCents x));
      injection Hr as <- <-; (split; [done|]); [done|]. intros _ _. lia.
  - by split.
Qed.

(** ** An answer settled *)

Definition usages (cs : list asked) : list Usage := omap snd cs.
Definition sum (us : list Usage) : Z := fold_right (fun u acc => us_CostCents u + acc) 0 us.
(** What the answer's usage adds up to: the repaired one's is an int64 sum. *)
Definition total (us : list Usage) : Z :=
  match us with [] => 0 | u :: us' => fold_left (fun acc u' => i64 (acc + us_CostCents u')) us' (us_CostCents u) end.
(** How a call ends, given the usage of the answers it was given. *)
Definition ended (req : GenerateRequest) (us : list Usage) (acts : list AIActivity) (n : nat) (r : result GenerateResponse) : Prop :=
  match r with
  | Ok out =>
      (exists a, acts = [a] /\ n = 0%nat /\ AIStore.at_PolicyDecision a = "allowed" /\ AIStore.at_CostCents a = us_CostCents (gp_Usage out) /\
                 AIStore.at_ID a = gp_ActivityID out) /\
      us_CostCents (gp_Usage out) = total us /\ (0 < gr_MaxCostCents req -> us_CostCents (gp_Usage out) <= gr_MaxCostCents req)
  | Err _ => exists d c, d <> "allowed" /\ one_record d c acts n
  end.
Definition extends (req : GenerateRequest) (c : asked) : Prop := exists t, gr_Prompt c.1.1 = gr_Prompt req +:+ t.

Section answer.
Context (ctx : Ctx) (p : Principal) (cfg : AIProviderConfig) (prof : ProviderProfile) (period : string) (req : GenerateRequest).
Definition month : key := (p_TenantID p, p_WorkspaceID p, period).
(** The month's budget was not spent when the request was sent. *)
Definition affordable (c : asked) : Prop := 0 < AIStore.ac_MonthlyBudgetCents cfg -> c.1.2 month < AIStore.ac_MonthlyBudgetCents cfg.

(** A settlement that makes no further call, and one that may make one: the
    cost is billed unless the record was lost. *)
Definition settles0 (w w' : W) (us : list Usage) (bill : Z) (r : result GenerateResponse) : Prop :=
  exists acts n b, adds w w' acts n [] (at_key month b) /\ (n = 0%nat -> b = bill) /\ ended req us acts n r.
Definition settles (w w' : W) (us : list Usage) (bill : Z) (r : result GenerateResponse) : Prop :=
  exists acts n cs b, adds w w' acts n cs (at_key month b) /\ (n = 0%nat -> b = bill + sum (usages cs)) /\ (length cs <= 1)%nat /\
    Forall (extends req) cs /\ Forall affordable cs /\ ended req (us ++ usages cs) acts n r.

Lemma at_key_plus k a b k' : at_key k (a + b) k' = at_key k a k' + at_key k b k'.
Proof. unfold at_key. destruct (decide _); lia. Qed.
Lemma adds_bill w w' acts n cs b b' : adds w w' acts n cs b -> (forall k, b k = b' k) -> adds w w' acts n cs b'.
Proof. intros (C & A & L & Ca & B) E. repeat split; [apply C|apply C|done..|]. intros k. by rewrite B, E. Qed.
Lemma adds_then w w1 w' acts n c c' b b' b'' acts' n' : adds w w1 acts n c b -> adds w1 w' acts' n' c' b' ->
  (forall k, plus b b' k = b'' k) -> adds w w' (acts ++ acts') (n + n') (c ++ c') b''.
Proof. intros Hx Hy E. eapply adds_bill; [apply (adds_trans _ _ _ _ _ _ _ _ _ _ _ Hx Hy)|done]. Qed.
Lemma nothing_at k k' : nothing k' = at_key k 0 k'.
Proof. unfold nothing, at_key. by destruct (decide _). Qed.
Lemma plus_at k a b k' : plus (at_key k a) (at_key k b) k' = at_key k (a + b) k'.
Proof. unfold plus. by rewrite <- at_key_plus. Qed.

Lemma settles0_settles w w' us bill r : settles0 w w' us bill r -> settles w w' us bill r.
Proof.
  intros (acts & n & b & Ha & Hb & E). exists acts, n, [], b. change (usages []) with (@nil Usage). rewrite (right_id_L [] (++)).
  split; [done|]. split; [simpl; rewrite Z.add_0_r; done|]. split; [simpl; lia|]. by repeat split.
Qed.
(** A cost billed, or nothing done, before the rest is settled. *)
Lemma settles0_after w w1 w' us c bill r : adds w w1 [] 0 [] (at_key month c) -> settles0 w1 w' us bill r -> settles0 w w' us (c + bill) r.
Proof.
  intros Hx (acts & n & b & Hy & Hb & E). exists acts, n, (c + b). split; [|split; [lia|done]].
  apply (adds_then _ _ _ _ _ _ _ _ _ _ _ _ Hx Hy). apply plus_at.
Qed.
Lemma settles_after w w1 w' us c bill r : adds w w1 [] 0 [] (at_key month c) -> settles w1 w' us bill r -> settles w w' us (c + bill) r.
Proof.
  intros Hx (acts & n & cs & b & Hy & Hb & E). exists acts, n, cs, (c + b). split; [|split; [lia|done]].
  apply (adds_then _ _ _ _ _ _ _ _ _ _ _ _ Hx Hy). apply plus_at.
Qed.
Lemma settles_same w w1 w' us bill r : same w w1 -> settles w1 w' us bill r -> settles w w' us bill r.
Proof. intros Hs Hx. rewrite <- (Z.add_0_l bill). eapply settles_after; [|done]. eapply adds_bill; [by apply same_adds|]. apply nothing_at. Qed.
(** A further call: its usage joins the answer's. *)
Lemma settles_call w w1 w' us bill r c : adds w w1 [] 0 [c] nothing -> extends req c -> affordable c ->
  settles0 w1 w' (us ++ usages [c]) (bill + sum (usages [c])) r -> settles w w' us bill r.
Proof.
  intros Ha Hx Hf (acts & n & b & Hy & Hb & E). exists acts, n, [c], b. split; [|split; [done|split; [simpl; lia|]]]; [|by repeat constructor].
  by apply (adds_then _ _ _ _ _ _ _ _ _ _ _ _ Ha Hy).
Qed.

(** Refusals and releases settle. *)
Lemma refused_settles decision usage l failed e w r w' us : decision <> "allowed" ->
  refuse (rec ctx p cfg req decision usage l) failed e w = (r, w') -> settles0 w w' us 0 r.
Proof.
  intros Hd Hr. apply refuse_adds in Hr as (acts & n & e' & Ha & Ho & ->). exists acts, n, 0. split; [|split; [done|]].
  - eapply adds_bill; [apply Ha|]. apply nothing_at.
  - exists decision, (us_CostCents usage). by split.
Qed.
Lemma allow_adds usage l w r w' : allow ctx p cfg req usage l w = (r, w') ->
  exists acts n, adds w w' acts n [] nothing /\
    match r with
    | Ok id => exists a, acts = [a] /\ n = 0%nat /\ AIStore.at_PolicyDecision a = "allowed" /\ AIStore.at_CostCents a = us_CostCents usage /\
                 AIStore.at_ID a = id
    | Err _ => acts = [] /\ n = 1%nat
    end.
Proof.
  unfold allow. intros Hr. apply wrapM_result in Hr as (x & E & ->). apply recordActivityID_adds in E as (acts & n & Ha & E).
  exists acts, n. split; [done|]. by destruct x.
Qed.
Lemma allowed_settles usage l content c w (m : string -> M W unit) r w' us : us_CostCents usage = total us -> over_cap req (us_CostCents usage) = false ->
  (forall id w r w', m id w = (r, w') -> r = Ok tt /\ adds w w' [] 0 [] (at_key month c)) ->
  (activity ← allow ctx p cfg req usage l; _ ← m activity; mret (MkGenerateResponse content usage activity)) w = (r, w') ->
  settles0 w w' us c r.
Proof.
  intros Ht Hc Hm Hr. apply bind_inv in Hr as [(id & w1 & E & Hr)|(e & E & ->)]; apply allow_adds in E as (acts & n & Ha & E).
  - apply bind_inv in Hr as [(x & w2 & E2 & Hr)|(e & E2 & ->)]; apply Hm in E2 as [E2 Hb]; [|done]. injection Hr as <- <-.
    exists (acts ++ []), (n + 0)%nat, c. split; [|split; [done|]].
    + eapply (adds_then _ _ _ _ _ _ _ _ _ _ _ _ Ha Hb). intros k. unfold plus, nothing. lia.
    + rewrite (right_id_L [] (++)), Nat.add_0_r. split; [|split; [done|]]; [|unfold over_cap in Hc; simpl; lia].
      destruct E as (a & ? & ? & ? & ? & ?). by exists a.
  - exists acts, n, 0. split; [eapply adds_bill; [done|]; apply nothing_at|]. destruct E as [-> ->]. split; [done|]. exists "", 0. split; [done|]. by right.
Qed.

Lemma generate_adds ctx' req' w r w' : Provider_Generate prof ctx' req' w = (r, w') ->
  adds w w' [] 0 [((req', spent w), match r with Ok x => Some (gp_Usage x) | Err _ => None end)] nothing.
Proof.
  intros E. apply generate_law in E as (C & A & L & S & U & Ca). split; [done|]. rewrite A, L, S, U, (right_id_L [] (++)). repeat split; [lia|done|].
  intros k. unfold nothing. lia.
Qed.

(** The one repair. *)
Lemma repair_settles resp duration valErr w r w' : repair schemas_Validate ctx p cfg prof period req resp duration valErr w = (r, w') ->
  settles w w' [gp_Usage resp] (us_CostCents (gp_Usage resp)) r.
Proof.
  unfold repair. intros Hr. apply bind_inv in Hr as [(x & w1 & E & Hr)|(e & E & ->)]; apply spend_adds in E as [E Hs]; [|done].
  rewrite <- (Z.add_0_r (us_CostCents _)). eapply settles_after; [done|]. clear x E Hs.
  apply try_inv in Hr as (b & w2 & E & Hr). apply checkBudget_same in E as [Hs Hf]. eapply settles_same; [done|].
  destruct b as [|err]; [|by eapply settles0_settles, refused_settles, Hr]. specialize (Hf eq_refl).
  assert (Hf' : forall u, affordable ((set_Prompt (repair_prompt req valErr) req, spent w2), u)).
  { intros u Hp. destruct Hs as (_ & _ & _ & _ & -> & _). by apply Hf. }
  clear Hs Hf. apply asks_inv in Hr.
  apply try_inv in Hr as (answer & w3 & E & Hr). apply asks_inv in Hr. apply generate_adds in E.
  eapply settles_call; [done|by eexists|done|]. clear E. destruct answer as [out|repairErr].
  - change (usages _) with [gp_Usage out]. assert (Hz : 0 + sum [gp_Usage out] = us_CostCents (gp_Usage out) + 0) by (simpl; lia). rewrite Hz. clear Hz.
    destruct (over_cap req _) eqn:Hc.
    + apply bind_inv in Hr as [(x & w4 & E & Hr)|(e & E & ->)]; apply spend_adds in E as [E Hs]; [|done].
      eapply settles0_after; [done|]. by eapply refused_settles, Hr.
    + apply bind_inv in Hr as [(x & w4 & E & Hr)|(e & E & ->)]; apply spend_adds in E as [E Hs]; [|done].
      eapply settles0_after; [done|]. destruct (ValidateOutput _ _ _ _) as [[]|err]; [|by eapply refused_settles, Hr].
      refine (allowed_settles _ _ _ 0 _ (fun _ => mret tt) _ _ _ _ Hc _ Hr); [done|].
      intros id w5 r5 w5' [= <- <-]. split; [done|]. eapply adds_bill; [apply same_adds, same_refl|]. apply nothing_at.
  - change (usages _) with (@nil Usage). apply asks_inv in Hr. destruct (is_timeout _ _ _); by eapply refused_settles, Hr.
Qed.
Lemma finish_settles resp duration w r w' : finish schemas_Validate ctx p cfg prof period req resp duration w = (r, w') ->
  settles w w' [gp_Usage resp] (us_CostCents (gp_Usage resp)) r.
Proof.
  unfold finish. intros Hr. destruct (over_cap req _) eqn:Hc.
  - apply bind_inv in Hr as [(x & w1 & E & Hr)|(e & E & ->)]; apply spend_adds in E as [E Hs]; [|done].
    rewrite <- (Z.add_0_r (us_CostCents _)). eapply settles_after; [done|]. by eapply settles0_settles, refused_settles, Hr.
  - destruct (ValidateOutput _ _ _ _) as [[]|err]; [|by eapply repair_settles].
    apply settles0_settles. refine (allowed_settles _ _ _ _ _ (fun _ => spend ctx p period (gp_Usage resp)) _ _ _ _ Hc _ Hr); [done|].
    intros id w5 r5 w5' E. by apply spend_adds in E.
Qed.
Lemma call_settles w r w' : call schemas_Validate ctx p cfg prof period req w = (r, w') ->
  exists acts n u cs b, let c := ((req, spent w), u) in adds w w' acts n (c :: cs) (at_key month b) /\ (n = 0%nat -> b = sum (usages (c :: cs))) /\
    (length cs <= 1)%nat /\ Forall (extends req) (c :: cs) /\ Forall affordable cs /\ ended req (usages (c :: cs)) acts n r.
Proof.
  unfold call. intros Hr. apply asks_inv in Hr. apply try_inv in Hr as (answer & w1 & E & Hr). apply asks_inv in Hr. apply generate_adds in E.
  assert (Hx : forall u, extends req ((req, spent w), u)) by (intros u; exists ""; by rewrite sapp_nil). destruct answer as [resp|err].
  - apply finish_settles in Hr as (acts & n & cs & b & Hy & Hb & L & F & Fa & En). exists acts, n, (Some (gp_Usage resp)), cs, b.
    split; [by apply (adds_then _ _ _ _ _ _ _ _ _ _ _ _ E Hy)|]. split; [done|]. split; [exact L|]. split; [by constructor|]. by split.
  - unfold failed_call in Hr. apply asks_inv in Hr. assert (Hs : settles0 w1 w' [] 0 r) by (destruct (is_timeout _ _ _); by eapply refused_settles, Hr).
    destruct Hs as (acts & n & b & Hy & Hb & En). exists acts, n, None, [], b.
    split; [by apply (adds_then _ _ _ _ _ _ _ _ _ _ _ _ E Hy)|]. split; [done|]. split; [simpl; lia|]. split; [by constructor|]. by split.
Qed.
End answer.

(** ** The whole call *)

Definition refused (w w' : W) : Prop := exists acts n d c, adds w w' acts n [] nothing /\ d <> "allowed" /\ one_record d c acts n.
Definition authorised (w : W) (p : Principal) (req : GenerateRequest) : Prop :=
  gr_PromptVersionID req = "" \/
  exists v, version_of w p (gr_PromptVersionID req) = Some v /\ Prompts.pv_Status v = "active" /\ Prompts.pv_EvalStatus v = "passed".
(** The prompt a request is sent with. *)
Definition governed (req : GenerateRequest) (prompt : string) : Prop :=
  match gr_RetrievedData req with
  | None => prompt = gr_Prompt req
  | Some payload => exists redacted, Redact first_met payload (gr_Classifications req) (gr_Purpose req) = Ok redacted /\
                                     prompt = GovernedPrompt (gr_Prompt req) redacted
  end.
Definition funded (w : W) (p : Principal) (period : string) (cfg : AIProviderConfig) : Prop :=
  provider_of w p = Some cfg /\ AIStore.ac_Status cfg = "active" /\
  (0 < AIStore.ac_MonthlyBudgetCents cfg -> spent w (month p period) < AIStore.ac_MonthlyBudgetCents cfg).

Lemma refuse_refused {A} ctx p req provider decision model usage l failed e w (r : result A) w' : decision <> "allowed" ->
  refuse (record ctx p req provider decision model usage l) failed e w = (r, w') -> is_Ok r = false /\ refused w w'.
Proof. intros Hd Hr. apply refuse_adds in Hr as (acts & n & e' & Ha & Ho & ->). split; [done|]. by exists acts, n, decision, (us_CostCents usage). Qed.
Lemma check_version_cases ctx p req w r w' : check_version ctx p req w = (r, w') ->
  (is_Ok r = true /\ same w w' /\ authorised w p req) \/ (is_Ok r = false /\ exists w1, same w w1 /\ refused w1 w').
Proof.
  unfold check_version. intros Hr. destruct (gr_PromptVersionID req =s "") eqn:Ei.
  - injection Hr as <- <-. left. split; [done|]. split; [apply same_refl|]. left. by apply seqb_true.
  - apply try_inv in Hr as (v & w1 & E & Hr). apply prompt_law in E as [Hs Ev]. destruct v as [v|err].
    + destruct (negb _ || negb _) eqn:Eu; [right; apply refuse_refused in Hr as [? ?]; eauto|]. injection Hr as <- <-. left. split; [done|]. split; [done|]. right. exists v.
      apply orb_false_iff in Eu as [E1%negb_false_iff E2%negb_false_iff]. apply seqb_true in E1, E2. by split; [apply Ev|].
    + right. apply refuse_refused in Hr as [? ?]; eauto.
Qed.
Lemma govern_cases ctx p req w r w' : govern first_met ctx p req w = (r, w') ->
  (exists req', r = Ok req' /\ w' = w /\ governed req (gr_Prompt req') /\ gr_MaxCostCents req' = gr_MaxCostCents req) \/ (is_Ok r = false /\ refused w w').
Proof.
  unfold govern, governed. intros Hr. destruct (gr_RetrievedData req) as [payload|]; [|injection Hr as <- <-; left; eauto].
  destruct (Redact _ _ _ _) as [redacted|err] eqn:Er; [|right; by eapply refuse_refused, Hr]. injection Hr as <- <-. left. eexists. split; [done|].
  split; [done|]. split; [by exists redacted|done].
Qed.
Lemma getProvider_same ctx p w r w' : getProvider ctx p w = (r, w') ->
  same w w' /\ forall cfg j prof, r = Ok (cfg, j, prof) -> provider_of w p = Some cfg /\ AIStore.ac_Status cfg = "active".
Proof.
  unfold getProvider. intros Hr. apply bind_inv in Hr as [(cfg & w1 & E & Hr)|(e & E & ->)]; apply wrapM_result in E as (x & E & Ex);
    apply config_law in E as [Hs Ec]; [|split; [done|by intros]]. destruct x as [x|]; [|done]. injection Ex as ->. specialize (Ec _ eq_refl).
  destruct (negb _) eqn:Ea; [injection Hr as <- <-; split; [done|by intros]|]. apply negb_false_iff, seqb_true in Ea.
  apply bind_inv in Hr as [(j & w2 & E & Hr)|(e & E & ->)]; injection E as E <-; [|split; [done|by intros]].
  apply bind_inv in Hr as [(k & w2 & E2 & Hr)|(e & E2 & ->)]; injection E2 as E2 <-; [|split; [done|by intros]].
  repeat match type of Hr with (if ?b then _ else _) _ = _ => destruct b end; injection Hr as <- <-; (split; [done|]); intros ? ? ? [= <- <- <-]; done.
Qed.

(** What the providers were asked, if they were. *)
Definition permitted (w : W) (p : Principal) (period : string) (req : GenerateRequest) (cs : list asked) : Prop :=
  authorised w p req /\
  exists cfg prompt, provider_of w p = Some cfg /\ AIStore.ac_Status cfg = "active" /\ Forall (affordable p cfg period) cs /\
    governed req prompt /\ Forall (fun c => exists t, gr_Prompt c.1.1 = prompt +:+ t) cs /\
    forall c, head cs = Some c -> 0 < gr_MaxCostCents req -> EstimateCost (AIStore.ac_Provider cfg) (gr_Model c.1.1) c.1.1 <= gr_MaxCostCents req.

Definition generated (w w' : W) (p : Principal) (req : GenerateRequest) (r : result GenerateResponse) : Prop :=
  exists period acts n cs b, adds w w' acts n cs (at_key (month p period) b) /\ (n = 0%nat -> b = sum (usages cs)) /\ (length cs <= 2)%nat /\
    ended req (usages cs) acts n r /\ (cs <> [] -> permitted w p period req cs).

Lemma refused_generated w w' p req r : refused w w' -> is_Ok r = false -> generated w w' p req r.
Proof.
  intros (acts & n & d & c & Ha & Hd & Ho) Hr. exists "", acts, n, [], 0. split; [eapply adds_bill; [done|]; apply nothing_at|]. split; [done|].
  split; [simpl; lia|]. split; [|done]. destruct r as [|e]; [done|]. by exists d, c.
Qed.
Lemma refused_after w w1 w' : same w w1 -> refused w1 w' -> refused w w'.
Proof.
  intros Hs (acts & n & d & c & Ha & Hd & Ho). exists acts, n, d, c. split; [|done].
  by apply (adds_then _ _ _ _ _ _ _ _ _ _ _ _ (same_adds _ _ Hs) Ha).
Qed.
Lemma same_funded w w1 p period cfg : same w w1 -> funded w1 p period cfg -> funded w p period cfg.
Proof. unfold funded. by intros ([-> _] & _ & _ & _ & -> & _). Qed.

Lemma Generate_generated ctx p req w r w' : Generate first_met schemas_Validate ctx p req w = (r, w') -> generated w w' p req r.
Proof.
  unfold Generate. set (req0 := if _ : bool then _ else _). assert (Hq : gr_PromptVersionID req0 = gr_PromptVersionID req /\
    gr_MaxCostCents req0 = gr_MaxCostCents req /\ forall prompt, governed req0 prompt -> governed req prompt) by (unfold req0; by destruct (_ =s _)).
  destruct Hq as (Hv & Hm & Hg). clearbody req0. intros Hr.
  apply bind_inv in Hr as [(x & w1 & E & Hr)|(e & E & ->)]; apply check_version_cases in E as [(O1 & S1 & A1)|[N1 (w0 & S1 & R1)]]; try done;
    [|eapply refused_generated; [by eapply refused_after|done]]. unfold authorised in A1. rewrite Hv in A1.
  apply bind_inv in Hr as [(req1 & w2 & E & Hr)|(e & E & ->)]; apply govern_cases in E as [(req2 & E & -> & G2 & M2)|[N2 R2]]; try done;
    [|eapply refused_generated; [by eapply refused_after|done]]. injection E as <-. apply Hg in G2. rewrite Hm in M2. clear Hg Hm Hv O1 x.
  apply try_inv in Hr as (chosen & w3 & E & Hr). apply getProvider_same in E as [S3 P3]. pose proof (same_trans _ _ _ S1 S3) as S13.
  destruct chosen as [[[cfg j] prof]|err]; [|apply refuse_refused in Hr as [? ?]; [|done]; eapply refused_generated; [by eapply refused_after|done]].
  apply asks_inv in Hr. set (period := period_of _) in Hr. apply try_inv in Hr as (budget & w4 & E & Hr). apply checkBudget_same in E as [S4 B4].
  pose proof (same_trans _ _ _ S13 S4) as S14.
  destruct budget as [|err]; [|apply refuse_refused in Hr as [? ?]; [|done]; eapply refused_generated; [by eapply refused_after|done]].
  assert (F : funded w p period cfg).
  { apply (same_funded w w3); [done|]. destruct (P3 _ _ _ eq_refl) as [Pc Pa]. destruct S3 as ([Sc _] & _). split; [by rewrite Sc|]. split; [done|].
    intros Hb. by apply B4. }
  apply asks_inv in Hr. set (req3 := fill_endpoint _ _ _) in Hr. assert (E3 : gr_Prompt req3 = gr_Prompt req1 /\ gr_MaxCostCents req3 = gr_MaxCostCents req) by done.
  clearbody req3. destruct E3 as [Ep Em]. destruct (over_cap req3 _) eqn:Hc;
    [apply refuse_refused in Hr as [? ?]; [|done]; eapply refused_generated; [by eapply refused_after|done]|].
  apply asks_inv, call_settles in Hr as (acts & n & u & cs & b & Ha & Hb & L & Fx & Fa & En).
  exists period, acts, n, (((req3, spent w4), u) :: cs), b. split; [by apply (adds_then _ _ _ _ _ _ _ _ _ _ _ _ (same_adds _ _ S14) Ha)|]. split; [done|].
  split; [exact (le_n_S _ _ L)|]. split; [|].
  - unfold ended in *. destruct r; [by rewrite <- Em|done].
  - intros _. split; [done|]. exists cfg, (gr_Prompt req1). destruct F as (Fc & Fs & Fb). split; [done|]. split; [done|]. split; [|split; [done|split]].
    + constructor; [|done]. intros Hp. destruct S14 as (_ & _ & _ & _ & -> & _). by apply Fb.
    + eapply Forall_impl; [exact Fx|]. intros c (t & Ht). exists t. by rewrite <- Ep.
    + intros c [= <-] Hmax. unfold over_cap in Hc. rewrite Em in Hc. simpl in *. lia.
Qed.

(** C29: a call to [Generate] tries to record itself exactly once, whatever the
    providers, the budget and the validation do: it leaves one activity row, or
    one failed record.  It releases an answer only with the row that allows it,
    which carries the answer's cost and its id; a refusal leaves no such row. *)
Theorem Generate_recorded ctx p req w r w' : Generate first_met schemas_Validate ctx p req w = (r, w') ->
  exists acts, activities w' = activities w ++ acts /\ (length acts + lost w' = lost w + 1)%nat /\
    match r with
    | Ok out => exists a, acts = [a] /\ AIStore.at_PolicyDecision a = "allowed" /\ AIStore.at_CostCents a = us_CostCents (gp_Usage out) /\
                  AIStore.at_ID a = gp_ActivityID out
    | Err _ => Forall (fun a => AIStore.at_PolicyDecision a <> "allowed") acts
    end.
Proof.
  intros Hr. apply Generate_generated in Hr as (period & acts & n & cs & b & (_ & Ha & Hl & _) & _ & _ & En & _). exists acts. split; [done|].
  rewrite Hl. unfold ended in En. destruct r as [out|e].
  - destruct En as ((a & -> & -> & ? & ? & ?) & _). split; [simpl; lia|]. by exists a.
  - destruct En as (d & c & Hd & [(a & -> & -> & <- & _)|[-> ->]]); (split; [simpl; lia|]); [by constructor|done].
Qed.

(** C31: at most two requests are sent, and the cost of every answer is added to
    the month's usage, or its increment failed, when the record was not lost.
    An answer that is released costs what its calls cost, within the cap of the
    request. *)
Theorem Generate_billed ctx p req w r w' : Generate first_met schemas_Validate ctx p req w = (r, w') ->
  exists period cs, calls w' = calls w ++ cs /\ (length cs <= 2)%nat /\
    (lost w' = lost w -> forall k, spent w' k + unbilled w' k = spent w k + unbilled w k + at_key (p_TenantID p, p_WorkspaceID p, period) (sum (usages cs)) k) /\
    forall out, r = Ok out -> us_CostCents (gp_Usage out) = total (usages cs) /\ (0 < gr_MaxCostCents req -> us_CostCents (gp_Usage out) <= gr_MaxCostCents req).
Proof.
  intros Hr. apply Generate_generated in Hr as (period & acts & n & cs & b & (_ & _ & Hl & Hc & Hs) & Hb & L & En & _). exists period, cs.
  split; [done|]. split; [done|]. split; [intros Hn k; rewrite Hs, Hb by lia; done|]. intros out ->. by destruct En as (_ & ? & ?).
Qed.

End gateway.

(** ** The copilots' prompts *)

Definition masked (keys : list string) : any := AMap ((fun k => (k, AString redactedValue)) <$> keys).


End AIGatewaySpec.

(** * The gateway over the tables

    The tables of [AIStore] are the store of [AIGateway]: every statement fails
    when its context has ended, and otherwise runs on the database.  Providers
    answer from a script.  The laws of [AIGatewaySpec] hold of this world, so
    its theorems do; the witnesses run in it. *)

Module AIWorld.
Import MakerChecker StoreLemmas Redact AIGateway AIGatewaySpec.

(** ** What the tables' operations leave *)

Definition registry (d : AIStore.AIDB) := (AIStore.ad_configs d, Prompts.mb_versions (AIStore.ad_prompts d)).

Lemma RecordAIActivity_row uuid_ok p a d r d' : AIStore.RecordAIActivity uuid_ok p a d = (r, d') ->
  registry d' = registry d /\ AIStore.ad_usage d' = AIStore.ad_usage d /\
  match r with
  | Ok b => exists row, AIStore.ad_activity d' = AIStore.ad_activity d ++ [row] /\ AIStore.at_PolicyDecision row = AIStore.at_PolicyDecision a /\
      AIStore.at_CostCents row = AIStore.at_CostCents a /\ AIStore.at_Action row = AIStore.at_Action a /\
      (AIStore.at_TenantID a <> "" -> AIStore.at_TenantID row = AIStore.at_TenantID a) /\ AIStore.at_ID row = AIStore.at_ID b
  | Err _ => AIStore.ad_activity d' = AIStore.ad_activity d
  end.
Proof.
  unfold AIStore.RecordAIActivity. intros Hr. apply tx_cases in Hr as [(b & -> & Hr)|[(e & ->) ->]]; [|done]. unfold AIStore.clock in Hr. follow Hr.
  injection Hr as <- <-. simpl.
  split; [done|]. split; [done|]. eexists. split; [done|]. repeat split.
  simpl. unfold AIStore.or_else. intros Hn. by apply seqb_false in Hn as ->.
Qed.
Lemma Increment_usage t ws period c i o d r d' : AIStore.IncrementAIBudgetUsage t ws period c i o d = (r, d') ->
  registry d' = registry d /\ AIStore.ad_activity d' = AIStore.ad_activity d /\
  forall t' w' p', AIStore.au_CostCents (AIStore.GetAIBudgetUsage t' w' p' d') =
    AIStore.au_CostCents (AIStore.GetAIBudgetUsage t' w' p' d) + if is_Ok r then at_key (t, ws, period) c (t', w', p') else 0.
Proof.
  unfold AIStore.IncrementAIBudgetUsage. destruct (_ && _); intros [= <- <-]; (split; [done|]); (split; [done|]); intros t' w' p'; [|simpl; lia].
  unfold AIStore.GetAIBudgetUsage at 1. simpl. unfold at_key. destruct (decide ((t', w', p') = (t, ws, period))) as [[= -> -> ->]|Hn].
  - by rewrite lookup_insert_eq.
  - rewrite lookup_insert_ne by done. unfold AIStore.GetAIBudgetUsage. lia.
Qed.

(** ** The world *)

Record World : Type := MkWorld {
  wd_db : AIStore.AIDB;
  wd_calls : list asked;
  wd_script : list (result GenerateResponse);
  wd_lost : nat;
  wd_unbilled : key -> Z;
  wd_caller : option error;
  wd_env : string -> string;
  wd_files : string -> result string
}.
Definition spent_of (w : World) (k : key) : Z := let '(t, ws, period) := k in AIStore.au_CostCents (AIStore.GetAIBudgetUsage t ws period (wd_db w)).
Definition set_db v w := MkWorld v (wd_calls w) (wd_script w) (wd_lost w) (wd_unbilled w) (wd_caller w) (wd_env w) (wd_files w).
Definition lose w := MkWorld (wd_db w) (wd_calls w) (wd_script w) (S (wd_lost w)) (wd_unbilled w) (wd_caller w) (wd_env w) (wd_files w).
Definition forget k c w :=
  MkWorld (wd_db w) (wd_calls w) (wd_script w) (wd_lost w) (fun k' => wd_unbilled w k' + at_key k c k') (wd_caller w) (wd_env w) (wd_files w).
Definition answer c s w := MkWorld (wd_db w) (wd_calls w ++ [c]) s (wd_lost w) (wd_unbilled w) (wd_caller w) (wd_env w) (wd_files w).

#[global] Instance world_runtime : Runtime World := {|
  Now w := cd_now (common (wd_db w)); CallerErr := wd_caller; Getenv k w := wd_env w k; ReadFile f w := wd_files w f |}.

(** A statement under a context. *)
Definition on_db {A} (ctx : Ctx) (m : M AIStore.AIDB A) : M World A := fun w =>
  match CtxErr ctx w with
  | Some e => (Err e, w)
  | None => let '(r, d) := m (wd_db w) in (r, set_db d w)
  end.
Definition no_answer : error := errors_New "connection refused".

Section world.
Context (uuid_ok : string -> bool).
#[local] Instance world_store : GatewayStore World := {|
  GetPromptVersion ctx p id := on_db ctx (reads (Prompts.GetPromptVersion p id ∘ AIStore.ad_prompts));
  GetDefaultAIProviderConfig ctx p := on_db ctx (reads (AIStore.GetDefaultAIProviderConfig p));
  GetAIBudgetUsage ctx t ws period := on_db ctx (gets (AIStore.GetAIBudgetUsage t ws period));
  IncrementAIBudgetUsage ctx t ws period c i o w :=
    match on_db ctx (AIStore.IncrementAIBudgetUsage t ws period c i o) w with
    | (Ok x, w') => (Ok x, w')
    | (Err e, w') => (Err e, forget (t, ws, period) c w')
    end;
  RecordAIActivity := Some (fun ctx p a w =>
    match on_db ctx (AIStore.RecordAIActivity uuid_ok p a) w with
    | (Ok x, w') => (Ok x, w')
    | (Err e, w') => (Err e, lose w')
    end) |}.
#[local] Instance world_provider : ModelProvider World := {|
  Provider_Generate _ _ req w :=
    let '(r, s) := match wd_script w with r :: s => (r, s) | [] => (Err no_answer, []) end in
    (r, answer ((req, spent_of w), match r with Ok x => Some (gp_Usage x) | Err _ => None end) s w);
  Provider_Embed _ _ _ := throw no_answer;
  Provider_Moderate _ _ _ := throw no_answer |}.
Definition to_option {A} (r : result A) : option A := match r with Ok a => Some a | Err _ => None end.
#[local] Instance world_observed : Observed World := {|
  activities w := AIStore.ad_activity (wd_db w);
  lost := wd_lost;
  calls := wd_calls;
  spent := spent_of;
  unbilled := wd_unbilled;
  provider_of w p := to_option (AIStore.GetDefaultAIProviderConfig p (wd_db w));
  version_of w p id := to_option (Prompts.GetPromptVersion p id (AIStore.ad_prompts (wd_db w)))
|}.

Lemma read_same {A} ctx (f : AIStore.AIDB -> result A) w r w' : on_db ctx (reads f) w = (r, w') -> w' = w /\ forall a, r = Ok a -> f (wd_db w) = Ok a.
Proof. unfold on_db, reads. destruct (CtxErr ctx w); intros [= <- <-]; (split; [|done]); by destruct w. Qed.
Lemma gets_same {A} ctx (f : AIStore.AIDB -> A) w r w' : on_db ctx (gets f) w = (r, w') -> w' = w /\ forall a, r = Ok a -> f (wd_db w) = a.
Proof. unfold on_db, gets. destruct (CtxErr ctx w); intros [= <- <-]; (split; [by destruct w|]); by intros a [= ->]. Qed.
Lemma registry_config d d' : registry d' = registry d ->
  (forall p, AIStore.GetDefaultAIProviderConfig p d' = AIStore.GetDefaultAIProviderConfig p d) /\
  (forall p id, Prompts.GetPromptVersion p id (AIStore.ad_prompts d') = Prompts.GetPromptVersion p id (AIStore.ad_prompts d)).
Proof. intros [= E1 E2]. unfold AIStore.GetDefaultAIProviderConfig, Prompts.GetPromptVersion. by rewrite E1, E2. Qed.
#[local] Instance world_laws : Laws World.
Proof.
  constructor.
  - intros ctx p id w r w' E. apply read_same in E as [-> E]. split; [apply same_refl|]. intros v Hv. simpl. unfold compose in E. by rewrite (E v Hv).
  - intros ctx p w r w' E. apply read_same in E as [-> E]. split; [apply same_refl|]. intros v Hv. simpl. by rewrite (E v Hv).
  - intros ctx t ws period w r w' E. apply gets_same in E as [-> E]. split; [apply same_refl|]. intros u Hu. simpl. by rewrite (E u Hu).
  - intros ctx t ws period c i o w r w' E. simpl in E. unfold on_db in E. destruct (CtxErr ctx w) as [e|].
    { injection E as <- <-. split; [done|]. do 3 (split; [done|]). intros [[t1 ws1] p1]. simpl. split; [lia|done]. }
    destruct (AIStore.IncrementAIBudgetUsage t ws period c i o (wd_db w)) as [x d'] eqn:Ei. apply Increment_usage in Ei as (Er & Ea & Eu).
    apply registry_config in Er as [Ec Ev]. destruct x as [[]|e]; injection E as <- <-; (split; [split; simpl|]);
      try (repeat (apply functional_extensionality; intros); by rewrite ?Ec, ?Ev); simpl; (split; [done|]); (split; [done|]); (split; [done|]);
      intros [[t' ws'] p']; simpl; rewrite Eu; simpl; (split; [lia|done]).
  - eexists. split; [done|]. intros ctx p a w r w' E. unfold on_db in E. destruct (CtxErr ctx w) as [e|].
    { injection E as <- <-. by repeat split. }
    destruct (AIStore.RecordAIActivity uuid_ok p a (wd_db w)) as [x d'] eqn:Ei. apply RecordAIActivity_row in Ei as (Er & Eu & Ea).
    apply registry_config in Er as [Ec Ev]. assert (Hu : spent_of (set_db d' w) = spent_of w).
    { apply functional_extensionality. intros [[t ws] period]. simpl. unfold AIStore.GetAIBudgetUsage. by rewrite Eu. }
    destruct x as [b|e]; injection E as <- <-; (split; [split; simpl|]);
      try (repeat (apply functional_extensionality; intros); by rewrite ?Ec, ?Ev); (split; [done|]); (split; [exact Hu|]); (split; [done|]); try done.
    destruct Ea as (row & ? & ? & ? & ? & ? & ?). by exists row.
  - intros prof ctx req w r w' E. simpl in E. destruct (wd_script w) as [|x s]; injection E as <- <-; by repeat split.
Qed.
End world.
#[local] Existing Instances world_provider world_observed.

(** ** Runs *)

Module Demo.
Definition staff : Principal := MkPrincipal "t" "w" "app" "" "u1" "user" [].
Definition config (budget : Z) : AIProviderConfig :=
  AIStore.MkAIProviderConfig "c1" "t" "w" "fake" true (Raw (JObject [("default_model", JString "small")])) (Some []) None budget "active" 0 0.
Definition cdb : CDB := MkCDB ∅ (Audit.MkADB [] ∅ 0) ∅ 0.
Definition db (budget used : Z) : AIStore.AIDB :=
  AIStore.MkAIDB {["c1" := config budget]} {[("t", "w", "1970-01") := AIStore.MkAIBudgetUsage "t" "w" "1970-01" used 0 0 0]} [] ∅ (Prompts.MkMDB ∅ ∅ true cdb).
Definition start (budget used : Z) (script : list (result GenerateResponse)) : World :=
  MkWorld (db budget used) [] script 0 (fun _ => 0) None (fun _ => "") (fun _ => Err no_answer).
Definition says (content : string) (cost : Z) : result GenerateResponse := Ok (MkGenerateResponse content (MkUsage 10 10 cost) "").
Definition background : Ctx := MkCtx None false None.
Definition ok_validator (content : string) : result unit := if content =s "good" then Ok tt else Err (errors_New "not good").
Definition request (cap : Z) : GenerateRequest :=
  MkGenerateRequest "" "" "Summarise." RawEmpty Float.zero 0 "" "" (Some ok_validator) (Some (Ok (JObject [("ssn", JString "123")]))) [] "" "" ""
    RawEmpty RawEmpty "" 0 cap.
Definition run (uuid_ok : string -> bool) (w : World) (cap : Z) : result GenerateResponse * World :=
  @Generate World _ (world_store uuid_ok) world_provider (fun e _ => e) (fun _ _ => Ok tt) background staff (request cap) w.
Definition any_uuid (s : string) : bool := true.
Definition no_uuid (s : string) : bool := false.
(** A repaired call. *)
Definition w1 : World := start 100 0 [says "bad" 5; says "good" 7].

Lemma run_eq u w cap : run u w cap = ((run u w cap).1, (run u w cap).2).
Proof. by destruct (run u w cap). Qed.
End Demo.
Import Demo.

Lemma Generate_recorded_witness :
  let r := run any_uuid w1 20 in
  r.1 = Ok (MkGenerateResponse "good" (MkUsage 20 20 12) (default "" (AIStore.at_ID <$> head (AIStore.ad_activity (wd_db r.2))))) /\
  exists acts, activities r.2 = activities w1 ++ acts /\ (length acts + lost r.2 = lost w1 + 1)%nat /\
    match r.1 with
    | Ok out => exists a, acts = [a] /\ AIStore.at_PolicyDecision a = "allowed" /\ AIStore.at_CostCents a = us_CostCents (gp_Usage out) /\
                  AIStore.at_ID a = gp_ActivityID out
    | Err _ => Forall (fun a => AIStore.at_PolicyDecision a <> "allowed") acts
    end.
Proof.
  intros r. split; [vm_compute; reflexivity|].
  exact (@Generate_recorded World _ (world_store any_uuid) world_provider world_observed (world_laws any_uuid) (fun e _ => e) (fun _ _ => Ok tt) background
    staff (request 20) w1 _ _ (run_eq any_uuid w1 20)).
Defined.
Lemma Generate_billed_witness :
  let r := run any_uuid w1 20 in
  exists period cs, calls r.2 = calls w1 ++ cs /\ (length cs <= 2)%nat /\
    (lost r.2 = lost w1 -> forall k, spent r.2 k + unbilled r.2 k = spent w1 k + unbilled w1 k + at_key ("t", "w", period) (sum (usages cs)) k) /\
    forall out, r.1 = Ok out -> us_CostCents (gp_Usage out) = total (usages cs) /\ (0 < 20 -> us_CostCents (gp_Usage out) <= 20).
Proof.
  intros r. exact (@Generate_billed World _ (world_store any_uuid) world_provider world_observed (world_laws any_uuid) (fun e _ => e) (fun _ _ => Ok tt) background
    staff (request 20) w1 _ _ (run_eq any_uuid w1 20)).
Defined.

(** A spent budget asks no provider. *)
Example over_budget : let r := run any_uuid (start 100 100 [says "good" 5]) 20 in
  r.1 = Err ErrBudgetExceeded /\ wd_calls r.2 = [] /\ (AIStore.at_PolicyDecision <$> AIStore.ad_activity (wd_db r.2)) = ["denied_budget"].
Proof. vm_compute. repeat split. Qed.

(** An answer whose record is lost is paid for and billed to nobody. *)
Lemma unrecorded_answer_not_billed : let r := run no_uuid (start 100 0 [says "good" 5]) 20 in
  is_Ok r.1 = false /\ lost r.2 = 1%nat /\ sum (usages (wd_calls r.2)) = 5 /\ spent r.2 ("t", "w", "1970-01") = 0 /\ unbilled r.2 ("t", "w", "1970-01") = 0.
Proof. vm_compute. repeat split. Qed.

(** A repair that fails too is recorded with its own cost, not the call's. *)
Lemma rejected_repair_underreported : let r := run any_uuid (start 100 0 [says "bad" 5; says "bad" 7]) 20 in
  spent r.2 ("t", "w", "1970-01") = 12 /\
  ((fun a => (AIStore.at_PolicyDecision a, AIStore.at_CostCents a)) <$> AIStore.ad_activity (wd_db r.2)) = [("schema_reject", 7)].
Proof. vm_compute. repeat split. Qed.

End AIWorld.
