(* ===== verification/Campaigns.v ===== *)
(** * Campaigns, their delivery jobs and attempts (src/internal/postgres/campaigns.go)

    The tables a campaign is sent from, with every method of the store: the
    campaign and its life cycle, the queue of shards with its lease and retries,
    and one attempt per recipient and endpoint.  [interval_text] is PostgreSQL's
    reading of an interval. *)

From S2P Require Import Prelude.
From S2P Require Import GoStd.
From S2P Require Import GoMap.
From S2P Require Import Domain.
From S2P Require Import Store.
From S2P Require Import AuditLog.
From S2P Require Import MakerChecker.

Module Campaigns.
Import MakerChecker.

(** ** Records *)

Record Recipient : Type := MkRecipient { rc_ProfileID : string; rc_Endpoint : string }.
Record Campaign : Type := MkCampaign {
  cp_ID : string; cp_TenantID : string; cp_WorkspaceID : string; cp_Name : string; cp_Description : option string; cp_SegmentID : string;
  cp_TemplateID : string; cp_ExperimentID : option string; cp_ConversionGoal : RawMessage; cp_AttributionWindow : option string;
  cp_Status : string; cp_ScheduledAt : option Z; cp_ManifestKey : option string; cp_SegmentVersion : Z; cp_TemplateVersion : Z;
  cp_EvaluatedAt : option Z; cp_RecipientCount : Z; cp_CreatedAt : Z; cp_UpdatedAt : Z
}.
Record DeliveryJob : Type := MkDeliveryJob {
  dj_ID : string; dj_CampaignID : string; dj_TenantID : string; dj_Shard : Z; dj_Status : string; dj_Recipients : list Recipient;
  dj_Attempts : Z; dj_AvailableAt : Z; dj_LockedUntil : option Z; dj_ErrorMessage : option text
}.
Record DeliveryAttempt : Type := MkDeliveryAttempt {
  da_ID : string; da_CampaignID : string; da_TenantID : string; da_ExperimentID : option string; da_Variant : string; da_ProfileID : string;
  da_Channel : string; da_Endpoint : string; da_Decision : string; da_Reason : text; da_ProviderMessageID : string;
  da_PolicySnapshot : RawMessage; da_AttemptedAt : Z; da_CostMicros : Z
}.
(** UNIQUE (campaign_id, profile_id, channel, endpoint). *)
Definition attempt_key (campaignID profileID channel endpoint : string) : string * string * string * string :=
  (campaignID, profileID, channel, endpoint).
Definition key_of (a : DeliveryAttempt) : string * string * string * string :=
  attempt_key (da_CampaignID a) (da_ProfileID a) (da_Channel a) (da_Endpoint a).

Record CMDB : Type := MkCMDB {
  cm_campaigns : gmap string Campaign;
  cm_jobs : gmap string DeliveryJob;
  cm_attempts : gmap (string * string * string * string) DeliveryAttempt;
  cm_segments : gset string;
  cm_templates : gset string;
  cm_experiments : gset string;
  cm_common : CDB
}.
Definition set_campaigns v d := MkCMDB v (cm_jobs d) (cm_attempts d) (cm_segments d) (cm_templates d) (cm_experiments d) (cm_common d).
Definition set_jobs v d := MkCMDB (cm_campaigns d) v (cm_attempts d) (cm_segments d) (cm_templates d) (cm_experiments d) (cm_common d).
Definition set_attempts v d := MkCMDB (cm_campaigns d) (cm_jobs d) v (cm_segments d) (cm_templates d) (cm_experiments d) (cm_common d).
#[global] Instance common_campaigns : HasCommon CMDB.
Proof.
  refine {| common := cm_common; set_common c d :=
    MkCMDB (cm_campaigns d) (cm_jobs d) (cm_attempts d) (cm_segments d) (cm_templates d) (cm_experiments d) c |}; [done|by intros []].
Defined.

Abbreviation C := (M CMDB).
Definition ErrNoRows : error := Sentinel "no rows in result set".
Definition now (d : CMDB) : Z := cd_now (cm_common d).
Definition in_workspace (p : Principal) (c : Campaign) : bool := (cp_TenantID c =s p_TenantID p) && (cp_WorkspaceID c =s p_WorkspaceID p).
Definition put_campaign (c : Campaign) : C unit := modify (fun d => set_campaigns (<[cp_ID c := c]> (cm_campaigns d)) d).
Definition put_job (j : DeliveryJob) : C unit := modify (fun d => set_jobs (<[dj_ID j := j]> (cm_jobs d)) d).

Definition set_status (status : string) (now : Z) (c : Campaign) : Campaign :=
  MkCampaign (cp_ID c) (cp_TenantID c) (cp_WorkspaceID c) (cp_Name c) (cp_Description c) (cp_SegmentID c) (cp_TemplateID c) (cp_ExperimentID c)
    (cp_ConversionGoal c) (cp_AttributionWindow c) status (cp_ScheduledAt c) (cp_ManifestKey c) (cp_SegmentVersion c) (cp_TemplateVersion c)
    (cp_EvaluatedAt c) (cp_RecipientCount c) (cp_CreatedAt c) now.
Definition set_sending (manifestKey : string) (count segmentVersion templateVersion : Z) (goal : RawMessage) (window : option string) (now : Z)
    (c : Campaign) : Campaign :=
  MkCampaign (cp_ID c) (cp_TenantID c) (cp_WorkspaceID c) (cp_Name c) (cp_Description c) (cp_SegmentID c) (cp_TemplateID c) (cp_ExperimentID c)
    goal window "sending" (cp_ScheduledAt c) (Some manifestKey) segmentVersion templateVersion (Some now) count (cp_CreatedAt c) now.
(** What UPDATE campaigns SET writes of [c] into [old]. *)
Definition edited (c : Campaign) (now : Z) (old : Campaign) : Campaign :=
  MkCampaign (cp_ID old) (cp_TenantID old) (cp_WorkspaceID old) (cp_Name c) (cp_Description c) (cp_SegmentID c) (cp_TemplateID c) (cp_ExperimentID c)
    (cp_ConversionGoal old) (cp_AttributionWindow old) (cp_Status c) (cp_ScheduledAt c) (cp_ManifestKey c) (cp_SegmentVersion c)
    (cp_TemplateVersion c) (cp_EvaluatedAt c) (cp_RecipientCount c) (cp_CreatedAt old) now.

Definition campaign_statuses : list string := ["draft"; "scheduled"; "building"; "sending"; "paused"; "completed"; "failed"; "archived"].
Definition decisions : list string :=
  ["sent"; "suppressed"; "no_consent"; "fatigued"; "render_failed"; "send_failed"; "failed"; "holdout"; "processing"; "provider_sent";
   "retryable_failed"; "event_emitted"].

Section ops.
Context (uuid_ok : string -> bool) (interval_text : string -> option string).

(** What the columns of a campaign refuse. *)
Definition check_columns (c : Campaign) (d : CMDB) : result unit :=
  if negb (uuid_ok (cp_SegmentID c)) || negb (uuid_ok (cp_TemplateID c)) ||
     negb (match cp_ExperimentID c with Some e => uuid_ok e | None => true end) ||
     negb (integer_ok (cp_SegmentVersion c) && integer_ok (cp_TemplateVersion c) && integer_ok (cp_RecipientCount c)) then Err bad_input
  else if negb (mem (cp_Status c) campaign_statuses) then Err check_violation
  else if negb (bool_decide (cp_SegmentID c ∈ cm_segments d)) || negb (bool_decide (cp_TemplateID c ∈ cm_templates d)) ||
          negb (match cp_ExperimentID c with Some e => bool_decide (e ∈ cm_experiments d) | None => true end) then Err fk_violation
  else Ok tt.

Definition or_default (s v : string) : string := if s =s "" then v else s.

Definition CreateCampaign (p : Principal) (c : Campaign) : C Campaign := tx (
  if cp_Name c =s "" then throw (errors_New "campaign name is required")
  else if cp_SegmentID c =s "" then throw (errors_New "segment_id is required")
  else if cp_TemplateID c =s "" then throw (errors_New "template_id is required") else
  let c := set_status (or_default (cp_Status c) "draft") (cp_UpdatedAt c) c in
  _ ← reads (check_columns c);
  id ← new_id;
  now ← gets now;
  let out := MkCampaign id (p_TenantID p) (p_WorkspaceID p) (cp_Name c) (cp_Description c) (cp_SegmentID c) (cp_TemplateID c) (cp_ExperimentID c)
               RawEmpty None (cp_Status c) (cp_ScheduledAt c) None (cp_SegmentVersion c) (cp_TemplateVersion c) None (cp_RecipientCount c) now now in
  _ ← put_campaign out;
  _ ← audit uuid_ok p "campaign.create" "campaign" id (JObject [("name", JString (cp_Name out))]);
  mret out).

Definition GetCampaign (p : Principal) (id : string) (d : CMDB) : result Campaign :=
  match cm_campaigns d !! id with
  | Some c => if in_workspace p c then Ok c else Err ErrNotFound
  | None => Err ErrNotFound
  end.
Definition GetCampaignSystem (tenantID id : string) (d : CMDB) : result Campaign :=
  match cm_campaigns d !! id with
  | Some c => if cp_TenantID c =s tenantID then Ok c else Err ErrNotFound
  | None => Err ErrNotFound
  end.

Definition UpdateCampaign (p : Principal) (c : Campaign) : C Campaign := tx (
  old ← reads (GetCampaign p (cp_ID c));
  _ ← reads (check_columns c);
  now ← gets now;
  let out := edited c now old in
  _ ← put_campaign out;
  _ ← audit uuid_ok p "campaign.update" "campaign" (cp_ID out) (JObject [("status", JString (cp_Status out))]);
  mret out).

Definition ListCampaigns (p : Principal) (d : CMDB) : list Campaign :=
  GoMap.sort_by (fun a b => cp_CreatedAt b <? cp_CreatedAt a) (filter (fun c => in_workspace p c = true) (map_to_list (cm_campaigns d)).*2).

(** *** The scheduler *)

Definition is_due (now : Z) (c : Campaign) : bool :=
  (cp_Status c =s "scheduled") && match cp_ScheduledAt c with Some t => t <=? now | None => true end.
(** ORDER BY scheduled_at ASC NULLS LAST. *)
Definition scheduled_before (a b : Campaign) : bool :=
  match cp_ScheduledAt a, cp_ScheduledAt b with
  | Some s, Some t => s <? t
  | Some _, None => true
  | None, _ => false
  end.
Definition ClaimScheduledCampaign : C (option Campaign) := fun d =>
  match GoMap.sort_by scheduled_before (filter (fun c => is_due (now d) c = true) (map_to_list (cm_campaigns d)).*2) with
  | [] => (Ok None, d)
  | c :: _ => let c' := set_status "building" (now d) c in (Ok (Some c'), set_campaigns (<[cp_ID c := c']> (cm_campaigns d)) d)
  end.

(** NULLIF(window, '')::interval. *)
Definition window_column (window : string) : result (option string) :=
  if window =s "" then Ok None else match interval_text window with Some t => Ok (Some t) | None => Err bad_input end.
Definition goal_column (goal : RawMessage) : result RawMessage :=
  match goal with
  | RawEmpty => Ok RawEmpty
  | Raw j => Ok (Raw (Audit.jsonb j))
  | RawBad _ => Err bad_input
  end.

Definition insert_job (campaignID : string) (job : DeliveryJob) : C unit :=
  if negb (uuid_ok (dj_TenantID job)) || negb (integer_ok (dj_Shard job)) then throw bad_input else
  exists_ ← gets (fun d => match cm_campaigns d !! campaignID with Some _ => true | None => false end);
  if negb exists_ then throw fk_violation else
  id ← new_id;
  now ← gets now;
  put_job (MkDeliveryJob id campaignID (dj_TenantID job) (dj_Shard job) "pending" (dj_Recipients job) 0 now None None).

(** UPDATE of one campaign by id. *)
Definition update_campaign (campaignID : string) (f : Campaign -> Campaign) : C unit :=
  modify (fun d => set_campaigns (alter f campaignID (cm_campaigns d)) d).

Definition SaveCampaignManifestAndJobs (campaignID manifestKey : string) (recipientCount segmentVersion templateVersion : Z)
    (conversionGoal : RawMessage) (attributionWindow : string) (jobs : list DeliveryJob) : C unit := tx (
  if negb (integer_ok recipientCount && integer_ok segmentVersion && integer_ok templateVersion) || negb (uuid_ok campaignID) then throw bad_input else
  goal ← lift (goal_column conversionGoal);
  window ← lift (window_column attributionWindow);
  now ← gets now;
  _ ← update_campaign campaignID (set_sending manifestKey recipientCount segmentVersion templateVersion goal window now);
  iterM (insert_job campaignID) jobs).

(** *** The queue of shards *)

Definition claimable (now : Z) (j : DeliveryJob) : bool :=
  (mem (dj_Status j) ["pending"; "failed"] && (dj_Attempts j <? 3) && (dj_AvailableAt j <=? now)) ||
  ((dj_Status j =s "processing") && match dj_LockedUntil j with Some t => t <=? now | None => false end).
Definition claimed (now : Z) (j : DeliveryJob) : DeliveryJob :=
  MkDeliveryJob (dj_ID j) (dj_CampaignID j) (dj_TenantID j) (dj_Shard j) "processing" (dj_Recipients j) (dj_Attempts j + 1) (dj_AvailableAt j)
    (Some (now + 5 * Time.Minute)) (dj_ErrorMessage j).
Definition available_before (a b : DeliveryJob) : bool := dj_AvailableAt a <? dj_AvailableAt b.
Definition ClaimDeliveryJob (workerID : string) : C (option DeliveryJob) := fun d =>
  match GoMap.sort_by available_before (filter (fun j => claimable (now d) j = true) (map_to_list (cm_jobs d)).*2) with
  | [] => (Ok None, d)
  | j :: _ => let j' := claimed (now d) j in (Ok (Some j'), set_jobs (<[dj_ID j := j']> (cm_jobs d)) d)
  end.

Definition of_campaign (campaignID : string) (d : CMDB) : list DeliveryJob :=
  filter (fun j => (dj_CampaignID j =s campaignID) = true) (map_to_list (cm_jobs d)).*2.
Definition active (j : DeliveryJob) : bool :=
  mem (dj_Status j) ["pending"; "processing"] || ((dj_Status j =s "failed") && (dj_Attempts j <? 3)).
Definition lost (j : DeliveryJob) : bool := mem (dj_Status j) ["failed"; "dead"].
(** The campaign ends with its last job. *)
Definition close_campaign (campaignID : string) : C unit :=
  jobs ← gets (of_campaign campaignID);
  now ← gets now;
  if existsb active jobs then mret tt
  else if existsb lost jobs then update_campaign campaignID (set_status "failed" now)
  else update_campaign campaignID (set_status "completed" now).

Definition job_completed (j : DeliveryJob) : DeliveryJob :=
  MkDeliveryJob (dj_ID j) (dj_CampaignID j) (dj_TenantID j) (dj_Shard j) "completed" (dj_Recipients j) (dj_Attempts j) (dj_AvailableAt j) None
    (dj_ErrorMessage j).
Definition CompleteDeliveryJob (jobID : string) : C unit := tx (
  job ← gets (fun d => cm_jobs d !! jobID);
  match job with
  | None => throw ErrNoRows
  | Some j => _ ← put_job (job_completed j); close_campaign (dj_CampaignID j)
  end).

Definition job_failed (errMsg : text) (now : Z) (j : DeliveryJob) : DeliveryJob :=
  MkDeliveryJob (dj_ID j) (dj_CampaignID j) (dj_TenantID j) (dj_Shard j) (if 3 <=? dj_Attempts j then "dead" else "failed") (dj_Recipients j)
    (dj_Attempts j) (now + Time.Minute) None (Some errMsg).
Definition FailDeliveryJob (jobID : string) (errMsg : text) : C unit := tx (
  job ← gets (fun d => cm_jobs d !! jobID);
  now ← gets now;
  match job with
  | None => throw ErrNoRows
  | Some j => _ ← put_job (job_failed errMsg now j); close_campaign (dj_CampaignID j)
  end).

(** *** Attempts *)

Definition snapshot_column (r : RawMessage) : result RawMessage := jsonb_column (match r with RawEmpty => Raw (JObject []) | _ => r end).

Definition CreateDeliveryAttempt (attempt : DeliveryAttempt) : C bool := fun d =>
  if da_TenantID attempt =s "" then (Err (errors_New "tenant_id is required for delivery attempt"), d)
  else match snapshot_column (da_PolicySnapshot attempt) with
  | Err e => (Err e, d)
  | Ok snapshot =>
      if negb (mem (da_Decision attempt) decisions) then (Err check_violation, d)
      else match cm_attempts d !! key_of attempt with
      | Some _ => (Ok false, d)
      | None =>
          match cm_campaigns d !! da_CampaignID attempt with
          | None => (Err fk_violation, d)
          | Some _ =>
              let id := fresh (cd_used (cm_common d)) in
              let row := MkDeliveryAttempt id (da_CampaignID attempt) (da_TenantID attempt) (da_ExperimentID attempt) (da_Variant attempt)
                (da_ProfileID attempt) (da_Channel attempt) (da_Endpoint attempt) (da_Decision attempt) (da_Reason attempt)
                (da_ProviderMessageID attempt) snapshot (if Time.IsZero (da_AttemptedAt attempt) then now d else da_AttemptedAt attempt) 0 in
              (Ok true, set_common (set_used ({[id]} ∪ cd_used (cm_common d)) (cm_common d)) (set_attempts (<[key_of attempt := row]> (cm_attempts d)) d))
          end
      end
  end.

Definition decided (decision : string) (reason : text) (providerMsgID : string) (snapshot : RawMessage) (costMicros : Z) (a : DeliveryAttempt)
    : DeliveryAttempt :=
  MkDeliveryAttempt (da_ID a) (da_CampaignID a) (da_TenantID a) (da_ExperimentID a) (da_Variant a) (da_ProfileID a) (da_Channel a) (da_Endpoint a)
    decision reason providerMsgID snapshot (da_AttemptedAt a) costMicros.
Definition UpdateDeliveryAttempt (campaignID profileID channel endpoint decision : string) (reason : text) (providerMsgID : string)
    (policySnapshot : RawMessage) (costMicros : Z) : C unit := fun d =>
  match snapshot_column policySnapshot, cm_attempts d !! attempt_key campaignID profileID channel endpoint with
  | Err e, _ => (Err e, d)
  | Ok _, None => (Ok tt, d)
  | Ok snapshot, Some a =>
      if negb (mem decision decisions) then (Err check_violation, d)
      else (Ok tt, set_attempts (<[attempt_key campaignID profileID channel endpoint := decided decision reason providerMsgID snapshot costMicros a]>
                                   (cm_attempts d)) d)
  end.

Definition stamp (experimentID variant : string) (a : DeliveryAttempt) : DeliveryAttempt :=
  MkDeliveryAttempt (da_ID a) (da_CampaignID a) (da_TenantID a) (Some experimentID) variant (da_ProfileID a) (da_Channel a) (da_Endpoint a)
    (da_Decision a) (da_Reason a) (da_ProviderMessageID a) (da_PolicySnapshot a) (da_AttemptedAt a) (da_CostMicros a).
(** Of every endpoint of the profile on the channel. *)
Definition on_channel (tenantID campaignID profileID channel : string) (a : DeliveryAttempt) : bool :=
  (da_TenantID a =s tenantID) && (da_CampaignID a =s campaignID) && (da_ProfileID a =s profileID) && (da_Channel a =s channel).
Definition SetDeliveryAttemptExperiment (tenantID campaignID profileID channel experimentID variant : string) : C unit := fun d =>
  if negb (uuid_ok experimentID) then (Err bad_input, d)
  else if negb (existsb (fun kv => on_channel tenantID campaignID profileID channel kv.2) (map_to_list (cm_attempts d))) then (Err ErrNotFound, d)
  else (Ok tt, set_attempts ((fun a => if on_channel tenantID campaignID profileID channel a then stamp experimentID variant a else a) <$> cm_attempts d) d).

Definition DeleteDeliveryAttempt (tenantID campaignID profileID channel endpoint : string) : C unit :=
  let k := attempt_key campaignID profileID channel endpoint in
  modify (fun d => match cm_attempts d !! k with
                   | Some a => if da_TenantID a =s tenantID then set_attempts (delete k (cm_attempts d)) d else d
                   | None => d
                   end).
Definition GetDeliveryAttempt (campaignID profileID channel endpoint : string) (d : CMDB) : result DeliveryAttempt :=
  match cm_attempts d !! attempt_key campaignID profileID channel endpoint with
  | Some a => Ok a
  | None => Err ErrNotFound
  end.

End ops.

(** ** Endpoints of profiles *)

(** A row of [profiles], as these queries read it. *)
Record Contact : Type := MkContact { ct_TenantID : string; ct_Attributes : RawMessage }.
(** [attributes->>'key']. *)
Definition arrow (key : string) (attributes : RawMessage) : option string :=
  match attributes with
  | Raw (JObject l) =>
      match Json.lookup key l with
      | Some (JString s) => Some s
      | None | Some JNull => None
      | Some v => Some (Audit.jsonb_text v)
      end
  | _ => None
  end.
Definition contact_entry (key tenantID : string) (profiles : gmap string Contact) (id : string) (out : gmap string string) : gmap string string :=
  match profiles !! id with
  | Some c => if ct_TenantID c =s tenantID
              then match Json.nonempty_string (JString <$> arrow key (ct_Attributes c)) with Some v => <[id := v]> out | None => out end
              else out
  | None => out
  end.
Definition contacts (key tenantID : string) (profileIDs : list string) (profiles : gmap string Contact) : gmap string string :=
  foldr (contact_entry key tenantID profiles) ∅ profileIDs.
Definition GetProfileEmails : string -> list string -> gmap string Contact -> gmap string string := contacts "email".
Definition GetProfilePhones : string -> list string -> gmap string Contact -> gmap string string := contacts "phone".

(** ORDER BY id LIMIT 1 of the workspace's applications. *)
Definition GetFirstAppID (tenantID workspaceID : string) (applications : list (string * string * string)) : result string :=
  match GoMap.sort_by GoMap.str_less ((fun a => a.2) <$> filter (fun a => (a.1.1 =s tenantID) && (a.1.2 =s workspaceID) = true) applications) with
  | id :: _ => Ok id
  | [] => Err ErrNoRows
  end.

End Campaigns.
