(* ===== verification/CampaignLife.v ===== *)
(** * The life of a campaign

    A step relation over the campaign tables -- the scheduler, the dispatcher,
    any number of delivery workers, edits, time -- with its invariant by rule
    induction: a campaign that is sending has a shard still to be worked on,
    and one that is completed has all its shards completed. *)

From S2P Require Import Prelude.
From S2P Require Import GoStd.
From S2P Require Import GoMap.
From S2P Require Import Domain.
From S2P Require Import Store.
From S2P Require Import AuditLog.
From S2P Require Import MakerChecker.
From S2P Require Import StoreLemmas.
From S2P Require Import Campaigns.

Module CampaignLife.
Import MakerChecker StoreLemmas Campaigns.

Section life.
Context (uuid_ok : string -> bool) (interval_text : string -> option string).

(** A job's status, with what goes with it. *)
Definition job_ok (j : DeliveryJob) : Prop :=
  (dj_Status j = "pending" /\ dj_Attempts j < 3) \/ (dj_Status j = "processing" /\ dj_LockedUntil j <> None) \/
  (dj_Status j = "failed" /\ dj_Attempts j < 3) \/ dj_Status j = "completed" \/ dj_Status j = "dead".
Definition job_of (cid : string) (k : string) (j : DeliveryJob) (d : CMDB) : Prop := cm_jobs d !! k = Some j /\ dj_CampaignID j = cid.
Definition pending_of (cid : string) (d : CMDB) : Prop := exists k j, job_of cid k j d /\ active j = true.

Record cinv (d : CMDB) : Prop := {
  ci_fresh : dom (cm_jobs d) ⊆ cd_used (cm_common d) /\ dom (cm_campaigns d) ⊆ cd_used (cm_common d);
  ci_jid : forall k j, cm_jobs d !! k = Some j -> dj_ID j = k;
  ci_cid : forall k c, cm_campaigns d !! k = Some c -> cp_ID c = k;
  ci_job : forall k j, cm_jobs d !! k = Some j -> job_ok j;
  ci_owner : forall k j, cm_jobs d !! k = Some j -> dj_CampaignID j ∈ dom (cm_campaigns d);
  ci_completed : forall cid c, cm_campaigns d !! cid = Some c -> cp_Status c = "completed" ->
    forall k j, job_of cid k j d -> dj_Status j = "completed";
  ci_sending : forall cid c, cm_campaigns d !! cid = Some c -> cp_Status c = "sending" ->
    forall k j, job_of cid k j d -> pending_of cid d
}.

(** One transaction after the other.  [StepFinish] is a worker that finishes a
    job while it is processing; [StepSave] needs a job to save for a campaign
    that has some; edits set no status of the workers'; [StepOther] is time and
    the writes elsewhere. *)
Inductive cstep (d : CMDB) : CMDB -> Prop :=
  | StepCreate p c r d' : CreateCampaign uuid_ok p c d = (r, d') -> cstep d d'
  | StepEdit p c r d' : UpdateCampaign uuid_ok p c d = (r, d') -> negb (mem (cp_Status c) ["sending"; "completed"]) = true -> cstep d d'
  | StepSchedule r d' : ClaimScheduledCampaign d = (r, d') -> cstep d d'
  | StepSave cid key n sv tv goal window jobs r d' :
      SaveCampaignManifestAndJobs uuid_ok interval_text cid key n sv tv goal window jobs d = (r, d') ->
      jobs <> [] \/ (forall k j, ~ job_of cid k j d) -> cstep d d'
  | StepClaim worker r d' : ClaimDeliveryJob worker d = (r, d') -> cstep d d'
  | StepFinish k j r d' : cm_jobs d !! k = Some j -> dj_Status j = "processing" ->
      CompleteDeliveryJob k d = (r, d') \/ (exists msg, FailDeliveryJob k msg d = (r, d')) -> cstep d d'
  | StepOther d' : cm_campaigns d' = cm_campaigns d -> cm_jobs d' = cm_jobs d -> cd_used (cm_common d) ⊆ cd_used (cm_common d') -> cstep d d'.

Lemma active_ok j : job_ok j -> active j = true <-> dj_Status j <> "completed" /\ dj_Status j <> "dead".
Proof.
  unfold job_ok, active, mem. intros [[-> ?]|[[-> ?]|[[-> Ha]|[->| ->]]]]; simpl; try (split; [by intros _|done]).
  all: try (split; [done|by intros [? ?]]). apply Z.ltb_lt in Ha. by rewrite Ha.
Qed.
Lemma of_campaign_elem cid j d : j ∈ of_campaign cid d <-> exists k, job_of cid k j d.
Proof.
  unfold of_campaign, job_of. rewrite list_elem_of_filter, list_elem_of_fmap. split.
  - intros [Hc%seqb_true ([k i] & -> & Hi)]. exists k. by apply elem_of_map_to_list in Hi.
  - intros (k & Hk & <-). split; [apply seqb_refl|]. exists (k, j). split; [done|]. by apply elem_of_map_to_list.
Qed.

(** ** Only campaigns change *)

(** Rows added or replaced by ones that are neither sending nor completed, or
    that own no job. *)
Lemma campaign_put d k c cm : cinv d -> cp_ID c = k -> cd_used (cm_common d) ⊆ cd_used cm -> k ∈ cd_used cm ->
  (forall l j, job_of k l j d -> cp_Status c <> "completed" /\ (cp_Status c = "sending" -> pending_of k d)) ->
  cinv (MkCMDB (<[k := c]> (cm_campaigns d)) (cm_jobs d) (cm_attempts d) (cm_segments d) (cm_templates d) (cm_experiments d) cm).
Proof.
  intros [[F1 F2] J C O W X S] Hid Hu Hk Hc. split; simpl.
  - rewrite dom_insert_L. set_solver.
  - done.
  - intros l x [(<- & <-)|[_ Hx]]%lookup_insert_Some; [done|by apply C].
  - done.
  - intros l j Hl. rewrite dom_insert_L. specialize (W l j Hl). set_solver.
  - intros cid x [(<- & <-)|[_ Hx]]%lookup_insert_Some Hs l j Hl; [|by apply (X cid x Hx Hs l j)].
    by destruct (Hc l j Hl).
  - intros cid x [(<- & <-)|[_ Hx]]%lookup_insert_Some Hs l j Hl; [|by apply (S cid x Hx Hs l j)].
    destruct (Hc l j Hl) as [_ Hp]. destruct (Hp Hs) as (i & y & ? & ?). by exists i, y.
Qed.

Lemma create_inv p c d r d' : CreateCampaign uuid_ok p c d = (r, d') -> cinv d -> cinv d'.
Proof.
  intros H Hi. destruct r as [out|e]; [|apply tx_cases in H as [(? & [=] & _)|[_ ->]]; done].
  unfold CreateCampaign, put_campaign in H. follow_tx H. injection H as _ <-. set (id := fresh _).
  assert (Hn : id ∉ cd_used (cm_common d)) by apply is_fresh.
  eapply (campaign_put d id _ _ Hi); [done|simpl; set_solver|simpl; set_solver|]. intros l j [Hl Hj]. exfalso.
  apply Hn. destruct (ci_fresh _ Hi) as [_ Hf]. apply Hf. rewrite <- Hj. by apply (ci_owner _ Hi l).
Qed.

Lemma edit_inv p c d r d' : UpdateCampaign uuid_ok p c d = (r, d') -> negb (mem (cp_Status c) ["sending"; "completed"]) = true -> cinv d -> cinv d'.
Proof.
  intros H Hs Hi. destruct r as [out|e]; [|apply tx_cases in H as [(? & [=] & _)|[_ ->]]; done].
  unfold UpdateCampaign, put_campaign in H. follow_tx H. injection H as _ <-.
  match goal with E : GetCampaign _ _ _ = Ok ?x |- _ => unfold GetCampaign in E; destruct (cm_campaigns d !! cp_ID c) as [y|] eqn:Ey; [|done];
    destruct (in_workspace p y); [injection E as ->|done] end.
  pose proof (ci_cid _ Hi _ _ Ey) as Hk. simpl. rewrite Hk.
  eapply (campaign_put d (cp_ID c) _ _ Hi); [done|simpl; set_solver| |].
  - destruct (ci_fresh _ Hi) as [_ Hf]. apply Hf, elem_of_dom. by eexists.
  - intros _ _ _. simpl. apply negb_true_iff in Hs. unfold mem in Hs. simpl in Hs. apply orb_false_iff in Hs as [H1 H2].
    rewrite orb_false_r in H2. by apply seqb_false in H1, H2.
Qed.

Lemma schedule_inv d r d' : ClaimScheduledCampaign d = (r, d') -> cinv d -> cinv d'.
Proof.
  unfold ClaimScheduledCampaign. intros H Hi. set (l := GoMap.sort_by _ _) in H.
  assert (Hl : l ≡ₚ filter (fun c => is_due (now d) c = true) (map_to_list (cm_campaigns d)).*2) by apply GoMap.sort_by_perm.
  destruct l as [|c l]; injection H as _ <-; [done|].
  assert (Hc : c ∈ filter (fun c => is_due (now d) c = true) (map_to_list (cm_campaigns d)).*2) by (rewrite <- Hl; by left).
  apply list_elem_of_filter in Hc as [_ Hc]. apply list_elem_of_fmap in Hc as ([k x] & -> & Hc). apply elem_of_map_to_list in Hc. simpl.
  pose proof (ci_cid _ Hi _ _ Hc) as Hk. eapply (campaign_put d _ _ _ Hi); [done|done| |done].
  destruct (ci_fresh _ Hi) as [_ Hf]. apply Hf, elem_of_dom. rewrite Hk. by eexists.
Qed.

(** ** Jobs *)

Lemma campaign_claim_inv worker d r d' : ClaimDeliveryJob worker d = (r, d') -> cinv d -> cinv d'.
Proof.
  unfold ClaimDeliveryJob. intros H Hi. set (l := GoMap.sort_by _ _) in H.
  assert (Hl : l ≡ₚ filter (fun j => claimable (now d) j = true) (map_to_list (cm_jobs d)).*2) by apply GoMap.sort_by_perm.
  destruct l as [|j l]; injection H as _ <-; [done|].
  assert (Hj : j ∈ filter (fun j => claimable (now d) j = true) (map_to_list (cm_jobs d)).*2) by (rewrite <- Hl; by left).
  apply list_elem_of_filter in Hj as [Hcl Hj]. apply list_elem_of_fmap in Hj as ([k x] & -> & Hj). apply elem_of_map_to_list in Hj. simpl in *.
  destruct Hi as [[F1 F2] J C O W X S]. pose proof (J _ _ Hj) as Hk. rewrite Hk.
  assert (Hns : dj_Status x <> "completed").
  { intros Hs. unfold claimable, mem in Hcl. rewrite Hs in Hcl. simpl in Hcl. discriminate Hcl. }
  split; simpl.
  - rewrite dom_insert_L. assert (k ∈ dom (cm_jobs d)) by (apply elem_of_dom; by eexists). set_solver.
  - intros i y [(<- & <-)|[_ Hy]]%lookup_insert_Some; [done|by apply J].
  - done.
  - intros i y [(<- & <-)|[_ Hy]]%lookup_insert_Some; [right; left; done|by apply (O i)].
  - intros i y [(<- & <-)|[_ Hy]]%lookup_insert_Some; [by apply (W k x)|by apply (W i)].
  - intros cid c Hc Hs i y [Hy Hcid]. simpl in Hy. apply lookup_insert_Some in Hy as [(<- & <-)|[_ Hy]]; [|by apply (X cid c Hc Hs i y)].
    exfalso. apply Hns. by apply (X cid c Hc Hs k x).
  - intros cid c Hc Hs i y [Hy Hcid]. simpl in Hy. destruct (decide (dj_CampaignID x = cid)) as [He|Hne].
    + exists k, (claimed (now d) x). split; [|done]. split; simpl; [by rewrite lookup_insert_eq|done].
    + apply lookup_insert_Some in Hy as [(<- & <-)|[_ Hy]]; [done|]. destruct (S cid c Hc Hs i y) as (m & z & [Hz Hzc] & Ha); [done|].
      exists m, z. split; [|done]. split; simpl; [|done]. rewrite lookup_insert_ne; [done|]. intros <-. congruence.
Qed.

(** Putting a finished job in place of a processing one, then closing. *)
Lemma finish_inv d k j j' d' : cinv d -> cm_jobs d !! k = Some j -> dj_Status j = "processing" ->
  dj_ID j' = k -> dj_CampaignID j' = dj_CampaignID j -> job_ok j' ->
  (_ ← put_job j'; close_campaign (dj_CampaignID j)) d = (Ok tt, d') -> cinv d'.
Proof.
  intros Hi Hj Hs Hid Hcid Hok H. apply bindM_Ok in H as ([] & d1 & E & H). unfold put_job, modify in E. injection E as <-. rewrite Hid in H.
  set (d1 := set_jobs _ d) in H. destruct Hi as [[F1 F2] J C O W X S]. set (cid := dj_CampaignID j) in *.
  assert (Hjobs : forall i y, cm_jobs d1 !! i = Some y -> (i = k /\ y = j') \/ (i <> k /\ cm_jobs d !! i = Some y)).
  { intros i y Hy. unfold d1 in Hy. simpl in Hy. apply lookup_insert_Some in Hy as [(<- & <-)|[? ?]]; [by left|by right]. }
  assert (Hnotc : forall c, cm_campaigns d !! cid = Some c -> cp_Status c <> "completed").
  { intros c Hc Hcs. assert (dj_Status j = "completed") by (by apply (X cid c Hc Hcs k j)). congruence. }
  assert (Hrest : forall g, (forall c, cp_ID (g c) = cp_ID c) ->
     (forall c, cm_campaigns d !! cid = Some c -> cp_Status (g c) = "completed" -> forall i y, job_of cid i y d1 -> dj_Status y = "completed") ->
     (forall c, cm_campaigns d !! cid = Some c -> cp_Status (g c) = "sending" -> exists l i, job_of cid l i d1 /\ active i = true) ->
     cinv (set_campaigns (alter g cid (cm_campaigns d)) d1)).
  { intros g Hg Hc1 Hs1. split; simpl.
    - rewrite dom_insert_L, dom_alter_L. assert (k ∈ dom (cm_jobs d)) by (apply elem_of_dom; by eexists). set_solver.
    - intros i y Hy. apply Hjobs in Hy as [[-> ->]|[_ Hy]]; [done|by apply J].
    - intros i c Hc. rewrite lookup_alter in Hc. case_decide as E; [|by apply C]. subst i.
      destruct (cm_campaigns d !! cid) as [c0|] eqn:Ec; [|discriminate]. injection Hc as <-. rewrite Hg. by apply C.
    - intros i y Hy. apply Hjobs in Hy as [[-> ->]|[_ Hy]]; [done|by apply (O i)].
    - intros i y Hy. rewrite dom_alter_L. apply Hjobs in Hy as [[-> ->]|[_ Hy]]; [rewrite Hcid; by apply (W k)|by apply (W i)].
    - intros i c Hc Hcs l y Hy. rewrite lookup_alter in Hc. case_decide as E.
      + subst i. destruct (cm_campaigns d !! cid) as [c0|] eqn:Ec; [|discriminate]. injection Hc as <-. by apply (Hc1 c0 eq_refl Hcs l y).
      + destruct Hy as [Hy Hyc]. apply Hjobs in Hy as [[-> ->]|[_ Hy]]; [congruence|]. by apply (X i c Hc Hcs l y).
    - intros i c Hc Hcs l y Hy. rewrite lookup_alter in Hc. case_decide as E.
      + subst i. destruct (cm_campaigns d !! cid) as [c0|] eqn:Ec; [|discriminate]. injection Hc as <-. by apply (Hs1 c0 eq_refl Hcs).
      + destruct Hy as [Hy Hyc]. apply Hjobs in Hy as [[-> ->]|[_ Hy]]; [congruence|].
        destruct (S i c Hc Hcs l y) as (m & z & [Hz Hzc] & Ha); [done|]. exists m, z. split; [|done]. split; [|done]. simpl.
        rewrite lookup_insert_ne; [done|]. intros <-. rewrite Hj in Hz. injection Hz as <-. by apply E. }
  unfold close_campaign in H. apply bindM_Ok in H as (js & d2 & E & H). unfold gets in E. injection E as <- <-.
  apply bindM_Ok in H as (t & d2 & E & H). unfold gets in E. injection E as <- <-.
  destruct (existsb active _) eqn:Ea.
  { injection H as <-. replace d1 with (set_campaigns (alter id cid (cm_campaigns d)) d1) by (unfold set_campaigns; rewrite alter_id; by destruct d).
    apply existsb_exists in Ea as (i & Hin & Hact). apply list_elem_of_In, of_campaign_elem in Hin as (l & Hl). apply Hrest; [done| |by eauto].
    intros c Hc Hcs. by destruct (Hnotc c Hc). }
  assert (Hall : forall i y, job_of cid i y d1 -> active y = false).
  { intros i y Hy. destruct (active y) eqn:E; [|done]. exfalso. rewrite <- not_true_iff_false in Ea. apply Ea, existsb_exists. exists y.
    split; [|done]. apply list_elem_of_In, of_campaign_elem. by exists i. }
  destruct (existsb lost _) eqn:El; unfold update_campaign, modify in H; injection H as <-; apply Hrest; try done.
  intros c _ _ i y Hy. specialize (Hall i y Hy). destruct Hy as [Hy Hyc]. assert (Hyo : job_ok y).
  { apply Hjobs in Hy as [[-> ->]|[_ Hy]]; [done|by apply (O i)]. }
  destruct (decide (dj_Status y = "completed")) as [|Hn]; [done|]. destruct (decide (dj_Status y = "dead")) as [Hd|Hnd].
  - exfalso. rewrite <- not_true_iff_false in El. apply El, existsb_exists. exists y. split; [|unfold lost; by rewrite Hd].
    apply list_elem_of_In, of_campaign_elem. by exists i.
  - assert (active y = true) by (apply active_ok; done). congruence.
Qed.

Lemma step_finish_inv k j d r d' : cm_jobs d !! k = Some j -> dj_Status j = "processing" ->
  CompleteDeliveryJob k d = (r, d') \/ (exists msg, FailDeliveryJob k msg d = (r, d')) -> cinv d -> cinv d'.
Proof.
  intros Hj Hs H Hi. pose proof (ci_jid _ Hi _ _ Hj) as Hid. destruct H as [H|[msg H]].
  - unfold CompleteDeliveryJob in H. apply tx_cases in H as [([] & -> & H)|[_ ->]]; [|done].
    apply bindM_Ok in H as (o & d1 & E & H). unfold gets in E. injection E as <- <-. rewrite Hj in H.
    eapply (finish_inv d k j _ d' Hi Hj Hs); [..|exact H]; [done|done|]. right; right; right; by left.
  - unfold FailDeliveryJob in H. apply tx_cases in H as [([] & -> & H)|[_ ->]]; [|done].
    apply bindM_Ok in H as (o & d1 & E & H). unfold gets in E. injection E as <- <-.
    apply bindM_Ok in H as (t & d1 & E & H). unfold gets in E. injection E as <- <-. rewrite Hj in H.
    eapply (finish_inv d k j _ d' Hi Hj Hs); [..|exact H]; [done|done|]. unfold job_ok. simpl.
    destruct (3 <=? dj_Attempts j) eqn:E; [right; right; right; by right|]. right; right; left. split; [done|]. lia.
Qed.

(** ** Saving *)

Lemma insert_job_inv cid job d d' : insert_job uuid_ok cid job d = (Ok tt, d') -> cinv d ->
  (forall c, cm_campaigns d !! cid = Some c -> cp_Status c <> "completed" /\ cp_Status c <> "sending") ->
  cinv d' /\ cm_campaigns d' = cm_campaigns d /\ pending_of cid d' /\ (forall k j, job_of cid k j d -> job_of cid k j d').
Proof.
  intros H Hi Hc. unfold insert_job, put_job in H. follow H. injection H as <-. set (id := fresh _).
  assert (Hn : id ∉ cd_used (cm_common d)) by apply is_fresh. destruct Hi as [[F1 F2] J C O W X S].
  assert (Hnj : cm_jobs d !! id = None) by (apply not_elem_of_dom; set_solver).
  assert (Hcamp : exists c, cm_campaigns d !! cid = Some c).
  { match goal with E : negb (match ?o with Some _ => _ | None => _ end) = false |- _ => destruct o; [by eexists|discriminate E] end. }
  destruct Hcamp as (c & Hcid). split; [|split; [done|split]].
  - split; simpl.
    + rewrite dom_insert_L. set_solver.
    + intros i y [(<- & <-)|[_ Hy]]%lookup_insert_Some; [done|by apply J].
    + done.
    + intros i y [(<- & <-)|[_ Hy]]%lookup_insert_Some; [by left|by apply (O i)].
    + intros i y [(<- & <-)|[_ Hy]]%lookup_insert_Some; [apply elem_of_dom; by exists c|by apply (W i)].
    + intros i x Hx Hs l y [Hy Hyc]. simpl in Hy. apply lookup_insert_Some in Hy as [(<- & <-)|[_ Hy]]; [|by apply (X i x Hx Hs l y)].
      simpl in Hyc. subst i. by destruct (Hc x Hx).
    + intros i x Hx Hs l y [Hy Hyc]. simpl in Hy. apply lookup_insert_Some in Hy as [(<- & <-)|[_ Hy]].
      * simpl in Hyc. subst i. by destruct (Hc x Hx).
      * destruct (S i x Hx Hs l y) as (m & z & [Hz Hzc] & Ha); [done|]. exists m, z. split; [|done]. split; [|done]. simpl.
        rewrite lookup_insert_ne; [done|]. by intros <-; rewrite Hnj in Hz.
  - exists id. eexists. split; [split; simpl; [by rewrite lookup_insert_eq|done]|done].
  - intros k j [Hk Hkc]. split; [|done]. simpl. rewrite lookup_insert_ne; [done|]. by intros <-; rewrite Hnj in Hk.
Qed.

Lemma insert_jobs_inv cid jobs d d' : iterM (insert_job uuid_ok cid) jobs d = (Ok tt, d') -> cinv d ->
  (forall c, cm_campaigns d !! cid = Some c -> cp_Status c <> "completed" /\ cp_Status c <> "sending") ->
  cinv d' /\ cm_campaigns d' = cm_campaigns d /\ (jobs <> [] -> pending_of cid d') /\ (jobs = [] -> d' = d) /\
  (pending_of cid d -> pending_of cid d').
Proof.
  revert d. induction jobs as [|job jobs IH]; intros d H Hi Hc; simpl in H.
  - injection H as <-. done.
  - apply bindM_Ok in H as ([] & d1 & E & H). destruct (insert_job_inv _ _ _ _ E Hi Hc) as (Hi1 & Hc1 & Hp & Hk).
    destruct (IH d1 H Hi1) as (Hi2 & Hc2 & _ & _ & Hkeep); [by rewrite Hc1|]. split; [done|]. split; [congruence|]. split; [by intros _; apply Hkeep|].
    split; [done|]. intros (k & j & Hj & Ha). apply Hkeep. exists k, j. split; [by apply Hk|done].
Qed.

(** The inserts only ask whether the campaign is there. *)
Lemma campaign_job_frame cid job d m r d' : insert_job uuid_ok cid job d = (r, d') ->
  (is_Some (m !! cid) <-> is_Some (cm_campaigns d !! cid)) -> insert_job uuid_ok cid job (set_campaigns m d) = (r, set_campaigns m d').
Proof.
  unfold insert_job. destruct (negb _ || _); [by intros [= <- <-]|]. unfold gets, put_job, modify, new_id. unfold_M. simpl. intros H Hd.
  replace (match m !! cid with Some _ => true | None => false end) with (match cm_campaigns d !! cid with Some _ => true | None => false end).
  - destruct (cm_campaigns d !! cid); simpl in *; injection H as <- <-; reflexivity.
  - destruct (cm_campaigns d !! cid), (m !! cid); try done; exfalso; [destruct Hd as [_ Hd]|destruct Hd as [Hd _]]; by destruct Hd.
Qed.
Lemma insert_jobs_frame cid jobs d m r d' : iterM (insert_job uuid_ok cid) jobs d = (r, d') ->
  (is_Some (m !! cid) <-> is_Some (cm_campaigns d !! cid)) -> cinv d ->
  (forall c, cm_campaigns d !! cid = Some c -> cp_Status c <> "completed" /\ cp_Status c <> "sending") ->
  iterM (insert_job uuid_ok cid) jobs (set_campaigns m d) = (r, set_campaigns m d').
Proof.
  revert d. induction jobs as [|job jobs IH]; intros d H Hd Hi Hc; simpl in *; [by injection H as <- <-|].
  unfold mbind, M_bind in *. destruct (insert_job uuid_ok cid job d) as [r1 d1] eqn:E. rewrite (campaign_job_frame _ _ _ _ _ _ E Hd).
  destruct r1 as [[]|e]; [|by injection H as <- <-]. destruct (insert_job_inv _ _ _ _ E Hi Hc) as (Hi1 & Hc1 & _ & _).
  apply IH; [done|by rewrite Hc1|done|by rewrite Hc1].
Qed.

Lemma save_inv cid key n sv tv goal window jobs d r d' :
  SaveCampaignManifestAndJobs uuid_ok interval_text cid key n sv tv goal window jobs d = (r, d') ->
  jobs <> [] \/ (forall k j, ~ job_of cid k j d) -> cinv d -> cinv d'.
Proof.
  intros H Hjobs Hi. destruct r as [[]|e]; [|apply tx_cases in H as [(? & [=] & _)|[_ ->]]; done].
  unfold SaveCampaignManifestAndJobs, update_campaign in H. apply tx_cases in H as [([] & _ & H)|[[? ?] _]]; [|done].
  destruct (_ || _) in H; [done|].
  do 4 (let E := fresh "E" in apply bindM_Ok in H as (? & ? & E & H); statement E).
  set (f := set_sending key n sv tv _ _ _) in H.
  destruct (cm_campaigns d !! cid) as [c|] eqn:Ec.
  2:{ assert (Ha : alter f cid (cm_campaigns d) = cm_campaigns d) by (apply map_eq; intros i; rewrite lookup_alter; case_decide as E'; [subst; by rewrite Ec|done]).
      destruct jobs as [|job jobs]; cbn [iterM] in H.
      - assert (Hd : d' = set_campaigns (alter f cid (cm_campaigns d)) d) by (unfold mret, M_ret in H; congruence). subst d'. rewrite Ha. by destruct d.
      - apply bindM_Ok in H as (? & ? & E' & _). unfold insert_job in E'. destruct (_ || _) in E'; [done|].
        apply bindM_Ok in E' as (b & d2 & E' & H). unfold gets in E'. injection E' as <- <-. cbn [set_campaigns cm_campaigns] in H. by rewrite Ha, Ec in H. }
  assert (Ha : alter f cid (cm_campaigns d) = <[cid := f c]> (cm_campaigns d)).
  { apply map_eq. intros i. rewrite lookup_alter. case_decide as E'; [subst; by rewrite Ec, lookup_insert_eq|by rewrite lookup_insert_ne]. }
  rewrite Ha in H. pose proof (ci_cid _ Hi _ _ Ec) as Hcid.
  assert (Hu : cid ∈ cd_used (cm_common d)) by (destruct (ci_fresh _ Hi) as [_ Hf]; apply Hf, elem_of_dom; by exists c).
  set (g := set_status "building" 0 c). set (d0 := set_campaigns (<[cid := g]> (cm_campaigns d)) d).
  assert (Hi0 : cinv d0) by (eapply (campaign_put d cid g _ Hi); done).
  assert (Hg : forall y, cm_campaigns d0 !! cid = Some y -> cp_Status y <> "completed" /\ cp_Status y <> "sending").
  { intros y Hx. unfold d0 in Hx. simpl in Hx. rewrite lookup_insert_eq in Hx. by injection Hx as <-. }
  destruct (iterM (insert_job uuid_ok cid) jobs d0) as [r0 d1] eqn:Erun.
  pose proof (insert_jobs_frame cid jobs d0 (<[cid := f c]> (cm_campaigns d)) r0 d1 Erun) as Hfr.
  change (set_campaigns (<[cid := f c]> (cm_campaigns d)) d0) with (set_campaigns (<[cid := f c]> (cm_campaigns d)) d) in Hfr.
  rewrite H in Hfr. specialize (Hfr ltac:(simpl; by rewrite !lookup_insert_eq) Hi0 Hg). injection Hfr as <- ->.
  destruct (insert_jobs_inv _ _ _ _ Erun Hi0 Hg) as (Hi1 & Hc1 & Hp & Hnil & _).
  replace (set_campaigns (<[cid := f c]> (cm_campaigns d)) d1) with (set_campaigns (<[cid := f c]> (cm_campaigns d1)) d1).
  2:{ rewrite Hc1. unfold d0. simpl. by rewrite insert_insert_eq. }
  destruct (ci_fresh _ Hi1) as [_ Hf1].
  apply (campaign_put d1 cid (f c) _ Hi1); [done|done| |].
  - apply Hf1. rewrite Hc1. unfold d0. simpl. rewrite dom_insert_L. set_solver.
  - intros l j Hl. split; [done|]. intros _. destruct (decide (jobs = [])) as [Hnl|Hne]; [|by apply Hp].
    destruct Hjobs as [?|Hno]; [done|]. specialize (Hnil Hnl). subst d1. by destruct (Hno l j).
Qed.

(** ** The invariant *)

Lemma cstep_inv d d' : cstep d d' -> cinv d -> cinv d'.
Proof.
  intros [p c r d1 H|p c r d1 H Hs|r d1 H|cid key n sv tv goal window jobs r d1 H Hj|worker r d1 H|k j r d1 Hk Hs H|d1 Hc Hj Hu] Hi.
  - by eapply create_inv.
  - by eapply edit_inv.
  - by eapply schedule_inv.
  - by eapply save_inv.
  - by eapply campaign_claim_inv.
  - by eapply step_finish_inv.
  - destruct Hi as [[F1 F2] J C O W X S]. split; rewrite ?Hc, ?Hj; try done; [set_solver| |].
    + intros cid c Hx Hs k j Hjo. apply (X cid c Hx Hs k j). unfold job_of in *. by rewrite Hj in Hjo.
    + intros cid c Hx Hs k j Hjo. unfold pending_of, job_of in *. setoid_rewrite Hj. apply (S cid c Hx Hs k j). by rewrite Hj in Hjo.
Qed.


End life.
End CampaignLife.
