(* ===== verification/Ingest.v ===== *)
(** * Accepting events (src/internal/postgres/store.go, admin.go)

    [AcceptEvents] with the tables it writes in its transaction -- the event
    log, the projection queue, the outbox, the connector jobs, the quota
    window and the audit chain -- and the projection queue's claim, failure
    and dead-letter operations. *)

From S2P Require Import Prelude.
From S2P Require Import GoStd.
From S2P Require Import GoMap.
From S2P Require Import GoFloat.
From S2P Require Import Domain.
From S2P Require Import Store.
From S2P Require Import AuditLog.

Module Ingest.

(** ** Rows *)

Record Job : Type := MkJob {
  jb_EventID : string;
  jb_Sequence : Z;
  jb_TenantID : string;
  jb_PartitionKey : string;
  jb_Status : string;
  jb_Attempts : Z;
  jb_AvailableAt : Z;
  jb_LockedUntil : option Z;
  jb_LastError : option text;
  jb_CompletedAt : option Z
}.

(** The payload of an outbox row is the event's envelope; [ob_Pipelines] are
    the export pipelines an export envelope lists. *)
Record OutboxRow : Type := MkOutboxRow {
  ob_TenantID : string;
  ob_Topic : string;
  ob_PartitionKey : string;
  ob_EventID : string;
  ob_Envelope : AcceptedEvent;
  ob_Pipelines : list string
}.

(** A row of [connector_pipelines], and one of the join of extensions, their
    current version and their subscriptions. *)
Record Pipeline : Type := MkPipeline {
  pl_ID : string; pl_TenantID : string; pl_WorkspaceID : string; pl_AppID : string; pl_Direction : string; pl_Status : string
}.
Record Connector : Type := MkConnector {
  co_ID : string; co_TenantID : string; co_WorkspaceID : string; co_Status : string; co_Kind : string;
  co_VersionStatus : string; co_EventType : string
}.
Record ConnectorJob : Type := MkConnectorJob { cj_ExtensionID : string; cj_EventID : string; cj_TenantID : string; cj_WorkspaceID : string }.

(** [q_quotas] gives a tenant's batch and per-minute limits; [q_locked] are the
    jobs another transaction holds. *)
Record QDB : Type := MkQDB {
  q_accepted : gmap string AcceptedEvent;
  q_jobs : gmap string Job;
  q_sequence : Z;
  q_outbox : list OutboxRow;
  q_quotas : gmap string (Z * Z);
  q_windows : gmap (string * Z) Z;
  q_pipelines : list Pipeline;
  q_connectors : list Connector;
  q_connectorJobs : list ConnectorJob;
  q_audit : Audit.ADB;
  q_locked : gset string;
  q_used : gset string;
  q_now : Z
}.
Definition set_accepted v d := MkQDB v (q_jobs d) (q_sequence d) (q_outbox d) (q_quotas d) (q_windows d) (q_pipelines d)
  (q_connectors d) (q_connectorJobs d) (q_audit d) (q_locked d) (q_used d) (q_now d).
Definition set_jobs v d := MkQDB (q_accepted d) v (q_sequence d) (q_outbox d) (q_quotas d) (q_windows d) (q_pipelines d)
  (q_connectors d) (q_connectorJobs d) (q_audit d) (q_locked d) (q_used d) (q_now d).
Definition set_sequence v d := MkQDB (q_accepted d) (q_jobs d) v (q_outbox d) (q_quotas d) (q_windows d) (q_pipelines d)
  (q_connectors d) (q_connectorJobs d) (q_audit d) (q_locked d) (q_used d) (q_now d).
Definition set_outbox v d := MkQDB (q_accepted d) (q_jobs d) (q_sequence d) v (q_quotas d) (q_windows d) (q_pipelines d)
  (q_connectors d) (q_connectorJobs d) (q_audit d) (q_locked d) (q_used d) (q_now d).
Definition set_windows v d := MkQDB (q_accepted d) (q_jobs d) (q_sequence d) (q_outbox d) (q_quotas d) v (q_pipelines d)
  (q_connectors d) (q_connectorJobs d) (q_audit d) (q_locked d) (q_used d) (q_now d).
Definition set_connectorJobs v d := MkQDB (q_accepted d) (q_jobs d) (q_sequence d) (q_outbox d) (q_quotas d) (q_windows d)
  (q_pipelines d) (q_connectors d) v (q_audit d) (q_locked d) (q_used d) (q_now d).
Definition set_audit v d := MkQDB (q_accepted d) (q_jobs d) (q_sequence d) (q_outbox d) (q_quotas d) (q_windows d)
  (q_pipelines d) (q_connectors d) (q_connectorJobs d) v (q_locked d) (q_used d) (q_now d).
Definition set_used v d := MkQDB (q_accepted d) (q_jobs d) (q_sequence d) (q_outbox d) (q_quotas d) (q_windows d)
  (q_pipelines d) (q_connectors d) (q_connectorJobs d) (q_audit d) (q_locked d) v (q_now d).
Definition set_now v d := MkQDB (q_accepted d) (q_jobs d) (q_sequence d) (q_outbox d) (q_quotas d) (q_windows d)
  (q_pipelines d) (q_connectors d) (q_connectorJobs d) (q_audit d) (q_locked d) (q_used d) v.

Abbreviation Q := (M QDB).
Definition gets {A} (f : QDB -> A) : Q A := fun d => (Ok (f d), d).
Definition modify (f : QDB -> QDB) : Q unit := fun d => (Ok tt, f d).
(** [Begin ... Commit] with a deferred [Rollback]. *)
Definition tx {A} (m : Q A) : Q A := fun d =>
  match m d with
  | (Ok a, d') => (Ok a, d')
  | (Err e, _) => (Err e, d)
  end.

Definition ErrQuotaExceeded : error := Sentinel "quota exceeded".
Definition ErrIdempotencyConflict : error := Sentinel "idempotency key reused with different event".
Definition ErrNoRows : error := Sentinel "no rows in result set".
Definition check_violation : error := errors_New "violates check constraint".
Definition json_error : error := errors_New "invalid input syntax for type json".

(** ** Accepting one event *)

(** The defaults of the loop's head. *)
Definition normalise (e : Event) : Event :=
  MkEvent (ev_Type e) (ev_SchemaVersion e) (ev_ExternalID e) (ev_AnonymousID e) (ev_IdempotencyKey e)
    (Time.Truncate (ev_OccurredAt e) 1000) (if ev_Source e =s "" then "api" else ev_Source e) (ev_SourceEventID e)
    (ev_CorrelationID e) (ev_CausationID e) (ev_Traceparent e)
    (if ev_DataClassification e =s "" then "internal" else ev_DataClassification e)
    (if raw_len0 (ev_ConsentContext e) then Raw (JObject []) else ev_ConsentContext e) (ev_Payload e).

(** The columns of the principal an event row keeps. *)
Definition owner (p : Principal) : Principal := MkPrincipal (p_TenantID p) (p_WorkspaceID p) (p_AppID p) "" "" "" [].
Definition accepted_row (id : string) (p : Principal) (e : Event) (receivedAt : Z) : AcceptedEvent :=
  MkAcceptedEvent id (owner p) (ev_Type e) (ev_SchemaVersion e) (ev_ExternalID e) (ev_AnonymousID e) (ev_IdempotencyKey e)
    (ev_OccurredAt e) receivedAt (ev_Source e) (ev_SourceEventID e) (ev_CorrelationID e) (ev_CausationID e) (ev_Traceparent e)
    (ev_DataClassification e) (ev_ConsentContext e) (ev_Payload e).

(** The UNIQUE (tenant_id, app_id, idempotency_key). *)
Definition same_key (p : Principal) (e : Event) (a : AcceptedEvent) : bool :=
  (p_TenantID (ae_Principal a) =s p_TenantID p) && (p_AppID (ae_Principal a) =s p_AppID p) &&
  (ae_IdempotencyKey a =s ev_IdempotencyKey e).
Definition find_accepted (p : Principal) (e : Event) (d : QDB) : option AcceptedEvent :=
  snd <$> find_first (fun kv => same_key p e kv.2) (map_to_list (q_accepted d)).

(** [json.Unmarshal] into an [any] whose error is ignored. *)
Definition decoded (r : RawMessage) : any := match r with Raw j => Any.decode j | _ => ANil end.
Definition differs (a : AcceptedEvent) (e : Event) : bool :=
  negb (ae_Type a =s ev_Type e) || negb (ae_SchemaVersion a =? ev_SchemaVersion e) ||
  negb (ae_ExternalID a =s ev_ExternalID e) || negb (ae_AnonymousID a =s ev_AnonymousID e) ||
  negb (ae_OccurredAt a =? ev_OccurredAt e) ||
  negb (Any.DeepEqual (decoded (ae_Payload a)) (decoded (ev_Payload e))).

(** INSERT INTO accepted_events: the generated id. *)
Definition insert_accepted (p : Principal) (e : Event) : Q AcceptedEvent := fun d =>
  match ev_Payload e, ev_ConsentContext e with
  | Raw _, Raw _ =>
      if ev_SchemaVersion e <? 1 then (Err check_violation, d) else
      let id := fresh (q_used d) in
      let row := accepted_row id p e (q_now d) in
      (Ok row, set_accepted (<[id := row]> (q_accepted d)) (set_used ({[id]} ∪ q_used d) d))
  | _, _ => (Err json_error, d)
  end.

Definition partition_key (e : Event) : string := if ev_ExternalID e =s "" then ev_AnonymousID e else ev_ExternalID e.

(** INSERT INTO projection_jobs ... ON CONFLICT (event_id) DO NOTHING; a
    sequence number is drawn either way. *)
Definition insert_job (p : Principal) (id : string) (key : string) : Q unit :=
  modify (fun d =>
    let n := q_sequence d + 1 in
    let d := set_sequence n d in
    match q_jobs d !! id with
    | Some _ => d
    | None => set_jobs (<[id := MkJob id n (p_TenantID p) key "pending" 0 (q_now d) None None None]> (q_jobs d)) d
    end).

(** INSERT INTO outbox_events ... ON CONFLICT (topic, event_id) DO NOTHING. *)
Definition insert_outbox (row : OutboxRow) : Q unit :=
  modify (fun d =>
    if existsb (fun o => (ob_Topic o =s ob_Topic row) && (ob_EventID o =s ob_EventID row)) (q_outbox d) then d
    else set_outbox (q_outbox d ++ [row]) d).

Definition exports (p : Principal) (d : QDB) : list string :=
  GoMap.sort_by GoMap.str_less
    (pl_ID <$> filter (fun l => (pl_TenantID l =s p_TenantID p) && (pl_WorkspaceID l =s p_WorkspaceID p) &&
                                (pl_AppID l =s p_AppID p) && (pl_Direction l =s "export") && (pl_Status l =s "enabled") = true)
                      (q_pipelines d)).

Definition connects (p : Principal) (id : string) (d : QDB) (c : Connector) : bool :=
  (co_TenantID c =s p_TenantID p) && (co_WorkspaceID c =s p_WorkspaceID p) && (co_Status c =s "enabled") &&
  (co_Kind c =s "connector") && (co_VersionStatus c =s "active") && (co_EventType c =s "events.accepted.v1") &&
  negb (existsb (fun j => (cj_ExtensionID j =s co_ID c) && (cj_EventID j =s id)) (q_connectorJobs d)).
Definition insert_connector_jobs (p : Principal) (id : string) : Q unit :=
  modify (fun d => set_connectorJobs (q_connectorJobs d ++
    ((fun c => MkConnectorJob (co_ID c) id (p_TenantID p) (p_WorkspaceID p)) <$>
     filter (fun c => connects p id d c = true) (q_connectors d))) d).

(** The rest of the loop's body, for the row the event has or was given. *)
Definition enqueue (p : Principal) (event : Event) (row : AcceptedEvent) : Q string :=
  let id := ae_ID row in
  let key := partition_key event in
  let envelope := accepted_row id p event (ae_ReceivedAt row) in
  _ ← insert_job p id key;
  _ ← insert_outbox (MkOutboxRow (p_TenantID p) "events.accepted.v1" key id envelope []);
  pipelines ← gets (exports p);
  _ ← (match pipelines with
       | [] => mret tt
       | _ => insert_outbox (MkOutboxRow (p_TenantID p) "exports.events.v1" key id envelope pipelines)
       end);
  _ ← insert_connector_jobs p id;
  mret id.

(** The body of the loop: the event's id, new or that of the earlier
    acceptance. *)
Definition accept_one (p : Principal) (event : Event) : Q string :=
  let event := normalise event in
  existing ← gets (find_accepted p event);
  row ← match existing with
        | None => insert_accepted p event
        | Some a => if differs a event then throw ErrIdempotencyConflict else mret a
        end;
  enqueue p event row.

Fixpoint accept_all (p : Principal) (events : list Event) : Q (list string) :=
  match events with
  | [] => mret []
  | e :: events' => id ← accept_one p e; ids ← accept_all p events'; mret (id :: ids)
  end.

(** INSERT INTO quota_windows ... ON CONFLICT DO UPDATE ... RETURNING
    event_count. *)
Definition count_window (tenant : string) (n : Z) : Q Z := fun d =>
  let w := (tenant, q_now d - q_now d mod Time.Minute) in
  let count := default 0 (q_windows d !! w) + n in
  (Ok count, set_windows (<[w := count]> (q_windows d)) d).

Section accept.
Context (uuid_ok : string -> bool).

Definition audited (p : Principal) (action resourceType resourceID : string) (metadata : json) : Q unit := fun d =>
  match Audit.audit uuid_ok p action resourceType resourceID metadata (q_audit d) with
  | (r, a) => (r, set_audit a d)
  end.

Definition AcceptEvents (p : Principal) (events : list Event) : Q (list string) := tx (
  quota ← gets (fun d => q_quotas d !! p_TenantID p);
  match quota with
  | None => throw ErrNoRows
  | Some (maxBatch, perMinute) =>
      let n := Z.of_nat (length events) in
      if maxBatch <? n then throw (Errorf "%w: maximum batch size is %d" [AWrap ErrQuotaExceeded; AInt maxBatch]) else
      ids ← accept_all p events;
      windowCount ← count_window (p_TenantID p) n;
      if perMinute <? windowCount then throw (Errorf "%w: events per minute" [AWrap ErrQuotaExceeded]) else
      _ ← audited p "events.accept" "event_batch" "" (JObject [("count", JNumber (GoStr.of_Z n))]);
      mret ids
  end).

(** [RetryDeadLetter] and [DiscardDeadLetter] of the projection queue: the
    update runs outside the transaction that audits it. *)
Definition dead_letter (p : Principal) (id : string) (upd : Z -> Job -> Job) (action : string) : Q unit :=
  job ← gets (fun d => q_jobs d !! id);
  match job with
  | Some j =>
      if (jb_TenantID j =s p_TenantID p) && (jb_Status j =s "dead") then
        _ ← modify (fun d => set_jobs (<[id := upd (q_now d) j]> (q_jobs d)) d);
        audited p action "dead_letter" ("projection:" +:+ id) (JObject [])
      else throw ErrNotFound
  | None => throw ErrNotFound
  end.
Definition retried (now : Z) (j : Job) : Job :=
  MkJob (jb_EventID j) (jb_Sequence j) (jb_TenantID j) (jb_PartitionKey j) "pending" 0 now None None (jb_CompletedAt j).
Definition discarded (now : Z) (j : Job) : Job :=
  MkJob (jb_EventID j) (jb_Sequence j) (jb_TenantID j) (jb_PartitionKey j) "done" (jb_Attempts j) (jb_AvailableAt j) None
    (Some (lit "discarded from dead letter queue")) (Some now).
Definition RetryDeadLetter (p : Principal) (id : string) : Q unit := dead_letter p id retried "dlq.retry".
Definition DiscardDeadLetter (p : Principal) (id : string) : Q unit := dead_letter p id discarded "dlq.discard".

End accept.

(** ** The projection queue *)

Definition finished (j : Job) : bool := (jb_Status j =s "done") || (jb_Status j =s "dead").
Definition expired (now : Z) (j : Job) : bool := match jb_LockedUntil j with Some t => t <? now | None => false end.
(** Both identifiers NOT NULL and equal. *)
Definition same_id (a b : string) : bool := negb (a =s "") && (a =s b).
(** Two jobs of one tenant whose events may touch the same subject. *)
Definition same_subject (d : QDB) (j k : Job) : bool :=
  (jb_TenantID j =s jb_TenantID k) &&
  ((jb_PartitionKey j =s jb_PartitionKey k) ||
   match q_accepted d !! jb_EventID j, q_accepted d !! jb_EventID k with
   | Some e, Some f => same_id (ae_ExternalID e) (ae_ExternalID f) || same_id (ae_AnonymousID e) (ae_AnonymousID f)
   | _, _ => false
   end).
(** The WHERE clause. *)
Definition claimable (d : QDB) (j : Job) : bool :=
  ((jb_Status j =s "pending") || ((jb_Status j =s "processing") && expired (q_now d) j)) &&
  (jb_AvailableAt j <=? q_now d) &&
  negb (existsb (fun kv => (jb_Sequence kv.2 <? jb_Sequence j) && negb (finished kv.2) && same_subject d kv.2 j)
          (map_to_list (q_jobs d))).
Definition less_sequence (j k : Job) : bool := jb_Sequence j <? jb_Sequence k.
Definition next_job (d : QDB) : option Job :=
  head (GoMap.sort_by less_sequence
    (filter (fun j => negb (bool_decide (jb_EventID j ∈ q_locked d)) && bool_decide (is_Some (q_accepted d !! jb_EventID j)) &&
                      claimable d j = true) (snd <$> map_to_list (q_jobs d)))).

Definition set_status (status : string) (attempts available : Z) (locked : option Z) (lastError : option text) (completed : option Z)
    (j : Job) : Job :=
  MkJob (jb_EventID j) (jb_Sequence j) (jb_TenantID j) (jb_PartitionKey j) status attempts available locked lastError completed.
Definition put_job (j : Job) : Q unit := modify (fun d => set_jobs (<[jb_EventID j := j]> (q_jobs d)) d).

Definition ClaimProjectionJob : Q (option AcceptedEvent) := tx (
  job ← gets next_job;
  match job with
  | None => mret None
  | Some j =>
      now ← gets q_now;
      _ ← put_job (set_status "processing" (jb_Attempts j + 1) (jb_AvailableAt j) (Some (now + 30 * Time.Second))
                     (jb_LastError j) (jb_CompletedAt j) j);
      gets (fun d => q_accepted d !! jb_EventID j)
  end).

(** The last statement of [ProjectEvent]. *)
Definition complete_job (eventID : string) : Q unit :=
  modify (fun d => set_jobs (alter (fun j => set_status "done" (jb_Attempts j) (jb_AvailableAt j) None None (Some (q_now d)) j)
                               eventID (q_jobs d)) d).

Definition failed (now : Z) (message : text) (j : Job) : Job :=
  set_status (if 10 <=? jb_Attempts j then "dead" else "pending") (jb_Attempts j)
    (now + Z.min (jb_Attempts j) 10 * (5 * Time.Second)) None (Some message) (jb_CompletedAt j) j.
Definition FailProjectionJob (eventID : string) (message : text) : Q unit := fun d =>
  match q_jobs d !! eventID with
  | Some j => (Ok tt, set_jobs (<[eventID := failed (q_now d) message j]> (q_jobs d)) d)
  | None => (Err (Errorf "projection job %s not found" [AStr eventID]), d)
  end.

End Ingest.
