(* ===== verification/IngestSpec.v ===== *)
(** * Event acceptance and the projection queue: what they guarantee

    Accepting a batch again, however much later, adds nothing but the rows of
    export pipelines and connectors enabled in between; a reused key with
    other contents is refused. *)

From S2P Require Import Prelude.
From S2P Require Import GoStd.
From S2P Require Import GoMap.
From S2P Require Import GoFloat.
From S2P Require Import Domain.
From S2P Require Import Store.
From S2P Require Import AuditLog.
From S2P Require Import Ingest.

Module IngestSpec.
Import Ingest.

(** ** One event *)

(** What accepting [e] under [id] leaves: the row under its key, its job, its
    outbox rows and its connector jobs. *)
Definition in_outbox (topic id : string) (d : QDB) : bool :=
  existsb (fun o => (ob_Topic o =s topic) && (ob_EventID o =s id)) (q_outbox d).
Record settled (p : Principal) (e : Event) (id : string) (d : QDB) : Prop := MkSettled {
  s_row : exists a, find_accepted p (normalise e) d = Some a /\ ae_ID a = id /\ differs a (normalise e) = false;
  s_job : is_Some (q_jobs d !! id);
  s_outbox : in_outbox "events.accepted.v1" id d = true;
  s_exports : exports p d <> [] -> in_outbox "exports.events.v1" id d = true;
  s_connectors : filter (fun c => connects p id d c = true) (q_connectors d) = []
}.

Lemma insert_outbox_in row d : in_outbox (ob_Topic row) (ob_EventID row) (insert_outbox row d).2 = true.
Proof.
  unfold insert_outbox, modify, in_outbox; simpl. destruct (existsb _ (q_outbox d)) eqn:E; [done|]. simpl.
  rewrite existsb_app. simpl. by rewrite !seqb_refl, orb_true_r.
Qed.

Lemma insert_outbox_idle row d : in_outbox (ob_Topic row) (ob_EventID row) d = true -> insert_outbox row d = (Ok tt, d).
Proof. unfold insert_outbox, modify, in_outbox. by intros ->. Qed.

Lemma insert_job_idle p id key d : is_Some (q_jobs d !! id) -> insert_job p id key d = (Ok tt, set_sequence (q_sequence d + 1) d).
Proof. intros [j Hj]. unfold insert_job, modify. simpl. by rewrite Hj. Qed.

(** Two rows of the log never share a key. *)
Definition keys_unique (d : QDB) : Prop :=
  forall i j a b, q_accepted d !! i = Some a -> q_accepted d !! j = Some b ->
    p_TenantID (ae_Principal a) = p_TenantID (ae_Principal b) -> p_AppID (ae_Principal a) = p_AppID (ae_Principal b) ->
    ae_IdempotencyKey a = ae_IdempotencyKey b -> i = j.
Definition ids_ok (d : QDB) : Prop := forall i a, q_accepted d !! i = Some a -> ae_ID a = i /\ i ∈ q_used d.

Lemma find_accepted_Some p e d a : find_accepted p e d = Some a -> (exists i, q_accepted d !! i = Some a) /\ same_key p e a = true.
Proof.
  unfold find_accepted. destruct (find_first _ _) as [[i x]|] eqn:E; simpl; [|discriminate]. intros H. injection H as <-.
  apply find_first_Some in E as [Hi Hk]. split; [|done]. exists i. by apply elem_of_map_to_list in Hi.
Qed.

Lemma find_accepted_None p e d : find_accepted p e d = None -> forall i a, q_accepted d !! i = Some a -> same_key p e a = false.
Proof.
  unfold find_accepted. destruct (find_first _ _) as [x|] eqn:E; simpl; [discriminate|]. intros _ i a Hi.
  apply find_first_None in E. rewrite Forall_forall in E. apply (E (i, a)). by apply elem_of_map_to_list.
Qed.

Lemma same_key_row p e id now : same_key p e (accepted_row id p e now) = true.
Proof. unfold same_key. simpl. by rewrite !seqb_refl. Qed.

Lemma same_key_eq p e a : same_key p e a = true <->
  p_TenantID (ae_Principal a) = p_TenantID p /\ p_AppID (ae_Principal a) = p_AppID p /\ ae_IdempotencyKey a = ev_IdempotencyKey e.
Proof. unfold same_key. rewrite !andb_true_iff, !seqb_true. tauto. Qed.

(** A row of the key is the row of the key. *)
Lemma find_accepted_eq p e d i a :
  keys_unique d -> q_accepted d !! i = Some a -> same_key p e a = true -> find_accepted p e d = Some a.
Proof.
  intros Hu Hi Hk. destruct (find_accepted p e d) as [b|] eqn:E.
  - apply find_accepted_Some in E as [[j Hj] Hkb]. apply same_key_eq in Hk as (? & ? & ?), Hkb as (? & ? & ?).
    assert (i = j) as -> by (apply (Hu i j a b); congruence). congruence.
  - by rewrite (find_accepted_None _ _ _ E i a Hi) in Hk.
Qed.

(** What [enqueue] leaves in the queues. *)
Record queued (p : Principal) (id : string) (d d' : QDB) : Prop := MkQueued {
  e_accepted : q_accepted d' = q_accepted d;
  e_config : q_pipelines d' = q_pipelines d /\ q_connectors d' = q_connectors d /\ q_quotas d' = q_quotas d /\ q_now d' = q_now d;
  e_used : q_used d' = q_used d;
  e_jobs : forall i, is_Some (q_jobs d !! i) \/ i = id -> is_Some (q_jobs d' !! i);
  e_outbox : forall t i, in_outbox t i d = true -> in_outbox t i d' = true;
  e_topic : in_outbox "events.accepted.v1" id d' = true;
  e_exports : exports p d <> [] -> in_outbox "exports.events.v1" id d' = true;
  e_connectorJobs : q_connectorJobs d ⊆ q_connectorJobs d';
  e_connected : filter (fun c => connects p id d' c = true) (q_connectors d') = []
}.

Lemma insert_outbox_grows row d t i : in_outbox t i d = true -> in_outbox t i (insert_outbox row d).2 = true.
Proof.
  unfold insert_outbox, modify, in_outbox; simpl. intros H. case_match; [done|]. simpl. by rewrite existsb_app, H.
Qed.

Lemma insert_outbox_frame row d : exists o, (insert_outbox row d).2 = set_outbox o d.
Proof.
  unfold insert_outbox, modify; simpl. destruct (existsb _ (q_outbox d)); [|by eexists]. exists (q_outbox d). by destruct d.
Qed.

Lemma insert_job_frame p id key d : exists js, (insert_job p id key d).2 = set_jobs js (set_sequence (q_sequence d + 1) d) /\
  forall i, is_Some (q_jobs d !! i) \/ i = id -> is_Some (js !! i).
Proof.
  unfold insert_job, modify; simpl. destruct (q_jobs d !! id) as [j|] eqn:E.
  - exists (q_jobs d). split; [by destruct d|]. intros i [Hi| ->]; [done | by exists j].
  - eexists. split; [reflexivity|]. intros i [Hi| ->]; [|rewrite lookup_insert_eq; by eexists].
    destruct (decide (i = id)) as [->|]; [rewrite lookup_insert_eq; by eexists | by rewrite lookup_insert_ne by congruence].
Qed.

Lemma insert_connector_jobs_done p id d : let d' := (insert_connector_jobs p id d).2 in
  filter (fun c => connects p id d' c = true) (q_connectors d') = [].
Proof.
  simpl. destruct (filter _ (q_connectors d)) as [|c l] eqn:E at 1; [done|]. exfalso.
  assert (Hc : c ∈ c :: l) by apply list_elem_of_here. rewrite <- E in Hc. apply list_elem_of_filter in Hc as [Hc Hin].
  unfold connects in Hc. simpl in Hc. rewrite existsb_app, negb_orb in Hc. apply andb_prop in Hc as [Hb [Hold Hnew]%andb_prop].
  apply negb_true_iff in Hnew. apply eq_true_false_abs in Hnew; [done|]. apply existsb_exists.
  exists (MkConnectorJob (co_ID c) id (p_TenantID p) (p_WorkspaceID p)). simpl. rewrite !seqb_refl. split; [|done].
  apply list_elem_of_In, list_elem_of_fmap. exists c. split; [done|]. apply list_elem_of_filter. split; [|done].
  unfold connects. by rewrite Hb, Hold.
Qed.

Lemma enqueue_queued p e row d : exists d', enqueue p e row d = (Ok (ae_ID row), d') /\ queued p (ae_ID row) d d'.
Proof.
  set (id := ae_ID row). destruct (insert_job_frame p id (partition_key e) d) as (js & Ej & Hj).
  unfold enqueue, gets. fold id. unfold_M. set (o1 := MkOutboxRow _ "events.accepted.v1" _ _ _ _).
  destruct (insert_job p id (partition_key e) d) as [r1 d1] eqn:E1. assert (r1 = Ok tt) as -> by by injection E1 as <- _.
  simpl in Ej. destruct (insert_outbox_frame o1 d1) as [ob1 Eo1]. pose proof (insert_outbox_in o1 d1) as Ho1.
  pose proof (insert_outbox_grows o1 d1) as Hg1.
  destruct (insert_outbox o1 d1) as [r2 d2] eqn:E2. assert (r2 = Ok tt) as -> by by injection E2 as <- _. simpl in Eo1, Ho1, Hg1.
  assert (Ex : exports p d2 = exports p d) by (by rewrite Eo1, Ej). rewrite Ex.
  set (m := match exports p d with [] => _ | _ :: _ => _ end).
  assert (Hm : exists d3 ob3, m d2 = (Ok tt, d3) /\ d3 = set_outbox ob3 d2 /\ (forall t i, in_outbox t i d2 = true -> in_outbox t i d3 = true) /\
            (exports p d <> [] -> in_outbox "exports.events.v1" id d3 = true)).
  { unfold m. destruct (exports p d) as [|x l]; [exists d2, (q_outbox d2); split; [done|]; split; [by destruct d2 | by split]|].
    set (o2 := MkOutboxRow _ _ _ _ _ _). destruct (insert_outbox_frame o2 d2) as [ob3 Eo3].
    exists (insert_outbox o2 d2).2, ob3. split; [done|]. split; [done|]. split; [apply insert_outbox_grows|].
    intros _. apply (insert_outbox_in o2). }
  destruct Hm as (d3 & ob3 & -> & E3 & Hg3 & Hx3). pose proof (insert_connector_jobs_done p id d3) as Hdone.
  eexists. split; [reflexivity|]. simpl in Hdone. constructor; simpl.
  - by rewrite E3, Eo1, Ej.
  - by rewrite E3, Eo1, Ej.
  - by rewrite E3, Eo1, Ej.
  - intros i Hi. rewrite E3, Eo1, Ej. simpl. by apply Hj.
  - intros t i Hi. apply (Hg3 t i), Hg1. by rewrite Ej.
  - apply (Hg3 _ _ Ho1).
  - exact Hx3.
  - rewrite E3, Eo1, Ej. simpl. set_solver.
  - exact Hdone.
Qed.

(** Accepting an event settles it, and unsettles none. *)
Lemma settles_row p e id d d' a :
  queued p id d d' -> find_accepted p (normalise e) d = Some a -> ae_ID a = id -> differs a (normalise e) = false ->
  settled p e id d'.
Proof.
  intros Hq Ha Hid Hd. constructor.
  - exists a. unfold find_accepted. rewrite (e_accepted _ _ _ _ Hq). by split.
  - apply (e_jobs _ _ _ _ Hq). by right.
  - apply (e_topic _ _ _ _ Hq).
  - intros He. apply (e_exports _ _ _ _ Hq). unfold exports in *. by destruct (e_config _ _ _ _ Hq) as [<- _].
  - apply (e_connected _ _ _ _ Hq).
Qed.

Lemma keeps_settled p id d d' p' e' id' :
  queued p id d d' -> settled p' e' id' d -> settled p' e' id' d'.
Proof.
  intros Hq [(a & Ha & Hid & Hd) Hj Ho He Hc]. constructor.
  - exists a. unfold find_accepted. rewrite (e_accepted _ _ _ _ Hq). by split.
  - apply (e_jobs _ _ _ _ Hq). by left.
  - by apply (e_outbox _ _ _ _ Hq).
  - intros Hx. apply (e_outbox _ _ _ _ Hq), He. unfold exports in *. by destruct (e_config _ _ _ _ Hq) as [<- _].
  - destruct (e_config _ _ _ _ Hq) as (_ & -> & _). destruct (filter _ _) as [|c l] eqn:E at 1; [done|]. exfalso.
    assert (Hin : c ∈ c :: l) by apply list_elem_of_here. rewrite <- E in Hin. apply list_elem_of_filter in Hin as [Hcc Hin].
    assert (Hin' : c ∈ filter (fun c => connects p' id' d c = true) (q_connectors d)).
    { apply list_elem_of_filter. split; [|done]. unfold connects in *. apply andb_prop in Hcc as [-> Hn]. simpl.
      apply negb_true_iff. apply negb_true_iff in Hn. destruct (existsb _ (q_connectorJobs d)) eqn:Ex; [|done].
      rewrite <- Hn. symmetry. apply existsb_exists in Ex as (x & Hx & Hf). apply existsb_exists. exists x.
      split; [|done]. apply list_elem_of_In, (e_connectorJobs _ _ _ _ Hq). by apply list_elem_of_In. }
    rewrite Hc in Hin'. by apply elem_of_nil in Hin'.
Qed.

(** ** Batches *)

Definition log_ok (d : QDB) : Prop := ids_ok d /\ keys_unique d.

(** A fresh row with a new key. *)
Lemma log_ok_insert p e d i now :
  log_ok d -> i ∉ q_used d -> find_accepted p e d = None ->
  log_ok (set_accepted (<[i := accepted_row i p e now]> (q_accepted d)) (set_used ({[i]} ∪ q_used d) d)).
Proof.
  intros [Hi Hu] Hf Hn. split.
  - intros j a. simpl. destruct (decide (i = j)) as [<-|Hne].
    + rewrite lookup_insert_eq. intros H. injection H as <-. split; [done | set_solver].
    + rewrite lookup_insert_ne by done. intros H. destruct (Hi j a H). split; [done | set_solver].
  - intros j k a b. simpl. pose proof (find_accepted_None _ _ _ Hn) as Hno.
    destruct (decide (i = j)) as [<-|Hj], (decide (i = k)) as [<-|Hk]; rewrite ?lookup_insert_eq, ?lookup_insert_ne by done; [done|..].
    + intros H1 H2 E1 E2 E3. injection H1 as <-. exfalso. specialize (Hno k b H2).
      rewrite (proj2 (same_key_eq p e b)) in Hno; [done|]. simpl in *. by rewrite <- E1, <- E2, <- E3.
    + intros H1 H2 E1 E2 E3. injection H2 as <-. exfalso. specialize (Hno j a H1).
      by rewrite (proj2 (same_key_eq p e a)) in Hno.
    + apply (Hu j k a b).
Qed.

Lemma log_ok_ext d d' : q_accepted d' = q_accepted d -> q_used d' = q_used d -> log_ok d -> log_ok d'.
Proof. unfold log_ok, ids_ok, keys_unique. by intros -> ->. Qed.

Lemma differs_row p e id now j : ev_Payload e = Raw j -> differs (accepted_row id p e now) e = false.
Proof.
  intros E. unfold differs. simpl. rewrite !seqb_refl, !Z.eqb_refl. simpl. rewrite E. simpl. by rewrite Any.decode_equal.
Qed.

Lemma accept_one_settles p e d id d1 :
  log_ok d -> accept_one p e d = (Ok id, d1) ->
  log_ok d1 /\ settled p e id d1 /\ (forall p' e' id', settled p' e' id' d -> settled p' e' id' d1) /\
  q_quotas d1 = q_quotas d /\ q_now d1 = q_now d.
Proof.
  intros Hok H. unfold accept_one, gets in H. cbn zeta in H. unfold_M. set (e0 := normalise e) in *.
  destruct (find_accepted p e0 d) as [a|] eqn:Ef.
  - destruct (differs a e0) eqn:Ed; [discriminate|]. destruct (enqueue_queued p e0 a d) as (d' & E & Hq).
    rewrite E in H. injection H as <- <-. split; [by apply (log_ok_ext d), Hok; apply Hq|].
    split; [by apply (settles_row p e _ d d' a)|]. split; [intros; by eapply keeps_settled|]. by destruct (e_config _ _ _ _ Hq) as (_ & _ & ? & ?).
  - unfold insert_accepted in H. destruct (ev_Payload e0) as [|t|j] eqn:Ep; [discriminate..|].
    destruct (ev_ConsentContext e0); [discriminate..|]. destruct (ev_SchemaVersion e0 <? 1); [discriminate|].
    set (i := fresh (q_used d)) in *. set (row := accepted_row i p e0 (q_now d)) in *.
    set (d0 := set_accepted _ _) in H. destruct (enqueue_queued p e0 row d0) as (d' & E & Hq). rewrite E in H. injection H as <- <-.
    assert (Hfresh : i ∉ q_used d) by apply is_fresh.
    assert (Hok0 : log_ok d0) by by apply log_ok_insert.
    assert (Hrow : q_accepted d0 !! i = Some row) by (simpl; by rewrite lookup_insert_eq).
    split; [apply (log_ok_ext d0); [apply Hq | apply Hq | exact Hok0]|]. split; [|split].
    + apply (settles_row p e _ d0 d' row); [done | | done | by apply (differs_row _ _ _ _ j)].
      apply (find_accepted_eq _ _ _ i); [apply Hok0 | done | apply same_key_row].
    + intros p' e' id' Hs. apply (keeps_settled p (ae_ID row) d0 d'); [done|]. destruct Hs as [(a & Ha & Hid & Hd) Hj Ho He Hc].
      constructor; [|done..]. exists a. split; [|done]. apply find_accepted_Some in Ha as [[k Hk] Hkey].
      apply (find_accepted_eq _ _ _ k); [apply Hok0 | | done]. simpl. rewrite lookup_insert_ne; [done|].
      intros <-. destruct (proj1 Hok i a Hk) as [_ Hin]. done.
    + by destruct (e_config _ _ _ _ Hq) as (_ & _ & ? & ?).
Qed.

Lemma accept_all_settles p events d ids d1 :
  log_ok d -> accept_all p events d = (Ok ids, d1) ->
  log_ok d1 /\ Forall2 (fun e id => settled p e id d1) events ids /\
  (forall p' e' id', settled p' e' id' d -> settled p' e' id' d1) /\ q_quotas d1 = q_quotas d /\ q_now d1 = q_now d.
Proof.
  revert d ids. induction events as [|e events IH]; intros d ids Hok H; simpl in H.
  { injection H as <- <-. split; [done|]. split; [constructor|]. by split. }
  apply bindM_Ok in H as (id & d2 & H1 & H). apply bindM_Ok in H as (ids' & d3 & H2 & H). injection H as <- <-.
  destruct (accept_one_settles _ _ _ _ _ Hok H1) as (Hok2 & Hs & Hk & Hq & Hn).
  destruct (IH d2 ids' Hok2 H2) as (Hok3 & Hs3 & Hk3 & Hq3 & Hn3).
  split; [done|]. split; [constructor; [by apply Hk3 | done]|]. split; [intros; by apply Hk3, Hk|]. split; congruence.
Qed.

(** ** Accepting again *)

(** Nothing of [d1] has gone from [d2]; anything may have come. *)
Record kept (d1 d2 : QDB) : Prop := MkKept {
  k_log : log_ok d2;
  k_accepted : q_accepted d1 ⊆ q_accepted d2;
  k_jobs : forall i, is_Some (q_jobs d1 !! i) -> is_Some (q_jobs d2 !! i);
  k_outbox : forall t i, in_outbox t i d1 = true -> in_outbox t i d2 = true;
  k_connectorJobs : q_connectorJobs d1 ⊆ q_connectorJobs d2
}.

(** The event's row, job and outbox row are there. *)
Definition stored (p : Principal) (e : Event) (id : string) (d : QDB) : Prop :=
  (exists a, find_accepted p (normalise e) d = Some a /\ ae_ID a = id /\ differs a (normalise e) = false) /\
  is_Some (q_jobs d !! id) /\ in_outbox "events.accepted.v1" id d = true.

(** What accepting the stored events [ids] again adds to [d]. *)
Definition fresh_export (p : Principal) (ids : list string) (d : QDB) (o : OutboxRow) : Prop :=
  ob_Topic o = "exports.events.v1" /\ ob_EventID o ∈ ids /\ exports p d <> [] /\ in_outbox "exports.events.v1" (ob_EventID o) d = false.
Definition fresh_connector (p : Principal) (ids : list string) (d : QDB) (j : ConnectorJob) : Prop :=
  cj_EventID j ∈ ids /\ exists c, c ∈ q_connectors d /\ co_ID c = cj_ExtensionID j /\ connects p (cj_EventID j) d c = true.
Record added (p : Principal) (ids : list string) (d d' : QDB) : Prop := MkAdded {
  a_log : q_accepted d' = q_accepted d /\ q_jobs d' = q_jobs d /\ q_used d' = q_used d;
  a_config : q_pipelines d' = q_pipelines d /\ q_connectors d' = q_connectors d /\ q_windows d' = q_windows d /\ q_now d' = q_now d;
  a_outbox : exists rows, q_outbox d' = q_outbox d ++ rows /\ Forall (fresh_export p ids d) rows;
  a_connectorJobs : exists js, q_connectorJobs d' = q_connectorJobs d ++ js /\ Forall (fresh_connector p ids d) js
}.

Lemma in_outbox_sub t i d d' : q_outbox d ⊆ q_outbox d' -> in_outbox t i d = true -> in_outbox t i d' = true.
Proof. unfold in_outbox. rewrite !existsb_exists. intros Hs (o & Ho & E). exists o. split; [|done]. apply list_elem_of_In, Hs. by apply list_elem_of_In. Qed.
Lemma connects_sub p id d d' c : q_connectorJobs d ⊆ q_connectorJobs d' -> connects p id d' c = true -> connects p id d c = true.
Proof.
  unfold connects. intros Hs [-> Hn]%andb_prop. simpl. apply negb_true_iff. apply negb_true_iff in Hn.
  destruct (existsb _ (q_connectorJobs d)) eqn:Ex; [|done]. rewrite <- Hn. symmetry. apply existsb_exists in Ex as (x & Hx & Hf).
  apply existsb_exists. exists x. split; [|done]. apply list_elem_of_In, Hs. by apply list_elem_of_In.
Qed.

Lemma added_refl p d : added p [] d d.
Proof. constructor; [done|done|exists []|exists []]; by rewrite app_nil_r. Qed.
Lemma added_trans p ids ids' d d1 d2 : added p ids d d1 -> added p ids' d1 d2 -> added p (ids ++ ids') d d2.
Proof.
  intros [(A1 & A2 & A3) (B1 & B2 & B3 & B4) (r1 & R1 & F1) (j1 & J1 & G1)] [(A1' & A2' & A3') (B1' & B2' & B3' & B4') (r2 & R2 & F2) (j2 & J2 & G2)].
  constructor; [repeat split; congruence..| |].
  - exists (r1 ++ r2). split; [by rewrite R2, R1, app_assoc|]. apply Forall_app. split.
    + eapply Forall_impl; [exact F1|]. intros o (? & ? & ? & ?). repeat split; set_solver.
    + eapply Forall_impl; [exact F2|]. intros o (? & ? & E & Hn). unfold exports in E. rewrite B1 in E.
      split; [done|]. split; [set_solver|]. split; [done|]. apply not_true_is_false. intros Hi.
      rewrite (in_outbox_sub _ _ d d1) in Hn; [done | rewrite R1; set_solver | done].
  - exists (j1 ++ j2). split; [by rewrite J2, J1, app_assoc|]. apply Forall_app. split.
    + eapply Forall_impl; [exact G1|]. intros j (? & ?). split; [set_solver | done].
    + eapply Forall_impl; [exact G2|]. intros j (? & c & Hc & E & Hn). split; [set_solver|]. exists c.
      rewrite B2 in Hc. split; [done|]. split; [done|]. eapply connects_sub; [|exact Hn]. rewrite J1. set_solver.
Qed.

Lemma insert_connector_jobs_adds p id d : exists d', insert_connector_jobs p id d = (Ok tt, d') /\ added p [id] d d'.
Proof.
  eexists. split; [reflexivity|]. constructor; [done|done|exists []; by rewrite app_nil_r|]. simpl. eexists. split; [reflexivity|].
  apply Forall_fmap, Forall_forall. intros c [Hc Hin]%list_elem_of_filter. split; [simpl; set_solver|]. by exists c.
Qed.

Lemma accept_again p e id d : stored p e id d -> exists d', accept_one p e d = (Ok id, d') /\ added p [id] d d'.
Proof.
  intros ((a & Ha & Hid & Hd) & Hj & Ho). unfold accept_one, enqueue. cbn zeta. unfold gets. unfold_M. rewrite Ha. cbv beta iota. rewrite Hd.
  cbv beta iota. rewrite Hid, (insert_job_idle _ _ _ _ Hj). set (d1 := set_sequence (q_sequence d + 1) d).
  rewrite (insert_outbox_idle _ d1) by done. change (exports p d1) with (exports p d).
  set (m := match exports p d with [] => _ | _ :: _ => _ end).
  assert (Hm : exists d2, m d1 = (Ok tt, d2) /\ added p [id] d d2).
  { assert (H0 : added p [id] d d1) by (constructor; [done|done|exists []|exists []]; by rewrite app_nil_r).
    subst m. destruct (exports p d) as [|x l] eqn:Ex; [by exists d1|]. eexists. split; [reflexivity|].
    unfold insert_outbox, modify; simpl. destruct (existsb _ (q_outbox d)) eqn:Eo; [exact H0|].
    constructor; [done|done| |exists []; by rewrite app_nil_r]. simpl. eexists. split; [reflexivity|]. constructor; [|done].
    split; [done|]. split; [simpl; set_solver|]. split; [by rewrite Ex | exact Eo]. }
  destruct Hm as (d2 & -> & H2). destruct (insert_connector_jobs_adds p id d2) as (d3 & -> & H3).
  exists d3. split; [done|]. pose proof (added_trans _ _ _ _ _ _ H2 H3) as [? ? (r & ? & Hr) (j & ? & Hj')].
  constructor; [done|done| |]; [exists r|exists j]; (split; [done|]); eapply Forall_impl; [exact Hr| |exact Hj'|].
  - intros o (? & ? & ?). split; [done|]. split; [set_solver | done].
  - intros o (? & ?). split; [set_solver | done].
Qed.

Lemma stored_added p ids d d' p' e id : added p ids d d' -> stored p' e id d -> stored p' e id d'.
Proof.
  intros [(A1 & A2 & _) _ (r & R & _) _] (Hr & Hj & Ho). unfold stored, find_accepted. rewrite A1, A2. split; [done|]. split; [done|].
  eapply in_outbox_sub; [|exact Ho]. rewrite R. set_solver.
Qed.
Lemma accept_all_again p events ids d : Forall2 (fun e id => stored p e id d) events ids ->
  exists d', accept_all p events d = (Ok ids, d') /\ added p ids d d'.
Proof.
  revert ids d. induction events as [|e events IH]; intros ids d H; inversion H as [|? id ? ids' Hs Hr]; subst; simpl.
  { exists d. split; [done | apply added_refl]. }
  destruct (accept_again p e id d Hs) as (d1 & E1 & H1). destruct (IH ids' d1) as (d2 & E2 & H2).
  { eapply Forall2_impl; [exact Hr|]. intros x i. by apply (stored_added _ _ _ _ _ _ _ H1). }
  exists d2. split; [unfold mbind, M_bind; by rewrite E1, E2 | exact (added_trans _ [id] _ _ _ _ H1 H2)].
Qed.

Lemma settled_kept p e id d1 d2 : log_ok d1 -> kept d1 d2 -> settled p e id d1 -> stored p e id d2.
Proof.
  intros Hok [Hl Ha Hj Ho _] [(a & Hf & Hid & Hd) Hs Hb _ _]. split.
  - exists a. split; [|done]. apply find_accepted_Some in Hf as [[i Hi] Hk].
    apply (find_accepted_eq _ _ _ i); [apply Hl | by eapply lookup_weaken | done].
  - split; [by apply Hj | by apply Ho].
Qed.

Section accept.
Context (uuid_ok : string -> bool).

Lemma audited_Ok p action rt ri metadata d : exists a, audited uuid_ok p action rt ri metadata d = (Ok tt, set_audit a d).
Proof. unfold audited, Audit.audit. destruct (last _); eexists; reflexivity. Qed.

Definition window (p : Principal) (d : QDB) : string * Z := (p_TenantID p, q_now d - q_now d mod Time.Minute).
Definition counted (p : Principal) (d : QDB) : Z := default 0 (q_windows d !! window p d).

Lemma tx_Ok {A} (m : Q A) d a d' : tx m d = (Ok a, d') -> m d = (Ok a, d').
Proof. unfold tx. destruct (m d) as [[x|err] y]; [done | discriminate]. Qed.

(** What an accepted batch went through. *)
Lemma AcceptEvents_Ok p events d ids d' : AcceptEvents uuid_ok p events d = (Ok ids, d') -> exists b m d1 a,
  q_quotas d !! p_TenantID p = Some (b, m) /\ Z.of_nat (length events) <= b /\ accept_all p events d = (Ok ids, d1) /\
  counted p d1 + Z.of_nat (length events) <= m /\
  d' = set_audit a (set_windows (<[window p d1 := counted p d1 + Z.of_nat (length events)]> (q_windows d1)) d1).
Proof.
  unfold AcceptEvents, gets. intros H. apply tx_Ok in H. unfold_M.
  destruct (q_quotas d !! p_TenantID p) as [[b m]|]; [|discriminate].
  destruct (b <? _) eqn:Eb; [discriminate|]. destruct (accept_all p events d) as [[l|err] d1]; [|discriminate].
  unfold count_window in H. destruct (m <? _) eqn:Em; [discriminate|].
  destruct (audited_Ok p "events.accept" "event_batch" "" (JObject [("count", JNumber (GoStr.of_Z (Z.of_nat (length events))))])
    (set_windows (<[window p d1 := counted p d1 + Z.of_nat (length events)]> (q_windows d1)) d1)) as [a Ea].
  unfold counted, window in Ea. rewrite Ea in H. injection H as <- <-.
  exists b, m, d1, a. unfold counted, window. repeat split; lia.
Qed.

(** The rows that accepting [ids] again adds in [d2] are those of what was
    enabled since [d1]. *)
Definition enabled_since (p : Principal) (ids : list string) (d1 d2 d3 : QDB) : Prop :=
  (exists rows, q_outbox d3 = q_outbox d2 ++ rows /\
     Forall (fun o => ob_Topic o = "exports.events.v1" /\ ob_EventID o ∈ ids /\ exports p d1 = [] /\ exports p d2 <> []) rows) /\
  (exists js, q_connectorJobs d3 = q_connectorJobs d2 ++ js /\
     Forall (fun j => cj_EventID j ∈ ids /\ exists c, c ∈ q_connectors d2 /\ c ∉ q_connectors d1 /\ co_ID c = cj_ExtensionID j) js).

Lemma added_since p events ids d1 d2 d3 :
  Forall2 (fun e id => settled p e id d1) events ids -> kept d1 d2 -> added p ids d2 d3 -> enabled_since p ids d1 d2 d3.
Proof.
  intros Hs Hk [_ _ (rows & Er & Fr) (js & Ej & Fj)].
  assert (Hset : forall id, id ∈ ids -> exists e, settled p e id d1).
  { intros id [n Hn]%list_elem_of_lookup. destruct (Forall2_lookup_r _ _ _ _ _ Hs Hn) as (e & _ & H). by exists e. }
  split; [exists rows | exists js]; (split; [done|]); eapply Forall_impl; [exact Fr | | exact Fj |].
  - intros o (? & Hi & He & Hn). split; [done|]. split; [done|]. split; [|done]. destruct (Hset _ Hi) as [e Hse].
    destruct (exports p d1) as [|x l] eqn:Ex; [done|]. rewrite (k_outbox _ _ Hk) in Hn; [done|].
    apply (s_exports _ _ _ _ Hse). by rewrite Ex.
  - intros j (Hi & c & Hc & Eid & Hcon). split; [done|]. exists c. split; [done|]. split; [|done]. intros Hc1.
    destruct (Hset _ Hi) as [e Hse]. pose proof (s_connectors _ _ _ _ Hse) as Hnone.
    assert (Hin : c ∈ filter (fun c => connects p (cj_EventID j) d1 c = true) (q_connectors d1)).
    { apply list_elem_of_filter. split; [|done]. eapply connects_sub; [apply Hk | exact Hcon]. }
    rewrite Hnone in Hin. by apply elem_of_nil in Hin.
Qed.

Lemma accept_later p events d ids d1 d2 b m :
  log_ok d -> AcceptEvents uuid_ok p events d = (Ok ids, d1) -> kept d1 d2 ->
  q_quotas d2 !! p_TenantID p = Some (b, m) -> Z.of_nat (length events) <= b -> counted p d2 + Z.of_nat (length events) <= m ->
  exists d3, AcceptEvents uuid_ok p events d2 = (Ok ids, d3) /\ q_accepted d3 = q_accepted d2 /\ q_jobs d3 = q_jobs d2 /\
    enabled_since p ids d1 d2 d3.
Proof.
  intros Hok H Hk Hq Hb Hroom. apply AcceptEvents_Ok in H as (b0 & m0 & d0 & a & _ & _ & Hall & _ & Ed).
  destruct (accept_all_settles _ _ _ _ _ Hok Hall) as (Hok0 & Hs0 & _). 
  assert (Hs : Forall2 (fun e id => settled p e id d1) events ids).
  { eapply Forall2_impl; [exact Hs0|]. intros e i [H1 H2 H3 H4 H5]. rewrite Ed. by constructor. }
  assert (Hok1 : log_ok d1) by (apply (log_ok_ext d0); [by rewrite Ed | by rewrite Ed | done]).
  destruct (accept_all_again p events ids d2) as (da & Ea & Hadd).
  { eapply Forall2_impl; [exact Hs|]. intros e i. by apply settled_kept. }
  pose proof Hadd as [(A1 & A2 & _) (_ & _ & A3 & A4) _ _].
  unfold AcceptEvents, tx, gets. unfold_M. rewrite Hq, (proj2 (Z.ltb_ge _ _) Hb), Ea. unfold count_window. rewrite A3, A4.
  change (default 0 _) with (counted p d2). rewrite (proj2 (Z.ltb_ge _ _) Hroom). set (dw := set_windows _ da).
  destruct (audited_Ok p "events.accept" "event_batch" "" (JObject [("count", JNumber (GoStr.of_Z (Z.of_nat (length events))))]) dw) as [a' ->].
  eexists. split; [reflexivity|]. split; [exact A1|]. split; [exact A2|]. exact (added_since _ _ _ _ _ _ Hs Hk Hadd).
Qed.


(** ** Conflicts *)

(** The log only grows. *)
Lemma accept_one_keeps p e d id d' i a :
  log_ok d -> accept_one p e d = (Ok id, d') -> q_accepted d !! i = Some a -> q_accepted d' !! i = Some a.
Proof.
  intros Hok H Hi. unfold accept_one, gets in H. cbn zeta in H. unfold_M. set (e0 := normalise e) in *.
  destruct (find_accepted p e0 d) as [x|] eqn:Ef.
  - destruct (differs x e0); [discriminate|]. destruct (enqueue_queued p e0 x d) as (d1 & E & Hq).
    rewrite E in H. injection H as <- <-. by rewrite (e_accepted _ _ _ _ Hq).
  - unfold insert_accepted in H. destruct (ev_Payload e0); [discriminate..|]. destruct (ev_ConsentContext e0); [discriminate..|].
    destruct (ev_SchemaVersion e0 <? 1); [discriminate|]. set (d0 := set_accepted _ _) in H. set (row := accepted_row _ _ _ _) in H.
    destruct (enqueue_queued p e0 row d0) as (d1 & E & Hq). rewrite E in H. injection H as <- <-.
    rewrite (e_accepted _ _ _ _ Hq). simpl. rewrite lookup_insert_ne; [done|]. intros <-.
    destruct (proj1 Hok _ _ Hi) as [_ Hin]. by apply (is_fresh (q_used d)).
Qed.

(** Accepting loses nothing. *)
Lemma kept_trans d1 d2 d3 : kept d1 d2 -> kept d2 d3 -> kept d1 d3.
Proof. intros [? ? ? ? ?] [? ? ? ? ?]. constructor; [done | by etrans | auto | auto | by etrans]. Qed.
Lemma queued_kept p id d d' : log_ok d -> queued p id d d' -> kept d d'.
Proof.
  intros Hok [Ha _ Hu Hj Ho _ _ Hc _]. constructor; [by apply (log_ok_ext d) | by rewrite Ha | auto | done | done].
Qed.
Lemma accept_one_kept p e d id d' : log_ok d -> accept_one p e d = (Ok id, d') -> kept d d'.
Proof.
  intros Hok H. pose proof (accept_one_settles _ _ _ _ _ Hok H) as (Hok' & _).
  assert (Ha : q_accepted d ⊆ q_accepted d') by (apply map_subseteq_spec; intros i a; by eapply accept_one_keeps).
  unfold accept_one, gets in H. cbn zeta in H. unfold_M. destruct (find_accepted p _ d) as [x|].
  - destruct (differs x _); [discriminate|]. destruct (enqueue_queued p (normalise e) x d) as (d1 & E & Hq).
    rewrite E in H. injection H as <- <-. by eapply queued_kept.
  - unfold insert_accepted in H. destruct (ev_Payload _); [discriminate..|]. destruct (ev_ConsentContext _); [discriminate..|].
    destruct (_ <? 1); [discriminate|]. set (d0 := set_accepted _ _) in H. set (row := accepted_row _ _ _ _) in H.
    destruct (enqueue_queued p (normalise e) row d0) as (d1 & E & Hq). rewrite E in H. injection H as <- <-.
    destruct Hq as [_ _ _ Hj Ho _ _ Hc _]. constructor; [done | done | auto | exact Ho | exact Hc].
Qed.
Lemma accept_all_kept p events d ids d' : log_ok d -> accept_all p events d = (Ok ids, d') -> kept d d'.
Proof.
  revert d ids. induction events as [|e events IH]; intros d ids Hok H; simpl in H; [by injection H as _ <-|].
  apply bindM_Ok in H as (id & d2 & H1 & H). apply bindM_Ok in H as (ids' & d3 & H2 & H). injection H as _ <-.
  pose proof (accept_one_kept _ _ _ _ _ Hok H1) as Hk. eapply kept_trans; [exact Hk|]. eapply IH; [apply Hk | exact H2].
Qed.
Lemma AcceptEvents_kept p events d ids d' : log_ok d -> AcceptEvents uuid_ok p events d = (Ok ids, d') -> kept d d'.
Proof.
  intros Hok H. apply AcceptEvents_Ok in H as (b & m & d1 & a & _ & _ & H & _ & ->).
  destruct (accept_all_kept _ _ _ _ _ Hok H) as [? ? ? ? ?]. constructor; [by apply (log_ok_ext d1) | done..].
Qed.

Lemma conflict_one p e d i a :
  log_ok d -> q_accepted d !! i = Some a -> same_key p (normalise e) a = true -> differs a (normalise e) = true ->
  accept_one p e d = (Err ErrIdempotencyConflict, d).
Proof.
  intros Hok Hi Hk Hd. unfold accept_one, gets. cbn zeta. unfold_M.
  by rewrite (find_accepted_eq p (normalise e) d i a (proj2 Hok) Hi Hk), Hd.
Qed.

Lemma conflict_all p events e d i a :
  log_ok d -> q_accepted d !! i = Some a -> e ∈ events -> same_key p (normalise e) a = true -> differs a (normalise e) = true ->
  exists err, (accept_all p events d).1 = Err err.
Proof.
  revert d. induction events as [|x events IH]; intros d Hok Hi He Hk Hd; [by apply elem_of_nil in He|].
  simpl. unfold_M. destruct (accept_one p x d) as [[id|err] d1] eqn:E1; [|by exists err].
  apply elem_of_cons in He as [->|He]; [by rewrite (conflict_one p x d i a) in E1|].
  destruct (IH d1) as [err Herr]; [by eapply accept_one_settles | by eapply accept_one_keeps | done..|].
  destruct (accept_all p events d1) as [[ids|e'] d2]; [discriminate|]. by exists e'.
Qed.

(** Reusing an idempotency key with other contents is refused, and refuses the whole batch: a batch holding an event whose key is stored with another type, version, subject, payload -- or merely another [occurred_at] -- changes nothing; alone, the error is [ErrIdempotencyConflict]. *)
Theorem reused_key_conflicts p events e d i a b m :
  log_ok d -> q_quotas d !! p_TenantID p = Some (b, m) -> Z.of_nat (length events) <= b ->
  q_accepted d !! i = Some a -> e ∈ events -> same_key p e a = true ->
  ae_OccurredAt a <> Time.Truncate (ev_OccurredAt e) 1000 \/ differs a (normalise e) = true ->
  (exists err, AcceptEvents uuid_ok p events d = (Err err, d)) /\
  (events = [e] -> AcceptEvents uuid_ok p events d = (Err ErrIdempotencyConflict, d)).
Proof.
  intros Hok Hq Hb Hi He Hk Hd. assert (Hk' : same_key p (normalise e) a = true) by exact Hk.
  assert (Hd' : differs a (normalise e) = true).
  { destruct Hd as [Hd|Hd]; [|done]. unfold differs. simpl. rewrite (proj2 (Z.eqb_neq _ _) Hd). simpl.
    by rewrite !orb_true_r. }
  unfold AcceptEvents, tx, gets. unfold_M. rewrite Hq, (proj2 (Z.ltb_ge _ _) Hb). split.
  - destruct (conflict_all p events e d i a Hok Hi He Hk' Hd') as [err Herr].
    destruct (accept_all p events d) as [[ids|e'] d2]; [discriminate|]. by exists e'.
  - intros ->. simpl. unfold_M. by rewrite (conflict_one p e d i a).
Qed.

End accept.

End IngestSpec.
