(* ===== verification/IngestQueue.v ===== *)
(** * The projection queue: per-subject order

    A step relation of the acceptors and the projector's workers over the
    projection queue, and the order it keeps: an event is not touched before
    every earlier event of its subject is finished.  [FailProjectionJob] by a
    worker whose job was finished by another in the meantime is the one step
    that lets an event be overtaken: runs record the events it reopens. *)

From S2P Require Import Prelude.
From S2P Require Import GoStd.
From S2P Require Import GoMap.
From S2P Require Import GoFloat.
From S2P Require Import Domain.
From S2P Require Import Store.
From S2P Require Import AuditLog.
From S2P Require Import Ingest.
From S2P Require Import IngestSpec.

Module Queue.
Import Ingest.
Import IngestSpec.

(** ** Steps *)

(** A job some worker holds or held: it was claimed and is not finished. *)
Definition held (id : string) (d : QDB) : Prop :=
  exists j, q_jobs d !! id = Some j /\ 1 <= jb_Attempts j.

Section steps.
Context (uuid_ok : string -> bool).

(** [Claim] runs while other transactions hold any set of rows; a worker
    completes or fails only a job it claimed.  This is a failure reported
    while the job is not finished; [qrun] has the late ones. *)
Inductive qstep (d : QDB) : QDB -> Prop :=
| Accept p events ids d' : AcceptEvents uuid_ok p events d = (Ok ids, d') -> qstep d d'
| Claim rows e d' : ClaimProjectionJob (MkQDB (q_accepted d) (q_jobs d) (q_sequence d) (q_outbox d) (q_quotas d) (q_windows d)
    (q_pipelines d) (q_connectors d) (q_connectorJobs d) (q_audit d) rows (q_used d) (q_now d)) = (Ok (Some e), d') -> qstep d d'
| Complete id d' : held id d -> complete_job id d = (Ok tt, d') -> qstep d d'
| FailHeld id j message d' : q_jobs d !! id = Some j -> 1 <= jb_Attempts j -> finished j = false ->
    FailProjectionJob id message d = (Ok tt, d') -> qstep d d'
| Clock now : q_now d <= now -> qstep d (set_now now d).

(** Runs of the queue, with the events whose failure was reported when they
    were already finished: [FailProjectionJob] does not look at the status. *)
Inductive qrun (d : QDB) : list string -> QDB -> Prop :=
| Start : qrun d [] d
| Step L d1 d2 : qrun d L d1 -> qstep d1 d2 -> qrun d L d2
| FailLate L id j message d1 d2 : qrun d L d1 -> q_jobs d1 !! id = Some j -> 1 <= jb_Attempts j -> finished j = true ->
    FailProjectionJob id message d1 = (Ok tt, d2) -> qrun d (id :: L) d2.

(** ** The invariant *)

Definition untouched (j : Job) : Prop := jb_Status j = "pending" /\ jb_Attempts j = 0.

(** What [same_subject] compares. *)
Definition same_of (acc : gmap string AcceptedEvent) (j k : Job) : bool :=
  (jb_TenantID j =s jb_TenantID k) &&
  ((jb_PartitionKey j =s jb_PartitionKey k) ||
   match acc !! jb_EventID j, acc !! jb_EventID k with
   | Some e, Some f => same_id (ae_ExternalID e) (ae_ExternalID f) || same_id (ae_AnonymousID e) (ae_AnonymousID f)
   | _, _ => false
   end).
Definition ordered (L : list string) (acc : gmap string AcceptedEvent) (jobs : gmap string Job) : Prop :=
  forall i i' j k, jobs !! i = Some j -> jobs !! i' = Some k -> jb_Sequence j < jb_Sequence k ->
    same_of acc j k = true -> finished j = false -> i ∉ L -> untouched k.
(** In order, but for the events [L]. *)
Record queue_but (L : list string) (d : QDB) : Prop := MkQueueOk {
  o_log : log_ok d;
  o_ids : forall i j, q_jobs d !! i = Some j -> jb_EventID j = i /\ is_Some (q_accepted d !! i) /\ jb_Sequence j <= q_sequence d;
  o_ordered : ordered L (q_accepted d) (q_jobs d)
}.
#[global] Arguments o_log {L} d _.
#[global] Arguments o_ids {L} d _.
#[global] Arguments o_ordered {L} d _.
Abbreviation queue_ok := (queue_but []).

Section but.
Context {L : list string}.

(** A step that rewrites one job, keeping what identifies it. *)
Definition same_identity (j j' : Job) : Prop :=
  jb_EventID j' = jb_EventID j /\ jb_Sequence j' = jb_Sequence j /\ jb_TenantID j' = jb_TenantID j /\ jb_PartitionKey j' = jb_PartitionKey j.

Lemma queue_ok_update d d' i j j' :
  queue_but L d -> q_jobs d !! i = Some j -> same_identity j j' -> q_jobs d' = <[i := j']> (q_jobs d) ->
  q_accepted d' = q_accepted d -> q_used d' = q_used d -> q_sequence d' = q_sequence d ->
  (finished j' = false -> finished j = false \/ i ∈ L) ->
  (forall i0 j0, q_jobs d !! i0 = Some j0 -> jb_Sequence j0 < jb_Sequence j -> same_of (q_accepted d) j0 j = true -> i0 ∉ L -> finished j0 = true) ->
  queue_but L d'.
Proof.
  intros [Hl Hi Ho] Hj (E1 & E2 & E3 & E4) Ej Ea Eu Es Hf Hfirst. constructor.
  - by apply (log_ok_ext d).
  - intros i0 j0. rewrite Ej, Ea, Es. destruct (decide (i = i0)) as [<-|Hne].
    + rewrite lookup_insert_eq. intros H. injection H as <-. rewrite E1, E2. by apply Hi.
    + rewrite lookup_insert_ne by done. apply Hi.
  - rewrite Ej, Ea. intros i1 i2 x y. unfold same_of.
    destruct (decide (i = i1)) as [<-|H1], (decide (i = i2)) as [<-|H2]; rewrite ?lookup_insert_eq, ?lookup_insert_ne by done.
    + intros E E' Hlt. injection E as <-. injection E' as <-. lia.
    + intros E E' Hlt Hs Hx Hn. injection E as <-. rewrite E1, E3, E4 in Hs. rewrite E2 in Hlt. apply (Ho i i2 j y); try done.
      by destruct (Hf Hx).
    + intros E E' Hlt Hs Hx Hn. injection E' as <-. rewrite E1, E3, E4 in Hs. rewrite E2 in Hlt.
      rewrite (Hfirst i1 x E Hlt Hs Hn) in Hx. discriminate.
    + intros E E'. apply (Ho i1 i2 x y E E').
Qed.

(** A claimed job has no unfinished job of its subject before it. *)
Lemma held_first d i j : queue_but L d -> q_jobs d !! i = Some j -> 1 <= jb_Attempts j ->
  forall i0 j0, q_jobs d !! i0 = Some j0 -> jb_Sequence j0 < jb_Sequence j -> same_of (q_accepted d) j0 j = true -> i0 ∉ L -> finished j0 = true.
Proof.
  intros Hok Hj Ha i0 j0 Hj0 Hlt Hs Hn. destruct (finished j0) eqn:Hf; [done|]. exfalso.
  destruct (o_ordered d Hok i0 i j0 j Hj0 Hj Hlt Hs Hf Hn) as [_ Hz]. lia.
Qed.

Lemma next_job_first d j : next_job d = Some j ->
  (exists i, q_jobs d !! i = Some j) /\ finished j = false /\
  (forall i0 j0, q_jobs d !! i0 = Some j0 -> jb_Sequence j0 < jb_Sequence j -> same_of (q_accepted d) j0 j = true -> finished j0 = true).
Proof.
  unfold next_job. intros H. apply head_Some_elem_of in H.
  rewrite (GoMap.sort_by_perm _ _) in H. apply list_elem_of_filter in H as [H Hin].
  apply list_elem_of_fmap in Hin as ([i x] & E & Hin). simpl in E. subst x. apply elem_of_map_to_list in Hin.
  split; [by exists i|]. apply andb_prop in H as [_ H]. unfold claimable in H. apply andb_prop in H as [H Hno].
  apply andb_prop in H as [H _]. split.
  - unfold finished. apply orb_prop in H as [H|H]; [|apply andb_prop in H as [H _]]; apply seqb_true in H; by rewrite H.
  - intros i0 j0 Hj0 Hlt Hs. destruct (finished j0) eqn:Hf; [done|]. apply negb_true_iff in Hno.
    apply eq_true_false_abs in Hno; [done|]. apply existsb_exists. exists (i0, j0). split.
    + apply list_elem_of_In. by apply elem_of_map_to_list.
    + simpl. rewrite Hf. simpl. rewrite (proj2 (Z.ltb_lt _ _) Hlt). exact Hs.
Qed.

(** ** Accepting *)

Lemma enqueue_jobs p e row d d' : enqueue p e row d = (Ok (ae_ID row), d') ->
  q_sequence d' = q_sequence d + 1 /\
  (q_jobs d' = q_jobs d \/
   q_jobs d !! ae_ID row = None /\
   q_jobs d' = <[ae_ID row := MkJob (ae_ID row) (q_sequence d + 1) (p_TenantID p) (partition_key e) "pending" 0 (q_now d) None None None]>
                 (q_jobs d)).
Proof.
  unfold enqueue, gets. unfold_M. set (o1 := MkOutboxRow _ "events.accepted.v1" _ _ _ _).
  assert (Hm : forall d0 d1, (insert_outbox o1 d0).2 = d1 -> exists o, d1 = set_outbox o d0).
  { intros d0 d1 <-. apply insert_outbox_frame. }
  destruct (insert_job p (ae_ID row) (partition_key e) d) as [r1 d1] eqn:E1. assert (r1 = Ok tt) as -> by by injection E1 as <- _.
  destruct (insert_outbox o1 d1) as [r2 d2] eqn:E2. assert (r2 = Ok tt) as -> by by injection E2 as <- _.
  destruct (Hm d1 d2) as [o ->]; [by rewrite E2|]. set (m := match exports p _ with [] => _ | _ :: _ => _ end).
  assert (Hm2 : exists o', m (set_outbox o d1) = (Ok tt, set_outbox o' d1)).
  { unfold m. destruct (exports p _); [by exists o|]. set (o2 := MkOutboxRow _ _ _ _ _ _).
    destruct (insert_outbox_frame o2 (set_outbox o d1)) as [o' Eo]. exists o'.
    change (insert_outbox o2 (set_outbox o d1)) with (@Ok unit tt, (insert_outbox o2 (set_outbox o d1)).2). by rewrite Eo. }
  destruct Hm2 as [o' ->]. intros H. injection H as <-. simpl.
  unfold insert_job, modify in E1. injection E1 as <-. simpl. destruct (q_jobs d !! ae_ID row) as [j|] eqn:Ej; simpl; [by split; [|left]|].
  split; [done|]. by right.
Qed.

Lemma same_of_sub (acc acc' : gmap string AcceptedEvent) (jobs : gmap string Job) j k : (forall i x, acc !! i = Some x -> acc' !! i = Some x) ->
  (forall i x, jobs !! i = Some x -> jb_EventID x = i /\ is_Some (acc !! i)) ->
  (exists i, jobs !! i = Some j) -> (exists i, jobs !! i = Some k) -> same_of acc' j k = same_of acc j k.
Proof.
  intros Hs Hi [i1 Hj] [i2 Hk]. destruct (Hi _ _ Hj) as [<- [a Ha]], (Hi _ _ Hk) as [<- [b Hb]].
  unfold same_of. by rewrite Ha, Hb, (Hs _ _ Ha), (Hs _ _ Hb).
Qed.

Lemma enqueue_ok p e row d d' i :
  queue_but L d -> q_accepted d !! i = Some row -> enqueue p e row d = (Ok (ae_ID row), d') -> queue_but L d'.
Proof.
  intros [Hl Hi Ho] Hr H. assert (ae_ID row = i) as Hid by by apply Hl.
  destruct (enqueue_queued p e row d) as (d1 & E & Hq). rewrite E in H. injection H as ->.
  destruct (enqueue_jobs p e row d d' E) as [Es Ej]. pose proof (e_accepted _ _ _ _ Hq) as Ea.
  assert (Hl' : log_ok d') by (apply (log_ok_ext d); [done | apply Hq | done]).
  destruct Ej as [Ej|[Hno Ej]].
  - constructor; [done | | by rewrite Ea, Ej]. intros i0 j0. rewrite Ej, Ea, Es. intros H. destruct (Hi _ _ H) as (? & ? & ?).
    repeat split; [done..|lia].
  - rewrite Hid in *. constructor; [done|..].
    + intros i0 j0. rewrite Ej, Ea, Es. destruct (decide (i = i0)) as [<-|Hne].
      * rewrite lookup_insert_eq. intros H. injection H as <-. simpl. repeat split; [by exists row | lia].
      * rewrite lookup_insert_ne by done. intros H. destruct (Hi _ _ H) as (? & ? & ?). repeat split; [done..|lia].
    + rewrite Ej, Ea. intros i1 i2 j k.
      destruct (decide (i = i2)) as [<-|H2]; [intros _; rewrite lookup_insert_eq; intros H; injection H as <-; done|].
      rewrite (lookup_insert_ne _ _ i2) by done. destruct (decide (i = i1)) as [<-|H1].
      * rewrite lookup_insert_eq. intros H Hk. injection H as <-. simpl. destruct (Hi _ _ Hk) as (_ & _ & Hle). lia.
      * rewrite lookup_insert_ne by done. apply Ho.
Qed.

Lemma accept_one_ok p e d id d' : queue_but L d -> accept_one p e d = (Ok id, d') -> queue_but L d'.
Proof.
  intros Hok H. unfold accept_one, gets in H. cbn zeta in H. unfold_M. set (e0 := normalise e) in *.
  destruct (find_accepted p e0 d) as [a|] eqn:Ef.
  - destruct (differs a e0); [discriminate|]. pose proof (find_accepted_Some _ _ _ _ Ef) as [[i Hi] _].
    assert (id = ae_ID a) as ->. { destruct (enqueue_queued p e0 a d) as (d1 & E & _). rewrite E in H. congruence. }
    by apply (enqueue_ok p e0 a d d' i).
  - unfold insert_accepted in H. destruct (ev_Payload e0); [discriminate..|]. destruct (ev_ConsentContext e0); [discriminate..|].
    destruct (ev_SchemaVersion e0 <? 1); [discriminate|]. set (i := fresh (q_used d)) in *. set (row := accepted_row i p e0 (q_now d)) in *.
    set (d0 := set_accepted _ _) in H.
    assert (id = ae_ID row) as ->. { destruct (enqueue_queued p e0 row d0) as (d1 & E & _). rewrite E in H. congruence. }
    assert (Hl0 : log_ok d0) by (apply log_ok_insert; [apply Hok | apply is_fresh | done]).
    assert (Hsub : forall k x, q_accepted d !! k = Some x -> q_accepted d0 !! k = Some x).
    { intros k x Hx. simpl. rewrite lookup_insert_ne; [done|]. intros <-. destruct (proj1 (o_log d Hok) _ _ Hx) as [_ Hin].
      by apply (is_fresh (q_used d)). }
    apply (enqueue_ok p e0 row d0 d' i); [|by simpl; rewrite lookup_insert_eq | done]. constructor; [done|..].
    + intros k x Hx. destruct (o_ids d Hok k x Hx) as (? & [y Hy] & ?). repeat split; [done | exists y; by apply Hsub | done].
    + intros i1 i2 j2 k Hj Hk Hlt. rewrite (same_of_sub (q_accepted d) (q_accepted d0) (q_jobs d)).
      * by apply (o_ordered d Hok i1 i2).
      * exact Hsub.
      * intros z x Hx. destruct (o_ids d Hok z x Hx) as (? & ? & ?). by split.
      * by exists i1.
      * by exists i2.
Qed.

Lemma accept_all_ok p events d ids d' : queue_but L d -> accept_all p events d = (Ok ids, d') -> queue_but L d'.
Proof.
  revert d ids. induction events as [|e events IH]; intros d ids Hok H; simpl in H; [by injection H as <- <-|].
  apply bindM_Ok in H as (id & d2 & H1 & H). apply bindM_Ok in H as (ids' & d3 & H2 & H). injection H as <- <-.
  apply (IH d2 ids'); [by eapply accept_one_ok | done].
Qed.

Lemma queue_ok_ext d d' : q_accepted d' = q_accepted d -> q_used d' = q_used d -> q_jobs d' = q_jobs d -> q_sequence d' = q_sequence d ->
  queue_but L d -> queue_but L d'.
Proof.
  intros E1 E2 E3 E4 [Hl Hi Ho]. constructor; [by apply (log_ok_ext d) | | by rewrite E1, E3]. by rewrite E1, E3, E4.
Qed.

(** ** Every step *)

Lemma qstep_ok d d' : queue_but L d -> qstep d d' -> queue_but L d'.
Proof.
  intros Hok H. inversion H as [p events ids d1 H1|rows e d1 H1|id d1 [j [Hj Ha]] H1|id j msg d1 Hj Ha Hf H1|now Hnow]; subst.
  - apply AcceptEvents_Ok in H1 as (b & m & d1 & a & _ & _ & H1 & _ & ->). apply (queue_ok_ext d1); [done..|].
    by eapply accept_all_ok.
  - unfold ClaimProjectionJob, gets, put_job, modify in H1. apply tx_Ok in H1. unfold_M.
    set (dl := MkQDB _ _ _ _ _ _ _ _ _ _ _ _ _) in H1. destruct (next_job dl) as [j|] eqn:En; [|discriminate].
    injection H1 as _ <-. apply next_job_first in En as ([i Hi] & Hf & Hfirst).
    destruct (o_ids d Hok i j Hi) as [<- _]. apply (queue_ok_update d _ (jb_EventID j) j (set_status "processing" (jb_Attempts j + 1)
      (jb_AvailableAt j) (Some (q_now dl + 30 * Time.Second)) (jb_LastError j) (jb_CompletedAt j) j)); try done; [by left|]. intros i0 j0 ? ? ? _. by apply (Hfirst i0).
  - injection H1 as <-. apply (queue_ok_update d _ id j (set_status "done" (jb_Attempts j) (jb_AvailableAt j) None None (Some (q_now d)) j));
      try done; [|by apply (held_first d id)]. simpl. apply map_eq. intros k. destruct (decide (id = k)) as [<-|].
    + by rewrite lookup_alter_eq, lookup_insert_eq, Hj.
    + by rewrite lookup_alter_ne, lookup_insert_ne by done.
  - unfold FailProjectionJob in H1. rewrite Hj in H1. injection H1 as <-.
    apply (queue_ok_update d _ id j (failed (q_now d) msg j)); try done; [by left | by apply (held_first d id)].
  - by apply (queue_ok_ext d).
Qed.

End but.

Lemma qrun_ok d L d' : queue_ok d -> qrun d L d' -> queue_but L d'.
Proof.
  intros Hok Hr. induction Hr as [|L d1 d2 Hr IH Hs|L id j message d1 d2 Hr IH Hj Ha Hf E]; [done | by apply (qstep_ok d1)|].
  assert (Hb : queue_but (id :: L) d1).
  { destruct IH as [Hl Hi Ho]. constructor; [done..|]. intros i0 i' j0 k Hj0 Hk Hlt Hs Hx Hn.
    apply (Ho i0 i' j0 k); try done. set_solver. }
  unfold FailProjectionJob in E. rewrite Hj in E. injection E as <-.
  apply (queue_ok_update d1 _ id j (failed (q_now d1) message j)); try done; [intros _; right; set_solver | by apply (held_first d1 id)].
Qed.


(** Before the first event there is nothing to order. *)
Lemma queue_ok_init d : q_accepted d = ∅ -> q_jobs d = ∅ -> queue_ok d.
Proof.
  intros Ea Ej. constructor.
  - split; [intros i a; by rewrite Ea | intros i j a b; by rewrite Ea].
  - intros i j. by rewrite Ej.
  - intros i i' j k. by rewrite Ej.
Qed.

End steps.
Abbreviation queue_ok := (queue_but []).

(** ** A demonstration *)

Definition any_uuid (s : string) : bool := false.
Definition demo_principal : Principal := MkPrincipal "tenant" "workspace" "app" "credential" "" "" ["*"].
Definition demo_event (key : string) (at_ : Z) : Event :=
  MkEvent "page.viewed" 1 "user" "" key at_ "" "" "" "" "" "" RawEmpty (Raw (JObject [])).
Definition demo_empty : QDB := MkQDB ∅ ∅ 0 [] {["tenant" := (100, 100)]} ∅ [] [] [] (Audit.MkADB [] ∅ 0) ∅ ∅ 0.
Definition demo_batch : list Event := [demo_event "a" 1000; demo_event "b" 2000].
Definition run (d : QDB) : QDB := (AcceptEvents any_uuid demo_principal demo_batch d).2.
Definition claim (d : QDB) : QDB := (ClaimProjectionJob d).2.
Definition status (n : Z) (d : QDB) : option (string * Z) :=
  (fun kv => (jb_Status kv.2, jb_Attempts kv.2)) <$> find_first (fun kv => jb_Sequence kv.2 =? n) (map_to_list (q_jobs d)).

(** ** The late failure *)

(** A worker whose lock ran out reports a failure after another worker finished
    the job: the event goes back to the queue and will be projected again,
    after the events that followed it. *)
Lemma late_failure_reorders d i j message i' k :
  queue_ok d -> q_jobs d !! i = Some j -> q_jobs d !! i' = Some k -> jb_Sequence j < jb_Sequence k -> same_subject d j k = true ->
  jb_Attempts j < 10 -> finished j = true -> finished k = true ->
  exists d', FailProjectionJob i message d = (Ok tt, d') /\ jb_Status <$> q_jobs d' !! i = Some "pending" /\ ~ queue_ok d'.
Proof.
  intros Hok Hj Hk Hlt Hs Ha Hfj Hfk. unfold FailProjectionJob. rewrite Hj. eexists. split; [reflexivity|].
  assert (Hst : jb_Status (failed (q_now d) message j) = "pending") by (simpl; by rewrite (proj2 (Z.leb_gt _ _) Ha)).
  simpl. rewrite lookup_insert_eq. cbn [fmap option_fmap option_map]. rewrite Hst. split; [done|]. intros Hbad.
  assert (Hne : i <> i') by (intros ->; rewrite Hj in Hk; injection Hk as ->; lia).
  destruct (o_ordered _ Hbad i i' (failed (q_now d) message j) k) as [Hp _].
  - simpl. by rewrite lookup_insert_eq.
  - simpl. by rewrite lookup_insert_ne.
  - done.
  - exact Hs.
  - unfold finished. by rewrite Hst.
  - set_solver.
  - unfold finished in Hfk. by rewrite Hp in Hfk.
Qed.

(** ** Witnesses *)

Lemma demo_empty_ok : queue_ok demo_empty.
Proof. by apply queue_ok_init. Qed.

Lemma run_ok : queue_ok (run demo_empty).
Proof.
  apply (qstep_ok any_uuid demo_empty); [exact demo_empty_ok|].
  apply (Accept any_uuid demo_empty demo_principal demo_batch ["0"; "1"]). vm_compute. reflexivity.
Qed.

(** A minute later, an export pipeline and a connector have been enabled. *)
Definition demo_enabled (d : QDB) : QDB :=
  MkQDB (q_accepted d) (q_jobs d) (q_sequence d) (q_outbox d) (q_quotas d) (q_windows d)
    [MkPipeline "pipe" "tenant" "workspace" "app" "export" "enabled"]
    [MkConnector "crm" "tenant" "workspace" "enabled" "connector" "active" "events.accepted.v1"]
    (q_connectorJobs d) (q_audit d) (q_locked d) (q_used d) (60 * Time.Second).

Lemma demo_enabled_jobs d : q_jobs (demo_enabled d) = q_jobs d.
Proof. reflexivity. Qed.
Lemma demo_enabled_kept d : log_ok d -> kept d (demo_enabled d).
Proof. intros Hl. constructor; [by apply (log_ok_ext d) | done..]. Qed.


Lemma reused_key_conflicts_witness :
  AcceptEvents any_uuid demo_principal [demo_event "a" 3000] (run demo_empty) = (Err ErrIdempotencyConflict, run demo_empty).
Proof.
  destruct (q_accepted (run demo_empty) !! "0") as [a|] eqn:Ea; [|vm_compute in Ea; discriminate].
  refine (proj2 (reused_key_conflicts any_uuid demo_principal [demo_event "a" 3000] (demo_event "a" 3000) (run demo_empty) "0" a 100 100
    (o_log _ run_ok) _ _ Ea _ _ _) eq_refl).
  - vm_compute. reflexivity.
  - vm_compute. discriminate.
  - apply list_elem_of_here.
  - vm_compute in Ea. injection Ea as <-. reflexivity.
  - left. vm_compute in Ea. injection Ea as <-. vm_compute. discriminate.
Defined.


End Queue.
