(* ===== verification/Identity.v ===== *)
(** * Identity resolution (src/internal/postgres/store.go)

    The identity tables of the projector -- [profiles], [consent_ledger],
    [identity_aliases], [identity_namespaces], [identity_merges] and the blob
    store of merge snapshots -- and the operations on them: [ensureProfile],
    [resolveIdentity], [mergeProfiles] and [unmergeProfile].  Ids and
    timestamps are the database's; a [jsonb] object is a finite map; a
    snapshot blob is the snapshot it encodes. *)

From S2P Require Import Prelude.
From S2P Require Import GoStd.
From S2P Require Import GoMap.
From S2P Require Import Domain.
From S2P Require Import Store.

Module Identity.

(** ** Rows *)

Record Prof : Type := MkProf {
  pf_ID : string;
  pf_TenantID : string;
  pf_WorkspaceID : string;
  pf_AppID : string;
  pf_ExternalID : option string;
  pf_AnonymousID : option string;
  pf_Attributes : gmap string json;
  pf_Version : Z;
  pf_MergedInto : option string;
  pf_CreatedAt : Z;
  pf_UpdatedAt : Z
}.

Record ConsentRow : Type := MkConsentRow {
  cr_TenantID : string;
  cr_WorkspaceID : string;
  cr_AppID : string;
  cr_ProfileID : string;
  cr_SourceEventID : option string;
  cr_Channel : string;
  cr_Topic : string;
  cr_State : string;
  cr_OccurredAt : Z;
  cr_Evidence : json;
  cr_CreatedAt : Z
}.
Definition set_cr_ProfileID (v : string) (c : ConsentRow) : ConsentRow :=
  MkConsentRow (cr_TenantID c) (cr_WorkspaceID c) (cr_AppID c) v (cr_SourceEventID c) (cr_Channel c) (cr_Topic c)
    (cr_State c) (cr_OccurredAt c) (cr_Evidence c) (cr_CreatedAt c).

(** An alias is keyed by its UNIQUE columns: tenant, app, namespace, value. *)
Abbreviation alias_key := (string * string * string * string)%type.
Record AliasRow : Type := MkAliasRow { al_ProfileID : string; al_SourceEventID : option string }.
Definition set_al_ProfileID (v : string) (a : AliasRow) : AliasRow := MkAliasRow v (al_SourceEventID a).

(** The columns the code writes; the policy columns are constants. *)
Record MergeRow : Type := MkMergeRow {
  mg_ID : string;
  mg_TenantID : string;
  mg_AppID : string;
  mg_Source : string;
  mg_Target : string;
  mg_SourceEventID : option string;
  mg_ReversalRef : option string;
  mg_ActorType : string;
  mg_MergedAt : Z;
  mg_UndoneAt : option Z
}.
Definition set_mg_UndoneAt (v : option Z) (m : MergeRow) : MergeRow :=
  MkMergeRow (mg_ID m) (mg_TenantID m) (mg_AppID m) (mg_Source m) (mg_Target m) (mg_SourceEventID m)
    (mg_ReversalRef m) (mg_ActorType m) (mg_MergedAt m) v.

Record SnapProfile : Type := MkSnapProfile {
  sp_ID : string;
  sp_ExternalID : option string;
  sp_AnonymousID : option string;
  sp_Attributes : gmap string json;
  sp_Version : Z;
  sp_UpdatedAt : Z
}.
Record SnapAlias : Type := MkSnapAlias { sa_Namespace : string; sa_Value : string; sa_SourceEventID : option string }.
Record SnapConsent : Type := MkSnapConsent {
  sc_Channel : string;
  sc_Topic : string;
  sc_State : string;
  sc_OccurredAt : Z;
  sc_Evidence : json;
  sc_SourceEventID : string
}.
Record identityMergeSnapshot : Type := MkSnapshot {
  sn_Profile : SnapProfile;
  sn_Aliases : list SnapAlias;
  sn_Consents : list SnapConsent
}.

(** ** The tables

    [id_namespaces] gives a namespace's priority by tenant, app and name;
    [id_blobs] is [None] when no blob store is configured. *)
Record IDB : Type := MkIDB {
  id_profiles : gmap string Prof;
  id_consents : list ConsentRow;
  id_aliases : gmap alias_key AliasRow;
  id_namespaces : gmap (string * string * string) Z;
  id_merges : list MergeRow;
  id_blobs : option (gmap string identityMergeSnapshot);
  id_used : gset string;
  id_now : Z
}.
Definition set_profiles v (d : IDB) : IDB :=
  MkIDB v (id_consents d) (id_aliases d) (id_namespaces d) (id_merges d) (id_blobs d) (id_used d) (id_now d).
Definition set_consents v (d : IDB) : IDB :=
  MkIDB (id_profiles d) v (id_aliases d) (id_namespaces d) (id_merges d) (id_blobs d) (id_used d) (id_now d).
Definition set_aliases v (d : IDB) : IDB :=
  MkIDB (id_profiles d) (id_consents d) v (id_namespaces d) (id_merges d) (id_blobs d) (id_used d) (id_now d).
Definition set_merges v (d : IDB) : IDB :=
  MkIDB (id_profiles d) (id_consents d) (id_aliases d) (id_namespaces d) v (id_blobs d) (id_used d) (id_now d).
Definition set_blobs v (d : IDB) : IDB :=
  MkIDB (id_profiles d) (id_consents d) (id_aliases d) (id_namespaces d) (id_merges d) v (id_used d) (id_now d).
Definition set_used v (d : IDB) : IDB :=
  MkIDB (id_profiles d) (id_consents d) (id_aliases d) (id_namespaces d) (id_merges d) (id_blobs d) v (id_now d).

Definition I (A : Type) : Type := M IDB A.
Definition gets {A} (f : IDB -> A) : I A := fun d => (Ok (f d), d).
(** A SELECT whose rows may fail to scan. *)
Definition query {A} (f : IDB -> result A) : I A := fun d => (f d, d).
Definition modify (f : IDB -> IDB) : I unit := fun d => (Ok tt, f d).
Definition new_id : I string := fun d =>
  let i := fresh (id_used d) in (Ok i, set_used ({[i]} ∪ id_used d) d).

Definition unique_violation : error := errors_New "duplicate key value violates unique constraint".
Definition ErrNoRows : error := Sentinel "no rows in result set".
Definition scan_error : error := errors_New "cannot scan NULL".

(** ** Profiles *)

Definition same_some (a b : option string) : bool :=
  match a, b with Some x, Some y => x =s y | _, _ => false end.
(** The two partial unique indexes of migration 001. *)
Definition conflict (p q : Prof) : bool :=
  negb (pf_ID p =s pf_ID q) && (pf_TenantID p =s pf_TenantID q) && (pf_AppID p =s pf_AppID q) &&
  (same_some (pf_ExternalID p) (pf_ExternalID q) || same_some (pf_AnonymousID p) (pf_AnonymousID q)).
Definition put_profile (p : Prof) : I unit := fun d =>
  if existsb (fun q => conflict p q.2) (map_to_list (id_profiles d)) then (Err unique_violation, d)
  else (Ok tt, set_profiles (<[pf_ID p := p]> (id_profiles d)) d).

Definition find_profile (f : Prof -> bool) (d : IDB) : option Prof :=
  snd <$> find_first (fun q => f q.2) (map_to_list (id_profiles d)).
Definition in_app (p : Principal) (q : Prof) : bool :=
  (pf_TenantID q =s p_TenantID p) && (pf_AppID q =s p_AppID p).
Definition is_live (q : Prof) : bool := match pf_MergedInto q with None => true | Some _ => false end.
Definition by_external (p : Principal) (x : string) (q : Prof) : bool :=
  in_app p q && same_some (pf_ExternalID q) (Some x).
Definition by_anonymous (p : Principal) (x : string) (q : Prof) : bool :=
  in_app p q && same_some (pf_AnonymousID q) (Some x).

Definition NULLIF_empty (s : string) : option string := if s =s "" then None else Some s.
Definition new_profile (p : Principal) (ext anon : option string) : I string :=
  i ← new_id; now ← gets id_now;
  _ ← put_profile (MkProf i (p_TenantID p) (p_WorkspaceID p) (p_AppID p) ext anon ∅ 1 None now now);
  mret i.
(** INSERT INTO profiles ... ON CONFLICT (tenant_id, app_id, external_id) ...
    DO UPDATE SET updated_at = profiles.updated_at RETURNING id; and the same
    by anonymous id. *)
Definition upsert_external (p : Principal) (ext : string) (anon : option string) : I string :=
  row ← gets (find_profile (by_external p ext));
  match row with
  | Some q => mret (pf_ID q)
  | None => new_profile p (Some ext) anon
  end.
Definition upsert_anonymous (p : Principal) (anon : string) : I string :=
  row ← gets (find_profile (by_anonymous p anon));
  match row with
  | Some q => mret (pf_ID q)
  | None => new_profile p None (Some anon)
  end.

Definition set_external (ext : option string) (now : Z) (q : Prof) : Prof :=
  MkProf (pf_ID q) (pf_TenantID q) (pf_WorkspaceID q) (pf_AppID q) ext (pf_AnonymousID q) (pf_Attributes q)
    (pf_Version q) (pf_MergedInto q) (pf_CreatedAt q) now.
(** attributes = source.attributes || target.attributes, version + 1, and the
    anonymous id given. *)
Definition absorb (anon : option string) (now : Z) (source target : Prof) : Prof :=
  MkProf (pf_ID target) (pf_TenantID target) (pf_WorkspaceID target) (pf_AppID target) (pf_ExternalID target) anon
    (pf_Attributes target ∪ pf_Attributes source) (pf_Version target + 1) (pf_MergedInto target)
    (pf_CreatedAt target) now.
(** merged_into = target, version + 1, with the identifiers left. *)
Definition tombstone (into : string) (anon : option string) (now : Z) (q : Prof) : Prof :=
  MkProf (pf_ID q) (pf_TenantID q) (pf_WorkspaceID q) (pf_AppID q) None anon (pf_Attributes q)
    (pf_Version q + 1) (Some into) (pf_CreatedAt q) now.

Definition repoint_consents (from to : string) : I unit :=
  modify (fun d => set_consents ((fun c => if cr_ProfileID c =s from then set_cr_ProfileID to c else c) <$> id_consents d) d).
Definition repoint_aliases (from to : string) : I unit :=
  modify (fun d => set_aliases ((fun a => if al_ProfileID a =s from then set_al_ProfileID to a else a) <$> id_aliases d) d).

Definition coalesce (a b : option string) : option string := match a with Some _ => a | None => b end.

(** The four statements that join an anonymous profile to a known one. *)
Definition stitch (known anonymous : Prof) : I unit :=
  now ← gets id_now;
  _ ← put_profile (absorb (coalesce (pf_AnonymousID known) (pf_AnonymousID anonymous)) now anonymous known);
  _ ← repoint_consents (pf_ID anonymous) (pf_ID known);
  _ ← repoint_aliases (pf_ID anonymous) (pf_ID known);
  put_profile (tombstone (pf_ID known) (pf_AnonymousID anonymous) now anonymous).

Definition ensureProfile (event : AcceptedEvent) : I string :=
  let p := ae_Principal event in
  if ae_ExternalID event =s "" then upsert_anonymous p (ae_AnonymousID event)
  else
    anon ← (if ae_AnonymousID event =s "" then mret None
            else gets (find_profile (fun q => by_anonymous p (ae_AnonymousID event) q && is_live q)));
    match anon with
    | None => upsert_external p (ae_ExternalID event) (NULLIF_empty (ae_AnonymousID event))
    | Some a =>
        ext ← gets (find_profile (by_external p (ae_ExternalID event)));
        match ext with
        | None => now ← gets id_now; _ ← put_profile (set_external (Some (ae_ExternalID event)) now a); mret (pf_ID a)
        | Some e => _ ← (if pf_ID e =s pf_ID a then mret tt else stitch e a); mret (pf_ID e)
        end
    end.

(** ** Namespaced keys *)

Definition normalizeIdentityValue (namespace value : string) : string :=
  let value := GoMap.TrimSpace value in
  if (namespace =s "email") || (namespace =s "phone") then GoMap.ToLower value else value.

(** A non-blank string member, normalised. *)
Definition key_text (namespace : string) (v : json) : option string :=
  match v with
  | JString t => if GoMap.blank t then None else Some (normalizeIdentityValue namespace t)
  | _ => None
  end.
Definition container (body : gmap string json) (name : string) : gmap string string :=
  match body !! name with
  | Some (JObject l) => map_imap key_text (GoMap.of_members l)
  | _ => ∅
  end.
Definition direct (body : gmap string json) (values : gmap string string) (namespace : string) : gmap string string :=
  match body !! namespace ≫= key_text namespace with
  | Some t => <[namespace := t]> values
  | None => values
  end.

Definition identityKeys (event : AcceptedEvent) : list (string * string) :=
  match Json.Unmarshal_map (ae_Payload event) with
  | Err _ => []
  | Ok body =>
      let body := GoMap.of_members (default [] body) in
      let values := container body "identity" ∪ container body "identities" in
      let values := fold_left (direct body) ["email"; "phone"; "user_id"] values in
      let values := if ae_ExternalID event =s "" then values
                    else <["user_id" := normalizeIdentityValue "user_id" (ae_ExternalID event)]> values in
      GoMap.sort_by (fun a b => GoMap.str_less a.1 b.1) (map_to_list values)
  end.

(** ** Merging *)

Definition alias_of (p : Principal) (namespace value : string) : alias_key :=
  (p_TenantID p, p_AppID p, namespace, value).

Definition snap_profile (q : Prof) : SnapProfile :=
  MkSnapProfile (pf_ID q) (pf_ExternalID q) (pf_AnonymousID q) (pf_Attributes q) (pf_Version q) (pf_UpdatedAt q).
(** SELECT namespace, value, source_event_id ... ORDER BY namespace, value. *)
Definition snap_aliases (p : Principal) (id : string) (d : IDB) : list SnapAlias :=
  GoMap.sort_by
    (fun a b => GoMap.str_less (sa_Namespace a) (sa_Namespace b) ||
                ((sa_Namespace a =s sa_Namespace b) && GoMap.str_less (sa_Value a) (sa_Value b)))
    (omap (fun kv : alias_key * AliasRow =>
             let '(t, a, n, v, row) := kv in
             if (t =s p_TenantID p) && (a =s p_AppID p) && (al_ProfileID row =s id)
             then Some (MkSnapAlias n v (al_SourceEventID row)) else None) (map_to_list (id_aliases d))).
(** The consents of a profile; a row whose [source_event_id] is NULL does not
    scan into a string. *)
Definition consent_of (p : Principal) (id : string) (c : ConsentRow) : bool :=
  (cr_TenantID c =s p_TenantID p) && (cr_AppID c =s p_AppID p) && (cr_ProfileID c =s id).
Definition scan_consent (c : ConsentRow) : result SnapConsent :=
  match cr_SourceEventID c with
  | None => Err scan_error
  | Some e => Ok (MkSnapConsent (cr_Channel c) (cr_Topic c) (cr_State c) (cr_OccurredAt c) (cr_Evidence c) e)
  end.
Definition consent_less (a b : ConsentRow) : bool :=
  let by_text (f : ConsentRow -> string) (rest : bool) :=
    match String.compare (f a) (f b) with Lt => true | Gt => false | Eq => rest end in
  by_text cr_Channel (by_text cr_Topic
    (if cr_OccurredAt a =? cr_OccurredAt b
     then by_text (fun c => default "" (cr_SourceEventID c)) false
     else cr_OccurredAt a <? cr_OccurredAt b)).
Definition snap_consents (p : Principal) (id : string) (d : IDB) : result (list SnapConsent) :=
  mapM_result scan_consent (GoMap.sort_by consent_less (filter (fun c => consent_of p id c = true) (id_consents d))).

Definition snapshot_key (event : AcceptedEvent) (sourceID : string) : string :=
  "identity-merges/" +:+ p_TenantID (ae_Principal event) +:+ "/" +:+ p_AppID (ae_Principal event) +:+ "/" +:+
  ae_ID event +:+ "/" +:+ sourceID +:+ ".json".
Definition put_blob (key : string) (s : identityMergeSnapshot) : I unit := fun d =>
  match id_blobs d with
  | None => (Err (errors_New "identity merge snapshot blob store is not configured"), d)
  | Some b => (Ok tt, set_blobs (Some (<[key := s]> b)) d)
  end.

(** UPDATE profiles ... WHERE id = $n: no row, no effect. *)
Definition update_profile (id : string) (f : Prof -> Prof) : I unit :=
  row ← gets (fun d => id_profiles d !! id);
  match row with Some q => put_profile (f q) | None => mret tt end.

(** DELETE FROM identity_aliases source WHERE a target alias has the same
    namespace and value. *)
Definition shadowed (d : IDB) (sourceID targetID : string) (kv : alias_key * AliasRow) : bool :=
  let '(_, _, n, v, row) := kv in
  (al_ProfileID row =s sourceID) &&
  existsb (fun kv' : alias_key * AliasRow =>
             let '(_, _, n', v', row') := kv' in
             (al_ProfileID row' =s targetID) && (n' =s n) && (v' =s v)) (map_to_list (id_aliases d)).
Definition drop_shadowed (sourceID targetID : string) : I unit :=
  modify (fun d => set_aliases (filter (fun kv => shadowed d sourceID targetID kv = false) (id_aliases d)) d).

(** INSERT INTO identity_merges ... ON CONFLICT (source_event_id,
    source_profile_id) DO NOTHING. *)
Definition insert_merge (event : AcceptedEvent) (sourceID targetID key : string) : I unit :=
  let p := ae_Principal event in
  i ← new_id; now ← gets id_now;
  modify (fun d =>
    if existsb (fun m => same_some (mg_SourceEventID m) (Some (ae_ID event)) && (mg_Source m =s sourceID)) (id_merges d)
    then d
    else set_merges (id_merges d ++ [MkMergeRow i (p_TenantID p) (p_AppID p) sourceID targetID (Some (ae_ID event))
                                       (Some key) (p_ActorType p) now None]) d).

Definition take_snapshot (event : AcceptedEvent) (sourceID : string) : I identityMergeSnapshot :=
  let p := ae_Principal event in
  row ← gets (fun d => id_profiles d !! sourceID);
  match row with
  | Some q =>
      if in_app p q then
        aliases ← gets (snap_aliases p sourceID);
        consents ← query (snap_consents p sourceID);
        mret (MkSnapshot (snap_profile q) aliases consents)
      else throw ErrNoRows
  | None => throw ErrNoRows
  end.

Definition mergeProfiles (event : AcceptedEvent) (sourceID targetID : string) : I unit :=
  if sourceID =s targetID then mret tt else
  snapshot ← take_snapshot event sourceID;
  let key := snapshot_key event sourceID in
  _ ← put_blob key snapshot;
  now ← gets id_now;
  source ← gets (fun d => id_profiles d !! sourceID);
  _ ← match source with
      | Some s => update_profile targetID (fun t => absorb (pf_AnonymousID t) now s t)
      | None => mret tt
      end;
  _ ← repoint_consents sourceID targetID;
  _ ← drop_shadowed sourceID targetID;
  _ ← repoint_aliases sourceID targetID;
  _ ← update_profile sourceID (tombstone targetID None now);
  insert_merge event sourceID targetID key.

(** ** Resolution *)

Record candidate : Type := MkCandidate { cd_profileID : string; cd_priority : Z; cd_namespace : string }.

(** The alias of one key, when its namespace is configured and its profile
    live. *)
Definition find_candidate (p : Principal) (key : string * string) (d : IDB) : option candidate :=
  match id_aliases d !! alias_of p key.1 key.2, id_namespaces d !! (p_TenantID p, p_AppID p, key.1) with
  | Some row, Some priority =>
      match id_profiles d !! al_ProfileID row with
      | Some q => if is_live q then Some (MkCandidate (al_ProfileID row) priority key.1) else None
      | None => None
      end
  | _, _ => None
  end.
(** The loop with its [seen] set: the first candidate of a profile is kept. *)
Fixpoint candidates (p : Principal) (keys : list (string * string)) (seen : list string) (d : IDB) : list candidate :=
  match keys with
  | [] => []
  | key :: keys' =>
      match find_candidate p key d with
      | Some c => if mem (cd_profileID c) seen then candidates p keys' seen d
                  else c :: candidates p keys' (cd_profileID c :: seen) d
      | None => candidates p keys' seen d
      end
  end.
Definition better (a b : candidate) : bool :=
  if cd_priority a =? cd_priority b then GoMap.str_less (cd_profileID a) (cd_profileID b)
  else cd_priority a <? cd_priority b.

(** The empty string when no key resolves. *)
Definition resolveIdentity (event : AcceptedEvent) : I string :=
  cs ← gets (candidates (ae_Principal event) (identityKeys event) []);
  match GoMap.sort_by better cs with
  | [] => mret ""
  | winner :: losers =>
      _ ← iterM (fun c => mergeProfiles event (cd_profileID c) (cd_profileID winner)) losers;
      mret (cd_profileID winner)
  end.

(** The subject of an event: resolved by its keys, or ensured. *)
Definition subject (event : AcceptedEvent) : I string :=
  id ← resolveIdentity event;
  if id =s "" then ensureProfile event else mret id.

(** ** The identity events *)

Definition fst_field : Json.setter (string * string) := Json.set_string (fun s x => (s, x.2)).
Definition snd_field : Json.setter (string * string) := Json.set_string (fun s x => (x.1, s)).

(** INSERT INTO identity_aliases ... ON CONFLICT ... DO UPDATE. *)
Definition upsert_alias (event : AcceptedEvent) (profileID : string) (nv : string * string) : I unit :=
  let namespace := GoMap.TrimSpace nv.1 in
  let value := normalizeIdentityValue namespace nv.2 in
  if (namespace =s "") || (value =s "") then throw (errors_New "identity.alias contains an empty namespace or value")
  else modify (fun d => set_aliases (<[alias_of (ae_Principal event) namespace value :=
                                        MkAliasRow profileID (Some (ae_ID event))]> (id_aliases d)) d).

(** INSERT INTO consent_ledger ... ON CONFLICT (source_event_id, channel,
    topic) DO NOTHING. *)
Definition insert_consent (event : AcceptedEvent) (profileID channel topic state : string) (evidence : json) : I unit :=
  let p := ae_Principal event in
  now ← gets id_now;
  modify (fun d =>
    if existsb (fun c => same_some (cr_SourceEventID c) (Some (ae_ID event)) && (cr_Channel c =s channel) &&
                         (cr_Topic c =s topic)) (id_consents d)
    then d
    else set_consents (id_consents d ++ [MkConsentRow (p_TenantID p) (p_WorkspaceID p) (p_AppID p) profileID
                                           (Some (ae_ID event)) channel topic state (ae_OccurredAt event) evidence now]) d).

(** case "identity.merge" of [ProjectEvent]. *)
Definition project_merge (event : AcceptedEvent) (profileID : string) : I unit :=
  source_external_id ← lift (Json.Unmarshal [("source_external_id", Json.set_string (fun s _ => s))] "" (ae_Payload event));
  row ← gets (find_profile (by_external (ae_Principal event) source_external_id));
  match row with
  | Some q => if pf_ID q =s profileID then mret tt else mergeProfiles event (pf_ID q) profileID
  | None => mret tt
  end.

(** The row [unmergeProfile] locks: by merge id, or the latest merge of the
    profile that is not undone. *)
Definition of_app (p : Principal) (m : MergeRow) : bool := (mg_TenantID m =s p_TenantID p) && (mg_AppID m =s p_AppID p).
Definition undone (m : MergeRow) : bool := match mg_UndoneAt m with Some _ => true | None => false end.
Definition find_merge (p : Principal) (mergeID sourceID : string) (d : IDB) : option MergeRow :=
  if negb (mergeID =s "") then find_first (fun m => of_app p m && (mg_ID m =s mergeID)) (id_merges d)
  else head (GoMap.sort_by (fun a b => mg_MergedAt b <? mg_MergedAt a)
               (filter (fun m => of_app p m && (mg_Source m =s sourceID) && negb (undone m) = true) (rev (id_merges d)))).

Definition restore_profile (s : SnapProfile) (q : Prof) : Prof :=
  MkProf (pf_ID q) (pf_TenantID q) (pf_WorkspaceID q) (pf_AppID q) (sp_ExternalID s) (sp_AnonymousID s)
    (sp_Attributes s) (sp_Version s) None (pf_CreatedAt q) (sp_UpdatedAt s).
(** UPDATE profiles ... WHERE id = source AND merged_into = target. *)
Definition restore_row (s : SnapProfile) (sourceID targetID : string) : I unit :=
  row ← gets (fun d => id_profiles d !! sourceID);
  match row with
  | Some q => if same_some (pf_MergedInto q) (Some targetID) then put_profile (restore_profile s q) else mret tt
  | None => mret tt
  end.
Definition restore_alias (p : Principal) (sourceID targetID : string) (a : SnapAlias) : I unit :=
  modify (fun d => set_aliases
    (alter (fun row => if al_ProfileID row =s targetID then set_al_ProfileID sourceID row else row)
       (alias_of p (sa_Namespace a) (sa_Value a)) (id_aliases d)) d).
Definition restore_consent (p : Principal) (sourceID : string) (c : SnapConsent) : I unit :=
  modify (fun d => set_consents
    ((fun r => if (cr_TenantID r =s p_TenantID p) && (cr_AppID r =s p_AppID p) &&
                  same_some (cr_SourceEventID r) (Some (sc_SourceEventID c))
               then set_cr_ProfileID sourceID r else r) <$> id_consents d) d).

Definition unmerge_fields : list (string * Json.setter (string * string)) :=
  [("merge_id", fst_field); ("source_profile_id", snd_field)].

Definition unmergeProfile (event : AcceptedEvent) : I unit :=
  let p := ae_Principal event in
  body ← lift (Json.Unmarshal unmerge_fields ("", "") (ae_Payload event));
  row ← gets (find_merge p body.1 body.2);
  match row with
  | None => mret tt
  | Some m =>
      match mg_ReversalRef m with
      | None => throw scan_error
      | Some reversalRef =>
          if undone m then mret tt else
          blobs ← gets id_blobs;
          match blobs with
          | Some b =>
              if reversalRef =s "" then throw (errors_New "identity merge has no reversible snapshot") else
              match b !! reversalRef with
              | None => throw (errors_New "blob not found")
              | Some snapshot =>
                  if negb (sp_ID (sn_Profile snapshot) =s mg_Source m)
                  then throw (errors_New "identity merge snapshot source mismatch") else
                  now ← gets id_now;
                  _ ← restore_row (sn_Profile snapshot) (mg_Source m) (mg_Target m);
                  _ ← iterM (restore_alias p (mg_Source m) (mg_Target m)) (sn_Aliases snapshot);
                  _ ← iterM (restore_consent p (mg_Source m)) (sn_Consents snapshot);
                  modify (fun d => set_merges ((fun r => if mg_ID r =s mg_ID m then set_mg_UndoneAt (Some now) r else r)
                                                 <$> id_merges d) d)
              end
          | None => throw (errors_New "identity merge has no reversible snapshot")
          end
      end
  end.

End Identity.
