(* ===== verification/IdentitySpec.v ===== *)
(** * What identity resolution guarantees

    The well-formedness of the identity tables and its preservation, the
    effect of a merge as one equation, the round trip of merge and unmerge,
    and the cases in which the code loses or refuses an identity. *)

From S2P Require Import Prelude.
From S2P Require Import GoStd.
From S2P Require Import GoMap.
From S2P Require Import Domain.
From S2P Require Import Store.
From S2P Require Import Identity.

Module IdentitySpec.
Import Identity.

(** ** Well-formed tables *)

Definition has (t a i : string) (d : IDB) : Prop :=
  exists q, id_profiles d !! i = Some q /\ pf_TenantID q = t /\ pf_AppID q = a.

Record wf (d : IDB) : Prop := MkWf {
  (** rows sit under their id, which was generated *)
  wf_id : forall i q, id_profiles d !! i = Some q -> pf_ID q = i /\ i ∈ id_used d;
  (** the partial unique indexes *)
  wf_unique : forall i j p q, id_profiles d !! i = Some p -> id_profiles d !! j = Some q -> conflict p q = false;
  (** an alias names a profile of its own app *)
  wf_alias : forall t a n v row, id_aliases d !! (t, a, n, v) = Some row -> has t a (al_ProfileID row) d;
  wf_consent : forall c, c ∈ id_consents d -> has (cr_TenantID c) (cr_AppID c) (cr_ProfileID c) d;
  (** the consents of one event are one profile's *)
  wf_event : forall c c' e, c ∈ id_consents d -> c' ∈ id_consents d ->
    cr_TenantID c = cr_TenantID c' -> cr_AppID c = cr_AppID c' ->
    cr_SourceEventID c = Some e -> cr_SourceEventID c' = Some e -> cr_ProfileID c = cr_ProfileID c';
  wf_merge : forall m, m ∈ id_merges d ->
    has (mg_TenantID m) (mg_AppID m) (mg_Source m) d /\ has (mg_TenantID m) (mg_AppID m) (mg_Target m) d /\
    mg_ID m ∈ id_used d
}.

(** No profile disappears or changes app, and generated ids stay used. *)
Definition grows (d d' : IDB) : Prop :=
  (forall t a i, has t a i d -> has t a i d') /\ id_used d ⊆ id_used d'.

#[export] Instance grows_preorder : PreOrder grows.
Proof.
  split; [by split|]. intros d1 d2 d3 [H1 H2] [H3 H4]. split; [auto | set_solver].
Qed.

(** What every operation does from a well-formed state, commit or error. *)
Definition safe {A} (m : I A) (d : IDB) : Prop := wf (m d).2 /\ grows d (m d).2.

Lemma safe_seq {A B} (m : I A) (f : A -> I B) d :
  safe m d -> (forall a d', m d = (Ok a, d') -> wf d' -> grows d d' -> safe (f a) d') -> safe (m ≫= f) d.
Proof.
  unfold safe, mbind, M_bind. destruct (m d) as [[a|e] d1] eqn:E; simpl; intros [Hw Hg] Hf; [|done].
  destruct (Hf a d1 eq_refl Hw Hg) as [Hw' Hg']. split; [done | by etrans].
Qed.

Lemma safe_pure {A} (m : I A) d : wf d -> (m d).2 = d -> safe m d.
Proof. intros Hw E. unfold safe. rewrite E. done. Qed.

Lemma safe_done {A} (a : A) d : wf d -> safe (mret a) d.
Proof. intros. by apply safe_pure. Qed.
Lemma safe_gets {A} (f : IDB -> A) d : wf d -> safe (gets f) d.
Proof. intros. by apply safe_pure. Qed.
Lemma safe_throw {A} e d : wf d -> safe (throw (A := A) e) d.
Proof. intros. by apply safe_pure. Qed.

Lemma safe_iterM {A} (f : A -> I unit) l d :
  wf d -> (forall a d', a ∈ l -> wf d' -> grows d d' -> safe (f a) d') -> safe (iterM f l) d.
Proof.
  intros Hw Hf. apply (iterM_inv f (fun d' => wf d' /\ grows d d')); [|done].
  intros a d' Ha [Hw' Hg']. destruct (Hf a d' Ha Hw' Hg') as [H1 H2]. split; [done | by etrans].
Qed.

(** ** Profiles *)

Lemma conflict_sym p q : conflict p q = conflict q p.
Proof.
  assert (Hs : forall a b, seqb a b = seqb b a) by (intros; apply bool_decide_ext; intuition congruence).
  assert (Ho : forall a b, same_some a b = same_some b a) by (intros [a|] [b|]; simpl; auto).
  unfold conflict. by rewrite !(Hs (pf_ID p)), !(Hs (pf_TenantID p)), !(Hs (pf_AppID p)),
    !(Ho (pf_ExternalID p)), !(Ho (pf_AnonymousID p)).
Qed.

Lemma conflict_self p : conflict p p = false.
Proof. unfold conflict. by rewrite seqb_refl. Qed.

(** Whether rows conflict depends on their ids, app and identifiers. *)
Lemma conflict_ext p p' q :
  pf_ID p = pf_ID p' -> pf_TenantID p = pf_TenantID p' -> pf_AppID p = pf_AppID p' ->
  pf_ExternalID p = pf_ExternalID p' -> pf_AnonymousID p = pf_AnonymousID p' -> conflict p q = conflict p' q.
Proof. unfold conflict. by intros -> -> -> -> ->. Qed.

Lemma conflict_none p q : pf_ExternalID p = None -> pf_AnonymousID p = None -> conflict p q = false.
Proof. unfold conflict. intros -> ->. by rewrite andb_false_r. Qed.

Lemma put_profile_ok p d :
  (forall i q, id_profiles d !! i = Some q -> conflict p q = false) ->
  put_profile p d = (Ok tt, set_profiles (<[pf_ID p := p]> (id_profiles d)) d).
Proof.
  intros H. unfold put_profile. destruct (existsb _ _) eqn:E; [|done].
  apply existsb_exists in E as ([i q] & Hi & Hc). simpl in Hc.
  apply list_elem_of_In, elem_of_map_to_list in Hi. by rewrite (H i q Hi) in Hc.
Qed.

Lemma put_profile_inv p d r d' : put_profile p d = (r, d') ->
  (r = Err unique_violation /\ d' = d) \/
  (r = Ok tt /\ d' = set_profiles (<[pf_ID p := p]> (id_profiles d)) d /\
   forall i q, id_profiles d !! i = Some q -> conflict p q = false).
Proof.
  unfold put_profile. destruct (existsb _ _) eqn:E; intros H; injection H as <- <-; [by left | right].
  split; [done|]. split; [done|]. intros i q Hi. destruct (conflict p q) eqn:Hc; [|done]. exfalso.
  apply eq_true_false_abs in E; [done|]. apply existsb_exists. exists (i, q).
  split; [|done]. by apply list_elem_of_In, elem_of_map_to_list.
Qed.

Lemma put_profile_fails p d i q :
  id_profiles d !! i = Some q -> conflict p q = true -> put_profile p d = (Err unique_violation, d).
Proof.
  intros Hi Hc. unfold put_profile. replace (existsb _ _) with true; [done|]. symmetry.
  apply existsb_exists. exists (i, q). split; [|done]. by apply list_elem_of_In, elem_of_map_to_list.
Qed.

(** Writing a row of a profile that exists in the same app, or a new one. *)
Lemma has_put p d t a i :
  has (pf_TenantID p) (pf_AppID p) (pf_ID p) d \/ id_profiles d !! pf_ID p = None ->
  has t a i d -> has t a i (set_profiles (<[pf_ID p := p]> (id_profiles d)) d).
Proof.
  intros Hp (q & Hi & Ht & Ha). unfold has, set_profiles; simpl.
  destruct (decide (pf_ID p = i)) as [<-|Hne].
  - rewrite lookup_insert_eq. exists p. split; [done|]. destruct Hp as [(q' & Hq & ? & ?)|Hn]; [|by rewrite Hi in Hn].
    rewrite Hi in Hq. injection Hq as <-. split; congruence.
  - rewrite lookup_insert_ne by done. by exists q.
Qed.

Lemma wf_put p d :
  wf d -> pf_ID p ∈ id_used d ->
  has (pf_TenantID p) (pf_AppID p) (pf_ID p) d \/ id_profiles d !! pf_ID p = None ->
  (forall i q, id_profiles d !! i = Some q -> conflict p q = false) ->
  wf (set_profiles (<[pf_ID p := p]> (id_profiles d)) d).
Proof.
  intros Hw Hu Hp Hc. set (d' := set_profiles _ d).
  assert (Hh : forall t a i, has t a i d -> has t a i d') by (intros; by apply has_put).
  constructor; simpl.
  - intros i q. destruct (decide (pf_ID p = i)) as [<-|Hne].
    + rewrite lookup_insert_eq. intros H. injection H as <-. by split.
    + rewrite lookup_insert_ne by done. apply (wf_id d Hw).
  - intros i j x y. destruct (decide (pf_ID p = i)) as [<-|Hi]; destruct (decide (pf_ID p = j)) as [<-|Hj];
      rewrite ?lookup_insert_eq, ?lookup_insert_ne by done; intros H1 H2.
    + injection H1 as <-. injection H2 as <-. apply conflict_self.
    + injection H1 as <-. by apply (Hc j).
    + injection H2 as <-. rewrite conflict_sym. by apply (Hc i).
    + by apply (wf_unique d Hw i j).
  - intros t a n v row H. by apply Hh, (wf_alias d Hw _ _ n v).
  - intros c H. by apply Hh, (wf_consent d Hw).
  - apply (wf_event d Hw).
  - intros m H. destruct (wf_merge d Hw m H) as (? & ? & ?). by repeat split; auto.
Qed.

Lemma safe_put p d :
  wf d -> pf_ID p ∈ id_used d ->
  has (pf_TenantID p) (pf_AppID p) (pf_ID p) d \/ id_profiles d !! pf_ID p = None ->
  safe (put_profile p) d.
Proof.
  intros Hw Hu Hp. unfold safe. destruct (put_profile p d) as [r d'] eqn:E.
  apply put_profile_inv in E as [[-> ->]|(-> & -> & Hc)]; simpl; [done|].
  split; [by apply wf_put|]. split; [|done]. intros. by apply has_put.
Qed.

(** A row updated in place, its app and id kept. *)
Lemma safe_row_update q p d i :
  wf d -> id_profiles d !! i = Some q -> pf_ID p = pf_ID q -> pf_TenantID p = pf_TenantID q ->
  pf_AppID p = pf_AppID q -> safe (put_profile p) d.
Proof.
  intros Hw Hi E1 E2 E3. destruct (wf_id d Hw i q Hi) as [<- Hu].
  apply safe_put; rewrite ?E1; [done | done |]. left. exists q. by rewrite E2, E3.
Qed.

Lemma find_profile_Some f d q :
  find_profile f d = Some q -> (exists i, id_profiles d !! i = Some q) /\ f q = true.
Proof.
  unfold find_profile. destruct (find_first _ _) as [[i x]|] eqn:E; simpl; [|discriminate].
  intros H. injection H as <-. apply find_first_Some in E as [Hi Hf]. split; [|done].
  exists i. by apply elem_of_map_to_list in Hi.
Qed.

Lemma find_profile_None f d : find_profile f d = None <-> forall i q, id_profiles d !! i = Some q -> f q = false.
Proof.
  unfold find_profile. destruct (find_first _ _) as [x|] eqn:E; simpl.
  - split; [discriminate|]. apply find_first_Some in E as [Hi Hf]. destruct x as [i x].
    intros H. apply elem_of_map_to_list in Hi. simpl in Hf. by rewrite (H i x Hi) in Hf.
  - apply find_first_None in E. split; [|done]. intros _ i q Hi.
    rewrite Forall_forall in E. apply (E (i, q)). by apply elem_of_map_to_list.
Qed.

Lemma in_app_has p i q d : id_profiles d !! i = Some q -> in_app p q = true -> has (p_TenantID p) (p_AppID p) i d.
Proof.
  unfold in_app. intros Hi [H1 H2]%andb_prop. apply seqb_true in H1, H2. by exists q.
Qed.

Lemma has_fun t a t' a' i d : has t a i d -> has t' a' i d -> t = t' /\ a = a'.
Proof. intros (q & Hq & <- & <-) (q' & Hq' & <- & <-). rewrite Hq in Hq'. by injection Hq' as <-. Qed.

Lemma has_ID i q d : wf d -> id_profiles d !! i = Some q -> has (pf_TenantID q) (pf_AppID q) (pf_ID q) d.
Proof. intros Hw Hi. destruct (wf_id d Hw i q Hi) as [-> _]. by exists q. Qed.

Lemma safe_new_id d : wf d -> safe new_id d.
Proof.
  intros Hw. unfold safe; simpl. split; [|split; [done | set_solver]].
  constructor; simpl; try apply Hw.
  - intros i q H. destruct (wf_id d Hw i q H). split; [done | set_solver].
  - intros m H. destruct (wf_merge d Hw m H) as (? & ? & ?). repeat split; auto. set_solver.
Qed.

Lemma new_id_fresh d i d' : wf d -> new_id d = (Ok i, d') ->
  i ∈ id_used d' /\ i ∉ id_used d /\ id_profiles d' = id_profiles d /\ id_profiles d' !! i = None.
Proof.
  intros Hw H. injection H as <- <-. simpl. pose proof (is_fresh (id_used d)) as Hf.
  repeat split; [set_solver | done |]. destruct (id_profiles d !! _) as [q|] eqn:E; [|done].
  by destruct (wf_id d Hw _ _ E) as [_ ?].
Qed.

(** ** Consents and aliases *)

(** Every app that has [from] has [to]: the two are in the same app. *)
Definition same_app (from to : string) (d : IDB) : Prop := forall t a, has t a from d -> has t a to d.

Lemma same_app_intro t a from to d : has t a from d -> has t a to d -> same_app from to d.
Proof. intros H1 H2 t' a' H. by destruct (has_fun _ _ _ _ _ _ H1 H) as [<- <-]. Qed.

(** Consents rewritten row by row, events kept together. *)
Lemma wf_map_consents f d :
  wf d ->
  (forall c, cr_TenantID (f c) = cr_TenantID c /\ cr_AppID (f c) = cr_AppID c /\ cr_SourceEventID (f c) = cr_SourceEventID c) ->
  (forall c, c ∈ id_consents d -> has (cr_TenantID c) (cr_AppID c) (cr_ProfileID (f c)) d) ->
  (forall c c', cr_TenantID c = cr_TenantID c' -> cr_AppID c = cr_AppID c' -> cr_ProfileID c = cr_ProfileID c' ->
     cr_SourceEventID c = cr_SourceEventID c' -> cr_ProfileID (f c) = cr_ProfileID (f c')) ->
  wf (set_consents (f <$> id_consents d) d).
Proof.
  intros Hw Hf Hh He. constructor; simpl; try apply Hw.
  - intros c' (c & -> & Hc)%list_elem_of_fmap. destruct (Hf c) as (-> & -> & _). by apply Hh.
  - intros x' y' e (x & -> & Hx)%list_elem_of_fmap (y & -> & Hy)%list_elem_of_fmap.
    destruct (Hf x) as (-> & -> & ->). destruct (Hf y) as (-> & -> & ->). intros E1 E2 E3 E4.
    apply He; [done | done | by eapply (wf_event d Hw) | congruence].
Qed.

Lemma safe_repoint_consents from to d : wf d -> same_app from to d -> safe (repoint_consents from to) d.
Proof.
  intros Hw Hs. split; [|by split]. simpl. apply wf_map_consents; [done|..].
  - intros c. by destruct (_ =s _).
  - intros c Hc. destruct (seqb (cr_ProfileID c) from) eqn:E; [|by apply (wf_consent d Hw)].
    apply seqb_true in E. simpl. apply Hs. rewrite <- E. by apply (wf_consent d Hw).
  - intros c c' _ _ E _. rewrite E. by destruct (_ =s _).
Qed.

Lemma wf_set_aliases m d :
  wf d -> (forall t a n v row, m !! (t, a, n, v) = Some row -> has t a (al_ProfileID row) d) -> wf (set_aliases m d).
Proof. intros Hw H. constructor; simpl; try apply Hw. exact H. Qed.

Lemma safe_set_aliases m d :
  wf d -> (forall t a n v row, m d !! (t, a, n, v) = Some row -> has t a (al_ProfileID row) d) ->
  safe (modify (fun d => set_aliases (m d) d)) d.
Proof. intros Hw H. split; [by apply wf_set_aliases | by split]. Qed.

Lemma safe_repoint_aliases from to d : wf d -> same_app from to d -> safe (repoint_aliases from to) d.
Proof.
  intros Hw Hs. apply (safe_set_aliases (fun d => _ <$> id_aliases d)); [done|].
  intros t a n v row. rewrite lookup_fmap. destruct (id_aliases d !! _) as [r|] eqn:E; simpl; [|discriminate].
  intros H. injection H as <-. apply (wf_alias d Hw) in E. destruct (seqb (al_ProfileID r) from) eqn:Ef; [|done].
  apply seqb_true in Ef. simpl. apply Hs. by rewrite <- Ef.
Qed.

Lemma safe_drop_shadowed from to d : wf d -> safe (drop_shadowed from to) d.
Proof.
  intros Hw. apply (safe_set_aliases (fun d => filter _ (id_aliases d))); [done|].
  intros t a n v row [H _]%map_lookup_filter_Some. by apply (wf_alias d Hw) in H.
Qed.

(** ** The operations keep the tables well formed *)

Lemma safe_new_profile p ext anon d : wf d -> safe (new_profile p ext anon) d.
Proof.
  intros Hw. apply safe_seq; [by apply safe_new_id|]. intros i d1 E Hw1 _.
  destruct (new_id_fresh _ _ _ Hw E) as (Hu & _ & _ & Hn).
  apply safe_seq; [by apply safe_gets|]. intros now d2 E2 Hw2 _. injection E2 as _ <-.
  apply safe_seq; [apply safe_put; [done | done | by right]|]. intros [] d3 _ Hw3 _. by apply safe_done.
Qed.

Lemma safe_upsert f p ext anon d :
  wf d -> safe (row ← gets (find_profile f);
                match row with Some q => mret (pf_ID q) | None => new_profile p ext anon end) d.
Proof.
  intros Hw. apply safe_seq; [by apply safe_gets|]. intros [q|] d1 _ Hw1 _; [by apply safe_done | by apply safe_new_profile].
Qed.

Lemma safe_stitch known anonymous d i j :
  wf d -> id_profiles d !! i = Some known -> id_profiles d !! j = Some anonymous ->
  pf_TenantID known = pf_TenantID anonymous -> pf_AppID known = pf_AppID anonymous ->
  safe (stitch known anonymous) d.
Proof.
  intros Hw Hi Hj Et Ea.
  assert (Hk : forall d', grows d d' -> same_app (pf_ID anonymous) (pf_ID known) d').
  { intros d' [Hg _]. apply (same_app_intro (pf_TenantID known) (pf_AppID known)); apply Hg; [|by apply (has_ID i)].
    rewrite Et, Ea. by apply (has_ID j). }
  apply safe_seq; [by apply safe_gets|]. intros now d0 E0 _ _. injection E0 as _ <-.
  apply safe_seq; [by apply (safe_row_update known _ d i)|]. intros [] d1 _ Hw1 Hg1.
  apply safe_seq; [apply safe_repoint_consents; auto|]. intros [] d2 _ Hw2 Hg2.
  apply safe_seq; [apply safe_repoint_aliases; [done | apply Hk; by etrans]|]. intros [] d3 _ Hw3 Hg3.
  assert (Hg : grows d d3) by (do 2 (etrans; [eassumption|]); done). destruct Hg as [Hg Hu].
  apply safe_put; simpl; [done| |left; apply Hg; by apply (has_ID j)].
  destruct (wf_id d Hw j _ Hj) as [-> H]. by apply Hu.
Qed.

Lemma safe_ensureProfile event d : wf d -> safe (ensureProfile event) d.
Proof.
  intros Hw. unfold ensureProfile. destruct (ae_ExternalID event =s ""); [by apply safe_upsert|].
  apply safe_seq; [destruct (_ =s _); [by apply safe_done | by apply safe_gets]|].
  intros [a|] d1 E Hw1 _; [|by apply safe_upsert].
  assert (d1 = d /\ (exists i, id_profiles d !! i = Some a) /\ in_app (ae_Principal event) a = true) as (-> & [i Hi] & Ha).
  { destruct (_ =s _); [discriminate E|]. injection E as E <-. apply find_profile_Some in E as [Hi Hf].
    split; [done|]. split; [done|]. apply andb_prop in Hf as [Hf _]. by apply andb_prop in Hf as [Hf _]. }
  apply safe_seq; [by apply safe_gets|]. intros [e|] d2 E2 _ _; injection E2 as E2 <-.
  - apply find_profile_Some in E2 as [[j Hj] Hf]. apply andb_prop in Hf as [He _].
    apply safe_seq; [|intros; by apply safe_done].
    destruct (pf_ID e =s pf_ID a); [by apply safe_done|]. apply andb_prop in Ha as [Ha1 Ha2]. apply andb_prop in He as [He1 He2].
    apply seqb_true in Ha1, Ha2, He1, He2. apply (safe_stitch e a d j i); congruence.
  - apply safe_seq; [by apply safe_gets|]. intros now d3 E3 _ _. injection E3 as _ <-.
    apply safe_seq; [by apply (safe_row_update a _ d i)|]. intros. by apply safe_done.
Qed.

Lemma safe_query {A} (f : IDB -> result A) d : wf d -> safe (query f) d.
Proof. intros. by apply safe_pure. Qed.

Lemma take_snapshot_idle event s d : (take_snapshot event s d).2 = d.
Proof.
  unfold take_snapshot. unfold_M. simpl. destruct (id_profiles d !! s) as [q|]; [|done].
  destruct (in_app _ q); [|done]. simpl. by destruct (snap_consents _ s d).
Qed.

Lemma take_snapshot_has event s d sn d' : take_snapshot event s d = (Ok sn, d') ->
  has (p_TenantID (ae_Principal event)) (p_AppID (ae_Principal event)) s d.
Proof.
  unfold take_snapshot. unfold_M. simpl. destruct (id_profiles d !! s) as [q|] eqn:E; [|discriminate].
  destruct (in_app _ q) eqn:Ea; [|discriminate]. intros _. by apply (in_app_has _ _ q).
Qed.

Lemma safe_put_blob k sn d : wf d -> safe (put_blob k sn) d.
Proof.
  intros Hw. unfold safe, put_blob. destruct (id_blobs d) as [b|]; simpl; (split; [|by split]); [|done].
  constructor; simpl; apply Hw.
Qed.

Lemma safe_update_profile i f d :
  wf d -> (forall q, pf_ID (f q) = pf_ID q /\ pf_TenantID (f q) = pf_TenantID q /\ pf_AppID (f q) = pf_AppID q) ->
  safe (update_profile i f) d.
Proof.
  intros Hw Hf. apply safe_seq; [by apply safe_gets|]. intros [q|] d' E _ _; injection E as E <-; [|by apply safe_done].
  destruct (Hf q) as (? & ? & ?). by apply (safe_row_update q _ d i).
Qed.

Lemma safe_insert_merge event s t key d :
  wf d -> has (p_TenantID (ae_Principal event)) (p_AppID (ae_Principal event)) s d ->
  has (p_TenantID (ae_Principal event)) (p_AppID (ae_Principal event)) t d -> safe (insert_merge event s t key) d.
Proof.
  intros Hw Hs Ht. apply safe_seq; [by apply safe_new_id|]. intros i d1 E Hw1 [Hg1 _].
  destruct (new_id_fresh _ _ _ Hw E) as (Hu & _).
  apply safe_seq; [by apply safe_gets|]. intros now d2 E2 _ _. injection E2 as _ <-.
  unfold safe, modify; simpl. destruct (existsb _ (id_merges d1)); [by split|]. split; [|by split].
  constructor; simpl; try apply Hw1. intros m [Hm|Hm]%elem_of_app; [by apply (wf_merge d1 Hw1)|].
  apply elem_of_cons in Hm as [->|Hm]; [|by apply elem_of_nil in Hm].
  simpl. by split; [apply Hg1|split; [apply Hg1|]].
Qed.

Lemma safe_mergeProfiles event s t d :
  wf d -> has (p_TenantID (ae_Principal event)) (p_AppID (ae_Principal event)) t d -> safe (mergeProfiles event s t) d.
Proof.
  intros Hw Ht. unfold mergeProfiles. destruct (s =s t); [by apply safe_done|].
  apply safe_seq; [apply safe_pure; [done | apply take_snapshot_idle]|]. intros sn d0 E _ _.
  pose proof (take_snapshot_has _ _ _ _ _ E) as Hs. pose proof (take_snapshot_idle event s d) as E0.
  rewrite E in E0. simpl in E0. subst d0.
  assert (Hk : forall d', grows d d' -> same_app s t d').
  { intros d' [Hg _]. by eapply same_app_intro; apply Hg. }
  apply safe_seq; [by apply safe_put_blob|]. intros [] d1 _ Hw1 Hg1.
  apply safe_seq; [by apply safe_gets|]. intros now d2 E2 _ _. injection E2 as _ <-.
  apply safe_seq; [by apply safe_gets|]. intros src d2 E2 _ _. injection E2 as _ <-.
  apply safe_seq; [destruct src; [by apply safe_update_profile | by apply safe_done]|]. intros [] d2 _ Hw2 Hg2.
  assert (H2 : grows d d2) by by etrans.
  apply safe_seq; [apply safe_repoint_consents; auto|]. intros [] d3 _ Hw3 Hg3. assert (H3 : grows d d3) by by etrans.
  apply safe_seq; [by apply safe_drop_shadowed|]. intros [] d4 _ Hw4 Hg4. assert (H4 : grows d d4) by by etrans.
  apply safe_seq; [apply safe_repoint_aliases; auto|]. intros [] d5 _ Hw5 Hg5. assert (H5 : grows d d5) by by etrans.
  apply safe_seq; [by apply safe_update_profile|]. intros [] d6 _ Hw6 Hg6. assert (H6 : grows d d6) by by etrans.
  destruct H6 as [H6 _]. apply safe_insert_merge; auto.
Qed.

Lemma find_candidate_has p key d c :
  wf d -> find_candidate p key d = Some c -> has (p_TenantID p) (p_AppID p) (cd_profileID c) d.
Proof.
  intros Hw. unfold find_candidate, alias_of. destruct (id_aliases d !! _) as [row|] eqn:E; [|discriminate].
  apply (wf_alias d Hw) in E. destruct (id_namespaces d !! _); [|discriminate].
  destruct (id_profiles d !! _) as [q|]; [|discriminate]. destruct (is_live q); [|discriminate].
  intros H. by injection H as <-.
Qed.

Lemma candidates_elem p keys seen d c :
  c ∈ candidates p keys seen d -> exists key, key ∈ keys /\ find_candidate p key d = Some c.
Proof.
  revert seen. induction keys as [|k keys IH]; intros seen; simpl; [by intros ?%elem_of_nil|].
  assert (Hr : forall s, c ∈ candidates p keys s d -> exists key, key ∈ k :: keys /\ find_candidate p key d = Some c).
  { intros s H. destruct (IH s H) as (key & Hk & Hf). exists key. split; [by apply list_elem_of_further | done]. }
  destruct (find_candidate p k d) as [c'|] eqn:E; [|apply Hr].
  destruct (mem _ seen); [apply Hr|]. intros [->|H]%elem_of_cons; [|by apply (Hr _ H)].
  exists k. split; [apply list_elem_of_here | done].
Qed.

Lemma safe_resolveIdentity event d : wf d -> safe (resolveIdentity event) d.
Proof.
  intros Hw. apply safe_seq; [by apply safe_gets|]. intros cs d' E _ _. injection E as Ec <-.
  assert (Hc : forall c, c ∈ GoMap.sort_by better cs ->
            has (p_TenantID (ae_Principal event)) (p_AppID (ae_Principal event)) (cd_profileID c) d).
  { intros c H. rewrite GoMap.sort_by_perm, <- Ec in H. apply candidates_elem in H as (key & _ & Hf).
    by apply (find_candidate_has _ key). }
  destruct (GoMap.sort_by better cs) as [|w losers]; [by apply safe_done|].
  apply safe_seq; [|intros; by apply safe_done]. apply safe_iterM; [done|]. intros c d1 _ Hw1 [Hg1 _].
  apply safe_mergeProfiles; [done|]. apply Hg1, Hc, list_elem_of_here.
Qed.

Lemma safe_subject event d : wf d -> safe (subject event) d.
Proof.
  intros Hw. apply safe_seq; [by apply safe_resolveIdentity|]. intros i d1 _ Hw1 _.
  destruct (_ =s _); [by apply safe_ensureProfile | by apply safe_done].
Qed.

Lemma safe_upsert_alias event id nv d :
  wf d -> has (p_TenantID (ae_Principal event)) (p_AppID (ae_Principal event)) id d -> safe (upsert_alias event id nv) d.
Proof.
  intros Hw Hh. unfold upsert_alias. destruct (_ || _); [by apply safe_throw|].
  apply (safe_set_aliases (fun d => <[_ := _]> (id_aliases d))); [done|]. intros t a n v row.
  rewrite lookup_insert. unfold alias_of. case_decide as E.
  - injection E as <- <- _ _. intros H. by injection H as <-.
  - by apply (wf_alias d Hw).
Qed.

(** The rows an event has left are of its own channel and topic. *)
Definition own_consents (event : AcceptedEvent) (channel topic : string) (d : IDB) : Prop :=
  forall c, c ∈ id_consents d -> cr_SourceEventID c = Some (ae_ID event) -> cr_Channel c = channel /\ cr_Topic c = topic.

Lemma safe_insert_consent event id channel topic state evidence d :
  wf d -> has (p_TenantID (ae_Principal event)) (p_AppID (ae_Principal event)) id d -> own_consents event channel topic d ->
  safe (insert_consent event id channel topic state evidence) d.
Proof.
  intros Hw Hh Ho. apply safe_seq; [by apply safe_gets|]. intros now d0 E _ _. injection E as _ <-.
  unfold safe, modify; simpl. destruct (existsb _ (id_consents d)) eqn:Ex; [by split|]. split; [|by split].
  assert (Hno : forall c, c ∈ id_consents d -> cr_SourceEventID c <> Some (ae_ID event)).
  { intros c Hc He. destruct (Ho c Hc He) as [E1 E2]. apply eq_true_false_abs in Ex; [done|]. apply existsb_exists.
    exists c. split; [by apply list_elem_of_In|]. by rewrite He, E1, E2; simpl; rewrite !seqb_refl. }
  constructor; simpl; try apply Hw.
  - intros c [Hc|[->|Hc%elem_of_nil]%elem_of_cons]%elem_of_app; [by apply (wf_consent d Hw) | done | done].
  - intros c c' e [Hc|[->|Hc%elem_of_nil]%elem_of_cons]%elem_of_app [Hc'|[->|Hc'%elem_of_nil]%elem_of_cons]%elem_of_app;
      try done; [by apply (wf_event d Hw)|..]; simpl; intros _ _ E1 E2; exfalso.
    + apply (Hno c Hc). congruence.
    + apply (Hno c' Hc'). congruence.
Qed.

Lemma safe_project_merge event id d :
  wf d -> has (p_TenantID (ae_Principal event)) (p_AppID (ae_Principal event)) id d -> safe (project_merge event id) d.
Proof.
  intros Hw Hh. apply safe_seq; [by apply safe_pure|]. intros x d0 E _ _. injection E as _ <-.
  apply safe_seq; [by apply safe_gets|]. intros [q|] d0 E _ _; injection E as _ <-; [|by apply safe_done].
  destruct (_ =s _); [by apply safe_done | by apply safe_mergeProfiles].
Qed.

Lemma safe_restore_consent p s c d :
  wf d -> has (p_TenantID p) (p_AppID p) s d -> safe (restore_consent p s c) d.
Proof.
  intros Hw Hs. split; [|by split]. simpl. apply wf_map_consents; [done|..].
  - intros r. by destruct (_ && _).
  - intros r Hr. destruct (_ && _) eqn:E; [|by apply (wf_consent d Hw)].
    apply andb_prop in E as [E _]. apply andb_prop in E as [E1 E2]. apply seqb_true in E1, E2. simpl. by rewrite E1, E2.
  - intros r r' E1 E2 E3 E4. rewrite E1, E2, E4. by destruct (_ && _).
Qed.

Lemma safe_restore_alias p s t a d :
  wf d -> has (p_TenantID p) (p_AppID p) s d -> safe (restore_alias p s t a) d.
Proof.
  intros Hw Hs. apply (safe_set_aliases (fun d => alter _ _ (id_aliases d))); [done|]. intros t' a' n v row.
  rewrite lookup_alter. unfold alias_of. case_decide as E; [|by apply (wf_alias d Hw)].
  injection E as <- <- <- <-. destruct (id_aliases d !! _) as [r|] eqn:Er; simpl; [|discriminate].
  intros H. injection H as <-. destruct (_ =s _); [done | by apply (wf_alias d Hw) in Er].
Qed.

Lemma safe_unmergeProfile event d : wf d -> safe (unmergeProfile event) d.
Proof.
  intros Hw. apply safe_seq; [by apply safe_pure|]. intros body d0 E _ _. injection E as _ <-.
  apply safe_seq; [by apply safe_gets|]. intros [m|] d0 E _ _; injection E as E <-; [|by apply safe_done].
  assert (Hm : m ∈ id_merges d /\ of_app (ae_Principal event) m = true).
  { unfold find_merge in E. destruct (negb _).
    - apply find_first_Some in E as [H1 H2]. by apply andb_prop in H2 as [H2 _].
    - apply head_Some_elem_of in E. rewrite GoMap.sort_by_perm in E. apply list_elem_of_filter in E as [E H].
      apply list_elem_of_In, in_rev, list_elem_of_In in H.
      split; [done|]. by apply andb_prop in E as [[E _]%andb_prop _]. }
  destruct Hm as [Hm Ha]. apply (wf_merge d Hw) in Hm as (Hs & _ & _).
  apply andb_prop in Ha as [H1 H2]. apply seqb_true in H1, H2. rewrite H1, H2 in Hs.
  destruct (mg_ReversalRef m) as [ref|]; [|by apply safe_throw]. destruct (undone m); [by apply safe_done|].
  apply safe_seq; [by apply safe_gets|]. intros [b|] d0 E0 _ _; injection E0 as _ <-; [|by apply safe_throw].
  destruct (ref =s ""); [by apply safe_throw|]. destruct (b !! ref) as [sn|]; [|by apply safe_throw].
  destruct (negb _); [by apply safe_throw|].
  apply safe_seq; [by apply safe_gets|]. intros now d0 E0 _ _. injection E0 as _ <-.
  apply safe_seq. { apply safe_seq; [by apply safe_gets|]. intros [q|] d0 E0 _ _; injection E0 as E0 <-; [|by apply safe_done].
    destruct (same_some _ _); [by apply (safe_row_update q _ d (mg_Source m)) | by apply safe_done]. }
  intros [] d1 _ Hw1 [Hg1 _].
  apply safe_seq; [apply safe_iterM; [done|]; intros a d' _ Hw' [Hg' _]; apply safe_restore_alias; auto|].
  intros [] d2 _ Hw2 [Hg2 _].
  apply safe_seq; [apply safe_iterM; [done|]; intros c d' _ Hw' [Hg' _]; apply safe_restore_consent; auto|].
  intros [] d3 _ Hw3 _. split; [|by split]. constructor; simpl; try apply Hw3.
  intros r (r' & -> & Hr)%list_elem_of_fmap. apply (wf_merge d3 Hw3) in Hr. by destruct (_ =s _).
Qed.

(** ** A merge as one equation *)

Definition repointed (s t : string) (c : ConsentRow) : ConsentRow :=
  if cr_ProfileID c =s s then set_cr_ProfileID t c else c.
Definition repointed_alias (s t : string) (a : AliasRow) : AliasRow :=
  if al_ProfileID a =s s then set_al_ProfileID t a else a.
Definition merge_row (event : AcceptedEvent) (s t i : string) (now : Z) : MergeRow :=
  MkMergeRow i (p_TenantID (ae_Principal event)) (p_AppID (ae_Principal event)) s t (Some (ae_ID event))
    (Some (snapshot_key event s)) (p_ActorType (ae_Principal event)) now None.

(** Two aliases with the same namespace and value in one app are one row. *)
Lemma no_shadow s t d kv :
  wf d -> s <> t -> same_app s t d -> id_aliases d !! kv.1 = Some kv.2 -> shadowed d s t kv = false.
Proof.
  intros Hw Hne Hs H. destruct kv as [[[[t1 a1] n1] v1] r1]. simpl in H. unfold shadowed.
  destruct (seqb (al_ProfileID r1) s) eqn:E; [|done]. apply seqb_true in E. simpl.
  destruct (existsb _ _) eqn:Ex; [|done]. apply existsb_exists in Ex as ([[[[t2 a2] n2] v2] r2] & H2 & Hc).
  apply list_elem_of_In, elem_of_map_to_list in H2. apply andb_prop in Hc as [[E2 En]%andb_prop Ev].
  apply seqb_true in E2, En, Ev. subst n2 v2. pose proof (wf_alias d Hw _ _ _ _ _ H) as Ha1.
  pose proof (wf_alias d Hw _ _ _ _ _ H2) as Ha2. rewrite E in Ha1. rewrite E2 in Ha2. apply Hs in Ha1.
  destruct (has_fun _ _ _ _ _ _ Ha1 Ha2) as [-> ->]. rewrite H in H2. injection H2 as ->. congruence.
Qed.

Lemma drop_shadowed_idle s t d : wf d -> s <> t -> same_app s t d -> drop_shadowed s t d = (Ok tt, d).
Proof.
  intros Hw Hne Hs. unfold drop_shadowed, modify. replace (filter _ (id_aliases d)) with (id_aliases d); [by destruct d|].
  symmetry. apply map_filter_id. intros k row H. by apply (no_shadow s t d (k, row)).
Qed.

Lemma update_profile_ok i f d q :
  wf d -> id_profiles d !! i = Some q -> pf_ID (f q) = i ->
  (forall j x, id_profiles d !! j = Some x -> conflict (f q) x = false) ->
  update_profile i f d = (Ok tt, set_profiles (<[i := f q]> (id_profiles d)) d).
Proof. intros Hw H E Hc. unfold update_profile, gets. unfold_M. rewrite H, put_profile_ok, E; done. Qed.

(** No merge of [s] by this event is recorded yet. *)
Definition new_merge (event : AcceptedEvent) (s : string) (d : IDB) : Prop :=
  forall m, m ∈ id_merges d -> mg_Source m = s -> mg_SourceEventID m <> Some (ae_ID event).

Lemma insert_merge_ok event s t d :
  exists i d', insert_merge event s t (snapshot_key event s) d = (Ok tt, d') /\ i ∉ id_used d /\
    id_profiles d' = id_profiles d /\ id_consents d' = id_consents d /\ id_aliases d' = id_aliases d /\
    id_blobs d' = id_blobs d /\ id_now d' = id_now d /\
    (new_merge event s d -> id_merges d' = id_merges d ++ [merge_row event s t i (id_now d)]).
Proof.
  exists (fresh (id_used d)), (insert_merge event s t (snapshot_key event s) d).2.
  unfold insert_merge, modify. unfold_M. simpl.
  destruct (existsb _ (id_merges d)) eqn:E; (split; [reflexivity|]; split; [apply is_fresh|]); [|done].
  repeat (split; [done|]). intros Hn. exfalso. apply existsb_exists in E as (m & Hm & [H1 H2]%andb_prop). apply seqb_true in H2.
  destruct (mg_SourceEventID m) as [e|] eqn:Ee; [|discriminate]. simpl in H1. apply seqb_true in H1. subst e.
  by destruct (Hn m (proj2 (list_elem_of_In _ _) Hm) H2).
Qed.

(** The state after a merge of distinct profiles of the event's app. *)
Record merged (event : AcceptedEvent) (s t : string) (S T : Prof) (d d1 : IDB) : Prop := MkMerged {
  m_profiles : id_profiles d1 = <[s := tombstone t None (id_now d) S]>
                                  (<[t := absorb (pf_AnonymousID T) (id_now d) S T]> (id_profiles d));
  m_consents : id_consents d1 = repointed s t <$> id_consents d;
  m_aliases : id_aliases d1 = repointed_alias s t <$> id_aliases d;
  m_blob : exists b consents, id_blobs d1 = Some b /\ snap_consents (ae_Principal event) s d = Ok consents /\
    b !! snapshot_key event s = Some (MkSnapshot (snap_profile S) (snap_aliases (ae_Principal event) s d) consents);
  m_now : id_now d1 = id_now d;
  m_row : new_merge event s d ->
    exists i, i ∉ id_used d /\ id_merges d1 = id_merges d ++ [merge_row event s t i (id_now d)]
}.

Section merging.
Context (event : AcceptedEvent) (s t : string) (S T : Prof) (d : IDB).
Hypothesis (Hw : wf d) (Hne : s <> t).
Hypothesis (HS : id_profiles d !! s = Some S) (HT : id_profiles d !! t = Some T).
Hypothesis (HaT : in_app (ae_Principal event) T = true).

Lemma absorb_conflict j x : id_profiles d !! j = Some x -> conflict (absorb (pf_AnonymousID T) (id_now d) S T) x = false.
Proof. intros H. rewrite (conflict_ext _ T) by done. by apply (wf_unique d Hw t j). Qed.

(** After the absorbing update and the consents' move, with any blobs. *)
Definition absorbed (b : gmap string identityMergeSnapshot) : IDB :=
  set_consents (repointed s t <$> id_consents d)
    (set_profiles (<[t := absorb (pf_AnonymousID T) (id_now d) S T]> (id_profiles d)) (set_blobs (Some b) d)).

Lemma absorbed_wf b : same_app s t d -> wf (absorbed b) /\ same_app s t (absorbed b).
Proof.
  intros Hs. set (d2 := set_blobs (Some b) d). assert (Hw2 : wf d2) by (constructor; simpl; apply Hw).
  pose proof (safe_row_update T (absorb (pf_AnonymousID T) (id_now d) S T) d2 t Hw2 HT eq_refl eq_refl eq_refl) as Hp.
  unfold safe in Hp. rewrite put_profile_ok in Hp by apply absorb_conflict.
  destruct (wf_id d Hw t T HT) as [E _]. simpl in Hp. rewrite E in Hp. destruct Hp as [Hw3 [Hg3 _]].
  assert (Hs3 : same_app s t (set_profiles (<[t := absorb (pf_AnonymousID T) (id_now d) S T]> (id_profiles d)) d2)).
  { assert (Hh : has (pf_TenantID S) (pf_AppID S) s d) by by exists S.
    eapply same_app_intro; apply Hg3; [exact Hh | apply (Hs _ _ Hh)]. }
  split; [exact (proj1 (safe_repoint_consents s t _ Hw3 Hs3)) | exact Hs3].
Qed.

Lemma take_snapshot_eq sn d' : take_snapshot event s d = (Ok sn, d') ->
  exists cs, snap_consents (ae_Principal event) s d = Ok cs /\
    sn = MkSnapshot (snap_profile S) (snap_aliases (ae_Principal event) s d) cs.
Proof.
  unfold take_snapshot, gets, query. unfold_M. rewrite HS. destruct (in_app _ S); [|discriminate].
  destruct (snap_consents _ s d) as [cs|e]; [|discriminate]. intros H. injection H as <- _. by exists cs.
Qed.

Lemma mergeProfiles_merged d1 : mergeProfiles event s t d = (Ok tt, d1) -> merged event s t S T d d1.
Proof.
  unfold mergeProfiles. replace (s =s t) with false by (symmetry; by apply seqb_false).
  intros H. apply bindM_Ok in H as (sn & d0 & H0 & H). pose proof (take_snapshot_idle event s d) as E0.
  pose proof (take_snapshot_has _ _ _ _ _ H0) as Hs0. rewrite H0 in E0. simpl in E0. subst d0.
  assert (Hsame : same_app s t d) by by apply (same_app_intro _ _ _ _ _ Hs0), (in_app_has _ _ T).
  apply bindM_Ok in H as ([] & d2 & H2 & H). unfold put_blob in H2. destruct (id_blobs d) as [b|] eqn:Eb; [|discriminate].
  injection H2 as <-. apply bindM_Ok in H as (now & d2 & H2 & H). injection H2 as <- <-.
  apply bindM_Ok in H as (src & d2 & H2 & H). injection H2 as H2 <-. simpl in H2. rewrite HS in H2. subst src.
  set (b' := <[_ := _]> b) in H. destruct (absorbed_wf b' Hsame) as [Hw4 Hs4].
  apply bindM_Ok in H as ([] & d3 & H3 & H).
  rewrite (update_profile_ok t _ _ T) in H3; [|by constructor; simpl; apply Hw|done|by destruct (wf_id d Hw t T HT)|apply absorb_conflict].
  injection H3 as <-. apply bindM_Ok in H as ([] & d4 & H4 & H).
  assert (d4 = absorbed b') as -> by (by injection H4 as <-). clear H4.
  apply bindM_Ok in H as ([] & d5 & H5 & H). rewrite drop_shadowed_idle in H5 by done.
  injection H5 as <-. apply bindM_Ok in H as ([] & d5 & H5 & H).
  pose proof (proj1 (safe_repoint_aliases s t _ Hw4 Hs4)) as Hw5. rewrite H5 in Hw5. injection H5 as <-.
  set (d5 := set_aliases _ _) in H. simpl in Hw5.
  apply bindM_Ok in H as ([] & d6 & H6 & H).
  rewrite (update_profile_ok s _ d5 S) in H6;
    [|done | simpl; by rewrite lookup_insert_ne | by destruct (wf_id d Hw s S HS) | intros; by apply conflict_none].
  injection H6 as <-. set (d6 := set_profiles _ d5) in H.
  destruct (insert_merge_ok event s t d6) as (i & d' & E & Hi & P1 & P2 & P3 & P4 & P5 & P6).
  rewrite E in H. injection H as ->. destruct (take_snapshot_eq _ _ H0) as (cs & Hcs & ->).
  constructor; rewrite ?P1, ?P2, ?P3, ?P4, ?P5; [done | done | done | | done | intros Hn; exists i; split; [done | by apply P6]].
  exists b', cs. split; [done|]. split; [done|]. unfold b'. by rewrite lookup_insert_eq.
Qed.

End merging.

(** ** Unmerging restores the source *)

Section restoring.
Context (p : Principal) (s t : string).

Definition back (row : AliasRow) : AliasRow := if al_ProfileID row =s t then set_al_ProfileID s row else row.
Definition snap_key (a : SnapAlias) : alias_key := alias_of p (sa_Namespace a) (sa_Value a).

Lemma back_back row : s <> t -> back (back row) = back row.
Proof.
  intros Hne. unfold back. destruct (seqb (al_ProfileID row) t) eqn:E; [|by rewrite E].
  simpl. by replace (s =s t) with false by (symmetry; by apply seqb_false).
Qed.

Lemma restore_aliases l d : s <> t -> exists m, iterM (restore_alias p s t) l d = (Ok tt, set_aliases m d) /\
  forall k, m !! k = (if decide (k ∈ snap_key <$> l) then back <$> id_aliases d !! k else id_aliases d !! k).
Proof.
  intros Hne. revert d. induction l as [|a l IH]; intros d; simpl.
  { exists (id_aliases d). by destruct d. }
  set (m0 := alter back (snap_key a) (id_aliases d)). destruct (IH (set_aliases m0 d)) as (m & Hm & Hk).
  exists m. split; [by rewrite (bindM_eq _ _ _ tt (set_aliases m0 d)), Hm|]. intros k. rewrite Hk. simpl. unfold m0.
  rewrite lookup_alter. destruct (decide (snap_key a = k)) as [<-|Hka].
  - destruct (decide (_ ∈ snap_key a :: _)) as [_|Hn]; [|by destruct Hn; apply list_elem_of_here].
    destruct (decide (_ ∈ snap_key <$> l)); [|done]. destruct (id_aliases d !! snap_key a); simpl; [|done]. by rewrite back_back.
  - apply decide_ext. rewrite elem_of_cons. naive_solver.
Qed.

Definition listed (c : SnapConsent) (r : ConsentRow) : bool :=
  (cr_TenantID r =s p_TenantID p) && (cr_AppID r =s p_AppID p) &&
  same_some (cr_SourceEventID r) (Some (sc_SourceEventID c)).

Lemma restore_consents l d : iterM (restore_consent p s) l d =
  (Ok tt, set_consents ((fun r => if existsb (fun c => listed c r) l then set_cr_ProfileID s r else r) <$> id_consents d) d).
Proof.
  revert d. induction l as [|c l IH]; intros d; simpl.
  - rewrite list_fmap_id. by destruct d.
  - rewrite (bindM_eq (restore_consent p s c) _ d tt _ eq_refl), IH. unfold set_consents; simpl.
    do 2 f_equal. rewrite <- list_fmap_compose.
    apply list_fmap_ext. intros _ r _. unfold compose. fold (listed c r).
    destruct (listed c r) eqn:E; simpl; [|done]. by destruct (existsb _ l).
Qed.

End restoring.

Lemma repoint_back s t a : al_ProfileID a = s -> back s t (repointed_alias s t a) = a.
Proof.
  intros <-. unfold repointed_alias, back. rewrite seqb_refl. simpl. rewrite seqb_refl. by destruct a.
Qed.

Lemma snap_aliases_elem p id d k row :
  k.1.1.1 = p_TenantID p -> k.1.1.2 = p_AppID p -> id_aliases d !! k = Some row ->
  (k ∈ snap_key p <$> snap_aliases p id d <-> al_ProfileID row = id).
Proof.
  destruct k as [[[t a] n] v]. simpl. intros -> -> H. rewrite list_elem_of_fmap. unfold snap_aliases. split.
  - intros ([n' v' e'] & E & Hin). rewrite GoMap.sort_by_perm in Hin.
    apply list_elem_of_omap in Hin as ([[[[t2 a2] n2] v2] r2] & H2 & E2).
    apply elem_of_map_to_list in H2. destruct (_ && _) eqn:Hc; [|discriminate]. injection E2 as <- <- <-.
    apply andb_prop in Hc as [[E3 E4]%andb_prop E5]. apply seqb_true in E3, E4, E5. subst t2 a2.
    unfold snap_key, alias_of in E. simpl in E. injection E as <- <-. rewrite H in H2. by injection H2 as ->.
  - intros Hid. exists (MkSnapAlias n v (al_SourceEventID row)). split; [done|]. rewrite GoMap.sort_by_perm.
    apply list_elem_of_omap. exists (p_TenantID p, p_AppID p, n, v, row). rewrite elem_of_map_to_list. split; [done|].
    by rewrite !seqb_refl, Hid, seqb_refl.
Qed.

Lemma mapM_result_elem {A B} (f : A -> result B) l ys y :
  mapM_result f l = Ok ys -> (y ∈ ys <-> exists x, x ∈ l /\ f x = Ok y).
Proof.
  revert ys. induction l as [|x l IH]; simpl; intros ys H.
  - injection H as <-. split; [by intros ?%elem_of_nil | by intros (? & ?%elem_of_nil & _)].
  - apply bind_Ok in H as (z & Hz & H). apply bind_Ok in H as (zs & Hzs & H). injection H as <-.
    rewrite elem_of_cons, (IH zs Hzs). split.
    + intros [->|(x' & Hx & Hf)]; [exists x | exists x']; (split; [|done]); [apply list_elem_of_here | by apply list_elem_of_further].
    + intros (x' & [->|Hx]%elem_of_cons & Hf); [left; congruence | right; eauto].
Qed.

Lemma existsb_elem {A} (f : A -> bool) l : existsb f l = true <-> exists x, x ∈ l /\ f x = true.
Proof. rewrite existsb_exists. split; intros (x & Hx & Hf); exists x; split; [by apply list_elem_of_In | done | by apply list_elem_of_In | done]. Qed.

(** In a well-formed table the snapshot lists exactly the source's events. *)
Lemma snap_consents_listed p s d cs r :
  wf d -> snap_consents p s d = Ok cs -> has (p_TenantID p) (p_AppID p) s d -> r ∈ id_consents d ->
  existsb (fun c => listed p c r) cs = (cr_ProfileID r =s s).
Proof.
  intros Hw Hcs Hs Hr. apply Bool.eq_iff_eq_true. rewrite existsb_elem, seqb_true. split.
  - intros (c & Hc & Hl). apply (mapM_result_elem _ _ _ c Hcs) in Hc as (x & Hx & Hsc).
    rewrite GoMap.sort_by_perm in Hx. apply list_elem_of_filter in Hx as [Ho Hx].
    apply andb_prop in Hl as [[E1 E2]%andb_prop E3]. apply andb_prop in Ho as [[F1 F2]%andb_prop F3].
    apply seqb_true in E1, E2, F1, F2, F3. unfold scan_consent in Hsc.
    destruct (cr_SourceEventID x) as [e|] eqn:Ee; [|discriminate]. injection Hsc as <-. simpl in E3.
    destruct (cr_SourceEventID r) as [e'|] eqn:Ee'; [|discriminate]. apply seqb_true in E3. subst e'.
    rewrite <- F3. apply (wf_event d Hw r x e); congruence.
  - intros E. pose proof (wf_consent d Hw r Hr) as Hh. rewrite E in Hh. destruct (has_fun _ _ _ _ _ _ Hs Hh) as [E1 E2].
    assert (Hx : r ∈ GoMap.sort_by consent_less (filter (fun c => consent_of p s c = true) (id_consents d))).
    { rewrite GoMap.sort_by_perm. apply list_elem_of_filter. split; [|done]. unfold consent_of.
      by rewrite <- E1, <- E2, E, !seqb_refl. }
    destruct (scan_consent r) as [c|e] eqn:Hsc.
    + exists c. split; [apply (mapM_result_elem _ _ _ c Hcs); by exists r|]. unfold listed.
      unfold scan_consent in Hsc. destruct (cr_SourceEventID r) as [e|]; [|discriminate]. injection Hsc as <-. simpl.
      by rewrite <- E1, <- E2, !seqb_refl.
    + exfalso. clear -Hcs Hx Hsc. unfold snap_consents in Hcs. revert cs Hcs. induction (GoMap.sort_by _ _) as [|y l IH]; simpl.
      * by apply elem_of_nil in Hx.
      * intros cs H. apply bind_Ok in H as (z & Hz & H). apply bind_Ok in H as (zs & Hzs & _).
        apply elem_of_cons in Hx as [->|Hx]; [congruence | by apply (IH Hx zs)].
Qed.

Lemma filter_none {A} (P : A -> Prop) `{!forall x, Decision (P x)} l : (forall x, x ∈ l -> ~ P x) -> filter P l = [].
Proof.
  induction l as [|x l IH]; intros Hl; [done|]. rewrite filter_cons_False by (apply Hl, list_elem_of_here).
  apply IH. intros y Hy. apply Hl. by apply list_elem_of_further.
Qed.

Section roundtrip.
Context (event : AcceptedEvent) (s t : string) (S T : Prof) (d d1 : IDB).
Hypothesis (Hw : wf d) (Hne : s <> t).
Hypothesis (HS : id_profiles d !! s = Some S) (HT : id_profiles d !! t = Some T).
Hypothesis (HaS : in_app (ae_Principal event) S = true).
Hypothesis (Hlive : pf_MergedInto S = None).
Hypothesis (Hdone : forall m, m ∈ id_merges d -> mg_Source m = s -> undone m = true).
Hypothesis (Hm : merged event s t S T d d1).
Let p := ae_Principal event.

Lemma find_merge_row i :
  id_merges d1 = id_merges d ++ [merge_row event s t i (id_now d)] ->
  find_merge p "" s d1 = Some (merge_row event s t i (id_now d)).
Proof.
  intros E. unfold find_merge. simpl. rewrite E, rev_app_distr. cbn [rev app]. rewrite filter_cons_True.
  2:{ unfold of_app. simpl. by rewrite !seqb_refl. }
  rewrite filter_none; [done|]. intros m Hi%list_elem_of_In%in_rev%list_elem_of_In.
  intros [[_ Hsrc]%andb_prop Hu]%andb_prop. apply seqb_true in Hsrc. by rewrite (Hdone m Hi Hsrc) in Hu.
Qed.

(** Its row comes back exactly: identifiers, attributes, version and times. *)
Lemma restore_row_merged :
  restore_row (snap_profile S) s t d1 =
  (Ok tt, set_profiles (<[t := absorb (pf_AnonymousID T) (id_now d) S T]> (id_profiles d)) d1).
Proof.
  unfold restore_row, gets. unfold_M. rewrite (m_profiles _ _ _ _ _ _ _ Hm), lookup_insert_eq. simpl. rewrite seqb_refl.
  set (tomb := tombstone t None (id_now d) S).
  assert (Eq : restore_profile (snap_profile S) tomb = S) by (destruct S; simpl in *; by rewrite Hlive).
  rewrite Eq. destruct (wf_id d Hw s S HS) as [Es _]. rewrite put_profile_ok.
  - rewrite Es, (m_profiles _ _ _ _ _ _ _ Hm), insert_insert_eq. f_equal. f_equal.
    apply insert_id. by rewrite lookup_insert_ne.
  - rewrite (m_profiles _ _ _ _ _ _ _ Hm). intros j x. rewrite !lookup_insert.
    case_decide; [|case_decide]; intros H'; [injection H' as <- | injection H' as <- | by apply (wf_unique d Hw s j)].
    + unfold conflict. simpl. by rewrite seqb_refl.
    + rewrite conflict_sym, (conflict_ext _ T) by done. by apply (wf_unique d Hw t s).
Qed.

Lemma restored_aliases m :
  (forall k, m !! k = (if decide (k ∈ snap_key p <$> snap_aliases p s d)
                       then back s t <$> id_aliases d1 !! k else id_aliases d1 !! k)) -> m = id_aliases d.
Proof.
  intros Hk. apply map_eq. intros k. rewrite Hk, (m_aliases _ _ _ _ _ _ _ Hm), lookup_fmap.
  destruct (id_aliases d !! k) as [row|] eqn:E; simpl; [|by destruct (decide _)].
  destruct (decide (al_ProfileID row = s)) as [Er|Er].
  - destruct k as [[[t' a'] n'] v']. pose proof (wf_alias d Hw _ _ _ _ _ E) as Hh. rewrite Er in Hh.
    destruct (has_fun _ _ _ _ _ _ Hh (in_app_has p s S d HS HaS)) as [-> ->].
    rewrite decide_True by (by apply (snap_aliases_elem _ _ _ _ row)). by rewrite repoint_back.
  - assert (El : repointed_alias s t row = row).
    { unfold repointed_alias. by rewrite (proj2 (seqb_false _ _) Er). }
    rewrite El. destruct (decide _) as [Hin|]; [|done]. exfalso. apply Er. destruct k as [[[t' a'] n'] v'].
    apply list_elem_of_fmap in Hin as (x & Ex & Hx). unfold snap_key, alias_of in Ex. injection Ex as -> -> -> ->.
    apply (snap_aliases_elem p s d (p_TenantID p, p_AppID p, sa_Namespace x, sa_Value x) row); [done|done|done|].
    apply list_elem_of_fmap. by exists x.
Qed.

Lemma restored_consents cs :
  snap_consents p s d = Ok cs ->
  (fun r => if existsb (fun c => listed p c r) cs then set_cr_ProfileID s r else r) <$> id_consents d1 = id_consents d.
Proof.
  intros Hcs. rewrite (m_consents _ _ _ _ _ _ _ Hm), <- list_fmap_compose. rewrite <- (list_fmap_id (id_consents d)) at 2.
  apply list_fmap_ext. intros i r Hi. apply list_elem_of_lookup_2 in Hi. unfold compose, id.
  assert (E : existsb (fun c => listed p c (repointed s t r)) cs = (cr_ProfileID r =s s)).
  { rewrite <- (snap_consents_listed p s d cs r Hw Hcs (in_app_has p s S d HS HaS) Hi). f_equal. unfold repointed.
    by destruct (_ =s _). }
  rewrite E. unfold repointed. destruct (seqb (cr_ProfileID r) s) eqn:Er; [|done]. apply seqb_true in Er. subst s.
  by destruct r.
Qed.

End roundtrip.

Lemma snapshot_key_nonempty event s : (snapshot_key event s =s "") = false.
Proof. by apply seqb_false. Qed.

(** C16: [identity.unmerge] undoes [identity.merge]: if merging the live profile [s] into [t] commits, the event that names [s] commits too and gives [s] back its row (identifiers, attributes, version, times), its aliases and its consents exactly; only [t] keeps what it absorbed, and no merge of [s] is left outstanding. *)
Theorem unmerge_restores event u s t S T d d1 :
  wf d -> s <> t -> id_profiles d !! s = Some S -> id_profiles d !! t = Some T ->
  in_app (ae_Principal event) T = true -> pf_MergedInto S = None ->
  (forall m, m ∈ id_merges d -> mg_Source m = s -> mg_SourceEventID m <> Some (ae_ID event) /\ undone m = true) ->
  mergeProfiles event s t d = (Ok tt, d1) ->
  ae_Principal u = ae_Principal event -> Json.Unmarshal unmerge_fields ("", "") (ae_Payload u) = Ok ("", s) ->
  exists d2, unmergeProfile u d1 = (Ok tt, d2) /\
    id_profiles d2 = <[t := absorb (pf_AnonymousID T) (id_now d) S T]> (id_profiles d) /\
    id_consents d2 = id_consents d /\ id_aliases d2 = id_aliases d /\
    (forall m, m ∈ id_merges d2 -> mg_Source m = s -> undone m = true).
Proof.
  intros Hw Hne HS HT HaT Hlive Hmg E Hp Hb.
  assert (HaS : in_app (ae_Principal event) S = true).
  { unfold mergeProfiles in E. replace (s =s t) with false in E by (symmetry; by apply seqb_false).
    apply bindM_Ok in E as (sn & d0 & E & _). unfold take_snapshot, gets in E. unfold_M. rewrite HS in E.
    by destruct (in_app _ S). }
  assert (Hm : merged event s t S T d d1) by by apply mergeProfiles_merged.
  assert (Hn : new_merge event s d) by (intros ???; by apply Hmg).
  assert (Hdone : forall m, m ∈ id_merges d -> mg_Source m = s -> undone m = true) by (intros; by apply Hmg).
  destruct (m_row _ _ _ _ _ _ _ Hm Hn) as (i & Hi & Hrow). destruct (m_blob _ _ _ _ _ _ _ Hm) as (b & cs & Hb1 & Hcs & Hkey).
  pose proof (find_merge_row event s t d d1 Hdone i Hrow) as Hfind.
  set (da := set_profiles (<[t := absorb (pf_AnonymousID T) (id_now d) S T]> (id_profiles d)) d1).
  destruct (restore_aliases (ae_Principal event) s t (snap_aliases (ae_Principal event) s d) da Hne) as (m & Ea & Hk).
  assert (Em : m = id_aliases d) by (by apply (restored_aliases event s t S T d d1)).
  eexists. split.
  { unfold unmergeProfile. rewrite Hb, Hp. unfold gets. unfold_M. cbn [fst snd].
    rewrite Hfind. cbn [mg_ReversalRef merge_row].
    change (undone _) with false. cbv beta iota. rewrite Hb1. rewrite snapshot_key_nonempty.
    cbv beta iota. rewrite Hkey. cbn [sn_Profile sn_Aliases sn_Consents snap_profile sp_ID mg_Source mg_Target merge_row].
    destruct (wf_id d Hw s S HS) as [-> _]. rewrite seqb_refl. cbn [negb].
    rewrite (restore_row_merged event s t S T d d1) by done. fold da. rewrite Ea, restore_consents. reflexivity. }
  simpl. split; [done|]. split; [by apply (restored_consents event s t S T d d1)|]. split; [done|].
  intros x Hx. apply list_elem_of_fmap in Hx as (y & -> & Hy). simpl in Hy. rewrite Hrow in Hy.
  apply elem_of_app in Hy as [Hy|Hy].
  - destruct (_ =s _); [done|]. by apply Hdone.
  - apply elem_of_cons in Hy as [->|Hy]; [|by apply elem_of_nil in Hy]. simpl. by rewrite seqb_refl.
Qed.

(** ** Resolution: the profiles the keys name become one *)

Lemma candidates_complete p keys seen d key c :
  key ∈ keys -> find_candidate p key d = Some c ->
  cd_profileID c ∈ seen \/ cd_profileID c ∈ cd_profileID <$> candidates p keys seen d.
Proof.
  revert seen. induction keys as [|k keys IH]; intros seen Hk Hf; [by apply elem_of_nil in Hk|]. simpl.
  apply elem_of_cons in Hk as [<-|Hk].
  - rewrite Hf. destruct (mem _ seen) eqn:E; [left; by apply mem_In|]. right. apply list_elem_of_here.
  - destruct (find_candidate p k d) as [c'|]; [|by apply IH]. destruct (mem _ seen); [by apply IH|].
    destruct (IH (cd_profileID c' :: seen) Hk Hf) as [[->|H]%elem_of_cons|H]; [right; apply list_elem_of_here | by left |].
    right. by apply list_elem_of_further.
Qed.

Lemma candidates_fresh p keys seen d c : c ∈ candidates p keys seen d -> cd_profileID c ∉ seen.
Proof.
  revert seen. induction keys as [|k keys IH]; intros seen; simpl; [by intros ?%elem_of_nil|].
  destruct (find_candidate p k d) as [c'|]; [|apply IH]. destruct (mem _ seen) eqn:E; [apply IH|].
  intros [->|H]%elem_of_cons; [intros Hs; apply mem_In in Hs; congruence|]. apply IH in H. set_solver.
Qed.

Lemma candidates_NoDup p keys seen d : NoDup (cd_profileID <$> candidates p keys seen d).
Proof.
  revert seen. induction keys as [|k keys IH]; intros seen; simpl; [constructor|].
  destruct (find_candidate p k d) as [c'|]; [|apply IH]. destruct (mem _ seen); [apply IH|]. simpl. constructor; [|apply IH].
  intros (c & Ec & Hc)%list_elem_of_fmap. apply candidates_fresh in Hc. rewrite Ec in Hc. set_solver.
Qed.

Lemma better_asym a b : better a b = true -> better b a = false.
Proof.
  unfold better. rewrite (Z.eqb_sym (cd_priority b)). destruct (_ =? _) eqn:E; [apply GoMap.str_less_asym | lia].
Qed.

Lemma better_trans a b c : better b a = false -> better c b = false -> better c a = false.
Proof.
  unfold better. intros H1 H2. destruct (Z.eqb_spec (cd_priority b) (cd_priority a)) as [E1|E1];
    destruct (Z.eqb_spec (cd_priority c) (cd_priority b)) as [E2|E2];
    destruct (Z.eqb_spec (cd_priority c) (cd_priority a)) as [E3|E3]; try lia.
  by apply (GoMap.str_less_trans _ (cd_profileID b)).
Qed.

(** A profile merged into [w] and stripped of its identifiers. *)
Definition gone (w i : string) (d : IDB) : Prop :=
  exists q, id_profiles d !! i = Some q /\ pf_MergedInto q = Some w /\ pf_ExternalID q = None /\ pf_AnonymousID q = None.
Definition lives (p : Principal) (w : string) (d : IDB) : Prop :=
  exists q, id_profiles d !! w = Some q /\ is_live q = true /\ in_app p q = true.

Lemma find_candidate_lives p key d c : wf d -> find_candidate p key d = Some c -> lives p (cd_profileID c) d.
Proof.
  intros Hw Hf. destruct (find_candidate_has p key d c Hw Hf) as (q & Hq & Ht & Happ). exists q.
  unfold in_app. rewrite Ht, Happ, !seqb_refl. split; [done|]. split; [|done].
  unfold find_candidate in Hf. destruct (id_aliases d !! _) as [row|]; [|discriminate].
  destruct (id_namespaces d !! _); [|discriminate]. destruct (id_profiles d !! al_ProfileID row) as [q'|] eqn:Eq; [|discriminate].
  destruct (is_live q') eqn:Eliv; [|discriminate]. injection Hf as <-. simpl in Hq. congruence.
Qed.

Lemma merge_step event s w d d1 :
  wf d -> s <> w -> lives (ae_Principal event) w d -> mergeProfiles event s w d = (Ok tt, d1) ->
  wf d1 /\ lives (ae_Principal event) w d1 /\ gone w s d1 /\ (forall i, i <> w -> gone w i d -> gone w i d1).
Proof.
  intros Hw Hne (T & HT & Hl & Ha) E. assert (Hs : exists S, id_profiles d !! s = Some S).
  { pose proof E as E'. unfold mergeProfiles in E'. rewrite (proj2 (seqb_false _ _) Hne) in E'.
    apply bindM_Ok in E' as (sn & d0 & E' & _). apply take_snapshot_has in E' as (S & HS & _). by exists S. }
  destruct Hs as [S HS]. assert (Hm : merged event s w S T d d1) by by apply mergeProfiles_merged.
  assert (Hsafe : safe (mergeProfiles event s w) d) by (apply safe_mergeProfiles; [done | by apply (in_app_has _ _ T)]).
  unfold safe in Hsafe. rewrite E in Hsafe. split; [apply Hsafe|]. unfold lives, gone. rewrite (m_profiles _ _ _ _ _ _ _ Hm).
  split; [|split].
  - rewrite lookup_insert_ne, lookup_insert_eq by done. by eexists.
  - rewrite lookup_insert_eq. by eexists.
  - intros i Hi (q & Hq & Hg). destruct (decide (s = i)) as [<-|Hsi]; [rewrite lookup_insert_eq; by eexists|].
    rewrite !lookup_insert_ne by done. by exists q.
Qed.

Lemma merge_losers event w losers d d1 :
  wf d -> lives (ae_Principal event) w d -> w ∉ cd_profileID <$> losers ->
  iterM (fun c => mergeProfiles event (cd_profileID c) w) losers d = (Ok tt, d1) ->
  lives (ae_Principal event) w d1 /\ forall c, c ∈ losers -> gone w (cd_profileID c) d1.
Proof.
  intros Hw Hl Hwin El.
  assert (Hother : forall b, b ∈ losers -> cd_profileID b <> w).
  { intros b Hb <-. apply Hwin. by apply list_elem_of_fmap_2. }
  pose proof (iterM_all (fun c => mergeProfiles event (cd_profileID c) w)
    (fun d => wf d /\ lives (ae_Principal event) w d) (fun c d => gone w (cd_profileID c) d) losers d d1) as H.
  destruct H as [[_ H1] H2]; [|done|done|done].
  intros c d2 d3 Hc [Hw2 Hl2] Em. destruct (merge_step event _ _ _ _ Hw2 (Hother c Hc) Hl2 Em) as (? & ? & ? & Hkeep).
  split; [done|]. split; [done|]. intros b Hb. by apply Hkeep, Hother.
Qed.

(** C17: Identity resolution unifies: whenever [resolveIdentity] succeeds
    (errors are passed on, and the caller's transaction rolls back), either no
    key of the event names a live profile, it answers "" and nothing has
    changed; or it answers one of the candidates, the least in the order the
    code sorts them by (the priority kept with the candidate, then the id),
    leaves that profile live, and every other profile that a key names has
    been merged into it and stripped of its identifiers.  The candidate keeps
    the priority of the first key, in byte order of the namespaces, that names
    the profile, not that of its best one: [stronger_key_loses]. *)
Theorem resolve_unifies event d w d' :
  wf d -> resolveIdentity event d = (Ok w, d') ->
  let p := ae_Principal event in
  let cs := candidates p (identityKeys event) [] d in
  (w = "" /\ d' = d /\ forall key, key ∈ identityKeys event -> find_candidate p key d = None) \/
  (exists c, c ∈ cs /\ cd_profileID c = w /\ forall c', c' ∈ cs -> better c' c = false) /\ lives p w d' /\
  forall key c, key ∈ identityKeys event -> find_candidate p key d = Some c -> cd_profileID c = w \/ gone w (cd_profileID c) d'.
Proof.
  intros Hw E p cs. unfold resolveIdentity, gets in E. unfold_M. fold p cs in E.
  pose proof (GoMap.sort_by_perm better cs) as Hp.
  pose proof (GoMap.sort_by_sorted better better_asym better_trans cs) as Hsort.
  destruct (GoMap.sort_by better cs) as [|win losers] eqn:Es.
  { left. injection E as <- <-. split; [done|]. split; [done|]. intros key Hk. destruct (find_candidate p key d) as [c|] eqn:Hf; [exfalso|done].
    assert (Hcs : cs = []) by by apply Permutation_nil.
    destruct (candidates_complete p (identityKeys event) [] d key c Hk Hf) as [H|H]; [by apply elem_of_nil in H|].
    fold cs in H. rewrite Hcs in H. by apply elem_of_nil in H. }
  right. destruct (iterM _ losers d) as [[[]|e] d1] eqn:El; [|discriminate]. injection E as <- <-.
  assert (Hin : forall c, c ∈ cs <-> c ∈ win :: losers) by (intros c; by rewrite Hp).
  assert (Hnd : NoDup (cd_profileID <$> win :: losers)) by (rewrite Hp; apply candidates_NoDup).
  apply NoDup_cons in Hnd as [Hwin _].
  assert (Hl : lives p (cd_profileID win) d).
  { pose proof (proj2 (Hin win) (list_elem_of_here _ _)) as Hc. apply candidates_elem in Hc as (key & _ & Hf).
    by apply (find_candidate_lives p key). }
  assert (Hall : lives p (cd_profileID win) d1 /\ forall c, c ∈ losers -> gone (cd_profileID win) (cd_profileID c) d1).
  { by apply (merge_losers event _ losers d). }
  destruct Hall as [Hl1 Hgone]. split; [|split; [done|]].
  - exists win. split; [apply Hin, list_elem_of_here|]. split; [done|]. intros c Hc. apply Hin in Hc.
    by apply (GoMap.sorted_head better better_asym win losers).
  - intros key c Hk Hf. destruct (candidates_complete p (identityKeys event) [] d key c Hk Hf) as [H|H]; [by apply elem_of_nil in H|].
    fold cs in H. apply list_elem_of_fmap in H as (c' & -> & Hc'). apply Hin in Hc'.
    apply elem_of_cons in Hc' as [->|Hc']; [by left | right; by apply Hgone].
Qed.

(** ** Every operation of the projector on identities *)

(** C18: Whatever an identity operation of the projector does, commit or error, the tables stay well formed (rows under their generated id, external and anonymous ids unique in an app, aliases, consents and merges naming existing profiles of their own app, an event's consents on one profile), and no profile disappears or changes app.  Of an inserted consent it is assumed that the rows its event has left already are on the same channel and topic ([own_consents]: an event has one payload); of the profile given to the typed operations, that it exists in the event's app. *)
Theorem identity_invariants event d :
  wf d ->
  safe (subject event) d /\ safe (unmergeProfile event) d /\
  forall id, has (p_TenantID (ae_Principal event)) (p_AppID (ae_Principal event)) id d ->
    safe (project_merge event id) d /\ (forall nv, safe (upsert_alias event id nv) d) /\
    forall channel topic state evidence, own_consents event channel topic d ->
      safe (insert_consent event id channel topic state evidence) d.
Proof.
  intros Hw. split; [by apply safe_subject|]. split; [by apply safe_unmergeProfile|]. intros id Hh.
  split; [by apply safe_project_merge|]. split; [intros; by apply safe_upsert_alias|]. intros. by apply safe_insert_consent.
Qed.

End IdentitySpec.

(** * Where identity resolution goes wrong

    Stitching an anonymous profile to a known one, the priority of namespaced
    keys, merges after retention, and undoing chained merges; with the
    witnesses of the theorems of IdentitySpec. *)

Module IdentityHazards.
Import Identity.
Import IdentitySpec.

(** Rows found by an identifier are the only ones that have it. *)
Lemma find_by_anonymous d p x i q :
  wf d -> id_profiles d !! i = Some q -> by_anonymous p x q = true ->
  forall f, (forall q', f q' = true -> by_anonymous p x q' = true) -> f q = true -> find_profile f d = Some q.
Proof.
  intros Hw Hi Hb f Hf Hfq. destruct (find_profile f d) as [q'|] eqn:E.
  - apply find_profile_Some in E as [[j Hj] Hf']. apply Hf in Hf'. pose proof (wf_unique d Hw i j q q' Hi Hj) as Hc.
    apply andb_prop in Hb as [[H1 H2]%andb_prop H3]. apply andb_prop in Hf' as [[H4 H5]%andb_prop H6].
    apply seqb_true in H1, H2, H4, H5. unfold conflict in Hc. rewrite H1, H2, H4, H5, !seqb_refl in Hc.
    destruct (pf_AnonymousID q) as [y|]; [|discriminate]. destruct (pf_AnonymousID q') as [y'|]; [|discriminate].
    simpl in H3, H6. apply seqb_true in H3, H6. subst y y'. simpl in Hc. rewrite seqb_refl, orb_true_r, !andb_true_r in Hc.
    apply negb_false_iff, seqb_true in Hc. destruct (wf_id d Hw i q Hi) as [E1 _]. destruct (wf_id d Hw j q' Hj) as [E2 _].
    congruence.
  - rewrite find_profile_None in E. by rewrite (E i q Hi) in Hfq.
Qed.

Lemma find_by_external d p x i q :
  wf d -> id_profiles d !! i = Some q -> by_external p x q = true -> find_profile (by_external p x) d = Some q.
Proof.
  intros Hw Hi Hb. destruct (find_profile _ d) as [q'|] eqn:E.
  - apply find_profile_Some in E as [[j Hj] Hf']. pose proof (wf_unique d Hw i j q q' Hi Hj) as Hc.
    apply andb_prop in Hb as [[H1 H2]%andb_prop H3]. apply andb_prop in Hf' as [[H4 H5]%andb_prop H6].
    apply seqb_true in H1, H2, H4, H5. unfold conflict in Hc. rewrite H1, H2, H4, H5, !seqb_refl in Hc.
    destruct (pf_ExternalID q) as [y|]; [|discriminate]. destruct (pf_ExternalID q') as [y'|]; [|discriminate].
    simpl in H3, H6. apply seqb_true in H3, H6. subst y y'. simpl in Hc. rewrite seqb_refl in Hc. simpl in Hc. rewrite !andb_true_r in Hc.
    apply negb_false_iff, seqb_true in Hc. destruct (wf_id d Hw i q Hi) as [E1 _]. destruct (wf_id d Hw j q' Hj) as [E2 _].
    congruence.
  - rewrite find_profile_None in E. by rewrite (E i q Hi) in Hb.
Qed.

Section stitching.
Context (event : AcceptedEvent) (d : IDB) (i j : string) (a e : Prof).
Let p := ae_Principal event.
Hypothesis (Hw : wf d).
Hypothesis (Hext : ae_ExternalID event <> "") (Hanon : ae_AnonymousID event <> "").
Hypothesis (Ha : id_profiles d !! i = Some a) (Hba : by_anonymous p (ae_AnonymousID event) a = true).
Hypothesis (Hlive : pf_MergedInto a = None).
Hypothesis (He : id_profiles d !! j = Some e) (Hbe : by_external p (ae_ExternalID event) e = true).
Hypothesis (Hij : i <> j).

Lemma ids_differ : (pf_ID e =s pf_ID a) = false.
Proof.
  apply seqb_false. destruct (wf_id d Hw i a Ha) as [-> _]. destruct (wf_id d Hw j e He) as [-> _]. congruence.
Qed.

Lemma ensure_stitches :
  ensureProfile event d = (_ ← stitch e a; mret (pf_ID e)) d.
Proof.
  unfold ensureProfile. rewrite (proj2 (seqb_false _ _) Hext), (proj2 (seqb_false _ _) Hanon).
  unfold gets. rewrite (bindM_eq _ _ d (Some a) d).
  2:{ f_equal. f_equal. apply (find_by_anonymous d p (ae_AnonymousID event) i); [done..| |].
      - intros q' H. by apply andb_prop in H as [H _].
      - unfold p in Hba. rewrite Hba. unfold is_live. by rewrite Hlive. }
  rewrite (bindM_eq _ _ d (Some e) d).
  2:{ f_equal. f_equal. by apply (find_by_external d p _ j). }
  by rewrite ids_differ.
Qed.

Lemma same_place : pf_TenantID e = pf_TenantID a /\ pf_AppID e = pf_AppID a.
Proof.
  apply andb_prop in Hba as [[H1 H2]%andb_prop _]. apply andb_prop in Hbe as [[H3 H4]%andb_prop _].
  apply seqb_true in H1, H2, H3, H4. split; congruence.
Qed.

Lemma anonymous_id : pf_AnonymousID a = Some (ae_AnonymousID event).
Proof.
  apply andb_prop in Hba as [_ H]. destruct (pf_AnonymousID a); [|discriminate]. simpl in H. apply seqb_true in H. by subst.
Qed.

End stitching.

(** An event that carries both a known profile's external id and a live anonymous profile's id cannot be projected when the known profile has no anonymous id yet: stitching copies the anonymous id to the known row while the anonymous row still holds it, which violates the unique index; nothing is written. *)
Theorem first_stitch_fails event d i j a e :
  wf d -> ae_ExternalID event <> "" -> ae_AnonymousID event <> "" ->
  id_profiles d !! i = Some a -> by_anonymous (ae_Principal event) (ae_AnonymousID event) a = true ->
  pf_MergedInto a = None ->
  id_profiles d !! j = Some e -> by_external (ae_Principal event) (ae_ExternalID event) e = true ->
  i <> j -> pf_AnonymousID e = None ->
  ensureProfile event d = (Err unique_violation, d).
Proof.
  intros Hw Hext Hanon Ha Hba Hlive He Hbe Hij Hno. rewrite (ensure_stitches event d i j a e); [|done..].
  destruct (same_place event a e Hba Hbe) as [Et Eapp]. pose proof (anonymous_id event a Hba) as Ex.
  unfold stitch, gets. unfold_M. rewrite Hno. simpl. rewrite (put_profile_fails _ d i a); [done | done |].
  unfold conflict, absorb. simpl. rewrite Et, Eapp, Ex, !seqb_refl. simpl.
  by rewrite (ids_differ d i j a e), seqb_refl, orb_true_r.
Qed.

Lemma tombstone_conflict into now q x :
  conflict q x = false -> conflict (tombstone into (pf_AnonymousID q) now q) x = false.
Proof.
  unfold conflict. cbn [pf_ID pf_TenantID pf_AppID pf_ExternalID pf_AnonymousID tombstone].
  intros [H|[_ H]%orb_false_iff]%andb_false_iff; rewrite H; [done | by rewrite andb_false_r].
Qed.

(** With a known profile that has an anonymous id, stitching commits. *)
Lemma stitch_ok event d i j a e y :
  wf d -> id_profiles d !! i = Some a -> by_anonymous (ae_Principal event) (ae_AnonymousID event) a = true ->
  id_profiles d !! j = Some e -> by_external (ae_Principal event) (ae_ExternalID event) e = true ->
  i <> j -> pf_AnonymousID e = Some y ->
  exists d1, stitch e a d = (Ok tt, d1) /\
    id_profiles d1 !! i = Some (tombstone (pf_ID e) (pf_AnonymousID a) (id_now d) a).
Proof.
  intros Hw Ha Hba He Hbe Hij Hy. destruct (wf_id d Hw i a Ha) as [Ei _]. destruct (wf_id d Hw j e He) as [Ej _].
  eexists. unfold stitch, gets, repoint_consents, repoint_aliases, modify. unfold_M. rewrite Hy. cbn [coalesce].
  rewrite put_profile_ok.
  2:{ intros k q Hk. rewrite (conflict_ext _ e) by done. by apply (wf_unique d Hw j k). }
  cbv beta iota. rewrite put_profile_ok; [split; [done|]; simpl; by rewrite Ei, lookup_insert_eq|].
  intros k q Hk. simpl in Hk. apply tombstone_conflict. apply lookup_insert_Some in Hk as [[_ <-]|[_ Hk]].
  - rewrite conflict_sym, (conflict_ext _ e) by done. by apply (wf_unique d Hw j i).
  - by apply (wf_unique d Hw i k).
Qed.

(** Once stitched, an anonymous profile keeps its anonymous id although it is merged away: every later event that carries only that id is projected onto the dead profile, never onto the known one. *)
Theorem stitched_id_captures event d i j a e y :
  wf d -> ae_ExternalID event <> "" -> ae_AnonymousID event <> "" ->
  id_profiles d !! i = Some a -> by_anonymous (ae_Principal event) (ae_AnonymousID event) a = true ->
  pf_MergedInto a = None ->
  id_profiles d !! j = Some e -> by_external (ae_Principal event) (ae_ExternalID event) e = true ->
  i <> j -> pf_AnonymousID e = Some y ->
  exists d1, ensureProfile event d = (Ok j, d1) /\
    (exists q, id_profiles d1 !! i = Some q /\ pf_MergedInto q = Some j) /\
    forall later, ae_Principal later = ae_Principal event -> ae_ExternalID later = "" ->
      ae_AnonymousID later = ae_AnonymousID event -> ensureProfile later d1 = (Ok i, d1).
Proof.
  intros Hw Hext Hanon Ha Hba Hlive He Hbe Hij Hy.
  destruct (wf_id d Hw i a Ha) as [Ei _]. destruct (wf_id d Hw j e He) as [Ej _].
  pose proof (safe_ensureProfile event d Hw) as [Hw1 _].
  rewrite (ensure_stitches event d i j a e) in Hw1 |- * by done.
  destruct (stitch_ok event d i j a e y) as (d1 & E & H1); [done..|].
  unfold mbind, M_bind in Hw1 |- *. rewrite E in Hw1 |- *. exists d1. simpl in Hw1. split; [by rewrite Ej|].
  split; [eexists; split; [done|]; simpl; by rewrite Ej|].
  intros later Hp Hx Hla. unfold ensureProfile. rewrite Hx, Hla, Hp. simpl. unfold upsert_anonymous, gets.
  rewrite (bindM_eq _ _ d1 (Some (tombstone (pf_ID e) (pf_AnonymousID a) (id_now d) a)) d1); [simpl; by rewrite Ei|].
  f_equal. f_equal. by apply (find_by_anonymous d1 (ae_Principal event) (ae_AnonymousID event) i _ Hw1 H1).
Qed.

Lemma scan_consent_null c : cr_SourceEventID c = None -> scan_consent c = Err scan_error.
Proof. unfold scan_consent. by intros ->. Qed.

(** Once retention has deleted the event of a consent, whose [source_event_id] becomes NULL, its profile can no longer be merged: the snapshot does not scan the row, and the event that needs the merge fails with nothing written. *)
Theorem retention_blocks_merge event s t S c d :
  s <> t -> id_profiles d !! s = Some S -> in_app (ae_Principal event) S = true ->
  c ∈ id_consents d -> consent_of (ae_Principal event) s c = true -> cr_SourceEventID c = None ->
  mergeProfiles event s t d = (Err scan_error, d).
Proof.
  intros Hne HS Ha Hc Ho Hn. unfold mergeProfiles. rewrite (proj2 (seqb_false _ _) Hne).
  unfold mbind, M_bind. replace (take_snapshot event s d) with (Err scan_error : result identityMergeSnapshot, d); [done|].
  unfold take_snapshot, gets, query. unfold_M. rewrite HS, Ha.
  assert (Hx : c ∈ GoMap.sort_by consent_less (filter (fun c => consent_of (ae_Principal event) s c = true) (id_consents d))).
  { rewrite GoMap.sort_by_perm. by apply list_elem_of_filter. }
  unfold snap_consents. revert Hx. generalize (GoMap.sort_by consent_less
    (filter (fun c => consent_of (ae_Principal event) s c = true) (id_consents d))) as l.
  intros l Hx. replace (mapM_result scan_consent l) with (Err scan_error : result (list SnapConsent)); [done|].
  induction l as [|x l IH]; [by apply elem_of_nil in Hx|]. simpl.
  apply elem_of_cons in Hx as [<-|Hx]; [by rewrite (scan_consent_null c Hn)|].
  destruct (scan_consent x) as [y|e] eqn:E; [simpl; by rewrite <- IH|]. unfold scan_consent in E.
  destruct (cr_SourceEventID x); [discriminate|]. by injection E as <-.
Qed.

(** ** Concrete tables *)

Definition demo_principal : Principal := MkPrincipal "tenant" "workspace" "app" "" "" "" [].
Definition demo_event (id type ext anon : string) (payload : json) : AcceptedEvent :=
  MkAcceptedEvent id demo_principal type 1 ext anon id 100 100 "api" "" "" "" "" "internal" (Raw (JObject [])) (Raw payload).
Definition demo_empty : IDB :=
  MkIDB ∅ [] ∅ (list_to_map [(("tenant", "app", "user_id"), 10); (("tenant", "app", "email"), 20); (("tenant", "app", "phone"), 30)])
    [] (Some ∅) ∅ 1000.

Lemma demo_empty_wf : wf demo_empty.
Proof. constructor; simpl; try (intros; by simplify_map_eq); intros *; try by intros ?%elem_of_nil. Qed.

Definition run {A} (m : I A) (d : IDB) : IDB := (m d).2.
Definition value (m : I string) (d : IDB) : string := match (m d).1 with Ok s => s | Err _ => "" end.
Definition no_payload : json := JObject [].

(** Two known profiles; the first also has an alias by phone, the second by
    email. *)
Definition demo_u1 := value (ensureProfile (demo_event "e1" "x" "u1" "" no_payload)) demo_empty.
Definition demo_d1 := run (ensureProfile (demo_event "e1" "x" "u1" "" no_payload)) demo_empty.
Definition demo_u2 := value (ensureProfile (demo_event "e2" "x" "u2" "b2" no_payload)) demo_d1.
Definition demo_d2 := run (ensureProfile (demo_event "e2" "x" "u2" "b2" no_payload)) demo_d1.
(** Aliases for both: a phone and the user id for the first, an email for the
    second; a consent of the first. *)
Definition alias_ops : list (string * (string * string)) :=
  [(demo_u1, ("user_id", "u1")); (demo_u1, ("phone", "555")); (demo_u2, ("email", "Ada@Example.test"))].
Definition demo_d3 := run (iterM (fun x => upsert_alias (demo_event "e3" "identity.alias" "u1" "" no_payload) x.1 x.2) alias_ops) demo_d2.
Definition demo_d := run (insert_consent (demo_event "e4" "consent.changed" "u1" "" no_payload) demo_u1 "email" "marketing" "subscribed" JNull) demo_d3.

Lemma demo_d2_wf : wf demo_d2.
Proof. apply safe_ensureProfile, safe_ensureProfile, demo_empty_wf. Qed.

Lemma demo_has i q d : id_profiles d !! i = Some q -> in_app demo_principal q = true -> has "tenant" "app" i d.
Proof. apply (in_app_has demo_principal). Qed.

Lemma demo_d3_wf : wf demo_d3 /\ grows demo_d2 demo_d3.
Proof.
  apply safe_iterM; [apply demo_d2_wf|]. intros x d' Hx Hw [Hg _]. apply safe_upsert_alias; [done|]. apply Hg.
  assert (Hu : has "tenant" "app" demo_u1 demo_d2 /\ has "tenant" "app" demo_u2 demo_d2).
  { split; eexists; (split; [vm_compute; reflexivity|]); by split. }
  destruct Hu as [H1 H2]. unfold alias_ops in Hx. rewrite !elem_of_cons in Hx. by destruct Hx as [->|[->|[->|[]%elem_of_nil]]].
Qed.

Lemma demo_d_wf : wf demo_d.
Proof.
  apply safe_insert_consent; [apply demo_d3_wf | | by intros c Hc%elem_of_nil].
  eexists. split; [vm_compute; reflexivity|]. by split.
Qed.

(** The first profile's external id, the first's phone and the second's email. *)
Definition mixed_event : AcceptedEvent :=
  demo_event "e5" "profile.updated" "u1" "" (JObject [("phone", JString "555"); ("email", JString "ada@example.test")]).

(** Resolution remembers, for each profile, the first key that named it in byte order of the namespaces, not its best one: with the default priorities (user_id 10, email 20, phone 30) an event of user u1 that carries u1's phone and another profile's email merges u1 into the other profile, although u1's own user_id is the strongest key. *)
Theorem stronger_key_loses :
  exists event d d' c w,
    wf d /\ ("user_id", ae_ExternalID event) ∈ identityKeys event /\
    find_candidate (ae_Principal event) ("user_id", ae_ExternalID event) d = Some c /\
    (forall key c', key ∈ identityKeys event -> find_candidate (ae_Principal event) key d = Some c' -> c' <> c -> cd_priority c < cd_priority c') /\
    resolveIdentity event d = (Ok w, d') /\ w <> cd_profileID c /\ gone w (cd_profileID c) d'.
Proof.
  exists mixed_event, demo_d, (run (resolveIdentity mixed_event) demo_d), (MkCandidate demo_u1 10 "user_id"), demo_u2.
  split; [apply demo_d_wf|].
  assert (Hk : identityKeys mixed_event = [("email", "ada@example.test"); ("phone", "555"); ("user_id", "u1")]) by (vm_compute; reflexivity).
  split; [rewrite Hk; apply list_elem_of_further, list_elem_of_further, list_elem_of_here|]. split; [vm_compute; reflexivity|]. split.
  - intros key c' Hin. rewrite Hk in Hin. rewrite !elem_of_cons in Hin. destruct Hin as [->|[->|[->|[]%elem_of_nil]]]; vm_compute;
      intros E Hne; injection E as <-; [reflexivity | reflexivity | by destruct Hne].
  - split; [vm_compute; reflexivity|]. split; [vm_compute; discriminate|]. eexists. split; [vm_compute; reflexivity|]. split; [vm_compute; reflexivity|]. split; vm_compute; reflexivity.
Qed.

(** Merging 1 into 2, 2 into 3, then undoing both in the same order: the
    consent of 1 ends up with 2. *)
Definition merge_event (id : string) : AcceptedEvent := demo_event id "identity.merge" "u2" "" no_payload.
Definition unmerge_event (id source : string) : AcceptedEvent :=
  demo_event id "identity.unmerge" "u2" "" (JObject [("source_profile_id", JString source)]).
Definition demo_u3 := value (ensureProfile (demo_event "e6" "x" "u3" "" no_payload)) demo_d.
Definition chain_d := run (ensureProfile (demo_event "e6" "x" "u3" "" no_payload)) demo_d.
Definition chain_run : I unit :=
  _ ← mergeProfiles (merge_event "m1") demo_u1 demo_u2;
  _ ← mergeProfiles (merge_event "m2") demo_u2 demo_u3;
  _ ← unmergeProfile (unmerge_event "n1" demo_u1);
  unmergeProfile (unmerge_event "n2" demo_u2).

Lemma chained_unmerge_moves_consents :
  (chain_run chain_d).1 = Ok tt /\
  (forall i q, id_profiles (run chain_run chain_d) !! i = Some q -> pf_MergedInto q = None) /\
  cr_ProfileID <$> id_consents chain_d = [demo_u1] /\
  cr_ProfileID <$> id_consents (run chain_run chain_d) = [demo_u2].
Proof.
  split; [vm_compute; reflexivity|]. split; [|split; vm_compute; reflexivity].
  apply (map_Forall_to_list (fun _ q => pf_MergedInto q = None)). vm_compute. repeat constructor.
Qed.

(** ** Witnesses *)

(** An equation between closed terms. *)
Ltac eqc := vm_compute; reflexivity.

Definition prof_of (i : string) (d : IDB) : Prof := default (MkProf "" "" "" "" None None ∅ 0 None 0 0) (id_profiles d !! i).
Definition merged_d := run (mergeProfiles (merge_event "m1") demo_u1 demo_u2) demo_d.

Lemma unmerge_restores_witness :
  id_profiles demo_d !! demo_u1 = Some (prof_of demo_u1 demo_d) /\
  exists d2, unmergeProfile (unmerge_event "n1" demo_u1) merged_d = (Ok tt, d2) /\ id_aliases d2 = id_aliases demo_d.
Proof.
  split; [vm_compute; reflexivity|].
  destruct (unmerge_restores (merge_event "m1") (unmerge_event "n1" demo_u1) demo_u1 demo_u2 (prof_of demo_u1 demo_d)
    (prof_of demo_u2 demo_d) demo_d merged_d) as (d2 & E & _ & _ & Ha & _);
    [apply demo_d_wf | vm_compute; discriminate | eqc | eqc | eqc | eqc | by intros m Hm%elem_of_nil | eqc | reflexivity | eqc |].
  exists d2. exact (conj E Ha).
Defined.

Lemma resolve_unifies_witness :
  resolveIdentity mixed_event demo_d = (Ok demo_u2, run (resolveIdentity mixed_event) demo_d) /\
  lives demo_principal demo_u2 (run (resolveIdentity mixed_event) demo_d).
Proof.
  assert (E : resolveIdentity mixed_event demo_d = (Ok demo_u2, run (resolveIdentity mixed_event) demo_d)) by (vm_compute; reflexivity).
  split; [exact E|]. destruct (resolve_unifies _ _ _ _ demo_d_wf E) as [(H & _)|(_ & H & _)]; [vm_compute in H; discriminate | exact H].
Defined.

Lemma identity_invariants_witness : wf demo_d /\ safe (subject mixed_event) demo_d.
Proof. split; [apply demo_d_wf | apply (identity_invariants mixed_event demo_d), demo_d_wf]. Defined.

(** An anonymous browser, then the known profile of the same person. *)
Definition anon_d := run (ensureProfile (demo_event "e7" "x" "" "b1" no_payload)) demo_d.
Definition anon_id := value (ensureProfile (demo_event "e7" "x" "" "b1" no_payload)) demo_d.
Lemma anon_d_wf : wf anon_d.
Proof. apply safe_ensureProfile, demo_d_wf. Qed.

Lemma first_stitch_fails_witness :
  ensureProfile (demo_event "e8" "x" "u1" "b1" no_payload) anon_d = (Err unique_violation, anon_d).
Proof.
  apply (first_stitch_fails _ _ anon_id demo_u1 (prof_of anon_id anon_d) (prof_of demo_u1 anon_d) anon_d_wf);
    [discriminate | discriminate | eqc | eqc | eqc | eqc | eqc | vm_compute; discriminate | eqc].
Defined.

Lemma stitched_id_captures_witness :
  exists d1, ensureProfile (demo_event "e8" "x" "u2" "b1" no_payload) anon_d = (Ok demo_u2, d1) /\
    ensureProfile (demo_event "e9" "x" "" "b1" no_payload) d1 = (Ok anon_id, d1).
Proof.
  destruct (stitched_id_captures (demo_event "e8" "x" "u2" "b1" no_payload) anon_d anon_id demo_u2 (prof_of anon_id anon_d)
    (prof_of demo_u2 anon_d) "b2" anon_d_wf) as (d1 & E & _ & Hl);
    [discriminate | discriminate | eqc | eqc | eqc | eqc | eqc | vm_compute; discriminate | eqc |].
  exists d1. exact (conj E (Hl (demo_event "e9" "x" "" "b1" no_payload) eq_refl eq_refl eq_refl)).
Defined.

Definition retained_d : IDB :=
  set_consents ((fun c => MkConsentRow (cr_TenantID c) (cr_WorkspaceID c) (cr_AppID c) (cr_ProfileID c) None
    (cr_Channel c) (cr_Topic c) (cr_State c) (cr_OccurredAt c) (cr_Evidence c) (cr_CreatedAt c)) <$> id_consents demo_d) demo_d.
Lemma retention_blocks_merge_witness :
  mergeProfiles (merge_event "m1") demo_u1 demo_u2 retained_d = (Err scan_error, retained_d).
Proof.
  apply (retention_blocks_merge _ _ _ (prof_of demo_u1 demo_d)
    (MkConsentRow "tenant" "workspace" "app" demo_u1 None "email" "marketing" "subscribed" 100 JNull 1000));
    [vm_compute; discriminate | eqc | eqc | apply list_elem_of_here | eqc | eqc].
Defined.

End IdentityHazards.
