(* ===== verification/Segments.v ===== *)
(** * Segments (src/internal/postgres/segments.go, journey_runtime.go;
    src/internal/audience/evaluate.go)

    The two ways of deciding who is in a segment: [Matches], one profile at a
    time, for journeys; and [resolveSegmentIDs], by sets of ids, for campaigns
    and previews.  The meaning of an SQL expression is its three-valued
    evaluation on a profile's row. *)

From Stdlib Require Import Ascii.
From S2P Require Import Prelude.
From S2P Require Import GoStd.
From S2P Require Import GoMap.
From S2P Require Import GoFloat.
From S2P Require Import Sha256.
From S2P Require Import Domain.
From S2P Require Import Store.
From S2P Require Import AuditLog.
From S2P Require Import Identity.
From S2P Require Import Audience.

Module Segments.
Import Audience.

(** ** Tables *)

(** The value of a score is the float64 that scoring wrote. *)
Record ScoreRow : Type := MkScoreRow {
  sr_TenantID : string; sr_WorkspaceID : string; sr_ProfileID : string; sr_ModelID : string; sr_Name : string; sr_Value : Float.float64
}.
(** A row of the ClickHouse table [behavior_events]. *)
Record BehaviorEvent : Type := MkBehaviorEvent {
  be_TenantID : string; be_WorkspaceID : string; be_AppID : string; be_EventType : string; be_OccurredAt : Z; be_SubjectHash : string
}.
Record CompanyRow : Type := MkCompanyRow { cw_ID : string; cw_TenantID : string; cw_WorkspaceID : string; cw_Attributes : gmap string json }.
Record CompanyMember : Type := MkCompanyMember { cm_TenantID : string; cm_CompanyID : string; cm_ProfileID : string }.
(** The columns of a segment the code below uses. *)
Record Segment : Type := MkSegment {
  sg_ID : string; sg_TenantID : string; sg_WorkspaceID : string; sg_Name : string; sg_Description : string; sg_Type : string;
  sg_Status : string; sg_DSL : RawMessage; sg_Version : Z
}.
Record SegmentMember : Type := MkSegmentMember { gm_ProfileID : string; gm_Membership : string }.

(** [sd_members] are keyed by segment and profile; [sd_events] is [None] when
    no ClickHouse connection is set. *)
Record SDB : Type := MkSDB {
  sd_profiles : gmap string Identity.Prof;
  sd_consents : list Identity.ConsentRow;
  sd_scores : list ScoreRow;
  sd_companies : list CompanyRow;
  sd_companyMembers : list CompanyMember;
  sd_events : option (list BehaviorEvent);
  sd_segments : gmap string Segment;
  sd_members : gmap (string * string) (string * string);
  sd_audit : Audit.ADB;
  sd_used : gset string;
  sd_now : Z
}.
Definition set_segments v d := MkSDB (sd_profiles d) (sd_consents d) (sd_scores d) (sd_companies d) (sd_companyMembers d) (sd_events d) v
  (sd_members d) (sd_audit d) (sd_used d) (sd_now d).
Definition set_members v d := MkSDB (sd_profiles d) (sd_consents d) (sd_scores d) (sd_companies d) (sd_companyMembers d) (sd_events d)
  (sd_segments d) v (sd_audit d) (sd_used d) (sd_now d).
Definition set_audit v d := MkSDB (sd_profiles d) (sd_consents d) (sd_scores d) (sd_companies d) (sd_companyMembers d) (sd_events d)
  (sd_segments d) (sd_members d) v (sd_used d) (sd_now d).
Definition set_used v d := MkSDB (sd_profiles d) (sd_consents d) (sd_scores d) (sd_companies d) (sd_companyMembers d) (sd_events d)
  (sd_segments d) (sd_members d) (sd_audit d) v (sd_now d).

(** ** The driver and the database

    How an argument reaches the server: as a text, as a UUID in its canonical
    text, as a text array, as a numeric; the cast of a text to numeric; the order of numerics.  [None] is
    an error. *)
Class Driver := {
  numeric : Type;
  text_arg : any -> option string;
  uuid_arg : any -> option string;
  array_arg : any -> option (list string);
  numeric_arg : any -> option numeric;
  cast_numeric : string -> option numeric;
  numeric_lt : numeric -> numeric -> bool
}.

(** [LIKE]: [%] any text, [_] any character, a backslash the next one itself. *)
Fixpoint like (p : string) (s : string) {struct p} : bool :=
  match p with
  | EmptyString => match s with EmptyString => true | _ => false end
  | String c p' =>
      if bool_decide (c = "%"%char) then
        (fix any (s : string) : bool := like p' s || match s with EmptyString => false | String _ s' => any s' end) s
      else if bool_decide (c = "_"%char) then match s with String _ s' => like p' s' | EmptyString => false end
      else if bool_decide (c = "\"%char) then
        match p' with
        | String e p'' => match s with String x s' => bool_decide (x = e) && like p'' s' | EmptyString => false end
        | EmptyString => false
        end
      else match s with String x s' => bool_decide (x = c) && like p' s' | EmptyString => false end
  end.

Section db.
Context `{Driver}.

Definition sql_error : error := errors_New "ERROR: cannot evaluate expression".

(** A truth value: [None] is NULL. *)
Definition tri : Type := option bool.
Definition tri_and (a b : tri) : tri :=
  match a, b with Some false, _ => Some false | _, Some false => Some false | Some true, Some true => Some true | _, _ => None end.
Definition tri_or (a b : tri) : tri :=
  match a, b with Some true, _ => Some true | _, Some true => Some true | Some false, Some false => Some false | _, _ => None end.

(** [attributes->>'field']. *)
Definition json_text (j : json) : option string :=
  match j with
  | JNull => None
  | JBool b => Some (if b then "true" else "false")
  | JNumber lit => Some lit
  | JString s => Some s
  | _ => Some (Audit.jsonb_text j)
  end.
Definition attribute (field : string) (attrs : gmap string json) : option string := attrs !! field ≫= json_text.

Definition arg (args : list any) (n : Z) : result any :=
  match args !! Z.to_nat (n - 3) with Some v => Ok v | None => Err sql_error end.
Definition need {A} (o : option A) : result A := match o with Some a => Ok a | None => Err sql_error end.

(** One comparison of an attribute with the argument [v]. *)
Definition compare (c : comparison) (v : any) (x : option string) : result tri :=
  match c with
  | CEquals => t ← need (text_arg v); Ok ((fun s => s =s t) <$> x)
  | CContains => t ← need (text_arg v); Ok (like ("%" +:+ t +:+ "%") <$> x)
  | CIn => l ← need (array_arg v); Ok ((fun s => mem s l) <$> x)
  | CGreater => t ← need (numeric_arg v);
                match x with None => Ok None | Some s => n ← need (cast_numeric s); Ok (Some (numeric_lt t n)) end
  | CLess => t ← need (numeric_arg v);
             match x with None => Ok None | Some s => n ← need (cast_numeric s); Ok (Some (numeric_lt n t)) end
  end.

(** Latest first; NULLs and ties keep the table's order. *)
Definition newer (a b : Identity.ConsentRow) : bool := Identity.cr_OccurredAt b <? Identity.cr_OccurredAt a.
Definition latest_state (tenant app profile channel topic : string) (d : SDB) : option string :=
  Identity.cr_State <$> head (GoMap.sort_by newer
    (filter (fun c => (Identity.cr_TenantID c =s tenant) && (Identity.cr_AppID c =s app) && (Identity.cr_ProfileID c =s profile) &&
                      (Identity.cr_Channel c =s channel) && (Identity.cr_Topic c =s topic) = true) (sd_consents d))).
Definition in_state (o : option string) (s : string) : bool := match o with Some x => x =s s | None => false end.

Definition score_holds (op : string) (value : Float.float64) (v : Float.float64) : bool :=
  if op =s ">" then Float.ltb v value else if op =s "<" then Float.ltb value v else Float.eqb value v.

(** An expression on a profile's row, for the tenant and workspace of $1, $2. *)
Fixpoint eval_sql (tenant workspace : string) (args : list any) (d : SDB) (q : Identity.Prof) (e : sexpr) : result tri :=
  let all (op : tri -> tri -> tri) (unit : tri) (l : list sexpr) : result tri :=
    (fix go (l : list sexpr) : result tri :=
       match l with
       | [] => Ok unit
       | e :: l' => a ← eval_sql tenant workspace args d q e; b ← go l'; Ok (op a b)
       end) l in
  match e with
  | SAll l => all tri_and (Some true) l
  | SAny l => all tri_or (Some false) l
  | SNot e => a ← eval_sql tenant workspace args d q e; Ok (option_map negb a)
  | SAttribute c field n => v ← arg args n; compare c v (attribute field (Identity.pf_Attributes q))
  | SConsent c t s =>
      c ← (v ← arg args c; need (text_arg v)); t ← (v ← arg args t; need (text_arg v)); s ← (v ← arg args s; need (text_arg v));
      Ok (Some (in_state (latest_state (Identity.pf_TenantID q) (Identity.pf_AppID q) (Identity.pf_ID q) c t d) s))
  | SScore op m n v =>
      m ← (v ← arg args m; need (uuid_arg v)); n ← (v ← arg args n; need (text_arg v)); v ← arg args v;
      match v with
      | AFloat f =>
          Ok (Some (existsb (fun r => (sr_TenantID r =s tenant) && (sr_WorkspaceID r =s workspace) && (sr_ProfileID r =s Identity.pf_ID q) &&
                                      (sr_ModelID r =s m) && (sr_Name r =s n) && score_holds op (sr_Value r) f) (sd_scores d)))
      | _ => Err sql_error
      end
  | SCompany c field n =>
      v ← arg args n;
      rows ← mapM_result (fun r => compare c v (attribute field (cw_Attributes r)))
               (filter (fun r => (cw_TenantID r =s tenant) && (cw_WorkspaceID r =s workspace) &&
                          existsb (fun m => (cm_TenantID m =s tenant) && (cm_CompanyID m =s cw_ID r) && (cm_ProfileID m =s Identity.pf_ID q))
                            (sd_companyMembers d) = true) (sd_companies d));
      Ok (Some (existsb (fun t => match t with Some true => true | _ => false end) rows))
  end.
Definition eval_opt (tenant workspace : string) (args : list any) (d : SDB) (q : Identity.Prof) (e : option sexpr) : result tri :=
  match e with Some e => eval_sql tenant workspace args d q e | None => Ok (Some true) end.

(** ** One profile (evaluate.go) *)

Definition in_workspace (tenant workspace : string) (q : Identity.Prof) : bool :=
  (Identity.pf_TenantID q =s tenant) && (Identity.pf_WorkspaceID q =s workspace).

(** [QueryProfileMatches] of [CompileProfileSingle]: the row of $3. *)
Definition single (tenant workspace profileID : string) (d : SDB) (node : Node) : result bool :=
  match compileProfileNode node [] with
  | (Err e, _) => Err e
  | (Ok expr, args) =>
      match sd_profiles d !! profileID with
      | Some q =>
          if in_workspace tenant workspace q then
            t ← eval_opt tenant workspace args d q expr; Ok (match t with Some true => true | _ => false end)
          else Ok false
      | None => Ok false
      end
  end.

Definition GetProfileExternalID (tenant workspace profileID : string) (d : SDB) : string :=
  match sd_profiles d !! profileID with
  | Some q => if in_workspace tenant workspace q then default "" (Identity.pf_ExternalID q) else ""
  | None => ""
  end.
Definition subject_hash (ext : string) : string := Sha256.hex (Sha256.Sum256 ext).

Definition min_count (n : Z) : Z := if n <=? 0 then 1 else n.
Definition Day : Z := 24 * Time.Hour.
(** The rows of a behaviour query: of the tenant and event type, in the
    window. *)
Definition recent (tenant eventType : string) (days : Z) (d : SDB) (e : BehaviorEvent) : bool :=
  (be_TenantID e =s tenant) && (be_EventType e =s eventType) && (sd_now d - days * Day <=? be_OccurredAt e).
(** [CompileClickHouseSingle]: grouped by the one hash, so no row is no
    group. *)
Definition clickhouse_single (tenant workspace app eventType : string) (days minCount : Z) (hash : string) (d : SDB) : result bool :=
  match sd_events d with
  | None => Err (errors_New "ClickHouse connection not available")
  | Some es =>
      let n := countb (fun e => recent tenant eventType days d e && (be_WorkspaceID e =s workspace) && (be_AppID e =s app) &&
                                (be_SubjectHash e =s hash)) es in
      Ok ((0 <? n) && (min_count minCount <=? n))
  end.

Definition unknown_node : error := errors_New "unknown AST node type".

Section Matches.
Context (tenant workspace app profileID : string) (d : SDB).

Fixpoint Matches (node : Node) : result bool :=
  match node with
  | And l =>
      (fix go (l : list Node) : result bool :=
         match l with [] => Ok true | c :: l' => m ← Matches c; if m : bool then go l' else Ok false end) l
  | Or l =>
      (fix go (l : list Node) : result bool :=
         match l with [] => Ok false | c :: l' => m ← Matches c; if m : bool then Ok true else go l' end) l
  | Not c => m ← Matches c; Ok (negb m)
  | ProfileAttribute _ _ _ => single tenant workspace profileID d node
  | Score _ _ _ _ => single tenant workspace profileID d node
  | Consent c t s => Ok (in_state (latest_state tenant app profileID c t d) s)
  | EventHistory eventType op days minCount =>
      let ext := GetProfileExternalID tenant workspace profileID d in
      if ext =s "" then Ok (op =s "has_not_occurred")
      else m ← clickhouse_single tenant workspace app eventType days minCount (subject_hash ext) d;
           Ok (if op =s "has_not_occurred" then negb m else m)
  | Company _ _ _ => Err unknown_node
  end.
End Matches.

Definition no_dsl (r : RawMessage) : bool := raw_len0 r || raw_is_empty_object r || raw_is_null r.
Definition EvaluateAudience (p : Principal) (profileID : string) (dsl : RawMessage) (d : SDB) : result bool :=
  if no_dsl dsl then Ok true else
  node ← wrapw "parse audience dsl: %w" (Parse dsl);
  Matches (p_TenantID p) (p_WorkspaceID p) (p_AppID p) profileID d node.

Definition GetSegment (p : Principal) (id : string) (d : SDB) : result Segment :=
  match sd_segments d !! id with
  | Some s => if (sg_TenantID s =s p_TenantID p) && (sg_WorkspaceID s =s p_WorkspaceID p) then Ok s else Err ErrNotFound
  | None => Err ErrNotFound
  end.
(** A membership row is keyed by segment and profile and holds its tenant. *)
Definition membership (tenant segmentID profileID : string) (d : SDB) : option string :=
  match sd_members d !! (segmentID, profileID) with
  | Some (t, m) => if t =s tenant then Some m else None
  | None => None
  end.
Definition overridden (m : option string) (matched : bool) : bool :=
  match m with
  | Some s => if s =s "include" then true else if s =s "exclude" then false else matched
  | None => matched
  end.
Definition IsProfileInSegment (p : Principal) (segmentID profileID : string) (d : SDB) : result bool :=
  seg ← GetSegment p segmentID d;
  matched ← (if no_dsl (sg_DSL seg) then Ok false else EvaluateAudience p profileID (sg_DSL seg) d);
  Ok (overridden (membership (p_TenantID p) segmentID profileID d) matched).

(** ** By sets (segments.go) *)

Definition scan_error : error := errors_New "cannot scan NULL into *string".

(** The keyset pagination of the profiles: pages of the rows after an id, in
    the order of the ids, until one is short. *)
Definition less_id (a b : Identity.Prof) : bool := GoMap.str_less (Identity.pf_ID a) (Identity.pf_ID b).
Definition after (lastProfileID : option string) (q : Identity.Prof) : bool :=
  match lastProfileID with Some id => GoMap.str_less id (Identity.pf_ID q) | None => true end.
Definition page (size : nat) (lastProfileID : option string) (rows : list Identity.Prof) : list Identity.Prof :=
  take size (GoMap.sort_by less_id (filter (fun q => after lastProfileID q = true) rows)).
Fixpoint pages (fuel size : nat) (lastProfileID : option string) (rows : list Identity.Prof) : list Identity.Prof :=
  match fuel with
  | O => []
  | S fuel' =>
      let pg := page size lastProfileID rows in
      if (length pg <? size)%nat then pg else pg ++ pages fuel' size (Identity.pf_ID <$> last pg) rows
  end.
Definition profileResolutionPageSize : nat := 1000.
Definition workspace_rows (p : Principal) (d : SDB) : list Identity.Prof :=
  filter (fun q => in_workspace (p_TenantID p) (p_WorkspaceID p) q = true) (map_to_list (sd_profiles d)).*2.
Definition workspace_profiles (p : Principal) (d : SDB) : list Identity.Prof :=
  pages (S (length (workspace_rows p d))) profileResolutionPageSize None (workspace_rows p d).
(** The maps the loop builds: the last profile of an external id, or of a hash,
    wins. *)
Definition ext_of (q : Identity.Prof) : string := default "" (Identity.pf_ExternalID q).
Definition by_key (key : string -> string) (l : list Identity.Prof) : gmap string string :=
  fold_left (fun m q => if ext_of q =s "" then m else <[key (ext_of q) := Identity.pf_ID q]> m) l ∅.
Definition allProfileIDs (l : list Identity.Prof) : gset string := list_to_set (Identity.pf_ID <$> l).

(** The rows of a [CompileProfile] query as the loop scans them: it ends
    silently at the first row the server cannot evaluate, and fails on a NULL
    external id. *)
Fixpoint scan_rows (tenant workspace : string) (args : list any) (expr : option sexpr) (ids : gmap string string) (d : SDB)
    (rows : list Identity.Prof) (acc : gset string) : result (gset string) :=
  match rows with
  | [] => Ok acc
  | q :: rows' =>
      match eval_opt tenant workspace args d q expr with
      | Err _ => Ok acc
      | Ok (Some true) =>
          match Identity.pf_ExternalID q with
          | None => Err scan_error
          | Some ext => scan_rows tenant workspace args expr ids d rows' (match ids !! ext with Some id => {[id]} ∪ acc | None => acc end)
          end
      | Ok _ => scan_rows tenant workspace args expr ids d rows' acc
      end
  end.

(** Whether the server accepts the arguments of a query at all. *)
Definition encodes (args : list any) (e : option sexpr) : bool :=
  match e with
  | Some (SAttribute c _ n) =>
      match args !! Z.to_nat (n - 3) with
      | Some v => match c with
                  | CEquals | CContains => bool_decide (is_Some (text_arg v))
                  | CIn => bool_decide (is_Some (array_arg v))
                  | CGreater | CLess => match numeric_arg v with Some _ => true | None => false end
                  end
      | None => false
      end
  | Some (SScore _ m _ _) => match args !! Z.to_nat (m - 3) with Some v => bool_decide (is_Some (uuid_arg v)) | None => false end
  | _ => true
  end.

Section resolve.
Context (p : Principal) (d : SDB).

(** [perLegCounts]. *)
Abbreviation counts := (gmap string Z).
Definition count_leg (leg : string) (s : gset string) : M counts (gset string) := fun m =>
  (Ok s, <[leg := default 0 (m !! leg) + Z.of_nat (size s)]> m).

Definition profiles : list Identity.Prof := workspace_profiles p d.
Definition leg_query (leg : string) (node : Node) : M counts (gset string) :=
  match compileProfileNode node [] with
  | (Err e, _) => throw e
  | (Ok expr, args) =>
      if negb (encodes args expr) then throw sql_error else
      s ← lift (scan_rows (p_TenantID p) (p_WorkspaceID p) args expr (by_key (fun x => x) profiles) d
                  (workspace_rows p d) ∅);
      count_leg leg s
  end.

(** [CompileConsent]: the profiles of the tenant and app whose latest consent
    has the state. *)
Definition consenting (channel topic state : string) : gset string :=
  list_to_set (filter (fun id => in_state (latest_state (p_TenantID p) (p_AppID p) id channel topic d) state = true)
                 (Identity.cr_ProfileID <$> sd_consents d)).
(** [CompileClickHouse]: the hashes with enough rows, of any workspace and
    app. *)
Definition active_hashes (eventType : string) (days minCount : Z) (es : list BehaviorEvent) : list string :=
  filter (fun h => min_count minCount <=? countb (fun e => recent (p_TenantID p) eventType days d e && (be_SubjectHash e =s h)) es = true)
    (be_SubjectHash <$> filter (fun e => recent (p_TenantID p) eventType days d e = true) es).

Definition resolve_events (eventType op : string) (days minCount : Z) : M counts (gset string) :=
  match sd_events d with
  | None => throw (errors_New "ClickHouse connection not available for event-history evaluation")
  | Some es =>
      let hashes := by_key subject_hash profiles in
      let s : gset string := list_to_set (omap (fun h => hashes !! h) (active_hashes eventType days minCount es)) in
      count_leg "event_history" (if op =s "has_not_occurred" then allProfileIDs profiles ∖ s else s)
  end.

Fixpoint resolve (node : Node) : M counts (gset string) :=
  match node with
  | And l =>
      (fix go (l : list Node) (res : option (gset string)) : M counts (gset string) :=
         match l with
         | [] => mret (default ∅ res)
         | c :: l' => s ← resolve c; go l' (Some (match res with None => s | Some r => r ∩ s end))
         end) l None
  | Or l =>
      (fix go (l : list Node) (res : gset string) : M counts (gset string) :=
         match l with
         | [] => mret res
         | c :: l' => s ← resolve c; go l' (res ∪ s)
         end) l ∅
  | Not c => s ← resolve c; mret (allProfileIDs profiles ∖ s)
  | ProfileAttribute _ _ _ => leg_query "profile_attributes" node
  | Score _ _ _ _ => leg_query "scores" node
  | Consent c t s => count_leg "consent" (consenting c t s ∩ allProfileIDs profiles)
  | EventHistory eventType op days minCount => resolve_events eventType op days minCount
  | Company _ _ _ => throw unknown_node
  end.

(** The override rows, in some order; a pair is stored once, so the order
    does not matter. *)
Definition apply_member (segmentID : string) (s : gset string) (kv : (string * string) * (string * string)) : gset string :=
  let '((sid, pid), (t, m)) := kv in
  if (t =s p_TenantID p) && (sid =s segmentID) && bool_decide (pid ∈ allProfileIDs profiles) then
    if m =s "exclude" then s ∖ {[pid]} else if m =s "include" then {[pid]} ∪ s else s
  else s.

Definition resolveSegmentIDs (seg : Segment) : result (gset string * counts) :=
  eligible ← (if no_dsl (sg_DSL seg) then Ok (∅, ∅)
              else node ← Parse (sg_DSL seg);
                   match resolve node ∅ with (Ok s, m) => Ok (s, m) | (Err e, _) => Err e end);
  Ok (fold_left (apply_member (sg_ID seg)) (map_to_list (sd_members d)) eligible.1, eligible.2).

End resolve.

Definition ResolveSegment (p : Principal) (id : string) (d : SDB) : result (gset string) :=
  seg ← GetSegment p id d; r ← resolveSegmentIDs p d seg; Ok r.1.
Definition PreviewSegment (p : Principal) (id : string) (d : SDB) : result (Z * gmap string Z) :=
  seg ← GetSegment p id d; r ← resolveSegmentIDs p d seg; Ok (Z.of_nat (size r.1), r.2).

End db.
End Segments.
