(* ===== verification/SegmentsSpec.v ===== *)
(** * Segments: the two evaluators agree

    On a workspace whose profiles are all known by distinct external ids,
    whose attributes every condition can evaluate, [IsProfileInSegment] and
    [ResolveSegment] give the same segment.  The hypotheses are needed: the
    last part shows what happens without them. *)

From S2P Require Import Prelude.
From S2P Require Import GoStd.
From S2P Require Import GoMap.
From S2P Require Import GoFloat.
From S2P Require Import Sha256.
From S2P Require Import Domain.
From S2P Require Import Store.
From S2P Require Import AuditLog.
From S2P Require Import Identity.
From S2P Require Import Audience.
From S2P Require Import AudienceSpec.
From S2P Require Import Segments.

Module SegmentsSpec.
Import Audience.
Import Segments.

(** Every row is under its id. *)
Definition ids_ok (d : SDB) : Prop := forall i q, sd_profiles d !! i = Some q -> Identity.pf_ID q = i.

(** ** The pages *)

Abbreviation by_id := (GoMap.in_order less_id).
Lemma less_id_asym a b : less_id a b = true -> less_id b a = false.
Proof. apply GoMap.str_less_asym. Qed.
Lemma less_id_trans x y z : less_id y x = false -> less_id z y = false -> less_id z x = false.
Proof. apply GoMap.str_less_trans. Qed.

Lemma filter_sorted (f : Identity.Prof -> bool) l : StronglySorted by_id l -> StronglySorted by_id (filter (fun q => f q = true) l).
Proof.
  induction 1 as [|x l Hs IH Hf]; [constructor|]. rewrite filter_cons. case_decide; [|done]. constructor; [done|].
  rewrite Forall_forall in Hf |- *. intros y Hy. apply Hf. by apply list_elem_of_filter in Hy as [_ Hy].
Qed.

Lemma filter_all (f : Identity.Prof -> bool) (l : list Identity.Prof) : (forall q, q ∈ l -> f q = true) -> filter (fun q => f q = true) l = l.
Proof.
  induction l as [|x l IH]; intros Hf; [done|]. rewrite filter_cons_True by (apply Hf; by left). f_equal. apply IH. intros q Hq. apply Hf. by right.
Qed.

Section pages.
Context (rows : list Identity.Prof).
Hypothesis Hids : forall x y, x ∈ rows -> y ∈ rows -> Identity.pf_ID x = Identity.pf_ID y -> x = y.
Hypothesis Hnd : NoDup rows.
Abbreviation sorted := (GoMap.sort_by less_id rows).

Lemma page_sorted size o : page size o rows = take size (filter (fun q => after o q = true) sorted).
Proof.
  unfold page. f_equal. apply (GoMap.sorted_unique less_id less_id_asym).
  - intros x y Hx Hy H1 H2. rewrite GoMap.sort_by_perm, list_elem_of_filter in Hx, Hy. apply Hids; [tauto..|].
    destruct (decide (Identity.pf_ID x = Identity.pf_ID y)) as [|Hne]; [done|]. unfold less_id in *.
    by rewrite (GoMap.str_less_total _ _ Hne H1) in H2.
  - apply GoMap.sort_by_sorted; [exact less_id_asym | exact less_id_trans].
  - apply filter_sorted, GoMap.sort_by_sorted; [exact less_id_asym | exact less_id_trans].
  - rewrite GoMap.sort_by_perm. by rewrite (GoMap.sort_by_perm less_id rows).
Qed.

Lemma after_last pre x suf : sorted = pre ++ x :: suf -> filter (fun q => after (Some (Identity.pf_ID x)) q = true) sorted = suf.
Proof.
  intros E. assert (Hs : StronglySorted by_id sorted) by (apply GoMap.sort_by_sorted; [exact less_id_asym | exact less_id_trans]).
  assert (Hd : NoDup sorted) by (by rewrite GoMap.sort_by_perm). assert (Hin : forall y, y ∈ sorted -> y ∈ rows) by (intros y; by rewrite GoMap.sort_by_perm).
  rewrite E in *. clear E. induction pre as [|y pre IH]; simpl in *.
  - rewrite filter_cons_False by (simpl; by rewrite GoMap.str_less_irrefl). inversion Hs as [|? ? _ Hf]; subst. apply NoDup_cons in Hd as [Hni _].
    rewrite Forall_forall in Hf. apply (filter_all (after (Some (Identity.pf_ID x)))). intros z Hz. simpl. apply GoMap.str_less_total; [|exact (Hf z Hz)].
    intros Hi. apply Hni. rewrite (Hids x z); [done | apply Hin; by left | apply Hin; by right | done].
  - inversion Hs as [|? ? Hs' Hf]; subst. apply NoDup_cons in Hd as [_ Hd]. rewrite filter_cons_False.
    + apply IH; [done | done | intros z Hz; apply Hin; by right].
    + rewrite Forall_forall in Hf. assert (Hx : x ∈ pre ++ x :: suf) by (apply elem_of_app; right; left). specialize (Hf x Hx).
      unfold GoMap.in_order, less_id in Hf. simpl. by rewrite Hf.
Qed.

Lemma pages_from size fuel pre suf o : (0 < size)%nat -> sorted = pre ++ suf ->
  (o = None /\ pre = []) \/ (exists pre' x, pre = pre' ++ [x] /\ o = Some (Identity.pf_ID x)) ->
  (length suf < fuel)%nat -> pages fuel size o rows = suf.
Proof.
  intros Hsize. revert pre suf o. induction fuel as [|fuel IH]; intros pre suf o E Ho Hfuel; [lia|]. cbn [pages].
  assert (Ep : page size o rows = take size suf).
  { rewrite page_sorted. f_equal. destruct Ho as [[-> ->]|(pre' & x & -> & ->)].
    - rewrite E. simpl. by apply (filter_all (after None)).
    - apply (after_last pre' x). by rewrite E, <- app_assoc. }
  rewrite Ep. destruct (_ <? _)%nat eqn:El; [apply Nat.ltb_lt in El | apply Nat.ltb_ge in El]; rewrite length_take in El; [apply take_ge; lia|].
  destruct (take size suf) as [|y t _] eqn:Et using rev_ind; [apply (f_equal length) in Et; rewrite length_take in Et; simpl in Et; lia|].
  rewrite last_snoc. simpl. transitivity ((t ++ [y]) ++ drop size suf); [f_equal | by rewrite <- Et, take_drop].
  apply (IH (pre ++ t ++ [y])).
  - by rewrite E, <- app_assoc, <- Et, take_drop.
  - right. exists (pre ++ t), y. by rewrite app_assoc.
  - rewrite length_drop. lia.
Qed.
End pages.

Lemma pages_complete (p : Principal) (d : SDB) : ids_ok d -> workspace_profiles p d = GoMap.sort_by less_id (workspace_rows p d).
Proof.
  intros Hids. assert (Hrow : forall q, q ∈ workspace_rows p d -> sd_profiles d !! Identity.pf_ID q = Some q).
  { intros q Hq. apply list_elem_of_filter in Hq as [_ Hq]. apply list_elem_of_fmap in Hq as ([i x] & -> & Hi). apply elem_of_map_to_list in Hi.
    simpl in *. by rewrite (Hids _ _ Hi). }
  apply (pages_from (workspace_rows p d)) with (pre := []).
  - intros x y Hx%Hrow Hy%Hrow E. rewrite E in Hx. congruence.
  - apply NoDup_filter. unfold ids_ok in Hids. apply NoDup_fmap_2_strong; [|apply NoDup_map_to_list].
    intros [i x] [j y] Hx Hy E. apply elem_of_map_to_list in Hx, Hy. simpl in E. subst. by rewrite <- (Hids _ _ Hx), <- (Hids _ _ Hy).
  - unfold profileResolutionPageSize. lia.
  - done.
  - by left.
  - rewrite GoMap.sort_by_perm. lia.
Qed.

Section agree.
Context `{Driver} (p : Principal) (d : SDB).

(** ** The conditions *)

Definition member_of (q : Identity.Prof) : Prop :=
  sd_profiles d !! Identity.pf_ID q = Some q /\ in_workspace (p_TenantID p) (p_WorkspaceID p) q = true.
(** The workspace's profiles are known by external ids, distinct and with
    distinct hashes. *)
Record known : Prop := MkKnown {
  k_ids : ids_ok d;
  k_ext : forall q, member_of q -> exists x, Identity.pf_ExternalID q = Some x /\ x <> "";
  k_distinct : forall q q', member_of q -> member_of q' -> ext_of q = ext_of q' -> q = q';
  k_hashes : forall q q', member_of q -> member_of q' -> subject_hash (ext_of q) = subject_hash (ext_of q') -> q = q'
}.
(** The workspace's profiles have their events of a type in the workspace and
    app themselves: the query of the sets does not look. *)
Definition one_app (eventType : string) (es : list BehaviorEvent) : Prop :=
  forall e q, e ∈ es -> member_of q -> be_TenantID e = p_TenantID p -> be_EventType e = eventType ->
    be_SubjectHash e = subject_hash (ext_of q) -> be_WorkspaceID e = p_WorkspaceID p /\ be_AppID e = p_AppID p.
(** The server can evaluate a condition on every profile. *)
Definition evaluates (n : Node) : Prop :=
  exists expr args, compileProfileNode n [] = (Ok expr, args) /\ encodes args expr = true /\
    forall q, member_of q -> is_Ok (eval_opt (p_TenantID p) (p_WorkspaceID p) args d q expr) = true.
(** What both evaluators support. *)
Fixpoint supported (n : Node) : Prop :=
  match n with
  | And l => l <> [] /\ (fix all (l : list Node) : Prop := match l with [] => True | c :: l' => supported c /\ all l' end) l
  | Or l => (fix all (l : list Node) : Prop := match l with [] => True | c :: l' => supported c /\ all l' end) l
  | Not c => supported c
  | ProfileAttribute _ _ _ | Score _ _ _ _ => evaluates n
  | Consent _ _ _ => True
  | EventHistory eventType _ _ _ => exists es, sd_events d = Some es /\ one_app eventType es
  | Company _ _ _ => False
  end.
Lemma supported_all l :
  (fix all (l : list Node) : Prop := match l with [] => True | c :: l' => supported c /\ all l' end) l <-> Forall supported l.
Proof. induction l as [|c l IH]; simpl; [by split | rewrite Forall_cons, IH; tauto]. Qed.

(** ** The maps *)

Hypothesis Hknown : known.

Lemma rows_elem q : q ∈ workspace_rows p d <-> member_of q.
Proof.
  unfold workspace_rows, member_of. rewrite list_elem_of_filter, list_elem_of_fmap. split.
  - intros [Hw ([i x] & -> & Hi)]. apply elem_of_map_to_list in Hi. simpl in *. by rewrite (k_ids Hknown i x Hi).
  - intros [Hq Hw]. split; [done|]. exists (Identity.pf_ID q, q). split; [done|]. by apply elem_of_map_to_list.
Qed.

Lemma profiles_elem q : q ∈ profiles p d <-> member_of q.
Proof. unfold profiles. by rewrite pages_complete, GoMap.sort_by_perm, rows_elem by apply (k_ids Hknown). Qed.

Lemma all_ids id : id ∈ allProfileIDs (profiles p d) <-> exists q, member_of q /\ Identity.pf_ID q = id.
Proof.
  unfold allProfileIDs. rewrite elem_of_list_to_set, list_elem_of_fmap. setoid_rewrite profiles_elem. naive_solver.
Qed.

Lemma member_id q q' : member_of q -> member_of q' -> Identity.pf_ID q = Identity.pf_ID q' -> q = q'.
Proof. intros [H1 _] [H2 _] E. rewrite E in H1. congruence. Qed.

(** Looking a key up finds the profile it is the key of. *)
Lemma by_key_spec (key : string -> string) l k :
  (forall q q', q ∈ l -> q' ∈ l -> key (ext_of q) = key (ext_of q') -> q = q') ->
  (forall q, q ∈ l -> ext_of q <> "") ->
  forall id, by_key key l !! k = Some id <-> exists q, q ∈ l /\ key (ext_of q) = k /\ Identity.pf_ID q = id.
Proof.
  unfold by_key. intros Hinj Hne. cut (forall l0 (m : gmap string string),
    (forall q, q ∈ l0 -> q ∈ l) -> forall id,
    fold_left (fun m q => if ext_of q =s "" then m else <[key (ext_of q) := Identity.pf_ID q]> m) l0 m !! k = Some id <->
    (exists q, q ∈ l0 /\ key (ext_of q) = k /\ Identity.pf_ID q = id) \/ (m !! k = Some id /\ forall q, q ∈ l0 -> key (ext_of q) <> k)).
  { intros Hc id. rewrite (Hc l ∅); [|done]. rewrite lookup_empty. naive_solver. }
  induction l0 as [|q l0 IH]; intros m Hsub id; simpl.
  { split; [intros; right; split; [done | intros q Hq; by apply elem_of_nil in Hq]|].
    intros [(q & Hq & _)|[Hm _]]; [by apply elem_of_nil in Hq | done]. }
  assert (Hq : q ∈ l) by (apply Hsub, list_elem_of_here). assert (Hl : forall x, x ∈ l0 -> x ∈ l) by (intros; apply Hsub; by right).
  assert ((ext_of q =s "") = false) as -> by by apply seqb_false, Hne. rewrite IH by done. clear IH.
  destruct (decide (key (ext_of q) = k)) as [E|E].
  - rewrite E, lookup_insert_eq. split.
    + intros [(x & Hx & Hk & Hi)|[Hi _]]; left; [exists x | exists q]; (split; [|split]); try done.
      * by right.
      * by left.
      * by injection Hi.
    + intros [(x & Hx & Hk & Hi)|[_ Hno]]; [|exfalso; apply (Hno q); [by left | done]].
      assert (x = q) as -> by (apply Hinj; [by apply Hsub | done | congruence]).
      destruct (decide (Exists (fun y => key (ext_of y) = k) l0)) as [He|He].
      * left. apply Exists_exists in He as (y & Hy & Hky). exists y. split; [done|]. split; [done|].
        assert (y = q) as -> by (apply Hinj; [by apply Hl | done | congruence]). done.
      * right. split; [by f_equal|]. intros y Hy Hky. apply He, Exists_exists. by exists y.
  - rewrite lookup_insert_ne by done. split.
    + intros [(x & Hx & Hk & Hi)|[Hm Hno]]; [left; exists x; split; [by right | done]|]. right. split; [done|].
      intros x Hx. apply elem_of_cons in Hx as [->|Hx]; [done | by apply Hno].
    + intros [(x & Hx & Hk & Hi)|[Hm Hno]].
      * apply elem_of_cons in Hx as [->|Hx]; [done|]. left. by exists x.
      * right. split; [done|]. intros x Hx. apply Hno. by right.
Qed.

Lemma ext_member q : member_of q -> Identity.pf_ExternalID q = Some (ext_of q) /\ ext_of q <> "".
Proof. intros Hq. destruct (k_ext Hknown q Hq) as (x & E & Hx). unfold ext_of. by rewrite E. Qed.

Lemma by_ext_member q : member_of q -> by_key (fun x => x) (profiles p d) !! ext_of q = Some (Identity.pf_ID q).
Proof.
  intros Hq. apply by_key_spec.
  - intros x y Hx%profiles_elem Hy%profiles_elem. by apply (k_distinct Hknown).
  - intros x Hx%profiles_elem. by apply ext_member.
  - exists q. by rewrite profiles_elem.
Qed.

(** ** The conditions, one by one *)

Abbreviation tenant := (p_TenantID p).
Abbreviation ws := (p_WorkspaceID p).
Abbreviation matches q n := (Matches tenant ws (p_AppID p) (Identity.pf_ID q) d n).

Definition selects (args : list any) (expr : option sexpr) (q : Identity.Prof) : bool :=
  match eval_opt tenant ws args d q expr with Ok (Some true) => true | _ => false end.

Lemma scan_rows_spec args expr rows acc :
  (forall q, q ∈ rows -> member_of q) ->
  (forall q, member_of q -> is_Ok (eval_opt tenant ws args d q expr) = true) ->
  exists s, scan_rows tenant ws args expr (by_key (fun x => x) (profiles p d)) d rows acc = Ok s /\
    forall id, id ∈ s <-> id ∈ acc \/ exists q, q ∈ rows /\ selects args expr q = true /\ Identity.pf_ID q = id.
Proof.
  intros Hrows Hok. revert acc. induction rows as [|q rows IH]; intros acc; simpl.
  { exists acc. split; [done|]. intros id. split; [by left|]. intros [Hi|(q & Hq & _)]; [done | by apply elem_of_nil in Hq]. }
  assert (Hq : member_of q) by apply Hrows, list_elem_of_here. assert (Hr : forall x, x ∈ rows -> member_of x) by (intros; apply Hrows; by right).
  pose proof (Hok q Hq) as Hqok. assert (Hsel : selects args expr q = match eval_opt tenant ws args d q expr with Ok (Some true) => true | _ => false end) by done.
  assert (Hskip : selects args expr q = false -> exists s, scan_rows tenant ws args expr (by_key (fun x => x) (profiles p d)) d rows acc = Ok s /\
    forall id, id ∈ s <-> id ∈ acc \/ exists x, x ∈ q :: rows /\ selects args expr x = true /\ Identity.pf_ID x = id).
  { intros Hf. destruct (IH Hr acc) as (s & -> & Hs). exists s. split; [done|]. intros id. rewrite Hs.
    setoid_rewrite elem_of_cons. split; [naive_solver|]. intros [Hi|(x & [->|Hx] & Hx1 & Hx2)]; [by left | congruence | right; by exists x]. }
  destruct (eval_opt tenant ws args d q expr) as [[[|]|]|e]; [|apply Hskip, Hsel..|discriminate].
  destruct (ext_member q Hq) as [-> _]. rewrite by_ext_member by done. destruct (IH Hr ({[Identity.pf_ID q]} ∪ acc)) as (s & -> & Hs).
  exists s. split; [done|]. intros id. rewrite Hs, elem_of_union, elem_of_singleton. setoid_rewrite elem_of_cons. naive_solver.
Qed.

Definition agrees (n : Node) : Prop := forall m, exists s m', resolve p d n m = (Ok s, m') /\
  forall q, member_of q -> exists b, matches q n = Ok b /\ (Identity.pf_ID q ∈ s <-> b = true).

Lemma single_member q n expr args : member_of q -> compileProfileNode n [] = (Ok expr, args) ->
  is_Ok (eval_opt tenant ws args d q expr) = true -> single tenant ws (Identity.pf_ID q) d n = Ok (selects args expr q).
Proof.
  intros [Hq Hw] E Hok. unfold single, selects. rewrite E, Hq, Hw. by destruct (eval_opt _ _ _ _ _ _) as [[[|]|]|].
Qed.

Lemma leg_agrees leg n m : evaluates n -> exists s m', leg_query p d leg n m = (Ok s, m') /\
  forall q, member_of q -> exists b, single tenant ws (Identity.pf_ID q) d n = Ok b /\ (Identity.pf_ID q ∈ s <-> b = true).
Proof.
  intros (expr & args & E & Henc & Hok). unfold leg_query. rewrite E, Henc. simpl.
  assert (Hrows : forall q, q ∈ workspace_rows p d -> member_of q) by (intros q; apply rows_elem).
  destruct (scan_rows_spec args expr _ ∅ Hrows Hok) as (s & Es & Hs).
  unfold lift. unfold_M. rewrite Es. eexists s, _. split; [reflexivity|]. intros q Hq. exists (selects args expr q).
  split; [apply single_member; auto|]. rewrite Hs. split.
  - intros [Hi|(x & Hx & Hsel & Hid)]; [by apply elem_of_empty in Hi|]. by rewrite <- (member_id x q (Hrows x Hx) Hq Hid).
  - intros Hsel. right. exists q. split; [|done]. by apply rows_elem.
Qed.

Lemma consent_agrees c t st : agrees (Consent c t st).
Proof.
  intros m. simpl. unfold count_leg. eexists _, _. split; [reflexivity|]. intros q Hq. eexists. split; [reflexivity|].
  rewrite elem_of_intersection, all_ids. unfold consenting. rewrite elem_of_list_to_set, list_elem_of_filter. split; [tauto|].
  intros Hin. split; [|by exists q]. split; [done|]. unfold latest_state in Hin.
  destruct (head _) as [r|] eqn:E; [|done]. apply head_Some_elem_of in E. rewrite GoMap.sort_by_perm in E.
  apply list_elem_of_filter in E as [Hr Hin']. apply list_elem_of_fmap. exists r. split; [|done].
  apply andb_prop in Hr as [Hr _]. apply andb_prop in Hr as [Hr _]. apply andb_prop in Hr as [_ Hr]. by apply seqb_true in Hr.
Qed.

Lemma countb_pos {A} (f : A -> bool) l : 0 < countb f l <-> exists x, x ∈ l /\ f x = true.
Proof.
  induction l as [|x l IH]; simpl; [split; [lia | intros (x & Hx & _); by apply elem_of_nil in Hx]|].
  setoid_rewrite elem_of_cons. assert (0 <= countb f l) by (clear; induction l; simpl; [lia | case_match; lia]).
  destruct (f x) eqn:E; split.
  - intros _. exists x. by split; [left|].
  - intros _. lia.
  - intros Hc. apply IH in Hc as (y & Hy & Hf); [|lia..]. exists y. by split; [right|].
  - intros (y & [->|Hy] & Hf); [congruence|]. simpl. apply IH. by exists y.
Qed.

Lemma events_agree eventType op days minCount es :
  sd_events d = Some es -> one_app eventType es -> agrees (EventHistory eventType op days minCount).
Proof.
  intros Ees Happ m. simpl. unfold resolve_events. rewrite Ees.
  set (s := list_to_set (omap _ _)). unfold count_leg. eexists _, _. split; [reflexivity|]. intros q Hq.
  destruct (ext_member q Hq) as [Ex Hne]. unfold GetProfileExternalID. pose proof Hq as [Hrow Hw]. rewrite Hrow, Hw, Ex. simpl.
  rewrite (proj2 (seqb_false _ _) Hne). unfold clickhouse_single. rewrite Ees.
  set (h := subject_hash (ext_of q)). set (n := countb _ es).
  assert (En : n = countb (fun e => recent tenant eventType days d e && (be_SubjectHash e =s h)) es).
  { apply countb_ext. intros e He. destruct (recent _ _ _ _ e) eqn:Er; [|done]. simpl.
    assert (be_TenantID e = tenant) by (unfold recent in Er; apply andb_prop in Er as [Er _]; apply andb_prop in Er as [Er _]; by apply seqb_true).
    assert (be_EventType e = eventType) by (unfold recent in Er; apply andb_prop in Er as [Er _]; apply andb_prop in Er as [_ Er]; by apply seqb_true).
    destruct (be_SubjectHash e =s h) eqn:Eh; [|by rewrite andb_false_r]. apply seqb_true in Eh.
    destruct (Happ e q He Hq) as [-> ->]; [done..|]. by rewrite !seqb_refl. }
  assert (Hs : Identity.pf_ID q ∈ s <-> (0 <? n) && (min_count minCount <=? n) = true).
  { unfold s. rewrite elem_of_list_to_set, list_elem_of_omap, andb_true_iff, Z.ltb_lt, Z.leb_le.
    split.
    - intros (h' & Hh & Hid). unfold active_hashes in Hh. apply list_elem_of_filter in Hh as [Hmin Hh].
      apply by_key_spec in Hid as (x & Hx%profiles_elem & Hk & Hxq).
      + assert (x = q) as -> by by apply member_id. fold h in Hk. subst h'. rewrite En. split; [|lia].
        apply countb_pos. apply list_elem_of_fmap in Hh as (e & He & Hin). apply list_elem_of_filter in Hin as [Hr Hin].
        exists e. split; [done|]. by rewrite Hr, He, seqb_refl.
      + intros x y Hx%profiles_elem Hy%profiles_elem. by apply (k_hashes Hknown).
      + intros x Hx%profiles_elem. by apply ext_member.
    - intros [Hpos Hmin]. exists h. split.
      + unfold active_hashes. apply list_elem_of_filter. split; [rewrite <- En; lia|]. rewrite En in Hpos.
        apply countb_pos in Hpos as (e & He & Hf). apply andb_prop in Hf as [Hr Hh]. apply seqb_true in Hh.
        apply list_elem_of_fmap. exists e. split; [done|]. by apply list_elem_of_filter.
      + apply by_key_spec.
        * intros x y Hx%profiles_elem Hy%profiles_elem. by apply (k_hashes Hknown).
        * intros x Hx%profiles_elem. by apply ext_member.
        * exists q. by rewrite profiles_elem. }
  destruct (op =s "has_not_occurred").
  - eexists. split; [reflexivity|]. rewrite elem_of_difference, all_ids, Hs. destruct (_ && _); simpl; split; try done; [naive_solver|].
    intros _. split; [by exists q | done].
  - eexists. split; [reflexivity | exact Hs].
Qed.

(** ** All of them *)

Lemma supported_agrees n : supported n -> agrees n.
Proof.
  induction n as [l IH|l IH|n IH| | | | |] using AudienceSpec.node_rect'.
  - intros [Hne Hl]. apply supported_all in Hl.
    assert (Hgo : forall l0 r m, Forall agrees l0 -> exists s m',
      (fix go (l : list Node) (res : option (gset string)) : M (gmap string Z) (gset string) :=
         match l with [] => mret (default ∅ res) | c :: l' => s ← resolve p d c; go l' (Some (match res with None => s | Some r => r ∩ s end)) end)
        l0 r m = (Ok s, m') /\
      forall q, member_of q -> exists b,
        (fix go (l : list Node) : result bool := match l with [] => Ok true | c :: l' => m ← matches q c; if m : bool then go l' else Ok false end) l0 = Ok b /\
        (Identity.pf_ID q ∈ s <-> (match r with Some r => Identity.pf_ID q ∈ r | None => l0 <> [] end) /\ b = true)).
    { clear. intros l0. induction l0 as [|c l0 IHl]; intros r m Hf.
      - eexists _, _. split; [reflexivity|]. intros q Hq. exists true. split; [done|]. destruct r as [r|]; simpl; [tauto|]. set_solver.
      - inversion Hf as [|? ? Hc Hf']; subst. destruct (Hc m) as (s1 & m1 & E1 & H1).
        destruct (IHl (Some (match r with None => s1 | Some r => r ∩ s1 end)) m1 Hf') as (s & m' & E & Hs).
        exists s, m'. split; [unfold_M; by rewrite E1|]. intros q Hq. destruct (H1 q Hq) as (b1 & Eb1 & Hb1). destruct (Hs q Hq) as (b & Eb & Hb).
        rewrite Eb1. simpl. destruct b1.
        + exists b. split; [done|]. rewrite Hb. destruct r as [r|]; [rewrite elem_of_intersection|]; naive_solver.
        + exists false. split; [done|]. rewrite Hb. destruct r as [r|]; [rewrite elem_of_intersection|]; naive_solver. }
    intros m. destruct (Hgo l None m) as (s & m' & E & Hs).
    { rewrite Forall_forall in IH, Hl |- *. intros x Hx. apply IH; auto. }
    exists s, m'. split; [exact E|]. intros q Hq. destruct (Hs q Hq) as (b & Eb & Hb). exists b. split; [exact Eb|]. rewrite Hb. tauto.
  - intros Hl. apply supported_all in Hl.
    assert (Hgo : forall l0 r m, Forall agrees l0 -> exists s m',
      (fix go (l : list Node) (res : gset string) : M (gmap string Z) (gset string) :=
         match l with [] => mret res | c :: l' => s ← resolve p d c; go l' (res ∪ s) end) l0 r m = (Ok s, m') /\
      forall q, member_of q -> exists b,
        (fix go (l : list Node) : result bool := match l with [] => Ok false | c :: l' => m ← matches q c; if m : bool then Ok true else go l' end) l0 = Ok b /\
        (Identity.pf_ID q ∈ s <-> Identity.pf_ID q ∈ r \/ b = true)).
    { clear. intros l0. induction l0 as [|c l0 IHl]; intros r m Hf.
      - eexists _, _. split; [reflexivity|]. intros q Hq. exists false. split; [done|]. naive_solver.
      - inversion Hf as [|? ? Hc Hf']; subst. destruct (Hc m) as (s1 & m1 & E1 & H1).
        destruct (IHl (r ∪ s1) m1 Hf') as (s & m' & E & Hs).
        exists s, m'. split; [unfold_M; by rewrite E1|]. intros q Hq. destruct (H1 q Hq) as (b1 & Eb1 & Hb1). destruct (Hs q Hq) as (b & Eb & Hb).
        rewrite Eb1. simpl. rewrite elem_of_union in Hb. destruct b1; [exists true | exists b]; (split; [done|]); naive_solver. }
    intros m. destruct (Hgo l ∅ m) as (s & m' & E & Hs).
    { rewrite Forall_forall in IH, Hl |- *. intros x Hx. apply IH; auto. }
    exists s, m'. split; [exact E|]. intros q Hq. destruct (Hs q Hq) as (b & Eb & Hb). exists b. split; [exact Eb|]. rewrite Hb. set_solver.
  - intros Hn m. destruct (IH Hn m) as (s & m' & E & Hs). simpl. unfold_M. rewrite E. eexists _, _. split; [reflexivity|].
    intros q Hq. destruct (Hs q Hq) as (b & Eb & Hb). rewrite Eb. exists (negb b). split; [done|].
    rewrite elem_of_difference, all_ids, Hb. destruct b; simpl; naive_solver.
  - intros Hn m0. exact (leg_agrees "profile_attributes" _ m0 Hn).
  - intros (es & Ees & Happ). by apply (events_agree _ _ _ _ es).
  - intros _. apply consent_agrees.
  - intros Hn m0. exact (leg_agrees "scores" _ m0 Hn).
  - done.
Qed.

(** ** The overrides *)

Lemma apply_members_spec segmentID (l : list ((string * string) * (string * string))) S q :
  NoDup l.*1 -> member_of q ->
  Identity.pf_ID q ∈ fold_left (apply_member p d segmentID) l S <->
  overridden (match find_first (fun kv => bool_decide (kv.1 = (segmentID, Identity.pf_ID q))) l with
              | Some (_, (t, m)) => if t =s tenant then Some m else None
              | None => None
              end) (bool_decide (Identity.pf_ID q ∈ S)) = true.
Proof.
  intros Hnd Hq. revert S Hnd. induction l as [|[[sid pid] [t m]] l IH]; intros S Hnd; simpl.
  { by rewrite bool_decide_eq_true. }
  apply NoDup_cons in Hnd as [Hni Hnd]. rewrite IH by done.
  assert (Hall : Identity.pf_ID q ∈ allProfileIDs (profiles p d)) by (apply all_ids; by exists q).
  destruct (decide ((sid, pid) = (segmentID, Identity.pf_ID q))) as [E|E].
  - injection E as -> ->. rewrite (bool_decide_true ((_, _) = _)), (bool_decide_true _ Hall), seqb_refl by done.
    assert (find_first (fun kv : (string * string) * (string * string) => bool_decide (kv.1 = (segmentID, Identity.pf_ID q))) l = None) as ->.
    { apply find_first_None, Forall_forall. intros kv Hkv. apply bool_decide_eq_false. intros Hk. apply Hni, list_elem_of_fmap. by exists kv. }
    simpl. rewrite bool_decide_eq_true. destruct (t =s tenant); simpl; [|by rewrite bool_decide_eq_true].
    destruct (m =s "exclude") eqn:Ex; destruct (m =s "include") eqn:Ei; simpl; rewrite ?bool_decide_eq_true.
    + apply seqb_true in Ex. apply seqb_true in Ei. congruence.
    + set_solver.
    + set_solver.
    + done.
  - rewrite (bool_decide_false _ E). f_equiv. f_equal. apply bool_decide_ext.
    destruct (_ && _ && bool_decide _) eqn:C; [|done]. apply andb_prop in C as [C _]. apply andb_prop in C as [_ C]. apply seqb_true in C. subst.
    assert (Identity.pf_ID q <> pid) by congruence. repeat case_match; set_solver.
Qed.

(** What both evaluators support of a segment's rule. *)
Definition rule_supported (dsl : RawMessage) : Prop := no_dsl dsl = true \/ exists n, Parse dsl = Ok n /\ supported n.

Lemma find_first_map (m : gmap (string * string) (string * string)) k :
  find_first (fun kv => bool_decide (kv.1 = k)) (map_to_list m) = (fun v => (k, v)) <$> m !! k.
Proof.
  destruct (find_first _ _) as [[k' v]|] eqn:E.
  - apply find_first_Some in E as [Hin Hk]. apply bool_decide_eq_true in Hk. simpl in Hk. subst.
    apply elem_of_map_to_list in Hin. by rewrite Hin.
  - destruct (m !! k) as [v|] eqn:Hm; [|done]. apply find_first_None in E. rewrite Forall_forall in E.
    apply elem_of_map_to_list in Hm. pose proof (E _ Hm) as Hf. by rewrite bool_decide_true in Hf.
Qed.

(** A segment stored under its id, whose rule both evaluators support. *)
Definition segment_ok (id : string) : Prop :=
  exists seg, GetSegment p id d = Ok seg /\ sg_ID seg = id /\ rule_supported (sg_DSL seg).

(** C20: The two implementations of segment membership agree where both work:
    asking [IsProfileInSegment] about a profile succeeds, resolving the segment
    by sets of ids succeeds, and the answer is yes exactly for the resolved
    profiles, with the manual inclusions and exclusions applied in both.
    Conditions on the workspace ([known]): its profiles have external ids,
    distinct and with distinct hashes.  Conditions on the rule
    ([rule_supported]): it parses, no "and" in it is empty, it asks nothing of
    a company; the server can evaluate its conditions on attributes and scores
    on every profile of the workspace; and for those on events, ClickHouse is
    there, and the profiles' events of the type are all of this workspace and
    app, which one of the two queries does not check
    ([events_cross_workspaces]).  Outside them they disagree or fail:
    [empty_and], [company_unsupported], [scan_truncated],
    [anonymous_match_fails]. *)
Theorem segment_evaluators_agree id q :
  segment_ok id -> member_of q ->
  exists b s, IsProfileInSegment p id (Identity.pf_ID q) d = Ok b /\ ResolveSegment p id d = Ok s /\
    (Identity.pf_ID q ∈ s <-> b = true).
Proof.
  intros (seg & Eg & Eid & Hrule) Hq. unfold IsProfileInSegment, ResolveSegment. rewrite Eg. simpl.
  assert (Hfin : forall b (r : gset string * gmap string Z), (Identity.pf_ID q ∈ r.1 <-> b = true) ->
    (Identity.pf_ID q ∈ fold_left (apply_member p d (sg_ID seg)) (map_to_list (sd_members d)) r.1 <->
     overridden (membership tenant id (Identity.pf_ID q) d) b = true)).
  { intros b r Hb. rewrite apply_members_spec by (done || apply NoDup_fst_map_to_list). rewrite find_first_map, Eid. unfold membership.
    replace (bool_decide _) with b by (symmetry; destruct b; [apply bool_decide_eq_true; tauto | apply bool_decide_eq_false; intros ?%Hb; done]).
    destruct (sd_members d !! _) as [[t m]|]; done. }
  unfold resolveSegmentIDs, EvaluateAudience. destruct (no_dsl (sg_DSL seg)) eqn:En.
  - simpl. eexists _, _. split; [reflexivity|]. split; [reflexivity|]. apply (Hfin false (∅, ∅)). split; [by intros ?%elem_of_empty | done].
  - destruct Hrule as [Hc|(n & -> & Hn)]; [congruence|]. simpl.
    destruct (supported_agrees n Hn ∅) as (s & m & -> & Hs). destruct (Hs q Hq) as (b & -> & Hb). simpl.
    eexists _, _. split; [reflexivity|]. split; [reflexivity|]. by apply (Hfin b (s, m)).
Qed.

End agree.

(** ** Where they differ *)

Section hazards.
Context `{Driver} (p : Principal) (d : SDB).

Lemma scan_rows_anonymous args expr ids rows acc q :
  (forall x, x ∈ rows -> is_Ok (eval_opt (p_TenantID p) (p_WorkspaceID p) args d x expr) = true) ->
  q ∈ rows -> Identity.pf_ExternalID q = None -> eval_opt (p_TenantID p) (p_WorkspaceID p) args d q expr = Ok (Some true) ->
  scan_rows (p_TenantID p) (p_WorkspaceID p) args expr ids d rows acc = Err scan_error.
Proof.
  intros Hok Hq Hext Hm. revert acc. induction rows as [|x rows IH]; intros acc; [by apply elem_of_nil in Hq|]. simpl.
  pose proof (Hok x (list_elem_of_here _ _)) as Hx. apply elem_of_cons in Hq as [<-|Hq]; [by rewrite Hm, Hext|].
  assert (Hrest : forall acc, scan_rows (p_TenantID p) (p_WorkspaceID p) args expr ids d rows acc = Err scan_error)
    by (apply IH; [intros y Hy; apply Hok; by right | done]).
  destruct (eval_opt _ _ _ _ x _) as [[[|]|]|e]; [|apply Hrest..|discriminate]. destruct (Identity.pf_ExternalID x); [apply Hrest | done].
Qed.

(** One anonymous match breaks a segment: when a profile without an
    external id (anonymous, or merged into another) satisfies a condition on
    an attribute, the journey's evaluator says yes for it, but resolving the
    condition for a campaign or a preview fails for the whole workspace. *)
Theorem anonymous_match_fails field op value q m :
  ids_ok d -> evaluates p d (ProfileAttribute field op value) -> member_of p d q -> Identity.pf_ExternalID q = None ->
  Matches (p_TenantID p) (p_WorkspaceID p) (p_AppID p) (Identity.pf_ID q) d (ProfileAttribute field op value) = Ok true ->
  resolve p d (ProfileAttribute field op value) m = (Err scan_error, m).
Proof.
  intros Hids (expr & args & E & Henc & Hok) Hq Hext Hm. simpl. unfold leg_query. rewrite E, Henc. simpl. unfold lift. unfold_M.
  rewrite (scan_rows_anonymous _ _ _ _ _ q).
  - done.
  - intros x Hx. apply Hok. apply list_elem_of_filter in Hx as [Hw Hx]. apply list_elem_of_fmap in Hx as ([i y] & -> & Hi).
    apply elem_of_map_to_list in Hi. simpl in *. split; [by rewrite (Hids _ _ Hi) | done].
  - destruct Hq as [Hq Hw]. apply list_elem_of_filter. split; [done|]. apply list_elem_of_fmap. exists (Identity.pf_ID q, q).
    split; [done | by apply elem_of_map_to_list].
  - done.
  - simpl in Hm. rewrite (single_member p d _ _ expr args) in Hm by auto. unfold selects in Hm.
    by destruct (eval_opt _ _ _ _ _ _) as [[[|]|]|].
Qed.

(** A condition on a company has no evaluator, though it parses and
    compiles. *)
Lemma company_unsupported field op value profileID m :
  Matches (p_TenantID p) (p_WorkspaceID p) (p_AppID p) profileID d (Company field op value) = Err unknown_node /\
  (resolve p d (Company field op value) m = (Err unknown_node, m)).
Proof. done. Qed.

(** The empty conjunction holds of every profile, and resolves to nobody. *)
Lemma empty_and profileID m :
  Matches (p_TenantID p) (p_WorkspaceID p) (p_AppID p) profileID d (And []) = Ok true /\ (resolve p d (And []) m = (Ok ∅, m)).
Proof. done. Qed.

End hazards.

(** ** A demonstration *)

(** A numeric is an integer written in decimal. *)
Definition demo_driver : Driver := {|
  numeric := Z;
  text_arg v := match v with AString s => Some s | _ => None end;
  uuid_arg v := match v with AString s => Some s | _ => None end;
  array_arg v := match v with AArray l => mapM (fun x => match x with AString s => Some s | _ => None end) l | _ => None end;
  numeric_arg v := match v with AString s => GoStr.digits s | _ => None end;
  cast_numeric := GoStr.digits;
  numeric_lt := Z.ltb
|}.
#[local] Existing Instance demo_driver.

Definition demo_principal : Principal := MkPrincipal "t" "w" "a" "" "" "" [].
Definition demo_profile (id : string) (ext : option string) (age : string) : Identity.Prof :=
  Identity.MkProf id "t" "w" "a" ext None {["age" := JNumber age; "plan" := JString "pro"]} 1 None 0 0.
Definition demo_rule : RawMessage :=
  Raw (JObject [("logic", JString "and"); ("conditions", JArray [
    JObject [("type", JString "profile_attribute"); ("field", JString "age"); ("operator", JString "greater_than"); ("value", JString "17")];
    JObject [("logic", JString "not"); ("condition", JObject [("type", JString "event_history"); ("event_type", JString "order");
      ("operator", JString "has_occurred"); ("time_window_days", JNumber "30"); ("min_count", JNumber "2")])]])]).
Definition demo_segment : Segment := MkSegment "s" "t" "w" "adults" "" "dynamic" "active" demo_rule 1.
Definition demo_order : BehaviorEvent := MkBehaviorEvent "t" "w" "a" "order" 5 (subject_hash "bob").
Definition demo_db (profiles : gmap string Identity.Prof) : SDB :=
  MkSDB profiles [] [] [] [] (Some [demo_order; demo_order]) {["s" := demo_segment]} {[("s", "3") := ("t", "include")]}
    (Audit.MkADB [] ∅ 0) ∅ 10.
Definition demo_people : gmap string Identity.Prof :=
  {["1" := demo_profile "1" (Some "ada") "40"; "2" := demo_profile "2" (Some "bob") "50"; "3" := demo_profile "3" (Some "cy") "12"]}.

Definition demo_node : Node :=
  And [ProfileAttribute "age" "greater_than" (AString "17"); Not (EventHistory "order" "has_occurred" 30 2)].

Lemma demo_members q : member_of demo_principal (demo_db demo_people) q ->
  q = demo_profile "1" (Some "ada") "40" \/ q = demo_profile "2" (Some "bob") "50" \/ q = demo_profile "3" (Some "cy") "12".
Proof.
  intros [Hq _]. simpl in Hq. unfold demo_people in Hq. apply lookup_insert_Some in Hq as [[_ <-]|[_ Hq]]; [by left|].
  apply lookup_insert_Some in Hq as [[_ <-]|[_ Hq]]; [by right; left|]. apply lookup_singleton_Some in Hq as [_ <-]. by right; right.
Qed.

Lemma demo_ids : ids_ok (demo_db demo_people).
Proof.
  intros i q Hq. simpl in Hq. unfold demo_people in Hq. apply lookup_insert_Some in Hq as [[<- <-]|[_ Hq]]; [done|].
  apply lookup_insert_Some in Hq as [[<- <-]|[_ Hq]]; [done|]. by apply lookup_singleton_Some in Hq as [<- <-].
Qed.

Lemma demo_known : known demo_principal (demo_db demo_people).
Proof.
  constructor.
  - exact demo_ids.
  - intros q Hq. destruct (demo_members q Hq) as [->|[->| ->]]; eexists; (split; [reflexivity | discriminate]).
  - intros q q' Hq Hq' E. destruct (demo_members q Hq) as [->|[->| ->]], (demo_members q' Hq') as [->|[->| ->]]; try reflexivity; discriminate E.
  - intros q q' Hq Hq' E. destruct (demo_members q Hq) as [->|[->| ->]], (demo_members q' Hq') as [->|[->| ->]]; try reflexivity;
      vm_compute in E; discriminate E.
Qed.

Lemma demo_evaluates : evaluates demo_principal (demo_db demo_people) (ProfileAttribute "age" "greater_than" (AString "17")).
Proof.
  eexists _, _. split; [vm_compute; reflexivity|]. split; [vm_compute; reflexivity|].
  intros q Hq. destruct (demo_members q Hq) as [->|[->| ->]]; vm_compute; reflexivity.
Qed.

Lemma demo_supported : supported demo_principal (demo_db demo_people) demo_node.
Proof.
  split; [discriminate|]. split; [exact demo_evaluates|]. split; [|done]. exists [demo_order; demo_order]. split; [reflexivity|].
  intros e q He _ _ _ _. repeat (apply elem_of_cons in He as [->|He]; [by split|]). by apply elem_of_nil in He.
Qed.

(** Of three people, one is too young, one has ordered twice, and the young
    one is included by hand. *)
Lemma segment_evaluators_agree_witness :
  exists b s, IsProfileInSegment demo_principal "s" "3" (demo_db demo_people) = Ok b /\
    ResolveSegment demo_principal "s" (demo_db demo_people) = Ok s /\ ("3" ∈ s <-> b = true).
Proof.
  apply (segment_evaluators_agree demo_principal (demo_db demo_people) demo_known "s" (demo_profile "3" (Some "cy") "12")).
  - exists demo_segment. split; [vm_compute; reflexivity|]. split; [reflexivity|]. right. exists demo_node.
    split; [vm_compute; reflexivity | exact demo_supported].
  - split; vm_compute; reflexivity.
Defined.

Example demo_resolved :
  ResolveSegment demo_principal "s" (demo_db demo_people) = Ok {["1"; "3"]} /\
  PreviewSegment demo_principal "s" (demo_db demo_people) = Ok (2, {[ "profile_attributes" := 2; "event_history" := 1]}).
Proof. vm_compute. split; reflexivity. Qed.

Definition demo_anonymous : gmap string Identity.Prof :=
  {["1" := demo_profile "1" (Some "ada") "40"; "4" := demo_profile "4" None "30"]}.
Lemma anonymous_match_fails_witness :
  resolve demo_principal (demo_db demo_anonymous) (ProfileAttribute "plan" "equals" (AString "pro")) ∅ = (Err scan_error, ∅).
Proof.
  apply (anonymous_match_fails demo_principal (demo_db demo_anonymous) "plan" "equals" (AString "pro") (demo_profile "4" None "30") ∅).
  - intros i q Hq. simpl in Hq. unfold demo_anonymous in Hq. apply lookup_insert_Some in Hq as [[<- <-]|[_ Hq]]; [done|].
    by apply lookup_singleton_Some in Hq as [<- <-].
  - eexists _, _. split; [vm_compute; reflexivity|]. split; [vm_compute; reflexivity|].
    intros q [Hq _]. simpl in Hq. unfold demo_anonymous in Hq. apply lookup_insert_Some in Hq as [[_ <-]|[_ Hq]]; [vm_compute; reflexivity|].
    apply lookup_singleton_Some in Hq as [_ <-]. vm_compute. reflexivity.
  - split; vm_compute; reflexivity.
  - reflexivity.
  - vm_compute. reflexivity.
Defined.

(** [CompileClickHouse] asks for the tenant only, [CompileClickHouseSingle] for
    the workspace and the app too: bob's orders in another workspace put him
    into the resolved segment, while a journey says he is not in it. *)
Definition demo_elsewhere : SDB :=
  MkSDB demo_people [] [] [] [] (Some [MkBehaviorEvent "t" "w2" "a2" "order" 5 (subject_hash "bob")]) ∅ ∅ (Audit.MkADB [] ∅ 0) ∅ 10.
Example events_cross_workspaces :
  let rule := EventHistory "order" "has_occurred" 30 1 in
  (resolve demo_principal demo_elsewhere rule ∅).1 = Ok {["2"]} /\ Matches "t" "w" "a" "2" demo_elsewhere rule = Ok false.
Proof. vm_compute. split; reflexivity. Qed.

(** A row the server cannot evaluate ends the scan without an error: the
    profiles after it are left out. *)
Example scan_truncated :
  ResolveSegment demo_principal "s"
    (demo_db {["5" := demo_profile "5" (Some "zed") "unknown"; "1" := demo_profile "1" (Some "ada") "40"]}) = Ok ∅ /\
  IsProfileInSegment demo_principal "s" "1"
    (demo_db {["5" := demo_profile "5" (Some "zed") "unknown"; "1" := demo_profile "1" (Some "ada") "40"]}) = Ok true.
Proof. vm_compute. split; reflexivity. Qed.

End SegmentsSpec.
