(* ===== verification/SegmentOps.v ===== *)
(** * Writing segments (src/internal/postgres/segments.go)

    Creating, updating and listing segments, and replacing the manual members
    of one. *)

From S2P Require Import Prelude.
From S2P Require Import GoStd.
From S2P Require Import GoMap.
From S2P Require Import GoFloat.
From S2P Require Import Domain.
From S2P Require Import Store.
From S2P Require Import AuditLog.
From S2P Require Import Identity.
From S2P Require Import Audience.
From S2P Require Import Segments.
From S2P Require Import SegmentsSpec.

Module SegmentOps.
Import Segments.

Abbreviation W := (M SDB).

(** A transaction: an error undoes what it wrote. *)
Definition tx {A} (m : W A) : W A := fun d => match m d with (Ok a, d') => (Ok a, d') | (Err e, _) => (Err e, d) end.

Definition ErrTxClosed : error := errors_New "tx is closed".
Definition check_violation : error := errors_New "new row violates check constraint".
Definition not_null_violation : error := errors_New "null value violates not-null constraint".
Definition unique_violation : error := errors_New "duplicate key value violates unique constraint".
Definition bad_input : error := errors_New "invalid input syntax".

Definition segment_types : list string := ["static"; "dynamic"; "snapshot"].
Definition segment_statuses : list string := ["draft"; "active"; "archived"].
Definition memberships : list string := ["include"; "exclude"].
Definition integer_max : Z := 2147483647.

(** The text of a [jsonb] column. *)
Definition column_of (r : RawMessage) : result RawMessage :=
  match r with
  | Raw j => Ok (Raw (Audit.jsonb j))
  | RawEmpty => Err not_null_violation
  | RawBad _ => Err bad_input
  end.
(** What INSERT and UPDATE check of the row. *)
Definition checked (seg : Segment) : result Segment :=
  if negb (mem (sg_Type seg) segment_types) then Err bad_input
  else if negb (mem (sg_Status seg) segment_statuses) then Err check_violation
  else if integer_max <? sg_Version seg then Err bad_input
  else dsl ← column_of (sg_DSL seg);
       Ok (MkSegment (sg_ID seg) (sg_TenantID seg) (sg_WorkspaceID seg) (sg_Name seg) (sg_Description seg) (sg_Type seg) (sg_Status seg)
             dsl (sg_Version seg)).
Definition put (seg : Segment) : W unit := fun d => (Ok tt, set_segments (<[sg_ID seg := seg]> (sd_segments d)) d).
Definition new_id : W string := fun d => let id := fresh (sd_used d) in (Ok id, set_used ({[id]} ∪ sd_used d) d).

(** [json.Unmarshal] into an [any] whose error is ignored. *)
Definition value_of (r : RawMessage) : any := match r with Raw j => Any.decode j | _ => ANil end.

Section ops.
Context (uuid_ok : string -> bool).

Definition audit (p : Principal) (action resourceID : string) (metadata : json) : W unit := fun d =>
  let '(r, a) := Audit.audit uuid_ok p action "segment" resourceID metadata (sd_audit d) in (r, set_audit a d).

Definition or_default (s v : string) : string := if s =s "" then v else s.

Definition CreateSegment (p : Principal) (seg : Segment) : W Segment := tx (
  if sg_Name seg =s "" then throw (errors_New "name is required") else
  let dsl := if raw_len0 (sg_DSL seg) then Raw (JObject []) else sg_DSL seg in
  id ← new_id;
  out ← lift (checked (MkSegment id (p_TenantID p) (p_WorkspaceID p) (sg_Name seg) (sg_Description seg)
                         (or_default (sg_Type seg) "dynamic") (or_default (sg_Status seg) "draft") dsl 1));
  _ ← put out;
  _ ← audit p "segment.create" (sg_ID out) (JObject [("name", JString (sg_Name out))]);
  mret out).

Definition UpdateSegment (p : Principal) (seg : Segment) : W Segment := tx (fun d => (
  existing ← lift (GetSegment p (sg_ID seg) d);
  let version := if Any.DeepEqual (value_of (sg_DSL existing)) (value_of (sg_DSL seg)) then sg_Version existing else sg_Version existing + 1 in
  out ← lift (checked (MkSegment (sg_ID seg) (p_TenantID p) (p_WorkspaceID p) (sg_Name seg) (sg_Description seg) (sg_Type seg) (sg_Status seg)
                         (sg_DSL seg) version));
  _ ← put out;
  _ ← audit p "segment.update" (sg_ID out) (JObject [("name", JString (sg_Name out))]);
  mret out) d).

Definition less_name (a b : Segment) : bool := GoMap.str_less (sg_Name a) (sg_Name b).
Definition ListSegments (p : Principal) (d : SDB) : list Segment :=
  GoMap.sort_by less_name (filter (fun s => (sg_TenantID s =s p_TenantID p) && (sg_WorkspaceID s =s p_WorkspaceID p) = true)
    (map_to_list (sd_segments d)).*2).

(** One row of the new members; the profile is looked for in the tenant. *)
Definition add_member (p : Principal) (segmentID : string) (member : SegmentMember) : W unit := fun d =>
  let id := gm_ProfileID member in
  if negb (uuid_ok id) then (Err bad_input, d) else
  if negb (match sd_profiles d !! id with Some q => Identity.pf_TenantID q =s p_TenantID p | None => false end)
  then (Err (Errorf "profile %s does not exist" [AStr id]), d) else
  let m := or_default (gm_Membership member) "include" in
  if negb (mem m memberships) then (Err check_violation, d) else
  match sd_members d !! (segmentID, id) with
  | Some _ => (Err unique_violation, d)
  | None => (Ok tt, set_members (<[(segmentID, id) := (p_TenantID p, m)]> (sd_members d)) d)
  end.
Definition delete_members (tenant segmentID : string) : W unit := fun d =>
  (Ok tt, set_members (filter (fun kv => ~ (kv.2.1 = tenant /\ kv.1.1 = segmentID)) (sd_members d)) d).

(** The first transaction of [SetSegmentMembers]. *)
Definition replace_members (p : Principal) (segmentID : string) (members : list SegmentMember) : W unit :=
  tx (_ ← delete_members (p_TenantID p) segmentID; iterM (add_member p segmentID) members).
(** The audit row is written on the transaction that has been committed: the
    driver refuses every statement on it. *)
Definition audit_closed : W unit := throw ErrTxClosed.
Definition SetSegmentMembers (p : Principal) (segmentID : string) (members : list SegmentMember) : W unit := fun d => (
  _ ← lift (GetSegment p segmentID d);
  _ ← replace_members p segmentID members;
  audit_closed) d.

End ops.

(** ** What they do *)

Lemma checked_inv seg out : checked seg = Ok out ->
  sg_ID out = sg_ID seg /\ sg_TenantID out = sg_TenantID seg /\ sg_WorkspaceID out = sg_WorkspaceID seg /\ sg_Version out = sg_Version seg /\
  sg_Name out = sg_Name seg /\ exists j, sg_DSL seg = Raw j /\ sg_DSL out = Raw (Audit.jsonb j).
Proof.
  unfold checked. destruct (negb (mem (sg_Type seg) _)); [done|]. destruct (negb (mem (sg_Status seg) _)); [done|].
  destruct (_ <? _); [done|]. destruct (sg_DSL seg) as [| |j]; simpl; try done. intros [= <-]. by repeat (split; [reflexivity|]); exists j.
Qed.

Lemma audit_segments uuid_ok p action rid meta d :
  exists a, audit uuid_ok p action rid meta d = (Ok tt, set_audit a d).
Proof.
  unfold audit, Audit.audit. destruct (match last _ with Some _ => _ | None => _ end) as [q h]. by eexists.
Qed.

Section facts.
Context (uuid_ok : string -> bool).

(** A created segment is there, at version 1, and a rule given as nothing is
    the empty object. *)
Lemma CreateSegment_get p seg d out d' : CreateSegment uuid_ok p seg d = (Ok out, d') ->
  GetSegment p (sg_ID out) d' = Ok out /\ sg_Version out = 1 /\ sg_ID out ∉ sd_used d /\ (raw_len0 (sg_DSL seg) = true -> no_dsl (sg_DSL out) = true).
Proof.
  unfold CreateSegment, tx. destruct (sg_Name seg =s ""); [done|]. unfold_M. unfold new_id.
  destruct (checked _) as [o|e] eqn:E; [|done]. apply checked_inv in E as (Eid & Et & Ew & Ev & _ & j & Ej & Ej'). simpl in *.
  destruct (audit_segments uuid_ok p "segment.create" (sg_ID o) (JObject [("name", JString (sg_Name o))])
    (set_segments (<[sg_ID o := o]> (sd_segments d)) (set_used ({[fresh (sd_used d)]} ∪ sd_used d) d))) as [a Ea].
  unfold put. simpl. simpl in Ea. rewrite Ea. intros [= <- <-]. unfold GetSegment. simpl. rewrite lookup_insert_eq, Et, Ew, !seqb_refl. simpl.
  split; [done|]. split; [done|]. split; [rewrite Eid; apply is_fresh|]. intros Hl. rewrite Hl in Ej. injection Ej as <-. by rewrite Ej'.
Qed.

(** The first transaction, when every member is a profile of the tenant and no
    profile is listed twice: what each named profile's row becomes. *)
Definition acceptable (p : Principal) (d : SDB) (m : SegmentMember) : Prop :=
  uuid_ok (gm_ProfileID m) = true /\ (exists q, sd_profiles d !! gm_ProfileID m = Some q /\ Identity.pf_TenantID q = p_TenantID p) /\
  mem (or_default (gm_Membership m) "include") memberships = true.

Lemma add_members_spec p sid members d :
  Forall (acceptable p d) members -> NoDup (gm_ProfileID <$> members) ->
  (forall m, m ∈ members -> sd_members d !! (sid, gm_ProfileID m) = None) ->
  exists rows, iterM (add_member uuid_ok p sid) members d = (Ok tt, set_members rows d) /\
    (forall m, m ∈ members -> rows !! (sid, gm_ProfileID m) = Some (p_TenantID p, or_default (gm_Membership m) "include")) /\
    (forall k, (forall m, m ∈ members -> k <> (sid, gm_ProfileID m)) -> rows !! k = sd_members d !! k).
Proof.
  revert d. induction members as [|m l IH]; intros d Hok Hnd Hnone.
  { exists (sd_members d). split; [by destruct d|]. split; [intros m Hm; by apply elem_of_nil in Hm | done]. }
  inversion Hok as [|? ? (Hu & (q & Hq & Ht) & Hm) Hl]; subst. apply NoDup_cons in Hnd as [Hni Hnd].
  set (d1 := set_members (<[(sid, gm_ProfileID m) := (p_TenantID p, or_default (gm_Membership m) "include")]> (sd_members d)) d).
  assert (E : add_member uuid_ok p sid m d = (Ok tt, d1)).
  { unfold add_member. rewrite Hu, Hq, Ht, seqb_refl. cbn [negb]. rewrite Hm. cbn [negb]. by rewrite Hnone by apply list_elem_of_here. }
  assert (Hne : forall x, x ∈ l -> (sid, gm_ProfileID x) <> (sid, gm_ProfileID m)).
  { intros x Hx [=Hk]. apply Hni. rewrite <- Hk. apply list_elem_of_fmap. by exists x. }
  destruct (IH d1) as (rows & El & Hin & Hout).
  - done.
  - done.
  - intros x Hx. simpl. rewrite lookup_insert_ne by (intros Hk; symmetry in Hk; by apply Hne in Hk). apply Hnone. by right.
  - exists rows. simpl. unfold_M. rewrite E. split; [exact El|]. split.
    + intros x Hx. apply elem_of_cons in Hx as [->|Hx]; [|by apply Hin]. rewrite Hout; [apply lookup_insert_eq|].
      intros y Hy Hk. by apply (Hne y Hy).
    + intros k Hk. rewrite Hout by (intros x Hx; apply Hk; by right). simpl. apply lookup_insert_ne.
      intros Hk'. apply (Hk m); [apply list_elem_of_here | done].
Qed.

(** Replacing the members of a segment cannot succeed: whatever it is
    given it returns an error.  Given profiles of the tenant, each once, the
    error is the closed transaction's, after the replacement was committed:
    each listed profile has its row, the segment's other rows of the tenant
    are gone, and no audit row was written. *)
Theorem SetSegmentMembers_commits_then_fails p sid members d :
  is_Ok (GetSegment p sid d) = true -> Forall (acceptable p d) members -> NoDup (gm_ProfileID <$> members) ->
  (forall m, m ∈ members -> forall t x, sd_members d !! (sid, gm_ProfileID m) = Some (t, x) -> t = p_TenantID p) ->
  exists d', SetSegmentMembers uuid_ok p sid members d = (Err ErrTxClosed, d') /\ sd_audit d' = sd_audit d /\
    (forall m, m ∈ members -> membership (p_TenantID p) sid (gm_ProfileID m) d' = Some (or_default (gm_Membership m) "include")) /\
    (forall id, id ∉ gm_ProfileID <$> members -> membership (p_TenantID p) sid id d' = None).
Proof.
  intros Hg Hok Hnd Htenant. unfold SetSegmentMembers, replace_members, tx, audit_closed. destruct (GetSegment p sid d) as [s|]; [|done]. unfold_M.
  set (kept := filter (fun kv : (string * string) * (string * string) => ~ (kv.2.1 = p_TenantID p /\ kv.1.1 = sid)) (sd_members d)).
  unfold delete_members. fold kept. destruct (add_members_spec p sid members (set_members kept d)) as (rows & E & Hin & Hout); [done|done| |].
  { intros m Hm. simpl. unfold kept. apply map_lookup_filter_None. right. intros [t x] Hx Hc. apply Hc. split; [by apply (Htenant m Hm _ x) | done]. }
  rewrite E. eexists. split; [reflexivity|]. split; [done|]. unfold membership. simpl. split.
  - intros m Hm. by rewrite Hin, seqb_refl.
  - intros id Hid. rewrite Hout.
    + simpl. destruct (kept !! (sid, id)) as [[t x]|] eqn:Ek; [|done]. apply map_lookup_filter_Some in Ek as [_ Hc]. simpl in Hc.
      destruct (t =s p_TenantID p) eqn:Et; [|done]. apply seqb_true in Et. exfalso. by apply Hc.
    + intros m Hm [=Hk]. apply Hid. rewrite Hk. apply list_elem_of_fmap. by exists m.
Qed.

Lemma SetSegmentMembers_errs p sid members d : is_Ok (SetSegmentMembers uuid_ok p sid members d).1 = false.
Proof.
  unfold SetSegmentMembers, audit_closed. unfold_M. destruct (GetSegment p sid d); [|done].
  by destruct (replace_members uuid_ok p sid members d) as [[[]|] ?].
Qed.

(** An update raises a segment's version by one exactly when its rule
    changes as a JSON value: a rule that decodes to the same value, whatever
    its formatting or the order of its keys, keeps the version, and what is
    read back is what the update returned. *)
Theorem UpdateSegment_version p seg d existing out d' :
  GetSegment p (sg_ID seg) d = Ok existing -> UpdateSegment uuid_ok p seg d = (Ok out, d') ->
  GetSegment p (sg_ID seg) d' = Ok out /\
  (Any.DeepEqual (value_of (sg_DSL existing)) (value_of (sg_DSL seg)) = true -> sg_Version out = sg_Version existing) /\
  (Any.DeepEqual (value_of (sg_DSL existing)) (value_of (sg_DSL seg)) = false -> sg_Version out = sg_Version existing + 1).
Proof.
  intros Eg. unfold UpdateSegment, tx. rewrite Eg. unfold_M.
  destruct (checked _) as [o|e] eqn:E; [|done]. apply checked_inv in E as (Eid & Et & Ew & Ev & _ & _). simpl in *.
  destruct (audit_segments uuid_ok p "segment.update" (sg_ID o) (JObject [("name", JString (sg_Name o))])
    (set_segments (<[sg_ID o := o]> (sd_segments d)) d)) as [a Ea].
  unfold put. rewrite Ea. intros [= <- <-]. unfold GetSegment. simpl. rewrite Eid, lookup_insert_eq, Et, Ew, !seqb_refl. simpl.
  split; [done|]. rewrite Ev. by split; intros ->.
Qed.

End facts.

(** ** A demonstration *)

Definition demo_uuid (s : string) : bool := negb (s =s "").
Definition demo_principal : Principal := MkPrincipal "t" "w" "a" "k" "" "" [].
Definition demo_profile (id : string) : Identity.Prof := Identity.MkProf id "t" "w" "a" (Some id) None ∅ 1 None 0 0.
Definition demo_rule (v : string) : RawMessage :=
  Raw (JObject [("type", JString "profile_attribute"); ("field", JString "plan"); ("operator", JString "equals"); ("value", JString v)]).
Definition demo_rule' : RawMessage :=
  Raw (JObject [("value", JString "pro"); ("operator", JString "equals"); ("field", JString "plan"); ("type", JString "profile_attribute")]).
Definition demo_segment (dsl : RawMessage) : Segment := MkSegment "s" "t" "w" "pro users" "" "dynamic" "active" dsl 3.
Definition demo_db : SDB :=
  MkSDB {["1" := demo_profile "1"; "2" := demo_profile "2"]} [] [] [] [] None {["s" := demo_segment (demo_rule "pro")]}
    {[("s", "2") := ("t", "exclude")]} (Audit.MkADB [] ∅ 0) {["s"]} 10.

Lemma SetSegmentMembers_commits_then_fails_witness :
  exists d', SetSegmentMembers demo_uuid demo_principal "s" [MkSegmentMember "1" ""] demo_db = (Err ErrTxClosed, d') /\
    sd_audit d' = sd_audit demo_db /\
    (forall m, m ∈ [MkSegmentMember "1" ""] -> membership "t" "s" (gm_ProfileID m) d' = Some (or_default (gm_Membership m) "include")) /\
    (forall id, id ∉ gm_ProfileID <$> [MkSegmentMember "1" ""] -> membership "t" "s" id d' = None).
Proof.
  apply (SetSegmentMembers_commits_then_fails demo_uuid demo_principal "s" [MkSegmentMember "1" ""] demo_db).
  - reflexivity.
  - apply Forall_cons_2; [|apply Forall_nil_2]. split; [reflexivity|]. split; [|reflexivity]. exists (demo_profile "1"). by split.
  - apply NoDup_singleton.
  - intros m Hm t x. apply list_elem_of_singleton in Hm as ->. discriminate.
Defined.

Lemma UpdateSegment_version_witness :
  sg_Version <$> (UpdateSegment demo_uuid demo_principal (demo_segment demo_rule') demo_db).1 = Ok 3 /\
  exists out d', UpdateSegment demo_uuid demo_principal (demo_segment (demo_rule "free")) demo_db = (Ok out, d') /\ sg_Version out = 4.
Proof.
  split; [vm_compute; reflexivity|]. eexists _, _. split; [vm_compute; reflexivity|].
  exact (proj2 (proj2 (UpdateSegment_version demo_uuid demo_principal (demo_segment (demo_rule "free")) demo_db
    (demo_segment (demo_rule "pro")) _ _ eq_refl eq_refl)) eq_refl).
Defined.

(** A profile of another workspace of the tenant can be made a member: asking
    about it says yes, and resolving the segment leaves it out. *)
Definition foreign_db : SDB :=
  MkSDB {["1" := Identity.MkProf "1" "t" "other" "a" (Some "1") None ∅ 1 None 0 0]} [] [] [] [] None
    {["s" := demo_segment (Raw (JObject []))]} ∅ (Audit.MkADB [] ∅ 0) {["s"]} 10.
Definition foreign_member : SDB := (SetSegmentMembers demo_uuid demo_principal "s" [MkSegmentMember "1" "include"] foreign_db).2.
Example foreign_member_disagrees :
  @IsProfileInSegment SegmentsSpec.demo_driver demo_principal "s" "1" foreign_member = Ok true /\
  @ResolveSegment SegmentsSpec.demo_driver demo_principal "s" foreign_member = Ok ∅.
Proof. vm_compute. split; reflexivity. Qed.

End SegmentOps.
