(* ===== verification/Stages.v ===== *)
(** * Lifecycle stages (src/internal/stages/stages.go)

    Rules tie a stage to a segment.  [Apply] gives every profile of a
    workspace the stage of the first rule, by priority, whose segment it is
    in, by accepting events; the projector writes the profile. *)

From S2P Require Import Prelude.
From S2P Require Import GoStd.
From S2P Require Import GoMap.
From S2P Require Import Domain.

Module Stages.

Record StageRule : Type := MkStageRule {
  st_ID : string;
  st_TenantID : string;
  st_WorkspaceID : string;
  st_Stage : string;
  st_SegmentID : string;
  st_Priority : Z;
  st_Enabled : bool
}.

(** [Store], and the clock. *)
Class StageStore (W : Type) := {
  ListStageRuleScopes : M W (list (string * string));
  ListStageRules : string -> string -> M W (list StageRule);
  ResolveSegment : Principal -> string -> M W (list string);
  GetProfileByIDSystem : string -> string -> string -> M W Profile;
  GetFirstAppID : string -> string -> M W string;
  AcceptEvents : Principal -> list Event -> M W (list string);
  Now : M W Z
}.

(** The order of [sort.SliceStable]. *)
Definition before (a b : StageRule) : bool :=
  if negb (st_Priority a =? st_Priority b) then st_Priority b <? st_Priority a else GoMap.str_less (st_ID a) (st_ID b).

Definition considered (rule : StageRule) : bool := st_Enabled rule && negb (st_SegmentID rule =s "").
(** The first rule to claim a profile keeps it. *)
Definition claim (rule : StageRule) (profileIDs : list string) (assigned : gmap string StageRule) : gmap string StageRule :=
  fold_left (fun m id => match m !! id with Some _ => m | None => <[id := rule]> m end) profileIDs assigned.

Definition stage_event (rule : StageRule) (profileID : string) (profile : Profile) (now : Z) : Event :=
  MkEvent "stage.changed" 1 (prof_ExternalID profile) (prof_AnonymousID profile) ("stage:" +:+ st_ID rule +:+ ":" +:+ profileID) now
    "stage_rules" "" "" "" "" "" RawEmpty
    (Raw (JObject [("profile_id", JString profileID); ("rule_id", JString (st_ID rule)); ("stage", JString (st_Stage rule))])).
Definition profile_event (rule : StageRule) (profileID : string) (profile : Profile) (now : Z) : Event :=
  MkEvent "profile.updated" 1 (prof_ExternalID profile) (prof_AnonymousID profile) ("stage-profile:" +:+ st_ID rule +:+ ":" +:+ profileID) now
    "stage_rules" "" "" "" "" "" RawEmpty
    (Raw (JObject [("attributes", JObject [("stage", JString (st_Stage rule))])])).

(** [attrs["stage"] == rule.Stage], the attributes decoded into a map. *)
Definition stage_is (profile : Profile) (stage : string) : bool :=
  match prof_Attributes profile with
  | Raw (JObject l) => match Json.lookup "stage" l with Some (JString s) => s =s stage | _ => false end
  | _ => false
  end.

Definition system_principal (tenantID workspaceID appID : string) : Principal :=
  MkPrincipal tenantID workspaceID appID "" "" "system" ["*"].

Section apply.
Context {W : Type} `{StageStore W}.
(** The order in which a Go map is ranged over. *)
Context (range : gmap string StageRule -> list (string * StageRule)).

Fixpoint assign (p : Principal) (rules : list StageRule) (assigned : gmap string StageRule) : M W (gmap string StageRule) :=
  match rules with
  | [] => mret assigned
  | rule :: rules' =>
      if negb (considered rule) then assign p rules' assigned else
      r ← try (ResolveSegment p (st_SegmentID rule));
      match r with
      | Err e => throw (Errorf "resolve stage rule %s: %w" [AStr (st_ID rule); AWrap e])
      | Ok profileIDs => assign p rules' (claim rule profileIDs assigned)
      end
  end.

(** One profile: whether its stage is changed. *)
Definition change (p : Principal) (profileID : string) (rule : StageRule) : M W bool :=
  profile ← GetProfileByIDSystem (p_TenantID p) (p_WorkspaceID p) profileID;
  if stage_is profile (st_Stage rule) then mret false else
  now ← Now;
  _ ← AcceptEvents p [stage_event rule profileID profile now; profile_event rule profileID profile now];
  mret true.

Fixpoint change_all (p : Principal) (l : list (string * StageRule)) (changed : Z) : M W Z :=
  match l with
  | [] => mret changed
  | (profileID, rule) :: l' => b ← change p profileID rule; change_all p l' (if b : bool then changed + 1 else changed)
  end.

Definition Apply (tenantID workspaceID : string) : M W Z :=
  rules ← ListStageRules tenantID workspaceID;
  appID ← GetFirstAppID tenantID workspaceID;
  let p := system_principal tenantID workspaceID appID in
  assigned ← assign p (GoMap.sort_by before rules) ∅;
  change_all p (range assigned) 0.

(** The total of the scopes done, and the error that stopped the loop. *)
Fixpoint apply_scopes (scopes : list (string * string)) (total : Z) : M W (Z * option error) :=
  match scopes with
  | [] => mret (total, None)
  | (tenantID, workspaceID) :: scopes' =>
      r ← try (Apply tenantID workspaceID);
      match r with
      | Err e => mret (total, Some e)
      | Ok changed => apply_scopes scopes' (total + changed)
      end
  end.
Definition ApplyAll : M W (Z * option error) :=
  r ← try ListStageRuleScopes;
  match r with
  | Err e => mret (0, Some e)
  | Ok scopes => apply_scopes scopes 0
  end.

End apply.

(** ** The assignment *)

(** What a rule's segment resolves to. *)
Definition applies (members : string -> list string) (id : string) (rule : StageRule) : bool :=
  considered rule && bool_decide (id ∈ members (st_SegmentID rule)).

Lemma claim_lookup rule ids m id :
  claim rule ids m !! id = match m !! id with Some r => Some r | None => if bool_decide (id ∈ ids) then Some rule else None end.
Proof.
  unfold claim. revert m. induction ids as [|x ids IH]; intros m; simpl; [by destruct (m !! id)|]. rewrite IH.
  destruct (decide (id = x)) as [->|Hne].
  - destruct (m !! x) eqn:E; [by rewrite E|]. rewrite lookup_insert_eq. by rewrite bool_decide_true by apply list_elem_of_here.
  - replace (bool_decide (id ∈ x :: ids)) with (bool_decide (id ∈ ids)) by (apply bool_decide_ext; rewrite elem_of_cons; tauto).
    destruct (m !! x); [done|]. by rewrite lookup_insert_ne by done.
Qed.

Lemma before_asym a b : before a b = true -> before b a = false.
Proof.
  unfold before. rewrite (Z.eqb_sym (st_Priority b)). destruct (st_Priority a =? st_Priority b) eqn:E; simpl; [apply GoMap.str_less_asym | lia].
Qed.
Lemma before_trans a b c : before b a = false -> before c b = false -> before c a = false.
Proof.
  unfold before. destruct (st_Priority b =? st_Priority a) eqn:E1, (st_Priority c =? st_Priority b) eqn:E2, (st_Priority c =? st_Priority a) eqn:E3;
    simpl; try lia. apply GoMap.str_less_trans.
Qed.

Section assign.
Context {W : Type} `{StageStore W} (p : Principal) (members : string -> list string) (w : W).

(** Resolving only reads. *)
Definition resolves (rules : list StageRule) : Prop :=
  forall rule, rule ∈ rules -> considered rule = true -> ResolveSegment p (st_SegmentID rule) w = (Ok (members (st_SegmentID rule)), w).

Lemma assign_spec rules m : resolves rules -> exists m', assign p rules m w = (Ok m', w) /\
  forall id, m' !! id = match m !! id with Some r => Some r | None => find_first (applies members id) rules end.
Proof.
  revert m. induction rules as [|rule rules IH]; intros m Hr; simpl.
  { exists m. split; [done|]. intros id. by destruct (m !! id). }
  assert (Hr' : resolves rules) by (intros x Hx; apply Hr; by right).
  destruct (considered rule) eqn:Ec; simpl.
  2:{ destruct (IH m Hr') as (m' & E & Hm). exists m'. split; [exact E|]. intros id. rewrite Hm. unfold applies at 2. by rewrite Ec. }
  unfold_M. rewrite Hr by (done || apply list_elem_of_here).
  destruct (IH (claim rule (members (st_SegmentID rule)) m) Hr') as (m' & E & Hm). exists m'. split; [exact E|]. intros id.
  rewrite Hm, claim_lookup. destruct (m !! id); [done|]. assert (applies members id rule = bool_decide (id ∈ members (st_SegmentID rule))) as ->
    by (unfold applies; by rewrite Ec). by destruct (bool_decide _).
Qed.

(** The winner of a profile: a rule it is under that no such rule comes
    before. *)
Definition wins (rules : list StageRule) (id : string) (rule : StageRule) : Prop :=
  rule ∈ rules /\ applies members id rule = true /\ forall r, r ∈ rules -> applies members id r = true -> before r rule = false.

Lemma first_wins rules id rule : find_first (applies members id) (GoMap.sort_by before rules) = Some rule -> wins rules id rule.
Proof.
  intros E. assert (Hs : StronglySorted (GoMap.in_order before) (GoMap.sort_by before rules))
    by (apply GoMap.sort_by_sorted; [exact before_asym | exact before_trans]).
  assert (Hin : forall r, r ∈ rules <-> r ∈ GoMap.sort_by before rules) by (intros r; by rewrite GoMap.sort_by_perm).
  destruct (find_first_Some _ _ _ E) as [Hr Ha]. split; [by apply Hin|]. split; [done|]. setoid_rewrite Hin. clear Hin Hr.
  induction Hs as [|x l Hs IH Hf]; simpl in E; [done|]. intros r Hr Har. destruct (applies members id x) eqn:Ex.
  - injection E as <-. apply elem_of_cons in Hr as [->|Hr].
    + destruct (before x x) eqn:Eb; [|done]. by rewrite (before_asym _ _ Eb) in Eb.
    + rewrite Forall_forall in Hf. by apply Hf.
  - apply elem_of_cons in Hr as [->|Hr]; [congruence|]. by apply IH.
Qed.

(** Ids tell rules apart. *)
Lemma wins_unique rules id r r' : (forall a b, a ∈ rules -> b ∈ rules -> st_ID a = st_ID b -> a = b) ->
  wins rules id r -> wins rules id r' -> r = r'.
Proof.
  intros Hid (Hr & Ha & Hb) (Hr' & Ha' & Hb'). apply Hid; [done..|]. specialize (Hb r' Hr' Ha'). specialize (Hb' r Hr Ha).
  unfold before in *. rewrite (Z.eqb_sym (st_Priority r')) in *. destruct (st_Priority r =? st_Priority r') eqn:E; simpl in *; [|lia].
  destruct (decide (st_ID r = st_ID r')) as [|Hne]; [done|]. by rewrite (GoMap.str_less_total _ _ Hne Hb') in Hb.
Qed.
End assign.

End Stages.
