(* ===== verification/StagesSpec.v ===== *)
(** * Lifecycle stages over the segments and the event log

    The store of [Stages.Apply] made of the modelled segment evaluator and
    the modelled event acceptance: what a run that succeeds has done, when it
    does nothing, and the case in which it can only fail. *)

From S2P Require Import Prelude.
From S2P Require Import GoStd.
From S2P Require Import GoMap.
From S2P Require Import GoFloat.
From S2P Require Import Domain.
From S2P Require Import Store.
From S2P Require Import AuditLog.
From S2P Require Import Ingest.
From S2P Require Import IngestSpec.
From S2P Require Import Identity.
From S2P Require Import Audience.
From S2P Require Import Segments.
From S2P Require Import SegmentsSpec.
From S2P Require Import Stages.

Module StagesSpec.
Import Stages.

Record World : Type := MkWorld {
  w_sd : Segments.SDB;
  w_queue : Ingest.QDB;
  w_rules : list StageRule;
  w_apps : list (string * string * string)
}.
Definition set_queue q w := MkWorld (w_sd w) q (w_rules w) (w_apps w).

(** The columns of a profile as the struct. *)
Definition to_profile (q : Identity.Prof) : Profile :=
  MkProfile (Identity.pf_ID q) (default "" (Identity.pf_ExternalID q)) (default "" (Identity.pf_AnonymousID q))
    (Raw (JObject (map_to_list (Identity.pf_Attributes q)))) (Identity.pf_Version q) (Identity.pf_UpdatedAt q).

Section db.
Context `{Segments.Driver} (uuid_ok : string -> bool).

Definition of_scope (tenantID workspaceID : string) (r : StageRule) : bool :=
  (st_TenantID r =s tenantID) && (st_WorkspaceID r =s workspaceID) && st_Enabled r.
Definition scope_less (a b : string * string) : bool :=
  if a.1 =s b.1 then GoMap.str_less a.2 b.2 else GoMap.str_less a.1 b.1.

#[export] Instance db_store : StageStore World := {
  ListStageRuleScopes w :=
    (Ok (GoMap.sort_by scope_less (remove_dups ((fun r => (st_TenantID r, st_WorkspaceID r)) <$> filter (fun r => st_Enabled r = true) (w_rules w)))), w);
  ListStageRules tenantID workspaceID w := (Ok (GoMap.sort_by before (filter (fun r => of_scope tenantID workspaceID r = true) (w_rules w))), w);
  ResolveSegment p id w := (elements <$> Segments.ResolveSegment p id (w_sd w), w);
  GetProfileByIDSystem tenantID workspaceID id w :=
    (match Segments.sd_profiles (w_sd w) !! id with
     | Some q => if Segments.in_workspace tenantID workspaceID q then Ok (to_profile q) else Err ErrNotFound
     | None => Err ErrNotFound
     end, w);
  GetFirstAppID tenantID workspaceID w :=
    (match GoMap.sort_by GoMap.str_less (snd <$> filter (fun a => bool_decide (a.1 = (tenantID, workspaceID)) = true) (w_apps w)) with
     | app :: _ => Ok app
     | [] => Err Ingest.ErrNoRows
     end, w);
  AcceptEvents p events w := let '(r, q) := Ingest.AcceptEvents uuid_ok p events (w_queue w) in (r, set_queue q w);
  Now w := (Ok (Ingest.q_now (w_queue w)), w)
}.

Context (range : gmap string StageRule -> list (string * StageRule)).
Hypothesis Hrange : forall m, range m ≡ₚ map_to_list m.

(** ** What is to be done *)

Definition members (p : Principal) (w : World) (segmentID : string) : list string :=
  match Segments.ResolveSegment p segmentID (w_sd w) with Ok s => elements s | Err _ => [] end.
Definition rules_of (tenantID workspaceID : string) (w : World) : list StageRule :=
  filter (fun r => of_scope tenantID workspaceID r = true) (w_rules w).
(** The winner of a profile. *)
Definition winner (p : Principal) (w : World) : string -> StageRule -> Prop :=
  wins (members p w) (rules_of (p_TenantID p) (p_WorkspaceID p) w).
Definition current (w : World) (id : string) (rule : StageRule) : bool :=
  match Segments.sd_profiles (w_sd w) !! id with Some q => stage_is (to_profile q) (st_Stage rule) | None => false end.
(** Its change has been accepted. *)
Definition accepted (p : Principal) (w w' : World) (id : string) (rule : StageRule) : Prop :=
  exists q now i j, Segments.sd_profiles (w_sd w) !! id = Some q /\
    IngestSpec.settled p (stage_event rule id (to_profile q) now) i (w_queue w') /\
    IngestSpec.settled p (profile_event rule id (to_profile q) now) j (w_queue w').

Lemma assign_Ok p rules m w m' w' : assign p rules m w = (Ok m', w') -> w' = w /\ resolves p (members p w) w rules.
Proof.
  revert m. induction rules as [|rule rules IH]; intros m E; simpl in E.
  { injection E as <- <-. split; [done|]. intros r Hr. by apply elem_of_nil in Hr. }
  destruct (considered rule) eqn:Ec; simpl in E.
  - unfold_M. destruct (Segments.ResolveSegment p (st_SegmentID rule) (w_sd w)) as [s|e] eqn:Es; simpl in E; [|done].
    apply IH in E as [-> Hr]. split; [done|]. intros r Hin Hc. apply elem_of_cons in Hin as [->|Hin]; [|by apply Hr].
    simpl. unfold members. by rewrite Es.
  - apply IH in E as [-> Hr]. split; [done|]. intros r Hin Hc. apply elem_of_cons in Hin as [->|Hin]; [congruence | by apply Hr].
Qed.

(** ** The log *)

(** The audit rows and the quota's windows are no part of what settles an event. *)
Lemma settled_audited p e id x ws d : IngestSpec.settled p e id d -> IngestSpec.settled p e id (Ingest.set_audit x (Ingest.set_windows ws d)).
Proof. intros [H1 H2 H3 H4 H5]. by constructor. Qed.

Lemma AcceptEvents_settles p events d ids d' : IngestSpec.log_ok d -> Ingest.AcceptEvents uuid_ok p events d = (Ok ids, d') ->
  IngestSpec.log_ok d' /\ Forall2 (fun e i => IngestSpec.settled p e i d') events ids /\
  (forall p' e' i', IngestSpec.settled p' e' i' d -> IngestSpec.settled p' e' i' d') /\ Ingest.q_now d' = Ingest.q_now d.
Proof.
  intros Hok Ha. apply IngestSpec.AcceptEvents_Ok in Ha as (b & m & d1 & a & Hq & Hb & Hall & _ & ->).
  destruct (IngestSpec.accept_all_settles _ _ _ _ _ Hok Hall) as (Hok1 & Hs & Hk & _ & Hn). set (d' := Ingest.set_audit _ _).
  split; [by apply (IngestSpec.log_ok_ext d1)|]. split; [|split; [|done]].
  - eapply Forall2_impl; [exact Hs|]. intros e i. apply settled_audited.
  - intros p' e' i' Hx. by apply settled_audited, Hk.
Qed.

Lemma accept_all_keeps p events d ids d' i a : IngestSpec.log_ok d -> Ingest.accept_all p events d = (Ok ids, d') ->
  Ingest.q_accepted d !! i = Some a -> Ingest.q_accepted d' !! i = Some a.
Proof.
  revert d ids. induction events as [|e events IH]; intros d ids Hok E Hi; simpl in E; [by injection E as _ <-|].
  apply bindM_Ok in E as (id & d2 & H1 & E). apply bindM_Ok in E as (ids' & d3 & H2 & E). injection E as _ <-.
  destruct (IngestSpec.accept_one_settles _ _ _ _ _ Hok H1) as (Hok2 & _). apply (IH d2 ids'); [done | done|].
  by apply (IngestSpec.accept_one_keeps p e d id d2).
Qed.

(** ** The changes *)

(** One change that succeeds. *)
Lemma change_Ok p id rule w b w' : IngestSpec.log_ok (w_queue w) -> change p id rule w = (Ok b, w') ->
  IngestSpec.log_ok (w_queue w') /\ w_sd w' = w_sd w /\ w_rules w' = w_rules w /\ Ingest.q_now (w_queue w') = Ingest.q_now (w_queue w) /\
  (forall p' e' i', IngestSpec.settled p' e' i' (w_queue w) -> IngestSpec.settled p' e' i' (w_queue w')) /\
  b = negb (current w id rule) /\ (b = true -> accepted p w w' id rule).
Proof.
  intros Hok E. unfold change in E. apply bindM_Ok in E as (q & w1 & E1 & E). simpl in E1.
  destruct (Segments.sd_profiles (w_sd w) !! id) as [q0|] eqn:Eq; [|done]. destruct (Segments.in_workspace _ _ q0); [|done].
  injection E1 as <- <-. destruct (stage_is (to_profile q0) (st_Stage rule)) eqn:Est.
  { injection E as <- <-. split; [done|]. repeat (split; [done|]). unfold current. by rewrite Eq, Est. }
  unfold_M. simpl in E. destruct (Ingest.AcceptEvents _ _ _ _) as [[ids|e] d'] eqn:Ea; [|done]. injection E as <- <-.
  destruct (AcceptEvents_settles _ _ _ _ _ Hok Ea) as (Hok' & Hs & Hk & Hn). simpl. split; [done|]. repeat (split; [done|]). split.
  - unfold current. by rewrite Eq, Est.
  - intros _. inversion Hs as [|? i ? l Hi Hl]; subst. inversion Hl as [|? j ? l' Hj _]; subst. by exists q0, (Ingest.q_now (w_queue w)), i, j.
Qed.

Lemma accepted_later p w w1 w' id rule :
  (forall p' e' i', IngestSpec.settled p' e' i' (w_queue w1) -> IngestSpec.settled p' e' i' (w_queue w')) ->
  accepted p w w1 id rule -> accepted p w w' id rule.
Proof. intros Hk (q & now & i & j & Hq & Hi & Hj). exists q, now, i, j. auto. Qed.

Definition pending (w : World) (kr : string * StageRule) : bool := negb (current w kr.1 kr.2).

Lemma change_all_Ok p l c w n w' : IngestSpec.log_ok (w_queue w) -> change_all p l c w = (Ok n, w') ->
  w_sd w' = w_sd w /\ n = c + countb (pending w) l /\
  (forall p' e' i', IngestSpec.settled p' e' i' (w_queue w) -> IngestSpec.settled p' e' i' (w_queue w')) /\
  forall id rule, (id, rule) ∈ l -> current w id rule = true \/ accepted p w w' id rule.
Proof.
  revert c w. induction l as [|[id rule] l IH]; intros c w Hok E; simpl in E.
  { injection E as <- <-. split; [done|]. split; [simpl; lia|]. split; [done|]. intros id rule Hin. by apply elem_of_nil in Hin. }
  apply bindM_Ok in E as (b & w1 & E1 & E). destruct (change_Ok _ _ _ _ _ _ Hok E1) as (Hok1 & Hsd & _ & _ & Hk1 & Hb & Hacc).
  destruct (IH _ _ Hok1 E) as (Hsd' & -> & Hk & Hl).
  assert (Hcur : forall i r, current w1 i r = current w i r) by (intros; unfold current; by rewrite Hsd).
  assert (Hc : countb (pending w1) l = countb (pending w) l) by (apply countb_ext; intros [i r] _; unfold pending; by rewrite Hcur).
  split; [congruence|]. split; [|split].
  - simpl. rewrite Hc. unfold pending at 2. simpl. rewrite <- Hb. destruct b; lia.
  - intros. by apply Hk, Hk1.
  - intros i r Hin. apply elem_of_cons in Hin as [[= -> ->]|Hin].
    + destruct (current w id rule) eqn:Ec; [by left|]. right. apply (accepted_later _ _ w1); [done|]. by apply Hacc; rewrite Hb.
    + destruct (Hl i r Hin) as [Hx|(q & now & x & y & Hq & Hs)]; [left; by rewrite <- Hcur|]. right. exists q, now, x, y. by rewrite <- Hsd.
Qed.

(** ** A run *)

Lemma countb_filter {A} (f : A -> bool) (l : list A) : countb f l = Z.of_nat (length (filter (fun x => f x = true) l)).
Proof.
  induction l as [|x l IH]; [done|]. simpl. rewrite filter_cons. destruct (f x) eqn:E; case_decide; try congruence; simpl; lia.
Qed.
Lemma NoDup_fmap_filter {A B} (f : A -> B) (g : A -> bool) (l : list A) : NoDup (f <$> l) -> NoDup (f <$> filter (fun x => g x = true) l).
Proof.
  induction l as [|x l IH]; [done|]. rewrite fmap_cons, NoDup_cons. intros [Hni Hnd]. rewrite filter_cons. case_decide; [|by apply IH].
  rewrite fmap_cons, NoDup_cons. split; [|by apply IH]. intros (y & Ey & Hy)%list_elem_of_fmap. apply list_elem_of_filter in Hy as [_ Hy].
  apply Hni, list_elem_of_fmap. by exists y.
Qed.
Lemma wins_perm ms rules rules' id rule : rules ≡ₚ rules' -> wins ms rules id rule <-> wins ms rules' id rule.
Proof. intros Hp. unfold wins. by setoid_rewrite Hp. Qed.

Lemma assigned_winner p w (m : gmap string StageRule) id rule rules : NoDup (st_ID <$> rules) ->
  (forall i, m !! i = find_first (applies (members p w) i) (GoMap.sort_by before rules)) ->
  m !! id = Some rule <-> wins (members p w) rules id rule.
Proof.
  intros Hnd Hm. rewrite Hm. split; [apply first_wins|]. intros Hw.
  assert (Hinj : forall a b, a ∈ rules -> b ∈ rules -> st_ID a = st_ID b -> a = b).
  { intros a b Ha Hb Eab. clear -Hnd Ha Hb Eab. induction rules as [|x l IH]; [by apply elem_of_nil in Ha|]. apply NoDup_cons in Hnd as [Hni Hnd].
    apply elem_of_cons in Ha as [->|Ha], Hb as [->|Hb]; [done|..|by apply IH]; exfalso; apply Hni, list_elem_of_fmap; [exists b | exists a]; by rewrite ?Eab. }
  destruct (find_first _ _) as [r|] eqn:E.
  - apply first_wins in E. f_equal. by apply (wins_unique (members p w) rules id).
  - apply find_first_None in E. rewrite Forall_forall in E. destruct Hw as (Hr & Ha & _). rewrite E in Ha; [done|].
    by rewrite GoMap.sort_by_perm.
Qed.

(** A run of the stage rules that succeeds has given every profile its
    stage: for each profile under some enabled rule of the workspace, with the
    winning rule the one of highest priority (the smallest id among equals)
    whose segment resolves to it, either its stage is already the rule's, or
    the events changing it are in the event log and the projection queue; the
    answer counts the profiles changed, each once, and the profiles are left
    to the projector. *)
Theorem Apply_gives_stages tenantID workspaceID w n w' :
  IngestSpec.log_ok (w_queue w) -> NoDup (st_ID <$> w_rules w) -> Apply range tenantID workspaceID w = (Ok n, w') ->
  exists appID changes, let p := system_principal tenantID workspaceID appID in
    GetFirstAppID tenantID workspaceID w = (Ok appID, w) /\ w_sd w' = w_sd w /\ n = Z.of_nat (length changes) /\ NoDup changes.*1 /\
    (forall id rule, (id, rule) ∈ changes <-> winner p w id rule /\ current w id rule = false) /\
    (forall id rule, winner p w id rule -> current w id rule = true \/ accepted p w w' id rule).
Proof.
  intros Hok Hnd E. unfold Apply in E. apply bindM_Ok in E as (rules & w1 & E1 & E). injection E1 as <- <-.
  apply bindM_Ok in E as (appID & w1 & E1 & E). assert (Eapp : GetFirstAppID tenantID workspaceID w = (Ok appID, w)).
  { simpl in E1 |- *. destruct (GoMap.sort_by GoMap.str_less _) as [|app apps]; [done|]. by injection E1 as -> _. }
  rewrite Eapp in E1. injection E1 as <-. cbv zeta in E.
  set (p := system_principal tenantID workspaceID appID) in *. set (rules := rules_of tenantID workspaceID w).
  apply bindM_Ok in E as (m & w1 & E1 & E). fold (rules_of tenantID workspaceID w) in E1. fold rules in E1.
  destruct (assign_Ok _ _ _ _ _ _ E1) as [-> Hr]. destruct (assign_spec p (members p w) w _ ∅ Hr) as (m' & E1' & Hm). rewrite E1 in E1'.
  injection E1' as <-. destruct (change_all_Ok _ _ _ _ _ _ Hok E) as (Hsd & -> & _ & Hall). exists appID, (filter (fun kr => pending w kr = true) (range m)).
  assert (Hw : forall id rule, (id, rule) ∈ range m <-> winner p w id rule).
  { intros id rule. rewrite Hrange, elem_of_map_to_list. unfold winner. simpl. fold rules.
    rewrite (wins_perm _ rules (GoMap.sort_by before rules)) by (by rewrite GoMap.sort_by_perm).
    apply assigned_winner; [rewrite GoMap.sort_by_perm; by apply NoDup_fmap_filter|]. intros i. by rewrite Hm, lookup_empty. }
  cbv zeta. fold p. split; [exact Eapp|]. split; [done|]. split; [by rewrite Z.add_0_l, countb_filter|]. split.
  - apply NoDup_fmap_filter. rewrite Hrange. apply NoDup_fst_map_to_list.
  - split.
    + intros id rule. rewrite list_elem_of_filter, Hw. unfold pending. simpl. rewrite negb_true_iff. tauto.
    + intros id rule Hx. by apply Hall, Hw.
Qed.

(** ** Runs that do nothing, and runs that cannot succeed *)

(** The event of an earlier change of the profile to the rule's stage, at
    another time. *)
Definition changed_before (p : Principal) (w : World) (id : string) (rule : StageRule) : Prop :=
  exists i a, Ingest.q_accepted (w_queue w) !! i = Some a /\ p_TenantID (ae_Principal a) = p_TenantID p /\
    p_AppID (ae_Principal a) = p_AppID p /\ ae_IdempotencyKey a = "stage:" +:+ st_ID rule +:+ ":" +:+ id /\
    ae_OccurredAt a <> Time.Truncate (Ingest.q_now (w_queue w)) 1000.

Lemma AcceptEvents_keeps p events d ids d' i a : IngestSpec.log_ok d -> Ingest.AcceptEvents uuid_ok p events d = (Ok ids, d') ->
  Ingest.q_accepted d !! i = Some a -> Ingest.q_accepted d' !! i = Some a.
Proof.
  intros Hok Ha Hi. apply IngestSpec.AcceptEvents_Ok in Ha as (b & m & d1 & x & Hq & Hb & Hall & _ & ->). simpl.
  by apply (accept_all_keeps p events d ids d1).
Qed.

Lemma change_keeps p id rule w b w' q i r : IngestSpec.log_ok (w_queue w) -> change p id rule w = (Ok b, w') ->
  changed_before q w i r -> changed_before q w' i r.
Proof.
  intros Hok E (k & a & Hk & Ha). exists k, a. assert (Hnow : Ingest.q_now (w_queue w') = Ingest.q_now (w_queue w)) by by eapply change_Ok.
  rewrite Hnow. split; [|done]. unfold change in E. apply bindM_Ok in E as (prof & w1 & E1 & E). injection E1 as _ <-.
  destruct (stage_is prof (st_Stage rule)); [by injection E as _ <-|]. unfold_M. simpl in E.
  destruct (Ingest.AcceptEvents _ _ _ _) as [[ids|e] d'] eqn:Ea; [|done]. injection E as _ <-. by apply (AcceptEvents_keeps _ _ _ _ _ _ _ Hok Ea).
Qed.

Lemma change_conflicts p id rule w : IngestSpec.log_ok (w_queue w) -> current w id rule = false -> changed_before p w id rule ->
  is_Ok (change p id rule w).1 = false.
Proof.
  intros Hok Hc (i & a & Hi & Ht & Happ & Hkey & Hat). unfold change, current in *. unfold_M. simpl.
  destruct (Segments.sd_profiles (w_sd w) !! id) as [q|]; [|done]. destruct (Segments.in_workspace _ _ q); [|done]. rewrite Hc.
  unfold Ingest.AcceptEvents, Ingest.tx, Ingest.gets. unfold_M. destruct (Ingest.q_quotas (w_queue w) !! _) as [[mb pm]|]; [|done].
  destruct (mb <? _); [done|]. set (e := stage_event rule id (to_profile q) (Ingest.q_now (w_queue w))).
  set (e' := profile_event rule id (to_profile q) (Ingest.q_now (w_queue w))).
  destruct (IngestSpec.conflict_all p [e; e'] e (w_queue w) i a Hok Hi) as [err Herr].
  - apply list_elem_of_here.
  - apply IngestSpec.same_key_eq. by split; [|split].
  - unfold Ingest.differs. simpl. rewrite (proj2 (Z.eqb_neq _ _) Hat). simpl. by rewrite !orb_true_r.
  - destruct (Ingest.accept_all p [e; e'] (w_queue w)) as [[ids|x] d2]; [discriminate | done].
Qed.

Lemma change_all_conflicts p l c w id rule : IngestSpec.log_ok (w_queue w) -> (id, rule) ∈ l -> current w id rule = false ->
  changed_before p w id rule -> is_Ok (change_all p l c w).1 = false.
Proof.
  revert c w. induction l as [|[i r] l IH]; intros c w Hok Hin Hc Hb; [by apply elem_of_nil in Hin|]. simpl.
  unfold mbind, M_bind. destruct (change p i r w) as [[b|e] w1] eqn:E; [|done].
  apply elem_of_cons in Hin as [[= <- <-]|Hin]; [pose proof (change_conflicts p id rule w Hok Hc Hb) as Hx; by rewrite E in Hx|].
  destruct (change_Ok _ _ _ _ _ _ Hok E) as (Hok1 & Hsd & _). apply IH; [done | done | unfold current; by rewrite Hsd|].
  by apply (change_keeps p i r w b w1).
Qed.

(** A profile cannot be given a stage by the same rule twice: when it has
    left the stage since (or its first change has not been projected yet) and
    the rule wins again, the two events reuse their idempotency keys at
    another time, event acceptance refuses them, and the whole run fails --
    for every other profile of the workspace left, and, as [ApplyAll] stops at
    the first error, for every workspace after it. *)
Theorem stage_reentry_fails tenantID workspaceID appID w id rule :
  let p := system_principal tenantID workspaceID appID in
  IngestSpec.log_ok (w_queue w) -> NoDup (st_ID <$> w_rules w) -> GetFirstAppID tenantID workspaceID w = (Ok appID, w) ->
  winner p w id rule -> current w id rule = false -> changed_before p w id rule ->
  is_Ok (Apply range tenantID workspaceID w).1 = false /\
  forall scopes total, exists e w', apply_scopes range ((tenantID, workspaceID) :: scopes) total w = (Ok (total, Some e), w').
Proof.
  intros p Hok Hnd Happ Hwin Hcur Hbefore.
  assert (Hmain : is_Ok (Apply range tenantID workspaceID w).1 = false).
  { destruct (Apply range tenantID workspaceID w) as [[n|e] w'] eqn:E; [|done]. exfalso. unfold Apply in E.
    apply bindM_Ok in E as (rules & w1 & E1 & E). injection E1 as <- <-. rewrite (bindM_eq _ _ _ _ _ Happ) in E. cbv zeta in E. fold p in E.
    apply bindM_Ok in E as (m & w1 & E1 & E). set (rules := rules_of tenantID workspaceID w) in *. fold (rules_of tenantID workspaceID w) in E1. fold rules in E1.
    destruct (assign_Ok _ _ _ _ _ _ E1) as [-> Hr]. destruct (assign_spec p (members p w) w _ ∅ Hr) as (m' & E1' & Hm). rewrite E1 in E1'.
    injection E1' as <-. pose proof (change_all_conflicts p (range m) 0 w id rule Hok) as Hx. rewrite E in Hx. discriminate Hx; try done.
    rewrite Hrange. apply elem_of_map_to_list.
    apply (assigned_winner p w m id rule (GoMap.sort_by before rules)); [rewrite GoMap.sort_by_perm; by apply NoDup_fmap_filter | intros i; by rewrite Hm, lookup_empty|].
    rewrite (wins_perm _ _ rules) by (by rewrite GoMap.sort_by_perm). exact Hwin. }
  split; [exact Hmain|]. intros scopes total. simpl. unfold_M. destruct (Apply range tenantID workspaceID w) as [[n|e] w'] eqn:E; [done|]. by exists e, w'.
Qed.

(** When every profile has the stage of its winner, a run changes nothing. *)
Lemma Apply_idle tenantID workspaceID w n w' :
  IngestSpec.log_ok (w_queue w) -> NoDup (st_ID <$> w_rules w) ->
  (forall appID id rule, winner (system_principal tenantID workspaceID appID) w id rule -> current w id rule = true) ->
  Apply range tenantID workspaceID w = (Ok n, w') -> n = 0.
Proof.
  intros Hok Hnd Hall E. unfold Apply in E. apply bindM_Ok in E as (rules & w1 & E1 & E). injection E1 as <- <-.
  apply bindM_Ok in E as (appID & w1 & E1 & E). simpl in E1. destruct (GoMap.sort_by GoMap.str_less _) as [|app apps]; [done|]. injection E1 as -> <-.
  cbv zeta in E. set (p := system_principal tenantID workspaceID appID) in *. set (rules := rules_of tenantID workspaceID w).
  apply bindM_Ok in E as (m & w1 & E1 & E). fold (rules_of tenantID workspaceID w) in E1. fold rules in E1.
  destruct (assign_Ok _ _ _ _ _ _ E1) as [-> Hr]. destruct (assign_spec p (members p w) w _ ∅ Hr) as (m' & E1' & Hm). rewrite E1 in E1'.
  injection E1' as <-. destruct (change_all_Ok _ _ _ _ _ _ Hok E) as (_ & -> & _). rewrite countb_none; [lia|].
  intros [id rule] Hin. unfold pending. simpl. apply negb_false_iff, (Hall appID). unfold winner. simpl. fold rules.
  rewrite (wins_perm _ rules (GoMap.sort_by before rules)) by (by rewrite GoMap.sort_by_perm).
  apply (assigned_winner p w m id rule); [rewrite GoMap.sort_by_perm; by apply NoDup_fmap_filter | intros i; by rewrite Hm, lookup_empty|].
  apply elem_of_map_to_list. by rewrite <- Hrange.
Qed.

End db.
(** ** A demonstration *)

#[local] Existing Instance SegmentsSpec.SegmentsSpec.demo_driver.

Definition demo_uuid (s : string) : bool := false.
Definition demo_profile (stage : string) : Identity.Prof :=
  Identity.MkProf "1" "t" "w" "a" (Some "ada") None {["stage" := JString stage]} 1 None 0 0.
Definition demo_sd (stage : string) : Segments.SDB :=
  Segments.MkSDB {["1" := demo_profile stage]} [] [] [] [] None
    {["s" := Segments.MkSegment "s" "t" "w" "everyone" "" "static" "active" (Raw (JObject [])) 1]} {[("s", "1") := ("t", "include")]}
    (Audit.MkADB [] ∅ 0) ∅ 10.
Definition demo_rules : list StageRule :=
  [MkStageRule "r1" "t" "w" "lead" "s" 5 true; MkStageRule "r2" "t" "w" "customer" "s" 10 true].
Definition demo_queue (accepted : gmap string AcceptedEvent) (used : gset string) (now : Z) : Ingest.QDB :=
  Ingest.MkQDB accepted ∅ 0 [] {["t" := (100, 1000)]} ∅ [] [] [] (Audit.MkADB [] ∅ now) ∅ used now.
Definition demo_world : World := MkWorld (demo_sd "lead") (demo_queue ∅ ∅ 5000) demo_rules [("t", "w", "a")].
Definition demo_range : gmap string StageRule -> list (string * StageRule) := map_to_list.
Definition demo_system : Principal := system_principal "t" "w" "a".

Lemma demo_range_ok m : demo_range m ≡ₚ map_to_list m.
Proof. done. Qed.
Lemma demo_log used now : IngestSpec.log_ok (demo_queue ∅ used now).
Proof. split; [intros i a Hi; discriminate Hi | intros i j a b Hi; discriminate Hi]. Qed.
Lemma demo_profile_ids : NoDup (st_ID <$> demo_rules).
Proof. apply (bool_decide_unpack _). vm_compute. exact I. Qed.

Lemma demo_winner w : w_sd w = demo_sd "lead" -> w_rules w = demo_rules -> winner demo_system w "1" (MkStageRule "r2" "t" "w" "customer" "s" 10 true).
Proof.
  intros Hsd Hr. unfold winner, members, rules_of. rewrite Hsd, Hr.
  assert (filter (fun r => of_scope (p_TenantID demo_system) (p_WorkspaceID demo_system) r = true) demo_rules = demo_rules) as -> by (vm_compute; reflexivity).
  split; [right; left|]. split; [vm_compute; reflexivity|]. intros r Hr' _.
  apply elem_of_cons in Hr' as [->|Hr']; [vm_compute; reflexivity|]. apply list_elem_of_singleton in Hr' as ->. vm_compute. reflexivity.
Qed.

(** The lead becomes a customer: the rule of higher priority wins. *)
Lemma Apply_gives_stages_witness :
  exists w', Apply (H := db_store demo_uuid) demo_range "t" "w" demo_world = (Ok 1, w') /\
    accepted demo_system demo_world w' "1" (MkStageRule "r2" "t" "w" "customer" "s" 10 true).
Proof.
  destruct (Apply (H := db_store demo_uuid) demo_range "t" "w" demo_world) as [r w'] eqn:E.
  assert (Er : r = Ok 1) by (apply (f_equal fst) in E; vm_compute in E; symmetry; exact E). subst r. exists w'. split; [reflexivity|].
  destruct (Apply_gives_stages demo_uuid demo_range demo_range_ok "t" "w" demo_world 1 w' (demo_log ∅ 5000) demo_profile_ids E)
    as (app & changes & Happ & _ & _ & _ & _ & Hw).
  assert (app = "a") as -> by (vm_compute in Happ; injection Happ as <-; reflexivity).
  destruct (Hw "1" _ (demo_winner demo_world eq_refl eq_refl)) as [Hcur|Hacc].
  - vm_compute in Hcur. discriminate Hcur.
  - exact Hacc.
Defined.

(** Its profile is a lead again (or still, before the projector runs) and the
    rule wins again at a later time. *)
Definition earlier_event : AcceptedEvent :=
  MkAcceptedEvent "e" (Ingest.owner demo_system) "stage.changed" 1 "ada" "" "stage:r2:1" 5000 5000 "stage_rules" "" "" "" "" "internal"
    (Raw (JObject [])) (Raw (JObject [])).
Definition demo_again : World := MkWorld (demo_sd "lead") (demo_queue {["e" := earlier_event]} {["e"]} 9000) demo_rules [("t", "w", "a")].

Lemma demo_again_log : IngestSpec.log_ok (w_queue demo_again).
Proof.
  split.
  - intros i a Hi. simpl in Hi. apply lookup_singleton_Some in Hi as [<- <-]. split; [reflexivity | set_solver].
  - intros i j a b Hi Hj _ _ _. simpl in Hi, Hj. apply lookup_singleton_Some in Hi as [<- _]. by apply lookup_singleton_Some in Hj as [<- _].
Qed.

Lemma stage_reentry_fails_witness :
  is_Ok (Apply (H := db_store demo_uuid) demo_range "t" "w" demo_again).1 = false /\
  forall scopes total, exists e w', apply_scopes (H := db_store demo_uuid) demo_range (("t", "w") :: scopes) total demo_again = (Ok (total, Some e), w').
Proof.
  apply (stage_reentry_fails demo_uuid demo_range demo_range_ok "t" "w" "a" demo_again "1" (MkStageRule "r2" "t" "w" "customer" "s" 10 true)).
  - exact demo_again_log.
  - exact demo_profile_ids.
  - vm_compute. reflexivity.
  - apply demo_winner; reflexivity.
  - vm_compute. reflexivity.
  - exists "e", earlier_event. split; [reflexivity|]. split; [reflexivity|]. split; [reflexivity|]. split; [reflexivity|]. vm_compute. discriminate.
Defined.

End StagesSpec.
