(* ===== verification/Scoring.v ===== *)
(** * Scoring expressions (src/internal/scoring/expression.go, eval.go)

    The Go expressions a scoring model is written in, their evaluation over
    an environment of profile attributes and event counts, the event counts an
    expression asks for, and the evaluation cases of a model version.

    [go/parser] gives the tree and [strconv.Unquote] the string literals: they
    are parameters.  The environments are what the code builds: decoded JSON
    and float64 counts. *)

From Stdlib Require Import Ascii.
From S2P Require Import Prelude.
From S2P Require Import GoStd.
From S2P Require Import GoMap.
From S2P Require Import GoFloat.
From S2P Require Import Domain.
From Stdlib Require Import Floats.SpecFloat.

Module Scoring.

(** ** Syntax (go/ast, go/token) *)

Inductive LitKind : Type := INT | FLOAT | STRING | OtherLit (name : string).
Inductive token : Type :=
  | ADD | SUB | MUL | QUO | LSS | GTR | LEQ | GEQ | EQL | NEQ | LAND | LOR | NOT | OtherToken (text : string).
(** [OtherExpr] is any other node: its Go type and its children. *)
Inductive Expr : Type :=
  | ParenExpr (X : Expr)
  | BasicLit (Kind : LitKind) (Value : string)
  | Ident (Name : string)
  | SelectorExpr (X : Expr) (Sel : string)
  | UnaryExpr (Op : token) (X : Expr)
  | BinaryExpr (X : Expr) (Op : token) (Y : Expr)
  | OtherExpr (type : string) (children : list Expr).

Definition kind_text (k : LitKind) : string := match k with INT => "INT" | FLOAT => "FLOAT" | STRING => "STRING" | OtherLit n => n end.
Definition token_text (t : token) : string :=
  match t with
  | ADD => "+" | SUB => "-" | MUL => "*" | QUO => "/" | LSS => "<" | GTR => ">" | LEQ => "<=" | GEQ => ">=" | EQL => "==" | NEQ => "!="
  | LAND => "&&" | LOR => "||" | NOT => "!" | OtherToken s => s
  end.
(** [%T] of a value. *)
Definition type_text (v : any) : string :=
  match v with
  | ANil => "<nil>" | ABool _ => "bool" | AFloat _ => "float64" | AString _ => "string" | AArray _ => "[]interface {}"
  | AMap _ => "map[string]interface {}"
  end.

(** ** Evaluation *)

Definition toFloat (v : any) : option Float.float64 := match v with AFloat f => Some f | _ => None end.
Definition division_by_zero : error := errors_New "division by zero".
Definition fail {A} (fmt : string) (args : list string) : result A := Err (Errorf fmt (AStr <$> args)).

Definition number_op (op : token) (l r : Float.float64) : result any :=
  match op with
  | ADD => Ok (AFloat (Float.add l r))
  | SUB => Ok (AFloat (Float.sub l r))
  | MUL => Ok (AFloat (Float.mul l r))
  | QUO => if Float.eqb r Float.zero then Err division_by_zero else Ok (AFloat (Float.div l r))
  | LSS => Ok (ABool (Float.ltb l r))
  | GTR => Ok (ABool (Float.ltb r l))
  | LEQ => Ok (ABool (Float.leb l r))
  | GEQ => Ok (ABool (Float.leb r l))
  | EQL => Ok (ABool (Float.eqb l r))
  | NEQ => Ok (ABool (negb (Float.eqb l r)))
  | _ => fail "unsupported binary operator for numbers: %s" [token_text op]
  end.
Definition string_op (op : token) (l r : string) : result any :=
  match op with
  | EQL => Ok (ABool (l =s r))
  | NEQ => Ok (ABool (negb (l =s r)))
  | ADD => Ok (AString (l +:+ r))
  | _ => fail "unsupported binary operator for strings: %s" [token_text op]
  end.
Definition bool_op (op : token) (l r : bool) : result any :=
  match op with
  | EQL => Ok (ABool (Bool.eqb l r))
  | NEQ => Ok (ABool (negb (Bool.eqb l r)))
  | _ => fail "unsupported binary operator for booleans: %s" [token_text op]
  end.
(** The end of [evalBinary], for two values. *)
Definition apply_binary (op : token) (leftVal rightVal : any) : result any :=
  match leftVal with
  | AFloat l =>
      match rightVal with
      | AFloat r => number_op op l r
      | _ => fail "type mismatch: left operand is number, right operand is %T" [type_text rightVal]
      end
  | AString l =>
      match rightVal with
      | AString r => string_op op l r
      | _ => fail "type mismatch: left operand is string, right operand is %T" [type_text rightVal]
      end
  | ABool l =>
      match rightVal with
      | ABool r => bool_op op l r
      | _ => fail "type mismatch: left operand is bool, right operand is %T" [type_text rightVal]
      end
  | _ => fail "unsupported binary operands: left=%T, right=%T" [type_text leftVal; type_text rightVal]
  end.
Definition apply_unary (op : token) (v : any) : result any :=
  match op with
  | NOT => match v with ABool b => Ok (ABool (negb b)) | _ => fail "operator ! expected bool, got %T" [type_text v] end
  | SUB => match toFloat v with Some f => Ok (AFloat (Float.opp f)) | None => fail "operator - expected number, got %T" [type_text v] end
  | ADD => match toFloat v with Some f => Ok (AFloat f) | None => fail "operator + expected number, got %T" [type_text v] end
  | _ => fail "unsupported unary operator: %s" [token_text op]
  end.

Definition select (left : any) (sel : string) : result any :=
  match left with
  | AMap m => match Any.lookup sel m with Some v => Ok v | None => fail "field %q not found" [sel] end
  | _ => fail "cannot select field %q from type %T" [sel; type_text left]
  end.

(** [strconv.ParseFloat] of the text of a literal: the digits without their
    underscores; hexadecimal needs a binary exponent. *)
Fixpoint no_underscores (s : string) : string :=
  match s with
  | EmptyString => EmptyString
  | String c s' => if bool_decide (c = "_"%char) then no_underscores s' else String c (no_underscores s')
  end.
Definition hex_val (c : ascii) : option Z :=
  let n := GoStr.code c in
  if (48 <=? n) && (n <=? 57) then Some (n - 48) else if (97 <=? n) && (n <=? 102) then Some (n - 87)
  else if (65 <=? n) && (n <=? 70) then Some (n - 55) else None.
Fixpoint take_hex (s : string) (acc n : Z) : Z * Z * string :=
  match s with
  | String c s' => match hex_val c with Some v => take_hex s' (acc * 16 + v) (n + 1) | None => (acc, n, s) end
  | EmptyString => (acc, n, s)
  end.
Definition parse_hex (s : string) : option Float.float64 :=
  let '(m, n, s) := take_hex s 0 0 in
  let '(m, n, frac, s) := match s with
                          | String "."%char r => let '(m', n', r') := take_hex r m 0 in (m', n + n', n', r')
                          | _ => (m, n, 0, s)
                          end in
  let exponent := match s with
                  | String c r =>
                      if bool_decide (c = "p"%char) || bool_decide (c = "P"%char)
                      then match r with
                           | String "-"%char r' => option_map Z.opp (GoStr.digits r')
                           | String "+"%char r' => GoStr.digits r'
                           | _ => GoStr.digits r
                           end
                      else None
                  | EmptyString => None
                  end in
  match exponent with
  | Some e => if n =? 0 then None else
              let e := Z.max (-20000) (Z.min 20000 e) in
              let f := binary_normalize Float.prec Float.emax m (e - 4 * frac) false in if Float.is_inf f then None else Some f
  | None => None
  end.
Definition parse_number (v : string) : option Float.float64 :=
  match no_underscores v with
  | String "0"%char (String c r) => if bool_decide (c = "x"%char) || bool_decide (c = "X"%char) then parse_hex r else Float.ParseFloat (no_underscores v)
  | s => Float.ParseFloat s
  end.

Section eval.
Context (ParseExpr : string -> result Expr) (Unquote : string -> result string).

Definition literal (k : LitKind) (v : string) : result any :=
  match k with
  | INT | FLOAT => match parse_number v with Some f => Ok (AFloat f) | None => fail "strconv.ParseFloat: parsing %q" [v] end
  | STRING => s ← Unquote v; Ok (AString s)
  | OtherLit _ => fail "unsupported literal type: %s" [kind_text k]
  end.

Fixpoint eval (expr : Expr) (env : gmap string any) : result any :=
  match expr with
  | ParenExpr x => eval x env
  | BasicLit k v => literal k v
  | Ident n =>
      if n =s "true" then Ok (ABool true) else if n =s "false" then Ok (ABool false) else
      match env !! n with Some v => Ok v | None => fail "identifier %q not found in environment" [n] end
  | SelectorExpr x sel => left ← eval x env; select left sel
  | UnaryExpr op x => v ← eval x env; apply_unary op v
  | BinaryExpr x op y =>
      leftVal ← eval x env;
      match op with
      | LAND =>
          match leftVal with
          | ABool false => Ok (ABool false)
          | ABool true =>
              rightVal ← eval y env;
              match rightVal with ABool b => Ok (ABool b) | _ => fail "right operand of && must be bool, got %T" [type_text rightVal] end
          | _ => fail "left operand of && must be bool, got %T" [type_text leftVal]
          end
      | LOR =>
          match leftVal with
          | ABool true => Ok (ABool true)
          | ABool false =>
              rightVal ← eval y env;
              match rightVal with ABool b => Ok (ABool b) | _ => fail "right operand of || must be bool, got %T" [type_text rightVal] end
          | _ => fail "left operand of || must be bool, got %T" [type_text leftVal]
          end
      | _ => rightVal ← eval y env; apply_binary op leftVal rightVal
      end
  | OtherExpr t _ => fail "unsupported AST node type: %T" [t]
  end.

(** The number of a result, and the clamp. *)
Definition as_number (v : any) : result Float.float64 :=
  match v with
  | ABool b => Ok (if b then Float.of_Z 1 else Float.zero)
  | AFloat f => Ok f
  | _ => fail "expression returned unsupported type: %T" [type_text v]
  end.
Definition clamp (outputMin outputMax r : Float.float64) : Float.float64 :=
  let r := if Float.ltb r outputMin then outputMin else r in
  if Float.ltb outputMax r then outputMax else r.

Definition Evaluate (exprStr : string) (env : gmap string any) (outputMin outputMax : Float.float64) : result Float.float64 :=
  node ← wrapw "parse expression: %w" (ParseExpr exprStr);
  val ← wrapw "eval: %w" (eval node env);
  r ← as_number val;
  Ok (clamp outputMin outputMax r).

(** ** The event counts of an expression *)

(** [fmt.Sscanf(name, "count_%dd", &days)]: text after the [d] is not looked
    at. *)
Definition count_prefix : string := "count_".
Fixpoint strip (p s : string) : option string :=
  match p, s with
  | EmptyString, _ => Some s
  | String a p', String b s' => if bool_decide (a = b) then strip p' s' else None
  | _, _ => None
  end.
Definition scan_days (name : string) : option Z :=
  match strip count_prefix name with
  | Some s =>
      match Float.take_digits s 0 0 with
      | (days, n, String "d"%char _) => if (0 <? n) && (days <? two63) then Some days else None
      | _ => None
      end
  | None => None
  end.

(** The field an aggregate is given under. *)
Definition count_field (days : Z) : string := count_prefix +:+ GoStr.of_Z days +:+ "d".
Definition add_days (eventType : string) (days : Z) (res : gmap string (list Z)) : gmap string (list Z) :=
  let l := default [] (res !! eventType) in
  if existsb (Z.eqb days) l then res else <[eventType := l ++ [days]]> res.
(** [ast.Inspect], a node before its children. *)
Definition visit (x : Expr) (sel : string) (res : gmap string (list Z)) : gmap string (list Z) :=
  match x with
  | SelectorExpr (Ident "events") eventType => match scan_days sel with Some days => add_days eventType days res | None => res end
  | _ => res
  end.
Fixpoint inspect (e : Expr) (res : gmap string (list Z)) : gmap string (list Z) :=
  match e with
  | ParenExpr x | UnaryExpr _ x => inspect x res
  | BasicLit _ _ | Ident _ => res
  | SelectorExpr x sel => inspect x (visit x sel res)
  | BinaryExpr x _ y => inspect y (inspect x res)
  | OtherExpr _ l => (fix go (l : list Expr) (res : gmap string (list Z)) := match l with [] => res | x :: l' => go l' (inspect x res) end) l res
  end.
Definition ExtractEventAggregates (exprStr : string) : result (gmap string (list Z)) :=
  if exprStr =s "" then Ok ∅ else node ← ParseExpr exprStr; Ok (inspect node ∅).

(** ** The environment of a profile *)

Definition attributes (profile : Profile) : list (string * any) :=
  match prof_Attributes profile with
  | Raw (JObject l) => match Any.decode (JObject l) with AMap m => m | _ => [] end
  | _ => []
  end.

Section build.
Context {W : Type} (GetEventCount : string -> string -> string -> string -> string -> Z -> M W Z).

Fixpoint count_days (tenantID workspaceID : string) (profile : Profile) (eventType : string) (daysList : list Z) (m : list (string * any))
    : M W (list (string * any)) :=
  match daysList with
  | [] => mret m
  | days :: rest =>
      count ← GetEventCount tenantID workspaceID (prof_ExternalID profile) (prof_AnonymousID profile) eventType days;
      count_days tenantID workspaceID profile eventType rest (Any.insert_key (count_field days) (AFloat (Float.of_Z count)) m)
  end.
Fixpoint count_events (tenantID workspaceID : string) (profile : Profile) (aggregates : list (string * list Z)) (m : list (string * any))
    : M W (list (string * any)) :=
  match aggregates with
  | [] => mret m
  | (eventType, daysList) :: rest =>
      eventMap ← count_days tenantID workspaceID profile eventType daysList [];
      count_events tenantID workspaceID profile rest (Any.insert_key eventType (AMap eventMap) m)
  end.

Definition BuildExpressionEnv (tenantID workspaceID : string) (profile : Profile) (exprStr : string) : M W (gmap string any) :=
  let env : gmap string any := {["profile" := AMap (attributes profile)]} in
  aggregates ← lift (ExtractEventAggregates exprStr);
  match map_to_list aggregates with
  | [] => mret env
  | l => eventsEnv ← count_events tenantID workspaceID profile l []; mret (<["events" := AMap eventsEnv]> env)
  end.
End build.

End eval.

Example literals :
  parse_number "1_000.5" = Float.ParseFloat "1000.5" /\ parse_number "0x1.8p3" = Some (Float.of_Z 12) /\ parse_number "0x10" = None /\
  parse_number ".5e1" = Some (Float.of_Z 5).
Proof. vm_compute. repeat split. Qed.
Example days_examples :
  scan_days "count_30d" = Some 30 /\ scan_days "count_30days" = Some 30 /\ scan_days "count_d" = None /\
  count_field 30 = "count_30d".
Proof. vm_compute. repeat split. Qed.

End Scoring.
