(* ===== verification/ScoringSpec.v ===== *)
(** * Scoring expressions: types and bounds

    A type system for the expressions over a schema of profile attributes; a
    typed expression evaluates in the environment built for it, whatever the
    counts, or divides by zero; and a score is within the bounds of its model,
    or not a number. *)

From Stdlib Require Import Floats.SpecFloat.
From S2P Require Import Prelude.
From S2P Require Import GoStd.
From S2P Require Import GoMap.
From S2P Require Import GoFloat.
From S2P Require Import Domain.
From S2P Require Import Scoring.

Module ScoringSpec.
Import Scoring.

(** ** Types *)

Inductive ty : Type := TNum | TStr | TBool.
Definition ty_eqb (a b : ty) : bool := match a, b with TNum, TNum | TStr, TStr | TBool, TBool => true | _, _ => false end.
Definition has_ty (v : any) (t : ty) : bool :=
  match v, t with AFloat _, TNum | AString _, TStr | ABool _, TBool => true | _, _ => false end.

(** The attribute a selector names. *)
Fixpoint path (e : Expr) : option (list string) :=
  match e with
  | Ident n => Some [n]
  | ParenExpr x => path x
  | SelectorExpr x s => l ← path x; Some (l ++ [s])
  | _ => None
  end.
(** The event count a selector names: [events.T.count_Nd], the number as it is
    printed. *)
Definition event_count (e : Expr) : option (string * Z) :=
  match e with
  | SelectorExpr (SelectorExpr (Ident "events") t) s =>
      match scan_days s with Some d => if s =s count_field d then Some (t, d) else None | None => None end
  | _ => None
  end.

Definition unary_ty (op : token) (t : ty) : option ty :=
  match op, t with NOT, TBool => Some TBool | SUB, TNum | ADD, TNum => Some TNum | _, _ => None end.
Definition binary_ty (op : token) (a b : ty) : option ty :=
  if negb (ty_eqb a b) then None else
  match op, a with
  | LAND, TBool | LOR, TBool => Some TBool
  | ADD, TNum | SUB, TNum | MUL, TNum | QUO, TNum => Some TNum
  | ADD, TStr => Some TStr
  | LSS, TNum | GTR, TNum | LEQ, TNum | GEQ, TNum => Some TBool
  | EQL, _ | NEQ, _ => Some TBool
  | _, _ => None
  end.

(** The value under a path of fields. *)
Fixpoint walk (v : any) (p : list string) : option any :=
  match p with
  | [] => Some v
  | s :: p' => match select v s with Ok v' => walk v' p' | Err _ => None end
  end.

Section types.
Context (ParseExpr : string -> result Expr) (Unquote : string -> result string).
(** The types of the attributes, by path. *)
Context (schema : list string -> option ty).

Fixpoint typeof (e : Expr) : option ty :=
  match e with
  | ParenExpr x => typeof x
  | BasicLit (INT | FLOAT) v => match parse_number v with Some _ => Some TNum | None => None end
  | BasicLit STRING v => match Unquote v with Ok _ => Some TStr | Err _ => None end
  | BasicLit _ _ => None
  | Ident n => if (n =s "true") || (n =s "false") then Some TBool else None
  | SelectorExpr _ _ =>
      match event_count e with
      | Some _ => Some TNum
      | None => match path e with Some ("profile" :: p) => schema p | _ => None end
      end
  | UnaryExpr op x => t ← typeof x; unary_ty op t
  | BinaryExpr x op y => a ← typeof x; b ← typeof y; binary_ty op a b
  | OtherExpr _ _ => None
  end.

Lemma typeof_selector x s : typeof (SelectorExpr x s) =
  match event_count (SelectorExpr x s) with
  | Some _ => Some TNum
  | None => match path (SelectorExpr x s) with Some ("profile" :: p) => schema p | _ => None end
  end.
Proof. reflexivity. Qed.

(** The attributes have the types of the schema. *)
Definition conforms (attrs : list (string * any)) : Prop :=
  forall p t, schema p = Some t -> exists v, walk (AMap attrs) p = Some v /\ has_ty v t = true.

(** The counts an expression reads. *)
Fixpoint counts (e : Expr) : list (string * Z) :=
  match e with
  | ParenExpr x | UnaryExpr _ x => counts x
  | BasicLit _ _ | Ident _ => []
  | SelectorExpr x _ => match event_count e with Some c => [c] | None => counts x end
  | BinaryExpr x _ y => counts x ++ counts y
  | OtherExpr _ _ => []
  end.
Definition has_count (env : gmap string any) (c : string * Z) : Prop :=
  exists events m f, env !! "events" = Some (AMap events) /\ Any.lookup c.1 events = Some (AMap m) /\
    Any.lookup (count_field c.2) m = Some (AFloat f).

Lemma path_nonempty e l : path e = Some l -> l <> [].
Proof.
  revert l. induction e as [x IH| | n |x IH s| | |]; intros l He; simpl in He; try discriminate; [by apply IH | by injection He as <-|].
  destruct (path x) as [l0|]; [|done]. injection He as <-. by destruct l0.
Qed.

Lemma eval_path e l env v : path e = Some l -> (forall n, head l = Some n -> (n =s "true") || (n =s "false") = false) ->
  match l with [] => None | n :: p => x ← env !! n; walk x p end = Some v -> eval Unquote e env = Ok v.
Proof.
  intros He. cut (forall p v', (match l with [] => None | n :: q => x ← env !! n; walk x (q ++ p) end = Some v') ->
    (forall n, head l = Some n -> (n =s "true") || (n =s "false") = false) -> exists v, eval Unquote e env = Ok v /\ walk v p = Some v').
  { intros Hc Hn Hv. destruct (Hc [] v) as (v0 & E & Hw); [|done|].
    - destruct l as [|n q]; [done|]. by rewrite app_nil_r.
    - by injection Hw as <-. }
  revert l He. induction e as [x IH| | n |x IH s| | |]; intros l He p v' Hv Hn; simpl in He; try discriminate.
  - by apply (IH l).
  - injection He as <-. specialize (Hn n eq_refl). apply orb_false_iff in Hn as [H1 H2]. simpl in Hv |- *. rewrite H1, H2.
    destruct (env !! n) as [x|]; [|done]. by exists x.
  - destruct (path x) as [l0|] eqn:E; [|done]. injection He as <-. simpl.
    destruct (IH l0 eq_refl (s :: p) v') as (x0 & Ex & Hw).
    + apply path_nonempty in E. destruct l0 as [|n q]; [done|]. simpl in Hv |- *. destruct (env !! n); [|done]. simpl in Hv |- *.
      by rewrite <- app_assoc in Hv.
    + intros n Hh. apply Hn. by destruct l0.
    + rewrite Ex. simpl. simpl in Hw. destruct (select x0 s) as [v1|]; [|done]. by exists v1.
Qed.

Definition sound (r : result any) (t : ty) : Prop := (exists v, r = Ok v /\ has_ty v t = true) \/ r = Err division_by_zero.

Lemma apply_unary_sound op a t v : unary_ty op a = Some t -> has_ty v a = true -> exists r, apply_unary op v = Ok r /\ has_ty r t = true.
Proof. destruct op, a; simpl; try discriminate; intros [= <-]; destruct v; simpl; try discriminate; intros _; by eexists. Qed.

Lemma apply_binary_sound op a b t l r : op <> LAND -> op <> LOR -> binary_ty op a b = Some t -> has_ty l a = true -> has_ty r b = true ->
  sound (apply_binary op l r) t.
Proof.
  intros H1 H2 Ht Hl Hr. unfold binary_ty in Ht.
  destruct a, b; simpl in Ht; try discriminate; destruct l; try discriminate; destruct r; try discriminate; destruct op; try discriminate; try done;
    injection Ht as <-; unfold sound; simpl; try (left; eexists; split; [reflexivity | reflexivity]).
  destruct (Float.eqb _ _); [by right | left; eexists; split; [reflexivity | reflexivity]].
Qed.

(** ** Evaluation of typed expressions *)

Lemma eval_sound e t attrs env : typeof e = Some t -> env !! "profile" = Some (AMap attrs) -> conforms attrs ->
  (forall c, c ∈ counts e -> has_count env c) -> sound (eval Unquote e env) t.
Proof.
  intros Ht Hp Hc. revert t Ht. induction e as [x IH|k v|n|x IH s|op x IH|x IHx op y IHy|ty l]; intros t Ht Hcov.
  - by apply IH.
  - destruct k; try discriminate; simpl in Ht |- *.
    + destruct (parse_number v); [|done]. injection Ht as <-. left. by eexists.
    + destruct (parse_number v); [|done]. injection Ht as <-. left. by eexists.
    + destruct (Unquote v); [|done]. injection Ht as <-. left. by eexists.
  - simpl in Ht |- *. destruct (n =s "true"); [injection Ht as <-; left; by eexists|]. destruct (n =s "false"); [injection Ht as <-; left; by eexists | done].
  - rewrite typeof_selector in Ht. destruct (event_count (SelectorExpr x s)) as [c|] eqn:Ec.
    + injection Ht as <-. assert (Hin : c ∈ counts (SelectorExpr x s)) by (cbn [counts]; rewrite Ec; apply list_elem_of_here).
      destruct (Hcov c Hin) as (events & m & f & He & Hm & Hf). unfold event_count in Ec.
      destruct x as [| | |y ty| | |]; try discriminate. destruct y as [| |n| | | |]; try discriminate.
      assert (n = "events") as -> by (repeat (destruct n as [|[[] [] [] [] [] [] [] []] n]; try discriminate); reflexivity).
      destruct (scan_days s) as [d|]; [|done]. destruct (s =s count_field d) eqn:Es; [|done]. injection Ec as <-. apply seqb_true in Es.
      left. exists (AFloat f). split; [|done]. cbn [eval seqb bool_decide]. eval_str. rewrite He. cbn [mbind result_bind select].
      cbn [fst] in Hm. rewrite Hm. cbn [mbind result_bind select]. cbn [snd] in Hf. by rewrite Es, Hf.
    + destruct (path (SelectorExpr x s)) as [[|n p]|] eqn:Ep; [done| |done].
      assert (n = "profile") as -> by (repeat (destruct n as [|[[] [] [] [] [] [] [] []] n]; try discriminate); reflexivity).
      destruct (Hc p t Ht) as (v & Hw & Hv). left. exists v. split; [|done]. apply (eval_path _ _ _ _ Ep).
      * intros n [= <-]. reflexivity.
      * by rewrite Hp.
  - simpl in Ht. destruct (typeof x) as [a|]; [|done]. simpl in Ht. destruct (IH a eq_refl Hcov) as [(v & E & Hv)|E]; simpl; rewrite E; [|by right].
    left. by apply (apply_unary_sound op a).
  - simpl in Ht. destruct (typeof x) as [a|]; [|done]. destruct (typeof y) as [b|]; [|done]. simpl in Ht.
    assert (Hx : sound (eval Unquote x env) a) by (apply IHx; [done|]; intros c Hin; apply Hcov; simpl; apply elem_of_app; by left).
    assert (Hy : sound (eval Unquote y env) b) by (apply IHy; [done|]; intros c Hin; apply Hcov; simpl; apply elem_of_app; by right).
    simpl. destruct Hx as [(l & E & Hl)|E]; rewrite E; [|by right]. cbn [mbind result_bind].
    assert (Hcases : op = LAND \/ op = LOR \/ (op <> LAND /\ op <> LOR)) by (destruct op; auto; right; right; split; discriminate).
    destruct Hcases as [->|[->|[H1 H2]]].
    + unfold binary_ty in Ht. destruct a, b; try discriminate. injection Ht as <-. destruct l as [|[|]| | | |]; try discriminate; [|left; by eexists].
      destruct Hy as [(r & Er & Hr)|Er]; rewrite Er; [|by right]. destruct r; try discriminate. left. by eexists.
    + unfold binary_ty in Ht. destruct a, b; try discriminate. injection Ht as <-. destruct l as [|[|]| | | |]; try discriminate; [left; by eexists|].
      destruct Hy as [(r & Er & Hr)|Er]; rewrite Er; [|by right]. destruct r; try discriminate. left. by eexists.
    + destruct op; try done; destruct Hy as [(r & Er & Hr)|Er]; rewrite Er; try (by right); cbn [mbind result_bind]; by apply (apply_binary_sound _ a b).
  - done.
Qed.

(** ** The environment *)

Lemma lookup_insert_key k k' v l : Any.lookup k (Any.insert_key k' v l) = if k =s k' then Some v else Any.lookup k l.
Proof.
  induction l as [|[a x] l IH]; simpl; [done|]. destruct (String.compare k' a) eqn:E; simpl.
  - apply String.compare_eq_iff in E as ->. by destruct (k =s a).
  - done.
  - rewrite IH. destruct (k =s a) eqn:Ea; [|done]. apply seqb_true in Ea as ->. destruct (a =s k') eqn:Ek; [|done].
    apply seqb_true in Ek as ->. pose proof (String.compare_antisym k' k') as Ha. rewrite E in Ha. discriminate.
Qed.

Definition has_days (res : gmap string (list Z)) (c : string * Z) : Prop := exists l, res !! c.1 = Some l /\ c.2 ∈ l.

Lemma add_days_has t d res : has_days (add_days t d res) (t, d).
Proof.
  unfold add_days, has_days. simpl. destruct (existsb (Z.eqb d) (default [] (res !! t))) eqn:E.
  - apply existsb_exists in E as (x & Hx & Ex). apply Z.eqb_eq in Ex as <-. apply list_elem_of_In in Hx.
    destruct (res !! t) as [l|]; [by exists l | by apply elem_of_nil in Hx].
  - rewrite lookup_insert_eq. eexists. split; [reflexivity|]. apply elem_of_app. right. apply list_elem_of_here.
Qed.
Lemma add_days_keeps t d res c : has_days res c -> has_days (add_days t d res) c.
Proof.
  intros (l & Hl & Hc). unfold add_days. destruct (existsb _ _); [by exists l|]. unfold has_days.
  destruct (decide (t = c.1)) as [->|]; [|rewrite lookup_insert_ne by done; by exists l]. rewrite lookup_insert_eq, Hl.
  eexists. split; [reflexivity|]. apply elem_of_app. by left.
Qed.
Lemma visit_keeps x s res c : has_days res c -> has_days (visit x s res) c.
Proof.
  intros Hc. unfold visit. destruct x as [| | |[| |n| | | |] t| | |]; try done.
  repeat (destruct n as [|[[] [] [] [] [] [] [] []] n]; try done). destruct (scan_days s); [by apply add_days_keeps | done].
Qed.

Section expr_ind.
Context (P : Expr -> Prop).
Hypothesis (H1 : forall x, P x -> P (ParenExpr x)) (H2 : forall k v, P (BasicLit k v)) (H3 : forall n, P (Ident n)).
Hypothesis (H4 : forall x s, P x -> P (SelectorExpr x s)) (H5 : forall op x, P x -> P (UnaryExpr op x)).
Hypothesis (H6 : forall x op y, P x -> P y -> P (BinaryExpr x op y)) (H7 : forall t l, Forall P l -> P (OtherExpr t l)).
Fixpoint expr_rect' (e : Expr) : P e :=
  match e with
  | ParenExpr x => H1 x (expr_rect' x)
  | BasicLit k v => H2 k v
  | Ident n => H3 n
  | SelectorExpr x s => H4 x s (expr_rect' x)
  | UnaryExpr op x => H5 op x (expr_rect' x)
  | BinaryExpr x op y => H6 x op y (expr_rect' x) (expr_rect' y)
  | OtherExpr t l => H7 t l ((fix all (l : list Expr) : Forall P l :=
      match l with [] => Forall_nil_2 _ | x :: l' => Forall_cons_2 _ _ _ (expr_rect' x) (all l') end) l)
  end.
End expr_ind.

Lemma inspect_keeps e res c : has_days res c -> has_days (inspect e res) c.
Proof.
  revert res. induction e as [x IH|k v|n|x s IH|op x IH|x op y IHx IHy|t l IH] using expr_rect'; intros res Hc; simpl; auto.
  - apply IH. by apply visit_keeps.
  - revert res Hc. induction IH as [|x l Hx Hl IHl]; intros res Hc; [done|]. apply IHl, Hx, Hc.
Qed.

Lemma event_count_visit x s c res : event_count (SelectorExpr x s) = Some c -> has_days (visit x s res) c.
Proof.
  unfold event_count, visit. destruct x as [| | |[| |n| | | |] t| | |]; try discriminate.
  repeat (destruct n as [|[[] [] [] [] [] [] [] []] n]; try discriminate). destruct (scan_days s) as [d|]; [|done].
  destruct (_ =s _); [|done]. intros [= <-]. apply add_days_has.
Qed.

(** Every count an expression reads is asked for. *)
Lemma inspect_has e res c : c ∈ counts e -> has_days (inspect e res) c.
Proof.
  revert res. induction e as [x IH|k v|n|x s IH|op x IH|x op y IHx IHy|t l IH] using expr_rect'; intros res Hin; cbn [counts inspect] in *.
  - by apply IH.
  - by apply elem_of_nil in Hin.
  - by apply elem_of_nil in Hin.
  - destruct (event_count (SelectorExpr x s)) as [c'|] eqn:E.
    + apply list_elem_of_singleton in Hin as ->. by apply inspect_keeps, event_count_visit.
    + by apply IH.
  - by apply IH.
  - apply elem_of_app in Hin as [Hin|Hin]; [by apply inspect_keeps, IHx | by apply IHy].
  - by apply elem_of_nil in Hin.
Qed.

Section build.
Context {W : Type} (GetEventCount : string -> string -> string -> string -> string -> Z -> M W Z).

Lemma count_days_spec tenant ws profile t l m w m' w' :
  count_days GetEventCount tenant ws profile t l m w = (Ok m', w') ->
  forall d, d ∈ l \/ (exists f, Any.lookup (count_field d) m = Some (AFloat f)) -> exists f, Any.lookup (count_field d) m' = Some (AFloat f).
Proof.
  revert m w. induction l as [|x l IH]; intros m w E; simpl in E.
  { injection E as <- <-. intros d [Hd|Hd]; [by apply elem_of_nil in Hd | done]. }
  apply bindM_Ok in E as (n & w1 & _ & E). intros d Hd. apply (IH _ _ E). destruct (decide (d = x)) as [->|Hne].
  - right. exists (Float.of_Z n). by rewrite lookup_insert_key, seqb_refl.
  - destruct Hd as [Hd|(f & Hf)].
    + left. by apply elem_of_cons in Hd as [->|Hd].
    + right. rewrite lookup_insert_key. destruct (_ =s _); [by eexists | by exists f].
Qed.

Lemma count_events_spec tenant ws profile l m w m' w' :
  count_events GetEventCount tenant ws profile l m w = (Ok m', w') -> NoDup l.*1 ->
  (forall t x, Any.lookup t m = Some x -> t ∉ l.*1 -> Any.lookup t m' = Some x) /\
  forall t ds d, (t, ds) ∈ l -> d ∈ ds -> exists mt f, Any.lookup t m' = Some (AMap mt) /\ Any.lookup (count_field d) mt = Some (AFloat f).
Proof.
  revert m w. induction l as [|[t ds] l IH]; intros m w E Hnd; simpl in E.
  { injection E as <- <-. split; [done|]. intros t ds d Hin. by apply elem_of_nil in Hin. }
  apply bindM_Ok in E as (mt & w1 & Et & E). apply NoDup_cons in Hnd as [Hni Hnd]. destruct (IH _ _ E Hnd) as [Hk Hall]. split.
  - intros t' x Hx Hno. apply not_elem_of_cons in Hno as [Hne Hno]. apply Hk; [|done]. rewrite lookup_insert_key.
    simpl in Hne. by rewrite (proj2 (seqb_false _ _) Hne).
  - intros t' ds' d Hin Hd. apply elem_of_cons in Hin as [[= -> ->]|Hin]; [|by apply (Hall t' ds')].
    destruct (count_days_spec _ _ _ _ _ _ _ _ _ Et d (or_introl Hd)) as [f Hf]. exists mt, f. split; [|done].
    apply Hk; [|done]. by rewrite lookup_insert_key, seqb_refl.
Qed.

(** A typed scoring expression cannot go wrong: over attributes that have
    the types of its schema, evaluated in the environment built for it, every
    event count it names is there, and the only failure left is a division by
    zero.  In particular a Boolean or numeric expression scores. *)
Theorem typed_expression_scores exprStr e t tenant ws profile w env w' outputMin outputMax :
  exprStr <> "" -> ParseExpr exprStr = Ok e -> typeof e = Some t -> t <> TStr -> conforms (attributes profile) ->
  BuildExpressionEnv ParseExpr GetEventCount tenant ws profile exprStr w = (Ok env, w') ->
  (exists r, Evaluate ParseExpr Unquote exprStr env outputMin outputMax = Ok r) \/
  Evaluate ParseExpr Unquote exprStr env outputMin outputMax = wrapw "eval: %w" (Err division_by_zero).
Proof.
  intros Hne He Ht Hstr Hconf Hb. assert (Hs : sound (eval Unquote e env) t).
  { unfold BuildExpressionEnv, ExtractEventAggregates in Hb. rewrite (proj2 (seqb_false _ _) Hne), He in Hb. unfold_M.
    destruct (map_to_list (inspect e ∅)) as [|kv l] eqn:El.
    - injection Hb as <- <-. apply (eval_sound e t (attributes profile)); [done | apply lookup_singleton_eq | done|].
      intros c Hc. destruct (inspect_has e ∅ c Hc) as (ds & Hds & _). apply elem_of_map_to_list in Hds. rewrite El in Hds. by apply elem_of_nil in Hds.
    - rewrite <- El in Hb. destruct (count_events GetEventCount tenant ws profile (map_to_list (inspect e ∅)) [] w) as [[m|x] w1] eqn:Ec; [|done].
      injection Hb as <- <-. destruct (count_events_spec _ _ _ _ _ _ _ _ Ec (NoDup_fst_map_to_list _)) as [_ Hall].
      apply (eval_sound e t (attributes profile)); [done | rewrite lookup_insert_ne by done; apply lookup_singleton_eq | done|].
      intros c Hc. destruct (inspect_has e ∅ c Hc) as (ds & Hds & Hd). apply elem_of_map_to_list in Hds.
      destruct (Hall _ _ _ Hds Hd) as (mt & f & Hmt & Hf). exists m, mt, f. split; [apply lookup_insert_eq | done]. }
  unfold Evaluate. rewrite He. simpl. destruct Hs as [(v & -> & Hv)|Hs].
  - left. simpl. destruct v; destruct t; try discriminate; try done; simpl; by eexists.
  - right. by rewrite Hs.
Qed.
End build.

End types.

(** ** Bounds *)

Definition within (outputMin outputMax r : Float.float64) : bool := Float.leb outputMin r && Float.leb r outputMax.

Lemma SFcompare_antisym x y : SFcompare y x = match SFcompare x y with Some c => Some (CompOpp c) | None => None end.
Proof.
  destruct x as [[]|[]| |[] m e], y as [[]|[]| |[] m' e']; simpl; try reflexivity; rewrite (Z.compare_antisym e e');
    destruct (Z.compare e e') eqn:E; simpl; try reflexivity; by rewrite (Pos.compare_cont_antisym m m' Eq).
Qed.
Lemma SFcompare_number a b : Float.is_nan a = false -> Float.is_nan b = false -> SFcompare a b <> None.
Proof. intros Ha Hb. destruct a as [[]|[]| |[] m e], b as [[]|[]| |[] m' e']; simpl in *; try discriminate; repeat case_match; discriminate. Qed.

Lemma not_ltb_leb a b : Float.is_nan a = false -> Float.is_nan b = false -> Float.ltb b a = false -> Float.leb a b = true.
Proof.
  unfold Float.ltb, Float.leb, SFltb, SFleb. intros Ha Hb. rewrite (SFcompare_antisym a b). pose proof (SFcompare_number a b Ha Hb).
  by destruct (SFcompare a b) as [[]|].
Qed.
Lemma leb_not_ltb a b : Float.leb a b = true -> Float.ltb b a = false /\ Float.is_nan a = false /\ Float.is_nan b = false.
Proof.
  unfold Float.ltb, Float.leb, SFltb, SFleb. rewrite (SFcompare_antisym a b). intros Hc. split; [by destruct (SFcompare a b) as [[]|]|].
  destruct a, b; simpl in *; try discriminate; by split.
Qed.
Lemma ltb_irrefl a : Float.ltb a a = false.
Proof. unfold Float.ltb, SFltb. pose proof (SFcompare_antisym a a). by destruct (SFcompare a a) as [[]|]. Qed.
Lemma leb_refl a : Float.is_nan a = false -> Float.leb a a = true.
Proof. intros Ha. apply not_ltb_leb; [done | done | apply ltb_irrefl]. Qed.

(** The clamp: a number within the bounds, or NaN. *)
Lemma clamp_within lo hi n : Float.leb lo hi = true -> within lo hi (clamp lo hi n) = true \/ Float.is_nan (clamp lo hi n) = true.
Proof.
  intros Hb. destruct (leb_not_ltb _ _ Hb) as (Hlt & Hmin & Hmax). unfold clamp, within.
  destruct (Float.is_nan n) eqn:En; [right; destruct n; try discriminate; by destruct lo, hi|]. left.
  destruct (Float.ltb n lo) eqn:E1.
  - by rewrite Hlt, Hb, leb_refl.
  - destruct (Float.ltb hi n) eqn:E2; [by rewrite Hb, leb_refl|]. apply andb_true_intro. split; by apply not_ltb_leb.
Qed.


(** A score is within its model's bounds: when the bounds are in order,
    evaluation gives a number between them, or NaN, which both comparisons of
    the clamp let through. *)
Theorem Evaluate_clamped ParseExpr Unquote exprStr env outputMin outputMax r :
  Float.leb outputMin outputMax = true -> Evaluate ParseExpr Unquote exprStr env outputMin outputMax = Ok r ->
  within outputMin outputMax r = true \/ Float.is_nan r = true.
Proof.
  intros Hb Hr. unfold Evaluate in Hr. apply bind_Ok in Hr as (e & _ & Hr). apply bind_Ok in Hr as (v & _ & Hr). apply bind_Ok in Hr as (n & _ & Hr).
  injection Hr as <-. by apply clamp_within.
Qed.

(** NaN does come out: an infinity minus itself. *)
Definition no_parse (s : string) : result Expr :=
  let huge := BinaryExpr (BasicLit FLOAT "1e308") MUL (BasicLit INT "10") in Ok (BinaryExpr huge SUB huge).
Definition no_unquote (s : string) : result string := Ok s.
Example nan_escapes : Evaluate no_parse no_unquote "1e308*10 - 1e308*10" ∅ Float.zero (Float.of_Z 1) = Ok S754_nan.
Proof. vm_compute. reflexivity. Qed.

(** ** A demonstration: [profile.age > 18 && events.order.count_30d >= 2] *)

Definition demo_expr : Expr :=
  BinaryExpr (BinaryExpr (SelectorExpr (Ident "profile") "age") GTR (BasicLit INT "18")) LAND
    (BinaryExpr (SelectorExpr (SelectorExpr (Ident "events") "order") "count_30d") GEQ (BasicLit INT "2")).
Definition demo_text : string := "profile.age > 18 && events.order.count_30d >= 2".
Definition demo_parse (s : string) : result Expr := if s =s demo_text then Ok demo_expr else Err (errors_New "syntax").
Definition demo_schema (p : list string) : option ty := if decide (p = ["age"]) then Some TNum else None.
Definition demo_profile : Profile := MkProfile "1" "ada" "" (Raw (JObject [("age", JNumber "40")])) 1 0.
Definition demo_count (tenant ws external anonymous eventType : string) (days : Z) : M unit Z := fun w => (Ok days, w).
Definition demo_env : gmap string any :=
  match (BuildExpressionEnv demo_parse demo_count "t" "w" demo_profile demo_text tt).1 with Ok env => env | Err _ => ∅ end.

Lemma typed_expression_scores_witness :
  Evaluate demo_parse no_unquote demo_text demo_env Float.zero (Float.of_Z 1) = Ok (Float.of_Z 1) /\
  ((exists r, Evaluate demo_parse no_unquote demo_text demo_env Float.zero (Float.of_Z 1) = Ok r) \/
   Evaluate demo_parse no_unquote demo_text demo_env Float.zero (Float.of_Z 1) = wrapw "eval: %w" (Err division_by_zero)).
Proof.
  split; [vm_compute; reflexivity|].
  apply (typed_expression_scores demo_parse no_unquote demo_schema demo_count demo_text demo_expr TBool "t" "w" demo_profile tt demo_env tt).
  - discriminate.
  - vm_compute. reflexivity.
  - vm_compute. reflexivity.
  - discriminate.
  - intros p t Hp. unfold demo_schema in Hp. destruct (decide (p = ["age"])) as [->|]; [|discriminate].
    injection Hp as <-. eexists. split; [vm_compute; reflexivity | reflexivity].
  - vm_compute. reflexivity.
Defined.

Lemma Evaluate_clamped_witness :
  within Float.zero (Float.of_Z 1) (Float.of_Z 1) = true \/ Float.is_nan (Float.of_Z 1) = true.
Proof.
  apply (Evaluate_clamped demo_parse no_unquote demo_text demo_env Float.zero (Float.of_Z 1) (Float.of_Z 1)); vm_compute; reflexivity.
Defined.

End ScoringSpec.
