(* ===== verification/ScoringDB.v ===== *)
(** * Scoring models and their versions (src/internal/postgres/scoring.go,
    src/internal/scoring/eval.go, src/internal/operations/operations.go)

    A model has numbered versions: drafts that evaluation cases pass or fail,
    one of which is published at a time; a scoring job writes a score per
    profile of a segment with the published one.

    The tables are those of migrations/031_scoring.sql and
    032_scoring_requests.sql.  Migration 063 then makes
    [scoring_model_versions] append-only: a trigger refuses every UPDATE and
    DELETE of a row.  [vd_append_only] says whether it has run, so that both
    schemas are states of the model.  An id that is no UUID matches no row: the
    driver's error stands as [ErrNotFound]. *)

From Stdlib Require Import Floats.SpecFloat.
From S2P Require Import Prelude.
From S2P Require Import GoStd.
From S2P Require Import GoMap.
From S2P Require Import GoFloat.
From S2P Require Import Domain.
From S2P Require Import Store.
From S2P Require Import AuditLog.
From S2P Require Import Scoring.

Module ScoringDB.
Import Scoring.

Record ScoringModel : Type := MkScoringModel {
  sm_ID : string;
  sm_TenantID : string;
  sm_WorkspaceID : string;
  sm_Name : string;
  sm_Kind : string;
  sm_CurrentVersionID : option string;
  sm_LatestVersion : Z
}.
Record ScoringModelVersion : Type := MkScoringModelVersion {
  sv_ID : string;
  sv_ScoringModelID : string;
  sv_TenantID : string;
  sv_Version : Z;
  sv_ScoreName : string;
  sv_Definition : RawMessage;
  sv_OutputMin : Float.float64;
  sv_OutputMax : Float.float64;
  sv_ManifestKey : string;
  sv_Status : string;
  sv_EvalStatus : string;
  sv_PublishedBy : option string;
  sv_PublishedAt : option Z
}.
Record EvalCase : Type := MkEvalCase { ec_ID : string; ec_Input : RawMessage; ec_Expectations : RawMessage }.
Record ScoringRequest : Type := MkScoringRequest {
  sr_ID : string;
  sr_TenantID : string;
  sr_WorkspaceID : string;
  sr_RequestedBy : string;
  sr_ScoringModelID : string;
  sr_SegmentID : string;
  sr_Status : string;
  sr_Error : string
}.
(** [domain.ScoringJob]: the columns of a request the worker reads. *)
Abbreviation ScoringJob := ScoringRequest.
Record ProfileScore : Type := MkProfileScore {
  ps_TenantID : string; ps_WorkspaceID : string; ps_AppID : string; ps_ProfileID : string; ps_ScoringModelID : string; ps_ScoreName : string;
  ps_Value : Float.float64; ps_ModelVersion : Z
}.

(** ** Tables *)

Definition score_key : Type := string * string * string * string.
Record VDB : Type := MkVDB {
  vd_models : gmap string ScoringModel;
  vd_versions : gmap string ScoringModelVersion;
  vd_requests : gmap string ScoringRequest;
  vd_scores : gmap score_key ProfileScore;
  vd_segments : gset (string * string);
  vd_jobs : list (string * string * string * json);
  vd_audit : Audit.ADB;
  vd_used : gset string;
  vd_now : Z;
  vd_append_only : bool
}.
Definition set_models v d := MkVDB v (vd_versions d) (vd_requests d) (vd_scores d) (vd_segments d) (vd_jobs d) (vd_audit d) (vd_used d) (vd_now d) (vd_append_only d).
Definition set_versions v d := MkVDB (vd_models d) v (vd_requests d) (vd_scores d) (vd_segments d) (vd_jobs d) (vd_audit d) (vd_used d) (vd_now d) (vd_append_only d).
Definition set_requests v d := MkVDB (vd_models d) (vd_versions d) v (vd_scores d) (vd_segments d) (vd_jobs d) (vd_audit d) (vd_used d) (vd_now d) (vd_append_only d).
Definition set_scores v d := MkVDB (vd_models d) (vd_versions d) (vd_requests d) v (vd_segments d) (vd_jobs d) (vd_audit d) (vd_used d) (vd_now d) (vd_append_only d).
Definition set_jobs v d := MkVDB (vd_models d) (vd_versions d) (vd_requests d) (vd_scores d) (vd_segments d) v (vd_audit d) (vd_used d) (vd_now d) (vd_append_only d).
Definition set_audit v d := MkVDB (vd_models d) (vd_versions d) (vd_requests d) (vd_scores d) (vd_segments d) (vd_jobs d) v (vd_used d) (vd_now d) (vd_append_only d).
Definition set_used v d := MkVDB (vd_models d) (vd_versions d) (vd_requests d) (vd_scores d) (vd_segments d) (vd_jobs d) (vd_audit d) v (vd_now d) (vd_append_only d).

Abbreviation V := (M VDB).
Definition tx {A} (m : V A) : V A := fun d => match m d with (Ok a, d') => (Ok a, d') | (Err e, _) => (Err e, d) end.
Definition gets {A} (f : VDB -> A) : V A := fun d => (Ok (f d), d).
Definition new_id : V string := fun d => let id := fresh (vd_used d) in (Ok id, set_used ({[id]} ∪ vd_used d) d).
Definition ErrUnauthorized : error := Sentinel "unauthorized".
Definition unique_violation : error := errors_New "duplicate key value violates unique constraint".
Definition bad_input : error := errors_New "invalid input syntax".
Definition append_only : error := errors_New "scoring_model_versions is append-only".
Definition integer_max : Z := 2147483647.
Definition modify (f : VDB -> VDB) : V unit := fun d => (Ok tt, f d).

(** What UPDATE and DELETE of the versions [P] selects do: with the trigger, any
    row they reach refuses the statement. *)
Definition reaches (P : ScoringModelVersion -> bool) (d : VDB) : bool := existsb (fun kv => P kv.2) (map_to_list (vd_versions d)).
Definition touch_versions (P : ScoringModelVersion -> bool) (f : gmap string ScoringModelVersion -> gmap string ScoringModelVersion) : V unit :=
  fun d => if vd_append_only d && reaches P d then (Err append_only, d) else (Ok tt, set_versions (f (vd_versions d)) d).
Definition update_versions (P : ScoringModelVersion -> bool) (f : ScoringModelVersion -> ScoringModelVersion) : V unit :=
  touch_versions P (fmap (fun v => if P v then f v else v)).
Definition delete_versions (P : ScoringModelVersion -> bool) : V unit := touch_versions P (filter (fun kv => P kv.2 = false)).

(** A column of type [jsonb]. *)
Definition jsonb_column (r : RawMessage) : result RawMessage :=
  match r with Raw j => Ok (Raw (Audit.jsonb j)) | _ => Err bad_input end.

(** *** Reads *)

Definition in_workspace (p : Principal) (m : ScoringModel) : bool := (sm_TenantID m =s p_TenantID p) && (sm_WorkspaceID m =s p_WorkspaceID p).
Definition GetScoringModel (p : Principal) (id : string) (d : VDB) : result ScoringModel :=
  match vd_models d !! id with
  | Some m => if in_workspace p m then Ok m else Err ErrNotFound
  | None => Err ErrNotFound
  end.
Definition GetScoringModelByName (p : Principal) (name : string) (d : VDB) : result ScoringModel :=
  match find_first (fun kv => in_workspace p kv.2 && (sm_Name kv.2 =s name)) (map_to_list (vd_models d)) with
  | Some (_, m) => Ok m
  | None => Err ErrNotFound
  end.
Definition ListScoringModels (p : Principal) (d : VDB) : list ScoringModel :=
  GoMap.sort_by (fun a b => GoMap.str_less (sm_Name a) (sm_Name b)) (filter (fun m => in_workspace p m = true) (map_to_list (vd_models d)).*2).
Definition GetScoringModelVersion (p : Principal) (id : string) (d : VDB) : result ScoringModelVersion :=
  match vd_versions d !! id with
  | Some v => if sv_TenantID v =s p_TenantID p then Ok v else Err ErrNotFound
  | None => Err ErrNotFound
  end.
Definition numbered (tenantID modelID : string) (version : Z) (v : ScoringModelVersion) : bool :=
  (sv_TenantID v =s tenantID) && (sv_ScoringModelID v =s modelID) && (sv_Version v =? version).
Definition GetScoringModelVersionByNumber (p : Principal) (modelID : string) (version : Z) (d : VDB) : result ScoringModelVersion :=
  match find_first (fun kv => numbered (p_TenantID p) modelID version kv.2) (map_to_list (vd_versions d)) with
  | Some (_, v) => Ok v
  | None => Err ErrNotFound
  end.

Definition ListScoringModelVersions (p : Principal) (modelID : string) (d : VDB) : list ScoringModelVersion :=
  GoMap.sort_by (fun a b => sv_Version b <? sv_Version a)
    (filter (fun v => (sv_TenantID v =s p_TenantID p) && (sv_ScoringModelID v =s modelID) = true) (map_to_list (vd_versions d)).*2).

(** *** Row updates *)

Definition set_current (id : string) (m : ScoringModel) : ScoringModel :=
  MkScoringModel (sm_ID m) (sm_TenantID m) (sm_WorkspaceID m) (sm_Name m) (sm_Kind m) (Some id) (sm_LatestVersion m).
Definition set_latest (n : Z) (m : ScoringModel) : ScoringModel :=
  MkScoringModel (sm_ID m) (sm_TenantID m) (sm_WorkspaceID m) (sm_Name m) (sm_Kind m) (sm_CurrentVersionID m) n.
Definition set_eval (s : string) (v : ScoringModelVersion) : ScoringModelVersion :=
  MkScoringModelVersion (sv_ID v) (sv_ScoringModelID v) (sv_TenantID v) (sv_Version v) (sv_ScoreName v) (sv_Definition v) (sv_OutputMin v)
    (sv_OutputMax v) (sv_ManifestKey v) (sv_Status v) s (sv_PublishedBy v) (sv_PublishedAt v).
Definition archive (v : ScoringModelVersion) : ScoringModelVersion :=
  MkScoringModelVersion (sv_ID v) (sv_ScoringModelID v) (sv_TenantID v) (sv_Version v) (sv_ScoreName v) (sv_Definition v) (sv_OutputMin v)
    (sv_OutputMax v) (sv_ManifestKey v) "archived" (sv_EvalStatus v) (sv_PublishedBy v) (sv_PublishedAt v).
Definition activate (approver manifestKey : string) (now : Z) (v : ScoringModelVersion) : ScoringModelVersion :=
  MkScoringModelVersion (sv_ID v) (sv_ScoringModelID v) (sv_TenantID v) (sv_Version v) (sv_ScoreName v) (sv_Definition v) (sv_OutputMin v)
    (sv_OutputMax v) manifestKey "active" (sv_EvalStatus v) (Some approver) (Some now).

Section ops.
Context (uuid_ok : string -> bool).

Definition audit (p : Principal) (action resourceType resourceID : string) (metadata : json) : V unit := fun d =>
  let '(r, a) := Audit.audit uuid_ok p action resourceType resourceID metadata (vd_audit d) in (r, set_audit a d).
Definition version_json (n : Z) : json := JObject [("version", JNumber (GoStr.of_Z n))].

(** The checks [CreateScoringModel] and [UpdateScoringModel] share. *)
Definition check_model (model : ScoringModel) : result unit :=
  if sm_Name model =s "" then Err (errors_New "scoring model name is required")
  else if sm_Kind model =s "" then Err (errors_New "scoring model kind is required")
  else if negb (sm_Kind model =s "expression") && negb (sm_Kind model =s "llm")
  then Err (Errorf "invalid scoring model kind: %s" [AStr (sm_Kind model)]) else Ok tt.
(** The unique index on the names of a workspace. *)
Definition name_taken (p : Principal) (name id : string) (d : VDB) : bool :=
  existsb (fun kv => in_workspace p kv.2 && (sm_Name kv.2 =s name) && negb (kv.1 =s id)) (map_to_list (vd_models d)).

Definition CreateScoringModel (p : Principal) (model : ScoringModel) : V ScoringModel := tx (
  _ ← lift (check_model model);
  id ← new_id;
  taken ← gets (name_taken p (sm_Name model) id);
  if taken : bool then throw unique_violation else
  let out := MkScoringModel id (p_TenantID p) (p_WorkspaceID p) (sm_Name model) (sm_Kind model) None 0 in
  _ ← modify (fun d => set_models (<[id := out]> (vd_models d)) d);
  _ ← audit p "scoring_model.create" "scoring_model" id (JObject [("name", JString (sm_Name out))]);
  mret out).

(** [UpdateScoringModel] writes the caller's current and latest version. *)
Definition UpdateScoringModel (p : Principal) (model : ScoringModel) : V ScoringModel := tx (
  _ ← lift (check_model model);
  if integer_max <? sm_LatestVersion model then throw bad_input else
  if negb (match sm_CurrentVersionID model with Some c => uuid_ok c | None => true end) then throw bad_input else
  _ ← (fun d => (GetScoringModel p (sm_ID model) d, d));
  taken ← gets (name_taken p (sm_Name model) (sm_ID model));
  if taken : bool then throw unique_violation else
  let out := MkScoringModel (sm_ID model) (p_TenantID p) (p_WorkspaceID p) (sm_Name model) (sm_Kind model) (sm_CurrentVersionID model)
               (sm_LatestVersion model) in
  _ ← modify (fun d => set_models (<[sm_ID model := out]> (vd_models d)) d);
  _ ← audit p "scoring_model.update" "scoring_model" (sm_ID model) (JObject [("name", JString (sm_Name out))]);
  mret out).

(** Deleting a model deletes its versions, requests and scores. *)
Definition DeleteScoringModel (p : Principal) (id : string) : V unit := tx (
  _ ← (fun d => (GetScoringModel p id d, d));
  _ ← delete_versions (fun v => sv_ScoringModelID v =s id);
  _ ← modify (fun d => set_requests (filter (fun kv => sr_ScoringModelID kv.2 <> id) (vd_requests d)) d);
  _ ← modify (fun d => set_scores (filter (fun kv => ps_ScoringModelID kv.2 <> id) (vd_scores d)) d);
  _ ← modify (fun d => set_models (delete id (vd_models d)) d);
  audit p "scoring_model.delete" "scoring_model" id JNull).

Definition or_default (s v : string) : string := if s =s "" then v else s.

Definition CreateScoringModelVersion (p : Principal) (sv : ScoringModelVersion) : V ScoringModelVersion :=
  let status := or_default (sv_Status sv) "draft" in
  let evalStatus := or_default (sv_EvalStatus sv) "pending" in
  let definition := if raw_len0 (sv_Definition sv) then Raw (JObject []) else sv_Definition sv in
  if sv_ScoringModelID sv =s "" then throw (errors_New "scoring_model_id is required")
  else if sv_ScoreName sv =s "" then throw (errors_New "score_name is required")
  else if negb (mem status ["draft"; "active"; "archived"]) then throw (Errorf "invalid status: %s" [AStr status])
  else if negb (mem evalStatus ["pending"; "passed"; "failed"]) then throw (Errorf "invalid eval status: %s" [AStr evalStatus]) else
  tx (
    model ← (fun d => (GetScoringModel p (sv_ScoringModelID sv) d, d));
    let newVersion := sm_LatestVersion model + 1 in
    if integer_max <? newVersion then throw bad_input else
    definition ← lift (jsonb_column definition);
    taken ← gets (reaches (fun v => (sv_ScoringModelID v =s sv_ScoringModelID sv) && (sv_Version v =? newVersion)));
    if taken : bool then throw unique_violation else
    id ← new_id;
    let out := MkScoringModelVersion id (sv_ScoringModelID sv) (p_TenantID p) newVersion (sv_ScoreName sv) definition (sv_OutputMin sv)
                 (sv_OutputMax sv) (sv_ManifestKey sv) status evalStatus None None in
    _ ← modify (fun d => set_versions (<[id := out]> (vd_versions d)) d);
    _ ← modify (fun d => set_models (<[sv_ScoringModelID sv := set_latest newVersion model]> (vd_models d)) d);
    _ ← audit p "scoring_model_version.create" "scoring_model_version" id (version_json newVersion);
    mret out).

Definition is_active (tenantID modelID : string) (v : ScoringModelVersion) : bool :=
  (sv_TenantID v =s tenantID) && (sv_ScoringModelID v =s modelID) && (sv_Status v =s "active").
Definition is_version (tenantID id : string) (v : ScoringModelVersion) : bool := (sv_TenantID v =s tenantID) && (sv_ID v =s id).

Definition PublishScoringModelVersion (p : Principal) (modelID : string) (version : Z) (approverUserID manifestKey : string) : V ScoringModelVersion :=
  if approverUserID =s "" then throw (errors_New "approver user id is required")
  else if manifestKey =s "" then throw (errors_New "manifest key is required")
  else if negb (p_ActorType p =s "user") || (p_UserID p =s "") then throw ErrUnauthorized else
  tx (
    sv ← (fun d => (GetScoringModelVersionByNumber p modelID version d, d));
    if sv_Status sv =s "active" then mret sv
    else if negb (sv_EvalStatus sv =s "passed") then throw (errors_New "cannot publish version with non-passed eval status") else
    _ ← update_versions (is_active (p_TenantID p) modelID) archive;
    if negb (uuid_ok approverUserID) then throw bad_input else
    now ← gets vd_now;
    let out := activate approverUserID manifestKey now sv in
    _ ← update_versions (is_version (p_TenantID p) (sv_ID sv)) (activate approverUserID manifestKey now);
    _ ← modify (fun d => set_models (alter (fun m => if sm_TenantID m =s p_TenantID p then set_current (sv_ID sv) m else m) modelID (vd_models d)) d);
    _ ← audit p "scoring_model_version.publish" "scoring_model_version" (sv_ID sv) (version_json (sv_Version out));
    mret out).

Definition SetScoringModelVersionEvalStatus (p : Principal) (id evalStatus : string) : V unit := fun d =>
  if negb (mem evalStatus ["pending"; "passed"; "failed"]) then (Err (Errorf "invalid eval status: %s" [AStr evalStatus]), d)
  else if negb (reaches (is_version (p_TenantID p) id) d) then (Err ErrNotFound, d)
  else update_versions (is_version (p_TenantID p) id) (set_eval evalStatus) d.

(** ** Requests to score a segment *)

(** [actorID]: the user, else the API key. *)
Definition actorID (p : Principal) : string := if p_UserID p =s "" then p_KeyID p else p_UserID p.
(** [p.Scopes], nil as null. *)
Definition scopes_json (l : list string) : json := match l with [] => JNull | _ => JArray (JString <$> l) end.

Definition CreateScoringRequest (p : Principal) (scoringModelID segmentID : string) : V ScoringRequest :=
  if scoringModelID =s "" then throw (errors_New "scoring_model_id is required")
  else if segmentID =s "" then throw (errors_New "segment_id is required")
  else if actorID p =s "" then throw (errors_New "a requesting user or API key is required") else
  tx (
    found ← gets (fun d => match vd_models d !! scoringModelID with Some m => sm_TenantID m =s p_TenantID p | None => false end);
    if negb found then throw (errors_New "scoring model not found") else
    found ← gets (fun d => bool_decide ((p_TenantID p, segmentID) ∈ vd_segments d));
    if negb found then throw (errors_New "segment not found") else
    id ← new_id;
    let request := MkScoringRequest id (p_TenantID p) (p_WorkspaceID p) (actorID p) scoringModelID segmentID "pending" "" in
    _ ← modify (fun d => set_requests (<[id := request]> (vd_requests d)) d);
    let payload := JObject [("request_id", JString id); ("scopes", scopes_json (p_Scopes p))] in
    _ ← modify (fun d => set_jobs (vd_jobs d ++ [(p_TenantID p, p_WorkspaceID p, "scores.compute", payload)]) d);
    mret request).

Definition GetScoringRequest (p : Principal) (id : string) (d : VDB) : result ScoringRequest :=
  match vd_requests d !! id with
  | Some r => if (sr_TenantID r =s p_TenantID p) && (sr_WorkspaceID r =s p_WorkspaceID p) then Ok r else Err ErrNotFound
  | None => Err ErrNotFound
  end.
Definition GetScoringJob (id : string) : V ScoringJob := fun d =>
  (match vd_requests d !! id with Some r => Ok r | None => Err ErrNotFound end, d).
Definition request_status (status : string) (r : ScoringRequest) : ScoringRequest :=
  MkScoringRequest (sr_ID r) (sr_TenantID r) (sr_WorkspaceID r) (sr_RequestedBy r) (sr_ScoringModelID r) (sr_SegmentID r) status (sr_Error r).
Definition request_failed (message : string) (r : ScoringRequest) : ScoringRequest :=
  MkScoringRequest (sr_ID r) (sr_TenantID r) (sr_WorkspaceID r) (sr_RequestedBy r) (sr_ScoringModelID r) (sr_SegmentID r) "failed" message.
Definition alter_request (f : ScoringRequest -> ScoringRequest) (id : string) : V unit := modify (fun d => set_requests (alter f id (vd_requests d)) d).
Definition MarkScoringProcessing : string -> V unit :=
  alter_request (fun r => if sr_Status r =s "pending" then request_status "processing" r else r).
Definition CompleteScoring : string -> V unit := alter_request (request_status "complete").
Definition FailScoring (id message : string) : V unit := alter_request (request_failed (String.substring 0 1000 message)) id.

(** ** Scores *)

Definition key_of (s : ProfileScore) : score_key := (ps_TenantID s, ps_ProfileID s, ps_ScoringModelID s, ps_ScoreName s).
(** INSERT .. ON CONFLICT DO UPDATE keeps the first row's workspace and app. *)
Definition upserted (old : option ProfileScore) (s : ProfileScore) : ProfileScore :=
  match old with
  | Some o => MkProfileScore (ps_TenantID s) (ps_WorkspaceID o) (ps_AppID o) (ps_ProfileID s) (ps_ScoringModelID s) (ps_ScoreName s)
                (ps_Value s) (ps_ModelVersion s)
  | None => s
  end.
Definition upsert (s : ProfileScore) (m : gmap score_key ProfileScore) : gmap score_key ProfileScore :=
  <[key_of s := upserted (m !! key_of s) s]> m.
(** A model deleted meanwhile fails the foreign key. *)
Definition fk_violation : error := errors_New "insert or update on table violates foreign key constraint".
Definition upsert_score (s : ProfileScore) : V unit := fun d =>
  match vd_models d !! ps_ScoringModelID s with
  | Some _ => (Ok tt, set_scores (upsert s (vd_scores d)) d)
  | None => (Err fk_violation, d)
  end.
Definition UpsertProfileScores (scores : list ProfileScore) : V unit :=
  match scores with [] => mret tt | _ => tx (iterM upsert_score scores) end.

Definition score_less (a b : ProfileScore) : bool :=
  GoMap.str_less (ps_ScoreName a) (ps_ScoreName b) ||
  ((ps_ScoreName a =s ps_ScoreName b) && GoMap.str_less (ps_ScoringModelID a) (ps_ScoringModelID b)).
Definition ListProfileScores (p : Principal) (profileID : string) (d : VDB) : list ProfileScore :=
  GoMap.sort_by score_less
    (filter (fun s => (ps_TenantID s =s p_TenantID p) && (ps_WorkspaceID s =s p_WorkspaceID p) && (ps_ProfileID s =s profileID) = true)
       (map_to_list (vd_scores d)).*2).

End ops.

(** [GetUsableScoringModelVersion]. *)
Definition usable (sv : ScoringModelVersion) : bool := (sv_Status sv =s "active") && (sv_EvalStatus sv =s "passed").
Definition GetUsableScoringModelVersion (p : Principal) (modelID : string) (version : Z) (d : VDB) : result ScoringModelVersion :=
  sv ← GetScoringModelVersionByNumber p modelID version d;
  if usable sv then Ok sv
  else Err (Errorf "scoring model version is not usable (status: %s, eval_status: %s)" [AStr (sv_Status sv); AStr (sv_EvalStatus sv)]).

(** ** Evaluation cases *)

Section evaluate.
Context (ParseExpr : string -> result Expr) (Unquote : string -> result string).

(** [def.Expr], and the two optional expectations. *)
Definition expr_fields : list (string * Json.setter string) := [("expr", Json.set_string (fun s _ => s))].
Definition definition_expr (r : RawMessage) : result string := Json.Unmarshal expr_fields "" r.
Definition set_float {T} (upd : option Float.float64 -> T -> T) : Json.setter T := fun j x =>
  match j with
  | JNull => Some (upd None x)
  | JNumber lit => match Float.ParseFloat lit with Some f => Some (upd (Some f) x) | None => None end
  | _ => None
  end.
Definition expectation_fields : list (string * Json.setter (option Float.float64 * option Float.float64)) :=
  [("expected_score", set_float (fun v x => (v, x.2))); ("expected_value", set_float (fun v x => (x.1, v)))].

(** [json.Unmarshal] of the input into a map. *)
Definition input_env (r : RawMessage) : result (gmap string any) :=
  j ← Json.parse r;
  match j with
  | JNull => Ok ∅
  | JObject _ => if Any.decodes j then match Any.decode j with AMap l => Ok (list_to_map l) | _ => Ok ∅ end else Err Json.type_error
  | _ => Err Json.type_error
  end.
Definition expected (r : RawMessage) : result Float.float64 :=
  x ← Json.Unmarshal expectation_fields (None, None) r;
  match x with
  | (Some f, _) | (None, Some f) => Ok f
  | (None, None) => Err (errors_New "missing expected_score or expected_value in expectations")
  end.
(** 1e-9. *)
Definition tolerance : Float.float64 := default Float.zero (Float.ParseFloat "1e-9").
Definition case_passes (expr : string) (min max : Float.float64) (c : EvalCase) : bool :=
  match input_env (ec_Input c), expected (ec_Expectations c) with
  | Ok env, Ok want =>
      match Evaluate ParseExpr Unquote expr env min max with
      | Ok got => negb (Float.ltb tolerance (Float.abs (Float.sub got want)))
      | Err _ => false
      end
  | _, _ => false
  end.
Definition verdict (expr : string) (sv : ScoringModelVersion) (cases : list EvalCase) : string :=
  if forallb (case_passes expr (sv_OutputMin sv) (sv_OutputMax sv)) cases && negb (Nat.eqb (length cases) 0) then "passed" else "failed".

(** [EvaluateExpressionModel], the cases of the dataset given. *)
Definition EvaluateExpressionModel (p : Principal) (versionID : string) (cases : list EvalCase) : V (Z * Z * string) := fun d => (
  sv ← lift (GetScoringModelVersion p versionID d);
  model ← lift (GetScoringModel p (sv_ScoringModelID sv) d);
  if negb (sm_Kind model =s "expression")
  then throw (Errorf "evaluator only supports expression scoring models, got %s" [AStr (sm_Kind model)]) else
  expr ← lift (wrapw "invalid scoring model definition: %w" (definition_expr (sv_Definition sv)));
  if expr =s "" then throw (errors_New "expression 'expr' is empty or missing in definition") else
  let ok := countb (case_passes expr (sv_OutputMin sv) (sv_OutputMax sv)) cases in
  let v := verdict expr sv cases in
  _ ← SetScoringModelVersionEvalStatus p versionID v;
  mret (ok, Z.of_nat (length cases) - ok, v)) d.

(** ** Scoring jobs (operations.go) *)

Section compute.
(** The rest of the store and the model gateway, which write none of these
    tables. *)
Context (ResolveSegment : Principal -> string -> V (list string)) (GetProfileByIDSystem : string -> string -> string -> V Profile)
  (GetFirstAppID : string -> string -> V string) (GetEventCount : string -> string -> string -> string -> string -> Z -> V Z)
  (EvaluateLLM : Principal -> ScoringModelVersion -> list (string * any) -> V Float.float64).

Definition query {A} (f : VDB -> result A) : V A := fun d => (f d, d).

Definition score_value (principal : Principal) (job : ScoringJob) (model : ScoringModel) (sv : ScoringModelVersion) (profile : Profile) : V Float.float64 :=
  if sm_Kind model =s "expression" then
    expr ← lift (definition_expr (sv_Definition sv));
    env ← BuildExpressionEnv ParseExpr GetEventCount (sr_TenantID job) (sr_WorkspaceID job) profile expr;
    lift (Evaluate ParseExpr Unquote expr env (sv_OutputMin sv) (sv_OutputMax sv))
  else if sm_Kind model =s "llm" then EvaluateLLM principal sv (attributes profile)
  else throw (Errorf "unsupported scoring model kind: %s" [AStr (sm_Kind model)]).

Definition score_profile (principal : Principal) (job : ScoringJob) (model : ScoringModel) (sv : ScoringModelVersion) (appID profileID : string)
    : V ProfileScore :=
  profile ← GetProfileByIDSystem (sr_TenantID job) (sr_WorkspaceID job) profileID;
  value ← score_value principal job model sv profile;
  mret (MkProfileScore (sr_TenantID job) (sr_WorkspaceID job) appID profileID (sr_ScoringModelID job) (sv_ScoreName sv) value (sv_Version sv)).

Fixpoint score_all (principal : Principal) (job : ScoringJob) (model : ScoringModel) (sv : ScoringModelVersion) (appID : string) (ids : list string)
    : V (list ProfileScore) :=
  match ids with
  | [] => mret []
  | id :: ids' => s ← score_profile principal job model sv appID id; rest ← score_all principal job model sv appID ids'; mret (s :: rest)
  end.

Definition executeScoring (requestID : string) (scopes : list string) : V unit :=
  if requestID =s "" then throw (errors_New "scores.compute payload requires request_id") else
  job ← GetScoringJob requestID;
  let principal := MkPrincipal (sr_TenantID job) (sr_WorkspaceID job) "" "" (sr_RequestedBy job) "ai_agent" scopes in
  model ← query (GetScoringModel principal (sr_ScoringModelID job));
  match sm_CurrentVersionID model with
  | None | Some "" => throw (Errorf "scoring model %q has no active version" [AStr (sr_ScoringModelID job)])
  | Some current =>
      sv ← query (GetScoringModelVersion principal current);
      if negb (usable sv) then throw (Errorf "scoring model version %q is not active or passed" [AStr (sv_ID sv)]) else
      _ ← MarkScoringProcessing requestID;
      profileIDs ← ResolveSegment principal (sr_SegmentID job);
      appID ← GetFirstAppID (sr_TenantID job) (sr_WorkspaceID job);
      scores ← score_all principal job model sv appID profileIDs;
      _ ← UpsertProfileScores scores;
      CompleteScoring requestID
  end.

End compute.
End evaluate.
End ScoringDB.
