(* ===== verification/ScoringDBSpec.v ===== *)
(** * Scoring models: what publishing guarantees, and what the schema refuses

    With the tables of migration 031 the lifecycle keeps its invariants: one
    active version per model, the one the model points to, approved.  Migration
    063 makes the versions append-only, and the same operations then publish
    nothing: no scoring job can run. *)

From Stdlib Require Import Floats.SpecFloat.
From S2P Require Import Prelude.
From S2P Require Import GoStd.
From S2P Require Import GoMap.
From S2P Require Import GoFloat.
From S2P Require Import Domain.
From S2P Require Import Store.
From S2P Require Import AuditLog.
From S2P Require Import Scoring.
From S2P Require Import ScoringSpec.
From S2P Require Import ScoringDB.

Module ScoringDBSpec.
Import Scoring ScoringSpec ScoringDB.

(** ** Steps *)

Section ops.
Context (uuid_ok : string -> bool).

(** Every version's key has been handed out. *)
Definition fresh_ids (d : VDB) : Prop := dom (vd_versions d) ⊆ vd_used d.
(** A version the caller asks to start as a draft. *)
Definition asks_draft (sv : ScoringModelVersion) : Prop := sv_Status sv = "" \/ sv_Status sv = "draft".

(** What the HTTP handlers and the evaluator run ([UpdateScoringModel] has no
    caller).  [Q] is what the versions created are asked to be. *)
Inductive step (Q : ScoringModelVersion -> Prop) (d : VDB) : VDB -> Prop :=
  | StepModel p m r d' : CreateScoringModel uuid_ok p m d = (r, d') -> step Q d d'
  | StepDelete p id r d' : DeleteScoringModel uuid_ok p id d = (r, d') -> step Q d d'
  | StepVersion p sv r d' : Q sv -> CreateScoringModelVersion uuid_ok p sv d = (r, d') -> step Q d d'
  | StepPublish p id n a k r d' : PublishScoringModelVersion uuid_ok p id n a k d = (r, d') -> step Q d d'
  | StepEval p id s r d' : SetScoringModelVersionEvalStatus p id s d = (r, d') -> step Q d d'
  | StepRequest p m s r d' : CreateScoringRequest p m s d = (r, d') -> step Q d d'
  | StepProcessing id r d' : MarkScoringProcessing id d = (r, d') -> step Q d d'
  | StepFail id msg r d' : FailScoring id msg d = (r, d') -> step Q d d'.

(** ** The shape of a transaction *)

Lemma scoring_tx_cases {A} (m : V A) d r d' : tx m d = (r, d') -> (exists a, r = Ok a /\ m d = (Ok a, d')) \/ (exists e, r = Err e) /\ d' = d.
Proof. unfold tx. destruct (m d) as [[a|e] d1]; intros [= <- <-]; [left|right]; eauto. Qed.

Lemma scoring_audit_eq p a t id j d : exists q, audit uuid_ok p a t id j d = (Ok tt, set_audit q d).
Proof. unfold audit, Audit.audit. destruct (match last _ with Some _ => _ | None => _ end) as [q h]. by eexists. Qed.

Lemma new_id_eq d : new_id d = (Ok (fresh (vd_used d)), set_used ({[fresh (vd_used d)]} ∪ vd_used d) d).
Proof. done. Qed.

Lemma read_Ok {A} (f : VDB -> result A) d a d' : (fun d => (f d, d)) d = (Ok a, d') -> f d = Ok a /\ d' = d.
Proof. by intros [= -> ->]. Qed.

Lemma GetScoringModel_Ok p id d m : GetScoringModel p id d = Ok m -> vd_models d !! id = Some m /\ in_workspace p m = true.
Proof. unfold GetScoringModel. destruct (vd_models d !! id) as [x|]; [|done]. destruct (in_workspace p x) eqn:E; [|done]. by intros [= <-]. Qed.

Lemma GetByNumber_Ok p id n d v : GetScoringModelVersionByNumber p id n d = Ok v ->
  exists k, vd_versions d !! k = Some v /\ numbered (p_TenantID p) id n v = true.
Proof.
  unfold GetScoringModelVersionByNumber. destruct (find_first _ _) as [[k x]|] eqn:E; [|done]. intros [= <-].
  apply find_first_Some in E as [Hin Hn]. exists k. split; [by apply elem_of_map_to_list|done].
Qed.

Lemma reaches_true P d : reaches P d = true <-> exists k v, vd_versions d !! k = Some v /\ P v = true.
Proof.
  unfold reaches. rewrite existsb_exists. split.
  - intros ([k v] & Hin & Hp). apply list_elem_of_In, elem_of_map_to_list in Hin. by exists k, v.
  - intros (k & v & Hk & Hp). exists (k, v). split; [|done]. by apply list_elem_of_In, elem_of_map_to_list.
Qed.
Lemma reaches_false P d : reaches P d = false -> forall k v, vd_versions d !! k = Some v -> P v = false.
Proof. intros H k v Hk. destruct (P v) eqn:E; [|done]. enough (reaches P d = true) by congruence. apply reaches_true. eauto. Qed.

Lemma scoring_audit_Ok p a t id j d r d' : audit uuid_ok p a t id j d = (Ok r, d') -> exists q, d' = set_audit q d.
Proof. destruct (scoring_audit_eq p a t id j d) as (q & ->). intros [= _ <-]. by exists q. Qed.
Lemma touch_Ok P f d r d' : touch_versions P f d = (Ok r, d') ->
  (vd_append_only d = true -> reaches P d = false) /\ d' = set_versions (f (vd_versions d)) d.
Proof.
  unfold touch_versions. destruct (vd_append_only d), (reaches P d); simpl; try discriminate; intros [= _ <-]; by split.
Qed.

(** Follow a run that ends well, statement by statement. *)
Ltac statement E :=
  lazymatch type of E with
  | lift _ _ = _ => unfold lift in E; injection E; clear E; intros; subst
  | gets _ _ = _ => unfold gets in E; injection E; clear E; intros; subst
  | modify _ _ = _ => unfold modify in E; injection E; clear E; intros; subst
  | new_id _ = _ => unfold new_id in E; injection E; clear E; intros; subst
  | audit _ _ _ _ _ _ _ = _ => apply scoring_audit_Ok in E as (? & ->)
  | touch_versions _ _ _ = _ => apply touch_Ok in E as (? & ->)
  | update_versions _ _ _ = _ => apply touch_Ok in E as (? & ->)
  | delete_versions _ _ = _ => apply touch_Ok in E as (? & ->)
  | _ => injection E; clear E; intros; subst
  end.
Ltac follow H :=
  repeat (cbn beta zeta in H;
    first [ (let E := fresh "E" in apply bindM_Ok in H as (? & ? & E & H); statement E)
          | match type of H with (if ?b then _ else _) _ = _ => destruct b eqn:? end; try discriminate H
          | match type of H with (match ?o with Some _ => _ | None => _ end) _ = _ => destruct o eqn:? end; try discriminate H ]).
Ltac follow_tx H := apply scoring_tx_cases in H as [(? & [= ->] & H)|[[? ?] _]]; [follow H|done].

(** *** What each operation that ends well did *)

Lemma CreateScoringModel_Ok p m d out d' : CreateScoringModel uuid_ok p m d = (Ok out, d') ->
  let id := fresh (vd_used d) in
  out = MkScoringModel id (p_TenantID p) (p_WorkspaceID p) (sm_Name m) (sm_Kind m) None 0 /\
  exists q, d' = set_audit q (set_models (<[id := out]> (vd_models d)) (set_used ({[id]} ∪ vd_used d) d)).
Proof. intros H. follow_tx H. injection H as <- <-. split; [done|]. by eexists. Qed.

Lemma DeleteScoringModel_Ok p id d r d' : DeleteScoringModel uuid_ok p id d = (Ok r, d') ->
  (vd_append_only d = true -> reaches (fun v => sv_ScoringModelID v =s id) d = false) /\
  vd_models d' = delete id (vd_models d) /\
  vd_versions d' = filter (fun kv => (sv_ScoringModelID kv.2 =s id) = false) (vd_versions d) /\
  vd_used d' = vd_used d /\ vd_append_only d' = vd_append_only d.
Proof. intros H. follow_tx H. apply scoring_audit_Ok in H as (q & ->). by repeat split. Qed.

Lemma CreateScoringModelVersion_Ok p sv d out d' : CreateScoringModelVersion uuid_ok p sv d = (Ok out, d') ->
  exists m q, let id := fresh (vd_used d) in
    GetScoringModel p (sv_ScoringModelID sv) d = Ok m /\
    sv_ID out = id /\ sv_ScoringModelID out = sv_ScoringModelID sv /\ sv_TenantID out = p_TenantID p /\
    sv_Version out = sm_LatestVersion m + 1 /\ sv_Version out <= integer_max /\
    sv_Status out = or_default (sv_Status sv) "draft" /\ sv_EvalStatus out = or_default (sv_EvalStatus sv) "pending" /\ sv_PublishedBy out = None /\
    d' = set_audit q (set_models (<[sv_ScoringModelID sv := set_latest (sv_Version out) m]> (vd_models d))
           (set_versions (<[id := out]> (vd_versions d)) (set_used ({[id]} ∪ vd_used d) d))).
Proof.
  intros H. unfold CreateScoringModelVersion in H. cbn zeta in H. follow H. follow_tx H. injection H as <- <-.
  eexists _, _. split; [eassumption|]. do 4 (split; [done|]). split; [apply Z.ltb_ge; eassumption|]. by repeat (split; [done|]).
Qed.

Lemma PublishScoringModelVersion_Ok p id n a k d out d' : PublishScoringModelVersion uuid_ok p id n a k d = (Ok out, d') ->
  exists sv, GetScoringModelVersionByNumber p id n d = Ok sv /\ p_ActorType p = "user" /\ a <> "" /\
    ((sv_Status sv = "active" /\ out = sv /\ d' = d) \/
     (sv_Status sv <> "active" /\ sv_EvalStatus sv = "passed" /\ uuid_ok a = true /\ out = activate a k (vd_now d) sv /\
      let archived := (fun v => if is_active (p_TenantID p) id v then archive v else v) <$> vd_versions d in
      (vd_append_only d = true -> reaches (is_version (p_TenantID p) (sv_ID sv)) (set_versions archived d) = false) /\
      vd_versions d' = (fun v => if is_version (p_TenantID p) (sv_ID sv) v then activate a k (vd_now d) v else v) <$> archived /\
      vd_models d' = alter (fun m => if sm_TenantID m =s p_TenantID p then set_current (sv_ID sv) m else m) id (vd_models d) /\
      vd_used d' = vd_used d /\ vd_append_only d' = vd_append_only d)).
Proof.
  intros H. unfold PublishScoringModelVersion in H. follow H. apply orb_false_iff in Heqb1 as [Hu _]. apply negb_false_iff, seqb_true in Hu.
  apply seqb_false in Heqb. apply scoring_tx_cases in H as [(? & [= ->] & H)|[[? ?] _]]; [|done].
  apply bindM_Ok in H as (sv & d1 & E & H). apply read_Ok in E as [E ->]. exists sv. do 3 (split; [done|]). cbn beta in H.
  destruct (sv_Status sv =s "active") eqn:Ea; [left; injection H as <- <-; split; [by apply seqb_true|done]|right].
  follow H. apply negb_false_iff in Heqb1, Heqb2. injection H as <- <-. split; [by apply seqb_false|]. split; [by apply seqb_true|]. by repeat split.
Qed.

(** *** Under the append-only trigger *)

Lemma touch_id P f d r d' : touch_versions P f d = (Ok r, d') -> vd_append_only d = true ->
  (forall m, (forall k v, m !! k = Some v -> P v = false) -> f m = m) -> d' = d.
Proof.
  intros H Hg Hf. apply touch_Ok in H as [Hr ->]. rewrite (Hf _ (reaches_false _ _ (Hr Hg))). by destruct d.
Qed.

(** Publishing answers an active version as it stands, or fails. *)
Lemma publish_refused p id n a k d out d' : vd_append_only d = true ->
  PublishScoringModelVersion uuid_ok p id n a k d = (Ok out, d') -> d' = d /\ sv_Status out = "active".
Proof.
  intros Hg H. apply PublishScoringModelVersion_Ok in H as (sv & Hsv & _ & _ & [(Ha & -> & ->)|(_ & _ & _ & _ & Hr & _)]); [done|].
  exfalso. specialize (Hr Hg). apply GetByNumber_Ok in Hsv as (i & Hi & Hn).
  unfold numbered in Hn. apply andb_prop in Hn as [[Ht _]%andb_prop _].
  assert (Hk : is_version (p_TenantID p) (sv_ID sv) (if is_active (p_TenantID p) id sv then archive sv else sv) = true).
  { unfold is_version. destruct (is_active _ _ sv); simpl; by rewrite Ht, seqb_refl. }
  rewrite (reaches_false _ _ Hr i) in Hk; [done|]. simpl. by rewrite lookup_fmap, Hi.
Qed.

(** No evaluation is recorded. *)
Lemma eval_refused p id s d : vd_append_only d = true -> exists e, SetScoringModelVersionEvalStatus p id s d = (Err e, d).
Proof.
  intros Hg. unfold SetScoringModelVersionEvalStatus. destruct (negb (mem s _)); [by eexists|].
  destruct (reaches (is_version (p_TenantID p) id) d) eqn:E; simpl; [|by eexists].
  unfold update_versions, touch_versions. rewrite Hg, E. by eexists.
Qed.

Lemma scoring_filter_none (P : ScoringModelVersion -> bool) (m : gmap string ScoringModelVersion) :
  (forall k v, m !! k = Some v -> P v = false) -> filter (fun kv => P kv.2 = false) m = m.
Proof. intros H. apply map_filter_id. intros k v Hk. by apply (H k). Qed.

Lemma CreateScoringRequest_keeps p m s d : let d' := (CreateScoringRequest p m s d).2 in
  vd_models d' = vd_models d /\ vd_versions d' = vd_versions d /\ vd_append_only d' = vd_append_only d /\ vd_used d ⊆ vd_used d'.
Proof.
  cbn zeta. destruct (CreateScoringRequest p m s d) as [[out|e] d'] eqn:H; unfold CreateScoringRequest in H.
  - follow H. follow_tx H. injection H as _ <-. simpl. by repeat split; auto with set_solver; set_solver.
  - destruct (m =s ""); [by injection H as _ <-|]. destruct (s =s ""); [by injection H as _ <-|].
    destruct (actorID p =s ""); [by injection H as _ <-|]. apply scoring_tx_cases in H as [(? & ? & _)|[_ ->]]; done.
Qed.

(** A step fails and changes nothing, or is one of these. *)
Lemma CreateScoringModelVersion_Err p sv d e d' : CreateScoringModelVersion uuid_ok p sv d = (Err e, d') -> d' = d.
Proof.
  unfold CreateScoringModelVersion. cbn zeta. intros H.
  repeat match type of H with (if ?b then _ else _) _ = _ => destruct b; [by injection H as _ <-|] end.
  apply scoring_tx_cases in H as [(? & ? & _)|[_ ->]]; done.
Qed.
Lemma PublishScoring_Err p id n a k d e d' : PublishScoringModelVersion uuid_ok p id n a k d = (Err e, d') -> d' = d.
Proof.
  unfold PublishScoringModelVersion. intros H.
  repeat match type of H with (if ?b then _ else _) _ = _ => destruct b; [by injection H as _ <-|] end.
  apply scoring_tx_cases in H as [(? & ? & _)|[_ ->]]; done.
Qed.
Lemma scoring_tx_Err {A} (m : V A) d e d' : tx m d = (Err e, d') -> d' = d.
Proof. intros H. apply scoring_tx_cases in H as [(? & ? & _)|[_ ->]]; done. Qed.

(** One step of the append-only schema: every version stays as inserted, and
    the models point where they did. *)
Definition unpublished (d : VDB) : Prop := forall id m, vd_models d !! id = Some m -> sm_CurrentVersionID m = None.

Lemma step_append_only Q d d' : step Q d d' -> vd_append_only d = true ->
  vd_append_only d' = true /\ (unpublished d -> unpublished d') /\ (fresh_ids d -> vd_versions d ⊆ vd_versions d' /\ fresh_ids d').
Proof.
  intros Hs Hg. destruct Hs as [p m r d' H|p id r d' H|p sv r d' HQ H|p id n a k r d' H|p id s r d' H|p m s r d' H|id r d' H|id msg r d' H].
  - destruct r as [out|e]; [|by apply scoring_tx_Err in H as ->]. apply CreateScoringModel_Ok in H as (-> & q & ->). simpl. split; [done|]. split.
    + intros Hu i x Hx. simpl in Hx. apply lookup_insert_Some in Hx as [(<- & <-)|[_ Hx]]; [done|by apply (Hu i)].
    + intros Hf. split; [done|]. unfold fresh_ids in *. simpl. set_solver.
  - destruct r as [out|e]; [|by apply scoring_tx_Err in H as ->]. apply DeleteScoringModel_Ok in H as (Hr & Hm & Hv & Hu & Ha).
    rewrite Ha. split; [done|]. rewrite (scoring_filter_none _ _ (reaches_false _ _ (Hr Hg))) in Hv. split.
    + intros Hc i x. rewrite Hm. intros [_ Hx]%lookup_delete_Some. by apply (Hc i).
    + unfold fresh_ids. by rewrite Hv, Hu.
  - destruct r as [out|e]; [|by apply CreateScoringModelVersion_Err in H as ->].
    apply CreateScoringModelVersion_Ok in H as (m & q & Hm & Hid & _ & _ & _ & _ & _ & _ & _ & ->). simpl. split; [done|].
    apply GetScoringModel_Ok in Hm as [Hm _]. split.
    + intros Hc i x Hx. simpl in Hx. apply lookup_insert_Some in Hx as [(<- & <-)|[_ Hx]]; [by apply (Hc _ _ Hm)|by apply (Hc i)].
    + intros Hf. split; [|unfold fresh_ids in *; simpl; set_solver]. apply insert_subseteq, not_elem_of_dom.
      intros Hin%Hf. by apply (is_fresh (vd_used d)).
  - destruct r as [out|e]; [|by apply PublishScoring_Err in H as ->]. by apply publish_refused in H as [-> _].
  - destruct (eval_refused p id s d Hg) as (e & He). rewrite He in H. by injection H as _ <-.
  - pose proof (CreateScoringRequest_keeps p m s d) as Hk. rewrite H in Hk. simpl in Hk. destruct Hk as (Hm & Hv & Ha & Hu).
    unfold unpublished, fresh_ids. rewrite Ha, Hm, Hv. split; [done|]. split; [done|]. intros Hf. split; [done|set_solver].
  - by injection H as _ <-.
  - by injection H as _ <-.
Qed.

(** *** The lifecycle without the trigger *)

Record inv (d : VDB) : Prop := {
  inv_fresh : fresh_ids d;
  inv_models : dom (vd_models d) ⊆ vd_used d;
  inv_id : forall k v, vd_versions d !! k = Some v -> sv_ID v = k;
  inv_owner : forall k v, vd_versions d !! k = Some v ->
    exists m, vd_models d !! sv_ScoringModelID v = Some m /\ sm_TenantID m = sv_TenantID v /\ sv_Version v <= sm_LatestVersion m;
  inv_number : forall k l v w, vd_versions d !! k = Some v -> vd_versions d !! l = Some w ->
    sv_ScoringModelID v = sv_ScoringModelID w -> sv_Version v = sv_Version w -> k = l;
  inv_active : forall k v, vd_versions d !! k = Some v -> sv_Status v = "active" ->
    sv_PublishedBy v <> None /\ exists m, vd_models d !! sv_ScoringModelID v = Some m /\ sm_CurrentVersionID m = Some k;
  inv_current : forall id m c, vd_models d !! id = Some m -> sm_CurrentVersionID m = Some c ->
    exists v, vd_versions d !! c = Some v /\ sv_ScoringModelID v = id /\ sv_Status v = "active"
}.

(** The tables as the invariant sees them. *)
Lemma inv_ext d d' : vd_models d' = vd_models d -> vd_versions d' = vd_versions d -> vd_used d ⊆ vd_used d' -> inv d -> inv d'.
Proof. intros Hm Hv Hu [H1 H2 H3 H4 H5 H6 H7]. split; unfold fresh_ids; rewrite ?Hm, ?Hv; try done; set_solver. Qed.

Lemma CreateScoringModel_inv p m d out d' : CreateScoringModel uuid_ok p m d = (Ok out, d') -> inv d -> inv d'.
Proof.
  intros H [H1 H2 H3 H4 H5 H6 H7]. apply CreateScoringModel_Ok in H as (-> & q & ->).
  assert (Hn : vd_models d !! fresh (vd_used d) = None).
  { apply not_elem_of_dom. intros Hin%H2. by apply (is_fresh (vd_used d)). }
  assert (Hne : forall id m, vd_models d !! id = Some m -> id <> fresh (vd_used d)) by congruence.
  split; unfold fresh_ids in *; simpl; [set_solver|set_solver|done| |done| |].
  - intros k v Hk. destruct (H4 k v Hk) as (x & Hx & ?). exists x. by rewrite lookup_insert_ne by (symmetry; eauto).
  - intros k v Hk Ha. destruct (H6 k v Hk Ha) as (? & x & Hx & ?). split; [done|]. exists x. by rewrite lookup_insert_ne by (symmetry; eauto).
  - intros id x c [(<- & <-)|[_ Hx]]%lookup_insert_Some; [done|]. by apply (H7 id x c).
Qed.

Lemma DeleteScoringModel_inv p id d r d' : DeleteScoringModel uuid_ok p id d = (Ok r, d') -> inv d -> inv d'.
Proof.
  intros H [H1 H2 H3 H4 H5 H6 H7]. apply DeleteScoringModel_Ok in H as (_ & Hm & Hv & Hu & _).
  assert (Hin : forall k v, vd_versions d' !! k = Some v -> vd_versions d !! k = Some v /\ sv_ScoringModelID v <> id).
  { intros k v. rewrite Hv, map_lookup_filter_Some. simpl. intros [? ?%seqb_false]. done. }
  split; unfold fresh_ids in *; rewrite ?Hu, ?Hm.
  - intros k [v Hk]%elem_of_dom. apply Hin in Hk as [Hk _]. apply H1, elem_of_dom. by exists v.
  - set_solver.
  - intros k v [Hk _]%Hin. by apply H3.
  - intros k v [Hk Hne]%Hin. rewrite lookup_delete_ne by done. by apply H4 in Hk.
  - intros k l v w [Hk _]%Hin [Hl _]%Hin. by apply H5.
  - intros k v [Hk Hne]%Hin. rewrite lookup_delete_ne by done. apply (H6 k v Hk).
  - intros i m c [Hi Hx]%lookup_delete_Some Hc. destruct (H7 _ _ _ Hx Hc) as (v & Hcv & <- & Ha). exists v. split; [|done].
    rewrite Hv, map_lookup_filter_Some. split; [done|]. by apply seqb_false.
Qed.

Lemma CreateScoringModelVersion_inv p sv d out d' : asks_draft sv -> CreateScoringModelVersion uuid_ok p sv d = (Ok out, d') -> inv d -> inv d'.
Proof.
  intros HQ H [H1 H2 H3 H4 H5 H6 H7]. apply CreateScoringModelVersion_Ok in H as (m & q & Hm & Hid & Hmo & Ht & Hv & _ & Hs & _ & _ & ->).
  apply GetScoringModel_Ok in Hm as [Hm Hw]. unfold in_workspace in Hw. apply andb_prop in Hw as [Hw _]. apply seqb_true in Hw.
  assert (Hd : sv_Status out = "draft") by (rewrite Hs; destruct HQ as [-> | ->]; done).
  assert (Hn : vd_versions d !! fresh (vd_used d) = None).
  { apply not_elem_of_dom. intros Hin%H1. by apply (is_fresh (vd_used d)). }
  assert (Hmod : forall i x, vd_models d !! i = Some x -> exists y, <[sv_ScoringModelID sv := set_latest (sv_Version out) m]> (vd_models d) !! i = Some y /\
    sm_TenantID y = sm_TenantID x /\ sm_CurrentVersionID y = sm_CurrentVersionID x /\ sm_LatestVersion x <= sm_LatestVersion y).
  { intros i x Hx. destruct (decide (sv_ScoringModelID sv = i)) as [<-|Hne].
    - rewrite lookup_insert_eq. eexists. split; [done|]. rewrite Hm in Hx. injection Hx as <-. simpl. repeat split. lia.
    - rewrite lookup_insert_ne by done. exists x. by repeat split. }
  split; unfold fresh_ids in *; simpl.
  - set_solver.
  - assert (sv_ScoringModelID sv ∈ dom (vd_models d)) by (apply elem_of_dom; eauto). set_solver.
  - intros k v [(<- & <-)|[_ Hk]]%lookup_insert_Some; [done|by apply H3].
  - intros k v [(<- & <-)|[_ Hk]]%lookup_insert_Some.
    + rewrite Hmo, lookup_insert_eq. eexists. split; [done|]. simpl. split; [congruence|lia].
    + destruct (H4 k v Hk) as (x & Hx & Htx & Hle). destruct (Hmod _ _ Hx) as (y & Hy & ? & _ & ?). exists y. split; [done|]. split; [congruence|lia].
  - assert (Hlt : forall k v, vd_versions d !! k = Some v -> sv_ScoringModelID v = sv_ScoringModelID out -> sv_Version v <> sv_Version out).
    { intros k v Hk He. destruct (H4 k v Hk) as (x & Hx & _ & Hle). rewrite He, Hmo, Hm in Hx. injection Hx as ->. lia. }
    intros k l v w [(<- & <-)|[_ Hk]]%lookup_insert_Some [(<- & <-)|[_ Hl]]%lookup_insert_Some He Hn'; [done| | |by apply (H5 k l v w)].
    + destruct (Hlt l w Hl); congruence.
    + destruct (Hlt k v Hk); congruence.
  - intros k v [(<- & <-)|[_ Hk]]%lookup_insert_Some Ha; [congruence|]. destruct (H6 k v Hk Ha) as (Hp & x & Hx & Hc). split; [done|].
    destruct (Hmod _ _ Hx) as (y & Hy & _ & Hcy & _). exists y. split; [done|congruence].
  - assert (Hold : forall i x c, vd_models d !! i = Some x -> sm_CurrentVersionID x = Some c ->
      exists v, <[fresh (vd_used d) := out]> (vd_versions d) !! c = Some v /\ sv_ScoringModelID v = i /\ sv_Status v = "active").
    { intros i x c Hx Hc. destruct (H7 i x c Hx Hc) as (v & Hcv & ?). exists v. by rewrite lookup_insert_ne by congruence. }
    intros i x c [(<- & <-)|[_ Hx]]%lookup_insert_Some Hc; [by apply (Hold _ m)|by apply (Hold i x)].
Qed.

(** What publishing [sv] makes of each version. *)
Definition published (p : Principal) (id a k : string) (now : Z) (sv v : ScoringModelVersion) : ScoringModelVersion :=
  let v := if is_active (p_TenantID p) id v then archive v else v in
  if is_version (p_TenantID p) (sv_ID sv) v then activate a k now v else v.

Lemma published_keeps p id a k now sv v : let w := published p id a k now sv v in
  sv_ID w = sv_ID v /\ sv_ScoringModelID w = sv_ScoringModelID v /\ sv_TenantID w = sv_TenantID v /\ sv_Version w = sv_Version v.
Proof. unfold published. destruct (is_active _ _ v), (is_version _ _ _); by repeat split. Qed.

Lemma published_active p id a k now sv v : sv_TenantID v = p_TenantID p -> sv_ScoringModelID v = id ->
  sv_Status (published p id a k now sv v) = "active" -> sv_ID v = sv_ID sv /\ sv_PublishedBy (published p id a k now sv v) = Some a.
Proof.
  intros Ht Hi. unfold published, is_active. rewrite Ht, Hi, !seqb_refl. simpl. destruct (sv_Status v =s "active") eqn:Es; simpl.
  - unfold is_version. simpl. destruct (_ && _) eqn:E; simpl; [|done]. apply andb_prop in E as [_ E%seqb_true]. done.
  - unfold is_version. destruct (_ && _) eqn:E; simpl; [|by intros ?%seqb_true; congruence].
    apply andb_prop in E as [_ E%seqb_true]. done.
Qed.

Lemma published_other p id a k now sv v : sv_ScoringModelID v <> id -> sv_ID v <> sv_ID sv -> published p id a k now sv v = v.
Proof.
  intros Hi Hn. unfold published, is_active, is_version. apply seqb_false in Hi, Hn. rewrite Hi, andb_false_r. simpl. by rewrite Hn, andb_false_r.
Qed.

(** The tables after a publication that was one. *)
Lemma Publish_tables p id n a k d out d' : PublishScoringModelVersion uuid_ok p id n a k d = (Ok out, d') -> inv d -> d' <> d ->
  exists sv i m, vd_versions d !! i = Some sv /\ sv_ID sv = i /\ sv_ScoringModelID sv = id /\ sv_Status sv <> "active" /\
    sv_TenantID sv = p_TenantID p /\ vd_models d !! id = Some m /\ sm_TenantID m = p_TenantID p /\
    vd_versions d' = published p id a k (vd_now d) sv <$> vd_versions d /\ vd_models d' = <[id := set_current i m]> (vd_models d) /\
    vd_used d' = vd_used d.
Proof.
  intros H Hinv Hd. apply PublishScoringModelVersion_Ok in H as (sv & Hsv & _ & _ & [(_ & _ & ->)|(Hna & _ & _ & _ & _ & Hv & Hm & Hu & _)]); [done|].
  rewrite <- map_fmap_compose in Hv. change (vd_versions d' = published p id a k (vd_now d) sv <$> vd_versions d) in Hv.
  apply GetByNumber_Ok in Hsv as (i & Hi & Hn). unfold numbered in Hn. apply andb_prop in Hn as [[Ht Hid]%andb_prop _].
  apply seqb_true in Ht, Hid. pose proof (inv_id _ Hinv _ _ Hi) as Hii. destruct (inv_owner _ Hinv _ _ Hi) as (m & Hmm & Htm & _).
  rewrite Hid in Hmm. exists sv, i, m. do 6 (split; [done|]). split; [congruence|]. split; [done|]. split; [|done].
  rewrite Hm, Hii. apply map_eq. intros j. destruct (decide (id = j)) as [<-|Hne].
  - rewrite lookup_alter_eq, lookup_insert_eq, Hmm. simpl. by rewrite Htm, Ht, seqb_refl.
  - by rewrite lookup_alter_ne, lookup_insert_ne.
Qed.

Lemma PublishScoringModelVersion_inv p id n a k d out d' : PublishScoringModelVersion uuid_ok p id n a k d = (Ok out, d') -> inv d -> inv d'.
Proof.
  intros H Hinv. assert (Hd : d' = d \/ d' <> d).
  { apply PublishScoringModelVersion_Ok in H as (sv & Hsv & _ & _ & [(_ & _ & ->)|(Hna & _ & _ & _ & _ & Hv & _)]); [by left|right].
    intros ->. apply GetByNumber_Ok in Hsv as (i & Hi & Hn). unfold numbered in Hn. apply andb_prop in Hn as [[Ht _]%andb_prop _].
    pose proof Hi as Hg. rewrite Hv, !lookup_fmap, Hi in Hg. injection Hg as Hg. apply Hna. rewrite <- Hg.
    unfold is_version. destruct (is_active _ _ sv); simpl; by rewrite Ht, seqb_refl. }
  destruct Hd as [->|Hd]; [done|].
  destruct (Publish_tables _ _ _ _ _ _ _ _ H Hinv Hd) as (sv & i & m & Hi & Hii & Hid & Hna & Ht & Hmm & Htm & Hv & Hmod & Hu).
  destruct Hinv as [H1 H2 H3 H4 H5 H6 H7]. set (g := published p id a k (vd_now d) sv) in *.
  pose proof (published_keeps p id a k (vd_now d) sv : forall v, let w := g v in _) as Hgk. cbn zeta in Hgk.
  assert (Hown : forall l w, vd_versions d !! l = Some w -> sv_ScoringModelID w = id -> sv_TenantID w = p_TenantID p).
  { intros l w Hl Hw. destruct (H4 l w Hl) as (x & Hx & Hxt & _). rewrite Hw, Hmm in Hx. injection Hx as <-. congruence. }
  assert (Hg : forall l w, vd_versions d' !! l = Some w -> exists v, vd_versions d !! l = Some v /\ w = g v).
  { intros l w. rewrite Hv, lookup_fmap. destruct (vd_versions d !! l) as [v|] eqn:E; [|done]. intros [= <-]. by exists v. }
  assert (Hother : forall l w, vd_versions d !! l = Some w -> sv_ScoringModelID w <> id -> g w = w).
  { intros l w Hl Hw. apply published_other; [done|]. intros He. rewrite (H3 _ _ Hl), Hii in He. subst l. congruence. }
  split; unfold fresh_ids in *; rewrite ?Hu.
  - rewrite Hv. by rewrite dom_fmap_L.
  - rewrite Hmod, dom_insert_L. assert (id ∈ dom (vd_models d)) by (apply elem_of_dom; eauto). set_solver.
  - intros l w (v & Hl & ->)%Hg. destruct (Hgk v) as (-> & _). by apply H3.
  - intros l w (v & Hl & ->)%Hg. destruct (Hgk v) as (_ & -> & -> & ->).
    destruct (H4 l v Hl) as (x & Hx & ?). rewrite Hmod. destruct (decide (id = sv_ScoringModelID v)) as [He|Hne].
    + rewrite <- He, lookup_insert_eq. eexists. split; [done|]. rewrite <- He, Hmm in Hx. by injection Hx as <-.
    + exists x. by rewrite lookup_insert_ne.
  - intros l j w1 w2 (v1 & Hl & ->)%Hg (v2 & Hj & ->)%Hg. destruct (Hgk v1) as (_ & -> & _ & ->).
    destruct (Hgk v2) as (_ & -> & _ & ->). by apply (H5 l j).
  - intros l w (v & Hl & ->)%Hg Ha. destruct (Hgk v) as (_ & -> & _). rewrite Hmod.
    destruct (decide (sv_ScoringModelID v = id)) as [He|Hne].
    + destruct (published_active p id a k (vd_now d) sv v (Hown _ _ Hl He) He Ha) as (Hs & Hp). split; [unfold g; by rewrite Hp|].
      rewrite He, lookup_insert_eq. eexists. split; [done|]. simpl. rewrite (H3 _ _ Hl), Hii in Hs. by subst l.
    + rewrite (Hother _ _ Hl Hne) in Ha |- *. rewrite lookup_insert_ne by done. by apply H6.
  - intros j x c Hx Hc. rewrite Hmod in Hx. apply lookup_insert_Some in Hx as [(<- & <-)|[Hne Hx]].
    + simpl in Hc. injection Hc as <-. exists (g sv). rewrite Hv, lookup_fmap, Hi. split; [done|]. destruct (Hgk sv) as (_ & -> & _).
      split; [done|]. unfold g, published, is_active. apply seqb_false in Hna. rewrite Hna, andb_false_r. unfold is_version.
      by rewrite Ht, !seqb_refl.
    + destruct (H7 j x c Hx Hc) as (v & Hcv & Hvj & Ha). exists v. rewrite Hv, lookup_fmap, Hcv. simpl.
      rewrite (Hother _ _ Hcv) by congruence. done.
Qed.

Lemma SetEval_inv p id s d r d' : SetScoringModelVersionEvalStatus p id s d = (r, d') -> inv d -> inv d'.
Proof.
  unfold SetScoringModelVersionEvalStatus. destruct (negb (mem s _)); [by intros [= _ <-]|].
  destruct (negb (reaches _ d)); [by intros [= _ <-]|]. unfold update_versions, touch_versions.
  destruct (vd_append_only d && _); intros [= _ <-]; [done|]. intros [H1 H2 H3 H4 H5 H6 H7].
  set (g v := if is_version (p_TenantID p) id v then set_eval s v else v).
  assert (Hk : forall v, sv_ID (g v) = sv_ID v /\ sv_ScoringModelID (g v) = sv_ScoringModelID v /\ sv_TenantID (g v) = sv_TenantID v /\
    sv_Version (g v) = sv_Version v /\ sv_Status (g v) = sv_Status v /\ sv_PublishedBy (g v) = sv_PublishedBy v).
  { intros v. unfold g. destruct (is_version _ _ v); by repeat split. }
  assert (Hg : forall l w, (g <$> vd_versions d) !! l = Some w -> exists v, vd_versions d !! l = Some v /\ w = g v).
  { intros l w. rewrite lookup_fmap. destruct (vd_versions d !! l) as [v|]; [|done]. intros [= <-]. by exists v. }
  split; unfold fresh_ids in *; cbn [vd_versions vd_models vd_used set_versions]; fold g.
  - by rewrite dom_fmap_L.
  - done.
  - intros l w (v & Hl & ->)%Hg. destruct (Hk v) as (-> & _). by apply H3.
  - intros l w (v & Hl & ->)%Hg. destruct (Hk v) as (_ & -> & -> & -> & _). by apply (H4 l).
  - intros l j w1 w2 (v1 & Hl & ->)%Hg (v2 & Hj & ->)%Hg. destruct (Hk v1) as (_ & -> & _ & -> & _).
    destruct (Hk v2) as (_ & -> & _ & -> & _). by apply (H5 l j).
  - intros l w (v & Hl & ->)%Hg. destruct (Hk v) as (_ & -> & _ & _ & -> & ->). by apply H6.
  - intros j x c Hx Hc. destruct (H7 j x c Hx Hc) as (v & Hcv & ?). exists (g v). rewrite lookup_fmap, Hcv. split; [done|].
    by destruct (Hk v) as (_ & -> & _ & _ & -> & _).
Qed.

Lemma step_inv d d' : step asks_draft d d' -> inv d -> inv d'.
Proof.
  intros [p m r d1 H|p id r d1 H|p sv r d1 HQ H|p id n a k r d1 H|p id s r d1 H|p m s r d1 H|id r d1 H|id msg r d1 H].
  - destruct r; [by eapply CreateScoringModel_inv|by apply scoring_tx_Err in H as ->].
  - destruct r; [by eapply DeleteScoringModel_inv|by apply scoring_tx_Err in H as ->].
  - destruct r; [by eapply CreateScoringModelVersion_inv|by apply CreateScoringModelVersion_Err in H as ->].
  - destruct r; [by eapply PublishScoringModelVersion_inv|by apply PublishScoring_Err in H as ->].
  - by eapply SetEval_inv.
  - pose proof (CreateScoringRequest_keeps p m s d) as Hk. rewrite H in Hk. simpl in Hk. destruct Hk as (Hm & Hv & _ & Hu). by apply inv_ext.
  - injection H as _ <-. by apply inv_ext.
  - injection H as _ <-. by apply inv_ext.
Qed.

End ops.

(** ** Scoring jobs *)

Section compute.
Context (ParseExpr : string -> result Expr) (Unquote : string -> result string).
Context (ResolveSegment : Principal -> string -> V (list string)) (GetProfileByIDSystem : string -> string -> string -> V Profile)
  (GetFirstAppID : string -> string -> V string) (GetEventCount : string -> string -> string -> string -> string -> Z -> V Z)
  (EvaluateLLM : Principal -> ScoringModelVersion -> list (string * any) -> V Float.float64).

(** The rest of the store and the gateway write none of the scoring tables. *)
Hypothesis segments_quiet : forall p s, pureM (ResolveSegment p s).
Hypothesis profiles_quiet : forall t w id, pureM (GetProfileByIDSystem t w id).
Hypothesis apps_quiet : forall t w, pureM (GetFirstAppID t w).
Hypothesis counts_quiet : forall t w x a e n, pureM (GetEventCount t w x a e n).
Hypothesis gateway_quiet : forall p sv attrs, pureM (EvaluateLLM p sv attrs).

Abbreviation execute := (executeScoring ParseExpr Unquote ResolveSegment GetProfileByIDSystem GetFirstAppID GetEventCount EvaluateLLM).
Abbreviation profile_score := (score_profile ParseExpr Unquote GetProfileByIDSystem GetEventCount EvaluateLLM).
Abbreviation all_scores := (score_all ParseExpr Unquote GetProfileByIDSystem GetEventCount EvaluateLLM).

Lemma pure_bind {A B} (m : V A) (f : A -> V B) : pureM m -> (forall a, pureM (f a)) -> pureM (m ≫= f).
Proof. intros Hm Hf w. unfold mbind, M_bind. specialize (Hm w). destruct (m w) as [[a|e] w1]; simpl in *; subst; [apply Hf|done]. Qed.
Lemma pure_run {A} (m : V A) d r d' : pureM m -> m d = (r, d') -> d' = d.
Proof. intros Hm H. specialize (Hm d). by rewrite H in Hm. Qed.

Lemma count_days_quiet t w profile et l m : pureM (count_days GetEventCount t w profile et l m).
Proof. revert m. induction l as [|n l IH]; intros m; simpl; [done|]. apply pure_bind; [done|]. intros a. apply IH. Qed.
Lemma count_events_quiet t w profile l acc : pureM (count_events GetEventCount t w profile l acc).
Proof.
  revert acc. induction l as [|[et days] l IH]; intros acc; simpl; [done|]. apply pure_bind; [apply count_days_quiet|]. intros a. apply IH.
Qed.
Lemma BuildExpressionEnv_quiet t w profile expr : pureM (BuildExpressionEnv ParseExpr GetEventCount t w profile expr).
Proof.
  unfold BuildExpressionEnv. apply pure_bind; [done|]. intros l. destruct (map_to_list l) as [|x k]; [done|].
  apply pure_bind; [apply count_events_quiet|]. done.
Qed.
Lemma profile_score_quiet p job m sv app id : pureM (profile_score p job m sv app id).
Proof.
  apply pure_bind; [done|]. intros profile. apply pure_bind; [|done]. unfold score_value.
  destruct (sm_Kind m =s "expression"); [|by destruct (sm_Kind m =s "llm")].
  apply pure_bind; [done|]. intros e. apply pure_bind; [apply BuildExpressionEnv_quiet|]. done.
Qed.

(** A score of one profile by one version. *)
Definition score_of (job : ScoringJob) (m : ScoringModel) (sv : ScoringModelVersion) (app id : string) (s : ProfileScore) : Prop :=
  ps_TenantID s = sr_TenantID job /\ ps_WorkspaceID s = sr_WorkspaceID job /\ ps_AppID s = app /\ ps_ProfileID s = id /\
  ps_ScoringModelID s = sr_ScoringModelID job /\ ps_ScoreName s = sv_ScoreName sv /\ ps_ModelVersion s = sv_Version sv /\
  (sm_Kind m = "expression" -> Float.leb (sv_OutputMin sv) (sv_OutputMax sv) = true ->
   within (sv_OutputMin sv) (sv_OutputMax sv) (ps_Value s) = true \/ Float.is_nan (ps_Value s) = true).

Lemma clamped exprStr env lo hi r : Evaluate ParseExpr Unquote exprStr env lo hi = Ok r -> Float.leb lo hi = true ->
  within lo hi r = true \/ Float.is_nan r = true.
Proof.
  unfold Evaluate. intros Hr Hb. apply bind_Ok in Hr as (e & _ & Hr). apply bind_Ok in Hr as (v & _ & Hr). apply bind_Ok in Hr as (n & _ & Hr).
  injection Hr as <-. by apply clamp_within.
Qed.

Lemma profile_score_Ok p job m sv app id d s d' : profile_score p job m sv app id d = (Ok s, d') -> score_of job m sv app id s.
Proof.
  intros H. apply bindM_Ok in H as (profile & d1 & _ & H). apply bindM_Ok in H as (v & d2 & Hv & H). injection H as <- _.
  unfold score_of. simpl. do 7 (split; [done|]). intros Hk Hb. unfold score_value in Hv. rewrite Hk in Hv. simpl in Hv.
  apply bindM_Ok in Hv as (expr & d3 & _ & Hv). apply bindM_Ok in Hv as (env & d4 & _ & Hv). injection Hv as Hv _. by eapply clamped.
Qed.

Lemma all_scores_Ok p job m sv app ids d scores d' : all_scores p job m sv app ids d = (Ok scores, d') ->
  Forall2 (score_of job m sv app) ids scores.
Proof.
  revert d scores d'. induction ids as [|id ids IH]; intros d scores d' H; simpl in H; [by injection H as <- _|].
  apply bindM_Ok in H as (s & d1 & Hs & H). apply bindM_Ok in H as (rest & d2 & Hr & H). injection H as <- _.
  constructor; [by eapply profile_score_Ok|by eapply IH].
Qed.
Lemma all_scores_quiet p job m sv app ids : pureM (all_scores p job m sv app ids).
Proof. induction ids as [|id ids IH]; simpl; [done|]. apply pure_bind; [apply profile_score_quiet|]. intros s. by apply pure_bind. Qed.

Lemma UpsertProfileScores_eq scores d r d' : UpsertProfileScores scores d = (r, d') ->
  (r = Ok tt /\ d' = set_scores (foldl (fun m s => upsert s m) (vd_scores d) scores) d) \/ (exists e, r = Err e) /\ d' = d.
Proof.
  assert (Hi : forall l d d', iterM upsert_score l d = (Ok tt, d') -> d' = set_scores (foldl (fun m s => upsert s m) (vd_scores d) l) d).
  { clear. induction l as [|s l IH]; intros d d' H; simpl in H; [injection H as <-; by destruct d|].
    apply bindM_Ok in H as ([] & d1 & Hs & H). unfold upsert_score in Hs. destruct (vd_models d !! _); [|done]. injection Hs as <-.
    by apply IH in H. }
  destruct scores as [|s l]; [intros [= <- <-]; left; split; [done|by destruct d]|]. intros H.
  apply scoring_tx_cases in H as [([] & -> & H)|[He ->]]; [left|right; done]. split; [done|]. by apply Hi.
Qed.

Definition job_principal (job : ScoringJob) (scopes : list string) : Principal :=
  MkPrincipal (sr_TenantID job) (sr_WorkspaceID job) "" "" (sr_RequestedBy job) "ai_agent" scopes.

Local Ltac stops := intros [= <- <-]; simpl; split; [done|]; split; [done|]; left; split; [by eexists|done].

(** A scoring job that succeeds has found its model's current version,
    active and passed, and has written exactly one score per profile of the
    segment, each under that version and, for an expression, within the
    version's bounds or NaN; one that fails has written none.  The models and
    versions stay as they were. *)
Theorem executeScoring_writes requestID scopes d r d' : execute requestID scopes d = (r, d') ->
  vd_models d' = vd_models d /\ vd_versions d' = vd_versions d /\
  ((exists e, r = Err e) /\ vd_scores d' = vd_scores d \/
   exists job m c sv ids app scores,
     vd_requests d !! requestID = Some job /\ GetScoringModel (job_principal job scopes) (sr_ScoringModelID job) d = Ok m /\
     sm_CurrentVersionID m = Some c /\ GetScoringModelVersion (job_principal job scopes) c d = Ok sv /\
     sv_Status sv = "active" /\ sv_EvalStatus sv = "passed" /\
     (ResolveSegment (job_principal job scopes) (sr_SegmentID job) (MarkScoringProcessing requestID d).2).1 = Ok ids /\
     Forall2 (score_of job m sv app) ids scores /\ r = Ok tt /\
     vd_scores d' = foldl (fun m s => upsert s m) (vd_scores d) scores /\
     sr_Status <$> vd_requests d' !! requestID = Some "complete").
Proof.
  unfold executeScoring. destruct (requestID =s ""); [stops|]. unfold GetScoringJob.
  unfold mbind at 1, M_bind at 1. destruct (vd_requests d !! requestID) as [job|] eqn:Ej; [|stops].
  cbn zeta. fold (job_principal job scopes). set (p := job_principal job scopes).
  unfold query. unfold mbind at 1, M_bind at 1. destruct (GetScoringModel p _ d) as [m|e] eqn:Em; [|stops].
  destruct (sm_CurrentVersionID m) as [c|] eqn:Ec; [|stops]. destruct c as [|x c'] eqn:Ecc; [stops|].
  rewrite <- Ecc in *. unfold mbind at 1, M_bind at 1. destruct (GetScoringModelVersion p c d) as [sv|e] eqn:Ev; [|stops].
  destruct (usable sv) eqn:Eu; simpl; [|stops]. apply andb_prop in Eu as [Ha%seqb_true Hp%seqb_true].
  set (d1 := set_requests _ d). unfold mbind at 1, M_bind at 1. change (MarkScoringProcessing requestID d) with (@Ok unit tt, d1). cbn beta iota.
  unfold mbind at 1, M_bind at 1.
  pose proof (segments_quiet p (sr_SegmentID job) d1) as Hq. destruct (ResolveSegment p (sr_SegmentID job) d1) as [[ids|e] d2] eqn:Es; simpl in Hq; subst d2;
    [|stops].
  unfold mbind at 1, M_bind at 1. pose proof (apps_quiet (sr_TenantID job) (sr_WorkspaceID job) d1) as Hq.
  destruct (GetFirstAppID _ _ d1) as [[app|e] d2]; simpl in Hq; subst d2; [|stops].
  unfold mbind at 1, M_bind at 1. pose proof (all_scores_quiet p job m sv app ids d1) as Hq.
  destruct (all_scores p job m sv app ids d1) as [[scores|e] d2] eqn:Esc; simpl in Hq; subst d2; [|stops].
  unfold mbind at 1, M_bind at 1. destruct (UpsertProfileScores scores d1) as [r1 d2] eqn:Eu.
  apply UpsertProfileScores_eq in Eu as [[-> ->]|[[e ->] ->]]; [|stops]. intros [= <- <-]. simpl. do 2 (split; [done|]). right.
  exists job, m, c, sv, ids, app, scores. do 6 (split; [done|]). split; [exact (f_equal fst Es)|]. split; [by eapply all_scores_Ok|].
  do 2 (split; [done|]). by rewrite !lookup_alter_eq, Ej.
Qed.

Lemma execute_unpublished requestID scopes d : unpublished d -> exists e, execute requestID scopes d = (Err e, d).
Proof.
  intros Hu. unfold executeScoring. destruct (requestID =s ""); [by eexists|]. unfold GetScoringJob, query. unfold_M.
  destruct (vd_requests d !! requestID) as [job|]; [|by eexists]. cbn zeta.
  destruct (GetScoringModel _ _ d) as [m|e] eqn:Em; [|by eexists]. apply GetScoringModel_Ok in Em as [Em _]. rewrite (Hu _ _ Em). by eexists.
Qed.

End compute.
(** ** The two schemas *)

(** With the tables of migration 031, whatever the handlers and the evaluator
    run, one after the other, on versions created as drafts: version numbers
    are unique, a model has at most one active version, someone approved it,
    and it is the one the model points to; the model never points anywhere
    else.  Publications lock the version's row only: two of them at the same
    time, of different versions, do not archive each other. *)
Theorem one_active_version uuid_ok d0 d : inv d0 -> rtc (step uuid_ok asks_draft) d0 d ->
  inv d /\
  forall k l v w, vd_versions d !! k = Some v -> vd_versions d !! l = Some w -> sv_ScoringModelID v = sv_ScoringModelID w ->
    sv_Status v = "active" -> sv_Status w = "active" -> k = l.
Proof.
  intros H0 Hr. assert (Hi : inv d) by (induction Hr; eauto using step_inv). split; [done|].
  intros k l v w Hk Hl Hm Hv Hw. destruct (inv_active _ Hi _ _ Hk Hv) as (_ & x & Hx & Hcx).
  destruct (inv_active _ Hi _ _ Hl Hw) as (_ & y & Hy & Hcy). congruence.
Qed.

(** C22: Migration 063 stops the lifecycle of scoring models.  Once it has
    run, whatever the handlers do, from tables in which no model points to a
    version: every version stays as it was inserted, publishing only ever
    answers a version that already is active and changes nothing, no
    evaluation verdict can be recorded, and every scoring job fails. *)
Theorem append_only_blocks uuid_ok d0 d : vd_append_only d0 = true -> fresh_ids d0 -> unpublished d0 ->
  rtc (step uuid_ok (fun _ => True)) d0 d ->
  vd_versions d0 ⊆ vd_versions d /\
  (forall p id n a k out d', PublishScoringModelVersion uuid_ok p id n a k d = (Ok out, d') -> d' = d /\ sv_Status out = "active") /\
  (forall p id s, exists e, SetScoringModelVersionEvalStatus p id s d = (Err e, d)) /\
  (forall ParseExpr Unquote ResolveSegment GetProfile GetApp GetCount EvaluateLLM requestID scopes, exists e,
    executeScoring ParseExpr Unquote ResolveSegment GetProfile GetApp GetCount EvaluateLLM requestID scopes d = (Err e, d)).
Proof.
  intros Hg Hf Hu Hr.
  assert (H : vd_append_only d = true /\ fresh_ids d /\ unpublished d /\ vd_versions d0 ⊆ vd_versions d).
  { induction Hr as [d|d d1 d2 Hs _ IH]; [done|]. destruct (step_append_only _ _ _ _ Hs Hg) as (Hg1 & Hu1 & H1).
    destruct (H1 Hf) as [Hv Hf1]. destruct (IH Hg1 Hf1 (Hu1 Hu)) as (? & ? & ? & ?). do 3 (split; [done|]). by etrans. }
  destruct H as (Hg1 & _ & Hu1 & Hv). split; [done|]. split; [intros *; by apply publish_refused|]. split; [intros *; by apply eval_refused|].
  intros *. by apply execute_unpublished.
Qed.

(** *** At work *)

Definition demo_user : Principal := MkPrincipal "t" "w" "" "" "u" "user" [].
Definition demo_db (guard : bool) : VDB := MkVDB ∅ ∅ ∅ ∅ ∅ [] (Audit.MkADB [] ∅ 1000) ∅ 5 guard.
Definition demo_model : ScoringModel := MkScoringModel "" "" "" "propensity" "expression" None 0.
Definition demo_version (status eval : string) (model : string) : ScoringModelVersion :=
  MkScoringModelVersion "" model "" 0 "score" (Raw (JObject [("expr", JString "1")])) Float.zero (Float.of_Z 1) "key" status eval None None.
Definition any_uuid (s : string) : bool := true.
Definition m_id : string := fresh (∅ : gset string).
Definition v_id : string := fresh ({[m_id]} ∪ ∅ : gset string).
Definition with_version (guard : bool) (status eval : string) : VDB :=
  (CreateScoringModelVersion any_uuid demo_user (demo_version status eval m_id)
    (CreateScoringModel any_uuid demo_user demo_model (demo_db guard)).2).2.
Definition evaluated (guard : bool) : VDB := (SetScoringModelVersionEvalStatus demo_user v_id "passed" (with_version guard "" "")).2.
Definition after_publish (guard : bool) : VDB := (PublishScoringModelVersion any_uuid demo_user m_id 1 "u" "key" (evaluated guard)).2.

(** The status and verdict of the version, and what its model points to. *)
Definition status_of (d : VDB) : option (string * string) := (fun v => (sv_Status v, sv_EvalStatus v)) <$> vd_versions d !! v_id.
Example lifecycle : status_of (after_publish false) = Some ("active", "passed") /\ status_of (after_publish true) = Some ("draft", "pending").
Proof. split; vm_compute; reflexivity. Qed.

(** The handler passes the caller's status and verdict through: a version
    nobody evaluated or approved is usable, and publishing it changes nothing. *)
Example caller_activates : let d := with_version false "active" "passed" in
  is_Ok (GetUsableScoringModelVersion demo_user m_id 1 d) = true /\
  (PublishScoringModelVersion any_uuid demo_user m_id 1 "u" "key" d).2 = d /\ sm_CurrentVersionID <$> vd_models d !! m_id = Some None.
Proof. split; [vm_compute; reflexivity|]. split; vm_compute; reflexivity. Qed.

Lemma demo_steps guard : rtc (step any_uuid asks_draft) (demo_db guard) (after_publish guard).
Proof.
  eapply rtc_l; [exact (StepModel _ _ _ demo_user demo_model _ _ (surjective_pairing _))|].
  eapply rtc_l; [exact (StepVersion _ _ _ demo_user (demo_version "" "" m_id) _ _ (or_introl eq_refl) (surjective_pairing _))|].
  eapply rtc_l; [exact (StepEval _ _ _ demo_user v_id "passed" _ _ (surjective_pairing _))|]. apply rtc_once.
  exact (StepPublish _ _ _ demo_user m_id 1 "u" "key" _ _ (surjective_pairing _)).
Qed.

Lemma demo_inv guard : inv (demo_db guard).
Proof. split; unfold fresh_ids; simpl; [set_solver|set_solver|..]; intros *; by rewrite ?lookup_empty. Qed.

Lemma one_active_version_witness :
  inv (demo_db false) /\ rtc (step any_uuid asks_draft) (demo_db false) (after_publish false) /\ inv (after_publish false) /\
  status_of (after_publish false) = Some ("active", "passed").
Proof.
  split; [apply demo_inv|]. split; [apply demo_steps|].
  split; [|vm_compute; reflexivity]. apply (one_active_version any_uuid (demo_db false)); [apply demo_inv|apply demo_steps].
Defined.

Lemma step_mono uuid_ok (Q R : ScoringModelVersion -> Prop) d d' : (forall sv, Q sv -> R sv) -> step uuid_ok Q d d' -> step uuid_ok R d d'.
Proof. intros HQ []; [eapply StepModel|eapply StepDelete|eapply StepVersion|eapply StepPublish|eapply StepEval|eapply StepRequest|eapply StepProcessing|eapply StepFail]; eauto. Qed.
Lemma steps_mono uuid_ok (Q R : ScoringModelVersion -> Prop) d d' : (forall sv, Q sv -> R sv) -> rtc (step uuid_ok Q) d d' -> rtc (step uuid_ok R) d d'.
Proof. intros HQ. induction 1; [done|]. eapply rtc_l; [by eapply step_mono|done]. Qed.

Lemma append_only_blocks_witness :
  vd_append_only (demo_db true) = true /\ rtc (step any_uuid (fun _ => True)) (demo_db true) (after_publish true) /\
  (forall p id s, exists e, SetScoringModelVersionEvalStatus p id s (after_publish true) = (Err e, after_publish true)).
Proof.
  assert (Hr : rtc (step any_uuid (fun _ => True)) (demo_db true) (after_publish true)).
  { apply (steps_mono any_uuid asks_draft); [done|apply demo_steps]. }
  split; [reflexivity|]. split; [exact Hr|].
  apply (append_only_blocks any_uuid (demo_db true) (after_publish true)); [reflexivity|by unfold fresh_ids; set_solver|done|exact Hr].
Defined.

(** A job over one profile. *)
Definition job_db : VDB :=
  set_requests {["r" := MkScoringRequest "r" "t" "w" "u" m_id "s" "pending" ""]} (after_publish false).
Definition demo_resolve (p : Principal) (s : string) : V (list string) := mret ["ada"].
Definition demo_profile_of (t w id : string) : V Profile := mret (MkProfile id "ada" "" (Raw (JObject [])) 1 0).
Definition demo_app (t w : string) : V string := mret "app".
Definition demo_counts (t w x a e : string) (n : Z) : V Z := mret 0.
Definition demo_llm (p : Principal) (sv : ScoringModelVersion) (attrs : list (string * any)) : V Float.float64 := throw ErrNotFound.
Definition parse_one (s : string) : result Expr := Ok (BasicLit INT "1").
Definition job_run : result unit * VDB :=
  executeScoring parse_one no_unquote demo_resolve demo_profile_of demo_app demo_counts demo_llm "r" [] job_db.

Lemma executeScoring_writes_witness :
  job_run.1 = Ok tt /\ ps_Value <$> vd_scores job_run.2 !! ("t", "ada", m_id, "score") = Some (Float.of_Z 1) /\
  vd_versions job_run.2 = vd_versions job_db.
Proof.
  split; [vm_compute; reflexivity|]. split; [vm_compute; reflexivity|].
  destruct (executeScoring_writes parse_one no_unquote demo_resolve demo_profile_of demo_app demo_counts demo_llm
    (fun _ _ _ => eq_refl) (fun _ _ _ _ => eq_refl) (fun _ _ _ => eq_refl) (fun _ _ _ _ _ _ _ => eq_refl) (fun _ _ _ _ => eq_refl)
    "r" [] job_db job_run.1 job_run.2 (surjective_pairing _)) as (_ & H & _). exact H.
Defined.

End ScoringDBSpec.
