(* ===== verification/Statistics.v ===== *)
(** * Experiment statistics (src/internal/experiment/stats.go,
    recommendWinner in src/internal/postgres/analytics.go)

    The two-proportion test in binary64 and the choice of a winner.  Every
    operation rounds (no fused multiply-add, as on amd64); [math.Sqrt] is
    IEEE's, [math.Erfc] a parameter. *)

From S2P Require Import Prelude.
From S2P Require Import GoStd.
From S2P Require Import GoMap.
From S2P Require Import GoFloat.
From S2P Require Import ScoringSpec.
From Stdlib Require Import Floats.SpecFloat.

Module Statistics.
Import Float.

Record VariantStats : Type := MkVariantStats {
  vs_Rate : float64; vs_Uplift : float64; vs_ZScore : float64; vs_PValue : float64; vs_CILow : float64; vs_CIHigh : float64
}.
Record ExperimentGuardrail : Type := MkExperimentGuardrail { eg_GoalName : string; eg_Conversions : Z; eg_Rate : float64 }.
Record ExperimentVariantReport : Type := MkExperimentVariantReport {
  vr_Label : string; vr_IsControl : bool; vr_Sent : Z; vr_Conversions : Z; vr_Rate : float64; vr_Uplift : float64; vr_ZScore : float64;
  vr_PValue : float64; vr_CILow : float64; vr_CIHigh : float64; vr_Guardrails : list ExperimentGuardrail
}.
Record ExperimentReport : Type := MkExperimentReport {
  er_ExperimentID : string; er_WinnerVariant : option string; er_Variants : list ExperimentVariantReport
}.

Definition sqrt : float64 -> float64 := SFsqrt prec emax.
Definition one : float64 := of_Z 1.
Definition two : float64 := of_Z 2.
Definition z95 : float64 := parsed "1.959963984540054".
Definition significance : float64 := parsed "0.05".

Section erfc.
Context (erfc : float64 -> float64).

Definition CompareProportions (sentControl convControl sentVariant convVariant : Z) : VariantStats :=
  let rate := if 0 <? sentVariant then div (of_Z convVariant) (of_Z sentVariant) else zero in
  if (sentControl <=? 0) || (sentVariant <=? 0) then MkVariantStats rate zero zero one zero zero else
  let pControl := div (of_Z convControl) (of_Z sentControl) in
  let pVariant := rate in
  let uplift := if ltb zero pControl then div (sub pVariant pControl) pControl else zero in
  let pooledP := div (of_Z (i64 (convControl + convVariant))) (of_Z (i64 (sentControl + sentVariant))) in
  let sePooled := sqrt (mul (mul pooledP (sub one pooledP)) (add (div one (of_Z sentControl)) (div one (of_Z sentVariant)))) in
  let '(z, p) := if ltb zero sePooled
                 then let z := div (sub pVariant pControl) sePooled in (z, erfc (div (abs z) (sqrt two)))
                 else (zero, one) in
  let seDiff := sqrt (add (div (mul pControl (sub one pControl)) (of_Z sentControl)) (div (mul pVariant (sub one pVariant)) (of_Z sentVariant))) in
  let diff := sub pVariant pControl in
  MkVariantStats rate uplift z p (sub diff (mul z95 seDiff)) (add diff (mul z95 seDiff)).

(** ** The recommendation *)

Definition guardrail_of (control : ExperimentVariantReport) (name : string) : option ExperimentGuardrail :=
  find_first (fun cg => eg_GoalName cg =s name) (vr_Guardrails control).
(** A guardrail rate above the control's by a significant margin. *)
Definition regressed (control v : ExperimentVariantReport) (vg : ExperimentGuardrail) : bool :=
  match guardrail_of control (eg_GoalName vg) with
  | None => false
  | Some cg =>
      ltb (eg_Rate cg) (eg_Rate vg) &&
      let stats := CompareProportions (vr_Sent control) (eg_Conversions cg) (vr_Sent v) (eg_Conversions vg) in
      ltb (vs_PValue stats) significance && ltb zero (vs_ZScore stats)
  end.
Definition hasRegression (control v : ExperimentVariantReport) : bool := existsb (regressed control v) (vr_Guardrails v).

(** One turn of the loop over the variants. *)
Definition consider (control : ExperimentVariantReport) (best : option ExperimentVariantReport) (v : ExperimentVariantReport)
    : option ExperimentVariantReport :=
  if vr_IsControl v then best
  else if leb significance (vr_PValue v) || leb (vr_Uplift v) zero then best
  else if hasRegression control v then best
  else match best with
  | None => Some v
  | Some b => if ltb (vr_Rate b) (vr_Rate v) then Some v else best
  end.

Definition recommendWinner (variants : list ExperimentVariantReport) : option string :=
  match find_first vr_IsControl variants with
  | None => None
  | Some control =>
      if vr_Sent control =? 0 then None
      else vr_Label <$> fold_left (consider control) variants None
  end.

(** ** Comparing floats *)

Lemma ltb_asym a b : ltb a b = true -> ltb b a = false.
Proof. unfold ltb, SFltb. rewrite (ScoringSpec.SFcompare_antisym a b). by destruct (SFcompare a b) as [[]|]. Qed.

Lemma ltb_neg_trans a b c : is_nan b = false -> ltb a b = false -> ltb b c = false -> ltb a c = false.
Proof.
  unfold ltb, SFltb. intros Hb.
  destruct a as [[]|[]| |[] m e], b as [[]|[]| |[] m1 e1], c as [[]|[]| |[] m2 e2]; simpl in *; try discriminate; try done;
    destruct (Z.compare_spec e e1), (Z.compare_spec e1 e2), (Z.compare_spec e e2); subst; try done; try lia; simpl;
    change (Pos.compare_cont Eq) with Pos.compare;
    destruct (Pos.compare_spec m m1), (Pos.compare_spec m1 m2), (Pos.compare_spec m m2); subst; try done; simpl; try lia.
Qed.

(** ** Counts are numbers

    An integer below 2^63 converts to a finite float, positive if it is. *)

Lemma shr_1_m r : 0 <= shr_m r -> shr_m (shr_1 r) = shr_m r / 2.
Proof.
  destruct r as [m r s]. simpl. destruct m as [|[p|p|]|p]; intros Hm; simpl; try done; try lia.
  - rewrite (Pos2Z.inj_xI p). apply Z.div_unique with 1; lia.
  - rewrite (Pos2Z.inj_xO p). apply Z.div_unique with 0; lia.
Qed.
Lemma iter_shr_m n r : 0 <= shr_m r -> shr_m (iter_pos shr_1 n r) = shr_m r / 2 ^ Zpos n.
Proof.
  revert r. induction n as [n IH|n IH|]; intros r Hr; simpl iter_pos.
  - assert (H1 : 0 <= shr_m (shr_1 r)) by by apply Float.shr_1_nonneg.
    assert (H2 : 0 <= shr_m (iter_pos shr_1 n (shr_1 r))) by by apply Float.iter_shr_nonneg.
    rewrite IH, IH, shr_1_m by done. rewrite !Z.div_div by (try apply Z.pow_nonzero; try apply Z.pow_pos_nonneg; lia).
    f_equal. replace (Zpos n~1) with (1 + (Zpos n + Zpos n)) by lia. rewrite !Z.pow_add_r by lia. lia.
  - assert (H1 : 0 <= shr_m (iter_pos shr_1 n r)) by by apply Float.iter_shr_nonneg.
    rewrite IH, IH by done. rewrite !Z.div_div by (try apply Z.pow_nonzero; try apply Z.pow_pos_nonneg; lia).
    f_equal. replace (Zpos n~0) with (Zpos n + Zpos n) by lia. by rewrite Z.pow_add_r by lia.
  - by apply shr_1_m.
Qed.

Lemma digits_spec p : 2 ^ (Zpos (digits2_pos p) - 1) <= Zpos p < 2 ^ Zpos (digits2_pos p).
Proof.
  induction p as [p IH|p IH|]; cbn [digits2_pos].
  - rewrite Pos2Z.inj_succ, Z.pow_succ_r by lia. replace (Z.succ (Zpos (digits2_pos p)) - 1) with (Z.succ (Zpos (digits2_pos p) - 1)) by lia.
    rewrite Z.pow_succ_r by lia. lia.
  - rewrite Pos2Z.inj_succ, Z.pow_succ_r by lia. replace (Z.succ (Zpos (digits2_pos p)) - 1) with (Z.succ (Zpos (digits2_pos p) - 1)) by lia.
    rewrite Z.pow_succ_r by lia. lia.
  - lia.
Qed.
Lemma digits_le p k : 0 <= k -> Zpos p < 2 ^ k -> Zpos (digits2_pos p) <= k.
Proof.
  intros Hk Hp. pose proof (digits_spec p) as [H1 _]. destruct (Z.le_gt_cases (Zpos (digits2_pos p)) k); [done|].
  assert (2 ^ k <= 2 ^ (Zpos (digits2_pos p) - 1)); [|lia]. apply Z.pow_le_mono_r; lia.
Qed.

(** Shifting to 53 bits keeps a positive mantissa positive and no larger, and
    moves the exponent by the bits dropped. *)
Lemma shr_fexp_pos p e l k : -1000 <= e -> 0 <= k -> Zpos p < 2 ^ k -> -100 <= k ->
  let '(r, e') := shr_fexp prec emax (Zpos p) e l in 0 < shr_m r <= Zpos p /\ e <= e' <= e + k.
Proof.
  intros He Hk Hp _. unfold shr_fexp, shr. pose proof (digits_spec p) as [Hlo Hhi]. pose proof (digits_le p k Hk Hp) as Hd.
  assert (Hm : shr_m (shr_record_of_loc (Zpos p) l) = Zpos p) by by destruct l as [|[]]. cbn [Zdigits2].
  set (n := fexp prec emax (Zpos (digits2_pos p) + e) - e).
  assert (Hn : n <= Z.max 0 (Zpos (digits2_pos p) - 53)).
  { unfold n, fexp, emin, prec, emax. lia. }
  destruct n as [|q|q] eqn:En; rewrite ?iter_shr_m, ?Hm by (rewrite Hm; lia); try lia.
  assert (Hq : Zpos q <= Zpos (digits2_pos p) - 1) by lia. assert (0 < 2 ^ Zpos q) by (apply Z.pow_pos_nonneg; lia).
  split; [|lia]. split.
  - apply Z.div_str_pos. split; [done|]. etransitivity; [|exact Hlo]. apply Z.pow_le_mono_r; lia.
  - apply Z.div_le_upper_bound; nia.
Qed.

Definition positive (f : float64) : Prop := exists m e, f = S754_finite false m e.

Lemma round_finite p e : -1000 <= e <= 0 -> Zpos p < 2 ^ 64 -> positive (binary_round_aux prec emax false (Zpos p) e loc_Exact).
Proof.
  intros He Hp. unfold binary_round_aux. pose proof (shr_fexp_pos p e loc_Exact 64 ltac:(lia) ltac:(lia) Hp ltac:(lia)) as H1.
  destruct (shr_fexp prec emax (Zpos p) e loc_Exact) as [r e1]. destruct H1 as [H1 He1].
  set (m2 := round_nearest_even (shr_m r) (loc_of_shr_record r)).
  assert (H2 : 0 < m2 < 2 ^ 65).
  { assert (shr_m r <= m2 <= shr_m r + 1); [|lia]. unfold m2, round_nearest_even. repeat case_match; lia. }
  destruct m2 as [|p2|p2]; try lia.
  pose proof (shr_fexp_pos p2 e1 loc_Exact 65 ltac:(lia) ltac:(lia) ltac:(lia) ltac:(lia)) as H3.
  destruct (shr_fexp prec emax (Zpos p2) e1 loc_Exact) as [r2 e2]. destruct H3 as [H3 He2].
  destruct (shr_m r2) as [|p3|p3]; try lia.
  destruct (e2 <=? emax - prec) eqn:E; [by do 2 eexists|]. apply Z.leb_gt in E. unfold emax, prec in E. lia.
Qed.

Lemma iter_xO m d : Zpos (Pos.iter xO m d) = Zpos m * 2 ^ Zpos d.
Proof.
  induction d as [|d IH] using Pos.peano_ind; [simpl; lia|]. rewrite Pos.iter_succ, Pos2Z.inj_xO, IH, Pos2Z.inj_succ, Z.pow_succ_r by lia. lia.
Qed.
Lemma of_Z_positive z : 0 < z < two63 -> positive (of_Z z).
Proof.
  unfold two63. intros Hz. destruct z as [|p|p]; try lia. unfold of_Z, binary_normalize, binary_round.
  pose proof (digits_spec p) as [_ Hhi]. pose proof (digits_le p 63 ltac:(lia) ltac:(lia)) as Hd.
  unfold shl_align. set (ex := fexp prec emax (Zpos (digits2_pos p) + 0)).
  assert (Hex : ex = Zpos (digits2_pos p) - 53) by (unfold ex, fexp, emin, prec, emax; lia).
  destruct (ex - 0) as [|q|q] eqn:Eq; try (apply round_finite; lia).
  apply round_finite; [lia|]. rewrite iter_xO.
  apply Z.lt_le_trans with (2 ^ Zpos (digits2_pos p) * 2 ^ Zpos q).
  - apply Z.mul_lt_mono_pos_r; [apply Z.pow_pos_nonneg; lia | done].
  - rewrite <- Z.pow_add_r by lia. apply Z.pow_le_mono_r; lia.
Qed.

Lemma rate_number conv sent : 0 <= conv < two63 -> 0 < sent < two63 -> is_nan (div (of_Z conv) (of_Z sent)) = false.
Proof.
  intros Hc Hs. destruct (of_Z_positive sent Hs) as (m & e & ->).
  destruct (Z.eq_dec conv 0) as [->|Hn]; [done|]. destruct (of_Z_positive conv ltac:(lia)) as (m' & e' & ->).
  unfold div. cbn [SFdiv]. destruct (SFdiv_core_binary _ _ _ _ _ _) as [[mz ez] lz] eqn:E.
  apply Float.binary_round_aux_not_nan. unfold SFdiv_core_binary in E. destruct (Z.div_eucl _ _) as [q r] eqn:Ed. injection E as <- _ _.
  match type of Ed with Z.div_eucl ?a ?b = _ => assert (Hq : q = a / b) by (unfold Z.div; by rewrite Ed); assert (Ha : 0 <= a) end.
  { repeat case_match; try lia. rewrite ?Z.shiftl_mul_pow2 by lia. lia. }
  rewrite Hq. apply Z.div_pos; [done | lia].
Qed.

(** ** The winner *)

(** What the loop asks of a candidate. *)
Definition eligible (control v : ExperimentVariantReport) : bool :=
  negb (vr_IsControl v) && negb (leb significance (vr_PValue v)) && negb (leb (vr_Uplift v) zero) && negb (hasRegression control v).

Lemma consider_eq control best v : consider control best v =
  if eligible control v then match best with None => Some v | Some b => if ltb (vr_Rate b) (vr_Rate v) then Some v else best end else best.
Proof. unfold consider, eligible. destruct (vr_IsControl v), (leb significance _), (leb _ zero), (hasRegression control v); reflexivity. Qed.

(** The first of the candidates with the highest rate. *)
Definition best_of (control : ExperimentVariantReport) (vs : list ExperimentVariantReport) (v : ExperimentVariantReport) : Prop :=
  exists l1 l2, vs = l1 ++ v :: l2 /\ eligible control v = true /\
    (forall u, u ∈ l1 -> eligible control u = true -> ltb (vr_Rate u) (vr_Rate v) = true) /\
    (forall u, u ∈ l2 -> eligible control u = true -> ltb (vr_Rate v) (vr_Rate u) = false).
Definition rates_ok (vs : list ExperimentVariantReport) : Prop := forall v, v ∈ vs -> is_nan (vr_Rate v) = false.

Lemma ltb_le_trans a b c : is_nan c = false -> ltb a b = true -> ltb c b = false -> ltb a c = true.
Proof.
  intros Hc H1 H2. destruct (ltb a c) eqn:E; [done|]. by rewrite (ltb_neg_trans a c b Hc E H2) in H1.
Qed.

Lemma winner_spec control vs : rates_ok vs ->
  match fold_left (consider control) vs None with
  | Some v => best_of control vs v
  | None => forall u, u ∈ vs -> eligible control u = false
  end.
Proof.
  induction vs as [|x vs IH] using rev_ind; intros Hr; [by intros u Hu%elem_of_nil|].
  assert (Hr' : rates_ok vs) by (intros u Hu; apply Hr, elem_of_app; by left).
  assert (Hx : is_nan (vr_Rate x) = false) by (apply Hr, elem_of_app; right; apply list_elem_of_here).
  specialize (IH Hr'). rewrite fold_left_app. simpl. rewrite consider_eq.
  destruct (eligible control x) eqn:Ex; destruct (fold_left _ vs None) as [b|].
  - destruct IH as (l1 & l2 & -> & Hb & H1 & H2). destruct (ltb (vr_Rate b) (vr_Rate x)) eqn:Eb.
    + exists (l1 ++ b :: l2), []. repeat split; [done| |by intros u Hu%elem_of_nil].
      intros u [Hu|[->|Hu]%elem_of_cons]%elem_of_app Hu'; [|done|].
      * apply (ltb_le_trans _ (vr_Rate b)); [done|by apply H1|by apply ltb_asym].
      * specialize (H2 u Hu Hu'). destruct (ltb (vr_Rate u) (vr_Rate x)) eqn:E; [done|].
        rewrite (ltb_neg_trans _ (vr_Rate u) _ ltac:(apply Hr', elem_of_app; right; by apply list_elem_of_further) H2 E) in Eb. done.
    + exists l1, (l2 ++ [x]). split; [by rewrite <- app_assoc|]. repeat split; [done|done|].
      intros u [Hu| ->%list_elem_of_singleton]%elem_of_app Hu'; [by apply H2|done].
  - exists vs, []. repeat split; [done| |by intros u Hu%elem_of_nil]. intros u Hu. by rewrite (IH u Hu).
  - destruct IH as (l1 & l2 & -> & Hb & H1 & H2). exists l1, (l2 ++ [x]). split; [by rewrite <- app_assoc|]. repeat split; [done|done|].
    intros u [Hu| ->%list_elem_of_singleton]%elem_of_app Hu'; [by apply H2|congruence].
  - intros u [Hu| ->%list_elem_of_singleton]%elem_of_app; [by apply IH|done].
Qed.

Lemma best_of_unique control vs v w : best_of control vs v -> best_of control vs w -> v = w.
Proof.
  intros (l1 & l2 & -> & Hv & H1 & H2) (k1 & k2 & E & Hw & H3 & H4).
  apply app_eq_inv in E as [(k & -> & E)|(k & -> & E)]; destruct k as [|x k]; simplify_list_eq; try done.
  - assert (ltb (vr_Rate x) (vr_Rate v) = true) by (apply H1; set_solver). by rewrite H4 in * by set_solver.
  - assert (ltb (vr_Rate x) (vr_Rate w) = true) by (apply H3; set_solver). by rewrite H2 in * by set_solver.
Qed.

(** The recommendation is the first of the eligible with the highest rate. *)
Lemma recommendWinner_iff vs l : rates_ok vs ->
  recommendWinner vs = Some l <->
  exists control v, find_first vr_IsControl vs = Some control /\ vr_Sent control <> 0 /\ best_of control vs v /\ vr_Label v = l.
Proof.
  intros Hr. unfold recommendWinner. destruct (find_first vr_IsControl vs) as [control|]; [|naive_solver].
  destruct (vr_Sent control =? 0) eqn:Es; [apply Z.eqb_eq in Es; naive_solver|apply Z.eqb_neq in Es].
  pose proof (winner_spec control vs Hr) as Hw. destruct (fold_left _ vs None) as [v|]; simpl; split.
  - intros [= <-]. by exists control, v.
  - intros (c & w & [= <-] & _ & Hb & <-). f_equal. f_equal. by apply (best_of_unique control vs).
  - done.
  - intros (c & w & [= <-] & _ & (l1 & l2 & -> & He & _) & _). rewrite (Hw w) in He; [done|set_solver].
Qed.
End erfc.

(** ** More conversions than sends

    Two purchases after one message make a rate of 2, and a confidence
    interval that is not a number, whatever [erfc]. *)
Theorem second_conversion_is_nan erfc :
  is_nan (vs_CILow (CompareProportions erfc 100 10 1 2)) = true /\ is_nan (vs_CIHigh (CompareProportions erfc 100 10 1 2)) = true.
Proof. vm_compute. split; reflexivity. Qed.
End Statistics.
