(* ===== verification/Facts.v ===== *)
(** * Analytics facts (src/internal/postgres/fact_projection.go)

    The attribution of an engagement event and of a conversion to the send
    they follow.  A send is a delivered row of [delivery_attempts] or of
    [journey_message_intents]; [uuid_ok] and [before] are PostgreSQL's reading
    of a uuid and its subtraction of an interval from a timestamp. *)

From Stdlib Require Import Ascii.
From S2P Require Import Prelude.
From S2P Require Import GoStd.
From S2P Require Import GoMap.
From S2P Require Import GoFloat.
From S2P Require Import Domain.

Module Facts.

(** ** jsonb *)

(** The value of a number literal, as a fraction of a power of ten. *)
Definition numeric (s : string) : option (Z * Z) :=
  let '(neg, r) := Float.signed s in
  let '(m, n, r) := Float.take_digits r 0 0 in
  let '(m, frac, r) := match r with
                       | String "."%char r' => let '(m', n', r'') := Float.take_digits r' m 0 in (m', n', r'')
                       | _ => (m, 0, r)
                       end in
  let e := match r with
           | String _ (String "-"%char r') => option_map Z.opp (GoStr.digits r')
           | String _ (String "+"%char r') => GoStr.digits r'
           | String _ r' => GoStr.digits r'
           | EmptyString => Some 0
           end in
  match e with Some e => Some (if neg : bool then - m else m, e - frac) | None => None end.
Definition same_number (a b : string) : bool :=
  match numeric a, numeric b with
  | Some (m, e), Some (n, f) => let k := Z.min e f in m * 10 ^ (e - k) =? n * 10 ^ (f - k)
  | _, _ => false
  end.

(** Containment of jsonb values, below the top level. *)
Fixpoint contains (a b : json) {struct b} : bool :=
  match b with
  | JNull => match a with JNull => true | _ => false end
  | JBool y => match a with JBool x => Bool.eqb x y | _ => false end
  | JNumber y => match a with JNumber x => same_number x y | _ => false end
  | JString y => match a with JString x => x =s y | _ => false end
  | JArray r => match a with JArray l => forallb (fun y => existsb (fun x => contains x y) l) r | _ => false end
  | JObject r =>
      match a with
      | JObject l =>
          (fix go (r : list (string * json)) : bool :=
             match r with
             | [] => true
             | (k, y) :: r' => match Json.lookup k l with Some x => contains x y | None => false end && go r'
             end) r
      | _ => false
      end
  end.
(** [a @> b]: an array also contains a scalar element. *)
Definition jsonb_contains (a b : json) : bool :=
  let b := Json.marshal b in
  match a, b with
  | JArray l, JArray _ => contains a b
  | JArray l, JObject _ => false
  | JArray l, _ => existsb (fun x => contains x b) l
  | _, _ => contains a b
  end.

(** [value->'k'], NULL when absent, and [value->>'k']. *)
Definition member (k : string) (j : json) : option json := match j with JObject l => Json.lookup k l | _ => None end.
Definition text_is (o : option json) (s : string) : bool :=
  match o with
  | Some (JString x) => x =s s
  | Some (JNumber x) => x =s s
  | Some (JBool true) => s =s "true"
  | Some (JBool false) => s =s "false"
  | _ => false
  end.

(** ** Rows *)

(** A row of [delivery_attempts]. *)
Record Attempt : Type := MkAttempt {
  at_CampaignID : string;
  at_TenantID : string;
  at_ProfileID : string;
  at_Channel : string;
  at_Endpoint : string;
  at_Decision : string;
  at_ProviderMessageID : option string;
  at_ExperimentID : option string;
  at_Variant : option string;
  at_CostMicros : Z;
  at_AttemptedAt : Z
}.
(** The columns of [campaigns] the queries read; a NULL goal is empty. *)
Record Campaign : Type := MkCampaign {
  ca_ID : string;
  ca_TenantID : string;
  ca_WorkspaceID : string;
  ca_ConversionGoal : RawMessage;
  ca_AttributionWindow : option string
}.
Record EngagementFact : Type := MkEngagementFact {
  ef_TenantID : string;
  ef_WorkspaceID : string;
  ef_SourceType : string;
  ef_SourceID : string;
  ef_NodeID : option string;
  ef_ExperimentID : option string;
  ef_Variant : option string;
  ef_ProfileID : string;
  ef_Channel : string;
  ef_EventType : string;
  ef_OccurredAt : Z;
  ef_SourceEventID : string;
  ef_CostMicros : Z
}.
Record ConversionFact : Type := MkConversionFact {
  cf_TenantID : string;
  cf_WorkspaceID : string;
  cf_SourceType : string;
  cf_SourceID : string;
  cf_ExperimentID : option string;
  cf_Variant : option string;
  cf_ProfileID : string;
  cf_GoalName : string;
  cf_Value : Float.float64;
  cf_OccurredAt : Z;
  cf_AttributedSendAt : Z;
  cf_SourceEventID : string;
  cf_CostMicros : Z
}.

(** A row of either UNION: [sd_Goal] for the conversion query. *)
Record send : Type := MkSend {
  sd_SourceType : string;
  sd_SourceID : string;
  sd_NodeID : option string;
  sd_ExperimentID : option string;
  sd_Variant : option string;
  sd_ProfileID : string;
  sd_Channel : string;
  sd_SentAt : Z;
  sd_CostMicros : Z;
  sd_Goal : json
}.

Record FDB : Type := MkFDB {
  fd_attempts : list Attempt;
  fd_campaigns : gmap string Campaign;
  fd_intents : list JourneyMessageIntent;
  fd_versions : gmap string JourneyVersion;
  fd_engagement : list EngagementFact;
  fd_conversions : list ConversionFact
}.
Definition set_engagement v d := MkFDB (fd_attempts d) (fd_campaigns d) (fd_intents d) (fd_versions d) v (fd_conversions d).
Definition set_conversions v d := MkFDB (fd_attempts d) (fd_campaigns d) (fd_intents d) (fd_versions d) (fd_engagement d) v.

(** ORDER BY sent_at DESC LIMIT 1. *)
Definition later (a b : send) : bool := sd_SentAt b <? sd_SentAt a.
Definition latest (l : list send) : option send := head (GoMap.sort_by later l).

(** NULLIF($x,'') IS NULL OR column = $x. *)
Definition unless_empty (x : string) (b : bool) : bool := (x =s "") || b.
Definition is_some_text (o : option string) (x : string) : bool := match o with Some y => y =s x | None => false end.

(** ** Engagement *)

Record engagementPayload : Type := MkEngagementPayload {
  ep_CampaignID : string;
  ep_JourneyID : string;
  ep_NodeID : string;
  ep_Channel : string;
  ep_Endpoint : string;
  ep_ProviderMessageID : string
}.
Definition engagement_fields : list (string * Json.setter engagementPayload) :=
  [("campaign_id", Json.set_string (fun v e => MkEngagementPayload v (ep_JourneyID e) (ep_NodeID e) (ep_Channel e) (ep_Endpoint e) (ep_ProviderMessageID e)));
   ("journey_id", Json.set_string (fun v e => MkEngagementPayload (ep_CampaignID e) v (ep_NodeID e) (ep_Channel e) (ep_Endpoint e) (ep_ProviderMessageID e)));
   ("node_id", Json.set_string (fun v e => MkEngagementPayload (ep_CampaignID e) (ep_JourneyID e) v (ep_Channel e) (ep_Endpoint e) (ep_ProviderMessageID e)));
   ("channel", Json.set_string (fun v e => MkEngagementPayload (ep_CampaignID e) (ep_JourneyID e) (ep_NodeID e) v (ep_Endpoint e) (ep_ProviderMessageID e)));
   ("endpoint", Json.set_string (fun v e => MkEngagementPayload (ep_CampaignID e) (ep_JourneyID e) (ep_NodeID e) (ep_Channel e) v (ep_ProviderMessageID e)));
   ("provider_message_id", Json.set_string (fun v e => MkEngagementPayload (ep_CampaignID e) (ep_JourneyID e) (ep_NodeID e) (ep_Channel e) (ep_Endpoint e) v))].

Definition engagement_type (eventType : string) : option string :=
  snd <$> find_first (fun kv => kv.1 =s eventType)
    [("message.delivered", "delivered"); ("email.opened", "opened"); ("link.clicked", "clicked");
     ("message.bounced", "bounced"); ("message.complained", "complained")].

Definition delivered (decision : string) : bool := mem decision ["sent"; "provider_sent"].

Definition attempt_send (goal : json) (a : Attempt) : send :=
  MkSend "campaign" (at_CampaignID a) None (at_ExperimentID a) (at_Variant a) (at_ProfileID a) (at_Channel a) (at_AttemptedAt a)
    (at_CostMicros a) goal.
Definition intent_send (goal : json) (i : JourneyMessageIntent) : send :=
  MkSend "journey" (mi_JourneyID i) (Some (mi_NodeID i)) (mi_ExperimentID i) (Some (mi_Variant i)) (mi_ProfileID i) (mi_Channel i)
    (mi_UpdatedAt i) (mi_CostMicros i) goal.

Definition campaign_engagement (p : Principal) (profileID : string) (q : engagementPayload) (d : FDB) (a : Attempt) : option send :=
  match fd_campaigns d !! at_CampaignID a with
  | Some c =>
      if (at_TenantID a =s p_TenantID p) && (ca_TenantID c =s p_TenantID p) && (ca_WorkspaceID c =s p_WorkspaceID p) &&
         delivered (at_Decision a) && unless_empty profileID (at_ProfileID a =s profileID) &&
         unless_empty (ep_Endpoint q) (at_Endpoint a =s ep_Endpoint q) &&
         unless_empty (ep_CampaignID q) (at_CampaignID a =s ep_CampaignID q) && (ep_JourneyID q =s "") &&
         unless_empty (ep_ProviderMessageID q) (is_some_text (at_ProviderMessageID a) (ep_ProviderMessageID q))
      then Some (attempt_send JNull a) else None
  | None => None
  end.
Definition journey_engagement (p : Principal) (profileID : string) (q : engagementPayload) (i : JourneyMessageIntent) : option send :=
  if (mi_TenantID i =s p_TenantID p) && (mi_WorkspaceID i =s p_WorkspaceID p) &&
     match mi_Decision i with Some s => delivered s | None => false end &&
     unless_empty profileID (mi_ProfileID i =s profileID) && unless_empty (ep_Endpoint q) (mi_Endpoint i =s ep_Endpoint q) &&
     (ep_CampaignID q =s "") && unless_empty (ep_JourneyID q) (mi_JourneyID i =s ep_JourneyID q) &&
     unless_empty (ep_NodeID q) (mi_NodeID i =s ep_NodeID q) &&
     unless_empty (ep_ProviderMessageID q) (is_some_text (mi_ProviderMessageID i) (ep_ProviderMessageID q))
  then Some (intent_send JNull i) else None.
Definition engagement_sends (p : Principal) (profileID : string) (q : engagementPayload) (d : FDB) : list send :=
  omap (campaign_engagement p profileID q d) (fd_attempts d) ++ omap (journey_engagement p profileID q) (fd_intents d).

Definition insert_engagement (f : EngagementFact) (d : FDB) : FDB :=
  if existsb (fun g => (ef_SourceEventID g =s ef_SourceEventID f) && (ef_EventType g =s ef_EventType f)) (fd_engagement d) then d
  else set_engagement (fd_engagement d ++ [f]) d.

Definition invalid_uuid : error := errors_New "invalid input syntax for type uuid".

Section facts.
Context (uuid_ok : string -> bool) (before : Z -> string -> Z).

(** NULLIF($x,'')::uuid. *)
Definition castable (x : string) : bool := (x =s "") || uuid_ok x.

Definition projectEngagementFact (event : AcceptedEvent) (profileID : string) : M FDB unit := fun d =>
  match engagement_type (ae_Type event) with
  | None => (Ok tt, d)
  | Some eventType =>
      match Json.Unmarshal engagement_fields (MkEngagementPayload "" "" "" "" "" "") (ae_Payload event) with
      | Err e => (Err e, d)
      | Ok q =>
          if negb (castable profileID && castable (ep_CampaignID q) && castable (ep_JourneyID q)) then (Err invalid_uuid, d) else
          match latest (engagement_sends (ae_Principal event) profileID q d) with
          | None => (Ok tt, d)
          | Some s =>
              if negb (ep_Channel q =s "") && negb (Json.fold_name (ep_Channel q) =s Json.fold_name (sd_Channel s)) then (Ok tt, d)
              else (Ok tt, insert_engagement
                      (MkEngagementFact (p_TenantID (ae_Principal event)) (p_WorkspaceID (ae_Principal event)) (sd_SourceType s)
                         (sd_SourceID s) (sd_NodeID s) (sd_ExperimentID s) (sd_Variant s) (sd_ProfileID s) (sd_Channel s) eventType
                         (ae_OccurredAt event) (ae_ID event) (sd_CostMicros s)) d)
          end
      end
  end.

(** ** Conversions *)

(** What both branches test of a goal: it names the event, the send falls in
    its window, and its filter is contained in the payload. *)
Definition attributed (event : AcceptedEvent) (goal : RawMessage) (window : option string) (sentAt : Z) : option json :=
  match goal, window, ae_Payload event with
  | Raw g, Some w, Raw payload =>
      if text_is (member "event_type" g) (ae_Type event) &&
         (before (ae_OccurredAt event) w <=? sentAt) && (sentAt <=? ae_OccurredAt event) &&
         jsonb_contains payload (default (JObject []) (member "filter" g))
      then Some g else None
  | _, _, _ => None
  end.
Definition campaign_conversion (event : AcceptedEvent) (profileID : string) (d : FDB) (a : Attempt) : option send :=
  let p := ae_Principal event in
  match fd_campaigns d !! at_CampaignID a with
  | Some c =>
      if (at_TenantID a =s p_TenantID p) && (ca_TenantID c =s p_TenantID p) && (ca_WorkspaceID c =s p_WorkspaceID p) &&
         (at_ProfileID a =s profileID) && (at_Decision a =s "sent")
      then (fun g => attempt_send g a) <$> attributed event (ca_ConversionGoal c) (ca_AttributionWindow c) (at_AttemptedAt a)
      else None
  | None => None
  end.
Definition journey_conversion (event : AcceptedEvent) (profileID : string) (d : FDB) (i : JourneyMessageIntent) : option send :=
  let p := ae_Principal event in
  match fd_versions d !! mi_JourneyVersionID i with
  | Some v =>
      if (mi_TenantID i =s p_TenantID p) && (mi_WorkspaceID i =s p_WorkspaceID p) && (jv_TenantID v =s p_TenantID p) &&
         (jv_WorkspaceID v =s p_WorkspaceID p) && (mi_ProfileID i =s profileID) && is_some_text (mi_Decision i) "sent"
      then (fun g => intent_send g i) <$> attributed event (jv_ConversionGoal v) (jv_AttributionWindow v) (mi_UpdatedAt i)
      else None
  | None => None
  end.
Definition conversion_sends (event : AcceptedEvent) (profileID : string) (d : FDB) : list send :=
  omap (campaign_conversion event profileID d) (fd_attempts d) ++ omap (journey_conversion event profileID d) (fd_intents d).

(** [strings.Split(field, ".")]. *)
Fixpoint split_dots (s : string) (cur : string) : list string :=
  match s with
  | EmptyString => [cur]
  | String c s' => if bool_decide (c = "."%char) then cur :: split_dots s' "" else split_dots s' (cur +:+ String c "")
  end.
Definition number_of (j : json) : Float.float64 :=
  match j with JNumber s => Float.parsed s | JString s => Float.parsed s | _ => Float.zero end.
Fixpoint value_at (parts : list string) (j : json) : Float.float64 :=
  match parts with
  | [] => number_of j
  | part :: parts' => match member part j with Some v => value_at parts' v | None => Float.zero end
  end.
Definition conversionValue (payload : RawMessage) (field : string) : Float.float64 :=
  if field =s "" then Float.zero else
  match payload with Raw j => value_at (split_dots field "") j | _ => Float.zero end.

Definition goal_fields : list (string * Json.setter (string * string)) :=
  [("name", Json.set_string (fun s x => (s, x.2))); ("value_field", Json.set_string (fun s x => (x.1, s)))].

Definition insert_conversion (f : ConversionFact) (d : FDB) : FDB :=
  if existsb (fun g => (cf_SourceEventID g =s cf_SourceEventID f) && (cf_GoalName g =s cf_GoalName f)) (fd_conversions d) then d
  else set_conversions (fd_conversions d ++ [f]) d.

(** What it reports to telemetry is left out. *)
Definition projectConversionFact (event : AcceptedEvent) (profileID : string) : M FDB unit := fun d =>
  match latest (conversion_sends event profileID d) with
  | None => (Ok tt, d)
  | Some s =>
      match Json.Unmarshal goal_fields ("", "") (Raw (sd_Goal s)) with
      | Err e => (Err e, d)
      | Ok (name, field) =>
          let name := if name =s "" then ae_Type event else name in
          (Ok tt, insert_conversion
             (MkConversionFact (p_TenantID (ae_Principal event)) (p_WorkspaceID (ae_Principal event)) (sd_SourceType s) (sd_SourceID s)
                (sd_ExperimentID s) (sd_Variant s) profileID name (conversionValue (ae_Payload event) field) (ae_OccurredAt event)
                (sd_SentAt s) (ae_ID event) (sd_CostMicros s)) d)
      end
  end.

End facts.

Example containment :
  jsonb_contains (JObject [("plan", JString "pro"); ("n", JNumber "1.0")]) (JObject [("n", JNumber "1")]) = true /\
  jsonb_contains (JObject [("l", JArray [JNumber "1"; JNumber "2"])]) (JObject [("l", JArray [JNumber "2"])]) = true /\
  jsonb_contains (JObject [("n", JNumber "1")]) (JObject [("n", JString "1")]) = false /\
  conversionValue (Raw (JObject [("cart", JObject [("total", JString "12.5")])])) "cart.total" =
    Float.mul (Float.of_Z 25) (Float.div (Float.of_Z 1) (Float.of_Z 2)).
Proof. vm_compute. repeat split. Qed.

End Facts.
