(* ===== verification/Policy.v ===== *)
(** * Message policy (src/internal/policy/policy.go)

    Suppression, then consent, then the 24-hour and 7-day fatigue caps; the
    first check that objects, or fails, decides. *)

From S2P Require Import Prelude.
From S2P Require Import GoStd.
From S2P Require Import Domain.
From S2P Require Import Store.

Module Policy.

Record Recipient : Type := MkRecipient {
  rc_ProfileID : string; rc_ExternalID : string; rc_Endpoint : string
}.
Record Caps : Type := MkCaps {
  cp_Channel : string; cp_Topic : string; cp_MaxSends24h : Z; cp_MaxSends7d : Z
}.
(** The snapshot lists the map's entries in the order they are set. *)
Record Verdict : Type := MkVerdict {
  vd_Decision : string; vd_Reason : text; vd_Snapshot : list (string * json)
}.

Definition jint (z : Z) : json := JNumber (GoStr.of_Z z).

Section Evaluate.
Context {W : Type} `{PolicyStore W}.

(** Section 3, one window of it: [Some v] is an early return; otherwise
    the extended snapshot. *)
Definition fatigue (p : Principal) (r : Recipient) (cap since : Z)
    (kcount kmax : string) (efmt rfmt : string) (snapshot : list (string * json))
    : W -> (Verdict + list (string * json)) * W := fun w =>
  if 0 <? cap then
    match SentCountSince p (rc_ProfileID r) since w with
    | (Err e, w') => (inl (MkVerdict "send_failed" (Errorf efmt [AErr e]) snapshot), w')
    | (Ok n, w') =>
        let snapshot := snapshot ++ [(kcount, jint n); (kmax, jint cap)] in
        if cap <=? n
        then (inl (MkVerdict "fatigued" (Errorf rfmt [AInt n; AInt cap]) snapshot), w')
        else (inr snapshot, w')
    end
  else (inr snapshot, w).

(** [now] is the [time.Now()] read on entry. *)
Definition Evaluate (now : Z) (p : Principal) (recipient : Recipient) (caps : Caps)
    : W -> Verdict * W := fun w =>
  match IsSuppressed p (cp_Channel caps) (rc_Endpoint recipient) w with
  | (Err e, w1) =>
      (MkVerdict "send_failed" (Errorf "failed to check suppression: %v" [AErr e]) [], w1)
  | (Ok suppressed, w1) =>
      let snapshot := [("suppressed", JBool suppressed)] in
      if suppressed : bool then (MkVerdict "suppressed" (lit "endpoint is suppressed") snapshot, w1) else
      let topic := if cp_Topic caps =s "" then "marketing" else cp_Topic caps in
      match LatestConsent p (rc_ProfileID recipient) (cp_Channel caps) topic w1 with
      | (Err e, w2) =>
          if is_ErrNotFound e
          then (MkVerdict "no_consent" (lit "no explicit consent found")
                  (snapshot ++ [("consent", JString "missing")]), w2)
          else (MkVerdict "send_failed" (Errorf "failed to check consent: %v" [AErr e]) snapshot, w2)
      | (Ok consent, w2) =>
          let snapshot := snapshot ++ [("consent", JString (cons_State consent))] in
          if negb (cons_State consent =s "subscribed")
          then (MkVerdict "no_consent" (Errorf "consent state is %s" [AStr (cons_State consent)]) snapshot, w2)
          else
            match fatigue p recipient (cp_MaxSends24h caps) (Time.Add now (-24 * Time.Hour))
                    "sends_24h" "max_sends_24h" "failed to check 24h fatigue count: %v"
                    "24h fatigue limit reached (%d/%d sends)" snapshot w2 with
            | (inl v, w3) => (v, w3)
            | (inr snapshot, w3) =>
                match fatigue p recipient (cp_MaxSends7d caps) (Time.Add now (-7 * 24 * Time.Hour))
                        "sends_7d" "max_sends_7d" "failed to check 7d fatigue count: %v"
                        "7d fatigue limit reached (%d/%d sends)" snapshot w3 with
                | (inl v, w4) => (v, w4)
                | (inr snapshot, w4) => (MkVerdict "sent" (lit "eligible") snapshot, w4)
                end
            end
      end
  end.
End Evaluate.

(** The policy's contract, stated over a store whose reads do not write. *)
Section Spec.
Context {W : Type} `{PolicyStore W}.
Context (Hsup : forall p c e, pureM (W := W) (IsSuppressed p c e)).
Context (Hcon : forall p i c t, pureM (W := W) (LatestConsent p i c t)).
Context (Hcnt : forall p i s, pureM (W := W) (SentCountSince p i s)).

Definition under_cap (p : Principal) (pid : string) (cap since : Z) (w : W) : Prop :=
  cap <= 0 \/ exists n, (SentCountSince p pid since w).1 = Ok n /\ n < cap.

Definition eligible (now : Z) (p : Principal) (r : Recipient) (caps : Caps) (w : W) : Prop :=
  (IsSuppressed p (cp_Channel caps) (rc_Endpoint r) w).1 = Ok false /\
  (exists c, (LatestConsent p (rc_ProfileID r) (cp_Channel caps)
                (if cp_Topic caps =s "" then "marketing" else cp_Topic caps) w).1 = Ok c /\
             cons_State c = "subscribed") /\
  under_cap p (rc_ProfileID r) (cp_MaxSends24h caps) (now - 24 * Time.Hour) w /\
  under_cap p (rc_ProfileID r) (cp_MaxSends7d caps) (now - 7 * 24 * Time.Hour) w.

Lemma fatigue_spec p r cap since k1 k2 f1 f2 sn w :
  match fatigue p r cap since k1 k2 f1 f2 sn w with
  | (inl v, w') => w' = w /\ vd_Decision v <> "sent" /\ ~ under_cap p (rc_ProfileID r) cap since w
  | (inr _, w') => w' = w /\ under_cap p (rc_ProfileID r) cap since w
  end.
Proof.
  unfold fatigue, under_cap. destruct (0 <? cap) eqn:E; [|split; [done | left; lia]].
  pose proof (Hcnt p (rc_ProfileID r) since w) as Hw.
  destruct (SentCountSince _ _ _ w) as [[n|e] w']; simpl in *; subst w'.
  - destruct (cap <=? n) eqn:E2; simpl; (split; [done|]).
    + split; [done|]. intros [Hc|(m & Hm & Hlt)]; [lia|]. injection Hm as <-. lia.
    + right. exists n. split; [done | lia].
  - split; [done|]. split; [done|]. intros [Hc|(m & Hm & _)]; [lia | discriminate].
Qed.

Lemma Evaluate_sent now p r caps w :
  vd_Decision (Evaluate now p r caps w).1 = "sent" <-> eligible now p r caps w.
Proof.
  unfold Evaluate, eligible.
  pose proof (Hsup p (cp_Channel caps) (rc_Endpoint r) w) as Hw.
  destruct (IsSuppressed _ _ _ w) as [[[]|e] w1]; simpl in *; subst w1.
  1,3: split; [discriminate | intros (E & _); discriminate E].
  set (topic := if cp_Topic caps =s "" then _ else _).
  pose proof (Hcon p (rc_ProfileID r) (cp_Channel caps) topic w) as Hw.
  destruct (LatestConsent _ _ _ topic w) as [[c|e] w2]; simpl in *; subst w2.
  2:{ split; [destruct (is_ErrNotFound e); discriminate | intros (_ & (c & E & _) & _); discriminate E]. }
  destruct (cons_State c =s "subscribed") eqn:Ec; simpl.
  2:{ apply seqb_false in Ec. split; [discriminate|]. intros (_ & (c' & E & ?) & _). by injection E as <-. }
  apply seqb_true in Ec.
  match goal with |- context [fatigue p r ?c ?s ?a ?b ?d ?f ?sn w] =>
    pose proof (fatigue_spec p r c s a b d f sn w) as H24;
    destruct (fatigue p r c s a b d f sn w) as [[v|sn'] w3] end.
  { destruct H24 as (-> & Hv & Hn). simpl. split; [done|]. by intros (_ & _ & Hu & _). }
  destruct H24 as (-> & Hu24).
  match goal with |- context [fatigue p r ?c ?s ?a ?b ?d ?f ?sn w] =>
    pose proof (fatigue_spec p r c s a b d f sn w) as H7;
    destruct (fatigue p r c s a b d f sn w) as [[v|sn''] w4] end.
  { destruct H7 as (-> & Hv & Hn). simpl. split; [done|]. by intros (_ & _ & _ & Hu). }
  destruct H7 as (-> & Hu7). simpl. split; [|done]. intros _. repeat split; eauto.
Qed.
(** Evaluating reads only. *)
Lemma Evaluate_pure now p r caps w : (Evaluate now p r caps w).2 = w.
Proof.
  unfold Evaluate. pose proof (Hsup p (cp_Channel caps) (rc_Endpoint r) w) as Hw.
  destruct (IsSuppressed _ _ _ w) as [[[]|e] w1]; simpl in *; subst w1; [done| |done].
  set (topic := if cp_Topic caps =s "" then _ else _).
  pose proof (Hcon p (rc_ProfileID r) (cp_Channel caps) topic w) as Hw.
  destruct (LatestConsent _ _ _ topic w) as [[c|e] w2]; simpl in *; subst w2; [|by destruct (is_ErrNotFound e)].
  destruct (negb _); [done|].
  match goal with |- context [fatigue p r ?c ?s ?a ?b ?d ?f ?sn w] =>
    pose proof (fatigue_spec p r c s a b d f sn w) as H24; destruct (fatigue p r c s a b d f sn w) as [[v|sn'] w3] end;
    destruct H24 as (-> & _); [done|].
  match goal with |- context [fatigue p r ?c ?s ?a ?b ?d ?f ?sn w] =>
    pose proof (fatigue_spec p r c s a b d f sn w) as H7; destruct (fatigue p r c s a b d f sn w) as [[v|sn''] w4] end;
    by destruct H7 as (-> & _).
Qed.

(** C9: The policy is fail-closed and exact: it answers "sent" if and only
    if the endpoint is known not to be suppressed, the latest consent for
    the channel and topic is "subscribed", and each positive cap is
    strictly above the count read for its window.  An error from any read
    never lets a message through. *)
Theorem Evaluate_sent_iff now p r caps w :
  vd_Decision (Evaluate now p r caps w).1 = "sent" <-> eligible now p r caps w.
Proof. apply Evaluate_sent. Qed.
End Spec.

(** A store with one subscribed profile, three sends in any window. *)
Definition demo_store : PolicyStore unit := {|
  IsSuppressed _ _ e := mret (e =s "bounced@x");
  LatestConsent _ pid ch tp := mret (MkConsent pid ch tp "subscribed" 0);
  SentCountSince _ _ _ := mret 3
|}.
Definition demo_p : Principal := MkPrincipal "t" "w" "a" "" "" "" [].

Lemma Evaluate_sent_iff_witness :
  vd_Decision (@Evaluate unit demo_store 0 demo_p (MkRecipient "p1" "e1" "ada@x") (MkCaps "email" "" 5 20) tt).1 = "sent".
Proof.
  apply (@Evaluate_sent_iff unit demo_store); [done..|].
  split; [reflexivity|]. split; [eexists; split; reflexivity|].
  split; right; exists 3; split; reflexivity.
Defined.
End Policy.
