(* ===== verification/Schedule.v ===== *)
(** * Entry schedules (src/internal/journey/enroll.go)

    The five-field schedule syntax the code accepts: only the minute field may
    be anything but a wildcard. *)

From S2P Require Import Prelude.
From S2P Require Import GoStd.

Module Schedule.

Definition err5 : error := errors_New "schedule must have exactly five fields".
Definition errwild : error :=
  errors_New "schedule only supports wildcard hour, day, month, and weekday fields".
Definition errint : error := errors_New "schedule minute interval must be between 1 and 59".
Definition errmin : error := errors_New "schedule minute must be *, */1-59, or 0-59".

Definition validateSchedule (schedule : string) : result (list string) :=
  if GoStr.all_space schedule then Ok ["*"; "*"; "*"; "*"; "*"] else
  let fields := GoStr.Fields schedule in
  match fields with
  | [minute; h; dom; mon; dow] =>
      if negb (forallb (fun f => f =s "*") [h; dom; mon; dow]) then Err errwild
      else if minute =s "*" then Ok fields
      else if GoStr.has_prefix minute "*/" then
        match GoStr.Atoi (GoStr.trim_prefix minute "*/") with
        | Some interval => if (interval <? 1) || (59 <? interval) then Err errint else Ok fields
        | None => Err errint
        end
      else
        match GoStr.Atoi minute with
        | Some exact => if (exact <? 0) || (59 <? exact) then Err errmin else Ok fields
        | None => Err errmin
        end
  | _ => Err err5
  end.

(** [fmt.Sscanf(minField, "*/%d", &interval)] on a field that
    [validateSchedule] accepted: the integer after the prefix. *)
Definition sscanf_interval (minField : string) : option Z :=
  GoStr.Atoi (GoStr.trim_prefix minField "*/").

(** [exact, _ := strconv.Atoi(minField)]: zero when it does not parse. *)
Definition atoi0 (s : string) : Z := match GoStr.Atoi s with Some z => z | None => 0 end.

Definition isScheduledDue (schedule : string) (now : Z) : bool :=
  match validateSchedule schedule with
  | Err _ => false
  | Ok fields =>
      match fields with
      | [] => false
      | minField :: _ =>
          if minField =s "*" then true
          else
            let exact := Time.MinuteOf now =? atoi0 minField in
            if GoStr.has_prefix minField "*/" then
              match sscanf_interval minField with
              | Some interval =>
                  if 0 <? interval then Z.rem (Time.MinuteOf now) interval =? 0 else exact
              | None => exact
              end
            else exact
      end
  end.

(** The meaning of an accepted minute field. *)
Inductive minute_spec : Type :=
  | every_minute
  | every_n (n : Z)
  | at_minute (m : Z).

Definition spec_ok (s : minute_spec) : Prop :=
  match s with
  | every_minute => True
  | every_n n => 1 <= n <= 59
  | at_minute m => 0 <= m <= 59
  end.
Definition spec_due (s : minute_spec) (minute : Z) : Prop :=
  match s with
  | every_minute => True
  | every_n n => (n | minute)
  | at_minute m => minute = m
  end.

(** What a schedule denotes, read off its fields. *)
Definition denotes (schedule : string) (s : minute_spec) : Prop :=
  (GoStr.all_space schedule = true /\ s = every_minute) \/
  (GoStr.all_space schedule = false /\ exists m,
     GoStr.Fields schedule = [m; "*"; "*"; "*"; "*"] /\
     ((m = "*" /\ s = every_minute) \/
      (m <> "*" /\ GoStr.has_prefix m "*/" = true /\
         exists n, GoStr.Atoi (GoStr.trim_prefix m "*/") = Some n /\ s = every_n n) \/
      (m <> "*" /\ GoStr.has_prefix m "*/" = false /\
         exists n, GoStr.Atoi m = Some n /\ s = at_minute n))).

Lemma validate_denotes schedule :
  is_Ok (validateSchedule schedule) = true <-> exists s, denotes schedule s /\ spec_ok s.
Proof.
  unfold validateSchedule, denotes. destruct (GoStr.all_space schedule) eqn:Es.
  { split; [|done]. intros _. exists every_minute. split; [by left | done]. }
  destruct (GoStr.Fields schedule) as [|m [|h [|d [|mo [|dw [|? ?]]]]]].
  1-5,7: split; [done | intros (sp & [[? _]|(_ & ? & ? & _)] & _); congruence].
  destruct (forallb (fun f => f =s "*") [h; d; mo; dw]) eqn:Ef; simpl in Ef |- *.
  2:{ split; [done|]. intros (sp & [[? _]|(_ & m' & E & _)] & _); [congruence|].
      injection E as <- -> -> -> ->. by rewrite !seqb_refl in Ef. }
  repeat (apply andb_prop in Ef as [?%seqb_true Ef]); subst.
  destruct (m =s "*") eqn:Em.
  { apply seqb_true in Em as ->. split; [|done]. intros _. exists every_minute.
    split; [right; split; [done|]; exists "*"; split; [done | by left] | done]. }
  apply seqb_false in Em. destruct (GoStr.has_prefix m "*/") eqn:Ep.
  - destruct (GoStr.Atoi (GoStr.trim_prefix m "*/")) as [n|] eqn:Ea.
    + split.
      * destruct (_ || _) eqn:Eo; [done|]. intros _. exists (every_n n). split; [|simpl; lia].
        right. split; [done|]. exists m. split; [done|]. right. left. eauto.
      * intros (sp & [[? _]|(_ & m' & E & Hm)] & Hs); [congruence|]. injection E as <-.
        destruct Hm as [[? _]|[(_ & _ & n' & E & ->)|(_ & ? & _)]]; [congruence| |congruence].
        rewrite Ea in E. injection E as <-. simpl in Hs. by destruct (_ || _) eqn:Eo; [lia|].
    + split; [done|]. intros (sp & [[? _]|(_ & m' & E & Hm)] & Hs); [congruence|]. injection E as <-.
      destruct Hm as [[? _]|[(_ & _ & n' & E & ->)|(_ & ? & _)]]; congruence.
  - destruct (GoStr.Atoi m) as [n|] eqn:Ea.
    + split.
      * destruct (_ || _) eqn:Eo; [done|]. intros _. exists (at_minute n). split; [|simpl; lia].
        right. split; [done|]. exists m. split; [done|]. right. right. eauto.
      * intros (sp & [[? _]|(_ & m' & E & Hm)] & Hs); [congruence|]. injection E as <-.
        destruct Hm as [[? _]|[(_ & ? & _)|(_ & _ & n' & E & ->)]]; [congruence..|].
        rewrite Ea in E. injection E as <-. simpl in Hs. by destruct (_ || _) eqn:Eo; [lia|].
    + split; [done|]. intros (sp & [[? _]|(_ & m' & E & Hm)] & Hs); [congruence|]. injection E as <-.
      destruct Hm as [[? _]|[(_ & ? & _)|(_ & _ & n' & E & ->)]]; congruence.
Qed.
Lemma denotes_fun schedule s1 s2 : denotes schedule s1 -> denotes schedule s2 -> s1 = s2.
Proof.
  intros [[E1 ->]|(E1 & m1 & F1 & H1)] [[E2 ->]|(E2 & m2 & F2 & H2)]; try congruence.
  rewrite F1 in F2. injection F2 as <-.
  destruct H1 as [[? ->]|[(? & ? & n1 & A1 & ->)|(? & ? & n1 & A1 & ->)]],
           H2 as [[? ->]|[(? & ? & n2 & A2 & ->)|(? & ? & n2 & A2 & ->)]]; congruence.
Qed.

(** What [isScheduledDue] computes on a schedule that denotes [s]. *)
Lemma isScheduledDue_denotes schedule s now :
  denotes schedule s -> spec_ok s ->
  isScheduledDue schedule now = true <-> spec_due s (Time.MinuteOf now).
Proof.
  intros Hd Hs. assert (Hok : is_Ok (validateSchedule schedule) = true).
  { apply validate_denotes. eauto. }
  unfold isScheduledDue. revert Hok. unfold validateSchedule, sscanf_interval, atoi0.
  destruct Hd as [[-> ->]|(-> & m & -> & Hm)]; [done|].
  cbn [forallb negb]. rewrite !seqb_refl. cbn [andb negb].
  destruct Hm as [[-> ->]|[(Hm & Hp & n & Ha & ->)|(Hm & Hp & n & Ha & ->)]].
  - by rewrite seqb_refl.
  - apply seqb_false in Hm. rewrite Hm, Hp, Ha. simpl in Hs.
    destruct (_ || _) eqn:Eo; [lia|]. intros _. rewrite Hm, Hp, Ha.
    destruct (0 <? n) eqn:En; [|lia]. simpl. rewrite Z.eqb_eq. apply Z.rem_divide. lia.
  - apply seqb_false in Hm. rewrite Hm, Hp, Ha. simpl in Hs.
    destruct (_ || _) eqn:Eo; [lia|]. intros _. rewrite Hm, Hp, Ha. simpl. by rewrite Z.eqb_eq.
Qed.

(** A schedule fires at an instant exactly when it denotes a legal
    minute specification (blank or [*]: every minute; [*/n], 1..59: minutes
    that [n] divides; [m], 0..59: that minute) and the instant's minute of
    the hour satisfies it; a rejected schedule never fires. *)
Theorem isScheduledDue_iff schedule now :
  isScheduledDue schedule now = true <->
  exists s, denotes schedule s /\ spec_ok s /\ spec_due s (Time.MinuteOf now).
Proof.
  split.
  - intros H. assert (Hok : is_Ok (validateSchedule schedule) = true).
    { unfold isScheduledDue in H. by destruct (validateSchedule schedule). }
    apply validate_denotes in Hok as (s & Hd & Hs). exists s.
    split; [done|]. split; [done|]. by eapply isScheduledDue_denotes.
  - intros (s & Hd & Hs & Hdue). by eapply isScheduledDue_denotes.
Qed.
End Schedule.
