(* ===== verification/QuietHours.v ===== *)
(** * Quiet hours (src/internal/journey/quiethours.go)

    [IsInQuietHours] reads the recipient's local hour and, inside the quiet
    window, the instant at which it ends.  A [time.Location] is its lookup
    function, as in package time: the UTC offset in force at an instant and
    the interval of instants for which it is. *)

From S2P Require Import Prelude.
From S2P Require Import GoStd.
From S2P Require Import Domain.

Module QuietHours.

(** Unix seconds to (offset, start, end). *)
Definition Location : Type := Z -> Z * Z * Z.
Definition offset_at (loc : Location) (unix : Z) : Z := (loc unix).1.1.
(** [time.UTC]. *)
Definition UTC : Location := fun _ => (0, - two63, two63 - 1).

Definition day_secs : Z := 86400.
(** Seconds on the local clock since the local 1970-01-01 00:00. *)
Definition local_secs (loc : Location) (t : Z) : Z := Time.Unix t + offset_at loc (Time.Unix t).
Definition local_day (loc : Location) (t : Z) : Z := local_secs loc t / day_secs.
Definition local_hour (loc : Location) (t : Z) : Z := (local_secs loc t mod day_secs) / 3600.

(** [time.Date] of a calendar day, given as its number since 1970-01-01, and
    the seconds into it. *)
Definition Date (loc : Location) (day secs : Z) : Z :=
  let unix := day * day_secs + secs in
  let '(offset, start, stop) := loc unix in
  let offset' :=
    if offset =? 0 then 0 else
    let utc := unix - offset in
    if (utc <? start) || (stop <=? utc) then offset_at loc utc else offset in
  (unix - offset') * Time.Second.
(** [AddDate(0, 0, 1)], to the second. *)
Definition tomorrow (loc : Location) (t : Z) : Z := Date loc (local_day loc t + 1) (local_secs loc t mod day_secs).

(** The zone name: the profile's [timezone] attribute, or the tenant's. *)
Definition zone_name (profile : Profile) (defaultTimezone : string) : string :=
  let tz := if defaultTimezone =s "" then "UTC" else defaultTimezone in
  if raw_len0 (prof_Attributes profile) then tz else
  match Json.Unmarshal_map (prof_Attributes profile) with
  | Ok (Some attrs) => default tz (Json.nonempty_string (Json.lookup "timezone" attrs))
  | _ => tz
  end.

Section Code.
(** [time.LoadLocation] reads the time zone database. *)
Context (LoadLocation : string -> option Location).

Definition location (profile : Profile) (defaultTimezone : string) : Location :=
  default UTC (LoadLocation (zone_name profile defaultTimezone)).

(** The window [start, end) of local hours, and where it ends. *)
Definition next_open (loc : Location) (now start end_ : Z) : option Z :=
  let currentHour := local_hour loc now in
  if start <? end_ then
    if (start <=? currentHour) && (currentHour <? end_) then Some (Date loc (local_day loc now) (end_ * 3600)) else None
  else
    if (start <=? currentHour) || (currentHour <? end_) then
      if start <=? currentHour then Some (Date loc (local_day loc (tomorrow loc now)) (end_ * 3600))
      else Some (Date loc (local_day loc now) (end_ * 3600))
    else None.

Definition IsInQuietHours (now : Z) (profile : Profile) (quietHoursStart quietHoursEnd : option Z) (defaultTimezone : string)
    : result (bool * Z) :=
  match quietHoursStart, quietHoursEnd with
  | Some start, Some end_ =>
      if start =? end_ then Err (errors_New "quiet hours start and end must differ") else
      match next_open (location profile defaultTimezone) now start end_ with
      | Some open => Ok (true, open)
      | None => Ok (false, now)
      end
  | _, _ => Ok (false, now)
  end.

(** ** Zones without transitions *)

(** A zone with one offset, as most of the database's fixed zones. *)
Definition fixed (loc : Location) (o : Z) : Prop := forall unix, offset_at loc unix = o.

(** Local hours in the window that starts at [start] and wraps at midnight
    when it ends before it starts. *)
Definition quiet_hour (start end_ h : Z) : Prop :=
  if start <? end_ then start <= h < end_ else start <= h \/ h < end_.
Definition quiet_at (loc : Location) (start end_ t : Z) : Prop := quiet_hour start end_ (local_hour loc t).

Lemma Date_fixed loc o day secs : fixed loc o -> Date loc day secs = (day * day_secs + secs - o) * Time.Second.
Proof.
  intros Hf. unfold Date. pose proof (Hf (day * day_secs + secs)) as Ho. unfold offset_at in Ho.
  destruct (loc (day * day_secs + secs)) as [[offset start] stop]. simpl in *. subst offset.
  destruct (o =? 0) eqn:E; [f_equal; lia|]. rewrite Hf. by destruct (_ || _).
Qed.

Lemma local_secs_fixed loc o t : fixed loc o -> local_secs loc t = t / Time.Second + o.
Proof. intros Hf. unfold local_secs. by rewrite Hf. Qed.

(** The day and the hour of a local clock reading, by their bounds. *)
Lemma clock_day L D : D * 86400 <= L < (D + 1) * 86400 <-> L / 86400 = D.
Proof. split; intros; [symmetry; apply Z.div_unique with (L - D * 86400) | pose proof (Z.div_mod L 86400); pose proof (Z.mod_pos_bound L 86400)]; lia. Qed.
Lemma clock_hour L : let h := (L mod 86400) / 3600 in
  0 <= h <= 23 /\ (L / 86400) * 86400 + h * 3600 <= L < (L / 86400) * 86400 + (h + 1) * 3600.
Proof.
  simpl. pose proof (Z.div_mod L 86400). pose proof (Z.mod_pos_bound L 86400).
  pose proof (Z.div_mod (L mod 86400) 3600). pose proof (Z.mod_pos_bound (L mod 86400) 3600). lia.
Qed.

(** From a clock reading [L] up to the reading [X], at most a day later. *)
Lemma until_reading loc o now X :
  fixed loc o -> local_secs loc now < X <= local_secs loc now + 86400 ->
  let t := (X - o) * Time.Second in
  now < t <= now + 24 * Time.Hour /\ local_secs loc t = X /\
  forall u, now <= u < t -> local_secs loc now <= local_secs loc u < X.
Proof.
  intros Hf HX t. rewrite (local_secs_fixed loc o) in HX by done.
  assert (HS : Time.Second = 1000000000) by done. assert (Hh : Time.Hour = 3600 * Time.Second) by done.
  pose proof (Z.div_mod now Time.Second). pose proof (Z.mod_pos_bound now Time.Second).
  subst t. repeat split; [nia|nia| |..].
  - rewrite (local_secs_fixed loc o), Z.div_mul by done. lia.
  - rewrite !(local_secs_fixed loc o) by done. assert (now / Time.Second <= u / Time.Second) by (apply Z.div_le_mono; lia). lia.
  - rewrite (local_secs_fixed loc o) by done. assert (u / Time.Second < X - o) by (apply Z.div_lt_upper_bound; lia). lia.
Qed.

Lemma local_hour_at loc t D h m :
  local_secs loc t = D * 86400 + h * 3600 + m -> 0 <= h <= 23 -> 0 <= m < 3600 -> local_hour loc t = h.
Proof.
  intros E Hh Hm. unfold local_hour, day_secs. rewrite E. pose proof (clock_hour (D * 86400 + h * 3600 + m)) as [H1 H2].
  rewrite (proj1 (clock_day (D * 86400 + h * 3600 + m) D)) in H2 by lia. lia.
Qed.

Lemma local_hour_bounds loc t :
  0 <= local_hour loc t <= 23 /\
  local_day loc t * 86400 + local_hour loc t * 3600 <= local_secs loc t < local_day loc t * 86400 + (local_hour loc t + 1) * 3600.
Proof. apply clock_hour. Qed.

(** The same day, between two hours of it. *)
Lemma hour_between loc t D a b :
  0 <= a -> b <= 24 -> D * 86400 + a * 3600 <= local_secs loc t < D * 86400 + b * 3600 -> a <= local_hour loc t < b.
Proof.
  intros Ha Hb HL. destruct (local_hour_bounds loc t) as [H1 H2].
  assert (E : local_day loc t = D) by (apply clock_day; lia). rewrite E in H2. lia.
Qed.

Lemma tomorrow_day loc o t : fixed loc o -> local_day loc (tomorrow loc t) = local_day loc t + 1.
Proof.
  intros Hf. unfold tomorrow. rewrite (Date_fixed loc o) by done. unfold local_day at 1.
  rewrite (local_secs_fixed loc o), Z.div_mul by done. apply clock_day. unfold day_secs in *.
  pose proof (Z.mod_pos_bound (local_secs loc t) 86400). lia.
Qed.

(** When the window ends at hour [end_] of day [D] and covers the readings
    from now to then. *)
Lemma opens_at loc o now start end_ D :
  fixed loc o -> 0 <= end_ <= 23 -> ~ quiet_hour start end_ end_ ->
  local_secs loc now < D * 86400 + end_ * 3600 <= local_secs loc now + 86400 ->
  (forall u, local_secs loc now <= local_secs loc u < D * 86400 + end_ * 3600 -> quiet_at loc start end_ u) ->
  let t := Date loc D (end_ * 3600) in
  now < t <= now + 24 * Time.Hour /\ ~ quiet_at loc start end_ t /\ forall u, now <= u < t -> quiet_at loc start end_ u.
Proof.
  intros Hf He Hn HX Hq t. subst t. rewrite (Date_fixed loc o) by done. unfold day_secs.
  destruct (until_reading loc o now _ Hf HX) as (H1 & H2 & H3). split; [done|]. split; [|auto].
  unfold quiet_at. by rewrite (local_hour_at loc _ D end_ 0) by lia.
Qed.

(** In a zone of constant offset the quiet-hours check is exact: it
    answers true precisely when the recipient's local hour is in the window
    (which may wrap at midnight), and the instant it then answers is the
    first one after now outside the window, at most a day away; otherwise it
    answers the unchanged clock. *)
Theorem quiet_hours_exact now profile start end_ tz o :
  fixed (location profile tz) o -> 0 <= start <= 23 -> 0 <= end_ <= 23 -> start <> end_ ->
  let loc := location profile tz in
  exists b t, IsInQuietHours now profile (Some start) (Some end_) tz = Ok (b, t) /\
    (b = true <-> quiet_at loc start end_ now) /\ (b = false -> t = now) /\
    (b = true -> now < t <= now + 24 * Time.Hour /\ ~ quiet_at loc start end_ t /\
                 forall u, now <= u < t -> quiet_at loc start end_ u).
Proof.
  intros Hf Hs He Hne loc. unfold IsInQuietHours. rewrite (proj2 (Z.eqb_neq _ _) Hne). fold loc in Hf |- *.
  destruct (local_hour_bounds loc now) as [Hh HL]. set (h := local_hour loc now) in *. set (D := local_day loc now) in *.
  unfold next_open. fold h D. rewrite (tomorrow_day loc o) by done. fold D.
  assert (Hq : forall u, quiet_at loc start end_ u <-> quiet_hour start end_ (local_hour loc u)) by done.
  pose proof (opens_at loc o now start end_) as Hopen. unfold quiet_at, quiet_hour in *. fold h.
  destruct (start <? end_) eqn:E; [destruct ((start <=? h) && (h <? end_)) eqn:E1 | destruct ((start <=? h) || (h <? end_)) eqn:E1; [destruct (start <=? h) eqn:E2|]].
  - eexists true, _. split; [done|]. split; [lia|]. split; [done|]. intros _. apply Hopen; [done|lia|lia|lia|].
    intros u Hu. pose proof (hour_between loc u D start end_). lia.
  - eexists false, _. split; [done|]. split; [lia|]. by split.
  - eexists true, _. split; [done|]. split; [lia|]. split; [done|]. intros _. apply Hopen; [done|lia|lia|lia|].
    intros u Hu. destruct (Z_lt_le_dec (local_secs loc u) ((D + 1) * 86400)).
    + pose proof (hour_between loc u D start 24). lia.
    + pose proof (hour_between loc u (D + 1) 0 end_). lia.
  - eexists true, _. split; [done|]. split; [lia|]. split; [done|]. intros _. apply Hopen; [done|lia|lia|lia|].
    intros u Hu. pose proof (hour_between loc u D 0 end_). lia.
  - eexists false, _. split; [done|]. split; [lia|]. by split.
Qed.
End Code.

(** India, at 2020-01-01 16:00 UTC: 21:30 locally, quiet from 21 to 8. *)
Definition kolkata : Location := fun _ => (19800, - two63, two63 - 1).
Definition zones (name : string) : option Location := if name =s "Asia/Kolkata" then Some kolkata else None.
Definition demo_recipient : Profile := MkProfile "p1" "ext" "" (Raw (JObject [("timezone", JString "Asia/Kolkata")])) 1 0.
Definition demo_evening : Z := 1577894400 * Time.Second.

Lemma quiet_hours_exact_witness :
  exists t, IsInQuietHours zones demo_evening demo_recipient (Some 21) (Some 8) "UTC" = Ok (true, t) /\
    demo_evening < t <= demo_evening + 24 * Time.Hour.
Proof.
  destruct (quiet_hours_exact zones demo_evening demo_recipient 21 8 "UTC" 19800) as (b & t & E & Hb & _ & Ht); [done|lia|lia|lia|].
  assert (Hq : b = true) by (apply Hb; vm_compute; left; discriminate). subst b. exists t. split; [exact E|]. by apply Ht.
Defined.
End QuietHours.
