(* ===== verification/JourneyGraph.v ===== *)
(** * Journey graphs (src/internal/journey/graph.go, nodes.go)

    The graph data, the node configurations, and their JSON decoding as
    [ParseGraph] and [DecodeConfig] do it. *)

From S2P Require Import Prelude.
From S2P Require Import GoStd.

Module Graph.

Record Edge : Type := MkEdge { From : string; To : string; Branch : string }.
Record Node : Type := MkNode { ID : string; Type_ : string; Config : RawMessage }.
Record Graph : Type := MkGraph { EntryNodeID : string; Nodes : list Node; Edges : list Edge }.

#[export] Instance Edge_eq_dec : EqDecision Edge.
Proof. solve_decision. Defined.

Definition NodeTypeEntry := "entry".
Definition NodeTypeDelay := "delay".
Definition NodeTypeCondition := "condition".
Definition NodeTypeSplit := "split".
Definition NodeTypeMessage := "message".
Definition NodeTypeWaitEvent := "wait_event".
Definition NodeTypeAction := "action".
Definition NodeTypeGoal := "goal".
Definition NodeTypeExit := "exit".
Definition NodeTypeAIDecision := "ai_decision".
Definition NodeTypeExtensionAction := "extension_action".
Definition NodeTypeExtensionCondition := "extension_condition".
Definition NodeTypeFeatureFlag := "feature_flag".

(** ** Node configurations *)

Record EntryConfig : Type := MkEntryConfig {
  ec_Trigger : string; ec_EventType : string; ec_SegmentID : string; ec_Schedule : string;
  ec_ReentryPolicy : string; ec_MaxReentries : Z; ec_LatePolicy : string
}.
Record DelayConfig : Type := MkDelayConfig { dc_Duration : string }.
Record ConditionConfig : Type := MkConditionConfig { cc_DSL : RawMessage }.
Record SplitBranch : Type := MkSplitBranch { sb_Label : string; sb_Weight : Z; sb_SegmentID : string }.
#[export] Instance SplitBranch_eq_dec : EqDecision SplitBranch.
Proof. solve_decision. Defined.
Record SplitConfig : Type := MkSplitConfig {
  sc_Mode : string; sc_ExperimentID : string; sc_Branches : list SplitBranch
}.
Record MessageConfig : Type := MkMessageConfig {
  mc_TemplateID : string; mc_ExperimentID : string; mc_Channel : string; mc_Transactional : bool
}.
Record WaitConfig : Type := MkWaitConfig { wc_EventType : string; wc_Timeout : string }.
Record ActionConfig : Type := MkActionConfig {
  ac_Action : string; ac_Set : option (list (string * json))
}.
Record GoalConfig : Type := MkGoalConfig {
  gc_Name : string; gc_EventType : string; gc_Filter : RawMessage; gc_ValueField : string; gc_Window : string
}.
Record ExitConfig : Type := MkExitConfig { xc_Reason : string }.
Record AIDecisionConfig : Type := MkAIDecisionConfig {
  ai_PromptVersionID : string; ai_Prompt : string; ai_TimeoutMS : Z; ai_MaxCostCents : Z;
  ai_Branches : list string; ai_Fallback : string
}.
Record ExtensionNodeConfig : Type := MkExtensionNodeConfig {
  xn_ExtensionID : string; xn_ExtensionVersion : Z; xn_TimeoutMS : Z;
  xn_Branches : list string; xn_Fallback : string; xn_Config : RawMessage
}.
Record FeatureFlagNodeConfig : Type := MkFeatureFlagNodeConfig { fn_FlagKey : string }.

(** The [any] that [DecodeConfig] returns. *)
Inductive NodeConfig : Type :=
  | CEntry (c : EntryConfig) | CDelay (c : DelayConfig) | CCondition (c : ConditionConfig)
  | CSplit (c : SplitConfig) | CMessage (c : MessageConfig) | CWait (c : WaitConfig)
  | CAction (c : ActionConfig) | CGoal (c : GoalConfig) | CExit (c : ExitConfig)
  | CAIDecision (c : AIDecisionConfig) | CExtension (c : ExtensionNodeConfig)
  | CFeatureFlag (c : FeatureFlagNodeConfig).

(** ** JSON decoding tables: the struct tags, and the zero values *)

Definition entry_fields : list (string * Json.setter EntryConfig) :=
  [("trigger", Json.set_string (fun v c => MkEntryConfig v (ec_EventType c) (ec_SegmentID c) (ec_Schedule c) (ec_ReentryPolicy c) (ec_MaxReentries c) (ec_LatePolicy c)));
   ("event_type", Json.set_string (fun v c => MkEntryConfig (ec_Trigger c) v (ec_SegmentID c) (ec_Schedule c) (ec_ReentryPolicy c) (ec_MaxReentries c) (ec_LatePolicy c)));
   ("segment_id", Json.set_string (fun v c => MkEntryConfig (ec_Trigger c) (ec_EventType c) v (ec_Schedule c) (ec_ReentryPolicy c) (ec_MaxReentries c) (ec_LatePolicy c)));
   ("schedule", Json.set_string (fun v c => MkEntryConfig (ec_Trigger c) (ec_EventType c) (ec_SegmentID c) v (ec_ReentryPolicy c) (ec_MaxReentries c) (ec_LatePolicy c)));
   ("reentry_policy", Json.set_string (fun v c => MkEntryConfig (ec_Trigger c) (ec_EventType c) (ec_SegmentID c) (ec_Schedule c) v (ec_MaxReentries c) (ec_LatePolicy c)));
   ("max_reentries", Json.set_int (fun v c => MkEntryConfig (ec_Trigger c) (ec_EventType c) (ec_SegmentID c) (ec_Schedule c) (ec_ReentryPolicy c) v (ec_LatePolicy c)));
   ("late_policy", Json.set_string (fun v c => MkEntryConfig (ec_Trigger c) (ec_EventType c) (ec_SegmentID c) (ec_Schedule c) (ec_ReentryPolicy c) (ec_MaxReentries c) v))].
Definition delay_fields : list (string * Json.setter DelayConfig) :=
  [("duration", Json.set_string (fun v _ => MkDelayConfig v))].
Definition condition_fields : list (string * Json.setter ConditionConfig) :=
  [("dsl", Json.set_raw (fun v _ => MkConditionConfig v))].
Definition branch_fields : list (string * Json.setter SplitBranch) :=
  [("label", Json.set_string (fun v c => MkSplitBranch v (sb_Weight c) (sb_SegmentID c)));
   ("weight", Json.set_int (fun v c => MkSplitBranch (sb_Label c) v (sb_SegmentID c)));
   ("segment_id", Json.set_string (fun v c => MkSplitBranch (sb_Label c) (sb_Weight c) v))].
Definition split_fields : list (string * Json.setter SplitConfig) :=
  [("mode", Json.set_string (fun v c => MkSplitConfig v (sc_ExperimentID c) (sc_Branches c)));
   ("experiment_id", Json.set_string (fun v c => MkSplitConfig (sc_Mode c) v (sc_Branches c)));
   ("branches", Json.set_list (fun j => Json.decode_struct branch_fields j (MkSplitBranch "" 0 ""))
      (fun v c => MkSplitConfig (sc_Mode c) (sc_ExperimentID c) v))].
Definition message_fields : list (string * Json.setter MessageConfig) :=
  [("template_id", Json.set_string (fun v c => MkMessageConfig v (mc_ExperimentID c) (mc_Channel c) (mc_Transactional c)));
   ("experiment_id", Json.set_string (fun v c => MkMessageConfig (mc_TemplateID c) v (mc_Channel c) (mc_Transactional c)));
   ("channel", Json.set_string (fun v c => MkMessageConfig (mc_TemplateID c) (mc_ExperimentID c) v (mc_Transactional c)));
   ("transactional", Json.set_bool (fun v c => MkMessageConfig (mc_TemplateID c) (mc_ExperimentID c) (mc_Channel c) v))].
Definition wait_fields : list (string * Json.setter WaitConfig) :=
  [("event_type", Json.set_string (fun v c => MkWaitConfig v (wc_Timeout c)));
   ("timeout", Json.set_string (fun v c => MkWaitConfig (wc_EventType c) v))].
Definition action_fields : list (string * Json.setter ActionConfig) :=
  [("action", Json.set_string (fun v c => MkActionConfig v (ac_Set c)));
   ("set", Json.set_map (fun v c => MkActionConfig (ac_Action c) v))].
Definition goal_fields : list (string * Json.setter GoalConfig) :=
  [("name", Json.set_string (fun v c => MkGoalConfig v (gc_EventType c) (gc_Filter c) (gc_ValueField c) (gc_Window c)));
   ("event_type", Json.set_string (fun v c => MkGoalConfig (gc_Name c) v (gc_Filter c) (gc_ValueField c) (gc_Window c)));
   ("filter", Json.set_raw (fun v c => MkGoalConfig (gc_Name c) (gc_EventType c) v (gc_ValueField c) (gc_Window c)));
   ("value_field", Json.set_string (fun v c => MkGoalConfig (gc_Name c) (gc_EventType c) (gc_Filter c) v (gc_Window c)));
   ("window", Json.set_string (fun v c => MkGoalConfig (gc_Name c) (gc_EventType c) (gc_Filter c) (gc_ValueField c) v))].
Definition exit_fields : list (string * Json.setter ExitConfig) :=
  [("reason", Json.set_string (fun v _ => MkExitConfig v))].
Definition ai_fields : list (string * Json.setter AIDecisionConfig) :=
  [("prompt_version_id", Json.set_string (fun v c => MkAIDecisionConfig v (ai_Prompt c) (ai_TimeoutMS c) (ai_MaxCostCents c) (ai_Branches c) (ai_Fallback c)));
   ("prompt", Json.set_string (fun v c => MkAIDecisionConfig (ai_PromptVersionID c) v (ai_TimeoutMS c) (ai_MaxCostCents c) (ai_Branches c) (ai_Fallback c)));
   ("timeout_ms", Json.set_int (fun v c => MkAIDecisionConfig (ai_PromptVersionID c) (ai_Prompt c) v (ai_MaxCostCents c) (ai_Branches c) (ai_Fallback c)));
   ("max_cost_cents", Json.set_int (fun v c => MkAIDecisionConfig (ai_PromptVersionID c) (ai_Prompt c) (ai_TimeoutMS c) v (ai_Branches c) (ai_Fallback c)));
   ("branches", Json.set_list Json.elem_string (fun v c => MkAIDecisionConfig (ai_PromptVersionID c) (ai_Prompt c) (ai_TimeoutMS c) (ai_MaxCostCents c) v (ai_Fallback c)));
   ("fallback", Json.set_string (fun v c => MkAIDecisionConfig (ai_PromptVersionID c) (ai_Prompt c) (ai_TimeoutMS c) (ai_MaxCostCents c) (ai_Branches c) v))].
Definition extension_fields : list (string * Json.setter ExtensionNodeConfig) :=
  [("extension_id", Json.set_string (fun v c => MkExtensionNodeConfig v (xn_ExtensionVersion c) (xn_TimeoutMS c) (xn_Branches c) (xn_Fallback c) (xn_Config c)));
   ("extension_version", Json.set_int (fun v c => MkExtensionNodeConfig (xn_ExtensionID c) v (xn_TimeoutMS c) (xn_Branches c) (xn_Fallback c) (xn_Config c)));
   ("timeout_ms", Json.set_int (fun v c => MkExtensionNodeConfig (xn_ExtensionID c) (xn_ExtensionVersion c) v (xn_Branches c) (xn_Fallback c) (xn_Config c)));
   ("branches", Json.set_list Json.elem_string (fun v c => MkExtensionNodeConfig (xn_ExtensionID c) (xn_ExtensionVersion c) (xn_TimeoutMS c) v (xn_Fallback c) (xn_Config c)));
   ("fallback", Json.set_string (fun v c => MkExtensionNodeConfig (xn_ExtensionID c) (xn_ExtensionVersion c) (xn_TimeoutMS c) (xn_Branches c) v (xn_Config c)));
   ("config", Json.set_raw (fun v c => MkExtensionNodeConfig (xn_ExtensionID c) (xn_ExtensionVersion c) (xn_TimeoutMS c) (xn_Branches c) (xn_Fallback c) v))].
Definition flag_fields : list (string * Json.setter FeatureFlagNodeConfig) :=
  [("flag_key", Json.set_string (fun v _ => MkFeatureFlagNodeConfig v))].

Definition decodeNodeConfig {T} (fields : list (string * Json.setter T)) (zero : T) (node : Node) : result T :=
  let config := if raw_len0 (Config node) then Raw (JObject []) else Config node in
  match Json.Unmarshal fields zero config with
  | Ok c => Ok c
  | Err e => Err (Errorf "decode %s node config: %w" [AStr (Type_ node); AWrap e])
  end.

Definition decode_entry := decodeNodeConfig entry_fields (MkEntryConfig "" "" "" "" "" 0 "").
Definition decode_delay := decodeNodeConfig delay_fields (MkDelayConfig "").
Definition decode_condition := decodeNodeConfig condition_fields (MkConditionConfig RawEmpty).
Definition decode_split := decodeNodeConfig split_fields (MkSplitConfig "" "" []).
Definition decode_message := decodeNodeConfig message_fields (MkMessageConfig "" "" "" false).
Definition decode_wait := decodeNodeConfig wait_fields (MkWaitConfig "" "").
Definition decode_action := decodeNodeConfig action_fields (MkActionConfig "" None).
Definition decode_goal := decodeNodeConfig goal_fields (MkGoalConfig "" "" RawEmpty "" "").
Definition decode_exit := decodeNodeConfig exit_fields (MkExitConfig "").
Definition decode_ai := decodeNodeConfig ai_fields (MkAIDecisionConfig "" "" 0 0 [] "").
Definition decode_extension := decodeNodeConfig extension_fields (MkExtensionNodeConfig "" 0 0 [] "" RawEmpty).
Definition decode_flag := decodeNodeConfig flag_fields (MkFeatureFlagNodeConfig "").

(** [DecodeConfig]: dispatch on the node type. *)
Definition DecodeConfig (node : Node) : result NodeConfig :=
  let t := Type_ node in
  if t =s NodeTypeEntry then CEntry <$> decode_entry node
  else if t =s NodeTypeDelay then CDelay <$> decode_delay node
  else if t =s NodeTypeCondition then CCondition <$> decode_condition node
  else if t =s NodeTypeSplit then CSplit <$> decode_split node
  else if t =s NodeTypeMessage then CMessage <$> decode_message node
  else if t =s NodeTypeWaitEvent then CWait <$> decode_wait node
  else if t =s NodeTypeAction then CAction <$> decode_action node
  else if t =s NodeTypeGoal then CGoal <$> decode_goal node
  else if t =s NodeTypeExit then CExit <$> decode_exit node
  else if t =s NodeTypeAIDecision then CAIDecision <$> decode_ai node
  else if (t =s NodeTypeExtensionAction) || (t =s NodeTypeExtensionCondition)
    then CExtension <$> decode_extension node
  else if t =s NodeTypeFeatureFlag then CFeatureFlag <$> decode_flag node
  else if mem t ["nested_journey"; "webhook_action"; "integration_action"; "experiment"; "holdout"]
    then Err (Errorf "unsupported node type: %s" [AStr t])
  else Err (Errorf "unknown node type: %s" [AStr t]).

(** ** Parsing a graph *)

Definition node_fields : list (string * Json.setter Node) :=
  [("id", Json.set_string (fun v n => MkNode v (Type_ n) (Config n)));
   ("type", Json.set_string (fun v n => MkNode (ID n) v (Config n)));
   ("config", Json.set_raw (fun v n => MkNode (ID n) (Type_ n) v))].
Definition edge_fields : list (string * Json.setter Edge) :=
  [("from", Json.set_string (fun v e => MkEdge v (To e) (Branch e)));
   ("to", Json.set_string (fun v e => MkEdge (From e) v (Branch e)));
   ("branch", Json.set_string (fun v e => MkEdge (From e) (To e) v))].
Definition graph_fields : list (string * Json.setter Graph) :=
  [("entry_node_id", Json.set_string (fun v g => MkGraph v (Nodes g) (Edges g)));
   ("nodes", Json.set_list (fun j => Json.decode_struct node_fields j (MkNode "" "" RawEmpty))
      (fun v g => MkGraph (EntryNodeID g) v (Edges g)));
   ("edges", Json.set_list (fun j => Json.decode_struct edge_fields j (MkEdge "" "" ""))
      (fun v g => MkGraph (EntryNodeID g) (Nodes g) v))].

Definition ParseGraph (data : RawMessage) : result Graph :=
  graph ← Json.Unmarshal graph_fields (MkGraph "" [] []) data;
  _ ← mapM_result DecodeConfig (Nodes graph);
  Ok graph.

(** [json.Marshal] of a graph, in the order of the struct fields, an empty
    [branch] omitted. *)
Definition marshal_node (n : Node) : result json :=
  config ← Json.of_raw (Config n);
  Ok (JObject [("id", JString (ID n)); ("type", JString (Type_ n)); ("config", config)]).
Definition marshal_edge (e : Edge) : json :=
  JObject ([("from", JString (From e)); ("to", JString (To e))] ++
           (if Branch e =s "" then [] else [("branch", JString (Branch e))])).
Definition marshal_graph (g : Graph) : result json :=
  nodes ← mapM_result marshal_node (Nodes g);
  Ok (JObject [("entry_node_id", JString (EntryNodeID g)); ("nodes", JArray nodes);
               ("edges", JArray (marshal_edge <$> Edges g))]).

(** ** Facts about decoding used by the validator and the executor *)

(** The node types whose configuration is [c]. *)
Definition types_of (c : NodeConfig) : list string :=
  match c with
  | CEntry _ => [NodeTypeEntry] | CDelay _ => [NodeTypeDelay] | CCondition _ => [NodeTypeCondition]
  | CSplit _ => [NodeTypeSplit] | CMessage _ => [NodeTypeMessage] | CWait _ => [NodeTypeWaitEvent]
  | CAction _ => [NodeTypeAction] | CGoal _ => [NodeTypeGoal] | CExit _ => [NodeTypeExit]
  | CAIDecision _ => [NodeTypeAIDecision]
  | CExtension _ => [NodeTypeExtensionAction; NodeTypeExtensionCondition]
  | CFeatureFlag _ => [NodeTypeFeatureFlag]
  end.
Definition decoded (n : Node) (c : NodeConfig) : Prop :=
  match c with
  | CEntry e => decode_entry n = Ok e | CDelay e => decode_delay n = Ok e
  | CCondition e => decode_condition n = Ok e | CSplit e => decode_split n = Ok e
  | CMessage e => decode_message n = Ok e | CWait e => decode_wait n = Ok e
  | CAction e => decode_action n = Ok e | CGoal e => decode_goal n = Ok e
  | CExit e => decode_exit n = Ok e | CAIDecision e => decode_ai n = Ok e
  | CExtension e => decode_extension n = Ok e | CFeatureFlag e => decode_flag n = Ok e
  end.

Lemma DecodeConfig_shape n c :
  DecodeConfig n = Ok c -> Type_ n ∈ types_of c /\ decoded n c.
Proof.
  unfold DecodeConfig. intros H.
  repeat match type of H with
  | (if ?a =s ?b then _ else _) = _ =>
      destruct (a =s b) eqn:E;
        [apply seqb_true in E; apply fmap_Ok in H as (e & He & ->); rewrite E; split;
         [apply list_elem_of_here | exact He] | clear E]
  | (if ?x || ?y then _ else _) = _ =>
      destruct (x || y) eqn:E;
        [apply fmap_Ok in H as (e & He & ->); split; [|exact He];
         apply orb_true_iff in E as [E|E]; apply seqb_true in E; rewrite E; simpl; set_solver
        | clear E]
  end.
  case_match; discriminate.
Qed.

(** The node types the code knows, the only ones [DecodeConfig] accepts. *)
Definition node_types : list string :=
  [NodeTypeEntry; NodeTypeDelay; NodeTypeCondition; NodeTypeSplit; NodeTypeMessage;
   NodeTypeWaitEvent; NodeTypeAction; NodeTypeGoal; NodeTypeExit; NodeTypeAIDecision;
   NodeTypeExtensionAction; NodeTypeExtensionCondition; NodeTypeFeatureFlag].

Lemma DecodeConfig_type n c : DecodeConfig n = Ok c -> Type_ n ∈ node_types.
Proof.
  intros H. apply DecodeConfig_shape in H as [Ht _]. unfold node_types.
  destruct c; simpl in Ht; set_solver.
Qed.


(** ** Marshalling and parsing again *)

(** A nil configuration is written [null]. *)
Definition written (n : Node) : Node :=
  MkNode (ID n) (Type_ n) (match Config n with RawEmpty => Raw JNull | c => c end).

Lemma Unmarshal_null {T} (fs : list (string * Json.setter T)) zero :
  Json.Unmarshal fs zero (Raw JNull) = Json.Unmarshal fs zero (Raw (JObject [])).
Proof. reflexivity. Qed.

Lemma decode_written {T} (fs : list (string * Json.setter T)) zero n :
  decodeNodeConfig fs zero (written n) = decodeNodeConfig fs zero n.
Proof. unfold decodeNodeConfig, written. by destruct (Config n). Qed.

Lemma DecodeConfig_written n : DecodeConfig (written n) = DecodeConfig n.
Proof.
  unfold DecodeConfig. change (Type_ (written n)) with (Type_ n).
  unfold decode_entry, decode_delay, decode_condition, decode_split, decode_message, decode_wait,
    decode_action, decode_goal, decode_exit, decode_ai, decode_extension, decode_flag.
  by rewrite !decode_written.
Qed.

Lemma parse_nodes l js :
  mapM_result marshal_node l = Ok js ->
  Json.map_opt (fun j => Json.decode_struct node_fields j (MkNode "" "" RawEmpty)) js = Some (written <$> l).
Proof.
  revert js. induction l as [|n l IH]; intros js H; cbn [mapM_result] in H; [by inv_M|].
  apply bind_Ok in H as (j & Hj & H). apply bind_Ok in H as (js' & Hjs & H). inv_M.
  unfold marshal_node in Hj. apply bind_Ok in Hj as (c & Hc & Hj). inv_M.
  cbn [Json.map_opt fmap list_fmap]. rewrite (IH _ Hjs). cbn.
  unfold written. destruct (Config n); simpl in Hc; inv_ok; done.
Qed.

Lemma parse_edges l :
  Json.map_opt (fun j => Json.decode_struct edge_fields j (MkEdge "" "" "")) (marshal_edge <$> l) = Some l.
Proof.
  induction l as [|[f t b] l IH]; [done|]. rewrite fmap_cons. cbn [Json.map_opt]. rewrite IH.
  unfold marshal_edge. simpl. destruct (b =s "") eqn:E; [apply seqb_true in E as ->|]; done.
Qed.

Lemma members_step {T} (fs : list (string * Json.setter T)) k v l x set_ x' :
  Json.find_field fs k = Some set_ -> set_ v x = Some x' ->
  Json.members fs ((k, v) :: l) x = Json.members fs l x'.
Proof. intros H1 H2. cbn [Json.members]. by rewrite H1, H2. Qed.

Lemma ParseGraph_marshal g j :
  marshal_graph g = Ok j -> (forall n, n ∈ Nodes g -> is_Ok (DecodeConfig n) = true) ->
  ParseGraph (Raw j) = Ok (MkGraph (EntryNodeID g) (written <$> Nodes g) (Edges g)).
Proof.
  intros H Hd. unfold marshal_graph in H. apply bind_Ok in H as (js & Hjs & H). inv_M.
  assert (HU : Json.Unmarshal graph_fields (MkGraph "" [] [])
            (Raw (JObject [("entry_node_id", JString (EntryNodeID g)); ("nodes", JArray js);
                           ("edges", JArray (marshal_edge <$> Edges g))])) =
          Ok (MkGraph (EntryNodeID g) (written <$> Nodes g) (Edges g))).
  { unfold Json.Unmarshal, Json.parse. cbn [mbind result_bind]. unfold Json.decode_struct.
    erewrite members_step; [|reflexivity|reflexivity].
    rewrite (members_step _ "nodes" _ _ _
      (Json.set_list (fun j => Json.decode_struct node_fields j (MkNode "" "" RawEmpty))
         (fun v g => MkGraph (EntryNodeID g) v (Edges g)))
      (MkGraph (EntryNodeID g) (written <$> Nodes g) []));
      [|reflexivity|unfold Json.set_list; by rewrite (parse_nodes _ _ Hjs)].
    rewrite (members_step _ "edges" _ _ _
      (Json.set_list (fun j => Json.decode_struct edge_fields j (MkEdge "" "" ""))
         (fun v g => MkGraph (EntryNodeID g) (Nodes g) v))
      (MkGraph (EntryNodeID g) (written <$> Nodes g) (Edges g)));
      [|reflexivity|unfold Json.set_list; by rewrite parse_edges].
    reflexivity. }
  unfold ParseGraph. rewrite HU. cbn [mbind result_bind Nodes].
  assert (Hm : is_Ok (mapM_result DecodeConfig (written <$> Nodes g)) = true).
  { clear -Hd. induction (Nodes g) as [|n l IH]; [done|]. cbn [fmap list_fmap mapM_result].
    rewrite DecodeConfig_written. pose proof (Hd n (list_elem_of_here _ _)) as Hn.
    destruct (DecodeConfig n); [|done]. simpl.
    assert (Hl : is_Ok (mapM_result DecodeConfig (written <$> l)) = true).
    { apply IH. intros m Hm. apply Hd. by apply list_elem_of_further. }
    by destruct (mapM_result DecodeConfig (written <$> l)). }
  by destruct (mapM_result DecodeConfig (written <$> Nodes g)).
Qed.
End Graph.
