(* ===== verification/JourneyValidate.v ===== *)
(** * Publication-time validation (src/internal/journey/validate.go) *)

From S2P Require Import Prelude.
From S2P Require Import GoStd.
From S2P Require Import Domain.
From S2P Require Import Schedule.
From S2P Require Import JourneyGraph.

Module Validate.
Import Graph.

Definition maxAIDecisionTimeout : Z := 5 * Time.Second.
Definition maxExtensionTimeout : Z := 10 * Time.Second.

(** [time.Duration(ms)*time.Millisecond], an [int64] product. *)
Definition ms_duration (ms : Z) : Z := i64 (ms * Time.Millisecond).

Definition validateDuration (nodeID field raw : string) : result unit :=
  match Time.ParseDuration raw with
  | Err e => Err (Errorf "node %s has invalid %s: %w" [AStr nodeID; AStr field; AWrap e])
  | Ok duration =>
      if duration <? 0 then Err (Errorf "node %s has negative %s" [AStr nodeID; AStr field]) else Ok ()
  end.

Definition validate_ai (id : string) (cfg : AIDecisionConfig) : result unit :=
  if ai_PromptVersionID cfg =s "" then Err (Errorf "ai_decision node %s requires prompt_version_id" [AStr id])
  else if ai_TimeoutMS cfg <=? 0 then Err (Errorf "ai_decision node %s requires a positive timeout_ms" [AStr id])
  else if maxAIDecisionTimeout <? ms_duration (ai_TimeoutMS cfg)
    then Err (Errorf "ai_decision node %s timeout_ms exceeds maximum of %d"
                [AStr id; AInt (maxAIDecisionTimeout / Time.Millisecond)])
  else if ai_MaxCostCents cfg <=? 0 then Err (Errorf "ai_decision node %s requires a positive max_cost_cents" [AStr id])
  else Ok ().

Definition validate_extension (t id : string) (cfg : ExtensionNodeConfig) : result unit :=
  if xn_ExtensionID cfg =s "" then Err (Errorf "%s node %s requires extension_id" [AStr t; AStr id])
  else if xn_ExtensionVersion cfg <=? 0
    then Err (Errorf "%s node %s requires a positive extension_version" [AStr t; AStr id])
  else if xn_TimeoutMS cfg <=? 0
    then Err (Errorf "%s node %s requires a positive timeout_ms" [AStr t; AStr id])
  else if maxExtensionTimeout <? ms_duration (xn_TimeoutMS cfg)
    then Err (Errorf "%s node %s timeout_ms exceeds maximum of %d"
                [AStr t; AStr id; AInt (maxExtensionTimeout / Time.Millisecond)])
  else Ok ().

(** The [cfgAny.(T)] assertions after [DecodeConfig] hold because the type
    was just tested; a failing one is the last branch of each match. *)
Definition validateDurations (node : Node) : result unit :=
  let id := ID node in
  let t := Type_ node in
  if t =s NodeTypeDelay then
    cfg ← DecodeConfig node;
    match cfg with
    | CDelay c => validateDuration id "duration" (dc_Duration c)
    | _ => Err (Errorf "delay node %s has invalid config" [AStr id])
    end
  else if t =s NodeTypeWaitEvent then
    cfg ← DecodeConfig node;
    match cfg with
    | CWait c => validateDuration id "timeout" (wc_Timeout c)
    | _ => Err (Errorf "wait_event node %s has invalid config" [AStr id])
    end
  else if t =s NodeTypeAIDecision then
    cfg ← DecodeConfig node;
    match cfg with
    | CAIDecision c => validate_ai id c
    | _ => Err (Errorf "ai_decision node %s has invalid config" [AStr id])
    end
  else if (t =s NodeTypeExtensionAction) || (t =s NodeTypeExtensionCondition) then
    cfg ← DecodeConfig node;
    match cfg with
    | CExtension c => validate_extension t id c
    | _ => Err (Errorf "%s node %s has invalid config" [AStr t; AStr id])
    end
  else Ok ().

(** [want[label] = true] for each label, rejecting empty and repeated ones. *)
Fixpoint build_want (t id : string) (want : gset string) (labels : list string) : result (gset string) :=
  match labels with
  | [] => Ok want
  | label :: rest =>
      if label =s "" then Err (Errorf "%s node %s has empty branch label in config" [AStr t; AStr id])
      else if bool_decide (label ∈ want)
        then Err (Errorf "%s node %s has duplicate branch label: %s" [AStr t; AStr id; AStr label])
      else build_want t id ({[label]} ∪ want) rest
  end.

(** Each edge must name a wanted branch, which it uses up. *)
Fixpoint use_branches (t id : string) (want : gset string) (edges : list Edge) : result (gset string) :=
  match edges with
  | [] => Ok want
  | edge :: rest =>
      if bool_decide (Branch edge ∈ want)
      then use_branches t id (want ∖ {[Branch edge]}) rest
      else Err (Errorf "%s node %s has unexpected branch label: %s" [AStr t; AStr id; AStr (Branch edge)])
  end.

Definition validateExactBranches (node : Node) (edges : list Edge) (labels : list string) : result unit :=
  let t := Type_ node in let id := ID node in
  if negb (length edges =? length labels)%nat
  then Err (Errorf "%s node %s must have exactly %d outgoing edges" [AStr t; AStr id; AInt (Z.of_nat (length labels))])
  else
    want ← build_want t id ∅ labels;
    want ← use_branches t id want edges;
    match elements want with
    | [] => Ok ()
    | label :: _ => Err (Errorf "%s node %s is missing branch label: %s" [AStr t; AStr id; AStr label])
    end.

(** The [ai_decision] and extension cases of [validateOutgoing]. *)
Definition validate_fallback (t id : string) (node : Node) (edges : list Edge)
    (fallback : string) (labels : list string) : result unit :=
  if fallback =s "" then Err (Errorf "%s node %s requires fallback" [AStr t; AStr id])
  else if negb (mem fallback labels)
    then Err (Errorf "%s node %s fallback branch %q is not declared" [AStr t; AStr id; AStr fallback])
  else validateExactBranches node edges labels.

Definition validateOutgoing (node : Node) (edges : list Edge) : result unit :=
  let t := Type_ node in let id := ID node in
  if mem t [NodeTypeEntry; NodeTypeDelay; NodeTypeAction; NodeTypeMessage; NodeTypeGoal] then
    match edges with
    | [e] => if Branch e =s "" then Ok ()
             else Err (Errorf "%s node %s outgoing edge must be unlabeled" [AStr t; AStr id])
    | _ => Err (Errorf "%s node %s must have exactly one outgoing edge" [AStr t; AStr id])
    end
  else if t =s NodeTypeCondition then validateExactBranches node edges ["true"; "false"]
  else if t =s NodeTypeSplit then
    cfg ← DecodeConfig node;
    match cfg with
    | CSplit c => validateExactBranches node edges (sb_Label <$> sc_Branches c)
    | _ => Err (Errorf "split node %s has invalid config" [AStr id])
    end
  else if t =s NodeTypeWaitEvent then validateExactBranches node edges ["success"; "timeout"]
  else if t =s NodeTypeAIDecision then
    cfg ← DecodeConfig node;
    match cfg with
    | CAIDecision c => validate_fallback t id node edges (ai_Fallback c) (ai_Branches c)
    | _ => Err (Errorf "ai_decision node %s has invalid config" [AStr id])
    end
  else if (t =s NodeTypeExtensionAction) || (t =s NodeTypeExtensionCondition) then
    cfg ← DecodeConfig node;
    match cfg with
    | CExtension c => validate_fallback t id node edges (xn_Fallback c) (xn_Branches c)
    | _ => Err (Errorf "%s node %s has invalid config" [AStr t; AStr id])
    end
  else if t =s NodeTypeExit then
    match edges with
    | [] => Ok ()
    | _ => Err (Errorf "exit node %s must not have outgoing edges" [AStr id])
    end
  else _ ← DecodeConfig node; Ok ().

(** ** Reachability *)

Abbreviation out_map := (gmap string (list Edge)).
Definition outgoing_of (out : out_map) (id : string) : list Edge := default [] (out !! id).

(** The inner loop: successors not yet reached are marked and enqueued. *)
Fixpoint visit (edges : list Edge) (reachable : gset string) (queue : list string)
    : gset string * list string :=
  match edges with
  | [] => (reachable, queue)
  | edge :: rest =>
      if bool_decide (To edge ∈ reachable) then visit rest reachable queue
      else visit rest ({[To edge]} ∪ reachable) (queue ++ [To edge])
  end.

(** [for len(queue) > 0]; every round dequeues a node that was enqueued
    once, so one round per edge and one for the entry suffice. *)
Fixpoint bfs (fuel : nat) (out : out_map) (reachable : gset string) (queue : list string) : gset string :=
  match fuel, queue with
  | S fuel', current :: queue' =>
      let '(reachable', queue'') := visit (outgoing_of out current) reachable queue' in
      bfs fuel' out reachable' queue''
  | _, _ => reachable
  end.

Definition targets (out : out_map) : gset string :=
  list_to_set (To <$> mjoin (map_to_list out).*2).

Definition reachableNodes (entryNodeID : string) (out : out_map) : gset string :=
  bfs (S (size (targets out))) out {[entryNodeID]} [entryNodeID].

(** ** Validate *)

Definition validate_entry (graph : Graph) (node : Node) : result unit :=
  if negb (ID node =s EntryNodeID graph)
  then Err (Errorf "entry node %s does not match entry_node_id %s" [AStr (ID node); AStr (EntryNodeID graph)])
  else match DecodeConfig node with
  | Err e => Err (Errorf "entry node %s has invalid config: %w" [AStr (ID node); AWrap e])
  | Ok (CEntry cfg) =>
      if ec_Trigger cfg =s "scheduled" then
        if ec_SegmentID cfg =s ""
        then Err (Errorf "entry node %s scheduled trigger requires segment_id" [AStr (ID node)])
        else match Schedule.validateSchedule (ec_Schedule cfg) with
        | Err e => Err (Errorf "entry node %s has invalid schedule: %w" [AStr (ID node); AWrap e])
        | Ok _ => Ok ()
        end
      else Ok ()
  | Ok _ => Err (Errorf "entry node %s has invalid config" [AStr (ID node)])
  end.

(** The first loop: the node table and the number of entry nodes. *)
Fixpoint validate_nodes (graph : Graph) (nodes : gmap string Node) (entryCount : Z) (l : list Node)
    : result (gmap string Node * Z) :=
  match l with
  | [] => Ok (nodes, entryCount)
  | node :: rest =>
      if ID node =s "" then Err (errors_New "node id is required")
      else if bool_decide (is_Some (nodes !! ID node))
        then Err (Errorf "duplicate node id: %s" [AStr (ID node)])
      else
        _ ← DecodeConfig node;
        _ ← (if Type_ node =s NodeTypeEntry then validate_entry graph node else Ok ());
        _ ← validateDurations node;
        validate_nodes graph (<[ID node := node]> nodes)
          (if Type_ node =s NodeTypeEntry then entryCount + 1 else entryCount) rest
  end.

Fixpoint validate_edges (nodes : gmap string Node) (out : out_map) (l : list Edge) : result out_map :=
  match l with
  | [] => Ok out
  | edge :: rest =>
      if bool_decide (nodes !! From edge = None)
      then Err (Errorf "edge references missing from node: %s" [AStr (From edge)])
      else if bool_decide (nodes !! To edge = None)
      then Err (Errorf "edge references missing to node: %s" [AStr (To edge)])
      else validate_edges nodes (<[From edge := outgoing_of out (From edge) ++ [edge]]> out) rest
  end.

(** [graph == nil] is the [None] of the pointer argument. *)
Definition Validate (graph : option Graph) : result unit :=
  match graph with
  | None => Err (errors_New "graph is required")
  | Some graph =>
      p ← validate_nodes graph ∅ 0 (Nodes graph);
      let '(nodes, entryCount) := p in
      if negb (entryCount =? 1)
      then Err (Errorf "expected exactly one entry node, got %d" [AInt entryCount])
      else if bool_decide (nodes !! EntryNodeID graph = None)
      then Err (Errorf "entry_node_id references missing node: %s" [AStr (EntryNodeID graph)])
      else
        out ← validate_edges nodes ∅ (Edges graph);
        _ ← mapM_result (fun node => validateOutgoing node (outgoing_of out (ID node))) (Nodes graph);
        let reachable := reachableNodes (EntryNodeID graph) out in
        match find_first (fun node => negb (bool_decide (ID node ∈ reachable))) (Nodes graph) with
        | Some node => Err (Errorf "unreachable node: %s" [AStr (ID node)])
        | None =>
            if existsb (fun node => bool_decide (ID node ∈ reachable) && (Type_ node =s NodeTypeExit)) (Nodes graph)
            then Ok ()
            else Err (errors_New "graph must have at least one reachable exit node")
        end
  end.
(** ** Branch discipline *)

Lemma build_want_Ok t id want labels w :
  build_want t id want labels = Ok w <->
  NoDup labels /\ "" ∉ labels /\ (forall l, l ∈ labels -> l ∉ want) /\ w = list_to_set labels ∪ want.
Proof.
  revert want. induction labels as [|l ls IH]; intros want; simpl.
  { split; [intros; inv_ok|intros (_ & _ & _ & ->); f_equal; set_solver].
    split; [apply NoDup_nil_2|]. set_solver. }
  destruct (l =s "") eqn:El.
  { apply seqb_true in El as ->. split; [done|]. intros (_ & H & _). set_solver. }
  apply seqb_false in El. case_bool_decide as Hin.
  { split; [done|]. intros (_ & _ & H & _). exfalso. apply (H l); [set_solver|done]. }
  rewrite IH, NoDup_cons. split.
  - intros (Hnd & He & Hd & ->). split; [|split; [|split]]; [|set_solver|set_solver|set_solver].
    split; [|done]. intros Hl. apply Hd in Hl. set_solver.
  - intros ((Hnl & Hnd) & He & Hd & ->). split; [done|]. split; [set_solver|]. split; [|set_solver].
    intros x Hx [->%elem_of_singleton|Hw]%elem_of_union; [done|]. apply (Hd x); set_solver.
Qed.

Lemma use_branches_Ok t id want edges w :
  use_branches t id want edges = Ok w <->
  NoDup (Branch <$> edges) /\ (forall e, e ∈ edges -> Branch e ∈ want) /\
  w = want ∖ list_to_set (Branch <$> edges).
Proof.
  revert want. induction edges as [|e es IH]; intros want; cbn [use_branches].
  { split; [intros; inv_ok|intros (_ & _ & ->); f_equal; set_solver].
    split; [apply NoDup_nil_2|]. set_solver. }
  case_bool_decide as Hin.
  2:{ split; [done|]. intros (_ & H & _). exfalso. apply Hin, H, list_elem_of_here. }
  rewrite IH, fmap_cons, NoDup_cons. split.
  - intros (Hnd & Hw & ->). split; [split; [|done]|split].
    + intros (e' & Hb & He')%list_elem_of_fmap. apply Hw in He'. rewrite <- Hb in He'. set_solver.
    + intros e' [->|He']%elem_of_cons; [done|]. apply Hw in He'. set_solver.
    + simpl. set_solver.
  - intros ((Hn & Hnd) & Hw & ->). split; [done|]. split; [|simpl; set_solver].
    intros e' He'. apply elem_of_difference. split; [apply Hw; set_solver|].
    intros Hb%elem_of_singleton. apply Hn. apply list_elem_of_fmap. eauto.
Qed.

Definition exact_branches (edges : list Edge) (labels : list string) : Prop :=
  Permutation (Branch <$> edges) labels /\ NoDup labels /\ "" ∉ labels.

Lemma validateExactBranches_Ok node edges labels :
  validateExactBranches node edges labels = Ok () <-> exact_branches edges labels.
Proof.
  unfold validateExactBranches, exact_branches.
  destruct (length edges =? length labels)%nat eqn:El; simpl.
  2:{ split; [done|]. intros (Hp & _ & _). apply Permutation_length in Hp.
      rewrite length_fmap in Hp. apply Nat.eqb_neq in El. congruence. }
  apply Nat.eqb_eq in El. split.
  - intros H. apply bind_Ok in H as (w & H1 & H). apply bind_Ok in H as (w2 & H2 & H).
    apply build_want_Ok in H1 as (Hnd & He & _ & ->).
    apply use_branches_Ok in H2 as (Hnb & Hin & ->).
    destruct (elements _) eqn:Ew; [|done]. apply elements_empty_inv in Ew.
    split; [|done]. apply NoDup_Permutation; [done..|]. intros x. split.
    + intros (e & -> & Hx)%list_elem_of_fmap. apply Hin in Hx. set_solver.
    + intros Hx. destruct (decide (x ∈ Branch <$> edges)) as [|Hn]; [done|].
      assert (x ∈ (∅ : gset string)); [|set_solver]. rewrite <- Ew. set_solver.
  - intros (Hp & Hnd & He).
    assert (Hw : build_want (Type_ node) (ID node) ∅ labels = Ok (list_to_set labels ∪ ∅)).
    { apply build_want_Ok. split; [done|]. split; [done|]. split; [set_solver|done]. }
    rewrite Hw. cbn [mbind result_bind].
    assert (Hu : use_branches (Type_ node) (ID node) (list_to_set labels ∪ ∅) edges = Ok ∅).
    { apply use_branches_Ok. split; [by rewrite Hp|]. split.
      - intros e He'. rewrite union_empty_r_L, elem_of_list_to_set, <- Hp. by apply list_elem_of_fmap_2.
      - rewrite (list_to_set_perm_L _ _ Hp). set_solver. }
    rewrite Hu. cbn [mbind result_bind]. by rewrite elements_empty.
Qed.

(** The branch labels the code demands of a node's outgoing edges;
    [None] where it demands nothing (a [feature_flag] node). *)
Definition branches_required (n : Node) : option (list string) :=
  match DecodeConfig n with
  | Ok (CCondition _) => Some ["true"; "false"]
  | Ok (CSplit c) => Some (sb_Label <$> sc_Branches c)
  | Ok (CWait _) => Some ["success"; "timeout"]
  | Ok (CAIDecision c) => Some (ai_Branches c)
  | Ok (CExtension c) => Some (xn_Branches c)
  | Ok (CExit _) => Some []
  | Ok (CFeatureFlag _) => None
  | _ => Some [""]
  end.
Definition fallback_of (n : Node) : option string :=
  match DecodeConfig n with
  | Ok (CAIDecision c) => Some (ai_Fallback c)
  | Ok (CExtension c) => Some (xn_Fallback c)
  | _ => None
  end.

(** Nodes with a single unlabelled way out. *)
Definition plain (n : Node) : bool :=
  mem (Type_ n) [NodeTypeEntry; NodeTypeDelay; NodeTypeAction; NodeTypeMessage; NodeTypeGoal].

Definition out_ok (n : Node) (edges : list Edge) : Prop :=
  match branches_required n with
  | Some labels => Permutation (Branch <$> edges) labels /\ NoDup labels /\
      (plain n = true \/ "" ∉ labels) /\
      (forall f, fallback_of n = Some f -> f ∈ labels)
  | None => True
  end.
Lemma fallback_Ok t id n es f ls :
  validate_fallback t id n es f ls = Ok () <-> f <> "" /\ f ∈ ls /\ exact_branches es ls.
Proof.
  unfold validate_fallback. destruct (f =s "") eqn:Ef.
  { apply seqb_true in Ef. split; [done | tauto]. }
  apply seqb_false in Ef. destruct (mem f ls) eqn:Em; simpl.
  - apply mem_In in Em. rewrite validateExactBranches_Ok. tauto.
  - split; [done|]. intros (_ & H & _). apply mem_In in H. congruence.
Qed.

Lemma single_Ok t id es :
  match es with
  | [e] => if Branch e =s "" then Ok ()
           else Err (Errorf "%s node %s outgoing edge must be unlabeled" [AStr t; AStr id])
  | _ => Err (Errorf "%s node %s must have exactly one outgoing edge" [AStr t; AStr id])
  end = Ok () <-> Permutation (Branch <$> es) [""].
Proof.
  split.
  - destruct es as [|e [|e' es]]; try discriminate.
    destruct (Branch e =s "") eqn:E; [|discriminate]. intros _. apply seqb_true in E. by rewrite <- E.
  - intros Hp. symmetry in Hp. apply Permutation_singleton_l in Hp.
    destruct es as [|e [|e' es]]; try discriminate Hp. injection Hp as Hp. rewrite (proj2 (seqb_true (Branch e) "")); [done | congruence].
Qed.

Lemma validateOutgoing_Ok n c es :
  DecodeConfig n = Ok c -> validateOutgoing n es = Ok () <-> out_ok n es /\
    (forall f, fallback_of n = Some f -> f <> "").
Proof.
  intros Hc. unfold out_ok, branches_required, fallback_of, validateOutgoing, plain. rewrite Hc.
  pose proof (DecodeConfig_shape n c Hc) as [Ht _].
  assert (Hone : forall l : list string, l = [""] -> NoDup l).
  { intros l ->. apply NoDup_singleton. }
  assert (Hperm : Permutation (Branch <$> es) [] <-> es = []).
  { split; [|by intros ->]. intros Hp%Permutation_nil_r. by destruct es. }
  destruct c; simpl in Ht;
    repeat (apply elem_of_cons in Ht as [Ht|Ht]); try (by apply not_elem_of_nil in Ht);
    rewrite Ht; eval_str; cbn [mbind result_bind];
    rewrite ?single_Ok, ?validateExactBranches_Ok, ?fallback_Ok; unfold exact_branches; try naive_solver.
  destruct es; [|naive_solver].
  split; [|done]. intros _. split; [|done]. split; [done|]. split; [apply NoDup_nil_2|].
  split; [right; set_solver | done].
Qed.
(** ** Breadth-first search finds exactly the reachable nodes *)

Section Reach.
Context (out : out_map).

Definition succ (a b : string) : Prop := exists e, e ∈ outgoing_of out a /\ To e = b.

Lemma succ_target a b : succ a b -> b ∈ targets out.
Proof.
  intros (e & He & <-). unfold targets, outgoing_of in *.
  destruct (out !! a) as [es|] eqn:E; simpl in He; [|set_solver].
  apply elem_of_list_to_set, list_elem_of_fmap_2, list_elem_of_join.
  exists es. split; [done|]. apply list_elem_of_fmap. exists (a, es).
  split; [done|]. by apply elem_of_map_to_list.
Qed.

Lemma visit_spec es R Q R' Q' :
  visit es R Q = (R', Q') ->
  (forall x, x ∈ R' <-> x ∈ R \/ exists e, e ∈ es /\ To e = x) /\
  (forall x, x ∈ Q' <-> x ∈ Q \/ (x ∈ R' /\ x ∉ R)) /\
  (forall T : gset string, (forall e, e ∈ es -> To e ∈ T) ->
     length Q' + size (T ∖ R') = length Q + size (T ∖ R))%nat.
Proof.
  revert R Q. induction es as [|e es IH]; intros R Q; simpl.
  { intros H. injection H as <- <-. split; [set_solver|]. split; [set_solver | done]. }
  case_bool_decide as Hin; intros H; apply IH in H as (H1 & H2 & H3).
  - split; [|split].
    + intros x. rewrite H1. set_solver.
    + done.
    + intros T HT. apply H3. set_solver.
  - split; [|split].
    + intros x. rewrite H1. set_solver.
    + assert (He : To e ∈ R') by (apply H1; set_solver).
      intros x. rewrite H2, elem_of_app, list_elem_of_singleton, elem_of_union, elem_of_singleton.
      destruct (decide (x = To e)) as [->|]; tauto.
    + intros T HT. rewrite H3 by set_solver. rewrite length_app. simpl.
      assert (Hs : T ∖ R = {[To e]} ∪ (T ∖ ({[To e]} ∪ R))).
      { apply set_eq. intros x. destruct (decide (x = To e)) as [->|]; [|set_solver].
        specialize (HT e (list_elem_of_here _ _)). set_solver. }
      rewrite Hs, (size_union {[To e]} (T ∖ ({[To e]} ∪ R))) by set_solver.
      rewrite size_singleton. lia.
Qed.

Lemma bfs_spec fuel R Q (P : string -> Prop) :
  (forall x, x ∈ Q -> x ∈ R) ->
  (forall x, x ∈ R -> x ∉ Q -> forall y, succ x y -> y ∈ R) ->
  (length Q + size (targets out ∖ R) <= fuel)%nat ->
  (forall x, x ∈ R -> P x) -> (forall x y, P x -> succ x y -> P y) ->
  let R' := bfs fuel out R Q in
  R ⊆ R' /\ (forall x y, x ∈ R' -> succ x y -> y ∈ R') /\ (forall x, x ∈ R' -> P x).
Proof.
  revert R Q. induction fuel as [|fuel IH]; intros R Q HQ Hcl Hf HP Hst; simpl.
  { destruct Q; simpl in Hf; [|lia]. split; [done|]. split; [|done].
    intros x y Hx. apply (Hcl x Hx). set_solver. }
  destruct Q as [|cur Q].
  { split; [done|]. split; [|done]. intros x y Hx. apply (Hcl x Hx). set_solver. }
  destruct (visit _ R Q) as [R1 Q1] eqn:Ev. apply visit_spec in Ev as (H1 & H2 & H3).
  assert (HR : R ⊆ R1) by (intros x; rewrite H1; tauto).
  assert (Hcur : cur ∈ R) by (apply HQ; apply list_elem_of_here).
  destruct (IH R1 Q1) as (Ha & Hb & Hc).
  - intros x. rewrite H2. intros [Hx|[Hx _]]; [|done]. apply HR, HQ. by apply list_elem_of_further.
  - intros x Hx HnQ y Hs. destruct (decide (x = cur)) as [->|Hne].
    + apply H1. right. destruct Hs as (e & He & <-). eauto.
    + rewrite H2 in HnQ. destruct (decide (x ∈ R)) as [HxR|]; [|tauto].
      apply HR. apply (Hcl x HxR); [|done]. intros [->|?]%elem_of_cons; [done | tauto].
  - rewrite H3; [simpl in Hf; lia|]. intros e He. eapply succ_target. exists e. eauto.
  - intros x. rewrite H1. intros [Hx|(e & He & <-)]; [auto|]. eapply Hst; [by apply HP|]. exists e. eauto.
  - done.
  - split; [set_solver | done].
Qed.

Lemma reachableNodes_spec entry x :
  x ∈ reachableNodes entry out <-> rtc succ entry x.
Proof.
  destruct (bfs_spec (S (size (targets out))) {[entry]} [entry] (rtc succ entry)) as (H1 & H2 & H3).
  - set_solver.
  - set_solver.
  - simpl. pose proof (subseteq_size (targets out ∖ {[entry]}) (targets out) ltac:(set_solver)). lia.
  - intros y ->%elem_of_singleton. apply rtc_refl.
  - intros y z Hy Hs. by eapply rtc_r.
  - split; [apply H3|]. intros Hr.
    unfold reachableNodes. set (R := bfs _ _ _ _) in *.
    assert (He : entry ∈ R) by (apply H1; set_solver).
    clearbody R. clear H1 H3. induction Hr as [|a b c Hs _ IH]; [done|].
    apply IH. by eapply H2.
Qed.
End Reach.
(** ** The loops over nodes and edges *)

(** A duration that time.ParseDuration reads and that is not negative. *)
Definition duration_ok (raw : string) : Prop := exists d, Time.ParseDuration raw = Ok d /\ 0 <= d.
(** A number of milliseconds between one and a maximum; or one whose
    nanoseconds overflow an int64 and wrap to at most the maximum. *)
Definition timeout_ok (maximum ms : Z) : Prop :=
  1 <= ms /\ (ms <= maximum \/ 2 ^ 63 <= ms * 1000000 /\ i64 (ms * 1000000) <= maximum * 1000000).

(** The ranges of a node's configuration. *)
Definition config_ok (g : Graph) (n : Node) (c : NodeConfig) : Prop :=
  match c with
  | CEntry e => ID n = EntryNodeID g /\
      (ec_Trigger e = "scheduled" -> ec_SegmentID e <> "" /\ exists m, Schedule.denotes (ec_Schedule e) m /\ Schedule.spec_ok m)
  | CDelay e => duration_ok (dc_Duration e)
  | CWait e => duration_ok (wc_Timeout e)
  | CAIDecision e => ai_PromptVersionID e <> "" /\ timeout_ok 5000 (ai_TimeoutMS e) /\ 1 <= ai_MaxCostCents e
  | CExtension e => xn_ExtensionID e <> "" /\ 1 <= xn_ExtensionVersion e /\ timeout_ok 10000 (xn_TimeoutMS e)
  | _ => True
  end.
Record node_ok (g : Graph) (n : Node) : Prop := {
  nk_id : ID n <> "";
  nk_config : exists c, DecodeConfig n = Ok c /\ config_ok g n c
}.

Lemma timeout_ok_iff maximum ms : 0 <= maximum <= 10000 ->
  (ms <=? 0) = false /\ (maximum * Time.Millisecond <? ms_duration ms) = false <-> timeout_ok maximum ms.
Proof.
  intros Hm. unfold timeout_ok, ms_duration, Time.Millisecond. rewrite Z.leb_gt, Z.ltb_ge.
  destruct (decide (ms * 1000000 < 2 ^ 63)) as [H|H].
  - split; intros [H1 H2]; (split; [lia|]).
    + rewrite i64_small in H2 by (unfold two63; lia). lia.
    + rewrite i64_small by (unfold two63; lia). lia.
  - split; intros [H1 H2]; (split; [lia|]); lia.
Qed.

Lemma validateDuration_Ok id field raw : validateDuration id field raw = Ok () <-> duration_ok raw.
Proof.
  unfold validateDuration, duration_ok. destruct (Time.ParseDuration raw) as [d|e]; [|split; [done | by intros (? & ? & _)]].
  destruct (d <? 0) eqn:E; split; [done | intros (? & [= <-] & ?); lia | intros _; exists d; split; [done | lia] | done].
Qed.
Lemma validate_ai_Ok id c : validate_ai id c = Ok () <-> ai_PromptVersionID c <> "" /\ timeout_ok 5000 (ai_TimeoutMS c) /\ 1 <= ai_MaxCostCents c.
Proof.
  rewrite <- timeout_ok_iff by lia. unfold validate_ai. rewrite <- seqb_false. change maxAIDecisionTimeout with (5000 * Time.Millisecond).
  destruct (_ =s ""); [naive_solver|]. destruct (ai_TimeoutMS c <=? 0); [naive_solver|]. destruct (_ <? _); [naive_solver|].
  destruct (ai_MaxCostCents c <=? 0) eqn:E; split; [done | intros (_ & _ & ?); lia | intros _; split_and!; (done || lia) | done].
Qed.
Lemma validate_extension_Ok t id c :
  validate_extension t id c = Ok () <-> xn_ExtensionID c <> "" /\ 1 <= xn_ExtensionVersion c /\ timeout_ok 10000 (xn_TimeoutMS c).
Proof.
  rewrite <- timeout_ok_iff by lia. unfold validate_extension. rewrite <- seqb_false. change maxExtensionTimeout with (10000 * Time.Millisecond).
  destruct (_ =s ""); [naive_solver|]. destruct (xn_ExtensionVersion c <=? 0) eqn:E; [split; [done | intros (_ & ? & _); lia]|].
  destruct (xn_TimeoutMS c <=? 0); [naive_solver|]. destruct (_ <? _); [naive_solver|]. split; [|done]. intros _. split_and!; (done || lia).
Qed.
Lemma validate_entry_Ok g n c : DecodeConfig n = Ok (CEntry c) -> validate_entry g n = Ok () <-> config_ok g n (CEntry c).
Proof.
  intros Hc. unfold validate_entry, config_ok. rewrite Hc. destruct (ID n =s EntryNodeID g) eqn:Ei; cbn [negb].
  2:{ apply seqb_false in Ei. split; [done | tauto]. }
  apply seqb_true in Ei. destruct (ec_Trigger c =s "scheduled") eqn:Et; [apply seqb_true in Et | apply seqb_false in Et; tauto].
  destruct (ec_SegmentID c =s "") eqn:Es; [apply seqb_true in Es; split; [done | tauto] | apply seqb_false in Es].
  rewrite <- Schedule.validate_denotes. destruct (Schedule.validateSchedule _); cbn [is_Ok]; [tauto|]. split; [done|]. intros [_ H]. by destruct (H Et).
Qed.

(** The two checks of a node together are its ranges. *)
Lemma node_checks_Ok g n c : DecodeConfig n = Ok c ->
  ((if Type_ n =s NodeTypeEntry then validate_entry g n else Ok ()) = Ok () /\ validateDurations n = Ok ()) <-> config_ok g n c.
Proof.
  intros Hc. pose proof (DecodeConfig_shape n c Hc) as [Ht _]. unfold validateDurations. rewrite Hc.
  destruct c; simpl in Ht;
    repeat (apply elem_of_cons in Ht as [Ht|Ht]); try (by apply not_elem_of_nil in Ht);
    rewrite Ht; eval_str; cbn [mbind result_bind];
    rewrite ?(validate_entry_Ok g n _ Hc), ?validateDuration_Ok, ?validate_ai_Ok, ?validate_extension_Ok; cbn [config_ok]; naive_solver.
Qed.

Definition is_entry (n : Node) : bool := Type_ n =s NodeTypeEntry.
Definition node_table (m : gmap string Node) (l : list Node) : gmap string Node :=
  foldl (fun m n => <[ID n := n]> m) m l.

Lemma node_table_lookup m l id :
  is_Some (node_table m l !! id) <-> is_Some (m !! id) \/ id ∈ ID <$> l.
Proof.
  revert m. induction l as [|n l IH]; intros m; [set_solver|].
  unfold node_table in *. rewrite fmap_cons, elem_of_cons. cbn [foldl]. rewrite IH.
  destruct (decide (ID n = id)) as [<-|Hne].
  - rewrite lookup_insert_eq. split; [|by eauto]. tauto.
  - rewrite lookup_insert_ne by done. split; [tauto|]. intros [?|[?|?]]; [by left|congruence|by right].
Qed.

Lemma unit_bind {A} (m : result unit) (k : result A) b :
  (m ≫= fun _ => k) = Ok b <-> m = Ok () /\ k = Ok b.
Proof. destruct m as [[]|e]; cbn; split; [auto|tauto|discriminate|intros [? _]; discriminate]. Qed.

Lemma validate_nodes_Ok g m c l m' c' :
  validate_nodes g m c l = Ok (m', c') <->
  NoDup (ID <$> l) /\ (forall n, n ∈ l -> m !! ID n = None) /\ (forall n, n ∈ l -> node_ok g n) /\
  m' = node_table m l /\ c' = c + countb is_entry l.
Proof.
  revert m c. induction l as [|n l IH]; intros m c; cbn [validate_nodes].
  { split; [intros H; injection H as <- <-|intros (_ & _ & _ & -> & ->); simpl; f_equal; f_equal; lia].
    split; [apply NoDup_nil_2|]. split; [set_solver|]. split; [set_solver|]. split; [done | simpl; lia]. }
  destruct (ID n =s "") eqn:Eid.
  { apply seqb_true in Eid. split; [done|]. intros (_ & _ & H & _).
    destruct (H n (list_elem_of_here _ _)). done. }
  apply seqb_false in Eid. case_bool_decide as Hm.
  { split; [done|]. intros (_ & H & _). rewrite (H n (list_elem_of_here _ _)) in Hm. by destruct Hm. }
  apply eq_None_not_Some in Hm.
  assert (Hcount : c + countb is_entry (n :: l) = (if Type_ n =s NodeTypeEntry then c + 1 else c) + countb is_entry l).
  { cbn [countb]. unfold is_entry at 1. destruct (_ =s _); lia. }
  rewrite Hcount, fmap_cons, NoDup_cons.
  destruct (DecodeConfig n) as [cfg|e] eqn:Ed; cbn [mbind result_bind].
  2:{ split; [done|]. intros (_ & _ & H & _). destruct (H n (list_elem_of_here _ _)) as [_ (? & ? & _)]. congruence. }
  rewrite !unit_bind, IH. pose proof (node_checks_Ok g n cfg Ed) as Hchk. split.
  - intros (He & Hd & Hnd & Hf & Hok & -> & ->).
    split; [split; [|done]|split; [|split; [|done]]].
    + intros (n' & Heq & Hn')%list_elem_of_fmap. apply Hf in Hn'. rewrite Heq in Hn'.
      by rewrite lookup_insert_eq in Hn'.
    + intros n' [->|Hn']%elem_of_cons; [done|]. apply Hf in Hn'. by apply lookup_insert_None in Hn' as [? _].
    + intros n' [->|Hn']%elem_of_cons; [|by apply Hok]. split; [done|]. exists cfg. split; [done|]. by apply Hchk.
  - intros ((Hn & Hnd) & Hf & Hok & -> & ->). destruct (Hok n (list_elem_of_here _ _)) as [_ (c1 & Hc1 & Hk)].
    rewrite Ed in Hc1. injection Hc1 as <-. apply Hchk in Hk as [He Hd].
    split; [exact He|]. split; [exact Hd|]. split; [done|]. split; [|split; [|done]].
    + intros n' Hn'. apply lookup_insert_None. split; [apply Hf; by apply list_elem_of_further|].
      intros Heq. apply Hn. rewrite Heq. by apply list_elem_of_fmap_2.
    + intros n' Hn'. apply Hok. by apply list_elem_of_further.
Qed.

Definition edges_of (id : string) (l : list Edge) : list Edge := filter (fun e => From e = id) l.

Lemma outgoing_insert out e l id :
  outgoing_of (<[From e := outgoing_of out (From e) ++ [e]]> out) id ++ edges_of id l =
  outgoing_of out id ++ edges_of id (e :: l).
Proof.
  unfold edges_of, outgoing_of at 1. rewrite filter_cons. case_decide as Heq.
  - subst id. rewrite lookup_insert_eq. simpl. by rewrite <- app_assoc.
  - by rewrite lookup_insert_ne.
Qed.

Definition endpoints_ok (nodes : gmap string Node) (l : list Edge) : Prop :=
  forall e, e ∈ l -> is_Some (nodes !! From e) /\ is_Some (nodes !! To e).

Lemma validate_edges_inv nodes out l out' :
  validate_edges nodes out l = Ok out' ->
  endpoints_ok nodes l /\ forall id, outgoing_of out' id = outgoing_of out id ++ edges_of id l.
Proof.
  revert out. induction l as [|e l IH]; intros out; cbn [validate_edges].
  { intros H. injection H as <-. split; [unfold endpoints_ok; set_solver|].
    intros id. by rewrite app_nil_r. }
  case_bool_decide as Hf; [done|]. case_bool_decide as Ht; [done|].
  intros H. apply IH in H as [Hall Hout]. split.
  - intros e' [->|He']%elem_of_cons; [by rewrite <- !not_eq_None_Some|by apply Hall].
  - intros id. rewrite Hout. apply outgoing_insert.
Qed.

Lemma validate_edges_total nodes out l :
  endpoints_ok nodes l -> exists out', validate_edges nodes out l = Ok out'.
Proof.
  revert out. induction l as [|e l IH]; intros out Hall; cbn [validate_edges]; [eauto|].
  destruct (Hall e (list_elem_of_here _ _)) as [Hf Ht].
  rewrite !bool_decide_false by (by apply not_eq_None_Some).
  apply IH. intros e' He'. apply Hall. by apply list_elem_of_further.
Qed.

(** ** The contract of [Validate] *)

Definition edge_rel (g : Graph) (a b : string) : Prop :=
  exists e, e ∈ Edges g /\ From e = a /\ To e = b.

(** A publishable graph. *)
Record Valid (g : Graph) : Prop := {
  val_ids : NoDup (ID <$> Nodes g);
  val_nodes : forall n, n ∈ Nodes g -> node_ok g n;
  val_one_entry : countb is_entry (Nodes g) = 1;
  val_entry : EntryNodeID g ∈ ID <$> Nodes g;
  val_edges : forall e, e ∈ Edges g -> From e ∈ ID <$> Nodes g /\ To e ∈ ID <$> Nodes g;
  val_out : forall n, n ∈ Nodes g -> out_ok n (edges_of (ID n) (Edges g)) /\
              (forall f, fallback_of n = Some f -> f <> "");
  val_reach : forall n, n ∈ Nodes g -> rtc (edge_rel g) (EntryNodeID g) (ID n);
  val_exit : exists n, n ∈ Nodes g /\ Type_ n = NodeTypeExit
}.

Lemma table_lookup l id : is_Some (node_table ∅ l !! id) <-> id ∈ ID <$> l.
Proof.
  rewrite node_table_lookup, lookup_empty. split; [|by right].
  intros [[? H]|H]; [discriminate H | done].
Qed.

Lemma succ_edge_rel (g : Graph) out :
  (forall id, outgoing_of out id = edges_of id (Edges g)) ->
  forall a b, succ out a b <-> edge_rel g a b.
Proof.
  intros Hout a b. unfold succ, edge_rel. setoid_rewrite Hout. unfold edges_of.
  setoid_rewrite list_elem_of_filter. naive_solver.
Qed.

Lemma mapM_result_unit {A} (f : A -> result unit) l :
  is_Ok (mapM_result f l) = true <-> forall x, x ∈ l -> f x = Ok ().
Proof.
  induction l as [|x l IH]; simpl; [set_solver|].
  destruct (f x) as [[]|e] eqn:E; simpl.
  - setoid_rewrite elem_of_cons. rewrite <- (is_Ok_fmap (cons ())) in IH.
    transitivity (is_Ok (mapM_result f l) = true); [by destruct (mapM_result f l)|].
    rewrite is_Ok_fmap in IH. rewrite IH. split; [intros H y [->|?]; auto | auto].
  - split; [done|]. intros H. rewrite (H x (list_elem_of_here _ _)) in E. done.
Qed.

Lemma final_check_Ok R (l : list Node) :
  match find_first (fun node => negb (bool_decide (ID node ∈ (R : gset string)))) l with
  | Some node => Err (Errorf "unreachable node: %s" [AStr (ID node)])
  | None => if existsb (fun node => bool_decide (ID node ∈ R) && (Type_ node =s NodeTypeExit)) l
            then Ok () else Err (errors_New "graph must have at least one reachable exit node")
  end = Ok () <-> (forall n, n ∈ l -> ID n ∈ R) /\ exists n, n ∈ l /\ Type_ n = NodeTypeExit.
Proof.
  destruct (find_first _ l) as [n|] eqn:E.
  - apply find_first_Some in E as [Hn Hr]. split; [done|]. intros [H _]. apply H in Hn.
    by rewrite bool_decide_true in Hr.
  - apply find_first_None in E. rewrite Forall_forall in E.
    assert (Hall : forall n, n ∈ l -> ID n ∈ R).
    { intros n Hn. apply E in Hn. apply negb_false_iff in Hn. by apply bool_decide_eq_true in Hn. }
    destruct (existsb _ l) eqn:Ex.
    + split; [|done]. intros _. split; [done|]. apply existsb_exists in Ex as (n & Hn & H).
      apply andb_prop in H as [_ H]. apply seqb_true in H. exists n. by rewrite list_elem_of_In.
    + split; [done|]. intros [_ (n & Hn & Ht)]. exfalso.
      apply not_true_iff_false in Ex. apply Ex. apply existsb_exists. exists n.
      split; [by apply list_elem_of_In|]. rewrite bool_decide_true by auto. by rewrite Ht.
Qed.

Lemma Validate_sound g : Validate (Some g) = Ok () -> Valid g.
Proof.
  unfold Validate.
  intros H. apply bind_Ok in H as ([m c] & Hn & H).
  apply validate_nodes_Ok in Hn as (Hnd & _ & Hok & -> & ->).
  destruct (0 + countb is_entry (Nodes g) =? 1) eqn:Ec; [|discriminate H]. cbn [negb] in H.
  case_bool_decide as He; [discriminate H|]. apply not_eq_None_Some, table_lookup in He.
  apply bind_Ok in H as (out & Hed & H). apply validate_edges_inv in Hed as [Hep Hout].
  assert (Hout' : forall id, outgoing_of out id = edges_of id (Edges g)) by (intros; by rewrite Hout).
  apply bind_Ok in H as (us & Hv & H). apply final_check_Ok in H as [Hr Hx].
  assert (Hvo : is_Ok (mapM_result (fun node => validateOutgoing node (outgoing_of out (ID node))) (Nodes g)) = true) by by rewrite Hv.
  rewrite mapM_result_unit in Hvo.
  constructor; [done | done | lia | done | | | | done].
  + intros e Hin. destruct (Hep e Hin) as [Hf Ht]. by rewrite !table_lookup in *.
  + intros n Hin. destruct (nk_config _ _ (Hok n Hin)) as (cfg & Hc & _).
    apply (validateOutgoing_Ok n cfg); [done|]. rewrite <- Hout'. by apply Hvo.
  + intros n Hin. apply Hr in Hin. apply reachableNodes_spec in Hin.
    eapply rtc_congruence with (f := id); [|exact Hin]. intros a b. by apply succ_edge_rel.
Qed.

Lemma Validate_complete g : Valid g -> Validate (Some g) = Ok ().
Proof.
  unfold Validate.
  intros [Hnd Hok Hc He Hed Hov Hr Hx].
  assert (Hn : validate_nodes g ∅ 0 (Nodes g) = Ok (node_table ∅ (Nodes g), 0 + countb is_entry (Nodes g))).
  { apply validate_nodes_Ok. split; [done|]. split; [intros; apply lookup_empty|]. done. }
  rewrite Hn. cbn [mbind result_bind]. rewrite Hc. cbn [Z.add Z.eqb negb Pos.eqb].
  rewrite bool_decide_false by by apply not_eq_None_Some, table_lookup.
  destruct (validate_edges_total (node_table ∅ (Nodes g)) ∅ (Edges g)) as [out Ho].
  { intros e Hin. rewrite !table_lookup. by apply Hed. }
  rewrite Ho. cbn [mbind result_bind]. apply validate_edges_inv in Ho as [_ Hout].
  assert (Hout' : forall id, outgoing_of out id = edges_of id (Edges g)) by (intros; by rewrite Hout).
  assert (Hvo : is_Ok (mapM_result (fun node => validateOutgoing node (outgoing_of out (ID node))) (Nodes g)) = true).
  { apply mapM_result_unit. intros n Hin. destruct (nk_config _ _ (Hok n Hin)) as (cfg & Hcf & _).
    apply (validateOutgoing_Ok n cfg); [done|]. rewrite Hout'. by apply Hov. }
  destruct (mapM_result _ _) as [us|e]; [|discriminate Hvo]. cbn [mbind result_bind].
  apply final_check_Ok. split; [|done]. intros n Hin. apply reachableNodes_spec.
  eapply rtc_congruence with (f := id); [|by apply Hr]. intros a b. by apply succ_edge_rel.
Qed.

(** C6: [Validate] accepts a graph exactly when it is publishable: distinct
    non-empty node ids; configurations that decode, with durations that parse
    and are not negative, timeout_ms of 1 to 5000 for an AI decision and 1 to
    10000 for an extension -- or so large that its nanoseconds wrap around an
    int64 to at most the maximum, which the code does accept --, positive
    costs and versions, and a scheduled entry's segment and legal schedule;
    one entry node, named by [entry_node_id]; edges between existing nodes;
    every node's outgoing edges carrying exactly the branch labels its type
    demands, a declared fallback among them; every node reachable from the
    entry; and an exit node. *)
Theorem Validate_iff g : Validate (Some g) = Ok () <-> Valid g.
Proof. split; [apply Validate_sound | apply Validate_complete]. Qed.
End Validate.
