(* ===== verification/JourneyNodes.v ===== *)
(** * Executing a journey node (src/internal/journey/nodes.go)

    [execute] with one definition per case of its switch, over the store's
    [NodeStore] methods, an optional AI gateway and an optional extension
    host.  The theorems say what a result can look like and when execution
    cannot fail. *)

From S2P Require Import Prelude.
From S2P Require Import GoStd.
From S2P Require Import Domain.
From S2P Require Import Store.
From S2P Require Import Experiment.
From S2P Require Import Flags.
From S2P Require Import JourneyGraph.
From S2P Require Import JourneyValidate.

Module JNodes.
Import Graph.

Record ExecutionResult : Type := MkExecutionResult {
  xr_NextNodeID : string;
  xr_NextStep : option JourneyStep;
  xr_Transition : JourneyTransition;
  xr_NextStatus : string;
  xr_CompletedAt : option Z;
  xr_GoalReached : bool;
  xr_WaitEventType : option string;
  xr_WaitUntil : option Z;
  xr_State : RawMessage;
  xr_MessageIntents : list JourneyMessageIntent
}.

(** [ai.GenerateRequest], the fields this caller sets, and the response. *)
Record GenerateRequest : Type := MkGenerateRequest {
  gr_PromptVersionID : string; gr_Prompt : string; gr_OutputSchema : json;
  gr_Timeout : Z; gr_MaxCostCents : Z; gr_Action : string; gr_Purpose : string
}.
Record GenerateResponse : Type := MkGenerateResponse {
  gs_Content : RawMessage; gs_ActivityID : string
}.
Definition Gateway (W : Type) : Type := Principal -> GenerateRequest -> M W (option GenerateResponse).
(** [InvokeWithScope]: the response bytes, the activity id and the error. *)
Definition ExtensionHost (W : Type) : Type :=
  Principal -> string -> string -> string -> json -> W -> (RawMessage * string * option error) * W.

Definition findNextNode (graph : Graph) (fromID branch : string) : result string :=
  match find_first (fun edge => (From edge =s fromID) && (Branch edge =s branch)) (Edges graph) with
  | Some edge => Ok (To edge)
  | None => Err (Errorf "no edge from %s with branch %q" [AStr fromID; AStr branch])
  end.

(** The [domain.JourneyStep] literal of every case. *)
Definition new_step (run : JourneyRun) (nodeID kind : string) (availableAt : Z) : JourneyStep :=
  MkJourneyStep "" (run_ID run) (run_TenantID run) nodeID kind "pending" 0 availableAt None None
    Time.zero Time.zero.
(** The [domain.JourneyTransition] literal of every case. *)
Definition new_trans (run : JourneyRun) (n : Node) (toNode : option string) (nodeType outcome : string)
    (detail : json) : JourneyTransition :=
  MkJourneyTransition "" (run_ID run) (run_TenantID run) (Some (ID n)) toNode nodeType outcome
    (Raw detail) Time.zero.

(** A result that goes on to [next]: the variables a case leaves alone keep
    the values they are initialised with. *)
Definition advanced (run : JourneyRun) (n : Node) (next nodeType outcome : string) (at_ : Z)
    (detail : json) : ExecutionResult :=
  MkExecutionResult next (Some (new_step run next "advance" at_))
    (new_trans run n (Some next) nodeType outcome detail)
    (run_Status run) (run_CompletedAt run) (run_GoalReached run) None None (run_State run) [].

Definition obj0 : json := JObject [].

(** Find the successor on [branch] and advance to it. *)
Definition follow (graph : Graph) (run : JourneyRun) (n : Node) (errfmt : string) (branch : string)
    (nodeType outcome : string) (at_ : Z) (detail : json) : result ExecutionResult :=
  match findNextNode graph (ID n) branch with
  | Ok nxt => Ok (advanced run n nxt nodeType outcome at_ detail)
  | Err e => Err (Errorf errfmt [AStr branch; AWrap e])
  end.
Definition follow1 graph run n nodeType outcome at_ : result ExecutionResult :=
  wrapw "find successor: %w" (nxt ← findNextNode graph (ID n) "";
                              Ok (advanced run n nxt nodeType outcome at_ obj0)).
Definition branch_fmt : string := "find successor branch %q: %w".

(** The switch variables of a result, updated. *)
Definition with_status s c r := MkExecutionResult (xr_NextNodeID r) (xr_NextStep r) (xr_Transition r)
  s c (xr_GoalReached r) (xr_WaitEventType r) (xr_WaitUntil r) (xr_State r) (xr_MessageIntents r).
Definition with_goal r := MkExecutionResult (xr_NextNodeID r) (xr_NextStep r) (xr_Transition r)
  (xr_NextStatus r) (xr_CompletedAt r) true (xr_WaitEventType r) (xr_WaitUntil r) (xr_State r) (xr_MessageIntents r).
Definition with_state st r := MkExecutionResult (xr_NextNodeID r) (xr_NextStep r) (xr_Transition r)
  (xr_NextStatus r) (xr_CompletedAt r) (xr_GoalReached r) (xr_WaitEventType r) (xr_WaitUntil r) st (xr_MessageIntents r).
Definition with_intents tr intents r := MkExecutionResult (xr_NextNodeID r) (xr_NextStep r) tr
  (xr_NextStatus r) (xr_CompletedAt r) (xr_GoalReached r) (xr_WaitEventType r) (xr_WaitUntil r) (xr_State r) intents.

(** ** Branch choices that are pure *)

(** Decode [{"branch": ...}] and take it if it is a declared label. *)
Definition declared_branch (content : RawMessage) (branches : list string) : option string :=
  match Json.Unmarshal [("branch", Json.set_string (fun v _ => v))] "" content with
  | Ok b => find_first (fun declared => b =s declared) branches
  | Err _ => None
  end.

(** [mode == "random"]. *)
Fixpoint pick_random (bucket cumulative : Z) (brs : list SplitBranch) : string :=
  match brs with
  | [] => ""
  | br :: rest =>
      let cumulative := u64 (cumulative + u64 (sb_Weight br)) in
      if bucket <? cumulative then sb_Label br else pick_random bucket cumulative rest
  end.
(** [if branch == "" && len(cfg.Branches) > 0 { branch = last label }]. *)
Definition or_last (branch : string) (brs : list SplitBranch) : string :=
  if branch =s "" then match last brs with Some br => sb_Label br | None => branch end else branch.
Definition random_branch (bucket : Z) (brs : list SplitBranch) : string :=
  or_last (pick_random bucket 0 brs) brs.

(** [stateMap[n.ID] = branch] on the decoded run state. *)
Definition record_branch (state : RawMessage) (id branch : string) : result RawMessage :=
  stateMap ← (if raw_len0 state || raw_is_empty_object state || raw_is_null state then Ok []
              else wrapw "unmarshal state: %w" (m ← Json.Unmarshal_map state; Ok (default [] m)));
  Ok (Raw (Json.marshal (JObject (stateMap ++ [(id, JString branch)])))).

Section Execute.
Context {W : Type} `{NodeStore W}.

Definition run_principal (run : JourneyRun) : Principal :=
  MkPrincipal (run_TenantID run) (run_WorkspaceID run) "" "" "" "" [].

Definition exec_delay (n : Node) run graph (now : Z) : M W ExecutionResult :=
  cfg ← lift (decode_delay n);
  dur ← lift (match Time.ParseDuration (dc_Duration cfg) with
              | Ok d => Ok d
              | Err e => Err (Errorf "invalid delay duration %q: %w" [AStr (dc_Duration cfg); AWrap e])
              end);
  lift (follow1 graph run n NodeTypeDelay "waited" (Time.Add now dur)).

Definition exec_condition (n : Node) run graph (now : Z) : M W ExecutionResult :=
  cfg ← lift (decode_condition n);
  matched ← wrapM "evaluate condition: %w" (EvaluateAudience (run_principal run) (run_ProfileID run) (cc_DSL cfg));
  let branch := if matched : bool then "true" else "false" in
  lift (follow graph run n branch_fmt branch NodeTypeCondition ("branch:" +:+ branch) now obj0).

(** The schema of an AI decision's answer: an object whose [branch] is one
    of the labels. *)
Definition decision_schema (branches : list string) : json :=
  JObject [("additionalProperties", JBool false);
           ("properties", JObject [("branch", JObject [("enum", match branches with [] => JNull | _ => JArray (JString <$> branches) end); ("type", JString "string")])]);
           ("required", JArray [JString "branch"]);
           ("type", JString "object")].

Definition ai_choose (gateway : option (Gateway W)) (run : JourneyRun) (cfg : AIDecisionConfig)
    : M W (string * string) := fun w =>
  match gateway with
  | Some generate =>
      if negb (ai_PromptVersionID cfg =s "") && (0 <? ai_TimeoutMS cfg) then
        match generate (run_principal run)
                (MkGenerateRequest (ai_PromptVersionID cfg) (ai_Prompt cfg) (decision_schema (ai_Branches cfg))
                   (Validate.ms_duration (ai_TimeoutMS cfg)) (ai_MaxCostCents cfg)
                   "ai.journey_decision" "journey_decision") w with
        | (Ok (Some response), w') =>
            (Ok (default (ai_Fallback cfg) (declared_branch (gs_Content response) (ai_Branches cfg)),
                 gs_ActivityID response), w')
        | (_, w') => (Ok (ai_Fallback cfg, ""), w')
        end
      else (Ok (ai_Fallback cfg, ""), w)
  | None => (Ok (ai_Fallback cfg, ""), w)
  end.

Definition exec_ai (gateway : option (Gateway W)) (n : Node) run graph (now : Z) : M W ExecutionResult :=
  cfg ← lift (decode_ai n);
  c ← ai_choose gateway run cfg;
  let '(branch, activityID) := c in
  lift (follow graph run n branch_fmt branch NodeTypeAIDecision ("branch:" +:+ branch) now
          (JObject [("ai_activity_id", JString activityID)])).

Definition extension_input (run : JourneyRun) (n : Node) (cfg : ExtensionNodeConfig) : result json :=
  config ← Json.of_raw (xn_Config cfg);
  Ok (JObject [("config", config); ("node_id", JString (ID n)); ("node_type", JString (Type_ n));
               ("profile_id", JString (run_ProfileID run)); ("run_id", JString (run_ID run));
               ("tenant_id", JString (run_TenantID run)); ("workspace_id", JString (run_WorkspaceID run))]).

Definition extension_choose (extHost : option (ExtensionHost W)) (run : JourneyRun) (n : Node)
    (cfg : ExtensionNodeConfig) : M W (string * string) := fun w =>
  match extHost with
  | Some invoke =>
      if negb (xn_ExtensionID cfg =s "") && (0 <? xn_TimeoutMS cfg) then
        match extension_input run n cfg with
        | Ok inputPayload =>
            match invoke (MkPrincipal (run_TenantID run) (run_WorkspaceID run) "" "" "" "system" [])
                    (xn_ExtensionID cfg) "decide" "journeys:write" inputPayload w with
            | ((responseBytes, actID, err), w') =>
                let branch :=
                  match err with
                  | None => if negb (raw_len0 responseBytes)
                            then default (xn_Fallback cfg) (declared_branch responseBytes (xn_Branches cfg))
                            else xn_Fallback cfg
                  | Some _ => xn_Fallback cfg
                  end in
                (Ok (branch, actID), w')
            end
        | Err _ => (Ok (xn_Fallback cfg, ""), w)
        end
      else (Ok (xn_Fallback cfg, ""), w)
  | None => (Ok (xn_Fallback cfg, ""), w)
  end.

Definition exec_extension (extHost : option (ExtensionHost W)) (n : Node) run graph (now : Z) : M W ExecutionResult :=
  cfg ← lift (decode_extension n);
  c ← extension_choose extHost run n cfg;
  let '(branch, activityID) := c in
  lift (follow graph run n branch_fmt branch (Type_ n) ("branch:" +:+ branch) now
          (JObject [("extension_activity_id", JString activityID)])).

(** The experiment lookup, assignment and recording shared by the split and
    message cases. *)
Definition assign_experiment (what1 what2 : string) (run : JourneyRun) (experimentID : string)
    : M W (Experiment * ExperimentAssignment) :=
  exp ← wrapM what1 (GetExperiment (run_principal run) experimentID);
  let variants := (fun c => Experiment.MkVariant (xv_Label c) (xv_Weight c)) <$> exp_Variants exp in
  let '(computed, _) := Experiment.Assign (exp_Seed exp) (run_ProfileID run) variants (exp_HoldoutPct exp) in
  stored ← wrapM what2 (AssignExperiment (run_principal run) (exp_ID exp) (run_ProfileID run) computed);
  mret (exp, stored).

(** The [mode == "audience"] loop: a branch without a segment is
    remembered and the walk goes on; a matching segment ends it. *)
Fixpoint pick_audience (run : JourneyRun) (branch : string) (brs : list SplitBranch) : M W string :=
  match brs with
  | [] => mret branch
  | br :: rest =>
      if sb_SegmentID br =s "" then pick_audience run (sb_Label br) rest
      else
        matched ← wrapM "check segment membership: %w"
                    (IsProfileInSegment (run_principal run) (sb_SegmentID br) (run_ProfileID run));
        if matched : bool then mret (sb_Label br) else pick_audience run branch rest
  end.

Definition split_choose (n : Node) (run : JourneyRun) (cfg : SplitConfig) : M W string :=
  if negb (sc_ExperimentID cfg =s "") then
    p ← assign_experiment "get split experiment: %w" "record split experiment assignment: %w" run (sc_ExperimentID cfg);
    mret (xa_Variant p.2)
  else if sc_Mode cfg =s "random" then
    mret (random_branch (Experiment.BucketOf (run_ProfileID run +:+ ":" +:+ ID n) 100) (sc_Branches cfg))
  else if sc_Mode cfg =s "audience" then
    branch ← pick_audience run "" (sc_Branches cfg);
    mret (or_last branch (sc_Branches cfg))
  else throw (Errorf "unsupported split mode %q" [AStr (sc_Mode cfg)]).

Definition exec_split (n : Node) (run : JourneyRun) graph (now : Z) : M W ExecutionResult :=
  cfg ← lift (decode_split n);
  branch ← split_choose n run cfg;
  res ← lift (follow graph run n branch_fmt branch NodeTypeSplit ("branch:" +:+ branch) now obj0);
  nextState ← lift (record_branch (run_State run) (ID n) branch);
  mret (with_state nextState res).

(** The payload of the [profile.updated] event. *)
Definition attributes_payload (set_ : option (list (string * json))) : RawMessage :=
  Raw (JObject [("attributes", match set_ with Some l => Json.marshal (JObject l) | None => JNull end)]).

Definition exec_action (n : Node) run graph (now : Z) : M W ExecutionResult :=
  cfg ← lift (decode_action n);
  if negb (ac_Action cfg =s "profile_update")
  then throw (Errorf "unsupported action type: %s" [AStr (ac_Action cfg)])
  else
    _ ← wrapM "update profile attributes: %w"
          (UpdateProfileAttributes (run_principal run) (run_ProfileID run) (ac_Set cfg));
    _ ← wrapM "emit profile.updated event: %w"
          (AcceptEvents (run_principal run)
             [MkEvent "profile.updated" 1 (run_ID run) ""
                ("journey-action:" +:+ run_ID run +:+ ":" +:+ ID n) now "" "" "" "" "" "" RawEmpty
                (attributes_payload (ac_Set cfg))]);
    lift (follow1 graph run n NodeTypeAction "advanced" now).

(** [attrs[key].(string)] when it is not empty. *)
Definition attr_endpoint (attrs : list (string * json)) (key : string) : list string :=
  match Json.nonempty_string (Json.lookup key attrs) with Some s => [s] | None => [] end.

Definition profile_attrs (profile : Profile) : result (list (string * json)) :=
  if negb (raw_len0 (prof_Attributes profile)) && negb (raw_is_null (prof_Attributes profile))
  then wrapw "unmarshal profile attributes: %w" (m ← Json.Unmarshal_map (prof_Attributes profile); Ok (default [] m))
  else Ok [].

Definition message_endpoints (run : JourneyRun) (attrs : list (string * json)) (channel : string)
    : M W (list string) :=
  endpoints ←
    (if channel =s "email" then mret (attr_endpoint attrs "email")
     else if channel =s "sms" then mret (attr_endpoint attrs "phone")
     else if channel =s "push" then
       tokens ← wrapM "list active device tokens for message node: %w"
                  (ListActiveDeviceTokens (run_TenantID run) (run_WorkspaceID run) (run_ProfileID run));
       mret (dt_Token <$> tokens)
     else if channel =s "in_app" then mret [run_ProfileID run]
     else mret (attr_endpoint attrs channel));
  mret (match endpoints with [] => [""] | _ => endpoints end).

(** The template the variant overrides, when it names one. *)
Definition variant_template (templateID variant : string) (variants : list ExperimentVariant) : string :=
  match find_first (fun c => (xv_Label c =s variant) &&
                             match xv_TemplateID c with Some t => negb (t =s "") | None => false end) variants with
  | Some c => default templateID (xv_TemplateID c)
  | None => templateID
  end.

Definition message_variant (run : JourneyRun) (cfg : MessageConfig)
    : M W (string * option string * string * bool) :=
  if negb (mc_ExperimentID cfg =s "") then
    p ← assign_experiment "get message experiment: %w" "record message experiment assignment: %w" run (mc_ExperimentID cfg);
    let variant := xa_Variant p.2 in
    mret (variant_template (mc_TemplateID cfg) variant (exp_Variants p.1), Some (exp_ID p.1), variant, variant =s "holdout")
  else mret (mc_TemplateID cfg, None, "", false).

Definition new_intent (n : Node) (run : JourneyRun) (now : Z) (templateID : string) (experimentID : option string)
    (variant channel : string) (transactional holdout : bool) (endpoint : string) : JourneyMessageIntent :=
  MkJourneyMessageIntent "" (run_ID run) (run_TenantID run) (run_WorkspaceID run) (run_JourneyID run)
    (run_JourneyVersionID run) (ID n) (run_ProfileID run) experimentID variant templateID channel endpoint
    transactional (if holdout then "completed" else "pending") 0 now None
    (if holdout then Some "holdout" else None) (if holdout then Some (lit "experiment holdout") else None)
    None (Raw obj0) None 0 Time.zero Time.zero.

Definition exec_message (n : Node) run graph (now : Z) : M W ExecutionResult :=
  cfg ← lift (decode_message n);
  v ← message_variant run cfg;
  let '(templateID, experimentID, variant, holdout) := v in
  profile ← wrapM "get profile for message node: %w"
              (GetProfileByIDSystem (run_TenantID run) (run_WorkspaceID run) (run_ProfileID run));
  attrs ← lift (profile_attrs profile);
  let channel := if mc_Channel cfg =s "" then "email" else mc_Channel cfg in
  endpoints ← message_endpoints run attrs channel;
  res ← lift (follow1 graph run n NodeTypeMessage "intent_created" now);
  let trans := if holdout : bool then set_tr_Outcome "holdout" (xr_Transition res) else xr_Transition res in
  mret (with_intents trans
          (new_intent n run now templateID experimentID variant channel (mc_Transactional cfg) holdout <$> endpoints) res).

Definition exec_wait (n : Node) run graph (now : Z) (stepKind : string) : M W ExecutionResult :=
  cfg ← lift (decode_wait n);
  duration ← lift (match Time.ParseDuration (wc_Timeout cfg) with
                   | Ok d => Ok d
                   | Err e => Err (Errorf "invalid timeout duration %q: %w" [AStr (wc_Timeout cfg); AWrap e])
                   end);
  let timeoutAt := Time.Add now duration in
  if stepKind =s "timeout" then
    res ← lift (wrapw "find successor branch timeout: %w"
                  (nxt ← findNextNode graph (ID n) "timeout";
                   Ok (advanced run n nxt NodeTypeWaitEvent "timeout" now obj0)));
    mret (with_status "active" (xr_CompletedAt res) res)
  else
    mret (MkExecutionResult (ID n) (Some (new_step run (ID n) "timeout" timeoutAt))
            (new_trans run n None NodeTypeWaitEvent "waiting" obj0) "waiting" (run_CompletedAt run)
            (run_GoalReached run) (Some (wc_EventType cfg)) (Some timeoutAt) (run_State run) []).

Definition exec_flag (n : Node) run graph (now : Z) : M W ExecutionResult :=
  cfg ← lift (decode_flag n);
  if fn_FlagKey cfg =s "" then throw (errors_New "feature_flag node requires flag_key")
  else
    appID ← wrapM "get app id: %w" (GetFirstAppID (run_TenantID run) (run_WorkspaceID run));
    flagList ← wrapM "list active flags: %w" (ListActiveFlags (run_TenantID run) appID "production");
    match find_first (fun f => ff_Key f =s fn_FlagKey cfg) flagList with
    | None => throw (Errorf "feature flag %q not found or not published" [AStr (fn_FlagKey cfg)])
    | Some flag =>
        (* journeyEvalAudienceAdapter *)
        result ← wrapM "evaluate flag: %w"
                   (@Flags.Evaluate W (EvaluateAudience (set_p_AppID appID (run_principal run))) flag (run_ProfileID run));
        let branch := if Flags.er_Variant result =s "" then "default" else Flags.er_Variant result in
        lift (follow graph run n branch_fmt branch NodeTypeFeatureFlag ("branch:" +:+ branch) now obj0)
    end.

Definition exec_exit (n : Node) (run : JourneyRun) (now : Z) : ExecutionResult :=
  MkExecutionResult "" None (new_trans run n None NodeTypeExit "exited" obj0) "completed" (Some now)
    (run_GoalReached run) None None (run_State run) [].

(** [execute], and with it [ExecuteWithGateway] and, with no gateway and no
    host, [Execute]. *)
Definition execute (gateway : option (Gateway W)) (extHost : option (ExtensionHost W))
    (n : Node) (run : JourneyRun) (graph : Graph) (now : Z) (stepKind : string) : M W ExecutionResult :=
  let t := Type_ n in
  if t =s NodeTypeEntry then lift (follow1 graph run n NodeTypeEntry "advanced" now)
  else if t =s NodeTypeDelay then exec_delay n run graph now
  else if t =s NodeTypeCondition then exec_condition n run graph now
  else if t =s NodeTypeAIDecision then exec_ai gateway n run graph now
  else if (t =s NodeTypeExtensionAction) || (t =s NodeTypeExtensionCondition)
    then exec_extension extHost n run graph now
  else if t =s NodeTypeSplit then exec_split n run graph now
  else if t =s NodeTypeAction then exec_action n run graph now
  else if t =s NodeTypeGoal then
    res ← lift (follow1 graph run n NodeTypeGoal "goal_reached" now); mret (with_goal res)
  else if t =s NodeTypeExit then mret (exec_exit n run now)
  else if t =s NodeTypeMessage then exec_message n run graph now
  else if t =s NodeTypeWaitEvent then exec_wait n run graph now stepKind
  else if t =s NodeTypeFeatureFlag then exec_flag n run graph now
  else throw (Errorf "unsupported node type: %s" [AStr t]).
Definition Execute := execute None None.
End Execute.

(** ** What a result can look like *)

Lemma findNextNode_Ok graph id b t :
  findNextNode graph id b = Ok t -> exists e, e ∈ Edges graph /\ From e = id /\ Branch e = b /\ To e = t.
Proof.
  unfold findNextNode. destruct (find_first _ _) as [e|] eqn:E; [|discriminate]. intros H. inv_ok.
  apply find_first_Some in E as [Hin Hb]. apply andb_prop in Hb as [H1 H2].
  apply seqb_true in H1. apply seqb_true in H2. eauto 10.
Qed.

Lemma findNextNode_total graph id b :
  b ∈ Branch <$> Validate.edges_of id (Edges graph) -> is_Ok (findNextNode graph id b) = true.
Proof.
  intros (e & -> & He)%list_elem_of_fmap. apply list_elem_of_filter in He as [<- He].
  unfold findNextNode. destruct (find_first _ _) as [e'|] eqn:E; [done|].
  apply find_first_None in E. rewrite Forall_forall in E. apply E in He. by rewrite !seqb_refl in He.
Qed.

(** The three kinds of result. *)
Record advances (graph : Graph) (n : Node) (run : JourneyRun) (res : ExecutionResult) : Prop := {
  av_edge : Validate.edge_rel graph (ID n) (xr_NextNodeID res);
  av_to : tr_ToNode (xr_Transition res) = Some (xr_NextNodeID res);
  av_step : exists at_, xr_NextStep res = Some (new_step run (xr_NextNodeID res) "advance" at_);
  av_completed : xr_CompletedAt res = run_CompletedAt run;
  av_nowait : xr_WaitEventType res = None /\ xr_WaitUntil res = None
}.
Record waits (n : Node) (run : JourneyRun) (now : Z) (res : ExecutionResult) : Prop := {
  wt_type : Type_ n = NodeTypeWaitEvent;
  wt_stay : xr_NextNodeID res = ID n;
  wt_status : xr_NextStatus res = "waiting";
  wt_to : tr_ToNode (xr_Transition res) = None;
  wt_step : exists c d, decode_wait n = Ok c /\ Time.ParseDuration (wc_Timeout c) = Ok d /\
    xr_NextStep res = Some (new_step run (ID n) "timeout" (now + d)) /\
    xr_WaitEventType res = Some (wc_EventType c) /\ xr_WaitUntil res = Some (now + d);
  wt_completed : xr_CompletedAt res = run_CompletedAt run
}.
Record exits (n : Node) (now : Z) (res : ExecutionResult) : Prop := {
  ex_type : Type_ n = NodeTypeExit;
  ex_stay : xr_NextNodeID res = "";
  ex_step : xr_NextStep res = None;
  ex_status : xr_NextStatus res = "completed";
  ex_to : tr_ToNode (xr_Transition res) = None;
  ex_completed : xr_CompletedAt res = Some now
}.
Record result_ok (graph : Graph) (n : Node) (run : JourneyRun) (now : Z) (stepKind : string)
    (res : ExecutionResult) : Prop := {
  ro_run : tr_RunID (xr_Transition res) = run_ID run;
  ro_from : tr_FromNode (xr_Transition res) = Some (ID n);
  ro_kind : (advances graph n run res /\ xr_NextStatus res = (if (Type_ n =s NodeTypeWaitEvent) then "active" else run_Status run) /\
               (Type_ n = NodeTypeWaitEvent -> stepKind = "timeout")) \/
            (waits n run now res /\ stepKind <> "timeout") \/ exits n now res;
  ro_intents : xr_MessageIntents res <> [] -> Type_ n = NodeTypeMessage;
  ro_intent : forall i, i ∈ xr_MessageIntents res ->
    mi_RunID i = run_ID run /\ mi_NodeID i = ID n /\ mi_ProfileID i = run_ProfileID run /\ mi_Attempts i = 0 /\
    (mi_Status i = "pending" /\ mi_Decision i = None /\ mi_Variant i <> "holdout" \/
     mi_Status i = "completed" /\ mi_Decision i = Some "holdout" /\ mi_Variant i = "holdout")
}.

Lemma advanced_advances graph n run nxt typ out at_ d :
  Validate.edge_rel graph (ID n) nxt -> advances graph n run (advanced run n nxt typ out at_ d).
Proof. intros He. constructor; simpl; eauto. Qed.

(** A result built by [advanced], possibly with other goal, state or
    intents. *)
Lemma advanced_ok graph n run nxt typ out at_ d now k :
  Validate.edge_rel graph (ID n) nxt -> Type_ n <> NodeTypeWaitEvent ->
  result_ok graph n run now k (advanced run n nxt typ out at_ d).
Proof.
  intros He Ht. constructor; simpl; [done | done | | done | set_solver].
  left. split; [by apply advanced_advances|]. apply seqb_false in Ht as Ht'. by rewrite Ht'.
Qed.

Lemma follow1_ok graph run n typ out at_ now k res :
  follow1 graph run n typ out at_ = Ok res -> Type_ n <> NodeTypeWaitEvent ->
  result_ok graph n run now k res.
Proof.
  unfold follow1. rewrite wrapw_Ok. intros H Ht. apply bind_Ok in H as (nxt & Hn & H). inv_M.
  apply findNextNode_Ok in Hn as (e & ? & ? & _ & ?). apply advanced_ok; [|done]. exists e. auto.
Qed.

Lemma follow_ok graph run n f b typ out at_ d now k res :
  follow graph run n f b typ out at_ d = Ok res -> Type_ n <> NodeTypeWaitEvent ->
  result_ok graph n run now k res.
Proof.
  unfold follow. destruct (findNextNode _ _ _) as [nxt|] eqn:Hn; [|discriminate]. intros H Ht. inv_ok.
  apply findNextNode_Ok in Hn as (e & ? & ? & _ & ?). apply advanced_ok; [|done]. exists e. auto.
Qed.

Lemma with_goal_ok graph n run now k r :
  result_ok graph n run now k r -> result_ok graph n run now k (with_goal r).
Proof.
  intros [? ? Hk ? ?]. constructor; try done.
  destruct Hk as [([] & Hs & Hw)|[([] & Hs)|[]]]; [left|right; left|right; right].
  - split; [constructor; done | done].
  - split; [constructor; done | done].
  - constructor; done.
Qed.
Lemma with_state_ok graph n run now k r st :
  result_ok graph n run now k r -> result_ok graph n run now k (with_state st r).
Proof.
  intros [? ? Hk ? ?]. constructor; try done.
  destruct Hk as [([] & Hs & Hw)|[([] & Hs)|[]]]; [left|right; left|right; right].
  - split; [constructor; done | done].
  - split; [constructor; done | done].
  - constructor; done.
Qed.

(** Walk through a successful computation, naming each step's result. *)
Ltac walk H :=
  repeat match type of H with
  | mbind _ _ _ = (Ok _, _) =>
      let a := fresh "v" in let w1 := fresh "w" in let E := fresh "E" in
      apply bindM_Ok in H as (a & w1 & E & H); cbv beta in H
  | (let '(_, _) := ?p in _) _ = _ => destruct p
  end; inv_M.

Section Shape.
Context {W : Type} `{NodeStore W}.

Lemma exec_wait_ok graph n run now k (w : W) res w' :
  exec_wait n run graph now k w = (Ok res, w') -> Type_ n = NodeTypeWaitEvent ->
  result_ok graph n run now k res.
Proof.
  intros Hx Ht. unfold exec_wait in Hx. walk Hx.
  destruct (Time.ParseDuration (wc_Timeout v)) as [d|e] eqn:Ed; [|inv_M]. inv_M.
  destruct (k =s "timeout") eqn:Ek.
  - apply seqb_true in Ek. walk Hx. match goal with E : wrapw _ _ = Ok _ |- _ => apply wrapw_Ok, bind_Ok in E as (nxt & Hn & E) end. inv_M.
    apply findNextNode_Ok in Hn as (e & ? & ? & _ & ?).
    constructor; simpl; [done | done | | done | set_solver]. left. rewrite Ht.
    split; [|done]. constructor; simpl; eauto. exists e. auto.
  - apply seqb_false in Ek. inv_M. constructor; simpl; [done | done | | done | set_solver].
    right. left. split; [|done]. constructor; simpl; eauto 10.
Qed.

Lemma message_intent_ok n run now t x v c tr (h : bool) ep :
  h = (v =s "holdout") ->
  let i := new_intent n run now t x v c tr h ep in
  mi_RunID i = run_ID run /\ mi_NodeID i = ID n /\ mi_ProfileID i = run_ProfileID run /\ mi_Attempts i = 0 /\
  (mi_Status i = "pending" /\ mi_Decision i = None /\ mi_Variant i <> "holdout" \/
   mi_Status i = "completed" /\ mi_Decision i = Some "holdout" /\ mi_Variant i = "holdout").
Proof.
  intros Hh. repeat split. symmetry in Hh. destruct h; [right; apply seqb_true in Hh | left; apply seqb_false in Hh]; by repeat split.
Qed.

Lemma message_variant_holdout run cfg w t x v h w' :
  message_variant run cfg w = (Ok (t, x, v, h), w') -> h = (v =s "holdout").
Proof.
  unfold message_variant. destruct (negb _); intros Hx; [|by inv_M].
  by walk Hx.
Qed.

Lemma exec_message_ok graph n run now k w res w' :
  exec_message n run graph now w = (Ok res, w') -> Type_ n = NodeTypeMessage ->
  result_ok graph n run now k res.
Proof.
  intros Hx Ht. unfold exec_message in Hx. walk Hx.
  match goal with E : message_variant _ _ _ = _ |- _ => apply message_variant_holdout in E as Hh end.
  match goal with E : follow1 _ _ _ _ _ _ = Ok _ |- _ =>
    apply (follow1_ok _ _ _ _ _ _ now k) in E; [destruct E as [Hr Hf Hk _ _]|by rewrite Ht] end.
  constructor; simpl.
  - destruct b; exact Hr.
  - destruct b; exact Hf.
  - destruct Hk as [([] & Hs & Hw)|[([Hwt] & Hs)|[Hex]]]; [left | by rewrite Ht in Hwt | by rewrite Ht in Hex].
    split; [constructor; simpl; try done; by destruct b | done].
  - done.
  - intros i (ep & -> & _)%list_elem_of_fmap. by apply message_intent_ok.
Qed.

Lemma execute_result gateway extHost n run graph now k w res w' :
  execute gateway extHost n run graph now k w = (Ok res, w') -> result_ok graph n run now k res.
Proof.
  unfold execute. intros Hx.
  repeat match type of Hx with
  | (if ?a =s ?b then _ else _) _ = _ =>
      let E := fresh "T" in destruct (a =s b) eqn:E; [apply seqb_true in E|clear E]
  | (if ?x || ?y then _ else _) _ = _ =>
      let E := fresh "T" in destruct (x || y) eqn:E; [|clear E]
  end.
  - inv_M. eapply follow1_ok; [done | by rewrite T].
  - unfold exec_delay in Hx. walk Hx. eapply follow1_ok; [done | by rewrite T].
  - unfold exec_condition in Hx. walk Hx. eapply follow_ok; [done | by rewrite T].
  - unfold exec_ai in Hx. walk Hx. eapply follow_ok; [done | by rewrite T].
  - unfold exec_extension in Hx. walk Hx. eapply follow_ok; [done|].
    apply orb_true_iff in T as [T|T]; apply seqb_true in T; by rewrite T.
  - unfold exec_split in Hx. walk Hx. apply with_state_ok. eapply follow_ok; [done | by rewrite T].
  - unfold exec_action in Hx. walk Hx. destruct (negb _); [by inv_M|]. walk Hx.
    eapply follow1_ok; [done | by rewrite T].
  - walk Hx. apply with_goal_ok. eapply follow1_ok; [done | by rewrite T].
  - inv_M. constructor; simpl; [done | done | | done | set_solver]. right. right. by constructor.
  - by eapply exec_message_ok.
  - by eapply exec_wait_ok.
  - unfold exec_flag in Hx. walk Hx. destruct (_ =s ""); [by inv_M|]. walk Hx.
    destruct (find_first _ _); [|by inv_M]. walk Hx. eapply follow_ok; [done | by rewrite T].
  - by inv_M.
Qed.
(** C7: Whatever a node's execution answers is one of three results: the
    run advances along an edge of the graph that leaves the node, with a
    pending [advance] step at the edge's target (and, from a wait, only on
    its timeout step); or it waits at a [wait_event] node with a pending
    [timeout] step due when its parsed timeout has passed; or, at an
    [exit] node, it completes with no further step.  The transition always
    names the run and the node, only message nodes create intents, and an
    intent is born completed, as held out, exactly when its variant is
    "holdout", and pending otherwise. *)
Theorem execute_result_ok gateway extHost n run graph now k w res w' :
  execute gateway extHost n run graph now k w = (Ok res, w') -> result_ok graph n run now k res.
Proof. apply execute_result. Qed.
End Shape.

(** ** When execution cannot fail *)

Section Total.
Context {W : Type} `{NodeStore W}.
Context (g : Graph) (Hg : Validate.Valid g).

Lemma branch_total n ls b :
  n ∈ Nodes g -> Validate.branches_required n = Some ls -> b ∈ ls ->
  exists t, findNextNode g (ID n) b = Ok t.
Proof.
  intros Hn Hr Hb. destruct (Validate.val_out g Hg n Hn) as [Ho _].
  unfold Validate.out_ok in Ho. rewrite Hr in Ho. destruct Ho as [Hp _].
  rewrite <- Hp in Hb. apply findNextNode_total in Hb.
  destruct (findNextNode g (ID n) b) as [t|e]; [eauto | discriminate].
Qed.

Lemma declared_branch_in content bs b : declared_branch content bs = Some b -> b ∈ bs.
Proof.
  unfold declared_branch. destruct (Json.Unmarshal _ _ _) as [b'|]; [|discriminate].
  intros E. by apply find_first_Some in E as [? _].
Qed.

(** Whatever the provider answers, the branch is the fallback or declared. *)
Lemma ai_choose_total gateway run cfg (w : W) :
  exists b a w', ai_choose gateway run cfg w = (Ok (b, a), w') /\
    (b = ai_Fallback cfg \/ b ∈ ai_Branches cfg).
Proof.
  unfold ai_choose. destruct gateway as [generate|]; [|eauto 10].
  destruct (_ && _); [|eauto 10].
  destruct (generate _ _ w) as [[[resp|]|e] w']; [|eauto 10..].
  do 3 eexists. split; [done|].
  destruct (declared_branch _ _) as [b|] eqn:E; [right | by left].
  by apply declared_branch_in in E.
Qed.

Lemma extension_choose_total extHost run n cfg (w : W) :
  exists b a w', extension_choose extHost run n cfg w = (Ok (b, a), w') /\
    (b = xn_Fallback cfg \/ b ∈ xn_Branches cfg).
Proof.
  unfold extension_choose. destruct extHost as [invoke|]; [|eauto 10].
  destruct (_ && _); [|eauto 10]. destruct (extension_input _ _ _) as [inp|]; [|eauto 10].
  destruct (invoke _ _ _ _ _ w) as [[[bytes act] err] w'].
  do 3 eexists. split; [done|]. destruct err; [by left|].
  destruct (negb _); [|by left].
  destruct (declared_branch _ _) as [b|] eqn:E; [right | by left].
  by apply declared_branch_in in E.
Qed.

Lemma duration_total id f raw :
  Validate.validateDuration id f raw = Ok () -> exists d, Time.ParseDuration raw = Ok d /\ 0 <= d.
Proof.
  unfold Validate.validateDuration. destruct (Time.ParseDuration raw) as [d|]; [|discriminate].
  destruct (d <? 0) eqn:E; [discriminate|]. intros _. exists d. split; [done | lia].
Qed.

(** What validation knows of the node's configuration. *)
Lemma valid_node n : n ∈ Nodes g ->
  exists c, DecodeConfig n = Ok c /\ Type_ n ∈ types_of c /\ decoded n c /\ Validate.validateDurations n = Ok ().
Proof.
  intros Hn. destruct (Validate.val_nodes g Hg n Hn) as [_ (c & Hc & Hk)].
  exists c. pose proof (DecodeConfig_shape n c Hc) as [? ?]. apply (Validate.node_checks_Ok g n c Hc) in Hk as [_ ?]. auto.
Qed.

Definition self_sufficient : list string :=
  [NodeTypeEntry; NodeTypeDelay; NodeTypeGoal; NodeTypeExit; NodeTypeWaitEvent;
   NodeTypeAIDecision; NodeTypeExtensionAction; NodeTypeExtensionCondition].

(** On a published (validated) graph, entry, delay, goal, exit and wait
    nodes always execute, and so do AI decisions and extension nodes
    whatever their provider does: no gateway, an error, a malformed answer
    or an undeclared label all fall back to a branch that has an edge.  A
    provider failure never enters the step's retry path. *)
Theorem execute_total gateway extHost n run now k (w : W) :
  n ∈ Nodes g -> Type_ n ∈ self_sufficient ->
  exists res w', execute gateway extHost n run g now k w = (Ok res, w').
Proof.
  intros Hn Ht. destruct (valid_node n Hn) as (c & Hc & Hty & Hdec & Hdur).
  assert (Hbr := branch_total n). unfold Validate.branches_required in Hbr. rewrite Hc in Hbr.
  assert (Hfb : forall f, Validate.fallback_of n = Some f -> forall ls, Validate.branches_required n = Some ls -> f ∈ ls).
  { intros f Hf ls Hls. destruct (Validate.val_out g Hg n Hn) as [Ho _].
    unfold Validate.out_ok in Ho. rewrite Hls in Ho. by apply Ho. }
  unfold Validate.fallback_of, Validate.branches_required in Hfb. rewrite Hc in Hfb.
  assert (Hd := Hdur). unfold Validate.validateDurations in Hd. rewrite Hc in Hd.
  unfold execute, self_sufficient in *.
  destruct c; simpl in Hty;
    repeat (apply elem_of_cons in Hty as [Hty|Hty]); try (by apply not_elem_of_nil in Hty);
    rewrite Hty in *; try (exfalso; clear -Ht; set_solver);
    revert Hd; eval_str; cbn [mbind result_bind]; intros Hd; simpl in Hdec.
  - destruct (Hbr _ "" Hn eq_refl) as [t E]; [set_solver|]. unfold follow1. rewrite E. eauto.
  - destruct (duration_total _ _ _ Hd) as (d & Ep & _).
    destruct (Hbr _ "" Hn eq_refl) as [t E]; [set_solver|].
    unfold exec_delay, follow1, lift, mbind, M_bind. rewrite Hdec, Ep, E. simpl. eauto.
  - destruct (duration_total _ _ _ Hd) as (d & Ep & _).
    destruct (Hbr _ "timeout" Hn eq_refl) as [t E]; [set_solver|].
    unfold exec_wait, lift, mbind, M_bind. rewrite Hdec, Ep. destruct (k =s "timeout").
    + rewrite E. simpl. eauto.
    + simpl. eauto.
  - destruct (Hbr _ "" Hn eq_refl) as [t E]; [set_solver|]. unfold follow1, lift, mbind, M_bind. rewrite E. simpl. eauto.
  - eauto.
  - destruct (ai_choose_total gateway run c w) as (b & a & w' & Ea & Hb).
    destruct (Hbr _ b Hn eq_refl) as [t E].
    { destruct Hb as [->|]; [|done]. by apply (Hfb _ eq_refl). }
    unfold exec_ai, lift, mbind, M_bind. rewrite Hdec, Ea. unfold follow. rewrite E. simpl. eauto.
  - destruct (extension_choose_total extHost run n c w) as (b & a & w' & Ea & Hb).
    destruct (Hbr _ b Hn eq_refl) as [t E].
    { destruct Hb as [->|]; [|done]. by apply (Hfb _ eq_refl). }
    unfold exec_extension, lift, mbind, M_bind. rewrite Hdec, Ea. unfold follow. rewrite E. simpl. eauto.
  - destruct (extension_choose_total extHost run n c w) as (b & a & w' & Ea & Hb).
    destruct (Hbr _ b Hn eq_refl) as [t E].
    { destruct Hb as [->|]; [|done]. by apply (Hfb _ eq_refl). }
    unfold exec_extension, lift, mbind, M_bind. rewrite Hdec, Ea. unfold follow. rewrite E. simpl. eauto.
Qed.
End Total.

(** ** Splits *)

Definition weight_sum (brs : list SplitBranch) : Z := foldr (fun br acc => sb_Weight br + acc) 0 brs.
Definition weights_nonneg (brs : list SplitBranch) : Prop := Forall (fun br => 0 <= sb_Weight br) brs.
(** What validation demands of the labels. *)
Definition labels_ok (brs : list SplitBranch) : Prop :=
  NoDup (sb_Label <$> brs) /\ "" ∉ sb_Label <$> brs.

Lemma weight_sum_app l k : weight_sum (l ++ k) = weight_sum l + weight_sum k.
Proof. unfold weight_sum. induction l as [|br l IH]; simpl; [done | rewrite IH; lia]. Qed.

Lemma weight_sum_nonneg l : weights_nonneg l -> 0 <= weight_sum l.
Proof. intros H. unfold weight_sum. induction H; simpl in *; lia. Qed.

Lemma weights_nonneg_sub l k : l ⊆ k -> weights_nonneg k -> weights_nonneg l.
Proof. unfold weights_nonneg. rewrite !Forall_forall. auto. Qed.

(** The walk stops at the branch whose interval of running totals holds the
    bucket, or runs off the end. *)
Lemma pick_random_spec b cum brs :
  weights_nonneg brs -> 0 <= cum <= b -> cum + weight_sum brs < two64 ->
  (exists l1 br l2, brs = l1 ++ br :: l2 /\ pick_random b cum brs = sb_Label br /\
     cum + weight_sum l1 <= b < cum + weight_sum l1 + sb_Weight br) \/
  (pick_random b cum brs = "" /\ cum + weight_sum brs <= b).
Proof.
  intros Hn. revert cum. induction Hn as [|br brs Hw Hn IH]; intros cum Hc Hs; simpl.
  { right. split; [done|]. simpl in *. lia. }
  pose proof (weight_sum_nonneg brs Hn). simpl in Hs.
  rewrite (u64_small (sb_Weight br)), u64_small by (unfold two64 in *; lia).
  destruct (b <? cum + sb_Weight br) eqn:E.
  - left. exists [], br, brs. simpl. repeat split; try done; lia.
  - destruct (IH (cum + sb_Weight br)) as [(l1 & br' & l2 & -> & Hp & Hr)|[Hp Hr]]; [lia..| |].
    + left. exists (br :: l1), br', l2. simpl. repeat split; try done; lia.
    + right. split; [done | lia].
Qed.

(** Two decompositions around the same label are the same. *)
Lemma split_unique (l1 l2 k1 k2 : list SplitBranch) a b :
  NoDup (sb_Label <$> l1 ++ a :: l2) -> l1 ++ a :: l2 = k1 ++ b :: k2 -> sb_Label a = sb_Label b -> l1 = k1.
Proof.
  revert k1. induction l1 as [|x l1 IH]; intros [|y k1] Hnd E Hl; simpl in *; [done|..].
  - injection E as <- E. apply NoDup_cons in Hnd as [Hnd _]. exfalso. apply Hnd.
    rewrite E, Hl, fmap_app, elem_of_app. right. apply list_elem_of_here.
  - injection E as <- E. apply NoDup_cons in Hnd as [Hnd _]. exfalso. apply Hnd.
    rewrite fmap_app, elem_of_app. right. rewrite <- Hl. apply list_elem_of_here.
  - injection E as <- E. f_equal. apply NoDup_cons in Hnd as [_ Hnd]. by eapply IH.
Qed.

Lemma random_branch_iff l1 br l2 b :
  let brs := l1 ++ br :: l2 in
  labels_ok brs -> weights_nonneg brs -> weight_sum brs < two64 -> 0 <= b ->
  random_branch b brs = sb_Label br <->
  weight_sum l1 <= b /\ (l2 = [] \/ b < weight_sum l1 + sb_Weight br).
Proof.
  intros brs [Hnd He] Hn Hs Hb. unfold random_branch, or_last.
  assert (Hne : forall x, x ∈ brs -> sb_Label x <> "").
  { intros x Hx E. apply He. rewrite <- E. by apply list_elem_of_fmap_2. }
  assert (Hsum : weight_sum brs = weight_sum l1 + sb_Weight br + weight_sum l2).
  { unfold brs. rewrite weight_sum_app. simpl. lia. }
  assert (Hn2 : 0 <= weight_sum l2 /\ 0 <= sb_Weight br).
  { apply Forall_app in Hn as [_ Hn]. apply Forall_cons in Hn as [? Hn]. split; [by apply weight_sum_nonneg | done]. }
  destruct (pick_random_spec b 0 brs Hn) as [(k1 & x & k2 & E & -> & Hr)|[-> Hr]]; [lia|lia|..].
  - assert (Hx : x ∈ brs) by (rewrite E; apply elem_of_app; right; apply list_elem_of_here).
    rewrite (proj2 (seqb_false (sb_Label x) "") (Hne x Hx)). split.
    + intros El. assert (k1 = l1) as <- by (symmetry; by eapply (split_unique l1 l2 k1 k2 br x)).
      apply app_inv_head in E. injection E as -> ->. split; [lia | right; lia].
    + intros [Hlo Hhi]. destruct (decide (k1 = l1)) as [->|Hk].
      { apply app_inv_head in E. by injection E as -> ->. }
      exfalso. fold brs in E. unfold brs in E.
      apply app_eq_inv in E as [(l & -> & E)|(l & -> & E)].
      * destruct l as [|z l]; [by rewrite app_nil_r in Hk|]. injection E as -> E. 
        rewrite weight_sum_app in Hlo. simpl in Hlo.
        assert (0 <= weight_sum l); [|lia]. apply weight_sum_nonneg.
        apply (weights_nonneg_sub _ brs); [|done]. unfold brs. set_solver.
      * destruct l as [|z l]; [by rewrite app_nil_r in Hk|]. injection E as -> E.
        rewrite weight_sum_app in Hr. simpl in Hr.
        assert (0 <= weight_sum l).
        { apply weight_sum_nonneg, (weights_nonneg_sub _ brs); [|done]. unfold brs. rewrite E. set_solver. }
        destruct Hhi as [->|Hhi]; [by destruct l | lia].
  - cbn [seqb]. rewrite seqb_refl. simpl in Hr. destruct (last brs) as [y|] eqn:El.
    2:{ unfold brs in El. apply last_None in El. by destruct l1. }
    apply last_Some in El as [k El]. split.
    + intros Hl. assert (k = l1) as ->.
      { symmetry. eapply (split_unique l1 l2 k [] br y); [done | by rewrite <- El | done]. }
      unfold brs in El. apply app_inv_head in El. injection El as -> ->. split; [lia | by left].
    + intros [Hlo [->|Hhi]]; [|lia]. unfold brs in El. by apply app_inj_tail in El as [_ ->].
Qed.

(** A random split gives each branch exactly its weight's share of the
    hundred buckets: branch [br] owns the buckets between the weights before
    it and those weights plus its own, cut at 100; the last branch takes
    what is left. *)
Theorem split_random_share l1 br l2 :
  let brs := l1 ++ br :: l2 in
  labels_ok brs -> weights_nonneg brs -> weight_sum brs < two64 ->
  countb (fun b => random_branch b brs =s sb_Label br) (seqZ 0 100) =
  (match l2 with [] => 100 | _ => Z.min 100 (weight_sum l1 + sb_Weight br) end) - Z.min 100 (weight_sum l1).
Proof.
  intros brs Hl Hn Hs.
  assert (H1 : 0 <= weight_sum l1 /\ 0 <= sb_Weight br).
  { apply Forall_app in Hn as [Hn1 Hn2]. apply Forall_cons in Hn2 as [? _].
    split; [by apply weight_sum_nonneg | done]. }
  set (hi := match l2 with [] => 100 | _ => _ end).
  assert (Hhi : hi = 100 /\ l2 = [] \/ hi = Z.min 100 (weight_sum l1 + sb_Weight br) /\ l2 <> []).
  { unfold hi. destruct l2; auto. }
  rewrite <- (countb_interval (Z.min 100 (weight_sum l1)) hi 100) by lia.
  apply countb_ext. intros b Hb%elem_of_seqZ.
  pose proof (random_branch_iff l1 br l2 b Hl Hn Hs ltac:(lia)) as Hiff. fold brs in Hiff.
  apply eq_true_iff_eq. rewrite seqb_true, Hiff, andb_true_iff, Z.leb_le, Z.ltb_lt.
  destruct Hhi as [[-> ->]|[-> Hne]]; split; intros [? ?]; repeat split; try lia; try (by left).
  - match goal with H : _ \/ _ |- _ => destruct H; [done | lia] end.
Qed.

(** The audience split as a specification: the first branch whose segment
    holds the profile, else the last branch without a segment, else the
    last branch. *)
Definition audience_spec (member : string -> bool) (brs : list SplitBranch) : string :=
  match find_first (fun br => negb (sb_SegmentID br =s "") && member (sb_SegmentID br)) brs with
  | Some br => sb_Label br
  | None =>
      match last (filter (fun br => sb_SegmentID br = "") brs) with
      | Some br => sb_Label br
      | None => match last brs with Some br => sb_Label br | None => "" end
      end
  end.

Section Audience.
Context {W : Type} `{NodeStore W}.
Context (run : JourneyRun) (member : string -> bool).
Context (Hread : forall s (w : W), IsProfileInSegment (run_principal run) s (run_ProfileID run) w = (Ok (member s), w)).

Lemma pick_audience_spec br0 brs (w : W) :
  pick_audience run br0 brs w =
  (Ok (match find_first (fun br => negb (sb_SegmentID br =s "") && member (sb_SegmentID br)) brs with
       | Some br => sb_Label br
       | None => match last (filter (fun br => sb_SegmentID br = "") brs) with
                 | Some br => sb_Label br
                 | None => br0
                 end
       end), w).
Proof.
  revert br0. induction brs as [|br brs IH]; intros br0; [done|]. cbn [pick_audience find_first].
  rewrite filter_cons. destruct (sb_SegmentID br =s "") eqn:E.
  - apply seqb_true in E. rewrite decide_True by done. cbn [negb andb]. rewrite IH, last_cons.
    destruct (find_first _ brs); [done|]. by case_match.
  - apply seqb_false in E. rewrite decide_False by done. cbn [negb andb].
    unfold mbind, M_bind, wrapM. rewrite Hread. cbn [wrapw map_err].
    by destruct (member _); [|rewrite IH].
Qed.

(** An audience split of non-empty labels takes the branch of the
    first matching segment; a branch without a segment is the default
    wherever it stands in the list, the last of them if there are
    several; with no match and no default, the last branch is taken. *)
Theorem split_audience_refines n cfg (w : W) :
  sc_ExperimentID cfg = "" -> sc_Mode cfg = "audience" -> labels_ok (sc_Branches cfg) ->
  split_choose n run cfg w = (Ok (audience_spec member (sc_Branches cfg)), w).
Proof.
  intros Hx Hm [_ Hl]. unfold split_choose. rewrite Hx, Hm. eval_str.
  unfold mbind, M_bind. rewrite pick_audience_spec. unfold mret, M_ret, audience_spec, or_last.
  assert (Hne : forall br, br ∈ sc_Branches cfg -> sb_Label br =s "" = false).
  { intros br Hb. apply seqb_false. intros E. apply Hl. rewrite <- E. by apply list_elem_of_fmap_2. }
  destruct (find_first _ _) as [br|] eqn:Ef; [apply find_first_Some in Ef as [Hb _]; by rewrite Hne|].
  match goal with |- context [last (filter ?P ?l)] => destruct (last (filter P l)) as [br|] eqn:Ed end.
  - apply last_Some_elem_of in Ed. apply list_elem_of_filter in Ed as [_ Hb]. by rewrite Hne.
  - rewrite seqb_refl. done.
Qed.
End Audience.

(** ** A concrete graph and store *)

Definition demo_nodes : list Node :=
  [MkNode "start" "entry" (Raw (JObject [("trigger", JString "event"); ("event_type", JString "signup")]));
   MkNode "ask" "ai_decision" (Raw (JObject
     [("prompt_version_id", JString "p1"); ("timeout_ms", JNumber "1000"); ("max_cost_cents", JNumber "5");
      ("branches", JArray [JString "yes"; JString "no"]); ("fallback", JString "no")]));
   MkNode "wait" "wait_event" (Raw (JObject [("event_type", JString "purchase"); ("timeout", JString "1h")]));
   MkNode "end" "exit" RawEmpty].
Definition demo_graph : Graph :=
  MkGraph "start" demo_nodes
    [MkEdge "start" "ask" ""; MkEdge "ask" "wait" "yes"; MkEdge "ask" "end" "no";
     MkEdge "wait" "end" "success"; MkEdge "wait" "end" "timeout"].
Definition demo_ai : Node := MkNode "ask" "ai_decision" (Raw (JObject
     [("prompt_version_id", JString "p1"); ("timeout_ms", JNumber "1000"); ("max_cost_cents", JNumber "5");
      ("branches", JArray [JString "yes"; JString "no"]); ("fallback", JString "no")])).
Definition demo_run : JourneyRun :=
  MkJourneyRun "r1" "t" "w" "j1" "v1" "p1" None "k" 1 "active" "ask" (Raw obj0) None None false 0 0 None.
Definition demo_profile : Profile :=
  MkProfile "p1" "ext" "" (Raw (JObject [("email", JString "ada@x")])) 1 0.
(** A store where the profile is in segment "vip" only. *)
Definition demo_store : NodeStore unit := {|
  EvaluateAudience _ _ _ := mret true;
  IsProfileInSegment _ s _ := mret (s =s "vip");
  GetExperiment _ _ := throw ErrNotFound;
  AssignExperiment _ _ _ _ := throw ErrNotFound;
  UpdateProfileAttributes _ _ _ := mret tt;
  AcceptEvents _ _ := mret [];
  GetProfileByIDSystem _ _ _ := mret demo_profile;
  ListActiveDeviceTokens _ _ _ := mret [];
  GetFirstAppID _ _ := mret "a1";
  ListActiveFlags _ _ _ := mret []
|}.
(** A gateway that answers an undeclared label, and one that fails. *)
Definition rogue_gateway : Gateway unit := fun _ _ =>
  mret (Some (MkGenerateResponse (Raw (JObject [("branch", JString "maybe")])) "act1")).
Definition dead_gateway : Gateway unit := fun _ _ => throw (errors_New "timeout").

Lemma demo_valid : Validate.Valid demo_graph.
Proof. apply Validate.Validate_sound. by vm_compute. Qed.

Definition demo_split : list SplitBranch :=
  [MkSplitBranch "rest" 0 ""; MkSplitBranch "vip" 0 "vip"; MkSplitBranch "staff" 0 "staff"].

(** A rogue answer falls back to "no": the run advances to the exit. *)
Lemma execute_result_ok_witness : exists res,
  execute (H := demo_store) (Some rogue_gateway) None demo_ai demo_run demo_graph 7 "advance" tt = (Ok res, tt) /\
  xr_NextNodeID res = "end" /\ result_ok demo_graph demo_ai demo_run 7 "advance" res.
Proof.
  eexists. split; [vm_compute; reflexivity|]. split; [reflexivity|].
  eapply (execute_result_ok (H := demo_store) (Some rogue_gateway) None _ _ _ _ _ tt _ tt).
  vm_compute. reflexivity.
Defined.

Lemma execute_total_witness : exists res w',
  execute (H := demo_store) (Some dead_gateway) None demo_ai demo_run demo_graph 7 "advance" tt = (Ok res, w').
Proof.
  apply (execute_total (H := demo_store) demo_graph demo_valid); [|simpl; set_solver].
  unfold demo_graph, demo_nodes, demo_ai. simpl. set_solver.
Defined.

Lemma split_random_share_witness :
  countb (fun b => random_branch b [MkSplitBranch "a" 30 ""; MkSplitBranch "b" 60 ""] =s "b") (seqZ 0 100) = 70.
Proof.
  apply (split_random_share [MkSplitBranch "a" 30 ""] (MkSplitBranch "b" 60 "") []).
  - split; [by apply (bool_decide_eq_true_1 _); vm_compute | simpl; set_solver].
  - repeat constructor; simpl; lia.
  - reflexivity.
Defined.

Lemma split_audience_refines_witness :
  split_choose (H := demo_store) demo_ai demo_run (MkSplitConfig "audience" "" demo_split) tt = (Ok "vip", tt).
Proof.
  apply (split_audience_refines (H := demo_store) demo_run (fun s => s =s "vip")); try done.
  split; [by apply (bool_decide_eq_true_1 _); vm_compute | simpl; set_solver].
Defined.
End JNodes.
