(* ===== verification/JourneyPublish.v ===== *)
(** * Editing and publishing journeys (src/internal/postgres/journeys.go,
    src/internal/journey/publish.go)

    A journey is a draft graph; publishing validates it, stores its canonical
    text under its digest and inserts an immutable numbered version. *)

From S2P Require Import Prelude.
From S2P Require Import GoStd.
From S2P Require Import GoMap.
From S2P Require Import Sha256.
From S2P Require Import Domain.
From S2P Require Import Store.
From S2P Require Import AuditLog.
From S2P Require Import MakerChecker.
From S2P Require Import JourneyGraph.
From S2P Require Import JourneyValidate.

Module JourneyPublish.
Import Graph Validate MakerChecker.

(** ** Tables *)

Record JPDB : Type := MkJPDB {
  jp_journeys : gmap string Journey;
  jp_versions : gmap string JourneyVersion;
  jp_segments : gset string;
  jp_common : CDB
}.
Definition set_journeys v d := MkJPDB v (jp_versions d) (jp_segments d) (jp_common d).
Definition set_versions v d := MkJPDB (jp_journeys d) v (jp_segments d) (jp_common d).
#[global] Instance common_journeys : HasCommon JPDB.
Proof. refine {| common := jp_common; set_common c d := MkJPDB (jp_journeys d) (jp_versions d) (jp_segments d) c |}; [done|by intros []]. Defined.

Abbreviation J := (M JPDB).

Definition journey_statuses : list string := ["draft"; "published"; "archived"].
Definition in_workspace (p : Principal) (j : Journey) : bool := (jny_TenantID j =s p_TenantID p) && (jny_WorkspaceID j =s p_WorkspaceID p).
Definition set_draft (name : string) (description : option string) (status : string) (graph : RawMessage) (now : Z) (j : Journey) : Journey :=
  MkJourney (jny_ID j) (jny_TenantID j) (jny_WorkspaceID j) name description status graph (jny_LatestVersion j) (jny_CurrentVersionID j)
    (jny_CreatedAt j) now.
Definition set_published (versionID : string) (version now : Z) (j : Journey) : Journey :=
  MkJourney (jny_ID j) (jny_TenantID j) (jny_WorkspaceID j) (jny_Name j) (jny_Description j) "published" (jny_Graph j) version (Some versionID)
    (jny_CreatedAt j) now.
Definition set_status (status : string) (now : Z) (v : JourneyVersion) : JourneyVersion :=
  MkJourneyVersion (jv_ID v) (jv_JourneyID v) (jv_TenantID v) (jv_WorkspaceID v) (jv_Version v) (jv_Graph v) (jv_ManifestKey v)
    (jv_EntryKind v) (jv_EntryEventType v) (jv_EntrySegmentID v) (jv_EntrySchedule v) (jv_ReentryPolicy v) (jv_MaxReentries v)
    (jv_LatePolicy v) (jv_ConversionGoal v) (jv_AttributionWindow v) status (jv_PublishedBy v) now.
Definition put_journey (j : Journey) : J unit := modify (fun d => set_journeys (<[jny_ID j := j]> (jp_journeys d)) d).

(** ** Drafts *)

Definition GetJourney (p : Principal) (id : string) (d : JPDB) : result Journey :=
  match jp_journeys d !! id with
  | Some j => if in_workspace p j then Ok j else Err ErrNotFound
  | None => Err ErrNotFound
  end.
Definition ListJourneys (p : Principal) (d : JPDB) : list Journey :=
  GoMap.sort_by (fun a b => jny_CreatedAt b <? jny_CreatedAt a) (filter (fun j => in_workspace p j = true) (map_to_list (jp_journeys d)).*2).

Section ops.
Context (uuid_ok : string -> bool).

Definition or_default (s v : string) : string := if s =s "" then v else s.

Definition CreateJourney (p : Principal) (j : Journey) : J Journey := tx (
  if jny_Name j =s "" then throw (errors_New "journey name is required") else
  let status := or_default (jny_Status j) "draft" in
  let graph := if raw_len0 (jny_Graph j) then Raw (JObject []) else jny_Graph j in
  graph ← lift (jsonb_column graph);
  if negb (mem status journey_statuses) then throw check_violation else
  id ← new_id;
  now ← gets (fun d => cd_now (jp_common d));
  let out := MkJourney id (p_TenantID p) (p_WorkspaceID p) (jny_Name j) (jny_Description j) status graph 0 None now now in
  _ ← put_journey out;
  _ ← audit uuid_ok p "journey.create" "journey" id (JObject [("name", JString (jny_Name out))]);
  mret out).

Definition UpdateJourney (p : Principal) (j : Journey) : J Journey := tx (
  existing ← reads (GetJourney p (jny_ID j));
  if (jny_Status existing =s "published") && negb (jny_Status j =s "draft")
  then throw (errors_New "published journeys cannot be edited without reverting to draft") else
  let name := or_default (jny_Name j) (jny_Name existing) in
  let status := or_default (jny_Status j) (jny_Status existing) in
  let graph := if raw_len0 (jny_Graph j) then jny_Graph existing else jny_Graph j in
  graph ← lift (jsonb_column graph);
  if negb (mem status journey_statuses) then throw check_violation else
  now ← gets (fun d => cd_now (jp_common d));
  let out := set_draft name (jny_Description j) status graph now existing in
  _ ← put_journey out;
  _ ← audit uuid_ok p "journey.update" "journey" (jny_ID out) (JObject [("status", JString (jny_Status out))]);
  mret out).

(** ** What a version freezes of the graph *)

Record publishEntry : Type := MkPublishEntry {
  pe_EntryKind : string; pe_EventType : string; pe_SegmentID : string; pe_Schedule : string; pe_ReentryPolicy : string; pe_MaxReentries : Z;
  pe_LatePolicy : string
}.

Definition is_entry (graph : Graph) (n : Node) : bool := (ID n =s EntryNodeID graph) && (Type_ n =s NodeTypeEntry).
Definition publishEntryConfig (graph : Graph) : result publishEntry :=
  match find_first (is_entry graph) (Nodes graph) with
  | None => Err (errors_New "entry node not found")
  | Some node =>
      cfg ← DecodeConfig node;
      match cfg with
      | CEntry c =>
          let entry := MkPublishEntry (ec_Trigger c) (ec_EventType c) (ec_SegmentID c) (ec_Schedule c) (or_default (ec_ReentryPolicy c) "once")
                         (ec_MaxReentries c) (or_default (ec_LatePolicy c) "run") in
          if pe_EntryKind entry =s "event" then
            if pe_EventType entry =s "" then Err (errors_New "event entry requires event_type") else Ok entry
          else if pe_EntryKind entry =s "scheduled" then
            if (pe_SegmentID entry =s "") && (pe_Schedule entry =s "")
            then Err (errors_New "scheduled entry requires segment_id or schedule") else Ok entry
          else Err (errors_New "entry trigger must be event or scheduled")
      | _ => Err (Errorf "entry node %s has invalid config" [AStr (ID node)])
      end
  end.

(** [json.Marshal] of a goal's configuration: empty optional fields omitted. *)
Definition marshal_goal (c : GoalConfig) : result json :=
  let opt k v := if v =s "" then [] else [(k, JString v)] in
  filter ← (match gc_Filter c with
            | RawEmpty => Ok []
            | Raw j => Ok [("filter", j)]
            | RawBad _ => Err Json.type_error
            end);
  Ok (JObject ([("name", JString (gc_Name c))] ++ opt "event_type" (gc_EventType c) ++ filter ++ opt "value_field" (gc_ValueField c) ++
               opt "window" (gc_Window c))).

(** The first goal that names an event and a window. *)
Fixpoint conversion_goal (nodes : list Node) : result (RawMessage * string) :=
  match nodes with
  | [] => Ok (RawEmpty, "")
  | node :: rest =>
      if negb (Type_ node =s NodeTypeGoal) then conversion_goal rest else
      cfg ← DecodeConfig node;
      match cfg with
      | CGoal c =>
          if (gc_EventType c =s "") || (gc_Window c =s "") then conversion_goal rest
          else goal ← marshal_goal c; Ok (Raw goal, gc_Window c)
      | _ => Err (Errorf "goal node %s has invalid config" [AStr (ID node)])
      end
  end.
Definition publishConversionGoal (graph : Graph) : result (RawMessage * string) := conversion_goal (Nodes graph).

(** ** Publication *)

(** PostgreSQL's text of an interval, [None] where it refuses the input. *)
Context (interval_text : string -> option string).

Definition nullif (s : string) : option string := if s =s "" then None else Some s.
(** What the INSERT checks of the row: casts, checks and foreign key. *)
Definition insertable (segments : gset string) (e : publishEntry) (goal : RawMessage) (window approver : string) : result (RawMessage * option string) :=
  if negb (pe_SegmentID e =s "") && negb (uuid_ok (pe_SegmentID e)) then Err bad_input
  else if negb (uuid_ok approver) then Err bad_input
  else if negb (integer_ok (pe_MaxReentries e)) then Err bad_input
  else if negb (mem (pe_ReentryPolicy e) ["once"; "always"; "after_exit"]) || negb (mem (pe_LatePolicy e) ["run"; "skip"; "reschedule"])
  then Err check_violation
  else if negb (pe_SegmentID e =s "") && negb (bool_decide (pe_SegmentID e ∈ segments)) then Err fk_violation
  else let goal := match goal with Raw j => Raw (Audit.jsonb j) | _ => RawEmpty end in
       if window =s "" then Ok (goal, None)
       else match interval_text window with Some t => Ok (goal, Some t) | None => Err bad_input end.

(** The text [json.Marshal] gives of the graph. *)
Definition canonicalGraph (g : Graph) : result string := Audit.marshal_text <$> marshal_graph g.
Definition digest_suffix (data : string) : string := "/manifests/" +:+ Sha256.hex (Sha256.Sum256 data) +:+ ".json".

Definition PublishJourney (p : Principal) (journeyID approverUserID manifestKey : string) : J JourneyVersion :=
  if approverUserID =s "" then throw (errors_New "approver user id is required")
  else if manifestKey =s "" then throw (errors_New "manifest key is required") else
  _ ← CheckMakerChecker p "journeys" journeyID "";
  tx (
    draft ← reads (GetJourney p journeyID);
    graph ← lift (ParseGraph (jny_Graph draft));
    _ ← lift (Validate (Some graph));
    data ← lift (wrapw "marshal journey graph: %w" (canonicalGraph graph));
    if Contains manifestKey "/manifests/" && negb (HasSuffix manifestKey (digest_suffix data))
    then throw (errors_New "journey draft changed during publication; retry publish") else
    entry ← lift (publishEntryConfig graph);
    goal ← lift (publishConversionGoal graph);
    let version := jny_LatestVersion draft + 1 in
    if negb (integer_ok version) then throw bad_input else
    segments ← gets jp_segments;
    row ← lift (insertable segments entry goal.1 goal.2 approverUserID);
    taken ← gets (fun d => existsb (fun kv => (jv_JourneyID kv.2 =s jny_ID draft) && (jv_Version kv.2 =? version)) (map_to_list (jp_versions d)));
    if taken : bool then throw unique_violation else
    id ← new_id;
    now ← gets (fun d => cd_now (jp_common d));
    let out := MkJourneyVersion id (jny_ID draft) (jny_TenantID draft) (jny_WorkspaceID draft) version (jny_Graph draft) (Some manifestKey)
                 (pe_EntryKind entry) (nullif (pe_EventType entry)) (nullif (pe_SegmentID entry)) (nullif (pe_Schedule entry))
                 (pe_ReentryPolicy entry) (pe_MaxReentries entry) (pe_LatePolicy entry) row.1 row.2 "active" (Some approverUserID) now in
    _ ← modify (fun d => set_versions (<[id := out]> (jp_versions d)) d);
    _ ← put_journey (set_published id version now draft);
    _ ← audit uuid_ok p "journey.publish" "journey" (jny_ID draft)
          (JObject [("manifest_key", JString manifestKey); ("version", JNumber (GoStr.of_Z version))]);
    mret out).

Definition GetJourneyVersion (tenantID versionID : string) (d : JPDB) : result JourneyVersion :=
  match jp_versions d !! versionID with
  | Some v => if jv_TenantID v =s tenantID then Ok v else Err ErrNotFound
  | None => Err ErrNotFound
  end.
Definition numbered (p : Principal) (journeyID : string) (version : Z) (v : JourneyVersion) : bool :=
  (jv_TenantID v =s p_TenantID p) && (jv_WorkspaceID v =s p_WorkspaceID p) && (jv_JourneyID v =s journeyID) && (jv_Version v =? version).
Definition GetJourneyVersionNumber (p : Principal) (journeyID : string) (version : Z) (d : JPDB) : result JourneyVersion :=
  match find_first (fun kv => numbered p journeyID version kv.2) (map_to_list (jp_versions d)) with
  | Some (_, v) => Ok v
  | None => Err ErrNotFound
  end.
Definition SetJourneyVersionStatus (p : Principal) (journeyID : string) (version : Z) (status : string) : J unit := fun d =>
  if negb (existsb (fun kv => numbered p journeyID version kv.2) (map_to_list (jp_versions d))) then (Err ErrNotFound, d)
  else if negb (mem status ["active"; "paused"; "archived"]) then (Err check_violation, d)
  else (Ok tt, set_versions ((fun v => if numbered p journeyID version v then set_status status (cd_now (jp_common d)) v else v) <$> jp_versions d) d).

(** [journey.Publish]. *)
Definition ErrInvalidGraph : error := Sentinel "invalid journey graph".
Definition invalid {A} (r : result A) : result A := map_err (fun e => Errorf "%w: %v" [AWrap ErrInvalidGraph; AErr e]) r.
Definition Publish (blobs : option (string -> string -> string -> J unit)) (p : Principal) (journeyID approverUserID : string) : J JourneyVersion :=
  if approverUserID =s "" then throw ErrApproverRequired
  else match blobs with
  | None => throw ErrBlobStoreRequired
  | Some Put =>
      draft ← reads (GetJourney p journeyID);
      graph ← lift (invalid (ParseGraph (jny_Graph draft)));
      _ ← lift (invalid (Validate (Some graph)));
      data ← lift (canonicalGraph graph);
      let manifestKey := manifest_key "journeys" (p_TenantID p) journeyID data in
      _ ← wrapM "put journey manifest: %w" (Put manifestKey data "application/json");
      PublishJourney p journeyID approverUserID manifestKey
  end.

End ops.
End JourneyPublish.
