(* ===== verification/PublishingSpec.v ===== *)
(** * What publication guarantees, and what separation of duties does to it

    Journey versions are sound, numbered without gaps and never rewritten;
    publishing a form again is harmless.  The maker-checker policy looks for
    audit rows under names no operation writes, so that switching it on stops
    every publication, while a flag's status endpoint goes around it. *)

From S2P Require Import Prelude.
From S2P Require Import GoStd.
From S2P Require Import GoMap.
From S2P Require Import Sha256.
From S2P Require Import Domain.
From S2P Require Import Store.
From S2P Require Import AuditLog.
From S2P Require Import MakerChecker.
From S2P Require Import StoreLemmas.
From S2P Require Import Forms.
From S2P Require Import FlagsDB.
From S2P Require Import Prompts.
From S2P Require Import JourneyGraph.
From S2P Require Import JourneyValidate.
From S2P Require Import JourneyNodes.
From S2P Require Import JourneyPublish.

Module PublishingSpec.
Import MakerChecker StoreLemmas.

(** ** The shared statements *)

Section shared.
Context {W : Type} `{HasCommon W} (uuid_ok : string -> bool).

(** *** The audit log's resource types *)

(** Every literal the code passes to [audit] as a resource type. *)
Definition resource_types : list string :=
  ["ai_activity"; "ai_provider_config"; "api_key"; "campaign"; "catalog"; "connected_content_source"; "dead_letter"; "event_batch";
   "event_schema"; "experiment"; "extension"; "extension_config"; "extension_grant"; "extension_version"; "field_classification"; "flag";
   "form"; "journey"; "maker_checker_policy"; "privacy_request"; "prompt"; "prompt_version"; "role"; "saml_provider"; "saved_report";
   "scoring_model"; "scoring_model_version"; "segment"; "sending_identity"; "short_link"; "stage_rule"; "suppression"; "team"; "template";
   "user"].
Definition log_ok (c : CDB) : Prop := forall e, e ∈ Audit.ad_rows (cd_audit c) -> Audit.av_resourceType e ∈ resource_types.

Definition keeps_log {A} (m : M W A) : Prop := forall d, log_ok (common d) -> log_ok (common (m d).2).

Lemma keeps_log_bind {A B} (m : M W A) (f : A -> M W B) : keeps_log m -> (forall a, keeps_log (f a)) -> keeps_log (m ≫= f).
Proof. intros Hm Hf d Hd. unfold mbind, M_bind. specialize (Hm d Hd). destruct (m d) as [[a|e] d1]; [by apply Hf|done]. Qed.
Lemma keeps_tx {A} (m : M W A) : keeps_log m -> keeps_log (tx m).
Proof. intros Hm d Hd. specialize (Hm d Hd). unfold tx. by destruct (m d) as [[a|e] d1]. Qed.
Lemma keeps_pure {A} (m : M W A) : (forall d, (m d).2 = d) -> keeps_log m.
Proof. intros Hm d Hd. by rewrite Hm. Qed.
Lemma keeps_log_modify f : (forall d, common (f d) = common d) -> keeps_log (modify f).
Proof. intros Hf d Hd. unfold modify. simpl. by rewrite Hf. Qed.
Lemma keeps_new_id : keeps_log new_id.
Proof. intros d Hd. unfold new_id. simpl. by rewrite common_set. Qed.
Lemma keeps_audit p a t id j : t ∈ resource_types -> keeps_log (audit uuid_ok p a t id j).
Proof.
  intros Ht d Hd. destruct (audit_eq uuid_ok p a t id j d) as (q & -> & e & He & Hq). simpl. rewrite common_set. intros x. simpl. rewrite He.
  intros [Hx|Hx%list_elem_of_singleton]%elem_of_app; [by apply Hd|]. by rewrite Hx, Hq.
Qed.
Lemma keeps_check p rt rid c : keeps_log (CheckMakerChecker p rt rid c).
Proof.
  apply keeps_pure. intros d. unfold CheckMakerChecker. destruct (negb _ || _); [done|]. unfold GetMakerCheckerPolicy.
  destruct (rt =s ""); [done|]. unfold gets, reads. unfold_M. by destruct (negb _).
Qed.

(** With the policy on, the check stops everyone under a name no row has. *)
Lemma check_blocks p rt rid (d : W) : rt ∈ ["journeys"; "flags"; "forms"; "pages"; "prompts"] -> log_ok (common d) ->
  (exists x, cd_policies (common d) !! (p_TenantID p, rt) = Some x /\ mp_RequireChecker x = true) ->
  exists e, CheckMakerChecker p rt rid "" d = (Err e, d).
Proof.
  intros Hrt Hlog Hpol. apply no_rows_blocks; [| |done].
  - intros ->. by repeat (apply elem_of_cons in Hrt as [Hrt|Hrt]; [discriminate|]); apply elem_of_nil in Hrt.
  - intros e He Hx. specialize (Hlog e He). rewrite Hx in Hlog.
    assert (Hno : forallb (fun x => negb (mem x resource_types)) ["journeys"; "flags"; "forms"; "pages"; "prompts"] = true) by by vm_compute.
    rewrite forallb_forall in Hno. apply list_elem_of_In in Hrt. specialize (Hno _ Hrt). apply negb_true_iff in Hno.
    apply mem_In in Hlog. congruence.
Qed.

End shared.

(** A failing guard ends the publication. *)
Lemma blocked_bind {W A B} (m : M W A) (f : A -> M W B) d e : m d = (Err e, d) -> exists e', (m ≫= f) d = (Err e', d).
Proof. intros Hm. unfold mbind, M_bind. rewrite Hm. by eexists. Qed.

(** ** The policy stops everyone *)

Definition policy_on (p : Principal) (rt : string) (c : CDB) : Prop :=
  exists x, cd_policies c !! (p_TenantID p, rt) = Some x /\ mp_RequireChecker x = true.
Definition fails {W A} (m : M W A) (d : W) : Prop := exists e, m d = (Err e, d).

Ltac through_guards :=
  repeat match goal with |- fails (if ?b then _ else _) _ => destruct b; [by eexists|] end.
(** With the maker-checker policy of a resource kind on, and an audit log
    that holds only rows the code writes, no journey, flag, form, page or prompt
    version can be published, by anybody: publishing fails and changes nothing. *)
Theorem policy_blocks_everyone uuid_ok interval_text p :
  (forall (d : JourneyPublish.JPDB) id a k, log_ok (common d) -> policy_on p "journeys" (common d) ->
     fails (JourneyPublish.PublishJourney uuid_ok interval_text p id a k) d) /\
  (forall (d : FlagsDB.KDB) id a k, log_ok (common d) -> policy_on p "flags" (common d) -> fails (FlagsDB.PublishFeatureFlag uuid_ok p id a k) d) /\
  (forall (d : Forms.FDB) id a k def, log_ok (common d) -> policy_on p "forms" (common d) -> fails (Forms.PublishForm uuid_ok p id a k def) d) /\
  (forall (d : Pages.GDB) id a k def, log_ok (common d) -> policy_on p "pages" (common d) -> fails (Pages.PublishLandingPage uuid_ok p id a k def) d) /\
  (forall (d : Prompts.MDB) id n a k, log_ok (common d) -> policy_on p "prompts" (common d) -> fails (Prompts.PublishPromptVersion uuid_ok p id n a k) d).
Proof.
  split; [|split; [|split; [|split]]]; intros *; intros Hl Hp;
    unfold JourneyPublish.PublishJourney, FlagsDB.PublishFeatureFlag, Forms.PublishForm, Pages.PublishLandingPage, Prompts.PublishPromptVersion;
    through_guards.
  - destruct (check_blocks p "journeys" id d) as (e & He); [set_solver|done|done|]. exact (blocked_bind _ _ _ _ He).
  - destruct (check_blocks p "flags" id d) as (e & He); [set_solver|done|done|]. exact (blocked_bind _ _ _ _ He).
  - destruct (check_blocks p "forms" id d) as (e & He); [set_solver|done|done|]. exact (blocked_bind _ _ _ _ He).
  - destruct (check_blocks p "pages" id d) as (e & He); [set_solver|done|done|]. exact (blocked_bind _ _ _ _ He).
  - destruct (check_blocks p "prompts" id d) as (e & He); [set_solver|done|done|]. exact (blocked_bind _ _ _ _ He).
Qed.

(** *** The operations keep the log so *)

Ltac keep :=
  first [ apply keeps_tx; keep
        | apply keeps_log_bind; [keep|intros; keep]
        | apply keeps_check
        | apply keeps_new_id
        | apply keeps_audit; set_solver
        | apply keeps_log_modify; done
        | match goal with
          | |- keeps_log (if ?b then _ else _) => destruct b; keep
          | |- keeps_log (match ?o with Some _ => _ | None => _ end) => destruct o; keep
          | |- keeps_log (let _ := _ in _) => cbv zeta; keep
          end
        | apply keeps_pure; done ].

Lemma journeys_keep_log uuid_ok interval_text p :
  (forall j, keeps_log (JourneyPublish.CreateJourney uuid_ok p j)) /\ (forall j, keeps_log (JourneyPublish.UpdateJourney uuid_ok p j)) /\
  (forall id a k, keeps_log (JourneyPublish.PublishJourney uuid_ok interval_text p id a k)).
Proof.
  split; [|split]; intros *; unfold JourneyPublish.CreateJourney, JourneyPublish.UpdateJourney, JourneyPublish.PublishJourney, JourneyPublish.put_journey; keep.
Qed.
Lemma flags_keep_log uuid_ok p :
  (forall f, keeps_log (FlagsDB.CreateFeatureFlag uuid_ok p f)) /\ (forall f, keeps_log (FlagsDB.UpdateFeatureFlag uuid_ok p f)) /\
  (forall id a k, keeps_log (FlagsDB.PublishFeatureFlag uuid_ok p id a k)).
Proof.
  split; [|split]; intros *; unfold FlagsDB.CreateFeatureFlag, FlagsDB.UpdateFeatureFlag, FlagsDB.PublishFeatureFlag, FlagsDB.put_flag; keep.
Qed.

(** ** Journey versions *)

Module Journeys.
Import JourneyPublish Graph Validate.

Section journeys.
Context (uuid_ok : string -> bool) (interval_text : string -> option string).

(** A version agrees with the valid graph it froze. *)
Definition sound_version (v : JourneyVersion) : Prop :=
  exists g e, ParseGraph (jv_Graph v) = Ok g /\ Validate (Some g) = Ok tt /\ publishEntryConfig g = Ok e /\
    jv_EntryKind v = pe_EntryKind e /\ jv_EntryEventType v = nullif (pe_EventType e) /\ jv_EntrySegmentID v = nullif (pe_SegmentID e) /\
    jv_EntrySchedule v = nullif (pe_Schedule e) /\ jv_ReentryPolicy v = pe_ReentryPolicy e /\ jv_LatePolicy v = pe_LatePolicy e /\
    jv_PublishedBy v <> None.

Record jinv (d : JPDB) : Prop := {
  ji_fresh : dom (jp_versions d) ⊆ cd_used (jp_common d) /\ dom (jp_journeys d) ⊆ cd_used (jp_common d);
  ji_id : forall k j, jp_journeys d !! k = Some j -> jny_ID j = k;
  ji_vid : forall k v, jp_versions d !! k = Some v -> jv_ID v = k;
  ji_owner : forall k v, jp_versions d !! k = Some v ->
    exists j, jp_journeys d !! jv_JourneyID v = Some j /\ 1 <= jv_Version v <= jny_LatestVersion j;
  ji_number : forall k l v w, jp_versions d !! k = Some v -> jp_versions d !! l = Some w -> jv_JourneyID v = jv_JourneyID w ->
    jv_Version v = jv_Version w -> k = l;
  ji_dense : forall id j n, jp_journeys d !! id = Some j -> 1 <= n <= jny_LatestVersion j ->
    exists k v, jp_versions d !! k = Some v /\ jv_JourneyID v = id /\ jv_Version v = n;
  ji_latest : forall id j, jp_journeys d !! id = Some j -> 0 <= jny_LatestVersion j;
  ji_sound : forall k v, jp_versions d !! k = Some v -> sound_version v;
  ji_current : forall id j c, jp_journeys d !! id = Some j -> jny_CurrentVersionID j = Some c ->
    exists v, jp_versions d !! c = Some v /\ jv_JourneyID v = id /\ jv_Version v = jny_LatestVersion j
}.

(** The same version up to what [SetJourneyVersionStatus] sets. *)
Definition same_version (v w : JourneyVersion) : Prop := exists s t, w = set_status s t v.
Definition frozen (d d' : JPDB) : Prop := forall k v, jp_versions d !! k = Some v -> exists w, jp_versions d' !! k = Some w /\ same_version v w.

Lemma same_version_refl v : same_version v v.
Proof. exists (jv_Status v), (jv_PublishedAt v). by destruct v. Qed.
Lemma frozen_refl d : frozen d d.
Proof. intros k v Hk. exists v. split; [done|apply same_version_refl]. Qed.
Lemma frozen_trans d1 d2 d3 : frozen d1 d2 -> frozen d2 d3 -> frozen d1 d3.
Proof.
  intros H1 H2 k v Hk. destruct (H1 k v Hk) as (w & Hw & s & t & ->). destruct (H2 k _ Hw) as (x & Hx & s' & t' & ->).
  eexists. split; [done|]. by exists s', t'.
Qed.
Lemma frozen_eq d d' : jp_versions d' = jp_versions d -> frozen d d'.
Proof. intros H k v Hk. exists v. rewrite H. split; [done|apply same_version_refl]. Qed.

Inductive jstep (d : JPDB) : JPDB -> Prop :=
  | StepCreate p j r d' : CreateJourney uuid_ok p j d = (r, d') -> jstep d d'
  | StepUpdate p j r d' : UpdateJourney uuid_ok p j d = (r, d') -> jstep d d'
  | StepPublish p id a k r d' : PublishJourney uuid_ok interval_text p id a k d = (r, d') -> jstep d d'
  | StepStatus p id n s r d' : SetJourneyVersionStatus p id n s d = (r, d') -> jstep d d'
  | StepPolicy p rt b r d' : SetMakerCheckerPolicy uuid_ok p rt b d = (r, d') -> jstep d d'.

Lemma GetJourney_Ok p id d j : GetJourney p id d = Ok j -> jp_journeys d !! id = Some j.
Proof. unfold GetJourney. destruct (jp_journeys d !! id) as [x|]; [|done]. destruct (in_workspace p x); [|done]. by intros [= <-]. Qed.

Lemma CreateJourney_inv p j d out d' : CreateJourney uuid_ok p j d = (Ok out, d') -> jinv d -> jinv d' /\ frozen d d'.
Proof.
  intros H Hi. unfold CreateJourney, put_journey in H. follow_tx H. injection H as _ <-. split; [|by apply frozen_eq]. destruct Hi as [[Hf1 Hf2] H2 H3 H4 H5 H6 H7 H8 H9].
  set (id := fresh (cd_used (jp_common d))) in *. cbn [jny_ID].
  assert (Hn : jp_journeys d !! id = None). { apply not_elem_of_dom. intros Hin%Hf2. by apply (is_fresh (cd_used (jp_common d))). }
  assert (Hnv : forall k v, jp_versions d !! k = Some v -> jv_JourneyID v <> id).
  { intros k v Hk Hid. destruct (H4 k v Hk) as (jx & Hx & _). congruence. }
  split; simpl.
  - split; [set_solver|]. rewrite dom_insert_L. set_solver.
  - intros k jx [(<- & <-)|[_ Hx]]%lookup_insert_Some; [done|by apply H2].
  - done.
  - intros k v Hk. destruct (H4 k v Hk) as (jx & Hx & ?). exists jx. by rewrite lookup_insert_ne by (intros He; by apply (Hnv k v Hk)).
  - done.
  - intros i jx n [(<- & <-)|[_ Hx]]%lookup_insert_Some Hr; [simpl in Hr; lia|by apply (H6 i jx)].
  - intros i jx [(<- & <-)|[_ Hx]]%lookup_insert_Some; [done|by apply (H7 i)].
  - done.
  - intros i jx c [(<- & <-)|[_ Hx]]%lookup_insert_Some Hc; [done|by apply (H9 i jx)].
Qed.

(** Replacing a journey's row by one with the same numbering. *)
Lemma put_inv d id old new cm : jp_journeys d !! id = Some old -> jny_ID new = id -> jny_LatestVersion new = jny_LatestVersion old ->
  jny_CurrentVersionID new = jny_CurrentVersionID old -> cd_used (jp_common d) ⊆ cd_used cm -> jinv d ->
  jinv (MkJPDB (<[id := new]> (jp_journeys d)) (jp_versions d) (jp_segments d) cm).
Proof.
  intros Ho Hid Hl Hc Hu [[Hf1 Hf2] H2 H3 H4 H5 H6 H7 H8 H9]. split; simpl; try done.
  - assert (id ∈ dom (jp_journeys d)) by (apply elem_of_dom; eauto). rewrite dom_insert_L. set_solver.
  - intros k x [(<- & <-)|[_ Hx]]%lookup_insert_Some; [done|by apply H2].
  - intros k v Hk. destruct (H4 k v Hk) as (x & Hx & Hr). destruct (decide (id = jv_JourneyID v)) as [He|Hne].
    + rewrite <- He in *. exists new. rewrite lookup_insert_eq. split; [done|]. rewrite Hl. rewrite Ho in Hx. by injection Hx as <-.
    + exists x. by rewrite lookup_insert_ne.
  - intros i x n [(<- & <-)|[_ Hx]]%lookup_insert_Some Hr; [apply (H6 id old); [done|by rewrite <- Hl]|by apply (H6 i x)].
  - intros i x [(<- & <-)|[_ Hx]]%lookup_insert_Some; [rewrite Hl; by apply (H7 id)|by apply (H7 i)].
  - intros i x c [(<- & <-)|[_ Hx]]%lookup_insert_Some Hcc; [rewrite Hl; apply (H9 id old); congruence|by apply (H9 i x)].
Qed.

Lemma UpdateJourney_inv p j d out d' : UpdateJourney uuid_ok p j d = (Ok out, d') -> jinv d -> jinv d' /\ frozen d d'.
Proof.
  intros H Hi. unfold UpdateJourney, put_journey in H. follow_tx H. injection H as _ <-. split; [|by apply frozen_eq].
  match goal with E : GetJourney _ _ _ = Ok ?x |- _ => apply GetJourney_Ok in E; pose proof (ji_id _ Hi _ _ E) as Hid; rewrite <- Hid in E end.
  simpl. by eapply put_inv.
Qed.

(** What a publication that succeeds has done. *)
Lemma PublishJourney_Ok p id a k d out d' : PublishJourney uuid_ok interval_text p id a k d = (Ok out, d') ->
  exists draft g data e cm, let vid := fresh (cd_used (jp_common d)) in
    GetJourney p id d = Ok draft /\ ParseGraph (jny_Graph draft) = Ok g /\ Validate (Some g) = Ok tt /\ canonicalGraph g = Ok data /\
    (Contains k "/manifests/" = true -> HasSuffix k (digest_suffix data) = true) /\
    publishEntryConfig g = Ok e /\ CheckMakerChecker p "journeys" id "" d = (Ok tt, d) /\
    jv_ID out = vid /\ jv_JourneyID out = jny_ID draft /\ jv_Version out = jny_LatestVersion draft + 1 /\ jv_Graph out = jny_Graph draft /\
    jv_ManifestKey out = Some k /\ sound_version out /\ cd_used cm = {[vid]} ∪ cd_used (jp_common d) /\
    d' = MkJPDB (<[jny_ID draft := set_published vid (jv_Version out) (cd_now (jp_common d)) draft]> (jp_journeys d))
           (<[vid := out]> (jp_versions d)) (jp_segments d) cm.
Proof.
  intros H. unfold PublishJourney in H. destruct (a =s ""); [done|]. destruct (k =s ""); [done|].
  apply bindM_Ok in H as ([] & d1 & Hc & H). pose proof (check_pure _ _ _ _ _ _ _ Hc) as ->. unfold put_journey in H.
  apply tx_cases in H as [(? & [= ->] & H)|[[? ?] _]]; [|done]. follow H. injection H as <- <-.
  repeat match goal with u : unit |- _ => destruct u end.
  match goal with E : wrapw _ _ = Ok ?y |- _ => unfold wrapw, map_err in E; destruct (canonicalGraph _) as [t|] eqn:?; [injection E as <-|discriminate E] end.
  do 5 eexists. cbn zeta. do 4 (split; [eassumption|]). split.
  { intros Hcont. rewrite Hcont in *. simpl in *. match goal with E : negb _ = false |- _ => by apply negb_false_iff in E end. }
  split; [eassumption|]. split; [done|]. do 5 (split; [done|]). simpl. split; [|split; [|reflexivity]]; [|done].
  do 2 eexists. do 3 (split; [eassumption|]). by repeat split.
Qed.

Lemma PublishJourney_inv p id a k d out d' : PublishJourney uuid_ok interval_text p id a k d = (Ok out, d') -> jinv d -> jinv d' /\ frozen d d'.
Proof.
  intros H Hi. apply PublishJourney_Ok in H as (j & g & data & e & cm & Hj & _ & _ & _ & _ & _ & _ & Hid & Hjid & Hn & _ & _ & Hs & Hu & ->).
  destruct Hi as [[Hf1 Hf2] H2 H3 H4 H5 H6 H7 H8 H9]. apply GetJourney_Ok in Hj. pose proof (H2 _ _ Hj) as Hji. rewrite Hji in *.
  set (vid := fresh (cd_used (jp_common d))) in *. set (new := set_published vid (jv_Version out) (cd_now (jp_common d)) j).
  assert (Hv : jp_versions d !! vid = None). { apply not_elem_of_dom. intros Hin%Hf1. by apply (is_fresh (cd_used (jp_common d))). }
  pose proof (H7 _ _ Hj) as Hl. assert (Hnew : jny_LatestVersion new = jny_LatestVersion j + 1) by exact Hn.
  assert (Hold : forall l v, jp_versions d !! l = Some v -> jv_JourneyID v = id -> jv_Version v <= jny_LatestVersion j).
  { intros l v Hl' Hid'. destruct (H4 l v Hl') as (x & Hx & ?). rewrite Hid', Hj in Hx. injection Hx as <-. lia. }
  split.
  2:{ intros l v Hl'. exists v. cbn [jp_versions]. rewrite lookup_insert_ne by congruence. split; [done|apply same_version_refl]. }
  split; cbn [jp_versions jp_journeys jp_common].
  - rewrite Hu, !dom_insert_L. assert (id ∈ dom (jp_journeys d)) by (apply elem_of_dom; eauto). set_solver.
  - intros l x [(<- & <-)|[_ Hx]]%lookup_insert_Some; [exact Hji|by apply H2].
  - intros l v [(<- & <-)|[_ Hx]]%lookup_insert_Some; [done|by apply H3].
  - intros l v [(<- & <-)|[_ Hx]]%lookup_insert_Some.
    + exists new. rewrite Hjid, lookup_insert_eq. split; [done|]. rewrite Hnew. lia.
    + destruct (H4 l v Hx) as (x & Hxx & Hr). destruct (decide (id = jv_JourneyID v)) as [He|Hne].
      * exists new. rewrite <- He, lookup_insert_eq. split; [done|]. rewrite Hnew. pose proof (Hold l v Hx (eq_sym He)). lia.
      * exists x. by rewrite lookup_insert_ne.
  - intros l m v w [(<- & <-)|[_ Hx]]%lookup_insert_Some [(<- & <-)|[_ Hy]]%lookup_insert_Some He Hv'; [done| | |by apply (H5 l m v w)].
    + pose proof (Hold m w Hy). rewrite <- He, <- Hv', Hjid in *. specialize (H eq_refl). lia.
    + pose proof (Hold l v Hx). rewrite He, Hv', Hjid in *. specialize (H eq_refl). lia.
  - intros i x n [(<- & <-)|[Hne Hx]]%lookup_insert_Some Hr.
    + rewrite Hnew in Hr. destruct (decide (n = jny_LatestVersion j + 1)) as [->|Hd].
      * exists vid, out. rewrite lookup_insert_eq. done.
      * destruct (H6 id j n Hj) as (l & v & Hl' & ? & ?); [lia|]. exists l, v. rewrite lookup_insert_ne by congruence. done.
    + destruct (H6 i x n Hx Hr) as (l & v & Hl' & ? & ?). exists l, v. rewrite lookup_insert_ne by congruence. done.
  - intros i x [(<- & <-)|[_ Hx]]%lookup_insert_Some; [lia|by apply (H7 i)].
  - intros l v [(<- & <-)|[_ Hx]]%lookup_insert_Some; [done|by apply (H8 l)].
  - intros i x c [(<- & <-)|[Hne Hx]]%lookup_insert_Some Hc.
    + injection Hc as <-. exists out. rewrite lookup_insert_eq. split; [done|]. split; [done|]. by rewrite Hnew, <- Hn.
    + destruct (H9 i x c Hx Hc) as (v & Hcv & ?). exists v. rewrite lookup_insert_ne by congruence. done.
Qed.

Lemma SetStatus_inv p id n s d r d' : SetJourneyVersionStatus p id n s d = (r, d') -> jinv d -> jinv d' /\ frozen d d'.
Proof.
  unfold SetJourneyVersionStatus. destruct (negb (existsb _ _)); [intros [= _ <-] ?; split; [done|apply frozen_refl]|].
  destruct (negb (mem s _)); intros [= _ <-] [[Hf1 Hf2] H2 H3 H4 H5 H6 H7 H8 H9]; [split; [done|apply frozen_refl]|].
  set (g v := if numbered p id n v then set_status s (cd_now (jp_common d)) v else v).
  assert (Hk : forall v, same_version v (g v)).
  { intros v. unfold g. destruct (numbered p id n v); [by eexists _, _|apply same_version_refl]. }
  assert (Hg : forall l w, (g <$> jp_versions d) !! l = Some w -> exists v, jp_versions d !! l = Some v /\ same_version v w).
  { intros l w. rewrite lookup_fmap. destruct (jp_versions d !! l) as [v|]; [|done]. intros [= <-]. by exists v. }
  split.
  2:{ intros l v Hl. exists (g v). cbn [jp_versions set_versions]. fold g. by rewrite lookup_fmap, Hl. }
  split; cbn [jp_versions jp_journeys jp_common set_versions]; fold g.
  - by rewrite dom_fmap_L.
  - done.
  - intros l w (v & Hl & x & t & ->)%Hg. exact (H3 l v Hl).
  - intros l w (v & Hl & x & t & ->)%Hg. by apply (H4 l v).
  - intros l m w1 w2 (v1 & Hl & x1 & t1 & ->)%Hg (v2 & Hm & x2 & t2 & ->)%Hg. by apply (H5 l m v1 v2).
  - intros i x m Hx Hr. destruct (H6 i x m Hx Hr) as (l & v & Hl & ? & ?). exists l, (g v). rewrite lookup_fmap, Hl. split; [done|].
    by destruct (Hk v) as (s' & t' & ->).
  - done.
  - intros l w (v & Hl & x & t & ->)%Hg. by apply (H8 l v).
  - intros i x c Hx Hc. destruct (H9 i x c Hx Hc) as (v & Hcv & ? & ?). exists (g v). rewrite lookup_fmap, Hcv. split; [done|].
    by destruct (Hk v) as (s' & t' & ->).
Qed.

Lemma tx_Err {A} (m : J A) d e d' : tx m d = (Err e, d') -> d' = d.
Proof. intros H. apply tx_cases in H as [(? & ? & _)|[_ ->]]; done. Qed.
Lemma Publish_Err p id a k d e d' : PublishJourney uuid_ok interval_text p id a k d = (Err e, d') -> d' = d.
Proof.
  unfold PublishJourney. destruct (a =s ""); [by intros [= _ <-]|]. destruct (k =s ""); [by intros [= _ <-]|].
  unfold mbind at 1, M_bind at 1. destruct (CheckMakerChecker p "journeys" id "" d) as [r d1] eqn:Hc. apply check_pure in Hc as ->.
  destruct r; [apply tx_Err|by intros [= _ <-]].
Qed.

Lemma common_inv d cm : cd_used (jp_common d) ⊆ cd_used cm -> jinv d -> jinv (MkJPDB (jp_journeys d) (jp_versions d) (jp_segments d) cm).
Proof. intros Hu [[Hf1 Hf2] H2 H3 H4 H5 H6 H7 H8 H9]. split; simpl; try done. set_solver. Qed.

Lemma jstep_inv d d' : jstep d d' -> jinv d -> jinv d' /\ frozen d d'.
Proof.
  intros [p j r d1 H|p j r d1 H|p id a k r d1 H|p id n s r d1 H|p rt b r d1 H] Hi.
  - destruct r; [by eapply CreateJourney_inv|]. apply tx_Err in H as ->. split; [done|apply frozen_refl].
  - destruct r; [by eapply UpdateJourney_inv|]. apply tx_Err in H as ->. split; [done|apply frozen_refl].
  - destruct r; [by eapply PublishJourney_inv|]. apply Publish_Err in H as ->. split; [done|apply frozen_refl].
  - by eapply SetStatus_inv.
  - unfold SetMakerCheckerPolicy in H. destruct (rt =s ""); [injection H as _ <-; split; [done|apply frozen_refl]|].
    destruct r; [|apply tx_Err in H as ->; split; [done|apply frozen_refl]]. unfold modify_common in H. follow_tx H. injection H as _ <-.
    split; [|by apply frozen_eq]. simpl. apply common_inv; [|done]. simpl. set_solver.
Qed.

(** C23: Whatever is done to the journeys of a workspace (created, edited,
    published, paused), the versions of a journey are numbered 1, 2, ... up to
    its latest without gap or repetition; each holds a graph that the validator
    accepts, the entry that graph declares and an approver; the journey points
    to its latest; and a version once published never changes but for its
    status and its date. *)
Theorem journey_versions_sound d0 d : jinv d0 -> rtc jstep d0 d -> jinv d /\ frozen d0 d.
Proof.
  intros Hi Hr. induction Hr as [d|d1 d2 d3 Hs _ IH]; [split; [done|apply frozen_refl]|].
  destruct (jstep_inv _ _ Hs Hi) as [Hi2 Hf]. destruct (IH Hi2) as [H3 Hf3]. split; [done|]. by eapply frozen_trans.
Qed.

End journeys.
End Journeys.

End PublishingSpec.

(** * Publishing again, publishing around the checker, and witnesses

    Publishing a form's manifest a second time answers the version of the first.
    A flag cannot be published through its publication endpoint, but can through
    its status endpoint, whatever the policy.  A published page is found by its
    slug alone.  The concrete databases that show the hypotheses of
    [PublishingSpec] can hold are here too. *)

Module PublishingHazards.
Import MakerChecker StoreLemmas PublishingSpec.

(** The check reads the policies and the log only. *)
Lemma check_frame {W} `{HasCommon W} p rt rid c (d d' : W) r :
  cd_policies (common d') = cd_policies (common d) -> cd_audit (common d') = cd_audit (common d) ->
  CheckMakerChecker p rt rid c d = (r, d) -> CheckMakerChecker p rt rid c d' = (r, d').
Proof.
  intros Hp Ha. unfold CheckMakerChecker. destruct (negb _ || _); [by intros [= <-]|]. unfold GetMakerCheckerPolicy.
  destruct (rt =s ""); [by intros [= <-]|]. unfold gets, reads, actors, audit_actors. unfold_M. rewrite Hp.
  destruct (negb _); [by intros [= <-]|]. rewrite Ha. by intros [= <-].
Qed.

(** ** Forms *)

Module Again.
Import Forms.

Section again.
Context (uuid_ok : string -> bool).

Definition keyed (d : FDB) : Prop := (forall k f, fb_forms d !! k = Some f -> fm_ID f = k) /\ "" ∈ cd_used (fb_common d).

Lemma GetForm_Ok p id d f : GetForm p id d = Ok f -> fb_forms d !! id = Some f /\ in_workspace p f = true.
Proof. unfold GetForm. destruct (fb_forms d !! id) as [x|]; [|done]. destruct (in_workspace p x) eqn:E; [|done]. by intros [= <-]. Qed.

(** What the first publication leaves: a form whose current version has the
    manifest, and otherwise the tables the check reads unchanged. *)
Lemma PublishForm_Ok p id by_ key def d v d1 : keyed d -> PublishForm uuid_ok p id by_ key def d = (Ok v, d1) ->
  CheckMakerChecker p "forms" id "" d = (Ok tt, d) /\
  (by_ =s "") || (key =s "") = false /\
  cd_policies (fb_common d1) = cd_policies (fb_common d) /\ cd_audit (fb_common d1) = cd_audit (fb_common d) /\
  exists f, GetForm p id d1 = Ok f /\ same_manifest (fm_CurrentVersionID f) key (fb_versions d1) = Ok (Some v).
Proof.
  intros [Hk Hu] H. unfold PublishForm in H. destruct ((by_ =s "") || _ || _) eqn:Eg in H; [done|]. apply orb_false_iff in Eg as [Eg _].
  apply bindM_Ok in H as ([] & d2 & Hc & H). pose proof (check_pure _ _ _ _ _ _ _ Hc) as ->. split; [done|]. split; [done|].
  unfold put_form in H. follow_tx H.
  - injection H as -> <-. do 2 (split; [done|]). eexists. by split.
  - injection H as <- <-. do 2 (split; [done|]).
    match goal with E : GetForm p id d = Ok ?f |- _ => apply GetForm_Ok in E as [Ef Ew]; pose proof (Hk _ _ Ef) as Hid end.
    simpl. eexists. split.
    + unfold GetForm. simpl. rewrite Hid, lookup_insert_eq. unfold in_workspace in *. simpl. by rewrite Ew.
    + unfold same_manifest. simpl. rewrite lookup_insert_eq. simpl. rewrite seqb_refl.
      destruct (fresh (cd_used (fb_common d))) eqn:Ef'; [|done]. exfalso. apply (is_fresh (cd_used (fb_common d))). by rewrite Ef'.
Qed.

(** Publishing a form is idempotent: when a publication succeeded, doing it
    again with the same manifest answers the same version and changes nothing --
    no second version, no new id, no write at all. *)
Theorem PublishForm_idempotent p id by_ key def def' d v d1 : keyed d -> raw_len0 def' = false ->
  PublishForm uuid_ok p id by_ key def d = (Ok v, d1) -> PublishForm uuid_ok p id by_ key def' d1 = (Ok v, d1).
Proof.
  intros Hk Hd' H. destruct (PublishForm_Ok _ _ _ _ _ _ _ _ Hk H) as (Hc & Hg & Hp & Ha & f & Hf & Hs).
  assert (Hc' : CheckMakerChecker p "forms" id "" d1 = (Ok tt, d1)) by (by apply (check_frame _ _ _ _ d)).
  unfold PublishForm. rewrite Hg, Hd'. simpl. unfold mbind, M_bind, tx, reads. rewrite Hc'.
  by rewrite Hf, Hs.
Qed.
End again.

Definition anyone : Principal := MkPrincipal "t1" "w1" "a1" "" "u1" "user" [].
Definition one_form : FDB := MkFDB {["f1" := MkForm "f1" "t1" "w1" "Sign up" "draft" (Raw (JObject [("fields", JArray [])])) None 0 0]} ∅ []
  (MkCDB ∅ (Audit.MkADB [] ∅ 0) {["f1"; ""]} 5).
Lemma PublishForm_idempotent_witness : exists v d1, PublishForm (fun _ => true) anyone "f1" "u1" "k" (Raw (JObject [])) one_form = (Ok v, d1) /\
  fw_Version v = 1 /\ PublishForm (fun _ => true) anyone "f1" "u1" "k" (Raw JNull) d1 = (Ok v, d1).
Proof.
  destruct (PublishForm (fun _ => true) anyone "f1" "u1" "k" (Raw (JObject [])) one_form) as [r d1] eqn:E.
  pose proof E as E'. vm_compute in E'. injection E' as <- <-. eexists _, _. split; [reflexivity|]. split; [reflexivity|].
  eapply (PublishForm_idempotent (fun _ => true) anyone "f1" "u1" "k" (Raw (JObject [])) (Raw JNull) one_form); [|reflexivity|exact E].
  split; [|set_solver]. intros k f. simpl. intros [<- <-]%lookup_singleton_Some. reflexivity.
Defined.
End Again.

(** ** Flags *)

Module Around.
Import FlagsDB.

Section around.
Context (uuid_ok : string -> bool).

(** A flag as the columns store it. *)
Definition well_formed (f : FeatureFlag) : Prop := normalizeFeatureFlag f = Ok f /\ (exists f', stored f = Ok f') /\ ff_ID f <> "".

Lemma normalize_status f s : normalizeFeatureFlag f = Ok f -> mem s flag_statuses = true -> normalizeFeatureFlag (set_status s f) = Ok (set_status s f).
Proof.
  intros Hf Hs. assert (Hne : s <> "") by (intros ->; by vm_compute in Hs). apply seqb_false in Hne.
  assert (He : ff_Environment f =s "" = false).
  { apply seqb_false. intros E. revert Hf. unfold normalizeFeatureFlag, or_default. rewrite E. simpl.
    repeat match goal with |- (if ?b then Err _ else _) = _ -> _ => destruct b; [done|] end. intros [= Hq]. apply (f_equal ff_Environment) in Hq.
    simpl in Hq. congruence. }
  revert Hf. unfold normalizeFeatureFlag, or_default, set_status, set_env_status.
  cbn [ff_Key ff_FlagType ff_Environment ff_Status ff_Seed ff_RolloutPct]. rewrite He, Hne.
  repeat match goal with |- (if ?b then Err _ else _) = _ -> _ => destruct b; [done|] end. intros _. by rewrite Hs.
Qed.

Lemma stored_status f f' s : stored f = Ok f' -> stored (set_status s f) = Ok (set_status s f').
Proof.
  unfold stored. simpl. unfold mbind, result_bind. destruct (mapM_result stored_variant _); [|done]. destruct (mapM_result stored_rule _); [|done].
  destruct (jsonb_column _); [|done]. by intros [= <-].
Qed.

(** Nothing is published through the publication endpoint... *)
Lemma publish_endpoint_fails p id d : exists e, publishFeatureFlag uuid_ok p id d = (Err e, d).
Proof. unfold publishFeatureFlag, PublishFeatureFlag. destruct (negb (isHuman p)); [by eexists|]. destruct (p_UserID p =s ""); by eexists. Qed.

(** ...nor by the store under the columns of the migration... *)
Lemma publish_store_fails p id a k d : kb_version_columns d = migration_050 -> exists e, PublishFeatureFlag uuid_ok p id a k d = (Err e, d).
Proof.
  intros Hm. destruct (PublishFeatureFlag uuid_ok p id a k d) as [r d'] eqn:H. unfold PublishFeatureFlag in H.
  destruct (a =s ""); [injection H as <- <-; by eexists|]. destruct (k =s ""); [injection H as <- <-; by eexists|].
  unfold mbind at 1, M_bind at 1 in H. destruct (CheckMakerChecker p "flags" id "" d) as [[[]|e] d1] eqn:Hc; pose proof (check_pure _ _ _ _ _ _ _ Hc) as ->;
    [|injection H as <- <-; by eexists].
  apply tx_cases in H as [(o & -> & H)|[[e ->] ->]]; [|by eexists]. exfalso. unfold put_flag in H.
  repeat (cbn beta zeta in H; first
    [ (let E := fresh "E" in apply bindM_Ok in H as (? & ? & E & H); statement E) | match type of H with (if ?b then _ else _) _ = _ => destruct b eqn:Hb end; try discriminate H]).
  rewrite Hm in H. replace (negb (forallb (fun c => mem c migration_050) returning)) with true in H by reflexivity. discriminate H.
Qed.

(** Flags are published only around the separation of duties: for any
    policies and any log, the publication endpoint fails and so does the store's
    operation under the schema the migrations create; while any signed-in user of
    the workspace publishes any well-formed flag, his own draft included, by setting its
    status, after which it is served if it is enabled. *)
Theorem flags_published_around_checker p id a k d f : kb_version_columns d = migration_050 ->
  isHuman p = true -> GetFeatureFlag p id d = Ok f -> ff_ID f = id -> well_formed f ->
  fails (publishFeatureFlag uuid_ok p id) d /\ fails (PublishFeatureFlag uuid_ok p id a k) d /\
  exists out d', setFlagStatus uuid_ok p id "published" d = (Ok out, d') /\ kb_flags d' = <[id := out]> (kb_flags d) /\
    ff_Status out = "published" /\ ff_CurrentVersionID out = ff_CurrentVersionID f /\
    (ff_Enabled f = true -> out ∈ ListActiveFlags (p_TenantID p) (ff_AppID f) (ff_Environment f) d').
Proof.
  intros Hm Hh Hg Hid (Hn & (f' & Hs) & Hne). split; [apply publish_endpoint_fails|]. split; [by apply publish_store_fails|].
  assert (Hrun : exists q, setFlagStatus uuid_ok p id "published" d =
    (Ok (updated (cd_now (kb_common d)) (set_status "published" f') f),
     set_common (set_audit q (kb_common d)) (set_flags (<[id := updated (cd_now (kb_common d)) (set_status "published" f') f]> (kb_flags d)) d))).
  { unfold setFlagStatus. rewrite Hh. change (mem "published" flag_statuses) with true. cbn [negb].
    unfold mbind at 1, M_bind at 1, reads at 1. rewrite Hg. unfold UpdateFeatureFlag. rewrite (normalize_status _ _ Hn) by done.
    unfold lift. set (new := set_status "published" f).
    destruct (audit_eq uuid_ok p "flag.update" "flag" id (JObject [("key", JString (ff_Key f))])
      (set_flags (<[id := updated (cd_now (kb_common d)) (set_status "published" f') f]> (kb_flags d)) d)) as (q & Hq & _). exists q.
    eapply tx_eq. unfold mbind, M_bind. replace (ff_ID new =s "") with false by (symmetry; by apply seqb_false).
    unfold new. rewrite (stored_status _ _ _ Hs). change (ff_ID (set_status "published" f')) with (ff_ID f').
    assert (Hf' : ff_ID f' = ff_ID f).
    { revert Hs. unfold stored, mbind, result_bind. destruct (mapM_result stored_variant _); [|done]. destruct (mapM_result stored_rule _); [|done].
      destruct (jsonb_column _); [|done]. by intros [= <-]. }
    unfold reads, gets. rewrite Hf', Hid, Hg. unfold put_flag, modify. change (ff_ID (updated _ _ f)) with (ff_ID f).
    change (ff_Key (updated _ _ f)) with (ff_Key f). rewrite Hid, Hq. done. }
  destruct Hrun as (q & ->). eexists _, _. split; [reflexivity|]. split; [done|]. split; [done|]. split; [done|]. intros He.
  unfold GetFeatureFlag in Hg. destruct (kb_flags d !! id) as [x|] eqn:Hx; [|done]. destruct (in_workspace p x) eqn:Hw; [|done].
  injection Hg as ->. unfold in_workspace in Hw. apply andb_prop in Hw as [Ht _].
  unfold ListActiveFlags. rewrite GoMap.sort_by_perm. apply list_elem_of_filter. split.
  - unfold is_live. simpl. rewrite Ht, !seqb_refl. simpl.
    revert Hs. unfold stored, mbind, result_bind. destruct (mapM_result stored_variant _); [|done]. destruct (mapM_result stored_rule _); [|done].
    destruct (jsonb_column _); [|done]. intros [= <-]. done.
  - apply list_elem_of_fmap. eexists (id, _). split; [done|]. apply elem_of_map_to_list. simpl. by rewrite lookup_insert_eq.
Qed.
End around.

Definition own_draft : FeatureFlag := MkFeatureFlag "g1" "t1" "w1" "a1" "production" "beta" None None "boolean" (Raw (JBool true)) [] [] 50 "s" true
  "draft" None 0 0.
Definition flag_owner : Principal := MkPrincipal "t1" "w1" "a1" "" "u1" "user" [].
(** The policy is on and the flag is u1's own. *)
Definition guarded_flags : KDB := MkKDB {["g1" := own_draft]} ∅ migration_050 {["a1"]} {["u1"]}
  (MkCDB {[("t1", "flags") := MkMakerCheckerPolicy "m1" "t1" "flags" true]} (Audit.MkADB [] ∅ 0) {["g1"; "m1"]} 5).
Lemma flags_published_around_checker_witness :
  fails (PublishFeatureFlag (fun _ => true) flag_owner "g1" "u1" "k") guarded_flags /\
  exists out d', setFlagStatus (fun _ => true) flag_owner "g1" "published" guarded_flags = (Ok out, d') /\ out ∈ ListActiveFlags "t1" "a1" "production" d'.
Proof.
  destruct (flags_published_around_checker (fun _ => true) flag_owner "g1" "u1" "k" guarded_flags own_draft) as (_ & H & out & d' & Hr & _ & _ & _ & He);
    [reflexivity|reflexivity|reflexivity|reflexivity| |].
  - split; [reflexivity|]. split; [by eexists|discriminate].
  - split; [exact H|]. exists out, d'. split; [exact Hr|]. apply He. reflexivity.
Defined.
End Around.

(** ** Landing pages *)

(** Two tenants with the same slug: the reader gets the page that PostgreSQL
    finds first. *)
Definition page_of (t id : string) : Pages.LandingPage := Pages.MkLandingPage id t "w" "welcome" t "published" (Raw (JObject [])) (Some (id +:+ "v")) 1 0.
Definition version_of (t id : string) : Pages.PageVersion := Pages.MkPageVersion (id +:+ "v") id t 1 (Raw (JString t)) "k" "u" 0.
Definition two_tenants : Pages.GDB := Pages.MkGDB {["p1" := page_of "acme" "p1"; "p2" := page_of "rival" "p2"]}
  {["p1v" := version_of "acme" "p1"; "p2v" := version_of "rival" "p2"]} (MkCDB ∅ (Audit.MkADB [] ∅ 0) ∅ 0).
Lemma slug_crosses_tenants :
  Pages.slug_taken (MkPrincipal "rival" "w" "" "" "u" "user" []) "welcome" "p2" two_tenants = false /\
  Pages.GetPublishedLandingPage (fun m => map_to_list m) "welcome" two_tenants <>
  Pages.GetPublishedLandingPage (fun m => reverse (map_to_list m)) "welcome" two_tenants.
Proof. split; by vm_compute. Qed.

(** ** Prompts *)

Module PromptHazards.
Import Prompts.

(** Under migration 063 a version that is not active yet cannot become so. *)
Lemma prompts_append_only uuid_ok p id n a k d v : mb_append_only d = true -> (forall i w, mb_versions d !! i = Some w -> pv_ID w = i) ->
  GetPromptVersionByNumber p id n d = Ok v -> pv_Status v <> "active" -> fails (PublishPromptVersion uuid_ok p id n a k) d.
Proof.
  intros Hm Hk Hg Hs. unfold fails. destruct (PublishPromptVersion uuid_ok p id n a k d) as [r d'] eqn:H. unfold PublishPromptVersion in H.
  destruct (a =s ""); [injection H as <- <-; by eexists|]. destruct (k =s ""); [injection H as <- <-; by eexists|].
  destruct (_ || _); [injection H as <- <-; by eexists|].
  unfold mbind at 1, M_bind at 1 in H. destruct (CheckMakerChecker p "prompts" id "" d) as [[[]|e] d1] eqn:Hc; pose proof (check_pure _ _ _ _ _ _ _ Hc) as ->;
    [|injection H as <- <-; by eexists].
  apply tx_cases in H as [(o & -> & H)|[[e ->] ->]]; [|by eexists]. exfalso.
  apply bindM_Ok in H as (w & d1 & E & H). apply reads_Ok in E as [E ->]. rewrite Hg in E. injection E as <-.
  apply seqb_false in Hs. rewrite Hs in H. destruct (negb _) in H; [done|].
  apply bindM_Ok in H as ([] & d1 & E & H). unfold update_versions, touch_versions in E. rewrite Hm in E. simpl in E.
  destruct (reaches _ d) eqn:Er in E; [done|]. injection E as <-. destruct (negb (uuid_ok a)); [done|].
  apply bindM_Ok in H as (now & d2 & E & H). unfold gets in E. injection E as <- <-.
  apply bindM_Ok in H as ([] & d2 & E & H). unfold update_versions, touch_versions, set_versions in E. simpl in E. rewrite Hm in E. simpl in E.
  match type of E with (if ?b then _ else _) = _ => replace b with true in E; [done|symmetry] end.
  unfold GetPromptVersionByNumber in Hg. destruct (find_first _ _) as [[i x]|] eqn:Ef; [|done]. injection Hg as ->.
  apply find_first_Some in Ef as [Hin Hq]. apply elem_of_map_to_list in Hin. unfold reaches in *. apply existsb_exists.
  simpl in Hq. unfold numbered in Hq. apply andb_prop in Hq as [[Ht _]%andb_prop _].
  set (g := fun w => if is_active (p_TenantID p) id w then archive w else w). exists (i, g v). split.
  - apply list_elem_of_In, elem_of_map_to_list. simpl. by rewrite lookup_fmap, Hin.
  - unfold is_version. simpl. assert (Hgv : pv_TenantID (g v) = pv_TenantID v /\ pv_ID (g v) = pv_ID v) by (unfold g; by destruct (is_active _ _ v)).
    destruct Hgv as [-> ->]. by rewrite Ht, seqb_refl.
Qed.
End PromptHazards.

(** ** Witnesses *)

Definition editor : Principal := MkPrincipal "t1" "w1" "a1" "" "u1" "user" [].
Definition checker : Principal := MkPrincipal "t1" "w1" "a1" "" "u2" "user" [].
Definition every_policy : gmap (string * string) MakerCheckerPolicy :=
  {[("t1", "journeys") := MkMakerCheckerPolicy "m1" "t1" "journeys" true; ("t1", "journey") := MkMakerCheckerPolicy "m6" "t1" "journey" true;
    ("t1", "flags") := MkMakerCheckerPolicy "m2" "t1" "flags" true; ("t1", "forms") := MkMakerCheckerPolicy "m3" "t1" "forms" true;
    ("t1", "pages") := MkMakerCheckerPolicy "m4" "t1" "pages" true; ("t1", "prompts") := MkMakerCheckerPolicy "m5" "t1" "prompts" true]}.
Definition edited : CDB := MkCDB every_policy
  (audit (W:=CDB) (fun _ => true) editor "journey.create" "journey" "j1" JNull (MkCDB ∅ (Audit.MkADB [] ∅ 0) ∅ 0)).2.(cd_audit) {["j1"]} 0.

Lemma CheckMakerChecker_iff_witness :
  CheckMakerChecker checker "journey" "j1" "" edited = (Ok tt, edited) /\ CheckMakerChecker editor "journey" "j1" "" edited <> (Ok tt, edited).
Proof.
  split.
  - apply (CheckMakerChecker_iff checker "journey" "j1" "" edited); [discriminate|]. split; [reflexivity|]. split; [discriminate|].
    right. exists "u1". split; [discriminate|]. set (l := actors _ _ _ _ _). vm_compute in l. subst l. set_solver.
  - intros H. apply (CheckMakerChecker_iff editor "journey" "j1" "" edited) in H as (_ & _ & [H|(a & Ha & Hin & Hn)]); [by vm_compute in H| |discriminate].
    revert Hn. set (l := actors _ _ _ _ _). vm_compute in l. subst l. set_solver.
Defined.

Lemma edited_log : log_ok edited.
Proof. intros e He. vm_compute in He. apply list_elem_of_singleton in He as ->. by apply mem_In. Qed.
Lemma policy_blocks_everyone_witness :
  fails (JourneyPublish.PublishJourney (fun _ => true) Some checker "j1" "u2" "k") (JourneyPublish.MkJPDB ∅ ∅ ∅ edited).
Proof.
  apply (policy_blocks_everyone (fun _ => true) Some checker); [exact edited_log|]. eexists. split; reflexivity.
Defined.

Module JourneyWitness.
Import JourneyPublish Journeys Graph.

Definition empty_journeys : JPDB := MkJPDB ∅ ∅ ∅ (MkCDB ∅ (Audit.MkADB [] ∅ 0) {[""]} 7).
Definition graph_json : json := match marshal_graph JNodes.demo_graph with Ok j => j | Err _ => JNull end.
Definition new_journey : Journey := MkJourney "" "" "" "Sign up" None "" (Raw graph_json) 0 None 0 0.
Definition created : JPDB := (CreateJourney (fun _ => true) editor new_journey empty_journeys).2.
Definition journey_id : string := match map_to_list (jp_journeys created) with (k, _) :: _ => k | [] => "" end.
Definition published : JPDB := (PublishJourney (fun _ => true) Some editor journey_id "u1" "k" created).2.

Lemma journey_versions_sound_witness : (exists v, jv_Version v = 1 /\ jv_EntryKind v = "event" /\ exists k, jp_versions published !! k = Some v) /\
  jinv published /\ frozen empty_journeys published.
Proof.
  split.
  - destruct (map_to_list (jp_versions published)) as [|[k v] l] eqn:E; [by vm_compute in E|]. exists v.
    assert (Hk : jp_versions published !! k = Some v) by (apply elem_of_map_to_list; rewrite E; by left).
    vm_compute in E. injection E as <- <- _. split; [reflexivity|]. split; [reflexivity|]. by eexists.
  - apply (journey_versions_sound (fun _ => true) Some empty_journeys published).
    + split; simpl; try (intros *; by rewrite lookup_empty). set_solver.
    + eapply rtc_l; [eapply (StepCreate _ _ _ editor new_journey); apply surjective_pairing|].
      eapply rtc_l; [eapply (StepPublish _ _ _ editor journey_id "u1" "k"); apply surjective_pairing|]. apply rtc_refl.
Defined.
End JourneyWitness.

End PublishingHazards.
