(* ===== verification/Jsonb.v ===== *)
(** * What a [jsonb] column holds

    The values [jsonb] gives are those it leaves alone: objects sorted by key,
    all the way down.  Parsing such a graph gives nodes whose configurations
    are such values again. *)

From S2P Require Import Prelude.
From S2P Require Import GoStd.
From S2P Require Import GoMap.
From S2P Require Import AuditLog.
From S2P Require Import AuditSpec.
From S2P Require Import JourneyGraph.

Module Jsonb.
Import Audit Graph.

Inductive normal : json -> Prop :=
  | normal_null : normal JNull
  | normal_bool b : normal (JBool b)
  | normal_number s : normal (JNumber s)
  | normal_string s : normal (JString s)
  | normal_array l : Forall normal l -> normal (JArray l)
  | normal_object l : Forall (fun kv => normal kv.2) l -> StronglySorted (GoMap.in_order key_less) l -> normal (JObject l).

(** The members with their values in normal form. *)
Definition jsonb_members (l : list (string * json)) : list (string * json) := (fun kv => (kv.1, jsonb kv.2)) <$> l.
Lemma jsonb_object l : jsonb (JObject l) = JObject (GoMap.sort_by key_less (jsonb_members l)).
Proof.
  simpl. f_equal. f_equal. induction l as [|[k v] l IH]; [done|]. cbn [jsonb_members fmap list_fmap]. by rewrite IH.
Qed.
Lemma jsonb_array l : jsonb (JArray l) = JArray (jsonb <$> l).
Proof. done. Qed.

Lemma key_less_asym a b : key_less a b = true -> key_less b a = false.
Proof.
  unfold key_less. rewrite (Nat.eqb_sym (String.length b.1)).
  destruct (String.length a.1 =? String.length b.1)%nat eqn:E; [apply Nat.eqb_eq in E|apply Nat.eqb_neq in E];
    rewrite ?E, ?Nat.ltb_irrefl; simpl; [apply GoMap.str_less_asym|].
  rewrite !orb_false_r. intros H%Nat.ltb_lt. apply Nat.ltb_ge. lia.
Qed.
Lemma key_less_trans a b c : key_less b a = false -> key_less c b = false -> key_less c a = false.
Proof.
  unfold key_less. rewrite !orb_false_iff, !andb_false_iff, !Nat.ltb_ge, !Nat.eqb_neq.
  intros [H1 H2] [H3 H4]. split; [lia|].
  destruct (decide (String.length c.1 = String.length a.1)) as [E|]; [right|by left].
  destruct H2 as [|H2]; [lia|]. destruct H4 as [|H4]; [lia|]. by apply (GoMap.str_less_trans _ b.1).
Qed.

Section ind.
Context (P : json -> Prop) (Hnull : P JNull) (Hbool : forall b, P (JBool b)) (Hnum : forall s, P (JNumber s)) (Hstr : forall s, P (JString s))
  (Harr : forall l, Forall P l -> P (JArray l)) (Hobj : forall l, Forall (fun kv => P kv.2) l -> P (JObject l)).
Fixpoint json_nested (j : json) : P j :=
  match j with
  | JNull => Hnull | JBool b => Hbool b | JNumber s => Hnum s | JString s => Hstr s
  | JArray l => Harr l ((fix go l : Forall P l := match l with [] => Forall_nil_2 _ | x :: l' => Forall_cons_2 _ _ _ (json_nested x) (go l') end) l)
  | JObject l => Hobj l ((fix go l : Forall (fun kv : string * json => P kv.2) l :=
      match l with [] => Forall_nil_2 _ | x :: l' => Forall_cons_2 _ _ _ (json_nested x.2) (go l') end) l)
  end.
End ind.

Lemma normal_jsonb j : normal (jsonb j).
Proof.
  induction j as [| | | |l IH|l IH] using json_nested; try (by constructor).
  - constructor. apply Forall_fmap. eapply Forall_impl; [exact IH|done].
  - rewrite jsonb_object. constructor.
    + rewrite GoMap.sort_by_perm. apply Forall_fmap. eapply Forall_impl; [exact IH|done].
    + apply GoMap.sort_by_sorted; [apply key_less_asym|apply key_less_trans].
Qed.

Lemma sort_by_sorted_id {A} (less : A -> A -> bool) l : StronglySorted (GoMap.in_order less) l -> GoMap.sort_by less l = l.
Proof.
  induction l as [|x l IH] using rev_ind; [done|]. intros Hs. rewrite AuditSpec.sort_by_snoc.
  assert (H : StronglySorted (GoMap.in_order less) l /\ Forall (fun y => less x y = false) l).
  { clear IH. induction l as [|y l IH]; [split; [constructor|done]|]. inversion Hs as [|? ? Hs' Hf]; subst.
    destruct (IH Hs') as [H1 H2]. apply Forall_app in Hf as [Hf1 Hf2]. split; [by constructor|]. constructor; [|done]. by inversion Hf2. }
  destruct H as [H1 H2]. rewrite (IH H1). by apply AuditSpec.insert_last.
Qed.
Lemma normal_fixed j : normal j -> jsonb j = j.
Proof.
  induction j as [| | | |l IH|l IH] using json_nested; intros Hn; try done; inversion Hn as [| | | |? Hl|? Hl Hs]; subst.
  - rewrite jsonb_array. f_equal. clear Hn. induction Hl as [|x l Hx Hl IHl]; [done|]. inversion IH; subst. cbn [fmap list_fmap].
    f_equal; [auto|by apply IHl].
  - rewrite jsonb_object. f_equal. assert (E : jsonb_members l = l); [|by rewrite E; apply sort_by_sorted_id]. clear Hn Hs.
    induction Hl as [|[k v] l Hx Hl IHl]; [done|]. inversion IH; subst. cbn [jsonb_members fmap list_fmap] in *.
    f_equal; [simpl in *; f_equal; auto|by apply IHl].
Qed.
Lemma normal_iff j : normal j <-> jsonb j = j.
Proof. split; [apply normal_fixed|]. intros <-. apply normal_jsonb. Qed.

(** ** The configurations of a parsed graph *)

Definition config_normal (n : Node) : Prop := match Config n with Raw j => normal j | RawEmpty => True | RawBad _ => False end.

Lemma members_pres {T} (fs : list (string * Json.setter T)) (I : T -> Prop) l x x' :
  Forall (fun kv => normal kv.2) l ->
  (forall k set_ v y y', Json.find_field fs k = Some set_ -> normal v -> set_ v y = Some y' -> I y -> I y') ->
  Json.members fs l x = Some x' -> I x -> I x'.
Proof.
  intros Hl Hs. revert x. induction Hl as [|[k v] l Hv Hl IH]; intros x; cbn [Json.members]; [by intros [= <-]|].
  destruct (Json.find_field fs k) as [set_|] eqn:E; [|apply IH]. destruct (set_ v x) as [y|] eqn:Ey; [|done].
  intros H Hx. eapply IH; [exact H|]. by eapply Hs.
Qed.
Lemma find_field_In {T} (fs : list (string * Json.setter T)) k set_ : Json.find_field fs k = Some set_ -> exists k', (k', set_) ∈ fs.
Proof.
  unfold Json.find_field. destruct (find_first _ fs) as [[k' s]|] eqn:E.
  - intros [= <-]. apply find_first_Some in E as [E _]. by exists k'.
  - destruct (find_first (fun p : string * Json.setter T => Json.fold_name p.1 =s Json.fold_name k) fs) as [[k' s]|] eqn:E2; [|done].
    intros H. injection H as <-. apply find_first_Some in E2 as [E2 _]. by exists k'.
Qed.

Lemma decode_node_normal j n : normal j -> Json.decode_struct node_fields j (MkNode "" "" RawEmpty) = Some n -> config_normal n.
Proof.
  intros Hj. destruct j as [| | | | |l]; try done; [by intros [= <-]|]. inversion Hj as [| | | | |? Hl _]; subst. intros H.
  eapply (members_pres node_fields config_normal); [exact Hl| |exact H|done].
  intros k set_ v y y' [k' Hin]%find_field_In Hv Hs Hy. unfold node_fields in Hin.
  repeat (apply elem_of_cons in Hin as [[= -> ->]|Hin]); [..|by apply elem_of_nil in Hin].
  1,2: unfold Json.set_string in Hs; destruct v; inv_ok; done.
  unfold Json.set_raw in Hs. injection Hs as <-. exact Hv.
Qed.
Lemma map_opt_Forall {A B} (f : A -> option B) (P : A -> Prop) (Q : B -> Prop) l k :
  (forall a b, P a -> f a = Some b -> Q b) -> Forall P l -> Json.map_opt f l = Some k -> Forall Q k.
Proof.
  intros H Hl. revert k. induction Hl as [|a l Ha Hl IH]; intros k; cbn [Json.map_opt]; [by intros [= <-]|].
  destruct (f a) as [b|] eqn:E; [|done]. destruct (Json.map_opt f l) as [bs|]; [|done]. intros [= <-]. constructor; [by eapply H|by apply IH].
Qed.
Lemma ParseGraph_normal j g : normal j -> ParseGraph (Raw j) = Ok g -> Forall config_normal (Nodes g).
Proof.
  intros Hj H. unfold ParseGraph in H. apply bind_Ok in H as (x & Hx & H). apply bind_Ok in H as (cs & _ & H). inv_M.
  unfold Json.Unmarshal, Json.parse in Hx. cbn [mbind result_bind] in Hx. destruct (Json.decode_struct _ _ _) as [y|] eqn:E; [|done]. injection Hx as <-.
  destruct j as [| | | | |l]; try done; [by injection E as <-|]. inversion Hj as [| | | | |? Hl _]; subst.
  eapply (members_pres graph_fields (fun g => Forall config_normal (Nodes g))); [exact Hl| |exact E|done].
  intros k set_ v z z' [k' Hin]%find_field_In Hv Hs Hz. unfold graph_fields in Hin.
  repeat (apply elem_of_cons in Hin as [[= -> ->]|Hin]); [..|by apply elem_of_nil in Hin].
  - unfold Json.set_string in Hs. destruct v; inv_ok; done.
  - unfold Json.set_list in Hs. destruct v as [| | | |vs|]; inv_ok; [done|]. destruct (Json.map_opt _ vs) as [ns|] eqn:En; [|done]. injection Hs as <-.
    inversion Hv; subst. eapply map_opt_Forall; [|eassumption|exact En]. intros a b. apply decode_node_normal.
  - unfold Json.set_list in Hs. destruct v as [| | | |vs|]; inv_ok; [done|]. destruct (Json.map_opt _ vs); [|done]. by injection Hs as <-.
Qed.
End Jsonb.
