(* ===== verification/ExperimentDB.v ===== *)
(** * The tables of experiments (src/internal/postgres/experiments.go,
    ExperimentReport in src/internal/postgres/analytics.go)

    Experiments with their variants, the assignments of profiles, the report
    that recommends a winner, and the proposals and versions made of it. *)

From S2P Require Import Prelude.
From S2P Require Import GoStd.
From S2P Require Import GoMap.
From S2P Require Import GoFloat.
From S2P Require Import Domain.
From S2P Require Import Store.
From S2P Require Import AuditLog.
From S2P Require Import GoFmt.
From S2P Require Import Facts.
From S2P Require Import MakerChecker.
From S2P Require Import Campaigns.
From S2P Require Import Statistics.

Module ExperimentDB.
Import MakerChecker Statistics.

(** ** Records *)

Record OptimizationProposal : Type := MkOptimizationProposal {
  op_ID : string; op_TenantID : string; op_WorkspaceID : string; op_ExperimentID : string; op_Kind : string; op_ReportSnapshot : RawMessage;
  op_ProposedWeights : RawMessage; op_WinnerVariant : option string; op_Rationale : string; op_Status : string; op_ApprovedBy : option string;
  op_ApprovedAt : option Z; op_CreatedAt : Z
}.
(** [ev_ProposalID] is a column the Go struct does not read; the [variants]
    column is the list it encodes. *)
Record ExperimentVersion : Type := MkExperimentVersion {
  ev_ID : string; ev_ExperimentID : string; ev_ProposalID : string; ev_TenantID : string; ev_WorkspaceID : string; ev_Version : Z;
  ev_Seed : string; ev_HoldoutPct : Z; ev_Variants : list ExperimentVariant; ev_ApprovedBy : string; ev_CreatedAt : Z
}.

(** The rows of [experiments] have no variants: those are a table. *)
Record EDB : Type := MkEDB {
  ed_experiments : gmap string Experiment;
  ed_variants : gmap string ExperimentVariant;
  ed_assignments : gmap (string * string) ExperimentAssignment;
  ed_proposals : gmap string OptimizationProposal;
  ed_versions : gmap string ExperimentVersion;
  ed_campaigns : gmap string Campaigns.Campaign;
  ed_journeys : gmap string Journey;
  ed_journey_versions : gmap string JourneyVersion;
  ed_attempts : list Facts.Attempt;
  ed_intents : gmap string JourneyMessageIntent;
  ed_conversions : list Facts.ConversionFact;
  ed_templates : gset string;
  ed_profiles : gset string;
  ed_users : gset string;
  ed_common : CDB
}.
Definition set_experiments v d := MkEDB v (ed_variants d) (ed_assignments d) (ed_proposals d) (ed_versions d) (ed_campaigns d) (ed_journeys d)
  (ed_journey_versions d) (ed_attempts d) (ed_intents d) (ed_conversions d) (ed_templates d) (ed_profiles d) (ed_users d) (ed_common d).
Definition set_variants v d := MkEDB (ed_experiments d) v (ed_assignments d) (ed_proposals d) (ed_versions d) (ed_campaigns d) (ed_journeys d)
  (ed_journey_versions d) (ed_attempts d) (ed_intents d) (ed_conversions d) (ed_templates d) (ed_profiles d) (ed_users d) (ed_common d).
Definition set_assignments v d := MkEDB (ed_experiments d) (ed_variants d) v (ed_proposals d) (ed_versions d) (ed_campaigns d) (ed_journeys d)
  (ed_journey_versions d) (ed_attempts d) (ed_intents d) (ed_conversions d) (ed_templates d) (ed_profiles d) (ed_users d) (ed_common d).
Definition set_proposals v d := MkEDB (ed_experiments d) (ed_variants d) (ed_assignments d) v (ed_versions d) (ed_campaigns d) (ed_journeys d)
  (ed_journey_versions d) (ed_attempts d) (ed_intents d) (ed_conversions d) (ed_templates d) (ed_profiles d) (ed_users d) (ed_common d).
Definition set_versions v d := MkEDB (ed_experiments d) (ed_variants d) (ed_assignments d) (ed_proposals d) v (ed_campaigns d) (ed_journeys d)
  (ed_journey_versions d) (ed_attempts d) (ed_intents d) (ed_conversions d) (ed_templates d) (ed_profiles d) (ed_users d) (ed_common d).
Definition set_campaigns v d := MkEDB (ed_experiments d) (ed_variants d) (ed_assignments d) (ed_proposals d) (ed_versions d) v (ed_journeys d)
  (ed_journey_versions d) (ed_attempts d) (ed_intents d) (ed_conversions d) (ed_templates d) (ed_profiles d) (ed_users d) (ed_common d).
Definition set_journeys v w d := MkEDB (ed_experiments d) (ed_variants d) (ed_assignments d) (ed_proposals d) (ed_versions d) (ed_campaigns d) v
  w (ed_attempts d) (ed_intents d) (ed_conversions d) (ed_templates d) (ed_profiles d) (ed_users d) (ed_common d).
#[global] Instance common_experiments : HasCommon EDB.
Proof.
  refine {| common := ed_common; set_common c d :=
    MkEDB (ed_experiments d) (ed_variants d) (ed_assignments d) (ed_proposals d) (ed_versions d) (ed_campaigns d) (ed_journeys d)
      (ed_journey_versions d) (ed_attempts d) (ed_intents d) (ed_conversions d) (ed_templates d) (ed_profiles d) (ed_users d) c |};
    [done|by intros []].
Defined.

Abbreviation E := (M EDB).
Definition ErrNoRows : error := Sentinel "no rows in result set".
Definition ErrExperimentWinnerRequired : error := Sentinel "experiment has no recommended winner".
Definition ErrOptimizationUnavailable : error := Sentinel "experiment has no eligible optimization".
Definition now (d : EDB) : Z := cd_now (ed_common d).
Definition in_workspace (p : Principal) (e : Experiment) : bool := (exp_TenantID e =s p_TenantID p) && (exp_WorkspaceID e =s p_WorkspaceID p).

Definition with_variants (vs : list ExperimentVariant) (e : Experiment) : Experiment :=
  MkExperiment (exp_ID e) (exp_TenantID e) (exp_WorkspaceID e) (exp_Name e) (exp_Description e) (exp_SubjectType e) (exp_Status e) (exp_Method e)
    (exp_Seed e) (exp_HoldoutPct e) (exp_PrimaryGoal e) (exp_GuardrailGoals e) (exp_WinnerVariant e) vs (exp_CreatedAt e) (exp_UpdatedAt e).
Definition with_winner (winner : option string) (now : Z) (e : Experiment) : Experiment :=
  MkExperiment (exp_ID e) (exp_TenantID e) (exp_WorkspaceID e) (exp_Name e) (exp_Description e) (exp_SubjectType e) (exp_Status e) (exp_Method e)
    (exp_Seed e) (exp_HoldoutPct e) (exp_PrimaryGoal e) (exp_GuardrailGoals e) winner (exp_Variants e) (exp_CreatedAt e) now.
Definition set_exp_status (status : string) (now : Z) (e : Experiment) : Experiment :=
  MkExperiment (exp_ID e) (exp_TenantID e) (exp_WorkspaceID e) (exp_Name e) (exp_Description e) (exp_SubjectType e) status (exp_Method e)
    (exp_Seed e) (exp_HoldoutPct e) (exp_PrimaryGoal e) (exp_GuardrailGoals e) (exp_WinnerVariant e) (exp_Variants e) (exp_CreatedAt e) now.
Definition put_experiment (e : Experiment) : E unit := modify (fun d => set_experiments (<[exp_ID e := e]> (ed_experiments d)) d).

(** ** Experiments *)

Definition normalizeExperiment (e : Experiment) : result Experiment :=
  if (exp_Name e =s "") || (exp_SubjectType e =s "") || (exp_Seed e =s "")
  then Err (errors_New "experiment name, subject_type, and seed are required")
  else Ok (MkExperiment (exp_ID e) (exp_TenantID e) (exp_WorkspaceID e) (exp_Name e) (exp_Description e) (exp_SubjectType e)
             (if exp_Status e =s "" then "draft" else exp_Status e) (if exp_Method e =s "" then "frequentist" else exp_Method e)
             (exp_Seed e) (exp_HoldoutPct e) (exp_PrimaryGoal e)
             (if raw_len0 (exp_GuardrailGoals e) then Raw (JArray []) else exp_GuardrailGoals e)
             (exp_WinnerVariant e) (exp_Variants e) (exp_CreatedAt e) (exp_UpdatedAt e)).

(** A [jsonb] column that [nullableJSON] feeds. *)
Definition nullableJSON (value : RawMessage) : result RawMessage :=
  match value with
  | RawEmpty => Ok RawEmpty
  | Raw j => Ok (Raw (Audit.jsonb j))
  | RawBad _ => Err bad_input
  end.
(** The CHECKs of the table. *)
Definition check_experiment (e : Experiment) : result unit :=
  if mem (exp_SubjectType e) ["campaign"; "journey"] && mem (exp_Status e) ["draft"; "running"; "completed"; "archived"] &&
     (exp_Method e =s "frequentist") && (0 <=? exp_HoldoutPct e) && (exp_HoldoutPct e <=? 100)
  then Ok tt else Err check_violation.

Section ops.
Context (uuid_ok : string -> bool).

(** One row of [experiment_variants]; the loop variable is a pointer into the
    caller's slice, which so gets the new id and time. *)
Definition insert_variant (tenantID experimentID : string) (v : ExperimentVariant) : E ExperimentVariant :=
  if xv_Label v =s "" then throw (errors_New "variant label is required")
  else if negb (integer_ok (xv_Weight v)) || negb (match xv_TemplateID v with Some t => uuid_ok t | None => true end) then throw bad_input
  else if xv_Weight v <? 0 then throw check_violation else
  taken ← gets (fun d => existsb (fun kv => (xv_ExperimentID kv.2 =s experimentID) && (xv_Label kv.2 =s xv_Label v)) (map_to_list (ed_variants d)));
  if taken : bool then throw unique_violation else
  templates ← gets ed_templates;
  if negb (match xv_TemplateID v with Some t => bool_decide (t ∈ templates) | None => true end) then throw fk_violation else
  id ← new_id;
  now ← gets now;
  let row := MkExperimentVariant id experimentID tenantID (xv_Label v) (xv_Weight v) (xv_IsControl v) (xv_TemplateID v) now in
  _ ← modify (fun d => set_variants (<[id := row]> (ed_variants d)) d);
  mret row.
Fixpoint insertExperimentVariants (tenantID experimentID : string) (variants : list ExperimentVariant) : E (list ExperimentVariant) :=
  match variants with
  | [] => mret []
  | v :: rest => v ← insert_variant tenantID experimentID v; rest ← insertExperimentVariants tenantID experimentID rest; mret (v :: rest)
  end.

Definition CreateExperiment (p : Principal) (input : Experiment) : E Experiment :=
  e ← lift (normalizeExperiment input);
  tx (
    if negb (integer_ok (exp_HoldoutPct e)) then throw bad_input else
    primary ← lift (nullableJSON (exp_PrimaryGoal e));
    guardrails ← lift (jsonb_column (exp_GuardrailGoals e));
    _ ← lift (check_experiment e);
    id ← new_id;
    now ← gets now;
    let out := MkExperiment id (p_TenantID p) (p_WorkspaceID p) (exp_Name e) (exp_Description e) (exp_SubjectType e) (exp_Status e) (exp_Method e)
                 (exp_Seed e) (exp_HoldoutPct e) primary guardrails (exp_WinnerVariant e) [] now now in
    _ ← put_experiment out;
    variants ← insertExperimentVariants (p_TenantID p) id (exp_Variants e);
    mret (with_variants variants out)).

(** A row of the caller's workspace; the id is cast to uuid. *)
Definition experiment_row (p : Principal) (id : string) (d : EDB) : result Experiment :=
  if negb (uuid_ok id) then Err bad_input
  else match ed_experiments d !! id with
  | Some e => if in_workspace p e then Ok e else Err ErrNotFound
  | None => Err ErrNotFound
  end.
(** ORDER BY created_at, label. *)
Definition variant_before (a b : ExperimentVariant) : bool :=
  (xv_CreatedAt a <? xv_CreatedAt b) || ((xv_CreatedAt a =? xv_CreatedAt b) && GoMap.str_less (xv_Label a) (xv_Label b)).
Definition listExperimentVariants (p : Principal) (experimentID : string) (d : EDB) : list ExperimentVariant :=
  match experiment_row p experimentID d with
  | Ok _ => GoMap.sort_by variant_before (filter (fun v => (xv_ExperimentID v =s experimentID) = true) (map_to_list (ed_variants d)).*2)
  | Err _ => []
  end.

Definition GetExperiment (p : Principal) (id : string) (d : EDB) : result Experiment :=
  e ← experiment_row p id d;
  Ok (with_variants (listExperimentVariants p id d) e).

Definition ListExperiments (p : Principal) (d : EDB) : list Experiment :=
  GoMap.sort_by (fun a b => exp_CreatedAt b <? exp_CreatedAt a) (filter (fun e => in_workspace p e = true) (map_to_list (ed_experiments d)).*2).

Definition UpdateExperiment (p : Principal) (input : Experiment) : E Experiment :=
  e ← lift (normalizeExperiment input);
  tx (
    if negb (integer_ok (exp_HoldoutPct e)) then throw bad_input else
    primary ← lift (nullableJSON (exp_PrimaryGoal e));
    guardrails ← lift (jsonb_column (exp_GuardrailGoals e));
    old ← reads (experiment_row p (exp_ID e));
    if (exp_Status old =s "running") && negb (exp_Seed old =s exp_Seed e) then throw ErrNotFound else
    _ ← lift (check_experiment e);
    now ← gets now;
    let out := MkExperiment (exp_ID old) (exp_TenantID old) (exp_WorkspaceID old) (exp_Name e) (exp_Description e) (exp_SubjectType e) (exp_Status e)
                 (exp_Method e) (exp_Seed e) (exp_HoldoutPct e) primary guardrails (exp_WinnerVariant e) [] (exp_CreatedAt old) now in
    _ ← put_experiment out;
    _ ← modify (fun d => set_variants (filter (fun kv =>
          ((xv_ExperimentID kv.2 =s exp_ID e) && (xv_TenantID kv.2 =s p_TenantID p)) = false) (ed_variants d)) d);
    variants ← insertExperimentVariants (p_TenantID p) (exp_ID e) (exp_Variants e);
    mret (with_variants variants out)).

(** ** Assignments

    One statement: [snap] is the database when it began, which is what its
    SELECTs see; its INSERT meets the rows committed since. *)
Definition AssignExperiment (snap : EDB) (p : Principal) (experimentID profileID variant : string) : E ExperimentAssignment := fun d =>
  match experiment_row p experimentID snap with
  | Err e => (Err e, d)
  | Ok _ =>
      if negb (uuid_ok profileID) then (Err bad_input, d) else
      match ed_assignments d !! (experimentID, profileID) with
      | None =>
          if negb (bool_decide (profileID ∈ ed_profiles d)) then (Err fk_violation, d) else
          let out := MkExperimentAssignment experimentID (p_TenantID p) (p_WorkspaceID p) profileID variant (now d) in
          (Ok out, set_assignments (<[(experimentID, profileID) := out]> (ed_assignments d)) d)
      | Some _ =>
          match ed_assignments snap !! (experimentID, profileID) with
          | Some a => (Ok a, d)
          | None => (Err ErrNotFound, d)
          end
      end
  end.
(** ** The report *)

Section report.
Context (erfc : Float.float64 -> Float.float64).

Definition is_text (o : option string) (s : string) : bool := match o with Some t => t =s s | None => false end.
(** The rows the two queries count for one variant; a variant without a row
    reads as zero from the Go map. *)
Definition attempt_counts (p : Principal) (id label : string) (d : EDB) (a : Facts.Attempt) : bool :=
  match ed_campaigns d !! Facts.at_CampaignID a with
  | Some c => (Campaigns.cp_TenantID c =s Facts.at_TenantID a) && Campaigns.in_workspace p c
  | None => false
  end && is_text (Facts.at_ExperimentID a) id && mem (Facts.at_Decision a) ["sent"; "holdout"] && is_text (Facts.at_Variant a) label.
Definition intent_counts (p : Principal) (id label : string) (i : JourneyMessageIntent) : bool :=
  (mi_TenantID i =s p_TenantID p) && (mi_WorkspaceID i =s p_WorkspaceID p) && is_text (mi_ExperimentID i) id &&
  match mi_Decision i with Some x => mem x ["sent"; "holdout"] | None => false end && (mi_Variant i =s label).
Definition sends (p : Principal) (e : Experiment) (label : string) (d : EDB) : Z :=
  if exp_SubjectType e =s "campaign" then countb (attempt_counts p (exp_ID e) label d) (ed_attempts d)
  else countb (fun kv => intent_counts p (exp_ID e) label kv.2) (map_to_list (ed_intents d)).
Definition converts (p : Principal) (id label : string) (f : Facts.ConversionFact) : bool :=
  (Facts.cf_TenantID f =s p_TenantID p) && (Facts.cf_WorkspaceID f =s p_WorkspaceID p) && is_text (Facts.cf_ExperimentID f) id &&
  is_text (Facts.cf_Variant f) label.
Definition conversions (p : Principal) (id label goal : string) (d : EDB) : Z :=
  countb (fun f => converts p id label f && (Facts.cf_GoalName f =s goal)) (ed_conversions d).

(** A goal as [_ = json.Unmarshal] reads it: a field of the wrong type is
    skipped, the others are kept. *)
Record Goal : Type := MkGoal { g_EventType : string; g_Name : string }.
Definition goal_fields : list (string * Json.setter Goal) :=
  [("event_type", Json.set_string (fun v g => MkGoal v (g_Name g))); ("name", Json.set_string (fun v g => MkGoal (g_EventType g) v))].
Definition decode_goal (j : json) : Goal :=
  match j with
  | JObject l => fold_left (fun g kv => match Json.find_field goal_fields kv.1 with Some set => default g (set kv.2 g) | None => g end) l (MkGoal "" "")
  | _ => MkGoal "" ""
  end.
Definition goal_name (g : Goal) : string := if g_Name g =s "" then g_EventType g else g_Name g.
Definition primaryGoalName (e : Experiment) : string := match exp_PrimaryGoal e with Raw j => goal_name (decode_goal j) | _ => "" end.
Definition guardrailGoals (e : Experiment) : list string :=
  match exp_GuardrailGoals e with Raw (JArray l) => goal_name <$> (decode_goal <$> l) | _ => [] end.

Definition hasHoldout (p : Principal) (e : Experiment) (d : EDB) : bool :=
  (0 <? exp_HoldoutPct e) || (0 <? sends p e "holdout" d) || existsb (converts p (exp_ID e) "holdout") (ed_conversions d).
Definition allLabels (p : Principal) (e : Experiment) (d : EDB) : list string :=
  (xv_Label <$> exp_Variants e) ++ (if hasHoldout p e d then ["holdout"] else []).
(** [labelToIsControl], the last write of a label winning. *)
Definition labelToIsControl (p : Principal) (e : Experiment) (d : EDB) (label : string) : bool :=
  if hasHoldout p e d && (label =s "holdout") then false
  else match find_first (fun v => xv_Label v =s label) (rev (exp_Variants e)) with Some v => xv_IsControl v | None => false end.

Definition guardrail_report (p : Principal) (e : Experiment) (label : string) (sent : Z) (d : EDB) (goal : string) : ExperimentGuardrail :=
  let gConv := conversions p (exp_ID e) label goal d in
  MkExperimentGuardrail goal gConv (if 0 <? sent then Float.div (Float.of_Z gConv) (Float.of_Z sent) else Float.zero).
Definition variant_report (p : Principal) (e : Experiment) (d : EDB) (label : string) : ExperimentVariantReport :=
  let sent := sends p e label d in
  let conv := conversions p (exp_ID e) label (primaryGoalName e) d in
  let stats := match find_first xv_IsControl (exp_Variants e) with
               | Some c => CompareProportions erfc (sends p e (xv_Label c) d) (conversions p (exp_ID e) (xv_Label c) (primaryGoalName e) d) sent conv
               | None => CompareProportions erfc 0 0 sent conv
               end in
  MkExperimentVariantReport label (labelToIsControl p e d label) sent conv (vs_Rate stats) (vs_Uplift stats) (vs_ZScore stats) (vs_PValue stats)
    (vs_CILow stats) (vs_CIHigh stats) (guardrail_report p e label sent d <$> guardrailGoals e).
Definition report_variants (p : Principal) (e : Experiment) (d : EDB) : list ExperimentVariantReport := variant_report p e d <$> allLabels p e d.

(** The winner is stored when it is not the stored one; the statements do not
    share a transaction. *)
Definition ExperimentReport (p : Principal) (experimentID : string) : E Statistics.ExperimentReport :=
  e ← reads (GetExperiment p experimentID);
  variants ← gets (report_variants p e);
  let winner := recommendWinner erfc variants in
  _ ← (if bool_decide (winner = exp_WinnerVariant e) then mret tt
       else row ← reads (experiment_row p (exp_ID e)); now ← gets now; put_experiment (with_winner winner now row));
  mret (MkExperimentReport experimentID winner variants).

(** [json.Marshal]: no text for a float that is infinite or not a number. *)
Definition unsupported_value : error := errors_New "json: unsupported value".
Definition json_number (f : Float.float64) : result json :=
  if Float.is_nan f || Float.is_inf f then Err unsupported_value else Ok (JNumber (GoFmt.json_float f)).
Definition guardrail_json (g : ExperimentGuardrail) : result json :=
  rate ← json_number (eg_Rate g);
  Ok (JObject [("goal_name", JString (eg_GoalName g)); ("conversions", JNumber (GoStr.of_Z (eg_Conversions g))); ("rate", rate)]).
Definition variant_report_json (v : ExperimentVariantReport) : result json :=
  rate ← json_number (vr_Rate v); uplift ← json_number (vr_Uplift v); z ← json_number (vr_ZScore v); pv ← json_number (vr_PValue v);
  low ← json_number (vr_CILow v); high ← json_number (vr_CIHigh v);
  guardrails ← mapM_result guardrail_json (vr_Guardrails v);
  Ok (JObject [("label", JString (vr_Label v)); ("is_control", JBool (vr_IsControl v)); ("sent", JNumber (GoStr.of_Z (vr_Sent v)));
               ("conversions", JNumber (GoStr.of_Z (vr_Conversions v))); ("rate", rate); ("uplift", uplift); ("z_score", z); ("p_value", pv);
               ("ci_low", low); ("ci_high", high); ("guardrails", JArray guardrails)]).
Definition report_json (r : Statistics.ExperimentReport) : result json :=
  variants ← mapM_result variant_report_json (er_Variants r);
  Ok (JObject ([("experiment_id", JString (er_ExperimentID r))] ++
               (match er_WinnerVariant r with Some w => [("winner_variant", JString w)] | None => [] end) ++ [("variants", JArray variants)])).

(** ** Proposals *)

Definition proposal_for (p : Principal) (experimentID : string) (o : OptimizationProposal) : bool :=
  (op_TenantID o =s p_TenantID p) && (op_WorkspaceID o =s p_WorkspaceID p) && (op_ExperimentID o =s experimentID).
Definition awaiting (p : Principal) (experimentID winner : string) (d : EDB) : list OptimizationProposal :=
  GoMap.sort_by (fun a b => op_CreatedAt b <? op_CreatedAt a)
    (filter (fun o => proposal_for p experimentID o && (op_Status o =s "proposed") && is_text (op_WinnerVariant o) winner = true)
       (map_to_list (ed_proposals d)).*2).
Definition rationale (winner : string) : string :=
  GoFmt.fill "Variant %q is a statistically significant positive winner with no guardrail regression." [winner].

Definition ProposeExperimentOptimization (p : Principal) (experimentID : string) : E OptimizationProposal :=
  report ← ExperimentReport p experimentID;
  match er_WinnerVariant report with
  | None => throw ErrOptimizationUnavailable
  | Some winner =>
      if winner =s "" then throw ErrOptimizationUnavailable else
      snapshot ← lift (report_json report);
      existing ← gets (awaiting p experimentID winner);
      match existing with
      | o :: _ => mret o
      | [] =>
          id ← new_id;
          now ← gets now;
          let out := MkOptimizationProposal id (p_TenantID p) (p_WorkspaceID p) experimentID "winner" (Raw (Audit.jsonb snapshot)) RawEmpty
                       (Some winner) (rationale winner) "proposed" None None now in
          _ ← modify (fun d => set_proposals (<[id := out]> (ed_proposals d)) d);
          mret out
      end
  end.
End report.

(** ** Versions *)

Definition of_experiment (experimentID : string) (d : EDB) : list ExperimentVersion :=
  filter (fun v => (ev_ExperimentID v =s experimentID) = true) (map_to_list (ed_versions d)).*2.
(** COALESCE(MAX(version), 0). *)
Definition latest_version (experimentID : string) (d : EDB) : Z := foldr (fun v acc => Z.max (ev_Version v) acc) 0 (of_experiment experimentID d).

(** A [map[string]int]; a repeated key's last value counts. *)
Definition decode_weights (r : RawMessage) : result (list (string * Z)) :=
  match r with
  | RawEmpty | Raw JNull => Ok []
  | Raw (JObject l) =>
      match Json.map_opt (fun kv => match kv.2 with
                                    | JNumber lit => pair kv.1 <$> GoStr.Atoi lit
                                    | JNull => Some (kv.1, 0)
                                    | _ => None
                                    end) l with
      | Some ws => Ok ws
      | None => Err Json.type_error
      end
  | Raw _ => Err Json.type_error
  | RawBad _ => Err Json.syntax_error
  end.
Definition weight_for (weights : list (string * Z)) (label : string) : option Z :=
  snd <$> find_first (fun kv => kv.1 =s label) (rev weights).
Definition set_weight (w : Z) (v : ExperimentVariant) : ExperimentVariant :=
  MkExperimentVariant (xv_ID v) (xv_ExperimentID v) (xv_TenantID v) (xv_Label v) w (xv_IsControl v) (xv_TemplateID v) (xv_CreatedAt v).
Definition reweigh (proposal : OptimizationProposal) (weights : list (string * Z)) (v : ExperimentVariant) : ExperimentVariant :=
  if op_Kind proposal =s "winner" then set_weight (if is_text (op_WinnerVariant proposal) (xv_Label v) then 100 else 0) v
  else match weight_for weights (xv_Label v) with Some w => set_weight w v | None => v end.
Definition approved (user : string) (now : Z) (o : OptimizationProposal) : OptimizationProposal :=
  MkOptimizationProposal (op_ID o) (op_TenantID o) (op_WorkspaceID o) (op_ExperimentID o) (op_Kind o) (op_ReportSnapshot o) (op_ProposedWeights o)
    (op_WinnerVariant o) (op_Rationale o) "approved" (Some user) (Some now) (op_CreatedAt o).

Definition proposal_row (p : Principal) (experimentID proposalID : string) (d : EDB) : result OptimizationProposal :=
  if negb (uuid_ok proposalID) then Err bad_input
  else match ed_proposals d !! proposalID with
  | Some o => if proposal_for p experimentID o then Ok o else Err ErrNotFound
  | None => Err ErrNotFound
  end.
Definition version_of_proposal (experimentID proposalID : string) (d : EDB) : result ExperimentVersion :=
  match find_first (fun v => ev_ProposalID v =s proposalID) (of_experiment experimentID d) with
  | Some v => Ok v
  | None => Err ErrNoRows
  end.
(** INSERT INTO experiment_versions. *)
Definition insert_version (v : ExperimentVersion) : E unit :=
  if negb (uuid_ok (ev_ApprovedBy v)) || negb (integer_ok (ev_Version v)) then throw bad_input else
  users ← gets ed_users;
  if negb (bool_decide (ev_ApprovedBy v ∈ users)) then throw fk_violation else
  taken ← gets (fun d => existsb (fun kv => ((ev_ExperimentID kv.2 =s ev_ExperimentID v) && (ev_Version kv.2 =? ev_Version v)) ||
                                            (ev_ProposalID kv.2 =s ev_ProposalID v)) (map_to_list (ed_versions d)));
  if taken : bool then throw unique_violation else
  modify (fun d => set_versions (<[ev_ID v := v]> (ed_versions d)) d).

Definition ApproveExperimentOptimization (p : Principal) (experimentID proposalID : string) : E ExperimentVersion := tx (
  e ← reads (experiment_row p experimentID);
  latest ← gets (latest_version experimentID);
  proposal ← reads (proposal_row p experimentID proposalID);
  if negb (op_Status proposal =s "proposed") then reads (version_of_proposal experimentID proposalID) else
  variants ← gets (listExperimentVariants p experimentID);
  weights ← lift (decode_weights (op_ProposedWeights proposal));
  id ← new_id;
  now ← gets now;
  let out := MkExperimentVersion id experimentID proposalID (p_TenantID p) (p_WorkspaceID p) (latest + 1) (exp_Seed e) (exp_HoldoutPct e)
               (reweigh proposal weights <$> variants) (p_UserID p) now in
  _ ← insert_version out;
  _ ← modify (fun d => set_proposals (<[proposalID := approved (p_UserID p) now proposal]> (ed_proposals d)) d);
  mret out).
End ops.
End ExperimentDB.
