(* ===== verification/Rollout.v ===== *)
(** * Rolling an experiment's winner out (src/internal/postgres/experiments.go,
    src/internal/httpapi/experiments.go)

    The winner replaces the experiment in a new campaign, or in a new version
    of the journey whose nodes are pinned to it.  The handlers keep rollout and
    approval to users. *)

From S2P Require Import Prelude.
From S2P Require Import GoStd.
From S2P Require Import GoMap.
From S2P Require Import GoFloat.
From S2P Require Import Domain.
From S2P Require Import Store.
From S2P Require Import AuditLog.
From S2P Require Import MakerChecker.
From S2P Require Import Campaigns.
From S2P Require Import JourneyGraph.
From S2P Require Import JourneyValidate.
From S2P Require Import Statistics.
From S2P Require Import ExperimentDB.

Module Rollout.
Import MakerChecker ExperimentDB Graph.

(** ** Pinning a graph *)

(** [json.Marshal] of the configurations, empty optional fields omitted. *)
Definition text_field (k s : string) : list (string * json) := if s =s "" then [] else [(k, JString s)].
Definition marshal_branch (b : SplitBranch) : json :=
  JObject ([("label", JString (sb_Label b))] ++ (if sb_Weight b =? 0 then [] else [("weight", JNumber (GoStr.of_Z (sb_Weight b)))]) ++
           text_field "segment_id" (sb_SegmentID b)).
Definition marshal_split (c : SplitConfig) : json :=
  JObject ([("mode", JString (sc_Mode c))] ++ text_field "experiment_id" (sc_ExperimentID c) ++
           [("branches", JArray (marshal_branch <$> sc_Branches c))]).
Definition marshal_message (c : MessageConfig) : json :=
  JObject ([("template_id", JString (mc_TemplateID c))] ++ text_field "experiment_id" (mc_ExperimentID c) ++
           text_field "channel" (mc_Channel c) ++ [("transactional", JBool (mc_Transactional c))]).

Definition template_or (winnerTemplateID : option string) (templateID : string) : string :=
  match winnerTemplateID with Some t => if t =s "" then templateID else t | None => templateID end.
Definition pin_branch (winnerVariant : string) (b : SplitBranch) : SplitBranch :=
  MkSplitBranch (sb_Label b) (if sb_Label b =s winnerVariant then 100 else 0) (sb_SegmentID b).
Definition pin_split (winnerVariant : string) (c : SplitConfig) : SplitConfig :=
  MkSplitConfig "random" "" (pin_branch winnerVariant <$> sc_Branches c).
Definition pin_message (winnerTemplateID : option string) (c : MessageConfig) : MessageConfig :=
  MkMessageConfig (template_or winnerTemplateID (mc_TemplateID c)) "" (mc_Channel c) (mc_Transactional c).
Definition set_config (j : json) (n : Node) : Node := MkNode (ID n) (Type_ n) (Raw j).

(** One turn of the loop: the node, and whether it was pinned. *)
Definition pin_node (experimentID winnerVariant : string) (winnerTemplateID : option string) (node : Node) : result (Node * bool) :=
  if Type_ node =s NodeTypeSplit then
    cfgAny ← DecodeConfig node;
    match cfgAny with
    | CSplit cfg =>
        if negb (sc_ExperimentID cfg =s experimentID) then Ok (node, false)
        else if negb (mem winnerVariant (sb_Label <$> sc_Branches cfg))
        then Err (Errorf "winner variant %q is not a split branch" [AStr winnerVariant])
        else Ok (set_config (marshal_split (pin_split winnerVariant cfg)) node, true)
    | _ => Err (Errorf "split node %s has invalid config" [AStr (ID node)])
    end
  else if Type_ node =s NodeTypeMessage then
    cfgAny ← DecodeConfig node;
    match cfgAny with
    | CMessage cfg =>
        if negb (mc_ExperimentID cfg =s experimentID) then Ok (node, false)
        else Ok (set_config (marshal_message (pin_message winnerTemplateID cfg)) node, true)
    | _ => Err (Errorf "message node %s has invalid config" [AStr (ID node)])
    end
  else Ok (node, false).
Definition pinJourneyExperiment (data : RawMessage) (experimentID winnerVariant : string) (winnerTemplateID : option string) : result json :=
  graph ← ParseGraph data;
  nodes ← mapM_result (pin_node experimentID winnerVariant winnerTemplateID) (Nodes graph);
  if negb (existsb snd nodes) then Err ErrNotFound else
  let graph := MkGraph (EntryNodeID graph) nodes.*1 (Edges graph) in
  _ ← Validate.Validate (Some graph);
  marshal_graph graph.

(** ** SQL/JSON paths

    Lax mode: an accessor and a filter look one level into an array, a
    comparison into the arrays it compares. *)
Definition path_items (j : json) : list json := match j with JArray l => l | _ => [j] end.
Definition path_member (k : string) (j : json) : list json :=
  flat_map (fun i => match i with JObject l => option_list (Json.lookup k l) | _ => [] end) (path_items j).
(** jsonb_path_exists(graph, '$.nodes[*].config ? (@.experiment_id == $experiment)'). *)
Definition names_experiment (experimentID : string) (graph : json) : bool :=
  let configs := flat_map (path_member "config") (flat_map path_items (path_member "nodes" graph)) in
  existsb (fun c => existsb (fun v => existsb (fun i => match i with JString s => s =s experimentID | _ => false end) (path_items v))
                      (path_member "experiment_id" c)) (flat_map path_items configs).

(** ** The statements *)

Section ops.
Context (uuid_ok : string -> bool) (interval_text : string -> option string).

Record ExperimentRollout : Type := MkExperimentRollout {
  ro_ExperimentID : string; ro_WinnerVariant : string; ro_SubjectType : string; ro_Campaign : option Campaigns.Campaign;
  ro_JourneyVersion : option JourneyVersion
}.

(** NULLIF(window, '')::interval of a nullable window. *)
Definition window_of (window : option string) : result (option string) :=
  match window with
  | None => Ok None
  | Some w => if w =s "" then Ok None else match interval_text w with Some t => Ok (Some t) | None => Err bad_input end
  end.

Definition newer_campaign (a b : Campaigns.Campaign) : bool :=
  (Campaigns.cp_CreatedAt b <? Campaigns.cp_CreatedAt a) ||
  ((Campaigns.cp_CreatedAt a =? Campaigns.cp_CreatedAt b) && GoMap.str_less (Campaigns.cp_ID b) (Campaigns.cp_ID a)).
Definition campaigns_of (p : Principal) (experimentID : string) (d : EDB) : list Campaigns.Campaign :=
  GoMap.sort_by newer_campaign (filter (fun c => Campaigns.in_workspace p c && is_text (Campaigns.cp_ExperimentID c) experimentID = true)
                                  (map_to_list (ed_campaigns d)).*2).
Definition rolloutCampaign (p : Principal) (experimentID winnerVariant : string) (winnerTemplateID : option string) : E Campaigns.Campaign :=
  sources ← gets (campaigns_of p experimentID);
  match sources with
  | [] => throw ErrNotFound
  | source :: _ =>
      let templateID := template_or winnerTemplateID (Campaigns.cp_TemplateID source) in
      goal ← lift (nullableJSON (Campaigns.cp_ConversionGoal source));
      window ← lift (window_of (Campaigns.cp_AttributionWindow source));
      if negb (uuid_ok templateID) then throw bad_input else
      templates ← gets ed_templates;
      if negb (bool_decide (templateID ∈ templates)) then throw fk_violation else
      id ← new_id;
      now ← gets now;
      let out := Campaigns.MkCampaign id (p_TenantID p) (p_WorkspaceID p) (Campaigns.cp_Name source +:+ " (" +:+ winnerVariant +:+ " rollout)")
                   (Campaigns.cp_Description source) (Campaigns.cp_SegmentID source) templateID None goal window "scheduled" (Some now) None 0 0
                   None 0 now now in
      _ ← modify (fun d => set_campaigns (<[id := out]> (ed_campaigns d)) d);
      mret out
  end.

Definition newer_journey (a b : Journey * JourneyVersion) : bool :=
  (jny_UpdatedAt b.1 <? jny_UpdatedAt a.1) || ((jny_UpdatedAt a.1 =? jny_UpdatedAt b.1) && GoMap.str_less (jny_ID b.1) (jny_ID a.1)).
Definition current_version (d : EDB) (j : Journey) : option (Journey * JourneyVersion) :=
  match jny_CurrentVersionID j with Some v => pair j <$> ed_journey_versions d !! v | None => None end.
Definition journey_in (p : Principal) (j : Journey) : bool := (jny_TenantID j =s p_TenantID p) && (jny_WorkspaceID j =s p_WorkspaceID p).
Definition bound (p : Principal) (experimentID : string) (jv : Journey * JourneyVersion) : bool :=
  journey_in p jv.1 && match jv_Graph jv.2 with Raw g => names_experiment experimentID g | _ => false end.
Definition journeys_of (p : Principal) (experimentID : string) (d : EDB) : list (Journey * JourneyVersion) :=
  GoMap.sort_by newer_journey (filter (fun jv => bound p experimentID jv = true) (omap (current_version d) (map_to_list (ed_journeys d)).*2)).

Definition archive (v : JourneyVersion) : JourneyVersion :=
  MkJourneyVersion (jv_ID v) (jv_JourneyID v) (jv_TenantID v) (jv_WorkspaceID v) (jv_Version v) (jv_Graph v) (jv_ManifestKey v)
    (jv_EntryKind v) (jv_EntryEventType v) (jv_EntrySegmentID v) (jv_EntrySchedule v) (jv_ReentryPolicy v) (jv_MaxReentries v)
    (jv_LatePolicy v) (jv_ConversionGoal v) (jv_AttributionWindow v) "archived" (jv_PublishedBy v) (jv_PublishedAt v).
Definition archived_in (p : Principal) (id : string) (v : JourneyVersion) : JourneyVersion :=
  if (jv_TenantID v =s p_TenantID p) && (jv_WorkspaceID v =s p_WorkspaceID p) && (jv_ID v =s id) then archive v else v.
Definition pointed_to (versionID : string) (version now : Z) (j : Journey) : Journey :=
  MkJourney (jny_ID j) (jny_TenantID j) (jny_WorkspaceID j) (jny_Name j) (jny_Description j) "published" (jny_Graph j) version (Some versionID)
    (jny_CreatedAt j) now.

Definition rolloutJourney (p : Principal) (experimentID winnerVariant : string) (winnerTemplateID : option string) : E JourneyVersion :=
  sources ← gets (journeys_of p experimentID);
  match sources with
  | [] => throw ErrNotFound
  | (j, source) :: _ =>
      pinnedGraph ← lift (pinJourneyExperiment (jv_Graph source) experimentID winnerVariant winnerTemplateID);
      let version := jny_LatestVersion j + 1 in
      goal ← lift (nullableJSON (jv_ConversionGoal source));
      window ← lift (window_of (jv_AttributionWindow source));
      if negb (integer_ok version) || negb ((p_UserID p =s "") || uuid_ok (p_UserID p)) then throw bad_input else
      taken ← gets (fun d => existsb (fun kv => (jv_JourneyID kv.2 =s jv_JourneyID source) && (jv_Version kv.2 =? version))
                               (map_to_list (ed_journey_versions d)));
      if taken : bool then throw unique_violation else
      id ← new_id;
      now ← gets now;
      let out := MkJourneyVersion id (jv_JourneyID source) (p_TenantID p) (p_WorkspaceID p) version (Raw (Audit.jsonb pinnedGraph)) None
                   (jv_EntryKind source) (jv_EntryEventType source) (jv_EntrySegmentID source) (jv_EntrySchedule source)
                   (jv_ReentryPolicy source) (jv_MaxReentries source) (jv_LatePolicy source) goal window "active"
                   (if p_UserID p =s "" then None else Some (p_UserID p)) now in
      _ ← modify (fun d => set_journeys (ed_journeys d) (<[id := out]> (ed_journey_versions d)) d);
      _ ← modify (fun d => set_journeys (ed_journeys d) (archived_in p (jv_ID source) <$> ed_journey_versions d) d);
      target ← gets (fun d => ed_journeys d !! jv_JourneyID source);
      match target with
      | Some t =>
          if negb (journey_in p t) then throw ErrNotFound else
          _ ← modify (fun d => set_journeys (<[jv_JourneyID source := pointed_to id version now t]> (ed_journeys d)) (ed_journey_versions d) d);
          mret out
      | None => throw ErrNotFound
      end
  end.

Definition winner_template (experimentID label : string) (d : EDB) : result (option string) :=
  match find_first (fun kv => (xv_ExperimentID kv.2 =s experimentID) && (xv_Label kv.2 =s label)) (map_to_list (ed_variants d)) with
  | Some (_, v) => Ok (xv_TemplateID v)
  | None => Err ErrExperimentWinnerRequired
  end.

Definition RolloutExperiment (p : Principal) (experimentID : string) : E ExperimentRollout := tx (
  e ← reads (experiment_row uuid_ok p experimentID);
  match exp_WinnerVariant e with
  | None => throw ErrExperimentWinnerRequired
  | Some winnerVariant =>
      if winnerVariant =s "" then throw ErrExperimentWinnerRequired else
      winnerTemplateID ← reads (winner_template experimentID winnerVariant);
      result ← (if exp_SubjectType e =s "campaign" then
                  campaign ← rolloutCampaign p experimentID winnerVariant winnerTemplateID;
                  mret (MkExperimentRollout experimentID winnerVariant (exp_SubjectType e) (Some campaign) None)
                else if exp_SubjectType e =s "journey" then
                  version ← rolloutJourney p experimentID winnerVariant winnerTemplateID;
                  mret (MkExperimentRollout experimentID winnerVariant (exp_SubjectType e) None (Some version))
                else throw (Errorf "unsupported experiment subject type %q" [AStr (exp_SubjectType e)]));
      now ← gets now;
      row ← reads (experiment_row uuid_ok p experimentID);
      _ ← put_experiment (set_exp_status "completed" now row);
      _ ← audit uuid_ok p "experiment.rollout" "experiment" experimentID
            (JObject [("subject_type", JString (exp_SubjectType e)); ("winner_variant", JString winnerVariant)]);
      mret result
  end).

(** ** The handlers *)

Inductive reply (A : Type) : Type :=
  | Replied (status : Z) (value : A)
  | Refused (status : Z) (code message : string).
Arguments Replied {A} _ _.
Arguments Refused {A} _ _ _.

Definition internalError {A} : reply A := Refused 500 "internal_error" "the operation could not be completed".
Definition is_sentinel (e : error) (name : string) : bool := errors_Is e name.
(** What a handler makes of the store's answer: the errors it knows, or 500. *)
Definition answer {A} (known : error -> option (reply A)) (status : Z) (m : E A) : E (reply A) := fun d =>
  match m d with
  | (Ok a, d') => (Ok (Replied status a), d')
  | (Err e, d') => (Ok (default internalError (known e)), d')
  end.
Definition no_known {A} (e : error) : option (reply A) := None.
Definition not_found {A} (message : string) (e : error) : option (reply A) :=
  if is_ErrNotFound e then Some (Refused 404 "not_found" message) else None.
Definition invalid_json {A} : E (reply A) := mret (Refused 400 "invalid_json" "").
Definition is_human (p : Principal) : bool := (p_ActorType p =s "user") && negb (p_UserID p =s "").

(** [input] is what [decodeJSON] makes of the body. *)
Definition createExperiment (p : Principal) (input : result Experiment) : E (reply Experiment) :=
  match input with Err _ => invalid_json | Ok input => answer no_known 201 (CreateExperiment uuid_ok p input) end.
Definition listExperiments (p : Principal) : E (reply (list Experiment)) := answer no_known 200 (gets (ListExperiments p)).
Definition getExperiment (p : Principal) (id : string) : E (reply Experiment) :=
  answer (not_found "experiment not found") 200 (reads (GetExperiment uuid_ok p id)).
Definition with_id (id : string) (e : Experiment) : Experiment :=
  MkExperiment id (exp_TenantID e) (exp_WorkspaceID e) (exp_Name e) (exp_Description e) (exp_SubjectType e) (exp_Status e) (exp_Method e)
    (exp_Seed e) (exp_HoldoutPct e) (exp_PrimaryGoal e) (exp_GuardrailGoals e) (exp_WinnerVariant e) (exp_Variants e) (exp_CreatedAt e)
    (exp_UpdatedAt e).
Definition updateExperiment (p : Principal) (id : string) (input : result Experiment) : E (reply Experiment) :=
  match input with
  | Err _ => invalid_json
  | Ok input => answer (not_found "experiment not found") 200 (UpdateExperiment uuid_ok p (with_id id input))
  end.
Definition rolloutExperiment (p : Principal) (id : string) : E (reply ExperimentRollout) :=
  if negb (is_human p) then mret (Refused 403 "human_approval_required" "experiment rollout requires an authenticated user") else
  answer (fun e => match not_found "experiment or bound subject not found" e with
                   | Some r => Some r
                   | None => if is_sentinel e "experiment has no recommended winner"
                             then Some (Refused 409 "winner_required" "experiment has no recommended winner") else None
                   end) 201 (RolloutExperiment p id).
Definition proposeExperimentOptimization (erfc : Float.float64 -> Float.float64) (p : Principal) (id : string) : E (reply OptimizationProposal) :=
  answer (fun e => match not_found "experiment not found" e with
                   | Some r => Some r
                   | None => if is_sentinel e "experiment has no eligible optimization"
                             then Some (Refused 409 "optimization_unavailable" "experiment has no eligible winner") else None
                   end) 201 (ProposeExperimentOptimization uuid_ok erfc p id).
Definition approveExperimentOptimization (p : Principal) (id proposalID : string) : E (reply ExperimentVersion) :=
  if negb (is_human p) then mret (Refused 403 "human_approval_required" "optimization approval requires an authenticated user") else
  answer (not_found "experiment or proposal not found") 201 (ApproveExperimentOptimization uuid_ok p id proposalID).
End ops.
End Rollout.
