(* ===== verification/ExperimentSpec.v ===== *)
(** * What experiments guarantee

    An assignment is never changed; a report stores the winner it recommends,
    the best of the eligible; versions are numbered without gaps, frozen, one
    per approved proposal. *)

From S2P Require Import Prelude.
From S2P Require Import GoStd.
From S2P Require Import GoMap.
From S2P Require Import GoFloat.
From S2P Require Import Domain.
From S2P Require Import Store.
From S2P Require Import AuditLog.
From S2P Require Import Facts.
From S2P Require Import MakerChecker.
From S2P Require Import StoreLemmas.
From S2P Require Import Campaigns.
From S2P Require Import Statistics.
From S2P Require Import ExperimentDB.
From S2P Require Import Rollout.

Module ExperimentSpec.
Import MakerChecker StoreLemmas Statistics ExperimentDB Rollout.

Section ops.
Context (uuid_ok : string -> bool) (interval_text : string -> option string) (erfc : Float.float64 -> Float.float64).

(** ** Steps *)

Inductive step (d : EDB) : EDB -> Prop :=
  | StepCreate p e r d' : CreateExperiment uuid_ok p e d = (r, d') -> step d d'
  | StepUpdate p e r d' : UpdateExperiment uuid_ok p e d = (r, d') -> step d d'
  | StepReport p id r d' : ExperimentReport uuid_ok erfc p id d = (r, d') -> step d d'
  | StepPropose p id r d' : ProposeExperimentOptimization uuid_ok erfc p id d = (r, d') -> step d d'
  | StepApprove p id o r d' : ApproveExperimentOptimization uuid_ok p id o d = (r, d') -> step d d'
  | StepRollout p id r d' : RolloutExperiment uuid_ok interval_text p id d = (r, d') -> step d d'.

(** *** What a computation keeps *)

Section respects.
Context (R : EDB -> EDB -> Prop) `{!PreOrder R}.
#[local] Abbreviation respects := (respects R).

Lemma respects_tx {A} (m : E A) : respects m -> respects (tx m).
Proof. intros Hm d. specialize (Hm d). unfold tx. by destruct (m d) as [[a|e] d1]. Qed.
Lemma respects_modify g : (forall d, R d (g d)) -> respects (modify g).
Proof. intros Hg d. apply Hg. Qed.
Lemma respects_new_id : (forall x d, R d (set_common (set_used ({[x]} ∪ cd_used (common d)) (common d)) d)) -> respects new_id.
Proof. intros Hc d. unfold new_id. apply Hc. Qed.
Lemma respects_audit p a t id j : (forall q d, R d (set_common (set_audit q (common d)) d)) -> respects (audit uuid_ok p a t id j).
Proof. intros Hc d. destruct (audit_eq uuid_ok p a t id j d) as (q & -> & _). apply Hc. Qed.

Lemma respects_variants (t x : string) vs : (forall v d, R d (set_variants v d)) ->
  (forall x d, R d (set_common (set_used ({[x]} ∪ cd_used (common d)) (common d)) d)) -> respects (insertExperimentVariants uuid_ok t x vs).
Proof.
  intros Hv Hc. induction vs as [|v vs IH]; cbn [insertExperimentVariants]; unfold insert_variant;
    respects_with ltac:(first
      [exact IH | by apply respects_new_id | apply respects_modify; intros; apply Hv | apply respects_pure; [apply _ | intros ?; reflexivity]]).
Qed.
End respects.

(** The two relations used: the assignments stay; or what versions are made
    of does, and no id is forgotten. *)
Definition same_assignments (d d' : EDB) : Prop := ed_assignments d' = ed_assignments d.
Definition same_versions (d d' : EDB) : Prop :=
  ed_proposals d' = ed_proposals d /\ ed_versions d' = ed_versions d /\ ed_users d' = ed_users d /\ cd_used (ed_common d) ⊆ cd_used (ed_common d').
#[local] Instance same_assignments_pre : PreOrder same_assignments.
Proof. split; [done|]. intros a b c H1 H2. unfold same_assignments in *. congruence. Qed.
#[local] Instance same_versions_pre : PreOrder same_versions.
Proof. split; [done|]. intros a b c (?&?&?&?) (?&?&?&?). repeat split; [congruence..|set_solver]. Qed.

Lemma sv_used x d : same_versions d (set_common (set_used ({[x]} ∪ cd_used (common d)) (common d)) d).
Proof. repeat split; simpl; set_solver. Qed.
Lemma sv_audit q d : same_versions d (set_common (set_audit q (common d)) d).
Proof. by repeat split. Qed.
Lemma sv_tables d : (forall v, same_versions d (set_experiments v d)) /\ (forall v, same_versions d (set_variants v d)) /\
  (forall v, same_versions d (set_campaigns v d)) /\ (forall v w, same_versions d (set_journeys v w d)).
Proof. by repeat split. Qed.

Ltac leaf := intros; first [apply sv_used | apply sv_audit | apply sv_tables | reflexivity].
Ltac respect :=
  lazymatch goal with
  | |- respects _ (insertExperimentVariants _ _ _ _) => apply respects_variants; [apply _|leaf|leaf]
  | |- respects _ (tx _) => apply respects_tx; [apply _|]; respect
  | |- respects _ (_ ≫= _) => apply respects_bind; [apply _|respect|intros; respect]
  | |- respects _ new_id => apply respects_new_id; leaf
  | |- respects _ (audit _ _ _ _ _ _) => apply respects_audit; leaf
  | |- respects _ (modify _) => apply respects_modify; leaf
  | |- respects _ (if ?b then _ else _) => destruct b; respect
  | |- respects _ (match ?o with Some _ => _ | None => _ end) => destruct o; respect
  | |- respects _ (match ?o with [] => _ | _ :: _ => _ end) => destruct o as [|[] ?]; respect
  | |- respects _ (let _ := _ in _) => cbv zeta; respect
  | _ => apply respects_pure; [apply _|intros ?; reflexivity]
  end.

(** *** No operation but assignment touches an assignment *)

Lemma step_assignments d d' : step d d' -> ed_assignments d' = ed_assignments d.
Proof.
  assert (Hk : forall A (m : E A) d r d', respects same_assignments m -> m d = (r, d') -> ed_assignments d' = ed_assignments d).
  { intros A m x r y Hm Hx. specialize (Hm x). by rewrite Hx in Hm. }
  intros [p e r d1 H|p e r d1 H|p i r d1 H|p i r d1 H|p i o r d1 H|p i r d1 H]; (eapply Hk; [|exact H]); clear H.
  - unfold CreateExperiment, put_experiment. respect.
  - unfold UpdateExperiment, put_experiment. respect.
  - unfold ExperimentReport, put_experiment. respect.
  - unfold ProposeExperimentOptimization, ExperimentReport, put_experiment. respect.
  - unfold ApproveExperimentOptimization, insert_version. respect.
  - unfold RolloutExperiment, rolloutCampaign, rolloutJourney, put_experiment. respect.
Qed.

(** ** Sticky assignments

    A run: the databases it went through, the last first, and what
    [AssignExperiment] answered.  An assignment may read any database the run
    has been in: that of the moment its statement began. *)
Inductive run : list EDB -> list ExperimentAssignment -> Prop :=
  | run_start d : (forall k a, ed_assignments d !! k = Some a -> k = (xa_ExperimentID a, xa_ProfileID a)) -> run [d] []
  | run_step d h l d' : run (d :: h) l -> step d d' -> run (d' :: d :: h) l
  | run_assign d h l snap p e prof v r d' : run (d :: h) l -> snap ∈ d :: h -> AssignExperiment uuid_ok snap p e prof v d = (r, d') ->
      run (d' :: d :: h) (match r with Ok a => a :: l | Err _ => l end).

Definition assigned (d : EDB) (a : ExperimentAssignment) : Prop := ed_assignments d !! (xa_ExperimentID a, xa_ProfileID a) = Some a.

(** What one statement answered is stored, under its key, and nothing stored
    is lost. *)
Lemma AssignExperiment_stores snap p e prof v d r d' : AssignExperiment uuid_ok snap p e prof v d = (r, d') ->
  ed_assignments snap ⊆ ed_assignments d -> (forall k a, ed_assignments d !! k = Some a -> k = (xa_ExperimentID a, xa_ProfileID a)) ->
  ed_assignments d ⊆ ed_assignments d' /\ (forall k a, ed_assignments d' !! k = Some a -> k = (xa_ExperimentID a, xa_ProfileID a)) /\
  (forall a, r = Ok a -> assigned d' a).
Proof.
  intros H Hs Hk. unfold AssignExperiment in H. destruct (experiment_row _ _ _ _) as [row|]; [|by injection H as <- <-].
  destruct (negb (uuid_ok prof)); [by injection H as <- <-|]. destruct (ed_assignments d !! (e, prof)) as [b|] eqn:Hb.
  - destruct (ed_assignments snap !! (e, prof)) as [a|] eqn:Ha; injection H as <- <-; [|done]. split; [done|]. split; [done|].
    intros a' [= <-]. pose proof (lookup_weaken _ _ _ _ Ha Hs) as Ha'. pose proof (Hk _ _ Ha') as [= -> ->]. done.
  - destruct (negb _); [by injection H as <- <-|]. injection H as <- <-. cbn [ed_assignments set_assignments]. split; [by apply insert_subseteq|].
    split; [|intros a' [= <-]; apply lookup_insert_eq]. intros k a' [(<- & <-)|[_ Ha]]%lookup_insert_Some; [done|by apply Hk].
Qed.

Lemma run_inv h l : run h l -> exists d t, h = d :: t /\ (forall s, s ∈ h -> ed_assignments s ⊆ ed_assignments d) /\
  (forall k a, ed_assignments d !! k = Some a -> k = (xa_ExperimentID a, xa_ProfileID a)) /\ (forall a, a ∈ l -> assigned d a).
Proof.
  induction 1 as [d Hk|d h l d' _ IH Hs|d h l snap p e prof v r d' _ IH Hin H].
  - exists d, []. split; [done|]. split; [by intros s ->%list_elem_of_singleton|]. split; [done|by intros a Ha%elem_of_nil].
  - destruct IH as (d0 & t & [= <- <-] & H1 & H2 & H3). pose proof (step_assignments _ _ Hs) as E. exists d', (d :: h).
    split; [done|]. unfold assigned in *. rewrite E. split; [|by split]. intros s [->|Hs']%elem_of_cons; [by rewrite E|by apply H1].
  - destruct IH as (d0 & t & [= <- <-] & H1 & H2 & H3). destruct (AssignExperiment_stores _ _ _ _ _ _ _ _ H (H1 _ Hin) H2) as (Hsub & Hk & Hr).
    exists d', (d :: h). split; [done|]. split; [|split; [done|]].
    + intros s [->|Hs']%elem_of_cons; [done|]. etrans; [by apply H1|done].
    + assert (Hl : forall a, a ∈ l -> assigned d' a). { intros a Ha. by apply (lookup_weaken _ _ _ _ (H3 a Ha)). }
      destruct r as [a|]; [|done]. intros b [->|Hb]%elem_of_cons; [by apply Hr|by apply Hl].
Qed.

(** C35: An assignment never changes: in any run of the store -- experiments
    edited, reported on, optimised and rolled out, assignments made by
    statements that each read the database of an earlier moment -- every answer
    given to a profile in an experiment is the same, and is the stored row; and
    a statement that sees the last database and the experiment answers. *)
Theorem assignments_sticky d h l : run (d :: h) l ->
  (forall a b, a ∈ l -> b ∈ l -> xa_ExperimentID a = xa_ExperimentID b -> xa_ProfileID a = xa_ProfileID b -> a = b) /\
  (forall a, a ∈ l -> ed_assignments d !! (xa_ExperimentID a, xa_ProfileID a) = Some a) /\
  (forall p e prof v, is_Ok (experiment_row uuid_ok p e d) = true -> uuid_ok prof = true -> prof ∈ ed_profiles d ->
     exists a, (AssignExperiment uuid_ok d p e prof v d).1 = Ok a /\ (forall b, b ∈ l -> xa_ExperimentID b = e -> xa_ProfileID b = prof -> a = b)).
Proof.
  intros Hr. apply run_inv in Hr as (d0 & t & [= <- <-] & _ & _ & Hl). split; [|split; [exact Hl|]].
  - intros a b Ha%Hl Hb%Hl E1 E2. unfold assigned in *. rewrite E1, E2 in Ha. congruence.
  - intros p e prof v He Hu Hp. unfold AssignExperiment. destruct (experiment_row uuid_ok p e d) as [row|]; [|done]. rewrite Hu. cbn [negb].
    destruct (ed_assignments d !! (e, prof)) as [a|] eqn:Ea.
    + exists a. split; [done|]. intros b Hb%Hl <- <-. unfold assigned in Hb. congruence.
    + rewrite bool_decide_true by done. cbn [negb]. eexists. split; [done|]. intros b Hb%Hl <- <-. unfold assigned in Hb. congruence.
Qed.
(** ** Reports *)

Lemma countb_range {A} (f : A -> bool) l : 0 <= countb f l <= Z.of_nat (length l).
Proof. induction l as [|x l IH]; cbn [countb length]; [done|]. destruct (f x); lia. Qed.

Definition counts_fit (d : EDB) : Prop :=
  Z.of_nat (length (ed_attempts d)) < two63 /\ Z.of_nat (length (map_to_list (ed_intents d))) < two63 /\
  Z.of_nat (length (ed_conversions d)) < two63.
Lemma sends_range p e label d : counts_fit d -> 0 <= sends p e label d < two63.
Proof.
  intros (H1 & H2 & _). unfold sends. destruct (_ =s _).
  - pose proof (countb_range (attempt_counts p (exp_ID e) label d) (ed_attempts d)). lia.
  - pose proof (countb_range (fun kv : string * JourneyMessageIntent => intent_counts p (exp_ID e) label kv.2) (map_to_list (ed_intents d))). lia.
Qed.
Lemma conversions_range p id label goal d : counts_fit d -> 0 <= conversions p id label goal d < two63.
Proof.
  intros (_ & _ & H). unfold conversions.
  pose proof (countb_range (fun f => converts p id label f && (Facts.cf_GoalName f =s goal)) (ed_conversions d)). lia.
Qed.

Lemma vs_Rate_eq sc cc sv cv : vs_Rate (CompareProportions erfc sc cc sv cv) = if 0 <? sv then Float.div (Float.of_Z cv) (Float.of_Z sv) else Float.zero.
Proof. unfold CompareProportions. cbv zeta. destruct (_ || _); [done|]. by destruct (Float.ltb _ (sqrt _)). Qed.

Lemma report_rates p e d : counts_fit d -> rates_ok (report_variants erfc p e d).
Proof.
  intros Hc v (label & -> & _)%list_elem_of_fmap. unfold variant_report. cbn [vr_Rate].
  pose proof (sends_range p e label d Hc). pose proof (conversions_range p (exp_ID e) label (primaryGoalName e) d Hc).
  destruct (find_first _ _); rewrite vs_Rate_eq; (destruct (0 <? _) eqn:E; [|done]); apply Z.ltb_lt in E; apply rate_number; lia.
Qed.

Definition keyed (d : EDB) : Prop := forall k e, ed_experiments d !! k = Some e -> exp_ID e = k.
Lemma experiment_row_Ok p id d e : experiment_row uuid_ok p id d = Ok e -> ed_experiments d !! id = Some e /\ in_workspace p e = true /\ uuid_ok id = true.
Proof.
  unfold experiment_row. destruct (uuid_ok id); [|done]. simpl. destruct (ed_experiments d !! id) as [x|]; [|done].
  destruct (in_workspace p x) eqn:E; [|done]. by intros [= <-].
Qed.
Lemma GetExperiment_Ok p id d e : GetExperiment uuid_ok p id d = Ok e ->
  exists row, experiment_row uuid_ok p id d = Ok row /\ e = with_variants (listExperimentVariants uuid_ok p id d) row.
Proof. intros H. apply bind_Ok in H as (row & Hr & H). exists row. split; [done|]. congruence. Qed.

(** A report recommends a variant and stores it: of the variants that are not
    the control and pass the loop's guards (a p-value below 0.05, a positive
    relative uplift, no significant increase of a guardrail's rate), the first
    with the highest conversion rate; there is no winner without one, without
    a control or with a control never sent.  The uplift over a control that
    never converts is 0, so that no variant is recommended against it. The experiment's row then
    holds that winner, and nothing else of the database has changed. *)
Theorem report_recommends p id d r d' :
  ExperimentReport uuid_ok erfc p id d = (Ok r, d') -> counts_fit d -> keyed d ->
  exists e row, GetExperiment uuid_ok p id d = Ok e /\ er_Variants r = report_variants erfc p e d /\
    (forall w, er_WinnerVariant r = Some w <->
       exists control v, find_first vr_IsControl (er_Variants r) = Some control /\ vr_Sent control <> 0 /\
         best_of erfc control (er_Variants r) v /\ vr_Label v = w) /\
    ed_experiments d' !! id = Some row /\ exp_WinnerVariant row = er_WinnerVariant r /\
    (exists x t, ed_experiments d !! id = Some x /\ (row = x \/ row = with_winner (er_WinnerVariant r) t x)) /\
    d' = set_experiments (<[id := row]> (ed_experiments d)) d.
Proof.
  intros H Hc Hk. unfold ExperimentReport in H. apply bindM_Ok in H as (e & d1 & E1 & H). apply reads_Ok in E1 as [E1 ->].
  apply bindM_Ok in H as (vs & d1 & E2 & H). unfold gets in E2. injection E2 as <- <-. cbn zeta in H.
  apply bindM_Ok in H as ([] & d1 & E3 & H). injection H as <- <-. destruct (GetExperiment_Ok _ _ _ _ E1) as (x & Hx & He).
  pose proof (experiment_row_Ok _ _ _ _ Hx) as (Hx1 & _ & _). pose proof (Hk _ _ Hx1) as Hid. cbn [er_Variants er_WinnerVariant] in *.
  assert (Hiff := fun w => recommendWinner_iff erfc (report_variants erfc p e d) w (report_rates p e d Hc)).
  case_bool_decide as Hw.
  - injection E3 as <-. exists e, x. split; [done|]. split; [done|]. split; [exact Hiff|]. split; [done|]. split; [by rewrite Hw, He|].
    split; [exists x, 0; split; [done|by left]|]. rewrite insert_id by done. by destruct d.
  - assert (Hxe : exp_ID e = id) by by rewrite He. rewrite Hxe in E3. follow E3.
    match goal with E : experiment_row _ _ _ _ = Ok ?y |- _ => rewrite Hx in E; injection E as <- end.
    unfold put_experiment, modify in E3. injection E3 as <-. cbn [exp_ID with_winner]. rewrite Hid.
    exists e, (with_winner (recommendWinner erfc (report_variants erfc p e d)) (now d) x).
    split; [done|]. split; [done|]. split; [exact Hiff|]. split; [apply lookup_insert_eq|]. split; [done|].
    split; [exists x, (now d); split; [done|by right]|done].
Qed.
(** ** Versions *)

Record vinv (d : EDB) : Prop := {
  vi_version : forall k v, ed_versions d !! k = Some v -> ev_ID v = k /\ k ∈ cd_used (ed_common d) /\ 1 <= ev_Version v /\ ev_ApprovedBy v ∈ ed_users d;
  vi_gapless : forall k v n, ed_versions d !! k = Some v -> 1 <= n <= ev_Version v ->
    exists l w, ed_versions d !! l = Some w /\ ev_ExperimentID w = ev_ExperimentID v /\ ev_Version w = n;
  vi_unique : forall k l v w, ed_versions d !! k = Some v -> ed_versions d !! l = Some w ->
    ev_ExperimentID v = ev_ExperimentID w -> ev_Version v = ev_Version w -> k = l;
  vi_proposal : forall k v, ed_versions d !! k = Some v -> exists o, ed_proposals d !! ev_ProposalID v = Some o /\
    op_ExperimentID o = ev_ExperimentID v /\ op_Status o = "approved" /\ op_ApprovedBy o = Some (ev_ApprovedBy v);
  vi_one : forall k l v w, ed_versions d !! k = Some v -> ed_versions d !! l = Some w -> ev_ProposalID v = ev_ProposalID w -> k = l;
  vi_status : forall k o, ed_proposals d !! k = Some o -> k ∈ cd_used (ed_common d) /\
    (op_Status o = "proposed" \/ op_Status o = "approved" /\ exists l v, ed_versions d !! l = Some v /\ ev_ProposalID v = k)
}.

Lemma vinv_same d d' : same_versions d d' -> vinv d -> vinv d' /\ ed_versions d ⊆ ed_versions d'.
Proof.
  intros (Hp & Hv & Hu & Hs) [H1 H2 H3 H4 H5 H6]. split; [split; rewrite ?Hp, ?Hv, ?Hu; try done|by rewrite Hv].
  - intros k v Hk. destruct (H1 k v Hk) as (?&?&?&?). repeat split; try done; set_solver.
  - intros k o Hk. destruct (H6 k o Hk) as [? ?]. split; [set_solver|done].
Qed.

Lemma of_experiment_elem x d v : v ∈ of_experiment x d <-> ev_ExperimentID v = x /\ exists k, ed_versions d !! k = Some v.
Proof.
  unfold of_experiment. rewrite list_elem_of_filter, seqb_true, list_elem_of_fmap. apply and_iff_compat_l. split.
  - intros ([k w] & -> & Hk). exists k. by apply elem_of_map_to_list.
  - intros (k & Hk). exists (k, v). split; [done|]. by apply elem_of_map_to_list.
Qed.
Lemma latest_spec x d : let m := latest_version x d in
  0 <= m /\ (forall k v, ed_versions d !! k = Some v -> ev_ExperimentID v = x -> ev_Version v <= m) /\
  (m = 0 \/ exists k v, ed_versions d !! k = Some v /\ ev_ExperimentID v = x /\ ev_Version v = m).
Proof.
  assert (H : forall l, let m := foldr (fun v acc => Z.max (ev_Version v) acc) 0 l in
    0 <= m /\ (forall v, v ∈ l -> ev_Version v <= m) /\ (m = 0 \/ exists v, v ∈ l /\ ev_Version v = m)).
  { induction l as [|v l (I1 & I2 & I3)]; simpl; [split; [done|]; split; [by intros v Hv%elem_of_nil|by left]|].
    set (m := foldr _ 0 l) in *. split; [lia|]. split.
    - intros w [->|Hw]%elem_of_cons; [lia|]. specialize (I2 w Hw). lia.
    - destruct (Z.max_spec (ev_Version v) m) as [[? ->]|[? ->]]; [|right; exists v; split; [apply list_elem_of_here|done]].
      destruct I3 as [?|(w & Hw & ?)]; [by left|]. right. exists w. split; [by apply list_elem_of_further|done]. }
  specialize (H (of_experiment x d)). cbv zeta in *. fold (latest_version x d) in H. destruct H as (I1 & I2 & I3). split; [done|]. split.
  - intros k v Hk Hx. apply I2, of_experiment_elem. eauto.
  - destruct I3 as [?|(v & (Hx & k & Hk)%of_experiment_elem & Hm)]; [by left|]. right. by exists k, v.
Qed.

(** What an approval that answers did. *)
Definition minted (p : Principal) (x o : string) (d : EDB) (out : ExperimentVersion) (e : Experiment) (prop : OptimizationProposal)
    (weights : list (string * Z)) : Prop :=
  out = MkExperimentVersion (fresh (cd_used (ed_common d))) x o (p_TenantID p) (p_WorkspaceID p) (latest_version x d + 1) (exp_Seed e)
          (exp_HoldoutPct e) (reweigh prop weights <$> listExperimentVariants uuid_ok p x d) (p_UserID p) (now d).
Lemma Approve_Ok p x o d out d' : ApproveExperimentOptimization uuid_ok p x o d = (Ok out, d') ->
  exists e prop, experiment_row uuid_ok p x d = Ok e /\ proposal_row uuid_ok p x o d = Ok prop /\
    ((op_Status prop <> "proposed" /\ version_of_proposal x o d = Ok out /\ d' = d) \/
     (op_Status prop = "proposed" /\ exists weights, decode_weights (op_ProposedWeights prop) = Ok weights /\
        minted p x o d out e prop weights /\ p_UserID p ∈ ed_users d /\
        d' = set_proposals (<[o := approved (p_UserID p) (now d) prop]> (ed_proposals d))
               (set_versions (<[ev_ID out := out]> (ed_versions d)) (set_common (set_used ({[ev_ID out]} ∪ cd_used (ed_common d)) (ed_common d)) d)))).
Proof.
  intros H. unfold ApproveExperimentOptimization in H. apply tx_cases in H as [(? & [= ->] & H)|[[? ?] _]]; [|done].
  apply bindM_Ok in H as (e & d1 & E & H). apply reads_Ok in E as [E ->]. apply bindM_Ok in H as (latest & d1 & E1 & H). injection E1 as <- <-.
  apply bindM_Ok in H as (prop & d1 & E2 & H). apply reads_Ok in E2 as [E2 ->]. exists e, prop. split; [done|]. split; [done|].
  destruct (negb (op_Status prop =s "proposed")) eqn:Es.
  - apply reads_Ok in H as [H ->]. left. apply negb_true_iff, seqb_false in Es. done.
  - right. apply negb_false_iff, seqb_true in Es. split; [done|]. unfold insert_version in H. follow H.
    repeat match goal with u : unit |- _ => destruct u end.
    match goal with E : _ = (Ok tt, _) |- _ => follow E; cbn in E; injection E as <- end.
    injection H as <- <-. eexists. split; [eassumption|]. split; [reflexivity|]. split; [|reflexivity].
    match goal with E : negb (bool_decide _) = false |- _ => apply negb_false_iff, bool_decide_eq_true in E; exact E end.
Qed.

Lemma minted_fields p x o d out e prop ws : minted p x o d out e prop ws ->
  ev_ID out = fresh (cd_used (ed_common d)) /\ ev_ExperimentID out = x /\ ev_Version out = latest_version x d + 1 /\ ev_ProposalID out = o /\
  ev_ApprovedBy out = p_UserID p /\ ev_Seed out = exp_Seed e /\ ev_HoldoutPct out = exp_HoldoutPct e /\
  ev_Variants out = reweigh prop ws <$> listExperimentVariants uuid_ok p x d.
Proof. unfold minted. intros ->. cbn [ev_ID ev_ExperimentID ev_Version ev_ProposalID ev_ApprovedBy ev_Seed ev_HoldoutPct ev_Variants]. by repeat split. Qed.
Lemma proposal_row_Ok p x o d prop : proposal_row uuid_ok p x o d = Ok prop ->
  ed_proposals d !! o = Some prop /\ op_ExperimentID prop = x /\ proposal_for p x prop = true /\ uuid_ok o = true.
Proof.
  unfold proposal_row. destruct (uuid_ok o); [|done]. simpl. destruct (ed_proposals d !! o) as [y|]; [|done].
  destruct (proposal_for p x y) eqn:E; [|done]. intros [= <-]. repeat split; try done. unfold proposal_for in E.
  by apply andb_prop in E as [_ E%seqb_true].
Qed.

(** An approved proposal answers its version. *)
Lemma Approve_again p x o d e prop k out : vinv d -> experiment_row uuid_ok p x d = Ok e -> proposal_row uuid_ok p x o d = Ok prop ->
  op_Status prop = "approved" -> ed_versions d !! k = Some out -> ev_ProposalID out = o -> ev_ExperimentID out = x ->
  ApproveExperimentOptimization uuid_ok p x o d = (Ok out, d).
Proof.
  intros Hi He Hp Hs Hk Ho Hx. assert (Hv : version_of_proposal x o d = Ok out).
  { unfold version_of_proposal. destruct (find_first _ _) as [v|] eqn:E.
    - apply find_first_Some in E as [(_ & l & Hl)%of_experiment_elem E%seqb_true].
      pose proof (vi_one _ Hi l k v out Hl Hk ltac:(congruence)) as ->. congruence.
    - exfalso. apply find_first_None in E. rewrite Forall_forall in E. specialize (E out). rewrite Ho, seqb_refl in E.
      enough (true = false) by done. apply E, of_experiment_elem. eauto. }
  unfold ApproveExperimentOptimization. apply tx_eq. unfold mbind, M_bind, reads at 1, gets at 1. rewrite He. unfold reads at 1. rewrite Hp, Hs.
  eval_str. cbn [negb]. unfold reads. by rewrite Hv.
Qed.

(** Minting: a version one above the latest, for a proposal that had none. *)
Lemma mint_inv p x o d out e prop ws :
  vinv d -> ed_proposals d !! o = Some prop -> op_ExperimentID prop = x -> op_Status prop = "proposed" ->
  minted p x o d out e prop ws -> p_UserID p ∈ ed_users d ->
  let d' := set_proposals (<[o := approved (p_UserID p) (now d) prop]> (ed_proposals d))
              (set_versions (<[ev_ID out := out]> (ed_versions d)) (set_common (set_used ({[ev_ID out]} ∪ cd_used (ed_common d)) (ed_common d)) d)) in
  vinv d' /\ ed_versions d ⊆ ed_versions d'.
Proof.
  intros [H1 H2 H3 H4 H5 H6] Ho Hx Hs Hm Hu. destruct (latest_spec x d) as (L1 & L2 & L3).
  destruct (minted_fields _ _ _ _ _ _ _ _ Hm) as (Hid & V1 & V2 & V3 & V4 & _). clear Hm. set (id := fresh (cd_used (ed_common d))) in *.
  assert (Hf : ed_versions d !! id = None).
  { destruct (ed_versions d !! id) as [v|] eqn:E; [|done]. destruct (H1 _ _ E) as (_ & Hin & _). by apply is_fresh in Hin. }
  assert (Hno : forall k v, ed_versions d !! k = Some v -> ev_ProposalID v <> o).
  { intros k v Hk He. destruct (H4 k v Hk) as (y & Hy & _ & Hya & _). rewrite He, Ho in Hy. injection Hy as <-. congruence. }
  cbn zeta. rewrite Hid. split; [|by apply insert_subseteq].
  split; cbn [ed_versions ed_proposals ed_users set_proposals set_versions set_common common_experiments ed_common set_used cd_used].
  - intros k v [(<- & <-)|[_ Hk]]%lookup_insert_Some; [rewrite V2, V4; repeat split; [done|set_solver|lia|done]|].
    destruct (H1 k v Hk) as (? & ? & ? & ?). repeat split; try done. set_solver.
  - intros k v n [(<- & <-)|[_ Hk]]%lookup_insert_Some Hn.
    + destruct (Z.eq_dec n (ev_Version out)) as [->|Hne]; [exists id, out; by rewrite lookup_insert_eq|]. rewrite V2 in *.
      destruct L3 as [L3|(l & w & Hl & Hw & Hlw)]; [lia|]. destruct (H2 l w n Hl) as (l' & w' & Hl' & Hw' & Hn'); [lia|].
      exists l', w'. rewrite lookup_insert_ne by (intros <-; congruence). split; [done|]. split; [congruence|done].
    + destruct (H2 k v n Hk Hn) as (l & w & Hl & ? & ?). exists l, w. rewrite lookup_insert_ne by (intros <-; congruence). done.
  - intros k l v w [(<- & <-)|[_ Hk]]%lookup_insert_Some [(<- & <-)|[_ Hl]]%lookup_insert_Some He Hn; [done| | |by apply (H3 k l v w)].
    + pose proof (L2 l w Hl ltac:(congruence)). lia.
    + pose proof (L2 k v Hk ltac:(congruence)). lia.
  - intros k v [(<- & <-)|[_ Hk]]%lookup_insert_Some; [rewrite V3, V4; eexists; rewrite lookup_insert_eq; split; [done|]; simpl; split; [congruence|done]|].
    rewrite lookup_insert_ne by (intros E; by apply (Hno k v Hk)). by apply (H4 k v).
  - intros k l v w [(<- & <-)|[_ Hk]]%lookup_insert_Some [(<- & <-)|[_ Hl]]%lookup_insert_Some Hp; [done| | |by apply (H5 k l v w)].
    + exfalso. apply (Hno l w Hl). congruence.
    + exfalso. apply (Hno k v Hk). congruence.
  - intros k y [(<- & <-)|[Hne Hk]]%lookup_insert_Some.
    + destruct (H6 o prop Ho) as [? _]. split; [set_solver|]. right. split; [done|]. exists id, out. by rewrite lookup_insert_eq.
    + destruct (H6 k y Hk) as [? Hc]. split; [set_solver|]. destruct Hc as [?|(? & l & v & Hl & ?)]; [by left|]. right. split; [done|].
      exists l, v. rewrite lookup_insert_ne by (intros <-; congruence). done.
Qed.

Lemma Propose_inv p x d r d' : ProposeExperimentOptimization uuid_ok erfc p x d = (r, d') -> vinv d -> vinv d' /\ ed_versions d ⊆ ed_versions d'.
Proof.
  intros H Hi. unfold ProposeExperimentOptimization in H. unfold mbind at 1, M_bind at 1 in H.
  destruct (ExperimentReport uuid_ok erfc p x d) as [[rep|err] d1] eqn:E.
  all: assert (Hs : same_versions d d1) by
    (assert (Hk : respects same_versions (ExperimentReport uuid_ok erfc p x)) by (unfold ExperimentReport, put_experiment; respect);
     specialize (Hk d); by rewrite E in Hk).
  all: destruct (vinv_same _ _ Hs Hi) as [Hi1 Hsub]. 2: by injection H as <- <-.
  destruct (er_WinnerVariant rep) as [w|]; [|by injection H as <- <-]. destruct (w =s ""); [by injection H as <- <-|].
  unfold mbind, M_bind, lift in H. destruct (report_json rep); [|by injection H as <- <-]. unfold gets in H.
  destruct (awaiting p x w d1) as [|y ys]; [|by injection H as <- <-]. unfold new_id, modify, mret, M_ret in H. cbv beta iota zeta in H.
  injection H as <- <-. destruct Hi1 as [H1 H2 H3 H4 H5 H6]. set (id := fresh _).
  assert (Hf : ed_proposals d1 !! id = None).
  { destruct (ed_proposals d1 !! id) as [v|] eqn:Ey; [|done]. destruct (H6 _ _ Ey) as [Hin _]. by apply is_fresh in Hin. }
  clearbody id. set (y := MkOptimizationProposal _ _ _ _ _ _ _ _ _ _ _ _ _). assert (Hy : op_Status y = "proposed") by done. clearbody y.
  split; [split; cbn; try done|done].
  - intros k v Hk. destruct (H1 k v Hk) as (?&?&?&?). repeat split; try done. set_solver.
  - intros k v Hk. destruct (H4 k v Hk) as (z & Hz & ?). exists z. rewrite lookup_insert_ne by (intros Eq; congruence). done.
  - intros k u [(<- & <-)|[_ Hk]]%lookup_insert_Some; [split; [set_solver|by left]|]. destruct (H6 k u Hk). split; [set_solver|done].
Qed.

Lemma step_vinv d d' : step d d' -> vinv d -> vinv d' /\ ed_versions d ⊆ ed_versions d'.
Proof.
  assert (Hk : forall A (m : E A) d r d', respects same_versions m -> m d = (r, d') -> vinv d -> vinv d' /\ ed_versions d ⊆ ed_versions d').
  { intros A m x r y Hm Hx. specialize (Hm x). rewrite Hx in Hm. by apply vinv_same. }
  intros [p e r d1 H|p e r d1 H|p i r d1 H|p i r d1 H|p i o r d1 H|p i r d1 H] Hi.
  - eapply Hk; [|exact H|done]. unfold CreateExperiment, put_experiment. respect.
  - eapply Hk; [|exact H|done]. unfold UpdateExperiment, put_experiment. respect.
  - eapply Hk; [|exact H|done]. unfold ExperimentReport, put_experiment. respect.
  - by eapply Propose_inv.
  - destruct r as [out|err]; [|apply tx_cases in H as [(? & ? & _)|[_ ->]]; done].
    destruct (Approve_Ok _ _ _ _ _ _ H) as (e & prop & _ & Hp & [(_ & _ & ->)|(Hs & ws & _ & Hm & Hu & ->)]); clear H; [by split|].
    apply proposal_row_Ok in Hp as (Hp & Hx & _). exact (mint_inv _ _ _ _ _ _ _ _ Hi Hp Hx Hs Hm Hu).
  - eapply Hk; [|exact H|done]. unfold RolloutExperiment, rolloutCampaign, rolloutJourney, put_experiment. respect.
Qed.

(** C36: Whatever is done to the experiments, optimisation versions are sound:
    those of an experiment are numbered 1, 2, ... without gap or repetition;
    each comes from one approved proposal of that experiment, approved by a
    user, and every approved proposal has its version; a version never changes.
    Approving again answers the same version and changes nothing; a version
    newly made copies the experiment's seed and holdout and changes of its
    variants the weights alone, a winner's to 100 and the others' to 0. *)
Theorem optimization_versions_sound d0 d : vinv d0 -> rtc step d0 d ->
  vinv d /\ ed_versions d0 ⊆ ed_versions d /\
  (forall p x o out d1, ApproveExperimentOptimization uuid_ok p x o d = (Ok out, d1) ->
     ApproveExperimentOptimization uuid_ok p x o d1 = (Ok out, d1) /\ ev_ProposalID out = o /\
     (d1 = d \/ exists e prop, experiment_row uuid_ok p x d = Ok e /\ ed_proposals d !! o = Some prop /\
        ev_Seed out = exp_Seed e /\ ev_HoldoutPct out = exp_HoldoutPct e /\ ev_Version out = latest_version x d + 1 /\
        (fun v => set_weight 0 v) <$> ev_Variants out = (fun v => set_weight 0 v) <$> listExperimentVariants uuid_ok p x d /\
        (op_Kind prop = "winner" -> forall v, v ∈ ev_Variants out ->
           xv_Weight v = (if is_text (op_WinnerVariant prop) (xv_Label v) then 100 else 0)))).
Proof.
  intros H0 Hr. assert (Hi : vinv d /\ ed_versions d0 ⊆ ed_versions d).
  { revert H0. induction Hr as [a|a b c Hs _ IH]; intros Ha; [done|]. destruct (step_vinv _ _ Hs Ha) as [Hb Hsub].
    destruct (IH Hb) as [Hc Hsub2]. split; [done|]. by etrans. }
  destruct Hi as [Hi Hsub]. split; [done|]. split; [done|]. intros p x o out d1 H.
  destruct (Approve_Ok _ _ _ _ _ _ H) as (e & prop & He & Hp & [(Hs & Hv & ->)|(Hs & ws & Hw & Hm & Hu & Hd)]).
  - split; [done|]. split; [|by left]. unfold version_of_proposal in Hv. destruct (find_first _ _) as [v|] eqn:E; [|done]. injection Hv as <-.
    by apply find_first_Some in E as [_ E%seqb_true].
  - apply proposal_row_Ok in Hp as (Hp & Hx & Hf & Huo). pose proof (mint_inv _ _ _ _ _ _ _ _ Hi Hp Hx Hs Hm Hu) as [Hi' _]. cbn zeta in Hi'.
    rewrite <- Hd in Hi'. destruct (minted_fields _ _ _ _ _ _ _ _ Hm) as (_ & V2 & V3 & V1 & _ & V4 & V5 & V6). clear Hm.
    split; [|split; [done|right]].
    + apply (Approve_again p x o d1 e (approved (p_UserID p) (now d) prop) (ev_ID out)); try done; rewrite Hd; [done| |apply lookup_insert_eq].
      unfold proposal_row. rewrite Huo. cbn [negb ed_proposals set_proposals]. rewrite lookup_insert_eq. unfold proposal_for in *. cbn. by rewrite Hf.
    + exists e, prop. do 5 (split; [done|]). rewrite V6. split.
      * rewrite <- list_fmap_compose. apply list_fmap_ext. intros i v _. unfold compose, reweigh.
        destruct (op_Kind prop =s "winner"); [done|]. by destruct (weight_for ws (xv_Label v)).
      * intros Hk v (u & -> & _)%list_elem_of_fmap. unfold reweigh. rewrite Hk. eval_str. reflexivity.
Qed.
End ops.
End ExperimentSpec.
