(* ===== verification/RolloutSpec.v ===== *)
(** * What a rollout does to a journey

    The new version's graph is the old one with its experiment's nodes pinned:
    their splits send every run to the winner, their messages use its template,
    and nothing names the experiment any more. *)

From S2P Require Import Prelude.
From S2P Require Import GoStd.
From S2P Require Import GoMap.
From S2P Require Import Domain.
From S2P Require Import Store.
From S2P Require Import AuditLog.
From S2P Require Import MakerChecker.
From S2P Require Import StoreLemmas.
From S2P Require Import JourneyGraph.
From S2P Require Import JourneyValidate.
From S2P Require Import Experiment.
From S2P Require Import JourneyNodes.
From S2P Require Import Jsonb.
From S2P Require Import Statistics.
From S2P Require Import ExperimentDB.
From S2P Require Import Rollout.
From S2P Require Import ExperimentSpec.

Module RolloutSpec.
Import MakerChecker StoreLemmas ExperimentDB Graph Rollout Jsonb.

(** ** A pinned split *)

Lemma pick_pinned w brs b : 0 <= b < 100 ->
  JNodes.pick_random b 0 (pin_branch w <$> brs) = if mem w (sb_Label <$> brs) then w else "".
Proof.
  intros Hb. induction brs as [|br brs IH]; [done|]. rewrite !fmap_cons. cbn [JNodes.pick_random pin_branch sb_Weight sb_Label].
  assert (Em : mem w (sb_Label br :: (sb_Label <$> brs)) = (sb_Label br =s w) || mem w (sb_Label <$> brs)).
  { apply eq_true_iff_eq. rewrite orb_true_iff, !mem_In, elem_of_cons, seqb_true. naive_solver. }
  rewrite Em. destruct (sb_Label br =s w) eqn:E.
  - apply seqb_true in E as ->. change (u64 (0 + u64 100)) with 100. by rewrite (proj2 (Z.ltb_lt b 100)) by lia.
  - change (u64 (0 + u64 0)) with 0. by rewrite (proj2 (Z.ltb_ge b 0)) by lia.
Qed.

Lemma split_pinned {W} `{NodeStore W} n run w cfg (x : W) : w <> "" -> mem w (sb_Label <$> sc_Branches cfg) = true ->
  JNodes.split_choose n run (pin_split w cfg) x = (Ok w, x).
Proof.
  intros Hw Hm. unfold JNodes.split_choose, pin_split. cbn [sc_ExperimentID sc_Mode sc_Branches]. eval_str. cbn [negb].
  unfold JNodes.random_branch. rewrite pick_pinned, Hm by (apply Experiment.BucketOf_range; lia).
  unfold JNodes.or_last. apply seqb_false in Hw. by rewrite Hw.
Qed.

(** ** Marshalling into the column and parsing again *)

Definition stored (n : Node) : Node :=
  MkNode (ID n) (Type_ n) (Raw (match Config n with Raw j => Audit.jsonb j | _ => JNull end)).

Lemma stored_normal n : config_normal n -> stored n = written n.
Proof. unfold config_normal, stored, written. destruct (Config n) as [|t|j]; intros Hn; [done|done|]. by rewrite normal_fixed. Qed.
Lemma DecodeConfig_stored n : config_normal n -> DecodeConfig (stored n) = DecodeConfig n.
Proof. intros Hn. by rewrite (stored_normal n Hn), DecodeConfig_written. Qed.

Lemma mapM_is_Ok {A B} (f : A -> result B) l : (forall x, x ∈ l -> is_Ok (f x) = true) -> is_Ok (mapM_result f l) = true.
Proof.
  induction l as [|x l IH]; intros H; [done|]. cbn [mapM_result]. pose proof (H x (list_elem_of_here _ _)) as Hx. destruct (f x); [|done].
  cbn [mbind result_bind]. assert (Hl : is_Ok (mapM_result f l) = true) by (apply IH; intros y Hy; apply H; by apply list_elem_of_further).
  by destruct (mapM_result f l).
Qed.
Lemma parse_stored_nodes l js : mapM_result marshal_node l = Ok js ->
  Json.map_opt (fun j => Json.decode_struct node_fields j (MkNode "" "" RawEmpty)) (Audit.jsonb <$> js) = Some (stored <$> l).
Proof.
  revert js. induction l as [|n l IH]; intros js H; cbn [mapM_result] in H; [by inv_M|].
  apply bind_Ok in H as (j & Hj & H). apply bind_Ok in H as (js' & Hjs & H). inv_M.
  unfold marshal_node in Hj. apply bind_Ok in Hj as (c & Hc & Hj). inv_M. rewrite !fmap_cons. cbn [Json.map_opt]. rewrite (IH _ Hjs).
  assert (E : Audit.jsonb (JObject [("id", JString (ID n)); ("type", JString (Type_ n)); ("config", c)]) =
              JObject [("id", JString (ID n)); ("type", JString (Type_ n)); ("config", Audit.jsonb c)]) by reflexivity.
  rewrite E. unfold stored. destruct (Config n); simpl in Hc; inv_ok; done.
Qed.
Lemma parse_stored_edges l :
  Json.map_opt (fun j => Json.decode_struct edge_fields j (MkEdge "" "" "")) (Audit.jsonb <$> (marshal_edge <$> l)) = Some l.
Proof.
  induction l as [|[f t b] l IH]; [done|]. rewrite !fmap_cons. cbn [Json.map_opt]. rewrite IH.
  unfold marshal_edge. cbn [From To Branch]. destruct (b =s "") eqn:E; [apply seqb_true in E as ->|]; reflexivity.
Qed.

Lemma ParseGraph_stored g j : marshal_graph g = Ok j -> (forall n, n ∈ Nodes g -> is_Ok (DecodeConfig (stored n)) = true) ->
  ParseGraph (Raw (Audit.jsonb j)) = Ok (MkGraph (EntryNodeID g) (stored <$> Nodes g) (Edges g)).
Proof.
  intros H Hd. unfold marshal_graph in H. apply bind_Ok in H as (js & Hjs & H). inv_M.
  assert (E : Audit.jsonb (JObject [("entry_node_id", JString (EntryNodeID g)); ("nodes", JArray js); ("edges", JArray (marshal_edge <$> Edges g))]) =
              JObject [("edges", JArray (Audit.jsonb <$> (marshal_edge <$> Edges g))); ("nodes", JArray (Audit.jsonb <$> js));
                       ("entry_node_id", JString (EntryNodeID g))]) by reflexivity.
  rewrite E. clear E.
  assert (HU : Json.Unmarshal graph_fields (MkGraph "" [] []) (Raw (JObject [("edges", JArray (Audit.jsonb <$> (marshal_edge <$> Edges g)));
                 ("nodes", JArray (Audit.jsonb <$> js)); ("entry_node_id", JString (EntryNodeID g))])) =
               Ok (MkGraph (EntryNodeID g) (stored <$> Nodes g) (Edges g))).
  { unfold Json.Unmarshal, Json.parse. cbn [mbind result_bind]. unfold Json.decode_struct.
    rewrite (members_step _ "edges" _ _ _
      (Json.set_list (fun j => Json.decode_struct edge_fields j (MkEdge "" "" "")) (fun v g => MkGraph (EntryNodeID g) (Nodes g) v))
      (MkGraph "" [] (Edges g))); [|reflexivity|unfold Json.set_list; by rewrite parse_stored_edges].
    rewrite (members_step _ "nodes" _ _ _
      (Json.set_list (fun j => Json.decode_struct node_fields j (MkNode "" "" RawEmpty)) (fun v g => MkGraph (EntryNodeID g) v (Edges g)))
      (MkGraph "" (stored <$> Nodes g) (Edges g))); [|reflexivity|unfold Json.set_list; by rewrite (parse_stored_nodes _ _ Hjs)].
    erewrite members_step; [|reflexivity|reflexivity]. reflexivity. }
  unfold ParseGraph. rewrite HU. cbn [mbind result_bind Nodes].
  assert (Hm : is_Ok (mapM_result DecodeConfig (stored <$> Nodes g)) = true).
  { apply mapM_is_Ok. intros n (m & -> & Hm)%list_elem_of_fmap. by apply Hd. }
  by destruct (mapM_result DecodeConfig (stored <$> Nodes g)).
Qed.
(** ** Nodes that read the same *)

(** All that validation asks of a node. *)
Definition reads_as (n n' : Node) : Prop := ID n' = ID n /\ Type_ n' = Type_ n /\ DecodeConfig n' = DecodeConfig n.

Lemma node_ok_reads_as g g' n n' : reads_as n n' -> EntryNodeID g' = EntryNodeID g -> Validate.node_ok g n -> Validate.node_ok g' n'.
Proof.
  intros (Hi & Ht & Hd) He [H1 (c & Hc & Hk)]. split; [by rewrite Hi|]. exists c. rewrite Hd. split; [done|].
  destruct c; simpl in *; try done. by rewrite Hi, He.
Qed.

Lemma Validate_reads_as g (f : Node -> Node) : (forall n, n ∈ Nodes g -> reads_as n (f n)) ->
  Validate.Validate (Some g) = Ok tt -> Validate.Validate (Some (MkGraph (EntryNodeID g) (f <$> Nodes g) (Edges g))) = Ok tt.
Proof.
  intros Hf Hv. apply Validate.Validate_sound in Hv. apply Validate.Validate_complete. destruct Hv as [H1 H2 H3 H4 H5 H6 H7 H8].
  assert (Hid : ID <$> (f <$> Nodes g) = ID <$> Nodes g).
  { rewrite <- list_fmap_compose. apply list_fmap_ext. intros i n Hn%list_elem_of_lookup_2. by apply Hf. }
  split; cbn [Nodes EntryNodeID Edges]; rewrite ?Hid; try done.
  - intros n' (n & -> & Hn)%list_elem_of_fmap. apply (node_ok_reads_as g _ n); [by apply Hf|done|by apply H2].
  - rewrite <- H3. clear -Hf. induction (Nodes g) as [|n l IH]; [done|]. cbn [fmap list_fmap countb].
    assert (E : Validate.is_entry (f n) = Validate.is_entry n).
    { unfold Validate.is_entry. destruct (Hf n (list_elem_of_here _ _)) as (_ & -> & _). done. }
    rewrite E. f_equal. apply IH. intros m Hm. apply Hf. by apply list_elem_of_further.
  - intros n' (n & -> & Hn)%list_elem_of_fmap. destruct (Hf n Hn) as (Hi & Ht & Hd). rewrite Hi.
    unfold Validate.out_ok, Validate.fallback_of, Validate.branches_required, Validate.plain in *. rewrite Hd, Ht. by apply H6.
  - intros n' (n & -> & Hn)%list_elem_of_fmap. destruct (Hf n Hn) as (-> & _ & _). by apply H7.
  - destruct H8 as (n & Hn & Ht). exists (f n). split; [by apply list_elem_of_fmap_2|]. by destruct (Hf n Hn) as (_ & -> & _).
Qed.

Lemma Validate_stored e ns es : (forall n, n ∈ ns -> reads_as n (stored n)) ->
  Validate.Validate (Some (MkGraph e ns es)) = Ok tt -> Validate.Validate (Some (MkGraph e (stored <$> ns) es)) = Ok tt.
Proof. intros Hf Hv. pose proof (Validate_reads_as (MkGraph e ns es) stored Hf Hv) as H. cbn [EntryNodeID Nodes Edges] in H. exact H. Qed.

(** ** A pinned node *)

Lemma decode_branch w b : Json.decode_struct branch_fields (marshal_branch (pin_branch w b)) (MkSplitBranch "" 0 "") = Some (pin_branch w b) /\
  Json.decode_struct branch_fields (Audit.jsonb (marshal_branch (pin_branch w b))) (MkSplitBranch "" 0 "") = Some (pin_branch w b).
Proof.
  destruct b as [l k g]. unfold pin_branch, marshal_branch. cbn [sb_Label sb_Weight sb_SegmentID].
  destruct (l =s w); unfold text_field; (destruct (g =s "") eqn:E; [apply seqb_true in E as ->|]); split; reflexivity.
Qed.
Lemma decode_branches w brs :
  Json.map_opt (fun j => Json.decode_struct branch_fields j (MkSplitBranch "" 0 "")) (marshal_branch <$> (pin_branch w <$> brs)) = Some (pin_branch w <$> brs) /\
  Json.map_opt (fun j => Json.decode_struct branch_fields j (MkSplitBranch "" 0 "")) (Audit.jsonb <$> (marshal_branch <$> (pin_branch w <$> brs))) =
    Some (pin_branch w <$> brs).
Proof.
  induction brs as [|b brs [IH1 IH2]]; [done|]. rewrite !fmap_cons. cbn [Json.map_opt]. destruct (decode_branch w b) as [-> ->].
  by rewrite IH1, IH2.
Qed.

Lemma decode_pinned_split w cfg n : Type_ n = NodeTypeSplit ->
  let n' := set_config (marshal_split (pin_split w cfg)) n in
  DecodeConfig n' = Ok (CSplit (pin_split w cfg)) /\ DecodeConfig (stored n') = Ok (CSplit (pin_split w cfg)).
Proof.
  intros Ht. destruct (decode_branches w (sc_Branches cfg)) as [H1 H2].
  assert (Hd : forall j, Json.decode_struct split_fields j (MkSplitConfig "" "" []) = Some (pin_split w cfg) ->
    DecodeConfig (MkNode (ID n) (Type_ n) (Raw j)) = Ok (CSplit (pin_split w cfg))).
  { intros j Hj. unfold DecodeConfig. cbn [Type_]. rewrite Ht. eval_str. unfold decode_split, decodeNodeConfig. cbn [Config raw_len0].
    unfold Json.Unmarshal, Json.parse. cbn [mbind result_bind]. by rewrite Hj. }
  assert (Hs : forall bs, Json.map_opt (fun j => Json.decode_struct branch_fields j (MkSplitBranch "" 0 "")) bs = Some (pin_branch w <$> sc_Branches cfg) ->
    Json.decode_struct split_fields (JObject [("mode", JString "random"); ("branches", JArray bs)]) (MkSplitConfig "" "" []) = Some (pin_split w cfg)).
  { intros bs Hb. unfold Json.decode_struct. erewrite members_step; [|reflexivity|reflexivity].
    rewrite (members_step _ "branches" _ _ _
      (Json.set_list (fun j => Json.decode_struct branch_fields j (MkSplitBranch "" 0 "")) (fun v c => MkSplitConfig (sc_Mode c) (sc_ExperimentID c) v))
      (pin_split w cfg)); [done|reflexivity|unfold Json.set_list; by rewrite Hb]. }
  cbn zeta. split; unfold stored, set_config; cbn [ID Type_ Config]; apply Hd.
  - exact (Hs _ H1).
  - exact (Hs _ H2).
Qed.
Lemma decode_pinned_message t cfg n : Type_ n = NodeTypeMessage ->
  let n' := set_config (marshal_message (pin_message t cfg)) n in
  DecodeConfig n' = Ok (CMessage (pin_message t cfg)) /\ DecodeConfig (stored n') = Ok (CMessage (pin_message t cfg)).
Proof.
  intros Ht. unfold DecodeConfig, stored, set_config. cbn [Type_ ID Config]. rewrite Ht. eval_str.
  unfold decode_message, decodeNodeConfig, marshal_message, pin_message, text_field. cbn [Config raw_len0 mc_TemplateID mc_ExperimentID mc_Channel mc_Transactional].
  generalize (template_or t (mc_TemplateID cfg)); intros tpl. destruct (mc_Channel cfg =s "") eqn:E; [apply seqb_true in E as ->|]; split; reflexivity.
Qed.

(** The node a version gets for a node of its source. *)
Definition pinned (x w : string) (t : option string) (n n' : Node) : Prop :=
  ID n' = ID n /\ Type_ n' = Type_ n /\
  match DecodeConfig n with
  | Ok (CSplit c) => if sc_ExperimentID c =s x then mem w (sb_Label <$> sc_Branches c) = true /\ DecodeConfig n' = Ok (CSplit (pin_split w c))
                     else n' = written n
  | Ok (CMessage c) =>
      if mc_ExperimentID c =s x
      then DecodeConfig n' = Ok (CMessage (MkMessageConfig (if default "" t =s "" then mc_TemplateID c else default "" t) "" (mc_Channel c) (mc_Transactional c)))
      else n' = written n
  | _ => n' = written n
  end.

Lemma pin_node_pinned x w t n n1 b : config_normal n -> is_Ok (DecodeConfig n) = true -> pin_node x w t n = Ok (n1, b) ->
  pinned x w t n (stored n1) /\ reads_as n1 (stored n1) /\ is_Ok (DecodeConfig (stored n1)) = true.
Proof.
  intros Hn Hd H.
  assert (Hsame : n1 = n -> reads_as n1 (stored n1) /\ is_Ok (DecodeConfig (stored n1)) = true).
  { intros ->. unfold reads_as. by rewrite (DecodeConfig_stored n Hn). }
  unfold pinned. destruct (DecodeConfig n) as [c|e] eqn:Ed; [|done]. pose proof (DecodeConfig_shape n c Ed) as [Ht _].
  unfold pin_node in H. rewrite Ed in H. cbn [mbind result_bind] in H.
  destruct c; simpl in Ht; repeat (apply elem_of_cons in Ht as [Ht|Ht]); try (by apply elem_of_nil in Ht); rewrite Ht in H; revert H; eval_str; intros H.
  4: { destruct (sc_ExperimentID c =s x) eqn:Ex; cbn [negb] in H.
       - destruct (mem w _) eqn:Em; [|done]. cbn [negb] in H. injection H as <- <-. destruct (decode_pinned_split w c n Ht) as [D1 D2]. cbn zeta in D1, D2.
         unfold reads_as. rewrite D1, D2. by repeat split.
       - injection H as <- <-. rewrite (stored_normal n Hn). by split; [|rewrite <- (stored_normal n Hn); apply Hsame]. }
  4: { destruct (mc_ExperimentID c =s x) eqn:Ex; cbn [negb] in H.
       - injection H as <- <-. destruct (decode_pinned_message t c n Ht) as [D1 D2]. cbn zeta in D1, D2.
         unfold reads_as. rewrite D1, D2. unfold pin_message, template_or. by destruct t.
       - injection H as <- <-. rewrite (stored_normal n Hn). by split; [|rewrite <- (stored_normal n Hn); apply Hsame]. }
  all: injection H as <- <-; rewrite (stored_normal n Hn); by split; [|rewrite <- (stored_normal n Hn); apply Hsame].
Qed.

Lemma pin_nodes_pinned x w t l k : Forall config_normal l -> (forall n, n ∈ l -> is_Ok (DecodeConfig n) = true) ->
  mapM_result (pin_node x w t) l = Ok k ->
  Forall2 (pinned x w t) l (stored <$> k.*1) /\ (forall n, n ∈ k.*1 -> reads_as n (stored n) /\ is_Ok (DecodeConfig (stored n)) = true).
Proof.
  intros Hl. revert k. induction Hl as [|n l Hn Hl IH]; intros k Hd H; cbn [mapM_result] in H.
  { inv_M. split; [constructor|by intros n Hn%elem_of_nil]. }
  apply bind_Ok in H as ([n1 b] & H1 & H). apply bind_Ok in H as (k' & H2 & H). inv_M.
  destruct (pin_node_pinned x w t n n1 b Hn (Hd n (list_elem_of_here _ _)) H1) as (P1 & P2 & P3).
  destruct (IH k') as [Q1 Q2]; [intros m Hm; apply Hd; by apply list_elem_of_further|done|]. rewrite !fmap_cons. cbn [fst]. split; [by constructor|].
  intros m [->|Hm]%elem_of_cons; [done|by apply Q2].
Qed.

Lemma ParseGraph_decodes r g : ParseGraph r = Ok g -> forall n, n ∈ Nodes g -> is_Ok (DecodeConfig n) = true.
Proof.
  unfold ParseGraph. intros H. apply bind_Ok in H as (g0 & _ & H). apply bind_Ok in H as (cs & Hcs & H). inv_M.
  revert cs Hcs. induction (Nodes g) as [|m l IH]; intros cs Hcs n Hn; [by apply elem_of_nil in Hn|]. cbn [mapM_result] in Hcs.
  apply bind_Ok in Hcs as (c & Hc & Hcs). apply bind_Ok in Hcs as (cs' & Hcs' & _). apply elem_of_cons in Hn as [->|Hn]; [by rewrite Hc|by eapply IH].
Qed.

(** The graph of the new version. *)
Lemma pin_graph r x w t j : (forall k, r = Raw k -> Audit.jsonb k = k) -> pinJourneyExperiment r x w t = Ok j ->
  exists g g', ParseGraph r = Ok g /\ ParseGraph (Raw (Audit.jsonb j)) = Ok g' /\ Validate.Validate (Some g') = Ok tt /\
    EntryNodeID g' = EntryNodeID g /\ Edges g' = Edges g /\ Forall2 (pinned x w t) (Nodes g) (Nodes g') /\
    Exists (fun n => exists n1, pin_node x w t n = Ok (n1, true)) (Nodes g).
Proof.
  intros Hr H. unfold pinJourneyExperiment in H. apply bind_Ok in H as (g & Hg & H). apply bind_Ok in H as (k & Hk & H).
  destruct (negb (existsb snd k)) eqn:Hs; [done|]. apply negb_false_iff in Hs. cbn zeta in H. apply bind_Ok in H as ([] & Hv & H).
  assert (Hn : Forall config_normal (Nodes g)).
  { destruct r as [|tx|k0]; [discriminate Hg|discriminate Hg|]. apply (ParseGraph_normal k0); [|done]. apply normal_iff. by apply Hr. }
  destruct (pin_nodes_pinned x w t _ _ Hn (ParseGraph_decodes _ _ Hg) Hk) as [HP HQ].
  exists g, (MkGraph (EntryNodeID g) (stored <$> k.*1) (Edges g)). split; [done|]. split.
  { apply (ParseGraph_stored _ _ H). intros n Hin. by apply HQ. }
  split.
  { apply Validate_stored; [|done]. intros n Hin. by apply HQ. }
  do 3 (split; [done|]). clear -Hk Hs. revert k Hk Hs. induction (Nodes g) as [|n l IH]; intros k Hk Hs; cbn [mapM_result] in Hk; [by inv_M|].
  apply bind_Ok in Hk as ([n1 b] & H1 & Hk). apply bind_Ok in Hk as (k' & H2 & Hk). inv_M. simpl in Hs. destruct b; [left; by exists n1|right].
  by apply (IH k').
Qed.

Definition names (x : string) (n : Node) : Prop :=
  match DecodeConfig n with Ok (CSplit c) => sc_ExperimentID c = x | Ok (CMessage c) => mc_ExperimentID c = x | _ => False end.
Lemma pinned_unnamed x w t n n' : x <> "" -> pinned x w t n n' -> ~ names x n'.
Proof.
  intros Hx (_ & _ & H) Hn. unfold names in Hn.
  assert (Hw : n' = written n -> match DecodeConfig n with Ok (CSplit c) => sc_ExperimentID c = x | Ok (CMessage c) => mc_ExperimentID c = x | _ => False end).
  { intros ->. by rewrite DecodeConfig_written in Hn. }
  destruct (DecodeConfig n) as [[]|]; try (by specialize (Hw H)).
  - destruct (sc_ExperimentID c =s x) eqn:E; [|specialize (Hw H); by apply seqb_false in E]. destruct H as [_ H]. rewrite H in Hn. simpl in Hn. by subst.
  - destruct (mc_ExperimentID c =s x) eqn:E; [|specialize (Hw H); by apply seqb_false in E]. rewrite H in Hn. simpl in Hn. by subst.
Qed.

(** ** The tables *)

Section ops.
Context (uuid_ok : string -> bool) (interval_text : string -> option string).

(** Rows are under their ids; a graph is what its [jsonb] column gives; a
    current version is its journey's. *)
Record columns (d : EDB) : Prop := {
  col_graph : forall k v j, ed_journey_versions d !! k = Some v -> jv_Graph v = Raw j -> Audit.jsonb j = j;
  col_version : forall k v, ed_journey_versions d !! k = Some v -> jv_ID v = k /\ k ∈ cd_used (ed_common d);
  col_journey : forall k j, ed_journeys d !! k = Some j -> jny_ID j = k;
  col_current : forall k j c v, ed_journeys d !! k = Some j -> jny_CurrentVersionID j = Some c -> ed_journey_versions d !! c = Some v ->
    jv_JourneyID v = k /\ jv_TenantID v = jny_TenantID j /\ jv_WorkspaceID v = jny_WorkspaceID j;
  col_experiment : forall k e, ed_experiments d !! k = Some e -> exp_ID e = k
}.

Lemma journeys_of_elem p x d j v : (j, v) ∈ journeys_of p x d ->
  exists k c, ed_journeys d !! k = Some j /\ jny_CurrentVersionID j = Some c /\ ed_journey_versions d !! c = Some v /\ journey_in p j = true.
Proof.
  unfold journeys_of. rewrite GoMap.sort_by_perm, list_elem_of_filter, list_elem_of_omap.
  intros (Hb & j0 & Hj & Hc). apply list_elem_of_fmap in Hj as ([k j1] & -> & Hk). apply elem_of_map_to_list in Hk.
  unfold current_version in Hc. simpl in Hc. destruct (jny_CurrentVersionID j1) as [c|] eqn:Ec; [|done].
  destruct (ed_journey_versions d !! c) as [v0|] eqn:Ev; [|done]. injection Hc as <- <-. exists k, c. repeat split; try done.
  unfold bound in Hb. by apply andb_prop in Hb as [Hb _].
Qed.

(** What a journey's rollout that succeeds did. *)
Lemma rolloutJourney_Ok p x w t d out d' : rolloutJourney uuid_ok interval_text p x w t d = (Ok out, d') -> columns d ->
  exists k j v pj, let id := fresh (cd_used (ed_common d)) in
    ed_journeys d !! k = Some j /\ jny_CurrentVersionID j = Some (jv_ID v) /\ ed_journey_versions d !! jv_ID v = Some v /\ journey_in p j = true /\
    pinJourneyExperiment (jv_Graph v) x w t = Ok pj /\ jv_ID out = id /\ jv_JourneyID out = k /\ jv_Version out = jny_LatestVersion j + 1 /\
    jv_Graph out = Raw (Audit.jsonb pj) /\ jv_Status out = "active" /\
    d' = set_journeys (<[k := pointed_to id (jv_Version out) (now d) j]> (ed_journeys d))
           (archived_in p (jv_ID v) <$> <[id := out]> (ed_journey_versions d))
           (set_common (set_used ({[id]} ∪ cd_used (ed_common d)) (ed_common d)) d).
Proof.
  intros H Hc. unfold rolloutJourney in H. apply bindM_Ok in H as (srcs & d1 & E & H). unfold gets in E. injection E as <- <-.
  destruct (journeys_of p x d) as [|[j v] rest] eqn:Ej; [done|].
  destruct (journeys_of_elem p x d j v) as (k & c & Hk & Hcv & Hv & Hin); [rewrite Ej; apply list_elem_of_here|].
  destruct (col_version _ Hc _ _ Hv) as [Hid _]. subst c. destruct (col_current _ Hc _ _ _ _ Hk Hcv Hv) as (Hjk & _ & _).
  follow H. repeat match goal with u : unit |- _ => destruct u end.
  match goal with E : _ !! jv_JourneyID v = Some ?y |- _ => cbn in E; rewrite Hjk, Hk in E; injection E as <- end.
  injection H as <- <-. exists k, j, v. eexists. cbn zeta. do 4 (split; [done|]). split; [eassumption|]. split; [done|].
  rewrite Hjk. do 4 (split; [done|]). reflexivity.
Qed.

Definition sends_all_to (w : string) (n : Node) : Prop :=
  forall cfg (W : Type) (S : NodeStore W) run (s : W), DecodeConfig n = Ok (CSplit cfg) -> JNodes.split_choose n run cfg s = (Ok w, s).
Lemma pinned_sends x w t n n' : w <> "" -> pinned x w t n n' -> names x n -> sends_all_to w n'.
Proof.
  intros Hw (_ & _ & H) Hn cfg W S run s Hd. unfold names in Hn. destruct (DecodeConfig n) as [c0|]; [|done]. destruct c0; try done; subst x.
  - rewrite seqb_refl in H. destruct H as [Hm H]. rewrite H in Hd. injection Hd as <-. by apply split_pinned.
  - rewrite seqb_refl in H. congruence.
Qed.

(** C37: Rolling out an experiment on a journey publishes a version in which
    the winner has won: its stored graph parses and validates, with the edges
    and the entry of the version it replaces and its nodes, where those of the
    experiment are pinned -- a split to the winner's branch, whatever run comes
    to it, a message to the winner's template if it has one, out of the
    experiment, its channel and its kind kept -- the others are unchanged and
    none names the experiment; the journey points to that version, the next of
    its numbers, the old one is archived and the experiment completed. *)
Theorem journey_rollout_pins p x d r d' :
  uuid_ok "" = false -> columns d -> RolloutExperiment uuid_ok interval_text p x d = (Ok r, d') -> ro_SubjectType r = "journey" ->
  exists e t j v out g g', let w := ro_WinnerVariant r in
    ed_experiments d !! x = Some e /\ exp_WinnerVariant e = Some w /\ winner_template x w d = Ok t /\
    ed_journeys d !! jny_ID j = Some j /\ jny_CurrentVersionID j = Some (jv_ID v) /\ ed_journey_versions d !! jv_ID v = Some v /\
    ro_JourneyVersion r = Some out /\ jv_Version out = jny_LatestVersion j + 1 /\
    ParseGraph (jv_Graph v) = Ok g /\ ParseGraph (jv_Graph out) = Ok g' /\ Validate.Validate (Some g') = Ok tt /\
    EntryNodeID g' = EntryNodeID g /\ Edges g' = Edges g /\ Forall2 (pinned x w t) (Nodes g) (Nodes g') /\
    Forall2 (fun n n' => names x n -> sends_all_to w n') (Nodes g) (Nodes g') /\ (forall n', n' ∈ Nodes g' -> ~ names x n') /\
    ed_journey_versions d' !! jv_ID out = Some out /\ ed_journey_versions d' !! jv_ID v = Some (archive v) /\
    ed_journeys d' !! jny_ID j = Some (pointed_to (jv_ID out) (jv_Version out) (now d) j) /\
    ed_experiments d' !! x = Some (set_exp_status "completed" (now d) e).
Proof.
  intros Hu Hc H Hj. unfold RolloutExperiment in H. apply tx_cases in H as [(? & [= <-] & H)|[[? ?] _]]; [|done].
  apply bindM_Ok in H as (e & d1 & E & H). apply reads_Ok in E as [E ->]. apply ExperimentSpec.experiment_row_Ok in E as (He & _ & Hx).
  destruct (exp_WinnerVariant e) as [w|] eqn:Ew; [|done]. destruct (w =s "") eqn:Ewe; [done|]. apply seqb_false in Ewe.
  apply bindM_Ok in H as (t & d1 & E & H). apply reads_Ok in E as [Et ->]. apply bindM_Ok in H as (res & d1 & E & H).
  apply bindM_Ok in H as (n & d2 & En & H). unfold gets in En. injection En as <- <-.
  apply bindM_Ok in H as (row & d2 & Er & H). apply reads_Ok in Er as [Er ->].
  apply bindM_Ok in H as ([] & d2 & Ep & H). unfold put_experiment, modify in Ep. injection Ep as <-.
  apply bindM_Ok in H as ([] & d3 & Ea & H). apply audit_Ok in Ea as (q & ->). injection H as <- <-.
  destruct (exp_SubjectType e =s "campaign") eqn:Es.
  { apply bindM_Ok in E as (cmp & d2 & _ & E). injection E as <- _. apply seqb_true in Es. cbn in Hj. congruence. }
  destruct (exp_SubjectType e =s "journey"); [|done]. apply bindM_Ok in E as (out & d2 & E & E2). injection E2 as <- <-.
  destruct (rolloutJourney_Ok _ _ _ _ _ _ _ E Hc) as (k & j & v & pj & Hk & Hcv & Hv & Hin & Hpj & Hid & Hjk & Hver & Hg & _ & Hd). cbn zeta in Hd.
  rewrite <- Hid in Hd. pose proof (col_journey _ Hc _ _ Hk) as Hjid. rewrite <- Hjid in Hk.
  assert (Hfresh : jv_ID v <> jv_ID out).
  { intros Eq. destruct (col_version _ Hc _ _ Hv) as [_ Hu2]. rewrite Eq, Hid in Hu2. by apply is_fresh in Hu2. }
  destruct (pin_graph _ _ _ _ _ (fun k0 => col_graph _ Hc _ _ k0 Hv) Hpj) as (g & g' & Hg1 & Hg2 & Hv2 & He1 & He2 & HF & _).
  assert (Hxne : x <> "") by (intros ->; congruence).
  exists e, t, j, v, out, g, g'. cbn [ro_WinnerVariant ro_JourneyVersion]. do 9 (split; [done|]). rewrite Hg. do 5 (split; [done|]).
  split; [eapply Forall2_impl; [exact HF|]; intros n n'; by apply pinned_sends|].
  split.
  { intros n' Hn'. apply list_elem_of_lookup in Hn' as [i Hi]. destruct (Forall2_lookup_r _ _ _ _ _ HF Hi) as (n & _ & Hp). by eapply pinned_unnamed. }
  clear E Hpj. subst d2. destruct (ExperimentSpec.experiment_row_Ok _ _ _ _ _ Er) as (Her & _ & _).
  cbn [ed_experiments ed_journeys ed_journey_versions set_experiments set_journeys set_common common_experiments] in *.
  destruct (col_current _ Hc _ _ _ _ Hk Hcv Hv) as (_ & Ht1 & Ht2). unfold journey_in in Hin. rewrite <- Ht1, <- Ht2 in Hin.
  rewrite !lookup_fmap, lookup_insert_eq, lookup_insert_ne by done. rewrite Hv. cbn [fmap option_fmap option_map]. unfold archived_in.
  rewrite Hin, seqb_refl. apply seqb_false in Hfresh as Hf2. assert (Hf3 : jv_ID out =s jv_ID v = false) by (apply seqb_false; congruence).
  rewrite Hf3, andb_false_r. cbn [andb]. split; [done|]. split; [done|]. rewrite <- Hjid. split; [apply lookup_insert_eq|].
  rewrite He in Her. injection Her as <-. rewrite (col_experiment _ Hc _ _ He). apply lookup_insert_eq.
Qed.
End ops.
End RolloutSpec.
