(* ===== verification/ExperimentWorld.v ===== *)
(** * Experiments on concrete tables, and what they do not guarantee

    The theorems of [ExperimentSpec] and [RolloutSpec] at work, and the races,
    numbers and rollouts that go wrong. *)

From S2P Require Import Prelude.
From S2P Require Import GoStd.
From S2P Require Import GoMap.
From S2P Require Import GoFloat.
From S2P Require Import Domain.
From S2P Require Import Store.
From S2P Require Import AuditLog.
From S2P Require Import Facts.
From S2P Require Import MakerChecker.
From S2P Require Import Campaigns.
From S2P Require Import JourneyGraph.
From S2P Require Import JourneyValidate.
From S2P Require Import Statistics.
From S2P Require Import ExperimentDB.
From S2P Require Import Rollout.
From S2P Require Import ExperimentSpec.
From S2P Require Import RolloutSpec.

Module ExperimentWorld.
Import MakerChecker Statistics ExperimentDB Graph Rollout ExperimentSpec RolloutSpec.

(** ** Tables *)

Definition demo_uuid (s : string) : bool := negb (s =s "").
Definition demo_erfc (z : Float.float64) : Float.float64 := if Float.ltb two z then Float.parsed "0.01" else one.
Definition demo_user : Principal := MkPrincipal "t1" "w1" "" "" "u1" "user" [].

Definition demo_variant (id x label : string) (control : bool) (template : option string) : ExperimentVariant :=
  MkExperimentVariant id x "t1" label 50 control template 1.
Definition demo_experiment (x subject : string) (winner : option string) : Experiment :=
  MkExperiment x "t1" "w1" "Subject line" None subject "running" "frequentist" "seed" 0
    (Raw (JObject [("name", JString "bought"); ("event_type", JString "purchase")])) (Raw (JArray [])) winner [] 1 1.

Definition demo_graph : Graph :=
  MkGraph "n1"
    [MkNode "n1" "entry" (Raw (JObject [("trigger", JString "event"); ("event_type", JString "signup")]));
     MkNode "n2" "split" (Raw (marshal_split (MkSplitConfig "random" "x1" [MkSplitBranch "a" 50 ""; MkSplitBranch "b" 50 ""])));
     MkNode "n3" "message" (Raw (marshal_message (MkMessageConfig "tpl1" "x1" "email" false)));
     MkNode "n4" "exit" (Raw (JObject []))]
    [MkEdge "n1" "n2" ""; MkEdge "n2" "n3" "a"; MkEdge "n2" "n4" "b"; MkEdge "n3" "n4" ""].
(** The column: [jsonb] of the marshalled graph. *)
Definition demo_column : RawMessage := match marshal_graph demo_graph with Ok j => Raw (Audit.jsonb j) | Err _ => RawEmpty end.
Definition demo_version : JourneyVersion :=
  MkJourneyVersion "v1" "j1" "t1" "w1" 1 demo_column None "event" (Some "signup") None None "once" 0 "run" RawEmpty None "active" (Some "u1") 1.
Definition demo_journey : Journey := MkJourney "j1" "t1" "w1" "Welcome" None "published" RawEmpty 1 (Some "v1") 1 1.
Definition demo_campaign : Campaigns.Campaign :=
  Campaigns.MkCampaign "c1" "t1" "w1" "Sale" None "s1" "tpl1" (Some "x2") RawEmpty None "completed" None None 1 1 None 0 1 1.
Definition demo_attempt (variant : string) : Facts.Attempt := Facts.MkAttempt "c1" "t1" "p1" "email" "e" "sent" None (Some "x2") (Some variant) 0 1.
Definition demo_conversion (variant : string) : Facts.ConversionFact :=
  Facts.MkConversionFact "t1" "w1" "campaign" "c1" (Some "x2") (Some variant) "p1" "bought" Float.zero 1 1 "e1" 0.
Definition demo_proposal : OptimizationProposal :=
  MkOptimizationProposal "o1" "t1" "w1" "x1" "winner" (Raw (JObject [])) RawEmpty (Some "b") "because" "proposed" None None 1.

(** The maker-checker policy on journeys is on. *)
Definition demo_common : CDB :=
  MkCDB {[ ("t1", "journeys") := MkMakerCheckerPolicy "m1" "t1" "journeys" true ]} (Audit.MkADB [] ∅ 5) {[ "x1"; "x2"; "v1"; "o1" ]} 10.
Definition demo_db : EDB :=
  MkEDB (list_to_map [("x1", demo_experiment "x1" "journey" (Some "b")); ("x2", demo_experiment "x2" "campaign" None)])
    (list_to_map [("xa", demo_variant "xa" "x1" "a" true None); ("xb", demo_variant "xb" "x1" "b" false (Some "tpl2"));
                  ("ya", demo_variant "ya" "x2" "a" true None); ("yb", demo_variant "yb" "x2" "b" false (Some "tpl2"))])
    ∅ {[ "o1" := demo_proposal ]} ∅ {[ "c1" := demo_campaign ]} {[ "j1" := demo_journey ]} {[ "v1" := demo_version ]}
    (replicate 100 (demo_attempt "a") ++ replicate 100 (demo_attempt "b")) ∅
    (replicate 10 (demo_conversion "a") ++ replicate 50 (demo_conversion "b"))
    {[ "tpl1"; "tpl2" ]} {[ "p1" ]} {[ "u1" ]} demo_common.

(** ** The theorems at work *)

Abbreviation assign snap variant := (AssignExperiment demo_uuid snap demo_user "x1" "p1" variant).
Definition demo_assigned : EDB := (assign demo_db "a" demo_db).2.
Definition demo_answer : ExperimentAssignment := MkExperimentAssignment "x1" "t1" "w1" "p1" "a" 10.

Lemma demo_run : run demo_uuid Some demo_erfc [demo_assigned; demo_assigned; demo_db] [demo_answer; demo_answer].
Proof.
  apply (run_assign demo_uuid Some demo_erfc demo_assigned [demo_db] [demo_answer] demo_assigned demo_user "x1" "p1" "b" (Ok demo_answer)).
  - apply (run_assign demo_uuid Some demo_erfc demo_db [] [] demo_db demo_user "x1" "p1" "a" (Ok demo_answer)); [|apply list_elem_of_here|reflexivity].
    constructor. intros k a Hk. cbn [ed_assignments demo_db] in Hk. by rewrite lookup_empty in Hk.
  - apply list_elem_of_here.
  - reflexivity.
Qed.
Lemma assignments_sticky_witness :
  (assign demo_assigned "b" demo_assigned).1 = Ok demo_answer /\
  ed_assignments demo_assigned !! ("x1", "p1") = Some demo_answer /\
  exists a, (assign demo_assigned "b" demo_assigned).1 = Ok a /\ a = demo_answer.
Proof.
  destruct (assignments_sticky _ _ _ _ _ _ demo_run) as (_ & H2 & H3). split; [reflexivity|].
  split; [apply (H2 demo_answer), list_elem_of_here|].
  destruct (H3 demo_user "x1" "p1" "b") as (a & Ha & Hb); [reflexivity|reflexivity|set_solver|].
  exists a. split; [exact Ha|]. apply Hb; [apply list_elem_of_here|reflexivity|reflexivity].
Defined.

Definition demo_report : result Statistics.ExperimentReport * EDB := ExperimentReport demo_uuid demo_erfc demo_user "x2" demo_db.
Lemma demo_keyed : keyed demo_db.
Proof.
  intros k e. unfold demo_db. cbn [ed_experiments]. intros Hk%elem_of_list_to_map_2.
  repeat (apply elem_of_cons in Hk as [[= -> ->]|Hk]; [done|]). by apply elem_of_nil in Hk.
Qed.
Lemma report_recommends_witness : exists r d' row, demo_report = (Ok r, d') /\ er_WinnerVariant r = Some "b" /\
  ed_experiments d' !! "x2" = Some row /\ exp_WinnerVariant row = Some "b" /\
  exists control v, find_first vr_IsControl (er_Variants r) = Some control /\ best_of demo_erfc control (er_Variants r) v /\ vr_Label v = "b".
Proof.
  assert (Hw : match demo_report.1 with Ok r => er_WinnerVariant r | Err _ => None end = Some "b") by (vm_compute; reflexivity).
  destruct demo_report as [[r|e] d'] eqn:E; [|discriminate Hw]. cbn [fst] in Hw.
  destruct (report_recommends demo_uuid demo_erfc demo_user "x2" demo_db r d' E) as (x & row & _ & _ & Hi & Hr & Hwr & _).
  - split; [|split]; vm_compute; reflexivity.
  - exact demo_keyed.
  - exists r, d', row. split; [reflexivity|]. split; [exact Hw|]. split; [exact Hr|]. split; [congruence|].
    destruct (proj1 (Hi "b") Hw) as (c & v & H1 & _ & H2 & H3). exists c, v. exact (conj H1 (conj H2 H3)).
Defined.

Definition demo_approve : result ExperimentVersion * EDB := ApproveExperimentOptimization demo_uuid demo_user "x1" "o1" demo_db.
Lemma demo_vinv : vinv demo_db.
Proof.
  split; cbn [ed_versions demo_db]; try (intros k v Hk; by rewrite lookup_empty in Hk).
  - intros k v n Hk. by rewrite lookup_empty in Hk.
  - intros k l v w Hk. by rewrite lookup_empty in Hk.
  - intros k l v w Hk. by rewrite lookup_empty in Hk.
  - intros k o Hk. cbn [ed_proposals demo_db] in Hk. apply lookup_singleton_Some in Hk as [<- <-]. split; [set_solver|by left].
Qed.
Lemma optimization_versions_sound_witness : exists out d1, demo_approve = (Ok out, d1) /\
  ApproveExperimentOptimization demo_uuid demo_user "x1" "o1" d1 = (Ok out, d1) /\ ev_Version out = 1 /\ ev_Seed out = "seed".
Proof.
  assert (Hw : match demo_approve.1 with Ok v => (ev_Version v, ev_Seed v) = (1, "seed") | Err _ => False end) by (vm_compute; reflexivity).
  destruct demo_approve as [[out|e] d1] eqn:E; [|destruct Hw]. cbn [fst] in Hw.
  destruct (optimization_versions_sound demo_uuid Some demo_erfc demo_db demo_db demo_vinv (rtc_refl _ _)) as (_ & _ & Ha).
  destruct (Ha demo_user "x1" "o1" out d1 E) as (H1 & _). exists out, d1. split; [reflexivity|]. split; [exact H1|]. injection Hw as H2 H3. exact (conj H2 H3).
Defined.

Definition demo_rollout : result ExperimentRollout * EDB := RolloutExperiment demo_uuid Some demo_user "x1" demo_db.
Lemma demo_columns : columns demo_db.
Proof.
  split; cbn [ed_journey_versions ed_journeys ed_experiments demo_db].
  - intros k v j [<- <-]%lookup_singleton_Some. cbn [jv_Graph demo_version]. intros H. injection H as <-. vm_compute. reflexivity.
  - intros k v [<- <-]%lookup_singleton_Some. split; [reflexivity|set_solver].
  - by intros k j [<- <-]%lookup_singleton_Some.
  - intros k j c v [<- <-]%lookup_singleton_Some [= <-] [_ <-]%lookup_singleton_Some. by repeat split.
  - exact demo_keyed.
Qed.
Lemma journey_rollout_pins_witness : exists r d' out g', demo_rollout = (Ok r, d') /\ ro_JourneyVersion r = Some out /\ jv_Version out = 2 /\
  ParseGraph (jv_Graph out) = Ok g' /\ Validate.Validate (Some g') = Ok tt /\ (forall n, n ∈ Nodes g' -> ~ names "x1" n).
Proof.
  assert (Hw : match demo_rollout.1 with Ok r => (ro_SubjectType r, jv_Version <$> ro_JourneyVersion r) = ("journey", Some 2) | Err _ => False end)
    by (vm_compute; reflexivity).
  destruct demo_rollout as [[r|e] d'] eqn:E; [|destruct Hw]. cbn [fst] in Hw. injection Hw as Hs Hver.
  destruct (journey_rollout_pins demo_uuid Some demo_user "x1" demo_db r d' eq_refl demo_columns E Hs)
    as (e & t & j & v & out & g & g' & _ & _ & _ & _ & _ & _ & Ho & _ & _ & Hg & Hv & _ & _ & _ & _ & Hn & _).
  exists r, d', out, g'. split; [reflexivity|]. split; [exact Ho|]. rewrite Ho in Hver. injection Hver as Hver.
  exact (conj Hver (conj Hg (conj Hv Hn))).
Defined.

(** ** What goes wrong *)

(** Two first assignments of a profile at once: the second statement began
    before the first committed, does not insert and does not see the row; it
    answers that the experiment is not found. *)
Theorem concurrent_first_assignment_fails : (assign demo_db "a" demo_db).1 = Ok demo_answer /\
  assign demo_db "a" demo_assigned = (Err ErrNotFound, demo_assigned).
Proof. split; reflexivity. Qed.

(** An experiment that is a draft, completed or archived goes on assigning. *)
Theorem status_is_not_read status : exists a,
  (AssignExperiment demo_uuid (set_experiments {[ "x1" := set_exp_status status 1 (demo_experiment "x1" "journey" None) ]} demo_db) demo_user "x1" "p1" "a"
     (set_experiments {[ "x1" := set_exp_status status 1 (demo_experiment "x1" "journey" None) ]} demo_db)).1 = Ok a.
Proof. by eexists. Qed.

(** The seed of a running experiment changes in two requests: one that only
    takes it out of [running], one that changes the seed and puts it back. *)
Definition edit (status seed : string) : Experiment :=
  MkExperiment "x2" "" "" "Subject line" None "campaign" status "" seed 0 RawEmpty RawEmpty None [] 0 0.
Definition after_edits (l : list Experiment) : EDB := fold_left (fun d e => (UpdateExperiment demo_uuid demo_user e d).2) l demo_db.
Theorem running_seed_changes :
  (exp_Seed <$> ed_experiments demo_db !! "x2", exp_Status <$> ed_experiments demo_db !! "x2") = (Some "seed", Some "running") /\
  UpdateExperiment demo_uuid demo_user (edit "running" "other") demo_db = (Err ErrNotFound, demo_db) /\
  (let d := after_edits [edit "draft" "seed"; edit "running" "other"] in
   (exp_Seed <$> ed_experiments d !! "x2", exp_Status <$> ed_experiments d !! "x2") = (Some "other", Some "running")).
Proof. split; [vm_compute; reflexivity|]. split; [reflexivity|vm_compute; reflexivity]. Qed.

(** One profile that bought twice after one message: the report is made, and
    cannot be marshalled. *)
Definition demo_twice : EDB :=
  MkEDB (ed_experiments demo_db) (ed_variants demo_db) ∅ ∅ ∅ (ed_campaigns demo_db) ∅ ∅ (replicate 100 (demo_attempt "a") ++ [demo_attempt "b"]) ∅
    (replicate 10 (demo_conversion "a") ++ replicate 2 (demo_conversion "b")) ∅ ∅ ∅ demo_common.
Theorem report_unmarshalable : match (ExperimentReport demo_uuid demo_erfc demo_user "x2" demo_twice).1 with
  | Ok r => report_json r = Err unsupported_value
  | Err _ => False
  end.
Proof. vm_compute. reflexivity. Qed.

(** A proposal whose winner was edited away mints a version that gives every
    variant no weight. *)
Definition demo_renamed : EDB :=
  set_variants (list_to_map [("xa", demo_variant "xa" "x1" "a" true None); ("xc", demo_variant "xc" "x1" "c" false None)]) demo_db.
Theorem stale_proposal_mints_nothing : match (ApproveExperimentOptimization demo_uuid demo_user "x1" "o1" demo_renamed).1 with
  | Ok v => xv_Weight <$> ev_Variants v = [0; 0]
  | Err _ => False
  end.
Proof. vm_compute. reflexivity. Qed.

(** No read of an experiment or an assignment looks at the versions that
    approvals mint. *)
Theorem versions_are_not_read vs p x prof v d :
  GetExperiment demo_uuid p x (set_versions vs d) = GetExperiment demo_uuid p x d /\
  (AssignExperiment demo_uuid (set_versions vs d) p x prof v (set_versions vs d)).1 = (AssignExperiment demo_uuid d p x prof v d).1.
Proof.
  split; [reflexivity|]. unfold AssignExperiment. change (experiment_row demo_uuid p x (set_versions vs d)) with (experiment_row demo_uuid p x d).
  destruct (experiment_row demo_uuid p x d); [|reflexivity]. destruct (negb (demo_uuid prof)); [reflexivity|]. cbn [ed_assignments set_versions ed_profiles].
  destruct (ed_assignments d !! (x, prof)); [reflexivity|]. by destruct (negb _).
Qed.

(** The policy on journeys refuses the user's publication and lets the rollout
    publish. *)
Theorem rollout_skips_checker :
  is_Ok (CheckMakerChecker demo_user "journeys" "j1" "" demo_db).1 = false /\ is_Ok demo_rollout.1 = true.
Proof. split; vm_compute; reflexivity. Qed.

(** A conversion is attributed to a message that was sent: the holdout the
    report compares never has one. *)
Theorem holdout_never_converts before event profile d s : s ∈ Facts.conversion_sends before event profile d ->
  (exists a, a ∈ Facts.fd_attempts d /\ Facts.at_Decision a = "sent" /\ Facts.sd_Variant s = Facts.at_Variant a) \/
  (exists i, i ∈ Facts.fd_intents d /\ mi_Decision i = Some "sent" /\ Facts.sd_Variant s = Some (mi_Variant i)).
Proof.
  unfold Facts.conversion_sends. rewrite elem_of_app, !list_elem_of_omap. intros [(a & Ha & H)|(i & Hi & H)]; [left; exists a|right; exists i].
  - unfold Facts.campaign_conversion in H. destruct (_ !! _); [|done]. destruct (_ && _) eqn:E; [|done].
    apply andb_prop in E as [_ E%seqb_true]. split; [done|]. split; [done|]. apply fmap_Some in H as (g & _ & ->). reflexivity.
  - unfold Facts.journey_conversion in H. destruct (_ !! _); [|done]. destruct (_ && _) eqn:E; [|done].
    apply andb_prop in E as [_ E]. unfold Facts.is_some_text in E. destruct (mi_Decision i) as [y|] eqn:Ey; [|done]. apply seqb_true in E as ->.
    split; [done|]. split; [done|]. apply fmap_Some in H as (g & _ & ->). reflexivity.
Qed.
End ExperimentWorld.
