(* ===== verification/JourneyDB.v ===== *)
(** * The durable journey tables (src/internal/postgres/journey_runtime.go)

    Rows of [journey_versions], [journey_runs], [journey_steps],
    [journey_transitions] and [journey_message_intents] as finite maps, each
    store method as the SQL it issues: its WHERE clause as a boolean test, its
    SET list as a row update, the constraints of migrations 016, 017 and 024
    (one live step per run, one run per enrollment key, one intent per run,
    node and endpoint, the status checks and the foreign keys) as errors.  A
    transaction is a computation whose error leaves the database as it was. *)

From S2P Require Import Prelude.
From S2P Require Import GoStd.
From S2P Require Import Domain.
From S2P Require Import Store.
From S2P Require Import JourneyGraph.

Module JDB.

(** [db_profiles] maps a profile to its app.  [db_used] holds every id ever
    generated, [db_locked] the ids of the step rows that another transaction
    holds locked (what SKIP LOCKED skips), [db_now] the value of [now()]. *)
Record DB : Type := MkDB {
  db_versions : gmap string JourneyVersion;
  db_profiles : gmap string string;
  db_runs : gmap string JourneyRun;
  db_steps : gmap string JourneyStep;
  db_transitions : list JourneyTransition;
  db_intents : gmap string JourneyMessageIntent;
  db_used : gset string;
  db_locked : gset string;
  db_now : Z
}.

Definition set_runs (v : gmap string JourneyRun) (d : DB) : DB :=
  MkDB (db_versions d) (db_profiles d) v (db_steps d) (db_transitions d) (db_intents d) (db_used d) (db_locked d) (db_now d).
Definition set_steps (v : gmap string JourneyStep) (d : DB) : DB :=
  MkDB (db_versions d) (db_profiles d) (db_runs d) v (db_transitions d) (db_intents d) (db_used d) (db_locked d) (db_now d).
Definition set_transitions (v : list JourneyTransition) (d : DB) : DB :=
  MkDB (db_versions d) (db_profiles d) (db_runs d) (db_steps d) v (db_intents d) (db_used d) (db_locked d) (db_now d).
Definition set_intents (v : gmap string JourneyMessageIntent) (d : DB) : DB :=
  MkDB (db_versions d) (db_profiles d) (db_runs d) (db_steps d) (db_transitions d) v (db_used d) (db_locked d) (db_now d).
Definition set_used (v : gset string) (d : DB) : DB :=
  MkDB (db_versions d) (db_profiles d) (db_runs d) (db_steps d) (db_transitions d) (db_intents d) v (db_locked d) (db_now d).

Definition Tx (A : Type) : Type := M DB A.
(** [Begin ... Commit] with a deferred [Rollback]. *)
Definition tx {A} (m : Tx A) : Tx A := fun d =>
  match m d with
  | (Ok a, d') => (Ok a, d')
  | (Err e, _) => (Err e, d)
  end.
Definition get {A} (f : DB -> A) : Tx A := fun d => (Ok (f d), d).
Definition put (f : DB -> DB) : Tx unit := fun d => (Ok tt, f d).

(** [gen_random_uuid()]: an id never used before. *)
Definition new_id : Tx string := fun d =>
  let i := fresh (db_used d) in (Ok i, set_used ({[i]} ∪ db_used d) d).

Definition unique_violation : error := errors_New "duplicate key value violates unique constraint".
Definition check_violation : error := errors_New "violates check constraint".
Definition fk_violation : error := errors_New "violates foreign key constraint".

(** ** Rows and constraints *)

Definition run_statuses : list string := ["active"; "waiting"; "completed"; "exited"; "failed"; "canceled"].
Definition step_statuses : list string := ["pending"; "processing"; "completed"; "failed"; "dead"].
Definition step_kinds : list string := ["advance"; "timeout"].

(** The predicate of the partial unique index [journey_steps_one_live_per_run]. *)
Definition live (s : JourneyStep) : bool := mem (step_Status s) ["pending"; "processing"].
(** Another live step of the same run. *)
Definition live_conflict (d : DB) (s : JourneyStep) : bool :=
  live s && existsb (fun p => negb (p.1 =s step_ID s) && live p.2 && (step_RunID p.2 =s step_RunID s))
              (map_to_list (db_steps d)).

(** Insert or update one [journey_steps] row. *)
Definition put_step (s : JourneyStep) : Tx unit := fun d =>
  if negb (mem (step_Status s) step_statuses) || negb (mem (step_Kind s) step_kinds) then (Err check_violation, d)
  else if bool_decide (db_runs d !! step_RunID s = None) then (Err fk_violation, d)
  else if live_conflict d s then (Err unique_violation, d)
  else (Ok tt, set_steps (<[step_ID s := s]> (db_steps d)) d).

(** INSERT INTO journey_steps (run_id, tenant_id, node_id, kind, status,
    attempts, available_at, locked_until, error_message). *)
Definition insert_step (s : JourneyStep) : Tx unit :=
  i ← new_id; now ← get db_now;
  put_step (MkJourneyStep i (step_RunID s) (step_TenantID s) (step_NodeID s) (step_Kind s) (step_Status s)
              (step_Attempts s) (step_AvailableAt s) (step_LockedUntil s) (step_ErrorMessage s) now now).

(** INSERT INTO journey_transitions; rows keep insertion order. *)
Definition insert_transition (tr : JourneyTransition) : Tx unit := fun d =>
  if bool_decide (db_runs d !! tr_RunID tr = None) then (Err fk_violation, d)
  else
    let tr := if raw_len0 (tr_Detail tr) then set_tr_Detail (Raw (JObject [])) tr else tr in
    (i ← new_id; now ← get db_now;
     put (fun d => set_transitions (db_transitions d ++ [set_tr_OccurredAt now (set_tr_ID i tr)]) d)) d.

(** INSERT INTO journey_message_intents ... ON CONFLICT (run_id, node_id,
    endpoint) DO NOTHING. *)
Definition same_intent (a b : JourneyMessageIntent) : bool :=
  (mi_RunID a =s mi_RunID b) && (mi_NodeID a =s mi_NodeID b) && (mi_Endpoint a =s mi_Endpoint b).
Definition insert_intent (i : JourneyMessageIntent) : Tx unit := fun d =>
  if negb (mem (mi_Status i) step_statuses) then (Err check_violation, d)
  else if bool_decide (db_runs d !! mi_RunID i = None) then (Err fk_violation, d)
  else if existsb (fun p => same_intent i p.2) (map_to_list (db_intents d)) then (Ok tt, d)
  else
    (id ← new_id; now ← get db_now;
     put (fun d => set_intents (<[id := set_mi_ID id (set_mi_CreatedAt now (set_mi_UpdatedAt now
            (if raw_len0 (mi_PolicySnapshot i) then set_mi_PolicySnapshot (Raw (JObject [])) i else i)))]>
            (db_intents d)) d)) d.

Fixpoint insert_intents (l : list JourneyMessageIntent) : Tx unit :=
  match l with
  | [] => mret tt
  | i :: l' => _ ← wrapM "advance insert message intent: %w" (insert_intent i); insert_intents l'
  end.

Definition same_run_key (a b : JourneyRun) : bool :=
  (run_JourneyVersionID a =s run_JourneyVersionID b) && (run_ProfileID a =s run_ProfileID b) &&
  (run_EntryKey a =s run_EntryKey b) && (run_ReentrySequence a =? run_ReentrySequence b).

(** INSERT INTO journey_runs ... ON CONFLICT (journey_version_id, profile_id,
    entry_key, reentry_sequence) DO NOTHING RETURNING id; [None] is no row. *)
Definition insert_run (run : JourneyRun) : Tx (option string) := fun d =>
  if negb (mem (run_Status run) run_statuses) then (Err check_violation, d)
  else if existsb (fun p => same_run_key run p.2) (map_to_list (db_runs d)) then (Ok None, d)
  else if bool_decide (db_versions d !! run_JourneyVersionID run = None) ||
          bool_decide (db_profiles d !! run_ProfileID run = None) then (Err fk_violation, d)
  else
    (id ← new_id;
     _ ← put (fun d => set_runs (<[id := set_run_ID id run]> (db_runs d)) d);
     mret (Some id)) d.

(** ** Enrollment *)

Definition run_defaults (now : Z) (run : JourneyRun) : JourneyRun :=
  let run := if run_Status run =s "" then set_run_Status "active" run else run in
  let run := if raw_len0 (run_State run) then set_run_State (Raw (JObject [])) run else run in
  let run := if Time.IsZero (run_EnteredAt run) then set_run_EnteredAt now run else run in
  if Time.IsZero (run_UpdatedAt run) then set_run_UpdatedAt now run else run.
Definition step_defaults (now : Z) (s : JourneyStep) : JourneyStep :=
  let s := if step_Status s =s "" then set_step_Status "pending" s else s in
  let s := if step_Kind s =s "" then set_step_Kind "advance" s else s in
  if Time.IsZero (step_AvailableAt s) then set_step_AvailableAt now s else s.

Definition CreateJourneyRun (run : JourneyRun) : Tx bool :=
  if run_TenantID run =s "" then throw (errors_New "tenant_id is required") else
  now ← get db_now;
  id ← insert_run (run_defaults now run);
  mret (match id with Some _ => true | None => false end).

Definition EnrollJourneyRun (run : JourneyRun) (initialStep : JourneyStep) : Tx (string * bool) :=
  if run_TenantID run =s "" then throw (errors_New "tenant_id is required") else
  tx (now ← get db_now;
      let run := run_defaults now run in
      id ← insert_run run;
      match id with
      | None => mret ("", false)
      | Some runID =>
          let s := if step_TenantID initialStep =s "" then set_step_TenantID (run_TenantID run) initialStep else initialStep in
          let s := step_defaults now s in
          _ ← insert_step (set_step_LockedUntil None (set_step_ErrorMessage None (set_step_RunID runID s)));
          mret (runID, true)
      end).

(** ** Reads *)

Definition GetJourneyRunSystem (tenantID runID : string) : Tx JourneyRun := fun d =>
  match db_runs d !! runID with
  | Some r => if run_TenantID r =s tenantID then (Ok r, d) else (Err ErrNotFound, d)
  | None => (Err ErrNotFound, d)
  end.
Definition GetJourneyRun (p : Principal) (runID : string) : Tx JourneyRun := fun d =>
  match db_runs d !! runID with
  | Some r => if (run_TenantID r =s p_TenantID p) && (run_WorkspaceID r =s p_WorkspaceID p)
              then (Ok r, d) else (Err ErrNotFound, d)
  | None => (Err ErrNotFound, d)
  end.
(** [GetJourneyVersion] of src/internal/postgres/journeys.go. *)
Definition GetJourneyVersion (tenantID versionID : string) : Tx JourneyVersion := fun d =>
  match db_versions d !! versionID with
  | Some v => if jv_TenantID v =s tenantID then (Ok v, d) else (Err ErrNotFound, d)
  | None => (Err ErrNotFound, d)
  end.

(** ORDER BY reentry_sequence DESC: insertion into a descending list. *)
Fixpoint insert_desc (r : JourneyRun) (l : list JourneyRun) : list JourneyRun :=
  match l with
  | [] => [r]
  | x :: l' => if run_ReentrySequence x <=? run_ReentrySequence r then r :: l else x :: insert_desc r l'
  end.
Definition runs_where (f : JourneyRun -> bool) (d : DB) : list JourneyRun :=
  foldr insert_desc [] (filter (fun r => f r = true) (map_to_list (db_runs d)).*2).
Definition GetJourneyRunsForProfile (tenantID versionID profileID : string) : Tx (list JourneyRun) :=
  get (runs_where (fun r => (run_TenantID r =s tenantID) && (run_JourneyVersionID r =s versionID) &&
                            (run_ProfileID r =s profileID))).
Definition GetJourneyTransitions (p : Principal) (runID : string) : Tx (list JourneyTransition) :=
  get (fun d => filter (fun tr => (tr_TenantID tr =s p_TenantID p) && (tr_RunID tr =s runID) &&
         match db_runs d !! runID with Some r => run_WorkspaceID r =s p_WorkspaceID p | None => false end = true)
         (db_transitions d)).
Definition ListActiveScheduledJourneyVersions : Tx (list JourneyVersion) :=
  get (fun d => filter (fun v => (jv_Status v =s "active") && (jv_EntryKind v =s "scheduled") = true)
                  (map_to_list (db_versions d)).*2).

(** ** The step queue *)

Definition poison : text := lit "poison pill: max processing attempts exceeded".
(** [locked_until <= now()]: not true of NULL. *)
Definition lock_expired (now : Z) (l : option Z) : bool :=
  match l with Some t => t <=? now | None => false end.

(** The first statement of [ClaimJourneyStep]: timed-out steps out of
    attempts become dead. *)
Definition bury_step (now : Z) (s : JourneyStep) : JourneyStep :=
  if (step_Status s =s "processing") && lock_expired now (step_LockedUntil s) && (10 <=? step_Attempts s)
  then set_step_Status "dead" (set_step_LockedUntil None (set_step_ErrorMessage (Some poison) (set_step_UpdatedAt now s)))
  else s.

(** The WHERE clause of the second statement. *)
Definition kind_matches (s : JourneyStep) (r : JourneyRun) : bool :=
  ((step_Kind s =s "advance") && (run_Status r =s "active")) ||
  ((step_Kind s =s "timeout") && (run_Status r =s "waiting")).
Definition step_ready (now : Z) (s : JourneyStep) : bool :=
  (mem (step_Status s) ["pending"; "failed"] && (step_Attempts s <? 10) && (step_AvailableAt s <=? now)) ||
  ((step_Status s =s "processing") && lock_expired now (step_LockedUntil s) && (step_Attempts s <? 10)).
Definition claimable (d : DB) (s : JourneyStep) : bool :=
  match db_runs d !! step_RunID s with
  | None => false
  | Some r =>
      match db_versions d !! run_JourneyVersionID r with
      | None => false
      | Some v =>
          (jv_Status v =s "active") && (step_TenantID s =s run_TenantID r) &&
          (step_NodeID s =s run_CurrentNodeID r) && kind_matches s r && step_ready (db_now d) s
      end
  end.

(** ORDER BY available_at ASC LIMIT 1. *)
Fixpoint oldest (l : list JourneyStep) : option JourneyStep :=
  match l with
  | [] => None
  | s :: l' =>
      match oldest l' with
      | Some s' => if step_AvailableAt s <=? step_AvailableAt s' then Some s else Some s'
      | None => Some s
      end
  end.
Definition next_step (d : DB) : option JourneyStep :=
  oldest (filter (fun s => claimable d s && negb (bool_decide (step_ID s ∈ db_locked d)) = true)
            (map_to_list (db_steps d)).*2).

Definition claimed (now : Z) (s : JourneyStep) : JourneyStep :=
  set_step_Status "processing" (set_step_Attempts (step_Attempts s + 1)
    (set_step_LockedUntil (Some (now + 5 * Time.Minute)) (set_step_UpdatedAt now s))).

(** [None] is the "nothing due" answer. *)
Definition ClaimJourneyStep : Tx (option JourneyStep) :=
  _ ← put (fun d => set_steps (bury_step (db_now d) <$> db_steps d) d);
  s ← get next_step;
  match s with
  | None => mret None
  | Some s => now ← get db_now; _ ← put_step (claimed now s); mret (Some (claimed now s))
  end.

(** UPDATE journey_steps SET ... WHERE id=$1: no row is not an error. *)
Definition update_step (id : string) (f : Z -> JourneyStep -> JourneyStep) : Tx unit := fun d =>
  match db_steps d !! id with
  | Some s => put_step (f (db_now d) s) d
  | None => (Ok tt, d)
  end.

Definition complete_step (now : Z) (s : JourneyStep) : JourneyStep :=
  set_step_Status "completed" (set_step_LockedUntil None (set_step_UpdatedAt now s)).
Definition failed_step (msg : text) (now : Z) (s : JourneyStep) : JourneyStep :=
  set_step_Status (if 10 <=? step_Attempts s then "dead" else "failed")
    (set_step_ErrorMessage (Some msg) (set_step_AvailableAt (now + Time.Minute)
      (set_step_LockedUntil None (set_step_UpdatedAt now s)))).
Definition rescheduled_step (at_ : Z) (now : Z) (s : JourneyStep) : JourneyStep :=
  set_step_Status "pending" (set_step_Attempts 0 (set_step_LockedUntil None
    (set_step_AvailableAt at_ (set_step_UpdatedAt now s)))).
Definition retried_step (now : Z) (s : JourneyStep) : JourneyStep :=
  set_step_Status "pending" (set_step_Attempts 0 (set_step_AvailableAt now
    (set_step_LockedUntil None (set_step_ErrorMessage None (set_step_UpdatedAt now s))))).

Definition CompleteJourneyStep (stepID : string) : Tx unit := update_step stepID complete_step.
Definition FailJourneyStep (stepID : string) (errMsg : text) : Tx unit := update_step stepID (failed_step errMsg).
Definition RescheduleJourneyStep (stepID : string) (availableAt : Z) : Tx unit :=
  update_step stepID (rescheduled_step availableAt).
Definition InsertJourneyStep (s : JourneyStep) : Tx unit :=
  now ← get db_now; insert_step (step_defaults now s).
Definition RecordTransition (tr : JourneyTransition) : Tx unit := insert_transition tr.

Definition RetryJourneyStep (p : Principal) (stepID : string) : Tx unit := fun d =>
  match db_steps d !! stepID with
  | Some s =>
      if (step_TenantID s =s p_TenantID p) &&
         match db_runs d !! step_RunID s with Some r => run_WorkspaceID r =s p_WorkspaceID p | None => false end
      then put_step (retried_step (db_now d) s) d
      else (Err ErrNotFound, d)
  | None => (Err ErrNotFound, d)
  end.

(** ** Advancing a run *)

(** The SET list of the run update. *)
Definition advance_row (run : JourneyRun) (now : Z) (r : JourneyRun) : JourneyRun :=
  set_run_Status (run_Status run) (set_run_CurrentNodeID (run_CurrentNodeID run)
    (set_run_State (if raw_len0 (run_State run) then Raw (JObject []) else run_State run)
      (set_run_WaitEventType (run_WaitEventType run) (set_run_WaitUntil (run_WaitUntil run)
        (set_run_GoalReached (run_GoalReached run) (set_run_UpdatedAt now
          (set_run_CompletedAt (run_CompletedAt run) r))))))).

(** Write a [journey_runs] row, under its status check. *)
Definition put_run (id : string) (r : JourneyRun) : Tx unit := fun d =>
  if mem (run_Status r) run_statuses then (Ok tt, set_runs (<[id := r]> (db_runs d)) d)
  else (Err check_violation, d).

(** [UpdateJourneyRun]: part of the store's interface, which tests alone call.
    Its WHERE has no status: it rewrites a run of any, and the steps stay.  A
    nil state is a NULL for a column that takes none. *)
Definition null_violation : error := errors_New "null value in column violates not-null constraint".
Definition UpdateJourneyRun (p : Principal) (run : JourneyRun) : Tx JourneyRun := fun d =>
  match db_runs d !! run_ID run with
  | Some r =>
      if (run_TenantID r =s p_TenantID p) && (run_WorkspaceID r =s p_WorkspaceID p) then
        if raw_len0 (run_State run) then (Err null_violation, d) else
        let r' := advance_row run (db_now d) r in (_ ← put_run (run_ID run) r'; mret r') d
      else (Err ErrNotFound, d)
  | None => (Err ErrNotFound, d)
  end.

Definition expectedStatus (kind : string) : string := if kind =s "timeout" then "waiting" else "active".

(** The body of the transaction once the rows are locked: [dbRun] and
    [claimedStep] are the rows read under FOR UPDATE. *)
Definition advance_locked (runID : string) (run : JourneyRun) (stepID : string) (nextStep : option JourneyStep)
    (trans : JourneyTransition) (intents : list JourneyMessageIntent)
    (dbRun : JourneyRun) (claimedStep : JourneyStep) : Tx unit :=
  if negb ((step_RunID claimedStep =s runID) && (step_RunID claimedStep =s run_ID run) &&
           (step_TenantID claimedStep =s run_TenantID run))
  then throw (errors_New "advance step does not match run")
  else if step_Status claimedStep =s "completed" then mret tt
  else if negb (step_Status claimedStep =s "processing")
  then throw (Errorf "advance step %s is %s, expected processing" [AStr stepID; AStr (step_Status claimedStep)])
  else if negb (run_Status dbRun =s expectedStatus (step_Kind claimedStep)) ||
          negb (run_CurrentNodeID dbRun =s step_NodeID claimedStep)
  then wrapM "advance complete stale step: %w" (update_step stepID complete_step)
  else
    now ← get db_now;
    _ ← wrapM "advance update run: %w" (put_run runID (advance_row run now dbRun));
    _ ← wrapM "advance complete step: %w" (update_step stepID complete_step);
    _ ← match nextStep with
        | None => mret tt
        | Some s => wrapM "advance insert step: %w" (insert_step (step_defaults now s))
        end;
    _ ← wrapM "advance record transition: %w" (insert_transition trans);
    insert_intents intents.

Definition AdvanceRunTx (runID : string) (run : JourneyRun) (stepID : string) (nextStep : option JourneyStep)
    (trans : JourneyTransition) (messageIntents : list JourneyMessageIntent) : Tx unit :=
  tx (dbRun ← GetJourneyRunSystem (run_TenantID run) runID;
      claimedStep ← (fun d => match db_steps d !! stepID with
                              | Some s => (Ok s, d)
                              | None => (Err ErrNotFound, d)
                              end);
      advance_locked runID run stepID nextStep trans messageIntents dbRun claimedStep).

(** [CancelJourneyRun]. *)
Definition canceled_row (now : Z) (r : JourneyRun) : JourneyRun :=
  set_run_Status "canceled" (set_run_CompletedAt (Some now) (set_run_UpdatedAt now r)).
Definition CancelJourneyRun (p : Principal) (journeyID runID : string) : Tx unit := fun d =>
  match db_runs d !! runID with
  | Some r =>
      if (run_TenantID r =s p_TenantID p) && (run_WorkspaceID r =s p_WorkspaceID p) && (run_JourneyID r =s journeyID) then
        if mem (run_Status r) ["completed"; "canceled"] then (Ok tt, d)
        else (Ok tt, set_steps (filter (fun kv => negb ((step_TenantID kv.2 =s p_TenantID p) && (step_RunID kv.2 =s runID) &&
                                                        negb (step_Status kv.2 =s "completed")) = true) (db_steps d))
                       (set_runs (<[runID := canceled_row (db_now d) r]> (db_runs d)) d))
      else (Err ErrNotFound, d)
  | None => (Err ErrNotFound, d)
  end.

(** ** Events: enrollment and wait resolution *)

Definition entry_only : list (string * Json.setter string) :=
  [("entry_node_id", Json.set_string (fun v _ => v))].
Definition edges_only : list (string * Json.setter (list Graph.Edge)) :=
  [("edges", Json.set_list (fun j => Json.decode_struct Graph.edge_fields j (Graph.MkEdge "" "" "")) (fun v _ => v))].

Definition active_or_waiting (r : JourneyRun) : bool :=
  (run_Status r =s "active") || (run_Status r =s "waiting").

(** The re-entry decision over the profile's earlier runs, newest sequence
    first; [None] skips the profile. *)
Definition reentry (policy : string) (maxReentries : Z) (runs : list JourneyRun) : option Z :=
  match runs with
  | [] => Some 0
  | r :: _ =>
      if policy =s "once" then None
      else if (policy =s "after_exit") && existsb active_or_waiting runs then None
      else
        let reentrySeq := i64 (run_ReentrySequence r + 1) in
        if maxReentries <? reentrySeq then None else Some reentrySeq
  end.

Definition event_run (event : AcceptedEvent) (v : JourneyVersion) (profileID entry : string) (seq now : Z) : JourneyRun :=
  MkJourneyRun "" (p_TenantID (ae_Principal event)) (p_WorkspaceID (ae_Principal event)) (jv_JourneyID v) (jv_ID v)
    profileID (Some (ae_ExternalID event)) (ae_ID event) seq "active" entry (Raw (JObject [])) None None false now now None.
(** The columns of the step literal of both event paths. *)
Definition event_step (runID tenantID nodeID : string) (now : Z) : JourneyStep :=
  MkJourneyStep "" runID tenantID nodeID "advance" "pending" 0 now None None Time.zero Time.zero.

Definition enroll_item (event : AcceptedEvent) (profileID : string) (v : JourneyVersion) : Tx unit :=
  runs ← get (runs_where (fun r => (run_JourneyVersionID r =s jv_ID v) && (run_ProfileID r =s profileID)));
  match reentry (jv_ReentryPolicy v) (jv_MaxReentries v) runs with
  | None => mret tt
  | Some reentrySeq =>
      entry ← lift (wrapw "decode entry_node_id from graph: %w" (Json.Unmarshal entry_only "" (jv_Graph v)));
      if entry =s "" then mret tt else
      now ← get db_now;
      id ← insert_run (event_run event v profileID entry reentrySeq now);
      match id with
      | None => mret tt
      | Some runID => insert_step (event_step runID (p_TenantID (ae_Principal event)) entry now)
      end
  end.

Definition event_versions (event : AcceptedEvent) (d : DB) : list JourneyVersion :=
  filter (fun v => (jv_TenantID v =s p_TenantID (ae_Principal event)) &&
                   (jv_WorkspaceID v =s p_WorkspaceID (ae_Principal event)) && (jv_EntryKind v =s "event") &&
                   match jv_EntryEventType v with Some t => t =s ae_Type event | None => false end &&
                   (jv_Status v =s "active") = true) (map_to_list (db_versions d)).*2.
Definition enrollEventTriggered (event : AcceptedEvent) (profileID : string) : Tx unit :=
  items ← get (event_versions event); iterM (enroll_item event profileID) items.

(** A row of the SELECT of [resolveWaitingRuns]: the run, its node, its
    version's graph. *)
Record wait_item : Type := MkWaitItem { wi_id : string; wi_node : string; wi_graph : RawMessage }.

Definition wait_items (event : AcceptedEvent) (d : DB) : list wait_item :=
  omap (fun p =>
    let r := p.2 in
    match db_versions d !! run_JourneyVersionID r, db_profiles d !! run_ProfileID r with
    | Some v, Some app =>
        if (run_TenantID r =s p_TenantID (ae_Principal event)) &&
           (run_WorkspaceID r =s p_WorkspaceID (ae_Principal event)) &&
           (app =s p_AppID (ae_Principal event)) && (run_Status r =s "waiting") &&
           match run_WaitEventType r with Some t => t =s ae_Type event | None => false end &&
           match run_SubjectExternalID r with Some x => x =s ae_ExternalID event | None => false end
        then Some (MkWaitItem p.1 (run_CurrentNodeID r) (jv_Graph v)) else None
    | _, _ => None
    end) (map_to_list (db_runs d)).

Definition success_edge (node : string) (edges : list Graph.Edge) : string :=
  match find_first (fun e => (Graph.From e =s node) && (Graph.Branch e =s "success")) edges with
  | Some e => Graph.To e
  | None => ""
  end.

Definition resolved_row (successor : string) (now : Z) (r : JourneyRun) : JourneyRun :=
  set_run_Status "active" (set_run_WaitEventType None (set_run_WaitUntil None
    (set_run_CurrentNodeID successor (set_run_UpdatedAt now r)))).
(** UPDATE journey_steps SET status = 'completed' WHERE run_id = $1 AND
    status IN ('pending','processing','failed') AND kind = 'timeout'. *)
Definition finish_timeout (runID : string) (now : Z) (s : JourneyStep) : JourneyStep :=
  if (step_RunID s =s runID) && mem (step_Status s) ["pending"; "processing"; "failed"] && (step_Kind s =s "timeout")
  then set_step_Status "completed" (set_step_UpdatedAt now s) else s.

Definition resolve_item (event : AcceptedEvent) (it : wait_item) : Tx unit :=
  edges ← lift (Json.Unmarshal edges_only [] (wi_graph it));
  let successor := success_edge (wi_node it) edges in
  if successor =s "" then mret tt else
  row ← get (fun d => db_runs d !! wi_id it);
  match row with
  | Some r =>
      if run_Status r =s "waiting" then
        now ← get db_now;
        _ ← put_run (wi_id it) (resolved_row successor now r);
        _ ← put (fun d => set_steps (finish_timeout (wi_id it) now <$> db_steps d) d);
        let tenantID := p_TenantID (ae_Principal event) in
        _ ← insert_step (event_step (wi_id it) tenantID successor now);
        insert_transition (MkJourneyTransition "" (wi_id it) tenantID (Some (wi_node it)) (Some successor)
                             "wait_event" "success" (Raw (JObject [])) now)
      else mret tt
  | None => mret tt
  end.

Definition resolveWaitingRuns (event : AcceptedEvent) : Tx unit :=
  if ae_ExternalID event =s "" then mret tt else
  items ← get (wait_items event); iterM (resolve_item event) items.

(** ** Message intents *)

Definition intent_ready (now : Z) (i : JourneyMessageIntent) : bool :=
  (mem (mi_Status i) ["pending"; "failed"] && (mi_Attempts i <? 3) && (mi_AvailableAt i <=? now)) ||
  ((mi_Status i =s "processing") && lock_expired now (mi_LockedUntil i)).
(** The tenant's intents that some worker holds now. *)
Definition in_flight (tenantID : string) (d : DB) : Z :=
  countb (fun p => (mi_TenantID p.2 =s tenantID) && (mi_Status p.2 =s "processing") &&
            match mi_LockedUntil p.2 with Some t => db_now d <? t | None => false end) (map_to_list (db_intents d)).
Definition intent_claimable (d : DB) (i : JourneyMessageIntent) : bool :=
  match db_versions d !! mi_JourneyVersionID i with
  | Some v => (jv_Status v =s "active") && intent_ready (db_now d) i && (in_flight (mi_TenantID i) d <? 10)
  | None => false
  end.
(** ORDER BY transactional DESC, available_at ASC. *)
Definition intent_before (a b : JourneyMessageIntent) : bool :=
  match mi_Transactional a, mi_Transactional b with
  | true, false => true
  | false, true => false
  | _, _ => mi_AvailableAt a <=? mi_AvailableAt b
  end.
Fixpoint first_intent (l : list JourneyMessageIntent) : option JourneyMessageIntent :=
  match l with
  | [] => None
  | i :: l' => match first_intent l' with
               | Some j => if intent_before i j then Some i else Some j
               | None => Some i
               end
  end.
Definition claimed_intent (now : Z) (i : JourneyMessageIntent) : JourneyMessageIntent :=
  set_mi_Status "processing" (set_mi_Attempts (mi_Attempts i + 1)
    (set_mi_LockedUntil (Some (now + 5 * Time.Minute)) (set_mi_UpdatedAt now i))).
Definition ClaimJourneyMessageIntent (workerID : string) : Tx (option JourneyMessageIntent) := fun d =>
  match first_intent (filter (fun i => intent_claimable d i && negb (bool_decide (mi_ID i ∈ db_locked d)) = true)
                        (map_to_list (db_intents d)).*2) with
  | None => (Ok None, d)
  | Some i => let i' := claimed_intent (db_now d) i in
              (Ok (Some i'), set_intents (<[mi_ID i := i']> (db_intents d)) d)
  end.

(** The columns [UpdateJourneyMessageIntent] writes; the cost is not one of
    them. *)
Definition updated_intent (intent : JourneyMessageIntent) (now : Z) (i : JourneyMessageIntent) : JourneyMessageIntent :=
  set_mi_Status (mi_Status intent) (set_mi_Attempts (mi_Attempts intent) (set_mi_AvailableAt (mi_AvailableAt intent)
    (set_mi_LockedUntil (mi_LockedUntil intent) (set_mi_Decision (mi_Decision intent) (set_mi_Reason (mi_Reason intent)
      (set_mi_ProviderMessageID (mi_ProviderMessageID intent)
        (set_mi_PolicySnapshot (if raw_len0 (mi_PolicySnapshot intent) then Raw (JObject []) else mi_PolicySnapshot intent)
          (set_mi_ErrorMessage (mi_ErrorMessage intent) (set_mi_UpdatedAt now i))))))))).
Definition UpdateJourneyMessageIntent (intent : JourneyMessageIntent) : Tx unit := fun d =>
  match db_intents d !! mi_ID intent with
  | Some i =>
      if mem (mi_Status intent) step_statuses
      then (Ok tt, set_intents (<[mi_ID intent := updated_intent intent (db_now d) i]> (db_intents d)) d)
      else (Err check_violation, d)
  | None => (Ok tt, d)
  end.
Definition retried_intent (now : Z) (i : JourneyMessageIntent) : JourneyMessageIntent :=
  set_mi_Status "pending" (set_mi_Attempts 0 (set_mi_AvailableAt now (set_mi_LockedUntil None
    (set_mi_ErrorMessage None (set_mi_UpdatedAt now i))))).
Definition RetryJourneyMessageIntent (p : Principal) (intentID : string) : Tx unit := fun d =>
  match db_intents d !! intentID with
  | Some i =>
      if (mi_TenantID i =s p_TenantID p) && (mi_WorkspaceID i =s p_WorkspaceID p)
      then (Ok tt, set_intents (<[intentID := retried_intent (db_now d) i]> (db_intents d)) d)
      else (Err ErrNotFound, d)
  | None => (Err ErrNotFound, d)
  end.

(** ** The dead-letter queue *)

Definition GetJourneyDLQ (p : Principal) : Tx (list JourneyStep * list JourneyMessageIntent) :=
  get (fun d =>
    (filter (fun s => (step_TenantID s =s p_TenantID p) && (step_Status s =s "dead") &&
              match db_runs d !! step_RunID s with Some r => run_WorkspaceID r =s p_WorkspaceID p | None => false end = true)
       (map_to_list (db_steps d)).*2,
     filter (fun i => (mi_TenantID i =s p_TenantID p) && (mi_WorkspaceID i =s p_WorkspaceID p) &&
              (mi_Status i =s "dead") = true) (map_to_list (db_intents d)).*2)).
End JDB.
