(* ===== verification/Projector.v ===== *)
(** * The projector (src/internal/postgres/store.go, src/internal/projector)

    [ProjectEvent] with every table it writes: the identity tables, the
    suppression list, companies, in-app messages, flag exposures, the analytics
    facts, the journey tables and the projection queue.  The identity, fact and
    journey operations are those of their own files, run on their part of the
    database; then [Drain], the worker's loop. *)

From S2P Require Import Prelude.
From S2P Require Import GoStd.
From S2P Require Import GoMap.
From S2P Require Import GoFloat.
From S2P Require Import Domain.
From S2P Require Import Store.
From S2P Require Import Event.
From S2P Require Import AuditLog.
From S2P Require Import GoFmt.
From S2P Require Import Ingest.
From S2P Require Import Identity.
From S2P Require Import Facts.
From S2P Require Import JourneyDB.

Module Projector.

(** ** The database *)

(** A suppression by its UNIQUE columns: tenant, channel, endpoint. *)
Abbreviation suppression_key := (string * string * string)%type.
Record Suppression : Type := MkSuppression { su_Reason : string; su_SourceEventID : option string }.

Record Company : Type := MkCompany {
  cy_TenantID : string;
  cy_WorkspaceID : string;
  cy_AppID : string;
  cy_ExternalID : option string;
  cy_Name : string;
  cy_Attributes : json;
  cy_Version : Z
}.
(** The row of a member of a company, keyed by company and profile. *)
Record Member : Type := MkMember { me_TenantID : string; me_Role : string }.

Record InAppMessage : Type := MkInAppMessage {
  im_TenantID : string;
  im_Status : string;
  im_DisplayedAt : option Z;
  im_ClickedAt : option Z;
  im_DismissedAt : option Z;
  im_UpdatedAt : Z
}.

(** Exposures by flag, environment and variant. *)
Record Exposure : Type := MkExposure { ex_TenantID : string; ex_AppID : string; ex_Exposures : Z; ex_FirstSeen : Z; ex_LastSeen : Z }.

Record PDB : Type := MkPDB {
  pd_identity : Identity.IDB;
  pd_queue : Ingest.QDB;
  pd_journeys : JDB.DB;
  pd_suppressions : gmap suppression_key Suppression;
  pd_companies : gmap string Company;
  pd_members : gmap (string * string) Member;
  pd_inapp : gmap string InAppMessage;
  pd_flags : gset string;
  pd_exposures : gmap (string * string * string) Exposure;
  pd_attempts : list Facts.Attempt;
  pd_campaigns : gmap string Facts.Campaign;
  pd_engagement : list Facts.EngagementFact;
  pd_conversions : list Facts.ConversionFact;
  pd_now : Z
}.
Definition set_identity v d := MkPDB v (pd_queue d) (pd_journeys d) (pd_suppressions d) (pd_companies d) (pd_members d) (pd_inapp d)
  (pd_flags d) (pd_exposures d) (pd_attempts d) (pd_campaigns d) (pd_engagement d) (pd_conversions d) (pd_now d).
Definition set_queue v d := MkPDB (pd_identity d) v (pd_journeys d) (pd_suppressions d) (pd_companies d) (pd_members d) (pd_inapp d)
  (pd_flags d) (pd_exposures d) (pd_attempts d) (pd_campaigns d) (pd_engagement d) (pd_conversions d) (pd_now d).
Definition set_journeys v d := MkPDB (pd_identity d) (pd_queue d) v (pd_suppressions d) (pd_companies d) (pd_members d) (pd_inapp d)
  (pd_flags d) (pd_exposures d) (pd_attempts d) (pd_campaigns d) (pd_engagement d) (pd_conversions d) (pd_now d).
Definition set_suppressions v d := MkPDB (pd_identity d) (pd_queue d) (pd_journeys d) v (pd_companies d) (pd_members d) (pd_inapp d)
  (pd_flags d) (pd_exposures d) (pd_attempts d) (pd_campaigns d) (pd_engagement d) (pd_conversions d) (pd_now d).
Definition set_companies v d := MkPDB (pd_identity d) (pd_queue d) (pd_journeys d) (pd_suppressions d) v (pd_members d) (pd_inapp d)
  (pd_flags d) (pd_exposures d) (pd_attempts d) (pd_campaigns d) (pd_engagement d) (pd_conversions d) (pd_now d).
Definition set_members v d := MkPDB (pd_identity d) (pd_queue d) (pd_journeys d) (pd_suppressions d) (pd_companies d) v (pd_inapp d)
  (pd_flags d) (pd_exposures d) (pd_attempts d) (pd_campaigns d) (pd_engagement d) (pd_conversions d) (pd_now d).
Definition set_inapp v d := MkPDB (pd_identity d) (pd_queue d) (pd_journeys d) (pd_suppressions d) (pd_companies d) (pd_members d) v
  (pd_flags d) (pd_exposures d) (pd_attempts d) (pd_campaigns d) (pd_engagement d) (pd_conversions d) (pd_now d).
Definition set_exposures v d := MkPDB (pd_identity d) (pd_queue d) (pd_journeys d) (pd_suppressions d) (pd_companies d) (pd_members d)
  (pd_inapp d) (pd_flags d) v (pd_attempts d) (pd_campaigns d) (pd_engagement d) (pd_conversions d) (pd_now d).
Definition set_facts (e : list Facts.EngagementFact) (c : list Facts.ConversionFact) d :=
  MkPDB (pd_identity d) (pd_queue d) (pd_journeys d) (pd_suppressions d) (pd_companies d) (pd_members d) (pd_inapp d)
    (pd_flags d) (pd_exposures d) (pd_attempts d) (pd_campaigns d) e c (pd_now d).

Abbreviation P := (M PDB).
Definition gets {A} (f : PDB -> A) : P A := fun d => (Ok (f d), d).
Definition modify (f : PDB -> PDB) : P unit := fun d => (Ok tt, f d).
(** [Begin ... Commit] with a deferred [Rollback]; the blob store is not part
    of the transaction. *)
Definition rollback (d d' : PDB) : PDB := set_identity (Identity.set_blobs (Identity.id_blobs (pd_identity d')) (pd_identity d)) d.
Definition tx {A} (m : P A) : P A := fun d =>
  match m d with
  | (Ok a, d') => (Ok a, d')
  | (Err e, d') => (Err e, rollback d d')
  end.

(** *** The parts other files work on *)

Definition identity_part (d : PDB) : Identity.IDB :=
  let i := pd_identity d in
  Identity.MkIDB (Identity.id_profiles i) (Identity.id_consents i) (Identity.id_aliases i) (Identity.id_namespaces i)
    (Identity.id_merges i) (Identity.id_blobs i) (Identity.id_used i) (pd_now d).
Definition on_identity {A} (m : Identity.I A) : P A := fun d =>
  match m (identity_part d) with (r, i) => (r, set_identity i d) end.

Definition queue_part (d : PDB) : Ingest.QDB := Ingest.set_now (pd_now d) (pd_queue d).
Definition on_queue {A} (m : Ingest.Q A) : P A := fun d =>
  match m (queue_part d) with (r, q) => (r, set_queue q d) end.

(** The journey tables read the app of a profile. *)
Definition journey_part (d : PDB) : JDB.DB :=
  let j := pd_journeys d in
  JDB.MkDB (JDB.db_versions j) (Identity.pf_AppID <$> Identity.id_profiles (pd_identity d)) (JDB.db_runs j) (JDB.db_steps j)
    (JDB.db_transitions j) (JDB.db_intents j) (JDB.db_used j) (JDB.db_locked j) (pd_now d).
Definition on_journeys {A} (m : JDB.Tx A) : P A := fun d =>
  match m (journey_part d) with (r, j) => (r, set_journeys j d) end.

Definition facts_part (d : PDB) : Facts.FDB :=
  Facts.MkFDB (pd_attempts d) (pd_campaigns d) (map_to_list (JDB.db_intents (pd_journeys d))).*2 (JDB.db_versions (pd_journeys d))
    (pd_engagement d) (pd_conversions d).
Definition on_facts {A} (m : M Facts.FDB A) : P A := fun d =>
  match m (facts_part d) with (r, f) => (r, set_facts (Facts.fd_engagement f) (Facts.fd_conversions f) d) end.

(** ** The events *)

(** A payload read into string fields. *)
Definition strings (names : list string) (event : AcceptedEvent) : P (list string) :=
  lift (Event.strings_of names (ae_Payload event)).
Definition field (l : list string) (i : nat) : string := default "" (l !! i).

Section project.
Context (uuid_ok : string -> bool) (before : Z -> string -> Z).

(** *** company.updated *)

Record MemberBody : Type := MkMemberBody { mb_ProfileExternalID : string; mb_Role : string }.
Record CompanyBody : Type := MkCompanyBody { cb_ExternalID : string; cb_Name : string; cb_Attributes : RawMessage; cb_Members : list MemberBody }.
Definition company_fields : list (string * Json.setter CompanyBody) :=
  [("external_id", Json.set_string (fun v b => MkCompanyBody v (cb_Name b) (cb_Attributes b) (cb_Members b)));
   ("name", Json.set_string (fun v b => MkCompanyBody (cb_ExternalID b) v (cb_Attributes b) (cb_Members b)));
   ("attributes", Json.set_raw (fun v b => MkCompanyBody (cb_ExternalID b) (cb_Name b) v (cb_Members b)))].
Definition member_fields : list (string * Json.setter MemberBody) :=
  [("profile_external_id", Json.set_string (fun v m => MkMemberBody v (mb_Role m)));
   ("role", Json.set_string (fun v m => MkMemberBody (mb_ProfileExternalID m) v))].
Definition company_body_fields : list (string * Json.setter CompanyBody) :=
  [("company", fun j b => Json.decode_struct company_fields j b);
   ("members", Json.set_list (fun j => Json.decode_struct member_fields j (MkMemberBody "" ""))
                 (fun l b => MkCompanyBody (cb_ExternalID b) (cb_Name b) (cb_Attributes b) l))].

(** [a || b] of jsonb values. *)
Definition as_array (j : json) : list json := match j with JArray l => l | _ => [j] end.
Definition jsonb_concat (a b : json) : json :=
  match a, b with
  | JObject l, JObject r => Json.marshal (JObject (l ++ r))
  | _, _ => JArray (as_array a ++ as_array b)
  end.

(** INSERT INTO companies ... ON CONFLICT (tenant_id, app_id, external_id) DO
    UPDATE ... RETURNING id: a NULL external id conflicts with nothing. *)
Definition same_company (p : Principal) (ext : option string) (c : Company) : bool :=
  (cy_TenantID c =s p_TenantID p) && (cy_AppID c =s p_AppID p) && Identity.same_some (cy_ExternalID c) ext.
Definition upsert_company (p : Principal) (body : CompanyBody) (attrs : json) : P string :=
  let ext := Identity.NULLIF_empty (cb_ExternalID body) in
  row ← gets (fun d => find_first (fun kv => same_company p ext kv.2) (map_to_list (pd_companies d)));
  match row with
  | Some (id, c) =>
      _ ← modify (fun d => set_companies (<[id := MkCompany (cy_TenantID c) (cy_WorkspaceID c) (cy_AppID c) (cy_ExternalID c)
              (cb_Name body) (jsonb_concat (cy_Attributes c) attrs) (cy_Version c + 1)]> (pd_companies d)) d);
      mret id
  | None =>
      id ← on_identity Identity.new_id;
      _ ← modify (fun d => set_companies (<[id := MkCompany (p_TenantID p) (p_WorkspaceID p) (p_AppID p) ext (cb_Name body) attrs 1]>
              (pd_companies d)) d);
      mret id
  end.

Definition in_workspace (p : Principal) (x : string) (q : Identity.Prof) : bool :=
  Identity.by_external p x q && (Identity.pf_WorkspaceID q =s p_WorkspaceID p).
Definition insert_member (p : Principal) (companyID : string) (m : MemberBody) : P unit :=
  if mb_ProfileExternalID m =s "" then mret tt else
  row ← gets (fun d => Identity.find_profile (in_workspace p (mb_ProfileExternalID m)) (pd_identity d));
  match row with
  | None => throw Identity.ErrNoRows
  | Some q => modify (fun d => set_members (<[(companyID, Identity.pf_ID q) := MkMember (p_TenantID p) (mb_Role m)]> (pd_members d)) d)
  end.

Definition project_company (event : AcceptedEvent) : P unit :=
  let p := ae_Principal event in
  let invalid := errors_New "company.updated payload requires company name" in
  match Json.Unmarshal company_body_fields (MkCompanyBody "" "" RawEmpty []) (ae_Payload event) with
  | Err _ => throw invalid
  | Ok body =>
      if cb_Name body =s "" then throw invalid else
      attrs ← lift (match cb_Attributes body with RawEmpty => Ok (JObject []) | r => Json.of_raw r end);
      companyID ← upsert_company p body attrs;
      _ ← modify (fun d => set_members (filter (fun kv => negb ((me_TenantID kv.2 =s p_TenantID p) && (kv.1.1 =s companyID)) = true)
                                          (pd_members d)) d);
      iterM (insert_member p companyID) (cb_Members body)
  end.

(** *** profile.updated *)

Definition updated_attributes (attributes : gmap string json) (now : Z) (q : Identity.Prof) : Identity.Prof :=
  Identity.MkProf (Identity.pf_ID q) (Identity.pf_TenantID q) (Identity.pf_WorkspaceID q) (Identity.pf_AppID q)
    (Identity.pf_ExternalID q) (Identity.pf_AnonymousID q) (attributes ∪ Identity.pf_Attributes q) (Identity.pf_Version q + 1)
    (Identity.pf_MergedInto q) (Identity.pf_CreatedAt q) now.
(** [json.Marshal] of a decoded value, which the [jsonb] column keeps. *)
Definition stored_value (j : json) : json := GoFmt.to_json (Any.decode j).
Definition project_profile (event : AcceptedEvent) (profileID : string) : P unit :=
  match Event.decode_attributes (ae_Payload event) with
  | Ok (Some attributes) =>
      now ← gets pd_now;
      on_identity (Identity.update_profile profileID (updated_attributes (stored_value <$> GoMap.of_members attributes) now))
  | _ => throw (errors_New "profile.updated payload requires an attributes object")
  end.

(** *** consent.changed *)

Record ConsentBody : Type := MkConsentBody { cn_Channel : string; cn_Topic : string; cn_State : string; cn_Evidence : option (list (string * json)) }.
Definition consent_fields : list (string * Json.setter ConsentBody) :=
  [("channel", Json.set_string (fun v b => MkConsentBody v (cn_Topic b) (cn_State b) (cn_Evidence b)));
   ("topic", Json.set_string (fun v b => MkConsentBody (cn_Channel b) v (cn_State b) (cn_Evidence b)));
   ("state", Json.set_string (fun v b => MkConsentBody (cn_Channel b) (cn_Topic b) v (cn_Evidence b)));
   ("evidence", Event.set_any_map (fun v b => MkConsentBody (cn_Channel b) (cn_Topic b) (cn_State b) v))].

(** The address a channel reaches, in the profile's attributes; the channel
    is compared as it was sent. *)
Definition attribute_text (attrs : gmap string json) (k : string) : string :=
  match attrs !! k with Some (JString s) => s | _ => "" end.
Definition consent_endpoint (channel : string) (profileID : string) (d : PDB) : string :=
  match Identity.id_profiles (pd_identity d) !! profileID with
  | Some q =>
      if channel =s "sms" then attribute_text (Identity.pf_Attributes q) "phone"
      else if channel =s "email" then attribute_text (Identity.pf_Attributes q) "email"
      else ""
  | None => ""
  end.

(** INSERT INTO suppressions ... ON CONFLICT DO NOTHING. *)
Definition suppression_of (p : Principal) (channel endpoint : string) : suppression_key :=
  (p_TenantID p, GoMap.ToLower channel, GoMap.ToLower endpoint).
Definition suppress (event : AcceptedEvent) (channel endpoint reason : string) : P unit :=
  modify (fun d =>
    let k := suppression_of (ae_Principal event) channel endpoint in
    match pd_suppressions d !! k with
    | Some _ => d
    | None => set_suppressions (<[k := MkSuppression reason (Some (ae_ID event))]> (pd_suppressions d)) d
    end).
Definition unsuppress (event : AcceptedEvent) (channel endpoint reason : string) : P unit :=
  modify (fun d =>
    let k := suppression_of (ae_Principal event) channel endpoint in
    match pd_suppressions d !! k with
    | Some s => if su_Reason s =s reason then set_suppressions (delete k (pd_suppressions d)) d else d
    | None => d
    end).

Definition project_consent (event : AcceptedEvent) (profileID : string) : P unit :=
  body ← lift (Json.Unmarshal consent_fields (MkConsentBody "" "" "" None) (ae_Payload event));
  let channel := cn_Channel body in
  let state := cn_State body in
  if (channel =s "") || (negb (state =s "subscribed") && negb (state =s "unsubscribed"))
  then throw (errors_New "consent.changed requires channel and subscribed/unsubscribed state") else
  let topic := if cn_Topic body =s "" then "marketing" else cn_Topic body in
  let evidence := match cn_Evidence body with Some l => stored_value (JObject l) | None => JNull end in
  _ ← on_identity (Identity.insert_consent event profileID (GoMap.ToLower channel) topic state evidence);
  endpoint ← gets (consent_endpoint channel profileID);
  if endpoint =s "" then mret tt
  else if state =s "unsubscribed" then suppress event channel endpoint "unsubscribe"
  else unsuppress event channel endpoint "unsubscribe".

(** *** message.bounced, message.complained *)

Definition project_bounce (event : AcceptedEvent) : P unit :=
  l ← strings ["channel"; "endpoint"; "bounce_type"] event;
  if field l 1 =s "" then throw (errors_New "bounce/complaint event payload requires an endpoint") else
  let channel := if field l 0 =s "" then "email" else field l 0 in
  suppress event channel (field l 1) (if ae_Type event =s "message.complained" then "complaint" else "bounce").

(** *** identity.alias: the aliases of a map, in some order *)

Definition project_alias (event : AcceptedEvent) (profileID : string) : P unit :=
  body ← lift (Event.decode_alias (ae_Payload event));
  let aliases := if bool_decide (Event.identities body = ∅) then {[Event.ab_Namespace body := Event.ab_Value body]}
                 else Event.identities body in
  on_identity (iterM (Identity.upsert_alias event profileID) (map_to_list aliases)).

(** *** In-app messages *)

(** UPDATE inapp_messages ... WHERE id AND tenant_id AND [when]. *)
Definition update_inapp (event : AcceptedEvent) (missing : string) (when : InAppMessage -> bool) (f : Z -> InAppMessage -> InAppMessage)
    : P unit :=
  l ← strings ["message_id"] event;
  let id := field l 0 in
  if id =s "" then throw (errors_New missing)
  else if negb (uuid_ok id) then throw Facts.invalid_uuid
  else modify (fun d => match pd_inapp d !! id with
                        | Some m => if (im_TenantID m =s p_TenantID (ae_Principal event)) && when m
                                    then set_inapp (<[id := f (pd_now d) m]> (pd_inapp d)) d else d
                        | None => d
                        end).
Definition null (t : option Z) : bool := match t with None => true | Some _ => false end.
Definition displayed (now : Z) (m : InAppMessage) : InAppMessage :=
  MkInAppMessage (im_TenantID m) "displayed" (Some now) (im_ClickedAt m) (im_DismissedAt m) now.
Definition clicked (now : Z) (m : InAppMessage) : InAppMessage :=
  MkInAppMessage (im_TenantID m) "clicked" (im_DisplayedAt m) (Some now) (im_DismissedAt m) now.
Definition dismissed (now : Z) (m : InAppMessage) : InAppMessage :=
  MkInAppMessage (im_TenantID m) "dismissed" (im_DisplayedAt m) (im_ClickedAt m) (Some now) now.
Definition expire (now : Z) (m : InAppMessage) : InAppMessage :=
  MkInAppMessage (im_TenantID m) "expired" (im_DisplayedAt m) (im_ClickedAt m) (im_DismissedAt m) now.
Definition project_impression (event : AcceptedEvent) : P unit :=
  update_inapp event "message.impression payload requires message_id"
    (fun m => null (im_DismissedAt m) && null (im_DisplayedAt m) && null (im_ClickedAt m)) displayed.
Definition project_clicked (event : AcceptedEvent) : P unit :=
  update_inapp event "message.clicked payload requires message_id" (fun m => null (im_ClickedAt m)) clicked.
Definition project_dismissed (event : AcceptedEvent) : P unit :=
  update_inapp event "message.dismissed payload requires message_id" (fun m => null (im_DismissedAt m)) dismissed.
Definition project_expire (event : AcceptedEvent) : P unit :=
  update_inapp event "message.expire payload requires message_id" (fun m => negb (im_Status m =s "expired")) expire.

(** *** feature_flag.exposure *)

Definition fk_violation : error := errors_New "violates foreign key constraint".
Definition project_exposure (event : AcceptedEvent) : P unit :=
  l ← strings ["flag_id"; "variant"; "environment"] event;
  let '(flag, variant, env) := (field l 0, field l 1, field l 2) in
  if (flag =s "") || (variant =s "") || (env =s "")
  then throw (errors_New "feature_flag.exposure payload requires flag_id, variant, and environment") else
  if negb (uuid_ok flag) then throw Facts.invalid_uuid else
  known ← gets (fun d => bool_decide (flag ∈ pd_flags d));
  if negb known then throw fk_violation else
  modify (fun d =>
    let now := pd_now d in
    set_exposures (<[(flag, env, variant) :=
      match pd_exposures d !! (flag, env, variant) with
      | Some x => MkExposure (ex_TenantID x) (ex_AppID x) (ex_Exposures x + 1) (ex_FirstSeen x) now
      | None => MkExposure (p_TenantID (ae_Principal event)) (p_AppID (ae_Principal event)) 1 now now
      end]> (pd_exposures d)) d).

(** *** ProjectEvent *)

(** The switch on the event type. *)
Definition project_type (event : AcceptedEvent) (profileID : string) : P unit :=
  let kind (t : string) := ae_Type event =s t in
  if kind "company.updated" then project_company event
  else if kind "profile.updated" then project_profile event profileID
  else if kind "consent.changed" then project_consent event profileID
  else if kind "message.bounced" || kind "message.complained" then project_bounce event
  else if kind "identity.alias" then project_alias event profileID
  else if kind "identity.merge" then on_identity (Identity.project_merge event profileID)
  else if kind "identity.unmerge" then on_identity (Identity.unmergeProfile event)
  else if kind "message.impression" then project_impression event
  else if kind "message.clicked" then project_clicked event
  else if kind "message.dismissed" then project_dismissed event
  else if kind "message.expire" then project_expire event
  else if kind "feature_flag.exposure" then project_exposure event
  else mret tt.

Definition subjectless : list string := ["message.bounced"; "message.complained"; "identity.unmerge"].

(** The transaction up to its last statement, which marks the job done. *)
Definition project (event : AcceptedEvent) : P unit :=
  profileID ← (if mem (ae_Type event) subjectless then mret "" else on_identity (Identity.subject event));
  _ ← project_type event profileID;
  _ ← wrapM "project engagement fact: %w" (on_facts (Facts.projectEngagementFact uuid_ok event profileID));
  _ ← (if profileID =s "" then mret tt
       else wrapM "project conversion fact: %w" (on_facts (Facts.projectConversionFact before event profileID)));
  _ ← (if profileID =s "" then mret tt
       else wrapM "enroll event triggered: %w" (on_journeys (JDB.enrollEventTriggered event profileID)));
  if ae_ExternalID event =s "" then mret tt
  else wrapM "resolve waiting runs: %w" (on_journeys (JDB.resolveWaitingRuns event)).

Definition ProjectEvent (event : AcceptedEvent) : P unit := tx (
  _ ← project event;
  on_queue (Ingest.complete_job (ae_ID event))).

End project.
End Projector.
