(* ===== verification/Drain.v ===== *)
(** * The projector's worker loop (src/internal/projector/projector.go)

    [Drain] over the store interface, with the recovery of a panicking
    projection; the database of [Projector.v], over a pool that can fail,
    implements the interface.  Its theorem: without [watch] the loop ends, it
    is a run of the queue's step relation, and it stops early only when
    nothing is claimable or the pool fails. *)

From S2P Require Import Prelude.
From S2P Require Import GoStd.
From S2P Require Import GoMap.
From S2P Require Import GoFloat.
From S2P Require Import Domain.
From S2P Require Import Store.
From S2P Require Import Event.
From S2P Require Import AuditLog.
From S2P Require Import Ingest.
From S2P Require Import IngestSpec.
From S2P Require Import IngestQueue.
From S2P Require Import Identity.
From S2P Require Import Facts.
From S2P Require Import JourneyDB.
From S2P Require Import Projector.

Module Drain.

(** ** The loop *)

Inductive outcome : Type :=
  | Returned (r : result unit)
  | Panicked (recovered : error).

(** The interface [projector.Store]. *)
Class ProjectorStore (W : Type) := {
  ClaimProjectionJob : M W (option AcceptedEvent);
  ProjectEvent : AcceptedEvent -> W -> outcome * W;
  FailProjectionJob : string -> error -> M W unit
}.

Section loop.
Context {W : Type} `{ProjectorStore W}.

Definition projectOne (event : AcceptedEvent) : M W bool := fun w =>
  match ProjectEvent event w with
  | (Panicked recovered, w1) =>
      let panicErr := Errorf "project event panic: %v" [AErr recovered] in
      match FailProjectionJob (ae_ID event) panicErr w1 with
      | (Err failErr, w2) =>
          (Err (Errorf "recover project event %s: %w (fail job: %v)" [AStr (ae_ID event); AWrap panicErr; AErr failErr]), w2)
      | (Ok _, w2) => (Ok false, w2)
      end
  | (Returned (Err err), w1) =>
      match FailProjectionJob (ae_ID event) err w1 with
      | (Err failErr, w2) => (Err failErr, w2)
      | (Ok _, w2) => (Ok false, w2)
      end
  | (Returned (Ok _), w1) => (Ok true, w1)
  end.

(** The context and the world between two iterations: whether [ctx] is done at
    the wait of iteration [i], and what the clock and the other processes did
    before it. *)
Context (done_at : nat -> bool) (env : nat -> W -> W).

(** [processed, err]; [None] when the fuel ran out. *)
Fixpoint DrainWithOptions (fuel i : nat) (maxItems processed : Z) (watch delay : bool) (w : W) : option (Z * option error) * W :=
  match fuel with
  | O => (None, w)
  | S fuel' =>
      if negb (processed <? maxItems) then (Some (processed, None), w) else
      match ClaimProjectionJob (env i w) with
      | (Err err, w1) => (Some (processed, Some err), w1)
      | (Ok None, w1) =>
          if negb watch then (Some (processed, None), w1)
          else if done_at i then (Some (processed, None), w1)
          else DrainWithOptions fuel' (S i) maxItems processed watch delay w1
      | (Ok (Some event), w1) =>
          if delay && done_at i then (Some (processed, None), w1) else
          match projectOne event w1 with
          | (Err err, w2) => (Some (processed, Some err), w2)
          | (Ok completed, w2) =>
              DrainWithOptions fuel' (S i) maxItems (if completed : bool then processed + 1 else processed) watch delay w2
          end
      end
  end.
Definition Drain (fuel : nat) (maxItems : Z) (watch : bool) (w : W) : option (Z * option error) * W :=
  DrainWithOptions fuel 0 maxItems 0 watch false w.

End loop.

(** ** The database as a store *)

Section db.
Context (uuid_ok : string -> bool) (before : Z -> string -> Z).
(** The pool: the error of a claim or of a failure report that does not go
    through, and a projection that is broken off and rolled back, by a panic
    ([inl]) or by an error ([inr]). *)
Context (claim_down fail_down : Projector.PDB -> option error).
Context (broken : AcceptedEvent -> Projector.PDB -> option (error + error)).

#[export] Instance db_store : ProjectorStore Projector.PDB := {|
  ClaimProjectionJob := fun d => match claim_down d with Some e => (Err e, d) | None => Projector.on_queue Ingest.ClaimProjectionJob d end;
  ProjectEvent := fun event d =>
    match broken event d with
    | Some (inl e) => (Panicked e, d)
    | Some (inr e) => (Returned (Err e), d)
    | None => match Projector.ProjectEvent uuid_ok before event d with (r, d') => (Returned r, d') end
    end;
  FailProjectionJob := fun id e d =>
    match fail_down d with Some err => (Err err, d) | None => Projector.on_queue (Ingest.FailProjectionJob id e) d end
|}.
Import Projector.

(** *** Only the last statement of [ProjectEvent] writes the queue *)

Definition same_queue (d d' : PDB) : Prop := pd_queue d' = pd_queue d /\ pd_now d' = pd_now d.
#[local] Instance same_queue_preorder : PreOrder same_queue.
Proof. split; [done|]. intros d1 d2 d3 [H1 H2] [H3 H4]. split; congruence. Qed.

Lemma keeps_identity {A} (m : Identity.I A) : respects same_queue (on_identity m).
Proof. intros d. unfold on_identity. by destruct (m _). Qed.
Lemma keeps_journeys {A} (m : JDB.Tx A) : respects same_queue (on_journeys m).
Proof. intros d. unfold on_journeys. by destruct (m _). Qed.
Lemma keeps_facts {A} (m : M Facts.FDB A) : respects same_queue (on_facts m).
Proof. intros d. unfold on_facts. by destruct (m _). Qed.
Lemma keeps_gets {A} (f : PDB -> A) : respects same_queue (gets f).
Proof. done. Qed.
Lemma keeps_modify f : (forall d, same_queue d (f d)) -> respects same_queue (modify f).
Proof. intros H d. apply H. Qed.

Ltac keeps := respects_with ltac:(first
  [ apply keeps_gets | apply keeps_identity | apply keeps_journeys | apply keeps_facts | apply keeps_modify; intros; repeat case_match; split; reflexivity ]).

Lemma keeps_type event profileID : respects same_queue (project_type uuid_ok event profileID).
Proof.
  unfold project_type, project_company, upsert_company, insert_member, project_profile, project_consent, project_bounce,
    suppress, unsuppress, project_alias, project_impression, project_clicked, project_dismissed, project_expire, update_inapp,
    project_exposure, strings. cbn zeta. keeps.
Qed.

Lemma keeps_project event : respects same_queue (project uuid_ok before event).
Proof. unfold project. pose proof (keeps_type event). keeps; auto. Qed.

(** The queue after a projection: the job done, or nothing. *)
Lemma ProjectEvent_queue event d :
  let '(r, d') := Projector.ProjectEvent uuid_ok before event d in
  pd_now d' = pd_now d /\
  match r with
  | Ok _ => pd_queue d' = (Ingest.complete_job (ae_ID event) (queue_part d)).2
  | Err _ => pd_queue d' = pd_queue d
  end.
Proof.
  pose proof (keeps_project event d) as [Hq Hn]. unfold Projector.ProjectEvent, tx, mbind, M_bind.
  destruct (project uuid_ok before event d) as [[[]|e] d1]; simpl in *; [|done].
  unfold queue_part. rewrite Hq, Hn. done.
Qed.

(** ** Termination *)

(** The claims a job can still see before it is done or dead. *)
Definition work_of (j : Ingest.Job) : nat :=
  if Ingest.finished j then O else Nat.max 1 (Z.to_nat (10 - Ingest.jb_Attempts j)).
Definition work (d : PDB) : nat := sum_list ((fun kv => work_of kv.2) <$> map_to_list (Ingest.q_jobs (pd_queue d))).

Lemma work_update (jobs : gmap string Ingest.Job) i j j' :
  jobs !! i = Some j -> (work_of j' < work_of j)%nat ->
  (sum_list ((fun kv => work_of kv.2) <$> map_to_list (<[i := j']> jobs)) <
   sum_list ((fun kv => work_of kv.2) <$> map_to_list jobs))%nat.
Proof.
  intros Hj Hlt. rewrite <- (insert_delete_id jobs i j Hj) at 2. rewrite <- (insert_delete_eq jobs i j').
  rewrite !map_to_list_insert by by rewrite lookup_delete_eq. simpl. lia.
Qed.

(** The queue as the projector finds and leaves it. *)
Definition attempts_ok (q : Ingest.QDB) : Prop := forall i j, Ingest.q_jobs q !! i = Some j -> 0 <= Ingest.jb_Attempts j.
Record ready (d : PDB) : Prop := MkReady {
  r_queue : Queue.queue_ok (pd_queue d);
  r_now : Ingest.q_now (pd_queue d) <= pd_now d;
  r_attempts : attempts_ok (pd_queue d)
}.
Definition steps : relation Ingest.QDB := rtc (Queue.qstep uuid_ok).

Lemma steps_ok q q' : steps q q' -> Queue.queue_ok q -> Queue.queue_ok q'.
Proof. induction 1; [done|]. intros Hok. by eapply IHrtc, Queue.qstep_ok. Qed.

Lemma attempts_insert q i j : attempts_ok q -> 0 <= Ingest.jb_Attempts j ->
  forall k x, <[i := j]> (Ingest.q_jobs q) !! k = Some x -> 0 <= Ingest.jb_Attempts x.
Proof.
  intros Ha Hj k x. destruct (decide (i = k)) as [<-|]; [rewrite lookup_insert_eq | rewrite lookup_insert_ne by done; apply Ha].
  intros E. by injection E as <-.
Qed.

Definition claimed (now : Z) (j : Ingest.Job) : Ingest.Job :=
  Ingest.set_status "processing" (Ingest.jb_Attempts j + 1) (Ingest.jb_AvailableAt j) (Some (now + 30 * Time.Second))
    (Ingest.jb_LastError j) (Ingest.jb_CompletedAt j) j.

(** A claim takes the first claimable job, when there is one. *)
Lemma claim_spec d : ready d -> exists r d1, on_queue Ingest.ClaimProjectionJob d = (Ok r, d1) /\
  pd_now d1 = pd_now d /\ Ingest.q_now (pd_queue d1) = pd_now d /\ steps (pd_queue d) (pd_queue d1) /\
  match r with
  | None => Ingest.next_job (queue_part d) = None /\ pd_queue d1 = queue_part d
  | Some e => exists j, Ingest.q_jobs (pd_queue d) !! ae_ID e = Some j /\ Ingest.finished j = false /\
                Ingest.q_jobs (pd_queue d1) = <[ae_ID e := claimed (pd_now d) j]> (Ingest.q_jobs (pd_queue d))
  end.
Proof.
  intros [Hok Hn Ha]. unfold on_queue, Ingest.ClaimProjectionJob, Ingest.gets, Ingest.put_job, Ingest.modify, Ingest.tx.
  unfold_M. assert (Hclock : Queue.qstep uuid_ok (pd_queue d) (queue_part d)) by by apply Queue.Clock.
  destruct (Ingest.next_job (queue_part d)) as [j|] eqn:En.
  - pose proof En as En'. apply Queue.next_job_first in En' as ([i Hi] & Hf & _).
    destruct (Queue.o_ids _ Hok i j Hi) as (<- & [a Hacc] & _). simpl in *. rewrite Hacc.
    destruct (proj1 (Queue.o_log _ Hok) _ _ Hacc) as [Hid _].
    eexists (Some a), _. split; [reflexivity|]. split; [done|]. split; [done|]. split.
    + eapply rtc_l; [exact Hclock|]. apply rtc_once. apply (Queue.Claim uuid_ok _ (Ingest.q_locked (pd_queue d)) a).
      unfold Ingest.ClaimProjectionJob, Ingest.tx, Ingest.gets, Ingest.put_job, Ingest.modify. unfold_M.
      change (Ingest.MkQDB _ _ _ _ _ _ _ _ _ _ (Ingest.q_locked (pd_queue d)) _ _) with (queue_part d). rewrite En. simpl.
      by rewrite Hacc.
    + exists j. rewrite Hid. by repeat split.
  - eexists None, _. split; [reflexivity|]. repeat split; [done..|]. by apply rtc_once.
Qed.

(** The errors [Drain] can return: the pool's. *)
Definition pool_error (err : error) : Prop :=
  (exists d, claim_down d = Some err) \/
  exists d e, fail_down d = Some e /\
    (err = e \/ exists id p, err = Errorf "recover project event %s: %w (fail job: %v)" [AStr id; AWrap (Errorf "project event panic: %v" [AErr p]); AErr e]).

(** Projecting the claimed event ends its claim and leaves less work, unless
    the failure cannot be reported. *)
Lemma projectOne_spec d e d1 : ready d -> on_queue Ingest.ClaimProjectionJob d = (Ok (Some e), d1) ->
  exists r d2, projectOne e d1 = (r, d2) /\ ready d2 /\ steps (pd_queue d) (pd_queue d2) /\
    match r with Ok _ => (work d2 < work d)%nat | Err err => pool_error err end.
Proof.
  intros Hr H. destruct (claim_spec d Hr) as (r & d1' & E & Hn1 & Hq1 & Hs & Hj). rewrite H in E. injection E as <- <-.
  destruct Hj as (j & Hj & Hf & Ej). pose proof (r_attempts d Hr _ _ Hj) as Hpos.
  assert (Hok1 : Queue.queue_ok (pd_queue d1)) by exact (steps_ok _ _ Hs (r_queue d Hr)).
  assert (Hc1 : Queue.qstep uuid_ok (pd_queue d1) (queue_part d1)) by (apply Queue.Clock; lia).
  set (jc := claimed (pd_now d) j) in *. assert (Hjc : Ingest.q_jobs (pd_queue d1) !! ae_ID e = Some jc) by (by rewrite Ej, lookup_insert_eq).
  assert (Hwj : (1 <= work_of j)%nat /\ work_of j = Nat.max 1 (Z.to_nat (10 - Ingest.jb_Attempts j))).
  { unfold work_of. rewrite Hf. lia. }
  (* A step of the queue that rewrites the claimed job ends the lemma. *)
  assert (Hend : forall (completed : bool) q2 j2 d2, steps (queue_part d1) q2 -> pd_queue d2 = q2 -> pd_now d2 = pd_now d1 ->
            Ingest.q_now q2 = pd_now d1 -> Ingest.q_jobs q2 = <[ae_ID e := j2]> (Ingest.q_jobs (pd_queue d1)) ->
            0 <= Ingest.jb_Attempts j2 -> (work_of j2 < work_of j)%nat ->
            exists r d2', (@Ok bool completed, d2) = (r, d2') /\ ready d2' /\ steps (pd_queue d) (pd_queue d2') /\
              match r with Ok _ => (work d2' < work d)%nat | Err err => pool_error err end).
  { intros completed q2 j2 d2 Hs2 E2 En2 Eq2 Ej2 Hp2 Hw2. exists (Ok completed), d2. split; [done|].
    assert (Hsteps : steps (pd_queue d) (pd_queue d2)).
    { rewrite E2. etrans; [exact Hs|]. eapply rtc_l; [exact Hc1 | exact Hs2]. }
    split; [|split; [exact Hsteps|]].
    - constructor; [exact (steps_ok _ _ Hsteps (r_queue d Hr)) | rewrite E2; lia|].
      intros i x. rewrite E2, Ej2. apply attempts_insert; [|done]. intros k y. rewrite Ej. apply attempts_insert; [apply Hr | simpl; lia].
    - unfold work. rewrite E2, Ej2, Ej, insert_insert_eq. by apply (work_update _ _ j). }
  assert (Hr1 : forall d0, pd_queue d0 = pd_queue d1 -> pd_now d0 = pd_now d1 -> ready d0).
  { intros d0 E0 En0. constructor; rewrite ?E0; [done | lia|].
    intros i x. rewrite Ej. apply attempts_insert; [apply Hr | simpl; lia]. }
  assert (Hfail : forall (wrap : error -> error) d0 msg, pd_queue d0 = pd_queue d1 -> pd_now d0 = pd_now d1 ->
            (forall er, fail_down d0 = Some er -> pool_error (wrap er)) ->
            exists r d2, match FailProjectionJob (ae_ID e) msg d0 with
                         | (Err failErr, w2) => (Err (wrap failErr), w2) | (Ok _, w2) => (Ok false, w2)
                         end = (r, d2) /\ ready d2 /\ steps (pd_queue d) (pd_queue d2) /\
              match r with Ok _ => (work d2 < work d)%nat | Err err => pool_error err end).
  { intros wrap d0 msg E0 En0 Hwrap. simpl. destruct (fail_down d0) as [er|].
    { eexists _, d0. split; [reflexivity|]. split; [by apply Hr1|]. split; [by rewrite E0 | by apply Hwrap]. } set (f := Ingest.failed (pd_now d1) msg jc).
    assert (Ef : Ingest.FailProjectionJob (ae_ID e) msg (queue_part d1) =
      (Ok tt, Ingest.set_jobs (<[ae_ID e := f]> (Ingest.q_jobs (queue_part d1))) (queue_part d1))).
    { unfold Ingest.FailProjectionJob. change (Ingest.q_jobs (queue_part d1) !! ae_ID e) with (Ingest.q_jobs (pd_queue d1) !! ae_ID e). by rewrite Hjc. }
    unfold on_queue. assert (queue_part d0 = queue_part d1) as -> by (unfold queue_part; by rewrite E0, En0).
    rewrite Ef. apply (Hend false (Ingest.set_jobs (<[ae_ID e := f]> (Ingest.q_jobs (queue_part d1))) (queue_part d1)) f).
    - apply rtc_once. apply (Queue.FailHeld uuid_ok _ (ae_ID e) jc msg); [exact Hjc | simpl; lia | done | exact Ef].
    - done.
    - exact En0.
    - done.
    - done.
    - simpl. lia.
    - unfold work_of at 1. unfold f, Ingest.failed, Ingest.finished. simpl. destruct (10 <=? Ingest.jb_Attempts j + 1) eqn:E10; simpl; lia. }
  unfold projectOne. simpl. destruct (broken e d1) as [[p|er]|].
  { apply (Hfail (fun failErr => Errorf "recover project event %s: %w (fail job: %v)" [AStr (ae_ID e); AWrap _; AErr failErr]) d1 _ eq_refl eq_refl).
    intros er Her. right. exists d1, er. split; [done|]. right. by eexists _, p. }
  { apply (Hfail id d1 _ eq_refl eq_refl). intros er' Her. right. exists d1, er'. split; [done | by left]. }
  pose proof (ProjectEvent_queue e d1) as Hp. destruct (Projector.ProjectEvent uuid_ok before e d1) as [[[]|err] d0]; destruct Hp as [Hn0 Hq0].
  - apply (Hend true (Ingest.complete_job (ae_ID e) (queue_part d1)).2
      (Ingest.set_status "done" (Ingest.jb_Attempts jc) (Ingest.jb_AvailableAt jc) None None (Some (pd_now d1)) jc)).
    + apply rtc_once. apply (Queue.Complete uuid_ok _ (ae_ID e)); [exists jc; split; [exact Hjc | simpl; lia] | done].
    + exact Hq0.
    + exact Hn0.
    + done.
    + simpl. apply map_eq. intros k. destruct (decide (ae_ID e = k)) as [<-|].
      * by rewrite lookup_alter_eq, lookup_insert_eq, Hjc.
      * by rewrite lookup_alter_ne, lookup_insert_ne by done.
    + simpl. lia.
    + unfold work_of at 1. simpl. lia.
  - apply (Hfail id d0 err Hq0 Hn0). intros er Her. right. exists d0, er. split; [done | by left].
Qed.

(** Between two iterations time passes, and other workers take steps of the
    queue; nobody adds work to it. *)
Context (done_at : nat -> bool) (env : nat -> PDB -> PDB).
Hypothesis env_ok : forall i d, ready d -> ready (env i d) /\ steps (pd_queue d) (pd_queue (env i d)) /\ (work (env i d) <= work d)%nat.

(** What [Drain] returns: its end, or the pool's error. *)
Definition ended (maxItems n : Z) (err : option error) (d' : PDB) : Prop :=
  match err with
  | None => n < maxItems -> Ingest.next_job (pd_queue d') = None
  | Some e => pool_error e
  end.

Lemma drain_ends fuel i maxItems processed d :
  ready d -> (work d < fuel)%nat -> 0 <= processed <= Z.max 0 maxItems ->
  exists n err d', DrainWithOptions done_at env fuel i maxItems processed false false d = (Some (n, err), d') /\
    processed <= n <= Z.max 0 maxItems /\ steps (pd_queue d) (pd_queue d') /\ ready d' /\ ended maxItems n err d'.
Proof.
  revert i processed d. induction fuel as [|fuel IH]; intros i processed d Hr Hw Hp; [lia|]. cbn [DrainWithOptions].
  destruct (processed <? maxItems) eqn:Em; simpl.
  2:{ exists processed, None, d. split; [done|]. split; [lia|]. split; [reflexivity|]. split; [done | simpl; lia]. }
  destruct (env_ok i d Hr) as (Hre & Hse & Ew). destruct (claim_down (env i d)) as [er|] eqn:Ec.
  { exists processed, (Some er), (env i d). split; [done|]. split; [lia|]. split; [done|]. split; [done | left; by exists (env i d)]. }
  destruct (claim_spec (env i d) Hre) as (r & d1 & E & Hn & Hq & Hs & Hj). rewrite E. destruct r as [e|].
  - destruct (projectOne_spec (env i d) e d1 Hre E) as (r & d2 & -> & Hr2 & Hs2 & Hw2).
    assert (Hs' : steps (pd_queue d) (pd_queue d2)) by by etrans. destruct r as [completed|er].
    + destruct (IH (S i) (if completed then processed + 1 else processed) d2) as (n & err & d' & -> & Hn' & Hs'' & Hr' & Hend);
        [done | lia | destruct completed; lia |].
      exists n, err, d'. split; [done|]. split; [destruct completed; lia|]. split; [by etrans | done].
    + exists processed, (Some er), d2. split; [done|]. split; [lia | done].
  - destruct Hj as [Hnone Ed]. exists processed, None, d1. split; [done|]. split; [lia|]. split; [by etrans|]. split.
    + constructor; [exact (steps_ok _ _ Hs (r_queue _ Hre)) | lia | rewrite Ed; apply (r_attempts _ Hre)].
    + intros _. by rewrite Ed.
Qed.

(** C14: The projector's loop ends, and is faithful to the queue.  Without
    [watch], from a queue in order ([ready]), with more fuel than the claims
    the queue has left, and while the other processes take steps of the queue
    that add no work to it (other projectors may; an acceptor may not, and
    late failures do not happen), [Drain] returns after at most [maxItems]
    projections, whatever projections fail or panic: its run is a run of the
    queue's step relation, so the per-subject order holds throughout.  It
    returns no error, and short of [maxItems] only when no job is claimable;
    or it returns the error of the claim, or of the failure report, that the
    database refused. *)
Theorem Drain_ends fuel maxItems d :
  ready d -> (work d < fuel)%nat ->
  exists n err d', Drain done_at env fuel maxItems false d = (Some (n, err), d') /\
    0 <= n <= Z.max 0 maxItems /\ steps (pd_queue d) (pd_queue d') /\ ready d' /\ ended maxItems n err d'.
Proof. intros Hr Hw. apply drain_ends; [done..|lia]. Qed.

End db.

(** ** A demonstration: two events, the second of which panics *)

Definition demo_uuid (s : string) : bool := false.
Definition demo_before (t : Z) (w : string) : Z := t.
Definition demo_panics (e : AcceptedEvent) (d : Projector.PDB) : option (error + error) :=
  if ae_IdempotencyKey e =s "b" then Some (inl (lit "runtime error")) else None.
(** The pool is gone from the fifth minute on. *)
Definition demo_down (d : Projector.PDB) : option error :=
  if 5 * Time.Minute <=? Projector.pd_now d then Some (lit "conn closed") else None.
Definition demo_db : Projector.PDB :=
  Projector.MkPDB (Identity.MkIDB ∅ [] ∅ ∅ [] None ∅ 0) (Queue.run Queue.demo_empty) (JDB.MkDB ∅ ∅ ∅ ∅ [] ∅ ∅ ∅ 0)
    ∅ ∅ ∅ ∅ ∅ ∅ [] ∅ [] [] 0.
Definition tick (i : nat) (d : Projector.PDB) : Projector.PDB :=
  Projector.MkPDB (Projector.pd_identity d) (Projector.pd_queue d) (Projector.pd_journeys d) (Projector.pd_suppressions d)
    (Projector.pd_companies d) (Projector.pd_members d) (Projector.pd_inapp d) (Projector.pd_flags d) (Projector.pd_exposures d)
    (Projector.pd_attempts d) (Projector.pd_campaigns d) (Projector.pd_engagement d) (Projector.pd_conversions d)
    (Projector.pd_now d + Time.Minute).

Lemma tick_ok i d : ready d -> ready (tick i d) /\ steps demo_uuid (Projector.pd_queue d) (Projector.pd_queue (tick i d)) /\ (work (tick i d) <= work d)%nat.
Proof.
  intros [H1 H2 H3]. split; [|by split]. constructor; [done | simpl; unfold Time.Minute, Time.Second; lia | done].
Qed.

Lemma demo_ready : ready demo_db.
Proof.
  constructor; [apply Queue.run_ok | vm_compute; discriminate|]. intros i j H.
  assert (Hall : forallb (fun kv => 0 <=? Ingest.jb_Attempts kv.2) (map_to_list (Ingest.q_jobs (Projector.pd_queue demo_db))) = true)
    by (vm_compute; reflexivity).
  rewrite forallb_forall in Hall. apply Z.leb_le, (Hall (i, j)). by apply list_elem_of_In, elem_of_map_to_list.
Qed.

(** The first is projected; the second fails ten times and is dead; and where
    the pool goes away, the run stops with its error. *)
Lemma Drain_ends_witness :
  let r := Drain (H := db_store demo_uuid demo_before (fun _ => None) (fun _ => None) demo_panics) (fun _ => false) tick 30 10 false demo_db in
  let s := Drain (H := db_store demo_uuid demo_before demo_down demo_down demo_panics) (fun _ => false) tick 30 10 false demo_db in
  Queue.status 1 (Projector.pd_queue r.2) = Some ("done", 1) /\
  Queue.status 2 (Projector.pd_queue r.2) = Some ("dead", 10) /\ r.1 = Some (1, None) /\
  s.1 = Some (1, Some (lit "conn closed")) /\
  (exists n err d', r = (Some (n, err), d') /\ 0 <= n <= 10) /\ (exists n err d', s = (Some (n, err), d') /\ 0 <= n <= 10).
Proof.
  intros r s. split_and!; [vm_compute; reflexivity..| |].
  - destruct (Drain_ends demo_uuid demo_before (fun _ => None) (fun _ => None) demo_panics (fun _ => false) tick tick_ok 30 10 demo_db demo_ready)
      as (n & err & d' & E & Hn & _); [vm_compute; lia|]. exists n, err, d'. split; [exact E | exact Hn].
  - destruct (Drain_ends demo_uuid demo_before demo_down demo_down demo_panics (fun _ => false) tick tick_ok 30 10 demo_db demo_ready)
      as (n & err & d' & E & Hn & _); [vm_compute; lia|]. exists n, err, d'. split; [exact E | exact Hn].
Defined.

End Drain.
