(* ===== verification/Suppression.v ===== *)
(** * Suppressions and consent as the policy reads them
    (src/internal/postgres/delivery.go)

    The reads of message policy over the projector's database, the operators'
    suppression list, and what projecting an unsubscribe does to the policy. *)

From S2P Require Import Prelude.
From S2P Require Import GoStd.
From S2P Require Import GoMap.
From S2P Require Import GoFloat.
From S2P Require Import Domain.
From S2P Require Import Store.
From S2P Require Import Event.
From S2P Require Import AuditLog.
From S2P Require Import Ingest.
From S2P Require Import Identity.
From S2P Require Import Facts.
From S2P Require Import Policy.
From S2P Require Import JourneyDB.
From S2P Require Import Projector.

Module Suppression.
Import Projector.

(** ** Reads *)

Definition IsSuppressed (p : Principal) (channel endpoint : string) : P bool :=
  gets (fun d => match pd_suppressions d !! suppression_of p channel endpoint with Some _ => true | None => false end).

(** ORDER BY occurred_at DESC LIMIT 1. *)
Definition consent_row (p : Principal) (profileID channel topic : string) (c : Identity.ConsentRow) : bool :=
  (Identity.cr_TenantID c =s p_TenantID p) && (Identity.cr_ProfileID c =s profileID) &&
  (Identity.cr_Channel c =s GoMap.ToLower channel) && (Identity.cr_Topic c =s topic).
Definition newer (a b : Identity.ConsentRow) : bool := Identity.cr_OccurredAt b <? Identity.cr_OccurredAt a.
Definition latest_consent (p : Principal) (profileID channel topic : string) (d : PDB) : option Identity.ConsentRow :=
  head (GoMap.sort_by newer (filter (fun c => consent_row p profileID channel topic c = true) (Identity.id_consents (pd_identity d)))).
Definition LatestConsent (p : Principal) (profileID channel topic : string) : P Consent :=
  row ← gets (latest_consent p profileID channel topic);
  match row with
  | None => throw ErrNotFound
  | Some c => mret (MkConsent (Identity.cr_ProfileID c) (Identity.cr_Channel c) (Identity.cr_Topic c) (Identity.cr_State c)
                      (Identity.cr_OccurredAt c))
  end.

Definition SentCountSince (p : Principal) (profileID : string) (since : Z) : P Z :=
  gets (fun d =>
    countb (fun a => (Facts.at_TenantID a =s p_TenantID p) && (Facts.at_ProfileID a =s profileID) && (Facts.at_Decision a =s "sent") &&
                     (since <=? Facts.at_AttemptedAt a)) (pd_attempts d) +
    countb (fun kv => (mi_TenantID kv.2 =s p_TenantID p) && (mi_ProfileID kv.2 =s profileID) &&
                      Facts.is_some_text (mi_Decision kv.2) "sent" && (since <=? mi_UpdatedAt kv.2))
      (map_to_list (JDB.db_intents (pd_journeys d)))).

#[export] Instance policy_store : PolicyStore PDB := {|
  Store.IsSuppressed := IsSuppressed;
  Store.LatestConsent := LatestConsent;
  Store.SentCountSince := SentCountSince
|}.

Lemma reads_pure :
  (forall p c e, pureM (Store.IsSuppressed (W := PDB) p c e)) /\ (forall p i c t, pureM (Store.LatestConsent (W := PDB) p i c t)) /\
  (forall p i s, pureM (Store.SentCountSince (W := PDB) p i s)).
Proof.
  split; [done|]. split; [|done]. intros p i c t w. simpl. unfold LatestConsent, gets. unfold_M.
  by destruct (latest_consent p i c t w).
Qed.

(** ** The operators' list *)

Definition reasons : list string := ["bounce"; "complaint"; "unsubscribe"; "admin"].

Section operators.
Context (uuid_ok : string -> bool).

Definition SuppressEndpoint (p : Principal) (channel endpoint reason : string) : P unit := tx (
  if negb (mem reason reasons) then throw (errors_New "invalid suppression reason") else
  _ ← modify (fun d =>
        let k := suppression_of p channel endpoint in
        set_suppressions (<[k := match pd_suppressions d !! k with
                                 | Some s => MkSuppression reason (su_SourceEventID s)
                                 | None => MkSuppression reason None
                                 end]> (pd_suppressions d)) d);
  on_queue (Ingest.audited uuid_ok p "suppression.create" "suppression" endpoint
              (JObject [("channel", JString channel); ("reason", JString reason)]))).

Definition RemoveSuppression (p : Principal) (channel endpoint : string) : P unit := tx (
  let k := suppression_of p channel endpoint in
  row ← gets (fun d => pd_suppressions d !! k);
  match row with
  | None => throw ErrNotFound
  | Some _ =>
      _ ← modify (fun d => set_suppressions (delete k (pd_suppressions d)) d);
      on_queue (Ingest.audited uuid_ok p "suppression.delete" "suppression" endpoint (JObject [("channel", JString channel)]))
  end).
End operators.

(** ** Unsubscribing *)

Lemma latest_consent_new p pid channel topic d row :
  row ∈ Identity.id_consents (pd_identity d) -> consent_row p pid channel topic row = true ->
  (forall c, c ∈ Identity.id_consents (pd_identity d) -> consent_row p pid channel topic c = true ->
     c = row \/ Identity.cr_OccurredAt c < Identity.cr_OccurredAt row) ->
  latest_consent p pid channel topic d = Some row.
Proof.
  intros Hin Hrow Hold. unfold latest_consent. set (l := filter _ _).
  assert (Hl : row ∈ GoMap.sort_by newer l) by (rewrite GoMap.sort_by_perm; by apply list_elem_of_filter).
  assert (Hs : Sorted.StronglySorted (GoMap.in_order newer) (GoMap.sort_by newer l)).
  { apply GoMap.sort_by_sorted; unfold newer; intros; lia. }
  destruct (GoMap.sort_by newer l) as [|x k] eqn:E; [by apply elem_of_nil in Hl|]. simpl. f_equal.
  assert (Hx : x ∈ l). { rewrite <- (GoMap.sort_by_perm newer l), E. apply list_elem_of_here. }
  pose proof (GoMap.sorted_head newer ltac:(unfold newer; intros; lia) x k row Hs Hl) as Hhd. unfold newer in Hhd. apply list_elem_of_filter in Hx as [Hxr Hx].
  destruct (Hold x Hx Hxr) as [|Hlt]; [done | lia].
Qed.

Section unsubscribe.
Context (uuid_ok : string -> bool) (before : Z -> string -> Z).

(** The tables after a projection are those after the switch on the event's
    type, as far as the policy reads them. *)
Definition same_policy (d d' : PDB) : Prop :=
  pd_identity d' = pd_identity d /\ pd_suppressions d' = pd_suppressions d.

Lemma on_facts_policy {A} (m : M Facts.FDB A) d r d' : on_facts m d = (r, d') -> same_policy d d'.
Proof. unfold on_facts. destruct (m _). intros H. injection H as _ <-. done. Qed.
Lemma on_journeys_policy {A} (m : JDB.Tx A) d r d' : on_journeys m d = (r, d') -> same_policy d d'.
Proof. unfold on_journeys. destruct (m _). intros H. injection H as _ <-. done. Qed.
Lemma on_queue_policy {A} (m : Ingest.Q A) d r d' : on_queue m d = (r, d') -> same_policy d d'.
Proof. unfold on_queue. destruct (m _). intros H. injection H as _ <-. done. Qed.
Lemma same_policy_trans d d' d'' : same_policy d d' -> same_policy d' d'' -> same_policy d d''.
Proof. intros [H1 H2] [H3 H4]. split; congruence. Qed.

Lemma if_policy (b : bool) (m : P unit) d d' : (if b then mret tt else m) d = (Ok tt, d') ->
  (m d = (Ok tt, d') -> same_policy d d') -> same_policy d d'.
Proof. destruct b; [|auto]. unfold mret, M_ret. intros H _. by injection H as <-. Qed.

(** A projection that commits. *)
Lemma ProjectEvent_Ok event d d' : ProjectEvent uuid_ok before event d = (Ok tt, d') ->
  exists pid d0 d1, (if mem (ae_Type event) subjectless then mret "" else on_identity (Identity.subject event)) d = (Ok pid, d0) /\
    project_type uuid_ok event pid d0 = (Ok tt, d1) /\ same_policy d1 d'.
Proof.
  unfold ProjectEvent, tx. destruct ((_ ← project uuid_ok before event; on_queue _) d) as [[[]|e] dx] eqn:E; [|discriminate].
  intros H. injection H as <-. apply bindM_Ok in E as ([] & d6 & E & H6). unfold project in E.
  apply bindM_Ok in E as (pid & d0 & E0 & E). apply bindM_Ok in E as ([] & d1 & E1 & E). exists pid, d0, d1.
  split; [done|]. split; [done|]. apply bindM_Ok in E as ([] & d2 & E2 & E). apply wrapM_Ok, on_facts_policy in E2.
  apply bindM_Ok in E as ([] & d3 & E3 & E). apply bindM_Ok in E as ([] & d4 & E4 & E5). apply on_queue_policy in H6.
  assert (P3 : same_policy d2 d3) by (apply (if_policy _ _ _ _ E3); intros ?%wrapM_Ok; by eapply on_facts_policy).
  assert (P4 : same_policy d3 d4) by (apply (if_policy _ _ _ _ E4); intros ?%wrapM_Ok; by eapply on_journeys_policy).
  assert (P5 : same_policy d4 d6) by (apply (if_policy _ _ _ _ E5); intros ?%wrapM_Ok; by eapply on_journeys_policy).
  eauto using same_policy_trans.
Qed.

Definition topic_of (t : string) : string := if t =s "" then "marketing" else t.
Definition unsubscribe_row (event : AcceptedEvent) (pid : string) (body : ConsentBody) (now : Z) : Identity.ConsentRow :=
  let p := ae_Principal event in
  Identity.MkConsentRow (p_TenantID p) (p_WorkspaceID p) (p_AppID p) pid (Some (ae_ID event)) (GoMap.ToLower (cn_Channel body))
    (topic_of (cn_Topic body)) "unsubscribed" (ae_OccurredAt event)
    (match cn_Evidence body with Some l => stored_value (JObject l) | None => JNull end) now.

(** The rows that keep the event's own from being written. *)
Definition written_by (event : AcceptedEvent) (body : ConsentBody) (c : Identity.ConsentRow) : Prop :=
  Identity.cr_SourceEventID c = Some (ae_ID event) /\ Identity.cr_Channel c = GoMap.ToLower (cn_Channel body) /\
  Identity.cr_Topic c = topic_of (cn_Topic body).

(** What projecting an unsubscribe writes. *)
Lemma project_consent_unsubscribe event pid body d d' :
  Json.Unmarshal consent_fields (MkConsentBody "" "" "" None) (ae_Payload event) = Ok body -> cn_State body = "unsubscribed" ->
  (forall c, c ∈ Identity.id_consents (pd_identity d) -> ~ written_by event body c) ->
  project_consent event pid d = (Ok tt, d') ->
  Identity.id_consents (pd_identity d') = Identity.id_consents (pd_identity d) ++ [unsubscribe_row event pid body (pd_now d)] /\
  let endpoint := consent_endpoint (cn_Channel body) pid d in
  (endpoint <> "" -> is_Some (pd_suppressions d' !! suppression_of (ae_Principal event) (cn_Channel body) endpoint)).
Proof.
  intros Eb Est Hnew. unfold project_consent. unfold lift, gets. unfold_M. rewrite Eb, Est. simpl. rewrite orb_false_r.
  destruct (cn_Channel body =s "") eqn:Ec; [discriminate|].
  unfold on_identity, Identity.insert_consent, Identity.gets, Identity.modify. unfold_M. cbn [identity_part Identity.id_now Identity.id_consents].
  destruct (existsb _ (Identity.id_consents (pd_identity d))) eqn:Ex.
  { exfalso. apply existsb_exists in Ex as (c & Hc & Hsame). apply list_elem_of_In, Hnew in Hc. apply Hc.
    apply andb_prop in Hsame as [Hsame Ht%seqb_true]. apply andb_prop in Hsame as [Hsame Hch%seqb_true]. unfold Identity.same_some in Hsame.
    unfold written_by. destruct (Identity.cr_SourceEventID c) as [x|]; [|discriminate]. apply seqb_true in Hsame. by rewrite Hsame, Hch, Ht. }
  set (d1 := set_identity _ d). change (consent_endpoint (cn_Channel body) pid d1) with (consent_endpoint (cn_Channel body) pid d).
  set (endpoint := consent_endpoint _ _ d). destruct (endpoint =s "") eqn:Ee.
  { apply seqb_true in Ee. intros H. injection H as <-. by split. }
  unfold suppress, modify. destruct (pd_suppressions d1 !! _) as [s|] eqn:Es; intros H; injection H as <-; (split; [done|]); intros _.
  - by exists s.
  - simpl. rewrite lookup_insert_eq. by eexists.
Qed.

(** C15: An unsubscribe stops sending.  When a [consent.changed] event saying
    "unsubscribed" is projected for a profile, for the first time, its consent
    row is written and, if the event's channel is "email" or "sms" and the
    profile has an address for it, that address is suppressed.  From then on,
    in every state in which the row is still that profile's and every other
    consent of the profile on this channel and topic is older than the event,
    message policy does not answer "sent" to the profile on them, whatever the
    case of the channel; and in every state in which the suppression has not
    been lifted (by a later subscription of the address or an operator), it
    answers "suppressed" for the address, whoever the recipient is. *)
Theorem unsubscribe_blocks event pid body d d0 d' :
  ae_Type event = "consent.changed" ->
  Json.Unmarshal consent_fields (MkConsentBody "" "" "" None) (ae_Payload event) = Ok body -> cn_State body = "unsubscribed" ->
  on_identity (Identity.subject event) d = (Ok pid, d0) ->
  (forall c, c ∈ Identity.id_consents (pd_identity d0) -> ~ written_by event body c) ->
  ProjectEvent uuid_ok before event d = (Ok tt, d') ->
  let row := unsubscribe_row event pid body (pd_now d0) in
  let endpoint := consent_endpoint (cn_Channel body) pid d0 in
  let key := suppression_of (ae_Principal event) (cn_Channel body) endpoint in
  (row ∈ Identity.id_consents (pd_identity d') /\ (endpoint <> "" -> is_Some (pd_suppressions d' !! key))) /\
  forall d2 now p r caps, p_TenantID p = p_TenantID (ae_Principal event) ->
    GoMap.ToLower (Policy.cp_Channel caps) = GoMap.ToLower (cn_Channel body) ->
    (row ∈ Identity.id_consents (pd_identity d2) ->
     (forall c, c ∈ Identity.id_consents (pd_identity d2) -> consent_row p pid (cn_Channel body) (topic_of (cn_Topic body)) c = true ->
        c = row \/ Identity.cr_OccurredAt c < ae_OccurredAt event) ->
     Policy.rc_ProfileID r = pid -> topic_of (Policy.cp_Topic caps) = topic_of (cn_Topic body) ->
     Policy.vd_Decision (Policy.Evaluate now p r caps d2).1 <> "sent") /\
    (is_Some (pd_suppressions d2 !! key) -> GoMap.ToLower (Policy.rc_Endpoint r) = GoMap.ToLower endpoint ->
     Policy.vd_Decision (Policy.Evaluate now p r caps d2).1 = "suppressed").
Proof.
  intros Et Eb Est Esub Hnew H row endpoint key. destruct (ProjectEvent_Ok event d d' H) as (pid' & d0' & d1 & E0 & E1 & [Hc Hs]).
  rewrite Et in E0. change (mem "consent.changed" subjectless) with false in E0. cbv iota in E0. rewrite Esub in E0. injection E0 as <- <-.
  unfold project_type in E1. rewrite Et in E1. cbn in E1.
  destruct (project_consent_unsubscribe event pid body d0 d1 Eb Est Hnew E1) as [Hcons Hsup].
  split; [split; [rewrite Hc, Hcons; apply elem_of_app; right; apply list_elem_of_here | by rewrite Hs]|].
  intros d2 now p r caps Hp Hch. split.
  - intros Hrow Hold Hr Htp Hsent. apply Policy.Evaluate_sent in Hsent; [|apply reads_pure..].
    destruct Hsent as (_ & (c & Hc' & Hst) & _). change (if Policy.cp_Topic caps =s "" then "marketing" else Policy.cp_Topic caps) with (topic_of (Policy.cp_Topic caps)) in Hc'.
    simpl in Hc'. unfold LatestConsent, gets in Hc'. unfold_M. rewrite Hr, Htp in Hc'. rewrite (latest_consent_new _ _ _ _ d2 row) in Hc'.
    + injection Hc' as <-. discriminate Hst.
    + done.
    + unfold consent_row. simpl. by rewrite !seqb_refl, Hp, Hch, !seqb_refl.
    + intros x Hx Hcr. apply Hold; [done|]. unfold consent_row in *. by rewrite <- Hch.
  - intros [s Hkey] Hep. unfold Policy.Evaluate. simpl. unfold IsSuppressed, gets.
    assert (Hk : suppression_of p (Policy.cp_Channel caps) (Policy.rc_Endpoint r) = key) by (unfold key, suppression_of; by rewrite Hp, Hch, Hep).
    by rewrite Hk, Hkey.
Qed.

End unsubscribe.

(** ** A demonstration *)

Definition demo_uuid (s : string) : bool := false.
Definition demo_before (t : Z) (w : string) : Z := t.
Definition demo_principal : Principal := MkPrincipal "tenant" "workspace" "app" "" "" "" [].
Definition demo_profile : Identity.Prof :=
  Identity.MkProf "p" "tenant" "workspace" "app" (Some "user") None {["email" := JString "Ada@Example.com"]} 1 None 0 0.
Definition demo_db : PDB :=
  MkPDB (Identity.MkIDB {["p" := demo_profile]} [] ∅ ∅ [] None {["p"]} 0)
    (Ingest.MkQDB ∅ ∅ 0 [] ∅ ∅ [] [] [] (Audit.MkADB [] ∅ 0) ∅ ∅ 0) (JDB.MkDB ∅ ∅ ∅ ∅ [] ∅ ∅ ∅ 0) ∅ ∅ ∅ ∅ ∅ ∅ [] ∅ [] [] 0.
Definition demo_body (channel : string) : ConsentBody := MkConsentBody channel "" "unsubscribed" None.
Definition demo_event (channel : string) : AcceptedEvent :=
  MkAcceptedEvent "e" demo_principal "consent.changed" 1 "user" "" "k" 5 6 "api" "" "" "" "" "internal" (Raw (JObject []))
    (Raw (JObject [("channel", JString channel); ("state", JString "unsubscribed")])).
Definition projected (channel : string) : PDB := (ProjectEvent demo_uuid demo_before (demo_event channel) demo_db).2.

(** Right after the event, and after an older consent of the profile has
    come in. *)
Definition older_consent : Identity.ConsentRow :=
  Identity.MkConsentRow "tenant" "workspace" "app" "p" (Some "e0") "email" "marketing" "subscribed" 4 JNull 8.
Definition later_db : PDB :=
  let d := projected "email" in
  set_identity (Identity.set_consents (Identity.id_consents (pd_identity d) ++ [older_consent]) (pd_identity d)) d.

Lemma unsubscribe_blocks_witness :
  Policy.vd_Decision (Policy.Evaluate 7 demo_principal (Policy.MkRecipient "p" "user" "other@example.com") (Policy.MkCaps "Email" "" 5 20) later_db).1 <> "sent" /\
  Policy.vd_Decision (Policy.Evaluate 7 demo_principal (Policy.MkRecipient "q" "q" "ada@example.com") (Policy.MkCaps "email" "" 5 20) (projected "email")).1 = "suppressed".
Proof.
  assert (E : ProjectEvent demo_uuid demo_before (demo_event "email") demo_db = (Ok tt, projected "email")) by (vm_compute; reflexivity).
  assert (Es : on_identity (Identity.subject (demo_event "email")) demo_db = (Ok "p", demo_db)) by (vm_compute; reflexivity).
  destruct (unsubscribe_blocks demo_uuid demo_before (demo_event "email") "p" (demo_body "email") demo_db demo_db (projected "email")) as [[H0 H1] H2].
  - reflexivity.
  - vm_compute. reflexivity.
  - reflexivity.
  - exact Es.
  - intros c Hc. inversion Hc.
  - exact E.
  - split.
    + apply H2; [reflexivity | vm_compute; reflexivity | | | reflexivity | reflexivity].
      * apply elem_of_app. left. exact H0.
      * intros c Hc _. change (Identity.id_consents (pd_identity later_db)) with
          (Identity.id_consents (pd_identity (projected "email")) ++ [older_consent]) in Hc.
        apply elem_of_app in Hc as [Hc|Hc]; [left | right; apply list_elem_of_singleton in Hc; subst c; vm_compute; reflexivity].
        assert (El : Identity.id_consents (pd_identity (projected "email")) = [unsubscribe_row (demo_event "email") "p" (demo_body "email") (pd_now demo_db)])
          by (vm_compute; reflexivity).
        rewrite El in Hc. by apply list_elem_of_singleton in Hc.
    + apply H2; [reflexivity | vm_compute; reflexivity | | vm_compute; reflexivity]. apply H1. vm_compute. discriminate.
Defined.

(** The suppression compares the channel as it was sent: "Email" is recorded
    as a consent on "email", but the address stays open to other profiles. *)
Lemma mixed_case_not_suppressed :
  pd_suppressions (projected "Email") = ∅ /\
  map Identity.cr_Channel (Identity.id_consents (pd_identity (projected "Email"))) = ["email"].
Proof. vm_compute. split; reflexivity. Qed.

End Suppression.
