(* ===== verification/Replay.v ===== *)
(** * Replay verification (src/internal/replay, src/internal/postgres/replay.go)

    [Build] folds the event log into canonical profiles, with the pointers and
    the two indexes of the code; [Checksum] is the SHA-256 of the state's JSON;
    [VerifyReplay] compares the replayed log with the projector's tables, and
    [verifyReplay] is its handler. *)

From S2P Require Import Prelude.
From S2P Require Import GoStd.
From S2P Require Import GoMap.
From S2P Require Import GoFloat.
From S2P Require Import Sha256.
From S2P Require Import Domain.
From S2P Require Import Event.
From S2P Require Import AuditLog.
From S2P Require Import GoFmt.
From S2P Require Import Ingest.
From S2P Require Import Identity.
From S2P Require Import Projector.

Module Replay.

(** ** Canonical profiles

    A nil map is the empty map: every state is normalised before it is
    marshalled, and [Build] writes to none. *)

Record CanonicalConsent : Type := MkCanonicalConsent { ck_Channel : string; ck_Topic : string; ck_State : string; ck_OccurredAt : Z }.
Record CanonicalProfile : Type := MkCanonicalProfile {
  cp_ExternalID : string;
  cp_AnonymousID : string;
  cp_Attributes : gmap string any;
  cp_Consents : gmap string CanonicalConsent
}.
Abbreviation State := (list CanonicalProfile).

Definition set_ids (external anonymous : string) (p : CanonicalProfile) : CanonicalProfile :=
  MkCanonicalProfile external anonymous (cp_Attributes p) (cp_Consents p).
Definition set_attributes (m : gmap string any) (p : CanonicalProfile) : CanonicalProfile :=
  MkCanonicalProfile (cp_ExternalID p) (cp_AnonymousID p) m (cp_Consents p).
Definition set_consents (m : gmap string CanonicalConsent) (p : CanonicalProfile) : CanonicalProfile :=
  MkCanonicalProfile (cp_ExternalID p) (cp_AnonymousID p) (cp_Attributes p) m.

(** ** The state of [Build]

    Pointers are positions in a heap of profiles, allocated in order. *)

Record builder : Type := MkBuilder {
  bd_heap : list CanonicalProfile;
  bd_profiles : list nat;
  bd_external : gmap string nat;
  bd_anonymous : gmap string nat
}.
Definition new_builder : builder := MkBuilder [] [] ∅ ∅.
Definition empty_profile : CanonicalProfile := MkCanonicalProfile "" "" ∅ ∅.
Definition deref (b : builder) (i : nat) : CanonicalProfile := default empty_profile (bd_heap b !! i).
Definition write (i : nat) (f : CanonicalProfile -> CanonicalProfile) (b : builder) : builder :=
  MkBuilder (alter f i (bd_heap b)) (bd_profiles b) (bd_external b) (bd_anonymous b).

(** [merge(target, source)]: the loops over the maps of the source. *)
Definition merge (target source : CanonicalProfile) : CanonicalProfile :=
  MkCanonicalProfile (cp_ExternalID target)
    (if cp_AnonymousID target =s "" then cp_AnonymousID source else cp_AnonymousID target)
    (cp_Attributes target ∪ cp_Attributes source)
    (union_with (fun current consent => Some (if ck_OccurredAt current <? ck_OccurredAt consent then consent else current))
       (cp_Consents target) (cp_Consents source)).

Fixpoint removeProfile (l : list nat) (target : nat) : list nat :=
  match l with
  | [] => []
  | i :: l' => if Nat.eqb i target then l' else i :: removeProfile l' target
  end.
(** [for key, value := range m { if value == from { m[key] = to } }]. *)
Definition repoint (from to : nat) (m : gmap string nat) : gmap string nat :=
  (fun value => if Nat.eqb value from then to else value) <$> m.

(** ** [ensure] *)

Definition index (m : gmap string nat) (id : string) : option nat := if id =s "" then None else m !! id.
Definition named (external anonymous : string) (p : CanonicalProfile) : CanonicalProfile :=
  set_ids (if external =s "" then cp_ExternalID p else external) (if anonymous =s "" then cp_AnonymousID p else anonymous) p.
Definition set_index (id : string) (i : nat) (m : gmap string nat) : gmap string nat := if id =s "" then m else <[id := i]> m.

(** [merge(to, from)], [removeProfile], and the indexes that pointed to it. *)
Definition fold_into (to from : nat) (external : gmap string nat) (b : builder) : builder :=
  MkBuilder (alter (fun t => merge t (deref b from)) to (bd_heap b)) (removeProfile (bd_profiles b) from) external
    (repoint from to (bd_anonymous b)).

Definition ensure (event : AcceptedEvent) (b : builder) : nat * builder :=
  let external := index (bd_external b) (ae_ExternalID event) in
  let anonymous := index (bd_anonymous b) (ae_AnonymousID event) in
  let adopt (i : nat) (b : builder) :=
    (i, MkBuilder (alter (named (ae_ExternalID event) (ae_AnonymousID event)) i (bd_heap b)) (bd_profiles b)
          (set_index (ae_ExternalID event) i (bd_external b)) (set_index (ae_AnonymousID event) i (bd_anonymous b))) in
  match external, anonymous with
  | Some e, Some a => if Nat.eqb e a then adopt e b else (e, fold_into e a (repoint a e (bd_external b)) b)
  | Some i, None | None, Some i => adopt i b
  | None, None =>
      let i := length (bd_heap b) in
      adopt i (MkBuilder (bd_heap b ++ [empty_profile]) (bd_profiles b ++ [i]) (bd_external b) (bd_anonymous b))
  end.

(** ** The events *)

(** The attributes of a payload that decodes, and its consent. *)
Definition attributes_of (payload : RawMessage) : gmap string any :=
  match Event.decode_attributes payload with
  | Ok (Some l) => Any.decode <$> GoMap.of_members l
  | _ => ∅
  end.
Definition consent_of (event : AcceptedEvent) : option (string * CanonicalConsent) :=
  match Event.strings_of ["channel"; "topic"; "state"] (ae_Payload event) with
  | Ok [channel; topic; state] =>
      let topic := if topic =s "" then "marketing" else topic in
      let channel := GoMap.ToLower channel in
      Some (channel +:+ ":" +:+ topic, MkCanonicalConsent channel topic state (ae_OccurredAt event))
  | _ => None
  end.
Definition update_profile (event : AcceptedEvent) (p : CanonicalProfile) : CanonicalProfile :=
  if ae_Type event =s "profile.updated" then set_attributes (attributes_of (ae_Payload event) ∪ cp_Attributes p) p
  else if ae_Type event =s "consent.changed" then
    match consent_of event with
    | Some (key, consent) => set_consents (<[key := consent]> (cp_Consents p)) p
    | None => p
    end
  else p.

(** case "identity.merge". *)
Definition merge_source (event : AcceptedEvent) (i : nat) (b : builder) : builder :=
  match Event.strings_of ["source_external_id"] (ae_Payload event) with
  | Ok [source] =>
      match bd_external b !! source with
      | Some s => if Nat.eqb s i then b else fold_into i s (delete source (bd_external b)) b
      | None => b
      end
  | _ => b
  end.

Definition apply_event (b : builder) (event : AcceptedEvent) : builder :=
  if ae_Type event =s "privacy.deleted" then b else
  let '(i, b) := ensure event b in
  if ae_Type event =s "identity.merge" then merge_source event i b else write i (update_profile event) b.

(** ** [Normalize] and [Build] *)

Definition NUL : string := String Ascii.zero EmptyString.
Definition sort_key (p : CanonicalProfile) : string := cp_ExternalID p +:+ NUL +:+ cp_AnonymousID p.
Definition profile_less (a b : CanonicalProfile) : bool := GoMap.str_less (sort_key a) (sort_key b).
Definition Normalize (s : State) : State := GoMap.sort_by profile_less s.

Definition replayed (events : list AcceptedEvent) : builder := fold_left apply_event events new_builder.
Definition Build (events : list AcceptedEvent) : State :=
  let b := replayed events in Normalize (deref b <$> bd_profiles b).

(** ** [Checksum] *)

(** A map's members in key order. *)
Definition members {A} (m : gmap string A) : list (string * A) :=
  GoMap.sort_by (fun a b => GoMap.str_less a.1 b.1) (map_to_list m).
Definition omitempty (name value : string) : list (string * json) := if value =s "" then [] else [(name, JString value)].

Section checksum.
(** [time.Time.MarshalJSON]: it fails for a year outside [0, 9999]. *)
Context (time_text : Z -> option string).

Definition consent_json (c : CanonicalConsent) : option json :=
  at_ ← time_text (ck_OccurredAt c);
  Some (JObject [("channel", JString (ck_Channel c)); ("topic", JString (ck_Topic c)); ("state", JString (ck_State c));
                 ("occurred_at", JString at_)]).
Definition member_json {A} (f : A -> option json) (kv : string * A) : option (string * json) := j ← f kv.2; Some (kv.1, j).
Definition profile_json (p : CanonicalProfile) : option json :=
  consents ← Json.map_opt (member_json consent_json) (members (cp_Consents p));
  Some (JObject (omitempty "external_id" (cp_ExternalID p) ++ omitempty "anonymous_id" (cp_AnonymousID p) ++
                 [("attributes", JObject ((fun kv => (kv.1, GoFmt.to_json kv.2)) <$> members (cp_Attributes p)));
                  ("consents", JObject consents)])).
Definition state_json (s : State) : option json :=
  l ← Json.map_opt profile_json s; Some (JObject [("profiles", JArray l)]).

(** [data, _ := json.Marshal(state)]: an error leaves no data. *)
Definition state_text (s : State) : string := match state_json s with Some j => Audit.marshal_text j | None => "" end.
Definition Checksum (s : State) : string := Sha256.hex (Sha256.Sum256 (state_text (Normalize s))).

(** ** [VerifyReplay] *)

Record ReplayReport : Type := MkReplayReport {
  rr_Match : bool;
  rr_LiveChecksum : string;
  rr_ReplayChecksum : string;
  rr_EventCount : Z;
  rr_ProfileCount : Z
}.

(** The log of the app, ORDER BY occurred_at, received_at, id. *)
Definition in_log (p : Principal) (e : AcceptedEvent) : bool :=
  (p_TenantID (ae_Principal e) =s p_TenantID p) && (p_AppID (ae_Principal e) =s p_AppID p) && negb (ae_Type e =s "privacy.deleted").
Definition event_less (a b : AcceptedEvent) : bool :=
  if ae_OccurredAt a =? ae_OccurredAt b
  then if ae_ReceivedAt a =? ae_ReceivedAt b then GoMap.str_less (ae_ID a) (ae_ID b) else ae_ReceivedAt a <? ae_ReceivedAt b
  else ae_OccurredAt a <? ae_OccurredAt b.
Definition event_log (p : Principal) (d : Projector.PDB) : list AcceptedEvent :=
  GoMap.sort_by event_less (filter (fun e => in_log p e = true) (map_to_list (Ingest.q_accepted (Projector.pd_queue d))).*2).

(** *** [liveReplayState] *)

(** The order in which the two queries meet their rows. *)
Context (profile_order : list Identity.Prof -> list Identity.Prof) (consent_order : list Identity.ConsentRow -> list Identity.ConsentRow).

Definition live_profile (q : Identity.Prof) : CanonicalProfile :=
  MkCanonicalProfile (default "" (Identity.pf_ExternalID q)) (default "" (Identity.pf_AnonymousID q))
    (Any.decode <$> Identity.pf_Attributes q) ∅.
Definition live_rows (p : Principal) (d : Projector.PDB) : list Identity.Prof :=
  profile_order (filter (fun q => Identity.in_app p q = true) (map_to_list (Identity.id_profiles (Projector.pd_identity d))).*2).
(** [profileIndexes[id] = len(state.Profiles)] over the rows. *)
Definition profileIndexes (rows : list Identity.Prof) : gmap string nat :=
  fold_left (fun m iq => <[Identity.pf_ID iq.2 := iq.1]> m) (imap pair rows) ∅.

(** SELECT DISTINCT ON (profile_id, channel, topic) ... ORDER BY profile_id,
    channel, topic, occurred_at DESC, created_at DESC. *)
Definition group (c : Identity.ConsentRow) : string * string * string := (Identity.cr_ProfileID c, Identity.cr_Channel c, Identity.cr_Topic c).
Definition text_less (a b : string) (rest : bool) : bool :=
  match String.compare a b with Lt => true | Gt => false | Eq => rest end.
Definition newest_first (a b : Identity.ConsentRow) : bool :=
  text_less (Identity.cr_ProfileID a) (Identity.cr_ProfileID b)
    (text_less (Identity.cr_Channel a) (Identity.cr_Channel b)
       (text_less (Identity.cr_Topic a) (Identity.cr_Topic b)
          (if Identity.cr_OccurredAt a =? Identity.cr_OccurredAt b
           then Identity.cr_CreatedAt b <? Identity.cr_CreatedAt a
           else Identity.cr_OccurredAt b <? Identity.cr_OccurredAt a))).
Fixpoint distinct_on (l : list Identity.ConsentRow) : list Identity.ConsentRow :=
  match l with
  | a :: l' => a :: (match distinct_on l' with
                     | b :: k => if bool_decide (group b = group a) then k else b :: k
                     | [] => []
                     end)
  | [] => []
  end.
Definition consent_rows (p : Principal) (d : Projector.PDB) : list Identity.ConsentRow :=
  distinct_on (GoMap.sort_by newest_first
    (consent_order (filter (fun c => (Identity.cr_TenantID c =s p_TenantID p) = true) (Identity.id_consents (Projector.pd_identity d))))).

Definition live_consent (c : Identity.ConsentRow) : CanonicalConsent :=
  MkCanonicalConsent (Identity.cr_Channel c) (Identity.cr_Topic c) (Identity.cr_State c) (Identity.cr_OccurredAt c).
Definition consent_key (c : Identity.ConsentRow) : string := Identity.cr_Channel c +:+ ":" +:+ Identity.cr_Topic c.
Definition add_consent (indexes : gmap string nat) (s : State) (c : Identity.ConsentRow) : State :=
  match indexes !! Identity.cr_ProfileID c with
  | Some i => alter (fun p => set_consents (<[consent_key c := live_consent c]> (cp_Consents p)) p) i s
  | None => s
  end.
Definition liveReplayState (p : Principal) (d : Projector.PDB) : State :=
  let rows := live_rows p d in
  Normalize (fold_left (add_consent (profileIndexes rows)) (consent_rows p d) (live_profile <$> rows)).

Definition VerifyReplay (p : Principal) : Projector.P ReplayReport :=
  events ← Projector.gets (event_log p);
  let replayed := Build events in
  live ← Projector.gets (liveReplayState p);
  let liveChecksum := Checksum live in
  let replayChecksum := Checksum replayed in
  mret (MkReplayReport (liveChecksum =s replayChecksum) liveChecksum replayChecksum (Z.of_nat (length events)) (Z.of_nat (length replayed))).

(** The handler of src/internal/httpapi/server.go: its status and report. *)
Definition verifyReplay (p : Principal) : Projector.P (Z * option ReplayReport) :=
  r ← try (VerifyReplay p);
  mret (match r with
        | Ok report => (if rr_Match report then 200 else 409, Some report)
        | Err _ => (500, None)
        end).

End checksum.
End Replay.
