(* ===== verification/ReplaySpec.v ===== *)
(** * What a replay builds

    For a log whose events each carry one identifier and merge nothing, [Build]
    is the fold of every subject's own events ([spec_profile]), whatever the
    interleaving of the subjects.  The reading of the projector's consents, the
    newest row of each group, is the last event's when the instants of a subject
    differ. *)

From S2P Require Import Prelude.
From S2P Require Import GoStd.
From S2P Require Import GoMap.
From S2P Require Import GoFloat.
From S2P Require Import Sha256.
From S2P Require Import Domain.
From S2P Require Import Event.
From S2P Require Import AuditLog.
From S2P Require Import GoFmt.
From S2P Require Import Ingest.
From S2P Require Import Identity.
From S2P Require Import IdentitySpec.
From S2P Require Import Facts.
From S2P Require Import JourneyDB.
From S2P Require Import Projector.
From S2P Require Import Suppression.
From S2P Require Import Replay.

Module ReplaySpec.
Import Replay.

(** ** The reference *)

Definition subject (e : AcceptedEvent) : string * string := (ae_ExternalID e, ae_AnonymousID e).
Definition key_of (c : CanonicalProfile) : string * string := (cp_ExternalID c, cp_AnonymousID c).
(** One identifier, without NUL, which PostgreSQL's text cannot hold. *)
Fixpoint nul_free (s : string) : bool :=
  match s with EmptyString => true | String c s' => negb (bool_decide (c = Ascii.zero)) && nul_free s' end.
Definition is_key (k : string * string) : Prop :=
  (k.1 <> "" /\ k.2 = "" \/ k.1 = "" /\ k.2 <> "") /\ nul_free k.1 = true /\ nul_free k.2 = true.

Definition subject_events (k : string * string) (es : list AcceptedEvent) : list AcceptedEvent := filter (fun e => subject e = k) es.
Definition one (c : option CanonicalProfile) (e : AcceptedEvent) : option CanonicalProfile :=
  Some (update_profile e (default (MkCanonicalProfile (ae_ExternalID e) (ae_AnonymousID e) ∅ ∅) c)).
(** A subject's profile: its own events, in order. *)
Definition spec_profile (es : list AcceptedEvent) (k : string * string) : option CanonicalProfile :=
  fold_left one (subject_events k es) None.

Definition unmerged (e : AcceptedEvent) : Prop :=
  is_key (subject e) /\ ae_Type e <> "privacy.deleted" /\ ae_Type e <> "identity.merge".

Lemma subject_events_snoc k es e :
  subject_events k (es ++ [e]) = if decide (subject e = k) then subject_events k es ++ [e] else subject_events k es.
Proof.
  unfold subject_events. rewrite filter_app. rewrite filter_cons, filter_nil. case_decide; [done|]. by rewrite app_nil_r.
Qed.
Lemma spec_snoc es e k :
  spec_profile (es ++ [e]) k = if decide (subject e = k) then one (spec_profile es k) e else spec_profile es k.
Proof. unfold spec_profile. rewrite subject_events_snoc. case_decide; [|done]. by rewrite fold_left_app. Qed.
(** A reference depends on the order of each subject's events alone. *)
Lemma spec_filter es es' k : subject_events k es = subject_events k es' -> spec_profile es k = spec_profile es' k.
Proof. unfold spec_profile. by intros ->. Qed.

Lemma update_key e c : key_of (update_profile e c) = key_of c.
Proof. unfold update_profile. repeat case_match; done. Qed.
Lemma spec_key es k c : spec_profile es k = Some c -> key_of c = k.
Proof.
  revert c. induction es as [|e es IH] using rev_ind; intros c; [done|]. rewrite spec_snoc. case_decide as Hk; [|by apply IH].
  unfold one. intros [= <-]. rewrite update_key. destruct (spec_profile es k) as [c0|] eqn:E; [by apply IH|]. exact Hk.
Qed.

(** ** [Build] is the reference *)

Definition find (b : builder) (k : string * string) : option nat :=
  if k.1 =s "" then bd_anonymous b !! k.2 else bd_external b !! k.1.

Record built (es : list AcceptedEvent) (b : builder) : Prop := MkBuilt {
  bt_profiles : bd_profiles b = seq 0 (length (bd_heap b));
  bt_heap : forall i c, bd_heap b !! i = Some c -> is_key (key_of c) /\ find b (key_of c) = Some i;
  bt_find : forall k i, is_key k -> find b k = Some i -> exists c, bd_heap b !! i = Some c /\ key_of c = k;
  bt_spec : forall k, is_key k -> spec_profile es k = find b k ≫= fun i => bd_heap b !! i
}.

Lemma built_nil : built [] new_builder.
Proof.
  assert (Hf : forall k, find new_builder k = None) by (intros k; unfold find; by case_match).
  split; [done | done | |]; intros k *; by rewrite Hf.
Qed.

(** Adopting a key: the identifier's index points to the profile, which bears it. *)
Definition set_find (k : string * string) (i : nat) (b : builder) : builder :=
  MkBuilder (bd_heap b) (bd_profiles b) (set_index k.1 i (bd_external b)) (set_index k.2 i (bd_anonymous b)).

Lemma find_set k i b k' : is_key k -> is_key k' -> find (set_find k i b) k' = if decide (k = k') then Some i else find b k'.
Proof.
  destruct k as [x a], k' as [x' a']. intros [Hk _] [Hk' _]. simpl in *. unfold find, set_find, set_index. simpl.
  destruct Hk as [[Hx ->]|[-> Ha]], Hk' as [[Hx' ->]|[-> Ha']];
    rewrite ?(proj2 (seqb_true "" "") eq_refl), ?(proj2 (seqb_false x _) Hx), ?(proj2 (seqb_false a _) Ha),
      ?(proj2 (seqb_false x' _) Hx'), ?(proj2 (seqb_false a' _) Ha').
  all: case_decide as E; [injection E as E; subst; rewrite ?lookup_insert_eq; done|].
  all: try done; rewrite lookup_insert_ne; congruence.
Qed.

Lemma named_key x a c : is_key (x, a) -> key_of c = (x, a) \/ c = empty_profile -> named x a c = set_ids x a c.
Proof.
  intros [Hk _] Hc. unfold named. destruct (x =s "") eqn:Ex, (a =s "") eqn:Ea; rewrite ?seqb_true in Ex, Ea; simpl in Hk;
    destruct Hc as [[= <- <-]| ->]; subst; try done; naive_solver.
Qed.

(** What an event with one identifier does to a known subject and to a new one. *)
Definition new_profile (e : AcceptedEvent) : CanonicalProfile := MkCanonicalProfile (ae_ExternalID e) (ae_AnonymousID e) ∅ ∅.

Lemma apply_single e b : unmerged e ->
  let k := subject e in
  let i := default (length (bd_heap b)) (find b k) in
  let named_heap := alter (named (ae_ExternalID e) (ae_AnonymousID e)) i
                      (match find b k with Some _ => bd_heap b | None => bd_heap b ++ [empty_profile] end) in
  apply_event b e = set_find k i (MkBuilder (alter (update_profile e) i named_heap)
    (match find b k with Some _ => bd_profiles b | None => bd_profiles b ++ [i] end) (bd_external b) (bd_anonymous b)).
Proof.
  intros ([Hk _] & Hpriv & Hmerge) k. unfold apply_event. rewrite (proj2 (seqb_false _ _) Hpriv), (proj2 (seqb_false _ _) Hmerge).
  unfold k, ensure, find, subject, index in *. simpl in *.
  destruct Hk as [[Hx Ha]|[Hx Ha]]; rewrite ?Hx, ?Ha, ?(proj2 (seqb_true "" "") eq_refl).
  - rewrite (proj2 (seqb_false _ _) Hx). by destruct (bd_external b !! _).
  - rewrite (proj2 (seqb_false _ _) Ha). by destruct (bd_anonymous b !! _).
Qed.

(** The heap after the event: the subject's position holds [one] of what it held. *)
Lemma apply_heap es b e : built es b -> unmerged e ->
  exists i c heap profiles,
    apply_event b e = set_find (subject e) i (MkBuilder heap profiles (bd_external b) (bd_anonymous b)) /\
    (forall j, heap !! j = if decide (j = i) then Some c else bd_heap b !! j) /\
    one (spec_profile es (subject e)) e = Some c /\ profiles = seq 0 (length heap) /\
    (find b (subject e) = Some i \/ find b (subject e) = None /\ bd_heap b !! i = None).
Proof.
  intros Hb He. rewrite (apply_single e b He). destruct He as [Hk _]. rewrite (bt_spec es b Hb _ Hk).
  destruct (find b (subject e)) as [i|] eqn:Ef; simpl.
  - destruct (bt_find es b Hb _ i Hk Ef) as (c & Hc & Hck). do 4 eexists. split; [reflexivity|].
    rewrite Hc. simpl. split; [|split; [reflexivity|split; [|by left]]].
    + intros j. rewrite list_lookup_alter. case_decide as Hj; [subst j|rewrite decide_False by congruence; rewrite list_lookup_alter; by rewrite decide_False].
      rewrite decide_True by done. rewrite list_lookup_alter, decide_True, Hc by done. simpl. do 2 f_equal.
      rewrite named_key by auto. destruct c. injection Hck as -> ->. done.
    + rewrite !length_alter. apply (bt_profiles es b Hb).
  - do 4 eexists. split; [reflexivity|]. assert (Hl : bd_heap b !! length (bd_heap b) = None) by (apply lookup_ge_None; lia).
    split; [|split; [reflexivity|split; [|by right]]].
    + intros j. rewrite !alter_app_r_alt, Nat.sub_diag by lia. simpl. rewrite named_key by auto.
      case_decide as Hj; [subst j; rewrite lookup_app_r, Nat.sub_diag by lia; done|].
      destruct (decide (j < length (bd_heap b))%nat); [by rewrite lookup_app_l|].
      rewrite lookup_app_r by lia. destruct (j - length (bd_heap b))%nat eqn:E; [lia|]. simpl. symmetry. apply lookup_ge_None. lia.
    + rewrite !length_alter, length_app, (bt_profiles es b Hb). simpl. by rewrite seq_app.
Qed.

Lemma built_step es b e : built es b -> unmerged e -> built (es ++ [e]) (apply_event b e).
Proof.
  intros Hb He. destruct (apply_heap es b e Hb He) as (i & c & heap & profiles & -> & Hheap & Hone & Hprof & Hf).
  destruct He as [Hk _]. set (k := subject e) in *. set (b0 := MkBuilder _ _ _ _).
  assert (Hset : forall k', is_key k' -> find (set_find k i b0) k' = if decide (k = k') then Some i else find b k')
    by (intros; by rewrite find_set).
  assert (Hck : key_of c = k).
  { apply (spec_key (es ++ [e])). by rewrite spec_snoc, decide_True. }
  assert (Hother : forall j c0, j <> i -> bd_heap b !! j = Some c0 -> key_of c0 <> k).
  { intros j c0 Hj Hc0 E. destruct (bt_heap es b Hb j c0 Hc0) as [_ H]. rewrite E in H. destruct Hf as [Hf|[Hf _]]; congruence. }
  split; [done| | |].
  - intros j c0. simpl. rewrite Hheap. case_decide as Hj.
    + intros [= <-]. rewrite Hck. split; [done|]. rewrite Hset, decide_True by done. by rewrite Hj.
    + intros Hc0. destruct (bt_heap es b Hb j c0 Hc0) as [Hkc Hfc]. split; [done|]. rewrite Hset, decide_False; [done| |done].
      intros E. by apply (Hother j c0).
  - intros k' j Hk'. rewrite Hset by done. simpl. setoid_rewrite Hheap. case_decide as E.
    + intros [= <-]. exists c. rewrite decide_True by done. by rewrite <- E.
    + intros Hj. destruct (bt_find es b Hb k' j Hk' Hj) as (c0 & Hc0 & Hk0). exists c0. rewrite decide_False; [done|].
      intros ->. destruct Hf as [Hf|[_ Hf]]; [|congruence]. apply E. destruct (bt_find es b Hb k i Hk Hf) as (c1 & Hc1 & Hk1).
      congruence.
  - intros k' Hk'. rewrite spec_snoc, Hset by done. fold k. simpl. case_decide as E; [subst k'|]; cbn [mbind option_bind].
    + rewrite Hheap, decide_True by done. exact Hone.
    + rewrite (bt_spec es b Hb k' Hk'). destruct (find b k') as [j|] eqn:Ej; [|done]. simpl. rewrite Hheap. case_decide as Hj; [|done].
      exfalso. subst j. destruct (bt_find es b Hb k' i Hk' Ej) as (c1 & Hc1 & Hk1).
      destruct Hf as [Hf|[_ Hf]]; [|congruence]. destruct (bt_find es b Hb k i Hk Hf) as (c2 & Hc2 & Hk2). congruence.
Qed.

Lemma built_replayed es : Forall unmerged es -> built es (replayed es).
Proof.
  unfold replayed. induction es as [|e es IH] using rev_ind; intros Hes; [apply built_nil|].
  apply Forall_app in Hes as [Hes He]. rewrite fold_left_app. apply built_step; [by apply IH|]. by apply Forall_cons in He as [He _].
Qed.

(** ** States that list the reference *)

Definition lists (es : list AcceptedEvent) (s : State) : Prop :=
  NoDup (key_of <$> s) /\ forall c, c ∈ s <-> is_key (key_of c) /\ spec_profile es (key_of c) = Some c.

Lemma deref_all b : bd_profiles b = seq 0 (length (bd_heap b)) -> deref b <$> bd_profiles b = bd_heap b.
Proof.
  intros ->. apply list_eq. intros i. rewrite list_lookup_fmap. destruct (decide (i < length (bd_heap b))%nat) as [Hi|Hi].
  - rewrite lookup_seq_lt by done. simpl. unfold deref. simpl. apply lookup_lt_is_Some in Hi as [c Hc]. by rewrite Hc.
  - rewrite lookup_seq_ge by lia. simpl. symmetry. apply lookup_ge_None. lia.
Qed.

Lemma built_lists es b : built es b -> lists es (bd_heap b).
Proof.
  intros Hb. split.
  - apply NoDup_alt. intros i j k. rewrite !list_lookup_fmap. intros (c & Hc & ->)%fmap_Some (c' & Hc' & Hk)%fmap_Some.
    destruct (bt_heap es b Hb i c Hc) as [_ H]. destruct (bt_heap es b Hb j c' Hc') as [_ H']. congruence.
  - intros c. rewrite list_elem_of_lookup. split.
    + intros [i Hc]. destruct (bt_heap es b Hb i c Hc) as [Hk Hf]. split; [done|]. rewrite (bt_spec es b Hb _ Hk), Hf. exact Hc.
    + intros [Hk Hs]. rewrite (bt_spec es b Hb _ Hk) in Hs. destruct (find b (key_of c)) as [i|]; [|done]. by exists i.
Qed.

(** *** They have one normal form *)

Lemma nul_key_inj k k' : is_key k -> is_key k' -> k.1 +:+ NUL +:+ k.2 = k'.1 +:+ NUL +:+ k'.2 -> k = k'.
Proof.
  destruct k as [x a], k' as [x' a']. intros (_ & Hx & Ha) (_ & Hx' & Ha'). simpl in *. clear Ha Ha'. revert x' Hx'.
  induction x as [|c x IH]; intros [|c' x'] Hx'; cbn in *.
  - intros [= E]. f_equal. exact E.
  - intros [= <- _]. by rewrite bool_decide_eq_true_2 in Hx'.
  - intros [= -> _]. by rewrite bool_decide_eq_true_2 in Hx.
  - intros [= <- E]. apply andb_prop in Hx as [_ Hx]. apply andb_prop in Hx' as [_ Hx'].
    injection (IH Hx x' Hx' E) as E1 E2. by rewrite E1, E2.
Qed.

Lemma lists_unique es s s' : lists es s -> lists es s' -> Normalize s = Normalize s'.
Proof.
  intros [Hn Hs] [Hn' Hs']. unfold Normalize. apply (GoMap.sorted_unique profile_less ltac:(intros *; apply GoMap.str_less_asym)).
  - intros x y Hx Hy Hxy Hyx. rewrite GoMap.sort_by_perm in Hx, Hy. apply Hs in Hx as [Hkx Hx]. apply Hs in Hy as [Hky Hy].
    assert (E : key_of x = key_of y).
    { apply nul_key_inj; [done..|]. destruct (decide (sort_key x = sort_key y)) as [E|E]; [exact E|].
      apply GoMap.str_less_total in E; [|exact Hxy]. unfold profile_less in Hyx. congruence. }
    congruence.
  - apply GoMap.sort_by_sorted; intros *; [apply GoMap.str_less_asym | apply GoMap.str_less_trans].
  - apply GoMap.sort_by_sorted; intros *; [apply GoMap.str_less_asym | apply GoMap.str_less_trans].
  - rewrite !GoMap.sort_by_perm. apply NoDup_Permutation; [by eapply NoDup_fmap_1..|]. intros c. by rewrite Hs, Hs'.
Qed.

(** Replaying a log lists the fold of each subject's own events, sorted. *)
Lemma Build_subjects es : Forall unmerged es -> exists s, lists es s /\ Build es = Normalize s.
Proof.
  intros Hes. apply built_replayed in Hes as Hb. exists (bd_heap (replayed es)). split; [by apply built_lists|].
  unfold Build. cbn zeta. by rewrite deref_all by apply (bt_profiles es _ Hb).
Qed.

(** ** Consents *)

Definition record (l : list (string * CanonicalConsent)) : gmap string CanonicalConsent := fold_left (fun m kv => <[kv.1 := kv.2]> m) l ∅.
Definition consent_event (e : AcceptedEvent) : option (string * CanonicalConsent) :=
  if ae_Type e =s "consent.changed" then consent_of e else None.
Definition consent_events (es : list AcceptedEvent) : list (string * CanonicalConsent) := omap consent_event es.

Lemma record_snoc l kv : record (l ++ [kv]) = <[kv.1 := kv.2]> (record l).
Proof. unfold record. by rewrite fold_left_app. Qed.
Lemma consent_events_snoc es e :
  consent_events (es ++ [e]) = consent_events es ++ match consent_event e with Some kv => [kv] | None => [] end.
Proof. unfold consent_events. rewrite omap_app. simpl. by case_match. Qed.

Lemma update_consents e p :
  cp_Consents (update_profile e p) = match consent_event e with Some kv => <[kv.1 := kv.2]> (cp_Consents p) | None => cp_Consents p end.
Proof.
  unfold update_profile, consent_event. destruct (ae_Type e =s "profile.updated") eqn:Ep.
  - apply seqb_true in Ep. by rewrite Ep.
  - destruct (ae_Type e =s "consent.changed"); [|done]. by destruct (consent_of e) as [[]|].
Qed.

Lemma spec_consents es k c : spec_profile es k = Some c -> cp_Consents c = record (consent_events (subject_events k es)).
Proof.
  revert c. induction es as [|e es IH] using rev_ind; intros c; [done|]. rewrite spec_snoc, subject_events_snoc.
  case_decide as Hk; [|by apply IH]. unfold one. intros [= <-]. rewrite update_consents, consent_events_snoc.
  assert (E : cp_Consents (default (MkCanonicalProfile (ae_ExternalID e) (ae_AnonymousID e) ∅ ∅) (spec_profile es k)) =
              record (consent_events (subject_events k es))).
  { destruct (spec_profile es k) as [c0|] eqn:Ec; [by apply IH|]. unfold spec_profile in Ec.
    destruct (subject_events k es) as [|x l] eqn:El using rev_ind; [done|]. rewrite fold_left_app in Ec. done. }
  rewrite E. destruct (consent_event e); [by rewrite record_snoc | by rewrite app_nil_r].
Qed.

(** When the instants of a list of consents increase, each key holds its
    latest. *)
Definition latest (kv : string * CanonicalConsent) (l : list (string * CanonicalConsent)) : Prop :=
  kv ∈ l /\ forall v, (kv.1, v) ∈ l -> ck_OccurredAt v <= ck_OccurredAt kv.2.
Definition earlier (a b : string * CanonicalConsent) : Prop := ck_OccurredAt a.2 < ck_OccurredAt b.2.

Lemma increasing_snoc l kv : StronglySorted earlier (l ++ [kv]) ->
  StronglySorted earlier l /\ forall x, x ∈ l -> earlier x kv.
Proof.
  induction l as [|y l IH]; simpl; intros H; [split; [constructor|]; intros x Hx; by apply elem_of_nil in Hx|].
  inversion H as [|? ? Hs Hf]; subst. destruct (IH Hs) as [Hs' Hl]. apply Forall_app in Hf as [Hf Hy]. split; [by constructor|].
  intros x [->|Hx]%elem_of_cons; [by inversion Hy | by apply Hl].
Qed.

Lemma record_latest l : StronglySorted earlier l -> forall k v, record l !! k = Some v <-> latest (k, v) l.
Proof.
  unfold latest. induction l as [|kv l IH] using rev_ind; intros Hl k v.
  { unfold record. simpl. rewrite lookup_empty. split; [done|]. intros [H _]. by apply elem_of_nil in H. }
  destruct kv as [k0 v0]. apply increasing_snoc in Hl as [Hl Hlast]. rewrite record_snoc. simpl. destruct (decide (k0 = k)) as [->|E].
  - rewrite lookup_insert_eq. split.
    + intros [= <-]. split; [set_solver|]. intros v [Hv|Hv]%elem_of_app; [apply Hlast in Hv; unfold earlier in Hv; simpl in *; lia|].
      apply list_elem_of_singleton in Hv as [= ->]. lia.
    + intros [[Hv|Hv]%elem_of_app Hmax]; [|by apply list_elem_of_singleton in Hv as [= ->]].
      apply Hlast in Hv. specialize (Hmax v0 ltac:(set_solver)). unfold earlier in Hv. simpl in *. lia.
  - rewrite lookup_insert_ne, IH by done. simpl. split; intros [Hv Hmax]; (split; [set_solver|]); intros v'; [|set_solver].
    intros [Hv'|Hv']%elem_of_app; [by apply Hmax|]. by apply list_elem_of_singleton in Hv' as [= -> ->].
Qed.

Lemma earlier_inj l x y : StronglySorted earlier l -> x ∈ l -> y ∈ l -> ck_OccurredAt x.2 = ck_OccurredAt y.2 -> x = y.
Proof.
  induction 1 as [|z l Hl IH Hz]; [intros Hx; by apply elem_of_nil in Hx|]. rewrite Forall_forall in Hz. unfold earlier in Hz.
  intros [->|Hx]%elem_of_cons [->|Hy]%elem_of_cons E; [done| | |by apply IH].
  - apply Hz in Hy. lia.
  - apply Hz in Hx. lia.
Qed.

(** *** The newest row of each group *)

Lemma compare_refl a : String.compare a a = Eq.
Proof. pose proof (String.compare_antisym a a). by destruct (String.compare a a). Qed.
Lemma text_less_asym a b r r' : (r = true -> r' = false) -> text_less a b r = true -> text_less b a r' = false.
Proof. unfold text_less. rewrite (String.compare_antisym b a). destruct (String.compare a b); simpl; naive_solver. Qed.
Lemma text_less_trans a b c r r' r'' : (r = false -> r' = false -> r'' = false) ->
  text_less b a r = false -> text_less c b r' = false -> text_less c a r'' = false.
Proof.
  unfold text_less. rewrite (String.compare_antisym b a), (String.compare_antisym c b), (String.compare_antisym c a).
  pose proof (GoMap.compare_le_trans a b c) as Ht. intros Hr.
  destruct (String.compare a b) eqn:E1; simpl; try done.
  - apply String.compare_eq_iff in E1 as ->. destruct (String.compare b c); simpl; auto.
  - destruct (String.compare b c) eqn:E2; simpl; try done.
    + apply String.compare_eq_iff in E2 as ->. rewrite E1. done.
    + intros _ _. destruct (String.compare a c) eqn:E3; simpl; [|done|by destruct Ht].
      apply String.compare_eq_iff in E3 as ->. by rewrite String.compare_antisym, E1 in E2.
Qed.
Lemma text_less_total a b r r' : text_less a b r = false -> text_less b a r' = false -> a = b /\ r = false /\ r' = false.
Proof.
  unfold text_less. rewrite (String.compare_antisym b a). destruct (String.compare a b) eqn:E; simpl; try done.
  by apply String.compare_eq_iff in E as ->.
Qed.

Lemma newest_first_asym a b : newest_first a b = true -> newest_first b a = false.
Proof. unfold newest_first. repeat apply text_less_asym. repeat case_match; lia. Qed.
Lemma newest_first_trans a b c : newest_first b a = false -> newest_first c b = false -> newest_first c a = false.
Proof. unfold newest_first. repeat apply text_less_trans. repeat case_match; lia. Qed.
Lemma newest_first_total a b : newest_first a b = false -> newest_first b a = false -> group a = group b.
Proof.
  unfold newest_first, group. intros H1 H2. destruct (text_less_total _ _ _ _ H1 H2) as (-> & H3 & H4).
  destruct (text_less_total _ _ _ _ H3 H4) as (-> & H5 & H6). by destruct (text_less_total _ _ _ _ H5 H6) as (-> & _).
Qed.
Lemma newest_first_newer a b : group a = group b -> newest_first b a = false -> Identity.cr_OccurredAt b <= Identity.cr_OccurredAt a.
Proof.
  unfold group, newest_first, text_less. intros [= -> -> ->]. rewrite !compare_refl. case_match; lia.
Qed.

(** The order of the groups alone. *)
Definition group_less (g h : string * string * string) : bool :=
  text_less g.1.1 h.1.1 (text_less g.1.2 h.1.2 (text_less g.2 h.2 false)).
Lemma group_less_total g h : group_less g h = false -> group_less h g = false -> g = h.
Proof.
  destruct g as [[g1 g2] g3], h as [[h1 h2] h3]. unfold group_less. simpl. intros H1 H2.
  destruct (text_less_total _ _ _ _ H1 H2) as (-> & H3 & H4). destruct (text_less_total _ _ _ _ H3 H4) as (-> & H5 & H6).
  by destruct (text_less_total _ _ _ _ H5 H6) as (-> & _).
Qed.
Lemma text_less_weaken a b r r' : (r = false -> r' = false) -> text_less a b r = false -> text_less a b r' = false.
Proof. unfold text_less. destruct (String.compare a b); auto. Qed.
Lemma newest_first_group a b : newest_first a b = false -> group_less (group a) (group b) = false.
Proof. unfold newest_first, group_less. simpl. do 3 apply text_less_weaken. done. Qed.

(** In sorted rows, [distinct_on] keeps one row of each group, its newest. *)
Lemma distinct_on_sub l c : c ∈ distinct_on l -> c ∈ l.
Proof.
  induction l as [|a l IH]; [done|]. simpl. intros [->|Hc]%elem_of_cons; [set_solver|]. right. apply IH.
  destruct (distinct_on l) as [|b k]; [done|]. case_bool_decide; set_solver.
Qed.
Lemma distinct_on_head l b k : distinct_on l = b :: k -> exists l', l = b :: l'.
Proof. destruct l as [|x l']; [done|]. intros [= -> _]. by exists l'. Qed.

Lemma sorted_contiguous a b l x : StronglySorted (GoMap.in_order newest_first) (b :: l) -> newest_first b a = false ->
  x ∈ b :: l -> group x = group a -> group b = group a.
Proof.
  intros Hl Hab Hx Ex. pose proof (GoMap.sorted_head _ newest_first_asym _ _ _ Hl Hx) as Hbx.
  apply newest_first_group in Hab, Hbx. rewrite Ex in Hbx. by apply group_less_total.
Qed.

Lemma distinct_on_cons a l : distinct_on (a :: l) =
  a :: match distinct_on l with b :: k => if bool_decide (group b = group a) then k else b :: k | [] => [] end.
Proof. done. Qed.

Lemma distinct_on_spec l : StronglySorted (GoMap.in_order newest_first) l ->
  NoDup (group <$> distinct_on l) /\
  forall r, r ∈ l -> exists c, c ∈ distinct_on l /\ group c = group r /\ Identity.cr_OccurredAt r <= Identity.cr_OccurredAt c.
Proof.
  induction 1 as [|a l Hl [IHn IHc] Ha]; [split; [constructor|]; intros r Hr; by apply elem_of_nil in Hr|].
  rewrite distinct_on_cons. destruct (distinct_on l) as [|b k] eqn:E.
  { destruct l as [|x l']; [|done]. split; [apply NoDup_singleton|]. intros r ->%list_elem_of_singleton. exists a. split_and!; [set_solver | done | lia]. }
  destruct (distinct_on_head l b k E) as [l' ->]. inversion Ha as [|? ? Hab _]; subst. unfold GoMap.in_order in Hab.
  assert (Hnew : forall r, r ∈ b :: l' -> group r = group a -> Identity.cr_OccurredAt r <= Identity.cr_OccurredAt a).
  { intros r Hr Er. rewrite Forall_forall in Ha. by apply newest_first_newer, Ha. }
  case_bool_decide as Eb; rewrite fmap_cons.
  - rewrite fmap_cons in IHn. apply NoDup_cons in IHn as [Hb Hk]. split; [constructor; [by rewrite <- Eb | done]|].
    intros r [->|Hr]%elem_of_cons; [exists a; split_and!; [set_solver | done | lia]|].
    destruct (decide (group r = group a)) as [Er|Er]; [exists a; split_and!; [set_solver | done | by apply Hnew]|].
    destruct (IHc r Hr) as (c & [->|Hc]%elem_of_cons & Ec & Ho); [congruence|]. exists c. split_and!; [set_solver | done..].
  - split.
    + apply NoDup_cons. split; [|done]. change (group a ∉ group <$> (b :: k)). intros (x & Ex & Hx)%list_elem_of_fmap.
      rewrite <- E in Hx. apply distinct_on_sub in Hx. apply Eb. by apply (sorted_contiguous a b l' x).
    + intros r [->|Hr]%elem_of_cons; [exists a; split_and!; [set_solver | done | lia]|].
      destruct (IHc r Hr) as (c & Hc & H). exists c. split; [set_solver | done].
Qed.

End ReplaySpec.

(** * A replay agrees with the projector

    [tracked] relates the projector's identity tables to the reference of
    [ReplaySpec]: it holds of the tables that project a log of single-identifier
    events, and then [liveReplayState] is the replayed state and [VerifyReplay]
    reports a match. *)

Module ReplayLive.
Import IdentitySpec Projector Replay ReplaySpec.

(** ** What the tables hold of a log *)

Definition names (k : string * string) (q : Identity.Prof) : Prop :=
  Identity.pf_ExternalID q = Identity.NULLIF_empty k.1 /\ Identity.pf_AnonymousID q = Identity.NULLIF_empty k.2.
Definition entry (r : Identity.ConsentRow) : string * CanonicalConsent := (consent_key r, live_consent r).
Definition rows_of (i : string) (l : list Identity.ConsentRow) : list Identity.ConsentRow := filter (fun r => Identity.cr_ProfileID r = i) l.

Record tracked (p : Principal) (es : list AcceptedEvent) (d : Identity.IDB) : Prop := MkTracked {
  tr_id : forall i q, Identity.id_profiles d !! i = Some q -> Identity.pf_ID q = i /\ i ∈ Identity.id_used d;
  (** a profile of the app is one subject's, with its attributes and consents *)
  tr_app : forall i q, Identity.id_profiles d !! i = Some q -> Identity.in_app p q = true ->
    exists k c, is_key k /\ names k q /\ spec_profile es k = Some c /\ Any.decode <$> Identity.pf_Attributes q = cp_Attributes c /\
      entry <$> rows_of i (Identity.id_consents d) = consent_events (subject_events k es);
  tr_all : forall k c, is_key k -> spec_profile es k = Some c ->
    exists i q, Identity.id_profiles d !! i = Some q /\ Identity.in_app p q = true /\ names k q;
  tr_one : forall i j q q' k, Identity.id_profiles d !! i = Some q -> Identity.id_profiles d !! j = Some q' ->
    Identity.in_app p q = true -> Identity.in_app p q' = true -> is_key k -> names k q -> names k q' -> i = j;
  tr_alias : forall n v, Identity.id_aliases d !! (p_TenantID p, p_AppID p, n, v) = None;
  tr_consent : forall r, r ∈ Identity.id_consents d -> Identity.cr_ProfileID r ∈ Identity.id_used d;
  tr_tenant : forall r q, r ∈ Identity.id_consents d -> Identity.id_profiles d !! Identity.cr_ProfileID r = Some q ->
    Identity.in_app p q = true -> Identity.cr_TenantID r = p_TenantID p
}.

(** ** Reading the tables *)

(** The consents of a log: no colon in a channel, and increasing instants. *)
Fixpoint colon_free (s : string) : bool :=
  match s with EmptyString => true | String c s' => negb (bool_decide (c = Ascii.ascii_of_nat 58)) && colon_free s' end.
Definition clear_consents (l : list (string * CanonicalConsent)) : Prop :=
  StronglySorted earlier l /\ forall kv, kv ∈ l -> colon_free (ck_Channel kv.2) = true.

Lemma colon_inj a b t u : colon_free a = true -> colon_free b = true -> a +:+ ":" +:+ t = b +:+ ":" +:+ u -> a = b /\ t = u.
Proof.
  revert b. induction a as [|c a IH]; intros [|c' b] Ha Hb; cbn in *.
  - intros [= E]. split; [done | exact E].
  - intros [= <- _]. by rewrite bool_decide_eq_true_2 in Hb.
  - intros [= -> _]. by rewrite bool_decide_eq_true_2 in Ha.
  - intros [= <- E]. apply andb_prop in Ha as [_ Ha]. apply andb_prop in Hb as [_ Hb]. by destruct (IH b Ha Hb E) as [-> ->].
Qed.

Lemma record_NoDup l k v : NoDup (l.*1) -> record l !! k = Some v <-> (k, v) ∈ l.
Proof.
  induction l as [|[k0 v0] l IH] using rev_ind; intros Hn.
  { unfold record. simpl. rewrite lookup_empty. split; [done|]. intros H. by apply elem_of_nil in H. }
  rewrite fmap_app in Hn. apply NoDup_app in Hn as (Hn & Hd & _). rewrite record_snoc. simpl.
  rewrite elem_of_app, list_elem_of_singleton. destruct (decide (k0 = k)) as [->|E].
  - rewrite lookup_insert_eq. split; [intros [= ->]; by right|]. intros [H|[= ->]]; [|done]. exfalso.
    apply (Hd k); [by apply (list_elem_of_fmap_2' fst _ _ _ H)|]. simpl. set_solver.
  - rewrite lookup_insert_ne, IH by done. split; [by left|]. intros [H|[= -> ->]]; done.
Qed.

Lemma NoDup_finer {A B C} (f : A -> B) (g : A -> C) l :
  (forall x y, x ∈ l -> y ∈ l -> f x = f y -> g x = g y) -> NoDup (g <$> l) -> NoDup (f <$> l).
Proof.
  induction l as [|a l IH]; intros Hfg Hn; [constructor|]. rewrite fmap_cons in *. apply NoDup_cons in Hn as [Ha Hn]. apply NoDup_cons. split.
  - intros (x & E & Hx)%list_elem_of_fmap. apply Ha. rewrite (Hfg a x); [by apply list_elem_of_fmap_2 | set_solver | set_solver | done].
  - apply IH; [|done]. intros x y Hx Hy. apply Hfg; set_solver.
Qed.
Lemma NoDup_fmap_inj {A B} (f : A -> B) l x y : NoDup (f <$> l) -> x ∈ l -> y ∈ l -> f x = f y -> x = y.
Proof.
  induction l as [|a l IH]; [intros _ Hx; by apply elem_of_nil in Hx|]. rewrite fmap_cons. intros [Ha Hn]%NoDup_cons.
  intros [->|Hx]%elem_of_cons [->|Hy]%elem_of_cons E; [done| | |by apply IH]; exfalso; apply Ha;
    [rewrite E | rewrite <- E]; by apply list_elem_of_fmap_2.
Qed.

Lemma NoDup_filtered {A B} (f : A -> B) (P : A -> Prop) `{!forall x, Decision (P x)} l : NoDup (f <$> l) -> NoDup (f <$> filter P l).
Proof.
  induction l as [|a l IH]; [done|]. rewrite fmap_cons, filter_cons. intros [Ha Hn]%NoDup_cons. case_decide; [|by apply IH].
  rewrite fmap_cons. apply NoDup_cons. split; [|by apply IH]. intros (x & E & [_ Hx]%list_elem_of_filter)%list_elem_of_fmap.
  apply Ha. rewrite E. by apply list_elem_of_fmap_2.
Qed.

(** The newest rows of one profile are what its events record. *)
Lemma newest_rows i rows l :
  clear_consents l -> entry <$> rows_of i rows ≡ₚ l ->
  record (entry <$> rows_of i (distinct_on (GoMap.sort_by newest_first rows))) = record l.
Proof.
  intros [Hinc Hcol] Hl. set (k := distinct_on _).
  assert (Hs : StronglySorted (GoMap.in_order newest_first) (GoMap.sort_by newest_first rows))
    by (apply GoMap.sort_by_sorted; [apply newest_first_asym | apply newest_first_trans]).
  destruct (distinct_on_spec _ Hs) as [Hn Hmax]. fold k in Hn, Hmax.
  assert (Hin : forall r, r ∈ rows_of i rows <-> r ∈ rows /\ Identity.cr_ProfileID r = i)
    by (intros r; unfold rows_of; rewrite list_elem_of_filter; tauto).
  assert (Hsub : forall r, r ∈ rows_of i k -> r ∈ rows_of i rows).
  { intros r [Hp Hr]%list_elem_of_filter. apply Hin. split; [|done]. apply distinct_on_sub in Hr. by rewrite GoMap.sort_by_perm in Hr. }
  assert (Hentry : forall r, r ∈ rows_of i rows -> entry r ∈ l) by (intros r Hr; rewrite <- Hl; by apply list_elem_of_fmap_2).
  assert (Hgroup : forall r r', r ∈ rows_of i rows -> r' ∈ rows_of i rows -> consent_key r = consent_key r' -> group r = group r').
  { intros r r' Hr Hr' E. apply colon_inj in E as [Ec Et]; [|exact (Hcol _ (Hentry r Hr))|exact (Hcol _ (Hentry r' Hr'))].
    apply Hin in Hr as [_ Hr]. apply Hin in Hr' as [_ Hr']. unfold group. congruence. }
  apply map_eq. intros x. apply option_eq. intros v. rewrite (record_latest l Hinc), record_NoDup.
  - split.
    + intros (r & E & Hr)%list_elem_of_fmap. injection E as -> ->. split; [by apply Hentry, Hsub|]. intros v Hv.
      rewrite <- Hl in Hv. apply list_elem_of_fmap in Hv as (r' & E & Hr'). injection E as E ->.
      destruct (Hmax r') as (c & Hc & Eg & Ho); [rewrite GoMap.sort_by_perm; by apply Hin in Hr' as [? _]|].
      assert (c = r) as ->; [|exact Ho]. pose proof (Hgroup r r' (Hsub r Hr) Hr' E) as Eg'.
      apply (NoDup_fmap_inj group k); [done | done | by apply list_elem_of_filter in Hr as [_ Hr] | congruence].
    + intros [Hv Hv']. rewrite <- Hl in Hv. apply list_elem_of_fmap in Hv as (r & E & Hr). injection E as -> ->.
      destruct (Hmax r) as (c & Hc & Eg & Ho); [rewrite GoMap.sort_by_perm; by apply Hin in Hr as [? _]|].
      assert (Hci : c ∈ rows_of i k).
      { apply list_elem_of_filter. split; [|done]. apply Hin in Hr as [_ Hr]. injection Eg as -> _ _. done. }
      assert (Ek : entry c = (consent_key r, live_consent c)) by (unfold entry, consent_key; injection Eg as _ -> ->; done).
      assert (E : entry c = entry r).
      { pose proof (Hentry c (Hsub c Hci)) as Hce. apply (earlier_inj l); [done | done | by apply Hentry|].
        rewrite Ek in Hce. apply Hv' in Hce. simpl in *. lia. }
      change (consent_key r, live_consent r) with (entry r). rewrite <- E. by apply list_elem_of_fmap_2.
  - rewrite <- list_fmap_compose. apply (NoDup_finer _ group).
    + intros r r' Hr Hr' E. by apply Hgroup; [apply Hsub..|].
    + by apply NoDup_filtered.
Qed.

Lemma NULLIF_inj x y : Identity.NULLIF_empty x = Identity.NULLIF_empty y -> x = y.
Proof. unfold Identity.NULLIF_empty. destruct (x =s "") eqn:Ex, (y =s "") eqn:Ey; rewrite ?seqb_true in Ex, Ey; congruence. Qed.
Lemma names_inj k k' q : names k q -> names k' q -> k = k'.
Proof. destruct k, k'. intros [H1 H2] [H3 H4]. f_equal; apply NULLIF_inj; simpl in *; congruence. Qed.

(** *** [liveReplayState] *)

Section reading.
Context (profile_order : list Identity.Prof -> list Identity.Prof) (consent_order : list Identity.ConsentRow -> list Identity.ConsentRow).
Hypothesis (profile_perm : forall l, profile_order l ≡ₚ l) (consent_perm : forall l, consent_order l ≡ₚ l).

Lemma profileIndexes_spec rows : NoDup (Identity.pf_ID <$> rows) ->
  forall i j, profileIndexes rows !! i = Some j <-> exists q, rows !! j = Some q /\ Identity.pf_ID q = i.
Proof.
  unfold profileIndexes. induction rows as [|q rows IH] using rev_ind; intros Hn i j.
  { simpl. rewrite lookup_empty. split; [done|]. intros (q & Hq & _). by rewrite lookup_nil in Hq. }
  rewrite fmap_app in Hn. apply NoDup_app in Hn as (Hn & Hd & _). rewrite imap_app, fold_left_app. simpl. rewrite Nat.add_0_r.
  destruct (decide (Identity.pf_ID q = i)) as [<-|E].
  - rewrite lookup_insert_eq. split.
    + intros [= <-]. exists q. by rewrite lookup_app_r, Nat.sub_diag by lia.
    + intros (q' & Hq & E). apply lookup_app_Some in Hq as [Hq|[Hj Hq]].
      * exfalso. apply (Hd (Identity.pf_ID q)); [|by apply list_elem_of_singleton]. rewrite <- E. apply list_elem_of_fmap_2.
        by apply list_elem_of_lookup_2 in Hq.
      * destruct (j - length rows)%nat eqn:Ej; [|done]. f_equal. lia.
  - rewrite lookup_insert_ne, IH by done. split; intros (q' & Hq & E'); exists q'; (split; [|done]).
    + by apply lookup_app_l_Some.
    + apply lookup_app_Some in Hq as [Hq|[Hj Hq]]; [done|]. exfalso. destruct (j - length rows)%nat; [|done]. by injection Hq as ->.
Qed.

Lemma add_consents idx l s j :
  fold_left (add_consent idx) l s !! j =
  (fun p => set_consents (fold_left (fun m r => <[consent_key r := live_consent r]> m)
     (filter (fun r => idx !! Identity.cr_ProfileID r = Some j) l) (cp_Consents p)) p) <$> s !! j.
Proof.
  revert s. induction l as [|r l IH]; intros s; simpl; [destruct (s !! j) as [[]|]; done|].
  rewrite IH, filter_cons. unfold add_consent. destruct (idx !! Identity.cr_ProfileID r) as [i|] eqn:Ei; [|by rewrite decide_False].
  destruct (decide (i = j)) as [->|E].
  - rewrite decide_True, list_lookup_alter_eq by done. by destruct (s !! j).
  - rewrite decide_False, list_lookup_alter_ne by congruence. done.
Qed.

Lemma record_fold l (m : gmap string CanonicalConsent) : fold_left (fun m r => <[consent_key r := live_consent r]> m) l m = fold_left (fun m kv => <[kv.1 := kv.2]> m) (entry <$> l) m.
Proof. revert m. induction l as [|r l IH]; intros m; simpl; [done|]. apply IH. Qed.

Lemma rows_of_filter i p l : (forall r, r ∈ l -> Identity.cr_ProfileID r = i -> Identity.cr_TenantID r = p_TenantID p) ->
  rows_of i (filter (fun c => (Identity.cr_TenantID c =s p_TenantID p) = true) l) = rows_of i l.
Proof.
  unfold rows_of. induction l as [|r l IH]; intros Hl; [done|]. rewrite !filter_cons. specialize (IH ltac:(set_solver)).
  destruct (decide (Identity.cr_ProfileID r = i)) as [E|E].
  - rewrite decide_True by (apply seqb_true, Hl; [set_solver | done]). rewrite filter_cons, decide_True by done. by rewrite IH.
  - case_decide; [rewrite filter_cons, decide_False by done|]; exact IH.
Qed.

Lemma live_rows_NoDup p es d : tracked p es (pd_identity d) -> NoDup (Identity.pf_ID <$> live_rows profile_order p d).
Proof.
  intros Ht. unfold live_rows. rewrite profile_perm. apply NoDup_filtered. rewrite <- list_fmap_compose.
  rewrite (list_fmap_ext _ fst); [apply NoDup_fst_map_to_list|].
  intros x [i x'] Hx. apply list_elem_of_lookup_2, elem_of_map_to_list in Hx. by apply (tr_id p es _ Ht).
Qed.

(** The profile the state holds at the position of a row. *)
Lemma live_at p es d j q :
  tracked p es (pd_identity d) -> (forall k, is_key k -> clear_consents (consent_events (subject_events k es))) ->
  let rows := live_rows profile_order p d in
  rows !! j = Some q ->
  exists k c, is_key k /\ names k q /\ spec_profile es k = Some c /\
    fold_left (add_consent (profileIndexes rows)) (consent_rows consent_order p d) (live_profile <$> rows) !! j = Some c.
Proof.
  intros Ht Hcl rows Hq. set (d0 := pd_identity d) in *.
  assert (Hrow : forall x, x ∈ rows -> exists i, Identity.id_profiles d0 !! i = Some x /\ Identity.pf_ID x = i /\ Identity.in_app p x = true).
  { intros x Hx. unfold rows, live_rows in Hx. rewrite profile_perm in Hx. apply list_elem_of_filter in Hx as [Ha Hx].
    apply list_elem_of_fmap in Hx as ([i x'] & -> & Hx). apply elem_of_map_to_list in Hx. exists i. split; [done|].
    split; [by apply (tr_id p es d0 Ht i)|done]. }
  pose proof (live_rows_NoDup p es d Ht) as Hn. fold rows in Hn.
  destruct (Hrow q (list_elem_of_lookup_2 _ _ _ Hq)) as (i & Hi & Eid & Ha).
  destruct (tr_app p es d0 Ht i q Hi Ha) as (k & c & Hk & Hnm & Hs & Hat & Hco). exists k, c. split_and!; [done..|].
  rewrite add_consents, list_lookup_fmap, Hq. simpl. f_equal. rewrite record_fold.
  rewrite (list_filter_iff _ (fun r => Identity.cr_ProfileID r = i)).
  2: { intros r. rewrite profileIndexes_spec by done. split; [|intros ->; by exists q]. intros (q' & Hq' & <-). congruence. }
  fold (rows_of i (consent_rows consent_order p d)). fold (record (entry <$> rows_of i (consent_rows consent_order p d))).
  unfold consent_rows. fold d0. rewrite (newest_rows i _ (consent_events (subject_events k es))); [|by apply Hcl|].
  - rewrite <- (spec_consents es k c Hs). destruct Hnm as [Hx Hy]. pose proof (spec_key es k c Hs) as Hck.
    unfold live_profile, set_consents. simpl. rewrite Hx, Hy, Hat. destruct c as [cx ca m1 m2]. cbv [key_of] in Hck. simpl in Hck. subst k. simpl in *.
    unfold Identity.NULLIF_empty. f_equal; case_match eqn:E; try done; apply seqb_true in E; done.
  - rewrite <- Hco. apply Permutation_map. unfold rows_of. rewrite consent_perm. fold (rows_of i (Identity.id_consents d0)).
    rewrite <- (rows_of_filter i p (Identity.id_consents d0)); [done|]. intros r Hr Er. apply (tr_tenant p es d0 Ht r q); [done | by rewrite Er | done].
Qed.

(** The live state is the replayed one. *)
Lemma live_lists p es d :
  tracked p es (pd_identity d) -> (forall k, is_key k -> clear_consents (consent_events (subject_events k es))) ->
  exists s, lists es s /\ liveReplayState profile_order consent_order p d = Normalize s.
Proof.
  intros Ht Hcl. unfold liveReplayState. cbn zeta. eexists. split; [|reflexivity].
  set (rows := live_rows profile_order p d). set (s := fold_left _ _ _).
  assert (Hat : forall j q, rows !! j = Some q -> exists k c, is_key k /\ names k q /\ spec_profile es k = Some c /\ s !! j = Some c)
    by (intros j q Hq; by apply live_at).
  assert (Hrow : forall j c, s !! j = Some c -> exists q, rows !! j = Some q).
  { intros j c. unfold s. rewrite add_consents, list_lookup_fmap. destruct (rows !! j) as [q|]; [by exists q | done]. }
  assert (Hprof : forall q, q ∈ rows <-> exists i, Identity.id_profiles (pd_identity d) !! i = Some q /\ Identity.in_app p q = true).
  { intros q. unfold rows, live_rows. rewrite profile_perm, list_elem_of_filter, list_elem_of_fmap. split.
    - intros [Ha ([i x] & -> & Hx)]. exists i. by apply elem_of_map_to_list in Hx.
    - intros (i & Hi & Ha). split; [done|]. exists (i, q). by rewrite elem_of_map_to_list. }
  split.
  - apply NoDup_alt. intros i j k0. rewrite !list_lookup_fmap. intros (c & Hc & ->)%fmap_Some (c' & Hc' & E)%fmap_Some.
    destruct (Hrow i c Hc) as [q Hq], (Hrow j c' Hc') as [q' Hq'].
    destruct (Hat i q Hq) as (k & x & Hk & Hnm & Hs & Hx), (Hat j q' Hq') as (k' & x' & Hk' & Hnm' & Hs' & Hx').
    rewrite Hc in Hx. rewrite Hc' in Hx'. injection Hx as <-. injection Hx' as <-. apply spec_key in Hs, Hs'.
    assert (k' = k) as -> by congruence.
    destruct (proj1 (Hprof q) (list_elem_of_lookup_2 _ _ _ Hq)) as (a & Ha & Hap), (proj1 (Hprof q') (list_elem_of_lookup_2 _ _ _ Hq')) as (b & Hb & Hbp).
    assert (a = b) as -> by (by apply (tr_one p es _ Ht a b q q' k)). assert (q' = q) as -> by congruence.
    pose proof (NoDup_fmap_1 _ _ (live_rows_NoDup p es d Ht)) as Hn. by apply (NoDup_lookup _ i j q Hn).
  - intros c. rewrite list_elem_of_lookup. split.
    + intros [j Hc]. destruct (Hrow j c Hc) as [q Hq]. destruct (Hat j q Hq) as (k & x & Hk & _ & Hs & Hx).
      assert (x = c) as -> by congruence. by rewrite (spec_key es k c Hs).
    + intros [Hk Hs]. destruct (tr_all p es _ Ht _ _ Hk Hs) as (i & q & Hi & Ha & Hnm).
      assert (Hq : q ∈ rows) by (apply Hprof; by exists i). apply list_elem_of_lookup in Hq as [j Hq]. exists j.
      destruct (Hat j q Hq) as (k & x & Hk' & Hnm' & Hs' & Hx). rewrite Hx. f_equal.
      assert (k = key_of c) as -> by (by apply (names_inj k _ q)). congruence.
Qed.

End reading.
(** ** Projecting one event *)

(** What is replayed as it is projected: one identifier, no change of
    identities, and attributes whose numbers survive the projector's round trip
    through float64 and its JSON text (strconv's shortest decimals do). *)
Definition identity_types : list string :=
  ["privacy.deleted"; "identity.merge"; "identity.unmerge"; "identity.alias"; "message.bounced"; "message.complained"].
Record plain (p : Principal) (e : AcceptedEvent) : Prop := MkPlain {
  pl_key : is_key (subject e);
  pl_app : p_TenantID (ae_Principal e) = p_TenantID p /\ p_AppID (ae_Principal e) = p_AppID p;
  pl_type : mem (ae_Type e) identity_types = false;
  pl_numbers : forall l k v, Event.decode_attributes (ae_Payload e) = Ok (Some l) -> (k, v) ∈ l -> Any.decode (stored_value v) = Any.decode v
}.

Lemma plain_unmerged p e : plain p e -> unmerged e.
Proof.
  intros [Hk _ Ht _]. split; [done|]. split; intros E; by rewrite E in Ht.
Qed.

(** *** Statements that leave the identity tables alone *)

Definition quiet (d d' : PDB) : Prop :=
  Identity.id_profiles (pd_identity d') = Identity.id_profiles (pd_identity d) /\
  Identity.id_consents (pd_identity d') = Identity.id_consents (pd_identity d) /\
  Identity.id_aliases (pd_identity d') = Identity.id_aliases (pd_identity d) /\
  Identity.id_used (pd_identity d) ⊆ Identity.id_used (pd_identity d').
#[local] Instance quiet_preorder : PreOrder quiet.
Proof. split; [done|]. intros d1 d2 d3 (?&?&?&?) (?&?&?&?). repeat split; [congruence..|set_solver]. Qed.

Lemma quiet_gets {A} (f : PDB -> A) : respects quiet (gets f).
Proof. done. Qed.
Lemma quiet_modify f : (forall d, pd_identity (f d) = pd_identity d) -> respects quiet (modify f).
Proof. intros H d. unfold quiet. simpl. by rewrite H. Qed.
Lemma quiet_new_id : respects quiet (on_identity Identity.new_id).
Proof. intros d. unfold on_identity, Identity.new_id. repeat split; simpl; set_solver. Qed.

Ltac quiet := respects_with ltac:(first
  [ apply quiet_gets | apply quiet_new_id | apply quiet_modify; intros; repeat case_match; reflexivity ]).

Section project.
Context (uuid_ok : string -> bool) (before : Z -> string -> Z).

Lemma quiet_company e : respects quiet (project_company e).
Proof. unfold project_company, upsert_company, insert_member. cbn zeta. quiet. Qed.
Lemma quiet_inapp e s w f : respects quiet (update_inapp uuid_ok e s w f).
Proof. unfold update_inapp, strings. cbn zeta. quiet. Qed.
Lemma quiet_exposure e : respects quiet (project_exposure uuid_ok e).
Proof. unfold project_exposure, strings. cbn zeta. quiet. Qed.

Lemma quiet_type p e pid : plain p e -> ae_Type e <> "profile.updated" -> ae_Type e <> "consent.changed" ->
  respects quiet (project_type uuid_ok e pid).
Proof.
  intros [_ _ Ht _] Hp%seqb_false Hc%seqb_false. unfold project_type. rewrite Hp, Hc. cbn [mem existsb identity_types] in Ht.
  repeat apply orb_false_elim in Ht as [? Ht]. 
  repeat match goal with H : seqb _ _ = false |- _ => rewrite H; clear H end. cbn [orb].
  repeat case_match; first [apply quiet_company | apply quiet_inapp | apply quiet_exposure | apply respects_ret; apply _].
Qed.

(** *** The subject *)

Definition known (p : Principal) (e : AcceptedEvent) (pid : string) (d : Identity.IDB) : Prop :=
  exists q, Identity.id_profiles d !! pid = Some q /\ Identity.in_app p q = true /\ names (subject e) q.
(** A new row, of a subject no row names. *)
Definition created (p : Principal) (e : AcceptedEvent) (pid : string) (d d1 : Identity.IDB) : Prop :=
  pid ∉ Identity.id_used d /\
  (forall i q, Identity.id_profiles d !! i = Some q -> Identity.in_app p q = true -> ~ names (subject e) q) /\
  exists q, d1 = Identity.set_profiles (<[pid := q]> (Identity.id_profiles d)) (Identity.set_used ({[pid]} ∪ Identity.id_used d) d) /\
    Identity.pf_ID q = pid /\ Identity.in_app p q = true /\ names (subject e) q /\ Identity.pf_Attributes q = ∅.

Lemma in_app_owner p e q : plain p e -> Identity.in_app (ae_Principal e) q = Identity.in_app p q.
Proof. intros [_ [Et Ea] _ _]. unfold Identity.in_app. by rewrite Et, Ea. Qed.

Lemma resolve_none p es e d : tracked p es d -> plain p e -> Identity.resolveIdentity e d = (Ok "", d).
Proof.
  intros Ht [_ [Et Ea] _ _]. unfold Identity.resolveIdentity, Identity.gets. unfold_M.
  assert (E : forall keys seen, Identity.candidates (ae_Principal e) keys seen d = []).
  { induction keys as [|key keys IH]; intros seen; [done|]. simpl. unfold Identity.find_candidate, Identity.alias_of.
    rewrite Et, Ea, (tr_alias p es d Ht). apply IH. }
  by rewrite E.
Qed.

Lemma new_profile_Ok p ext anon d pid d1 : Identity.new_profile p ext anon d = (Ok pid, d1) ->
  pid ∉ Identity.id_used d /\
  d1 = Identity.set_profiles (<[pid := Identity.MkProf pid (p_TenantID p) (p_WorkspaceID p) (p_AppID p) ext anon ∅ 1 None (Identity.id_now d) (Identity.id_now d)]>
         (Identity.id_profiles d)) (Identity.set_used ({[pid]} ∪ Identity.id_used d) d).
Proof.
  unfold Identity.new_profile, Identity.new_id, Identity.gets, Identity.put_profile. unfold_M. cbn zeta.
  match goal with |- context [existsb ?f ?l] => destruct (existsb f l); [discriminate|] end.
  intros [= <- <-]. split; [apply is_fresh | done].
Qed.

Lemma find_row f d q : Identity.find_profile f d = Some q -> exists i, Identity.id_profiles d !! i = Some q /\ f q = true.
Proof.
  unfold Identity.find_profile. destruct (find_first _ _) as [[i x]|] eqn:E; [|done]. intros [= <-].
  apply find_first_Some in E as [E Hf]. exists i. by apply elem_of_map_to_list in E.
Qed.
Lemma find_no_row f d i q : Identity.find_profile f d = None -> Identity.id_profiles d !! i = Some q -> f q = false.
Proof.
  unfold Identity.find_profile. destruct (find_first _ _) as [[j x]|] eqn:E; [done|]. intros _ Hi.
  apply find_first_None in E. rewrite Forall_forall in E. apply (E (i, q)). by apply elem_of_map_to_list.
Qed.

Lemma same_some_eq a x : Identity.same_some a (Some x) = true <-> a = Some x.
Proof. destruct a; simpl; [rewrite seqb_true; split; congruence | done]. Qed.

(** A row with one of the subject's identifiers has no other. *)
Lemma names_row p es e d i q : tracked p es d -> is_key (subject e) -> Identity.id_profiles d !! i = Some q -> Identity.in_app p q = true ->
  (ae_ExternalID e <> "" /\ Identity.pf_ExternalID q = Some (ae_ExternalID e) \/
   ae_ExternalID e = "" /\ Identity.pf_AnonymousID q = Some (ae_AnonymousID e)) -> names (subject e) q.
Proof.
  intros Ht [Hk _] Hi Ha Hq. destruct (tr_app p es d Ht i q Hi Ha) as (k & c & [Hk' _] & [Hx Hy] & _).
  unfold names, subject in *. simpl in *. rewrite Hx, Hy in *. unfold Identity.NULLIF_empty in *.
  destruct k as [x y]. simpl in *. destruct (x =s "") eqn:Ex, (y =s "") eqn:Ey; rewrite ?seqb_true, ?seqb_false in Ex, Ey;
    destruct Hk as [[H1 H2]|[H1 H2]], Hq as [[H3 H4]|[H3 H4]]; try congruence; rewrite ?H1, ?H2, ?H4;
    rewrite ?(proj2 (seqb_true "" "") eq_refl), ?(proj2 (seqb_false _ _) H1), ?(proj2 (seqb_false _ _) H2); try naive_solver.
Qed.

Lemma subject_plain p es e d pid d1 : tracked p es d -> plain p e -> Identity.subject e d = (Ok pid, d1) ->
  d1 = d /\ known p e pid d \/ created p e pid d d1.
Proof.
  intros Ht Hp. unfold Identity.subject. rewrite (bindM_eq _ _ _ _ _ (resolve_none p es e d Ht Hp)). change ("" =s "") with true. cbv iota.
  pose proof (pl_key p e Hp) as Hkey. pose proof (pl_app p e Hp) as [Et Ea]. pose proof Hkey as [Hk _]. simpl in Hk.
  assert (Hnew : forall ext anon, Identity.new_profile (ae_Principal e) ext anon d = (Ok pid, d1) ->
    (forall i q, Identity.id_profiles d !! i = Some q -> Identity.in_app p q = true -> ~ names (subject e) q) ->
    ext = Identity.NULLIF_empty (ae_ExternalID e) -> anon = Identity.NULLIF_empty (ae_AnonymousID e) -> created p e pid d d1).
  { intros ext anon H Hno -> ->. apply new_profile_Ok in H as [Hf ->]. split; [done|]. split; [done|]. eexists. split; [reflexivity|].
    split; [done|]. split; [unfold Identity.in_app; simpl; by rewrite Et, Ea, !seqb_refl|]. done. }
  unfold Identity.ensureProfile. destruct (ae_ExternalID e =s "") eqn:Ex.
  - apply seqb_true in Ex. unfold Identity.upsert_anonymous, Identity.gets. unfold_M.
    destruct (Identity.find_profile _ d) as [q|] eqn:Ef.
    + intros [= <- <-]. left. split; [done|]. apply find_row in Ef as (i & Hi & Hf). apply andb_prop in Hf as [Ha Hs].
      rewrite (in_app_owner p e q Hp) in Ha. destruct (tr_id p es d Ht i q Hi) as [-> _]. exists q. split; [done|]. split; [done|].
      apply (names_row p es e d i q); auto. right. split; [done|]. by apply same_some_eq.
    + intros H. right. apply (Hnew _ _ H); [|by rewrite Ex | unfold Identity.NULLIF_empty; case_match eqn:E; [|done]; apply seqb_true in E; naive_solver].
      intros i q Hi Ha [_ Hy]. pose proof (find_no_row _ d i q Ef Hi) as Hf. unfold Identity.by_anonymous in Hf.
      rewrite (in_app_owner p e q Hp), Ha in Hf. simpl in Hf. apply not_true_iff_false in Hf. apply Hf. apply same_some_eq. rewrite Hy.
      simpl. unfold Identity.NULLIF_empty. case_match eqn:E; [|done]. apply seqb_true in E. naive_solver.
  - apply seqb_false in Ex. assert (Ey : ae_AnonymousID e = "") by naive_solver. rewrite Ey. change ("" =s "") with true. cbv iota.
    unfold_M. unfold Identity.upsert_external, Identity.gets. unfold_M. destruct (Identity.find_profile _ d) as [q|] eqn:Ef.
    + intros [= <- <-]. left. split; [done|]. apply find_row in Ef as (i & Hi & Hf). apply andb_prop in Hf as [Ha Hs].
      rewrite (in_app_owner p e q Hp) in Ha. destruct (tr_id p es d Ht i q Hi) as [-> _]. exists q. split; [done|]. split; [done|].
      apply (names_row p es e d i q); auto. left. split; [done|]. by apply same_some_eq.
    + intros H. right. apply (Hnew _ _ H); [|unfold Identity.NULLIF_empty; by rewrite (proj2 (seqb_false _ _) Ex) | by rewrite Ey].
      intros i q Hi Ha [Hx _]. pose proof (find_no_row _ d i q Ef Hi) as Hf. unfold Identity.by_external in Hf.
      rewrite (in_app_owner p e q Hp), Ha in Hf. simpl in Hf. apply not_true_iff_false in Hf. apply Hf. apply same_some_eq. rewrite Hx.
      simpl. unfold Identity.NULLIF_empty. by rewrite (proj2 (seqb_false _ _) Ex).
Qed.

(** *** The switch on the event's type *)

Lemma of_members_elem l k v : GoMap.of_members l !! k = Some v -> (k, v) ∈ l.
Proof.
  unfold GoMap.of_members. induction l as [|[k0 v0] l IH] using rev_ind; [simpl; by rewrite lookup_empty|]. rewrite fold_left_app. simpl.
  rewrite elem_of_app. destruct (decide (k0 = k)) as [->|E]; [|rewrite lookup_insert_ne by done; left; auto].
  rewrite lookup_insert_eq. intros [= ->]. right. apply list_elem_of_here.
Qed.

(** The projector decodes a consent with its evidence, the replay without. *)
Lemma consent_members l b b' :
  Json.members consent_fields l b = Some b' ->
  Json.members (Event.string_fields ["channel"; "topic"; "state"]) l [cn_Channel b; cn_Topic b; cn_State b] =
    Some [cn_Channel b'; cn_Topic b'; cn_State b'].
Proof.
  revert b. induction l as [|[k v] l IH]; intros b; simpl; [by intros [= ->]|].
  unfold Json.find_field. simpl. unfold Event.set_any_map, Json.set_string, Json.set_map.
  repeat case_match; simplify_eq; try done.
  all: intros Hm; try (by apply IH in Hm); try (destruct v; simpl in *; simplify_eq; by apply IH in Hm).
  all: try (match goal with H : ("evidence" =s ?k) = true, H' : (_ =s Json.fold_name ?k) = true |- _ =>
              apply seqb_true in H as <-; vm_compute in H'; discriminate H' end).
  all: simpl in *; simplify_eq; match goal with H : (if Any.decodes ?x then _ else _) = Some _ |- _ =>
         destruct (Any.decodes x) in H; [destruct x|]; simplify_eq; by apply IH in Hm end.
Qed.
Lemma consent_strings payload b :
  Json.Unmarshal consent_fields (MkConsentBody "" "" "" None) payload = Ok b ->
  Event.strings_of ["channel"; "topic"; "state"] payload = Ok [cn_Channel b; cn_Topic b; cn_State b].
Proof.
  unfold Event.strings_of, Json.Unmarshal. destruct (Json.parse payload) as [j|]; [|done]. simpl. unfold Json.decode_struct.
  destruct j as [| | | | |l]; try done; [by intros [= <-]|]. destruct (Json.members _ l _) as [b'|] eqn:E; [|done]. intros [= ->].
  apply consent_members in E. simpl in E. cbn [length replicate]. by rewrite E.
Qed.

Record effect (p : Principal) (e : AcceptedEvent) (pid : string) (q q' : Identity.Prof) (i0 i1 : Identity.IDB) : Prop := MkEffect {
  ef_profiles : Identity.id_profiles i1 = <[pid := q']> (Identity.id_profiles i0);
  ef_ids : Identity.pf_ID q' = Identity.pf_ID q /\ Identity.in_app p q' = Identity.in_app p q /\
    Identity.pf_ExternalID q' = Identity.pf_ExternalID q /\ Identity.pf_AnonymousID q' = Identity.pf_AnonymousID q;
  ef_attributes : forall c, cp_Attributes c = Any.decode <$> Identity.pf_Attributes q ->
    cp_Attributes (update_profile e c) = Any.decode <$> Identity.pf_Attributes q';
  ef_consents : exists rows, Identity.id_consents i1 = Identity.id_consents i0 ++ rows /\ entry <$> rows = consent_events [e] /\
    forall r, r ∈ rows -> Identity.cr_ProfileID r = pid /\ Identity.cr_TenantID r = p_TenantID p /\ Identity.cr_SourceEventID r = Some (ae_ID e);
  ef_aliases : Identity.id_aliases i1 = Identity.id_aliases i0;
  ef_used : Identity.id_used i0 ⊆ Identity.id_used i1
}.

(** A statement that leaves the tables alone, of an event that says nothing. *)
Lemma effect_quiet p e pid q d0 d1 : quiet d0 d1 -> Identity.id_profiles (pd_identity d0) !! pid = Some q ->
  ae_Type e <> "profile.updated" -> ae_Type e <> "consent.changed" -> effect p e pid q q (pd_identity d0) (pd_identity d1).
Proof.
  intros (Hp & Hc & Ha & Hu) Hq Hup%seqb_false Hco%seqb_false. split; try done.
  - by rewrite Hp, insert_id.
  - intros c Hx. unfold update_profile. by rewrite Hup, Hco.
  - exists []. rewrite app_nil_r. split; [done|]. split; [|intros r Hr; by apply elem_of_nil in Hr].
    unfold consent_events, consent_event. simpl. by rewrite Hco.
Qed.

Lemma put_profile_Ok q d d' : Identity.put_profile q d = (Ok tt, d') -> d' = Identity.set_profiles (<[Identity.pf_ID q := q]> (Identity.id_profiles d)) d.
Proof. unfold Identity.put_profile. case_match; [discriminate|]. by intros [= <-]. Qed.

Lemma effect_profile p e pid q d0 d1 : plain p e -> ae_Type e = "profile.updated" -> project_profile e pid d0 = (Ok tt, d1) ->
  Identity.id_profiles (pd_identity d0) !! pid = Some q -> Identity.pf_ID q = pid -> exists q', effect p e pid q q' (pd_identity d0) (pd_identity d1).
Proof.
  intros Hp Et H Hq Eid. unfold project_profile in H. destruct (Event.decode_attributes (ae_Payload e)) as [[l|]|] eqn:El; try discriminate.
  apply bindM_Ok in H as (now & d2 & [= <- <-] & H). unfold on_identity in H.
  destruct (Identity.update_profile _ _ _) as [r i1] eqn:Eu. injection H as -> <-.
  apply bindM_Ok in Eu as (row & d3 & [= <- <-] & Eu). simpl in Eu. rewrite Hq in Eu. apply put_profile_Ok in Eu as ->.
  eexists. split.
  - simpl. by rewrite Eid.
  - done.
  - intros c Hc. unfold update_profile. rewrite Et. simpl. unfold attributes_of. rewrite El, Hc, map_fmap_union. f_equal.
    rewrite <- map_fmap_compose. apply map_fmap_ext. intros k v Hv%of_members_elem. symmetry. by apply (pl_numbers p e Hp l k).
  - exists []. rewrite app_nil_r. split; [done|]. split; [|intros r Hr; by apply elem_of_nil in Hr].
    unfold consent_events, consent_event. simpl. by rewrite Et.
  - done.
  - simpl. done.
Qed.

Lemma quiet_suppressions e (b : bool) channel endpoint reason :
  respects quiet (if b then suppress e channel endpoint reason else unsuppress e channel endpoint reason).
Proof. unfold suppress, unsuppress. quiet. Qed.

Lemma insert_consent_new e pid channel topic state evidence d : (forall r, r ∈ Identity.id_consents d -> Identity.cr_SourceEventID r <> Some (ae_ID e)) ->
  let p := ae_Principal e in
  Identity.insert_consent e pid channel topic state evidence d = (Ok tt, Identity.set_consents (Identity.id_consents d ++
    [Identity.MkConsentRow (p_TenantID p) (p_WorkspaceID p) (p_AppID p) pid (Some (ae_ID e)) channel topic state (ae_OccurredAt e) evidence (Identity.id_now d)]) d).
Proof.
  intros Hnew p. unfold Identity.insert_consent, Identity.gets, Identity.modify. unfold_M. f_equal.
  destruct (existsb _ _) eqn:Ex; [|done]. exfalso. apply existsb_exists in Ex as (r & Hr & Hs). apply list_elem_of_In, Hnew in Hr. apply Hr.
  apply andb_prop in Hs as [Hs _]. apply andb_prop in Hs as [Hs _]. by apply same_some_eq in Hs.
Qed.

Lemma effect_consent p e pid q d0 d1 : plain p e -> ae_Type e = "consent.changed" -> project_consent e pid d0 = (Ok tt, d1) ->
  Identity.id_profiles (pd_identity d0) !! pid = Some q ->
  (forall r, r ∈ Identity.id_consents (pd_identity d0) -> Identity.cr_SourceEventID r <> Some (ae_ID e)) ->
  effect p e pid q q (pd_identity d0) (pd_identity d1).
Proof.
  intros Hp Et H Hq Hnew. unfold project_consent in H. apply bindM_Ok in H as (b & d2 & Eb & H). injection Eb as Eb <-. cbn zeta in H.
  destruct (_ || _) in H; [discriminate|]. apply bindM_Ok in H as ([] & d2 & E2 & H).
  unfold on_identity in E2. rewrite insert_consent_new in E2 by done. injection E2 as <-.
  apply bindM_Ok in H as (endpoint & d3 & [= <- <-] & H). set (d2 := set_identity _ d0) in H.
  set (endpoint_of := consent_endpoint _ _ _) in H.
  assert (Hd : quiet d2 d1).
  { destruct (endpoint_of =s ""); [unfold mret, M_ret in H; assert (d1 = d2) as -> by congruence; reflexivity|].
    apply (respects_Ok _ _ _ _ _ (quiet_suppressions _ _ _ _ _) H). }
  destruct Hd as (Hp' & Hc' & Ha' & Hu'). split.
  - rewrite Hp', insert_id; done.
  - done.
  - intros c Hx. unfold update_profile. rewrite Et. simpl. by destruct (consent_of e) as [[]|].
  - eexists. rewrite Hc'. split; [reflexivity|]. split.
    + unfold consent_events, consent_event, consent_of. simpl. rewrite Et. simpl. rewrite (consent_strings _ _ Eb). done.
    + intros r ->%list_elem_of_singleton. simpl. by destruct (pl_app p e Hp) as [-> _].
  - by rewrite Ha'.
  - done.
Qed.

Lemma type_effect p e pid q d0 d1 : plain p e -> project_type uuid_ok e pid d0 = (Ok tt, d1) ->
  Identity.id_profiles (pd_identity d0) !! pid = Some q -> Identity.pf_ID q = pid ->
  (forall r, r ∈ Identity.id_consents (pd_identity d0) -> Identity.cr_SourceEventID r <> Some (ae_ID e)) ->
  exists q', effect p e pid q q' (pd_identity d0) (pd_identity d1).
Proof.
  intros Hp H Hq Eid Hnew. destruct (decide (ae_Type e = "profile.updated")) as [Et|Ep].
  { unfold project_type in H. rewrite Et in H. simpl in H. by apply (effect_profile p e pid q d0 d1). }
  destruct (decide (ae_Type e = "consent.changed")) as [Et|Ec].
  { unfold project_type in H. rewrite Et in H. simpl in H. exists q. by apply effect_consent. }
  exists q. apply effect_quiet; [|done..]. by apply (respects_Ok quiet _ _ _ _ (quiet_type p e pid Hp Ep Ec) H).
Qed.

(** *** One event *)

(** The tables once the subject's row [q] is there. *)
Record prepared (p : Principal) (es : list AcceptedEvent) (e : AcceptedEvent) (pid : string) (q : Identity.Prof) (d i1 : Identity.IDB) : Prop := MkPrepared {
  pr_profiles : Identity.id_profiles i1 = <[pid := q]> (Identity.id_profiles d);
  pr_consents : Identity.id_consents i1 = Identity.id_consents d;
  pr_aliases : Identity.id_aliases i1 = Identity.id_aliases d;
  pr_used : Identity.id_used d ⊆ Identity.id_used i1 /\ pid ∈ Identity.id_used i1;
  pr_row : Identity.pf_ID q = pid /\ Identity.in_app p q = true /\ names (subject e) q;
  pr_attributes : Any.decode <$> Identity.pf_Attributes q = cp_Attributes (default (new_profile e) (spec_profile es (subject e)));
  pr_rows : entry <$> rows_of pid (Identity.id_consents d) = consent_events (subject_events (subject e) es);
  pr_one : forall i x, Identity.id_profiles d !! i = Some x -> Identity.in_app p x = true -> names (subject e) x -> i = pid;
  pr_old : forall x, Identity.id_profiles d !! pid = Some x -> x = q;
  pr_tenant : forall r, r ∈ Identity.id_consents d -> Identity.cr_ProfileID r = pid -> Identity.cr_TenantID r = p_TenantID p
}.

Lemma spec_none es k : spec_profile es k = None -> subject_events k es = [].
Proof.
  unfold spec_profile. destruct (subject_events k es) as [|x l] eqn:E using rev_ind; [done|]. rewrite fold_left_app. discriminate.
Qed.

Lemma prepare_known p es e pid d : tracked p es d -> plain p e -> known p e pid d -> exists q, prepared p es e pid q d d.
Proof.
  intros Ht Hp (q & Hq & Ha & Hn). exists q. destruct (tr_id p es d Ht pid q Hq) as [Hid Hu].
  destruct (tr_app p es d Ht pid q Hq Ha) as (k & c & Hk & Hnk & Hs & Hat & Hco).
  assert (k = subject e) as -> by (by apply (names_inj _ _ q)). split; try done.
  - by rewrite insert_id.
  - by rewrite Hs.
  - intros i x Hi Hax Hx. by apply (tr_one p es d Ht i pid x q (subject e)).
  - intros x Hx. congruence.
  - intros r Hr Er. apply (tr_tenant p es d Ht r q); [done | by rewrite Er | done].
Qed.

Lemma prepare_created p es e pid d d1 : tracked p es d -> plain p e -> created p e pid d d1 -> exists q, prepared p es e pid q d d1.
Proof.
  intros Ht Hp (Hf & Hno & q & -> & Hid & Ha & Hn & Hat). exists q.
  assert (Hs : spec_profile es (subject e) = None).
  { destruct (spec_profile es (subject e)) as [c|] eqn:Es; [|done]. exfalso.
    destruct (tr_all p es d Ht _ _ (pl_key p e Hp) Es) as (i & x & Hi & Hax & Hx). by apply (Hno i x). }
  split; try done.
  - simpl. set_solver.
  - rewrite Hat, Hs. apply fmap_empty.
  - rewrite (spec_none es _ Hs). destruct (rows_of pid (Identity.id_consents d)) as [|r l] eqn:E; [done|]. exfalso.
    assert (Hr : r ∈ rows_of pid (Identity.id_consents d)) by (rewrite E; apply list_elem_of_here).
    apply list_elem_of_filter in Hr as [Ep Hr]. apply Hf. rewrite <- Ep. by apply (tr_consent p es d Ht).
  - intros i x Hi Hax Hx. by destruct (Hno i x).
  - intros x Hx. by destruct (tr_id p es d Ht pid x Hx).
  - intros r Hr Er. exfalso. apply Hf. rewrite <- Er. by apply (tr_consent p es d Ht).
Qed.

Lemma rows_of_all i l : (forall r, r ∈ l -> Identity.cr_ProfileID r = i) -> rows_of i l = l.
Proof. unfold rows_of. induction l as [|r l IH]; intros Hl; [done|]. rewrite filter_cons, decide_True by set_solver. f_equal. set_solver. Qed.
Lemma rows_of_none i l : (forall r, r ∈ l -> Identity.cr_ProfileID r <> i) -> rows_of i l = [].
Proof. unfold rows_of. induction l as [|r l IH]; intros Hl; [done|]. rewrite filter_cons, decide_False by set_solver. set_solver. Qed.
Lemma rows_of_app i l k : rows_of i (l ++ k) = rows_of i l ++ rows_of i k.
Proof. apply filter_app. Qed.

Lemma names_other k q q' : Identity.pf_ExternalID q' = Identity.pf_ExternalID q -> Identity.pf_AnonymousID q' = Identity.pf_AnonymousID q ->
  names k q -> names k q'.
Proof. intros Hx Hy [H1 H2]. split; congruence. Qed.

Lemma tracked_extend p es e pid q q' d i1 d' : tracked p es d -> plain p e -> prepared p es e pid q d i1 -> effect p e pid q q' i1 d' ->
  tracked p (es ++ [e]) d'.
Proof.
  intros Ht Hp Hpr He. destruct (pr_row _ _ _ _ _ _ _ Hpr) as (Hid & Ha & Hn). destruct (ef_ids _ _ _ _ _ _ _ He) as (Hid' & Ha' & Hx & Hy).
  pose proof (names_other _ _ _ Hx Hy Hn) as Hn'. destruct (pr_used _ _ _ _ _ _ _ Hpr) as [Hu Hpu]. pose proof (ef_used _ _ _ _ _ _ _ He) as Hu'.
  destruct (ef_consents _ _ _ _ _ _ _ He) as (rows & Hc & Her & Hrows). rewrite (pr_consents _ _ _ _ _ _ _ Hpr) in Hc.
  assert (Hprof : Identity.id_profiles d' = <[pid := q']> (Identity.id_profiles d)).
  { by rewrite (ef_profiles _ _ _ _ _ _ _ He), (pr_profiles _ _ _ _ _ _ _ Hpr), insert_insert_eq. }
  assert (Hone : forall i x k, Identity.id_profiles d !! i = Some x -> Identity.in_app p x = true -> names k x -> i <> pid -> k <> subject e).
  { intros i x k Hi Hax Hnx Hne ->. by apply Hne, (pr_one _ _ _ _ _ _ _ Hpr i x). }
  split; rewrite ?Hprof, ?Hc.
  - intros i x [[<- <-]|[Hne Hi]]%lookup_insert_Some; [by split; [congruence | apply Hu']|]. destruct (tr_id p es d Ht i x Hi). set_solver.
  - intros i x [[<- <-]|[Hne Hi]]%lookup_insert_Some Hax.
    + exists (subject e). eexists. split; [apply Hp|]. split; [done|]. rewrite spec_snoc, decide_True by done. split; [reflexivity|].
      split; [symmetry; apply (ef_attributes _ _ _ _ _ _ _ He); symmetry; apply (pr_attributes _ _ _ _ _ _ _ Hpr)|].
      rewrite subject_events_snoc, decide_True by done. unfold consent_events in *. rewrite omap_app, rows_of_app, fmap_app.
      f_equal; [apply (pr_rows _ _ _ _ _ _ _ Hpr)|]. rewrite rows_of_all by (intros r Hr; by apply Hrows). exact Her.
    + destruct (tr_app p es d Ht i x Hi Hax) as (k & c & Hk & Hnk & Hs & Hat & Hco). exists k, c.
      assert (Hke : subject e <> k) by (intros E; by apply (Hone i x k Hi Hax Hnk (not_eq_sym Hne))).
      rewrite spec_snoc, subject_events_snoc, !decide_False by done. split_and!; [done..|].
      rewrite rows_of_app, (rows_of_none i rows), app_nil_r; [exact Hco|]. intros r Hr E. apply Hrows in Hr as [E' _]. congruence.
  - intros k c Hk. rewrite spec_snoc. case_decide as E.
    + intros _. exists pid, q'. rewrite lookup_insert_eq. rewrite <- E. split_and!; [done | congruence | done].
    + intros Hs. destruct (tr_all p es d Ht k c Hk Hs) as (i & x & Hi & Hax & Hnx). exists i, x. split_and!; [|done..].
      rewrite lookup_insert_ne; [done|]. intros <-. apply (pr_old _ _ _ _ _ _ _ Hpr) in Hi as ->. apply E. by apply (names_inj _ _ q).
  - assert (Hsame : forall i x k, Identity.id_profiles d !! i = Some x -> Identity.in_app p x = true -> names k x -> names k q' -> i = pid).
    { intros i x k Hi Hax Hnx Hnq. assert (k = subject e) as -> by (by apply (names_inj _ _ q')). by apply (pr_one _ _ _ _ _ _ _ Hpr i x). }
    intros i j x y k [[<- <-]|[Hi Hxi]]%lookup_insert_Some [[<- <-]|[Hj Hyj]]%lookup_insert_Some Hax Hay Hk Hnx Hny; [done| | |].
    + symmetry. by apply (Hsame j y k).
    + by apply (Hsame i x k).
    + by apply (tr_one p es d Ht i j x y k).
  - intros n v. rewrite (ef_aliases _ _ _ _ _ _ _ He), (pr_aliases _ _ _ _ _ _ _ Hpr). apply (tr_alias p es d Ht).
  - intros r [Hr|Hr]%elem_of_app; [by apply Hu', Hu, (tr_consent p es d Ht)|]. apply Hrows in Hr as [-> _]. by apply Hu'.
  - intros r x [Hr|Hr]%elem_of_app Hi Hax; [|by apply Hrows].
    apply lookup_insert_Some in Hi as [[Er <-]|[Hne Hi]]; [by apply (pr_tenant _ _ _ _ _ _ _ Hpr)|]. by apply (tr_tenant p es d Ht r x).
Qed.

Lemma tracked_tables p es d i : Identity.id_profiles i = Identity.id_profiles d -> Identity.id_consents i = Identity.id_consents d ->
  Identity.id_aliases i = Identity.id_aliases d -> Identity.id_used d ⊆ Identity.id_used i -> tracked p es d -> tracked p es i.
Proof.
  intros Hp Hc Ha Hu [H1 H2 H3 H4 H5 H6 H7]. split; rewrite ?Hp, ?Hc, ?Ha; try done.
  - intros j q Hj. destruct (H1 j q Hj). set_solver.
  - intros r Hr. by apply Hu, H6.
Qed.

Lemma project_tracked p es e d d' : tracked p es (pd_identity d) -> plain p e ->
  (forall r, r ∈ Identity.id_consents (pd_identity d) -> Identity.cr_SourceEventID r <> Some (ae_ID e)) ->
  ProjectEvent uuid_ok before e d = (Ok tt, d') ->
  tracked p (es ++ [e]) (pd_identity d') /\
  forall r, r ∈ Identity.id_consents (pd_identity d') -> r ∈ Identity.id_consents (pd_identity d) \/ Identity.cr_SourceEventID r = Some (ae_ID e).
Proof.
  intros Ht Hp Hnew H. destruct (Suppression.ProjectEvent_Ok uuid_ok before e d d' H) as (pid & d0 & d1 & E0 & E1 & [E2 _]). rewrite E2.
  assert (Hsub : mem (ae_Type e) subjectless = false).
  { pose proof (pl_type p e Hp) as Ht'. unfold mem, identity_types, subjectless in *. simpl in *.
    repeat match goal with H : (_ || _) = false |- _ => apply orb_false_elim in H as [? H] end.
    repeat match goal with H : (_ =s _) = false |- _ => rewrite H; clear H end. done. }
  rewrite Hsub in E0. unfold on_identity in E0. destruct (Identity.subject e (identity_part d)) as [r i1] eqn:Es. injection E0 as -> <-.
  assert (Ht0 : tracked p es (identity_part d)) by (by apply (tracked_tables p es (pd_identity d))).
  assert (Hpr : exists q, prepared p es e pid q (identity_part d) i1).
  { destruct (subject_plain p es e _ pid i1 Ht0 Hp Es) as [[-> Hk]|Hk]; [by apply prepare_known | by apply prepare_created]. }
  destruct Hpr as [q Hpr]. destruct (pr_row _ _ _ _ _ _ _ Hpr) as (Hid & _).
  destruct (type_effect p e pid q (set_identity i1 d) d1 Hp E1) as [q' He].
  - simpl. by rewrite (pr_profiles _ _ _ _ _ _ _ Hpr), lookup_insert_eq.
  - done.
  - simpl. by rewrite (pr_consents _ _ _ _ _ _ _ Hpr).
  - split; [by apply (tracked_extend p es e pid q q' (identity_part d) i1)|]. intros r Hr.
    destruct (ef_consents _ _ _ _ _ _ _ He) as (rows & Hc & _ & Hrows). simpl in Hc. rewrite Hc, (pr_consents _ _ _ _ _ _ _ Hpr) in Hr.
    apply elem_of_app in Hr as [Hr|Hr]; [by left | right; by apply Hrows].
Qed.

(** ** A run of the projector

    Between two projections anything may happen that leaves the identity tables
    alone: events are accepted, time passes, journeys advance. *)
Inductive projects : PDB -> list AcceptedEvent -> PDB -> Prop :=
  | projects_nil d : projects d [] d
  | projects_other d d1 es d' : pd_identity d1 = pd_identity d -> projects d1 es d' -> projects d es d'
  | projects_event d e es d1 d' : ProjectEvent uuid_ok before e d = (Ok tt, d1) -> projects d1 es d' -> projects d (e :: es) d'.

(** The log of an app: each event once, [plain], its channels without a colon
    and no two consents of a subject at one instant. *)
Record replayable (p : Principal) (es : list AcceptedEvent) : Prop := MkReplayable {
  rp_ids : NoDup (ae_ID <$> es);
  rp_plain : Forall (plain p) es;
  rp_channels : forall kv, kv ∈ consent_events es -> colon_free (ck_Channel kv.2) = true;
  rp_instants : forall k, NoDup ((fun kv => ck_OccurredAt kv.2) <$> consent_events (subject_events k es))
}.
(** Tables that know nothing of the app yet, nor of these events. *)
Record unseen (p : Principal) (es : list AcceptedEvent) (d : Identity.IDB) : Prop := MkUnseen {
  un_wf : wf d;
  un_app : forall i q, Identity.id_profiles d !! i = Some q -> Identity.in_app p q = false;
  un_events : forall r e, r ∈ Identity.id_consents d -> e ∈ es -> Identity.cr_SourceEventID r <> Some (ae_ID e)
}.

Lemma unseen_tracked p es d : unseen p es d -> tracked p [] d.
Proof.
  intros [Hw Happ _]. split.
  - intros i q Hi. by destruct (wf_id d Hw i q Hi).
  - intros i q Hi Ha. by rewrite (Happ i q Hi) in Ha.
  - discriminate.
  - intros i j q q' k Hi _ Ha. by rewrite (Happ i q Hi) in Ha.
  - intros n v. destruct (Identity.id_aliases d !! _) as [row|] eqn:E; [|done]. exfalso.
    destruct (wf_alias d Hw _ _ _ _ _ E) as (q & Hq & Et & Ea). pose proof (Happ _ q Hq) as Hf. unfold Identity.in_app in Hf.
    by rewrite Et, Ea, !seqb_refl in Hf.
  - intros r Hr. destruct (wf_consent d Hw r Hr) as (q & Hq & _). by destruct (wf_id d Hw _ q Hq).
  - intros r q _ Hq Ha. by rewrite (Happ _ q Hq) in Ha.
Qed.

Lemma projects_tracked p es d d' : projects d es d' -> forall past, tracked p past (pd_identity d) -> Forall (plain p) es ->
  NoDup (ae_ID <$> es) -> (forall r e, r ∈ Identity.id_consents (pd_identity d) -> e ∈ es -> Identity.cr_SourceEventID r <> Some (ae_ID e)) ->
  tracked p (past ++ es) (pd_identity d').
Proof.
  induction 1 as [d|d d1 es d' E _ IH|d e es d1 d' E _ IH]; intros past Ht Hp Hn Hnew.
  - by rewrite app_nil_r.
  - rewrite <- E in *. by apply IH.
  - apply Forall_cons in Hp as [He Hp]. rewrite fmap_cons in Hn. apply NoDup_cons in Hn as [Hi Hn].
    destruct (project_tracked p past e d d1 Ht He) as [Ht1 Hc]; [intros r Hr; apply Hnew; set_solver | done|].
    replace (past ++ e :: es) with ((past ++ [e]) ++ es) by (by rewrite <- app_assoc). apply IH; [done..|].
    intros r x Hr Hx. destruct (Hc r Hr) as [Hr'|Hr']; [apply Hnew; set_solver|]. rewrite Hr'. intros [= Ex]. apply Hi. rewrite Ex.
    by apply list_elem_of_fmap_2.
Qed.

(** *** The order of the log *)

Lemma event_less_asym a b : event_less a b = true -> event_less b a = false.
Proof. unfold event_less. pose proof (GoMap.str_less_asym (ae_ID a) (ae_ID b)). repeat case_match; try lia; auto. Qed.
Lemma event_less_trans a b c : event_less b a = false -> event_less c b = false -> event_less c a = false.
Proof. unfold event_less. pose proof (GoMap.str_less_trans (ae_ID a) (ae_ID b) (ae_ID c)). repeat case_match; try lia; auto. Qed.
Lemma event_less_time a b : event_less b a = false -> ae_OccurredAt a <= ae_OccurredAt b.
Proof. unfold event_less. repeat case_match; lia. Qed.

Lemma StronglySorted_filter {A} (R : A -> A -> Prop) (P : A -> Prop) `{!forall x, Decision (P x)} l : StronglySorted R l -> StronglySorted R (filter P l).
Proof.
  induction 1 as [|a l Hl IH Ha]; [constructor|]. rewrite filter_cons. case_decide; [|done]. constructor; [done|].
  rewrite Forall_forall in *. intros x [_ Hx]%list_elem_of_filter. by apply Ha.
Qed.

Lemma consent_event_time e kv : consent_event e = Some kv -> ck_OccurredAt kv.2 = ae_OccurredAt e.
Proof. unfold consent_event, consent_of. repeat case_match; intros; simplify_eq; done. Qed.

Lemma sorted_earlier l : StronglySorted (GoMap.in_order event_less) l -> NoDup ((fun kv => ck_OccurredAt kv.2) <$> consent_events l) ->
  StronglySorted earlier (consent_events l).
Proof.
  unfold consent_events. induction 1 as [|e l Hl IH He]; simpl; [constructor|]. destruct (consent_event e) as [kv|] eqn:E; [|done].
  rewrite fmap_cons. intros [Hk Hn]%NoDup_cons. constructor; [by apply IH|]. rewrite Forall_forall. intros x Hx.
  assert (Hne : ck_OccurredAt kv.2 <> ck_OccurredAt x.2).
  { intros Ex. apply Hk. rewrite Ex. by apply (list_elem_of_fmap_2 (fun kv : string * CanonicalConsent => ck_OccurredAt kv.2)). }
  apply list_elem_of_omap in Hx as (e' & He' & Ex). rewrite Forall_forall in He. specialize (He e' He'). apply event_less_time in He.
  unfold earlier. rewrite (consent_event_time _ _ E), (consent_event_time _ _ Ex) in *. lia.
Qed.

(** *** The report *)

Lemma lists_same es es' s : (forall k, subject_events k es = subject_events k es') -> lists es s -> lists es' s.
Proof. intros H [Hn Hs]. split; [done|]. intros c. rewrite Hs. by rewrite (spec_filter es es' (key_of c) (H _)). Qed.

Lemma consents_subject k es kv : kv ∈ consent_events (subject_events k es) -> kv ∈ consent_events es.
Proof. unfold consent_events. rewrite !list_elem_of_omap. intros (e & [_ He]%list_elem_of_filter & E). by exists e. Qed.

Lemma log_plain p es log : Forall (plain p) es -> (forall k, subject_events k log = subject_events k es) -> Forall unmerged log.
Proof.
  intros Hp Hlog. rewrite Forall_forall in *. intros e He. apply (plain_unmerged p), Hp.
  assert (H : e ∈ subject_events (subject e) log) by (by apply list_elem_of_filter). rewrite Hlog in H. by apply list_elem_of_filter in H as [_ H].
Qed.

Definition subjects (es : list AcceptedEvent) : gset (string * string) := list_to_set (subject <$> es).
Lemma lists_count es s : Forall unmerged es -> lists es s -> length s = size (subjects es).
Proof.
  intros Hes [Hn Hs]. rewrite <- (length_fmap key_of), <- (size_list_to_set (C := gset (string * string))) by done. f_equal. apply set_eq. intros k.
  unfold subjects. rewrite !elem_of_list_to_set, !list_elem_of_fmap. split.
  - intros (c & -> & Hc). apply Hs in Hc as [_ Hc]. destruct (subject_events (key_of c) es) as [|e l] eqn:E.
    { unfold spec_profile in Hc. by rewrite E in Hc. }
    assert (He : e ∈ subject_events (key_of c) es) by (rewrite E; apply list_elem_of_here). apply list_elem_of_filter in He as [He' He]. by exists e.
  - intros (e & -> & He). destruct (spec_profile es (subject e)) as [c|] eqn:Ec.
    + exists c. pose proof (spec_key _ _ _ Ec) as Hk. split; [done|]. apply Hs. rewrite Hk. split; [|done]. rewrite Forall_forall in Hes. by apply Hes.
    + apply spec_none in Ec. exfalso. assert (H : e ∈ subject_events (subject e) es) by (by apply list_elem_of_filter).
      rewrite Ec in H. by apply elem_of_nil in H.
Qed.

End project.

(** C28: The two implementations of the profile projection agree on plain
    logs.  Let the tables know no profile of an app and no consent of its
    events ([unseen]), and let the projector project a list of events without
    an error, while whatever else happens leaves the identity tables alone.
    If each event is there once, belongs to the app, carries exactly one
    identifier (an external or an anonymous id), is no privacy.deleted,
    identity.merge, identity.unmerge, identity.alias, message.bounced or
    message.complained, and has attributes whose numbers survive float64
    ([plain]); if no consent names a channel with a colon and no two consents
    of a subject are at one instant ([replayable]); and if the log, which is
    read by occurred_at, has each subject's events in the order in which they
    were projected (subjects interleaved at will): then VerifyReplay answers
    that the replay of the log matches the live tables, with as many profiles
    as the log has subjects, in whatever order PostgreSQL returns the rows.
    Merges, bounces, a second identifier and late events do break the match
    ([intact_logs_refused]). *)
Theorem replay_matches_live uuid_ok before time_text profile_order consent_order p es d0 d :
  (forall l, profile_order l ≡ₚ l) -> (forall l, consent_order l ≡ₚ l) ->
  unseen p es (pd_identity d0) -> replayable p es -> projects uuid_ok before d0 es d ->
  (forall k, subject_events k (event_log p d) = subject_events k es) ->
  exists r, VerifyReplay time_text profile_order consent_order p d = (Ok r, d) /\ rr_Match r = true /\
    rr_EventCount r = Z.of_nat (length (event_log p d)) /\ rr_ProfileCount r = Z.of_nat (size (subjects (event_log p d))).
Proof.
  intros Hpo Hco Hun [Hids Hpl Hch Hins] Hrun Hlog. set (log := event_log p d) in *.
  assert (Ht : tracked p es (pd_identity d)).
  { apply (projects_tracked uuid_ok before p es d0 d Hrun []); [by apply (unseen_tracked p es) | done..|]. apply (un_events _ _ _ Hun). }
  assert (Hum : Forall unmerged log) by (by apply (log_plain p es)).
  destruct (live_lists profile_order consent_order Hpo Hco p es d Ht) as (s & Hs & El).
  { intros k _. split; [|intros kv Hkv; by apply Hch, (consents_subject k)]. rewrite <- Hlog. apply sorted_earlier; [|by rewrite Hlog].
    apply StronglySorted_filter, GoMap.sort_by_sorted; [apply event_less_asym | apply event_less_trans]. }
  destruct (Build_subjects log Hum) as (s' & Hs' & Eb).
  assert (E : liveReplayState profile_order consent_order p d = Build log).
  { rewrite El, Eb. apply (lists_unique log); [|done]. by apply (lists_same es). }
  eexists. split; [unfold VerifyReplay, gets, mbind, M_bind, mret, M_ret; cbv beta zeta; reflexivity|]. cbn [rr_Match rr_EventCount rr_ProfileCount]. fold log. rewrite E. split; [apply seqb_refl|]. split; [done|].
  f_equal. rewrite Eb. unfold Normalize. rewrite GoMap.sort_by_perm. by apply lists_count.
Qed.

End ReplayLive.

(** * Replay verification: witnesses and hazards

    A concrete log that verifies, and the logs that do not although nothing was
    tampered with: a stitched profile, a device seen late, an event that arrives
    late, a bounce.  Conversely a consent whose instant has no JSON text makes
    every state verify, and a merge can leave a pointer to a dropped profile. *)

Module ReplayWorld.
Import Projector Replay ReplaySpec ReplayLive.

(** ** A world *)

Definition uuid (s : string) : bool := true.
Definition before (t : Z) (w : string) : Z := t.
Definition in_order {A} (l : list A) : list A := l.
(** Instants from the epoch on have a text. *)
Definition text_of (t : Z) : option string := if 0 <=? t then Some (GoStr.of_Z t) else None.

Definition principal : Principal := MkPrincipal "tenant" "workspace" "app" "" "" "" [].
Definition event (id kind external anonymous : string) (at_ : Z) (payload : json) : AcceptedEvent :=
  MkAcceptedEvent id principal kind 1 external anonymous id at_ at_ "api" "" "" "" "" "internal" (Raw (JObject [])) (Raw payload).
Definition updated (id external anonymous : string) (at_ : Z) (attributes : list (string * json)) : AcceptedEvent :=
  event id "profile.updated" external anonymous at_ (JObject [("attributes", JObject attributes)]).
Definition consented (id external : string) (at_ : Z) (state : string) : AcceptedEvent :=
  event id "consent.changed" external "" at_ (JObject [("channel", JString "EMAIL"); ("state", JString state)]).

Definition accepted (l : list AcceptedEvent) : gmap string AcceptedEvent := list_to_map ((fun e => (ae_ID e, e)) <$> l).
Definition nobody : Identity.IDB := Identity.MkIDB ∅ [] ∅ ∅ [] (Some ∅) ∅ 0.
Definition world (l : list AcceptedEvent) : PDB :=
  MkPDB nobody
    (Ingest.MkQDB (accepted l) ∅ 0 [] ∅ ∅ [] [] [] (Audit.MkADB [] ∅ 0) ∅ ∅ 0) (JDB.MkDB ∅ ∅ ∅ ∅ [] ∅ ∅ ∅ 0) ∅ ∅ ∅ ∅ ∅ ∅ [] ∅ [] [] 0.
(** The database after the projections, when they all commit. *)
Fixpoint run (l : list AcceptedEvent) (d : PDB) : option PDB :=
  match l with
  | [] => Some d
  | e :: l' => match ProjectEvent uuid before e d with (Ok _, d') => run l' d' | (Err _, _) => None end
  end.
Definition report (d : PDB) : option ReplayReport :=
  match VerifyReplay text_of in_order in_order principal d with (Ok r, _) => Some r | (Err _, _) => None end.
(** Whether the projections of [l] verify against the log [log]. *)
Definition verifies (log l : list AcceptedEvent) : option bool := d ← run l (world log); r ← report d; Some (rr_Match r).

Lemma run_projects l d d' : run l d = Some d' -> projects uuid before d l d'.
Proof.
  revert d. induction l as [|e l IH]; intros d; simpl; [intros [= <-]; constructor|].
  destruct (ProjectEvent uuid before e d) as [[[]|] d1] eqn:E; [|done]. intros H. apply (projects_event _ _ _ _ _ d1); [exact E | by apply IH].
Qed.

(** ** A log that verifies *)

Definition intact : list AcceptedEvent :=
  [updated "e1" "ada" "" 1 [("plan", JString "pro"); ("visits", JNumber "1.50")]; consented "e2" "ada" 2 "subscribed";
   updated "e3" "" "browser" 3 [("plan", JString "free")]; consented "e4" "ada" 4 "unsubscribed"].

Definition intact_after : PDB := default (world intact) (run intact (world intact)).

Lemma intact_plain : Forall (plain principal) intact.
Proof.
  repeat constructor; simpl; try done; try (left; done); try (right; done);
    intros l k v H; vm_compute in H; try discriminate; injection H as <-; intros Hin;
    repeat (apply elem_of_cons in Hin as [[= -> ->]|Hin]; [vm_compute; reflexivity|]); by apply elem_of_nil in Hin.
Qed.

Lemma nobody_unseen es : unseen principal es nobody.
Proof.
  assert (Hp : forall i q, Identity.id_profiles nobody !! i = Some q -> False) by (intros i q Hi; unfold nobody in Hi; simpl in Hi; by rewrite lookup_empty in Hi).
  assert (Hc : forall c, c ∈ Identity.id_consents nobody -> False) by (intros c H; by apply elem_of_nil in H).
  split; [split| |].
  - intros i q Hi. destruct (Hp i q Hi).
  - intros i j q q' Hi. destruct (Hp i q Hi).
  - intros t a n v row H. unfold nobody in H. simpl in H. by rewrite lookup_empty in H.
  - intros c H. destruct (Hc c H).
  - intros c c' e H. destruct (Hc c H).
  - intros m H. by apply elem_of_nil in H.
  - intros i q Hi. destruct (Hp i q Hi).
  - intros r e Hr. destruct (Hc r Hr).
Qed.

Lemma replay_matches_live_witness :
  exists r, VerifyReplay text_of in_order in_order principal intact_after = (Ok r, intact_after) /\ rr_Match r = true /\
    rr_EventCount r = 4 /\ rr_ProfileCount r = 2.
Proof.
  assert (Hrun : run intact (world intact) = Some intact_after) by (vm_compute; reflexivity).
  assert (Hlog : event_log principal intact_after = intact) by (vm_compute; reflexivity).
  destruct (replay_matches_live uuid before text_of in_order in_order principal intact (world intact) intact_after) as (r & E & Hm & He & Hp).
  - reflexivity.
  - reflexivity.
  - apply nobody_unseen.
  - split.
    + refine (bool_decide_eq_true_1 _ _); vm_compute; reflexivity.
    + apply intact_plain.
    + assert (H : forallb (fun kv => colon_free (ck_Channel kv.2)) (consent_events intact) = true) by (vm_compute; reflexivity).
      rewrite forallb_forall in H. intros kv Hkv. by apply H, list_elem_of_In.
    + intros k. unfold subject_events, intact. rewrite !filter_cons. repeat case_decide; refine (bool_decide_eq_true_1 _ _); vm_compute; reflexivity.
  - by apply run_projects.
  - intros k. by rewrite Hlog.
  - exists r. rewrite Hlog in He, Hp. by split_and!.
Defined.

(** ** Logs that are intact and do not verify *)

(** The projector keeps the row of a profile it merged into another; the
    reading of the live state takes it for a profile. *)
Definition merged : list AcceptedEvent :=
  [updated "e1" "ada" "" 1 [("plan", JString "pro")]; updated "e2" "bob" "" 2 [("plan", JString "free")];
   event "e3" "identity.merge" "ada" "" 3 (JObject [("source_external_id", JString "bob")])].
(** A profile known by its external id is seen on a device: the replay records
    the anonymous id, the projector does not. *)
Definition new_device : list AcceptedEvent :=
  [updated "e1" "ada" "" 1 [("plan", JString "pro")]; updated "e2" "ada" "browser" 2 [("visits", JNumber "2")]].
(** A bounce: the replay makes a profile for its subject, the projector none. *)
Definition bounced : list AcceptedEvent :=
  [event "e1" "message.bounced" "ada" "" 1 (JObject [("campaign_id", JString "c"); ("endpoint", JString "ada@example.com")])].
(** An event that arrives after a later one is projected last and replayed first. *)
Definition late : list AcceptedEvent :=
  [updated "e1" "ada" "" 2 [("plan", JString "pro")]; updated "e2" "ada" "" 1 [("plan", JString "free")]].

(** A log nobody touched is refused: four histories whose every event projects without an error report a mismatch -- after an identity.merge (the projector's row of the merged profile stays and is read as a profile), when a known profile is first seen with an anonymous id (only the replay records it), after a bounce (only the replay makes a profile of its subject) and when an event arrives after a later one of its subject (the replay orders by occurred_at, the projector by arrival; the same two events projected in order verify). *)
Theorem intact_logs_refused :
  (forall l, l ∈ [merged; new_device; bounced; late] ->
     exists d r, projects uuid before (world l) l d /\ VerifyReplay text_of in_order in_order principal d = (Ok r, d) /\ rr_Match r = false) /\
  verifies late (rev late) = Some true.
Proof.
  split; [|vm_compute; reflexivity]. intros l Hl.
  assert (Hv : verifies l l = Some false).
  { repeat (apply elem_of_cons in Hl as [->|Hl]; [vm_compute; reflexivity|]). by apply elem_of_nil in Hl. }
  unfold verifies in Hv. destruct (run l (world l)) as [d|] eqn:Er; [|done]. exists d. cbn [mbind option_bind] in Hv.
  unfold report, VerifyReplay, gets, mbind, M_bind, mret, M_ret, option_bind in *. eexists. split; [by apply run_projects|].
  split; [reflexivity|]. by injection Hv.
Qed.

(** ** A state that every state matches *)

Section unreadable.
Context (time_text : Z -> option string).

(** A profile with a consent whose instant has no JSON text. *)
Definition unreadable (p : CanonicalProfile) : Prop := exists k c, cp_Consents p !! k = Some c /\ time_text (ck_OccurredAt c) = None.

Lemma map_opt_None {A B} (f : A -> option B) l x : x ∈ l -> f x = None -> Json.map_opt f l = None.
Proof.
  induction l as [|y l IH]; [intros H; by apply elem_of_nil in H|]. simpl. intros [->|Hx]%elem_of_cons Hf; [by rewrite Hf|].
  rewrite (IH Hx Hf). by destruct (f y).
Qed.

Lemma unreadable_text s p : p ∈ s -> unreadable p -> Checksum time_text s = Sha256.hex (Sha256.Sum256 "").
Proof.
  intros Hp (k & c & Hk & Hc). unfold Checksum, state_text, state_json.
  rewrite (map_opt_None _ _ p); [done | unfold Normalize; by rewrite GoMap.sort_by_perm|]. unfold profile_json.
  rewrite (map_opt_None _ _ (k, c)); [done | unfold members; by rewrite GoMap.sort_by_perm, elem_of_map_to_list|].
  unfold member_json, consent_json. simpl. by rewrite Hc.
Qed.

(** One consent whose instant json.Marshal refuses (a year outside 0..9999) on both sides makes the verification report a match whatever else the tables and the log hold: the error of json.Marshal is dropped, and both checksums are those of the empty text. *)
Theorem unreadable_instant_matches profile_order consent_order p d live replayed :
  live ∈ liveReplayState profile_order consent_order p d -> unreadable live ->
  replayed ∈ Build (event_log p d) -> unreadable replayed ->
  exists r, VerifyReplay time_text profile_order consent_order p d = (Ok r, d) /\ rr_Match r = true.
Proof.
  intros Hl Hul Hr Hur. unfold VerifyReplay, gets, mbind, M_bind, mret, M_ret. eexists. split; [reflexivity|]. cbn [rr_Match].
  rewrite (unreadable_text _ live Hl Hul), (unreadable_text _ replayed Hr Hur). apply seqb_refl.
Qed.
End unreadable.

(** A consent before the epoch, and a profile whose attributes somebody changed. *)
Definition ancient : list AcceptedEvent := [updated "e1" "ada" "" 1 [("plan", JString "free")]; consented "e2" "ada" (-5) "subscribed"].
Definition tampered (q : Identity.Prof) : Identity.Prof :=
  Identity.MkProf (Identity.pf_ID q) (Identity.pf_TenantID q) (Identity.pf_WorkspaceID q) (Identity.pf_AppID q) (Identity.pf_ExternalID q)
    (Identity.pf_AnonymousID q) {["plan" := JString "enterprise"]} (Identity.pf_Version q) (Identity.pf_MergedInto q) (Identity.pf_CreatedAt q) (Identity.pf_UpdatedAt q).
Definition tampered_after : PDB :=
  let d := default (world ancient) (run ancient (world ancient)) in
  set_identity (Identity.set_profiles (tampered <$> Identity.id_profiles (pd_identity d)) (pd_identity d)) d.
Definition ada (plan : string) : CanonicalProfile :=
  MkCanonicalProfile "ada" "" {["plan" := AString plan]} {["email:marketing" := MkCanonicalConsent "email" "marketing" "subscribed" (-5)]}.

Lemma unreadable_instant_matches_witness :
  liveReplayState in_order in_order principal tampered_after = [ada "enterprise"] /\ Build (event_log principal tampered_after) = [ada "free"] /\
  exists r, VerifyReplay text_of in_order in_order principal tampered_after = (Ok r, tampered_after) /\ rr_Match r = true.
Proof.
  assert (Hl : liveReplayState in_order in_order principal tampered_after = [ada "enterprise"]) by (vm_compute; reflexivity).
  assert (Hb : Build (event_log principal tampered_after) = [ada "free"]) by (vm_compute; reflexivity).
  split; [exact Hl|]. split; [exact Hb|].
  apply (unreadable_instant_matches text_of in_order in_order principal tampered_after (ada "enterprise") (ada "free")).
  - rewrite Hl. apply list_elem_of_here.
  - exists "email:marketing". eexists. split; [apply lookup_insert_eq | reflexivity].
  - rewrite Hb. apply list_elem_of_here.
  - exists "email:marketing". eexists. split; [apply lookup_insert_eq | reflexivity].
Defined.

(** ** A pointer to a dropped profile

    The profile of "browser" is first "ada", then "eve"; merging "ada" into
    "bob" drops it, but the index still leads "eve" to it: what she does next is
    not in the state. *)
Definition renamed : list AcceptedEvent :=
  [updated "e1" "ada" "browser" 1 [("plan", JString "pro")]; updated "e2" "eve" "browser" 2 [("visits", JNumber "2")];
   updated "e3" "bob" "" 3 [];
   event "e4" "identity.merge" "bob" "" 4 (JObject [("source_external_id", JString "ada")]);
   updated "e5" "eve" "" 5 [("vip", JBool true)]].
Lemma replay_loses_events :
  bd_profiles (replayed renamed) = [1]%nat /\ bd_external (replayed renamed) !! "eve" = Some 0%nat /\
  (cp_Attributes (deref (replayed renamed) 0) !! "vip" = Some (ABool true)) /\
  Build renamed = Build (take 4 renamed) /\
  (forall p, p ∈ Build renamed -> cp_ExternalID p = "bob" /\ cp_Attributes p !! "vip" = None).
Proof.
  split_and!; [vm_compute; reflexivity..|]. intros p Hp.
  assert (H : forallb (fun p => (cp_ExternalID p =s "bob") && match cp_Attributes p !! "vip" with None => true | _ => false end) (Build renamed) = true)
    by (vm_compute; reflexivity).
  rewrite forallb_forall in H. apply list_elem_of_In, H, andb_prop in Hp as [H1 H2]. split; [by apply seqb_true|]. by destruct (_ !! _).
Qed.

End ReplayWorld.
