(* ===== verification/JourneyRuntime.v ===== *)
(** * The journey worker (src/internal/journey/runtime.go)

    [TickNext] claims one step, loads its run and version, decides what to do
    with it and writes the decision back.  The decision, which reads nothing
    of the journey tables, is separated from the store calls around it. *)

From S2P Require Import Prelude.
From S2P Require Import GoStd.
From S2P Require Import Domain.
From S2P Require Import Store.
From S2P Require Import JourneyGraph.
From S2P Require Import JourneyValidate.
From S2P Require Import JourneyNodes.

Module Runtime.
Import Graph JNodes.

(** [Deps], with the instant its clock answers; a zero threshold means 24 h. *)
Record Deps (W : Type) : Type := MkDeps {
  Clock_Now : Z;
  LateThreshold : Z;
  AIGateway : option (Gateway W);
  ExtHost : option (JNodes.ExtensionHost W)
}.
Arguments Clock_Now {W} _.
Arguments LateThreshold {W} _.
Arguments AIGateway {W} _.
Arguments ExtHost {W} _.

(** What a tick writes: [AdvanceRunTx] with its arguments (and the format of
    the message if it fails), [RescheduleJourneyStep], or [failStep]. *)
Inductive command : Type :=
  | Advance (errfmt : string) (run : JourneyRun) (nextStep : option JourneyStep)
      (trans : JourneyTransition) (intents : list JourneyMessageIntent)
  | Reschedule (at_ : Z)
  | GiveUp (msg : text).

Definition late_threshold {W} (deps : Deps W) : Z :=
  if LateThreshold deps =? 0 then 24 * Time.Hour else LateThreshold deps.
Definition is_late {W} (deps : Deps W) (step : JourneyStep) : bool :=
  negb (Time.IsZero (step_AvailableAt step)) &&
  (late_threshold deps <? Time.Sub (Clock_Now deps) (step_AvailableAt step)).

(** [case "skip"]: leave the node by its first edge, whatever its label. *)
Definition skip_late (now : Z) (run : JourneyRun) (graph : Graph) (node : Node) : command :=
  let nextNodeID := match find_first (fun edge => From edge =s ID node) (Edges graph) with
                    | Some edge => To edge | None => "" end in
  let trans := new_trans run node (Some nextNodeID) (Type_ node) "skipped" (JObject [("reason", JString "late")]) in
  if negb (nextNodeID =s "")
  then Advance "skip advance run tx: %v" (set_run_Status "active" (set_run_CurrentNodeID nextNodeID run))
         (Some (new_step run nextNodeID "advance" now)) trans []
  else Advance "skip advance run tx: %v" (set_run_CompletedAt (Some now) (set_run_Status "completed" run))
         None trans [].

(** [case "reschedule"]: by the node's own delay, or else the threshold. *)
Definition reschedule_late {W} (deps : Deps W) (node : Node) : command :=
  let delay :=
    if Type_ node =s NodeTypeDelay then
      match decode_delay node with
      | Ok cfg => match Time.ParseDuration (dc_Duration cfg) with Ok d => d | Err _ => 0 end
      | Err _ => 0
      end
    else 0 in
  let delay := if delay =? 0 then late_threshold deps else delay in
  Reschedule (Time.Add (Clock_Now deps) delay).

(** The run after a node's result. *)
Definition apply_result (run : JourneyRun) (res : ExecutionResult) : JourneyRun :=
  let run := set_run_Status (xr_NextStatus res) run in
  let run := if negb (xr_NextNodeID res =s "") then set_run_CurrentNodeID (xr_NextNodeID res) run else run in
  set_run_WaitUntil (xr_WaitUntil res) (set_run_WaitEventType (xr_WaitEventType res)
    (set_run_State (xr_State res) (set_run_GoalReached (xr_GoalReached res)
      (set_run_CompletedAt (xr_CompletedAt res) run)))).

Section Tick.
Context {W : Type} `{NodeStore W}.

Definition run_node (deps : Deps W) (step : JourneyStep) (run : JourneyRun) (graph : Graph) (node : Node)
    : M W command := fun w =>
  match execute (AIGateway deps) (ExtHost deps) node run graph (Clock_Now deps) (step_Kind step) w with
  | (Ok res, w') =>
      (Ok (Advance "advance run tx: %v" (apply_result run res) (xr_NextStep res) (xr_Transition res)
             (xr_MessageIntents res)), w')
  | (Err e, w') => (Ok (GiveUp (Errorf "execute node: %v" [AErr e])), w')
  end.

(** From the loaded version to the decision. *)
Definition decide_step (deps : Deps W) (step : JourneyStep) (run : JourneyRun) (version : JourneyVersion)
    : M W command :=
  match ParseGraph (jv_Graph version) with
  | Err e => mret (GiveUp (Errorf "failed to parse graph: %v" [AErr e]))
  | Ok graph =>
      match find_first (fun n => ID n =s step_NodeID step) (Nodes graph) with
      | None => mret (GiveUp (Errorf "node %s not found in graph" [AStr (step_NodeID step)]))
      | Some node =>
          if is_late deps step && (jv_LatePolicy version =s "skip")
          then mret (skip_late (Clock_Now deps) run graph node)
          else if is_late deps step && (jv_LatePolicy version =s "reschedule")
          then mret (reschedule_late deps node)
          else run_node deps step run graph node
      end
  end.

Context `{StepStore W}.

(** The store's answer is ignored; the telemetry counter is left out. *)
Definition failStep (step : JourneyStep) (msg : text) : M W unit := fun w =>
  (Ok tt, (FailJourneyStep (step_ID step) msg w).2).

Definition perform (step : JourneyStep) (run : JourneyRun) (c : command) : M W unit := fun w =>
  match c with
  | Advance errfmt run' nextStep trans intents =>
      match AdvanceRunTx (run_ID run) run' (step_ID step) nextStep trans intents w with
      | (Ok _, w') => (Ok tt, w')
      | (Err e, w') => failStep step (Errorf errfmt [AErr e]) w'
      end
  | Reschedule at_ =>
      match RescheduleJourneyStep (step_ID step) at_ w with
      | (Ok _, w') => (Ok tt, w')
      | (Err e, w') => failStep step (Errorf "reschedule: %v" [AErr e]) w'
      end
  | GiveUp msg => failStep step msg w
  end.

(** Load, decide and write back a claimed step. *)
Definition process_step (deps : Deps W) (step : JourneyStep) : M W unit := fun w =>
  match GetJourneyRunSystem (step_TenantID step) (step_RunID step) w with
  | (Err e, w') => failStep step (Errorf "failed to get run: %v" [AErr e]) w'
  | (Ok run, w') =>
      match GetJourneyVersion (run_TenantID run) (run_JourneyVersionID run) w' with
      | (Err e, w') => failStep step (Errorf "failed to get version: %v" [AErr e]) w'
      | (Ok version, w') => (c ← decide_step deps step run version; perform step run c) w'
      end
  end.

Definition TickNext (deps : Deps W) : M W bool :=
  c ← wrapM "claim journey step: %w" ClaimJourneyStep;
  match c with
  | None => mret false
  | Some step => _ ← process_step deps step; mret true
  end.
End Tick.

(** ** What a decision can be *)

(** The three shapes of an advance out of node [n] of graph [g], for the
    run row [r] that was loaded. *)
Inductive move (g : Graph) (n : Node) (r r' : JourneyRun) (next : option JourneyStep) (tr : JourneyTransition) : Prop :=
  | move_to t at_ :
      Validate.edge_rel g (ID n) t -> t <> "" -> tr_ToNode tr = Some t -> run_CurrentNodeID r' = t ->
      next = Some (new_step r t "advance" at_) ->
      run_Status r' = "active" \/ (run_Status r' = run_Status r /\ Type_ n <> NodeTypeWaitEvent) ->
      move g n r r' next tr
  | move_wait at_ :
      Type_ n = NodeTypeWaitEvent -> tr_ToNode tr = None -> run_CurrentNodeID r' = ID n ->
      next = Some (new_step r (ID n) "timeout" at_) -> run_Status r' = "waiting" ->
      run_WaitEventType r' <> None -> move g n r r' next tr
  | move_end :
      (tr_ToNode tr = None \/ tr_ToNode tr = Some "") -> run_CurrentNodeID r' = run_CurrentNodeID r ->
      next = None -> run_Status r' = "completed" -> move g n r r' next tr.

(** The columns an advance keeps. *)
Definition same_run (r r' : JourneyRun) : Prop :=
  run_ID r' = run_ID r /\ run_TenantID r' = run_TenantID r /\
  run_JourneyVersionID r' = run_JourneyVersionID r /\ run_ProfileID r' = run_ProfileID r.

Definition command_ok (g : Graph) (s : JourneyStep) (r : JourneyRun) (c : command) : Prop :=
  match c with
  | Advance _ r' next tr intents =>
      exists n, n ∈ Nodes g /\ ID n = step_NodeID s /\ same_run r r' /\
        tr_RunID tr = run_ID r /\ tr_FromNode tr = Some (ID n) /\ move g n r r' next tr /\
        (forall i, i ∈ intents -> mi_RunID i = run_ID r /\ mi_NodeID i = ID n /\ mi_Status i <> "processing")
  | Reschedule _ | GiveUp _ => True
  end.

Lemma valid_target g a b : Validate.Valid g -> Validate.edge_rel g a b -> b <> "".
Proof.
  intros Hg (e & He & <- & <-). destruct (Validate.val_edges g Hg e He) as [_ Ht].
  apply list_elem_of_fmap in Ht as (n & -> & Hn). apply (Validate.nk_id g), Hg, Hn.
Qed.

Lemma skip_late_ok g s r now n :
  Validate.Valid g -> n ∈ Nodes g -> ID n = step_NodeID s -> command_ok g s r (skip_late now r g n).
Proof.
  intros Hg Hn Hid. unfold skip_late. set (t := match find_first _ _ with Some e => To e | None => "" end).
  destruct (t =s "") eqn:Et; simpl.
  - exists n. repeat split; try done; [|set_solver..].
    apply seqb_true in Et. apply move_end; simpl; auto. rewrite Et. auto.
  - exists n. repeat split; try done; [|set_solver..].
    assert (He : Validate.edge_rel g (ID n) t).
    { unfold t in *. destruct (find_first _ _) as [e|] eqn:E; [|done].
      apply find_first_Some in E as [Hin Hf]. apply seqb_true in Hf. exists e. auto. }
    eapply (move_to _ _ _ _ _ _ t); simpl; eauto. by eapply valid_target.
Qed.

Lemma apply_result_same r res : same_run r (apply_result r res).
Proof. unfold apply_result, same_run. by destruct (negb _). Qed.

Lemma apply_result_node r res :
  run_CurrentNodeID (apply_result r res) = if xr_NextNodeID res =s "" then run_CurrentNodeID r else xr_NextNodeID res.
Proof. unfold apply_result. by destruct (xr_NextNodeID res =s ""). Qed.

Lemma result_move g n r now k res :
  Validate.Valid g -> n ∈ Nodes g -> result_ok g n r now k res ->
  move g n r (apply_result r res) (xr_NextStep res) (xr_Transition res).
Proof.
  intros Hg Hn [_ _ Hk _ _].
  assert (Hst : run_Status (apply_result r res) = xr_NextStatus res) by (unfold apply_result; by destruct (negb _)).
  assert (Hwe : run_WaitEventType (apply_result r res) = xr_WaitEventType res) by (unfold apply_result; by destruct (negb _)).
  destruct Hk as [([He Ht (at_ & Hs) Hc Hw] & Hs' & Hto)|[([Hty Hnode Hstat Ht (c & d & Hc & Hd & Hs & Hwt & _) _] & Hk)|[Hty Hnode Hs Hstat Ht Hc]]].
  - assert (Hne := valid_target g _ _ Hg He).
    eapply (move_to _ _ _ _ _ _ (xr_NextNodeID res)); eauto.
    + rewrite apply_result_node. apply seqb_false in Hne. by rewrite Hne.
    + rewrite Hst, Hs'. destruct (Type_ n =s NodeTypeWaitEvent) eqn:Ew; [by left|].
      right. split; [done|]. by apply seqb_false.
  - eapply move_wait; eauto; [| by rewrite Hst | by rewrite Hwe, Hwt].
    rewrite apply_result_node, Hnode. destruct (ID n =s "") eqn:E; [|done].
    apply seqb_true in E. exfalso. by apply (Validate.nk_id g n (Validate.val_nodes g Hg n Hn)).
  - apply move_end; [by left | | done | by rewrite Hst].
    by rewrite apply_result_node, Hnode.
Qed.

Section Decide.
Context {W : Type} `{NodeStore W}.

(** A decision on a validated graph is well formed, whatever the store,
    the gateway and the extension host answer. *)
Lemma decide_step_ok (deps : Deps W) s r v g w c w' :
  ParseGraph (jv_Graph v) = Ok g -> Validate.Valid g ->
  decide_step deps s r v w = (Ok c, w') -> command_ok g s r c.
Proof.
  intros Hp Hg. unfold decide_step. rewrite Hp.
  destruct (find_first _ _) as [n|] eqn:En; [|intros; inv_M; done].
  apply find_first_Some in En as [Hn Hid]. apply seqb_true in Hid.
  destruct (_ && _); [intros; inv_M; by apply skip_late_ok|].
  destruct (_ && _); [intros; by inv_M|].
  unfold run_node. destruct (execute _ _ _ _ _ _ _ w) as [[res|e] w1] eqn:E; intros; inv_ok; [|done].
  apply execute_result in E. exists n.
  split; [done|]. split; [done|]. split; [apply apply_result_same|].
  assert (Hm := result_move g n r _ _ res Hg Hn E).
  destruct E as [Hr Hf _ _ Hi]. split; [done|]. split; [done|]. split; [done|].
  intros i Hin. destruct (Hi i Hin) as (? & ? & _ & _ & [[-> _]|[-> _]]); done.
Qed.

Lemma decide_step_total (deps : Deps W) s r v w : exists c w', decide_step deps s r v w = (Ok c, w').
Proof.
  unfold decide_step. destruct (ParseGraph _); [|eauto]. destruct (find_first _ _); [|eauto].
  destruct (_ && _); [eauto|]. destruct (_ && _); [eauto|].
  unfold run_node. destruct (execute _ _ _ _ _ _ _ w) as [[]]; eauto.
Qed.
End Decide.
End Runtime.
