(* ===== verification/JourneyEffects.v ===== *)
(** * Effects of the journey store

    The atomic changes that the methods of [JourneyDB] make to the tables,
    the invariants of the tables, and their preservation by every change.  An
    advance names the run row [r0] that the worker had loaded; the parameter
    [F] says how that snapshot relates to the row at commit time; the parameter
    [C] which step ids may be claimed. *)

From S2P Require Import Prelude.
From S2P Require Import GoStd.
From S2P Require Import Domain.
From S2P Require Import JourneyGraph.
From S2P Require Import JourneyValidate.
From S2P Require Import JourneyNodes.
From S2P Require Import JourneyDB.
From S2P Require Import JourneyRuntime.

Module Effects.
Import Graph JDB Runtime.

Definition live_run (r : JourneyRun) : Prop := run_Status r = "active" \/ run_Status r = "waiting".
Definition terminal (r : JourneyRun) : Prop := run_Status r = "completed" \/ run_Status r = "canceled".
(** The step the claim query would pair with run [r]. *)
Definition at_run (s : JourneyStep) (r : JourneyRun) : Prop :=
  run_Status r = expectedStatus (step_Kind s) /\ run_CurrentNodeID r = step_NodeID s.
(** The columns no update of a step writes. *)
Definition same_slot (s s' : JourneyStep) : Prop :=
  step_ID s' = step_ID s /\ step_RunID s' = step_RunID s /\ step_TenantID s' = step_TenantID s /\
  step_NodeID s' = step_NodeID s /\ step_Kind s' = step_Kind s.
Definition no_live (id : string) (m : gmap string JourneyStep) : Prop :=
  forall i s, m !! i = Some s -> step_RunID s = id -> live s = false.
(** The partial unique index on the live steps of a run. *)
Definition one_live (m : gmap string JourneyStep) : Prop :=
  forall i j s t, m !! i = Some s -> m !! j = Some t -> live s = true -> live t = true ->
    step_RunID s = step_RunID t -> i = j.
Definition graph_of (d : DB) (r : JourneyRun) (g : Graph) : Prop :=
  exists v, db_versions d !! run_JourneyVersionID r = Some v /\ ParseGraph (jv_Graph v) = Ok g.

(** The row [insert_step] writes under id [i]. *)
Definition step_row (i : string) (now : Z) (s : JourneyStep) : JourneyStep :=
  MkJourneyStep i (step_RunID s) (step_TenantID s) (step_NodeID s) (step_Kind s) (step_Status s)
    (step_Attempts s) (step_AvailableAt s) (step_LockedUntil s) (step_ErrorMessage s) now now.
Definition add_next (i : string) (now : Z) (next : option JourneyStep) (m : gmap string JourneyStep) : gmap string JourneyStep :=
  match next with Some s => <[i := step_row i now (step_defaults now s)]> m | None => m end.
Definition canceled_steps (tenant id : string) (m : gmap string JourneyStep) : gmap string JourneyStep :=
  filter (fun kv => negb ((step_TenantID kv.2 =s tenant) && (step_RunID kv.2 =s id) &&
                          negb (step_Status kv.2 =s "completed")) = true) m.
Definition set_env (f : JourneyVersion -> JourneyVersion) (locked : gset string) (now : Z) (d : DB) : DB :=
  MkDB (f <$> db_versions d) (db_profiles d) (db_runs d) (db_steps d) (db_transitions d) (db_intents d) (db_used d) locked now.

Inductive effect (F : JourneyRun -> JourneyRun -> Prop) (C : string -> Prop) (d : DB) : DB -> Prop :=
  (** ids are drawn and intents written *)
  | ef_book intents used :
      db_used d ⊆ used -> effect F C d (set_intents intents (set_used used d))
  (** the clock, other transactions' locks, and version statuses *)
  | ef_env f locked now :
      (forall v, jv_Graph (f v) = jv_Graph v /\ jv_ID (f v) = jv_ID v) -> effect F C d (set_env f locked now d)
  (** one step row is updated; only a stale step is completed this way *)
  | ef_step id s s' :
      db_steps d !! id = Some s -> same_slot s s' -> 0 <= step_Attempts s' <= 10 ->
      step_Status s' ∈ step_statuses ->
      (live s' = true -> no_live (step_RunID s) (delete id (db_steps d))) ->
      (step_Status s' = "processing" -> C id /\ is_Some (step_LockedUntil s')) ->
      (step_Status s' = "completed" -> forall r, db_runs d !! step_RunID s = Some r -> ~ at_run s r) ->
      effect F C d (set_steps (<[id := s']> (db_steps d)) d)
  (** [ClaimJourneyStep] buries the poison pills *)
  | ef_bury now : effect F C d (set_steps (bury_step now <$> db_steps d) d)
  | ef_cancel id r tenant now :
      db_runs d !! id = Some r -> ~ terminal r ->
      effect F C d (set_steps (canceled_steps tenant id (db_steps d))
                    (set_runs (<[id := canceled_row now r]> (db_runs d)) d))
  | ef_advance id r sid s r0 r' now next tr g n i :
      db_runs d !! id = Some r -> db_steps d !! sid = Some s -> step_RunID s = id ->
      step_Status s = "processing" -> at_run s r ->
      F r0 r -> same_run r0 r -> same_run r0 r' -> graph_of d r g -> n ∈ Nodes g -> ID n = step_NodeID s ->
      tr_RunID tr = id -> tr_FromNode tr = Some (ID n) -> move g n r0 r' next tr -> i ∉ db_used d ->
      effect F C d (set_used ({[i]} ∪ db_used d)
                   (set_transitions (db_transitions d ++ [tr])
                     (set_steps (add_next i now next (<[sid := complete_step now s]> (db_steps d)))
                       (set_runs (<[id := advance_row r' now r]> (db_runs d)) d))))
  | ef_resolve id r succ now g tr i :
      db_runs d !! id = Some r -> run_Status r = "waiting" -> graph_of d r g ->
      Validate.edge_rel g (run_CurrentNodeID r) succ -> succ <> "" ->
      tr_RunID tr = id -> tr_FromNode tr = Some (run_CurrentNodeID r) -> tr_ToNode tr = Some succ ->
      i ∉ db_used d -> no_live id (finish_timeout id now <$> db_steps d) ->
      effect F C d (set_used ({[i]} ∪ db_used d)
                   (set_transitions (db_transitions d ++ [tr])
                     (set_steps (<[i := step_row i now (event_step id (run_TenantID r) succ now)]>
                                   (finish_timeout id now <$> db_steps d))
                       (set_runs (<[id := resolved_row succ now r]> (db_runs d)) d))))
  | ef_enroll run id i s now g :
      id ∉ db_used d -> i ∉ db_used d -> i <> id -> run_ID run = id -> run_Status run = "active" -> graph_of d run g ->
      run_CurrentNodeID run = EntryNodeID g ->
      (forall j r, db_runs d !! j = Some r -> same_run_key run r = false) ->
      step_RunID s = id -> step_TenantID s = run_TenantID run -> step_NodeID s = EntryNodeID g ->
      step_Kind s = "advance" -> step_Status s = "pending" -> step_Attempts s = 0 ->
      effect F C d (set_used ({[i]} ∪ ({[id]} ∪ db_used d))
                   (set_steps (<[i := step_row i now s]> (db_steps d))
                     (set_runs (<[id := run]> (db_runs d)) d))).

(** ** Structural invariant *)

Record run_ok (d : DB) (i : string) (r : JourneyRun) : Prop := {
  rk_id : run_ID r = i;
  rk_used : i ∈ db_used d;
  rk_version : is_Some (db_versions d !! run_JourneyVersionID r)
}.
Record step_ok (d : DB) (i : string) (s : JourneyStep) : Prop := {
  sk_id : step_ID s = i;
  sk_used : i ∈ db_used d;
  sk_run : is_Some (db_runs d !! step_RunID s);
  sk_attempts : 0 <= step_Attempts s <= 10;
  sk_status : step_Status s ∈ step_statuses;
  sk_kind : step_Kind s ∈ step_kinds;
  sk_lease : step_Status s = "processing" -> is_Some (step_LockedUntil s)
}.
Record wf (d : DB) : Prop := {
  wf_run : forall i r, db_runs d !! i = Some r -> run_ok d i r;
  wf_step : forall i s, db_steps d !! i = Some s -> step_ok d i s;
  wf_trans : forall tr, tr ∈ db_transitions d -> is_Some (db_runs d !! tr_RunID tr);
  wf_live : one_live (db_steps d);
  wf_keys : forall i j r t, db_runs d !! i = Some r -> db_runs d !! j = Some t -> same_run_key r t = true -> i = j
}.

Lemma run_ok_mono d d' i r :
  db_used d ⊆ db_used d' -> (forall k, is_Some (db_versions d !! k) -> is_Some (db_versions d' !! k)) ->
  run_ok d i r -> run_ok d' i r.
Proof. intros Hu Hv [? ? ?]. split; [done | set_solver | auto]. Qed.

Lemma step_ok_mono d d' i s :
  db_used d ⊆ db_used d' -> (forall k, is_Some (db_runs d !! k) -> is_Some (db_runs d' !! k)) ->
  step_ok d i s -> step_ok d' i s.
Proof. intros Hu Hv [? ? ? ? ? ? ?]. split; [done | set_solver | auto | done..]. Qed.

Lemma insert_is_Some {A} (m : gmap string A) i x k : is_Some (m !! k) -> is_Some (<[i := x]> m !! k).
Proof. intros H. destruct (decide (i = k)) as [->|]; [by rewrite lookup_insert_eq|by rewrite lookup_insert_ne]. Qed.

Lemma one_live_insert m id s' :
  one_live m -> (live s' = true -> no_live (step_RunID s') (delete id m)) -> one_live (<[id := s']> m).
Proof.
  intros Hm Hl i j s t Hi Hj Hs Ht Hr.
  apply lookup_insert_Some in Hi as [[<- <-]|[Hi Ei]], Hj as [[<- <-]|[Hj Ej]]; [done|..|by eapply Hm].
  - rewrite (Hl Hs j t) in Ht; [done | by rewrite lookup_delete_ne | done].
  - rewrite (Hl Ht i s) in Hs; [done | by rewrite lookup_delete_ne | done].
Qed.

Lemma one_live_fmap m (f : JourneyStep -> JourneyStep) :
  one_live m -> (forall s, live (f s) = true -> live s = true) -> (forall s, step_RunID (f s) = step_RunID s) ->
  one_live (f <$> m).
Proof.
  intros Hm Hl Hr i j s t Hi Hj Hs Ht E.
  apply lookup_fmap_Some in Hi as (s0 & <- & Hi). apply lookup_fmap_Some in Hj as (t0 & <- & Hj).
  rewrite !Hr in E. by eapply Hm; eauto.
Qed.

Lemma one_live_sub m m' : one_live m -> m' ⊆ m -> one_live m'.
Proof. intros Hm Hs i j s t Hi Hj. apply (Hm i j s t); by eapply lookup_weaken. Qed.

Lemma no_live_other m id i s : one_live m -> m !! i = Some s -> live s = true -> step_RunID s = id -> no_live id (delete i m).
Proof.
  intros Hm Hi Hs <- j t Hj Hr. apply lookup_delete_Some in Hj as [Hne Hj].
  destruct (live t) eqn:E; [|done]. exfalso. apply Hne. by eapply (Hm i j s t).
Qed.

Lemma no_live_one m id i s : no_live id m -> m !! i = Some s -> step_RunID s = id -> live s = false.
Proof. intros H ? ?. by eapply H. Qed.

(** Row functions leave the identifying columns alone. *)
Lemma bury_slot now s : same_slot s (bury_step now s).
Proof. unfold bury_step. by case_match. Qed.
Lemma finish_slot id now s : same_slot s (finish_timeout id now s).
Proof. unfold finish_timeout. by case_match. Qed.
Lemma bury_live now s : live (bury_step now s) = true -> live s = true.
Proof. unfold bury_step. by case_match. Qed.
Lemma finish_live id now s : live (finish_timeout id now s) = true -> live s = true.
Proof. unfold finish_timeout. by case_match. Qed.
Lemma same_slot_run s s' : same_slot s s' -> step_RunID s' = step_RunID s.
Proof. by intros (_ & ? & _). Qed.

Lemma step_ok_update d i s s' :
  step_ok d i s -> same_slot s s' -> 0 <= step_Attempts s' <= 10 -> step_Status s' ∈ step_statuses ->
  (step_Status s' = "processing" -> is_Some (step_LockedUntil s')) -> step_ok d i s'.
Proof.
  intros [? ? ? ? ? ? ?] (E1 & E2 & _ & _ & E5) ? ? ?.
  split; [congruence | done | by rewrite E2 | done | done | by rewrite E5 | done].
Qed.

Lemma step_ok_bury d i s now : step_ok d i s -> step_ok d i (bury_step now s).
Proof.
  intros Hs. apply (step_ok_update _ _ s); [done | apply bury_slot | | |]; destruct Hs; unfold bury_step;
    case_match; simpl; try done. set_solver.
Qed.
Lemma step_ok_finish d i s id now : step_ok d i s -> step_ok d i (finish_timeout id now s).
Proof.
  intros Hs. apply (step_ok_update _ _ s); [done | apply finish_slot | | |]; destruct Hs; unfold finish_timeout;
    case_match; simpl; try done. set_solver.
Qed.

Lemma no_live_fmap id m (f : JourneyStep -> JourneyStep) :
  no_live id m -> (forall s, live (f s) = true -> live s = true) -> (forall s, step_RunID (f s) = step_RunID s) ->
  no_live id (f <$> m).
Proof.
  intros H Hl Hr i s (s0 & <- & Hi)%lookup_fmap_Some E. rewrite Hr in E.
  destruct (live (f s0)) eqn:El; [|done]. apply Hl in El. by rewrite (H i s0) in El.
Qed.

Lemma live_false_status s : step_Status s = "completed" -> live s = false.
Proof. intros E. unfold live. by rewrite E. Qed.

Lemma run_key_sym r t : same_run_key r t = same_run_key t r.
Proof.
  unfold same_run_key. apply eq_true_iff_eq. rewrite !andb_true_iff, !seqb_true, !Z.eqb_eq. naive_solver.
Qed.

(** The keys of the runs after one row changes outside its key. *)
Lemma keys_update (m : gmap string JourneyRun) id r r' :
  (forall i j a b, m !! i = Some a -> m !! j = Some b -> same_run_key a b = true -> i = j) ->
  m !! id = Some r -> (forall t, same_run_key r' t = same_run_key r t) ->
  forall i j a b, <[id := r']> m !! i = Some a -> <[id := r']> m !! j = Some b -> same_run_key a b = true -> i = j.
Proof.
  intros Hk Hid He i j a b Hi Hj.
  apply lookup_insert_Some in Hi as [[<- <-]|[Hi Ei]], Hj as [[<- <-]|[Hj Ej]]; [done|..|by eapply Hk].
  - rewrite He. by eapply Hk.
  - rewrite run_key_sym, He, run_key_sym. by eapply Hk.
Qed.

(** Rebuild [wf] when the runs keep their identifying columns: the other
    tables are given explicitly. *)
Lemma wf_change d d' :
  wf d ->
  db_used d ⊆ db_used d' -> (forall k, is_Some (db_versions d !! k) -> is_Some (db_versions d' !! k)) ->
  (forall k, is_Some (db_runs d !! k) -> is_Some (db_runs d' !! k)) ->
  (forall i r, db_runs d' !! i = Some r -> run_ok d i r \/ run_ok d' i r) ->
  (forall i s, db_steps d' !! i = Some s -> step_ok d i s \/ step_ok d' i s) ->
  (forall tr, tr ∈ db_transitions d' -> tr ∈ db_transitions d \/ is_Some (db_runs d' !! tr_RunID tr)) ->
  one_live (db_steps d') ->
  (forall i j r t, db_runs d' !! i = Some r -> db_runs d' !! j = Some t -> same_run_key r t = true -> i = j) ->
  wf d'.
Proof.
  intros [Hr Hs Ht Hl Hk] Hu Hv Hrs Hr' Hs' Ht' Hl' Hk'. constructor; [| | |done..].
  - intros i r Hi. destruct (Hr' i r Hi); [by eapply run_ok_mono | done].
  - intros i s Hi. destruct (Hs' i s Hi); [by eapply step_ok_mono | done].
  - intros tr Hi. destruct (Ht' tr Hi); [apply Hrs; auto | done].
Qed.

Lemma run_ok_row d i r r' :
  run_ok d i r -> run_ID r' = run_ID r -> run_JourneyVersionID r' = run_JourneyVersionID r -> run_ok d i r'.
Proof. intros [? ? ?] E1 E2. split; [congruence | done | by rewrite E2]. Qed.

(** A changed run row with its identifying columns intact. *)
Lemma runs_changed d id r r' i x :
  wf d -> db_runs d !! id = Some r -> <[id := r']> (db_runs d) !! i = Some x ->
  run_ID r' = run_ID r -> run_JourneyVersionID r' = run_JourneyVersionID r -> run_ok d i x.
Proof.
  intros Hw Hid Hi E1 E2. apply lookup_insert_Some in Hi as [[<- <-]|[_ Hi]]; [|by apply Hw].
  eapply run_ok_row; [by apply Hw | done..].
Qed.

Lemma step_defaults_fields now s :
  step_RunID (step_defaults now s) = step_RunID s /\ step_NodeID (step_defaults now s) = step_NodeID s /\
  step_TenantID (step_defaults now s) = step_TenantID s /\ step_Attempts (step_defaults now s) = step_Attempts s.
Proof. unfold step_defaults. repeat case_match; done. Qed.

Lemma step_defaults_set now s :
  step_Kind s <> "" -> step_Status s <> "" ->
  step_Kind (step_defaults now s) = step_Kind s /\ step_Status (step_defaults now s) = step_Status s.
Proof.
  intros Hk Hs. apply seqb_false in Hk. apply seqb_false in Hs.
  unfold step_defaults. rewrite Hs, Hk. by case_match.
Qed.

Lemma step_defaults_new now r n k at_ :
  k <> "" -> step_Kind (step_defaults now (JNodes.new_step r n k at_)) = k /\
  step_Status (step_defaults now (JNodes.new_step r n k at_)) = "pending".
Proof. intros Hk. apply seqb_false in Hk. unfold step_defaults. simpl. rewrite Hk. case_match; done. Qed.

(** The step that follows a move. *)
Lemma move_next g n r0 r' next tr :
  move g n r0 r' next tr ->
  match next with
  | Some s => step_RunID s = run_ID r0 /\ step_TenantID s = run_TenantID r0 /\ step_NodeID s = run_CurrentNodeID r' /\
              step_Attempts s = 0 /\ step_Kind s ∈ step_kinds /\
              forall now, step_Status (step_defaults now s) = "pending" /\
                step_Kind (step_defaults now s) = step_Kind s
  | None => run_Status r' = "completed"
  end.
Proof.
  intros [t at_ _ _ _ Hc -> _|at_ _ _ Hc -> _ _|_ _ -> Hs]; [..|done]; repeat split; simpl; try congruence;
    try (by apply step_defaults_new); set_solver.
Qed.

(** Discharge the parts of [wf_change] that do not change. *)
Ltac unchanged Hw :=
  try solve [ apply Hw | intros; left; by apply (wf_run _ Hw) | intros; left; by apply (wf_step _ Hw)
            | intros; by left | intros; by apply insert_is_Some ].

Lemma wf_book d intents used : wf d -> db_used d ⊆ used -> wf (set_intents intents (set_used used d)).
Proof. intros Hw Hu. apply (wf_change d); simpl; auto; unchanged Hw. Qed.

Lemma wf_env d f locked now : wf d -> wf (set_env f locked now d).
Proof.
  intros Hw. apply (wf_change d); simpl; auto; unchanged Hw.
  intros k [v Hv]. rewrite lookup_fmap, Hv. by eexists.
Qed.

Lemma wf_steps d m :
  wf d -> (forall i s, m !! i = Some s -> step_ok d i s) -> one_live m -> wf (set_steps m d).
Proof. intros Hw Hs Hl. apply (wf_change d); simpl; auto; unchanged Hw. Qed.

Lemma wf_step_update d id s s' :
  wf d -> db_steps d !! id = Some s -> same_slot s s' -> 0 <= step_Attempts s' <= 10 -> step_Status s' ∈ step_statuses ->
  (live s' = true -> no_live (step_RunID s) (delete id (db_steps d))) ->
  (step_Status s' = "processing" -> is_Some (step_LockedUntil s')) ->
  wf (set_steps (<[id := s']> (db_steps d)) d).
Proof.
  intros Hw Hs Hsl Ha Hst Hlv Hle. apply wf_steps; [done| |].
  - intros i x Hi. apply lookup_insert_Some in Hi as [[<- <-]|[_ Hi]]; [|by apply Hw].
    eapply step_ok_update; [by apply Hw | done..].
  - apply one_live_insert; [exact (wf_live d Hw)|]. by rewrite (same_slot_run _ _ Hsl).
Qed.

Lemma wf_bury d now : wf d -> wf (set_steps (bury_step now <$> db_steps d) d).
Proof.
  intros Hw. apply wf_steps; [done| |].
  - intros i x (s & <- & Hi)%lookup_fmap_Some. by apply step_ok_bury, Hw.
  - apply one_live_fmap; [exact (wf_live d Hw) | apply bury_live | intros s0; apply same_slot_run, bury_slot].
Qed.

Lemma wf_cancel d id r tenant now :
  wf d -> db_runs d !! id = Some r ->
  wf (set_steps (canceled_steps tenant id (db_steps d)) (set_runs (<[id := canceled_row now r]> (db_runs d)) d)).
Proof.
  intros Hw Hr. apply (wf_change d); simpl; auto; unchanged Hw.
  - intros i x Hi. left. by eapply (runs_changed d id r).
  - intros i x Hi. left. apply map_lookup_filter_Some in Hi as [Hi _]. by apply Hw.
  - eapply one_live_sub; [exact (wf_live d Hw) | apply map_filter_subseteq].
  - eapply keys_update; [exact (wf_keys d Hw) | done | done].
Qed.

Lemma fresh_step_row d i now s :
  i ∉ db_used d -> is_Some (db_runs d !! step_RunID s) -> step_Attempts s = 0 -> step_Status s = "pending" ->
  step_Kind s ∈ step_kinds -> forall d', i ∈ db_used d' -> (forall k, is_Some (db_runs d !! k) -> is_Some (db_runs d' !! k)) ->
  step_ok d' i (step_row i now s).
Proof. intros Hi Hr Ha Hs Hk d' Hi' Hrs. split; simpl; auto; [lia | rewrite Hs; set_solver | by rewrite Hs]. Qed.

Lemma wf_advance d id r sid s r0 r' now next tr g n i :
  wf d -> db_runs d !! id = Some r -> db_steps d !! sid = Some s -> step_RunID s = id ->
  step_Status s = "processing" -> same_run r0 r -> tr_RunID tr = id -> move g n r0 r' next tr -> i ∉ db_used d ->
  wf (set_used ({[i]} ∪ db_used d)
       (set_transitions (db_transitions d ++ [tr])
         (set_steps (add_next i now next (<[sid := complete_step now s]> (db_steps d)))
           (set_runs (<[id := advance_row r' now r]> (db_runs d)) d)))).
Proof.
  intros Hw Hr Hs Hid Hst (Hsr & _) Htr Hm Hi. apply move_next in Hm.
  assert (Hlv : live s = true) by (unfold live; by rewrite Hst).
  assert (Hcl : one_live (<[sid := complete_step now s]> (db_steps d))).
  { apply one_live_insert; [exact (wf_live d Hw) | discriminate]. }
  assert (Hc : forall j x, <[sid := complete_step now s]> (db_steps d) !! j = Some x -> step_ok d j x).
  { intros j x Hj. apply lookup_insert_Some in Hj as [[<- <-]|[_ Hj]]; [|by apply Hw].
    eapply step_ok_update; [by apply Hw | done | exact (sk_attempts _ _ _ (wf_step d Hw _ _ Hs)) | simpl; set_solver | done]. }
  assert (Hrid : run_ID r = id) by exact (rk_id _ _ _ (wf_run d Hw _ _ Hr)).
  apply (wf_change d); simpl; auto; unchanged Hw; [set_solver|..].
  - intros j x Hj. left. by eapply (runs_changed d id r).
  - intros j x Hj. destruct next as [nx|]; simpl in Hj; [|by left; apply Hc].
    apply lookup_insert_Some in Hj as [[<- <-]|[_ Hj]]; [right|by left; apply Hc].
    destruct Hm as (Hnr & _ & _ & Hna & Hnk & Hns). destruct (step_defaults_fields now nx) as (Er & _ & _ & Ea).
    apply (fresh_step_row d); simpl; auto using insert_is_Some; [|congruence|by apply Hns| |set_solver].
    { rewrite Er, Hnr, <- Hsr, Hrid. by eexists. } by destruct (Hns now) as [_ ->].
  - intros x [Hx|Hx%list_elem_of_singleton]%elem_of_app; [by left | right]. rewrite Hx, Htr, lookup_insert_eq. by eexists.
  - destruct next as [nx|]; simpl; [|done]. apply one_live_insert; [done|]. intros _ j x Hj Hjr.
    apply lookup_delete_Some in Hj as [_ Hj]. destruct Hm as (Hnr & _). 
    destruct (step_defaults_fields now nx) as (Er & _). simpl in Hjr. rewrite Er, Hnr, <- Hsr, Hrid in Hjr.
    apply lookup_insert_Some in Hj as [[_ <-]|[Hne Hj]]; [done|].
    destruct (live x) eqn:Ex; [|done]. exfalso. apply Hne. eapply (wf_live d Hw sid j s x); congruence.
  - eapply keys_update; [exact (wf_keys d Hw) | done | done].
Qed.

Lemma wf_resolve d id r succ now tr i :
  wf d -> db_runs d !! id = Some r -> tr_RunID tr = id -> i ∉ db_used d ->
  no_live id (finish_timeout id now <$> db_steps d) ->
  wf (set_used ({[i]} ∪ db_used d)
       (set_transitions (db_transitions d ++ [tr])
         (set_steps (<[i := step_row i now (event_step id (run_TenantID r) succ now)]>
                       (finish_timeout id now <$> db_steps d))
           (set_runs (<[id := resolved_row succ now r]> (db_runs d)) d)))).
Proof.
  intros Hw Hr Htr Hi Hnl.
  apply (wf_change d); simpl; auto; unchanged Hw; [set_solver|..].
  - intros j x Hj. left. by eapply (runs_changed d id r).
  - intros j x Hj. apply lookup_insert_Some in Hj as [[<- <-]|[_ Hj]].
    + right. apply (fresh_step_row d); simpl; auto using insert_is_Some; set_solver.
    + left. apply lookup_fmap_Some in Hj as (s & <- & Hj). by apply step_ok_finish, Hw.
  - intros x [Hx|Hx%list_elem_of_singleton]%elem_of_app; [by left | right]. rewrite Hx, Htr, lookup_insert_eq. by eexists.
  - apply one_live_insert.
    + apply one_live_fmap; [exact (wf_live d Hw) | apply finish_live | intros s0; apply same_slot_run, finish_slot].
    + intros _ j x Hj. apply lookup_delete_Some in Hj as [_ Hj]. intros Hr2. exact (Hnl j x Hj Hr2).
  - eapply keys_update; [exact (wf_keys d Hw) | done | done].
Qed.

Lemma wf_enroll d run id i s now g :
  wf d -> id ∉ db_used d -> i ∉ db_used d -> i <> id -> run_ID run = id -> graph_of d run g ->
  (forall j r, db_runs d !! j = Some r -> same_run_key run r = false) ->
  step_RunID s = id -> step_Status s = "pending" -> step_Attempts s = 0 -> step_Kind s = "advance" ->
  wf (set_used ({[i]} ∪ ({[id]} ∪ db_used d))
       (set_steps (<[i := step_row i now s]> (db_steps d)) (set_runs (<[id := run]> (db_runs d)) d))).
Proof.
  intros Hw Hid Hi Hne Hrid (v & Hv & _) Hk Hs Hst Ha Hk'.
  assert (Hno : forall j x, db_steps d !! j = Some x -> step_RunID x <> id).
  { intros j x Hj E. destruct (wf_step d Hw j x Hj) as [_ _ [r Hr] _ _ _ _]. rewrite E in Hr.
    exact (Hid (rk_used _ _ _ (wf_run d Hw _ _ Hr))). }
  apply (wf_change d); simpl; auto; unchanged Hw; [set_solver|..].
  - intros j x Hj. apply lookup_insert_Some in Hj as [[<- <-]|[_ Hj]]; [right | left; by apply Hw].
    split; [done | simpl; set_solver | simpl; by eexists].
  - intros j x Hj. apply lookup_insert_Some in Hj as [[<- <-]|[_ Hj]]; [right | left; by apply Hw].
    split; simpl; [done | set_solver | rewrite Hs, lookup_insert_eq; by eexists | lia | rewrite Hst; set_solver | rewrite Hk'; set_solver | by rewrite Hst].
  - apply one_live_insert; [exact (wf_live d Hw)|]. intros _ j x Hj Hr. simpl in Hr. rewrite Hs in Hr.
    apply lookup_delete_Some in Hj as [_ Hj]. by destruct (Hno j x Hj).
  - intros j k a b Hj Hj' E.
    apply lookup_insert_Some in Hj as [[<- <-]|[Hj Ej]], Hj' as [[<- <-]|[Hj' Ek]]; [done|..].
    + by rewrite (Hk k b) in E.
    + rewrite run_key_sym in E. by rewrite (Hk j a) in E.
    + by eapply (wf_keys d Hw j k a b).
Qed.

(** Every change keeps the tables well formed. *)
Lemma effect_wf F C d d' : wf d -> effect F C d d' -> wf d'.
Proof.
  intros Hw He. destruct He.
  - by apply wf_book.
  - by apply wf_env.
  - eapply wf_step_update; eauto. naive_solver.
  - by apply wf_bury.
  - by apply wf_cancel.
  - eapply wf_advance; eauto.
  - eapply wf_resolve; eauto.
  - eapply wf_enroll; eauto.
Qed.
End Effects.
