(* ===== verification/JourneyInvariants.v ===== *)
(** * Invariants of journey runs

    Over the effects of [JourneyEffects]: finished runs never change, the
    transition log of a run replays, edge by edge, to the node it is at, and
    no live run is ever without the step that will move it. *)

From S2P Require Import Prelude.
From S2P Require Import GoStd.
From S2P Require Import Domain.
From S2P Require Import JourneyGraph.
From S2P Require Import JourneyValidate.
From S2P Require Import JourneyNodes.
From S2P Require Import JourneyDB.
From S2P Require Import JourneyRuntime.
From S2P Require Import JourneyEffects.

Module Invariants.
Import Graph JDB Runtime Effects.

(** ** Rows keep their identity *)

Lemma terminal_not_at_run s r : terminal r -> at_run s r -> False.
Proof. unfold expectedStatus. intros [E|E] [H _]; rewrite E in H; revert H; unfold expectedStatus; by case_match. Qed.

(** Finished runs never change. *)
Lemma effect_terminal F C d d' id r :
  wf d -> effect F C d d' -> db_runs d !! id = Some r -> terminal r -> db_runs d' !! id = Some r.
Proof.
  intros Hw He Hr Ht. destruct He as [intents used Hu|f locked now Hf|sid s s' Hs Hsl Ha Hst Hlv Hcl Hco|now|ri rw tenant now Hrw Hnt
    |ri rw sid s r0 r' now next tr g n i Hrw Hs Hsr Hst Hat HF Hsame Hsame' Hg Hn Hid Htr Hfrom Hm Hi
    |ri rw succ now g tr i Hrw Hst Hg Hedge Hsu Htr Hfrom Hto Hi Hnl
    |rw ri i s now g Hri Hi Hne Hrid Hst Hg Hcur Hkey Hsr Hsn Hsk Hsk2 Hss Hsa]; simpl; try done.
  - destruct (decide (ri = id)) as [->|]; [congruence | by rewrite lookup_insert_ne].
  - destruct (decide (ri = id)) as [->|]; [|by rewrite lookup_insert_ne].
    assert (rw = r) as -> by congruence. by destruct (terminal_not_at_run s r).
  - destruct (decide (ri = id)) as [->|]; [|by rewrite lookup_insert_ne].
    destruct Ht; congruence.
  - destruct (decide (ri = id)) as [->|]; [|by rewrite lookup_insert_ne].
    destruct (Hri (rk_used _ _ _ (wf_run d Hw _ _ Hr))).
Qed.

(** A run's tenant, version and profile are fixed. *)
Lemma effect_same_run F C d d' id r :
  wf d -> effect F C d d' -> db_runs d !! id = Some r ->
  exists r', db_runs d' !! id = Some r' /\ same_run r r'.
Proof.
  intros Hw He Hr. destruct He as [intents used Hu|f locked now Hf|sid s s' Hs Hsl Ha Hst Hlv Hcl Hco|now|ri rw tenant now Hrw Hnt
    |ri rw sid s r0 r' now next tr g n i Hrw Hs Hsr Hst Hat HF Hsame Hsame' Hg Hn Hid Htr Hfrom Hm Hi
    |ri rw succ now g tr i Hrw Hst Hg Hedge Hsu Htr Hfrom Hto Hi Hnl
    |rw ri i s now g Hri Hi Hne Hrid Hst Hg Hcur Hkey Hsr Hsn Hsk Hsk2 Hss Hsa]; simpl;
    try (by (exists r; split; [done | by repeat split]));
    (destruct (decide (ri = id)) as [->|]; [rewrite lookup_insert_eq | rewrite lookup_insert_ne by done;
       exists r; split; [done | by repeat split]]).
  - assert (rw = r) as -> by congruence. eexists. split; [done | by repeat split].
  - assert (rw = r) as -> by congruence. eexists. split; [done | by repeat split].
  - assert (rw = r) as -> by congruence. eexists. split; [done | by repeat split].
  - destruct (Hri (rk_used _ _ _ (wf_run d Hw _ _ Hr))).
Qed.

(** A step row after a change is an old row with its slot intact, or new. *)
Lemma effect_step_slot F C d d' j x :
  effect F C d d' -> db_steps d' !! j = Some x ->
  (exists y, db_steps d !! j = Some y /\ same_slot y x) \/ j ∉ db_used d.
Proof.
  assert (Hrefl : forall y, same_slot y y) by by repeat split.
  intros He Hj. destruct He as [intents used Hu|f locked now Hf|sid s s' Hs Hsl Ha Hst Hlv Hcl Hco|now|ri rw tenant now Hrw Hnt
    |ri rw sid s r0 r' now next tr g n i Hrw Hs Hsr Hst Hat HF Hsame Hsame' Hg Hn Hid Htr Hfrom Hm Hi
    |ri rw succ now g tr i Hrw Hst Hg Hedge Hsu Htr Hfrom Hto Hi Hnl
    |rw ri i s now g Hri Hi Hne Hrid Hst Hg Hcur Hkey Hsr Hsn Hsk Hsk2 Hss Hsa]; simpl in Hj; eauto.
  - apply lookup_insert_Some in Hj as [[<- <-]|[_ Hj]]; eauto.
  - apply lookup_fmap_Some in Hj as (s & <- & Hj). left. exists s. split; [done | apply bury_slot].
  - apply map_lookup_filter_Some in Hj as [Hj _]. eauto.
  - assert (Hc : forall x, <[sid:=complete_step now s]> (db_steps d) !! j = Some x ->
                   exists s0, db_steps d !! j = Some s0 /\ same_slot s0 x).
    { intros x' Hx. apply lookup_insert_Some in Hx as [[<- <-]|[_ Hx]]; [|eauto]. exists s. split; [done | by repeat split]. }
    destruct next as [nx|]; simpl in Hj; [|by left; apply Hc].
    apply lookup_insert_Some in Hj as [[<- _]|[_ Hj]]; [by right | by left; apply Hc].
  - apply lookup_insert_Some in Hj as [[<- _]|[_ Hj]]; [by right|].
    apply lookup_fmap_Some in Hj as (s & <- & Hj). left. exists s. split; [done | apply finish_slot].
  - apply lookup_insert_Some in Hj as [[<- _]|[_ Hj]]; [by right | eauto].
Qed.

(** ** The transition log is a path *)

Definition log (d : DB) (id : string) : list JourneyTransition :=
  filter (fun tr => tr_RunID tr = id) (db_transitions d).
Definition has_edge (g : Graph) (a b : string) : bool :=
  existsb (fun e => (From e =s a) && (To e =s b)) (Edges g).
(** Follow the log from node [cur]: each transition must leave the current
    node, by an edge of the graph when it names a target. *)
Fixpoint replay (g : Graph) (cur : string) (l : list JourneyTransition) : option string :=
  match l with
  | [] => Some cur
  | tr :: l' =>
      if bool_decide (tr_FromNode tr = Some cur) then
        match tr_ToNode tr with
        | None => replay g cur l'
        | Some t => if t =s "" then replay g cur l'
                    else if has_edge g cur t then replay g t l' else None
        end
      else None
  end.

Lemma replay_app g c l k : replay g c (l ++ k) = (c' ← replay g c l; replay g c' k).
Proof.
  revert c. induction l as [|tr l IH]; intros c; [done|]. simpl.
  case_bool_decide; [|done]. destruct (tr_ToNode tr) as [t|]; [|apply IH].
  destruct (t =s ""); [apply IH|]. by destruct (has_edge g c t).
Qed.

Lemma has_edge_true g a b : Validate.edge_rel g a b -> has_edge g a b = true.
Proof.
  intros (e & He & <- & <-). apply existsb_exists. exists e.
  split; [by apply list_elem_of_In | by rewrite !seqb_refl].
Qed.

Definition path_ok (d : DB) : Prop :=
  forall id r, db_runs d !! id = Some r -> exists g c, graph_of d r g /\
    replay g (EntryNodeID g) (log d id) = Some c /\ (live_run r -> c = run_CurrentNodeID r).

Lemma log_snoc d id tr :
  filter (fun x => tr_RunID x = id) (db_transitions d ++ [tr]) =
  log d id ++ (if bool_decide (tr_RunID tr = id) then [tr] else []).
Proof. unfold log. rewrite filter_app. f_equal. rewrite filter_cons. case_decide; by case_bool_decide. Qed.

Lemma log_fresh d id : wf d -> id ∉ db_used d -> log d id = [].
Proof.
  intros Hw Hid. unfold log. destruct (filter _ _) as [|tr l] eqn:E; [done|]. exfalso.
  assert (Htr : tr ∈ filter (fun x => tr_RunID x = id) (db_transitions d)) by (rewrite E; apply list_elem_of_here).
  apply list_elem_of_filter in Htr as [<- Htr]. apply (wf_trans d Hw) in Htr as [r Hr].
  exact (Hid (rk_used _ _ _ (wf_run d Hw _ _ Hr))).
Qed.

Lemma at_run_live s r : at_run s r -> live_run r.
Proof. intros [H _]. unfold live_run. rewrite H. unfold expectedStatus. case_match; auto. Qed.

(** One move extends the replay. *)
Lemma move_replay g n r0 r' next tr :
  move g n r0 r' next tr -> tr_FromNode tr = Some (ID n) ->
  exists c, replay g (ID n) [tr] = Some c /\ (live_run r' -> c = run_CurrentNodeID r').
Proof.
  intros Hm Hf. simpl. rewrite bool_decide_true by done. unfold live_run.
  destruct Hm as [t at_ He Ht Hto Hc _ _|at_ _ Hto Hc _ _ _|Hto Hc _ Hs].
  - rewrite Hto. apply seqb_false in Ht. rewrite Ht, (has_edge_true g _ _ He). exists t. by split.
  - rewrite Hto. exists (ID n). by split.
  - exists (ID n). split; [by destruct Hto as [->| ->] | rewrite Hs; by intros [|]].
Qed.

Lemma effect_path F C d d' : wf d -> path_ok d -> effect F C d d' -> path_ok d'.
Proof.
  intros Hw Hp He. destruct He as [intents used Hu|f locked now Hf|sid s s' Hs Hsl Ha Hst Hlv Hcl Hco|now|ri rw tenant now Hrw Hnt
    |ri rw sid s r0 r' now next tr g n i Hrw Hs Hsr Hst Hat HF Hsame Hsame' Hg Hn Hid Htr Hfrom Hm Hi
    |ri rw succ now g tr i Hrw Hst Hg Hedge Hsu Htr Hfrom Hto Hi Hnl
    |rw ri i s now g Hri Hi Hne Hrid Hst Hg Hcur Hkey Hsr Hsn Hsk Hsk2 Hss Hsa]; try exact Hp.
  - intros id r Hr. simpl in Hr. destruct (Hp id r Hr) as (g & c & (v & Hv & Hg) & Hrep & Hc).
    exists g, c. split; [|done]. exists (f v). simpl. rewrite lookup_fmap, Hv. by destruct (Hf v) as [-> _].
  - intros j x Hj. simpl in Hj. apply lookup_insert_Some in Hj as [[<- <-]|[_ Hj]]; [|by apply Hp].
    destruct (Hp ri rw Hrw) as (g & c & Hg & Hrep & _). exists g, c. split; [done|]. split; [done|].
    intros [E|E]; discriminate E.
  - intros j x Hj. simpl in Hj. unfold log. simpl. rewrite log_snoc.
    apply lookup_insert_Some in Hj as [[<- <-]|[Hne Hj]].
    + destruct (Hp ri rw Hrw) as (g' & c & (v & Hv & Hg') & Hrep & Hc).
      destruct Hg as (v' & Hv' & Hg). assert (v' = v) as -> by congruence. assert (g' = g) as -> by congruence.
      rewrite (Hc (at_run_live _ _ Hat)), (proj2 Hat), <- Hid in Hrep.
      destruct (move_replay _ _ _ _ _ _ Hm Hfrom) as (c' & Hc1 & Hc2).
      exists g, c'. split; [by exists v|]. rewrite bool_decide_true by done.
      by rewrite replay_app, Hrep.
    + destruct (Hp j x Hj) as (g' & c & Hg' & Hrep & Hc). exists g', c.
      rewrite bool_decide_false by congruence. by rewrite app_nil_r.
  - intros j x Hj. simpl in Hj. unfold log. simpl. rewrite log_snoc.
    apply lookup_insert_Some in Hj as [[<- <-]|[Hne Hj]].
    + destruct (Hp ri rw Hrw) as (g' & c & (v & Hv & Hg') & Hrep & Hc).
      destruct Hg as (v' & Hv' & Hg). assert (v' = v) as -> by congruence. assert (g' = g) as -> by congruence.
      rewrite (Hc (or_intror Hst)) in Hrep.
      exists g, succ. split; [by exists v|]. rewrite bool_decide_true by done. split; [|done].
      rewrite replay_app, Hrep. simpl. rewrite bool_decide_true by done. rewrite Hto.
      apply seqb_false in Hsu. by rewrite Hsu, (has_edge_true g _ _ Hedge).
    + destruct (Hp j x Hj) as (g' & c & Hg' & Hrep & Hc). exists g', c.
      rewrite bool_decide_false by congruence. by rewrite app_nil_r.
  - intros j x Hj. simpl in Hj. apply lookup_insert_Some in Hj as [[<- <-]|[_ Hj]]; [|by apply Hp].
    exists g, (EntryNodeID g). split; [done|]. split; [|done].
    change (log _ ri) with (log d ri). by rewrite log_fresh.
Qed.

(** ** Published graphs *)

(** Publication validates the graph of every version (publishing.go). *)
Definition valid_graphs (d : DB) : Prop :=
  forall i v, db_versions d !! i = Some v -> jv_ID v = i /\ exists g, ParseGraph (jv_Graph v) = Ok g /\ Validate.Valid g.

Lemma effect_valid F C d d' : valid_graphs d -> effect F C d d' -> valid_graphs d'.
Proof.
  intros Hv He. destruct He; try exact Hv.
  intros i v Hi. simpl in Hi. apply lookup_fmap_Some in Hi as (v0 & <- & Hi). destruct (H v0) as [-> ->]. by apply (Hv i).
Qed.

Lemma graph_valid d r g : valid_graphs d -> graph_of d r g -> Validate.Valid g.
Proof. intros Hv (v & Hl & Hg). destruct (Hv _ _ Hl) as (_ & g' & Hg' & Hvalid). congruence. Qed.

Lemma graph_of_fun d r g1 g2 : graph_of d r g1 -> graph_of d r g2 -> g1 = g2.
Proof. intros (v & Hv & Hg) (v' & Hv' & Hg'). congruence. Qed.

Lemma valid_unique g n1 n2 :
  Validate.Valid g -> n1 ∈ Nodes g -> n2 ∈ Nodes g -> ID n1 = ID n2 -> n1 = n2.
Proof.
  intros Hg. pose proof (Validate.val_ids g Hg) as Hnd. induction (Nodes g) as [|n l IH]; [set_solver|].
  rewrite fmap_cons in Hnd. apply NoDup_cons in Hnd as [Hni Hnd].
  rewrite !elem_of_cons. intros [->|H1] [->|H2] E; [done|..|by apply IH].
  - exfalso. apply Hni. rewrite E. by apply list_elem_of_fmap_2.
  - exfalso. apply Hni. rewrite <- E. by apply list_elem_of_fmap_2.
Qed.

(** ** Waiting runs stand at wait nodes *)

(** The worker's snapshot has the status of the row it commits against. *)
Definition fresh_status (r0 r : JourneyRun) : Prop := run_Status r0 = run_Status r.

Definition wait_ok (d : DB) : Prop :=
  forall id r g, db_runs d !! id = Some r -> graph_of d r g -> run_Status r = "waiting" ->
    exists n, n ∈ Nodes g /\ ID n = run_CurrentNodeID r /\ Type_ n = NodeTypeWaitEvent.

(** With a fresh snapshot, a move to another node leaves the run active. *)
Lemma move_fresh d id r0 r r' g n s next tr :
  valid_graphs d -> wait_ok d -> db_runs d !! id = Some r -> graph_of d r g -> n ∈ Nodes g ->
  ID n = step_NodeID s -> at_run s r -> fresh_status r0 r -> move g n r0 r' next tr ->
  match next with
  | Some nx => run_Status r' = "active" /\ step_Kind nx = "advance" \/
               run_Status r' = "waiting" /\ step_Kind nx = "timeout" /\ run_CurrentNodeID r' = ID n /\ Type_ n = NodeTypeWaitEvent
  | None => run_Status r' = "completed"
  end.
Proof.
  intros Hv Hw Hr Hg Hn Hid Hat HF [t at_ _ _ _ _ -> Hs|at_ Hty _ Hc -> Hs _|_ _ -> Hs]; [left|by right|done].
  split; [|done]. destruct Hs as [|[Hs Hty]]; [done|].
  destruct (at_run_live _ _ Hat) as [E|E]; [congruence|].
  exfalso. destruct (Hw id r g Hr Hg E) as (m & Hm & Hmid & Hmt).
  assert (m = n) as ->; [|done]. apply (valid_unique g); [by eapply graph_valid | done..|].
  rewrite Hmid, (proj2 Hat). congruence.
Qed.

Lemma effect_wait C d d' :
  wf d -> valid_graphs d -> wait_ok d -> effect fresh_status C d d' -> wait_ok d'.
Proof.
  intros Hwf Hv Hw He. destruct He as [intents used Hu|f locked now Hf|sid s s' Hs Hsl Ha Hst Hlv Hcl Hco|now|ri rw tenant now Hrw Hnt
    |ri rw sid s r0 r' now next tr g n i Hrw Hs Hsr Hst Hat HF Hsame Hsame' Hg Hn Hid Htr Hfrom Hm Hi
    |ri rw succ now g tr i Hrw Hst Hg Hedge Hsu Htr Hfrom Hto Hi Hnl
    |rw ri i s now g Hri Hi Hne Hrid Hst Hg Hcur Hkey Hsr Hsn Hsk Hsk2 Hss Hsa]; try exact Hw.
  - intros id r g Hr (v & Hl & Hg) Hs. simpl in *. apply lookup_fmap_Some in Hl as (v0 & <- & Hl).
    rewrite (proj1 (Hf v0)) in Hg. apply (Hw id r g); [done | by exists v0 | done].
  - intros id r g Hr Hg Hs. simpl in *. apply lookup_insert_Some in Hr as [[<- <-]|[_ Hr]]; [discriminate Hs|].
    by apply (Hw id r g).
  - intros id r g2 Hr Hg2 Hs2. simpl in *. apply lookup_insert_Some in Hr as [[<- <-]|[_ Hr]]; [|by apply (Hw id r g2)].
    change (graph_of d rw g2) in Hg2. assert (g2 = g) as -> by by eapply graph_of_fun.
    pose proof (move_fresh d _ _ _ _ _ _ _ _ _ Hv Hw Hrw Hg Hn Hid Hat HF Hm) as Hmf.
    simpl in Hs2. destruct next as [nx|]; [|congruence].
    destruct Hmf as [[? _]|(_ & _ & Hc & Hty)]; [congruence|]. exists n. by simpl.
  - intros id r g2 Hr Hg2 Hs2. simpl in *. apply lookup_insert_Some in Hr as [[<- <-]|[_ Hr]]; [discriminate Hs2|].
    by apply (Hw id r g2).
  - intros id r g2 Hr Hg2 Hs2. simpl in *. apply lookup_insert_Some in Hr as [[<- <-]|[_ Hr]]; [congruence|].
    by apply (Hw id r g2).
Qed.

(** ** No live run is lost *)

Definition tracks (s : JourneyStep) (r : JourneyRun) : Prop :=
  step_RunID s = run_ID r /\ step_TenantID s = run_TenantID r /\ step_NodeID s = run_CurrentNodeID r /\
  kind_matches s r = true /\ step_Status s <> "completed".
Definition tracked (d : DB) : Prop :=
  forall id r, db_runs d !! id = Some r -> live_run r -> exists i s, db_steps d !! i = Some s /\ tracks s r.

Lemma kind_at_run s r : kind_matches s r = true -> step_NodeID s = run_CurrentNodeID r -> at_run s r.
Proof.
  intros Hk Hn. split; [|done]. unfold expectedStatus. unfold kind_matches in Hk.
  apply orb_true_iff in Hk as [Hk|Hk]; apply andb_prop in Hk as [Hk1 Hk2];
    apply seqb_true in Hk1; apply seqb_true in Hk2; by rewrite Hk1, Hk2.
Qed.

Lemma tracks_slot s s' r : same_slot s s' -> tracks s r -> step_Status s' <> "completed" -> tracks s' r.
Proof.
  intros (_ & E1 & E2 & E3 & E4) (? & ? & ? & Hk & _) Hs. unfold tracks, kind_matches in *.
  rewrite E1, E2, E3, E4. done.
Qed.

(** The step written by an advance tracks the advanced run. *)
Lemma next_tracks g n r0 r r' nx tr i now :
  move g n r0 r' (Some nx) tr -> same_run r0 r ->
  (run_Status r' = "active" /\ step_Kind nx = "advance" \/
   run_Status r' = "waiting" /\ step_Kind nx = "timeout" /\ run_CurrentNodeID r' = ID n /\ Type_ n = NodeTypeWaitEvent) ->
  tracks (step_row i now (step_defaults now nx)) (advance_row r' now r).
Proof.
  intros Hm (Hid & Hten & _) Hk. apply move_next in Hm as (Hr & Ht & Hn & _ & _ & Hd).
  destruct (Hd now) as [Hs Hkd]. destruct (step_defaults_fields now nx) as (E1 & E2 & E3 & _).
  unfold tracks, kind_matches. simpl. rewrite E1, E2, E3, Hs, Hkd.
  split; [congruence|]. split; [congruence|]. split; [done|]. split; [|done].
  by destruct Hk as [[-> ->]|(-> & -> & _)].
Qed.

(** A change of the step table that keeps the slots and never completes a
    row keeps every run tracked. *)
Lemma tracked_steps d (m : gmap string JourneyStep) id r :
  tracked d -> db_runs d !! id = Some r -> live_run r ->
  (forall i s, db_steps d !! i = Some s -> tracks s r ->
     exists s', m !! i = Some s' /\ same_slot s s' /\ step_Status s' <> "completed") ->
  exists i s, m !! i = Some s /\ tracks s r.
Proof.
  intros Ht Hr Hl Hm. destruct (Ht id r Hr Hl) as (i & s & Hi & Hs).
  destruct (Hm i s Hi Hs) as (s' & Hi' & Hsl & Hst). exists i, s'. split; [done | by eapply tracks_slot].
Qed.

Lemma bury_not_completed now s : step_Status s <> "completed" -> step_Status (bury_step now s) <> "completed".
Proof. unfold bury_step. by case_match. Qed.

(** The steps of other runs survive the changes of one run. *)
Lemma other_run d id r s : wf d -> db_runs d !! id = Some r -> tracks s r -> step_RunID s = id.
Proof. intros Hw Hr (E & _). by rewrite E, (rk_id _ _ _ (wf_run d Hw _ _ Hr)). Qed.

Lemma same_slot_refl s : same_slot s s.
Proof. by repeat split. Qed.
Hint Resolve same_slot_refl : oj.

Lemma effect_tracked C d d' :
  wf d -> valid_graphs d -> wait_ok d -> tracked d -> effect fresh_status C d d' -> tracked d'.
Proof.
  intros Hwf Hv Hw Ht He. destruct He as [intents used Hu|f locked now Hf|sid s s' Hs Hsl Ha Hst Hlv Hcl Hco|now|ri rw tenant now Hrw Hnt
    |ri rw sid s r0 r' now next tr g n i Hrw Hs Hsr Hst Hat HF Hsame Hsame' Hg Hn Hid Htr Hfrom Hm Hi
    |ri rw succ now g tr i Hrw Hst Hg Hedge Hsu Htr Hfrom Hto Hi Hnl
    |rw ri i s now g Hri Hi Hne Hrid Hst Hg Hcur Hkey Hsr Hsn Hsk Hsk2 Hss Hsa]; try exact Ht; intros id r Hr Hl; simpl in Hr; simpl.
  - apply (tracked_steps d _ id r Ht Hr Hl). intros j x Hj Hx.
    destruct (decide (j = sid)) as [->|Hne]; [|exists x; rewrite lookup_insert_ne by done; destruct Hx as (_&_&_&_&?); auto with oj].
    assert (x = s) as -> by congruence. exists s'. rewrite lookup_insert_eq. split; [done|]. split; [done|].
    intros Hc. destruct Hx as (E & _ & En & Hk & _). rewrite (rk_id _ _ _ (wf_run d Hwf _ _ Hr)) in E.
    apply (Hco Hc r); [by rewrite E | by apply kind_at_run].
  - apply (tracked_steps d _ id r Ht Hr Hl). intros j x Hj Hx. exists (bury_step now x).
    rewrite lookup_fmap, Hj. split; [done|]. split; [apply bury_slot | apply bury_not_completed, Hx].
  - apply lookup_insert_Some in Hr as [[<- <-]|[Hne Hr]]; [by destruct Hl as [E|E]; discriminate E|].
    apply (tracked_steps d _ id r Ht Hr Hl). intros j x Hj Hx. exists x.
    split; [|split; [apply same_slot_refl | apply Hx]]. apply map_lookup_filter_Some. split; [done|]. simpl.
    apply (other_run d id r x Hwf Hr) in Hx as E. rewrite (proj2 (seqb_false (step_RunID x) ri)) by congruence.
    by rewrite andb_false_r.
  - apply lookup_insert_Some in Hr as [[<- <-]|[Hne Hr]].
    + pose proof (move_fresh d _ _ _ _ _ _ _ _ _ Hv Hw Hrw Hg Hn Hid Hat HF Hm) as Hmf.
      destruct next as [nx|]; [|by destruct Hl as [E|E]; simpl in E; congruence].
      exists i, (step_row i now (step_defaults now nx)). split; [simpl; by rewrite lookup_insert_eq | by eapply next_tracks].
    + apply (tracked_steps d _ id r Ht Hr Hl). intros j x Hj Hx. exists x.
      split; [|split; [apply same_slot_refl | apply Hx]].
      apply (other_run d id r x Hwf Hr) in Hx as E.
      assert (Hjs : sid <> j) by congruence.
      assert (Hji : i <> j) by (intros ->; by destruct (Hi (sk_used _ _ _ (wf_step d Hwf _ _ Hj)))).
      destruct next; simpl; by rewrite ?lookup_insert_ne.
  - apply lookup_insert_Some in Hr as [[<- <-]|[Hne Hr]].
    + eexists i, _. split; [by rewrite lookup_insert_eq|].
      unfold tracks. simpl. rewrite (rk_id _ _ _ (wf_run d Hwf _ _ Hrw)). done.
    + apply (tracked_steps d _ id r Ht Hr Hl). intros j x Hj Hx.
      apply (other_run d id r x Hwf Hr) in Hx as E.
      assert (Hji : i <> j) by (intros ->; by destruct (Hi (sk_used _ _ _ (wf_step d Hwf _ _ Hj)))).
      exists (finish_timeout ri now x). rewrite lookup_insert_ne, lookup_fmap, Hj by done.
      split; [done|]. split; [apply finish_slot|]. unfold finish_timeout.
      rewrite (proj2 (seqb_false (step_RunID x) ri)) by congruence. apply Hx.
  - apply lookup_insert_Some in Hr as [[<- <-]|[Hne' Hr]].
    + exists i, (step_row i now s). split; [by rewrite lookup_insert_eq|].
      unfold tracks, kind_matches. simpl. rewrite Hsr, Hsn, Hsk, Hsk2, Hss, Hrid, Hst, Hcur. done.
    + apply (tracked_steps d _ id r Ht Hr Hl). intros j x Hj Hx. exists x.
      assert (Hji : i <> j) by (intros ->; by destruct (Hi (sk_used _ _ _ (wf_step d Hwf _ _ Hj)))).
      rewrite lookup_insert_ne by done. split; [done|]. split; [apply same_slot_refl | apply Hx].
Qed.
End Invariants.
