(* ===== verification/JourneyOps.v ===== *)
(** * The store methods as effects

    Every method of [JourneyDB] that writes, seen as a sequence of the changes
    of [JourneyEffects]; a method that fails inside a transaction changes
    nothing. *)

From S2P Require Import Prelude.
From S2P Require Import GoStd.
From S2P Require Import Domain.
From S2P Require Import Store.
From S2P Require Import JourneyGraph.
From S2P Require Import JourneyValidate.
From S2P Require Import JourneyNodes.
From S2P Require Import JourneyDB.
From S2P Require Import JourneyRuntime.
From S2P Require Import JourneyEffects.
From S2P Require Import JourneyInvariants.

Module Ops.
Import Graph JDB Runtime Effects Invariants.

Lemma mem_status x l : mem x l = true -> x ∈ l.
Proof. apply mem_In. Qed.

(** ** Primitive writes *)

Lemma live_conflict_no_live d s :
  live_conflict d s = false -> live s = true ->
  (forall i x, db_steps d !! i = Some x -> step_ID x = i) ->
  no_live (step_RunID s) (delete (step_ID s) (db_steps d)).
Proof.
  unfold live_conflict. intros Hc Hl _ i x Hi Hr. rewrite Hl in Hc. simpl in Hc.
  apply lookup_delete_Some in Hi as [Hne Hi]. destruct (live x) eqn:Ex; [|done].
  apply not_true_iff_false in Hc. exfalso. apply Hc. apply existsb_exists. exists (i, x).
  split; [by apply list_elem_of_In, elem_of_map_to_list|]. simpl. rewrite Ex, Hr, seqb_refl.
  rewrite (proj2 (seqb_false i (step_ID s))) by congruence. done.
Qed.

Lemma put_step_inv s d res d' :
  put_step s d = (res, d') ->
  (exists e, res = Err e /\ d' = d) \/
  (res = Ok tt /\ d' = set_steps (<[step_ID s := s]> (db_steps d)) d /\
   step_Status s ∈ step_statuses /\ is_Some (db_runs d !! step_RunID s) /\ live_conflict d s = false).
Proof.
  unfold put_step. intros H. destruct (mem (step_Status s) step_statuses) eqn:Es; simpl in H.
  2:{ injection H as <- <-. eauto. }
  destruct (negb _); [injection H as <- <-; eauto|].
  case_bool_decide as Hr; [injection H as <- <-; eauto|].
  destruct (live_conflict d s) eqn:Ec; injection H as <- <-; [eauto|].
  right. split; [done|]. split; [done|]. split; [by apply mem_In|]. split; [by apply not_eq_None_Some | done].
Qed.

(** An update of one row that stays in its slot. *)
Lemma update_step_effect F C id f d res d' :
  wf d -> update_step id f d = (res, d') ->
  (forall s, db_steps d !! id = Some s -> same_slot s (f (db_now d) s) /\
     (0 <= step_Attempts s <= 10 -> 0 <= step_Attempts (f (db_now d) s) <= 10) /\
     step_Status (f (db_now d) s) <> "processing" /\
     (step_Status (f (db_now d) s) = "completed" -> forall r, db_runs d !! step_RunID s = Some r -> ~ at_run s r)) ->
  d' = d \/ effect F C d d'.
Proof.
  intros Hw H Hf. unfold update_step in H. destruct (db_steps d !! id) as [s|] eqn:Es; [|injection H as _ <-; by left].
  destruct (Hf s eq_refl) as (Hsl & Ha & Hp & Hc). pose proof (wf_step d Hw id s Es) as [Hid _ _ Hat _ _ _].
  apply put_step_inv in H as [(e & _ & ->)|(_ & -> & Hst & _ & Hcf)]; [by left|]. right.
  assert (Eid : step_ID (f (db_now d) s) = id) by (destruct Hsl; congruence).
  rewrite Eid. apply (ef_step F C d id s); auto; [|by intros E; apply Hp in E].
  intros Hl. apply live_conflict_no_live in Hcf; [|done|].
  - by rewrite Eid, (same_slot_run _ _ Hsl) in Hcf.
  - intros i x Hi. apply (wf_step d Hw i x Hi).
Qed.

Lemma insert_step_inv s d d' :
  insert_step s d = (Ok tt, d') ->
  let i := fresh (db_used d) in
  d' = set_steps (<[i := step_row i (db_now d) s]> (db_steps d)) (set_used ({[i]} ∪ db_used d) d) /\
  (step_Status s ∈ step_statuses) /\ is_Some (db_runs d !! step_RunID s) /\
  (live s = true -> no_live (step_RunID s) (delete i (db_steps d))).
Proof.
  intros H i. unfold insert_step, new_id, get, mbind, M_bind in H. fold i in H.
  apply put_step_inv in H as [(e & H & _)|(_ & -> & Hst & Hr & Hc)]; [discriminate|].
  split; [reflexivity|]. split; [done|]. split; [done|]. intros Hl j x Hj Hx.
  apply lookup_delete_Some in Hj as [Hne Hj]. destruct (live x) eqn:Ex; [|done]. exfalso.
  unfold live_conflict in Hc. apply not_true_iff_false in Hc. apply Hc.
  apply andb_true_intro. split; [exact Hl|].
  apply existsb_exists. exists (j, x). split; [by apply list_elem_of_In, elem_of_map_to_list|]. simpl.
  rewrite Ex, Hx, seqb_refl, (proj2 (seqb_false j i)); [done | congruence].
Qed.

Lemma insert_transition_inv tr d d' :
  insert_transition tr d = (Ok tt, d') ->
  exists tr', d' = set_transitions (db_transitions d ++ [tr']) (set_used ({[fresh (db_used d)]} ∪ db_used d) d) /\
    tr_RunID tr' = tr_RunID tr /\ tr_FromNode tr' = tr_FromNode tr /\ tr_ToNode tr' = tr_ToNode tr.
Proof.
  unfold insert_transition. case_bool_decide as Hr; [discriminate|]. intros Ht.
  injection Ht as <-. eexists. split; [reflexivity|].
  simpl. by destruct (raw_len0 _).
Qed.

Lemma insert_intent_inv i d res d' :
  insert_intent i d = (res, d') ->
  exists intents used, db_used d ⊆ used /\ d' = set_intents intents (set_used used d).
Proof.
  assert (Hd : d = set_intents (db_intents d) (set_used (db_used d) d)) by by destruct d.
  unfold insert_intent. intros H.
  destruct (negb _); [injection H as _ <-; eauto|].
  case_bool_decide; [injection H as _ <-; eauto|].
  destruct (existsb _ _); [injection H as _ <-; eauto|].
  injection H as _ <-. eexists _, _. split; [|reflexivity]. set_solver.
Qed.

Lemma insert_intents_inv l d res d' :
  insert_intents l d = (res, d') ->
  exists intents used, db_used d ⊆ used /\ d' = set_intents intents (set_used used d).
Proof.
  revert d. induction l as [|i l IH]; intros d H; simpl in H.
  { injection H as _ <-. exists (db_intents d), (db_used d). split; [done | by destruct d]. }
  unfold mbind, M_bind, wrapM in H. destruct (insert_intent i d) as [r d1] eqn:E.
  apply insert_intent_inv in E as (in1 & u1 & Hu1 & ->). destruct r as [[]|e]; simpl in H.
  - apply IH in H as (in2 & u2 & Hu2 & ->). exists in2, u2. split; [simpl in Hu2; set_solver | done].
  - injection H as _ <-. eauto.
Qed.

Lemma tx_err {A} (m : Tx A) d e d' : tx m d = (Err e, d') -> d' = d.
Proof. unfold tx. destruct (m d) as [[]]; congruence. Qed.
Lemma tx_ok {A} (m : Tx A) d a d' : tx m d = (Ok a, d') -> m d = (Ok a, d').
Proof. unfold tx. destruct (m d) as [[]]; congruence. Qed.

(** ** Claiming *)

Lemma oldest_in l s : oldest l = Some s -> s ∈ l.
Proof.
  revert s. induction l as [|x l IH]; intros s; simpl; [done|].
  destruct (oldest l) as [y|]; [|intros; inv_ok; apply list_elem_of_here].
  destruct (_ <=? _); intros; inv_ok; [apply list_elem_of_here | apply list_elem_of_further; auto].
Qed.

Lemma next_step_inv d s :
  next_step d = Some s -> exists i, db_steps d !! i = Some s /\ claimable d s = true.
Proof.
  unfold next_step. intros H. apply oldest_in, list_elem_of_filter in H as [Hc Hin].
  apply andb_prop in Hc as [Hc _]. apply list_elem_of_fmap in Hin as ([i x] & -> & Hin).
  apply elem_of_map_to_list in Hin. eauto.
Qed.

(** What a claimed step is. *)
Lemma claimable_inv d s :
  claimable d s = true -> step_Attempts s < 10 /\
  exists r, db_runs d !! step_RunID s = Some r /\ step_TenantID s = run_TenantID r /\
    step_NodeID s = run_CurrentNodeID r /\ kind_matches s r = true.
Proof.
  unfold claimable, step_ready. destruct (db_runs d !! _) as [r|] eqn:Er; [|done].
  destruct (db_versions d !! _) as [v|]; [|done]. rewrite !andb_true_iff, orb_true_iff, !andb_true_iff, !seqb_true.
  intros ((((_ & Ht) & Hn) & Hk) & Ha). split; [lia|]. eauto.
Qed.

Definition buried (d : DB) : DB := set_steps (bury_step (db_now d) <$> db_steps d) d.

Lemma claim_inv d res d' :
  wf d -> ClaimJourneyStep d = (res, d') ->
  (d' = buried d /\ forall s, res <> Ok (Some s)) \/
  exists s, res = Ok (Some (claimed (db_now d) s)) /\ db_steps (buried d) !! step_ID s = Some s /\
    claimable (buried d) s = true /\ live_conflict (buried d) (claimed (db_now d) s) = false /\
    d' = set_steps (<[step_ID s := claimed (db_now d) s]> (db_steps (buried d))) (buried d).
Proof.
  intros Hw H. unfold ClaimJourneyStep, put, get, mbind, M_bind in H. fold (buried d) in H.
  destruct (next_step (buried d)) as [s|] eqn:En; [|unfold mret, M_ret in H; injection H as <- <-; left; by split].
  apply next_step_inv in En as (i & Hi & Hc).
  assert (Hid : step_ID s = i).
  { simpl in Hi. apply lookup_fmap_Some in Hi as (s0 & <- & Hi).
    destruct (bury_slot (db_now d) s0) as [-> _]. apply (wf_step d Hw _ _ Hi). }
  change (db_now (buried d)) with (db_now d) in H.
  destruct (put_step _ _) as [r d1] eqn:Ep. apply put_step_inv in Ep as [(e & -> & ->)|(-> & -> & _ & _ & Hcf)].
  - injection H as <- <-. left. by split.
  - unfold mret, M_ret in H. injection H as <- <-. right. exists s. rewrite Hid. auto.
Qed.

Lemma claim_effect F (C : string -> Prop) d res d' :
  wf d -> ClaimJourneyStep d = (res, d') ->
  (forall s, res = Ok (Some s) -> C (step_ID s)) -> rtc (effect F C) d d'.
Proof.
  intros Hw H HC. assert (Hb : effect F C d (buried d)) by apply ef_bury.
  pose proof (effect_wf F C d _ Hw Hb) as Hwb.
  apply claim_inv in H as [[-> _]|(s & -> & Hi & Hc & Hcf & ->)]; [by apply rtc_once | | done].
  eapply rtc_l; [exact Hb|]. apply rtc_once.
  apply claimable_inv in Hc as [Ha _].
  apply (ef_step F C (buried d) (step_ID s) s); [done | by repeat split | | simpl; set_solver | | | discriminate].
  - pose proof (sk_attempts _ _ _ (wf_step _ Hwb _ _ Hi)). simpl. lia.
  - intros _. apply (live_conflict_no_live _ _ Hcf); [done|].
    intros j x Hj. apply (wf_step _ Hwb _ _ Hj).
  - intros _. split; [by apply (HC (claimed (db_now d) s)) | by eexists].
Qed.

(** ** The unguarded updates *)

Lemma fail_effect F C d id msg :
  wf d -> rtc (effect F C) d (FailJourneyStep id msg d).2.
Proof.
  intros Hw. unfold FailJourneyStep. destruct (update_step id (failed_step msg) d) as [res d'] eqn:E.
  apply (update_step_effect F C) in E as [->|E]; [apply rtc_refl | by apply rtc_once | done |].
  intros s _. split; [by repeat split|]. split; [done|]. unfold failed_step. simpl. by destruct (10 <=? _).
Qed.

Lemma reschedule_effect F C d id at_ res d' :
  wf d -> RescheduleJourneyStep id at_ d = (res, d') -> rtc (effect F C) d d'.
Proof.
  intros Hw E. apply (update_step_effect F C) in E as [->|E]; [apply rtc_refl | by apply rtc_once | done |].
  intros s _. split; [by repeat split|]. by split; [simpl; lia|].
Qed.

Lemma retry_effect F C d p id res d' :
  wf d -> RetryJourneyStep p id d = (res, d') -> rtc (effect F C) d d'.
Proof.
  intros Hw E. unfold RetryJourneyStep in E.
  destruct (db_steps d !! id) as [s|] eqn:Es; [|injection E as _ <-; apply rtc_refl].
  destruct (_ && _); [|injection E as _ <-; apply rtc_refl].
  assert (E' : update_step id retried_step d = (res, d')) by by unfold update_step; rewrite Es.
  apply (update_step_effect F C) in E' as [->|E']; [apply rtc_refl | by apply rtc_once | done |].
  intros x _. split; [by repeat split|]. by split; [simpl; lia|].
Qed.

Lemma cancel_effect F C d p j id res d' :
  CancelJourneyRun p j id d = (res, d') -> rtc (effect F C) d d'.
Proof.
  unfold CancelJourneyRun. intros H.
  destruct (db_runs d !! id) as [r|] eqn:Er; [|injection H as _ <-; apply rtc_refl].
  destruct (_ && _); [|injection H as _ <-; apply rtc_refl].
  destruct (mem _ _) eqn:Em; [injection H as _ <-; apply rtc_refl|].
  injection H as _ <-. apply rtc_once. apply ef_cancel; [done|].
  intros Ht. apply not_true_iff_false in Em. apply Em. apply mem_In.
  destruct Ht as [->| ->]; set_solver.
Qed.

(** ** Advancing *)

Lemma book_eq F C d E intents used :
  effect F C d E -> db_used E ⊆ used -> rtc (effect F C) d (set_intents intents (set_used used E)).
Proof. intros He Hu. eapply rtc_l; [exact He|]. apply rtc_once. by apply ef_book. Qed.

Lemma GetJourneyRunSystem_inv t id d r d' :
  GetJourneyRunSystem t id d = (Ok r, d') -> d' = d /\ db_runs d !! id = Some r /\ run_TenantID r = t.
Proof.
  unfold GetJourneyRunSystem. destruct (db_runs d !! id) as [x|]; [|discriminate].
  destruct (_ =s _) eqn:E; [|discriminate]. intros; inv_ok. by apply seqb_true in E.
Qed.

Lemma wrapM_inv {A} f (m : Tx A) d a d' : wrapM f m d = (Ok a, d') -> m d = (Ok a, d').
Proof. apply wrapM_Ok. Qed.

Lemma update_step_inv id f d d' :
  update_step id f d = (Ok tt, d') ->
  forall s, db_steps d !! id = Some s -> step_ID (f (db_now d) s) = id ->
    d' = set_steps (<[id := f (db_now d) s]> (db_steps d)) d.
Proof.
  unfold update_step. intros H s Hs Hid. rewrite Hs in H.
  apply put_step_inv in H as [(e & H & _)|(_ & -> & _)]; [discriminate | by rewrite Hid].
Qed.

(** The committing branch of [AdvanceRunTx], as one explicit database. *)
Lemma advance_commit_inv runID run sid next trans intents r s d d' :
  wf d -> db_runs d !! runID = Some r -> db_steps d !! sid = Some s -> step_RunID s = runID ->
  (now ← get db_now;
   _ ← wrapM "advance update run: %w" (put_run runID (advance_row run now r));
   _ ← wrapM "advance complete step: %w" (update_step sid complete_step);
   _ ← match next with
       | None => mret tt
       | Some x => wrapM "advance insert step: %w" (insert_step (step_defaults now x))
       end;
   _ ← wrapM "advance record transition: %w" (insert_transition trans);
   insert_intents intents) d = (Ok tt, d') ->
  let i := fresh (db_used d) in
  exists tr used ints, {[i]} ∪ db_used d ⊆ used /\
    tr_RunID tr = tr_RunID trans /\ tr_FromNode tr = tr_FromNode trans /\ tr_ToNode tr = tr_ToNode trans /\
    d' = set_intents ints (set_used used (set_used ({[i]} ∪ db_used d)
           (set_transitions (db_transitions d ++ [tr])
             (set_steps (add_next i (db_now d) next (<[sid := complete_step (db_now d) s]> (db_steps d)))
               (set_runs (<[runID := advance_row run (db_now d) r]> (db_runs d)) d))))).
Proof.
  intros Hw Hr Hs Hsr H i.
  apply bindM_Ok in H as (now & d0 & Hn & H). unfold get in Hn. injection Hn as <- <-.
  apply bindM_Ok in H as (u1 & d1 & H1 & H). apply wrapM_inv in H1. unfold put_run in H1.
  destruct (mem _ run_statuses); [|discriminate]. injection H1 as _ <-.
  apply bindM_Ok in H as (u2 & d2 & H2 & H). apply wrapM_inv in H2. destruct u2.
  apply update_step_inv with (s := s) in H2; [|done|exact (sk_id _ _ _ (wf_step d Hw _ _ Hs))].
  apply bindM_Ok in H as (u3 & d3 & H3 & H).
  apply bindM_Ok in H as ([] & d4 & H4 & H). apply wrapM_inv in H4.
  apply insert_transition_inv in H4 as (tr & -> & E1 & E2 & E3).
  apply insert_intents_inv in H as (ints & used & Hu & ->). simpl in Hu.
  exists tr, used, ints.
  destruct next as [x|].
  - apply wrapM_inv in H3. destruct u3. apply insert_step_inv in H3 as (-> & _). subst d2. simpl in Hu.
    split; [subst i; set_solver|]. done.
  - unfold mret, M_ret in H3. injection H3 as _ <-. subst d2. simpl in Hu. split; [exact Hu|]. done.
Qed.

(** The worker's picture of the step and run it holds is right about the
    columns that never change. *)
Record picture (d : DB) (s0 : JourneyStep) (r0 : JourneyRun) : Prop := {
  pc_run : run_ID r0 = step_RunID s0;
  pc_slot : forall s, db_steps d !! step_ID s0 = Some s -> same_slot s0 s;
  pc_same : forall r, db_runs d !! run_ID r0 = Some r -> same_run r0 r
}.

Lemma advance_effect F C d g s0 r0 f r' next tr intents res d' :
  wf d -> command_ok g s0 r0 (Advance f r' next tr intents) -> picture d s0 r0 ->
  (forall r, db_runs d !! run_ID r0 = Some r -> graph_of d r g) ->
  (forall r s, db_runs d !! run_ID r0 = Some r -> db_steps d !! step_ID s0 = Some s ->
     step_Status s = "processing" -> at_run s r -> F r0 r) ->
  AdvanceRunTx (run_ID r0) r' (step_ID s0) next tr intents d = (res, d') -> rtc (effect F C) d d'.
Proof.
  intros Hw (n & Hn & Hid & Hsame & Htr & Hfrom & Hm & _) [Hr0 Hslot Hsr] Hg HF H.
  unfold AdvanceRunTx in H. destruct res as [[]|e]; [|apply tx_err in H as ->; apply rtc_refl].
  apply tx_ok in H. apply bindM_Ok in H as (r & d1 & H1 & H).
  apply GetJourneyRunSystem_inv in H1 as (-> & Hr & Hten).
  apply bindM_Ok in H as (s & d2 & H2 & H).
  destruct (db_steps d !! step_ID s0) as [x|] eqn:Es; [|discriminate]. injection H2 as -> <-.
  assert (Hsl := Hslot s eq_refl). unfold advance_locked in H.
  destruct (negb _) eqn:E1; [discriminate|]. apply negb_false_iff in E1.
  apply andb_prop in E1 as [E1 _]. apply andb_prop in E1 as [E1 _]. apply seqb_true in E1. clear E1.
  destruct (step_Status s =s "completed") eqn:E2; [injection H as <-; apply rtc_refl|].
  destruct (step_Status s =s "processing") eqn:E3; [|discriminate]. apply seqb_true in E3. cbn [negb] in H.
  destruct (negb (run_Status r =s _) || _) eqn:E4.
  - apply wrapM_inv in H. apply (update_step_effect F C) in H as [->|H]; [apply rtc_refl | by apply rtc_once | done |].
    intros y Hy. assert (y = s) as -> by congruence.
    split; [by repeat split|]. split; [done|]. split; [done|]. intros _ z Hz [Ha Hb].
    destruct Hsl as (_ & Hrid & _). rewrite Hrid, <- Hr0 in Hz. assert (z = r) as -> by congruence.
    rewrite Ha, Hb, !seqb_refl in E4. discriminate E4.
  - apply orb_false_iff in E4 as [E4 E5]. apply negb_false_iff, seqb_true in E4. apply negb_false_iff, seqb_true in E5.
    assert (Hat : at_run s r) by done. pose proof Hsl as (_ & Hrid & _ & Hnode & _).
    eapply advance_commit_inv in H as (tr' & used & ints & Hu & T1 & T2 & T3 & ->); [|done..|congruence].
    assert (Hm' : move g n r0 r' next tr').
    { destruct Hm; [eapply move_to|eapply move_wait|eapply move_end]; eauto; congruence. }
    eapply book_eq; [|exact Hu].
    eapply (ef_advance F C d (run_ID r0) r (step_ID s0) s r0 r' (db_now d) next tr' g n); eauto; try congruence.
    apply is_fresh.
Qed.

(** ** The partial decodings of a graph agree with [ParseGraph] *)

Lemma find_field_graph k :
  let e := Json.find_field entry_only k in let x := Json.find_field edges_only k in
  (Json.find_field graph_fields k = Some (Json.set_string (fun v g => MkGraph v (Nodes g) (Edges g))) /\
     e = Some (Json.set_string (fun v _ => v)) /\ x = None) \/
  (Json.find_field graph_fields k = Some (Json.set_list (fun j => Json.decode_struct node_fields j (MkNode "" "" RawEmpty))
      (fun v g => MkGraph (EntryNodeID g) v (Edges g))) /\ e = None /\ x = None) \/
  (Json.find_field graph_fields k = Some (Json.set_list (fun j => Json.decode_struct edge_fields j (MkEdge "" "" ""))
      (fun v g => MkGraph (EntryNodeID g) (Nodes g) v)) /\ e = None /\
     x = Some (Json.set_list (fun j => Json.decode_struct edge_fields j (MkEdge "" "" "")) (fun v _ => v))) \/
  (Json.find_field graph_fields k = None /\ e = None /\ x = None).
Proof.
  unfold Json.find_field, graph_fields, entry_only, edges_only. cbn [find_first fst snd].
  destruct (seqb "entry_node_id" k) eqn:E1; [apply seqb_true in E1 as <-; left; done|].
  destruct (seqb "nodes" k) eqn:E2; [apply seqb_true in E2 as <-; right; left; done|].
  destruct (seqb "edges" k) eqn:E3; [apply seqb_true in E3 as <-; right; right; left; done|].
  destruct (seqb (Json.fold_name "entry_node_id") (Json.fold_name k)) eqn:F1.
  { apply seqb_true in F1. rewrite <- F1. left. done. }
  destruct (seqb (Json.fold_name "nodes") (Json.fold_name k)) eqn:F2.
  { apply seqb_true in F2. rewrite <- F2. right. left. done. }
  destruct (seqb (Json.fold_name "edges") (Json.fold_name k)) eqn:F3.
  { apply seqb_true in F3. right. right. left. done. }
  right. right. right. done.
Qed.

Lemma members_partial l g g' :
  Json.members graph_fields l g = Some g' ->
  Json.members entry_only l (EntryNodeID g) = Some (EntryNodeID g') /\
  Json.members edges_only l (Edges g) = Some (Edges g').
Proof.
  revert g. induction l as [|[k v] l IH]; intros g; cbn [Json.members]; [intros; by inv_ok|].
  destruct (find_field_graph k) as [(E1 & E2 & E3)|[(E1 & E2 & E3)|[(E1 & E2 & E3)|(E1 & E2 & E3)]]];
    rewrite E1, E2, E3; [..|apply IH].
  - unfold Json.set_string. destruct v; try discriminate; intros H; by apply IH in H.
  - unfold Json.set_list at 1. destruct v; try discriminate; [intros H; by apply IH in H|].
    destruct (Json.map_opt _ _); [|discriminate]. intros H. by apply IH in H.
  - unfold Json.set_list. destruct v; try discriminate; [intros H; by apply IH in H|].
    destruct (Json.map_opt _ _); [|discriminate]. intros H. by apply IH in H.
Qed.

(** Enrollment reads the entry node and wait resolution the edges that
    [ParseGraph] reads. *)
Lemma ParseGraph_partial r g :
  ParseGraph r = Ok g ->
  Json.Unmarshal entry_only "" r = Ok (EntryNodeID g) /\ Json.Unmarshal edges_only [] r = Ok (Edges g).
Proof.
  unfold ParseGraph. intros H. apply bind_Ok in H as (g0 & H & Hd). apply bind_Ok in Hd as (cs & _ & Hd).
  inv_M. revert H. unfold Json.Unmarshal.
  destruct (Json.parse r) as [j|]; [|discriminate]. cbn [mbind result_bind].
  unfold Json.decode_struct at 1. destruct j; try discriminate; [intros; by inv_ok|].
  destruct (Json.members graph_fields l _) as [g1|] eqn:E; [|discriminate]. intros; inv_ok.
  apply members_partial in E as [E1 E2]. simpl in E1, E2. simpl. by rewrite E1, E2.
Qed.

(** ** Enrolling *)

Lemma insert_run_inv run d id d' :
  insert_run run d = (Ok (Some id), d') ->
  id = fresh (db_used d) /\
  d' = set_runs (<[id := set_run_ID id run]> (db_runs d)) (set_used ({[id]} ∪ db_used d) d) /\
  (forall j r, db_runs d !! j = Some r -> same_run_key run r = false).
Proof.
  unfold insert_run. destruct (negb _); [discriminate|]. destruct (existsb _ _) eqn:Ek; [discriminate|].
  destruct (_ || _); [discriminate|]. intros H. injection H as <- <-. split; [done|]. split; [done|].
  intros j r Hj. destruct (same_run_key run r) eqn:E; [|done]. exfalso.
  apply not_true_iff_false in Ek. apply Ek. apply existsb_exists. exists (j, r).
  split; [by apply list_elem_of_In, elem_of_map_to_list | done].
Qed.

Lemma insert_run_none run d d' : insert_run run d = (Ok None, d') -> d' = d.
Proof.
  unfold insert_run. destruct (negb _); [discriminate|]. destruct (existsb _ _); [intros H; by injection H|].
  destruct (_ || _); discriminate.
Qed.

(** What the three enrollment paths insert: an active run at the entry of
    its version's graph and a pending advance step there. *)
Record enroll_args (d : DB) (run : JourneyRun) (s : JourneyStep) (g : Graph) : Prop := {
  ea_status : run_Status run = "active";
  ea_graph : graph_of d run g;
  ea_entry : run_CurrentNodeID run = EntryNodeID g;
  ea_node : step_NodeID s = EntryNodeID g;
  ea_tenant : step_TenantID s = run_TenantID run;
  ea_kind : step_Kind s = "advance";
  ea_pending : step_Status s = "pending";
  ea_attempts : step_Attempts s = 0
}.

Lemma enroll_rows F C d run s g id d1 d2 :
  enroll_args d run s g -> insert_run run d = (Ok (Some id), d1) -> step_RunID s = id ->
  insert_step s d1 = (Ok tt, d2) -> effect F C d d2 /\ db_versions d2 = db_versions d.
Proof.
  intros [] H1 Hs H2. apply insert_run_inv in H1 as (-> & -> & Hk). apply insert_step_inv in H2 as (-> & _).
  pose proof (is_fresh ({[fresh (db_used d)]} ∪ db_used d)) as Hf. pose proof (is_fresh (db_used d)) as Hf0.
  split; [|done]. simpl. set (id := fresh (db_used d)) in *. set (i := fresh ({[id]} ∪ db_used d)) in *.
  apply (ef_enroll F C d (set_run_ID id run) id i s (db_now d) g); auto; [set_solver|].
  intros ->. set_solver.
Qed.

Lemma run_defaults_fields now r :
  run_Status r = "active" ->
  run_Status (run_defaults now r) = "active" /\ run_TenantID (run_defaults now r) = run_TenantID r /\
  run_JourneyVersionID (run_defaults now r) = run_JourneyVersionID r /\
  run_CurrentNodeID (run_defaults now r) = run_CurrentNodeID r.
Proof. intros E. unfold run_defaults. rewrite E. eval_str. repeat case_match; done. Qed.

Lemma enroll_effect F C d run s g res d' :
  enroll_args d run s g -> EnrollJourneyRun run s d = (res, d') -> rtc (effect F C) d d'.
Proof.
  intros [Est Eg Een En Et Ek Ep Ea] H. unfold EnrollJourneyRun in H.
  destruct (run_TenantID run =s "") eqn:Etn; [injection H as _ <-; apply rtc_refl|].
  destruct res as [a|e]; [|apply tx_err in H as ->; apply rtc_refl].
  apply tx_ok in H. apply bindM_Ok in H as (now & d0 & Hn & H). unfold get in Hn. injection Hn as <- <-.
  destruct (run_defaults_fields (db_now d) run Est) as (D1 & D2 & D3 & D4).
  apply bindM_Ok in H as (id & d1 & H1 & H). destruct id as [id|].
  2:{ apply insert_run_none in H1 as ->. unfold mret, M_ret in H. injection H as _ <-. apply rtc_refl. }
  apply bindM_Ok in H as ([] & d2 & H2 & H). unfold mret, M_ret in H. injection H as _ <-. apply rtc_once.
  rewrite Et, D2, Etn in H2.
  destruct (step_defaults_fields (db_now d) s) as (S1 & S2 & S3 & S4).
  destruct (step_defaults_set (db_now d) s) as [S5 S6]; [congruence..|].
  refine (proj1 (enroll_rows F C d _ _ g _ _ _ _ H1 _ H2)); [|done].
  destruct Eg as (v & Hv & Hg). constructor; simpl; try congruence.
  exists v. by rewrite D3.
Qed.

(** ** Events *)

(** A loop whose body only makes changes makes only changes; [K] is what
    keeps the items of different iterations apart. *)
Lemma iterM_effect {A} F C (K : A -> string) (f : A -> Tx unit) (P : DB -> A -> Prop) l d d' :
  (forall a d d1, wf d -> valid_graphs d -> P d a -> f a d = (Ok tt, d1) ->
     rtc (effect F C) d d1 /\ forall b, K b <> K a -> P d b -> P d1 b) ->
  NoDup (K <$> l) -> wf d -> valid_graphs d -> (forall a, a ∈ l -> P d a) ->
  iterM f l d = (Ok tt, d') -> rtc (effect F C) d d'.
Proof.
  intros Hf. revert d. induction l as [|a l IH]; intros d Hnd Hw Hv HP H; simpl in H.
  { unfold mret, M_ret in H. injection H as <-. apply rtc_refl. }
  apply bindM_Ok in H as ([] & d1 & H1 & H). rewrite fmap_cons in Hnd. apply NoDup_cons in Hnd as [Hna Hnd].
  destruct (Hf a d d1 Hw Hv (HP a (list_elem_of_here _ _)) H1) as [He Hkeep].
  assert (Hwv : wf d1 /\ valid_graphs d1).
  { clear -He Hw Hv. induction He as [|x y z Hxy _ IH]; [done|].
    apply IH; [by eapply effect_wf | by eapply effect_valid]. }
  etransitivity; [exact He|]. apply IH; [done|apply Hwv..| |done].
  intros b Hb. apply Hkeep; [|apply HP; by apply list_elem_of_further].
  intros E. apply Hna. rewrite <- E. by apply list_elem_of_fmap_2.
Qed.

Lemma enroll_item_effect F C ev pid v d d' :
  wf d -> valid_graphs d -> db_versions d !! jv_ID v = Some v ->
  enroll_item ev pid v d = (Ok tt, d') -> rtc (effect F C) d d' /\ db_versions d' = db_versions d.
Proof.
  intros Hw Hv Hl H. unfold enroll_item in H.
  apply bindM_Ok in H as (runs & d0 & H0 & H). unfold get in H0. injection H0 as _ <-.
  destruct (reentry _ _ runs) as [seq|]; [|unfold mret, M_ret in H; injection H as <-; split; [apply rtc_refl | done]].
  destruct (Hv _ _ Hl) as (_ & g & Hg & _). destruct (ParseGraph_partial _ _ Hg) as [Hen _].
  rewrite Hen in H. apply bindM_Ok in H as (entry & d0 & H0 & H). injection H0 as <- <-.
  destruct (EntryNodeID g =s "") eqn:Ee; [unfold mret, M_ret in H; injection H as <-; split; [apply rtc_refl | done]|].
  apply bindM_Ok in H as (now & d0 & H0 & H). unfold get in H0. injection H0 as <- <-.
  apply bindM_Ok in H as (id & d1 & H1 & H). destruct id as [id|].
  2:{ apply insert_run_none in H1 as ->. unfold mret, M_ret in H. injection H as <-. split; [apply rtc_refl | done]. }
  assert (Ha : enroll_args d (event_run ev v pid (EntryNodeID g) seq (db_now d))
                 (event_step id (p_TenantID (ae_Principal ev)) (EntryNodeID g) (db_now d)) g).
  { constructor; try done. by exists v. }
  destruct (enroll_rows F C d _ _ g _ _ _ Ha H1 eq_refl H) as [He Hver].
  split; [by apply rtc_once | done].
Qed.

Lemma NoDup_version_ids d : valid_graphs d -> NoDup (jv_ID <$> (map_to_list (db_versions d)).*2).
Proof.
  intros Hv. replace (jv_ID <$> _) with (map_to_list (db_versions d)).*1; [apply NoDup_fst_map_to_list|].
  rewrite <- list_fmap_compose. apply list_fmap_ext. intros k [i v] Hk.
  apply list_elem_of_lookup_2, elem_of_map_to_list in Hk. simpl. symmetry. by apply Hv.
Qed.

Lemma enrollEventTriggered_effect F C ev pid d res d' :
  wf d -> valid_graphs d -> tx (enrollEventTriggered ev pid) d = (res, d') -> rtc (effect F C) d d'.
Proof.
  intros Hw Hv H. destruct res as [[]|e]; [|apply tx_err in H as ->; apply rtc_refl].
  apply tx_ok in H. unfold enrollEventTriggered in H.
  apply bindM_Ok in H as (items & d0 & H0 & H). unfold get in H0. injection H0 as <- <-.
  eapply (iterM_effect F C jv_ID (enroll_item ev pid) (fun d v => db_versions d !! jv_ID v = Some v)); [..|exact H]; try done.
  - intros v d1 d2 Hw1 Hv1 Hl H1. destruct (enroll_item_effect F C _ _ _ _ _ Hw1 Hv1 Hl H1) as [He ->]. done.
  - eapply sublist_NoDup; [exact (NoDup_version_ids d Hv)|]. apply fmap_sublist, sublist_filter.
  - intros v Hin. apply list_elem_of_filter in Hin as [_ Hin]. apply list_elem_of_fmap in Hin as ([i x] & -> & Hin).
    apply elem_of_map_to_list in Hin. simpl. by destruct (Hv _ _ Hin) as [-> _].
Qed.

(** ** Resolving waits *)

Lemma success_edge_rel g n t :
  success_edge n (Edges g) = t -> t <> "" -> Validate.edge_rel g n t.
Proof.
  unfold success_edge. intros <- Hne. destruct (find_first _ _) as [e|] eqn:E; [|done].
  apply find_first_Some in E as [Hin Hb]. apply andb_prop in Hb as [Hb _]. apply seqb_true in Hb. exists e. auto.
Qed.

(** The SELECT's picture of a run is current for the UPDATE: a run that waits,
    waits at the node it was selected at. *)
Definition item_current (tenant : string) (d : DB) (it : wait_item) : Prop :=
  exists r v, db_runs d !! wi_id it = Some r /\ (run_Status r = "waiting" -> wi_node it = run_CurrentNodeID r) /\ run_TenantID r = tenant /\
    db_versions d !! run_JourneyVersionID r = Some v /\ wi_graph it = jv_Graph v.

Lemma resolve_item_effect F C ev it d d' :
  wf d -> valid_graphs d -> item_current (p_TenantID (ae_Principal ev)) d it ->
  resolve_item ev it d = (Ok tt, d') ->
  rtc (effect F C) d d' /\
  forall b, wi_id b <> wi_id it -> item_current (p_TenantID (ae_Principal ev)) d b ->
    item_current (p_TenantID (ae_Principal ev)) d' b.
Proof.
  intros Hw Hv (r & v & Hr & Hnode & Hten & Hl & Hgr) H. unfold resolve_item in H.
  destruct (Hv _ _ Hl) as (_ & g & Hg & _). destruct (ParseGraph_partial _ _ Hg) as [_ Hed].
  rewrite Hgr, Hed in H. apply bindM_Ok in H as (edges & d0 & H0 & H). injection H0 as <- <-.
  destruct (success_edge (wi_node it) (Edges g) =s "") eqn:Es.
  { unfold mret, M_ret in H. injection H as <-. split; [apply rtc_refl | done]. }
  apply seqb_false in Es. set (succ := success_edge _ _) in *.
  apply bindM_Ok in H as (row & d0 & H0 & H). unfold get in H0. injection H0 as <- <-. rewrite Hr in H.
  destruct (run_Status r =s "waiting") eqn:Est; [|unfold mret, M_ret in H; injection H as <-; split; [apply rtc_refl | done]].
  apply seqb_true in Est. specialize (Hnode Est).
  apply bindM_Ok in H as (now & d0 & H0 & H). unfold get in H0. injection H0 as <- <-.
  apply bindM_Ok in H as (u1 & d1 & H1 & H). unfold put_run in H1. simpl in H1. injection H1 as _ <-.
  apply bindM_Ok in H as (u2 & d2 & H2 & H). unfold put in H2. injection H2 as _ <-. simpl in H.
  apply bindM_Ok in H as ([] & d3 & H3 & H). apply insert_step_inv in H3 as (-> & _ & _ & Hnl). simpl in Hnl.
  apply insert_transition_inv in H as (tr & -> & T1 & T2 & T3). simpl in T1, T2, T3.
  set (i := fresh (db_used d)) in *.
  assert (Hnew : (finish_timeout (wi_id it) (db_now d) <$> db_steps d) !! i = None).
  { rewrite lookup_fmap. destruct (db_steps d !! i) as [x|] eqn:Ex; [|done].
    destruct (is_fresh (db_used d) (sk_used _ _ _ (wf_step d Hw _ _ Ex))). }
  specialize (Hnl eq_refl). rewrite delete_id in Hnl by done.
  split.
  - rewrite <- Hten. eapply rtc_l.
    + eapply (ef_resolve F C d (wi_id it) r succ (db_now d) g tr i); auto; [by exists v | | congruence | apply is_fresh].
      rewrite <- Hnode. by apply success_edge_rel.
    + apply rtc_once. simpl. 
      refine (ef_book F C _ (db_intents d) ({[fresh ({[i]} ∪ db_used d)]} ∪ ({[i]} ∪ db_used d)) _). apply union_subseteq_r.
  - intros b Hb (rb & vb & Hrb & Hnb & Htb & Hlb & Hgb). exists rb, vb. simpl.
    rewrite lookup_insert_ne by done. done.
Qed.

Lemma wait_items_ids ev d : wi_id <$> wait_items ev d `sublist_of` (map_to_list (db_runs d)).*1.
Proof.
  unfold wait_items. induction (map_to_list (db_runs d)) as [|[i r] l IH]; [done|]. simpl.
  destruct (db_versions d !! _); [|by apply sublist_cons]. destruct (db_profiles d !! _); [|by apply sublist_cons].
  destruct (_ && _); [|by apply sublist_cons]. simpl. by apply sublist_skip.
Qed.

Lemma wait_items_current ev d it : it ∈ wait_items ev d -> item_current (p_TenantID (ae_Principal ev)) d it.
Proof.
  unfold wait_items. intros H. apply list_elem_of_omap in H as ([i r] & Hin & H). simpl in H.
  apply elem_of_map_to_list in Hin.
  destruct (db_versions d !! _) as [v|] eqn:Ev; [|discriminate]. destruct (db_profiles d !! _); [|discriminate].
  destruct (_ && _) eqn:Ec; [|discriminate]. injection H as <-. exists r, v. simpl.
  rewrite !andb_true_iff, !seqb_true in Ec. naive_solver.
Qed.

(** The updates of a resolution, at any time after its SELECT. *)
Lemma resolve_items_effect F C ev items d res d' :
  wf d -> valid_graphs d -> NoDup (wi_id <$> items) ->
  (forall it, it ∈ items -> item_current (p_TenantID (ae_Principal ev)) d it) ->
  tx (iterM (resolve_item ev) items) d = (res, d') -> rtc (effect F C) d d'.
Proof.
  intros Hw Hv Hnd Hc H. destruct res as [[]|e]; [|apply tx_err in H as ->; apply rtc_refl]. apply tx_ok in H.
  eapply (iterM_effect F C wi_id (resolve_item ev) (item_current (p_TenantID (ae_Principal ev)))); [..|exact H]; try done.
  intros it d1 d2 Hw1 Hv1 Hi H1. by eapply resolve_item_effect.
Qed.

Lemma wait_items_NoDup ev d : NoDup (wi_id <$> wait_items ev d).
Proof. eapply sublist_NoDup; [|apply wait_items_ids]. apply NoDup_fst_map_to_list. Qed.

Lemma effect_version F C d d' k v : effect F C d d' -> db_versions d !! k = Some v ->
  exists v', db_versions d' !! k = Some v' /\ jv_Graph v' = jv_Graph v.
Proof.
  intros He Hv. destruct He as [| f locked now Hf | | | | | |]; simpl; try (by exists v).
  exists (f v). rewrite lookup_fmap, Hv. split; [done | apply Hf].
Qed.

(** A run keeps its tenant and the graph it is pinned to. *)
Lemma effects_run F C d d' id r v : wf d -> rtc (effect F C) d d' -> db_runs d !! id = Some r -> db_versions d !! run_JourneyVersionID r = Some v ->
  exists r' v', db_runs d' !! id = Some r' /\ run_TenantID r' = run_TenantID r /\
    db_versions d' !! run_JourneyVersionID r' = Some v' /\ jv_Graph v' = jv_Graph v.
Proof.
  intros Hw Hs. revert r v. induction Hs as [x|x y z Hxy _ IH]; intros r v Hr Hv; [by exists r, v|].
  destruct (effect_same_run _ _ _ _ _ _ Hw Hxy Hr) as (r1 & Hr1 & _ & Ht & Hk & _).
  destruct (effect_version _ _ _ _ _ _ Hxy Hv) as (v1 & Hv1 & Hg). rewrite <- Hk in Hv1.
  destruct (IH (effect_wf _ _ _ _ Hw Hxy) _ _ Hr1 Hv1) as (r2 & v2 & H1 & H2 & H3 & H4). exists r2, v2. split_and!; congruence.
Qed.

(** What was selected stays current until the run waits at another node. *)
Lemma selected_stays_current F C ev it d d' :
  wf d -> it ∈ wait_items ev d -> rtc (effect F C) d d' ->
  (forall r, db_runs d' !! wi_id it = Some r -> run_Status r = "waiting" -> run_CurrentNodeID r = wi_node it) ->
  item_current (p_TenantID (ae_Principal ev)) d' it.
Proof.
  intros Hw Hin Hs Hn. apply wait_items_current in Hin as (r & v & Hr & _ & Ht & Hl & Hg).
  destruct (effects_run _ _ _ _ _ _ _ Hw Hs Hr Hl) as (r' & v' & Hr' & Ht' & Hl' & Hg'). exists r', v'.
  split; [done|]. split; [intros; symmetry; by apply Hn|]. split_and!; congruence.
Qed.

Lemma resolveWaitingRuns_effect F C ev d res d' :
  wf d -> valid_graphs d -> tx (resolveWaitingRuns ev) d = (res, d') -> rtc (effect F C) d d'.
Proof.
  intros Hw Hv H. unfold resolveWaitingRuns in H. destruct (_ =s ""); [injection H as <- <-; apply rtc_refl|].
  by eapply resolve_items_effect; [.. | apply wait_items_NoDup | apply wait_items_current | exact H].
Qed.
End Ops.
