(* ===== verification/JourneySystem.v ===== *)
(** * The journey system: many workers over one database

    A transition system whose state is the database and what each worker
    holds.  Workers claim, load, commit, fail and crash in any interleaving
    with cancellations, retries, enrollments and events; the UPDATEs of an
    event's resolution are a step of their own, later than its SELECT.  With [disc] set, no
    step is claimed while a living worker holds it (workers finish, or die,
    before their five-minute lease runs out). *)

From S2P Require Import Prelude.
From S2P Require Import GoStd.
From S2P Require Import Domain.
From S2P Require Import Store.
From S2P Require Import JourneyGraph.
From S2P Require Import JourneyValidate.
From S2P Require Import JourneyNodes.
From S2P Require Import JourneyDB.
From S2P Require Import JourneyRuntime.
From S2P Require Import JourneyEffects.
From S2P Require Import JourneyInvariants.
From S2P Require Import JourneyOps.

Module JSystem.
Import Graph JDB Runtime Effects Invariants Ops.

Inductive phase : Type :=
  | Claimed (s : JourneyStep)
  | Loaded (s : JourneyStep) (r : JourneyRun).
Definition held_step (p : phase) : JourneyStep :=
  match p with Claimed s => s | Loaded s _ => s end.

Record sys : Type := MkSys { sdb : DB; sworkers : gmap nat phase }.

(** The write of a command, before its error handling. *)
Definition write_back (s : JourneyStep) (r : JourneyRun) (c : command) : Tx unit :=
  match c with
  | Advance _ r' next tr intents => AdvanceRunTx (run_ID r) r' (step_ID s) next tr intents
  | Reschedule at_ => RescheduleJourneyStep (step_ID s) at_
  | GiveUp msg => FailJourneyStep (step_ID s) msg
  end.

Section System.
Context (disc : bool).

Definition snapshot_ok : JourneyRun -> JourneyRun -> Prop := if disc then fresh_status else fun _ _ => True.
Definition free (W : gmap nat phase) (id : string) : Prop :=
  disc = true -> forall k p, W !! k = Some p -> step_ID (held_step p) <> id.

Inductive sys_step : sys -> sys -> Prop :=
  | st_claim k d W res d' :
      W !! k = None -> ClaimJourneyStep d = (res, d') ->
      (forall s, res = Ok (Some s) -> free W (step_ID s)) ->
      sys_step (MkSys d W) (MkSys d' (match res with Ok (Some s) => <[k := Claimed s]> W | _ => W end))
  | st_load k s r d W :
      W !! k = Some (Claimed s) -> GetJourneyRunSystem (step_TenantID s) (step_RunID s) d = (Ok r, d) ->
      sys_step (MkSys d W) (MkSys d (<[k := Loaded s r]> W))
  | st_commit k s r c g d W res d' :
      W !! k = Some (Loaded s r) -> graph_of d r g -> command_ok g s r c -> write_back s r c d = (res, d') ->
      sys_step (MkSys d W) (MkSys d' (match res with Ok _ => delete k W | Err _ => W end))
  | st_fail k p msg d W :
      W !! k = Some p ->
      sys_step (MkSys d W) (MkSys (FailJourneyStep (step_ID (held_step p)) msg d).2 (delete k W))
  | st_crash k d W : sys_step (MkSys d W) (MkSys d (delete k W))
  | st_cancel p j id d W : sys_step (MkSys d W) (MkSys (CancelJourneyRun p j id d).2 W)
  | st_retry p id d W : sys_step (MkSys d W) (MkSys (RetryJourneyStep p id d).2 W)
  | st_enroll run s g d W :
      enroll_args d run s g -> sys_step (MkSys d W) (MkSys (EnrollJourneyRun run s d).2 W)
  | st_event ev pid d W : sys_step (MkSys d W) (MkSys (tx (enrollEventTriggered ev pid) d).2 W)
  (** [resolveWaitingRuns]: the UPDATEs of the items that an earlier SELECT
      gave ([selected_stays_current]); anything may have happened since, but no
      selected run waits at another node by now. *)
  | st_resolve ev items d W :
      NoDup (wi_id <$> items) -> (forall it, it ∈ items -> item_current (p_TenantID (ae_Principal ev)) d it) ->
      sys_step (MkSys d W) (MkSys (tx (iterM (resolve_item ev) items) d).2 W)
  | st_intents m d W : sys_step (MkSys d W) (MkSys (set_intents m d) W)
  | st_env f locked now d W :
      (forall v, jv_Graph (f v) = jv_Graph v /\ jv_ID (f v) = jv_ID v) ->
      sys_step (MkSys d W) (MkSys (set_env f locked now d) W).

(** ** What workers know *)

Record held (d : DB) (s : JourneyStep) : Prop := {
  hd_used : step_ID s ∈ db_used d;
  hd_slot : forall x, db_steps d !! step_ID s = Some x -> same_slot s x;
  hd_run : is_Some (db_runs d !! step_RunID s)
}.
Record loaded (d : DB) (s : JourneyStep) (r : JourneyRun) : Prop := {
  ld_id : run_ID r = step_RunID s;
  ld_row : exists x, db_runs d !! run_ID r = Some x /\ same_run r x
}.
Definition worker_ok (d : DB) (p : phase) : Prop :=
  held d (held_step p) /\ match p with Claimed _ => True | Loaded s r => loaded d s r end.

Lemma same_slot_trans a b c : same_slot a b -> same_slot b c -> same_slot a c.
Proof. unfold same_slot. intuition congruence. Qed.
Lemma same_run_trans a b c : same_run a b -> same_run b c -> same_run a c.
Proof. unfold same_run. intuition congruence. Qed.

Lemma effect_used F C d d' : effect F C d d' -> db_used d ⊆ db_used d'.
Proof. intros He. destruct He; simpl; set_solver. Qed.

Lemma effect_worker F C d d' p : wf d -> effect F C d d' -> worker_ok d p -> worker_ok d' p.
Proof.
  intros Hw He [[Hu Hs [x Hx]] Hp]. split.
  - constructor.
    + by apply (effect_used _ _ _ _ He).
    + intros y Hy. destruct (effect_step_slot _ _ _ _ _ _ He Hy) as [(z & Hz & Hsl)|Hn]; [|done].
      eapply same_slot_trans; [by apply Hs | done].
    + destruct (effect_same_run _ _ _ _ _ _ Hw He Hx) as (x' & Hx' & _). by exists x'.
  - destruct p as [|s r]; [done|]. destruct Hp as [Hid (y & Hy & Hsame)]. constructor; [done|].
    destruct (effect_same_run _ _ _ _ _ _ Hw He Hy) as (y' & Hy' & Hsame'). exists y'.
    split; [done | by eapply same_run_trans].
Qed.

(** The freshness of one loaded run: while its step is processing and the
    run is where the step expects it, the snapshot's status is the row's. *)
Definition fresh1 (d : DB) (s : JourneyStep) (r : JourneyRun) : Prop :=
  forall x rd, db_steps d !! step_ID s = Some x -> step_Status x = "processing" ->
    db_runs d !! step_RunID s = Some rd -> at_run x rd -> run_Status r = run_Status rd.

Lemma processing_live s : step_Status s = "processing" -> live s = true.
Proof. intros E. unfold live. by rewrite E. Qed.

Lemma effect_fresh F C d d' s r :
  wf d -> effect F C d d' -> ~ C (step_ID s) -> held d s -> fresh1 d s r -> fresh1 d' s r.
Proof.
  intros Hw He HC [Hu Hsl [r1 Hr1]] Hf x rd Hx Hp Hrd Hat.
  destruct He as [intents used Hu'|f locked now Hf'|sid s2 s' Hs Hsl' Ha Hst Hlv Hcl Hco|now|ri rw tenant now Hrw Hnt
    |ri rw sid s2 r0 r' now next tr g n i Hrw Hs Hsr Hst Hat2 HF Hsame Hsame' Hg Hn Hid Htr Hfrom Hm Hi
    |ri rw succ now g tr i Hrw Hst Hg Hedge Hsu Htr Hfrom Hto Hi Hnl
    |rw ri i s2 now g Hri Hi Hne Hrid Hst Hg Hcur Hkey Hsr Hsn Hsk Hsk2 Hss Hsa]; simpl in Hx, Hrd; try (by eapply Hf; eauto).
  - apply lookup_insert_Some in Hx as [[-> <-]|[_ Hx]]; [by apply Hcl in Hp as [? _] | by eapply Hf].
  - apply lookup_fmap_Some in Hx as (y & Ey & Hy). unfold bury_step in Ey.
    case_match; subst x; [discriminate Hp | by eapply Hf].
  - apply map_lookup_filter_Some in Hx as [Hx _].
    apply lookup_insert_Some in Hrd as [[_ <-]|[_ Hrd]]; [|by eapply Hf].
    destruct (terminal_not_at_run x (canceled_row now rw)); [by right | done].
  - assert (Hx' : step_ID s <> sid /\ db_steps d !! step_ID s = Some x).
    { assert (Hc : <[sid:=complete_step now s2]> (db_steps d) !! step_ID s = Some x -> step_ID s <> sid /\ db_steps d !! step_ID s = Some x).
      { intros Hy. apply lookup_insert_Some in Hy as [[_ <-]|[? Hy]]; [discriminate Hp | by split]. }
      destruct next as [nx|]; simpl in Hx; [|by apply Hc].
      apply lookup_insert_Some in Hx as [[Ei _]|[_ Hx]]; [|by apply Hc]. destruct Hi. by rewrite Ei. }
    destruct Hx' as [Hne Hx']. destruct (Hsl _ Hx') as (_ & Hxr & _).
    assert (Hnr : ri <> step_RunID s).
    { intros E. apply Hne. eapply (wf_live d Hw _ _ x s2); eauto using processing_live. congruence. }
    rewrite lookup_insert_ne in Hrd by done. by eapply Hf.
  - assert (Hx' : (finish_timeout ri now <$> db_steps d) !! step_ID s = Some x).
    { apply lookup_insert_Some in Hx as [[Ei _]|[_ Hx]]; [|done]. destruct Hi. by rewrite Ei. }
    pose proof Hx' as Hy. apply lookup_fmap_Some in Hy as (y & Ey & Hy).
    assert (Hnr : ri <> step_RunID s).
    { intros E. assert (Hl : live x = false); [|by rewrite (processing_live _ Hp) in Hl].
      apply (Hnl _ _ Hx'). destruct (Hsl _ Hy) as (_ & Hyr & _). rewrite <- Ey, E, <- Hyr. apply finish_slot. }
    rewrite lookup_insert_ne in Hrd by done. unfold finish_timeout in Ey.
    case_match; subst x; [discriminate Hp | by eapply Hf].
  - apply lookup_insert_Some in Hx as [[Ei _]|[_ Hx]]; [destruct Hi; by rewrite Ei|].
    assert (Hnr : ri <> step_RunID s).
    { intros ->. apply Hri. exact (rk_used _ _ _ (wf_run d Hw _ _ Hr1)). }
    rewrite lookup_insert_ne in Hrd by done. by eapply Hf.
Qed.

(** ** The invariant *)

Record sys_ok (st : sys) : Prop := {
  so_wf : wf (sdb st);
  so_valid : valid_graphs (sdb st);
  so_path : path_ok (sdb st);
  so_workers : forall k p, sworkers st !! k = Some p -> worker_ok (sdb st) p;
  so_wait : disc = true -> wait_ok (sdb st);
  so_tracked : disc = true -> tracked (sdb st);
  so_fresh : disc = true -> forall k s r, sworkers st !! k = Some (Loaded s r) -> fresh1 (sdb st) s r
}.

(** Changes by others keep the invariant for the workers there are. *)
Lemma sys_ok_effects d W d' :
  sys_ok (MkSys d W) -> rtc (effect snapshot_ok (free W)) d d' -> sys_ok (MkSys d' W).
Proof.
  intros Hok He. induction He as [|x y z He _ IH]; [done|]. apply IH. clear IH.
  destruct Hok as [Hw Hv Hp Hwk Hwt Ht Hf]; simpl in *. constructor; simpl.
  - by eapply effect_wf.
  - by eapply effect_valid.
  - by eapply effect_path.
  - intros k p Hk. by eapply effect_worker; eauto.
  - intros Hd. unfold snapshot_ok in He. rewrite Hd in He. eapply effect_wait; [..|exact He]; auto.
  - intros Hd. unfold snapshot_ok in He. rewrite Hd in He. eapply effect_tracked; [..|exact He]; auto.
  - intros Hd k s r Hk. eapply effect_fresh; [exact Hw | exact He | | | by eapply Hf].
    + intros Hfree. by apply (Hfree Hd k _ Hk).
    + by apply (Hwk k _ Hk).
Qed.

Lemma sys_ok_workers d W W' :
  sys_ok (MkSys d W) ->
  (forall k p, W' !! k = Some p -> W !! k = Some p \/
     (worker_ok d p /\ match p with Claimed _ => True | Loaded s r => fresh1 d s r end)) ->
  sys_ok (MkSys d W').
Proof.
  intros [Hw Hv Hp Hwk Hwt Ht Hf] HW; constructor; simpl in *; try done.
  - intros k p Hk. destruct (HW k p Hk) as [?|[? _]]; eauto.
  - intros Hd k s r Hk. destruct (HW k _ Hk) as [?|[_ ?]]; eauto.
Qed.

Lemma sys_ok_delete d W k : sys_ok (MkSys d W) -> sys_ok (MkSys d (delete k W)).
Proof. intros H. eapply sys_ok_workers; [exact H|]. intros j p Hj. left. by apply lookup_delete_Some in Hj as [_ Hj]. Qed.

Lemma worker_picture d s r : worker_ok d (Loaded s r) -> picture d s r.
Proof.
  intros [[_ Hs _] [Hid (x & Hx & Hsame)]]. constructor; [done | done |]. intros y Hy. congruence.
Qed.

Lemma graph_of_same d r x g : same_run r x -> graph_of d r g -> graph_of d x g.
Proof. intros (_ & _ & E & _) (v & Hv & Hg). exists v. by rewrite E. Qed.

Lemma commit_effects d W k s r c g res d' :
  sys_ok (MkSys d W) -> W !! k = Some (Loaded s r) -> graph_of d r g -> command_ok g s r c ->
  write_back s r c d = (res, d') -> rtc (effect snapshot_ok (free W)) d d'.
Proof.
  intros [Hw Hv Hp Hwk Hwt Ht Hf] Hk Hg Hc H; simpl in *.
  pose proof (Hwk k _ Hk) as Hwo. destruct c as [fmt r' next tr intents|at_|msg]; simpl in H.
  - eapply advance_effect; [exact Hw | exact Hc | by apply worker_picture | | | exact H].
    + intros x Hx. eapply graph_of_same; [|exact Hg]. by apply (worker_picture _ _ _ Hwo).
    + intros x y Hx Hy Hpr Hat. unfold snapshot_ok. destruct disc eqn:Ed; [|done].
      apply (Hf eq_refl k s r Hk y x Hy Hpr); [|done]. destruct Hwo as [_ [<- _]]. done.
  - by eapply reschedule_effect.
  - unfold FailJourneyStep in H. pose proof (fail_effect snapshot_ok (free W) d (step_ID s) msg Hw) as He.
    unfold FailJourneyStep in He. by rewrite H in He.
Qed.

Lemma claim_worker d res d' s :
  wf d -> ClaimJourneyStep d = (res, d') -> res = Ok (Some s) -> wf d' -> worker_ok d' (Claimed s).
Proof.
  intros Hw H -> Hw'. split; [|done]. simpl.
  assert (Hx : db_steps d' !! step_ID s = Some s).
  { apply claim_inv in H as [[_ H]|(x & E & _ & _ & _ & ->)]; [by destruct (H s) | | done].
    injection E as ->. simpl. by rewrite lookup_insert_eq. }
  constructor.
  - apply (sk_used _ _ _ (wf_step d' Hw' _ _ Hx)).
  - intros y Hy. assert (y = s) as -> by congruence. apply same_slot_refl.
  - apply (sk_run _ _ _ (wf_step d' Hw' _ _ Hx)).
Qed.

Lemma op_pair {A} (m : Tx A) d : m d = ((m d).1, (m d).2).
Proof. by destruct (m d). Qed.

(** Every step of the system is a run of changes of the database. *)
Lemma sys_step_effects st st' :
  sys_ok st -> sys_step st st' -> rtc (effect snapshot_ok (free (sworkers st))) (sdb st) (sdb st').
Proof.
  intros Hok Hs. pose proof (so_wf _ Hok) as Hw. pose proof (so_valid _ Hok) as Hv.
  destruct Hs; simpl in *.
  - by eapply claim_effect.
  - apply rtc_refl.
  - by eapply commit_effects.
  - by apply fail_effect.
  - apply rtc_refl.
  - eapply cancel_effect, op_pair.
  - eapply retry_effect, op_pair. done.
  - eapply enroll_effect, op_pair. done.
  - eapply enrollEventTriggered_effect, op_pair; done.
  - eapply resolve_items_effect, op_pair; done.
  - apply rtc_once.
    replace (set_intents m d) with (set_intents m (set_used (db_used d) d)) by by destruct d. by apply ef_book.
  - apply rtc_once. by apply ef_env.
Qed.

Lemma sys_step_ok st st' : sys_ok st -> sys_step st st' -> sys_ok st'.
Proof.
  intros Hok Hs. pose proof (sys_step_effects _ _ Hok Hs) as He.
  destruct Hs as [k d W res d' Hk Hc _|k s r d W Hk Hl|k s r c g d W res d' Hk Hg Hc Hb|k p msg d W Hk|k d W
    |p j id d W|p id d W|run s g d W Hea|ev pid d W|ev items d W Hnd Hcur|m d W|f locked now d W Hf];
    simpl in He; pose proof (sys_ok_effects _ _ _ Hok He) as Hok'; try exact Hok'.
  - destruct res as [[s|]|e]; [|exact Hok'..].
    eapply sys_ok_workers; [exact Hok'|]. intros j p Hj.
    apply lookup_insert_Some in Hj as [[_ <-]|[_ Hj]]; [right | by left]. split; [|done].
    eapply claim_worker; [apply (so_wf _ Hok) | exact Hc | done | apply (so_wf _ Hok')].
  - eapply sys_ok_workers; [exact Hok'|]. intros j p Hj.
    apply lookup_insert_Some in Hj as [[_ <-]|[_ Hj]]; [right | by left].
    pose proof (so_workers _ Hok' k _ Hk) as [Hh _]. simpl in Hh.
    apply GetJourneyRunSystem_inv in Hl as (_ & Hr & _).
    pose proof (rk_id _ _ _ (wf_run d (so_wf _ Hok') _ _ Hr)) as Hid. split.
    + split; [done|]. constructor; [done|]. exists r. rewrite Hid. split; [done | by repeat split].
    + intros x rd _ _ Hrd _. simpl in Hrd. congruence.
  - destruct res; [by apply sys_ok_delete | done].
  - by apply sys_ok_delete.
  - by apply sys_ok_delete.
Qed.

Lemma sys_steps_ok st st' : sys_ok st -> rtc sys_step st st' -> sys_ok st'.
Proof. intros H Hs. induction Hs; [done|]. eauto using sys_step_ok. Qed.

(** A database before any enrollment. *)
Record initial (d : DB) : Prop := {
  in_runs : db_runs d = ∅;
  in_steps : db_steps d = ∅;
  in_log : db_transitions d = [];
  in_valid : valid_graphs d
}.

Lemma initial_ok d : initial d -> sys_ok (MkSys d ∅).
Proof.
  intros [Hr Hs Hl Hv].
  assert (Hnr : forall i r, db_runs d !! i = Some r -> False) by (intros i r; by rewrite Hr).
  assert (Hns : forall i x, db_steps d !! i = Some x -> False) by (intros i x; by rewrite Hs).
  constructor; simpl; try done.
  - constructor; [..|intros i j r t Hi; by destruct (Hnr _ _ Hi)].
    + intros i r Hi. by destruct (Hnr _ _ Hi).
    + intros i x Hi. by destruct (Hns _ _ Hi).
    + intros tr. rewrite Hl. set_solver.
    + intros i j x y Hi. by destruct (Hns _ _ Hi).
  - intros id r Hi. by destruct (Hnr _ _ Hi).
  - intros _ id r g Hi. by destruct (Hnr _ _ Hi).
  - intros _ id r Hi. by destruct (Hnr _ _ Hi).
Qed.

Definition reachable (d0 : DB) (st : sys) : Prop := initial d0 /\ rtc sys_step (MkSys d0 ∅) st.

Lemma reachable_ok d0 st : reachable d0 st -> sys_ok st.
Proof. intros [Hi Hs]. eapply sys_steps_ok; [by apply initial_ok | done]. Qed.
End System.

(** ** Properties of every interleaving *)

(** C2: In every interleaving of claims, commits, late failures, crashes,
    cancellations, retries, enrollments and event resolutions, stale workers
    included, the transition log of each run replays from its version's entry
    node: every transition leaves the node the run was at, along an edge of
    the pinned graph, and a run that is active or waiting is at the node the
    log ends at.  A resolution's UPDATEs may come any time after its SELECT,
    with one condition: no run it selected waits at another node by then,
    which the code does not prevent (Hazards.stale_resolution_jumps). *)
Theorem log_is_path d0 st id r :
  reachable false d0 st -> db_runs (sdb st) !! id = Some r ->
  exists g c, graph_of (sdb st) r g /\ replay g (EntryNodeID g) (log (sdb st) id) = Some c /\
    (live_run r -> c = run_CurrentNodeID r).
Proof. intros H Hr. by apply (so_path _ _ (reachable_ok _ _ _ H)). Qed.

(** In every interleaving each run has at most one pending or processing
    step, no attempt counter passes ten, and no two runs share version,
    profile, entry key and sequence: an enrollment happens once. *)
Theorem queue_invariants d0 st :
  reachable false d0 st ->
  one_live (db_steps (sdb st)) /\
  (forall i s, db_steps (sdb st) !! i = Some s -> 0 <= step_Attempts s <= 10) /\
  (forall i j r t, db_runs (sdb st) !! i = Some r -> db_runs (sdb st) !! j = Some t -> same_run_key r t = true -> i = j).
Proof.
  intros H. destruct (so_wf _ _ (reachable_ok _ _ _ H)) as [_ Hs _ Hl Hk].
  split; [done|]. split; [|done]. intros i s Hi. by destruct (Hs i s Hi).
Qed.

(** C4: A completed or canceled run is final: no later step of the system,
    by any worker, event, retry or cancellation, changes its row. *)
Theorem terminal_runs_final d0 st st' id r :
  reachable false d0 st -> rtc (sys_step false) st st' ->
  db_runs (sdb st) !! id = Some r -> terminal r -> db_runs (sdb st') !! id = Some r.
Proof.
  intros H Hs Hr Ht. apply reachable_ok in H.
  induction Hs as [|x y z Hxy _ IH]; [done|].
  apply IH; [by eapply sys_step_ok|].
  pose proof (sys_step_effects _ _ _ H Hxy) as He. pose proof (so_wf _ _ H) as Hw. clear -He Hw Hr Ht.
  induction He as [|a b c Hab _ IH]; [done|].
  apply IH; [by eapply effect_terminal | by eapply effect_wf].
Qed.

(** ** No live run is lost *)

Definition at_time (t : Z) (d : DB) : DB :=
  MkDB (db_versions d) (db_profiles d) (db_runs d) (db_steps d) (db_transitions d) (db_intents d) (db_used d) (db_locked d) t.

(** When a step is due: when its lock expires, or when it becomes available. *)
Definition due_at (s : JourneyStep) : Z :=
  if step_Status s =s "processing" then default 0 (step_LockedUntil s) else step_AvailableAt s.

Lemma tracks_claimable d i s r v t :
  wf d -> db_steps d !! i = Some s -> tracks s r -> db_runs d !! step_RunID s = Some r ->
  db_versions d !! run_JourneyVersionID r = Some v -> jv_Status v = "active" ->
  step_Status s <> "dead" -> step_Attempts s < 10 -> due_at s <= t -> claimable (at_time t d) s = true.
Proof.
  intros Hw Hi (_ & Ht & Hn & Hk & Hc) Hr Hv Hva Hd Ha Hdue. unfold claimable. simpl.
  rewrite Hr, Hv, Hva, Ht, Hn, Hk, !seqb_refl. simpl. unfold step_ready, due_at in *.
  destruct (wf_step d Hw i s Hi) as [_ _ _ _ Hst _ Hl].
  assert (Ha' : (step_Attempts s <? 10) = true) by lia. rewrite Ha'.
  unfold step_statuses in Hst. rewrite !elem_of_cons, elem_of_nil in Hst.
  destruct Hst as [E|[E|[E|[E|[E|[]]]]]]; try done; rewrite E in *; revert Hdue; eval_str; intros Hdue.
  - assert (Hle : (step_AvailableAt s <=? t) = true) by lia. by rewrite Hle.
  - destruct (Hl eq_refl) as [lk Hlk]. rewrite Hlk in *. simpl in *. lia.
  - assert (Hle : (step_AvailableAt s <=? t) = true) by lia. by rewrite Hle.
Qed.

(** C1: While no step is claimed under a living worker's hands, a live run
    always has the step that will move it: an unfinished step of the right
    kind at the run's node, which is dead or out of attempts (an operator's
    retry brings it back), or which the claim query selects from its due
    time on as soon as the version is active. *)
Theorem no_run_lost d0 st id r :
  reachable true d0 st -> db_runs (sdb st) !! id = Some r -> live_run r ->
  exists i s, db_steps (sdb st) !! i = Some s /\ tracks s r /\
    (step_Status s = "dead" \/ step_Attempts s = 10 \/
     forall v t, db_versions (sdb st) !! run_JourneyVersionID r = Some v -> jv_Status v = "active" ->
       due_at s <= t -> claimable (at_time t (sdb st)) s = true).
Proof.
  intros H Hr Hl. pose proof (reachable_ok _ _ _ H) as Hok. pose proof (so_wf _ _ Hok) as Hw.
  destruct (so_tracked _ _ Hok eq_refl id r Hr Hl) as (i & s & Hi & Ht). exists i, s.
  split; [done|]. split; [done|]. destruct (decide (step_Status s = "dead")) as [|Hd]; [by left|]. right.
  pose proof (sk_attempts _ _ _ (wf_step _ Hw _ _ Hi)). destruct (decide (step_Attempts s = 10)) as [|Ha]; [by left|]. right.
  intros v t Hv Hva Hdue. eapply tracks_claimable; eauto; [|lia].
  by rewrite (other_run _ _ _ _ Hw Hr Ht).
Qed.

(** A waiting run stands at a [wait_event] node of its graph. *)
Lemma waiting_at_wait_node d0 st id r g :
  reachable true d0 st -> db_runs (sdb st) !! id = Some r -> run_Status r = "waiting" -> graph_of (sdb st) r g ->
  exists n, n ∈ Nodes g /\ ID n = run_CurrentNodeID r /\ Type_ n = NodeTypeWaitEvent.
Proof. intros H Hr Hs Hg. by apply (so_wait _ _ (reachable_ok _ _ _ H) eq_refl id r g). Qed.

(** ** A concrete run: enrolled, then moved by one worker from the entry to
    the next node *)

Definition demo_version : JourneyVersion :=
  MkJourneyVersion "v1" "j1" "t" "w" 1
    (match marshal_graph JNodes.demo_graph with Ok j => Raw j | Err _ => RawEmpty end)
    None "event" (Some "signup") None None "once" 0 "run" RawEmpty None "active" None 0.
Definition demo_db : DB :=
  MkDB {["v1" := demo_version]} {["p1" := "a1"]} ∅ ∅ [] ∅ ∅ ∅ 1000.
Definition demo_enrolled : JourneyRun :=
  MkJourneyRun "" "t" "w" "j1" "v1" "p1" (Some "ext") "e1" 0 "active" "start" RawEmpty None None false Time.zero Time.zero None.
Definition demo_step : JourneyStep :=
  MkJourneyStep "" "" "t" "start" "advance" "pending" 0 1000 None None Time.zero Time.zero.
Definition demo_parsed : Graph :=
  MkGraph (EntryNodeID JNodes.demo_graph) (written <$> Nodes JNodes.demo_graph) (Edges JNodes.demo_graph).

Definition demo_d1 : DB := (EnrollJourneyRun demo_enrolled demo_step demo_db).2.
Definition demo_claimed : JourneyStep :=
  match ClaimJourneyStep demo_d1 with (Ok (Some s), _) => s | _ => demo_step end.
Definition demo_d2 : DB := (ClaimJourneyStep demo_d1).2.
Definition demo_row : JourneyRun := default demo_enrolled (db_runs demo_d2 !! step_RunID demo_claimed).
Definition demo_command : command :=
  match decide_step (H := JNodes.demo_store) (MkDeps unit 1000 0 None None) demo_claimed demo_row demo_version tt with
  | (Ok c, _) => c | (Err e, _) => GiveUp e
  end.
Definition demo_d3 : DB := (write_back demo_claimed demo_row demo_command demo_d2).2.

Lemma demo_parse : ParseGraph (jv_Graph demo_version) = Ok demo_parsed.
Proof. vm_compute. reflexivity. Qed.
Lemma demo_parsed_valid : Validate.Valid demo_parsed.
Proof. apply Validate.Validate_sound. by vm_compute. Qed.

(** Without the edge to its exit, or with an edge to nowhere, it is not. *)
Lemma Validate_iff_witness : Validate.Valid demo_parsed /\
  ~ Validate.Valid (MkGraph (EntryNodeID demo_parsed) (Nodes demo_parsed) (tail (Edges demo_parsed))) /\
  ~ Validate.Valid (MkGraph (EntryNodeID demo_parsed) (Nodes demo_parsed) (MkEdge "ask" "nowhere" "x" :: Edges demo_parsed)).
Proof.
  split_and!; [apply (Validate.Validate_iff demo_parsed); vm_compute; reflexivity|..]; intros H;
    apply (Validate.Validate_iff (MkGraph _ _ _)) in H; vm_compute in H; discriminate H.
Defined.

Lemma demo_initial : initial demo_db.
Proof.
  constructor; try done. intros i v Hi.
  change (({["v1" := demo_version]} : gmap string JourneyVersion) !! i = Some v) in Hi.
  apply lookup_singleton_Some in Hi as [<- <-]. split; [done|].
  exists demo_parsed. split; [apply demo_parse | apply demo_parsed_valid].
Qed.

Lemma demo_reachable_enrolled disc : reachable disc demo_db (MkSys demo_d1 ∅).
Proof.
  split; [apply demo_initial|]. apply rtc_once.
  apply (st_enroll disc demo_enrolled demo_step demo_parsed demo_db ∅). constructor; try done.
  exists demo_version. split; [done | apply demo_parse].
Qed.

Lemma demo_reachable_claimed disc : reachable disc demo_db (MkSys demo_d2 {[0%nat := Claimed demo_claimed]}).
Proof.
  destruct (demo_reachable_enrolled disc) as [Hi Hs]. split; [exact Hi|]. eapply rtc_r; [exact Hs|].
  apply (st_claim disc 0%nat demo_d1 ∅ (Ok (Some demo_claimed)) demo_d2); [done | by vm_compute|].
  intros s _ _ k p Hk. by rewrite lookup_empty in Hk.
Qed.

Lemma demo_reachable disc : reachable disc demo_db (MkSys demo_d3 ∅).
Proof.
  destruct (demo_reachable_claimed disc) as [Hi Hs]. split; [exact Hi|]. etransitivity; [exact Hs|].
  eapply rtc_l.
  { apply (st_load disc 0%nat demo_claimed demo_row demo_d2); [by rewrite lookup_singleton_eq | by vm_compute]. }
  eapply rtc_l.
  { apply (st_commit disc 0%nat demo_claimed demo_row demo_command demo_parsed demo_d2 _ (Ok tt) demo_d3).
    - by rewrite lookup_insert_eq.
    - exists demo_version. split; [by vm_compute | apply demo_parse].
    - eapply (decide_step_ok (H := JNodes.demo_store) (MkDeps unit 1000 0 None None) _ _ demo_version _ tt _ tt);
        [apply demo_parse | apply demo_parsed_valid | by vm_compute].
    - by vm_compute. }
  rewrite delete_insert_eq, delete_singleton_eq. apply rtc_refl.
Qed.

Definition demo_id : string := step_RunID demo_claimed.
Definition demo_moved : JourneyRun := default demo_enrolled (db_runs demo_d3 !! demo_id).

Lemma demo_moved_at : db_runs demo_d3 !! demo_id = Some demo_moved /\ run_CurrentNodeID demo_moved = "ask" /\
  run_Status demo_moved = "active".
Proof. by vm_compute. Qed.

Lemma log_is_path_witness : exists g, replay g (EntryNodeID g) (log demo_d3 demo_id) = Some "ask".
Proof.
  destruct (log_is_path demo_db (MkSys demo_d3 ∅) demo_id demo_moved (demo_reachable false) (proj1 demo_moved_at))
    as (g & c & _ & Hr & Hc).
  exists g. etransitivity; [exact Hr|]. f_equal. rewrite Hc; [apply demo_moved_at | left; apply demo_moved_at].
Defined.

Lemma queue_invariants_witness : one_live (db_steps demo_d3).
Proof. apply (queue_invariants demo_db (MkSys demo_d3 ∅) (demo_reachable false)). Defined.

(** The demo run canceled. *)
Definition demo_p : Principal := MkPrincipal "t" "w" "a1" "" "" "user" [].
Definition demo_d4 : DB := (CancelJourneyRun demo_p "j1" demo_id demo_d3).2.
Definition demo_canceled : JourneyRun := default demo_enrolled (db_runs demo_d4 !! demo_id).

Lemma terminal_runs_final_witness :
  db_runs (RetryJourneyStep demo_p (step_ID demo_claimed) demo_d4).2 !! demo_id = Some demo_canceled.
Proof.
  apply (terminal_runs_final demo_db (MkSys demo_d4 ∅)
           (MkSys (RetryJourneyStep demo_p (step_ID demo_claimed) demo_d4).2 ∅)).
  - destruct (demo_reachable false) as [Hi Hs]. split; [done|]. eapply rtc_r; [exact Hs|]. apply st_cancel.
  - apply rtc_once. apply st_retry.
  - vm_compute. reflexivity.
  - right. vm_compute. reflexivity.
Defined.

Lemma no_run_lost_witness : exists i s, db_steps demo_d3 !! i = Some s /\ tracks s demo_moved.
Proof.
  destruct (no_run_lost demo_db (MkSys demo_d3 ∅) demo_id demo_moved (demo_reachable true) (proj1 demo_moved_at))
    as (i & s & Hi & Ht & _); [left; apply demo_moved_at|].
  exists i, s. split; [exact Hi | exact Ht].
Defined.
End JSystem.
