(* ===== verification/JourneyTick.v ===== *)
(** * The worker loop over the database

    The journey store as an instance of the interface [TickNext] is written
    against, the contract of [AdvanceRunTx], and the refinement: a tick is a
    run of the transition system of [JourneySystem]. *)

From S2P Require Import Prelude.
From S2P Require Import GoStd.
From S2P Require Import Domain.
From S2P Require Import Store.
From S2P Require Import JourneyGraph.
From S2P Require Import JourneyValidate.
From S2P Require Import JourneyNodes.
From S2P Require Import JourneyDB.
From S2P Require Import JourneyRuntime.
From S2P Require Import JourneyEffects.
From S2P Require Import JourneyInvariants.
From S2P Require Import JourneyOps.
From S2P Require Import JourneySystem.

Module Tick.
Import Graph JDB Runtime Effects Invariants Ops JSystem.

(** ** The contract of [AdvanceRunTx] *)

Definition names (run : JourneyRun) (s : JourneyStep) (runID : string) : Prop :=
  step_RunID s = runID /\ run_ID run = runID /\ step_TenantID s = run_TenantID run.

Lemma advance_completed runID run sid next tr ints d r s :
  db_runs d !! runID = Some r -> run_TenantID r = run_TenantID run -> db_steps d !! sid = Some s ->
  names run s runID -> step_Status s = "completed" ->
  AdvanceRunTx runID run sid next tr ints d = (Ok tt, d).
Proof.
  intros Hr Ht Hs (E1 & E2 & E3) Hst. unfold AdvanceRunTx, tx, mbind, M_bind, GetJourneyRunSystem.
  rewrite Hr, Ht, seqb_refl, Hs. unfold advance_locked. by rewrite E1, E2, E3, Hst, !seqb_refl.
Qed.

Lemma advance_ok_inv runID run sid next tr ints d d' :
  AdvanceRunTx runID run sid next tr ints d = (Ok tt, d') ->
  exists r s, db_runs d !! runID = Some r /\ run_TenantID r = run_TenantID run /\ db_steps d !! sid = Some s /\
    names run s runID /\ advance_locked runID run sid next tr ints r s d = (Ok tt, d').
Proof.
  unfold AdvanceRunTx. intros H. apply tx_ok in H.
  apply bindM_Ok in H as (r & d1 & H1 & H). apply GetJourneyRunSystem_inv in H1 as (-> & Hr & Ht).
  apply bindM_Ok in H as (s & d2 & H2 & H).
  destruct (db_steps d !! sid) as [x|] eqn:Es; [|discriminate]. injection H2 as -> <-.
  exists r, s. split; [done|]. split; [done|]. split; [done|]. split; [|done].
  unfold advance_locked in H. destruct (negb (_ && _ && _)) eqn:E; [discriminate|].
  apply negb_false_iff, andb_prop in E as [E E3]. apply andb_prop in E as [E1 E2].
  rewrite seqb_true in E1, E2, E3. by split; [|split; [congruence|]].
Qed.

(** The step a successful [AdvanceRunTx] names is completed, and the run
    keeps its tenant. *)
Lemma advance_ok_after runID run sid next tr ints d d' :
  wf d -> AdvanceRunTx runID run sid next tr ints d = (Ok tt, d') ->
  (exists r', db_runs d' !! runID = Some r' /\ run_TenantID r' = run_TenantID run) /\
  exists s s', db_steps d !! sid = Some s /\ db_steps d' !! sid = Some s' /\ same_slot s s' /\ names run s runID /\
    step_Status s' = "completed".
Proof.
  intros Hw H. apply advance_ok_inv in H as (r & s & Hr & Ht & Hs & Hn & H). unfold advance_locked in H.
  pose proof (sk_id _ _ _ (wf_step d Hw _ _ Hs)) as Hsid.
  destruct (negb _); [discriminate|].
  destruct (step_Status s =s "completed") eqn:E2.
  { injection H as <-. apply seqb_true in E2. split; [eauto|]. exists s, s. split; [done|]. split; [done|]. split; [apply same_slot_refl | by split]. }
  destruct (negb _); [discriminate|]. destruct (_ || _).
  - apply wrapM_inv in H. apply update_step_inv with (s := s) in H; [|done|done]. subst d'. simpl. split; [eauto|].
    eexists s, _. rewrite lookup_insert_eq. split; [done|]. split; [done|]. split; [by repeat split | by split].
  - apply advance_commit_inv with (s := s) in H; [|done|done|done|apply Hn].
    destruct H as (tr' & used & ins & Hu & _ & _ & _ & ->). simpl. split.
    + eexists. rewrite lookup_insert_eq. by split.
    + exists s, (complete_step (db_now d) s). split; [done|]. split; [|split; [by repeat split | by split]].
      assert (Hi : fresh (db_used d) <> sid).
      { intros E. apply (is_fresh (db_used d)). rewrite E. apply (sk_used _ _ _ (wf_step d Hw _ _ Hs)). }
      destruct next; simpl; by rewrite ?lookup_insert_ne, lookup_insert_eq by done.
Qed.

(** Two rows of one run of one tenant. *)
Definition same_target (run run2 : JourneyRun) : Prop :=
  run_ID run2 = run_ID run /\ run_TenantID run2 = run_TenantID run.

(** C5: Effectively once: after [AdvanceRunTx] has answered success for a
    step, repeating it for the same step, with whatever run row, next step,
    transition and intents, changes nothing and answers success. *)
Theorem advance_idempotent runID run sid next tr ints d d' run2 next2 tr2 ints2 :
  wf d -> AdvanceRunTx runID run sid next tr ints d = (Ok tt, d') ->
  same_target run run2 ->
  AdvanceRunTx runID run2 sid next2 tr2 ints2 d' = (Ok tt, d').
Proof.
  intros Hw H [E1 E2]. apply advance_ok_after in H as [(r' & Hr & Ht) (s & s' & _ & Hs' & Hsl & Hn & Hst)]; [|done].
  eapply advance_completed; eauto; [congruence|].
  destruct Hsl as (_ & F1 & F2 & _), Hn as (N1 & N2 & N3). split; [congruence|]. split; congruence.
Qed.

(** A worker whose step is no longer what its run waits for (another
    path has moved the run, or changed its status) cannot move the run: its
    commit completes the step and touches no run, transition or intent. *)
Theorem advance_stale_harmless runID run sid next tr ints d r s :
  step_ok d sid s -> db_runs d !! runID = Some r -> run_TenantID r = run_TenantID run -> db_steps d !! sid = Some s ->
  names run s runID -> step_Status s = "processing" -> ~ at_run s r ->
  AdvanceRunTx runID run sid next tr ints d =
  (Ok tt, set_steps (<[sid := complete_step (db_now d) s]> (db_steps d)) d).
Proof.
  intros [Hid _ _ _ _ Hk _] Hr Ht Hs (E1 & E2 & E3) Hst Hat. unfold AdvanceRunTx, tx, mbind, M_bind, GetJourneyRunSystem.
  rewrite Hr, Ht, seqb_refl, Hs. unfold advance_locked. rewrite E1, E2, E3, Hst, !seqb_refl. simpl.
  destruct (negb (run_Status r =s _) || _) eqn:E.
  - unfold wrapM, update_step. rewrite Hs. unfold put_step.
    assert (Hm : mem (step_Kind (complete_step (db_now d) s)) step_kinds = true) by by apply mem_In.
    rewrite Hm. change (step_RunID (complete_step _ s)) with (step_RunID s).
    change (step_ID (complete_step _ s)) with (step_ID s).
    rewrite E1, Hid, bool_decide_false by congruence. done.
  - exfalso. apply Hat. apply orb_false_iff in E as [F1 F2].
    apply negb_false_iff, seqb_true in F1. apply negb_false_iff, seqb_true in F2. done.
Qed.

(** ** A commit that is due succeeds *)

Lemma put_step_total s d :
  step_Status s ∈ step_statuses -> step_Kind s ∈ step_kinds -> is_Some (db_runs d !! step_RunID s) ->
  (live s = true -> no_live (step_RunID s) (delete (step_ID s) (db_steps d))) ->
  put_step s d = (Ok tt, set_steps (<[step_ID s := s]> (db_steps d)) d).
Proof.
  intros H1%mem_In H2%mem_In H3 H4. unfold put_step. rewrite H1, H2. cbn [negb orb].
  rewrite bool_decide_false by by apply not_eq_None_Some.
  destruct (live_conflict d s) eqn:E; [|done]. exfalso. unfold live_conflict in E.
  apply andb_prop in E as [El E]. apply existsb_exists in E as ([i x] & Hin & E).
  apply list_elem_of_In, elem_of_map_to_list in Hin. rewrite !andb_true_iff in E. destruct E as [[E1 E2] E3].
  apply negb_true_iff, seqb_false in E1. apply seqb_true in E3. simpl in E1, E2, E3.
  specialize (H4 El i x). rewrite lookup_delete_ne, E2 in H4 by congruence. by specialize (H4 Hin E3).
Qed.

Lemma insert_transition_total tr d :
  is_Some (db_runs d !! tr_RunID tr) -> exists tr' u, insert_transition tr d =
    (Ok tt, set_transitions (db_transitions d ++ [tr']) (set_used u d)).
Proof.
  intros H. unfold insert_transition. rewrite bool_decide_false by by apply not_eq_None_Some. eauto.
Qed.

Lemma insert_intents_total l d :
  (forall i, i ∈ l -> is_Some (db_runs d !! mi_RunID i) /\ mi_Status i ∈ step_statuses) ->
  exists d', insert_intents l d = (Ok tt, d').
Proof.
  revert d. induction l as [|i l IH]; intros d Hl; simpl; [eauto|].
  destruct (Hl i (list_elem_of_here _ _)) as [Hr Hs%mem_In].
  unfold mbind at 1, M_bind at 1, wrapM. destruct (insert_intent i d) as [r d1] eqn:E.
  assert (Hok : r = Ok tt).
  { unfold insert_intent in E. rewrite Hs in E. cbn [negb] in E.
    rewrite bool_decide_false in E by by apply not_eq_None_Some.
    destruct (existsb _ _); by injection E. }
  subst r. cbn [wrapw map_err]. apply insert_intent_inv in E as (ins & u & _ & ->).
  apply IH. intros j Hj. apply Hl. by apply list_elem_of_further.
Qed.

Lemma tx_intro {A} (m : Tx A) d a d' : m d = (Ok a, d') -> tx m d = (Ok a, d').
Proof. intros H. unfold tx. by rewrite H. Qed.

(** Arguments a decision of the worker passes to [AdvanceRunTx]. *)
Record commit_args (runID : string) (run : JourneyRun) (next : option JourneyStep) (tr : JourneyTransition)
    (ints : list JourneyMessageIntent) : Prop := {
  ca_status : run_Status run ∈ run_statuses;
  ca_next : forall nx, next = Some nx -> step_RunID nx = runID /\ step_Kind nx ∈ step_kinds /\ step_Status nx ∈ step_statuses;
  ca_trans : tr_RunID tr = runID;
  ca_intents : forall i, i ∈ ints -> mi_RunID i = runID /\ mi_Status i ∈ step_statuses
}.

(** When the step is processing and its run stands where the step
    expects it, the commit always succeeds: no constraint (one live step per
    run, statuses, foreign keys, intent uniqueness) can reject it, and the
    run row becomes the one the worker computed. *)
Theorem advance_commits runID run sid next tr ints d r s :
  wf d -> db_runs d !! runID = Some r -> run_TenantID r = run_TenantID run -> db_steps d !! sid = Some s ->
  names run s runID -> step_Status s = "processing" -> at_run s r -> commit_args runID run next tr ints ->
  exists d', AdvanceRunTx runID run sid next tr ints d = (Ok tt, d') /\
    db_runs d' !! runID = Some (advance_row run (db_now d) r).
Proof.
  intros Hw Hr Ht Hs (E1 & E2 & E3) Hst [Ha Hb] [Hca Hcn Hct Hci].
  set (d1 := set_runs (<[runID := advance_row run (db_now d) r]> (db_runs d)) d).
  destruct (wf_step d Hw _ _ Hs) as [Hid Hus _ _ _ Hk _].
  assert (Hr1 : db_runs d1 !! runID = Some (advance_row run (db_now d) r)) by apply lookup_insert_eq.
  set (d2 := set_steps (<[sid := complete_step (db_now d) s]> (db_steps d)) d1).
  assert (H1 : put_run runID (advance_row run (db_now d) r) d = (Ok tt, d1)).
  { unfold put_run. apply mem_In in Hca. change (run_Status (advance_row _ _ r)) with (run_Status run). by rewrite Hca. }
  assert (H2 : update_step sid complete_step d1 = (Ok tt, d2)).
  { unfold update_step. change (db_steps d1) with (db_steps d). rewrite Hs, put_step_total; [|simpl; set_solver|exact Hk| |done].
    - change (step_ID (complete_step _ s)) with (step_ID s). by rewrite Hid.
    - change (step_RunID (complete_step _ s)) with (step_RunID s). rewrite E1. by eexists. }
  assert (H3 : exists d3, match next with None => mret tt | Some x => wrapM "advance insert step: %w" (insert_step (step_defaults (db_now d) x)) end d2
               = (Ok tt, d3) /\ db_runs d3 = db_runs d1).
  { destruct next as [nx|]; [|eexists; split; [done|done]]. destruct (Hcn nx eq_refl) as (N1 & N2 & N3).
    destruct (step_defaults_fields (db_now d) nx) as (F1 & _).
    destruct (step_defaults_set (db_now d) nx) as [F2 F3]; [intros E; rewrite E in N2; set_solver|intros E; rewrite E in N3; set_solver|].
    unfold wrapM, insert_step, new_id, get, mbind, M_bind. rewrite put_step_total.
    - eexists. split; [done|done].
    - simpl. by rewrite F3.
    - simpl. by rewrite F2.
    - simpl. rewrite F1, N1. rewrite lookup_insert_eq. by eexists.
    - intros _ j x Hj Hx. simpl in Hj, Hx. rewrite F1, N1 in Hx. apply lookup_delete_Some in Hj as [_ Hj].
      apply lookup_insert_Some in Hj as [[_ <-]|[Hne Hj]]; [done|]. destruct (live x) eqn:El; [|done].
      exfalso. apply Hne. eapply (wf_live d Hw _ _ s x); eauto using processing_live. congruence. }
  destruct H3 as (d3 & H3 & Hd3).
  destruct (insert_transition_total tr d3) as (tr' & u & H4); [rewrite Hd3, Hct, Hr1; by eexists|].
  set (d4 := set_transitions _ _) in H4.
  destruct (insert_intents_total ints d4) as (d5 & H5).
  { intros i Hi. destruct (Hci i Hi) as [-> ?]. split; [|done]. change (db_runs d4) with (db_runs d3). rewrite Hd3, Hr1. by eexists. }
  exists d5. split.
  - apply tx_intro.
    refine (eq_trans (bindM_eq _ _ d r d _) _); [unfold GetJourneyRunSystem; by rewrite Hr, Ht, seqb_refl|].
    refine (eq_trans (bindM_eq _ _ d s d _) _); [by rewrite Hs|]. unfold advance_locked.
    rewrite E1, E2, E3, Hst, Ha, Hb, !seqb_refl. cbn [negb andb orb].
    rewrite (proj2 (seqb_false "processing" "completed")) by done.
    refine (eq_trans (bindM_eq _ _ d (db_now d) d _) _); [done|].
    refine (eq_trans (bindM_eq _ _ d tt d1 (wrapM_eq _ _ _ _ _ H1)) _).
    refine (eq_trans (bindM_eq _ _ d1 tt d2 (wrapM_eq _ _ _ _ _ H2)) _).
    refine (eq_trans (bindM_eq _ _ d2 tt d3 H3) _).
    refine (eq_trans (bindM_eq _ _ d3 tt d4 (wrapM_eq _ _ _ _ _ H4)) _). exact H5.
  - apply insert_intents_inv in H5 as (ins & u' & _ & ->). simpl. by rewrite Hd3, Hr1.
Qed.

(** ** [TickNext] refines the transition system *)

Section Refinement.
(** [E] is everything outside the journey tables: profiles, segments,
    experiments, events, the AI gateway and the extension host. *)
Context {E : Type} `{NodeStore E}.
Abbreviation W := (DB * E)%type.

Definition on_db {A} (m : Tx A) : M W A := fun w => let '(r, d) := m w.1 in (r, (d, w.2)).
Definition on_ext {A} (m : M E A) : M W A := fun w => let '(r, e) := m w.2 in (r, (w.1, e)).

Definition node_store : NodeStore W := {|
  EvaluateAudience p i j := on_ext (EvaluateAudience p i j);
  IsProfileInSegment p s i := on_ext (IsProfileInSegment p s i);
  GetExperiment p i := on_ext (GetExperiment p i);
  AssignExperiment p e i v := on_ext (AssignExperiment p e i v);
  UpdateProfileAttributes p i a := on_ext (UpdateProfileAttributes p i a);
  AcceptEvents p l := on_ext (AcceptEvents p l);
  GetProfileByIDSystem t w i := on_ext (GetProfileByIDSystem t w i);
  ListActiveDeviceTokens t w i := on_ext (ListActiveDeviceTokens t w i);
  GetFirstAppID t w := on_ext (GetFirstAppID t w);
  ListActiveFlags t a e := on_ext (ListActiveFlags t a e)
|}.
Definition step_store : StepStore W := {|
  Store.ClaimJourneyStep := on_db JDB.ClaimJourneyStep;
  Store.GetJourneyRunSystem t i := on_db (JDB.GetJourneyRunSystem t i);
  Store.GetJourneyVersion t i := on_db (JDB.GetJourneyVersion t i);
  Store.FailJourneyStep i m := on_db (JDB.FailJourneyStep i m);
  Store.RescheduleJourneyStep i t := on_db (JDB.RescheduleJourneyStep i t);
  Store.AdvanceRunTx i r s n t l := on_db (JDB.AdvanceRunTx i r s n t l)
|}.
#[local] Existing Instances node_store step_store.

Definition lift_gateway (g : JNodes.Gateway E) : JNodes.Gateway W := fun p rq => on_ext (g p rq).
Definition lift_host (h : JNodes.ExtensionHost E) : JNodes.ExtensionHost W := fun p a b c j w =>
  let '(x, e) := h p a b c j w.2 in (x, (w.1, e)).
Definition lift_deps (deps : Deps E) : Deps W :=
  MkDeps W (Clock_Now deps) (LateThreshold deps) (lift_gateway <$> AIGateway deps) (lift_host <$> ExtHost deps).

(** A computation that leaves the journey tables alone. *)
Definition frames {A} (m : M W A) : Prop := forall w, (m w).2.1 = w.1.

Lemma frames_ret {A} (a : A) : frames (mret a).
Proof. done. Qed.
Lemma frames_throw {A} e : frames (throw (A := A) e).
Proof. done. Qed.
Lemma frames_lift {A} (r : result A) : frames (lift r).
Proof. done. Qed.
Lemma frames_ext {A} (m : M E A) : frames (on_ext m).
Proof. intros w. unfold on_ext. by destruct (m w.2). Qed.
Lemma frames_wrap {A} f (m : M W A) : frames m -> frames (wrapM f m).
Proof. intros Hm w. unfold wrapM. specialize (Hm w). by destruct (m w). Qed.
Lemma frames_bind {A B} (m : M W A) (f : A -> M W B) :
  frames m -> (forall a, frames (f a)) -> frames (m ≫= f).
Proof.
  intros Hm Hf w. unfold mbind, M_bind. specialize (Hm w). destruct (m w) as [[a|e] w1]; simpl in *; [|done].
  by rewrite (Hf a w1), Hm.
Qed.

Ltac framed :=
  repeat first
    [ apply frames_ret | apply frames_throw | apply frames_lift | apply frames_ext
    | apply frames_wrap | apply frames_bind | match goal with |- forall _, frames _ => intros ? end
    | match goal with |- frames (let _ := _ in _) => cbv zeta end
    | match goal with |- frames (if ?b then _ else _) => destruct b end
    | match goal with |- frames (match ?x with _ => _ end) => destruct x end ]; auto.

Lemma frames_assign a b run id : frames (JNodes.assign_experiment a b run id).
Proof. unfold JNodes.assign_experiment. framed. Qed.
Lemma frames_audience run b brs : frames (JNodes.pick_audience run b brs).
Proof. revert b. induction brs as [|br brs IH]; intros b; cbn [JNodes.pick_audience]; framed. Qed.
Lemma frames_targeted flag pid rules p :
  frames (@Flags.Flags.targeted W (EvaluateAudience p) flag pid rules).
Proof. induction rules as [|rl rules IH]; cbn [Flags.Flags.targeted]; framed. Qed.
Lemma frames_ai g run cfg : frames (JNodes.ai_choose (lift_gateway <$> g) run cfg).
Proof.
  intros w. unfold JNodes.ai_choose. destruct g as [g|]; simpl; [|done]. destruct (_ && _); [|done].
  unfold lift_gateway, on_ext. by destruct (g _ _ w.2) as [[[]|] e].
Qed.
Lemma frames_extension h run n cfg : frames (JNodes.extension_choose (lift_host <$> h) run n cfg).
Proof.
  intros w. unfold JNodes.extension_choose. destruct h as [h|]; simpl; [|done]. destruct (_ && _); [|done].
  destruct (JNodes.extension_input _ _ _); [|done]. unfold lift_host. by destruct (h _ _ _ _ _ w.2) as [[[] ?] e].
Qed.

Lemma frames_execute deps n run g now k :
  frames (JNodes.execute (AIGateway (lift_deps deps)) (ExtHost (lift_deps deps)) n run g now k).
Proof.
  unfold JNodes.execute, JNodes.exec_delay, JNodes.exec_condition, JNodes.exec_ai, JNodes.exec_extension,
    JNodes.exec_split, JNodes.split_choose, JNodes.exec_action, JNodes.exec_message, JNodes.message_variant,
    JNodes.message_endpoints, JNodes.exec_wait, JNodes.exec_flag, Flags.Flags.Evaluate.
  framed; try apply frames_assign; try apply frames_audience; try apply frames_targeted; try apply frames_ai;
    try apply frames_extension.
Qed.

Lemma decide_frames deps s r v : frames (decide_step (lift_deps deps) s r v).
Proof.
  unfold decide_step. framed. intros w. unfold run_node.
  match goal with |- context [JNodes.execute _ _ ?n r ?g ?t ?k w] => pose proof (frames_execute deps n r g t k w) as Hf end.
  by destruct (JNodes.execute _ _ _ _ _ _ _ w) as [[]].
Qed.

Definition failed_db (s : JourneyStep) (msg : text) (d : DB) : DB := (JDB.FailJourneyStep (step_ID s) msg d).2.

Lemma fail_step_world s msg d e : (failStep s msg (d, e)).2 = (failed_db s msg d, e).
Proof. unfold failStep, failed_db. simpl. unfold on_db. simpl. by destruct (JDB.FailJourneyStep _ _ d). Qed.

(** The load, decision and write of a claimed step. *)
Lemma process_refines disc deps k s d e d' e' Wk r0 :
  sys_ok disc (MkSys d Wk) -> Wk !! k = Some (Claimed s) ->
  process_step (lift_deps deps) s (d, e) = (r0, (d', e')) ->
  rtc (sys_step disc) (MkSys d Wk) (MkSys d' (delete k Wk)).
Proof.
  intros Hok Hk Hrun.
  assert (Hfail : forall msg w p, w.1 = d -> Wk !! k = Some p -> held_step p = s -> (failStep s msg w).2.1 = d' ->
             rtc (sys_step disc) (MkSys d Wk) (MkSys d' (delete k Wk))).
  { intros msg [x y] p Hxd Hp Hs Hd. simpl in Hxd. subst x. rewrite fail_step_world in Hd. simpl in Hd. subst d'.
    rewrite <- Hs. apply rtc_once. by apply st_fail. }
  unfold process_step in Hrun. simpl in Hrun. unfold on_db in Hrun at 1. simpl in Hrun.
  destruct (JDB.GetJourneyRunSystem _ _ d) as [[r|er] d1] eqn:El.
  2:{ assert (d1 = d) as -> by (unfold JDB.GetJourneyRunSystem in El; repeat case_match; congruence).
      eapply Hfail; [..|by rewrite Hrun]; done. }
  assert (d1 = d) as -> by by apply GetJourneyRunSystem_inv in El as [-> _].
  unfold on_db in Hrun at 1. simpl in Hrun.
  destruct (JDB.GetJourneyVersion _ _ d) as [[v|ev] d1] eqn:Ev;
    (assert (d1 = d) as -> by (unfold JDB.GetJourneyVersion in Ev; repeat case_match; congruence)).
  2:{ eapply Hfail; [..|by rewrite Hrun]; done. }
  assert (Hv : db_versions d !! run_JourneyVersionID r = Some v).
  { unfold JDB.GetJourneyVersion in Ev. repeat case_match; congruence. }
  destruct (so_valid _ _ Hok _ _ Hv) as (_ & g & Hg & Hvalid).
  destruct (decide_step_total (lift_deps deps) s r v (d, e)) as (c & [d2 e2] & Hc).
  rewrite (bindM_eq _ _ _ _ _ Hc) in Hrun.
  assert (Hd2 : d2 = d) by (pose proof (decide_frames deps s r v (d, e)) as Hf; by rewrite Hc in Hf). subst d2.
  apply (decide_step_ok _ _ _ _ _ _ _ _ Hg Hvalid) in Hc.
  assert (Hgo : graph_of d r g) by by exists v.
  set (W1 := <[k := Loaded s r]> Wk). assert (HW1 : W1 !! k = Some (Loaded s r)) by apply lookup_insert_eq.
  assert (Hdel : delete k W1 = delete k Wk) by apply delete_insert_eq.
  eapply rtc_l; [eapply st_load; eassumption|]. fold W1. rewrite <- Hdel.
  assert (Hwrite : forall res d1, write_back s r c d = (res, d1) -> 
            match res with Ok _ => d' = d1 | Err _ => exists msg, d' = failed_db s msg d1 end ->
            rtc (sys_step disc) (MkSys d W1) (MkSys d' (delete k W1))).
  { intros res d1 Hw Hres. eapply rtc_l; [eapply (st_commit disc k s r c g d W1 res d1); eassumption|].
    destruct res as [[]|er]; [subst; apply rtc_refl|]. destruct Hres as [msg ->].
    apply rtc_once. by apply (st_fail disc k (Loaded s r) msg d1 W1). }
  destruct c as [fmt r' next tr ints|at_|msg]; simpl in Hrun, Hwrite; unfold on_db in Hrun; simpl in Hrun.
  - destruct (JDB.AdvanceRunTx _ _ _ _ _ _ d) as [[[]|er] d1]; apply (Hwrite _ _ eq_refl).
    + by injection Hrun.
    + exists (Errorf fmt [AErr er]). pose proof (fail_step_world s (Errorf fmt [AErr er]) d1 e2) as Hf. rewrite Hrun in Hf. by injection Hf.
  - destruct (JDB.RescheduleJourneyStep _ _ d) as [[[]|er] d1]; apply (Hwrite _ _ eq_refl).
    + by injection Hrun.
    + exists (Errorf "reschedule: %v" [AErr er]). pose proof (fail_step_world s (Errorf "reschedule: %v" [AErr er]) d1 e2) as Hf.
      rewrite Hrun in Hf. by injection Hf.
  - apply rtc_once. pose proof (fail_step_world s msg d e2) as Hf. rewrite Hrun in Hf. injection Hf as -> _.
    by apply (st_fail disc k (Loaded s r) msg d W1).
Qed.

(** C3: A tick of the worker loop, executed over the real store methods
    and any gateway, extension host and other tables, is a sequence of
    steps of the transition system by an idle worker: it claims, loads,
    commits or fails, and is idle again.  Every invariant of the system
    therefore holds of the code. *)
Theorem TickNext_refines disc deps k Wk d e d' e' r0 :
  sys_ok disc (MkSys d Wk) -> Wk !! k = None ->
  (forall s, (JDB.ClaimJourneyStep d).1 = Ok (Some s) -> free disc Wk (step_ID s)) ->
  TickNext (lift_deps deps) (d, e) = (r0, (d', e')) ->
  rtc (sys_step disc) (MkSys d Wk) (MkSys d' Wk).
Proof.
  intros Hok Hk Hfree Hrun. unfold TickNext in Hrun.
  destruct (JDB.ClaimJourneyStep d) as [res d1] eqn:Ec.
  assert (Hst : sys_step disc (MkSys d Wk) (MkSys d1 (match res with Ok (Some s) => <[k := Claimed s]> Wk | _ => Wk end))).
  { eapply st_claim; [done | exact Ec|]. intros s ->. by apply Hfree. }
  assert (Hw : wrapM "claim journey step: %w" Store.ClaimJourneyStep (d, e) = (wrapw "claim journey step: %w" res, (d1, e))).
  { unfold wrapM. simpl. unfold on_db. simpl. by rewrite Ec. }
  unfold mbind, M_bind in Hrun. rewrite Hw in Hrun.
  destruct res as [[s|]|er]; simpl in Hrun.
  - eapply rtc_l; [exact Hst|]. destruct (process_step (lift_deps deps) s (d1, e)) as [r1 [d2 e2]] eqn:Ep.
    assert (d2 = d') as -> by (destruct r1; unfold mret, M_ret in Hrun; congruence).
    assert (Hok1 := sys_step_ok disc _ _ Hok Hst). simpl in Hok1.
    eapply (process_refines disc deps k) in Ep; [|exact Hok1|apply lookup_insert_eq].
    rewrite delete_insert_id in Ep by done. exact Ep.
  - unfold mret, M_ret in Hrun. injection Hrun as _ <- _. by apply rtc_once.
  - injection Hrun as _ <- _. by apply rtc_once.
Qed.
End Refinement.
(** ** The worker of [JSystem], concretely *)

Lemma demo_wf : wf demo_d2.
Proof. exact (so_wf _ _ (reachable_ok _ _ _ (demo_reachable_claimed false))). Qed.

(** What the worker of the demo asks the database to commit. *)
Definition demo_commit : JourneyRun * option JourneyStep * JourneyTransition * list JourneyMessageIntent :=
  match demo_command with
  | Advance _ r nx tr ints => (r, nx, tr, ints)
  | _ => (demo_row, None, MkJourneyTransition "" "" "" None None "" "" RawEmpty 0, [])
  end.
Definition demo_next_row : JourneyRun := demo_commit.1.1.1.
Definition demo_advance : Tx unit :=
  AdvanceRunTx demo_id demo_next_row (step_ID demo_claimed) demo_commit.1.1.2 demo_commit.1.2 demo_commit.2.

Lemma demo_names : names demo_next_row demo_claimed demo_id.
Proof. by vm_compute. Qed.

Lemma advance_idempotent_witness :
  demo_advance demo_d2 = (Ok tt, demo_d3) /\
  AdvanceRunTx demo_id demo_row (step_ID demo_claimed) None demo_commit.1.2 [] demo_d3 = (Ok tt, demo_d3).
Proof.
  assert (H : demo_advance demo_d2 = (Ok tt, demo_d3)) by by vm_compute. split; [exact H|].
  refine (advance_idempotent _ _ _ _ _ _ _ _ demo_row None demo_commit.1.2 [] demo_wf H _).
  split; vm_compute; reflexivity.
Defined.

(** The same commit after the run has moved on under the worker. *)
Definition demo_elsewhere : JourneyRun := set_run_CurrentNodeID "ask" demo_row.
Definition demo_stale : DB := set_runs (<[demo_id := demo_elsewhere]> (db_runs demo_d2)) demo_d2.

Lemma step_ok_set_runs d i s id r : step_ok d i s -> step_ok (set_runs (<[id := r]> (db_runs d)) d) i s.
Proof. apply step_ok_mono; [done|]. intros k. apply insert_is_Some. Qed.

Lemma advance_stale_harmless_witness :
  demo_advance demo_stale =
  (Ok tt, set_steps (<[step_ID demo_claimed := complete_step (db_now demo_stale) demo_claimed]> (db_steps demo_stale)) demo_stale).
Proof.
  apply (advance_stale_harmless _ _ _ _ _ _ demo_stale demo_elsewhere demo_claimed).
  - apply step_ok_set_runs, (wf_step _ demo_wf). by vm_compute.
  - by vm_compute.
  - by vm_compute.
  - by vm_compute.
  - exact demo_names.
  - by vm_compute.
  - vm_compute. by intros [_ [=]].
Defined.

Lemma advance_commits_witness :
  exists d', demo_advance demo_d2 = (Ok tt, d') /\
    db_runs d' !! demo_id = Some (advance_row demo_next_row (db_now demo_d2) demo_row).
Proof.
  apply (advance_commits demo_id demo_next_row (step_ID demo_claimed) _ _ _ demo_d2 demo_row demo_claimed demo_wf);
    try by vm_compute.
  split; [by apply mem_In; vm_compute| | by vm_compute | ].
  - intros nx Hn. assert (Hn' : exists x, demo_commit.1.1.2 = Some x) by (eexists; vm_compute; reflexivity).
    revert Hn. vm_compute. intros [= <-]. split; [done|]. split; by apply mem_In; vm_compute.
  - intros i Hi. exfalso. revert Hi. vm_compute. intros Hi. inversion Hi.
Defined.

(** One tick of the worker loop from the enrolled database. *)
Definition demo_deps : Deps unit := MkDeps unit 1000 0 None None.
Definition demo_tick : result bool * (DB * unit) :=
  TickNext (H := node_store (H := JNodes.demo_store)) (H0 := step_store)
    (lift_deps demo_deps) (demo_d1, tt).

Lemma TickNext_refines_witness :
  demo_tick.1 = Ok true /\ rtc (sys_step true) (MkSys demo_d1 ∅) (MkSys demo_tick.2.1 ∅).
Proof.
  split; [by vm_compute|]. destruct demo_tick as [r [d e]] eqn:E.
  apply (TickNext_refines (H := JNodes.demo_store) true demo_deps 0%nat ∅ demo_d1 tt d e r); [|done| |exact E].
  - exact (reachable_ok _ _ _ (demo_reachable_enrolled true)).
  - intros s _ _ j p Hj. by rewrite lookup_empty in Hj.
Defined.
End Tick.
