(* ===== verification/JourneyHazards.v ===== *)
(** * What the step queue does under late writers

    Statements about the unguarded updates of
    src/internal/postgres/journey_runtime.go: [FailJourneyStep] touches a step
    by id alone, and [resolveWaitingRuns] moves a run by id and status alone. *)

From S2P Require Import Prelude.
From S2P Require Import GoStd.
From S2P Require Import Domain.
From S2P Require Import JourneyGraph.
From S2P Require Import JourneyDB.
From S2P Require Import JourneyEffects.
From S2P Require Import JourneyOps.
From S2P Require Import JourneySystem.
From S2P Require Import JourneyTick.

Module Hazards.
Import Graph JDB Effects Ops JSystem Tick.

Lemma bury_idemp now s : bury_step now (bury_step now s) = bury_step now s.
Proof. unfold bury_step at 2 3. destruct (_ && _) eqn:E; [done|]. unfold bury_step. by rewrite E. Qed.

Lemma buried_idemp d : buried (buried d) = buried d.
Proof.
  unfold buried. simpl. unfold set_steps. simpl. f_equal. rewrite <- map_fmap_compose.
  apply map_fmap_ext. intros i s _. apply bury_idemp.
Qed.

Lemma conflict_true d s j x :
  db_steps d !! j = Some x -> step_ID x = j -> j <> step_ID s -> live x = true -> live s = true ->
  step_RunID x = step_RunID s -> live_conflict d s = true.
Proof.
  intros Hx Hj Hne Hlx Hls Hr. unfold live_conflict. rewrite Hls. simpl. apply existsb_exists. exists (j, x). split.
  - apply list_elem_of_In. by apply elem_of_map_to_list.
  - simpl. rewrite Hlx, Hr, seqb_refl, (proj2 (seqb_false j (step_ID s))) by done. done.
Qed.

(** When the oldest due step belongs to a run that has another pending or
    processing step (a failed step brought back after its run moved on and
    returned to the node), claiming answers a unique violation; the failed
    claim changes nothing that would let the next one succeed, so no worker
    claims any step of any run until that step's rival finishes. *)
Theorem revived_step_blocks_queue d s j x :
  step_ok (buried d) (step_ID s) s -> next_step (buried d) = Some s ->
  db_steps (buried d) !! j = Some x -> step_ID x = j -> j <> step_ID s -> live x = true ->
  step_RunID x = step_RunID s ->
  forall n, let after := Nat.iter n (fun d' => (ClaimJourneyStep d').2) d in
  ClaimJourneyStep after = (Err unique_violation, buried d).
Proof.
  intros [Hid _ [r Hr] _ _ Hk _] Hn Hx Hj Hne Hl Hrun.
  assert (Hclaim : forall d0, buried d0 = buried d -> ClaimJourneyStep d0 = (Err unique_violation, buried d)).
  { intros d0 E. unfold ClaimJourneyStep, put, get, mbind, M_bind. fold (buried d0). rewrite E, Hn.
    unfold put_step. apply mem_In in Hk.
    change (step_Kind (claimed _ s)) with (step_Kind s). change (step_RunID (claimed _ s)) with (step_RunID s).
    rewrite Hk, Hr, (conflict_true _ (claimed (db_now (buried d)) s) j x Hx) by done. done. }
  intros n after. apply Hclaim. subst after. induction n as [|n IH]; [done|]. simpl.
  rewrite (Hclaim _ IH). simpl. apply buried_idemp.
Qed.

(** Reporting a failure late brings a completed step back: the update has
    no status guard, so the step of a commit that succeeded becomes failed
    again and due in a minute, while its run and its log keep the commit. *)
Theorem late_failure_revives d id s msg :
  wf d -> db_steps d !! id = Some s -> step_Status s = "completed" -> step_Attempts s < 10 ->
  exists d' s', FailJourneyStep id msg d = (Ok tt, d') /\ db_steps d' !! id = Some s' /\
    step_Status s' = "failed" /\ step_AvailableAt s' = db_now d + Time.Minute /\
    db_runs d' = db_runs d /\ db_transitions d' = db_transitions d.
Proof.
  intros Hw Hs Hst Ha. destruct (wf_step d Hw _ _ Hs) as [Hid _ Hr _ _ Hk _].
  assert (Hf : step_Status (failed_step msg (db_now d) s) = "failed").
  { simpl. by rewrite (proj2 (Z.leb_gt 10 (step_Attempts s))). }
  set (s' := failed_step msg (db_now d) s) in *.
  exists (set_steps (<[id := s']> (db_steps d)) d), s'. split; [|split; [|split; [exact Hf|done]]].
  - unfold FailJourneyStep, update_step. rewrite Hs. rewrite <- Hid. apply (put_step_total s'); [rewrite Hf; set_solver | done | done |].
    unfold live. by rewrite Hf.
  - apply lookup_insert_eq.
Qed.

(** A database in which that has happened: the demo run stands at its second
    node with its pending step, and an earlier step of the node is failed and
    due. *)
Definition demo_revived : JourneyStep :=
  MkJourneyStep "9" demo_id "t" "ask" "advance" "failed" 1 0 None (Some (lit "late")) 0 0.
Definition demo_blocked : DB := set_steps (<["9" := demo_revived]> (db_steps demo_d3)) (set_used ({["9"]} ∪ db_used demo_d3) demo_d3).
Definition demo_rival : JourneyStep := default demo_step (db_steps demo_d3 !! "2").

Lemma revived_step_blocks_queue_witness :
  ClaimJourneyStep (Nat.iter 3 (fun d' => (ClaimJourneyStep d').2) demo_blocked) = (Err unique_violation, buried demo_blocked).
Proof.
  apply (revived_step_blocks_queue demo_blocked demo_revived "2" demo_rival).
  - constructor; [done | apply elem_of_union_l, elem_of_singleton; done | | done | by apply mem_In | by apply mem_In | discriminate].
    exists demo_moved. vm_compute. reflexivity.
  - vm_compute. reflexivity.
  - vm_compute. reflexivity.
  - vm_compute. reflexivity.
  - discriminate.
  - vm_compute. reflexivity.
  - vm_compute. reflexivity.
Defined.

Lemma late_failure_revives_witness :
  exists d' s', FailJourneyStep (step_ID demo_claimed) (lit "late") demo_d3 = (Ok tt, d') /\
    db_steps d' !! step_ID demo_claimed = Some s' /\ step_Status s' = "failed" /\
    step_AvailableAt s' = db_now demo_d3 + Time.Minute /\
    db_runs d' = db_runs demo_d3 /\ db_transitions d' = db_transitions demo_d3.
Proof.
  refine (late_failure_revives demo_d3 (step_ID demo_claimed) (default demo_step (db_steps demo_d3 !! step_ID demo_claimed)) (lit "late") _ _ _ _).
  - exact (so_wf _ _ (reachable_ok _ _ _ (demo_reachable false))).
  - vm_compute. reflexivity.
  - vm_compute. reflexivity.
  - vm_compute. reflexivity.
Defined.

(** A run resolved from a snapshot older than its row leaves the node the
    snapshot saw, not the one it waits at. *)
Lemma stale_resolution_jumps event it r succ d d' :
  db_runs d !! wi_id it = Some r -> run_Status r = "waiting" ->
  Json.Unmarshal edges_only [] (wi_graph it) = Ok succ -> success_edge (wi_node it) succ <> "" ->
  resolve_item event it d = (Ok tt, d') ->
  exists r', db_runs d' !! wi_id it = Some r' /\ run_CurrentNodeID r' = success_edge (wi_node it) succ.
Proof.
  intros Hr Hs Hu Hne H. unfold resolve_item in H. rewrite Hu in H.
  apply bindM_Ok in H as (es & d0 & [= <- <-] & H). rewrite (proj2 (seqb_false _ _) Hne) in H.
  apply bindM_Ok in H as (row & d0 & [= <- <-] & H). rewrite Hr, Hs in H. simpl in H.
  apply bindM_Ok in H as (now & d0 & [= <- <-] & H).
  apply bindM_Ok in H as (u & d1 & H1 & H). unfold put_run in H1.
  change (mem _ run_statuses) with true in H1. injection H1 as _ <-.
  apply bindM_Ok in H as (u' & d2 & [= _ <-] & H).
  apply bindM_Ok in H as ([] & d3 & H3 & H). apply insert_step_inv in H3 as (Hst & _).
  apply insert_transition_inv in H as (tr & -> & _). rewrite Hst. simpl.
  eexists. rewrite lookup_insert_eq. by split.
Qed.
End Hazards.
