(* ===== verification/JourneyEnroll.v ===== *)
(** * Scheduled enrollment and backfills (src/internal/journey/enroll.go)

    [EnrollScheduledDue] enrolls the segment of every due version, [Backfill]
    a segment chosen by an operator; both respect the version's re-entry
    policy by reading the profile's earlier runs.  The theorems run them over
    the journey tables of [JourneyDB]. *)

From S2P Require Import Prelude.
From S2P Require Import GoStd.
From S2P Require Import Domain.
From S2P Require Import Store.
From S2P Require Import Schedule.
From S2P Require Import JourneyGraph.
From S2P Require Import JourneyDB.
From S2P Require Import JourneyEffects.
From S2P Require Import JourneyInvariants.
From S2P Require Import JourneyOps.
From S2P Require Import JourneySystem.
From S2P Require Import JourneyTick.

Module Enroll.
Import Graph JDB Effects Invariants Ops JSystem Tick.

(** The sequence number a firing gives a profile with the runs [runs], newest
    sequence first; [None] skips the profile. *)
Definition scheduled_reentry (v : JourneyVersion) (slotTime : Z) (runs : list JourneyRun) : option Z :=
  if jv_ReentryPolicy v =s "always" then
    let reentrySeq := Z.quot (Time.Unix slotTime) 60 in
    if jv_MaxReentries v <? Z.of_nat (length runs) then None else Some reentrySeq
  else reentry (jv_ReentryPolicy v) (jv_MaxReentries v) runs.

(** The run and step literals of both loops. *)
Definition enroll_run (v : JourneyVersion) (profileID externalID entryKey entryNodeID : string) (seq : Z) : JourneyRun :=
  MkJourneyRun "" (jv_TenantID v) (jv_WorkspaceID v) (jv_JourneyID v) (jv_ID v) profileID (Some externalID)
    entryKey seq "active" entryNodeID (Raw (JObject [])) None None false Time.zero Time.zero None.
Definition enroll_step (v : JourneyVersion) (entryNodeID : string) (now : Z) : JourneyStep :=
  MkJourneyStep "" "" (jv_TenantID v) entryNodeID "advance" "pending" 0 now None None Time.zero Time.zero.

Section Code.
Context {W : Type} `{NodeStore W} `{StepStore W} `{SegmentStore W} `{EnrollStore W}.

Definition due_profile (v : JourneyVersion) (now slotTime : Z) (entryKey entryNodeID profileID : string) : M W unit :=
  profile ← wrapM "get scheduled profile: %w" (GetProfileByIDSystem (jv_TenantID v) (jv_WorkspaceID v) profileID);
  runs ← wrapM "get journey runs: %w" (Store.GetJourneyRunsForProfile (jv_TenantID v) (jv_ID v) profileID);
  match scheduled_reentry v slotTime runs with
  | None => mret tt
  | Some reentrySeq =>
      _ ← wrapM "enroll journey run: %w"
            (Store.EnrollJourneyRun (enroll_run v profileID (prof_ExternalID profile) entryKey entryNodeID reentrySeq)
               (enroll_step v entryNodeID now));
      mret tt
  end.

Definition slot_key (v : JourneyVersion) (slotTime : Z) : string :=
  "sched:" +:+ jv_ID v +:+ ":" +:+ Time.format_slot slotTime.

Definition version_principal (v : JourneyVersion) : Principal :=
  MkPrincipal (jv_TenantID v) (jv_WorkspaceID v) "" "" "" "" ["*"].

Definition due_version (now : Z) (v : JourneyVersion) : M W unit :=
  if negb (Schedule.isScheduledDue (default "" (jv_EntrySchedule v)) now) then mret tt else
  let slotTime := Time.Truncate now Time.Minute in
  let entryKey := slot_key v slotTime in
  match jv_EntrySegmentID v with
  | None => mret tt
  | Some segmentID =>
      let p := version_principal v in
      profileIDs ← wrapM "resolve segment: %w" (ResolveSegment p segmentID);
      graphObj ← wrapM "parse version graph: %w" (lift (ParseGraph (jv_Graph v)));
      let entryNodeID := EntryNodeID graphObj in
      if entryNodeID =s "" then mret tt
      else iterM (due_profile v now slotTime entryKey entryNodeID) profileIDs
  end.

Definition EnrollScheduledDue (now : Z) : M W unit :=
  versions ← wrapM "list active scheduled versions: %w" Store.ListActiveScheduledJourneyVersions;
  iterM (due_version now) versions.

(** One profile of a backfill: whether a run was inserted. *)
Definition backfill_profile (v : JourneyVersion) (now : Z) (segmentID entryNodeID profileID : string) : M W bool :=
  profile ← wrapM "get backfill profile: %w" (GetProfileByIDSystem (jv_TenantID v) (jv_WorkspaceID v) profileID);
  runs ← wrapM "get journey runs: %w" (Store.GetJourneyRunsForProfile (jv_TenantID v) (jv_ID v) profileID);
  match reentry (jv_ReentryPolicy v) (jv_MaxReentries v) runs with
  | None => mret false
  | Some reentrySeq =>
      let entryKey := "backfill:" +:+ segmentID +:+ ":" +:+ GoStr.of_Z now in
      r ← wrapM "create journey run: %w"
            (Store.EnrollJourneyRun (enroll_run v profileID (prof_ExternalID profile) entryKey entryNodeID reentrySeq)
               (enroll_step v entryNodeID now));
      mret r.2
  end.

Fixpoint backfill_all (f : string -> M W bool) (profileIDs : list string) (enrolledCount : Z) : M W Z :=
  match profileIDs with
  | [] => mret enrolledCount
  | profileID :: rest =>
      inserted ← f profileID;
      backfill_all f rest (if inserted : bool then enrolledCount + 1 else enrolledCount)
  end.

(** [now] is the clock the loop reads before it starts. *)
Definition Backfill (now : Z) (p : Principal) (journeyID segmentID approverUserID : string) : M W Z :=
  if approverUserID =s "" then throw (errors_New "approver user id is required") else
  j ← GetJourney p journeyID;
  match jny_CurrentVersionID j with
  | None => throw (errors_New "journey is not published")
  | Some current =>
      v ← Store.GetJourneyVersion (p_TenantID p) current;
      profileIDs ← wrapM "resolve segment: %w" (ResolveSegment p segmentID);
      graphObj ← wrapM "parse version graph: %w" (lift (ParseGraph (jv_Graph v)));
      let entryNodeID := EntryNodeID graphObj in
      if entryNodeID =s "" then throw (errors_New "entry node not found in graph")
      else backfill_all (backfill_profile v now segmentID entryNodeID) profileIDs 0
  end.
End Code.

(** ** Over the journey tables *)

Lemma insert_run_conflict run d d' :
  insert_run run d = (Ok None, d') -> d' = d /\ exists i x, db_runs d !! i = Some x /\ same_run_key run x = true.
Proof.
  unfold insert_run. destruct (negb _); [discriminate|]. destruct (existsb _ _) eqn:Ek.
  - intros [= <-]. split; [done|]. apply existsb_exists in Ek as ([i x] & Hin & Hk).
    apply list_elem_of_In, elem_of_map_to_list in Hin. eauto.
  - destruct (_ || _); discriminate.
Qed.

(** One call of [EnrollJourneyRun]: a new row, a row that was there already,
    or an error that changes nothing. *)
Lemma enroll_inv run s d r d' :
  EnrollJourneyRun run s d = (r, d') ->
  (exists id run', r = Ok (id, true) /\ id ∉ db_used d /\ db_runs d' = <[id := run']> (db_runs d) /\
     db_versions d' = db_versions d /\ run' = set_run_ID id (run_defaults (db_now d) run)) \/
  (d' = d /\ ((r = Ok ("", false) /\ run_TenantID run <> "" /\
               exists i x, db_runs d !! i = Some x /\ same_run_key (run_defaults (db_now d) run) x = true) \/
              exists e, r = Err e)).
Proof.
  unfold EnrollJourneyRun. destruct (run_TenantID run =s "") eqn:Et.
  { intros [= <- <-]. right. split; [done|]. right. by eexists. }
  intros H. destruct r as [[id b]|e]; [|apply tx_err in H; right; split; [done | right; by eexists]].
  apply tx_ok in H. apply bindM_Ok in H as (now & d0 & [= <- <-] & H).
  apply bindM_Ok in H as (o & d1 & H1 & H). destruct o as [i|].
  - left. apply bindM_Ok in H as ([] & d2 & H2 & H). injection H as <- <- <-.
    apply insert_run_inv in H1 as (-> & -> & _). apply insert_step_inv in H2 as (-> & _).
    exists (fresh (db_used d)). eexists. split; [done|]. split; [apply is_fresh|]. split; [done|]. by split.
  - right. apply insert_run_conflict in H1 as [-> Hx]. injection H as <- <- <-. split; [done|]. left.
    split; [done|]. split; [by apply seqb_false | exact Hx].
Qed.

(** The runs [GetJourneyRunsForProfile] answers. *)
Definition visible (tenantID versionID profileID : string) (r : JourneyRun) : bool :=
  (run_TenantID r =s tenantID) && (run_JourneyVersionID r =s versionID) && (run_ProfileID r =s profileID).
Definition profile_runs (v : JourneyVersion) (profileID : string) (d : DB) : list JourneyRun :=
  runs_where (visible (jv_TenantID v) (jv_ID v) profileID) d.

Lemma insert_desc_in r l x : x ∈ insert_desc r l <-> x = r \/ x ∈ l.
Proof.
  induction l as [|y l IH]; simpl; [set_solver|]. destruct (_ <=? _); [set_solver|].
  rewrite elem_of_cons, IH. set_solver.
Qed.
Lemma insert_desc_length r l : length (insert_desc r l) = S (length l).
Proof. induction l as [|y l IH]; simpl; [done|]. destruct (_ <=? _); simpl; by rewrite ?IH. Qed.

Lemma runs_where_in f d r : r ∈ runs_where f d <-> (exists i, db_runs d !! i = Some r) /\ f r = true.
Proof.
  unfold runs_where.
  assert (Hf : forall l, r ∈ foldr insert_desc [] l <-> r ∈ l).
  { induction l as [|x l IH]; simpl; [done|]. rewrite insert_desc_in, IH. set_solver. }
  rewrite Hf, list_elem_of_filter. split.
  - intros [H1 H2]. apply list_elem_of_fmap in H2 as ([i x] & -> & H2). apply elem_of_map_to_list in H2. eauto.
  - intros [[i Hi] H2]. split; [done|]. apply list_elem_of_fmap. exists (i, r). by rewrite elem_of_map_to_list.
Qed.

Lemma runs_where_length f d : length (runs_where f d) = length (filter (fun r => f r = true) (map_to_list (db_runs d)).*2).
Proof. unfold runs_where. induction (filter _ _) as [|x l IH]; simpl; [done|]. by rewrite insert_desc_length, IH. Qed.

Lemma runs_where_insert f d d' id r :
  db_runs d !! id = None -> db_runs d' = <[id := r]> (db_runs d) ->
  length (runs_where f d') = (if f r then S (length (runs_where f d)) else length (runs_where f d)).
Proof.
  intros Hn E. rewrite !runs_where_length, E, (Permutation_length (filter_Permutation _ _ _ (fmap_Permutation snd _ _ (map_to_list_insert _ _ r Hn)))).
  cbn [fmap list_fmap]. rewrite filter_cons. simpl. by destruct (f r) eqn:Ef; repeat case_decide.
Qed.

(** What a re-entry decision promises about the runs it has seen. *)
Definition admits (v : JourneyVersion) (runs : list JourneyRun) : Prop :=
  (jv_ReentryPolicy v = "once" -> runs = []) /\
  (jv_ReentryPolicy v = "after_exit" -> forall r, r ∈ runs -> active_or_waiting r = false).

Lemma reentry_admits v runs seq : reentry (jv_ReentryPolicy v) (jv_MaxReentries v) runs = Some seq -> admits v runs.
Proof.
  destruct runs as [|r runs]; [intros _; split; [done | set_solver]|]. cbn [reentry]. intros H. split; intros E; rewrite E in H.
  - by rewrite seqb_refl in H.
  - rewrite seqb_refl in H. cbn [andb] in H. destruct (existsb active_or_waiting (r :: runs)) eqn:Ex; [by destruct ("after_exit" =s "once")|].
    intros x Hx. destruct (active_or_waiting x) eqn:Ea; [|done]. rewrite <- Ex. symmetry. apply existsb_exists.
    exists x. by rewrite <- list_elem_of_In.
Qed.

Lemma scheduled_admits v slotTime runs seq : scheduled_reentry v slotTime runs = Some seq -> admits v runs.
Proof.
  unfold scheduled_reentry. destruct (jv_ReentryPolicy v =s "always") eqn:E; [|apply reentry_admits].
  apply seqb_true in E. intros _. split; intros E'; congruence.
Qed.

(** One enrollment of either loop: a version of the database, a profile its
    policy admits, the entry node of its graph. *)
Definition enroll1 (d d' : DB) : Prop :=
  exists v g profileID ext key seq now res,
    db_versions d !! jv_ID v = Some v /\ ParseGraph (jv_Graph v) = Ok g /\ admits v (profile_runs v profileID d) /\
    EnrollJourneyRun (enroll_run v profileID ext key (EntryNodeID g) seq) (enroll_step v (EntryNodeID g) now) d = (res, d').

Definition keyed (d : DB) : Prop := forall i v, db_versions d !! i = Some v -> jv_ID v = i.

(** What every version's policy means for the runs of a profile. *)
Definition policy_ok (d : DB) : Prop :=
  forall v profileID i j r t, db_versions d !! jv_ID v = Some v ->
    db_runs d !! i = Some r -> db_runs d !! j = Some t ->
    visible (jv_TenantID v) (jv_ID v) profileID r = true -> visible (jv_TenantID v) (jv_ID v) profileID t = true ->
    (jv_ReentryPolicy v = "once" -> i = j) /\
    (jv_ReentryPolicy v = "after_exit" -> active_or_waiting r = true -> active_or_waiting t = true -> i = j).

Lemma enroll1_versions d d' : enroll1 d d' -> db_versions d' = db_versions d.
Proof.
  intros (v & g & pid & ext & key & seq & now & res & _ & _ & _ & H). apply enroll_inv in H.
  by destruct H as [(id & run & _ & _ & _ & Hv & _)|[-> _]].
Qed.

Lemma visible_enroll now v profileID ext key node seq id tenant vid pid :
  visible tenant vid pid (set_run_ID id (run_defaults now (enroll_run v profileID ext key node seq))) =
  (jv_TenantID v =s tenant) && (jv_ID v =s vid) && (profileID =s pid).
Proof. reflexivity. Qed.

(** An admitted run beside the runs its profile had. *)
Lemma new_run_fits d w pid ext key node seq now id v profileID x y :
  db_versions d !! jv_ID w = Some w -> db_versions d !! jv_ID v = Some v -> admits w (profile_runs w pid d) ->
  visible (jv_TenantID v) (jv_ID v) profileID (set_run_ID id (run_defaults now (enroll_run w pid ext key node seq))) = true ->
  db_runs d !! x = Some y -> visible (jv_TenantID v) (jv_ID v) profileID y = true ->
  jv_ReentryPolicy v <> "once" /\ (jv_ReentryPolicy v = "after_exit" -> active_or_waiting y = false).
Proof.
  intros Hw Hv [A1 A2] Vn Hx Vy. rewrite visible_enroll, !andb_true_iff, !seqb_true in Vn. destruct Vn as [[_ V2] ->].
  assert (v = w) as -> by (rewrite V2 in Hw; congruence).
  assert (Hin : y ∈ profile_runs w profileID d) by (apply runs_where_in; eauto).
  split; [|intros E; by apply A2]. intros E. rewrite (A1 E) in Hin. set_solver.
Qed.

Lemma enroll1_policy d d' : policy_ok d -> enroll1 d d' -> policy_ok d'.
Proof.
  intros Hp He. pose proof (enroll1_versions _ _ He) as Hvs.
  destruct He as (w & g & pid & ext & key & seq & now & res & Hw & _ & Ha & H). apply enroll_inv in H.
  destruct H as [(id & run & _ & _ & Hr & _ & ->)|[-> _]]; [|done].
  intros v profileID i j r t Hv Hi Hj Vr Vt. rewrite Hvs in Hv. rewrite Hr in Hi, Hj.
  apply lookup_insert_Some in Hi as [[<- <-]|[Hi Ei]], Hj as [[<- <-]|[Hj Ej]].
  - done.
  - destruct (new_run_fits _ _ _ _ _ _ _ _ _ _ _ _ _ Hw Hv Ha Vr Ej Vt) as [N1 N2].
    split; [done|]. intros E _ At. by rewrite (N2 E) in At.
  - destruct (new_run_fits _ _ _ _ _ _ _ _ _ _ _ _ _ Hw Hv Ha Vt Ei Vr) as [N1 N2].
    split; [done|]. intros E Ar. by rewrite (N2 E) in Ar.
  - by apply (Hp v profileID i j r t).
Qed.

Lemma enrolls_policy d d' : rtc enroll1 d d' -> policy_ok d -> policy_ok d'.
Proof. induction 1; eauto using enroll1_policy. Qed.

(** Every such enrollment is a step of the journey system. *)
Lemma enrolls_refine disc Wk d d' : rtc enroll1 d d' -> rtc (sys_step disc) (MkSys d Wk) (MkSys d' Wk).
Proof.
  induction 1 as [d|d d1 d' (v & g & pid & ext & key & seq & now & res & Hv & Hg & _ & H) _ IH]; [apply rtc_refl|].
  eapply rtc_l; [|exact IH]. replace d1 with (EnrollJourneyRun (enroll_run v pid ext key (EntryNodeID g) seq)
    (enroll_step v (EntryNodeID g) now) d).2 by by rewrite H.
  apply (st_enroll disc _ _ g). constructor; try done. by exists v.
Qed.

(** ** The loops, over the tables *)

Section Tables.
Context {E : Type} `{NodeStore E} `{SegmentStore E}.
Abbreviation W := (DB * E)%type.

Definition segment_store : SegmentStore W := {|
  ResolveSegment p i := on_ext (ResolveSegment p i);
  GetJourney p i := on_ext (GetJourney p i)
|}.
Definition enroll_store : EnrollStore W := {|
  Store.ListActiveScheduledJourneyVersions := on_db JDB.ListActiveScheduledJourneyVersions;
  Store.GetJourneyRunsForProfile t v p := on_db (JDB.GetJourneyRunsForProfile t v p);
  Store.EnrollJourneyRun r s := on_db (JDB.EnrollJourneyRun r s)
|}.
#[local] Existing Instances node_store step_store segment_store enroll_store.

Lemma enroll_call v g pid ext key seq now d res d' :
  db_versions d !! jv_ID v = Some v -> ParseGraph (jv_Graph v) = Ok g -> admits v (profile_runs v pid d) ->
  JDB.EnrollJourneyRun (enroll_run v pid ext key (EntryNodeID g) seq) (enroll_step v (EntryNodeID g) now) d = (res, d') ->
  rtc enroll1 d d'.
Proof. intros Hv Hg Ha H1. apply rtc_once. exists v, g, pid, ext, key, seq, now, res. by split_and!. Qed.

Ltac see_runs v pid d :=
  match goal with |- context [runs_where ?f d] => change (runs_where f d) with (profile_runs v pid d) end.

Lemma due_profile_enrolls v g now slotTime key pid (w : W) :
  db_versions w.1 !! jv_ID v = Some v -> ParseGraph (jv_Graph v) = Ok g ->
  rtc enroll1 w.1 (due_profile v now slotTime key (EntryNodeID g) pid w).2.1.
Proof.
  destruct w as [d e]. intros Hv Hg. unfold due_profile, mbind, M_bind, wrapM at 1. simpl. unfold on_ext. simpl.
  destruct (GetProfileByIDSystem _ _ _ e) as [[profile|er] e1]; simpl; [|apply rtc_refl].
  unfold on_db. simpl. see_runs v pid d.
  destruct (scheduled_reentry v slotTime (profile_runs v pid d)) as [seq|] eqn:Es; [|apply rtc_refl].
  unfold wrapM. simpl. destruct (JDB.EnrollJourneyRun _ _ d) as [res d'] eqn:E1.
  apply enroll_call in E1; [|done|done|by eapply scheduled_admits]. by destruct res.
Qed.

Lemma backfill_profile_enrolls v g now seg pid (w : W) :
  db_versions w.1 !! jv_ID v = Some v -> ParseGraph (jv_Graph v) = Ok g ->
  rtc enroll1 w.1 (backfill_profile v now seg (EntryNodeID g) pid w).2.1.
Proof.
  destruct w as [d e]. intros Hv Hg. unfold backfill_profile, mbind, M_bind, wrapM at 1. simpl. unfold on_ext. simpl.
  destruct (GetProfileByIDSystem _ _ _ e) as [[profile|er] e1]; simpl; [|apply rtc_refl].
  unfold on_db. simpl. see_runs v pid d.
  destruct (reentry _ _ (profile_runs v pid d)) as [seq|] eqn:Es; [|apply rtc_refl].
  unfold wrapM. simpl. destruct (JDB.EnrollJourneyRun _ _ d) as [res d'] eqn:E1.
  apply enroll_call in E1; [|done|done|by eapply reentry_admits]. by destruct res.
Qed.

Lemma rtc_versions d d' : rtc enroll1 d d' -> db_versions d' = db_versions d.
Proof. induction 1 as [|x y z Hxy _ IH]; [done|]. by rewrite IH, (enroll1_versions _ _ Hxy). Qed.

Lemma due_version_enrolls now v (w : W) :
  db_versions w.1 !! jv_ID v = Some v -> rtc enroll1 w.1 (due_version now v w).2.1.
Proof.
  destruct w as [d e]. intros Hv. unfold due_version. destruct (negb _); [apply rtc_refl|].
  destruct (jv_EntrySegmentID v) as [seg|]; [|apply rtc_refl]. unfold mbind, M_bind, wrapM at 1. simpl. unfold on_ext. simpl.
  destruct (ResolveSegment _ _ e) as [[pids|er] e1]; simpl; [|apply rtc_refl]. unfold wrapM, lift.
  destruct (ParseGraph (jv_Graph v)) as [g|er] eqn:Eg; simpl; [|apply rtc_refl].
  destruct (_ =s _); [apply rtc_refl|].
  apply (iterM_inv _ (fun w : W => rtc enroll1 d w.1)); [|apply rtc_refl].
  intros pid w _ Hw. etransitivity; [exact Hw|]. apply due_profile_enrolls; [|done]. by rewrite (rtc_versions _ _ Hw).
Qed.

Lemma EnrollScheduledDue_enrolls now (w : W) : keyed w.1 -> rtc enroll1 w.1 (EnrollScheduledDue now w).2.1.
Proof.
  destruct w as [d e]. intros Hk. unfold EnrollScheduledDue, mbind, M_bind, wrapM. simpl. unfold on_db, JDB.ListActiveScheduledJourneyVersions, get. simpl.
  apply (iterM_inv _ (fun w : W => rtc enroll1 d w.1)); [|apply rtc_refl].
  intros v w Hv Hw. etransitivity; [exact Hw|]. apply due_version_enrolls. rewrite (rtc_versions _ _ Hw).
  apply list_elem_of_filter in Hv as [_ Hv]. apply list_elem_of_fmap in Hv as ([i x] & -> & Hv).
  apply elem_of_map_to_list in Hv. simpl. by rewrite (Hk _ _ Hv).
Qed.

Lemma backfill_all_enrolls (f : string -> M W bool) d pids n (w : W) :
  (forall pid w, rtc enroll1 d w.1 -> rtc enroll1 d (f pid w).2.1) -> rtc enroll1 d w.1 ->
  rtc enroll1 d (backfill_all f pids n w).2.1.
Proof.
  intros Hf. revert n w. induction pids as [|pid pids IH]; intros n w Hw; simpl; [done|].
  pose proof (Hf pid w Hw) as Hx. unfold mbind, M_bind. destruct (f pid w) as [[b|er] w1]; [|done]. by apply IH.
Qed.

Lemma Backfill_enrolls now p jid seg approver (w : W) : keyed w.1 -> rtc enroll1 w.1 (Backfill now p jid seg approver w).2.1.
Proof.
  destruct w as [d e]. intros Hk. unfold Backfill. destruct (_ =s _); [apply rtc_refl|].
  unfold mbind, M_bind. simpl. unfold on_ext at 1. simpl.
  destruct (GetJourney _ _ e) as [[j|er] e1]; simpl; [|apply rtc_refl].
  destruct (jny_CurrentVersionID j) as [cur|]; [|apply rtc_refl]. unfold on_db at 1. simpl. unfold JDB.GetJourneyVersion.
  destruct (db_versions d !! cur) as [v|] eqn:Ev; [|apply rtc_refl]. destruct (_ =s _); simpl; [|apply rtc_refl].
  unfold wrapM at 1, on_ext at 1. simpl. destruct (ResolveSegment _ _ e1) as [[pids|er] e2]; simpl; [|apply rtc_refl].
  unfold wrapM, lift. destruct (ParseGraph (jv_Graph v)) as [g|er] eqn:Eg; simpl; [|apply rtc_refl].
  destruct (_ =s _); [apply rtc_refl|]. apply backfill_all_enrolls; [|apply rtc_refl].
  intros pid w Hw. etransitivity; [exact Hw|]. apply backfill_profile_enrolls; [|done].
  by rewrite (rtc_versions _ _ Hw), (Hk _ _ Ev).
Qed.

(** Scheduled enrollment and backfills respect the re-entry policy: if
    every profile has at most one run of each [once] version and at most one
    unfinished run of each [after_exit] version, that is still so when the
    loop returns, however it returns; and the loop is a sequence of enroll
    steps of the journey system. *)
Theorem enrollment_keeps_policy disc Wk now p jid seg approver (w : W) :
  keyed w.1 -> policy_ok w.1 ->
  policy_ok (EnrollScheduledDue now w).2.1 /\ policy_ok (Backfill now p jid seg approver w).2.1 /\
  rtc (sys_step disc) (MkSys w.1 Wk) (MkSys (EnrollScheduledDue now w).2.1 Wk) /\
  rtc (sys_step disc) (MkSys w.1 Wk) (MkSys (Backfill now p jid seg approver w).2.1 Wk).
Proof.
  intros Hk Hp. pose proof (EnrollScheduledDue_enrolls now w Hk) as H1.
  pose proof (Backfill_enrolls now p jid seg approver w Hk) as H2.
  split; [by eapply enrolls_policy|]. split; [by eapply enrolls_policy|]. split; by apply enrolls_refine.
Qed.

End Tables.

End Enroll.
