(* ===== verification/JourneyFiring.v ===== *)
(** * Retrying a scheduled firing

    A worker that crashes in the middle of [EnrollScheduledDue], or a second
    scheduler ticking in the same minute, runs the same firing again.  The
    slot key and the re-entry policy make the second pass enroll nobody. *)

From S2P Require Import Prelude.
From S2P Require Import GoStd.
From S2P Require Import Domain.
From S2P Require Import Store.
From S2P Require Import Schedule.
From S2P Require Import JourneyGraph.
From S2P Require Import JourneyNodes.
From S2P Require Import JourneyDB.
From S2P Require Import JourneyEffects.
From S2P Require Import JourneyInvariants.
From S2P Require Import JourneyOps.
From S2P Require Import JourneySystem.
From S2P Require Import JourneyTick.
From S2P Require Import JourneyEnroll.

Module Firing.
Import Graph JDB Effects Invariants Ops JSystem Tick Enroll.

(** ** Re-entry reads the runs as a set *)

Definition newest_first (l : list JourneyRun) : Prop :=
  match l with [] => True | r :: l' => forall x, x ∈ l' -> run_ReentrySequence x <= run_ReentrySequence r end.

Lemma insert_desc_newest r l : newest_first l -> newest_first (insert_desc r l).
Proof.
  destruct l as [|y l]; simpl; [set_solver|]. intros Hl. destruct (_ <=? _) eqn:E; simpl.
  - intros x [->|Hx]%elem_of_cons; [lia|]. specialize (Hl x Hx). lia.
  - intros x [->|Hx]%insert_desc_in; [lia | by apply Hl].
Qed.

Lemma runs_where_newest f d : newest_first (runs_where f d).
Proof. unfold runs_where. induction (filter _ _) as [|x l IH]; [done | by apply insert_desc_newest]. Qed.

Lemma existsb_set {A} (f : A -> bool) l k : (forall x, x ∈ l <-> x ∈ k) -> existsb f l = existsb f k.
Proof.
  intros Hx. apply eq_true_iff_eq. rewrite !existsb_exists.
  split; intros (x & Hin & Hf); exists x; split; try done; apply list_elem_of_In; apply Hx; by apply list_elem_of_In.
Qed.

Lemma reentry_set policy mx l k :
  newest_first l -> newest_first k -> (forall x, x ∈ l <-> x ∈ k) -> reentry policy mx l = reentry policy mx k.
Proof.
  intros Hl Hk Hx. destruct l as [|r l], k as [|t k]; [done| | |].
  - exfalso. apply (not_elem_of_nil t), Hx, list_elem_of_here.
  - exfalso. apply (not_elem_of_nil r), Hx, list_elem_of_here.
  - cbn [reentry]. rewrite (existsb_set active_or_waiting _ _ Hx).
    assert (E : run_ReentrySequence r = run_ReentrySequence t).
    { apply Z.le_antisymm.
      - assert (Hr : r ∈ t :: k) by apply Hx, list_elem_of_here. apply elem_of_cons in Hr as [->|Hr]; [done | by apply Hk].
      - assert (Ht : t ∈ r :: l) by apply Hx, list_elem_of_here. apply elem_of_cons in Ht as [->|Ht]; [done | by apply Hl]. }
    by rewrite E.
Qed.

Lemma scheduled_reentry_set v slot l k :
  newest_first l -> newest_first k -> (forall x, x ∈ l <-> x ∈ k) -> length l = length k ->
  scheduled_reentry v slot l = scheduled_reentry v slot k.
Proof. intros Hl Hk Hx Hn. unfold scheduled_reentry. rewrite Hn. by rewrite (reentry_set _ _ _ _ Hl Hk Hx). Qed.

(** ** Minutes *)

Lemma truncate_minute t : Time.Truncate t Time.Minute = t / Time.Minute * Time.Minute.
Proof.
  unfold Time.Truncate. change (Time.Minute <=? 0) with false. cbv iota.
  replace ((t - Time.zero) mod Time.Minute) with (t mod Time.Minute).
  - rewrite Z.mod_eq by done. lia.
  - change Time.zero with (- (1035593280 * Time.Minute)). replace (t - - (1035593280 * Time.Minute)) with (t + 1035593280 * Time.Minute) by lia.
    by rewrite Z_mod_plus_full.
Qed.

Lemma same_minute now now' :
  Time.Truncate now Time.Minute = Time.Truncate now' Time.Minute -> Time.MinuteOf now = Time.MinuteOf now'.
Proof.
  rewrite !truncate_minute. intros E. unfold Time.MinuteOf. f_equal.
  by apply Z.mul_reg_r with (p := Time.Minute).
Qed.

Lemma due_same_minute s now now' :
  Time.MinuteOf now = Time.MinuteOf now' -> Schedule.isScheduledDue s now = Schedule.isScheduledDue s now'.
Proof. intros E. unfold Schedule.isScheduledDue. by rewrite E. Qed.

(** ** Settled profiles *)

Definition known_policy (v : JourneyVersion) : Prop := jv_ReentryPolicy v ∈ ["once"; "always"; "after_exit"].

(** The firing at [slot] would not add a run of [v] for the profile. *)
Definition settled (d : DB) (v : JourneyVersion) (slot : Z) (profileID : string) : Prop :=
  forall seq, scheduled_reentry v slot (profile_runs v profileID d) = Some seq ->
    jv_TenantID v <> "" /\ exists i x, db_runs d !! i = Some x /\ run_JourneyVersionID x = jv_ID v /\
      run_ProfileID x = profileID /\ run_EntryKey x = slot_key v slot /\ run_ReentrySequence x = seq.

(** A run of the firing among the profile's runs settles it. *)
Lemma fired_settles d v slot pid i x :
  known_policy v -> jv_TenantID v <> "" -> db_runs d !! i = Some x ->
  visible (jv_TenantID v) (jv_ID v) pid x = true -> active_or_waiting x = true ->
  (jv_ReentryPolicy v = "always" -> run_EntryKey x = slot_key v slot /\ run_ReentrySequence x = Z.quot (Time.Unix slot) 60) ->
  settled d v slot pid.
Proof.
  intros Hpol Ht Hi Hv Ha Hkey seq Hs.
  assert (Hin : x ∈ profile_runs v pid d) by (apply runs_where_in; eauto).
  destruct (decide (jv_ReentryPolicy v = "always")) as [E|E].
  - unfold scheduled_reentry in Hs. rewrite E in Hs. rewrite seqb_refl in Hs. cbv zeta in Hs.
    destruct (_ <? _); [discriminate|]. injection Hs as <-. destruct (Hkey E) as [K1 K2]. split; [done|].
    exists i, x. unfold visible in Hv. rewrite !andb_true_iff, !seqb_true in Hv. by destruct Hv as [[_ V2] V3].
  - apply scheduled_admits in Hs as [A1 A2]. unfold known_policy in Hpol.
    rewrite !elem_of_cons, elem_of_nil in Hpol. destruct Hpol as [P|[P|[P|[]]]]; [|done|].
    + rewrite (A1 P) in Hin. set_solver.
    + by rewrite (A2 P x Hin) in Ha.
Qed.

Lemma enrolled_active now v pid ext key node seq id :
  active_or_waiting (set_run_ID id (run_defaults now (enroll_run v pid ext key node seq))) = true.
Proof. reflexivity. Qed.
Lemma enrolled_key now v pid ext key node seq id :
  let x := set_run_ID id (run_defaults now (enroll_run v pid ext key node seq)) in
  run_EntryKey x = key /\ run_ReentrySequence x = seq.
Proof. done. Qed.
Lemma enrolled_same_key now v pid ext key node seq x :
  same_run_key (run_defaults now (enroll_run v pid ext key node seq)) x =
  (jv_ID v =s run_JourneyVersionID x) && (pid =s run_ProfileID x) && (key =s run_EntryKey x) && (seq =? run_ReentrySequence x).
Proof. reflexivity. Qed.

(** The firing's enrollment of a profile settles it. *)
Lemma enroll_settles v slot pid ext node now d d' id b :
  known_policy v -> (forall i, is_Some (db_runs d !! i) -> i ∈ db_used d) ->
  forall seq, scheduled_reentry v slot (profile_runs v pid d) = Some seq ->
  EnrollJourneyRun (enroll_run v pid ext (slot_key v slot) node seq) (enroll_step v node now) d = (Ok (id, b), d') ->
  jv_TenantID v <> "" -> settled d' v slot pid.
Proof.
  intros Hpol Hu seq Hs H Ht. apply enroll_inv in H as [(i & run & [= -> ->] & Hi & Hr & _ & ->)|[-> [(_ & _ & i & x & Hx & Hk)|[e [=]]]]].
  - eapply (fired_settles _ _ _ _ i); [done | done | by rewrite Hr, lookup_insert_eq | | done |].
    + by rewrite visible_enroll, !seqb_refl.
    + intros E. split; [done|]. unfold scheduled_reentry in Hs. rewrite E, seqb_refl in Hs. cbv zeta in Hs.
      destruct (_ <? _); [discriminate|]. by injection Hs as <-.
  - intros seq' Hs'. rewrite Hs in Hs'. injection Hs' as <-. split; [done|]. exists i, x.
    rewrite enrolled_same_key, !andb_true_iff, !seqb_true in Hk. destruct Hk as [[[-> ->] ->] Hq].
    repeat split; [done|lia].
Qed.

(** Someone else's enrollment leaves a profile settled. *)
Lemma settled_stays d d' v slot pid id x :
  db_runs d !! id = None -> db_runs d' = <[id := x]> (db_runs d) ->
  visible (jv_TenantID v) (jv_ID v) pid x = false -> settled d v slot pid -> settled d' v slot pid.
Proof.
  intros Hn Hr Hv Hs seq Hseq.
  assert (E : scheduled_reentry v slot (profile_runs v pid d') = scheduled_reentry v slot (profile_runs v pid d)).
  { apply scheduled_reentry_set; [apply runs_where_newest..| |].
    - intros y. unfold profile_runs. rewrite !runs_where_in, Hr. split; intros [[i Hi] Hy]; (split; [|done]); exists i.
      + apply lookup_insert_Some in Hi as [[_ ->]|[_ Hi]]; [by rewrite Hv in Hy | done].
      + rewrite lookup_insert_ne; [done|]. intros ->. by rewrite Hn in Hi.
    - unfold profile_runs. rewrite (runs_where_insert _ d d' id x Hn Hr). by rewrite Hv. }
  rewrite E in Hseq. destruct (Hs seq Hseq) as (Ht & i & y & Hi & Hrest). split; [done|]. exists i, y.
  split; [|done]. rewrite Hr, lookup_insert_ne; [done|]. intros ->. by rewrite Hn in Hi.
Qed.

(** ** The second pass *)

Lemma enroll1_wf d d' : wf d -> enroll1 d d' -> wf d'.
Proof.
  intros Hw (v & g & pid & ext & key & seq & now & res & Hv & Hg & _ & H).
  assert (Ha : enroll_args d (enroll_run v pid ext key (EntryNodeID g) seq) (enroll_step v (EntryNodeID g) now) g)
    by (constructor; try done; by exists v).
  apply (enroll_effect (fun _ _ => True) (fun _ => True) _ _ _ _ _ _ Ha) in H.
  clear -Hw H. induction H; [done|]. eauto using effect_wf.
Qed.

Lemma enroll_ok_tenant run s d a d' : EnrollJourneyRun run s d = (Ok a, d') -> run_TenantID run <> "".
Proof. unfold EnrollJourneyRun. destruct (run_TenantID run =s "") eqn:E; [discriminate|]. by apply seqb_false in E. Qed.

(** Enrolling under a key that exists answers "not inserted". *)
Lemma enroll_exists run s d i x :
  run_TenantID run <> "" -> run_Status run = "active" -> db_runs d !! i = Some x ->
  same_run_key (run_defaults (db_now d) run) x = true -> EnrollJourneyRun run s d = (Ok ("", false), d).
Proof.
  intros Ht Ha Hi Hk. unfold EnrollJourneyRun. rewrite (proj2 (seqb_false _ _) Ht). apply tx_intro.
  destruct (run_defaults_fields (db_now d) run Ha) as (Hst & _).
  unfold get, mbind, M_bind, insert_run. rewrite Hst.
  change (negb (mem "active" run_statuses)) with false. cbv iota.
  assert (E : existsb (fun p => same_run_key (run_defaults (db_now d) run) p.2) (map_to_list (db_runs d)) = true).
  { apply existsb_exists. exists (i, x). split; [by apply list_elem_of_In, elem_of_map_to_list | done]. }
  by rewrite E.
Qed.

Section Retry.
Context {E : Type} `{NodeStore E} `{SegmentStore E}.
(** Profiles and segments are only read. *)
Context (profiles_read : forall t w i (e : E), (GetProfileByIDSystem t w i e).2 = e).
Context (segments_read : forall p i (e : E), (ResolveSegment p i e).2 = e).
#[local] Existing Instances node_store step_store segment_store enroll_store.
Abbreviation W := (DB * E)%type.

Definition profile_known (v : JourneyVersion) (pid : string) (e : E) : Prop :=
  exists profile, GetProfileByIDSystem (jv_TenantID v) (jv_WorkspaceID v) pid e = (Ok profile, e).

Lemma due_profile_ok v g now slot pid d e w1 :
  wf d -> db_versions d !! jv_ID v = Some v -> ParseGraph (jv_Graph v) = Ok g -> known_policy v ->
  due_profile v now slot (slot_key v slot) (EntryNodeID g) pid (d, e) = (Ok tt, w1) ->
  exists d1, w1 = (d1, e) /\ rtc enroll1 d d1 /\ settled d1 v slot pid /\ profile_known v pid e /\
    (d1 = d \/ exists id x, db_runs d !! id = None /\ db_runs d1 = <[id := x]> (db_runs d) /\
       forall t i p, visible t i p x = (jv_TenantID v =s t) && (jv_ID v =s i) && (pid =s p)).
Proof.
  intros Hw Hv Hg Hpol Hrun. pose proof (due_profile_enrolls v g now slot (slot_key v slot) pid (d, e) Hv Hg) as Hen.
  rewrite Hrun in Hen. unfold due_profile in Hrun. apply bindM_Ok in Hrun as (profile & w0 & H1 & Hrun).
  apply wrapM_Ok in H1. simpl in H1. unfold on_ext in H1. simpl in H1.
  pose proof (profiles_read (jv_TenantID v) (jv_WorkspaceID v) pid e) as He.
  destruct (GetProfileByIDSystem _ _ pid e) as [rp e1] eqn:Ep. simpl in He. subst e1. injection H1 as -> <-.
  apply bindM_Ok in Hrun as (runs & w2 & H2 & Hrun). apply wrapM_Ok in H2. simpl in H2. unfold on_db in H2. simpl in H2.
  injection H2 as <- <-. change (runs_where _ d) with (profile_runs v pid d) in Hrun.
  assert (Hk : profile_known v pid e) by by exists profile.
  destruct (scheduled_reentry v slot (profile_runs v pid d)) as [seq|] eqn:Es.
  2:{ injection Hrun as <-. exists d. split; [done|]. split; [done|]. split; [|split; [done | by left]]. intros seq. by rewrite Es. }
  apply bindM_Ok in Hrun as ([id b] & w3 & H3 & Hrun). injection Hrun as <-. apply wrapM_Ok in H3. simpl in H3.
  unfold on_db in H3. simpl in H3. destruct (JDB.EnrollJourneyRun _ _ d) as [res d1] eqn:Ee. injection H3 as -> <-.
  assert (Hu : forall i, is_Some (db_runs d !! i) -> i ∈ db_used d) by (intros i [x Hx]; apply (rk_used _ _ _ (wf_run d Hw _ _ Hx))).
  exists d1. split; [done|]. split; [done|]. split; [eapply (enroll_settles v slot pid); eauto; by apply enroll_ok_tenant in Ee|].
  split; [done|]. apply enroll_inv in Ee as [(i & x & _ & Hi & Hr & _ & ->)|[-> _]]; [right | by left].
  exists i. eexists. split; [|split; [exact Hr|]].
  - apply eq_None_not_Some. intros Hx. by apply Hi, Hu.
  - intros t j p. apply visible_enroll.
Qed.

Lemma due_profile_idle v g now slot pid d e :
  settled d v slot pid -> profile_known v pid e ->
  due_profile v now slot (slot_key v slot) (EntryNodeID g) pid (d, e) = (Ok tt, (d, e)).
Proof.
  intros Hs [profile Hp]. unfold due_profile.
  refine (eq_trans (bindM_eq _ _ (d, e) profile (d, e) (wrapM_eq _ _ _ _ _ _)) _); [simpl; unfold on_ext; simpl; by rewrite Hp|].
  refine (eq_trans (bindM_eq _ _ (d, e) (profile_runs v pid d) (d, e) (wrapM_eq _ _ _ _ _ _)) _); [done|].
  destruct (scheduled_reentry v slot (profile_runs v pid d)) as [seq|] eqn:Es; [|done].
  destruct (Hs seq Es) as (Ht & i & x & Hi & K1 & K2 & K3 & K4).
  refine (eq_trans (bindM_eq _ _ (d, e) ("", false) (d, e) (wrapM_eq _ _ _ _ _ _)) _); [|done].
  simpl. unfold on_db. simpl. rewrite (enroll_exists _ _ d i x); [done|done|done|done|].
  rewrite enrolled_same_key, K1, K2, K3, K4, !seqb_refl. simpl. lia.
Qed.

(** What the firing keeps settled while it goes on. *)
Definition keeps (slot : Z) (d d' : DB) : Prop :=
  forall v pid, db_versions d !! jv_ID v = Some v -> settled d v slot pid -> settled d' v slot pid.

Lemma due_profile_keeps v g now slot pid d e w1 :
  wf d -> db_versions d !! jv_ID v = Some v -> ParseGraph (jv_Graph v) = Ok g -> known_policy v ->
  due_profile v now slot (slot_key v slot) (EntryNodeID g) pid (d, e) = (Ok tt, w1) -> keeps slot d w1.1.
Proof.
  intros Hw Hv Hg Hpol Hrun.
  destruct (due_profile_ok v g now slot pid d e w1) as (d1 & -> & _ & Hs & _ & [->|(id & x & Hn & Hr & Hvis)]);
    [done..|by intros v2 pid2 _ Hs2|].
  intros v2 pid2 Hv2 Hs2. simpl. destruct (visible (jv_TenantID v2) (jv_ID v2) pid2 x) eqn:Ex; [|by eapply settled_stays].
  rewrite Hvis, !andb_true_iff, !seqb_true in Ex. destruct Ex as [[_ Ei] <-].
  assert (v2 = v) as -> by (rewrite <- Ei in Hv2; congruence). done.
Qed.

Definition version_settled (slot : Z) (v : JourneyVersion) (w : W) : Prop :=
  jv_EntrySegmentID v = None \/
  exists seg pids g, jv_EntrySegmentID v = Some seg /\ ResolveSegment (version_principal v) seg w.2 = (Ok pids, w.2) /\
    ParseGraph (jv_Graph v) = Ok g /\
    (EntryNodeID g = "" \/ forall pid, pid ∈ pids -> profile_known v pid w.2 /\ settled w.1 v slot pid).

Definition firing_state (slot : Z) (w0 w : W) : Prop :=
  w.2 = w0.2 /\ wf w.1 /\ db_versions w.1 = db_versions w0.1 /\ keeps slot w0.1 w.1.

Lemma firing_state_refl slot w : wf w.1 -> firing_state slot w w.
Proof. intros Hw. split; [done|]. split; [done|]. split; [done|]. intros v pid _ Hs. exact Hs. Qed.

Lemma firing_state_step slot w0 d d' e :
  firing_state slot w0 (d, e) -> rtc enroll1 d d' -> keeps slot d d' -> firing_state slot w0 (d', e).
Proof.
  intros (He & Hw & Hv & Hk) Hr Hk'. simpl in *. split; [done|]. split; [|split].
  - simpl. clear -Hw Hr. induction Hr; [done|]. eauto using enroll1_wf.
  - simpl. by rewrite (rtc_versions _ _ Hr).
  - intros v pid Hv1 Hs. simpl. apply Hk'; [by rewrite Hv|]. by apply Hk.
Qed.

Lemma due_version_ok now v w w1 :
  let slot := Time.Truncate now Time.Minute in
  wf w.1 -> db_versions w.1 !! jv_ID v = Some v -> known_policy v -> due_version now v w = (Ok tt, w1) ->
  firing_state slot w w1 /\
  (Schedule.isScheduledDue (default "" (jv_EntrySchedule v)) now = true -> version_settled slot v w1).
Proof.
  intros slot Hw Hv Hpol Hrun. assert (Hrefl : firing_state slot w w) by by apply firing_state_refl.
  unfold due_version in Hrun. destruct (Schedule.isScheduledDue _ now); cbn [negb] in Hrun; cbv zeta in Hrun; fold slot in Hrun.
  2:{ injection Hrun as <-. by split. }
  destruct (jv_EntrySegmentID v) as [seg|] eqn:Es; [|injection Hrun as <-; split; [done | by left]].
  apply bindM_Ok in Hrun as (pids & w2 & H1 & Hrun). apply wrapM_Ok in H1. simpl in H1. unfold on_ext in H1.
  pose proof (segments_read (version_principal v) seg w.2) as Hp.
  destruct (ResolveSegment _ seg w.2) as [rp e2] eqn:Ep. simpl in Hp. subst e2. injection H1 as -> <-.
  replace (w.1, w.2) with w in Hrun by by destruct w.
  apply bindM_Ok in Hrun as (g & w2 & H2 & Hrun). apply wrapM_Ok in H2. unfold lift in H2. injection H2 as Hg <-.
  destruct (EntryNodeID g =s "") eqn:En.
  { injection Hrun as <-. split; [done|]. intros _. right. exists seg, pids, g.
    split; [done|]. split; [done|]. split; [done|]. left. by apply seqb_true. }
  apply (iterM_all _ (firing_state slot w) (fun pid w => profile_known v pid w.2 /\ settled w.1 v slot pid)) in Hrun.
  - destruct Hrun as [Hst Hall]. split; [done|]. intros _. right. exists seg, pids, g. split; [done|].
    destruct Hst as (He & _). rewrite He. split; [done|]. split; [done|]. right. intros pid Hin. rewrite <- He. by apply Hall.
  - intros pid [d e] w3 _ Hst Hstep. pose proof Hst as (He & Hwd & Hvd & _). simpl in He, Hwd, Hvd.
    assert (Hv' : db_versions d !! jv_ID v = Some v) by by rewrite Hvd.
    pose proof (due_profile_keeps v g now slot pid d e w3 Hwd Hv' Hg Hpol Hstep) as Hk.
    destruct (due_profile_ok v g now slot pid d e w3) as (d1 & -> & Hr & Hs & Hkn & _); [done..|].
    split; [by eapply firing_state_step|]. split; [by split|]. intros b _ [Hb1 Hb2]. split; [done|]. by apply Hk.
  - done.
Qed.

Lemma due_version_idle now now' v w :
  let slot := Time.Truncate now Time.Minute in
  Time.Truncate now' Time.Minute = slot ->
  (Schedule.isScheduledDue (default "" (jv_EntrySchedule v)) now = true -> version_settled slot v w) ->
  due_version now' v w = (Ok tt, w).
Proof.
  intros slot Hslot Hs. unfold due_version.
  rewrite (due_same_minute _ now' now) by by apply same_minute.
  destruct (Schedule.isScheduledDue _ now); cbn [negb]; [|done]. cbv zeta. rewrite Hslot.
  destruct (Hs eq_refl) as [->|(seg & pids & g & -> & Hp & Hg & Hall)]; [done|]. destruct w as [d e]. simpl in *.
  refine (eq_trans (bindM_eq _ _ (d, e) pids (d, e) (wrapM_eq _ _ _ _ _ _)) _); [simpl; unfold on_ext; simpl; by rewrite Hp|].
  refine (eq_trans (bindM_eq _ _ (d, e) g (d, e) (wrapM_eq _ _ _ _ _ _)) _); [unfold lift; by rewrite Hg|].
  destruct (EntryNodeID g =s "") eqn:En; [done|]. destruct Hall as [Hn|Hall]; [by rewrite Hn in En|].
  apply iterM_idle. intros pid Hin. destruct (Hall pid Hin) as [Hk Hst]. by apply due_profile_idle.
Qed.

(** The versions a firing visits. *)
Definition due_list (d : DB) : list JourneyVersion :=
  filter (fun v => (jv_Status v =s "active") && (jv_EntryKind v =s "scheduled") = true) (map_to_list (db_versions d)).*2.
Lemma EnrollScheduledDue_list now d e : EnrollScheduledDue now (d, e) = iterM (due_version now) (due_list d) (d, e).
Proof. done. Qed.

(** Retrying a firing is harmless: once [EnrollScheduledDue] has returned
    without error, running it again at any instant of the same minute (after
    a crash of the caller, or by a second scheduler) succeeds and changes
    nothing, whatever the re-entry policies of the versions. *)
Theorem firing_idempotent now now' d e w1 :
  wf d -> keyed d -> (forall i v, db_versions d !! i = Some v -> known_policy v) ->
  EnrollScheduledDue now (d, e) = (Ok tt, w1) ->
  Time.Truncate now' Time.Minute = Time.Truncate now Time.Minute ->
  EnrollScheduledDue now' w1 = (Ok tt, w1).
Proof.
  intros Hw Hk Hpol Hrun Hslot. set (slot := Time.Truncate now Time.Minute) in *.
  rewrite EnrollScheduledDue_list in Hrun. set (l := due_list d) in *.
  assert (Hl : forall v, v ∈ l -> db_versions d !! jv_ID v = Some v /\ known_policy v).
  { intros v Hin. apply list_elem_of_filter in Hin as [_ Hin]. apply list_elem_of_fmap in Hin as ([i x] & -> & Hin).
    apply elem_of_map_to_list in Hin. simpl. rewrite (Hk _ _ Hin). split; [done | by eapply Hpol]. }
  apply (iterM_all _ (firing_state slot (d, e)) (fun v w => Schedule.isScheduledDue (default "" (jv_EntrySchedule v)) now = true -> version_settled slot v w)) in Hrun.
  - destruct Hrun as [(He & Hw1 & Hv1 & _) Hall]. destruct w1 as [d1 e1]. simpl in *. subst e1.
    rewrite EnrollScheduledDue_list. unfold due_list. rewrite Hv1. apply iterM_idle. intros v Hin.
    apply (due_version_idle now); [done|]. by apply Hall.
  - intros v w w2 Hin Hst Hstep. destruct Hst as (He & Hwd & Hvd & Hkeep). simpl in He, Hvd.
    destruct (Hl v Hin) as [Hv Hp]. assert (Hv' : db_versions w.1 !! jv_ID v = Some v) by by rewrite Hvd.
    destruct (due_version_ok now v w w2 Hwd Hv' Hp Hstep) as [(He2 & Hw2 & Hv2 & Hk2) Hset]. split; [|split; [exact Hset|]].
    + split; [by rewrite He2|]. split; [done|]. split; [by rewrite Hv2|]. intros u pid Hu Hs. simpl in Hu.
      apply Hk2; [by rewrite Hvd|]. by apply Hkeep.
    + intros u Hu Hp2 Hdue. destruct (Hp2 Hdue) as [Hn|(seg & pids & g & E1 & E2 & E3 & E4)]; [by left|]. right.
      exists seg, pids, g. rewrite He2. split; [done|]. split; [done|]. split; [done|].
      destruct E4 as [E4|E4]; [by left|]. right. intros pid Hpid. destruct (E4 pid Hpid) as [F1 F2]. split; [done|].
      apply Hk2; [|done]. rewrite Hvd. by apply Hl.
  - by apply firing_state_refl.
Qed.

(** ** Counting a backfill *)

Lemma enrolls_wf d d' : rtc enroll1 d d' -> wf d -> wf d'.
Proof. induction 1; eauto using enroll1_wf. Qed.

Lemma enroll_count run s d id (b : bool) d' :
  wf d -> EnrollJourneyRun run s d = (Ok (id, b), d') ->
  Z.of_nat (size (db_runs d')) = Z.of_nat (size (db_runs d)) + (if b then 1 else 0).
Proof.
  intros Hw H1. apply enroll_inv in H1 as [(i & x & [= -> ->] & Hi & -> & _)|[-> [([= -> ->] & _)|[er [=]]]]]; [|lia].
  rewrite map_size_insert_None; [lia|]. apply eq_None_not_Some. intros [y Hy].
  by apply Hi, (rk_used _ _ _ (wf_run d Hw _ _ Hy)).
Qed.

Lemma backfill_profile_count v g now seg pid (w : W) (b : bool) w1 :
  wf w.1 -> db_versions w.1 !! jv_ID v = Some v -> ParseGraph (jv_Graph v) = Ok g ->
  backfill_profile v now seg (EntryNodeID g) pid w = (Ok b, w1) ->
  rtc enroll1 w.1 w1.1 /\ Z.of_nat (size (db_runs w1.1)) = Z.of_nat (size (db_runs w.1)) + (if b then 1 else 0).
Proof.
  intros Hw Hv Hg Hrun. pose proof (backfill_profile_enrolls v g now seg pid w Hv Hg) as Hen.
  rewrite Hrun in Hen. split; [exact Hen|]. unfold backfill_profile in Hrun.
  apply bindM_Ok in Hrun as (profile & w0 & H1 & Hrun). apply wrapM_Ok in H1. simpl in H1. unfold on_ext in H1.
  destruct (GetProfileByIDSystem _ _ pid w.2) as [rp e1]. injection H1 as -> <-.
  apply bindM_Ok in Hrun as (runs & w2 & H2 & Hrun). apply wrapM_Ok in H2. simpl in H2. unfold on_db in H2. simpl in H2.
  injection H2 as <- <-. destruct (reentry _ _ _) as [seq|]; [|injection Hrun as <- <-; simpl; lia].
  apply bindM_Ok in Hrun as ([id b'] & w3 & H3 & Hrun). injection Hrun as <- <-. apply wrapM_Ok in H3. simpl in H3.
  unfold on_db in H3. simpl in H3. destruct (JDB.EnrollJourneyRun _ _ w.1) as [res d1] eqn:Ee. injection H3 as -> <-.
  by apply enroll_count in Ee.
Qed.

Lemma backfill_all_count v g now seg pids n (w w1 : W) m :
  wf w.1 -> db_versions w.1 !! jv_ID v = Some v -> ParseGraph (jv_Graph v) = Ok g ->
  backfill_all (backfill_profile v now seg (EntryNodeID g)) pids n w = (Ok m, w1) ->
  Z.of_nat (size (db_runs w1.1)) - Z.of_nat (size (db_runs w.1)) = m - n.
Proof.
  intros Hw Hv Hg. revert n w Hw Hv. induction pids as [|pid pids IH]; intros n w Hw Hv Hrun; simpl in Hrun.
  - injection Hrun as <- <-. lia.
  - apply bindM_Ok in Hrun as (b & w2 & H1 & Hrun). apply (backfill_profile_count v g) in H1 as [He Hs]; [|done..].
    apply IH in Hrun; [destruct b; lia | by eapply enrolls_wf | by rewrite (rtc_versions _ _ He)].
Qed.

(** The number a successful backfill answers is the number of runs it has
    added to the table. *)
Theorem Backfill_counts now p jid seg approver d e n w1 :
  wf d -> keyed d -> Backfill now p jid seg approver (d, e) = (Ok n, w1) ->
  Z.of_nat (size (db_runs w1.1)) = Z.of_nat (size (db_runs d)) + n.
Proof.
  intros Hw Hk Hrun. unfold Backfill in Hrun. destruct (approver =s ""); [discriminate|].
  apply bindM_Ok in Hrun as (j & w2 & H1 & Hrun). simpl in H1. unfold on_ext in H1. simpl in H1.
  destruct (GetJourney _ _ e) as [rj e1]. injection H1 as -> <-.
  destruct (jny_CurrentVersionID j) as [cur|]; [|discriminate].
  apply bindM_Ok in Hrun as (v & w2 & H2 & Hrun). simpl in H2. unfold on_db, JDB.GetJourneyVersion in H2. simpl in H2.
  destruct (db_versions d !! cur) as [v'|] eqn:Ev; [|discriminate]. destruct (_ =s _); [|discriminate]. injection H2 as -> <-.
  apply bindM_Ok in Hrun as (pids & w2 & H3 & Hrun). apply wrapM_Ok in H3. simpl in H3. unfold on_ext in H3. simpl in H3.
  destruct (ResolveSegment _ _ e1) as [rs e2]. injection H3 as -> <-.
  apply bindM_Ok in Hrun as (g & w2 & H4 & Hrun). apply wrapM_Ok in H4. unfold lift in H4. injection H4 as Hg <-.
  destruct (_ =s _); [discriminate|]. apply backfill_all_count in Hrun; [simpl in Hrun; lia|done| |done].
  simpl. by rewrite (Hk _ _ Ev).
Qed.

End Retry.

(** ** Concretely *)

Definition demo_scheduled (policy : string) : JourneyVersion :=
  MkJourneyVersion "v2" "j2" "t" "w" 1 (jv_Graph demo_version) None "scheduled" None (Some "seg") (Some "*/5 * * * *")
    policy 3 "run" RawEmpty None "active" None 0.
Definition demo_sched_db (policy : string) : DB :=
  MkDB {["v2" := demo_scheduled policy]} {["p1" := "a1"]} ∅ ∅ [] ∅ ∅ ∅ 1000.
Definition demo_segments : SegmentStore unit := {|
  ResolveSegment p i := mret (if i =s "seg" then ["p1"] else []);
  GetJourney p i := mret (MkJourney i "t" "w" "J" None "active" RawEmpty 1 (Some "v2") 0 0)
|}.
#[local] Existing Instances JNodes.demo_store demo_segments.
(** 2020-01-01 00:00:07 and 00:00:45, a due minute. *)
Definition demo_at : Z := 1577836807 * Time.Second.
Definition demo_again : Z := 1577836845 * Time.Second.

Definition firing (policy : string) (now : Z) (w : DB * unit) : result unit * (DB * unit) :=
  EnrollScheduledDue (H := node_store) (H1 := segment_store) (H2 := enroll_store) now w.
Definition backfill (now : Z) (d : DB) : result Z * (DB * unit) :=
  Backfill (H := node_store) (H0 := step_store) (H1 := segment_store) (H2 := enroll_store) now demo_p "j2" "seg" "u1" (d, tt).

Lemma demo_sched_wf policy : wf (demo_sched_db policy).
Proof. constructor; try (intros; done). simpl. intros tr Htr. by apply elem_of_nil in Htr. Qed.
Lemma demo_sched_versions policy i v : db_versions (demo_sched_db policy) !! i = Some v -> i = "v2" /\ v = demo_scheduled policy.
Proof. simpl. intros H. apply lookup_singleton_Some in H as [<- <-]. done. Qed.
Lemma demo_sched_keyed policy : keyed (demo_sched_db policy).
Proof. intros i v Hi. by apply demo_sched_versions in Hi as [-> ->]. Qed.

Lemma firing_idempotent_witness :
  size (db_runs (firing "always" demo_at (demo_sched_db "always", tt)).2.1) = 1%nat /\
  firing "always" demo_again (firing "always" demo_at (demo_sched_db "always", tt)).2 =
  (Ok tt, (firing "always" demo_at (demo_sched_db "always", tt)).2).
Proof.
  split; [by vm_compute|]. destruct (firing "always" demo_at _) as [r w1] eqn:E1.
  assert (Hr : (firing "always" demo_at (demo_sched_db "always", tt)).1 = Ok tt) by by vm_compute.
  rewrite E1 in Hr. simpl in Hr. subst r.
  refine (firing_idempotent _ _ demo_at demo_again _ _ w1 (demo_sched_wf _) (demo_sched_keyed _) _ E1 _).
  - by intros ? ? ? [].
  - by intros ? ? [].
  - intros i v Hi. apply demo_sched_versions in Hi as [_ ->]. by apply mem_In.
  - by vm_compute.
Defined.

Lemma enrollment_keeps_policy_witness :
  policy_ok (firing "once" demo_at (demo_sched_db "once", tt)).2.1 /\
  size (db_runs (firing "once" demo_at (demo_sched_db "once", tt)).2.1) = 1%nat.
Proof.
  split; [|by vm_compute].
  refine (proj1 (enrollment_keeps_policy (H := JNodes.demo_store) (H0 := demo_segments) false ∅ demo_at demo_p "j2" "seg" "u1"
            (demo_sched_db "once", tt) (demo_sched_keyed _) _)).
  intros v pid i j r t _ Hi. simpl in Hi. by rewrite lookup_empty in Hi.
Defined.

Lemma Backfill_counts_witness :
  Z.of_nat (size (db_runs (backfill demo_at (demo_sched_db "once")).2.1)) = 1.
Proof.
  destruct (backfill demo_at (demo_sched_db "once")) as [r w1] eqn:E1.
  assert (Hr : (backfill demo_at (demo_sched_db "once")).1 = Ok 1) by by vm_compute.
  rewrite E1 in Hr. simpl in Hr. subst r.
  exact (Backfill_counts demo_at demo_p "j2" "seg" "u1" (demo_sched_db "once") tt 1 w1 (demo_sched_wf _) (demo_sched_keyed _) E1).
Defined.

(** The policy is read in one transaction and the run inserted in another, and
    the unique key holds the entry key: two backfills that both read before
    either inserts give a profile two runs of a [once] version. *)
Definition backfill_insert (now : Z) (d : DB) : DB :=
  (JDB.EnrollJourneyRun (enroll_run (demo_scheduled "once") "p1" "ext" ("backfill:seg:" +:+ GoStr.of_Z now) "start" 0)
     (enroll_step (demo_scheduled "once") "start" now) d).2.
Lemma concurrent_backfills_break_once :
  let d := demo_sched_db "once" in
  reentry "once" 3 (profile_runs (demo_scheduled "once") "p1" d) = Some 0 /\
  length (profile_runs (demo_scheduled "once") "p1" (backfill_insert demo_again (backfill_insert demo_at d))) = 2%nat.
Proof. by vm_compute. Qed.

End Firing.
