(* ===== verification/Deliver.v ===== *)
(** * Delivery of journey messages (src/internal/journey/deliver.go)

    [DeliverNext] claims one message intent and takes it through template,
    identity, quiet hours, policy, rendering, the channel adapter and the
    [message.sent] event.  The Go function returns early from some twenty
    places, jumps over the sending block when the provider has already
    accepted the message, and recovers panics; here it is a computation that
    may exit early.  Logging and telemetry are left out. *)

From S2P Require Import Prelude.
From S2P Require Import GoStd.
From S2P Require Import Domain.
From S2P Require Import Store.
From S2P Require Import Policy.
From S2P Require Import QuietHours.

Module Deliver.

(** ** Early exits *)

(** [return processed, err], or a panic with the intent as it then was. *)
Inductive exit : Type :=
  | Return (processed : bool) (err : option error)
  | Panicked (intent : JourneyMessageIntent) (recovered : text).
Definition D (W A : Type) : Type := W -> (A + exit) * W.

#[export] Instance D_ret {W} : MRet (D W) := fun A a w => (inl a, w).
#[export] Instance D_bind {W} : MBind (D W) := fun A B f m w =>
  match m w with (inl a, w') => f a w' | (inr x, w') => (inr x, w') end.

Definition leave {W A} (processed : bool) (err : option error) : D W A := fun w => (inr (Return processed err), w).
Definition panic {W A} (intent : JourneyMessageIntent) (recovered : text) : D W A := fun w => (inr (Panicked intent recovered), w).
(** A store call with its error in hand. *)
Definition call {W A} (m : M W A) : D W (result A) := fun w => match m w with (r, w') => (inl r, w') end.
(** A computation that cannot fail. *)
Definition run {W A} (f : W -> A * W) : D W A := fun w => match f w with (a, w') => (inl a, w') end.
(** A clock read. *)
Definition read {W A} (f : W -> A) : D W A := fun w => (inl (f w), w).

(** ** Channel adapters *)

(** [ports.RenderedMessage]; journeys set neither title nor data. *)
Record RenderedMessage : Type := MkRenderedMessage {
  rm_Channel : string; rm_Endpoint : string; rm_Subject : string; rm_HTML : string; rm_Text : string;
  rm_Body : string; rm_Identity : SendingIdentity; rm_IdempotencyKey : string
}.
(** [ChannelAdapter.Send]: the provider's message id and the cost. *)
Definition Adapter (W : Type) : Type := RenderedMessage -> M W (string * Z).

(** [channels.Registry]. *)
Record Registry (W : Type) : Type := MkRegistry {
  reg_adapters : list (string * Adapter W);
  reg_fallback : Adapter W
}.
Arguments MkRegistry {W}. Arguments reg_adapters {W}. Arguments reg_fallback {W}.
Definition For {W} (r : Registry W) (provider : string) : Adapter W :=
  if provider =s "" then reg_fallback r
  else match find_first (fun p => p.1 =s provider) (reg_adapters r) with
       | Some p => p.2
       | None => reg_fallback r
       end.

(** [channels.IsRetryableError] and [channels.IsInvalidTokenError]: the first
    [DeliveryError] of the chain decides. *)
Definition IsRetryableError (e : error) : bool :=
  default false (errors_walk (fun e => match e with DeliveryError _ r _ => Some r | _ => None end) e).
Definition IsInvalidTokenError (e : error) : bool :=
  default false (errors_walk (fun e => match e with DeliveryError _ _ t => Some t | _ => None end) e).

(** What delivery takes from the rest of the process: the wall clock that
    message policy reads, the time zones, the template engine with its
    connected-content fetcher, link rewriting and the signed open token, and
    the adapters built when the configuration supplies none. *)
Class DeliveryEnv (W : Type) := {
  time_Now : W -> Z;
  LoadLocation : string -> option QuietHours.Location;
  RenderWithContext : Principal -> string -> option (list (string * json)) -> M W string;
  RewriteLinks : string -> JourneyMessageIntent -> string -> string -> string -> string -> M W string;
  SignOpenToken : JourneyMessageIntent -> string -> string -> string -> result string;
  NewSESAdapter : Adapter W;
  NewWebhookAdapter : Adapter W;
  NewFakeAdapter : Adapter W
}.

Record Config (W : Type) : Type := MkConfig {
  TrackingSecretKey : string;
  TrackingBaseURL : string;
  cfg_Registry : option (Registry W);
  cfg_Adapter : option (Adapter W);
  SESAdapter : option (Adapter W);
  WebhookAdapter : option (Adapter W);
  FakeAdapter : option (Adapter W);
  (** [cfg.Clock.Now], the real clock when there is none. *)
  cfg_Now : W -> Z
}.
Arguments MkConfig {W}. Arguments TrackingSecretKey {W}. Arguments TrackingBaseURL {W}. Arguments cfg_Registry {W}.
Arguments cfg_Adapter {W}. Arguments SESAdapter {W}. Arguments WebhookAdapter {W}. Arguments FakeAdapter {W}.
Arguments cfg_Now {W}.

(** ** The intent's outcomes *)

Definition with_failure (decision : string) (errMsg : text) (i : JourneyMessageIntent) : JourneyMessageIntent :=
  set_mi_Decision (Some decision) (set_mi_ErrorMessage (Some errMsg) (set_mi_Status "failed" i)).
Definition with_decision (decision : string) (reason : text) (i : JourneyMessageIntent) : JourneyMessageIntent :=
  set_mi_Reason (Some reason) (set_mi_Decision (Some decision) (set_mi_Status "completed" i)).
Definition terminal_decisions : list string :=
  ["sent"; "suppressed"; "no_consent"; "fatigued"; "render_failed"; "send_failed"; "failed"].
Definition decided (i : JourneyMessageIntent) (d : string) : bool :=
  match mi_Decision i with Some x => x =s d | None => false end.

Definition sent_key (i : JourneyMessageIntent) : string := "sent-" +:+ mi_RunID i +:+ "-" +:+ mi_NodeID i.

Definition sent_payload (i : JourneyMessageIntent) : RawMessage :=
  Raw (Json.marshal (JObject [
    ("journey_id", JString (mi_JourneyID i)); ("journey_version_id", JString (mi_JourneyVersionID i));
    ("node_id", JString (mi_NodeID i)); ("run_id", JString (mi_RunID i)); ("channel", JString (mi_Channel i));
    ("endpoint", JString (mi_Endpoint i));
    ("experiment_id", match mi_ExperimentID i with Some e => JString e | None => JNull end);
    ("variant", JString (mi_Variant i))])).

Definition sent_event (i : JourneyMessageIntent) (prof : Profile) (now : Z) : Event :=
  MkEvent "message.sent" 1 (prof_ExternalID prof) (prof_AnonymousID prof) (sent_key i) now "" "" "" "" "" "" RawEmpty
    (sent_payload i).

(** Before the closing body tag, or at the end. *)
Definition with_pixel (html base token : string) : string :=
  let img := "<img src=" +:+ GoStr.dquote +:+ GoStr.trim_suffix base "/" +:+ "/o/" +:+ token +:+ GoStr.dquote +:+ " width=" +:+ GoStr.dquote +:+ "1" +:+ GoStr.dquote
             +:+ " height=" +:+ GoStr.dquote +:+ "1" +:+ GoStr.dquote +:+ " alt=" +:+ GoStr.dquote +:+ GoStr.dquote +:+ " />" in
  match GoStr.replace_first html "</body>" (img +:+ "</body>") with
  | Some html' => html'
  | None => html +:+ img
  end.

Section Code.
Context {W : Type} `{NodeStore W} `{PolicyStore W} `{IntentStore W} `{DeliveryStore W} `{DeliveryEnv W}.

(** [_ = store.UpdateJourneyMessageIntent(ctx, intent); return true, nil]. *)
Definition settle {A} (i : JourneyMessageIntent) : D W A :=
  _ ← call (UpdateJourneyMessageIntent i); leave true None.

(** The call's answer, or the intent settled as [bad] says of the error. *)
Definition or_settle {A} (m : M W A) (bad : error -> JourneyMessageIntent) : D W A :=
  r ← call m;
  match r with Ok a => mret a | Err e => settle (bad e) end.

Definition resolve_principal (i : JourneyMessageIntent) : D W Principal :=
  appID ← or_settle (GetFirstAppID (mi_TenantID i) (mi_WorkspaceID i))
            (fun e => with_failure "failed" (Errorf "failed to resolve app: %v" [AErr e]) i);
  mret (MkPrincipal (mi_TenantID i) (mi_WorkspaceID i) appID "" "" "" ["*"]).

Definition fixed_identity (channel provider : string) : SendingIdentity :=
  MkSendingIdentity "" "" "" channel None None None provider RawEmpty 10 false Time.zero.

Definition push_identity (i : JourneyMessageIntent) (p : Principal) : D W SendingIdentity :=
  activeTokens ← or_settle (ListActiveDeviceTokens (mi_TenantID i) (mi_WorkspaceID i) (mi_ProfileID i))
                   (fun e => with_failure "failed" (Errorf "failed to list active device tokens: %v" [AErr e]) i);
  match find_first (fun t => dt_Token t =s mi_Endpoint i) activeTokens with
  | None => settle (with_decision "failed" (lit "device token no longer active") i)
  | Some matchingToken =>
      idents ← call (ListSendingIdentities p);
      let identity := match idents with
                      | Ok l => find_first (fun iden => si_Provider iden =s dt_Provider matchingToken) l
                      | Err _ => None
                      end in
      mret (match identity with
            | Some iden => if si_ID iden =s "" then fixed_identity "push" (dt_Provider matchingToken) else iden
            | None => fixed_identity "push" (dt_Provider matchingToken)
            end)
  end.

Definition load_identity (i : JourneyMessageIntent) (p : Principal) (template : Template) : D W SendingIdentity :=
  if tpl_Channel template =s "push" then push_identity i p
  else if tpl_Channel template =s "in_app" then mret (fixed_identity "in_app" "inapp")
  else
    match tpl_SendingIdentityID template with
    | Some id =>
        if id =s "" then mret (fixed_identity (tpl_Channel template) "fake")
        else or_settle (GetSendingIdentity p id)
               (fun e => with_failure "render_failed" (Errorf "failed to get sending identity: %v" [AErr e]) i)
    | None => mret (fixed_identity (tpl_Channel template) "fake")
    end.

Definition resolve_adapter (cfg : Config W) (provider : string) : Adapter W :=
  match cfg_Adapter cfg, cfg_Registry cfg with
  | Some a, _ => a
  | None, Some r => For r provider
  | None, None =>
      if provider =s "ses" then default NewSESAdapter (SESAdapter cfg)
      else if provider =s "webhook" then default NewWebhookAdapter (WebhookAdapter cfg)
      else default NewFakeAdapter (FakeAdapter cfg)
  end.

Definition fatigue_caps (p : Principal) (template : Template) : D W Policy.Caps :=
  quotas ← call (GetTenantFatigueQuotas p);
  let '(maxSends24h, maxSends7d) := match quotas with Ok q => q | Err _ => (5, 20) end in
  mret (Policy.MkCaps (tpl_Channel template) "marketing" maxSends24h maxSends7d).

(** The decision recorded by an earlier attempt: a terminal one drains the
    intent; "provider_sent" ([true]) goes on to the event, after a log line
    that dereferences the provider's message id. *)
Definition earlier_decision (i : JourneyMessageIntent) : D W bool :=
  match mi_Decision i with
  | None => mret false
  | Some d =>
      if mem d terminal_decisions then settle (set_mi_Status "completed" i)
      else if d =s "provider_sent" then
        match mi_ProviderMessageID i with
        | Some _ => mret true
        | None => panic i (lit "runtime error: invalid memory address or nil pointer dereference")
        end
      else mret false
  end.

Definition postponed (i : JourneyMessageIntent) (nextOpen : Z) : JourneyMessageIntent :=
  let i := set_mi_Status "pending" (set_mi_AvailableAt nextOpen i) in
  if 0 <? mi_Attempts i then set_mi_Attempts (mi_Attempts i - 1) i else i.

Definition quiet_hours (cfg : Config W) (i : JourneyMessageIntent) (p : Principal) (prof : Profile) : D W unit :=
  if mi_Transactional i then mret tt else
  r ← call (GetTenantQuietHours p);
  match r with
  | Ok (Some start, Some end_, tz) =>
      now ← read (cfg_Now cfg);
      match QuietHours.IsInQuietHours LoadLocation now prof (Some start) (Some end_) tz with
      | Ok (true, nextOpen) => settle (postponed i nextOpen)
      | _ => mret tt
      end
  | _ => mret tt
  end.

Definition verdict (i : JourneyMessageIntent) (p : Principal) (template : Template) (prof : Profile) (caps : Policy.Caps)
    : D W Policy.Verdict :=
  if mi_Transactional i then
    r ← call (IsSuppressed p (tpl_Channel template) (mi_Endpoint i));
    mret (match r with
          | Err e => Policy.MkVerdict "send_failed" (Errorf "failed to check suppression: %v" [AErr e]) []
          | Ok true => Policy.MkVerdict "suppressed" (lit "endpoint is suppressed") []
          | Ok false => Policy.MkVerdict "sent" (lit "eligible") []
          end)
  else
    now ← read time_Now;
    run (Policy.Evaluate now p (Policy.MkRecipient (mi_ProfileID i) (prof_ExternalID prof) (mi_Endpoint i)) caps).

Definition with_snapshot (v : Policy.Verdict) (i : JourneyMessageIntent) : JourneyMessageIntent :=
  match Policy.vd_Snapshot v with
  | [] => i
  | l => set_mi_PolicySnapshot (Raw (Json.marshal (JObject l))) i
  end.

(** Quiet hours and policy: the intent that may be sent, or an exit. *)
Definition clear_to_send (cfg : Config W) (i : JourneyMessageIntent) (p : Principal) (template : Template) (prof : Profile)
    (caps : Policy.Caps) : D W JourneyMessageIntent :=
  _ ← quiet_hours cfg i p prof;
  v ← verdict i p template prof caps;
  let i := with_snapshot v i in
  if Policy.vd_Decision v =s "sent" then mret i
  else settle (with_decision (Policy.vd_Decision v) (Policy.vd_Reason v) i).

(** One part of the template; an absent or empty one is [dflt]. *)
Definition render_part (i : JourneyMessageIntent) (p : Principal) (vars : option (list (string * json)))
    (tmpl : option string) (dflt errfmt : string) : D W string :=
  match tmpl with
  | Some t =>
      if t =s "" then mret dflt
      else or_settle (RenderWithContext p t vars) (fun e => with_decision "render_failed" (Errorf errfmt [AErr e]) i)
  | None => mret dflt
  end.

Definition track (cfg : Config W) (i : JourneyMessageIntent) (p : Principal) (template : Template) (htmlBody : string)
    : D W string :=
  if (htmlBody =s "") || (TrackingSecretKey cfg =s "") then mret htmlBody else
  rewritten ← call (RewriteLinks htmlBody i (p_AppID p) (tpl_ID template) (TrackingSecretKey cfg) (TrackingBaseURL cfg));
  let htmlBody := match rewritten with Ok h => h | Err _ => htmlBody end in
  mret (match SignOpenToken i (p_AppID p) (tpl_ID template) (TrackingSecretKey cfg) with
        | Ok token => with_pixel htmlBody (TrackingBaseURL cfg) token
        | Err _ => htmlBody
        end).

Definition profile_vars (prof : Profile) : option (list (string * json)) :=
  match Json.Unmarshal_map (prof_Attributes prof) with Ok vars => vars | Err _ => None end.

Definition compose (cfg : Config W) (i : JourneyMessageIntent) (p : Principal) (template : Template) (prof : Profile)
    (identity : SendingIdentity) : D W RenderedMessage :=
  let vars := profile_vars prof in
  subject ← render_part i p vars (tpl_SubjectTemplate template) "Journey Message" "subject render error: %v";
  htmlBody ← render_part i p vars (tpl_HTMLTemplate template) "" "html render error: %v";
  textBody ← render_part i p vars (tpl_TextTemplate template) "" "text render error: %v";
  bodyPayload ← render_part i p vars (tpl_BodyTemplate template) "" "body render error: %v";
  htmlBody ← track cfg i p template htmlBody;
  mret (MkRenderedMessage (tpl_Channel template) (mi_Endpoint i) subject htmlBody textBody bodyPayload identity (sent_key i)).

(** The adapter refused: retire the token, retry, bury, or give up. *)
Definition send_failed {A} (i : JourneyMessageIntent) (e : error) : D W A :=
  if IsInvalidTokenError e then
    app ← call (GetFirstAppID (mi_TenantID i) (mi_WorkspaceID i));
    let appID := match app with Ok a => a | Err _ => "app-1" end in
    _ ← call (RetireDeviceToken (mi_TenantID i) appID (mi_Endpoint i));
    let reason := Errorf "invalid token retired: %v" [AErr e] in
    settle (set_mi_ErrorMessage (Some reason) (with_decision "failed" reason i))
  else if IsRetryableError e then
    let reason := Errorf "transient send error: %v" [AErr e] in
    let out := 3 <=? mi_Attempts i in
    _ ← call (UpdateJourneyMessageIntent
                (set_mi_Status (if out then "dead" else "failed")
                   (set_mi_ErrorMessage (Some reason) (with_decision (if out then "send_failed" else "retryable_failed") reason i))));
    leave true (Some (Errorf "transient delivery failure: %s" [AErr e]))
  else
    let reason := Errorf "adapter send error: %v" [AErr e] in
    settle (set_mi_ErrorMessage (Some reason) (with_decision "send_failed" reason i)).

Definition accepted (i : JourneyMessageIntent) (providerMsgID : string) (costMicros : Z) : JourneyMessageIntent :=
  set_mi_Reason (Some (lit "eligible")) (set_mi_Decision (Some "provider_sent")
    (set_mi_CostMicros costMicros (set_mi_ProviderMessageID (Some providerMsgID) i))).

(** Hand the message over and record that the provider took it. *)
Definition send (adapter : Adapter W) (i : JourneyMessageIntent) (msg : RenderedMessage) : D W JourneyMessageIntent :=
  sent ← call (adapter msg);
  match sent with
  | Err e => send_failed i e
  | Ok (providerMsgID, costMicros) =>
      let i := accepted i providerMsgID costMicros in
      r ← call (UpdateJourneyMessageIntent i);
      match r with
      | Ok _ => mret i
      | Err e => leave true (Some (Errorf "persist provider_sent decision: %w" [AWrap e]))
      end
  end.

(** The event could not be accepted: requeue, or bury after three attempts. *)
Definition requeued (i : JourneyMessageIntent) (e : error) : JourneyMessageIntent :=
  set_mi_Decision (Some "provider_sent")
    (if 3 <=? mi_Attempts i
     then set_mi_ErrorMessage (Some (Errorf "message.sent emission failed after %d attempts: %v" [AInt (mi_Attempts i); AErr e]))
            (set_mi_Status "dead" i)
     else set_mi_Status "pending" i).

Definition emit (cfg : Config W) (i : JourneyMessageIntent) (p : Principal) (prof : Profile) : D W unit :=
  now ← read (cfg_Now cfg);
  r ← call (AcceptEvents p [sent_event i prof now]);
  match r with
  | Err e =>
      u ← call (UpdateJourneyMessageIntent (requeued i e));
      leave true (Some (match u with
                        | Err ue => Errorf "emit message.sent event: %v; requeue provider_sent intent: %w" [AErr e; AWrap ue]
                        | Ok _ => Errorf "emit message.sent event: %w" [AWrap e]
                        end))
  | Ok _ =>
      u ← call (UpdateJourneyMessageIntent (set_mi_Decision (Some "sent") (set_mi_Status "completed" i)));
      leave true (match u with Err e => Some e | Ok _ => None end)
  end.

(** The body after the claim. *)
Definition deliver (cfg : Config W) (i : JourneyMessageIntent) : D W unit :=
  p ← resolve_principal i;
  template ← or_settle (GetTemplate p (mi_TemplateID i))
               (fun e => with_failure "render_failed" (Errorf "failed to get template: %v" [AErr e]) i);
  identity ← load_identity i p template;
  let adapter := resolve_adapter cfg (si_Provider identity) in
  caps ← fatigue_caps p template;
  reconcile ← earlier_decision i;
  prof ← or_settle (GetProfileByIDSystem (mi_TenantID i) (mi_WorkspaceID i) (mi_ProfileID i))
           (fun e => with_failure "failed" (Errorf "failed to load profile: %v" [AErr e]) i);
  if reconcile : bool then emit cfg i p prof else
  i ← clear_to_send cfg i p template prof caps;
  msg ← compose cfg i p template prof identity;
  i ← send adapter i msg;
  emit cfg i p prof.

(** The deferred recovery. *)
Definition recovered (i : JourneyMessageIntent) (msg : text) (w : W) : bool * option error * W :=
  let panicErr := Errorf "journey delivery panic: %v" [AErr msg] in
  let i' := set_mi_Decision (Some "failed") (set_mi_ErrorMessage (Some panicErr) (set_mi_LockedUntil None
              (set_mi_Status (if 3 <=? mi_Attempts i then "dead" else "failed") i))) in
  let '(r, w') := UpdateJourneyMessageIntent i' w in
  (true, Some (match r with
               | Err ue => Errorf "recover journey intent %s: %s (update intent: %v)" [AStr (mi_ID i); AErr panicErr; AErr ue]
               | Ok _ => Errorf "recover journey intent %s: %s" [AStr (mi_ID i); AErr panicErr]
               end), w').

Definition DeliverNext (workerID : string) (cfg : Config W) (w : W) : bool * option error * W :=
  match ClaimJourneyMessageIntent workerID w with
  | (Err e, w1) => (false, Some (Errorf "claim journey message intent: %w" [AWrap e]), w1)
  | (Ok None, w1) => (false, None, w1)
  | (Ok (Some i), w1) =>
      match deliver cfg i w1 with
      | (inl _, w2) => (true, None, w2)
      | (inr (Return processed err), w2) => (processed, err, w2)
      | (inr (Panicked i' msg), w2) => recovered i' msg w2
      end
  end.
End Code.

End Deliver.
