(* ===== verification/DeliverSpec.v ===== *)
(** * What delivery guarantees

    A message is handed to a channel adapter only when policy and quiet hours
    allow it, never again once a decision is recorded, and every claimed
    intent is released.  "The adapter is not called" is stated as
    independence: the outcome is the same whatever the adapters are. *)

From S2P Require Import Prelude.
From S2P Require Import GoStd.
From S2P Require Import Domain.
From S2P Require Import Store.
From S2P Require Import Policy.
From S2P Require Import QuietHours.
From S2P Require Import JourneyNodes.
From S2P Require Import JourneyDB.
From S2P Require Import JourneyTick.
From S2P Require Import Deliver.

Module DeliverSpec.
Import Deliver.

Section Spec.
Context {W : Type} `{NodeStore W} `{PolicyStore W} `{IntentStore W} `{DeliveryStore W} `{DeliveryEnv W}.

(** Configurations that differ only in their adapters. *)
Definition same_frame (cfg cfg' : Config W) : Prop :=
  TrackingSecretKey cfg' = TrackingSecretKey cfg /\ TrackingBaseURL cfg' = TrackingBaseURL cfg /\ cfg_Now cfg' = cfg_Now cfg.
(** Delivering [i] from [w] calls no adapter. *)
Definition adapter_free (cfg : Config W) (i : JourneyMessageIntent) (w : W) : Prop :=
  forall cfg', same_frame cfg cfg' -> deliver cfg' i w = deliver cfg i w.

Lemma emit_frame cfg cfg' i p prof : same_frame cfg cfg' -> emit cfg' i p prof = emit cfg i p prof.
Proof. intros (_ & _ & E). unfold emit. by rewrite E. Qed.
Lemma clear_frame cfg cfg' i p t prof caps : same_frame cfg cfg' -> clear_to_send cfg' i p t prof caps = clear_to_send cfg i p t prof caps.
Proof. intros (_ & _ & E). unfold clear_to_send, quiet_hours. by rewrite E. Qed.
Lemma compose_frame cfg cfg' i p t prof idn : same_frame cfg cfg' -> compose cfg' i p t prof idn = compose cfg i p t prof idn.
Proof. intros (E1 & E2 & _). unfold compose, track. by rewrite E1, E2. Qed.

(** An earlier attempt has recorded a decision, or the provider's acceptance. *)
Definition final (i : JourneyMessageIntent) : bool :=
  match mi_Decision i with Some d => mem d ("provider_sent" :: terminal_decisions) | None => false end.

(** The loads before the decision gate. *)
Definition loads (i : JourneyMessageIntent) : D W (Principal * Template * SendingIdentity * Policy.Caps) :=
  p ← resolve_principal i;
  template ← or_settle (GetTemplate p (mi_TemplateID i))
               (fun e => with_failure "render_failed" (Errorf "failed to get template: %v" [AErr e]) i);
  identity ← load_identity i p template;
  caps ← fatigue_caps p template;
  mret (p, template, identity, caps).
Definition load_profile (i : JourneyMessageIntent) : D W Profile :=
  or_settle (GetProfileByIDSystem (mi_TenantID i) (mi_WorkspaceID i) (mi_ProfileID i))
    (fun e => with_failure "failed" (Errorf "failed to load profile: %v" [AErr e]) i).
(** From clearance on. *)
Definition dispatch (cfg : Config W) (adapter : Adapter W) (i : JourneyMessageIntent) (p : Principal) (template : Template)
    (identity : SendingIdentity) (prof : Profile) : D W unit :=
  msg ← compose cfg i p template prof identity;
  i ← send adapter i msg;
  emit cfg i p prof.

Lemma deliver_eq cfg i w :
  deliver cfg i w =
  (x ← loads i;
   let '(p, template, identity, caps) := x in
   reconcile ← earlier_decision i;
   prof ← load_profile i;
   if reconcile : bool then emit cfg i p prof else
   i ← clear_to_send cfg i p template prof caps;
   dispatch cfg (resolve_adapter cfg (si_Provider identity)) i p template identity prof) w.
Proof.
  unfold deliver, loads, dispatch, load_profile, mbind, D_bind.
  destruct (resolve_principal i w) as [[p|x] w1]; [|done].
  destruct (or_settle _ _ w1) as [[t|x] w2]; [|done].
  destruct (load_identity i p t w2) as [[idn|x] w3]; [|done].
  destruct (fatigue_caps p t w3) as [[caps|x] w4]; done.
Qed.

Lemma decided_final cfg i w : final i = true -> adapter_free cfg i w.
Proof.
  intros Hin cfg' Hf. rewrite !deliver_eq. unfold mbind, D_bind. unfold final in Hin.
  destruct (loads i w) as [[[[[p t] idn] caps]|x] w1]; [|done].
  unfold earlier_decision. destruct (mi_Decision i) as [d|]; [|discriminate]. cbn [mem existsb] in Hin.
  destruct (mem d terminal_decisions) eqn:Em; [unfold settle, leave, call, mbind, D_bind; by destruct (UpdateJourneyMessageIntent _ w1)|].
  fold (mem d terminal_decisions) in Hin. rewrite Em, orb_false_r in Hin. rewrite Hin.
  destruct (mi_ProviderMessageID i); [|done]. unfold mret, D_ret.
  destruct (load_profile i w1) as [[prof|x] w2]; [|done]. by rewrite (emit_frame cfg cfg').
Qed.

(** A decision is final: once an intent carries a terminal decision, or
    the mark that the provider has taken the message, delivering it calls no
    adapter, whatever the stores answer. *)
Theorem decided_never_resent cfg i w : final i = true -> adapter_free cfg i w.
Proof. apply decided_final. Qed.

(** ** Clearance *)

(** Reads that only read. *)
Record reads_only : Prop := {
  ro_app : forall t ws, pureM (W := W) (GetFirstAppID t ws);
  ro_template : forall p i, pureM (W := W) (GetTemplate p i);
  ro_tokens : forall t ws p, pureM (W := W) (ListActiveDeviceTokens t ws p);
  ro_identities : forall p, pureM (W := W) (ListSendingIdentities p);
  ro_identity : forall p i, pureM (W := W) (GetSendingIdentity p i);
  ro_quotas : forall p, pureM (W := W) (GetTenantFatigueQuotas p);
  ro_profile : forall t ws p, pureM (W := W) (GetProfileByIDSystem t ws p);
  ro_quiet : forall p, pureM (W := W) (GetTenantQuietHours p);
  ro_suppressed : forall p c e, pureM (W := W) (IsSuppressed p c e);
  ro_consent : forall p i c t, pureM (W := W) (LatestConsent p i c t);
  ro_sent : forall p i s, pureM (W := W) (SentCountSince p i s)
}.
Context (Hro : reads_only).

(** A computation that, when it goes on, has left the world alone. *)
Definition still {A} (m : D W A) : Prop := forall w a w', m w = (inl a, w') -> w' = w.

Lemma still_ret {A} (a : A) : still (mret a).
Proof. intros w b w' E. by injection E. Qed.
Lemma still_bind {A B} (m : D W A) (f : A -> D W B) : still m -> (forall a, still (f a)) -> still (m ≫= f).
Proof.
  intros Hm Hf w b w' E. unfold mbind, D_bind in E. destruct (m w) as [[a|x] w1] eqn:E1; [|discriminate].
  apply Hm in E1 as ->. by eapply Hf.
Qed.
Lemma still_settle {A} i : still (settle (A := A) i).
Proof. intros w a w' E. unfold settle, call, leave, mbind, D_bind in E. destruct (UpdateJourneyMessageIntent i w). discriminate. Qed.
Lemma still_or_settle {A} (m : M W A) bad : pureM m -> still (or_settle m bad).
Proof.
  intros Hm w a w' E. unfold or_settle, call, mbind, D_bind in E. specialize (Hm w).
  destruct (m w) as [[x|e] w1]; simpl in *; [injection E as <- <-; done | by apply still_settle in E as ->].
Qed.
Lemma still_call {A} (m : M W A) : pureM m -> still (call m).
Proof. intros Hm w a w' E. unfold call in E. specialize (Hm w). destruct (m w). by injection E as <- <-. Qed.

Ltac stills :=
  repeat first
    [ apply still_ret | apply still_settle | apply still_bind | apply still_or_settle | apply still_call
    | match goal with |- forall _, still _ => intros ? end
    | match goal with |- still (let '(_, _) := ?x in _) => destruct x end
    | match goal with |- still (if ?b then _ else _) => destruct b end
    | match goal with |- still (match ?x with _ => _ end) => destruct x end ].

Lemma still_loads i : still (loads i).
Proof. destruct Hro. unfold loads, resolve_principal, load_identity, push_identity, fatigue_caps. stills; auto. Qed.
Lemma still_profile i : still (load_profile i).
Proof. destruct Hro. unfold load_profile. stills; auto. Qed.
Lemma still_quiet cfg i p prof : still (quiet_hours cfg i p prof).
Proof.
  destruct Hro. unfold quiet_hours. stills; auto.
  all: intros w a' w' E; unfold read in E; by injection E.
Qed.

(** What [i] needs to be sent from [w]. *)
Definition cleared (cfg : Config W) (i : JourneyMessageIntent) (p : Principal) (channel : string) (externalID : string)
    (prof : Profile) (caps : Policy.Caps) (w : W) : Prop :=
  if mi_Transactional i then (IsSuppressed p channel (mi_Endpoint i) w).1 = Ok false
  else
    Policy.eligible (time_Now w) p (Policy.MkRecipient (mi_ProfileID i) externalID (mi_Endpoint i)) caps w /\
    forall start end_ tz t, (GetTenantQuietHours p w).1 = Ok (Some start, Some end_, tz) ->
      QuietHours.IsInQuietHours LoadLocation (cfg_Now cfg w) prof (Some start) (Some end_) tz <> Ok (true, t).

Lemma quiet_hours_passes cfg i p prof w w' :
  quiet_hours cfg i p prof w = (inl tt, w') -> w' = w /\
  (mi_Transactional i = false -> forall start end_ tz t, (GetTenantQuietHours p w).1 = Ok (Some start, Some end_, tz) ->
     QuietHours.IsInQuietHours LoadLocation (cfg_Now cfg w) prof (Some start) (Some end_) tz <> Ok (true, t)).
Proof.
  intros E. split; [by apply still_quiet in E|]. intros Ht start end_ tz t Hq Hin. unfold quiet_hours in E. rewrite Ht in E.
  pose proof (ro_quiet Hro p w) as Hp. unfold call, read, mbind, D_bind in E.
  destruct (GetTenantQuietHours p w) as [r w1]. simpl in Hp, Hq. subst w1 r. rewrite Hin in E.
  unfold settle, call, leave, mbind, D_bind in E. destruct (UpdateJourneyMessageIntent _ w). discriminate.
Qed.

Lemma clear_to_send_cleared cfg i p t prof m24 m7 w i' w' :
  clear_to_send cfg i p t prof (Policy.MkCaps (tpl_Channel t) "marketing" m24 m7) w = (inl i', w') ->
  w' = w /\ cleared cfg i p (tpl_Channel t) (prof_ExternalID prof) prof (Policy.MkCaps (tpl_Channel t) "marketing" m24 m7) w.
Proof.
  intros E. unfold clear_to_send in E. unfold mbind at 1, D_bind at 1 in E.
  destruct (quiet_hours cfg i p prof w) as [[[]|x] w1] eqn:Eq; [|discriminate].
  apply quiet_hours_passes in Eq as [-> Hq]. unfold mbind at 1, D_bind at 1 in E.
  destruct (verdict i p t prof _ w) as [[v|x] w1] eqn:Ev; [|discriminate].
  destruct (Policy.vd_Decision v =s "sent") eqn:Es.
  2:{ unfold settle, call, leave, mbind, D_bind in E. destruct (UpdateJourneyMessageIntent _ w1). discriminate. }
  apply seqb_true in Es. injection E as _ <-. unfold cleared. unfold verdict in Ev. destruct (mi_Transactional i) eqn:Et.
  - unfold call, mbind, D_bind in Ev. pose proof (ro_suppressed Hro p (tpl_Channel t) (mi_Endpoint i) w) as Hp.
    destruct (IsSuppressed _ _ _ w) as [[[]|e] w2]; simpl in *; injection Ev as <- <-; done.
  - unfold read, run, mbind, D_bind in Ev.
    pose proof (Policy.Evaluate_pure (ro_suppressed Hro) (ro_consent Hro) (ro_sent Hro)) as Hp.
    match type of Ev with context [Policy.Evaluate ?n ?q ?r ?c w] =>
      specialize (Hp n q r c w);
      pose proof (proj1 (Policy.Evaluate_sent (ro_suppressed Hro) (ro_consent Hro) (ro_sent Hro) n q r c w)) as Hs;
      destruct (Policy.Evaluate n q r c w) as [v' w2] end.
    simpl in *. injection Ev as -> <-. split; [done|]. split; [by apply Hs | by apply Hq].
Qed.

(** What the loads of [i] find in [w]. *)
Definition loaded (i : JourneyMessageIntent) (w : W) (p : Principal) (t : Template) (caps : Policy.Caps) : Prop :=
  (exists app, (GetFirstAppID (mi_TenantID i) (mi_WorkspaceID i) w).1 = Ok app /\
     p = MkPrincipal (mi_TenantID i) (mi_WorkspaceID i) app "" "" "" ["*"]) /\
  (GetTemplate p (mi_TemplateID i) w).1 = Ok t /\
  exists m24 m7, caps = Policy.MkCaps (tpl_Channel t) "marketing" m24 m7 /\
    match (GetTenantFatigueQuotas p w).1 with Ok q => q = (m24, m7) | Err _ => m24 = 5 /\ m7 = 20 end.

Lemma or_settle_inl {A} (m : M W A) bad w a w' : pureM m -> or_settle m bad w = (inl a, w') -> w' = w /\ (m w).1 = Ok a.
Proof.
  intros Hm E. split; [by apply still_or_settle in E|]. unfold or_settle, call, mbind, D_bind in E.
  destruct (m w) as [[x|e] w1]; [by injection E as <- _|].
  unfold settle, call, leave, mbind, D_bind in E. destruct (UpdateJourneyMessageIntent _ w1). discriminate.
Qed.

Lemma D_bind_inl {A B} (m : D W A) (f : A -> D W B) w b w' :
  (m ≫= f) w = (inl b, w') -> exists a w1, m w = (inl a, w1) /\ f a w1 = (inl b, w').
Proof. unfold mbind, D_bind. destruct (m w) as [[a|x] w1]; [eauto | discriminate]. Qed.

Lemma loads_loaded i w p t idn caps w' : loads i w = (inl (p, t, idn, caps), w') -> w' = w /\ loaded i w p t caps.
Proof.
  intros E. split; [by apply still_loads in E|]. unfold loads in E.
  apply D_bind_inl in E as (p' & w1 & E1 & E). unfold resolve_principal in E1. apply D_bind_inl in E1 as (app & w0 & E1 & E0).
  apply or_settle_inl in E1 as [-> Happ]; [|apply Hro]. injection E0 as <- <-.
  apply D_bind_inl in E as (t' & w1 & E1 & E). apply or_settle_inl in E1 as [-> Ht]; [|apply Hro].
  apply D_bind_inl in E as (idn' & w1 & E1 & E).
  assert (w1 = w) as ->.
  { clear E. revert E1. generalize (MkPrincipal (mi_TenantID i) (mi_WorkspaceID i) app "" "" "" ["*"]). intros q.
    destruct Hro. assert (Hs : still (load_identity i q t')) by (unfold load_identity, push_identity; stills; auto). apply Hs. }
  apply D_bind_inl in E as (caps' & w1 & E2 & E). injection E as <- <- <- <- <-.
  unfold fatigue_caps in E2. apply D_bind_inl in E2 as (q & w2 & E2 & E3). unfold call in E2.
  pose proof (ro_quotas Hro (MkPrincipal (mi_TenantID i) (mi_WorkspaceID i) app "" "" "" ["*"]) w) as Hp.
  split; [by exists app|]. split; [done|].
  destruct (GetTenantFatigueQuotas _ w) as [[[a b]|e] w3]; simpl in Hp |- *; subst w3; injection E2 as <- <-; injection E3 as <-; eauto.
Qed.

(** C10: No message leaves without clearance.  Where the stores' reads leave
    the state alone ([reads_only]), either delivering the intent calls no
    adapter at all, or, in the state it starts from, the intent has no final
    decision, its app, template and profile were read, and its endpoint is
    not suppressed (a transactional message) or (any other) its recipient is
    eligible under the message policy, with the tenant's fatigue caps, and
    not inside quiet hours.  A failed read of the app, template, profile,
    suppression list, consent or send count keeps the message from the
    adapter; not so a failed read of the quotas (the caps are then 5 in 24
    hours and 20 in 7 days), of the sending identities of a push message (the
    identity is then the default one), or of the quiet hours and their time
    zone (the message is then sent at any hour). *)
Theorem deliver_guarded cfg i w :
  adapter_free cfg i w \/
  exists p t caps prof, loaded i w p t caps /\
    (GetProfileByIDSystem (mi_TenantID i) (mi_WorkspaceID i) (mi_ProfileID i) w).1 = Ok prof /\
    final i = false /\
    cleared cfg i p (tpl_Channel t) (prof_ExternalID prof) prof caps w.
Proof.
  destruct (final i) eqn:Hn; [left; by apply decided_final|].
  assert (He : forall w, earlier_decision i w = (inl false, w)).
  { intros w0. unfold final in Hn. unfold earlier_decision. destruct (mi_Decision i) as [d|]; [|done].
    cbn [mem existsb] in Hn. apply orb_false_iff in Hn as [H1' H2']. fold (mem d terminal_decisions) in H2'. by rewrite H2', H1'. }
  destruct (loads i w) as [[[[[p t] idn] caps]|x] w1] eqn:El.
  2:{ left. intros cfg' Hf. rewrite !deliver_eq. unfold mbind, D_bind. by rewrite El. }
  pose proof (loads_loaded _ _ _ _ _ _ _ El) as [-> Hl].
  destruct (load_profile i w) as [[prof|x] w1] eqn:Ep.
  2:{ left. intros cfg' Hf. rewrite !deliver_eq. unfold mbind, D_bind. by rewrite El, He, Ep. }
  pose proof (or_settle_inl _ _ _ _ _ (ro_profile Hro _ _ _) Ep) as [-> Hprof].
  destruct (clear_to_send cfg i p t prof caps w) as [[i'|x] w1] eqn:Ec.
  2:{ left. intros cfg' Hf. rewrite !deliver_eq. unfold mbind, D_bind. by rewrite El, He, Ep, (clear_frame cfg cfg'), Ec. }
  right. exists p, t, caps, prof. split; [done|]. split; [done|]. split; [done|].
  destruct Hl as (_ & _ & m24 & m7 & -> & _). by apply clear_to_send_cleared in Ec as [_ Hc].
Qed.

End Spec.

(** ** Over the intent table *)

Section Tables.
Import JDB Tick.
(** [E] is everything but the journey tables. *)
Context {E : Type} `{NodeStore E} `{PolicyStore E} `{DeliveryStore E} `{DeliveryEnv E}.
Abbreviation W := (DB * E)%type.

(** The answer of the pool to an UPDATE of an intent: [None] when it goes
    through, else the error that the method returns with nothing written. *)
Context (pool : W -> JourneyMessageIntent -> option error).

Definition policy_store : PolicyStore W := {|
  IsSuppressed p c e := on_ext (IsSuppressed p c e);
  LatestConsent p i c t := on_ext (LatestConsent p i c t);
  SentCountSince p i s := on_ext (SentCountSince p i s)
|}.
Definition intent_store : IntentStore W := {|
  Store.ClaimJourneyMessageIntent w := on_db (JDB.ClaimJourneyMessageIntent w);
  Store.UpdateJourneyMessageIntent i := fun w => match pool w i with Some e => (Err e, w) | None => on_db (JDB.UpdateJourneyMessageIntent i) w end
|}.
Definition delivery_store : DeliveryStore W := {|
  GetTemplate p i := on_ext (GetTemplate p i);
  ListSendingIdentities p := on_ext (ListSendingIdentities p);
  GetSendingIdentity p i := on_ext (GetSendingIdentity p i);
  GetTenantFatigueQuotas p := on_ext (GetTenantFatigueQuotas p);
  GetTenantQuietHours p := on_ext (GetTenantQuietHours p);
  RetireDeviceToken t a k := on_ext (RetireDeviceToken t a k)
|}.
Definition lift_adapter (a : Adapter E) : Adapter W := fun m => on_ext (a m).
Definition delivery_env : DeliveryEnv W := {|
  time_Now w := time_Now w.2;
  Deliver.LoadLocation := LoadLocation;
  RenderWithContext p t v := on_ext (RenderWithContext p t v);
  RewriteLinks h i a t k b := on_ext (RewriteLinks h i a t k b);
  SignOpenToken := SignOpenToken;
  NewSESAdapter := lift_adapter NewSESAdapter;
  NewWebhookAdapter := lift_adapter NewWebhookAdapter;
  NewFakeAdapter := lift_adapter NewFakeAdapter
|}.
#[local] Existing Instances node_store policy_store intent_store delivery_store delivery_env.

Definition lift_config (cfg : Config E) : Config W :=
  MkConfig (TrackingSecretKey cfg) (TrackingBaseURL cfg)
    ((fun r => MkRegistry ((fun p => (p.1, lift_adapter p.2)) <$> reg_adapters r) (lift_adapter (reg_fallback r))) <$> cfg_Registry cfg)
    (lift_adapter <$> cfg_Adapter cfg) (lift_adapter <$> SESAdapter cfg) (lift_adapter <$> WebhookAdapter cfg)
    (lift_adapter <$> FakeAdapter cfg) (fun w => cfg_Now cfg w.2).

Definition resting : list string := ["pending"; "completed"; "failed"; "dead"].
(** At rest; a dead one with a final decision. *)
Definition rests (i : JourneyMessageIntent) : Prop := mi_Status i ∈ resting /\ (mi_Status i = "dead" -> final i = true).
(** Claimed, under the claim's lease. *)
Definition held (lease : option Z) (i : JourneyMessageIntent) : Prop := mi_Status i = "processing" /\ mi_LockedUntil i = lease.
(** An UPDATE of this intent was refused. *)
Definition refused_write (id : string) : Prop := exists w i e, mi_ID i = id /\ pool w i = Some e.
Definition released (lease : option Z) (id : string) (w : W) : Prop :=
  exists row, db_intents w.1 !! id = Some row /\ (rests row \/ held lease row /\ refused_write id).

Lemma rests_alive i : mi_Status i ∈ ["pending"; "completed"; "failed"] -> rests i.
Proof. unfold rests, resting. rewrite !elem_of_cons, elem_of_nil. intros H'. split; [tauto|]. intros E'. rewrite E' in H'. naive_solver. Qed.
Lemma rests_completed i : mi_Status i = "completed" -> rests i.
Proof. intros E'. apply rests_alive. rewrite E'. by apply mem_In. Qed.
Lemma rests_failed i : mi_Status i = "failed" -> rests i.
Proof. intros E'. apply rests_alive. rewrite E'. by apply mem_In. Qed.
Lemma rests_pending i : mi_Status i = "pending" -> rests i.
Proof. intros E'. apply rests_alive. rewrite E'. by apply mem_In. Qed.
Lemma rests_dead i : mi_Status i = "dead" -> final i = true -> rests i.
Proof. intros E' Hf. split; [rewrite E'; by apply mem_In | done]. Qed.
#[local] Hint Resolve rests_completed rests_failed rests_pending rests_dead : deliver.

Section Lease.
Context (lease : option Z).
Definition present (id : string) (w : W) : Prop := exists row, db_intents w.1 !! id = Some row /\ held lease row.

(** Every way out of the computation finds the intent released, every way on
    keeps its row and gives a result in [Q]. *)
Definition safe {A} (id : string) (Q : A -> Prop) (m : D W A) : Prop := forall w, present id w ->
  match m w with
  | (inl a, w') => present id w' /\ Q a
  | (inr (Return _ _), w') => released lease id w'
  | (inr (Panicked j _), w') => present id w' /\ mi_ID j = id
  end.

Lemma safe_ret {A} id (Q : A -> Prop) a : Q a -> safe id Q (mret a).
Proof. intros Ha w Hw. by split. Qed.
Lemma safe_bind {A B} id (Q : A -> Prop) (R : B -> Prop) (m : D W A) (f : A -> D W B) :
  safe id Q m -> (forall a, Q a -> safe id R (f a)) -> safe id R (m ≫= f).
Proof.
  intros Hm Hf w Hw. specialize (Hm w Hw). unfold mbind, D_bind. destruct (m w) as [[a|[]] w1]; [|done..].
  destruct Hm as [Hw1 Ha]. by apply Hf.
Qed.
Lemma safe_call {A} id (m : M W A) : frames m -> safe id (fun _ => True) (call m).
Proof. intros Hm w Hw. unfold call, present in *. specialize (Hm w). destruct (m w) as [r w1]. simpl in Hm. by rewrite Hm. Qed.
Lemma safe_read {A} id (f : W -> A) : safe id (fun _ => True) (read f).
Proof. intros w Hw. done. Qed.

(** An update writes the columns it is given, or nothing. *)
Lemma update_writes i (w : W) : present (mi_ID i) w -> mi_Status i ∈ step_statuses ->
  (exists w' row, Store.UpdateJourneyMessageIntent i w = (Ok tt, w') /\ db_intents w'.1 !! mi_ID i = Some row /\ mi_Status row = mi_Status i /\
     mi_Decision row = mi_Decision i /\ mi_LockedUntil row = mi_LockedUntil i) \/
  (exists e, Store.UpdateJourneyMessageIntent i w = (Err e, w) /\ refused_write (mi_ID i)).
Proof.
  intros (x & Hx & _) Hs. apply mem_In in Hs. cbn [Store.UpdateJourneyMessageIntent intent_store].
  destruct (pool w i) as [e|] eqn:Ep; [right; exists e; split; [done | by exists w, i, e] | left].
  destruct w as [d e]. cbn [fst] in Hx. unfold on_db, JDB.UpdateJourneyMessageIntent. cbn [fst snd]. rewrite Hx, Hs.
  eexists _, _. split; [done|]. simpl. by rewrite lookup_insert_eq.
Qed.

Lemma resting_status s : s ∈ resting -> s ∈ step_statuses.
Proof. unfold resting, step_statuses. set_solver. Qed.

Lemma safe_update_leave {A} id i p (f : result unit -> option error) (R : A -> Prop) :
  mi_ID i = id -> rests i -> safe id R (r ← call (Store.UpdateJourneyMessageIntent i); leave p (f r)).
Proof.
  intros <- [Hs Hd] w Hw. unfold mbind, D_bind, call, leave.
  destruct (update_writes i w Hw (resting_status _ Hs)) as [(w' & row & -> & Hrow & Est & Ede & _)|(e & -> & Hf)].
  - exists row. split; [done|]. left. unfold rests, final. by rewrite Est, Ede.
  - destruct Hw as (row & Hrow & Hh). exists row. split; [done|]. by right.
Qed.

Lemma safe_settle {A} id i (R : A -> Prop) : mi_ID i = id -> rests i -> safe id R (settle i).
Proof. intros Hi Hs. unfold settle. by apply (safe_update_leave id i true (fun _ => None)). Qed.
Lemma safe_or_settle {A} id (m : M W A) bad :
  frames m -> (forall e, mi_ID (bad e) = id /\ rests (bad e)) -> safe id (fun _ => True) (or_settle m bad).
Proof.
  intros Hm Hb. unfold or_settle. eapply safe_bind; [by apply safe_call|]. intros [a|e] _; [by apply safe_ret|].
  destruct (Hb e). by apply safe_settle.
Qed.

Lemma safe_weaken {A} id (Q R : A -> Prop) m : safe id Q m -> (forall a, Q a -> R a) -> safe id R m.
Proof.
  intros Hm Hr w Hw. specialize (Hm w Hw). destruct (m w) as [[a|[]] w']; [|done..]. destruct Hm. split; auto.
Qed.

(** The intent in hand: the claimed row, some columns changed. *)
Definition in_hand (id : string) (i : JourneyMessageIntent) : Prop := mi_ID i = id /\ held lease i.

Ltac safes :=
  repeat first
    [ done
    | apply safe_ret | apply safe_settle | apply safe_update_leave | apply safe_read
    | apply safe_call; apply frames_ext
    | apply safe_or_settle; [apply frames_ext|]
    | match goal with |- safe _ _ (_ ≫= _) => eapply safe_bind end
    | match goal with |- forall _, _ => intros ? end
    | match goal with |- safe _ _ (let '(_, _) := ?x in _) => destruct x end
    | match goal with |- safe _ _ (if ?b then _ else _) => destruct b end
    | match goal with |- safe _ _ (match ?x with _ => _ end) => destruct x end
    | match goal with |- _ /\ _ => split end
    | solve [auto with deliver] ].

Lemma safe_principal id i : mi_ID i = id -> safe id (fun _ => True) (resolve_principal i).
Proof. intros Hi. unfold resolve_principal. safes. Qed.
Lemma safe_identity id i p t : mi_ID i = id -> safe id (fun _ => True) (load_identity i p t).
Proof. intros Hi. unfold load_identity, push_identity. safes. Qed.
Lemma safe_caps id p t : safe id (fun _ => True) (fatigue_caps p t).
Proof. unfold fatigue_caps. safes. Qed.
Lemma safe_earlier id i : mi_ID i = id -> safe id (fun _ => True) (earlier_decision i).
Proof.
  intros Hi. unfold earlier_decision. destruct (mi_Decision i); [|safes]. destruct (mem _ _); [safes|].
  destruct (_ =s _); [|safes]. destruct (mi_ProviderMessageID i); [safes|]. intros w Hw. by split.
Qed.
Lemma postponed_id i t : mi_ID (postponed i t) = mi_ID i /\ mi_Status (postponed i t) = "pending".
Proof. unfold postponed. by destruct (0 <? _). Qed.
Lemma safe_quiet id cfg i p prof : mi_ID i = id -> safe id (fun _ => True) (quiet_hours (lift_config cfg) i p prof).
Proof.
  intros Hi. unfold quiet_hours. destruct (mi_Transactional i); [safes|]. eapply safe_bind; [safes|].
  intros [[[[s|] [e|]] tz]|er] _; try by safes. eapply safe_bind; [apply safe_read|]. intros now _.
  destruct (QuietHours.IsInQuietHours _ _ _ _ _ _) as [[[] t]|er]; try by safes.
  destruct (postponed_id i t) as [E1 E2]. apply safe_settle; [congruence | auto with deliver].
Qed.

(** Message policy only reads. *)
Lemma evaluate_frames now p r caps (w : W) : (Policy.Evaluate now p r caps w).2.1 = w.1.
Proof.
  unfold Policy.Evaluate. simpl. unfold on_ext. simpl.
  destruct (IsSuppressed _ _ _ w.2) as [[[]|er] e1]; [done| |done]. simpl.
  destruct (LatestConsent _ _ _ _ e1) as [[c|er] e2]; [|by destruct (is_ErrNotFound er)]. destruct (negb _); [done|].
  assert (Hf : forall cap since k1 k2 f1 f2 sn (w0 : W), (Policy.fatigue p r cap since k1 k2 f1 f2 sn w0).2.1 = w0.1).
  { intros. unfold Policy.fatigue. destruct (_ <? _); [|done]. simpl. unfold on_ext.
    destruct (SentCountSince _ _ _ _) as [[n|er] e3]; [|done]. by destruct (_ <=? _). }
  match goal with |- context [Policy.fatigue p r ?c ?s ?a ?b ?d ?f ?sn ?w0] =>
    specialize (Hf c s a b d f sn w0) as H24; destruct (Policy.fatigue p r c s a b d f sn w0) as [[v|sn'] w3] end; [done|].
  match goal with |- context [Policy.fatigue p r ?c ?s ?a ?b ?d ?f ?sn ?w0] =>
    specialize (Hf c s a b d f sn w0) as H7; destruct (Policy.fatigue p r c s a b d f sn w0) as [[v|sn''] w4] end;
  simpl in *; by rewrite H7, H24.
Qed.

Lemma safe_verdict id i p t prof caps : safe id (fun _ => True) (verdict i p t prof caps).
Proof.
  unfold verdict. destruct (mi_Transactional i); [safes|]. eapply safe_bind; [apply safe_read|]. intros now _ w Hw. unfold run.
  pose proof (evaluate_frames now p (Policy.MkRecipient (mi_ProfileID i) (prof_ExternalID prof) (mi_Endpoint i)) caps w) as Hf.
  destruct (Policy.Evaluate _ _ _ _ w) as [v w1]. unfold present in *. simpl in Hf. by rewrite Hf.
Qed.

Lemma snapshot_id v i : mi_ID (with_snapshot v i) = mi_ID i /\ (held lease i -> held lease (with_snapshot v i)).
Proof. unfold with_snapshot. by destruct (Policy.vd_Snapshot v). Qed.
Lemma safe_clear id cfg i p t prof caps :
  in_hand id i -> safe id (in_hand id) (clear_to_send (lift_config cfg) i p t prof caps).
Proof.
  intros [Hi Hs]. unfold clear_to_send. eapply safe_bind; [by apply safe_quiet|]. intros _ _.
  eapply safe_bind; [apply safe_verdict|]. intros v _. destruct (snapshot_id v i) as [E1 E2]. unfold in_hand.
  destruct (_ =s _); [apply safe_ret; rewrite E1; split; auto|]. apply safe_settle; [by rewrite <- Hi, <- E1 | auto with deliver].
Qed.
Lemma safe_part id i p vars tm d f : mi_ID i = id -> safe id (fun _ => True) (render_part i p vars tm d f).
Proof. intros Hi. unfold render_part. safes. Qed.
Lemma safe_track id cfg i p t h : safe id (fun _ => True) (track (lift_config cfg) i p t h).
Proof. unfold track. safes. Qed.
Lemma safe_compose id cfg i p t prof idn : mi_ID i = id -> safe id (fun _ => True) (compose (lift_config cfg) i p t prof idn).
Proof.
  intros Hi. unfold compose. do 4 (eapply safe_bind; [by apply safe_part|intros ? _]).
  eapply safe_bind; [apply safe_track|]. intros ? _. safes.
Qed.
Lemma frames_adapter cfg prov m : frames (resolve_adapter (lift_config cfg) prov m).
Proof.
  unfold resolve_adapter, lift_config. simpl. destruct (cfg_Adapter cfg); simpl; [apply frames_ext|].
  destruct (cfg_Registry cfg) as [r|]; simpl.
  - unfold For. simpl. destruct (prov =s ""); [apply frames_ext|].
    induction (reg_adapters r) as [|[k a] l IH]; simpl; [apply frames_ext|]. destruct (k =s prov); [apply frames_ext | exact IH].
  - destruct (prov =s "ses"); [destruct (SESAdapter cfg); apply frames_ext|].
    destruct (prov =s "webhook"); [destruct (WebhookAdapter cfg); apply frames_ext|]. destruct (FakeAdapter cfg); apply frames_ext.
Qed.
Lemma safe_send_failed {A} id i e (R : A -> Prop) : mi_ID i = id -> safe id R (send_failed i e).
Proof.
  intros Hi. unfold send_failed. destruct (IsInvalidTokenError e); [|destruct (IsRetryableError e)].
  - eapply safe_bind; [safes|]. intros r _. eapply safe_bind; [safes|]. intros u _. safes.
  - apply (safe_update_leave id _ true (fun _ => Some (Errorf "transient delivery failure: %s" [AErr e]))); [done|].
    destruct (3 <=? mi_Attempts i); auto with deliver.
  - safes.
Qed.
Lemma safe_send id adapter i msg : (forall m, frames (adapter m)) -> in_hand id i -> safe id (in_hand id) (send adapter i msg).
Proof.
  intros Ha [Hi [Hs Hl]]. unfold send. eapply safe_bind; [by apply safe_call|]. intros [[mid cost]|e] _; [|by apply safe_send_failed].
  set (j := accepted i mid cost). intros w Hw. unfold mbind, D_bind, call.
  destruct (update_writes j w) as [(w' & row & -> & Hrow & Est & _ & Elk)|(e & -> & Hf)]; [by rewrite <- Hi in Hw | simpl; rewrite Hs; by apply mem_In|..].
  - simpl in Hrow. rewrite Hi in Hrow. simpl in Est, Elk. split; [exists row; split; [done|]; split; congruence | by split].
  - destruct Hw as (row & Hrow & Hh). exists row. split; [done|]. right. split; [done|]. by rewrite <- Hi.
Qed.
Lemma safe_emit id cfg i p prof : mi_ID i = id -> safe id (fun _ => False) (emit (lift_config cfg) i p prof).
Proof.
  intros Hi. unfold emit. eapply safe_bind; [apply safe_read|]. intros now _. eapply safe_bind; [safes|]. intros [ids|e] _.
  - apply safe_update_leave; [done | auto with deliver].
  - apply (safe_update_leave id (requeued i e) true); unfold requeued; destruct (3 <=? mi_Attempts i); auto with deliver.
Qed.

Lemma safe_deliver id cfg i : in_hand id i -> safe id (fun _ => False) (deliver (lift_config cfg) i).
Proof.
  intros Hh. pose proof Hh as [Hi Hs]. unfold deliver.
  eapply safe_bind; [by apply safe_principal|]. intros p _.
  eapply safe_bind; [apply safe_or_settle; [apply frames_ext | intros er; split; [done | auto with deliver]]|]. intros t _.
  eapply safe_bind; [by apply safe_identity|]. intros idn _.
  eapply safe_bind; [apply safe_caps|]. intros caps _.
  eapply safe_bind; [by apply safe_earlier|]. intros rc _.
  eapply safe_bind; [apply safe_or_settle; [apply frames_ext | intros er; split; [done | auto with deliver]]|]. intros prof _.
  destruct rc; [by apply safe_emit|].
  eapply safe_bind; [by apply safe_clear|]. intros i1 H1'.
  eapply safe_bind; [apply safe_compose; by destruct H1'|]. intros msg _.
  eapply safe_bind; [apply safe_send; [intros m; apply frames_adapter | exact H1']|]. intros i2 [Hi2 _]. by apply safe_emit.
Qed.

End Lease.

(** C11: A claimed intent is released: whatever the reads, renderer and
    adapters answer, whichever of the UPDATEs of the intent fail, and also
    after the panic the code can raise itself (a recorded acceptance without
    the provider's id), when [DeliverNext] returns the intent's row is back
    at pending, completed, failed or dead, a dead one with a final decision;
    or one of those UPDATEs was refused, and the row is still processing
    under the claim's five-minute lease, from which the claim query takes it
    again. *)
Theorem delivery_releases worker cfg d e i d1 :
  JDB.ClaimJourneyMessageIntent worker d = (Ok (Some i), d1) ->
  exists row, db_intents (DeliverNext worker (lift_config cfg) (d, e)).2.1 !! mi_ID i = Some row /\
    (rests row \/ mi_Status row = "processing" /\ mi_LockedUntil row = Some (db_now d + 5 * Time.Minute) /\ refused_write (mi_ID i)).
Proof.
  intros Hc. set (lease := Some (db_now d + 5 * Time.Minute)).
  cut (released lease (mi_ID i) (DeliverNext worker (lift_config cfg) (d, e)).2).
  { intros (row & Hr & [Hrest|[[H1' H2'] H3']]); exists row; auto. }
  unfold DeliverNext. simpl. unfold on_db. simpl. rewrite Hc.
  assert (Hw : present lease (mi_ID i) (d1, e) /\ in_hand lease (mi_ID i) i).
  { unfold JDB.ClaimJourneyMessageIntent in Hc. destruct (first_intent _) as [x|]; [|discriminate].
    injection Hc as <- <-. split; [|by repeat split].
    unfold present. simpl. rewrite lookup_insert_eq. eexists. by repeat split. }
  destruct Hw as [Hw Hh]. pose proof (safe_deliver lease _ cfg i Hh (d1, e) Hw) as Hs.
  destruct (deliver _ _ _) as [[a|[p err|j msg]] w2]; [by destruct Hs as [_ []] | done|].
  destruct Hs as [Hp Hj]. unfold recovered. set (i' := set_mi_Decision _ _).
  assert (Hst : rests i') by (subst i'; destruct (3 <=? mi_Attempts j); auto with deliver).
  destruct (update_writes lease i' w2) as [(w' & row & E1 & Hrow & Est & Ede & _)|(er & E1 & Hf)]; [by rewrite <- Hj in Hp | by apply resting_status, Hst|..]; rewrite E1; simpl.
  - exists row. rewrite <- Hj. split; [exact Hrow|]. left. unfold rests, final. rewrite Est, Ede. exact Hst.
  - destruct Hp as (row & Hrow & Hheld). exists row. split; [done|]. right. split; [done|]. by rewrite <- Hj.
Qed.

Definition intents_keyed (d : DB) : Prop := forall k x, db_intents d !! k = Some x -> mi_ID x = k.

Lemma claim_intent_row worker d i d' :
  intents_keyed d -> JDB.ClaimJourneyMessageIntent worker d = (Ok (Some i), d') ->
  exists x, db_intents d !! mi_ID i = Some x /\ mi_Decision i = mi_Decision x.
Proof.
  intros Hk Hc. unfold JDB.ClaimJourneyMessageIntent in Hc. destruct (first_intent _) as [x|] eqn:Ef; [|discriminate].
  injection Hc as <- <-. exists x. split; [|done]. simpl.
  assert (Hin : forall l, first_intent l = Some x -> x ∈ l).
  { clear. intros l. revert x. induction l as [|y l IH]; intros x; simpl; [discriminate|].
    destruct (first_intent l) as [z|]; [destruct (intent_before y z)|]; intros [= <-]; [apply list_elem_of_here| |apply list_elem_of_here].
    apply list_elem_of_further. by apply IH. }
  apply Hin, list_elem_of_filter in Ef as [_ Ef]. apply list_elem_of_fmap in Ef as ([k y] & -> & Ef).
  apply elem_of_map_to_list in Ef. simpl. by rewrite (Hk _ _ Ef).
Qed.

(** The dead-letter queue cannot resend: an operator's retry keeps the
    final decision with which the intent died, so when a worker then claims
    the intent no adapter is called, however often it is retried. *)
Theorem dlq_retry_never_sends p id row d d1 worker cfg i d2 e :
  intents_keyed d -> db_intents d !! id = Some row -> final row = true ->
  JDB.RetryJourneyMessageIntent p id d = (Ok tt, d1) ->
  JDB.ClaimJourneyMessageIntent worker d1 = (Ok (Some i), d2) -> mi_ID i = id ->
  adapter_free cfg i (d2, e).
Proof.
  intros Hk Hrow Hf Hr Hc Hid. apply decided_final. unfold JDB.RetryJourneyMessageIntent in Hr. rewrite Hrow in Hr.
  destruct (_ && _); [|discriminate]. injection Hr as <-.
  apply claim_intent_row in Hc as (x & Hx & Hd).
  - rewrite Hid in Hx. simpl in Hx. rewrite lookup_insert_eq in Hx. injection Hx as <-. unfold final in *. by rewrite Hd.
  - intros k y Hy. simpl in Hy. apply lookup_insert_Some in Hy as [[<- <-]|[_ Hy]]; [exact (Hk _ _ Hrow) | by apply Hk].
Qed.

End Tables.
(** ** Concretely: an email to a subscribed profile *)

Definition demo_intents : IntentStore unit := {|
  ClaimJourneyMessageIntent _ := mret None;
  UpdateJourneyMessageIntent _ := mret tt
|}.
Definition demo_template : Template :=
  MkTemplate "tpl" "t" "w" "Welcome" "email" (Some "Hello") (Some "<p>Hi</p>") None None None [] None 1 0 0.
Definition demo_delivery : DeliveryStore unit := {|
  GetTemplate _ _ := mret demo_template;
  ListSendingIdentities _ := mret [];
  GetSendingIdentity _ _ := throw ErrNotFound;
  GetTenantFatigueQuotas _ := mret (5, 20);
  GetTenantQuietHours _ := mret (Some 21, Some 8, "UTC");
  RetireDeviceToken _ _ _ := mret tt
|}.
Definition taken : Adapter unit := fun _ => mret ("m-1", 100).
Definition refused : Adapter unit := fun _ => throw (DeliveryError None true false).
Definition demo_env : DeliveryEnv unit := {|
  time_Now _ := 0;
  Deliver.LoadLocation _ := None;
  RenderWithContext _ t _ := mret t;
  RewriteLinks h _ _ _ _ _ := mret h;
  SignOpenToken _ _ _ _ := Ok "tok";
  NewSESAdapter := taken;
  NewWebhookAdapter := taken;
  NewFakeAdapter := taken
|}.
#[local] Existing Instances JNodes.demo_store Policy.demo_store demo_intents demo_delivery demo_env.
(** Noon UTC. *)
Definition demo_cfg (a : Adapter unit) : Config unit :=
  MkConfig "key" "https://t.example/" None (Some a) None None None (fun _ => 1577880000 * Time.Second).
Definition demo_intent (decision : option string) (status : string) : JourneyMessageIntent :=
  MkJourneyMessageIntent "i1" "r1" "t" "w" "j1" "v1" "n1" "p1" None "" "tpl" "email" "ada@x" false status 3 0
    (Some 1) decision None (Some "m-1") RawEmpty None 0 0 0.

Lemma demo_reads : reads_only (W := unit).
Proof. by constructor; intros; intros []. Qed.

Lemma deliver_guarded_witness : exists p t caps prof, loaded (demo_intent None "processing") tt p t caps /\
  cleared (demo_cfg taken) (demo_intent None "processing") p (tpl_Channel t) (prof_ExternalID prof) prof caps tt.
Proof.
  destruct (deliver_guarded demo_reads (demo_cfg taken) (demo_intent None "processing") tt) as [Hfree|(p & t & caps & prof & Hl & _ & _ & Hc)].
  - exfalso. specialize (Hfree (demo_cfg refused) ltac:(done)). vm_compute in Hfree. discriminate.
  - exists p, t, caps, prof. by split.
Defined.

Lemma decided_never_resent_witness :
  deliver (demo_cfg refused) (demo_intent (Some "provider_sent") "processing") tt =
  deliver (demo_cfg taken) (demo_intent (Some "provider_sent") "processing") tt.
Proof. apply (decided_never_resent (demo_cfg taken)); [reflexivity | done]. Defined.

(** The intent queued for the demo run's version. *)
Definition demo_version_row : JourneyVersion :=
  MkJourneyVersion "v1" "j1" "t" "w" 1 RawEmpty None "event" None None None "once" 0 "run" RawEmpty None "active" None 0.
Definition demo_queue (i : JourneyMessageIntent) : JDB.DB :=
  JDB.MkDB {["v1" := demo_version_row]} ∅ ∅ ∅ [] {["i1" := i]} ∅ ∅ 1000.
Definition demo_pending : JourneyMessageIntent := set_mi_Attempts 0 (demo_intent None "pending").
Definition demo_claim (d : JDB.DB) : JourneyMessageIntent :=
  match (JDB.ClaimJourneyMessageIntent "worker" d).1 with Ok (Some i) => i | _ => demo_pending end.

(** The pool loses the connection when the outcome is written. *)
Definition demo_refusing : JDB.DB * unit -> JourneyMessageIntent -> option error :=
  fun _ i => if mi_Status i =s "processing" then None else Some (Errorf "conn closed" []).

Lemma delivery_releases_witness :
  exists row, JDB.db_intents (DeliverNext (H := Tick.node_store) (H0 := policy_store) (H1 := intent_store demo_refusing) (H2 := delivery_store)
                   (H3 := delivery_env) "worker" (lift_config (demo_cfg refused)) (demo_queue demo_pending, tt)).2.1 !! "i1" = Some row /\
    (rests row \/ mi_Status row = "processing" /\ mi_LockedUntil row = Some (1000 + 5 * Time.Minute) /\ refused_write demo_refusing "i1").
Proof.
  exact (delivery_releases demo_refusing "worker" (demo_cfg refused) (demo_queue demo_pending) tt (demo_claim (demo_queue demo_pending))
           (JDB.ClaimJourneyMessageIntent "worker" (demo_queue demo_pending)).2 ltac:(vm_compute; reflexivity)).
Defined.

Definition demo_dead : JourneyMessageIntent := demo_intent (Some "send_failed") "dead".
Definition demo_retried : JDB.DB := (JDB.RetryJourneyMessageIntent Policy.demo_p "i1" (demo_queue demo_dead)).2.

Definition demo_held : JDB.DB := (JDB.ClaimJourneyMessageIntent "worker" demo_retried).2.

Lemma dlq_retry_never_sends_witness :
  mi_Status (demo_claim demo_retried) = "processing" /\
  deliver (H := Tick.node_store) (H0 := policy_store) (H1 := intent_store demo_refusing) (H2 := delivery_store) (H3 := delivery_env)
    (lift_config (demo_cfg refused)) (demo_claim demo_retried) (demo_held, tt) =
  deliver (H := Tick.node_store) (H0 := policy_store) (H1 := intent_store demo_refusing) (H2 := delivery_store) (H3 := delivery_env)
    (lift_config (demo_cfg taken)) (demo_claim demo_retried) (demo_held, tt).
Proof.
  split; [reflexivity|].
  assert (Hc : JDB.ClaimJourneyMessageIntent "worker" demo_retried =
               (Ok (Some (demo_claim demo_retried)), demo_held)) by (vm_compute; reflexivity).
  assert (Hk : intents_keyed (demo_queue demo_dead)).
  { intros k x Hx. change (({["i1" := demo_dead]} : gmap string JourneyMessageIntent) !! k = Some x) in Hx.
    apply lookup_singleton_Some in Hx as [<- <-]. done. }
  assert (Hr : JDB.RetryJourneyMessageIntent Policy.demo_p "i1" (demo_queue demo_dead) = (Ok tt, demo_retried)) by (vm_compute; reflexivity).
  assert (Hi : mi_ID (demo_claim demo_retried) = "i1") by (vm_compute; reflexivity).
  apply (dlq_retry_never_sends demo_refusing Policy.demo_p "i1" demo_dead (demo_queue demo_dead) demo_retried "worker"
           (lift_config (demo_cfg taken)) (demo_claim demo_retried) demo_held tt Hk eq_refl eq_refl Hr Hc Hi (lift_config (demo_cfg refused))).
  split; [|split]; reflexivity.
Defined.
End DeliverSpec.
