(* ===== verification/CampaignDeliver.v ===== *)
(** * Delivering a campaign (src/internal/campaigns/deliver.go)

    [DeliverNext] claims one shard and takes its recipients, one after the
    other, through the experiment, the sending identity, the attempt's record,
    message policy, rendering, the channel adapter and the [message.sent] event.
    The body of the loop leaves with [continue] from some twenty places; here it
    is a computation that may stop early, answering the text of a transient send
    error if there was one.  Logging and telemetry are left out. *)

From S2P Require Import Prelude.
From S2P Require Import GoStd.
From S2P Require Import GoMap.
From S2P Require Import Domain.
From S2P Require Import Store.
From S2P Require Import Experiment.
From S2P Require Import Policy.
From S2P Require Import Deliver.
From S2P Require Import MakerChecker.
From S2P Require Import Campaigns.

Module CampaignDeliver.
Import Campaigns Deliver.

(** ** The store and the environment *)

(** The methods of the campaign tables that delivery calls. *)
Class CampaignStore (W : Type) := {
  ClaimDeliveryJob : string -> M W (option DeliveryJob);
  GetCampaignSystem : string -> string -> M W Campaign;
  CompleteDeliveryJob : string -> M W unit;
  FailDeliveryJob : string -> text -> M W unit;
  CreateDeliveryAttempt : DeliveryAttempt -> M W bool;
  GetDeliveryAttempt : string -> string -> string -> string -> M W DeliveryAttempt;
  UpdateDeliveryAttempt : string -> string -> string -> string -> string -> text -> string -> RawMessage -> Z -> M W unit;
  SetDeliveryAttemptExperiment : string -> string -> string -> string -> string -> string -> M W unit
}.
(** What else it takes from the process: the profile read, the clock, the
    template engine, link rewriting and the signed open token (tenant, app,
    campaign, profile, template, message), and the adapters it builds when the
    configuration has none. *)
Class CampaignEnv (W : Type) := {
  GetProfileByID : string -> string -> string -> M W Profile;
  time_Now : W -> Z;
  RenderWithContext : Principal -> string -> option (list (string * json)) -> M W string;
  RewriteLinks : string -> string -> string -> string -> string -> string -> string -> string -> string -> M W string;
  SignOpenToken : string -> string -> string -> string -> string -> string -> string -> result string;
  NewSESAdapter : Adapter W;
  NewWebhookAdapter : Adapter W;
  NewFakeAdapter : Adapter W
}.

Record Config (W : Type) : Type := MkConfig {
  TrackingSecretKey : string;
  TrackingBaseURL : string;
  cfg_Registry : option (Registry W);
  cfg_Adapter : option (Adapter W);
  SESAdapter : option (Adapter W);
  WebhookAdapter : option (Adapter W);
  FakeAdapter : option (Adapter W)
}.
Arguments MkConfig {W}. Arguments TrackingSecretKey {W}. Arguments TrackingBaseURL {W}. Arguments cfg_Registry {W}.
Arguments cfg_Adapter {W}. Arguments SESAdapter {W}. Arguments WebhookAdapter {W}. Arguments FakeAdapter {W}.

(** ** The loop body *)

(** [inr None] is [continue]; [inr (Some e)] notes a transient error first. *)
Definition L (W A : Type) : Type := W -> (A + option error) * W.
#[export] Instance L_ret {W} : MRet (L W) := fun A a w => (inl a, w).
#[export] Instance L_bind {W} : MBind (L W) := fun A B f m w =>
  match m w with (inl a, w') => f a w' | (inr x, w') => (inr x, w') end.
Definition continue {W A} : L W A := fun w => (inr None, w).
Definition transient {W A} (e : error) : L W A := fun w => (inr (Some e), w).
Definition call {W A} (m : M W A) : L W (result A) := fun w => match m w with (r, w') => (inl r, w') end.
Definition run {W A} (f : W -> A * W) : L W A := fun w => match f w with (a, w') => (inl a, w') end.
(** The call's answer, or on to the next recipient. *)
Definition or_continue {W A} (m : M W A) : L W A := fun w =>
  match m w with (Ok a, w') => (inl a, w') | (Err _, w') => (inr None, w') end.

Definition terminal : list string := ["sent"; "suppressed"; "no_consent"; "fatigued"; "render_failed"; "send_failed"; "failed"].
Definition intermediate : list string := ["processing"; "provider_sent"; "retryable_failed"].
Definition bound (camp : Campaign) : option string :=
  match cp_ExperimentID camp with Some e => if e =s "" then None else Some e | None => None end.

Definition fixed_identity (channel provider : string) : SendingIdentity :=
  MkSendingIdentity "" "" "" channel None None None provider RawEmpty 10 false Time.zero.
Definition sent_key (camp : Campaign) (rec : Recipient) : string := "sent-" +:+ cp_ID camp +:+ "-" +:+ rc_ProfileID rec.

Section code.
Context {W : Type} `{NodeStore W} `{PolicyStore W} `{DeliveryStore W} `{CampaignStore W} `{CampaignEnv W}.

Definition adapterFor (provider : string) (cfg : Config W) : Adapter W :=
  match cfg_Adapter cfg, cfg_Registry cfg with
  | Some a, _ => a
  | None, Some r => For r provider
  | None, None =>
      if provider =s "ses" then default NewSESAdapter (SESAdapter cfg)
      else if provider =s "webhook" then default NewWebhookAdapter (WebhookAdapter cfg)
      else default NewFakeAdapter (FakeAdapter cfg)
  end.

(** The variant of the recipient and its template. *)
Definition variant_template (p : Principal) (exp : Experiment) (variant : string) (baseTemplate : Template) : L W Template :=
  match find_first (fun c => (xv_Label c =s variant) && match xv_TemplateID c with Some t => negb (t =s "") | None => false end) (exp_Variants exp) with
  | Some c => or_continue (GetTemplate p (default "" (xv_TemplateID c)))
  | None => mret baseTemplate
  end.
Definition select_variant (p : Principal) (camp : Campaign) (exp : Experiment) (rec : Recipient) (baseTemplate : Template) : L W (string * Template) :=
  match bound camp with
  | None => mret ("", baseTemplate)
  | Some _ =>
      let variants := (fun c => Experiment.MkVariant (xv_Label c) (xv_Weight c)) <$> exp_Variants exp in
      let computed := (Experiment.Assign (exp_Seed exp) (rc_ProfileID rec) variants (exp_HoldoutPct exp)).1 in
      stored ← or_continue (AssignExperiment p (exp_ID exp) (rc_ProfileID rec) computed);
      t ← variant_template p exp (xa_Variant stored) baseTemplate;
      mret (xa_Variant stored, t)
  end.

Definition sending_identity (p : Principal) (camp : Campaign) (rec : Recipient) (template : Template) : L W SendingIdentity :=
  if tpl_Channel template =s "push" then
    activeTokens ← or_continue (ListActiveDeviceTokens (cp_TenantID camp) (cp_WorkspaceID camp) (rc_ProfileID rec));
    match find_first (fun t => dt_Token t =s rc_Endpoint rec) activeTokens with
    | None => continue
    | Some matchingToken =>
        idents ← call (ListSendingIdentities p);
        let found := match idents with
                     | Ok l => find_first (fun iden => si_Provider iden =s dt_Provider matchingToken) l
                     | Err _ => None
                     end in
        mret (match found with
              | Some iden => if si_ID iden =s "" then fixed_identity "push" (dt_Provider matchingToken) else iden
              | None => fixed_identity "push" (dt_Provider matchingToken)
              end)
    end
  else if tpl_Channel template =s "in_app" then mret (fixed_identity "in_app" "inapp")
  else match tpl_SendingIdentityID template with
  | Some id => if id =s "" then mret (fixed_identity (tpl_Channel template) "fake") else or_continue (GetSendingIdentity p id)
  | None => mret (fixed_identity (tpl_Channel template) "fake")
  end.

Definition new_attempt (camp : Campaign) (rec : Recipient) (template : Template) (variant : string) : DeliveryAttempt :=
  MkDeliveryAttempt "" (cp_ID camp) (cp_TenantID camp) (cp_ExperimentID camp) variant (rc_ProfileID rec) (tpl_Channel template) (rc_Endpoint rec)
    "processing" (lit "") "" RawEmpty Time.zero 0.
(** Open the attempt, or take up one that was left undecided. *)
Definition open_attempt (camp : Campaign) (rec : Recipient) (template : Template) (variant : string) : L W DeliveryAttempt :=
  let attempt := new_attempt camp rec template variant in
  inserted ← or_continue (CreateDeliveryAttempt attempt);
  if inserted : bool then mret attempt else
  existing ← or_continue (GetDeliveryAttempt (cp_ID camp) (rc_ProfileID rec) (tpl_Channel template) (rc_Endpoint rec));
  if mem (da_Decision existing) terminal then continue
  else if mem (da_Decision existing) intermediate then mret existing else continue.

(** [_ = store.UpdateDeliveryAttempt(...); continue], and without the exit. *)
Definition record (camp : Campaign) (rec : Recipient) (template : Template) (decision : string) (reason : text) (msgID : string)
    (snapshot : RawMessage) (cost : Z) : L W (result unit) :=
  call (UpdateDeliveryAttempt (cp_ID camp) (rc_ProfileID rec) (tpl_Channel template) (rc_Endpoint rec) decision reason msgID snapshot cost).
Definition settle {A} (camp : Campaign) (rec : Recipient) (template : Template) (decision : string) (reason : text) : L W A :=
  _ ← record camp rec template decision reason "" RawEmpty 0; continue.

Definition stamp_experiment (camp : Campaign) (rec : Recipient) (template : Template) (variant : string) : L W unit :=
  match bound camp with
  | None => mret tt
  | Some e =>
      _ ← or_continue (SetDeliveryAttemptExperiment (cp_TenantID camp) (cp_ID camp) (rc_ProfileID rec) (tpl_Channel template) e variant);
      if variant =s "holdout" then settle camp rec template "holdout" (lit "experiment holdout") else mret tt
  end.

Definition snapshot_of (v : Policy.Verdict) : RawMessage :=
  match Policy.vd_Snapshot v with [] => RawEmpty | l => Raw (Json.marshal (JObject l)) end.
(** Message policy: the snapshot of a verdict that lets the message go. *)
Definition check_policy (p : Principal) (camp : Campaign) (rec : Recipient) (template : Template) (caps : Policy.Caps) (prof : Profile)
    : L W RawMessage :=
  v ← run (fun w => Policy.Evaluate (time_Now w) p (Policy.MkRecipient (rc_ProfileID rec) (prof_ExternalID prof) (rc_Endpoint rec)) caps w);
  let snapshot := snapshot_of v in
  if Policy.vd_Decision v =s "sent" then mret snapshot else
  _ ← record camp rec template (Policy.vd_Decision v) (Policy.vd_Reason v) "" snapshot 0;
  continue.

Definition render_part (p : Principal) (camp : Campaign) (rec : Recipient) (template : Template) (vars : option (list (string * json)))
    (part : option string) (dflt : string) : L W string :=
  match part with
  | None => mret dflt
  | Some t =>
      if t =s "" then mret dflt else
      r ← call (RenderWithContext p t vars);
      match r with
      | Ok s => mret s
      | Err e => settle camp rec template "render_failed" (Errorf "render error: %v" [AErr e])
      end
  end.
Definition track (cfg : Config W) (p : Principal) (camp : Campaign) (rec : Recipient) (template : Template) (htmlBody : string) : L W string :=
  if (htmlBody =s "") || (TrackingSecretKey cfg =s "") then mret htmlBody else
  rewritten ← call (RewriteLinks htmlBody (cp_TenantID camp) (p_AppID p) (cp_ID camp) (rc_ProfileID rec) (tpl_ID template) (cp_ID camp)
                      (TrackingSecretKey cfg) (TrackingBaseURL cfg));
  let htmlBody := match rewritten with Ok h => h | Err _ => htmlBody end in
  mret (match SignOpenToken (cp_TenantID camp) (p_AppID p) (cp_ID camp) (rc_ProfileID rec) (tpl_ID template) (cp_ID camp) (TrackingSecretKey cfg) with
        | Ok token => with_pixel htmlBody (TrackingBaseURL cfg) token
        | Err _ => htmlBody
        end).
Definition compose (cfg : Config W) (p : Principal) (camp : Campaign) (rec : Recipient) (template : Template) (identity : SendingIdentity)
    (prof : Profile) : L W RenderedMessage :=
  let vars := profile_vars prof in
  subject ← render_part p camp rec template vars (tpl_SubjectTemplate template) "Campaign";
  htmlBody ← render_part p camp rec template vars (tpl_HTMLTemplate template) "";
  textBody ← render_part p camp rec template vars (tpl_TextTemplate template) "";
  bodyPayload ← render_part p camp rec template vars (tpl_BodyTemplate template) "";
  htmlBody ← track cfg p camp rec template htmlBody;
  mret (MkRenderedMessage (tpl_Channel template) (rc_Endpoint rec) subject htmlBody textBody bodyPayload identity (sent_key camp rec)).

(** The adapter refused. *)
Definition send_failed {A} (camp : Campaign) (rec : Recipient) (template : Template) (e : error) : L W A :=
  if IsInvalidTokenError e then
    app ← call (Store.GetFirstAppID (cp_TenantID camp) (cp_WorkspaceID camp));
    let appID := match app with Ok a => a | Err _ => "app-1" end in
    _ ← call (RetireDeviceToken (cp_TenantID camp) appID (rc_Endpoint rec));
    settle camp rec template "failed" (Errorf "invalid token retired: %v" [AErr e])
  else if IsRetryableError e then
    _ ← record camp rec template "retryable_failed" (Errorf "transient send error: %v" [AErr e]) "" RawEmpty 0;
    transient e
  else settle camp rec template "send_failed" (Errorf "adapter send error: %v" [AErr e]).

(** Hand the message over, unless the provider has it already. *)
Definition send (adapter : Adapter W) (camp : Campaign) (rec : Recipient) (template : Template) (attempt : DeliveryAttempt) (snapshot : RawMessage)
    (msg : RenderedMessage) : L W (string * Z) :=
  if da_Decision attempt =s "provider_sent" then mret (da_ProviderMessageID attempt, 0) else
  r ← call (adapter msg);
  match r with
  | Err e => send_failed camp rec template e
  | Ok (providerMsgID, costMicros) =>
      _ ← record camp rec template "provider_sent" (lit "eligible") providerMsgID snapshot costMicros;
      mret (providerMsgID, costMicros)
  end.

Definition sent_payload (camp : Campaign) (rec : Recipient) (template : Template) (variant : string) : RawMessage :=
  Raw (Json.marshal (JObject [("campaign_id", JString (cp_ID camp)); ("channel", JString (tpl_Channel template));
    ("endpoint", JString (rc_Endpoint rec)); ("experiment_id", JString (default "" (cp_ExperimentID camp))); ("variant", JString variant)])).
Definition sent_event (camp : Campaign) (rec : Recipient) (template : Template) (variant : string) (prof : Profile) (now : Z) : Event :=
  MkEvent "message.sent" 1 (prof_ExternalID prof) (prof_AnonymousID prof) (sent_key camp rec) now "" "" "" "" "" "" RawEmpty
    (sent_payload camp rec template variant).

Definition deliver_one (cfg : Config W) (p : Principal) (camp : Campaign) (baseTemplate : Template) (exp : Experiment) (quotas : Z * Z)
    (rec : Recipient) : L W unit :=
  sel ← select_variant p camp exp rec baseTemplate;
  let '(variant, template) := sel in
  identity ← sending_identity p camp rec template;
  let adapter := adapterFor (si_Provider identity) cfg in
  let caps := Policy.MkCaps (tpl_Channel template) "marketing" quotas.1 quotas.2 in
  attempt ← open_attempt camp rec template variant;
  _ ← stamp_experiment camp rec template variant;
  loaded ← call (GetProfileByID (cp_TenantID camp) (p_AppID p) (rc_ProfileID rec));
  match loaded with
  | Err e => settle camp rec template "failed" (Errorf "failed to load profile: %v" [AErr e])
  | Ok prof =>
      snapshot ← check_policy p camp rec template caps prof;
      msg ← compose cfg p camp rec template identity prof;
      sent ← send adapter camp rec template attempt snapshot msg;
      now ← run (fun w => (time_Now w, w));
      _ ← or_continue (AcceptEvents p [sent_event camp rec template variant prof now]);
      _ ← record camp rec template "sent" (lit "eligible") sent.1 snapshot sent.2;
      mret tt
  end.

(** The loop: the last transient error, if any. *)
Fixpoint deliver_all (cfg : Config W) (p : Principal) (camp : Campaign) (baseTemplate : Template) (exp : Experiment) (quotas : Z * Z)
    (recipients : list Recipient) (retryable : option error) (w : W) : option error * W :=
  match recipients with
  | [] => (retryable, w)
  | rec :: rest =>
      match deliver_one cfg p camp baseTemplate exp quotas rec w with
      | (inr (Some e), w') => deliver_all cfg p camp baseTemplate exp quotas rest (Some e) w'
      | (_, w') => deliver_all cfg p camp baseTemplate exp quotas rest retryable w'
      end
  end.

(** [_ = store.FailDeliveryJob(...); return true, nil]. *)
Definition abandon (job : DeliveryJob) (msg : string) (e : error) (w : W) : bool * option error * W :=
  (true, None, (FailDeliveryJob (dj_ID job) (Errorf msg [AErr e]) w).2).

Definition no_experiment : Experiment := MkExperiment "" "" "" "" None "" "" "" "" 0 RawEmpty RawEmpty None [] Time.zero Time.zero.

(** After the claim. *)
Definition deliver (cfg : Config W) (job : DeliveryJob) (w : W) : bool * option error * W :=
  match GetCampaignSystem (dj_TenantID job) (dj_CampaignID job) w with
  | (Err e, w) => abandon job "failed to get campaign: %v" e w
  | (Ok camp, w) =>
      let '(app, w) := Store.GetFirstAppID (cp_TenantID camp) (cp_WorkspaceID camp) w in
      let appID := match app with Ok a => a | Err _ => "app-1" end in
      let p := MkPrincipal (cp_TenantID camp) (cp_WorkspaceID camp) appID "" "" "" ["*"] in
      match GetTemplate p (cp_TemplateID camp) w with
      | (Err e, w) => abandon job "failed to get template: %v" e w
      | (Ok template, w) =>
          let '(q, w) := GetTenantFatigueQuotas p w in
          let quotas := match q with Ok q => q | Err _ => (5, 20) end in
          match (match bound camp with Some e => GetExperiment p e w | None => (Ok no_experiment, w) end) with
          | (Err e, w) => abandon job "failed to get experiment: %v" e w
          | (Ok exp, w) =>
              match deliver_all cfg p camp template exp quotas (dj_Recipients job) None w with
              | (Some e, w) =>
                  match FailDeliveryJob (dj_ID job) (Errorf "transient send failure: %s" [AErr e]) w with
                  | (Err err, w) => (true, Some err, w)
                  | (Ok _, w) => (true, Some (Errorf "transient delivery failure: %s" [AErr e]), w)
                  end
              | (None, w) =>
                  match CompleteDeliveryJob (dj_ID job) w with
                  | (Err err, w) => (true, Some err, w)
                  | (Ok _, w) => (true, None, w)
                  end
              end
          end
      end
  end.

(** [panics] tells when code outside the repository (a template, an adapter)
    panics on a job, and the world it leaves. *)
Context (panics : DeliveryJob -> W -> option (error * W)).

Definition recovered (job : DeliveryJob) (msg : error) (w : W) : bool * option error * W :=
  let panicErr := Errorf "delivery panic: %v" [AErr msg] in
  match FailDeliveryJob (dj_ID job) panicErr w with
  | (Err failErr, w) => (true, Some (Errorf "recover delivery job %s: %s (fail job: %v)" [AStr (dj_ID job); AErr panicErr; AErr failErr]), w)
  | (Ok _, w) => (true, Some (Errorf "recover delivery job %s: %s" [AStr (dj_ID job); AErr panicErr]), w)
  end.
Definition DeliverNext (workerID : string) (cfg : Config W) (w : W) : bool * option error * W :=
  match ClaimDeliveryJob workerID w with
  | (Err e, w) => (false, Some (Errorf "claim delivery job: %w" [AWrap e]), w)
  | (Ok None, w) => (false, None, w)
  | (Ok (Some job), w) =>
      match panics job w with
      | Some (msg, w') => recovered job msg w'
      | None => deliver cfg job w
      end
  end.

End code.
End CampaignDeliver.
