(* ===== verification/CampaignDispatch.v ===== *)
(** * Dispatching a campaign (src/internal/campaigns/dispatch.go)

    [DispatchNext] claims a scheduled campaign, resolves its segment to
    endpoints, freezes them in a manifest in the blob store and splits them into
    delivery jobs of at most 500; [RedispatchFromManifest] makes the jobs again
    from the manifest.  A document of the blob store is its JSON value;
    [FormatTime] is [time.Time]'s JSON text. *)

From S2P Require Import Prelude.
From S2P Require Import GoStd.
From S2P Require Import GoMap.
From S2P Require Import Domain.
From S2P Require Import Store.
From S2P Require Import Audience.
From S2P Require Import AuditLog.
From S2P Require Import Segments.
From S2P Require Import Campaigns.

Module CampaignDispatch.
Import Campaigns.

Class DispatchStore (W : Type) := {
  ClaimScheduledCampaign : M W (option Campaign);
  UpdateCampaign : Principal -> Campaign -> M W Campaign;
  SaveCampaignManifestAndJobs : string -> string -> Z -> Z -> Z -> RawMessage -> string -> list DeliveryJob -> M W unit;
  GetCampaignSystem : string -> string -> M W Campaign;
  GetSegment : Principal -> string -> M W Segments.Segment;
  GetProfileEmails : string -> list string -> M W (gmap string string);
  GetProfilePhones : string -> list string -> M W (gmap string string)
}.
Record BlobStore (W : Type) : Type := MkBlobStore { Put : string -> json -> string -> M W unit; Get : string -> M W RawMessage }.
Arguments MkBlobStore {W}. Arguments Put {W}. Arguments Get {W}.

(** ** The segment's compiled parts *)

Definition consent_leg : string :=
  "SELECT profile_id FROM (" +:+ Audience.tabs 2 +:+ "SELECT DISTINCT ON (profile_id) profile_id, state" +:+ Audience.tabs 2 +:+ "FROM consent_ledger" +:+ Audience.tabs 2 +:+
  "WHERE tenant_id = $1 AND app_id = $2 AND channel = $3 AND topic = $4" +:+ Audience.tabs 2 +:+ "ORDER BY profile_id, occurred_at DESC" +:+ Audience.tabs 1 +:+
  ") latest WHERE state = $5".
Definition clickhouse_leg : string :=
  "SELECT subject_hash FROM behavior_events" +:+ Audience.tabs 2 +:+
  "WHERE tenant_id = ? AND event_type = ? AND occurred_at >= now() - INTERVAL ? DAY" +:+ Audience.tabs 2 +:+ "GROUP BY subject_hash HAVING count() >= ?".
Definition legs : Type := list string * list string * list string.
Definition join (a b : legs) : legs := (a.1.1 ++ b.1.1, a.1.2 ++ b.1.2, a.2 ++ b.2).
Fixpoint compileSegmentLegs (n : Audience.Node) : legs :=
  match n with
  | Audience.And l | Audience.Or l => foldr (fun n acc => join (compileSegmentLegs n) acc) ([], [], []) l
  | Audience.Not n => compileSegmentLegs n
  | Audience.ProfileAttribute _ _ _ => match Audience.CompileProfile n with Ok (sql, _) => ([sql], [], []) | Err _ => ([], [], []) end
  | Audience.Consent _ _ _ => ([], [consent_leg], [])
  | Audience.EventHistory _ _ _ _ => ([], [], [clickhouse_leg])
  | _ => ([], [], [])
  end.

(** ** The manifest *)

Record Manifest : Type := MkManifest {
  mf_SegmentID : string; mf_SegmentVersion : Z; mf_DSL : string; mf_CompiledSQL : string; mf_Legs : legs; mf_TemplateID : string;
  mf_TemplateVersion : Z; mf_ConversionGoal : RawMessage; mf_AttributionWindow : string; mf_EvaluatedAt : string; mf_Recipients : list Recipient
}.
(** A nil slice of strings is [null]. *)
Definition nilable (l : list string) : json := match l with [] => JNull | _ => JArray (JString <$> l) end.
Definition recipient_json (r : Recipient) : json := JObject [("profile_id", JString (rc_ProfileID r)); ("endpoint", JString (rc_Endpoint r))].
Definition goal_member (goal : RawMessage) : result (list (string * json)) :=
  match goal with
  | RawEmpty => Ok []
  | Raw j => Ok [("conversion_goal", j)]
  | RawBad _ => Err Json.syntax_error
  end.
Definition manifest_json (m : Manifest) : result json :=
  goal ← goal_member (mf_ConversionGoal m);
  Ok (JObject ([("segment_id", JString (mf_SegmentID m)); ("segment_version", JNumber (GoStr.of_Z (mf_SegmentVersion m)));
                ("dsl", JString (mf_DSL m)); ("compiled_sql", JString (mf_CompiledSQL m));
                ("compiled_profile_legs", nilable (mf_Legs m).1.1); ("compiled_consent_legs", nilable (mf_Legs m).1.2);
                ("compiled_clickhouse_legs", nilable (mf_Legs m).2); ("template_id", JString (mf_TemplateID m));
                ("template_version", JNumber (GoStr.of_Z (mf_TemplateVersion m)))] ++ goal ++
               (if mf_AttributionWindow m =s "" then [] else [("attribution_window", JString (mf_AttributionWindow m))]) ++
               [("evaluated_at", JString (mf_EvaluatedAt m)); ("recipients", JArray (recipient_json <$> mf_Recipients m))])).

(** What [RedispatchFromManifest] reads back. *)
Record Frozen : Type := MkFrozen {
  fz_CampaignID : string; fz_SegmentID : string; fz_SegmentVersion : Z; fz_TemplateVersion : Z; fz_ConversionGoal : RawMessage;
  fz_AttributionWindow : string; fz_Recipients : list Recipient
}.
Definition no_frozen : Frozen := MkFrozen "" "" 0 0 RawEmpty "" [].
Definition recipient_fields : list (string * Json.setter Recipient) :=
  [("profile_id", Json.set_string (fun v r => MkRecipient v (rc_Endpoint r)));
   ("endpoint", Json.set_string (fun v r => MkRecipient (rc_ProfileID r) v))].
Definition read_recipient (j : json) : option Recipient := Json.decode_struct recipient_fields j (MkRecipient "" "").
Definition frozen_fields : list (string * Json.setter Frozen) :=
  [("campaign_id", Json.set_string (fun v m => MkFrozen v (fz_SegmentID m) (fz_SegmentVersion m) (fz_TemplateVersion m) (fz_ConversionGoal m) (fz_AttributionWindow m) (fz_Recipients m)));
   ("segment_id", Json.set_string (fun v m => MkFrozen (fz_CampaignID m) v (fz_SegmentVersion m) (fz_TemplateVersion m) (fz_ConversionGoal m) (fz_AttributionWindow m) (fz_Recipients m)));
   ("segment_version", Json.set_int (fun v m => MkFrozen (fz_CampaignID m) (fz_SegmentID m) v (fz_TemplateVersion m) (fz_ConversionGoal m) (fz_AttributionWindow m) (fz_Recipients m)));
   ("template_version", Json.set_int (fun v m => MkFrozen (fz_CampaignID m) (fz_SegmentID m) (fz_SegmentVersion m) v (fz_ConversionGoal m) (fz_AttributionWindow m) (fz_Recipients m)));
   ("conversion_goal", Json.set_raw (fun v m => MkFrozen (fz_CampaignID m) (fz_SegmentID m) (fz_SegmentVersion m) (fz_TemplateVersion m) v (fz_AttributionWindow m) (fz_Recipients m)));
   ("attribution_window", Json.set_string (fun v m => MkFrozen (fz_CampaignID m) (fz_SegmentID m) (fz_SegmentVersion m) (fz_TemplateVersion m) (fz_ConversionGoal m) v (fz_Recipients m)));
   ("recipients", Json.set_list read_recipient (fun v m => MkFrozen (fz_CampaignID m) (fz_SegmentID m) (fz_SegmentVersion m) (fz_TemplateVersion m) (fz_ConversionGoal m) (fz_AttributionWindow m) v))].
Definition read_manifest (data : RawMessage) : result Frozen := Json.Unmarshal frozen_fields no_frozen data.

(** ** Shards *)

Definition shardSize : nat := 500.
Definition new_job (camp : Campaign) (index : Z) (recipients : list Recipient) : DeliveryJob :=
  MkDeliveryJob "" (cp_ID camp) (cp_TenantID camp) index "pending" recipients 0 Time.zero None None.
(** The loop, by steps of [shardSize]; [fuel] bounds its turns. *)
Fixpoint shard_from (fuel : nat) (camp : Campaign) (index : Z) (recipients : list Recipient) : list DeliveryJob :=
  match fuel, recipients with
  | S fuel, _ :: _ => new_job camp index (take shardSize recipients) :: shard_from fuel camp (index + 1) (drop shardSize recipients)
  | _, _ => []
  end.
Definition shards (camp : Campaign) (recipients : list Recipient) : list DeliveryJob := shard_from (length recipients) camp 0 recipients.

Definition dsl_text (dsl : RawMessage) : string :=
  match dsl with
  | RawEmpty => ""
  | Raw j => Audit.jsonb_text j
  | RawBad s => s
  end.
Definition goal_window (goal : RawMessage) : result string :=
  Json.Unmarshal [("window", Json.set_string (fun v (_ : string) => v))] "" goal.

Section code.
Context {W : Type} `{NodeStore W} `{SegmentStore W} `{DeliveryStore W} `{DispatchStore W}.
Context (blobStore : BlobStore W) (time_Now : W -> Z) (FormatTime : Z -> string).

(** ** Recipients *)

Definition with_contact (m : gmap string string) (pID : string) : option Recipient :=
  match m !! pID with
  | Some e => if e =s "" then None else Some (MkRecipient pID e)
  | None => None
  end.
(** A profile whose tokens cannot be read is left out. *)
Fixpoint push_recipients (camp : Campaign) (profileIDs : list string) (w : W) : list Recipient * W :=
  match profileIDs with
  | [] => ([], w)
  | pID :: rest =>
      let '(tokens, w) := ListActiveDeviceTokens (cp_TenantID camp) (cp_WorkspaceID camp) pID w in
      let here := match tokens with Ok l => (fun t => MkRecipient pID (dt_Token t)) <$> l | Err _ => [] end in
      let '(others, w) := push_recipients camp rest w in (here ++ others, w)
  end.
Definition recipients_of (camp : Campaign) (channel : string) (profileIDs : list string) : M W (list Recipient) :=
  if channel =s "sms" then
    phones ← wrapM "get profile phones: %w" (GetProfilePhones (cp_TenantID camp) profileIDs);
    mret (omap (with_contact phones) profileIDs)
  else if channel =s "push" then fun w => let '(l, w) := push_recipients camp profileIDs w in (Ok l, w)
  else if channel =s "in_app" then mret ((fun pID => MkRecipient pID pID) <$> profileIDs)
  else
    emails ← wrapM "get profile emails: %w" (GetProfileEmails (cp_TenantID camp) profileIDs);
    mret (omap (with_contact emails) profileIDs).

Definition campaign_goal (p : Principal) (camp : Campaign) : M W (RawMessage * string) :=
  match cp_ExperimentID camp with
  | None => mret (RawEmpty, "")
  | Some e =>
      exp ← wrapM "get campaign experiment goal: %w" (GetExperiment p e);
      let goal := exp_PrimaryGoal exp in
      if raw_len0 goal then mret (goal, "") else
      window ← lift (wrapw "decode campaign conversion goal: %w" (goal_window goal));
      mret (goal, window)
  end.

Definition compiled_sql (dsl : RawMessage) : string :=
  match Audience.Parse dsl with
  | Ok node => match Audience.CompileProfile node with Ok (sql, _) => sql | Err _ => "" end
  | Err _ => ""
  end.
Definition segment_legs (dsl : RawMessage) : legs :=
  match Audience.Parse dsl with Ok node => compileSegmentLegs node | Err _ => ([], [], []) end.

Definition manifest_key (camp : Campaign) : string := "manifests/" +:+ cp_TenantID camp +:+ "/" +:+ cp_ID camp +:+ "-manifest.json".

(** ** Dispatching *)

Definition dispatch (camp : Campaign) (p : Principal) : M W unit :=
  profileIDs ← wrapM "resolve segment: %w" (ResolveSegment p (cp_SegmentID camp));
  template ← wrapM "get template: %w" (GetTemplate p (cp_TemplateID camp));
  recipients ← recipients_of camp (tpl_Channel template) profileIDs;
  seg ← wrapM "get segment: %w" (GetSegment p (cp_SegmentID camp));
  goal ← campaign_goal p camp;
  now ← (fun w => (Ok (time_Now w), w));
  let manifest := MkManifest (cp_SegmentID camp) (Segments.sg_Version seg) (dsl_text (Segments.sg_DSL seg)) (compiled_sql (Segments.sg_DSL seg))
                    (segment_legs (Segments.sg_DSL seg)) (cp_TemplateID camp) (tpl_Version template) goal.1 goal.2 (FormatTime now) recipients in
  data ← lift (wrapw "marshal manifest: %w" (manifest_json manifest));
  _ ← wrapM "upload manifest to blob store: %w" (Put blobStore (manifest_key camp) data "application/json");
  wrapM "save manifest and jobs: %w"
    (SaveCampaignManifestAndJobs (cp_ID camp) (manifest_key camp) (Z.of_nat (length recipients)) (Segments.sg_Version seg) (tpl_Version template)
       goal.1 goal.2 (shards camp recipients)).

(** As in [CampaignDeliver]: a panic of code outside, and the world it leaves. *)
Context (panics : Campaign -> W -> option (error * W)).

Definition with_app (appID : string) (camp : Campaign) : Principal := MkPrincipal (cp_TenantID camp) (cp_WorkspaceID camp) appID "" "" "" ["*"].
(** The deferred function after a failure. *)
Definition mark_failed (p : Principal) (camp : Campaign) (err : error) (w : W) : bool * option error * W :=
  let '(_, w) := UpdateCampaign p (Campaigns.set_status "failed" (cp_UpdatedAt camp) camp) w in (true, Some err, w).

Definition DispatchNext (w : W) : bool * option error * W :=
  match ClaimScheduledCampaign w with
  | (Err e, w) => (false, Some (Errorf "claim scheduled campaign: %w" [AWrap e]), w)
  | (Ok None, w) => (false, None, w)
  | (Ok (Some camp), w) =>
      let '(app, w) := Store.GetFirstAppID (cp_TenantID camp) (cp_WorkspaceID camp) w in
      let p := with_app (match app with Ok a => a | Err _ => "app-1" end) camp in
      match panics camp w with
      | Some (msg, w) => mark_failed p camp (Errorf "dispatch campaign %s panic: %v" [AStr (cp_ID camp); AErr msg]) w
      | None =>
          match dispatch camp p w with
          | (Err e, w) => mark_failed p camp e w
          | (Ok _, w) => (true, None, w)
          end
      end
  end.

Definition RedispatchFromManifest (tenantID campaignID : string) : M W (list Recipient) :=
  camp ← wrapM "get campaign: %w" (GetCampaignSystem tenantID campaignID);
  let key := default "" (cp_ManifestKey camp) in
  if key =s "" then throw (errors_New "campaign manifest key is not set") else
  data ← wrapM "fetch manifest from blob store: %w" (Get blobStore key);
  manifest ← lift (wrapw "unmarshal manifest: %w" (read_manifest data));
  let recipients := fz_Recipients manifest in
  _ ← wrapM "save manifest and jobs: %w"
        (SaveCampaignManifestAndJobs (cp_ID camp) key (Z.of_nat (length recipients)) (fz_SegmentVersion manifest) (fz_TemplateVersion manifest)
           (fz_ConversionGoal manifest) (fz_AttributionWindow manifest) (shards camp recipients));
  mret recipients.

End code.
End CampaignDispatch.
