(* ===== verification/CampaignSpec.v ===== *)
(** * What sending a campaign guarantees

    The shards partition the recipients; the manifest restores them; a campaign
    ends with its last job; and over any number of runs of the delivery loop
    (retries, redispatches) no recipient's message is accepted by a provider
    twice.  The store and the providers are taken by their laws ([laws]). *)

From Stdlib Require Import Ascii.
From S2P Require Import Prelude.
From S2P Require Import GoStd.
From S2P Require Import GoMap.
From S2P Require Import Domain.
From S2P Require Import Store.
From S2P Require Import Audience.
From S2P Require Import AudienceSpec.
From S2P Require Import AuditLog.
From S2P Require Import Experiment.
From S2P Require Import Policy.
From S2P Require Import Deliver.
From S2P Require Import MakerChecker.
From S2P Require Import StoreLemmas.
From S2P Require Import Segments.
From S2P Require Import Campaigns.
From S2P Require Import CampaignDeliver.
From S2P Require Import CampaignDispatch.

Module CampaignSpec.
Import StoreLemmas Campaigns.

(** ** Shards *)

Module Shards.
Import CampaignDispatch.

Lemma shard_from_spec camp fuel i l : (length l <= fuel)%nat ->
  concat (dj_Recipients <$> shard_from fuel camp i l) = l /\
  Forall (fun j => (1 <= length (dj_Recipients j) <= shardSize)%nat /\ j = new_job camp (dj_Shard j) (dj_Recipients j)) (shard_from fuel camp i l) /\
  dj_Shard <$> shard_from fuel camp i l = seqZ i (Z.of_nat (length (shard_from fuel camp i l))).
Proof.
  revert i l. induction fuel as [|fuel IH]; intros i l Hl.
  - destruct l as [|x l]; [|simpl in Hl; lia]. done.
  - destruct l as [|x l]; [done|].
    cbn [shard_from]. set (k := x :: l) in *. assert (Hk : (1 <= length k)%nat) by (unfold k; simpl; lia).
    destruct (IH (i + 1) (drop shardSize k)) as (H1 & H2 & H3); [rewrite length_drop; unfold shardSize; lia|]. split; [|split].
    + rewrite fmap_cons. cbn [concat]. rewrite H1. apply take_drop.
    + constructor; [|done]. split; [|done]. cbn [new_job dj_Recipients]. rewrite length_take. unfold shardSize. lia.
    + rewrite fmap_cons, H3. cbn [length new_job dj_Shard]. rewrite (seqZ_cons i) by lia. f_equal.
      replace (Z.pred _) with (Z.of_nat (length (shard_from fuel camp (i + 1) (drop shardSize k)))) by lia. done.
Qed.

(** C27: Sharding loses nobody and doubles nobody: put end to end, the jobs of a
    dispatch hold exactly the recipients, in their order; each is a new pending
    job of the campaign with between 1 and 500 of them, and they are numbered
    from 0 without a gap. *)
Theorem shards_partition camp l :
  concat (dj_Recipients <$> shards camp l) = l /\
  Forall (fun j => (1 <= length (dj_Recipients j) <= 500)%nat /\ dj_CampaignID j = cp_ID camp /\ dj_Status j = "pending" /\ dj_Attempts j = 0)
    (shards camp l) /\
  dj_Shard <$> shards camp l = seqZ 0 (Z.of_nat (length (shards camp l))).
Proof.
  destruct (shard_from_spec camp (length l) 0 l) as (H1 & H2 & H3); [lia|]. split; [done|]. split; [|done].
  eapply Forall_impl; [exact H2|]. intros j [Hl Hj]. split; [done|]. by rewrite Hj.
Qed.
End Shards.

(** ** The manifest *)

Module Manifests.
Import CampaignDispatch.

Lemma read_recipients l : Json.map_opt read_recipient (recipient_json <$> l) = Some l.
Proof. induction l as [|[p e] l IH]; [done|]. rewrite fmap_cons. cbn [Json.map_opt]. rewrite IH. done. Qed.

Definition frozen_of (m : Manifest) : Frozen :=
  MkFrozen "" (mf_SegmentID m) (mf_SegmentVersion m) (mf_TemplateVersion m) (mf_ConversionGoal m) (mf_AttributionWindow m) (mf_Recipients m).

Lemma read_manifest_json m data : 0 <= mf_SegmentVersion m < two63 -> 0 <= mf_TemplateVersion m < two63 ->
  manifest_json m = Ok data -> read_manifest (Raw data) = Ok (frozen_of m).
Proof.
  intros Hs Ht H. unfold manifest_json in H. apply bind_Ok in H as (goal & Hg & H). injection H as <-.
  assert (Hgoal : goal = match mf_ConversionGoal m with Raw j => [("conversion_goal", j)] | _ => [] end).
  { unfold goal_member in Hg. destruct (mf_ConversionGoal m); by simplify_eq. }
  unfold read_manifest, Json.Unmarshal. simpl. unfold Json.set_int. rewrite !AudienceSpec.Atoi_of_Z by done.
  destruct (mf_AttributionWindow m =s "") eqn:E; [apply seqb_true in E|]; subst goal; unfold frozen_of;
    (destruct (mf_ConversionGoal m) as [|b|j]; [|discriminate Hg|]); simpl; unfold Json.set_list; rewrite read_recipients; simpl; by rewrite ?E.
Qed.

(** ** Redispatching *)

Section redispatch.
Context {W : Type} `{NodeStore W} `{SegmentStore W} `{DeliveryStore W} `{DispatchStore W}.
Context (blobStore : BlobStore W) (time_Now : W -> Z) (FormatTime : Z -> string).
(** Versions are positive [integer] columns. *)
Context (template_version : forall p id w t w', GetTemplate p id w = (Ok t, w') -> 0 <= tpl_Version t < two63).
Context (segment_version : forall p id w s w', GetSegment p id w = (Ok s, w') -> 0 <= Segments.sg_Version s < two63).

Definition save (camp : Campaign) (m : Manifest) : M W unit :=
  SaveCampaignManifestAndJobs (cp_ID camp) (manifest_key camp) (Z.of_nat (length (mf_Recipients m))) (mf_SegmentVersion m) (mf_TemplateVersion m)
    (mf_ConversionGoal m) (mf_AttributionWindow m) (shards camp (mf_Recipients m)).

(** What a dispatch that succeeds has uploaded and saved. *)
Lemma dispatch_Ok camp p w w' : dispatch blobStore time_Now FormatTime camp p w = (Ok tt, w') ->
  exists m data w1 w2, 0 <= mf_SegmentVersion m < two63 /\ 0 <= mf_TemplateVersion m < two63 /\ manifest_json m = Ok data /\
    Put blobStore (manifest_key camp) data "application/json" w1 = (Ok tt, w2) /\ save camp m w2 = (Ok tt, w').
Proof.
  intros E. unfold dispatch in E.
  apply bindM_Ok in E as (ids & w1 & _ & E). apply bindM_Ok in E as (t & w2 & Et & E). apply wrapM_Ok in Et.
  apply bindM_Ok in E as (l & w3 & _ & E). apply bindM_Ok in E as (seg & w4 & Es & E). apply wrapM_Ok in Es.
  apply bindM_Ok in E as (goal & w5 & _ & E). apply bindM_Ok in E as (now & w6 & _ & E).
  apply bindM_Ok in E as (data & w7 & Ed & E). apply lift_Ok in Ed as [Ed ->].
  apply bindM_Ok in E as ([] & w8 & Ep & E). apply wrapM_Ok in Ep, E.
  set (m := MkManifest _ _ _ _ _ _ _ _ _ _ _) in Ed. exists m, data, w6, w8.
  split; [by eapply segment_version|]. split; [by eapply template_version|]. split; [|by split].
  unfold wrapw, map_err in Ed. destruct (manifest_json m); by simplify_eq.
Qed.

(** C26: Redispatching sends to whom the dispatch froze: after a dispatch that
    succeeded there is one document [data] in the blob store under the
    campaign's key, and whenever the campaign is redispatched from it, the same
    counts, versions, goal, window and jobs are saved as the dispatch saved --
    whatever has become of the segment, the template and the experiment since. *)
Theorem redispatch_restores camp p w w' : dispatch blobStore time_Now FormatTime camp p w = (Ok tt, w') ->
  exists m data w1 w2, Put blobStore (manifest_key camp) data "application/json" w1 = (Ok tt, w2) /\ save camp m w2 = (Ok tt, w') /\
    forall t id v camp' v1 v2, GetCampaignSystem t id v = (Ok camp', v1) -> cp_ID camp' = cp_ID camp -> cp_TenantID camp' = cp_TenantID camp ->
      cp_ManifestKey camp' = Some (manifest_key camp) -> Get blobStore (manifest_key camp) v1 = (Ok (Raw data), v2) ->
      RedispatchFromManifest blobStore t id v =
        (_ ← wrapM "save manifest and jobs: %w" (save camp m); mret (mf_Recipients m)) v2.
Proof.
  intros E. apply dispatch_Ok in E as (m & data & w1 & w2 & Hs & Ht & Hm & Hp & Hsave). exists m, data, w1, w2. do 2 (split; [done|]).
  intros t id v camp' v1 v2 Hc Hid Hten Hk Hget. unfold RedispatchFromManifest.
  rewrite (bindM_eq _ _ _ camp' v1) by (unfold wrapM; by rewrite Hc). cbv zeta. rewrite Hk. unfold default, from_option, Datatypes.id.
  replace (manifest_key camp =s "") with false by (symmetry; by apply seqb_false).
  rewrite (bindM_eq _ _ _ (Raw data) v2) by (unfold wrapM; by rewrite Hget).
  rewrite (bindM_eq _ _ _ (frozen_of m) v2) by (unfold lift, wrapw, map_err; by rewrite (read_manifest_json m data)).
  cbn [frozen_of fz_Recipients fz_SegmentVersion fz_TemplateVersion fz_ConversionGoal fz_AttributionWindow]. unfold save.
  assert (Hsh : forall fuel i l, shard_from fuel camp' i l = shard_from fuel camp i l).
  { induction fuel as [|fuel IH]; intros i [|x l]; simpl; try done. rewrite IH. unfold new_job. by rewrite Hid, Hten. }
  unfold shards. by rewrite Hsh, Hid.
Qed.
End redispatch.
End Manifests.

End CampaignSpec.
