(* ===== verification/CampaignOnce.v ===== *)
(** * How often a campaign message is sent

    Over any number of runs of the loop body for a campaign -- retries after a
    transient failure, jobs claimed again, redispatched manifests, changed
    templates and experiments -- an adapter answers a message id at most once
    per recipient, channel and endpoint, and once more for every decision that
    could not be recorded.  The store is taken by its contract: a call on the
    campaign tables behaves as [Campaigns] says or fails, the other calls leave
    them alone. *)

From S2P Require Import Prelude.
From S2P Require Import GoStd.
From S2P Require Import GoMap.
From S2P Require Import Domain.
From S2P Require Import Experiment.
From S2P Require Import Store.
From S2P Require Import AuditLog.
From S2P Require Import MakerChecker.
From S2P Require Import Campaigns.
From S2P Require Import CampaignLife.
From S2P Require Import Segments.
From S2P Require Import Policy.
From S2P Require Import Deliver.
From S2P Require Import CampaignDeliver.
From S2P Require Import CampaignDispatch.
From S2P Require Import CampaignSpec.

Module CampaignOnce.
Import Campaigns CampaignDeliver.

(** A message as a provider sees it. *)
Definition sent_as : Type := string * string * string.
Definition message_of (m : Deliver.RenderedMessage) : sent_as := (Deliver.rm_IdempotencyKey m, Deliver.rm_Channel m, Deliver.rm_Endpoint m).

(** What a policy verdict can be. *)
Lemma policy_decisions {W} `{PolicyStore W} now p r caps (w : W) :
  Policy.vd_Decision (Policy.Evaluate now p r caps w).1 ∈ ["sent"; "suppressed"; "no_consent"; "fatigued"; "send_failed"].
Proof.
  unfold Policy.Evaluate, Policy.fatigue. repeat (split_match; simpl; try set_solver).
Qed.

(** *** What the attempts' table answers *)

Lemma create_cases att d r d' : Campaigns.CreateDeliveryAttempt att d = (r, d') ->
  ((exists e, r = Err e) /\ d' = d) \/ (r = Ok false /\ d' = d /\ is_Some (cm_attempts d !! key_of att)) \/
  (r = Ok true /\ cm_attempts d !! key_of att = None /\
   exists x, cm_attempts d' = <[key_of att := x]> (cm_attempts d) /\ key_of x = key_of att /\ da_Decision x = da_Decision att).
Proof.
  unfold Campaigns.CreateDeliveryAttempt. destruct (da_TenantID att =s ""); [intros [= <- <-]; left; eauto|].
  destruct (snapshot_column _); [|intros [= <- <-]; left; eauto]. destruct (negb _); [intros [= <- <-]; left; eauto|].
  destruct (cm_attempts d !! key_of att) eqn:E; [intros [= <- <-]; right; left; split; [done|split; [done|by eexists]]|].
  destruct (cm_campaigns d !! _); [|intros [= <- <-]; left; split; [by eexists|done]]. intros [= <- <-]. right; right. do 2 (split; [done|]). by eexists.
Qed.
Lemma stamp_cases uuid_ok t c p ch e v d r d' : Campaigns.SetDeliveryAttemptExperiment uuid_ok t c p ch e v d = (r, d') ->
  ((exists x, r = Err x) /\ d' = d) \/
  (r = Ok tt /\ exists g, cm_attempts d' = g <$> cm_attempts d /\ forall a, da_Decision (g a) = da_Decision a /\ key_of (g a) = key_of a).
Proof.
  unfold Campaigns.SetDeliveryAttemptExperiment. destruct (negb (uuid_ok e)); [intros [= <- <-]; left; eauto|].
  destruct (negb _); [intros [= <- <-]; left; eauto|]. intros [= <- <-]. right. split; [done|].
  eexists. split; [reflexivity|]. intros a. cbv beta. by destruct (on_channel t c p ch a).
Qed.

Section once.
Context {W : Type} `{NodeStore W} `{PolicyStore W} `{DeliveryStore W} `{CampaignStore W} `{CampaignEnv W}.
(** [taken] are the messages for which an adapter has answered a message id,
    [lost] those of which a decision was to be recorded and was not: the
    database refused, or the worker was gone (from then on every call fails and
    does nothing). *)
Context (uuid_ok : string -> bool) (tables : W -> CMDB) (taken lost : W -> list sent_as).

Definition same (w w' : W) : Prop := tables w' = tables w /\ taken w' = taken w /\ lost w' = lost w.
(** A call that leaves all three alone, one that fails and does, one that acts
    on the tables as [n], and an adapter. *)
Definition outside {A} (m : M W A) : Prop := forall w, same w (m w).2.
Definition fails_at {A} (m : M W A) (w : W) : Prop := (exists e, (m w).1 = Err e) /\ same w (m w).2.
Definition acts_at {A} (m : M W A) (n : M CMDB A) (w : W) : Prop :=
  (m w).1 = (n (tables w)).1 /\ tables (m w).2 = (n (tables w)).2 /\ taken (m w).2 = taken w /\ lost (m w).2 = lost w.
Definition acts {A} (m : M W A) (n : M CMDB A) : Prop := forall w, acts_at m n w \/ fails_at m w.
Definition takes (a : Deliver.Adapter W) : Prop := forall msg w, tables (a msg w).2 = tables w /\ lost (a msg w).2 = lost w /\
  taken (a msg w).2 = match (a msg w).1 with Ok _ => taken w ++ [message_of msg] | Err _ => taken w end.
Definition sent_of (c prof channel endpoint : string) : sent_as := ("sent-" +:+ c +:+ "-" +:+ prof, channel, endpoint).
(** A decision is recorded as the tables do, or lost. *)
Definition records {A} (m : M W A) (n : M CMDB A) (k : sent_as) : Prop := forall w, acts_at m n w \/
  tables (m w).2 = tables w /\ taken (m w).2 = taken w /\ lost (m w).2 = lost w ++ [k].

Record laws : Prop := {
  l_template : forall p i, outside (GetTemplate p i);
  l_assign : forall p e i v, outside (AssignExperiment p e i v);
  l_tokens : forall t ws i, outside (ListActiveDeviceTokens t ws i);
  l_identities : forall p, outside (ListSendingIdentities p);
  l_identity : forall p i, outside (GetSendingIdentity p i);
  l_profile : forall t a i, outside (GetProfileByID t a i);
  l_suppressed : forall p c e, outside (IsSuppressed p c e);
  l_consent : forall p i c t, outside (LatestConsent p i c t);
  l_count : forall p i s, outside (SentCountSince p i s);
  l_render : forall p t v, outside (RenderWithContext p t v);
  l_links : forall h t a c i m k s b, outside (RewriteLinks h t a c i m k s b);
  l_app : forall t ws, outside (Store.GetFirstAppID t ws);
  l_retire : forall t a e, outside (RetireDeviceToken t a e);
  l_accept : forall p l, outside (AcceptEvents p l);
  l_create : forall a, acts (CampaignDeliver.CreateDeliveryAttempt a) (Campaigns.CreateDeliveryAttempt a);
  l_get : forall c p ch e, acts (CampaignDeliver.GetDeliveryAttempt c p ch e) (MakerChecker.reads (Campaigns.GetDeliveryAttempt c p ch e));
  l_update : forall c p ch e d r m s k,
    records (CampaignDeliver.UpdateDeliveryAttempt c p ch e d r m s k) (Campaigns.UpdateDeliveryAttempt c p ch e d r m s k) (sent_of c p ch e);
  l_stamp : forall t c p ch e v,
    acts (CampaignDeliver.SetDeliveryAttemptExperiment t c p ch e v) (Campaigns.SetDeliveryAttemptExperiment uuid_ok t c p ch e v)
}.
Context (Hlaws : laws).
Context (cid : string).

(** Decisions after which a run would send. *)
Definition sendable : list string := ["processing"; "retryable_failed"].
Definition sent_for : string -> string -> string -> sent_as := sent_of cid.
Definition times (k : sent_as) (l : list sent_as) : Z := countb (fun x => bool_decide (x = k)) l.
Definition row (prof channel endpoint : string) (w : W) : option DeliveryAttempt := cm_attempts (tables w) !! attempt_key cid prof channel endpoint.
(** Rows sit under their own key. *)
Definition keyed (w : W) : Prop := forall k a, cm_attempts (tables w) !! k = Some a -> key_of a = k.
(** A message was taken as often as a decision on it was lost, or once more
    and its row says so. *)
Definition paid (k : sent_as) (w : W) : Prop := times k (taken w) <= times k (lost w).
Definition told (k : sent_as) (w : W) : Prop := times k (taken w) <= times k (lost w) + 1 /\
  exists prof channel endpoint a, k = sent_for prof channel endpoint /\ row prof channel endpoint w = Some a /\ da_Decision a ∉ sendable.
Definition inv (w : W) : Prop := keyed w /\ forall k, paid k w \/ told k w.

(** Another world with the same attempts, messages and losses. *)
Lemma accounts_ext w w' : cm_attempts (tables w') = cm_attempts (tables w) -> taken w' = taken w -> lost w' = lost w -> inv w -> inv w'.
Proof. unfold inv, keyed, paid, told, row. by intros -> -> ->. Qed.
Lemma inv_same w w' : same w w' -> inv w -> inv w'.
Proof. intros (E & ? & ?). apply accounts_ext; [by rewrite E|done|done]. Qed.

Lemma times_nonneg k l : 0 <= times k l.
Proof. unfold times. induction l; simpl; [lia | case_match; lia]. Qed.
Lemma times_app k l l' : times k (l ++ l') = times k l + times k l'.
Proof. apply countb_app. Qed.
Lemma times_one k k' : times k [k'] = if decide (k' = k) then 1 else 0.
Proof. unfold times. simpl. case_decide; [rewrite bool_decide_true | rewrite bool_decide_false]; done || lia. Qed.

(** ** Triples over the loop body *)

(** From [P], a computation that goes on establishes [Q]; leaving, it keeps the
    invariant. *)
Definition triple {A} (P : W -> Prop) (m : L W A) (Q : A -> W -> Prop) : Prop :=
  forall w, P w -> match m w with (inl a, w') => Q a w' | (inr _, w') => inv w' end.

Lemma t_bind {A B} P (m : L W A) (f : A -> L W B) Q R : triple P m Q -> (forall a, triple (Q a) (f a) R) -> triple P (m ≫= f) R.
Proof. intros Hm Hf w Hw. specialize (Hm w Hw). unfold mbind, L_bind. destruct (m w) as [[a|x] w1]; [by apply Hf|done]. Qed.
Lemma t_ret {A} (P : W -> Prop) (a : A) (Q : A -> W -> Prop) : (forall w, P w -> Q a w) -> triple P (mret a) Q.
Proof. intros HQ w Hw. by apply HQ. Qed.
Lemma t_weak {A} (P P' : W -> Prop) (m : L W A) Q Q' : triple P' m Q' -> (forall w, P w -> P' w) -> (forall a w, Q' a w -> Q a w) -> triple P m Q.
Proof. intros Hm HP HQ w Hw. specialize (Hm w (HP w Hw)). destruct (m w) as [[a|x] w1]; [by apply HQ|done]. Qed.
(** Propositions on the tables and the record only. *)
Definition local (P : W -> Prop) : Prop := forall w w', same w w' -> P w -> P w'.
Definition keeps (P : W -> Prop) : Prop := local P /\ (forall w, P w -> inv w).

Lemma t_call {A} P (m : M W A) : local P -> outside m -> triple P (call m) (fun _ => P).
Proof. intros HP Hm w Hw. unfold call. specialize (Hm w). destruct (m w) as [r w1]. by apply (HP w). Qed.
Lemma t_or_continue {A} P (m : M W A) : keeps P -> outside m -> triple P (or_continue m) (fun _ => P).
Proof.
  intros [HP HI] Hm w Hw. unfold or_continue. specialize (Hm w). destruct (m w) as [[a|e] w1]; [by apply (HP w)|].
  apply (inv_same w); [done|by apply HI].
Qed.

(** *** Writing a decision *)

Lemma snapshot_ok (s : RawMessage) : (forall t, s <> RawBad t) -> exists s', snapshot_column s = Ok s'.
Proof. intros Hs. unfold snapshot_column, MakerChecker.jsonb_column. destruct s as [|t|j]; [by eexists|by destruct (Hs t)|by eexists]. Qed.

Section recipient.
Context (camp : Campaign) (Hcamp : cp_ID camp = cid) (rec : Recipient) (template : Template).
Definition mine : sent_as := sent_for (rc_ProfileID rec) (tpl_Channel template) (rc_Endpoint rec).
Definition my_row (w : W) : option DeliveryAttempt := row (rc_ProfileID rec) (tpl_Channel template) (rc_Endpoint rec) w.

Lemma sent_for_inj a b c a' b' c' : sent_for a b c = sent_for a' b' c' -> a = a' /\ b = b' /\ c = c'.
Proof.
  unfold sent_for, sent_of. intros E. pose proof (f_equal (fun k => k.1.1) E) as E1. pose proof (f_equal (fun k => k.1.2) E) as E2.
  pose proof (f_equal (fun k => k.2) E) as E3. cbn [fst snd] in E1, E2, E3. split; [|done].
  assert (Happ : forall s t u, s +:+ t = s +:+ u -> t = u).
  { induction s as [|x s IH]; intros t u Es; [done|]. apply IH. change (String x (s +:+ t) = String x (s +:+ u)) in Es. congruence. }
  exact (Happ "-" _ _ (Happ cid _ _ (Happ "sent-" _ _ E1))).
Qed.

(** What recording does to the world: the decision is written into the row, or
    lost. *)
Lemma record_spec decision reason msgID snapshot cost w : mem decision decisions = true -> (forall t, snapshot <> RawBad t) -> keyed w ->
  match record camp rec template decision reason msgID snapshot cost w with
  | (inl _, w') => taken w' = taken w /\ keyed w' /\
      (forall a b c, ~ (a = rc_ProfileID rec /\ b = tpl_Channel template /\ c = rc_Endpoint rec) -> row a b c w' = row a b c w) /\
      (lost w' = lost w /\
       my_row w' = (fun a => decided decision reason msgID (match snapshot_column snapshot with Ok s => s | Err _ => RawEmpty end) cost a) <$> my_row w \/
       lost w' = lost w ++ [mine] /\ my_row w' = my_row w)
  | (inr _, _) => False
  end.
Proof.
  intros Hd Hs Hk. unfold record, call.
  destruct (l_update Hlaws (cp_ID camp) (rc_ProfileID rec) (tpl_Channel template) (rc_Endpoint rec) decision reason msgID snapshot cost w) as [(_ & Ht & Hl & Ho)|(Ht & Hl & Ho)];
  destruct (CampaignDeliver.UpdateDeliveryAttempt _ _ _ _ _ _ _ _ _ w) as [r w'] eqn:E; simpl in *; (split; [done|]); unfold keyed, my_row, row; rewrite Ht.
  2:{ split; [done|]. split; [done|]. right. split; [|done]. rewrite Ho. unfold mine, sent_for. by rewrite Hcamp. }
  unfold Campaigns.UpdateDeliveryAttempt. rewrite Hcamp. destruct (snapshot_ok snapshot Hs) as (s & ->).
  set (K := attempt_key _ _ _ _). destruct (cm_attempts (tables w) !! K) as [a|] eqn:Ea; simpl; [|rewrite Ea; auto].
  rewrite Hd. simpl. split; [|split].
  - intros k x [(<- & <-)|[_ Hx]]%lookup_insert_Some; [by apply (Hk K a Ea)|by apply Hk].
  - intros x y z Hne. rewrite lookup_insert_ne; [done|]. intros Heq. apply Hne. unfold K, attempt_key in Heq. by injection Heq as -> -> ->.
  - left. split; [done|]. by rewrite lookup_insert_eq.
Qed.

Lemma record_inv decision reason msgID snapshot cost w : mem decision decisions = true -> (forall t, snapshot <> RawBad t) ->
  (decision ∉ sendable \/ paid mine w) -> inv w ->
  match record camp rec template decision reason msgID snapshot cost w with (inl _, w') => inv w' | (inr _, _) => False end.
Proof.
  intros Hd Hs Hn [Hk Ht]. pose proof (record_spec decision reason msgID snapshot cost w Hd Hs Hk) as Hr.
  destruct (record camp rec template decision reason msgID snapshot cost w) as [[u|x] w']; [|done].
  destruct Hr as (Htk & Hk' & Hrow & Hmy). split; [done|]. intros k. unfold paid, told. rewrite Htk.
  assert (Hle : times k (lost w) <= times k (lost w')).
  { destruct Hmy as [[-> _]|[-> _]]; [lia|]. rewrite times_app. pose proof (times_nonneg k [mine]). lia. }
  destruct (Ht k) as [Hp|(Hp & a & b & c & x & -> & Hx & Hdx)]; [left; unfold paid in Hp; lia|].
  destruct (decide (a = rc_ProfileID rec /\ b = tpl_Channel template /\ c = rc_Endpoint rec)) as [(-> & -> & ->)|Hne].
  2:{ right. split; [lia|]. exists a, b, c, x. by rewrite Hrow. }
  fold (my_row w) in Hx. fold mine in Hp |- *. destruct Hmy as [[El Hm]|[El Hm]].
  - destruct Hn as [Hn|Hn]; [right | left; unfold paid in Hn; by rewrite El]. split; [by rewrite El|].
    do 4 eexists. split; [reflexivity|]. fold (my_row w'). rewrite Hm, Hx. split; [reflexivity|]. done.
  - left. rewrite El, times_app, times_one. case_decide; [lia|done].
Qed.

Lemma settle_triple {A} decision reason P (Q : A -> W -> Prop) : mem decision decisions = true -> decision ∉ sendable -> (forall w, P w -> inv w) ->
  triple P (settle camp rec template decision reason) Q.
Proof.
  intros Hd Hn HP w Hw. unfold settle, mbind, L_bind.
  pose proof (record_inv decision reason "" RawEmpty 0 w Hd ltac:(done) (or_introl Hn) (HP w Hw)) as Hr.
  by destruct (record _ _ _ _ _ _ _ _ w) as [[u|x] w1].
Qed.

(** ** The stages *)

(** The attempt is open: it has a row, and its message has to be sent yet
    unless the row says so. *)
Definition opened (attempt : DeliveryAttempt) (w : W) : Prop :=
  inv w /\ is_Some (my_row w) /\ (da_Decision attempt = "provider_sent" \/ paid mine w).

Lemma inv_keeps : keeps inv.
Proof. split; [by intros w w' ?; apply inv_same|done]. Qed.
Lemma opened_keeps attempt : keeps (opened attempt).
Proof.
  split; [|by intros w [? _]]. intros w w' Hs (Hi & Hr & Hn). split; [by apply (inv_same w)|]. destruct Hs as (Ht & Hk & Hl).
  unfold opened, my_row, row, paid in *. by rewrite Ht, Hk, Hl.
Qed.

Lemma taken_row w : inv w -> paid mine w \/ exists a, my_row w = Some a /\ da_Decision a ∉ sendable.
Proof.
  intros [_ Ht]. destruct (Ht mine) as [|(_ & a & b & c & x & E & Hx & Hd)]; [by left|right]. apply sent_for_inj in E as (<- & <- & <-). by exists x.
Qed.

Lemma open_triple variant : triple inv (open_attempt camp rec template variant) opened.
Proof.
  intros w Hw. pose proof Hw as (Hk & Htk). unfold open_attempt. set (att := new_attempt camp rec template variant).
  assert (Hkey : key_of att = attempt_key cid (rc_ProfileID rec) (tpl_Channel template) (rc_Endpoint rec)) by (by rewrite <- Hcamp).
  unfold mbind at 1, L_bind at 1, or_continue at 1.
  destruct (l_create Hlaws att w) as [(Hr & Ht & Hl & Ho)|[[e He] Hsame]]; destruct (CampaignDeliver.CreateDeliveryAttempt att w) as [r w1]; cbn [fst snd] in *.
  2:{ subst r. by apply (inv_same w). }
  destruct (Campaigns.CreateDeliveryAttempt att (tables w)) as [r' d1] eqn:En. cbn [fst snd] in Hr, Ht. subst r' d1.
  apply create_cases in En as [[[e ->] Hd]|[(-> & Hd & [old Hold])|(-> & Hnone & x & Hx & Hxk & Hxd)]]; [by apply (inv_same w)| |].
  - assert (Hi1 : inv w1) by (by apply (inv_same w)). assert (Hrow : my_row w1 = Some old) by (unfold my_row, row; by rewrite Hd, <- Hkey).
    unfold mbind at 1, L_bind at 1, or_continue at 1. rewrite Hcamp.
    destruct (l_get Hlaws cid (rc_ProfileID rec) (tpl_Channel template) (rc_Endpoint rec) w1) as [(Hr2 & Ht2 & Hl2 & Ho2)|[[e He] Hsame]];
      destruct (CampaignDeliver.GetDeliveryAttempt _ _ _ _ w1) as [r w2]; cbn [fst snd] in *; subst r; [|by apply (inv_same w1)].
    assert (Hi2 : inv w2) by (by apply (inv_same w1)). assert (Hrow2 : my_row w2 = Some old) by (unfold my_row, row in *; by rewrite Ht2).
    unfold MakerChecker.reads, Campaigns.GetDeliveryAttempt. cbn [fst]. unfold my_row, row in Hrow. rewrite Hrow.
    destruct (mem (da_Decision old) terminal); [done|]. destruct (mem (da_Decision old) intermediate) eqn:Em; [|done].
    split; [done|]. split; [by exists old|]. destruct (decide (da_Decision old = "provider_sent")) as [|Hne]; [by left|]. right.
    destruct (taken_row w2 Hi2) as [|(y & Hy & Hyd)]; [done|]. rewrite Hrow2 in Hy. injection Hy as <-. exfalso. apply Hyd.
    apply mem_In in Em. apply list_elem_of_In in Em. unfold intermediate, sendable in *. set_solver.
  - assert (Hno : paid mine w).
    { destruct (taken_row w Hw) as [|(y & Hy & _)]; [done|]. unfold my_row, row in Hy. rewrite Hkey in Hnone. congruence. }
    rewrite Hkey in Hx. simpl. split; [|split].
    + split.
      * intros k y. rewrite Hx. intros [(<- & <-)|[_ Hy]]%lookup_insert_Some; [by rewrite Hxk|by apply Hk].
      * intros k. unfold paid, told. rewrite Hl, Ho. destruct (Htk k) as [|(Hp & a & b & c' & y & -> & Hy & Hd)]; [by left|].
        destruct (decide (sent_for a b c' = mine)) as [->|Hne]; [by left|]. right. split; [done|]. exists a, b, c', y. split; [done|]. split; [|done].
        unfold row. rewrite Hx, lookup_insert_ne; [done|]. intros E. apply Hne. unfold attempt_key in E. injection E as E1 E2 E3.
        unfold mine. by rewrite E1, E2, E3.
    + unfold my_row, row. rewrite Hx, lookup_insert_eq. by eexists.
    + right. unfold paid. by rewrite Hl, Ho.
Qed.

Lemma stamp_triple variant attempt : triple (opened attempt) (stamp_experiment camp rec template variant) (fun _ => opened attempt).
Proof.
  unfold stamp_experiment. destruct (bound camp) as [e|]; [|by apply t_ret]. eapply t_bind with (Q := fun _ => opened attempt).
  - intros w Hw. pose proof Hw as (Hi & Hr & Hn). unfold or_continue.
    destruct (l_stamp Hlaws (cp_TenantID camp) (cp_ID camp) (rc_ProfileID rec) (tpl_Channel template) e variant w) as [(Hx & Ht & Hl & Ho)|[[er He] Hsame]];
      destruct (CampaignDeliver.SetDeliveryAttemptExperiment _ _ _ _ _ _ w) as [r w1]; cbn [fst snd] in *; [|subst r; by apply (inv_same w)].
    destruct (Campaigns.SetDeliveryAttemptExperiment _ _ _ _ _ _ _ _) as [r' d1] eqn:En. cbn [fst snd] in Hx, Ht. subst r' d1.
    apply stamp_cases in En as [[[x ->] Hd]|[-> (g & Hx & Hg)]]; [by apply (inv_same w)|].
    assert (Hrow : forall x y z, row x y z w1 = g <$> row x y z w) by (intros x y z; unfold row; by rewrite Hx, lookup_fmap).
    destruct Hi as (Hk & Htk). split; [|split].
    + split.
      * intros k a. rewrite Hx, lookup_fmap. destruct (_ !! k) as [a0|] eqn:E; [|done]. intros [= <-]. destruct (Hg a0) as [_ ->]. by apply Hk.
      * intros k. unfold paid, told. rewrite Hl, Ho. destruct (Htk k) as [|(Hp & a & b & c & y & -> & Hxr & Hd)]; [by left|right].
        split; [done|]. exists a, b, c, (g y). split; [done|]. rewrite Hrow, Hxr. split; [done|]. by destruct (Hg y) as [-> _].
    + unfold my_row. rewrite Hrow. by apply fmap_is_Some.
    + unfold paid. by rewrite Hl, Ho.
  - intros _. destruct (variant =s "holdout"); [|by apply t_ret]. apply settle_triple; [done|set_solver|by intros w [? _]].
Qed.

Lemma evaluate_same now p r caps w : same w (Policy.Evaluate now p r caps w).2.
Proof.
  assert (Ht : forall w1 w2 w3, same w1 w2 -> same w2 w3 -> same w1 w3) by (intros w1 w2 w3 (E1 & E2 & E5) (E3 & E4 & E6); repeat split; congruence).
  assert (Hf : forall p r cap since a b c d sn w, same w (Policy.fatigue p r cap since a b c d sn w).2).
  { intros. unfold Policy.fatigue. destruct (0 <? cap); [|done]. pose proof (l_count Hlaws p0 (Policy.rc_ProfileID r0) since w0) as Hc.
    destruct (SentCountSince _ _ _ w0) as [[n|e] w1]; [by destruct (cap <=? n)|done]. }
  unfold Policy.Evaluate. pose proof (l_suppressed Hlaws p (Policy.cp_Channel caps) (Policy.rc_Endpoint r) w) as K1.
  destruct (IsSuppressed _ _ _ w) as [[[]|e] w1]; [done| |done].
  match goal with |- context [LatestConsent ?p ?i ?c ?t w1] => pose proof (l_consent Hlaws p i c t w1) as K2; destruct (LatestConsent p i c t w1) as [[x|e] w2] end.
  2:{ eapply Ht; [exact K1|]. by destruct (is_ErrNotFound e). }
  assert (K12 : same w w2) by (by eapply Ht). destruct (negb _); [done|].
  match goal with |- context [Policy.fatigue ?p ?r ?c ?s ?a ?b ?d ?f ?sn w2] => pose proof (Hf p r c s a b d f sn w2) as K3;
    destruct (Policy.fatigue p r c s a b d f sn w2) as [[v|sn'] w3] end; [by eapply Ht|]. assert (K123 : same w w3) by (by eapply Ht).
  match goal with |- context [Policy.fatigue ?p ?r ?c ?s ?a ?b ?d ?f ?sn w3] => pose proof (Hf p r c s a b d f sn w3) as K4;
    destruct (Policy.fatigue p r c s a b d f sn w3) as [[v|sn''] w4] end; by eapply Ht.
Qed.

Lemma policy_triple p caps prof attempt :
  triple (opened attempt) (check_policy p camp rec template caps prof) (fun s w => (forall t, s <> RawBad t) /\ opened attempt w).
Proof.
  intros w Hw. unfold check_policy. unfold mbind at 1, L_bind at 1, run.
  set (r := Policy.MkRecipient _ _ _). pose proof (evaluate_same (time_Now w) p r caps w) as Hs. pose proof (policy_decisions (time_Now w) p r caps w) as Hd.
  destruct (Policy.Evaluate (time_Now w) p r caps w) as [v w1]. simpl in Hs, Hd. assert (K1 : opened attempt w1) by (by apply (proj1 (opened_keeps attempt) w)).
  assert (Hraw : forall t, snapshot_of v <> RawBad t) by (unfold snapshot_of; by destruct (Policy.vd_Snapshot v)).
  cbv zeta. destruct (Policy.vd_Decision v =s "sent") eqn:E; [by split|]. apply seqb_false in E.
  unfold mbind, L_bind.
  assert (Hdd : mem (Policy.vd_Decision v) decisions = true /\ Policy.vd_Decision v ∉ sendable).
  { repeat (apply elem_of_cons in Hd as [->|Hd]; [first [done|by split; [|set_solver]]|]). by apply elem_of_nil in Hd. }
  pose proof (record_inv (Policy.vd_Decision v) (Policy.vd_Reason v) "" (snapshot_of v) 0 w1 (proj1 Hdd) Hraw (or_introl (proj2 Hdd)) (proj1 K1)) as Hr.
  by destruct (record _ _ _ _ _ _ _ _ w1) as [[u|x] w2].
Qed.

Lemma render_triple p vars part dflt attempt :
  triple (opened attempt) (render_part p camp rec template vars part dflt) (fun _ => opened attempt).
Proof.
  unfold render_part. destruct part as [t|]; [|by apply t_ret]. destruct (t =s ""); [by apply t_ret|].
  eapply t_bind; [apply t_call; [apply opened_keeps|apply (l_render Hlaws)]|]. intros [x|e]; [by apply t_ret|].
  apply settle_triple; [done|set_solver|by intros w [? _]].
Qed.

Lemma compose_triple cfg p identity prof attempt :
  triple (opened attempt) (compose cfg p camp rec template identity prof) (fun m w => message_of m = mine /\ opened attempt w).
Proof.
  unfold compose. do 4 (eapply t_bind; [apply render_triple|intros ?]).
  eapply t_bind with (Q := fun _ => opened attempt).
  - unfold track. destruct (_ || _); [by apply t_ret|]. eapply t_bind; [apply t_call; [apply opened_keeps|apply (l_links Hlaws)]|]. intros r. by apply t_ret.
  - intros h. apply t_ret. intros w Hw. split; [|done]. unfold message_of, mine, sent_for, sent_of, sent_key. simpl. by rewrite Hcamp.
Qed.

Lemma failed_triple {A} attempt e (Q : A -> W -> Prop) : da_Decision attempt <> "provider_sent" ->
  triple (opened attempt) (send_failed camp rec template e) Q.
Proof.
  intros Hne. unfold send_failed. destruct (Deliver.IsInvalidTokenError e).
  - eapply t_bind; [apply t_call; [apply opened_keeps|apply (l_app Hlaws)]|]. intros app.
    eapply t_bind; [apply t_call; [apply opened_keeps|apply (l_retire Hlaws)]|]. intros r. apply settle_triple; [done|set_solver|by intros v [? _]].
  - destruct (Deliver.IsRetryableError e); [|apply settle_triple; [done|set_solver|by intros v [? _]]]. intros v Hv. unfold mbind, L_bind.
    destruct Hv as (Hvi & _ & [?|Hvn]); [done|].
    pose proof (record_inv "retryable_failed" (Errorf "transient send error: %v" [AErr e]) "" RawEmpty 0 v eq_refl ltac:(done) (or_intror Hvn) Hvi) as Hr.
    by destruct (record _ _ _ _ _ _ _ _ v) as [[u|x] v1].
Qed.

Lemma send_triple adapter attempt snapshot msg : takes adapter -> message_of msg = mine -> (forall t, snapshot <> RawBad t) ->
  triple (opened attempt) (send adapter camp rec template attempt snapshot msg) (fun _ => inv).
Proof.
  intros Ha Hm Hs w Hw. pose proof Hw as (Hi & Hrow & Hn). unfold send. destruct (da_Decision attempt =s "provider_sent") eqn:Ep; [done|].
  apply seqb_false in Ep. destruct Hn as [?|Hn]; [done|]. unfold mbind at 1, L_bind at 1, call at 1.
  destruct (Ha msg w) as (Ht & Ho & Hk). destruct (adapter msg w) as [[[id cost]|e] w1]; simpl in Ht, Ho, Hk.
  - rewrite Hm in Hk. unfold mbind, L_bind. destruct Hi as (Hky & Htk).
    assert (Hky1 : keyed w1) by (unfold keyed in *; by rewrite Ht).
    pose proof (record_spec "provider_sent" (lit "eligible") id snapshot cost w1 eq_refl Hs Hky1) as Hr.
    destruct (record _ _ _ _ _ _ _ _ w1) as [[u|x] w2]; [|done]. destruct Hr as (Hk2 & Hky2 & Hoth & Hmy). simpl.
    assert (Hrow1 : forall a b c, row a b c w1 = row a b c w) by (intros; unfold row; by rewrite Ht).
    split; [done|]. intros k. unfold paid, told. rewrite Hk2, Hk, times_app, times_one. rewrite Ho in Hmy. unfold paid in Hn.
    destruct (decide (mine = k)) as [<-|Hne].
    + destruct Hrow as [x Hx]. unfold my_row in *. rewrite Hrow1, Hx in Hmy. destruct Hmy as [[-> Hmy]|[-> Hmy]].
      * right. split; [lia|]. do 4 eexists. split; [reflexivity|]. split; [exact Hmy|]. simpl. set_solver.
      * left. rewrite times_app, times_one, decide_True by done. lia.
    + rewrite Z.add_0_r. assert (El : times k (lost w2) = times k (lost w)).
      { destruct Hmy as [[-> _]|[-> _]]; [done|]. rewrite times_app, times_one, decide_False by done. lia. }
      rewrite El. destruct (Htk k) as [|(Hp & a & b & c & x & -> & Hx & Hd)]; [by left|right]. split; [done|].
      exists a, b, c, x. split; [done|]. split; [|done]. rewrite Hoth, Hrow1; [done|]. intros (-> & -> & ->). by apply Hne.
  - assert (Hw1 : opened attempt w1) by (apply (proj1 (opened_keeps attempt) w); [by repeat split|done]). by apply (failed_triple attempt e (fun _ => inv)).
Qed.
End recipient.

Lemma select_triple p camp exp rec base : triple inv (select_variant p camp exp rec base) (fun _ => inv).
Proof.
  unfold select_variant. destruct (bound camp); [|by apply t_ret]. cbv zeta.
  eapply t_bind; [apply t_or_continue; [apply inv_keeps|apply (l_assign Hlaws)]|]. intros stored.
  eapply t_bind with (Q := fun _ => inv); [|intros t; by apply t_ret]. unfold variant_template. destruct (find_first _ _); [|by apply t_ret].
  apply t_or_continue; [apply inv_keeps|apply (l_template Hlaws)].
Qed.
Lemma identity_triple p camp rec template : triple inv (sending_identity p camp rec template) (fun _ => inv).
Proof.
  unfold sending_identity. destruct (_ =s "push").
  - eapply t_bind; [apply t_or_continue; [apply inv_keeps|apply (l_tokens Hlaws)]|]. intros l. destruct (find_first _ _) as [t|]; [|by intros w Hw].
    eapply t_bind; [apply t_call; [apply inv_keeps|apply (l_identities Hlaws)]|]. intros r. by apply t_ret.
  - destruct (_ =s "in_app"); [by apply t_ret|]. destruct (tpl_SendingIdentityID template) as [i|]; [|by apply t_ret].
    destruct (i =s ""); [by apply t_ret|]. apply t_or_continue; [apply inv_keeps|apply (l_identity Hlaws)].
Qed.

(** Every adapter the configuration can answer takes messages lawfully. *)
Definition lawful (cfg : Config W) : Prop := forall provider, takes (adapterFor provider cfg).

Lemma one_triple cfg p camp base exp quotas rec : lawful cfg -> cp_ID camp = cid ->
  triple inv (deliver_one cfg p camp base exp quotas rec) (fun _ => inv).
Proof.
  intros Hcfg Hc. unfold deliver_one. eapply t_bind; [apply select_triple|]. intros [variant template]. cbv zeta.
  eapply t_bind; [apply identity_triple|]. intros identity. eapply t_bind; [by apply (open_triple camp Hc rec template)|]. intros attempt.
  eapply t_bind; [by apply (stamp_triple camp Hc)|]. intros []. eapply t_bind; [apply t_call; [by apply opened_keeps|apply (l_profile Hlaws)]|].
  intros [prof|e]; [|apply (settle_triple camp Hc); [done|set_solver|by intros w [? _]]].
  eapply t_bind; [by apply (policy_triple camp Hc)|]. intros snapshot.
  eapply t_bind with (Q := fun m w => (forall t, snapshot <> RawBad t) /\ message_of m = mine rec template /\ opened rec template attempt w).
  - intros w [Hs Hw]. pose proof (compose_triple camp Hc rec template cfg p identity prof attempt w Hw) as Ht.
    destruct (compose cfg p camp rec template identity prof w) as [[m|x] w1]; [|done]. by destruct Ht.
  - intros msg. eapply t_bind with (Q := fun _ w => (forall t, snapshot <> RawBad t) /\ inv w).
    + intros w (Hs & Hm & Hw). pose proof (send_triple camp Hc rec template _ attempt snapshot msg (Hcfg (si_Provider identity)) Hm Hs w Hw) as Ht.
      destruct (send _ _ _ _ _ _ _ w) as [[r|x] w1]; [by split|done].
    + intros sent. eapply t_bind with (Q := fun _ w => (forall t, snapshot <> RawBad t) /\ inv w); [by intros w Hw|]. intros now.
      eapply t_bind with (Q := fun _ w => (forall t, snapshot <> RawBad t) /\ inv w).
      * apply t_or_continue; [|apply (l_accept Hlaws)]. split; [|by intros w [_ ?]]. intros w w' Hsame [? ?]. split; [done|]. by apply (inv_same w).
      * intros _ w [Hs Hw]. unfold mbind, L_bind.
        pose proof (record_inv camp Hc rec template "sent" (lit "eligible") sent.1 snapshot sent.2 w eq_refl Hs ltac:(left; set_solver) Hw) as Hr.
        by destruct (record _ _ _ _ _ _ _ _ w) as [[u|x] w1].
Qed.

(** One turn of the loop for the campaign, whatever its template, experiment,
    quotas and recipient; or a change of anything but the attempts. *)
Inductive turn (w : W) : W -> Prop :=
  | Turn cfg p camp base exp quotas rec x w' : lawful cfg -> cp_ID camp = cid ->
      deliver_one cfg p camp base exp quotas rec w = (x, w') -> turn w w'
  | Elsewhere w' : cm_attempts (tables w') = cm_attempts (tables w) -> taken w' = taken w -> lost w' = lost w -> turn w w'.

Lemma turn_inv w w' : turn w w' -> inv w -> inv w'.
Proof.
  intros [cfg p camp base exp quotas rec x w1 Hl Hc E|w1 Ht Hk Ho] Hi; [|by apply (accounts_ext w)].
  pose proof (one_triple cfg p camp base exp quotas rec Hl Hc w Hi) as H4. rewrite E in H4. by destruct x.
Qed.

Lemma turns_inv w w' : rtc turn w w' -> inv w -> inv w'.
Proof. induction 1 as [|v1 v2 v3 Ht _ IH]; [done|]. intros Hi. apply IH. by eapply turn_inv. Qed.

(** C24: A campaign message is sent again only when its outcome was lost.
    From a state in which no message of the campaign has been taken yet, over
    any number of turns of the delivery loop, one at a time for a recipient --
    retries, shards claimed again, redispatches, with changed templates,
    variants and quotas, and with workers that die anywhere, after which every
    call fails -- an adapter answers a message id for a recipient, channel and
    endpoint at most once more often than a decision on that attempt could not
    be recorded ([UpdateDeliveryAttempt] refused or never made: the delivery is
    at-least-once).  A message taken of which no decision was lost was taken
    once, and its attempt is on record with a decision that no later run sends
    again.  What a provider did with a call that answered an error is not
    counted, nor what an adapter does inside of one call. *)
Theorem sends_accounted w w' : taken w = [] -> keyed w -> rtc turn w w' ->
  forall k, times k (taken w') <= times k (lost w') + 1 /\
    (k ∈ taken w' -> k ∉ lost w' -> times k (taken w') = 1 /\
     exists prof channel endpoint a, k = sent_for prof channel endpoint /\
       cm_attempts (tables w') !! attempt_key cid prof channel endpoint = Some a /\ da_Decision a ∉ sendable).
Proof.
  intros Hn Hk Hr k. assert (Hi : inv w).
  { split; [done|]. intros k'. left. unfold paid. rewrite Hn. apply times_nonneg. }
  destruct (turns_inv _ _ Hr Hi) as [_ H']. specialize (H' k). unfold paid, told in H'. split; [destruct H' as [|[? _]]; lia|].
  intros Hin Hno. assert (Hl : times k (lost w') = 0).
  { apply countb_none. intros x Hx. apply bool_decide_eq_false. intros ->. done. }
  assert (Hpos : 1 <= times k (taken w')).
  { apply list_elem_of_split in Hin as (l1 & l2 & ->). rewrite times_app. change (k :: l2) with ([k] ++ l2). rewrite times_app, times_one, decide_True by done.
    pose proof (times_nonneg k l1). pose proof (times_nonneg k l2). lia. }
  destruct H' as [|[? Hrow]]; [lia|]. split; [lia | exact Hrow].
Qed.

End once.

(** ** A concrete store *)

Module Demo.

(** The tables, the messages taken and lost, and how many decisions go through
    before the database is gone. *)
Record world : Type := World { at_db : CMDB; at_taken : list sent_as; at_lost : list sent_as; at_good : nat }.
Definition at_tables {A} (m : M CMDB A) : M world A := fun w =>
  let '(r, d) := m (at_db w) in (r, World d (at_taken w) (at_lost w) (at_good w)).
Definition recorded {A} (k : sent_as) (m : M CMDB A) : M world A := fun w =>
  match at_good w with
  | S n => let '(r, d) := m (at_db w) in (r, World d (at_taken w) (at_lost w) n)
  | O => (Err (errors_New "connection reset"), World (at_db w) (at_taken w) (at_lost w ++ [k]) O)
  end.
Definition prof_of (i : string) : Profile := MkProfile i ("ext-" +:+ i) "" (Raw (JObject [])) 1 0.
Definition mail : Template := MkTemplate "t1" "t" "w" "Hello" "email" None None (Some "hi") None None [] None 1 0 0.
#[export] Instance demo_node : NodeStore world := {|
  EvaluateAudience _ _ _ := mret true;
  IsProfileInSegment _ _ _ := mret true;
  GetExperiment _ _ := throw ErrNotFound;
  AssignExperiment _ _ _ _ := throw ErrNotFound;
  UpdateProfileAttributes _ _ _ := mret tt;
  AcceptEvents _ _ := throw (errors_New "connection reset");
  GetProfileByIDSystem _ _ i := mret (prof_of i);
  ListActiveDeviceTokens _ _ _ := mret [];
  Store.GetFirstAppID _ _ := mret "a1";
  ListActiveFlags _ _ _ := mret []
|}.
#[export] Instance demo_policy : PolicyStore world := {|
  IsSuppressed _ _ _ := mret false;
  LatestConsent _ i c t := mret (MkConsent i c t "subscribed" 0);
  SentCountSince _ _ _ := mret 0
|}.
#[export] Instance demo_delivery : DeliveryStore world := {|
  GetTemplate _ _ := mret mail;
  ListSendingIdentities _ := mret [];
  GetSendingIdentity _ _ := throw ErrNotFound;
  GetTenantFatigueQuotas _ := mret (5, 20);
  GetTenantQuietHours _ := mret (None, None, "UTC");
  RetireDeviceToken _ _ _ := mret tt
|}.
Definition any_uuid (_ : string) : bool := true.
#[export] Instance demo_campaigns : CampaignStore world := {|
  CampaignDeliver.ClaimDeliveryJob worker := at_tables (Campaigns.ClaimDeliveryJob worker);
  CampaignDeliver.GetCampaignSystem t i := at_tables (MakerChecker.reads (Campaigns.GetCampaignSystem t i));
  CampaignDeliver.CompleteDeliveryJob j := at_tables (Campaigns.CompleteDeliveryJob j);
  CampaignDeliver.FailDeliveryJob j e := at_tables (Campaigns.FailDeliveryJob j e);
  CampaignDeliver.CreateDeliveryAttempt a := at_tables (Campaigns.CreateDeliveryAttempt a);
  CampaignDeliver.GetDeliveryAttempt c p ch e := at_tables (MakerChecker.reads (Campaigns.GetDeliveryAttempt c p ch e));
  CampaignDeliver.UpdateDeliveryAttempt c p ch e d r m s k := recorded (sent_of c p ch e) (Campaigns.UpdateDeliveryAttempt c p ch e d r m s k);
  CampaignDeliver.SetDeliveryAttemptExperiment t c p ch e v := at_tables (Campaigns.SetDeliveryAttemptExperiment any_uuid t c p ch e v)
|}.
(** A provider that takes everything. *)
Definition provider : Deliver.Adapter world := fun msg w =>
  (Ok ("m1", 100), World (at_db w) (at_taken w ++ [message_of msg]) (at_lost w) (at_good w)).
#[export] Instance demo_env : CampaignEnv world := {|
  GetProfileByID _ _ i := mret (prof_of i);
  time_Now _ := 1000;
  RenderWithContext _ t _ := mret t;
  RewriteLinks h _ _ _ _ _ _ _ _ := mret h;
  SignOpenToken _ _ _ _ _ _ _ := Ok "tok";
  NewSESAdapter := provider;
  NewWebhookAdapter := provider;
  NewFakeAdapter := provider
|}.
Definition cfg : Config world := MkConfig "" "" None None None None None.

Lemma at_tables_acts {A} (m : M CMDB A) : acts at_db at_taken at_lost (at_tables m) m.
Proof. intros w. left. unfold acts_at, at_tables. by destruct (m (at_db w)). Qed.
Lemma recorded_records {A} k (m : M CMDB A) : records at_db at_taken at_lost (recorded k m) m k.
Proof. intros w. unfold acts_at, recorded. destruct (at_good w); [by right|left]. by destruct (m (at_db w)). Qed.
Lemma demo_laws : laws any_uuid at_db at_taken at_lost.
Proof. split; intros; first [done|apply recorded_records|apply at_tables_acts]. Qed.
Lemma demo_lawful : lawful at_db at_taken at_lost cfg.
Proof. intros pr msg w. unfold adapterFor. simpl. by destruct (pr =s "ses"), (pr =s "webhook"). Qed.

Definition camp : Campaign := MkCampaign "c1" "t" "w" "Spring" None "s1" "t1" None RawEmpty None "sending" None (Some "k") 1 1 None 1 0 0.
Definition start (good : nat) : world :=
  World (MkCMDB {["c1" := camp]} ∅ ∅ ∅ ∅ ∅ (MakerChecker.MkCDB ∅ (AuditLog.Audit.MkADB [] ∅ 0) {["c1"]} 1000)) [] [] good.
Definition one (w : world) : world :=
  (deliver_one cfg (MkPrincipal "t" "w" "a1" "" "" "" ["*"]) camp mail no_experiment (5, 20) (Campaigns.MkRecipient "p1" "ada@x") w).2.
Definition ada : sent_as := ("sent-c1-p1", "email", "ada@x").

(** The event is never accepted, so the attempt stays undecided and is run
    twice; the provider is asked once, and twice when the database does not
    take the decision. *)
Lemma sends_accounted_witness :
  at_taken (one (one (start 9))) = [ada] /\ times ada (at_taken (one (one (start 9)))) = 1 /\
  at_taken (one (one (start 0))) = [ada; ada] /\ times ada (at_taken (one (one (start 0)))) <= times ada (at_lost (one (one (start 0)))) + 1.
Proof.
  assert (Hk : forall n, keyed at_db (start n)) by (intros n k a Hk; simpl in Hk; by rewrite lookup_empty in Hk).
  assert (Hr : forall n, rtc (turn at_db at_taken at_lost "c1") (start n) (one (one (start n)))).
  { intros n. eapply rtc_l; [|eapply rtc_l; [|apply rtc_refl]];
      (eapply Turn with (camp := camp); [exact demo_lawful|reflexivity|apply surjective_pairing]). }
  split; [vm_compute; reflexivity|]. split; [|split; [vm_compute; reflexivity|]].
  - refine (proj1 (proj2 (sends_accounted any_uuid at_db at_taken at_lost demo_laws "c1" (start 9) (one (one (start 9))) eq_refl (Hk 9%nat) (Hr 9%nat) ada) _ _)).
    + apply list_elem_of_In. vm_compute. by left.
    + intros H. apply list_elem_of_In in H. vm_compute in H. destruct H.
  - exact (proj1 (sends_accounted any_uuid at_db at_taken at_lost demo_laws "c1" (start 0) (one (one (start 0))) eq_refl (Hk 0%nat) (Hr 0%nat) ada)).
Defined.
End Demo.
End CampaignOnce.

(** * Concrete campaigns, and what the delivery loop gets wrong

    Databases that show the hypotheses of [CampaignLife] and [CampaignSpec] can
    hold, and runs that end badly: a campaign without recipients, a late
    failure, a job that always crashes, an event that is not accepted. *)

Module CampaignHazards.
Import Campaigns CampaignLife.

Definition any_uuid (_ : string) : bool := true.
Definition campaign (status : string) : Campaign :=
  MkCampaign "c1" "t" "w" "Spring" None "s1" "t1" None RawEmpty None status None None 1 1 None 0 0 0.
Definition tables (status : string) (jobs : gmap string DeliveryJob) (now : Z) : CMDB :=
  MkCMDB {["c1" := campaign status]} jobs ∅ {["s1"]} {["t1"]} ∅ (MakerChecker.MkCDB ∅ (Audit.MkADB [] ∅ 0) {["c1"; "j1"]} now).
Definition job (status : string) (attempts : Z) (locked : option Z) : DeliveryJob :=
  MkDeliveryJob "j1" "c1" "t" 0 status [Campaigns.MkRecipient "p1" "ada@x"] attempts 0 locked None.

(** ** Witnesses *)

Lemma scheduled_cinv : cinv (tables "scheduled" ∅ 5).
Proof.
  split; simpl.
  - split; [set_solver|]. rewrite dom_singleton_L. set_solver.
  - intros k j Hj. by rewrite lookup_empty in Hj.
  - by intros k c [<- <-]%lookup_singleton_Some.
  - intros k j Hj. by rewrite lookup_empty in Hj.
  - intros k j Hj. by rewrite lookup_empty in Hj.
  - by intros cid c [<- <-]%lookup_singleton_Some.
  - by intros cid c [<- <-]%lookup_singleton_Some.
Qed.

Definition scheduled : CMDB := tables "scheduled" ∅ 5.
Definition building : CMDB := (ClaimScheduledCampaign scheduled).2.
Definition sending : CMDB := (SaveCampaignManifestAndJobs any_uuid Some "c1" "k" 1 1 1 RawEmpty "" [job "pending" 0 None] building).2.
Definition working : CMDB := (ClaimDeliveryJob "worker" sending).2.


(** *** A dispatch *)

Module Dispatch.
Import CampaignDispatch.

(** The world: what the blob store holds, and the saves. *)
Definition world : Type := list (string * json) * list (list DeliveryJob).
#[local] Instance node : NodeStore world := {|
  EvaluateAudience _ _ _ := mret true;
  IsProfileInSegment _ _ _ := mret true;
  GetExperiment _ _ := throw ErrNotFound;
  AssignExperiment _ _ _ _ := throw ErrNotFound;
  UpdateProfileAttributes _ _ _ := mret tt;
  AcceptEvents _ _ := mret [];
  GetProfileByIDSystem _ _ _ := throw ErrNotFound;
  ListActiveDeviceTokens _ _ _ := mret [];
  Store.GetFirstAppID _ _ := mret "a1";
  ListActiveFlags _ _ _ := mret []
|}.
#[local] Instance segments : SegmentStore world := {| ResolveSegment _ _ := mret ["p1"; "p2"]; GetJourney _ _ := throw ErrNotFound |}.
#[local] Instance delivery : DeliveryStore world := {|
  GetTemplate _ _ := mret CampaignOnce.Demo.mail;
  ListSendingIdentities _ := mret [];
  GetSendingIdentity _ _ := throw ErrNotFound;
  GetTenantFatigueQuotas _ := mret (5, 20);
  GetTenantQuietHours _ := mret (None, None, "UTC");
  RetireDeviceToken _ _ _ := mret tt
|}.
Definition segment : Segments.Segment := Segments.MkSegment "s1" "t" "w" "All" "" "dynamic" "active" (Raw (JObject [])) 4.
#[local] Instance dispatching : DispatchStore world := {|
  CampaignDispatch.ClaimScheduledCampaign := mret (Some (campaign "building"));
  CampaignDispatch.UpdateCampaign _ c := mret c;
  CampaignDispatch.SaveCampaignManifestAndJobs _ _ _ _ _ _ _ jobs := fun w => (Ok tt, (w.1, w.2 ++ [jobs]));
  CampaignDispatch.GetCampaignSystem _ _ := mret (Campaigns.set_sending "manifests/t/c1-manifest.json" 1 4 1 RawEmpty None 0 (campaign "sending"));
  CampaignDispatch.GetSegment _ _ := mret segment;
  CampaignDispatch.GetProfileEmails _ _ := mret {["p1" := "ada@x"]};
  CampaignDispatch.GetProfilePhones _ _ := mret ∅
|}.
Definition blobs : BlobStore world := {|
  Put k data _ := fun w => (Ok tt, ((k, data) :: w.1, w.2));
  Get k := fun w => (match find_first (fun kv => kv.1 =s k) w.1 with Some kv => Ok (Raw kv.2) | None => Err ErrNotFound end, w)
|}.
Definition principal : Principal := with_app "a1" (campaign "building").
Definition dispatched : world := (dispatch blobs (fun _ => 0) GoStr.of_Z (campaign "building") principal ([], [])).2.

Lemma redispatch_restores_witness : dj_Recipients <$> concat dispatched.2 = [[Campaigns.MkRecipient "p1" "ada@x"]] /\
  exists m, RedispatchFromManifest blobs "t" "c1" dispatched =
    (_ ← wrapM "save manifest and jobs: %w" (CampaignSpec.Manifests.save (campaign "building") m); mret (mf_Recipients m)) dispatched.
Proof.
  split; [vm_compute; reflexivity|].
  assert (E : dispatch blobs (fun _ => 0) GoStr.of_Z (campaign "building") principal ([], []) = (Ok tt, dispatched)) by (vm_compute; reflexivity).
  assert (Ht : forall p id w t w', GetTemplate (W := world) p id w = (Ok t, w') -> 0 <= tpl_Version t < two63) by (by intros p id w t w' [= <- _]).
  assert (Hg : forall p id w s w', CampaignDispatch.GetSegment (W := world) p id w = (Ok s, w') -> 0 <= Segments.sg_Version s < two63)
    by (by intros p id w s w' [= <- _]).
  destruct (CampaignSpec.Manifests.redispatch_restores blobs (fun _ => 0) GoStr.of_Z Ht Hg (campaign "building") principal ([], []) dispatched E)
    as (m & data & w1 & w2 & Hp & Hs & Hr).
  exists m. apply (f_equal (fun x => x.2.1)) in Hp, Hs. change ((manifest_key (campaign "building"), data) :: w1.1 = w2.1) in Hp.
  change (w2.1 = dispatched.1) in Hs. eapply Hr; [reflexivity|reflexivity|reflexivity|reflexivity|].
  cbn [Get blobs]. rewrite <- Hs, <- Hp. cbn [find_first fst]. rewrite seqb_refl. reflexivity.
Defined.
End Dispatch.

(** ** Hazards *)

(** A campaign whose segment is empty is sent to nobody and never ends. *)
Lemma empty_campaign_never_ends : exists d, SaveCampaignManifestAndJobs any_uuid Some "c1" "k" 0 1 1 RawEmpty "" [] building = (Ok tt, d) /\
  (exists c, cm_campaigns d !! "c1" = Some c /\ cp_Status c = "sending") /\ cm_jobs d = ∅ /\ (ClaimDeliveryJob "worker" d).1 = Ok None.
Proof. eexists. split; [vm_compute; reflexivity|]. split; [by eexists|]. by vm_compute. Qed.

(** A failure reported late puts the completed job of a completed campaign
    back into the queue. *)
Lemma late_failure_reopens : exists d, FailDeliveryJob "j1" (lit "timeout") (tables "completed" {["j1" := job "completed" 1 None]} 5) = (Ok tt, d) /\
  (exists c, cm_campaigns d !! "c1" = Some c /\ cp_Status c = "completed") /\
  (exists j, cm_jobs d !! "j1" = Some j /\ claimable (5 + Time.Minute) j = true).
Proof. eexists. split; [vm_compute; reflexivity|]. split; by eexists. Qed.

(** An edit can write the status of a finished campaign while a shard is
    waiting. *)
Lemma edit_writes_completed :
  let d := tables "sending" {["j1" := job "pending" 0 None]} 5 in
  let d' := (UpdateCampaign any_uuid (MkPrincipal "t" "w" "a" "" "" "" ["*"]) (campaign "completed") d).2 in
  (exists c, cm_campaigns d' !! "c1" = Some c /\ cp_Status c = "completed") /\
  (exists j, cm_jobs d' !! "j1" = Some j /\ dj_Status j = "pending").
Proof. vm_compute. split; by eexists. Qed.

(** The last two jobs of a campaign, completed by overlapping transactions:
    under READ COMMITTED each counts before the other commits ([first] and
    [second] are what the two see) and finds the other's job active, so that
    neither writes the campaign's row; both commit their own job. *)
Definition second_job (status : string) : DeliveryJob :=
  MkDeliveryJob "j2" "c1" "t" 1 status [Campaigns.MkRecipient "p2" "bob@x"] 1 0 None None.
Definition two_left : CMDB := tables "sending" {["j1" := job "processing" 1 None; "j2" := second_job "processing"]} 5.
Definition both_committed : CMDB := tables "sending" {["j1" := job "completed" 1 None; "j2" := second_job "completed"]} 5.
Lemma overlapping_completions_stick :
  let first := (CompleteDeliveryJob "j1" two_left).2 in
  let second := (CompleteDeliveryJob "j2" two_left).2 in
  cm_campaigns first = cm_campaigns two_left /\ cm_jobs first !! "j1" = cm_jobs both_committed !! "j1" /\
  cm_campaigns second = cm_campaigns two_left /\ cm_jobs second !! "j2" = cm_jobs both_committed !! "j2" /\
  cm_campaigns both_committed = cm_campaigns two_left /\
  (forall k j t, cm_jobs both_committed !! k = Some j -> claimable t j = false).
Proof.
  split_and!; [vm_compute; reflexivity..|]. intros k j t. simpl.
  intros [[_ <-]|[_ [_ <-]%lookup_singleton_Some]]%lookup_insert_Some; done.
Qed.

(** A job whose worker dies is claimed again without limit: its attempts are
    not looked at. *)
Lemma crash_loop n t : claimable (t + 5 * Time.Minute) (claimed t (job "processing" n (Some 0))) = true.
Proof. unfold claimable, claimed. simpl. by rewrite Z.leb_refl. Qed.

(** The event is not accepted: the job completes all the same, and the attempt
    stays where only another run would find it. *)
Module Lost.
Import CampaignOnce.Demo CampaignDeliver.
#[local] Existing Instances demo_node demo_policy demo_delivery demo_campaigns demo_env.

Definition queued : world := World (tables "sending" {["j1" := job "pending" 0 None]} 1000) [] [] 9.
Lemma event_is_forgotten :
  let '(processed, err, w) := DeliverNext (fun _ _ => None) "worker" cfg queued in
  processed = true /\ err = None /\ length (at_taken w) = 1%nat /\
  (exists j, cm_jobs (at_db w) !! "j1" = Some j /\ dj_Status j = "completed") /\
  (exists c, cm_campaigns (at_db w) !! "c1" = Some c /\ cp_Status c = "completed") /\
  (exists a, cm_attempts (at_db w) !! attempt_key "c1" "p1" "email" "ada@x" = Some a /\ da_Decision a = "provider_sent").
Proof. vm_compute. repeat (split; [first [reflexivity|by eexists]|]). by eexists. Qed.

(** Taking up an attempt the provider had taken stores its cost as nothing. *)
#[local] Instance accepting : NodeStore world := {|
  EvaluateAudience := EvaluateAudience; IsProfileInSegment := IsProfileInSegment; GetExperiment := GetExperiment;
  AssignExperiment := AssignExperiment; UpdateProfileAttributes := UpdateProfileAttributes; AcceptEvents _ _ := mret ["e1"];
  GetProfileByIDSystem := GetProfileByIDSystem; ListActiveDeviceTokens := ListActiveDeviceTokens; Store.GetFirstAppID := Store.GetFirstAppID;
  ListActiveFlags := ListActiveFlags
|}.
Definition key : string * string * string * string := attempt_key "c1" "p1" "email" "ada@x".
Definition again : world :=
  (deliver_one (H := accepting) cfg (MkPrincipal "t" "w" "a1" "" "" "" ["*"]) camp mail no_experiment (5, 20)
     (Campaigns.MkRecipient "p1" "ada@x") (one (start 9))).2.
Lemma reconciling_loses_cost :
  (da_CostMicros <$> cm_attempts (at_db (one (start 9))) !! key) = Some 100 /\ (da_CostMicros <$> cm_attempts (at_db again) !! key) = Some 0 /\
  (da_Decision <$> cm_attempts (at_db again) !! key) = Some "sent".
Proof. by vm_compute. Qed.

(** And policy is asked again: who unsubscribed after the send is recorded as
    never sent to. *)
#[local] Instance unsubscribed : PolicyStore world := {|
  IsSuppressed := IsSuppressed; LatestConsent _ i c t := mret (MkConsent i c t "unsubscribed" 0); SentCountSince := SentCountSince
|}.
Lemma reconciling_rewrites_history :
  (da_Decision <$> cm_attempts (at_db (deliver_one (H0 := unsubscribed) cfg (MkPrincipal "t" "w" "a1" "" "" "" ["*"]) camp mail no_experiment (5, 20)
     (Campaigns.MkRecipient "p1" "ada@x") (one (start 9))).2) !! key) = Some "no_consent".
Proof. by vm_compute. Qed.
End Lost.

End CampaignHazards.
