(* ===== verification/PublicGuard.v ===== *)
(** * The public edge (src/internal/httpapi/publicguard.go)

    Signed form and in-app tokens over HMAC-SHA256 and unpadded base64url, the
    token bucket of public requests, the client's address, and the
    authentication of a subject that the inbox, engagement and flag endpoints
    share, and the report of an engagement; then what a verified token proves, its round trip, and the tokens
    that verify as another one does. *)

From S2P Require Import Prelude.
From S2P Require Import GoStd.
From S2P Require Import GoMap.
From S2P Require Import GoFloat.
From S2P Require Import Sha256.
From S2P Require Import Domain.
From S2P Require Import Store.
From S2P Require Import AudienceSpec.
From S2P Require Import AuditSpec.

Module PublicGuard.

(** ** Bytes and texts of the standard library *)

Definition char_of (b : Z) : Ascii.ascii := Ascii.ascii_of_N (Z.to_N b).
Fixpoint text (l : list Z) : string := match l with [] => EmptyString | b :: l' => String (char_of b) (text l') end.

(** [hmac.New(sha256.New, key)] over a message. *)
Definition block_size : nat := 64.
Definition pad_key (key : list Z) : list Z :=
  let k := if (block_size <? length key)%nat then Sha256.Sum256 (text key) else key in
  k ++ replicate (block_size - length k) 0.
Definition HMAC (key message : string) : list Z :=
  let k := pad_key (Sha256.bytes key) in
  let inner := Sha256.Sum256 (text ((fun b => Z.lxor b 54) <$> k) +:+ message) in
  Sha256.Sum256 (text (((fun b => Z.lxor b 92) <$> k) ++ inner)).

(** [base64.RawURLEncoding]. *)
Definition alphabet : string := "ABCDEFGHIJKLMNOPQRSTUVWXYZabcdefghijklmnopqrstuvwxyz0123456789-_".
Definition sextet_char (d : Z) : Ascii.ascii := default Ascii.zero (String.get (Z.to_nat d) alphabet).
Fixpoint position (c : Ascii.ascii) (i : Z) (s : string) : option Z :=
  match s with EmptyString => None | String c' s' => if bool_decide (c = c') then Some i else position c (i + 1) s' end.
Definition sextet (c : Ascii.ascii) : option Z := position c 0 alphabet.

Fixpoint EncodeToString (l : list Z) : string :=
  match l with
  | a :: b :: c :: l' =>
      String (sextet_char (a / 4)) (String (sextet_char (a mod 4 * 16 + b / 16)) (String (sextet_char (b mod 16 * 4 + c / 64))
        (String (sextet_char (c mod 64)) (EncodeToString l'))))
  | [a; b] =>
      String (sextet_char (a / 4)) (String (sextet_char (a mod 4 * 16 + b / 16)) (String (sextet_char (b mod 16 * 4)) EmptyString))
  | [a] => String (sextet_char (a / 4)) (String (sextet_char (a mod 4 * 16)) EmptyString)
  | [] => EmptyString
  end.

(** The decoder skips carriage returns and line feeds, and does not look at the
    bits of the last character that no byte uses. *)
Definition line_break (c : Ascii.ascii) : bool := (GoStr.code c =? 10) || (GoStr.code c =? 13).
Fixpoint sextets (s : string) : option (list Z) :=
  match s with
  | EmptyString => Some []
  | String c s' => if line_break c then sextets s' else d ← sextet c; l ← sextets s'; Some (d :: l)
  end.
Fixpoint quanta (l : list Z) : option (list Z) :=
  match l with
  | a :: b :: c :: d :: l' => r ← quanta l'; Some (a * 4 + b / 16 :: b mod 16 * 16 + c / 4 :: c mod 4 * 64 + d :: r)
  | [a; b; c] => Some [a * 4 + b / 16; b mod 16 * 16 + c / 4]
  | [a; b] => Some [a * 4 + b / 16]
  | [_] => None
  | [] => Some []
  end.
Definition DecodeString (s : string) : option string := l ← sextets s; text <$> quanta l.

(** [strings.Split] by one character, [strings.Join], and the parts before and
    after [strings.LastIndex(s, ".")]. *)
Fixpoint Split (c : Ascii.ascii) (s : string) : list string :=
  match s with
  | EmptyString => [EmptyString]
  | String c' s' =>
      if bool_decide (c' = c) then EmptyString :: Split c s'
      else match Split c s' with p :: l => String c' p :: l | [] => [String c' EmptyString] end
  end.
Fixpoint Join (l : list string) (sep : string) : string :=
  match l with [] => EmptyString | [s] => s | s :: l' => s +:+ sep +:+ Join l' sep end.
Fixpoint cut_last (c : Ascii.ascii) (s : string) : option (string * string) :=
  match s with
  | EmptyString => None
  | String c' s' =>
      match cut_last c s' with
      | Some (a, b) => Some (String c' a, b)
      | None => if bool_decide (c' = c) then Some (EmptyString, s') else None
      end
  end.
Definition bar : Ascii.ascii := Ascii.ascii_of_nat 124.
Definition dot : Ascii.ascii := Ascii.ascii_of_nat 46.

(** ** Tokens *)

Definition ErrInvalidFormToken : error := Sentinel "invalid form token".
Definition ErrExpiredFormToken : error := Sentinel "expired form token".
Definition ErrInvalidInAppToken : error := Sentinel "invalid in-app token".
Definition ErrExpiredInAppToken : error := Sentinel "expired in-app token".

Record FormToken : Type := MkFormToken { ft_FormID : string; ft_Version : Z; ft_ExpiresAt : Z }.
Record InAppToken : Type := MkInAppToken { it_TenantID : string; it_AppID : string; it_Subject : string; it_ExpiresAt : Z }.
(** [FormToken.String]. *)
Definition String_ (t : FormToken) : string := ft_FormID t +:+ "@" +:+ GoStr.of_Z (ft_Version t).

(** The payload, a dot and its MAC, encoded. *)
Definition seal (payload secret : string) : string :=
  EncodeToString (Sha256.bytes (payload +:+ "." +:+ EncodeToString (HMAC secret payload))).
Definition signed_by (payload signature secret : string) : bool :=
  match DecodeString signature with Some m => m =s text (HMAC secret payload) | None => false end.
(** [time.Unix(sec, 0)]: a [Time] counts the seconds since the year 1 in an
    int64, which wraps around. *)
Definition unixToInternal : Z := 62135596800.
Definition unix (sec : Z) : Z := ((sec + unixToInternal + two63) mod (2 * two63) - two63 - unixToInternal) * Time.Second.

Definition SignFormToken (formID : string) (version expiresAt : Z) (secret : string) : result string :=
  if GoMap.blank formID || (version <? 1) || (secret =s "") || Time.IsZero expiresAt then Err ErrInvalidFormToken
  else Ok (seal (Join [formID; GoStr.of_Z version; GoStr.of_Z (Time.Unix expiresAt)] "|") secret).
Definition VerifyFormToken (token expectedFormID : string) (expectedVersion : Z) (secret : string) (now : Z) : result FormToken :=
  let invalid := Err ErrInvalidFormToken in
  if (token =s "") || (expectedFormID =s "") || (expectedVersion <? 1) || (secret =s "") then invalid else
  match DecodeString token with
  | None => invalid
  | Some full =>
      match Split dot full with
      | [payload; signature] =>
          if negb (signed_by payload signature secret) then invalid else
          match Split bar payload with
          | [formID; version; expires] =>
              if negb (formID =s expectedFormID) then invalid else
              match GoStr.Atoi version with
              | Some v =>
                  if negb (v =? expectedVersion) then invalid else
                  match GoStr.Atoi expires with
                  | Some expiresUnix =>
                      if expiresUnix <=? 0 then invalid
                      else if negb (now <? unix expiresUnix) then Err ErrExpiredFormToken
                      else Ok (MkFormToken formID v (unix expiresUnix))
                  | None => invalid
                  end
              | None => invalid
              end
          | _ => invalid
          end
      | _ => invalid
      end
  end.

Definition SignInAppToken (tenantID appID subject : string) (expiresAt : Z) (secret : string) : result string :=
  if GoMap.blank tenantID || GoMap.blank appID || GoMap.blank subject || (secret =s "") || Time.IsZero expiresAt
  then Err ErrInvalidInAppToken
  else Ok (seal (Join [tenantID; appID; subject; GoStr.of_Z (Time.Unix expiresAt)] "|") secret).
Definition VerifyInAppToken (token expectedTenantID expectedAppID secret : string) (now : Z) : result InAppToken :=
  let invalid := Err ErrInvalidInAppToken in
  if (token =s "") || GoMap.blank expectedTenantID || GoMap.blank expectedAppID || (secret =s "") then invalid else
  match DecodeString token with
  | None => invalid
  | Some full =>
      match cut_last dot full with
      | None => invalid
      | Some (payload, signature) =>
          if negb (signed_by payload signature secret) then invalid else
          match Split bar payload with
          | [tenantID; appID; subject; expires] =>
              if negb (tenantID =s expectedTenantID) || negb (appID =s expectedAppID) then invalid
              else if GoMap.blank subject then invalid else
              match GoStr.Atoi expires with
              | Some expiresUnix =>
                  if expiresUnix <=? 0 then invalid
                  else if negb (now <? unix expiresUnix) then Err ErrExpiredInAppToken
                  else Ok (MkInAppToken tenantID appID subject (unix expiresUnix))
              | None => invalid
              end
          | _ => invalid
          end
      end
  end.

(** ** The subject of a public request (messages.go, flags.go)

    The query's parameters; the answer is a refusal, or the subject and whether
    its profile is looked up by external id. *)
Record Query : Type := MkQuery { qr_tenant : string; qr_app : string; qr_anonymous_id : string; qr_external_id : string; qr_token : string }.
Inductive access : Type :=
  | Refused (status : Z) (code : string)
  | Granted (subject : string) (byExternalID : bool).
Definition check_token (tenantID appID externalID token secret : string) (now : Z) (granted : access) : access :=
  if token =s "" then granted else
  match VerifyInAppToken token tenantID appID secret now with
  | Err e => if errors_Is e "expired in-app token" then Refused 403 "expired_token" else Refused 403 "invalid_token"
  | Ok verified => if it_Subject verified =s externalID then granted else Refused 403 "subject_mismatch"
  end.
Definition authenticate (q : Query) (secret : string) (now : Z) : access :=
  let tenantID := GoMap.TrimSpace (qr_tenant q) in
  let appID := GoMap.TrimSpace (qr_app q) in
  let anonID := GoMap.TrimSpace (qr_anonymous_id q) in
  let token := GoMap.TrimSpace (qr_token q) in
  let externalID := GoMap.TrimSpace (qr_external_id q) in
  if (tenantID =s "") || (appID =s "") then Refused 400 "missing_context"
  else if negb (token =s "") && negb (externalID =s "") then check_token tenantID appID externalID token secret now (Granted externalID true)
  else if negb (anonID =s "") then check_token tenantID appID externalID token secret now (Granted anonID false)
  else Refused 400 "missing_subject".

(** [reportMessageEngagement]: [allowed] is the limiter's answer, a reply a
    status and its code.  The event names the request's external id when the
    subject equals it, whichever of the two parameters the subject is. *)
Record Message : Type := MkMessage { mg_ID : string; mg_ProfileID : string }.
Class InboxStore (W : Type) := {
  GetProfileIDBySubject : string -> string -> string -> bool -> M W string;
  GetInAppMessage : string -> string -> M W Message;
  AcceptEvents : Principal -> list Event -> M W (list string)
}.
Definition engagement_type (action : string) : string :=
  if action =s "impression" then "message.impression" else if action =s "click" then "message.clicked" else "message.dismissed".
Definition engagement_event (q : Query) (action subject messageID : string) (now : Z) : Event :=
  let externalID := GoMap.TrimSpace (qr_external_id q) in
  let known := (subject =s externalID) && negb (externalID =s "") in
  MkEvent (engagement_type action) 1 (if known then externalID else "") (if known then "" else GoMap.TrimSpace (qr_anonymous_id q))
    (messageID +:+ ":" +:+ action +:+ ":" +:+ subject) now "" "" "" "" "" "" RawEmpty (Raw (JObject [("message_id", JString messageID)])).
Definition engagement_access (q : Query) (messageID action secret : string) (now : Z) : access :=
  if (messageID =s "") || (action =s "") then Refused 400 "missing_params"
  else if (GoMap.TrimSpace (qr_tenant q) =s "") || (GoMap.TrimSpace (qr_app q) =s "") then Refused 400 "missing_context"
  else if negb (mem action ["impression"; "click"; "dismiss"]) then Refused 400 "invalid_action"
  else authenticate q secret now.
Section report.
Context {W : Type} `{InboxStore W}.
Definition failure (notFound : Z * string) (e : error) : Z * string :=
  if errors_Is e "not found" then notFound else (500, "internal_error").
Definition reportMessageEngagement (allowed : bool) (q : Query) (id action secret : string) (now : Z) : M W (Z * string) :=
  let messageID := GoMap.TrimSpace id in
  let action := GoMap.TrimSpace action in
  if negb allowed then mret (429, "rate_limited") else
  match engagement_access q messageID action secret now with
  | Refused status code => mret (status, code)
  | Granted subject byExternalID =>
      let tenantID := GoMap.TrimSpace (qr_tenant q) in
      let appID := GoMap.TrimSpace (qr_app q) in
      profile ← try (GetProfileIDBySubject tenantID appID subject byExternalID);
      match profile with
      | Err e => mret (failure (403, "subject_not_found") e)
      | Ok profileID =>
          msg ← try (GetInAppMessage tenantID messageID);
          match msg with
          | Err e => mret (failure (404, "message_not_found") e)
          | Ok msg =>
              if negb (mg_ProfileID msg =s profileID) then mret (403, "forbidden") else
              accepted ← try (AcceptEvents (MkPrincipal tenantID "" appID "" "" "public" []) [engagement_event q action subject (mg_ID msg) now]);
              mret (match accepted with Err _ => (500, "internal_error") | Ok _ => (200, "accepted") end)
          end
      end
  end.
End report.

(** ** The rate limiter *)

Record ipBucket : Type := MkBucket { bk_tokens : Float.float64; bk_seen : Z }.
Record IPRateLimiter : Type := MkLimiter { rl_rate : Float.float64; rl_burst : Float.float64; rl_bucket : gmap string ipBucket }.
Definition one : Float.float64 := Float.of_Z 1.
Definition NewIPRateLimiter (ratePerSecond : Float.float64) (burst : Z) : IPRateLimiter :=
  MkLimiter (if Float.leb ratePerSecond Float.zero then one else ratePerSecond) (Float.of_Z (if burst <? 1 then 1 else burst)) ∅.
Definition minFloat (a b : Float.float64) : Float.float64 := if Float.ltb a b then a else b.
(** [Duration.Seconds]. *)
Definition Seconds (d : Z) : Float.float64 :=
  Float.add (Float.of_Z (Z.quot d Time.Second)) (Float.div (Float.of_Z (Z.rem d Time.Second)) (Float.of_Z 1000000000)).
Definition refill (l : IPRateLimiter) (now : Z) (b : ipBucket) : ipBucket :=
  let elapsed := Seconds (Time.Sub now (bk_seen b)) in
  if Float.ltb Float.zero elapsed
  then MkBucket (minFloat (rl_burst l) (Float.add (bk_tokens b) (Float.mul elapsed (rl_rate l)))) now else b.
Definition put_bucket (ip : string) (b : ipBucket) (l : IPRateLimiter) : IPRateLimiter :=
  MkLimiter (rl_rate l) (rl_burst l) (<[ip := b]> (rl_bucket l)).
Definition Allow (ip : string) (now : Z) (l : IPRateLimiter) : bool * IPRateLimiter :=
  let b := match rl_bucket l !! ip with Some b => refill l now b | None => MkBucket (rl_burst l) now end in
  if Float.ltb (bk_tokens b) one then (false, put_bucket ip b l)
  else (true, put_bucket ip (MkBucket (Float.sub (bk_tokens b) one) (bk_seen b)) l).

(** ** The client *)

Definition HoneypotEmpty (value : string) : bool := GoMap.blank value.
Section client.
(** [net.SplitHostPort]: the host, when the address has a port. *)
Context (SplitHostPort : string -> option string).
Definition ClientIP (x_forwarded_for x_real_ip remoteAddr : string) (trustedProxy : bool) : string :=
  let forwarded := GoMap.TrimSpace (default "" (head (Split (Ascii.ascii_of_nat 44) x_forwarded_for))) in
  let real := GoMap.TrimSpace x_real_ip in
  if trustedProxy && negb (forwarded =s "") then forwarded
  else if trustedProxy && negb (real =s "") then real
  else match SplitHostPort (GoMap.TrimSpace remoteAddr) with Some host => host | None => GoMap.TrimSpace remoteAddr end.
End client.

(** RFC 4231, test case 2; and a token of each kind. *)
Example hmac_example : Sha256.hex (HMAC "Jefe" "what do ya want for nothing?") = "5bdcc146bf60754e6a042426089575c75a003f089d2739839dec58b964ec3843".
Proof. vm_compute. reflexivity. Qed.
Example base64_example : EncodeToString (Sha256.bytes "light work.") = "bGlnaHQgd29yay4" /\ DecodeString "bGlnaHQgd29yay4" = Some "light work.".
Proof. vm_compute. split; reflexivity. Qed.
(** Ten requests of an address pass at one instant, the eleventh does not; a
    second later one passes again. *)
Fixpoint repeat_allow (n : nat) (ip : string) (now : Z) (l : IPRateLimiter) : list bool * IPRateLimiter :=
  match n with
  | O => ([], l)
  | S n' => let '(a, l1) := Allow ip now l in let '(r, l2) := repeat_allow n' ip now l1 in (a :: r, l2)
  end.
Example limiter_example :
  let '(r, l) := repeat_allow 12 "1.2.3.4" 0 (NewIPRateLimiter one 10) in
  r = replicate 10 true ++ [false; false] /\ (repeat_allow 2 "1.2.3.4" Time.Second l).1 = [true; false] /\ (Allow "5.6.7.8" 0 l).1 = true.
Proof. vm_compute. repeat split. Qed.

End PublicGuard.

Module PublicGuardSpec.
Import PublicGuard.

(** ** base64 *)

Definition byte (b : Z) : Prop := 0 <= b < 256.

(** [lia] through quotients and remainders. *)
Ltac quotients := Z.to_euclidean_division_equations; lia.

Lemma sextet_char_spec d : 0 <= d < 64 -> sextet (sextet_char d) = Some d /\ line_break (sextet_char d) = false.
Proof.
  intros Hd. assert (H : forallb (fun d => bool_decide (sextet (sextet_char d) = Some d /\ line_break (sextet_char d) = false)) (seqZ 0 64) = true)
    by (vm_compute; reflexivity).
  rewrite forallb_forall in H. apply (bool_decide_eq_true_1 _), H, list_elem_of_In, elem_of_seqZ. lia.
Qed.

Lemma sextets_char d s : 0 <= d < 64 -> sextets (String (sextet_char d) s) = l ← sextets s; Some (d :: l).
Proof. intros Hd. destruct (sextet_char_spec d Hd) as [Hs Hb]. cbn [sextets]. by rewrite Hb, Hs. Qed.

Lemma decode_encode_bytes l : Forall byte l -> exists ds, sextets (EncodeToString l) = Some ds /\ quanta ds = Some l.
Proof.
  remember (length l) as n eqn:En. revert l En. induction n as [n IH] using lt_wf_ind. intros l En Hl. unfold byte in *.
  destruct l as [|a [|b [|c l]]]; cbn [EncodeToString]; [by exists []|..]; repeat (apply Forall_cons in Hl as [? Hl]); rewrite ?sextets_char by quotients.
  - eexists. split; [reflexivity|]. cbn. do 2 f_equal. quotients.
  - eexists. split; [reflexivity|]. cbn. repeat f_equal; quotients.
  - simpl in En. destruct (IH (length l) ltac:(lia) l eq_refl Hl) as (ds & -> & Hq). eexists. split; [reflexivity|]. cbn [quanta]. rewrite Hq. cbn.
    repeat f_equal; quotients.
Qed.

Lemma code_byte c : byte (GoStr.code c).
Proof. unfold byte, GoStr.code. pose proof (Ascii.N_ascii_bounded c). lia. Qed.
Lemma bytes_range s : Forall byte (Sha256.bytes s).
Proof. induction s as [|c s IH]; simpl; constructor; [apply code_byte | done]. Qed.
Lemma text_bytes s : text (Sha256.bytes s) = s.
Proof.
  induction s as [|c s IH]; [done|]. cbn. rewrite IH. f_equal. unfold char_of, GoStr.code. rewrite N2Z.id. apply Ascii.ascii_N_embedding.
Qed.

Lemma DecodeString_bytes l : Forall byte l -> DecodeString (EncodeToString l) = Some (text l).
Proof. intros Hl. unfold DecodeString. destruct (decode_encode_bytes l Hl) as (ds & -> & Hq). cbn. by rewrite Hq. Qed.
Lemma DecodeString_text s : DecodeString (EncodeToString (Sha256.bytes s)) = Some s.
Proof. rewrite DecodeString_bytes by apply bytes_range. by rewrite text_bytes. Qed.

(** A line feed anywhere in a token is not seen. *)
Definition LF : string := String (Ascii.ascii_of_nat 10) EmptyString.
Lemma DecodeString_LF a b : DecodeString (a +:+ LF +:+ b) = DecodeString (a +:+ b).
Proof.
  unfold DecodeString. f_equal. induction a as [|c a IH]; [done|]. rewrite !sapp_cons. cbn [sextets]. by rewrite IH.
Qed.

(** ** Separators *)

Fixpoint has (c : Ascii.ascii) (s : string) : bool :=
  match s with EmptyString => false | String c' s' => bool_decide (c' = c) || has c s' end.

Lemma Split_none c s : has c s = false -> Split c s = [s].
Proof.
  induction s as [|c' s IH]; [done|]. cbn [has Split]. intros [H1 H2]%orb_false_elim. rewrite H1. by rewrite (IH H2).
Qed.
Lemma Split_app c a b : has c a = false -> Split c (a +:+ String c b) = a :: Split c b.
Proof.
  induction a as [|c' a IH]; intros Ha.
  - change ("" +:+ String c b) with (String c b). cbn [Split]. by rewrite bool_decide_eq_true_2.
  - cbn [has] in Ha. apply orb_false_elim in Ha as [H1 H2]. rewrite sapp_cons. cbn [Split]. by rewrite H1, (IH H2).
Qed.
Lemma Split_Join c s : Join (Split c s) (String c EmptyString) = s.
Proof.
  induction s as [|c' s IH]; [done|]. cbn [Split]. assert (Hne : Split c s <> []).
  { destruct s as [|x s']; [done|]. cbn [Split]. by repeat case_match. }
  case_bool_decide as E.
  - subst c'. destruct (Split c s) as [|p l]; [done|]. change (Join ("" :: p :: l) (String c "")) with (String c "" +:+ Join (p :: l) (String c "")).
    rewrite IH. done.
  - destruct (Split c s) as [|p [|q l]]; [done|..]; cbn [Join] in *; rewrite <- IH; done.
Qed.

Lemma cut_last_none c s : has c s = false -> cut_last c s = None.
Proof. induction s as [|c' s IH]; [done|]. cbn [has cut_last]. intros [H1 H2]%orb_false_elim. by rewrite (IH H2), H1. Qed.
Lemma cut_last_app c a b : has c b = false -> cut_last c (a +:+ String c b) = Some (a, b).
Proof.
  intros Hb. induction a as [|c' a IH].
  - change ("" +:+ String c b) with (String c b). cbn [cut_last]. by rewrite cut_last_none, bool_decide_eq_true_2.
  - rewrite sapp_cons. cbn [cut_last]. by rewrite IH.
Qed.
Lemma cut_last_parts c s a b : cut_last c s = Some (a, b) -> s = a +:+ String c b /\ has c b = false.
Proof.
  revert a b. induction s as [|c' s IH]; intros a b; [done|]. cbn [cut_last]. destruct (cut_last c s) as [[a' b']|] eqn:E.
  - intros [= <- <-]. destruct (IH a' b' eq_refl) as [-> H]. done.
  - case_bool_decide as E'; [|done]. intros [= <- <-]. subst c'. split; [done|]. clear IH. induction s as [|x s IH]; [done|].
    cbn [cut_last has] in *. destruct (cut_last c s) as [[]|]; [done|]. by case_bool_decide; [|apply IH].
Qed.

Lemma sextet_not_dot d : 0 <= d < 64 -> sextet_char d <> dot.
Proof.
  intros Hd E. destruct (sextet_char_spec d Hd) as [Hs _]. rewrite E in Hs. discriminate.
Qed.
Lemma encoded_no_dot l : Forall byte l -> has dot (EncodeToString l) = false.
Proof.
  remember (length l) as n eqn:En. revert l En. induction n as [n IH] using lt_wf_ind. intros l En Hl. unfold byte in *.
  destruct l as [|a [|b [|c l]]]; cbn [EncodeToString has]; [done|..]; repeat (apply Forall_cons in Hl as [? Hl]);
    rewrite !bool_decide_eq_false_2 by (apply sextet_not_dot; quotients); [done..|].
  simpl in En. by apply (IH (length l) ltac:(lia)).
Qed.
Lemma digits_without c z : GoStr.is_digit c = false -> 0 <= z -> has c (GoStr.of_Z z) = false.
Proof.
  intros Hd Hz. destruct (AudienceSpec.digits_of_Z z Hz) as [_ Ha]. induction (GoStr.of_Z z) as [|c' s IH]; [done|]. cbn in Ha |- *.
  apply andb_prop in Ha as [Hc Ha]. rewrite (IH Ha), orb_false_r. apply bool_decide_eq_false_2. intros ->. congruence.
Qed.
Lemma digits_no_bar z : 0 <= z -> has bar (GoStr.of_Z z) = false.
Proof. by apply digits_without. Qed.
Lemma digits_no_dot z : 0 <= z -> has dot (GoStr.of_Z z) = false.
Proof. by apply digits_without. Qed.
Lemma has_app c a b : has c (a +:+ b) = has c a || has c b.
Proof. induction a as [|x a IH]; [done|]. rewrite sapp_cons. cbn [has]. by rewrite IH, orb_assoc. Qed.

(** ** White space *)

Fixpoint spaceless (s : string) : bool := match s with EmptyString => true | String c s' => negb (GoStr.is_space c) && spaceless s' end.

Lemma spaceless_not_blank s : spaceless s = true -> s <> "" -> GoStr.all_space s = false.
Proof. destruct s as [|c s]; [done|]. cbn. intros [Hc _]%andb_prop _. apply negb_true_iff in Hc. by rewrite Hc. Qed.
Lemma all_space_app a b : GoStr.all_space (a +:+ b) = GoStr.all_space a && GoStr.all_space b.
Proof. induction a as [|c a IH]; [done|]. rewrite sapp_cons. cbn [GoStr.all_space]. by rewrite IH, andb_assoc. Qed.

Lemma trim_right_spaceless s : spaceless s = true -> GoMap.trim_right s = s.
Proof.
  induction s as [|c s IH]; [done|]. intros Hs. cbn [GoMap.trim_right]. rewrite (spaceless_not_blank (String c s) Hs) by done.
  cbn in Hs. apply andb_prop in Hs as [_ Hs]. by rewrite IH.
Qed.
Lemma trim_right_app a b : spaceless b = true -> b <> "" -> GoMap.trim_right (a +:+ b) = a +:+ b.
Proof.
  intros Hb Hne. induction a as [|c a IH]; [by apply trim_right_spaceless|]. rewrite sapp_cons. cbn [GoMap.trim_right].
  rewrite <- sapp_cons, all_space_app, (spaceless_not_blank b Hb Hne), andb_false_r, IH. done.
Qed.
Lemma TrimSpace_ends a m b : spaceless a = true -> spaceless b = true -> a <> "" -> b <> "" -> GoMap.TrimSpace (a +:+ m +:+ b) = a +:+ m +:+ b.
Proof.
  intros Ha Hb Hna Hnb. unfold GoMap.TrimSpace. rewrite <- sapp_assoc, trim_right_app by done. destruct a as [|c a]; [done|].
  cbn in Ha. apply andb_prop in Ha as [Hc _]. apply negb_true_iff in Hc. rewrite !sapp_cons. cbn [GoMap.trim_left]. by rewrite Hc.
Qed.
Lemma TrimSpace_spaceless s : spaceless s = true -> GoMap.TrimSpace s = s.
Proof.
  intros Hs. unfold GoMap.TrimSpace. rewrite trim_right_spaceless by done. destruct s as [|c s]; [done|]. cbn in Hs |- *.
  apply andb_prop in Hs as [Hc _]. apply negb_true_iff in Hc. by rewrite Hc.
Qed.
Lemma spaceless_app a b : spaceless (a +:+ b) = spaceless a && spaceless b.
Proof. induction a as [|c a IH]; [done|]. rewrite sapp_cons. cbn [spaceless]. by rewrite IH, andb_assoc. Qed.

Lemma sextet_not_space d : 0 <= d < 64 -> GoStr.is_space (sextet_char d) = false.
Proof.
  intros Hd. assert (H : forallb (fun d => negb (GoStr.is_space (sextet_char d))) (seqZ 0 64) = true) by (vm_compute; reflexivity).
  rewrite forallb_forall in H. apply negb_true_iff, H, list_elem_of_In, elem_of_seqZ. lia.
Qed.
Lemma encoded_spaceless l : Forall byte l -> spaceless (EncodeToString l) = true.
Proof.
  remember (length l) as n eqn:En. revert l En. induction n as [n IH] using lt_wf_ind. intros l En Hl. unfold byte in *.
  destruct l as [|a [|b [|c l]]]; cbn [EncodeToString spaceless]; [done|..]; repeat (apply Forall_cons in Hl as [? Hl]);
    rewrite !sextet_not_space by quotients; [done..|].
  simpl in En. by apply (IH (length l) ltac:(lia)).
Qed.

(** ** Seals *)

Lemma HMAC_range secret payload : Forall byte (HMAC secret payload).
Proof. exact (AuditSpec.Sum256_range _). Qed.
Lemma signed_by_seal payload secret : signed_by payload (EncodeToString (HMAC secret payload)) secret = true.
Proof. unfold signed_by. rewrite DecodeString_bytes by apply HMAC_range. apply seqb_refl. Qed.
Lemma signed_by_true payload signature secret : signed_by payload signature secret = true -> DecodeString signature = Some (text (HMAC secret payload)).
Proof. unfold signed_by. destruct (DecodeString signature); [|done]. by intros ->%seqb_true. Qed.
Lemma unseal payload secret : DecodeString (seal payload secret) = Some (payload +:+ "." +:+ EncodeToString (HMAC secret payload)).
Proof. apply DecodeString_text. Qed.
Lemma seal_spaceless payload secret : spaceless (seal payload secret) = true.
Proof. apply encoded_spaceless, bytes_range. Qed.
Lemma seal_nonempty payload secret : (seal payload secret =s "") = false.
Proof.
  apply seqb_false. intros E. pose proof (unseal payload secret) as H. rewrite E in H. cbn in H. injection H as H.
  destruct payload; discriminate.
Qed.

Lemma cut_seal payload secret :
  cut_last dot (payload +:+ "." +:+ EncodeToString (HMAC secret payload)) = Some (payload, EncodeToString (HMAC secret payload)).
Proof. apply (cut_last_app dot), encoded_no_dot, HMAC_range. Qed.

(** ** In-app tokens *)

Definition payload_of (tenantID appID subject expires : string) : string := tenantID +:+ "|" +:+ appID +:+ "|" +:+ subject +:+ "|" +:+ expires.
Lemma Split_payload t a s e : has bar t = false -> has bar a = false -> has bar s = false -> has bar e = false ->
  Split bar (payload_of t a s e) = [t; a; s; e].
Proof.
  intros Ht Ha Hs He. unfold payload_of.
  change (Split bar (t +:+ String bar (a +:+ String bar (s +:+ String bar e))) = [t; a; s; e]).
  by rewrite !Split_app, Split_none.
Qed.

(** What SignInAppToken signs verifies until it expires. *)
Lemma inapp_token_roundtrip tenantID appID subject expiresAt secret now token :
  has bar tenantID = false -> has bar appID = false -> has bar subject = false ->
  0 < Time.Unix expiresAt < two63 -> now < unix (Time.Unix expiresAt) ->
  SignInAppToken tenantID appID subject expiresAt secret = Ok token ->
  VerifyInAppToken token tenantID appID secret now = Ok (MkInAppToken tenantID appID subject (unix (Time.Unix expiresAt))).
Proof.
  intros Ht Ha Hs He Hnow. unfold SignInAppToken. destruct (_ || _) eqn:Eg; [done|]. intros [= <-].
  apply orb_false_elim in Eg as [Eg Hz]. apply orb_false_elim in Eg as [Eg Hk]. apply orb_false_elim in Eg as [Eg Hbs]. apply orb_false_elim in Eg as [Hbt Hba].
  unfold VerifyInAppToken. rewrite seal_nonempty, Hbt, Hba, Hk. cbn [orb].
  fold (payload_of tenantID appID subject (GoStr.of_Z (Time.Unix expiresAt))).
  rewrite unseal, cut_seal.
  rewrite signed_by_seal. cbn [negb]. rewrite Split_payload by (try apply digits_no_bar; done || lia).
  rewrite !seqb_refl, Hbs. cbn [negb orb]. rewrite AudienceSpec.Atoi_of_Z by lia.
  rewrite (proj2 (Z.leb_gt _ _)), (proj2 (Z.ltb_lt _ _)) by lia. done.
Qed.

(** What a token that verifies proves. *)
Definition signed (tenantID appID subject token secret : string) (now : Z) : Prop :=
  exists expires expiresUnix signature, let payload := payload_of tenantID appID subject expires in
    DecodeString token = Some (payload +:+ "." +:+ signature) /\ DecodeString signature = Some (text (HMAC secret payload)) /\
    GoStr.Atoi expires = Some expiresUnix /\ 0 < expiresUnix /\ now < unix expiresUnix.

Lemma VerifyInAppToken_signed token tenantID appID secret now t : VerifyInAppToken token tenantID appID secret now = Ok t ->
  it_TenantID t = tenantID /\ it_AppID t = appID /\ GoMap.blank (it_Subject t) = false /\ signed tenantID appID (it_Subject t) token secret now.
Proof.
  unfold VerifyInAppToken. destruct (_ || _); [done|]. destruct (DecodeString token) as [full|] eqn:Ed; [|done].
  destruct (cut_last dot full) as [[payload signature]|] eqn:Ec; [|done]. destruct (signed_by payload signature secret) eqn:Es; [|done]. cbn [negb].
  pose proof (Split_Join bar payload) as Hj. destruct (Split bar payload) as [|t0 [|a0 [|s0 [|e0 [|? ?]]]]]; try done.
  destruct (t0 =s tenantID) eqn:E1; [|done]. destruct (a0 =s appID) eqn:E2; [|done]. cbn [negb orb]. apply seqb_true in E1, E2. subst t0 a0.
  destruct (GoMap.blank s0) eqn:Eb; [done|]. destruct (GoStr.Atoi e0) as [x|] eqn:Ea; [|done]. destruct (x <=? 0) eqn:Ex; [done|].
  destruct (now <? unix x) eqn:En; [|done]. cbn [negb]. intros [= <-]. cbn. split_and!; try done. exists e0, x, signature.
  apply cut_last_parts in Ec as [-> _]. change (payload_of tenantID appID s0 e0 = payload) in Hj. rewrite Hj. split_and!; [done | by apply signed_by_true | done | lia | lia].
Qed.

Lemma not_blank s : GoMap.blank s = false -> (s =s "") = false.
Proof. intros H. apply seqb_false. by intros ->. Qed.

(** ** Who a public request acts for *)

Lemma check_token_granted tenantID appID externalID token secret now granted s b :
  check_token tenantID appID externalID token secret now granted = Granted s b ->
  granted = Granted s b /\ (token = "" \/ signed tenantID appID externalID token secret now /\ GoMap.blank externalID = false).
Proof.
  unfold check_token. destruct (token =s "") eqn:Et; [apply seqb_true in Et; auto|].
  destruct (VerifyInAppToken _ _ _ _ _) as [t|e] eqn:Ev; [|by destruct (errors_Is _ _)].
  destruct (it_Subject t =s externalID) eqn:Es; [|done]. apply seqb_true in Es as <-. intros ->.
  apply VerifyInAppToken_signed in Ev as (_ & _ & Hb & Hs). auto.
Qed.

Section reported.
Context {W : Type} `{InboxStore W}.

(** A reply of 200 has found the message in the subject's inbox and had its
    event accepted. *)
Lemma reported allowed q id action secret now w code w' : reportMessageEngagement allowed q id action secret now w = (Ok (200, code), w') ->
  let tenantID := GoMap.TrimSpace (qr_tenant q) in let appID := GoMap.TrimSpace (qr_app q) in
  exists s b msg w1 w2 ids, authenticate q secret now = Granted s b /\
    GetProfileIDBySubject tenantID appID s b w = (Ok (mg_ProfileID msg), w1) /\ GetInAppMessage tenantID (GoMap.TrimSpace id) w1 = (Ok msg, w2) /\
    AcceptEvents (MkPrincipal tenantID "" appID "" "" "public" []) [engagement_event q (GoMap.TrimSpace action) s (mg_ID msg) now] w2 = (Ok ids, w').
Proof.
  intros Hr. cbn zeta. unfold reportMessageEngagement in Hr. destruct allowed; [|done]. cbn [negb] in Hr.
  destruct (engagement_access _ _ _ _ _) as [status c|s b] eqn:Ea.
  { exfalso. unfold engagement_access, authenticate, check_token in Ea. cbn zeta in Ea.
    repeat (case_match; simplify_eq); injection Hr as E _; discriminate E. }
  assert (Eq : authenticate q secret now = Granted s b).
  { unfold engagement_access in Ea. repeat (case_match; try done). }
  unfold mbind, M_bind, try in Hr. destruct (GetProfileIDBySubject _ _ _ _ w) as [[profileID|e] w1] eqn:Ep;
    [|unfold failure in Hr; destruct (errors_Is _ _); injection Hr as E _; discriminate E].
  destruct (GetInAppMessage _ _ w1) as [[msg|e] w2] eqn:Em; [|unfold failure in Hr; destruct (errors_Is _ _); injection Hr as E _; discriminate E].
  destruct (mg_ProfileID msg =s profileID) eqn:Ei; [|injection Hr as E _; discriminate E]. apply seqb_true in Ei as <-. cbn [negb] in Hr.
  destruct (AcceptEvents _ _ w2) as [[ids|e] w3] eqn:Ae; injection Hr as E <-; [|discriminate E]. by exists s, b, msg, w1, w2, ids.
Qed.
End reported.

(** Whom an engagement's event names. *)
Definition names_subject (q : Query) (s : string) (byExternalID : bool) (e : Event) : Prop :=
  if byExternalID then ev_ExternalID e = s /\ ev_AnonymousID e = ""
  else ev_ExternalID e = "" /\ ev_AnonymousID e = s \/ s = GoMap.TrimSpace (qr_external_id q) /\ ev_ExternalID e = s /\ ev_AnonymousID e = "".

Lemma event_names q secret now s b action messageID :
  authenticate q secret now = Granted s b -> names_subject q s b (engagement_event q action s messageID now).
Proof.
  intros H. unfold authenticate in H. cbn zeta in H. destruct (_ || _) in H; [done|]. destruct (_ && _) eqn:Eb in H.
  - apply andb_prop in Eb as [_ Eb]. apply check_token_granted in H as [[= <- <-] _]. cbn. by rewrite seqb_refl, Eb.
  - destruct (negb (GoMap.TrimSpace (qr_anonymous_id q) =s "")); [|done]. apply check_token_granted in H as [[= <- <-] _]. cbn.
    clear Eb. destruct (_ && _) eqn:Ek; [right|by left]. by apply andb_prop in Ek as [->%seqb_true _].
Qed.

(** C38: the inbox and flag endpoints look a profile up by external id only
    under its token: when [authenticate] answers an external id, it is the
    request's, and the token decodes to this tenant, app, subject and a future
    expiry with their HMAC under the secret; an answer by anonymous id carries
    no token at all.  Conversely a token made by [SignInAppToken] for names
    without a bar and without outer white space is honoured until it expires.
    An engagement is reported only for a message in the inbox of the subject
    so authenticated.  Its event names a known subject who has proved to be one;
    for an anonymous one it names the anonymous id, but for the request that
    repeats it as [external_id]: that event names the external id, with no
    token ([engagement_names_anyone]). *)
Theorem known_subject_needs_token q secret now :
  (forall s, authenticate q secret now = Granted s true ->
    s = GoMap.TrimSpace (qr_external_id q) /\
    signed (GoMap.TrimSpace (qr_tenant q)) (GoMap.TrimSpace (qr_app q)) s (GoMap.TrimSpace (qr_token q)) secret now) /\
  (forall s, authenticate q secret now = Granted s false -> GoMap.TrimSpace (qr_token q) = "" /\ s = GoMap.TrimSpace (qr_anonymous_id q)) /\
  (forall expiresAt,
    Forall (fun s => GoMap.TrimSpace s = s /\ has bar s = false) [qr_tenant q; qr_app q; qr_external_id q] ->
    0 < Time.Unix expiresAt < two63 -> now < unix (Time.Unix expiresAt) ->
    SignInAppToken (qr_tenant q) (qr_app q) (qr_external_id q) expiresAt secret = Ok (qr_token q) ->
    authenticate q secret now = Granted (qr_external_id q) true) /\
  (forall (W : Type) (I : InboxStore W) allowed id action w code w',
    reportMessageEngagement allowed q id action secret now w = (Ok (200, code), w') ->
    exists s b msg w1 w2 e ids, authenticate q secret now = Granted s b /\
      GetProfileIDBySubject (GoMap.TrimSpace (qr_tenant q)) (GoMap.TrimSpace (qr_app q)) s b w = (Ok (mg_ProfileID msg), w1) /\
      GetInAppMessage (GoMap.TrimSpace (qr_tenant q)) (GoMap.TrimSpace id) w1 = (Ok msg, w2) /\
      AcceptEvents (MkPrincipal (GoMap.TrimSpace (qr_tenant q)) "" (GoMap.TrimSpace (qr_app q)) "" "" "public" []) [e] w2 = (Ok ids, w') /\
      names_subject q s b e).
Proof.
  split_and!.
  - intros s H. unfold authenticate in H. cbn zeta in H. destruct (_ || _); [done|]. destruct (_ && _) eqn:Eb.
    + apply check_token_granted in H as [[= <-] Hs]. split; [done|]. destruct Hs as [Hs|[Hs _]]; [|exact Hs].
      apply andb_prop in Eb as [Et _]. by rewrite Hs in Et.
    + destruct (negb (GoMap.TrimSpace (qr_anonymous_id q) =s "")); [|done]. apply check_token_granted in H as [H _]. discriminate H.
  - intros s H. unfold authenticate in H. cbn zeta in H. destruct (_ || _); [done|]. destruct (_ && _) eqn:Eb.
    + apply check_token_granted in H as [H _]. discriminate H.
    + destruct (negb (GoMap.TrimSpace (qr_anonymous_id q) =s "")); [|done]. apply check_token_granted in H as [[= <-] [Hs|[_ Hs]]]; [done|].
      split; [|done]. apply andb_false_iff in Eb as [Eb|Eb]; apply negb_false_iff, seqb_true in Eb; [done|]. by rewrite Eb in Hs.
  - intros expiresAt Hc He Hnow Hsign. rewrite !Forall_cons in Hc. destruct Hc as ([Et Ht] & [Ea Ha] & [Es Hs] & _).
    pose proof (inapp_token_roundtrip _ _ _ _ _ _ _ Ht Ha Hs He Hnow Hsign) as Hv. unfold SignInAppToken in Hsign.
    destruct (GoMap.blank (qr_tenant q)) eqn:Bt; [done|]. destruct (GoMap.blank (qr_app q)) eqn:Ba; [done|].
    destruct (GoMap.blank (qr_external_id q)) eqn:Bs; [done|]. destruct (_ || _) in Hsign; [done|]. injection Hsign as Hsign.
    assert (Hk : GoMap.TrimSpace (qr_token q) = qr_token q) by (rewrite <- Hsign; apply TrimSpace_spaceless, seal_spaceless).
    assert (Hn : (qr_token q =s "") = false) by (rewrite <- Hsign; apply seal_nonempty).
    unfold authenticate, check_token. cbn zeta. rewrite Et, Ea, Es, Hk, Hn, !not_blank, Hv by done. cbn. by rewrite seqb_refl.
  - intros W I allowed id action w code w' Hr. apply reported in Hr as (s & b & msg & w1 & w2 & ids & Ha & Hp & Hm & He).
    exists s, b, msg, w1, w2, (engagement_event q (GoMap.TrimSpace action) s (mg_ID msg) now), ids. repeat split; [done..|]. by apply (event_names _ secret).
Qed.

Definition demo_token (subject : string) : string :=
  match SignInAppToken "t" "a" subject (900 * Time.Second) "secret" with Ok t => t | Err _ => "" end.
Definition demo_query (subject anonymous token : string) : Query := MkQuery "t" "a" anonymous subject token.
Lemma known_subject_needs_token_witness : let q := demo_query "ada@example.test" "visitor" (demo_token "ada@example.test") in
  authenticate q "secret" 0 = Granted "ada@example.test" true /\
  signed "t" "a" "ada@example.test" (GoMap.TrimSpace (qr_token q)) "secret" 0 /\
  authenticate q "other" 0 = Refused 403 "invalid_token" /\ authenticate q "secret" (900 * Time.Second) = Refused 403 "expired_token" /\
  authenticate (demo_query "eve@example.test" "" (qr_token q)) "secret" 0 = Refused 403 "subject_mismatch".
Proof.
  intros q. destruct (known_subject_needs_token q "secret" 0) as (Hknown & _ & Hsigned & _).
  assert (H : authenticate q "secret" 0 = Granted "ada@example.test" true).
  { apply (Hsigned (900 * Time.Second)); [|split; vm_compute; reflexivity | vm_compute; reflexivity..].
    repeat constructor; vm_compute; reflexivity. }
  split; [exact H|]. split; [exact (proj2 (Hknown _ H))|]. split_and!; vm_compute; reflexivity.
Defined.

(** Whoever has an anonymous profile with a message in its inbox can report it
    in the name of any customer whose external id the profile was given as its
    anonymous one: the event names the customer, without a token. *)
Definition inbox : InboxStore (list Event) := {|
  GetProfileIDBySubject _ _ s by_ w := (if (s =s "ada") && negb by_ then Ok "visitor" else Err ErrNotFound, w);
  GetInAppMessage _ id w := (Ok (MkMessage id "visitor"), w);
  AcceptEvents _ events w := (Ok (ev_IdempotencyKey <$> events), w ++ events) |}.
Lemma engagement_names_anyone :
  let r := @reportMessageEngagement _ inbox true (demo_query "ada" "ada" "") "m1" "click" "secret" 0 [] in
  r.1 = Ok (200, "accepted") /\ ((fun e => (ev_ExternalID e, ev_AnonymousID e)) <$> r.2) = [("ada", "")].
Proof. vm_compute. split; reflexivity. Qed.

(** A subject with a bar is signed, and its token never verifies. *)
Lemma bar_subject_refused :
  demo_token "crm|42" <> "" /\ VerifyInAppToken (demo_token "crm|42") "t" "a" "secret" 0 = Err ErrInvalidInAppToken.
Proof. split; [vm_compute; discriminate | vm_compute; reflexivity]. Qed.

(** ** Form tokens *)

(** What SignFormToken signs verifies until it expires. *)
Lemma form_token_roundtrip formID version expiresAt secret now token :
  has bar formID = false -> has dot formID = false -> version < two63 -> 0 < Time.Unix expiresAt < two63 -> now < unix (Time.Unix expiresAt) ->
  SignFormToken formID version expiresAt secret = Ok token ->
  VerifyFormToken token formID version secret now = Ok (MkFormToken formID version (unix (Time.Unix expiresAt))).
Proof.
  intros Hb Hd Hv He Hnow. unfold SignFormToken. destruct (GoMap.blank formID) eqn:Ef; [done|]. destruct (version <? 1) eqn:Ev; [done|].
  destruct (secret =s "") eqn:Es; [done|]. destruct (Time.IsZero expiresAt); [done|]. cbn [orb]. intros [= <-].
  unfold VerifyFormToken. rewrite seal_nonempty, (not_blank _ Ef), Ev, Es. cbn [orb]. set (payload := formID +:+ _).
  assert (Hp : has dot payload = false).
  { unfold payload. rewrite !has_app, Hd, !digits_no_dot by lia. done. }
  rewrite unseal. change (Split dot _) with (Split dot (payload +:+ String dot (EncodeToString (HMAC secret payload)))).
  rewrite Split_app, Split_none by (try apply encoded_no_dot, HMAC_range; done). rewrite signed_by_seal. cbn [negb]. unfold payload.
  change (Split bar _) with (Split bar (formID +:+ String bar (GoStr.of_Z version +:+ String bar (GoStr.of_Z (Time.Unix expiresAt))))).
  rewrite !Split_app, Split_none by (try apply digits_no_bar; done || lia). rewrite seqb_refl, !AudienceSpec.Atoi_of_Z by lia. cbn [negb].
  rewrite Z.eqb_refl, (proj2 (Z.leb_gt _ _)), (proj2 (Z.ltb_lt _ _)) by lia. done.
Qed.

(** A form token is a function of the second it expires in: everybody a page is
    served to within one second has the same token. *)
Lemma form_token_shared formID version expiresAt1 expiresAt2 secret :
  Time.Unix expiresAt1 = Time.Unix expiresAt2 -> Time.IsZero expiresAt1 = Time.IsZero expiresAt2 ->
  SignFormToken formID version expiresAt1 secret = SignFormToken formID version expiresAt2 secret.
Proof. unfold SignFormToken. by intros -> ->. Qed.

(** A line feed inside a token changes nothing but the keys made from it. *)
Lemma altered_token_verifies token a b id v secret now :
  token = a +:+ b -> a <> "" -> VerifyFormToken (a +:+ LF +:+ b) id v secret now = VerifyFormToken token id v secret now.
Proof.
  intros -> Ha. unfold VerifyFormToken. rewrite DecodeString_LF. destruct a as [|c a]; [done|]. by rewrite !sapp_cons.
Qed.

End PublicGuardSpec.
