(* ===== verification/FormSubmit.v ===== *)
(** * Public form submissions (src/internal/httpapi/form_submit.go,
    src/internal/forms/forms.go, src/internal/schemas/schemas.go)

    The endpoint that turns a visitor's form into events: its guards in order,
    the attributes and the subject it derives, the events under the token's
    idempotency keys, and the recorded submission; then what one token admits:
    the retry of a submission, and the submission of somebody else. *)

From S2P Require Import Prelude.
From S2P Require Import GoStd.
From S2P Require Import GoMap.
From S2P Require Import GoFloat.
From S2P Require Import Sha256.
From S2P Require Import Domain.
From S2P Require Import GoFmt.
From S2P Require Import MakerChecker.
From S2P Require Import Forms.
From S2P Require Import Ingest.
From S2P Require Import IngestSpec.
From S2P Require Import PublicGuard.

Module FormSubmit.

(** ** Definitions of published forms *)

Record Definition_ : Type := MkDefinition {
  de_Fields : option (list Forms.Field); de_Schema : RawMessage; de_SubmitActions : option (list (string * json))
}.
Definition definition_fields : list (string * Json.setter Definition_) :=
  [("fields", fun j d => match j with
                         | JNull => Some (MkDefinition None (de_Schema d) (de_SubmitActions d))
                         | _ => Json.set_list (fun j => Json.decode_struct Forms.field_fields j Forms.no_field)
                                  (fun l d => MkDefinition (Some l) (de_Schema d) (de_SubmitActions d)) j d
                         end);
   ("schema", Json.set_raw (fun r d => MkDefinition (de_Fields d) r (de_SubmitActions d)));
   ("submit_actions", Json.set_map (fun m d => MkDefinition (de_Fields d) (de_Schema d) m))].
Definition read_definition (definition : RawMessage) : result Definition_ :=
  Json.Unmarshal definition_fields (MkDefinition None RawEmpty None) definition.
Definition FieldsFromDefinition (definition : RawMessage) : list Forms.Field :=
  match read_definition definition with Ok def => default [] (de_Fields def) | Err _ => [] end.

Section schemas.
(** The third-party JSON Schema compiler, and its validator. *)
Context {Schema : Type} (jsonschema_compile : RawMessage -> result Schema) (jsonschema_validate : Schema -> any -> result unit).

Definition Compile (schema : RawMessage) : result Schema := wrapw "invalid schema: %w" (jsonschema_compile schema).
Definition Validator_Validate (v : Schema) (payload : RawMessage) : result unit :=
  j ← Json.parse payload;
  if Any.decodes j then wrapw "payload does not match schema: %w" (jsonschema_validate v (Any.decode j)) else Err Json.type_error.
Definition Validate (schema payload : RawMessage) : result unit := validator ← Compile schema; Validator_Validate validator payload.
Definition ValidateSubmission (definition payload : RawMessage) : result unit :=
  def ← read_definition definition; Validate (de_Schema def) payload.

(** ** What a submission says *)

(** The decoded body; [None] is a nil map. *)
Record Request : Type := MkRequest {
  rq_FormToken : string; rq_Token : string; rq_Honeypot : string; rq_Website : string;
  rq_Values : option (list (string * any)); rq_UTM : option (list (string * any)); rq_Captcha : string
}.
Definition token_of (r : Request) : string :=
  let token := GoMap.TrimSpace (rq_FormToken r) in if token =s "" then GoMap.TrimSpace (rq_Token r) else token.
Definition values_of (r : Request) : list (string * any) := default [] (rq_Values r).
Definition values_json (r : Request) : json := GoFmt.to_json (AMap (values_of r)).
Definition utm_json (r : Request) : json := match rq_UTM r with Some l => GoFmt.to_json (AMap l) | None => JNull end.

Definition map_field (values : list (string * any)) (attrs : list (string * any)) (field : Forms.Field) : list (string * any) :=
  match Any.lookup (Forms.fd_Key field) values with
  | Some value => if Forms.fd_MapsTo field =s "" then attrs else Any.insert_key (Forms.fd_MapsTo field) value attrs
  | None => attrs
  end.
Definition attributes (fields : list Forms.Field) (r : Request) : list (string * any) :=
  foldl (fun attrs kv => Any.insert_key ("utm_" +:+ kv.1) kv.2 attrs) (foldl (map_field (values_of r)) [] fields) (default [] (rq_UTM r)).
Fixpoint first_text (keys : list string) (attrs : list (string * any)) : string :=
  match keys with
  | [] => ""
  | key :: keys' =>
      match Any.lookup key attrs with
      | Some (AString value) => if GoMap.blank value then first_text keys' attrs else value
      | _ => first_text keys' attrs
      end
  end.
Definition subject (fields : list Forms.Field) (r : Request) : string :=
  let externalID := first_text ["external_id"; "email"; "phone"] (attributes fields r) in
  if externalID =s "" then "form:" +:+ token_of r else externalID.

Definition consents (values : list (string * any)) (field : Forms.Field) : bool :=
  Forms.fd_Consent field && match Any.lookup (Forms.fd_Key field) values with Some (ABool true) => true | _ => false end.

(** ** The events *)

(** [json.Marshal] of a [time.Time]. *)
Context (time_text : Z -> string).

Definition form_event (type externalID key : string) (occurredAt : Z) (payload : json) : Event :=
  MkEvent type 1 externalID "" key occurredAt "form" "" "" "" "" "" RawEmpty (Raw payload).
Definition profile_payload (fields : list Forms.Field) (r : Request) : json := JObject [("attributes", GoFmt.to_json (AMap (attributes fields r)))].
Definition submitted_payload (formID : string) (version : Z) (r : Request) : json :=
  JObject [("form_id", JString formID); ("form_version", JNumber (GoStr.of_Z version)); ("utm", utm_json r); ("values", values_json r)].
Definition consent_payload (formID ip : string) (now : Z) (field : Forms.Field) : json :=
  JObject [("channel", JString (if Forms.fd_MapsTo field =s "" then "email" else Forms.fd_MapsTo field));
           ("evidence", JObject [("form_id", JString formID); ("ip", JString ip); ("timestamp", JString (time_text now))]);
           ("state", JString "subscribed"); ("topic", JString "marketing")].
(** [clock n] is the [n]th reading of [time.Now]: of the limiter, of the token's
    check, then one for each consent. *)
Fixpoint consent_events (token externalID formID ip : string) (occurredAt : Z) (clock : nat -> Z) (n : nat) (values : list (string * any))
    (fields : list Forms.Field) : list Event :=
  match fields with
  | [] => []
  | field :: fields' =>
      if consents values field
      then form_event "consent.changed" externalID (token +:+ ":consent:" +:+ Forms.fd_Key field) occurredAt
             (consent_payload formID ip (clock n) field) :: consent_events token externalID formID ip occurredAt clock (S n) values fields'
      else consent_events token externalID formID ip occurredAt clock n values fields'
  end.
Definition form_events (fields : list Forms.Field) (formID : string) (version expiresAt : Z) (r : Request) (ip : string) (clock : nat -> Z) : list Event :=
  let token := token_of r in
  let externalID := subject fields r in
  let occurredAt := Time.Add expiresAt (- Time.Second) in
  form_event "profile.updated" externalID (token +:+ ":profile") occurredAt (profile_payload fields r) ::
  form_event "form.submitted" externalID (token +:+ ":submitted") occurredAt (submitted_payload formID version r) ::
  consent_events token externalID formID ip occurredAt clock 2 (values_of r) fields.

(** ** The handler *)

Record World : Type := MkWorld {
  w_forms : Forms.FDB; w_events : Ingest.QDB;
  w_apps : list (string * string * string);
  w_limiter : option PublicGuard.IPRateLimiter
}.
Definition set_limiter l w := MkWorld (w_forms w) (w_events w) (w_apps w) l.
Definition set_events d w := MkWorld (w_forms w) d (w_apps w) (w_limiter w).
Definition set_forms d w := MkWorld d (w_events w) (w_apps w) (w_limiter w).

(** SELECT id FROM applications ... ORDER BY id LIMIT 1. *)
Definition GetFirstAppID (tenantID workspaceID : string) (w : World) : result string :=
  match GoMap.sort_by GoMap.str_less ((fun a => a.1.1) <$> filter (fun a => (a.1.2 =s tenantID) && (a.2 =s workspaceID) = true) (w_apps w)) with
  | id :: _ => Ok id
  | [] => Err Ingest.ErrNoRows
  end.

(** The status and the error's code. *)
Inductive answer : Type := Answer (status : Z) (code : string).
Definition accepted : answer := Answer 202 "".

Context (uuid_ok : string -> bool) (secret : string).
(** [captchaVerifier.Verify]; the default accepts. *)
Context (captcha : string -> string -> result unit).

Definition allow_client (ip : string) (now : Z) (w : World) : bool * World :=
  match w_limiter w with
  | None => (true, w)
  | Some l => let '(ok, l') := PublicGuard.Allow ip now l in (ok, set_limiter (Some l') w)
  end.

Definition form_principal (form : Forms.Form) (appID : string) : Principal :=
  MkPrincipal (Forms.fm_TenantID form) (Forms.fm_WorkspaceID form) appID "" "" "public" [].
(** What is checked before anything is written. *)
Definition checked (formId : string) (r : Request) (ip : string) (clock : nat -> Z) (w : World) :
    answer + (Forms.Form * Forms.FormVersion * string * PublicGuard.FormToken) :=
  match Forms.GetPublishedForm formId (w_forms w) with
  | Err _ => inl (Answer 404 "not_found")
  | Ok (form, version) =>
      match GetFirstAppID (Forms.fm_TenantID form) (Forms.fm_WorkspaceID form) w with
      | Err _ => inl (Answer 500 "internal_error")
      | Ok appID =>
          match PublicGuard.VerifyFormToken (token_of r) (Forms.fm_ID form) (Forms.fw_Version version) secret (clock 1%nat) with
          | Err _ => inl (Answer 403 "invalid_form_token")
          | Ok verified =>
              match captcha (rq_Captcha r) ip with
              | Err _ => inl (Answer 403 "captcha_failed")
              | Ok _ =>
                  match ValidateSubmission (Forms.fw_Definition version) (Raw (values_json r)) with
                  | Err _ => inl (Answer 422 "invalid_values")
                  | Ok _ => inr (form, version, appID, verified)
                  end
              end
          end
      end
  end.
Definition events_for (form : Forms.Form) (version : Forms.FormVersion) (verified : PublicGuard.FormToken) (r : Request) (ip : string)
    (clock : nat -> Z) : list Event :=
  form_events (FieldsFromDefinition (Forms.fw_Definition version)) (Forms.fm_ID form) (Forms.fw_Version version) (PublicGuard.ft_ExpiresAt verified) r ip clock.
Definition record (p : Principal) (form : Forms.Form) (version : Forms.FormVersion) (r : Request) (ids : list string) (w : World) : answer * World :=
  match ids with
  | [] => (accepted, w)
  | id :: _ =>
      match Forms.RecordFormSubmission uuid_ok p (Forms.fm_ID form) (Forms.fw_Version version) (Raw (values_json r)) (Raw (utm_json r)) id (w_forms w) with
      | (Err _, d) => (Answer 500 "internal_error", set_forms d w)
      | (Ok _, d) => (accepted, set_forms d w)
      end
  end.
Definition submitPublicForm (formId : string) (body : option Request) (ip : string) (clock : nat -> Z) (w : World) : answer * World :=
  let '(ok, w) := allow_client ip (clock 0%nat) w in
  if negb ok then (Answer 429 "rate_limited", w) else
  match body with
  | None => (Answer 400 "invalid_json", w)
  | Some r =>
      if negb (PublicGuard.HoneypotEmpty (rq_Honeypot r)) || negb (PublicGuard.HoneypotEmpty (rq_Website r)) then (Answer 200 "", w) else
      match checked formId r ip clock w with
      | inl a => (a, w)
      | inr (form, version, appID, verified) =>
          let p := form_principal form appID in
          match Ingest.AcceptEvents uuid_ok p (events_for form version verified r ip clock) (w_events w) with
          | (Err _, d) => (Answer 500 "internal_error", set_events d w)
          | (Ok ids, d) => record p form version r ids (set_events d w)
          end
      end
  end.

End schemas.
End FormSubmit.

Module FormSubmitSpec.
Import FormSubmit.

(** ** Events under a stored key *)

(** Two events that one key cannot stand for. *)
Definition clash (e1 e2 : Event) : Prop :=
  ev_ExternalID e1 <> ev_ExternalID e2 \/ Any.DeepEqual (Ingest.decoded (ev_Payload e1)) (Ingest.decoded (ev_Payload e2)) = false.

Lemma clash_differs a e1 e2 : clash e1 e2 -> Ingest.differs a (Ingest.normalise e1) = false -> Ingest.differs a (Ingest.normalise e2) = true.
Proof.
  unfold Ingest.differs. simpl. rewrite !orb_false_iff, !negb_false_iff, !seqb_true.
  intros Hc (((((_ & _) & Hx) & _) & _) & Hp). destruct Hc as [Hc|Hc].
  - rewrite Hx, (proj2 (seqb_false _ _) Hc). simpl. by rewrite !orb_true_r.
  - destruct (Any.DeepEqual (Ingest.decoded (ae_Payload a)) (Ingest.decoded (ev_Payload e2))) eqn:E; [|simpl; by rewrite !orb_true_r].
    by rewrite (Any.DeepEqual_euclid _ _ _ Hp E) in Hc.
Qed.

(** An accepted batch leaves a row for each event. *)
Lemma accepted_rows uuid_ok p l d ids d1 e : IngestSpec.log_ok d -> Ingest.AcceptEvents uuid_ok p l d = (Ok ids, d1) -> e ∈ l ->
  exists i a, Ingest.q_accepted d1 !! i = Some a /\ Ingest.same_key p e a = true /\ Ingest.differs a (Ingest.normalise e) = false.
Proof.
  intros Hok H He. apply IngestSpec.AcceptEvents_Ok in H as (b & m & d0 & x & _ & _ & Hall & _ & ->).
  destruct (IngestSpec.accept_all_settles _ _ _ _ _ Hok Hall) as (_ & Hs & _). apply list_elem_of_lookup in He as [n Hn].
  destruct (Forall2_lookup_l _ _ _ _ _ Hs Hn) as (id & _ & [(a & Ha & _ & Hd) _ _ _ _]).
  apply IngestSpec.find_accepted_Some in Ha as [[i Hi] Hk]. by exists i, a.
Qed.

Lemma tx_rolls_back {A} (m : Ingest.Q A) d err d' : Ingest.tx m d = (Err err, d') -> d' = d.
Proof. unfold Ingest.tx. destruct (m d) as [[x|e] y]; [discriminate|]. by intros [= _ <-]. Qed.

(** Once accepted, a key refuses every batch with an event that clashes. *)
Lemma clash_refused uuid_ok p l1 l2 d ids d1 d2 e1 e2 :
  IngestSpec.log_ok d -> Ingest.AcceptEvents uuid_ok p l1 d = (Ok ids, d1) -> IngestSpec.log_ok d2 -> Ingest.q_accepted d1 ⊆ Ingest.q_accepted d2 ->
  e1 ∈ l1 -> e2 ∈ l2 -> ev_IdempotencyKey e1 = ev_IdempotencyKey e2 -> clash e1 e2 ->
  exists err, Ingest.AcceptEvents uuid_ok p l2 d2 = (Err err, d2).
Proof.
  intros Hok H Hok2 Hsub He1 He2 Hkey Hc. destruct (accepted_rows _ _ _ _ _ _ _ Hok H He1) as (i & a & Hi & Hk & Hd).
  destruct (IngestSpec.conflict_all p l2 e2 d2 i a Hok2) as [err Herr]; [by eapply lookup_weaken | done | | by eapply clash_differs |].
  { unfold Ingest.same_key in *. simpl. by rewrite <- Hkey. }
  destruct (Ingest.AcceptEvents uuid_ok p l2 d2) as [[ids2|err2] d3] eqn:E.
  - apply IngestSpec.AcceptEvents_Ok in E as (_ & _ & ? & _ & _ & _ & E & _). by rewrite E in Herr.
  - exists err2. by rewrite (tx_rolls_back _ _ _ _ E).
Qed.

(** ** Reading a success backwards *)

Section handler.
Context {Schema : Type} (jsonschema_compile : RawMessage -> result Schema) (jsonschema_validate : Schema -> any -> result unit).
Context (time_text : Z -> string) (uuid_ok : string -> bool) (secret : string) (captcha : string -> string -> result unit).

Abbreviation checked := (checked jsonschema_compile jsonschema_validate secret captcha).
Abbreviation form_events := (form_events time_text).
Abbreviation events_for := (events_for time_text).
Abbreviation submitPublicForm := (submitPublicForm jsonschema_compile jsonschema_validate time_text uuid_ok secret captcha).

Lemma allow_client_frame ip now w : w_forms (allow_client ip now w).2 = w_forms w /\ w_events (allow_client ip now w).2 = w_events w /\ w_apps (allow_client ip now w).2 = w_apps w.
Proof. unfold allow_client. destruct (w_limiter w) as [l|]; [|done]. by destruct (PublicGuard.Allow ip now l). Qed.

(** The checks read the forms and the applications only. *)
Lemma checked_ext formId r ip clock w w' : w_forms w' = w_forms w -> w_apps w' = w_apps w -> checked formId r ip clock w' = checked formId r ip clock w.
Proof. intros Hf Ha. unfold FormSubmit.checked, GetFirstAppID. by rewrite Hf, Ha. Qed.

Lemma checked_inr formId r ip clock w form version appID verified : checked formId r ip clock w = inr (form, version, appID, verified) ->
  Forms.GetPublishedForm formId (w_forms w) = Ok (form, version) /\
  GetFirstAppID (Forms.fm_TenantID form) (Forms.fm_WorkspaceID form) w = Ok appID /\
  PublicGuard.VerifyFormToken (token_of r) (Forms.fm_ID form) (Forms.fw_Version version) secret (clock 1%nat) = Ok verified /\
  captcha (rq_Captcha r) ip = Ok tt /\
  ValidateSubmission jsonschema_compile jsonschema_validate (Forms.fw_Definition version) (Raw (values_json r)) = Ok tt.
Proof.
  unfold FormSubmit.checked. destruct (Forms.GetPublishedForm _ _) as [[f v]|] eqn:E1; [|done]. destruct (GetFirstAppID _ _ _) eqn:E2; [|done].
  destruct (PublicGuard.VerifyFormToken _ _ _ _ _) eqn:E3; [|done]. destruct (captcha _ _) as [[]|] eqn:E4; [|done].
  destruct (ValidateSubmission _ _ _ _) as [[]|] eqn:E5; [|done]. by intros [= <- <- <- <-].
Qed.

Definition honest (r : Request) : bool := PublicGuard.HoneypotEmpty (rq_Honeypot r) && PublicGuard.HoneypotEmpty (rq_Website r).

(** What an accepted submission went through. *)
Lemma submit_accepted formId body ip clock w w' : submitPublicForm formId body ip clock w = (accepted, w') ->
  exists r form version appID verified ids, body = Some r /\ honest r = true /\ checked formId r ip clock w = inr (form, version, appID, verified) /\
    Ingest.AcceptEvents uuid_ok (form_principal form appID) (events_for form version verified r ip clock) (w_events w) = (Ok ids, w_events w') /\
    record uuid_ok (form_principal form appID) form version r ids (set_events (w_events w') (allow_client ip (clock 0%nat) w).2) = (accepted, w').
Proof.
  unfold FormSubmit.submitPublicForm. pose proof (allow_client_frame ip (clock 0%nat) w) as (Hf & He & Ha). destruct (allow_client _ _ w) as [[] w0]; simpl in *; [|done].
  destruct body as [r|]; [|done]. destruct (honest r) eqn:Eh; [|by rewrite <- negb_andb; fold (honest r); rewrite Eh]. rewrite <- negb_andb. fold (honest r).
  rewrite Eh, (checked_ext _ _ _ _ w w0 Hf Ha). cbn [negb].
  destruct (checked formId r ip clock w) as [a|[[[form version] appID] verified]] eqn:Ec.
  { intros [= -> _]. exfalso. revert Ec. unfold FormSubmit.checked. by repeat case_match. }
  rewrite He. destruct (Ingest.AcceptEvents _ _ _ _) as [[ids|err] d] eqn:Eq; [|done]. intros Hr.
  assert (Ed : w_events w' = d).
  { revert Hr. unfold record. destruct ids; [by intros [= <-]|]. by destruct (Forms.RecordFormSubmission _ _ _ _ _ _ _ _) as [[?|?] ?]; intros [= <-]. }
  exists r, form, version, appID, verified, ids. by rewrite Ed.
Qed.

(** A refusal writes nothing, and a failure of the acceptance neither. *)
Lemma submit_refused formId r ip clock w : (forall form version appID verified, checked formId r ip clock w = inr (form, version, appID, verified) ->
    exists err, Ingest.AcceptEvents uuid_ok (form_principal form appID) (events_for form version verified r ip clock) (w_events w) = (Err err, w_events w)) ->
  (submitPublicForm formId (Some r) ip clock w).1 <> accepted /\
  w_events (submitPublicForm formId (Some r) ip clock w).2 = w_events w /\ w_forms (submitPublicForm formId (Some r) ip clock w).2 = w_forms w.
Proof.
  intros H. unfold FormSubmit.submitPublicForm. pose proof (allow_client_frame ip (clock 0%nat) w) as (Hf & He & Ha). destruct (allow_client _ _ w) as [[] w0]; simpl in *; [|done].
  destruct (_ || _); [done|]. rewrite (checked_ext _ _ _ _ w w0 Hf Ha).
  destruct (checked formId r ip clock w) as [a|[[[form version] appID] verified]] eqn:Ec.
  { simpl. split; [|done]. intros ->. revert Ec. unfold FormSubmit.checked. by repeat case_match. }
  destruct (H _ _ _ _ eq_refl) as [err He']. rewrite He, He'. done.
Qed.

(** ** One token, one submission *)

(** What a second request says that the first did not: another subject, other
    values, or a consent, whose evidence is stamped with the clock. *)
Definition says_otherwise (fields : list Forms.Field) (r1 r2 : Request) (clock1 clock2 : nat -> Z) : Prop :=
  subject fields r1 <> subject fields r2 \/
  Any.DeepEqual (Any.decode (values_json r1)) (Any.decode (values_json r2)) = false \/
  (exists field, field ∈ fields /\ consents (values_of r1) field = true /\ consents (values_of r2) field = true) /\
    (forall i j, time_text (clock1 i) <> time_text (clock2 j)).

Lemma submitted_clash formID version r1 r2 k x1 x2 o1 o2 :
  x1 <> x2 \/ Any.DeepEqual (Any.decode (values_json r1)) (Any.decode (values_json r2)) = false ->
  clash (form_event "form.submitted" x1 k o1 (submitted_payload formID version r1)) (form_event "form.submitted" x2 k o2 (submitted_payload formID version r2)).
Proof.
  intros [H|H]; [by left|]. right. unfold submitted_payload. cbn [form_event ev_Payload Ingest.decoded]. revert H.
  generalize (values_json r1), (values_json r2), (utm_json r1), (utm_json r2), (JNumber (GoStr.of_Z version)). intros v1 v2 u1 u2 n H.
  simpl. by rewrite H, !andb_false_r.
Qed.

Lemma consent_clash formID field ip1 ip2 t1 t2 k x1 x2 o1 o2 : time_text t1 <> time_text t2 ->
  clash (form_event "consent.changed" x1 k o1 (consent_payload time_text formID ip1 t1 field))
        (form_event "consent.changed" x2 k o2 (consent_payload time_text formID ip2 t2 field)).
Proof. intros H%seqb_false. right. simpl. rewrite H. by rewrite !andb_false_r. Qed.

Lemma consent_event_in token x formID ip o clock n values fields field : field ∈ fields -> consents values field = true -> exists m,
  form_event "consent.changed" x (token +:+ ":consent:" +:+ Forms.fd_Key field) o (consent_payload time_text formID ip (clock m) field)
    ∈ consent_events time_text token x formID ip o clock n values fields.
Proof.
  revert n. induction fields as [|f fields IH]; intros n; [by intros ?%elem_of_nil|]. intros Hf Hc. cbn [consent_events].
  apply elem_of_cons in Hf as [->|Hf].
  - rewrite Hc. eexists. apply list_elem_of_here.
  - destruct (consents values f); [|by apply IH]. destruct (IH (S n) Hf Hc) as [m Hm]. exists m. by apply list_elem_of_further.
Qed.

Lemma events_clash fields formID version x1 x2 r1 r2 ip1 ip2 c1 c2 : token_of r2 = token_of r1 -> says_otherwise fields r1 r2 c1 c2 ->
  exists e1 e2, e1 ∈ form_events fields formID version x1 r1 ip1 c1 /\ e2 ∈ form_events fields formID version x2 r2 ip2 c2 /\
    ev_IdempotencyKey e1 = ev_IdempotencyKey e2 /\ clash e1 e2.
Proof.
  intros Ht Hs. unfold FormSubmit.form_events. cbn zeta. rewrite Ht. assert (Hs' : (subject fields r1 <> subject fields r2 \/
    Any.DeepEqual (Any.decode (values_json r1)) (Any.decode (values_json r2)) = false) \/
    (exists field, field ∈ fields /\ consents (values_of r1) field = true /\ consents (values_of r2) field = true) /\
    (forall i j, time_text (c1 i) <> time_text (c2 j))) by (unfold says_otherwise in Hs; tauto). clear Hs. destruct Hs' as [Hs|[(field & Hf & Hc1 & Hc2) Hc]].
  - do 2 eexists. split; [apply list_elem_of_further, list_elem_of_here|]. split; [apply list_elem_of_further, list_elem_of_here|].
    split; [done|]. by apply submitted_clash.
  - destruct (consent_event_in (token_of r1) (subject fields r1) formID ip1 (Time.Add x1 (- Time.Second)) c1 2 (values_of r1) fields field Hf Hc1) as [i Hi].
    destruct (consent_event_in (token_of r1) (subject fields r2) formID ip2 (Time.Add x2 (- Time.Second)) c2 2 (values_of r2) fields field Hf Hc2) as [j Hj].
    do 2 eexists. split; [do 2 apply list_elem_of_further; exact Hi|]. split; [do 2 apply list_elem_of_further; exact Hj|].
    split; [done|]. by apply consent_clash.
Qed.

(** C39: A form token admits one submission: after a submission was accepted,
    every other one with the same token, while the form's published version and
    the table of apps (whose first one the events are accepted for) are what
    they were -- by another visitor whom the page was served to within the same second,
    with another subject or other values, or the same request again when it
    gives a consent -- is not accepted, whatever was accepted in between, and
    stores no event and no submission. *)
Theorem token_admits_one formId r1 r2 ip1 ip2 c1 c2 w w1 w2 form version :
  IngestSpec.log_ok (w_events w) -> Forms.GetPublishedForm formId (w_forms w) = Ok (form, version) ->
  submitPublicForm formId (Some r1) ip1 c1 w = (accepted, w1) ->
  IngestSpec.log_ok (w_events w2) -> Ingest.q_accepted (w_events w1) ⊆ Ingest.q_accepted (w_events w2) ->
  Forms.GetPublishedForm formId (w_forms w2) = Ok (form, version) -> w_apps w2 = w_apps w ->
  token_of r2 = token_of r1 -> says_otherwise (FieldsFromDefinition (Forms.fw_Definition version)) r1 r2 c1 c2 ->
  let out := submitPublicForm formId (Some r2) ip2 c2 w2 in
  out.1 <> accepted /\ w_events out.2 = w_events w2 /\ w_forms out.2 = w_forms w2.
Proof.
  intros Hok Hf H Hok2 Hsub Hf2 Ha Ht Hs. apply submit_accepted in H as (r & f & v & app & t1 & ids & [= <-] & _ & Hc & He & _).
  apply checked_inr in Hc as (Hf' & Happ & _). rewrite Hf in Hf'. injection Hf' as <- <-. apply submit_refused. intros f v app2 t2 Hc2.
  apply checked_inr in Hc2 as (Hf2' & Happ2 & _). rewrite Hf2 in Hf2'. injection Hf2' as <- <-. unfold GetFirstAppID in Happ, Happ2.
  rewrite Ha, Happ in Happ2. injection Happ2 as <-. unfold FormSubmit.events_for in *.
  destruct (events_clash _ (Forms.fm_ID form) (Forms.fw_Version version) (PublicGuard.ft_ExpiresAt t1) (PublicGuard.ft_ExpiresAt t2) r1 r2 ip1 ip2 c1 c2 Ht Hs)
    as (e1 & e2 & He1 & He2 & Hk & Hx).
  exact (clash_refused _ _ _ _ _ _ _ _ e1 e2 Hok He Hok2 Hsub He1 He2 Hk Hx).
Qed.

(** ** The retry of a submission *)

Lemma events_retry fields formID version x r ip c1 c2 : Forall (fun field => consents (values_of r) field = false) fields ->
  form_events fields formID version x r ip c1 = form_events fields formID version x r ip c2.
Proof.
  intros H. unfold FormSubmit.form_events. cbn zeta. do 2 f_equal. generalize 2%nat, (subject fields r). induction H as [|f fields Hf _ IH]; intros n x'; [done|].
  cbn [consent_events]. rewrite Hf. apply IH.
Qed.

(** A token's expiry does not depend on when it is verified. *)
Lemma VerifyFormToken_expiry token id v now1 now2 t1 t2 :
  PublicGuard.VerifyFormToken token id v secret now1 = Ok t1 -> PublicGuard.VerifyFormToken token id v secret now2 = Ok t2 -> t1 = t2.
Proof. unfold PublicGuard.VerifyFormToken. repeat case_match; try done. by intros [= <-] [= <-]. Qed.

Lemma RecordFormSubmission_again p formID version payload utm id d u d' d2 :
  Forms.RecordFormSubmission uuid_ok p formID version payload utm id d = (Ok u, d') -> Forms.fb_submissions d' ⊆ Forms.fb_submissions d2 ->
  Forms.RecordFormSubmission uuid_ok p formID version payload utm id d2 = (Ok tt, d2).
Proof.
  unfold Forms.RecordFormSubmission. destruct (MakerChecker.jsonb_column payload); [|done]. destruct (uuid_ok id); [|done]. cbn [negb].
  set (mine := fun s : Forms.Submission => _). intros H Hsub.
  assert (Hin : existsb mine (Forms.fb_submissions d') = true).
  { destruct (existsb mine (Forms.fb_submissions d)) eqn:Ex; [by injection H as _ <-|].
    destruct (Forms.fb_forms d !! formID); [|done]. injection H as _ <-. simpl. rewrite existsb_app. unfold mine. simpl.
    by rewrite !seqb_refl, orb_true_r. }
  apply existsb_exists in Hin as (x & Hx & Em).
  assert (existsb mine (Forms.fb_submissions d2) = true) as ->; [|done].
  apply existsb_exists. exists x. split; [|done]. apply list_elem_of_In, Hsub. by apply list_elem_of_In.
Qed.

Lemma record_again p form version r ids w w' w2 : record uuid_ok p form version r ids w = (accepted, w') ->
  Forms.fb_submissions (w_forms w') ⊆ Forms.fb_submissions (w_forms w2) -> record uuid_ok p form version r ids w2 = (accepted, w2).
Proof.
  unfold record. destruct ids as [|id ids]; [done|]. intros H Hw.
  destruct (Forms.RecordFormSubmission _ _ _ _ _ _ _ (w_forms w)) as [[u|] d] eqn:E; [|done]. injection H as <-.
  rewrite (RecordFormSubmission_again _ _ _ _ _ _ _ _ _ _ E Hw). by destruct w2.
Qed.

(** Recording writes the submissions only. *)
Lemma record_frame p form version r ids w a w' : record uuid_ok p form version r ids w = (a, w') ->
  w_apps w' = w_apps w /\ w_events w' = w_events w /\ forall id, Forms.GetPublishedForm id (w_forms w') = Forms.GetPublishedForm id (w_forms w).
Proof.
  unfold record. destruct ids as [|id ids]; [by intros [= _ <-]|]. unfold Forms.RecordFormSubmission.
  destruct (MakerChecker.jsonb_column _); [|by intros [= _ <-]]. by repeat case_match; intros; simplify_eq.
Qed.

Lemma events_length fields formID version x r ip clock : Forall (fun field => consents (values_of r) field = false) fields ->
  length (form_events fields formID version x r ip clock) = 2%nat.
Proof.
  intros H. unfold FormSubmit.form_events. cbn zeta. simpl. do 2 f_equal. generalize 2%nat, (subject fields r). induction H as [|f fields Hf _ IH]; intros n x'; [done|].
  cbn [consent_events]. rewrite Hf. apply IH.
Qed.


End handler.
End FormSubmitSpec.

(** ** A page, two visitors, a retry *)

Module FormWorld.
Import FormSubmit FormSubmitSpec.

Definition page_form : Forms.Form := Forms.MkForm "f1" "t" "w" "Newsletter" "published" (Raw (JObject [])) (Some "v1") 1 0.
Definition definition : json :=
  JObject [("fields", JArray [JObject [("key", JString "email"); ("type", JString "email"); ("maps_to", JString "email")];
                              JObject [("key", JString "optin"); ("type", JString "boolean"); ("consent", JBool true)]]);
           ("schema", JObject [("type", JString "object")])].
Definition page_version : Forms.FormVersion := Forms.MkFormVersion "v1" "f1" "t" 1 (Raw definition) "m1" "u1" 0.
Definition start : World :=
  MkWorld (Forms.MkFDB {["f1" := page_form]} {["v1" := page_version]} [] (MakerChecker.MkCDB ∅ (AuditLog.Audit.MkADB [] ∅ 0) ∅ 0))
    (Ingest.MkQDB ∅ ∅ 0 [] {["t" := (100, 100)]} ∅ [] [] [] (AuditLog.Audit.MkADB [] ∅ 0) ∅ ∅ 0)
    [("app", "t", "w")] (Some (PublicGuard.NewIPRateLimiter PublicGuard.one 10)).

(** The token of a page served at [t], in milliseconds. *)
Definition page_token (t : Z) : string :=
  match PublicGuard.SignFormToken "f1" 1 (t * Time.Millisecond + 15 * Time.Minute) "secret" with Ok token => token | Err _ => "" end.
Definition request (token email : string) (optin : bool) : Request :=
  MkRequest token "" "" "" (Some [("email", AString email); ("optin", ABool optin)]) None "".
Definition at_ (t : Z) (n : nat) : Z := t * Time.Second.
Definition submit : Request -> Z -> World -> answer * World := fun r t w =>
  submitPublicForm (fun r => Ok r) (fun _ _ => Ok tt) GoStr.of_Z (fun _ => true) "secret" (fun _ _ => Ok tt) "f1" (Some r) "1.2.3.4" (at_ t) w.
Definition after (r : Request) (t : Z) : World := (submit r t start).2.

Lemma start_ok : IngestSpec.log_ok (w_events start).
Proof.
  assert (E : Ingest.q_accepted (w_events start) = ∅) by reflexivity.
  split; [intros i a | intros i j a b]; by rewrite E, lookup_empty.
Qed.

(** An accepted batch keeps the log in order. *)
Lemma AcceptEvents_log_ok uuid_ok p l d ids d1 : IngestSpec.log_ok d -> Ingest.AcceptEvents uuid_ok p l d = (Ok ids, d1) -> IngestSpec.log_ok d1.
Proof.
  intros Hok H. apply IngestSpec.AcceptEvents_Ok in H as (b & m & d0 & x & _ & _ & Hall & _ & ->).
  destruct (IngestSpec.accept_all_settles _ _ _ _ _ Hok Hall) as (Hok0 & _). by apply (IngestSpec.log_ok_ext d0).
Qed.
Lemma after_ok r t : (submit r t start).1 = accepted -> submit r t start = (accepted, after r t) /\ IngestSpec.log_ok (w_events (after r t)).
Proof.
  intros H. assert (E : submit r t start = (accepted, after r t)) by (unfold after; rewrite <- H; by destruct (submit r t start)).
  split; [done|]. pose proof E as E'. apply submit_accepted in E' as (? & ? & ? & ? & ? & ? & _ & _ & _ & He & _).
  by eapply AcceptEvents_log_ok; [exact start_ok | exact He].
Qed.

(** Ada and Bob load the page within the same second, and Bob's submission fails;
    and Ada's own, sent again because its answer was lost, fails for her consent. *)
Lemma token_admits_one_witness :
  let ada := request (page_token 1100) "ada@example.test" false in
  let bob := request (page_token 1900) "bob@example.test" false in
  let eve := request (page_token 5000) "eve@example.test" true in
  (submit bob 3 (after ada 2)).1 <> accepted /\ w_events (submit bob 3 (after ada 2)).2 = w_events (after ada 2) /\
  (submit bob 3 (after ada 2)).1 = Answer 500 "internal_error" /\ (submit bob 3 start).1 = accepted /\
  (submit eve 7 (after eve 6)).1 <> accepted /\ (submit eve 7 (after eve 6)).1 = Answer 500 "internal_error".
Proof.
  intros ada bob eve.
  destruct (after_ok ada 2) as [Ea Oa]; [vm_compute; reflexivity|]. destruct (after_ok eve 6) as [Ee Oe]; [vm_compute; reflexivity|].
  destruct (token_admits_one (fun r => Ok r) (fun _ _ => Ok tt) GoStr.of_Z (fun _ => true) "secret" (fun _ _ => Ok tt) "f1" ada bob "1.2.3.4" "1.2.3.4"
    (at_ 2) (at_ 3) start (after ada 2) (after ada 2) page_form page_version) as (H1 & H2 & _);
    [exact start_ok | reflexivity | exact Ea | exact Oa | reflexivity | vm_compute; reflexivity | vm_compute; reflexivity | vm_compute; reflexivity | |].
  { left. vm_compute. discriminate. }
  destruct (token_admits_one (fun r => Ok r) (fun _ _ => Ok tt) GoStr.of_Z (fun _ => true) "secret" (fun _ _ => Ok tt) "f1" eve eve "1.2.3.4" "1.2.3.4"
    (at_ 6) (at_ 7) start (after eve 6) (after eve 6) page_form page_version) as (H3 & _);
    [exact start_ok | reflexivity | exact Ee | exact Oe | reflexivity | vm_compute; reflexivity | vm_compute; reflexivity | reflexivity | |].
  { right. right. split; [|intros i j; vm_compute; discriminate].
    exists (Forms.MkField "optin" "boolean" false None true ""). split; [vm_compute; apply list_elem_of_further, list_elem_of_here|]. by split. }
  split_and!; [exact H1 | exact H2 | vm_compute; reflexivity | vm_compute; reflexivity | exact H3 | vm_compute; reflexivity].
Defined.

(** Half a minute later, Bob has submitted too and an export pipeline has been
    enabled: Ada's retry adds its rows. *)
Definition meanwhile (w : World) : World :=
  let d := w_events w in
  set_events (Ingest.MkQDB (Ingest.q_accepted d) (Ingest.q_jobs d) (Ingest.q_sequence d) (Ingest.q_outbox d) (Ingest.q_quotas d) (Ingest.q_windows d)
    [Ingest.MkPipeline "pipe" "t" "w" "app" "export" "enabled"] (Ingest.q_connectors d) (Ingest.q_connectorJobs d) (Ingest.q_audit d)
    (Ingest.q_locked d) (Ingest.q_used d) (30 * Time.Second)) w.
Lemma app_sub {A} (l l' : list A) : l ⊆ l ++ l'.
Proof. set_solver. Qed.
Lemma meanwhile_kept d w : IngestSpec.kept d (w_events w) -> IngestSpec.kept d (w_events (meanwhile w)).
Proof. intros [? ? ? ? ?]. constructor; [by apply (IngestSpec.log_ok_ext (w_events w)) | done..]. Qed.


(** A submission is dated one second before its token expires: minutes ahead. *)
Lemma submissions_are_dated_ahead :
  (fun e => ae_OccurredAt e) <$> (map_to_list (Ingest.q_accepted (w_events (after (request (page_token 1000) "ada@example.test" false) 2)))).*2 =
  [900 * Time.Second; 900 * Time.Second].
Proof. vm_compute. reflexivity. Qed.

(** One page load, two submissions: a line feed inside the token makes new keys. *)
Lemma altered_token_submits_again :
  let token := page_token 1100 in
  let altered := String.substring 0 10 token +:+ PublicGuardSpec.LF +:+ String.substring 10 (String.length token) token in
  (submit (request altered "bob@example.test" false) 3 (after (request token "ada@example.test" false) 2)).1 = accepted.
Proof. vm_compute. reflexivity. Qed.

End FormWorld.
